(* ===== verification/_CoqProject ===== *)
-Q . S2P
Prelude.v
Dll.v
Misc.v
Memory.v
Cache.v
CacheSet.v
CacheSpec.v
CacheAccess.v
CacheRefine.v
CacheInit.v
CacheCorrect.v
CacheFlush.v
CacheProps.v
Hierarchy.v
HierWf.v
HierRun.v
Isa.v
Bpred.v
BpredWf.v
BpredBtb.v
BpredInit.v
BpredOps.v
BpredRun.v
BpredTrain.v
BpredProps.v
Bitmap.v
Eventq.v
EventqRefine.v
EventqProps.v
Resource.v
ResourceProps.v
Exec.v
ExecMult.v
ExecMeta.v
ExecTotal.v
Funsim.v
FunsimProps.v
Syscall.v
SyscallSim.v
SyscallProps.v
SyscallCorrect.v
SpecSim.v
SpecProps.v
Ruu.v
RuuRing.v
RuuRecover.v
Pipeline.v
PipeSim.v
PipeWindow.v
PipeProps.v
SyscallPipe.v
HierProps.v
SimCache.v
SimCacheProps.v
Eval.v
EvalSpec.v
EvalDen.v
EvalMeaning.v
EvalTotal.v
EvalProps.v
Stats.v
StatsProps.v
Symbol.v
SymbolProps.v
Strto.v
Options.v
OptionsProps.v
OptionsReload.v
OptionsLine.v
OptionsCorrect.v
Range.v
Ptrace.v
RangeProps.v
SimBpred.v
SimBpredProps.v
Profile.v
ProfileProps.v
ProfileCorrect.v
Loader.v
LoaderProps.v
