(* ===== verification/Prelude.v ===== *)
(** SimpleScalar, the superscalar processor simulators of this repository: a
    verification of their parts.

    ** The program

    The simulators (src/sim-*.c) run binaries of a MIPS-like instruction set
    (src/ss.def, src/ss.h, src/ss.c) on a simulated memory (src/memory.c) with
    simulated registers (src/regs.c).  sim-fast and sim-safe execute the
    instructions and nothing else; sim-bpred adds a branch predictor
    (src/bpred.c), sim-cache a hierarchy of caches (src/cache.c), and
    sim-outorder a whole out-of-order pipeline: it executes every instruction
    when it is dispatched, past mispredicted branches too, on copies of the
    registers and the memory that it drops when the branch is resolved, and
    times it with the caches, the predictor and a pool of functional units
    (src/resource.c).  Bit sets (src/bitmap.h), a queue of timed events
    (src/eventq.c) and small helpers (src/misc.c) serve them all, and so do the
    statistics (src/stats.c) with the expressions of their formulas (src/eval.c),
    the symbols of the program (src/symbol.c), the options of the command line
    (src/options.c), and the ranges (src/range.c) that say when the pipeline is
    traced (src/ptrace.c).  sim-profile is sim-safe with profiles of the
    instructions.  The loader (src/loader.c) puts the program and its arguments
    into the memory before any of them runs, and the system calls of the program
    (src/syscall.c) are made on the host.

    ** The files

    Each part has a file with its state and operations, named as in the C code
    (a macro under its own name, the part of a function under a name of its
    own with the function in its comment), and files with the invariant, the
    abstract specification and the theorems:

    - Prelude.v: outcomes of C functions ([Ok], the exits [Fatal], [Panic] and
      [AssertFail], the [Exit] of the simulated program, undefined behaviour [Undef], [NoFuel]), machine integers as
      [Z] with their wrap-around ([u32], [s32], ...), arrays, record update.
    - Dll.v: doubly linked lists threaded through arrays, for the LRU chains
      of the caches and of the branch target buffer.
    - Misc.v: misc.c.
    - Memory.v: memory.c, memory.h, and the theorems about them.
    - Cache.v: cache.c, cache.h.  CacheSet.v: the invariant of a set.
      CacheSpec.v: the abstract cache, lists of lines in replacement order.
      CacheRefine.v, CacheAccess.v, CacheFlush.v, CacheInit.v, CacheCorrect.v:
      the refinement, operation by operation.  CacheProps.v: its properties.
    - Isa.v: the opcodes of ss.def, decoding and flags (ss.c, ss.h).
    - Bpred.v: bpred.c.  BpredWf.v, BpredBtb.v, BpredInit.v, BpredOps.v: the
      invariant, the branch target buffer as lists, every operation.
      BpredRun.v: the branches of a run of sim-bpred.c.  BpredTrain.v: what a
      predictor learns along a run.  BpredProps.v: its properties.
    - Bitmap.v: bitmap.h.  Eventq.v: eventq.c; EventqRefine.v relates it to a
      sorted list, EventqProps.v has its properties.
    - Resource.v: resource.c and the functional units of sim-outorder.c;
      ResourceProps.v.
    - Exec.v: the expressions of ss.def over the macros that a simulator
      defines, which are the class [Machine].  ExecMult.v: the multiplication
      and shift loops, on every machine with lawful registers ([MachineLaws]).
      ExecMeta.v: relations between two machines that [execute] respects
      ([MachineSim]).  ExecTotal.v: where instructions are defined on a machine
      that ignores faults ([TotalMachine]).
    - Funsim.v: regs.c, sim-safe.c, sim-fast.c, as two instances of [Machine],
      with the calls of the host and the trace of a run, the calls that have been made
      with their answers.  FunsimProps.v: its properties, and the instructions a run of
      sim-safe executes.
    - SimBpred.v: sim-bpred.c, its options, its macros and its loop; SimBpredProps.v.
    - SpecSim.v: the trace generator of sim-outorder.c, a third instance of
      [Machine]; SpecProps.v.
    - Ruu.v: the instruction window of sim-outorder.c, the register update
      unit, the load/store queue and what links their stations.  RuuRing.v: its
      circular queues as lists.  RuuRecover.v: recovery of a branch.
      Pipeline.v: the stages of the pipeline and the cycle of [sim_main], over
      an interface to the caches ([MemHier]).  PipeSim.v relates the pipeline to
      sim-safe, PipeWindow.v carries the invariant of the window through the
      stages; PipeProps.v has its properties and a program that runs through it.
    - Hierarchy.v: the caches and TLBs of sim-outorder.c, how they are configured
      and call each other.  HierWf.v, HierRun.v: the laws of a miss handler
      ([HandlerLaws]) and any sequence of references.  HierProps.v: the instance
      of [MemHier] and the properties.  SimCache.v: sim-cache.c, another instance
      of [Machine] over its own hierarchy; SimCacheProps.v.
    - Eval.v: eval.c.  EvalSpec.v: expressions as trees, their strings and
      denotation by the code's operators.  EvalMeaning.v: their meaning in the
      arithmetic of C, independent of the code.  EvalDen.v, EvalTotal.v: the
      evaluator on the strings of trees, and on any string.  EvalProps.v: its properties.
    - Stats.v: stats.c; StatsProps.v.  Symbol.v: symbol.c; SymbolProps.v.
    - Strto.v: numbers as text, as the C library reads and prints them.
      Options.v: options.c.  OptionsProps.v, OptionsReload.v, OptionsLine.v: words,
      lines and one option, a dumped file, a command line; OptionsCorrect.v: its
      properties.
    - Range.v: range.c.  Ptrace.v: ptrace.c.  RangeProps.v: their properties.
    - Profile.v: sim-profile.c.  ProfileProps.v: what a profile has counted, and
      the samples of one instruction.  ProfileCorrect.v: the registration of the
      profiles, and a whole run.
    - Loader.v: loader.c, endian.c, and the start of a program in main.c;
      LoaderProps.v.
    - Syscall.v: syscall.c, over a host ([HostOS]).  SyscallSim.v: what is shown of
      every system call by way of its steps ([SysClosed]), and the laws that the
      comparisons of simulators ask of the system calls, as the instance
      [syscall_laws].  SyscallProps.v: what a call, and a run, can change.
      SyscallCorrect.v: read, write, brk and exit, and the properties.
      SyscallPipe.v: sim-outorder with these system calls.

    ** What the theorems show

    - Pipeline: the instructions that sim-outorder counts on the right path
      leave the registers, the memory and the next PC that sim-safe has after
      as many, whatever is predicted, reordered and squashed on the way
      ([pipeline_executes_program]); with syscall.c, for any host, also the same system
      calls, none on a wrong path ([outorder_serves_program]).  The queues of the
      window stay consistent, so its sanity checks never fail ([pipeline_window_consistent]), and recovery
      squashes exactly what is younger ([ruu_recover_squashes_younger]).
    - Hierarchy: every reference of the pipeline is served without an error and
      the requests are conserved from level to level
      ([hierarchy_conserves_requests]); sim-cache executes what sim-safe does
      ([sim_cache_agrees]).
    - Trace generator: past a mispredicted branch everything is executed whatever
      its faults, but instructions whose fields name no register and the division
      of INT_MIN by -1, and after [tracer_recover] nothing of it is left
      ([misspeculation_leaves_no_trace]); on the right path dispatch executes
      as sim-safe does ([right_path_refines_sim_safe]).  sim-fast executes what
      sim-safe would if it started where sim-fast does, with the next PC equal to
      the PC, and what sim-safe does from where its first instruction has led
      ([sim_fast_agrees]).
    - Instructions: exact products and shifts, the exact conditions under which
      the checked arithmetic faults, a complete decoder, consistent flags.
    - Caches: a cache with its chains, hash tables and latencies refines the
      abstract cache in every call, so hits, victims and writebacks are those
      of the replacement policy; data written is read back as long as its block
      stays, whatever else is accessed ([cache_read_back]), a larger LRU cache
      contains a smaller one, probes predict accesses, flushes empty it.
    - Branch predictors: no assertion fails along any run and the tables keep
      their invariant; what lookup returns, that targets are retained, returns
      predicted in LIFO order and counters trained; sim-bpred executes what
      sim-safe does and consults the predictor for exactly the control
      instructions ([sim_bpred_agrees]).
    - Loader: the sections, the bounds, the entry and the stack are those of the
      headers and the arguments ([start_program_image]).
    - System calls: on any host, no program changes what it may not write
      ([run_protects_program]), and read() and write() move the bytes between the
      host and the program, with the code's own treatment of a failed read() and of
      a short write() ([read_write_transfer]).  All the simulators make the
      calls of sim-safe in the order of sim-safe; that is part of the theorems that
      compare them.
    - Memory: an access moves the addressed bytes and no others; copies round
      trip; strings are copied to their end.
    - Expressions: evaluation gives the meaning of the tree that is read in
      C's arithmetic, but that operators group to the right and a minus sign
      before an int has no effect ([eval_expr_denotes]), of the type of the tree ([eval_expr_typed]), and ends
      on any string, undefined for no division but that of INT_MIN by -1
      ([eval_expr_ends]); the value of a formula is its meaning over the
      statistics before it ([stat_formula_value]).
    - Statistics, symbols: a distribution prints the samples it was given
      ([sdist_prints_samples]); the searches find the symbol that contains an
      address or has a name ([sym_bind_addr_nearest] and the lemma [sym_bind_name_finds]).
    - Options: a command line means a map from options to values
      ([command_line_refines]), and a configuration of options that can be dumped is
      restored when it is loaded ([dump_config_reloads]).
    - Ranges, pipetrace: a range is what its form says
      ([range_parse_denotes]), and the trace has the events of the first window
      of cycles in it ([ptrace_records_first_window]).
    - Profiles: sim-profile executes what sim-safe does and counts exactly the
      samples of its instructions ([profile_counts_instructions]).
    - Event queue, resource pools, bitmaps: refinement of a time ordered list
      without a limit, which loses what a callback queues for the time being serviced
      ([eventq_implements_time_ordered_queue]), the busy times of units, sets of bit
      numbers.
    - Calls the code does not serve are stated as such: the theorems whose
      names end in undef, fatal, asserts, overruns, low_words and lost, and
      lemmas such as [sim_fast_repeats_first] and [spec_reads_stale_copy].

    ** Fuel

    Loops over a structure recur on it.  The loops that follow links have as
    fuel the size of the array plus one, which a well-formed chain never
    exhausts, and the theorems conclude with [Ok], never [NoFuel].  The loops
    over a count in the code take the count.  The main loops of the simulators,
    which do not end, are taken for any number of steps; string copies and
    event services take fuel, and their theorems say how much is enough.

    ** What is not modelled

    Arguments of the model: host floating-point arithmetic ([HostFP]), strtod()
    and the width of a long ([EvalHost]), strtod() and the printing of floating
    point of options and ranges ([OptHost], [RangeHost]), qsort() ([Qsort]), the
    answers of the host to system calls ([HostOS]; the models of the simulators take
    any [ss_syscall], of which [syscall_env] is that of syscall.c), the byte
    order of the host, the text of an instruction in a trace, the miss handlers of
    caches and the callbacks of events.  Files are what has been read of them, or
    a map from names to contents.  Left out: sim-cheetah, which calls a library
    that is not of the simulators; the debugger and the rest of the main program
    (src/dlite.c, main.c), which read commands and start the rest, the loader of a
    build with libbfd, and the printing functions of the parts that are modelled;
    src/sysprobe.c, which probes the host for the build; the branches of syscall.c for
    AIX, Cygwin, HP-UX and System V, and for hosts of 64-bit longs, of which its
    structures are not aware; and the vendored
    src/binutils-2.5.2. *)

From stdpp Require Export base tactics list option numbers sets gmap.
From Stdlib Require Export ZArith Lia Bool.

Declare Scope c_scope.
Delimit Scope c_scope with C.
Open Scope Z_scope.

(** * Outcomes *)

(** What running a piece of the program gives: a value, one of the program's
    own error exits, or the point where C gives no meaning to the execution. *)
Inductive outcome (A : Type) : Type :=
| Ok (a : A)
| Exit (code : Z)  (* [exit(code)]: the simulated program has ended *)
| Fatal        (* [fatal()]: a run-time error was declared, exit(1) *)
| Panic        (* [panic()]: the simulator found itself inconsistent, abort() *)
| AssertFail   (* a failed [assert()] *)
| Undef        (* null or out-of-range access: undefined behaviour in C *)
| NoFuel.      (* the model's loop bound was reached; theorems exclude it *)

Arguments Ok {A} _.
Arguments Exit {A} _.
Arguments Fatal {A}.
Arguments Panic {A}.
Arguments AssertFail {A}.
Arguments Undef {A}.
Arguments NoFuel {A}.

#[global] Instance outcome_ret : MRet outcome := fun _ a => Ok a.
#[global] Instance outcome_bind : MBind outcome := fun _ _ k m =>
  match m with
  | Ok a => k a
  | Exit code => Exit code
  | Fatal => Fatal
  | Panic => Panic
  | AssertFail => AssertFail
  | Undef => Undef
  | NoFuel => NoFuel
  end.

#[global] Instance outcome_eq_dec {A : Type} `{EqDecision A} : EqDecision (outcome A).
Proof. solve_decision. Defined.

(** Whether the execution gives a value. *)
Definition succeeds {A : Type} (m : outcome A) : bool := match m with Ok _ => true | _ => false end.

(** [C assert]: the execution goes on only if the condition holds. *)
Definition c_assert (b : bool) : outcome unit := if b then Ok tt else AssertFail.

(** [fatal_if b] is [if (b) fatal(...)]. *)
Definition fatal_if (b : bool) : outcome unit := if b then Fatal else Ok tt.

(** Dereference of a pointer that may be null. *)
Definition deref {A : Type} (p : option A) : outcome A :=
  match p with Some a => Ok a | None => Undef end.

(** Reading and writing element [i] of a C array: out of range is undefined. *)
Definition c_get {A : Type} (l : list A) (i : nat) : outcome A := deref (l !! i).

Definition c_upd {A : Type} (l : list A) (i : nat) (f : A -> A) : outcome (list A) :=
  match l !! i with Some a => Ok (<[i := f a]> l) | None => Undef end.

(** * Machine integers *)

(** [uN x] is the value of [x] stored in an N-bit unsigned integer, [sN x] in a
    two's complement N-bit signed one. *)
Definition u8 (x : Z) : Z := x mod 2 ^ 8.
Definition u16 (x : Z) : Z := x mod 2 ^ 16.
Definition u32 (x : Z) : Z := x mod 2 ^ 32.
Definition s16 (x : Z) : Z := (x + 2 ^ 15) mod 2 ^ 16 - 2 ^ 15.
Definition s32 (x : Z) : Z := (x + 2 ^ 31) mod 2 ^ 32 - 2 ^ 31.
Definition s64 (x : Z) : Z := (x + 2 ^ 63) mod 2 ^ 64 - 2 ^ 63.

(** [~x] on an unsigned int. *)
Definition u32_not (x : Z) : Z := u32 (Z.lnot x).

(** misc.h: the macros MAX and MIN. *)
Definition MAX (a b : Z) : Z := if a <? b then b else a.
Definition MIN (a b : Z) : Z := if a <? b then a else b.

(** The code's test [(n & (n-1)) != 0] for "not a power of two" (zero passes). *)
Definition not_pow2 (n : Z) : bool := negb (Z.land n (n - 1) =? 0).

(** C truth value of an integer, and the integer a C comparison gives. *)
Definition truth (x : Z) : bool := negb (x =? 0).
Definition b2z (b : bool) : Z := if b then 1 else 0.

(** * Record update *)

(** [r <| f := v |>] is [r] with field [f] set to [v], [r <| f ::= g |>] with
    [g] applied to field [f].  The setter of a field is found by abstracting the
    projection in the eta expansion of the record. *)
Class SetField {R T : Type} (proj : R -> T) := mk_setter { set_field : (T -> T) -> R -> R }.
Arguments set_field {R T} proj {_} f r.

Class Eta (R : Type) := mk_eta { eta_expand : R -> R }.
Arguments mk_eta {R} _.

Ltac find_setter :=
  lazymatch goal with
  | |- @SetField ?R ?T ?proj =>
      let inst := constr:(_ : Eta R) in
      let h := eval hnf in (@eta_expand R inst) in
      lazymatch eval pattern proj in h with
      | ?body _ => exact (mk_setter R T proj (fun f => ltac:(let t := eval cbv beta in (body (fun r : R => f (proj r))) in exact t)))
      end
  end.
#[global] Hint Extern 1 (@SetField _ _ _) => find_setter : typeclass_instances.

Notation "r <| f := v |>" := (set_field f (fun _ => v) r)
  (at level 1, f at next level, left associativity, format "r  <| f  :=  v |>").
Notation "r <| f ::= g |>" := (set_field f g r)
  (at level 1, f at next level, left associativity, format "r  <| f  ::=  g |>").

(** * Automation *)

Create HintDb sim.
Create Rewrite HintDb simrw.

(** Case analysis on a bind in a hypothesis that the execution succeeded. *)
Ltac inv_ok :=
  repeat match goal with
  | H : mbind _ ?m = Ok _ |- _ =>
      let E := fresh "E" in destruct m eqn:E; simpl in H; try discriminate H
  | H : Ok _ = Ok _ |- _ => injection H as H
  | H : mret _ = Ok _ |- _ => injection H as H
  | H : c_assert ?b = Ok _ |- _ =>
      let E := fresh "E" in unfold c_assert in H; destruct b eqn:E; [clear H | discriminate H]
  | H : fatal_if ?b = Ok _ |- _ =>
      let E := fresh "E" in unfold fatal_if in H; destruct b eqn:E; [discriminate H | clear H]
  end.

(** [lia] for goals that are boolean equations. *)
Ltac blia :=
  lazymatch goal with
  | |- _ = true => idtac
  | |- _ = false => idtac
  | |- true = _ => symmetry
  | |- false = _ => symmetry
  | |- @eq bool _ _ => apply eq_true_iff_eq
  | |- _ => idtac
  end;
  rewrite ?andb_true_iff, ?andb_false_iff, ?orb_true_iff, ?orb_false_iff,
    ?negb_true_iff, ?negb_false_iff, ?andb_true_iff, ?andb_false_iff,
    ?orb_true_iff, ?orb_false_iff, ?Z.leb_le, ?Z.leb_gt, ?Z.ltb_lt, ?Z.ltb_ge,
    ?Z.eqb_eq, ?Z.eqb_neq, ?Nat.leb_le, ?Nat.leb_gt, ?Nat.ltb_lt, ?Nat.ltb_ge, ?Nat.eqb_eq, ?Nat.eqb_neq;
  lia.

(** Boolean tests of the code turned into the propositions they decide. *)
Ltac bool_to_prop :=
  repeat match goal with
  | H : _ && _ = true |- _ => apply andb_prop in H as [? ?]
  | H : _ || _ = false |- _ => apply orb_false_elim in H as [? ?]
  | H : negb _ = true |- _ => apply negb_true_iff in H
  | H : negb _ = false |- _ => apply negb_false_iff in H
  | H : (_ =? _) = true |- _ => apply Z.eqb_eq in H
  | H : (_ =? _) = false |- _ => apply Z.eqb_neq in H
  | H : (_ <? _) = true |- _ => apply Z.ltb_lt in H
  | H : (_ <? _) = false |- _ => apply Z.ltb_ge in H
  | H : (_ <=? _) = true |- _ => apply Z.leb_le in H
  | H : (_ <=? _) = false |- _ => apply Z.leb_gt in H
  | H : bool_decide _ = true |- _ => apply bool_decide_eq_true in H
  | H : bool_decide _ = false |- _ => apply bool_decide_eq_false in H
  end.

(** * Lemmas on outcomes *)

Lemma c_assert_true (b : bool) : b = true -> c_assert b = Ok tt.
Proof. intros ->. reflexivity. Qed.

Lemma fatal_if_false (b : bool) : b = false -> fatal_if b = Ok tt.
Proof. intros ->. reflexivity. Qed.

Lemma succeeds_false {A : Type} (m : outcome A) : (forall a, m <> Ok a) -> succeeds m = false.
Proof. intros H. destruct m; [by destruct (H a)|done..]. Qed.

Lemma bind_ok {A B : Type} (m : outcome A) (k : A -> outcome B) (b : B) :
  mbind k m = Ok b <-> exists a, m = Ok a /\ k a = Ok b.
Proof. destruct m; cbn; naive_solver. Qed.

(** For results whose [injection] would split a record. *)
Lemma Ok_inj {A : Type} (a b : A) : Ok a = Ok b -> a = b.
Proof. congruence. Qed.

Lemma mbind_ok {A B : Type} (k : A -> outcome B) (a : A) : mbind k (Ok a) = k a.
Proof. reflexivity. Qed.

(** Two executions that end in related values, or fail the same way. *)
Definition orel {A B : Type} (R : A -> B -> Prop) (m1 : outcome A) (m2 : outcome B) : Prop :=
  match m1, m2 with
  | Ok a, Ok b => R a b
  | Exit c, Exit c' => c = c'
  | Fatal, Fatal | Panic, Panic | AssertFail, AssertFail | Undef, Undef | NoFuel, NoFuel => True
  | _, _ => False
  end.

Lemma orel_bind {A B A' B' : Type} (R : A -> B -> Prop) (R' : A' -> B' -> Prop)
    (m1 : outcome A) (m2 : outcome B) (k1 : A -> outcome A') (k2 : B -> outcome B') :
  orel R m1 m2 -> (forall a b, m1 = Ok a -> m2 = Ok b -> R a b -> orel R' (k1 a) (k2 b)) ->
  orel R' (mbind k1 m1) (mbind k2 m2).
Proof. destruct m1, m2; cbn; auto; done. Qed.

Lemma orel_mono {A B : Type} (R R' : A -> B -> Prop) (m1 : outcome A) (m2 : outcome B) :
  (forall a b, R a b -> R' a b) -> orel R m1 m2 -> orel R' m1 m2.
Proof. destruct m1, m2; cbn; auto. Qed.

Lemma orel_trans {A B C : Type} (R : A -> B -> Prop) (R' : B -> C -> Prop)
    (m1 : outcome A) (m2 : outcome B) (m3 : outcome C) :
  orel R m1 m2 -> orel R' m2 m3 -> orel (fun a c => exists b, R a b /\ R' b c) m1 m3.
Proof. destruct m1, m2; cbn; intros H; try done; destruct m3; cbn; intros H2; try done; [by eauto|congruence]. Qed.

Lemma orel_eq {A : Type} (m : outcome A) : orel eq m m.
Proof. by destruct m. Qed.

Lemma orel_ok_r {A B : Type} (R : A -> B -> Prop) (m : outcome A) (b : B) :
  orel R m (Ok b) -> exists a, m = Ok a /\ R a b.
Proof. destruct m; cbn; naive_solver. Qed.

Lemma alter_insert {A : Type} (l : list A) (i : nat) (f : A -> A) (a : A) :
  l !! i = Some a -> alter f i l = <[i := f a]> l.
Proof.
  intros Ha. rewrite list_insert_alter. apply list_eq. intros j.
  rewrite !list_lookup_alter. case_decide; [subst; by rewrite Ha|done].
Qed.

Lemma c_upd_alter {A : Type} (l : list A) (i : nat) (f : A -> A) :
  is_Some (l !! i) -> c_upd l i f = Ok (alter f i l).
Proof.
  intros [a Ha]. unfold c_upd. rewrite Ha. f_equal.
  symmetry. by apply alter_insert.
Qed.

Lemma c_upd_insert {A : Type} (l : list A) (i : nat) (f : A -> A) (a : A) :
  l !! i = Some a -> c_upd l i f = Ok (<[i := f a]> l).
Proof. intros H. unfold c_upd. by rewrite H. Qed.

Lemma c_get_some {A : Type} (l : list A) (i : nat) (a : A) :
  l !! i = Some a -> c_get l i = Ok a.
Proof. intros H. unfold c_get. by rewrite H. Qed.

Lemma list_fmap_alter_id {A B : Type} (f : A -> B) (g : A -> A) (l : list A) (i : nat) :
  (forall a, f (g a) = f a) -> f <$> alter g i l = f <$> l.
Proof.
  intros H. revert i. induction l as [|a l IH]; intros [|i]; csimpl; auto.
  - by rewrite H.
  - f_equal. apply IH.
Qed.

Lemma lookup_repeat {A : Type} (a : A) (n k : nat) : (k < n)%nat -> repeat a n !! k = Some a.
Proof. revert k. induction n as [|n IH]; intros [|k] Hk; cbn; [lia..|done|]. apply IH. lia. Qed.

(** * Lemmas on machine integers *)

Section MachineIntegers.
Variable x : Z.

Lemma u32_range : 0 <= u32 x < 2 ^ 32.
Proof. apply Z.mod_pos_bound. lia. Qed.

Lemma u32_small : 0 <= x < 2 ^ 32 -> u32 x = x.
Proof. apply Z.mod_small. Qed.

Lemma u8_range : 0 <= u8 x < 2 ^ 8.
Proof. apply Z.mod_pos_bound. lia. Qed.

Lemma u8_small : 0 <= x < 2 ^ 8 -> u8 x = x.
Proof. apply Z.mod_small. Qed.

Lemma s32_range : - 2 ^ 31 <= s32 x < 2 ^ 31.
Proof. unfold s32. pose proof (Z.mod_pos_bound (x + 2 ^ 31) (2 ^ 32)). lia. Qed.

Lemma s32_small : - 2 ^ 31 <= x < 2 ^ 31 -> s32 x = x.
Proof. intros H. unfold s32. rewrite Z.mod_small; lia. Qed.

Lemma s64_range : - 2 ^ 63 <= s64 x < 2 ^ 63.
Proof. unfold s64. pose proof (Z.mod_pos_bound (x + 2 ^ 63) (2 ^ 64)). lia. Qed.

Lemma s64_small : - 2 ^ 63 <= x < 2 ^ 63 -> s64 x = x.
Proof. intros H. unfold s64. rewrite Z.mod_small; lia. Qed.

Lemma s32_u32 : s32 (u32 x) = s32 x.
Proof. unfold s32, u32. f_equal. rewrite Zplus_mod_idemp_l. reflexivity. Qed.

Lemma u32_s32 : u32 (s32 x) = u32 x.
Proof.
  unfold s32, u32. rewrite Zminus_mod_idemp_l. f_equal. lia.
Qed.

Lemma u32_u32 : u32 (u32 x) = u32 x.
Proof. apply Z.mod_mod. lia. Qed.

Lemma u32_nonzero : - 2 ^ 31 <= x < 2 ^ 31 -> x <> 0 -> u32 x <> 0.
Proof. intros Hx Hn H. apply Z.mod_divide in H as [k ->]; [|done]. lia. Qed.

End MachineIntegers.

Lemma MAX_max (a b : Z) : MAX a b = Z.max a b.
Proof. unfold MAX. destruct (Z.ltb_spec a b); lia. Qed.

Lemma MIN_min (a b : Z) : MIN a b = Z.min a b.
Proof. unfold MIN. destruct (Z.ltb_spec a b); lia. Qed.

#[export] Hint Resolve u32_range s32_range s64_range u8_range : sim.
#[export] Hint Rewrite u32_s32 s32_u32 u32_u32 MAX_max MIN_min : simrw.

(** * Lemmas on bits *)

Lemma pow2_pos (k : Z) : 0 <= k -> 0 < 2 ^ k.
Proof. intros. apply Z.pow_pos_nonneg; lia. Qed.

Lemma land_mask (x k : Z) : 0 <= k -> Z.land x (2 ^ k - 1) = x mod 2 ^ k.
Proof. intros H. rewrite <- Z.land_ones by lia. f_equal. rewrite Z.ones_equiv. lia. Qed.

(** The code's power of two test is exact on positive numbers. *)
Lemma not_pow2_spec (n : Z) : 0 < n -> not_pow2 n = false <-> exists k, 0 <= k /\ n = 2 ^ k.
Proof.
  intros Hn. unfold not_pow2. rewrite negb_false_iff, Z.eqb_eq. split.
  - intros Hl. exists (Z.log2 n). split; [apply Z.log2_nonneg|].
    destruct (Z.log2_spec n Hn) as [H1 H2].
    destruct (Z.eq_dec n (2 ^ Z.log2 n)) as [|Hne]; [done|exfalso].
    assert (Hlog : Z.log2 (n - 1) = Z.log2 n).
    { apply Z.log2_unique; [apply Z.log2_nonneg|lia]. }
    assert (Hb : Z.testbit (Z.land n (n - 1)) (Z.log2 n) = true).
    { rewrite Z.land_spec, Z.bit_log2, <- Hlog, Z.bit_log2; [done| |done].
      pose proof (pow2_pos (Z.log2 n) (Z.log2_nonneg n)). lia. }
    by rewrite Hl, Z.testbit_0_l in Hb.
  - intros (k & Hk & ->). rewrite land_mask by done. apply Z.mod_same.
    pose proof (pow2_pos k Hk). lia.
Qed.

Lemma shiftr_div (x k : Z) : 0 <= k -> Z.shiftr x k = x / 2 ^ k.
Proof. apply Z.shiftr_div_pow2. Qed.

Lemma shiftl_mul (x k : Z) : 0 <= k -> Z.shiftl x k = x * 2 ^ k.
Proof. apply Z.shiftl_mul_pow2. Qed.

(** Gluing a low field under a shifted high one is addition. *)
Lemma lor_add (a b k : Z) : 0 <= k -> 0 <= b < 2 ^ k -> Z.lor (a * 2 ^ k) b = a * 2 ^ k + b.
Proof.
  intros Hk Hb.
  assert (Hland : Z.land (a * 2 ^ k) b = 0).
  { apply Z.bits_inj'. intros n Hn. rewrite Z.land_spec, Z.testbit_0_l.
    destruct (Z.eq_dec b 0) as [->|Hb0]; [by rewrite Z.testbit_0_l, andb_false_r|].
    destruct (Z.lt_ge_cases n k).
    - by rewrite Z.mul_pow2_bits_low.
    - rewrite (Z.bits_above_log2 b n); [apply andb_false_r|lia|].
      apply Z.log2_lt_pow2; [lia|].
      eapply Z.lt_le_trans; [apply Hb|]. apply Z.pow_le_mono_r; lia. }
  rewrite <- Z.lxor_lor by done. symmetry. by apply Z.add_nocarry_lxor.
Qed.

(** Clearing the low [k] bits of an address. *)
Lemma land_not_mask (x k : Z) :
  0 <= x < 2 ^ 32 -> 0 <= k <= 32 -> Z.land x (u32_not (2 ^ k - 1)) = x - x mod 2 ^ k.
Proof.
  intros Hx Hk. unfold u32_not, u32. rewrite <- !Z.land_ones by lia.
  replace (2 ^ k - 1) with (Z.ones k) by (rewrite Z.ones_equiv; lia).
  rewrite Z.land_assoc, (Z.land_comm x), <- Z.land_assoc.
  rewrite (Z.land_ones x 32), (Z.mod_small x) by lia.
  rewrite Z.land_comm, <- Z.ldiff_land.
  rewrite Z.ldiff_ones_r, Z.land_ones by lia.
  rewrite Z.shiftl_mul_pow2, Z.shiftr_div_pow2 by lia.
  pose proof (Z.div_mod x (2 ^ k)). pose proof (pow2_pos k). lia.
Qed.

Lemma land_nonneg_r (a b : Z) : 0 <= b -> 0 <= Z.land a b.
Proof. intros. apply Z.land_nonneg. by right. Qed.

Lemma land_le_r (a b : Z) : 0 <= b -> Z.land a b <= b.
Proof.
  intros Hb. destruct (Z.lt_ge_cases (Z.land a b) 0); [lia|].
  pose proof (Z.sub_nocarry_ldiff b (Z.land a b)) as Hs.
  assert (Hd : Z.ldiff (Z.land a b) b = 0).
  { apply Z.bits_inj'. intros n _. rewrite Z.ldiff_spec, Z.land_spec, Z.testbit_0_l.
    destruct (Z.testbit a n), (Z.testbit b n); done. }
  specialize (Hs Hd).
  assert (0 <= Z.ldiff b (Z.land a b)) by (apply Z.ldiff_nonneg; lia). lia.
Qed.

#[export] Hint Resolve pow2_pos : sim.

Lemma map_cons_inv {A B : Type} (f : A -> B) x y l l' : map f (y :: l') = map f (x :: l) -> f y = f x /\ map f l' = map f l.
Proof. cbn. generalize (f x), (f y). intros a b [=]. done. Qed.
