(* ===== verification/Dll.v ===== *)
(** Doubly linked lists threaded through an array of nodes: the LRU way chains
    of the caches and the LRU chains of the branch target buffer.  A pointer is
    an index into the array, NULL is [None].  A node type gives its two link
    fields through [Linked]. *)

From S2P Require Import Prelude.

(** What a node type promises about its two link fields. *)
Class Linked (N : Type) := {
  lprev : N -> option nat;
  lnext : N -> option nat;
  set_lprev : option nat -> N -> N;
  set_lnext : option nat -> N -> N;
  lprev_set_lprev v b : lprev (set_lprev v b) = v;
  lnext_set_lprev v b : lnext (set_lprev v b) = lnext b;
  lprev_set_lnext v b : lprev (set_lnext v b) = lprev b;
  lnext_set_lnext v b : lnext (set_lnext v b) = v;
}.

(** First element of [l], or [n] when there is none; last one, or [p]. *)
Definition hd_or (l : list nat) (n : option nat) : option nat :=
  match l with [] => n | i :: _ => Some i end.

Fixpoint last_or (p : option nat) (l : list nat) : option nat :=
  match l with [] => p | i :: l' => last_or (Some i) l' end.

Section Dll.
Context {N : Type} `{Linked N}.
Implicit Types (nodes : list N) (l : list nat) (p n : option nat).

(** The nodes [l] are linked in this order, [p] before the first one and [n]
    after the last one. *)
Fixpoint dllseg nodes p l n : Prop :=
  match l with
  | [] => True
  | i :: l' => exists b, nodes !! i = Some b /\ lprev b = p /\ lnext b = hd_or l' n
               /\ dllseg nodes (Some i) l' n
  end.

(** A whole list with its head and tail pointers. *)
Definition dlist nodes (hd tl : option nat) l : Prop :=
  NoDup l /\ hd = hd_or l None /\ tl = last_or None l /\ dllseg nodes None l None.

Lemma hd_or_app l1 l2 n : hd_or (l1 ++ l2) n = hd_or l1 (hd_or l2 n).
Proof. destruct l1; reflexivity. Qed.

Lemma last_or_app p l1 l2 : last_or p (l1 ++ l2) = last_or (last_or p l1) l2.
Proof. revert p. induction l1; simpl; auto. Qed.

Lemma last_or_nonempty p l i : last_or p (i :: l) = last_or None (i :: l).
Proof. reflexivity. Qed.

Lemma last_or_elem p l i : last_or p l = Some i -> p = Some i \/ i ∈ l.
Proof.
  revert p. induction l as [|j l IH]; simpl; intros p Hl; [by left|].
  right. destruct (IH _ Hl) as [[= ->]|]; set_solver.
Qed.

Lemma dllseg_app nodes p l1 l2 n :
  dllseg nodes p (l1 ++ l2) n <->
  dllseg nodes p l1 (hd_or l2 n) /\ dllseg nodes (last_or p l1) l2 n.
Proof.
  revert p. induction l1 as [|i l1 IH]; intros p; simpl; [naive_solver|].
  setoid_rewrite hd_or_app. setoid_rewrite IH. naive_solver.
Qed.

Lemma dllseg_lookup nodes p l n i : dllseg nodes p l n -> i ∈ l -> is_Some (nodes !! i).
Proof.
  revert p. induction l as [|j l IH]; intros p Hs Hi; [set_solver|].
  destruct Hs as (b & Hb & _ & _ & Hs). apply elem_of_cons in Hi as [->|Hi]; eauto.
Qed.

(** Only the links of the nodes of the segment matter. *)
Lemma dllseg_frame nodes nodes' p l n :
  (forall i, i ∈ l -> (fun b => (lprev b, lnext b)) <$> nodes' !! i
                      = (fun b => (lprev b, lnext b)) <$> nodes !! i) ->
  dllseg nodes p l n -> dllseg nodes' p l n.
Proof.
  revert p. induction l as [|i l IH]; intros p Heq Hs; [done|].
  destruct Hs as (b & Hb & Hp & Hn & Hs).
  pose proof (Heq i ltac:(set_solver)) as Hi. rewrite Hb in Hi. simpl in Hi.
  destruct (nodes' !! i) as [b'|] eqn:Hb'; simpl in Hi; [|done].
  exists b'. split; [done|]. simplify_eq. repeat split; [congruence..|].
  apply IH; [|done]. intros j Hj. apply Heq. set_solver.
Qed.

Lemma dllseg_alter_notin nodes p l n i f :
  i ∉ l -> dllseg nodes p l n -> dllseg (alter f i nodes) p l n.
Proof.
  intros Hi. apply dllseg_frame. intros j Hj.
  rewrite list_lookup_alter_ne; [done|]. set_solver.
Qed.

(** Changes of the payload leave a segment alone. *)
Lemma dllseg_alter_payload nodes p l n i f :
  (forall b, lprev (f b) = lprev b) -> (forall b, lnext (f b) = lnext b) ->
  dllseg nodes p l n -> dllseg (alter f i nodes) p l n.
Proof.
  intros Hp Hn. apply dllseg_frame. intros j _.
  destruct (decide (i = j)) as [<-|Hne].
  - rewrite list_lookup_alter_eq. destruct (nodes !! i); simpl; [|done]. by rewrite Hp, Hn.
  - by rewrite list_lookup_alter_ne.
Qed.

Lemma dllseg_set_prev nodes p p' i l n :
  i ∉ l -> dllseg nodes p (i :: l) n -> dllseg (alter (set_lprev p') i nodes) p' (i :: l) n.
Proof.
  intros Hi (b & Hb & Hp & Hn & Hs). exists (set_lprev p' b).
  rewrite list_lookup_alter_eq, Hb, lprev_set_lprev, lnext_set_lprev. repeat split; [done|].
  by apply dllseg_alter_notin.
Qed.

Lemma dllseg_set_next nodes p l i n n' :
  i ∉ l -> dllseg nodes p (l ++ [i]) n -> dllseg (alter (set_lnext n') i nodes) p (l ++ [i]) n'.
Proof.
  intros Hi. rewrite !dllseg_app. intros [Hl (b & Hb & Hp & Hn & _)]. split.
  - by apply dllseg_alter_notin.
  - exists (set_lnext n' b).
    rewrite list_lookup_alter_eq, Hb, lprev_set_lnext, lnext_set_lnext. by repeat split.
Qed.

(** Any node of a list splits it. *)
Lemma dlist_split nodes hd tl l i :
  dlist nodes hd tl l -> i ∈ l ->
  exists l1 l2 b, l = l1 ++ i :: l2 /\ nodes !! i = Some b /\
    lprev b = last_or None l1 /\ lnext b = hd_or l2 None.
Proof.
  intros (_ & _ & _ & Hs) Hi. apply list_elem_of_split in Hi as (l1 & l2 & ->).
  apply dllseg_app in Hs as [_ (b & Hb & Hp & Hn & _)]. by exists l1, l2, b.
Qed.

(** Taking the node out of the links of its neighbours: the three places it can
    have in a list of at least two nodes. *)
Lemma dlist_unlink_first nodes i j l :
  NoDup (i :: j :: l) -> dllseg nodes None (i :: j :: l) None ->
  dllseg (alter (set_lprev None) j nodes) None (j :: l) None.
Proof.
  intros Hnd (b & Hb & _ & _ & Hs). eapply dllseg_set_prev; [|done].
  rewrite !NoDup_cons in Hnd. naive_solver.
Qed.

Lemma dlist_unlink_last nodes l j i :
  NoDup (l ++ [j; i]) -> dllseg nodes None (l ++ [j; i]) None ->
  dllseg (alter (set_lnext None) j nodes) None (l ++ [j]) None.
Proof.
  intros Hnd Hs. change [j; i] with ([j] ++ [i]) in Hs.
  rewrite app_assoc, dllseg_app in Hs. destruct Hs as [Hs _].
  eapply dllseg_set_next; [|done].
  rewrite NoDup_app in Hnd. destruct Hnd as (_ & Hd & _). intros Hj. apply (Hd j Hj). set_solver.
Qed.

Lemma dlist_unlink_middle nodes l1 a i c l2 :
  NoDup (l1 ++ a :: i :: c :: l2) ->
  dllseg nodes None (l1 ++ a :: i :: c :: l2) None ->
  dllseg (alter (set_lprev (Some a)) c (alter (set_lnext (Some c)) a nodes)) None
    (l1 ++ a :: c :: l2) None.
Proof.
  intros Hnd Hs.
  assert (Hnd' : NoDup ((l1 ++ [a]) ++ [i] ++ (c :: l2))) by (by rewrite <- app_assoc).
  replace (l1 ++ a :: i :: c :: l2) with ((l1 ++ [a]) ++ [i] ++ (c :: l2)) in Hs
    by (by rewrite <- app_assoc).
  replace (l1 ++ a :: c :: l2) with ((l1 ++ [a]) ++ (c :: l2)) by (by rewrite <- app_assoc).
  apply NoDup_app in Hnd' as (Hn1 & Hd & Hn2). simpl in Hn2. rewrite !NoDup_cons in Hn2.
  destruct Hn2 as (Hi & Hc & Hn2).
  apply NoDup_app in Hn1 as (_ & Ha & _).
  rewrite !dllseg_app in Hs. destruct Hs as [Hs1 [_ Hs3]].
  assert (Hca : c ∉ l1 ++ [a]). { intros Hx. apply (Hd c Hx). set_solver. }
  rewrite dllseg_app. split.
  - apply dllseg_alter_notin; [done|].
    eapply dllseg_set_next; [|by apply dllseg_app]. intros Hx. apply (Ha a Hx). set_solver.
  - rewrite last_or_app. simpl.
    apply (dllseg_set_prev _ (last_or (last_or None (l1 ++ [a])) [i])); [done|].
    apply dllseg_alter_notin; [|done]. intros Hx. apply (Hd a); set_solver.
Qed.

(** Linking a free node in front of, or behind, a non-empty list. *)
Lemma dlist_link_head nodes i h l b :
  NoDup (i :: h :: l) -> nodes !! i = Some b -> dllseg nodes None (h :: l) None ->
  dllseg (alter (set_lprev (Some i)) h (alter (set_lprev None) i (alter (set_lnext (Some h)) i nodes)))
    None (i :: h :: l) None.
Proof.
  intros Hnd Hb Hs. rewrite !NoDup_cons in Hnd. destruct Hnd as (Hi & Hh & _).
  assert (i <> h) by set_solver. change (i :: h :: l) with ([i] ++ (h :: l)).
  apply dllseg_app. simpl hd_or. split.
  - exists (set_lprev None (set_lnext (Some h) b)).
    rewrite list_lookup_alter_ne, !list_lookup_alter_eq, Hb by done. simpl.
    rewrite lprev_set_lprev, lnext_set_lprev, lnext_set_lnext. done.
  - simpl last_or. eapply dllseg_set_prev; [done|].
    do 2 (apply dllseg_alter_notin; [done|]). done.
Qed.

Lemma dlist_link_tail nodes i t l b :
  NoDup (l ++ [t; i]) -> nodes !! i = Some b -> dllseg nodes None (l ++ [t]) None ->
  dllseg (alter (set_lnext (Some i)) t (alter (set_lnext None) i (alter (set_lprev (Some t)) i nodes)))
    None (l ++ [t; i]) None.
Proof.
  intros Hnd Hb Hs. change [t; i] with ([t] ++ [i]). rewrite app_assoc.
  change [t; i] with ([t] ++ [i]) in Hnd. rewrite app_assoc in Hnd.
  apply NoDup_app in Hnd as (Hnt & Hd & _).
  apply NoDup_app in Hnt as (_ & Ht & _).
  assert (i ∉ l ++ [t]). { intros Hx. apply (Hd i Hx). set_solver. }
  assert (t <> i) by set_solver. apply dllseg_app. simpl hd_or. split.
  - eapply dllseg_set_next; [intros Hx; apply (Ht t Hx); set_solver|].
    do 2 (apply dllseg_alter_notin; [done|]). done.
  - exists (set_lnext None (set_lprev (Some t) b)).
    rewrite list_lookup_alter_ne, !list_lookup_alter_eq, Hb by done. simpl.
    rewrite lprev_set_lnext, lprev_set_lprev, lnext_set_lnext, last_or_app. done.
Qed.

End Dll.
