(* ===== verification/Misc.v ===== *)
(** misc.c and misc.h: the arithmetic and string helpers the simulators share.
    Strings are lists of character codes without their terminating NUL. *)

From S2P Require Import Prelude.

(** [log_base2]'s loop [while (n >>= 1) power++]; [fuel] bounds the iterations,
    32 are enough for an int. *)
Fixpoint log_base2_loop (fuel : nat) (n power : Z) : outcome Z :=
  match fuel with
  | O => NoFuel
  | S fuel' =>
      let n' := Z.shiftr n 1 in
      if truth n' then log_base2_loop fuel' n' (power + 1) else Ok power
  end.

Definition log_base2 (n : Z) : outcome Z :=
  if (n <=? 0) || not_pow2 n then Panic else log_base2_loop 32 n 0.

(** [extractl]: [num] bits of [word] whose high order bit is at [pos]; a shift
    of an int by a negative amount or by its width and more is undefined.
    [~0 << num] is computed on the int -1. *)
Definition extractl (word pos num : Z) : outcome Z :=
  let sh := pos + 1 - num in
  if (0 <=? sh) && (sh <? 32) && (0 <=? num) && (num <? 32) then
    Ok (Z.land (Z.shiftr (u32 word) sh) (u32_not (u32 (Z.shiftl (-1) num))))
  else Undef.

(** [mystrrchr]: index of the last occurrence of [c]; the [do ... while] also
    looks at the terminating NUL. *)
Fixpoint mystrrchr_loop (s : list Z) (c : Z) (i : nat) (rtnval : option nat) : option nat :=
  match s with
  | [] => if 0 =? c then Some i else rtnval
  | x :: s' => mystrrchr_loop s' c (S i) (if x =? c then Some i else rtnval)
  end.

Definition mystrrchr (s : list Z) (c : Z) : option nat := mystrrchr_loop s c 0 None.

(** [tolower] in the C locale. *)
Definition tolower (u : Z) : Z := if (65 <=? u) && (u <=? 90) then u + 32 else u.

(** [mystricmp]: the difference of the first characters that differ. *)
Fixpoint mystricmp (s1 s2 : list Z) : Z :=
  let u1 := tolower (u8 (hd 0 s1)) in
  let u2 := tolower (u8 (hd 0 s2)) in
  match s1, s2 with
  | _ :: s1', _ :: s2' =>
      if negb (u1 =? u2) then u1 - u2 else if u1 =? 0 then 0 else mystricmp s1' s2'
  | _, _ => if negb (u1 =? u2) then u1 - u2 else 0
  end.

(** misc.h: ROUND_UP and ROUND_DOWN on unsigned ints. *)
Definition ROUND_UP (n align : Z) : Z := Z.land (u32 (n + (align - 1))) (u32_not (align - 1)).
Definition ROUND_DOWN (n align : Z) : Z := Z.land n (u32_not (align - 1)).

(** [elapsed_time]: the fields (value, unit letter) in the order they are
    appended to the string; the caller's "0s" for a non-positive time. *)
Definition elapsed_time (sec : Z) : list (Z * Z) :=
  if sec <=? 0 then [(0, 115)] else
  let (t, sec) := if 86400 <=? sec then ([(sec / 86400, 68)], sec mod 86400) else ([], sec) in
  let (t, sec) := if 3600 <=? sec then (t ++ [(sec / 3600, 104)], sec mod 3600) else (t, sec) in
  let (t, sec) := if 60 <=? sec then (t ++ [(sec / 60, 109)], sec mod 60) else (t, sec) in
  if 1 <=? sec then t ++ [(sec, 115)] else t.

(** * [log_base2] *)

Lemma log_base2_loop_pow2 (fuel k : nat) (power : Z) :
  (k < fuel)%nat -> log_base2_loop fuel (2 ^ Z.of_nat k) power = Ok (power + Z.of_nat k).
Proof.
  revert k power. induction fuel as [|fuel IH]; intros k power Hk; [lia|].
  destruct k as [|k]; [simpl; f_equal; lia|].
  cbn [log_base2_loop].
  rewrite shiftr_div, Nat2Z.inj_succ, Z.pow_succ_r, (Z.mul_comm 2), Z.div_mul by lia.
  unfold truth. replace (2 ^ Z.of_nat k =? 0) with false by (pose proof (pow2_pos (Z.of_nat k)); lia).
  simpl. rewrite IH by lia. f_equal. lia.
Qed.

Lemma log_base2_pow2 (k : Z) : 0 <= k < 32 -> log_base2 (2 ^ k) = Ok k.
Proof.
  intros Hk. unfold log_base2. pose proof (pow2_pos k ltac:(lia)).
  rewrite (proj2 (not_pow2_spec (2 ^ k) ltac:(lia))) by (exists k; lia).
  replace (2 ^ k <=? 0) with false by lia. simpl orb. cbv iota.
  replace k with (Z.of_nat (Z.to_nat k)) at 1 by lia.
  rewrite log_base2_loop_pow2 by lia. f_equal. lia.
Qed.

(** * Rounding and bit extraction *)

Lemma ROUND_DOWN_spec (n k : Z) :
  0 <= n < 2 ^ 32 -> 0 <= k <= 32 -> ROUND_DOWN n (2 ^ k) = n - n mod 2 ^ k.
Proof. apply land_not_mask. Qed.

Lemma extractl_spec (word pos num : Z) :
  0 <= pos - num + 1 -> 0 <= num -> pos < 32 -> num < 32 -> pos - num + 1 < 32 ->
  extractl word pos num = Ok ((u32 word / 2 ^ (pos + 1 - num)) mod 2 ^ num).
Proof.
  intros. unfold extractl.
  replace (0 <=? pos + 1 - num) with true by lia. replace (pos + 1 - num <? 32) with true by lia.
  replace (0 <=? num) with true by lia. replace (num <? 32) with true by lia. simpl. f_equal.
  rewrite shiftr_div by lia. rewrite <- Z.land_ones by lia.
  pose proof (u32_range word) as Hu. pose proof (pow2_pos (pos + 1 - num) ltac:(lia)).
  assert (Hq : 0 <= u32 word / 2 ^ (pos + 1 - num) < 2 ^ 32).
  { split; [apply Z.div_pos; lia|]. apply Z.div_lt_upper_bound; [lia|]. nia. }
  set (q := u32 word / _) in *.
  assert (Hn : u32_not (u32 (Z.shiftl (-1) num)) = Z.ones num).
  { unfold u32_not, u32. rewrite <- !Z.land_ones by lia. apply Z.bits_inj'. intros i Hi.
    rewrite Z.land_spec, Z.lnot_spec, Z.land_spec, !Z.testbit_ones_nonneg, Z.shiftl_spec by lia.
    destruct (Z.lt_ge_cases i num).
    - rewrite (Z.testbit_neg_r _ (i - num)) by lia. simpl.
      destruct (Z.ltb_spec i 32); destruct (Z.ltb_spec i num); lia || done.
    - rewrite Z.bits_m1 by lia. destruct (Z.ltb_spec i 32); destruct (Z.ltb_spec i num); lia || done. }
  by rewrite Hn.
Qed.
