(* ===== verification/Memory.v ===== *)
(** memory.c and memory.h: the simulated flat memory, a one level table of 64k
    pages allocated when first touched, and the accessors built on it.

    A page is a map from offsets to bytes, a byte never written is the zero
    [mem_newblock] leaves there.  Host buffers are lists of bytes, a pointer
    into one is an index.  The byte order of the host is a parameter: the code
    reads and writes words through host pointers. *)

From S2P Require Import Prelude Misc.

(** memory.h: [enum mem_cmd]. *)
Inductive mem_cmd := Read | Write.

#[global] Instance mem_cmd_eq_dec : EqDecision mem_cmd.
Proof. solve_decision. Defined.

Definition MEM_BLOCK_SIZE : Z := 2 ^ 16.

(** [MEM_BLOCK] and [MEM_OFFSET]: "most significant bit is ignored". *)
Definition MEM_BLOCK (addr : Z) : Z := Z.land (Z.shiftr (u32 addr) 16) (2 ^ 15 - 1).
Definition MEM_OFFSET (addr : Z) : Z := Z.land addr (2 ^ 16 - 1).

(** The variables of memory.c. *)
Record mem_state := mk_mem {
  mem_table : gmap Z (gmap Z Z);
  mem_brk_point : Z;
  mem_stack_min : Z;
}.
#[global] Instance eta_mem_state : Eta mem_state := mk_eta (fun m =>
  mk_mem (mem_table m) (mem_brk_point m) (mem_stack_min m)).

(** The segment bounds loader.c sets, constant during a simulation. *)
Record ld_bounds := mk_ld {
  ld_text_base : Z; ld_text_size : Z;
  ld_data_base : Z; ld_data_size : Z;
  ld_stack_base : Z;
}.

(** ss.h. *)
Definition SS_STACK_BASE : Z := 0x7fffc000.

(** [mem_table] after [mem_init], and the initial values of the two variables. *)
Definition mem_init : mem_state := mk_mem ∅ 0 0x7fffffff.

(** [mem_init1]; [sp] is regs_R[SS_STACK_REGNO]. *)
Definition mem_init1 (ld : ld_bounds) (sp : Z) (m : mem_state) : mem_state :=
  m <| mem_brk_point := ROUND_UP (u32 (ld_data_base ld + ld_data_size ld)) 4096 |>
    <| mem_stack_min := u32 sp |>.

(** * Unchecked accessors *)

(** [mem_newblock]: getcore() returns cleared storage. *)
Definition mem_newblock : gmap Z Z := ∅.

Definition mem_tickle (addr : Z) (m : mem_state) : mem_state :=
  match mem_table m !! MEM_BLOCK addr with
  | None => m <| mem_table ::= <[MEM_BLOCK addr := mem_newblock]> |>
  | Some _ => m
  end.

Definition page_get (pg : gmap Z Z) (o : Z) : Z := default 0 (pg !! o).

Fixpoint page_put (pg : gmap Z Z) (o : Z) (bs : list Z) : gmap Z Z :=
  match bs with
  | [] => pg
  | b :: bs' => page_put (<[o := b]> pg) (o + 1) bs'
  end.

(** [__UNCHK_MEM_ACCESS] as a value and as an assignment target: [sz] bytes of
    one page; running over its end is undefined. *)
Definition unchk_read (sz : nat) (addr : Z) (m : mem_state) : outcome (list Z) :=
  pg ← deref (mem_table m !! MEM_BLOCK addr);
  if MEM_OFFSET addr + Z.of_nat sz <=? MEM_BLOCK_SIZE
  then Ok (map (fun i => page_get pg (MEM_OFFSET addr + Z.of_nat i)) (seq 0 sz))
  else Undef.

Definition unchk_write (addr : Z) (bs : list Z) (m : mem_state) : outcome mem_state :=
  pg ← deref (mem_table m !! MEM_BLOCK addr);
  if MEM_OFFSET addr + Z.of_nat (length bs) <=? MEM_BLOCK_SIZE
  then Ok (m <| mem_table ::= <[MEM_BLOCK addr := page_put pg (MEM_OFFSET addr) bs]> |>)
  else Undef.

Fixpoint le_combine (bs : list Z) : Z :=
  match bs with [] => 0 | b :: bs' => b + 256 * le_combine bs' end.

Fixpoint le_split (n : nat) (w : Z) : list Z :=
  match n with O => [] | S n' => w mod 256 :: le_split n' (w / 256) end.

Section HostOrder.
Variable host_big : bool.

(** The value of host bytes read as an unsigned integer, and back. *)
Definition host_combine (bs : list Z) : Z := le_combine (if host_big then rev bs else bs).
Definition host_split (n : nat) (w : Z) : list Z :=
  if host_big then rev (le_split n w) else le_split n w.

Definition MEM_READ (sz : nat) (addr : Z) (m : mem_state) : outcome (Z * mem_state) :=
  let m := mem_tickle addr m in
  bs ← unchk_read sz addr m; Ok (host_combine bs, m).

Definition MEM_WRITE (sz : nat) (addr v : Z) (m : mem_state) : outcome mem_state :=
  unchk_write addr (host_split sz v) (mem_tickle addr m).

(** * Checked accessors *)

(** The condition the checked accessors share. *)
Definition mem_perm (ld : ld_bounds) (cmd : mem_cmd) (addr : Z) : bool :=
  ((ld_text_base ld <=? addr) && (addr <? u32 (ld_text_base ld + ld_text_size ld))
     && bool_decide (cmd = Read))
  || ((ld_data_base ld <=? addr) && (addr <? ld_stack_base ld)).

Definition bad_align (addr nbytes : Z) : bool :=
  not_pow2 nbytes || negb (Z.land addr (nbytes - 1) =? 0).

Definition track_stack_min (addr : Z) (m : mem_state) : mem_state :=
  if (mem_brk_point m <? addr) && (addr <? mem_stack_min m)
  then m <| mem_stack_min := addr |> else m.

(** The error string [mem_valid] returns. *)
Inductive mem_err := BadSizeOrAlignment | SegmentationViolation.

Definition mem_valid (ld : ld_bounds) (cmd : mem_cmd) (addr nbytes : Z) (declare : bool)
    (m : mem_state) : outcome (option mem_err * mem_state) :=
  let err_str :=
    if bad_align addr nbytes then Some BadSizeOrAlignment
    else if negb (mem_perm ld cmd addr) then Some SegmentationViolation
    else None in
  let m := track_stack_min addr m in
  if negb declare then Ok (err_str, m)
  else match err_str with Some _ => Fatal | None => Ok (None, m) end.

(** Reading and writing [n] bytes of a host buffer at pointer [p]. *)
Definition buf_get (buf : list Z) (p n : nat) : outcome (list Z) :=
  if (p + n <=? length buf)%nat then Ok (take n (drop p buf)) else Undef.

Definition buf_put (buf : list Z) (p : nat) (bs : list Z) : outcome (list Z) :=
  if (p + length bs <=? length buf)%nat
  then Ok (take p buf ++ bs ++ drop (p + length bs) buf) else Undef.

(** One transfer of [sz] bytes between memory and the buffer, through a host
    integer. *)
Definition mem_xfer (cmd : mem_cmd) (sz : nat) (addr : Z) (buf : list Z) (p : nat)
    (m : mem_state) : outcome (mem_state * list Z) :=
  match cmd with
  | Read => '(w, m) ← MEM_READ sz addr m; buf ← buf_put buf p (host_split sz w); Ok (m, buf)
  | Write => bs ← buf_get buf p sz; m ← MEM_WRITE sz addr (host_combine bs) m; Ok (m, buf)
  end.

(** [while (words-- > 0) ...]. *)
Fixpoint mem_xfer_words (cmd : mem_cmd) (words : nat) (addr : Z) (buf : list Z) (p : nat)
    (m : mem_state) : outcome (mem_state * list Z) :=
  match words with
  | O => Ok (m, buf)
  | S words' =>
      '(m, buf) ← mem_xfer cmd 4 addr buf p m;
      mem_xfer_words cmd words' (u32 (addr + 4)) buf (p + 4) m
  end.

Definition mem_access (ld : ld_bounds) (cmd : mem_cmd) (addr : Z) (buf : list Z) (p : nat)
    (nbytes : Z) (m : mem_state) : outcome (mem_state * list Z) :=
  fatal_if (bad_align addr nbytes);;
  fatal_if (negb (mem_perm ld cmd addr));;
  let m := track_stack_min addr m in
  if nbytes =? 1 then mem_xfer cmd 1 addr buf p m
  else if nbytes =? 2 then mem_xfer cmd 2 addr buf p m
  else if nbytes =? 4 then mem_xfer cmd 4 addr buf p m
  else mem_xfer_words cmd (Z.to_nat (Z.shiftr nbytes 2)) addr buf p m.

End HostOrder.

(** * Transfers through a memory access function *)

Section MemFn.
Context {M : Type}.

(** [mem_access_fn]: command, address, host buffer and pointer into it, size. *)
Variable mem_fn : mem_cmd -> Z -> list Z -> nat -> Z -> M -> outcome (M * list Z).

Fixpoint mem_bcopy (cmd : mem_cmd) (addr : Z) (buf : list Z) (p : nat) (nbytes : nat) (m : M)
    : outcome (M * list Z) :=
  match nbytes with
  | O => Ok (m, buf)
  | S nbytes' =>
      '(m, buf) ← mem_fn cmd addr buf p 1 m;
      mem_bcopy cmd (u32 (addr + 1)) buf (p + 1) nbytes' m
  end.

(** [mem_bcopy4]: the address and the pointer are stepped before they are used. *)
Fixpoint mem_bcopy4_loop (cmd : mem_cmd) (addr : Z) (buf : list Z) (p : nat) (words : nat) (m : M)
    : outcome (M * list Z) :=
  match words with
  | O => Ok (m, buf)
  | S words' =>
      let addr := u32 (addr + 4) in
      let p := (p + 4)%nat in
      '(m, buf) ← mem_fn cmd addr buf p 4 m;
      mem_bcopy4_loop cmd addr buf p words' m
  end.

Definition mem_bcopy4 (cmd : mem_cmd) (addr : Z) (buf : list Z) (nbytes : Z) (m : M)
    : outcome (M * list Z) :=
  mem_bcopy4_loop cmd addr buf 0 (Z.to_nat (Z.shiftr nbytes 2)) m.

(** [mem_bzero] writes the one byte variable [c]. *)
Fixpoint mem_bzero (addr : Z) (nbytes : nat) (m : M) : outcome M :=
  match nbytes with
  | O => Ok m
  | S nbytes' =>
      '(m, _) ← mem_fn Write addr [0] 0 1 m;
      mem_bzero (u32 (addr + 1)) nbytes' m
  end.

(** [mem_strcpy] into, or out of, the host string buffer [s]: the byte goes
    through the variable [c]; [fuel] bounds the string length. *)
Fixpoint mem_strcpy_read (fuel : nat) (addr : Z) (s : list Z) (p : nat) (n : Z) (m : M)
    : outcome (M * list Z * Z) :=
  match fuel with
  | O => NoFuel
  | S fuel' =>
      '(m, cbuf) ← mem_fn Read addr [0] 0 1 m;
      c ← c_get cbuf 0;
      s ← c_upd s p (fun _ => c);
      if truth c then mem_strcpy_read fuel' (u32 (addr + 1)) s (p + 1) (n + 1) m
      else Ok (m, s, n + 1)
  end.

Fixpoint mem_strcpy_write (fuel : nat) (addr : Z) (s : list Z) (p : nat) (n : Z) (m : M)
    : outcome (M * list Z * Z) :=
  match fuel with
  | O => NoFuel
  | S fuel' =>
      c ← c_get s p;
      '(m, _) ← mem_fn Write addr [c] 0 1 m;
      if truth c then mem_strcpy_write fuel' (u32 (addr + 1)) s (p + 1) (n + 1) m
      else Ok (m, s, n + 1)
  end.

Definition mem_strcpy (cmd : mem_cmd) (addr : Z) (s : list Z) (fuel : nat) (m : M)
    : outcome (M * list Z * Z) :=
  match cmd with
  | Read => mem_strcpy_read fuel addr s 0 0 m
  | Write => mem_strcpy_write fuel addr s 0 0 m
  end.

(** [mem_dump]: the (address, four bytes) pairs it prints. *)
Fixpoint mem_dump_loop (len : nat) (addr : Z) (m : M) : outcome (M * list (Z * list Z)) :=
  match len with
  | O => Ok (m, [])
  | S len' =>
      '(m, data) ← mem_fn Read addr [0; 0; 0; 0] 0 4 m;
      '(m, out) ← mem_dump_loop len' (u32 (addr + 4)) m;
      Ok (m, (addr, data) :: out)
  end.

Definition mem_dump (addr len : Z) (m : M) : outcome (M * list (Z * list Z)) :=
  mem_dump_loop (Z.to_nat (Z.land (len + 3) 4)) (Z.land addr 4) m.

End MemFn.

(** * Specification: memory as a function from addresses to bytes *)

(** The byte at an address, whether or not its page is allocated. *)
Definition mem_byte (m : mem_state) (a : Z) : Z :=
  page_get (default ∅ (mem_table m !! MEM_BLOCK a)) (MEM_OFFSET a).

Definition same_bytes (m m' : mem_state) : Prop := forall a, mem_byte m' a = mem_byte m a.

Definition mem_bytes (m : mem_state) (addr : Z) (n : nat) : list Z :=
  map (fun i => mem_byte m (addr + Z.of_nat i)) (seq 0 n).

(** [m'] is [m] with the bytes [bs] stored from [addr]. *)
Definition stored (m : mem_state) (addr : Z) (bs : list Z) (m' : mem_state) : Prop :=
  forall a, 0 <= a < 2 ^ 31 ->
    mem_byte m' a = if (addr <=? a) && (a <? addr + Z.of_nat (length bs))
                    then default 0 (bs !! Z.to_nat (a - addr)) else mem_byte m a.

Definition is_byte (b : Z) : Prop := 0 <= b < 256.

(** [Forall is_byte] of a concrete list. *)
Ltac solve_bytes :=
  repeat (apply Forall_cons_2; [unfold is_byte; lia|]); apply Forall_nil; exact I.

(** The buffer after [bs] is stored in it at [p]. *)
Definition buf_store (buf : list Z) (p : nat) (bs : list Z) : list Z :=
  take p buf ++ bs ++ drop (p + length bs) buf.

(** What the transfer loops rely on in a memory access function: from a state
    [wf], one byte accesses at the addresses [ok] read and write the memory
    that [byte] shows. *)
Class ByteAccess {M : Type}
    (mem_fn : mem_cmd -> Z -> list Z -> nat -> Z -> M -> outcome (M * list Z))
    (byte : M -> Z -> Z) (ok : mem_cmd -> Z -> Prop) (wf : M -> Prop) : Prop := {
  byte_addr cmd a : ok cmd a -> 0 <= a < 2 ^ 31;
  byte_range a m : wf m -> 0 <= a < 2 ^ 31 -> is_byte (byte m a);
  byte_read a buf p m :
    wf m -> ok Read a -> (p < length buf)%nat ->
    exists m', mem_fn Read a buf p 1 m = Ok (m', <[p := byte m a]> buf) /\ wf m' /\
      forall a', 0 <= a' < 2 ^ 31 -> byte m' a' = byte m a';
  byte_write a buf p b m :
    wf m -> ok Write a -> buf !! p = Some b -> Forall is_byte buf ->
    exists m', mem_fn Write a buf p 1 m = Ok (m', buf) /\ wf m' /\
      forall a', 0 <= a' < 2 ^ 31 -> byte m' a' = if a' =? a then b else byte m a';
}.

(** When a checked access is allowed to go on. *)
Definition valid_access (ld : ld_bounds) (cmd : mem_cmd) (addr nbytes : Z) : Prop :=
  bad_align addr nbytes = false /\ mem_perm ld cmd addr = true /\
  0 < nbytes /\ 0 <= addr /\ addr + nbytes <= 2 ^ 31.

(** * Bytes and words *)

Lemma le_split_combine (bs : list Z) :
  Forall is_byte bs -> le_split (length bs) (le_combine bs) = bs.
Proof.
  induction 1 as [|b bs Hb _ IH]; [done|]. cbn [length le_split le_combine].
  unfold is_byte in Hb.
  replace ((b + 256 * le_combine bs) mod 256) with b
    by (rewrite Z.mul_comm, Z_mod_plus_full, Z.mod_small; lia).
  replace ((b + 256 * le_combine bs) / 256) with (le_combine bs)
    by (rewrite Z.mul_comm, Z_div_plus_full, Z.div_small; lia).
  by rewrite IH.
Qed.

Lemma length_le_split (n : nat) (w : Z) : length (le_split n w) = n.
Proof. revert w. induction n; simpl; auto. Qed.

Lemma length_host_split (hb : bool) (n : nat) (w : Z) : length (host_split hb n w) = n.
Proof. unfold host_split. destruct hb; rewrite ?length_rev; apply length_le_split. Qed.

(** Whatever the byte order of the host, a word read and written back is a copy. *)
Lemma host_split_combine (hb : bool) (bs : list Z) :
  Forall is_byte bs -> host_split hb (length bs) (host_combine hb bs) = bs.
Proof.
  intros H. unfold host_split, host_combine. destruct hb.
  - rewrite <- (length_rev bs), le_split_combine, rev_involutive; [done|].
    rewrite Forall_forall in *. intros x Hx. apply H.
    rewrite list_elem_of_In in *. by apply in_rev.
  - by apply le_split_combine.
Qed.

(** * Pages *)

Lemma MEM_BLOCK_div (a : Z) : 0 <= a < 2 ^ 31 -> MEM_BLOCK a = a / 2 ^ 16.
Proof.
  intros Ha. unfold MEM_BLOCK. rewrite u32_small, shiftr_div, land_mask by lia.
  apply Z.mod_small. split; [apply Z.div_pos; lia|]. apply Z.div_lt_upper_bound; lia.
Qed.

Lemma MEM_OFFSET_mod (a : Z) : MEM_OFFSET a = a mod 2 ^ 16.
Proof. apply land_mask. lia. Qed.

(** The most significant address bit does not matter. *)
Lemma MEM_BLOCK_msb (a : Z) : 0 <= a < 2 ^ 31 -> MEM_BLOCK (a + 2 ^ 31) = MEM_BLOCK a.
Proof.
  intros Ha. rewrite (MEM_BLOCK_div a Ha). unfold MEM_BLOCK.
  rewrite u32_small, shiftr_div, land_mask by lia.
  replace (a + 2 ^ 31) with (a + 2 ^ 15 * 2 ^ 16) by lia.
  rewrite Z.div_add by lia. rewrite <- (Z.mul_1_l (2 ^ 15)) at 1.
  rewrite Z_mod_plus_full. apply Z.mod_small.
  split; [apply Z.div_pos; lia|]. apply Z.div_lt_upper_bound; lia.
Qed.

(** Addresses [addr + i] of an access that stays inside its page. *)
Lemma same_page (addr i : Z) :
  0 <= addr < 2 ^ 31 -> 0 <= i -> MEM_OFFSET addr + i < MEM_BLOCK_SIZE ->
  MEM_BLOCK (addr + i) = MEM_BLOCK addr /\ MEM_OFFSET (addr + i) = MEM_OFFSET addr + i.
Proof.
  intros Ha Hi Ho. unfold MEM_BLOCK_SIZE in Ho. rewrite !MEM_OFFSET_mod in *.
  pose proof (Z.div_mod addr (2 ^ 16) ltac:(lia)) as Hd.
  pose proof (Z.mod_pos_bound addr (2 ^ 16) ltac:(lia)) as Hm.
  assert (Hlt : addr / 2 ^ 16 < 2 ^ 15) by (apply Z.div_lt_upper_bound; lia).
  assert (Hr : 0 <= addr + i < 2 ^ 31) by lia.
  rewrite !MEM_BLOCK_div by done. split.
  - symmetry. apply (Z.div_unique _ _ _ (addr mod 2 ^ 16 + i)); lia.
  - symmetry. apply (Z.mod_unique _ _ (addr / 2 ^ 16)); lia.
Qed.

Lemma same_address (a a' : Z) :
  0 <= a < 2 ^ 31 -> 0 <= a' < 2 ^ 31 ->
  MEM_BLOCK a = MEM_BLOCK a' -> MEM_OFFSET a = MEM_OFFSET a' -> a = a'.
Proof.
  intros Ha Ha'. rewrite !MEM_BLOCK_div, !MEM_OFFSET_mod by done.
  intros Hb Ho. pose proof (Z.div_mod a (2 ^ 16)). pose proof (Z.div_mod a' (2 ^ 16)). lia.
Qed.

Lemma mem_tickle_bytes (a : Z) (m : mem_state) : same_bytes m (mem_tickle a m).
Proof.
  intros a'. unfold mem_tickle, mem_byte. destruct (mem_table m !! MEM_BLOCK a) eqn:E; [done|].
  simpl. destruct (decide (MEM_BLOCK a = MEM_BLOCK a')) as [<-|Hne].
  - by rewrite lookup_insert_eq, E.
  - by rewrite lookup_insert_ne.
Qed.

Lemma mem_tickle_page (a : Z) (m : mem_state) :
  exists pg, mem_table (mem_tickle a m) !! MEM_BLOCK a = Some pg.
Proof.
  unfold mem_tickle. destruct (mem_table m !! MEM_BLOCK a) eqn:E; [eauto|].
  simpl. rewrite lookup_insert_eq. eauto.
Qed.

Lemma page_put_get (bs : list Z) (pg : gmap Z Z) (o o' : Z) :
  page_get (page_put pg o bs) o' =
    if (o <=? o') && (o' <? o + Z.of_nat (length bs))
    then default 0 (bs !! Z.to_nat (o' - o)) else page_get pg o'.
Proof.
  revert pg o. induction bs as [|b bs IH]; intros pg o; cbn [page_put length].
  - by replace ((o <=? o') && (o' <? o + Z.of_nat 0)) with false by blia.
  - rewrite IH. destruct (Z.eq_dec o' o) as [->|Hne].
    + replace (o + 1 <=? o) with false by blia. rewrite andb_false_l.
      replace ((o <=? o) && (o <? o + Z.of_nat (S (length bs)))) with true by blia.
      unfold page_get. rewrite lookup_insert_eq, Z.sub_diag. done.
    + destruct (Z.leb_spec (o + 1) o'); simpl andb.
      * replace (o <=? o') with true by blia. simpl andb.
        replace (o' <? o + 1 + Z.of_nat (length bs)) with (o' <? o + Z.of_nat (S (length bs))) by blia.
        case_match; [|unfold page_get; by rewrite lookup_insert_ne by lia].
        replace (Z.to_nat (o' - o)) with (S (Z.to_nat (o' - (o + 1)))) by lia. done.
      * replace (o <=? o') with false by blia. simpl.
        unfold page_get. by rewrite lookup_insert_ne by lia.
Qed.

(** * The unchecked accessors *)

Definition fits (addr : Z) (n : nat) : Prop :=
  0 <= addr < 2 ^ 31 /\ MEM_OFFSET addr + Z.of_nat n <= MEM_BLOCK_SIZE.

Lemma unchk_read_spec (n : nat) (addr : Z) (m : mem_state) :
  fits addr n -> is_Some (mem_table m !! MEM_BLOCK addr) ->
  unchk_read n addr m = Ok (mem_bytes m addr n).
Proof.
  intros [Ha Ho] [pg Hpg]. unfold unchk_read. rewrite Hpg. simpl.
  replace (_ <=? MEM_BLOCK_SIZE) with true by blia. f_equal.
  apply map_ext_in. intros i Hi%in_seq. unfold mem_byte.
  destruct (same_page addr (Z.of_nat i)) as [-> ->]; [done|lia|lia|]. by rewrite Hpg.
Qed.

Lemma unchk_write_spec (addr : Z) (bs : list Z) (m : mem_state) :
  fits addr (length bs) -> is_Some (mem_table m !! MEM_BLOCK addr) ->
  exists m', unchk_write addr bs m = Ok m' /\ stored m addr bs m' /\
    mem_brk_point m' = mem_brk_point m /\ mem_stack_min m' = mem_stack_min m.
Proof.
  intros [Ha Ho] [pg Hpg]. unfold unchk_write. rewrite Hpg. simpl.
  replace (_ <=? MEM_BLOCK_SIZE) with true by blia. eexists. split; [done|].
  split; [|done]. intros a Ha'. unfold mem_byte at 1. simpl.
  pose proof (MEM_OFFSET_mod a) as Hm. pose proof (Z.mod_pos_bound a (2 ^ 16) ltac:(lia)).
  destruct (decide (MEM_BLOCK addr = MEM_BLOCK a)) as [Hb|Hb].
  - rewrite Hb, lookup_insert_eq. simpl. rewrite page_put_get.
    replace (page_get pg (MEM_OFFSET a)) with (mem_byte m a)
      by (unfold mem_byte; rewrite <- Hb, Hpg; done).
    pose proof (MEM_OFFSET_mod addr). pose proof (Z.mod_pos_bound addr (2 ^ 16) ltac:(lia)).
    rewrite !MEM_BLOCK_div in Hb by done.
    pose proof (Z.div_mod addr (2 ^ 16) ltac:(lia)). pose proof (Z.div_mod a (2 ^ 16) ltac:(lia)).
    replace (MEM_OFFSET a - MEM_OFFSET addr) with (a - addr) by lia.
    replace (MEM_OFFSET addr <=? MEM_OFFSET a) with (addr <=? a) by blia.
    by replace (MEM_OFFSET a <? MEM_OFFSET addr + Z.of_nat (length bs))
      with (a <? addr + Z.of_nat (length bs)) by blia.
  - rewrite lookup_insert_ne by done. case_match eqn:E; [|done].
    apply andb_prop in E as [E1%Z.leb_le E2%Z.ltb_lt]. exfalso. apply Hb.
    replace a with (addr + (a - addr)) by lia.
    symmetry. apply same_page; lia.
Qed.

Lemma mem_bytes_ext (m m' : mem_state) (addr : Z) (n : nat) :
  same_bytes m m' -> mem_bytes m' addr n = mem_bytes m addr n.
Proof. intros H. apply map_ext. intros i. apply H. Qed.

Lemma length_mem_bytes (m : mem_state) (addr : Z) (n : nat) : length (mem_bytes m addr n) = n.
Proof. unfold mem_bytes. by rewrite length_map, length_seq. Qed.

(** * The checked accessors *)

Section Access.
Variable hb : bool.
Variable ld : ld_bounds.

(** Bytes of the simulated memory are bytes. *)
Definition bytes_ok (m : mem_state) : Prop := forall a, 0 <= a < 2 ^ 31 -> is_byte (mem_byte m a).

Lemma buf_get_spec (buf : list Z) (p n : nat) :
  (p + n <= length buf)%nat -> buf_get buf p n = Ok (take n (drop p buf)).
Proof. intros H. unfold buf_get. by replace (p + n <=? length buf)%nat with true by blia. Qed.

Lemma buf_put_spec (buf : list Z) (p : nat) (bs : list Z) :
  (p + length bs <= length buf)%nat -> buf_put buf p bs = Ok (buf_store buf p bs).
Proof.
  intros H. unfold buf_put. by replace (p + length bs <=? length buf)%nat with true by blia.
Qed.

Lemma fits_range (addr : Z) (n : nat) : fits addr n -> addr + Z.of_nat n <= 2 ^ 31.
Proof.
  intros [Ha Ho]. rewrite MEM_OFFSET_mod in Ho. unfold MEM_BLOCK_SIZE in Ho.
  pose proof (Z.div_mod addr (2 ^ 16) ltac:(lia)).
  assert (addr / 2 ^ 16 < 2 ^ 15) by (apply Z.div_lt_upper_bound; lia). lia.
Qed.

Lemma mem_xfer_read (n : nat) (addr : Z) (buf : list Z) (p : nat) (m : mem_state) :
  fits addr n -> bytes_ok m -> (p + n <= length buf)%nat ->
  exists m', mem_xfer hb Read n addr buf p m = Ok (m', buf_store buf p (mem_bytes m addr n)) /\
    same_bytes m m' /\ mem_brk_point m' = mem_brk_point m /\ mem_stack_min m' = mem_stack_min m.
Proof.
  intros Hf Hb Hp. unfold mem_xfer, MEM_READ.
  rewrite (unchk_read_spec n addr _ Hf (mem_tickle_page addr m)).
  exists (mem_tickle addr m). cbn. rewrite (mem_bytes_ext m) by apply mem_tickle_bytes.
  replace (host_split hb n) with (host_split hb (length (mem_bytes m addr n)))
    by (by rewrite length_mem_bytes).
  rewrite host_split_combine.
  - rewrite buf_put_spec by (by rewrite length_mem_bytes). cbn. split; [done|].
    split; [apply mem_tickle_bytes|]. unfold mem_tickle. by case_match.
  - apply Forall_forall. intros b Hin. apply list_elem_of_In, in_map_iff in Hin as (i & <- & Hi%in_seq).
    apply Hb. pose proof (fits_range addr n Hf). unfold fits in Hf. lia.
Qed.

Lemma mem_xfer_write (n : nat) (addr : Z) (buf : list Z) (p : nat) (m : mem_state) :
  fits addr n -> (p + n <= length buf)%nat -> Forall is_byte buf ->
  exists m', mem_xfer hb Write n addr buf p m = Ok (m', buf) /\
    stored m addr (take n (drop p buf)) m' /\
    mem_brk_point m' = mem_brk_point m /\ mem_stack_min m' = mem_stack_min m.
Proof.
  intros Hf Hp Hb. unfold mem_xfer, MEM_WRITE. rewrite buf_get_spec by done. cbn.
  assert (Hlen : length (take n (drop p buf)) = n) by (rewrite length_take, length_drop; lia).
  replace (host_split hb n) with (host_split hb (length (take n (drop p buf)))) by (by rewrite Hlen).
  rewrite host_split_combine by auto using Forall_take, Forall_drop.
  destruct (unchk_write_spec addr (take n (drop p buf)) (mem_tickle addr m)) as (m' & -> & Hs & Hbrk & Hmin).
  - by rewrite Hlen.
  - apply mem_tickle_page.
  - exists m'. cbn. split; [done|]. split.
    + intros a Ha. rewrite (Hs a Ha). case_match; [done|]. apply mem_tickle_bytes.
    + rewrite Hbrk, Hmin. unfold mem_tickle. by case_match.
Qed.

Lemma fits_aligned (addr : Z) (k : Z) (n : nat) :
  0 <= addr < 2 ^ 31 -> 0 <= k <= 16 -> Z.of_nat n = 2 ^ k -> addr mod 2 ^ k = 0 -> fits addr n.
Proof.
  intros Ha Hk Hn Hal. split; [done|]. rewrite MEM_OFFSET_mod, Hn. unfold MEM_BLOCK_SIZE.
  assert (Hp : 2 ^ 16 = 2 ^ (16 - k) * 2 ^ k) by (rewrite <- Z.pow_add_r by lia; f_equal; lia).
  pose proof (pow2_pos k ltac:(lia)). pose proof (pow2_pos (16 - k) ltac:(lia)).
  pose proof (Z.mod_pos_bound addr (2 ^ 16) ltac:(lia)).
  assert (Hm : (addr mod 2 ^ 16) mod 2 ^ k = 0).
  { rewrite Z.mod_mod_divide; [done|]. by exists (2 ^ (16 - k)). }
  assert (Hne : 2 ^ k <> 0) by lia.
  apply (proj1 (Z.mod_divide _ _ Hne)) in Hm as [q Hq]. 
  assert (q < 2 ^ (16 - k)) by (apply (Z.mul_lt_mono_pos_r (2 ^ k)); lia).
  rewrite Hq, Hp. nia.
Qed.

Lemma buf_store_app (buf : list Z) (p : nat) (b1 b2 : list Z) :
  (p + length b1 + length b2 <= length buf)%nat ->
  buf_store (buf_store buf p b1) (p + length b1) b2 = buf_store buf p (b1 ++ b2).
Proof.
  intros Hl. unfold buf_store. assert (Hp : length (take p buf) = p) by (rewrite length_take; lia).
  rewrite (app_assoc (take p buf) b1), take_app_length' by (rewrite length_app, Hp; lia).
  rewrite drop_app_ge by (rewrite length_app, Hp; lia).
  rewrite drop_drop, !length_app, Hp, <- !app_assoc. do 4 f_equal. lia.
Qed.

Lemma mem_bytes_app (m : mem_state) (addr : Z) (n1 n2 : nat) :
  mem_bytes m addr (n1 + n2) = mem_bytes m addr n1 ++ mem_bytes m (addr + Z.of_nat n1) n2.
Proof.
  unfold mem_bytes. rewrite seq_app, map_app. f_equal. simpl.
  apply list_eq. intros i. change (map ?f ?l) with (f <$> l).
  rewrite !list_lookup_fmap.
  destruct (decide (i < n2)%nat) as [Hi|Hi].
  - rewrite !lookup_seq_lt by done. simpl. do 2 f_equal. lia.
  - by rewrite !lookup_seq_ge by lia.
Qed.

Lemma length_buf_store (buf : list Z) (p : nat) (bs : list Z) :
  (p + length bs <= length buf)%nat -> length (buf_store buf p bs) = length buf.
Proof. intros. unfold buf_store. rewrite !length_app, length_take, length_drop. lia. Qed.

Lemma stored_app (m m1 m2 : mem_state) (a : Z) (b1 b2 : list Z) :
  stored m a b1 m1 -> stored m1 (a + Z.of_nat (length b1)) b2 m2 -> stored m a (b1 ++ b2) m2.
Proof.
  intros H1 H2 x Hx. rewrite (H2 x Hx), (H1 x Hx), length_app.
  destruct (Z.leb_spec (a + Z.of_nat (length b1)) x) as [Hge|Hlt]; simpl andb.
  - replace (a <=? x) with true by blia. simpl andb.
    replace (x <? a + Z.of_nat (length b1)) with false by blia.
    replace (x <? a + Z.of_nat (length b1 + length b2))
      with (x <? a + Z.of_nat (length b1) + Z.of_nat (length b2)) by blia.
    case_match; [|done]. rewrite lookup_app_r by lia. do 2 f_equal. lia.
  - destruct (Z.leb_spec a x); simpl andb; [|done].
    replace (x <? a + Z.of_nat (length b1)) with true by blia.
    replace (x <? a + Z.of_nat (length b1 + length b2)) with true by blia.
    by rewrite lookup_app_l by lia.
Qed.

Lemma mem_xfer_words_read (words : nat) (addr : Z) (buf : list Z) (p : nat) (m : mem_state) :
  0 <= addr -> addr + 4 * Z.of_nat words <= 2 ^ 31 -> addr mod 4 = 0 -> bytes_ok m ->
  (p + 4 * words <= length buf)%nat ->
  exists m', mem_xfer_words hb Read words addr buf p m
      = Ok (m', buf_store buf p (mem_bytes m addr (4 * words))) /\
    same_bytes m m' /\ mem_brk_point m' = mem_brk_point m /\ mem_stack_min m' = mem_stack_min m.
Proof.
  revert addr buf p m. induction words as [|w IH]; intros addr buf p m Ha Hr Hal Hb Hp.
  - exists m. simpl. unfold buf_store. simpl.
    rewrite Nat.add_0_r, take_drop. by repeat split.
  - destruct (mem_xfer_read 4 addr buf p m) as (m1 & E & Hs & Hk & Hn); [|done|lia|].
    { apply (fits_aligned addr 2); [lia|lia|done|done]. }
    replace (4 * S w)%nat with (4 + 4 * w)%nat by lia.
    cbn [mem_xfer_words]. rewrite E. cbn [mbind outcome_bind].
    rewrite u32_small by lia.
    assert (Hl : length (mem_bytes m addr 4) = 4%nat) by apply length_mem_bytes.
    destruct (IH (addr + 4) (buf_store buf p (mem_bytes m addr 4)) (p + 4)%nat m1)
      as (m' & E' & Hs' & Hk' & Hn').
    + lia.
    + lia.
    + rewrite Z.add_mod, Hal by lia. done.
    + intros a Har. rewrite (Hs a). by apply Hb.
    + rewrite length_buf_store by lia. lia.
    + exists m'. split; [etransitivity; [exact E'|]|split; [intros a; by rewrite Hs'|lia]].
      do 2 f_equal.
      rewrite mem_bytes_app.
      rewrite (mem_bytes_ext m m1) by done.
      rewrite <- buf_store_app by (rewrite !length_mem_bytes; lia). by rewrite Hl.
Qed.

Lemma mem_xfer_words_write (words : nat) (addr : Z) (buf : list Z) (p : nat) (m : mem_state) :
  0 <= addr -> addr + 4 * Z.of_nat words <= 2 ^ 31 -> addr mod 4 = 0 -> Forall is_byte buf ->
  (p + 4 * words <= length buf)%nat ->
  exists m', mem_xfer_words hb Write words addr buf p m = Ok (m', buf) /\
    stored m addr (take (4 * words) (drop p buf)) m' /\
    mem_brk_point m' = mem_brk_point m /\ mem_stack_min m' = mem_stack_min m.
Proof.
  revert addr p m. induction words as [|w IH]; intros addr p m Ha Hr Hal Hb Hp.
  - exists m. simpl. repeat split. intros a Har. simpl.
    by replace ((addr <=? a) && (a <? addr + Z.of_nat 0)) with false by blia.
  - destruct (mem_xfer_write 4 addr buf p m) as (m1 & E & Hs & Hk & Hn); [|lia|done|].
    { apply (fits_aligned addr 2); [lia|lia|done|done]. }
    replace (4 * S w)%nat with (4 + 4 * w)%nat by lia.
    cbn [mem_xfer_words]. rewrite E. cbn [mbind outcome_bind]. rewrite u32_small by lia.
    destruct (IH (addr + 4) (p + 4)%nat m1) as (m' & E' & Hs' & Hk' & Hn').
    + lia.
    + lia.
    + rewrite Z.add_mod, Hal by lia. done.
    + done.
    + lia.
    + exists m'. split; [exact E'|]. split; [|lia].
      rewrite <- (take_take_drop (drop p buf)), drop_drop.
      apply stored_app with m1; [done|].
      replace (Z.of_nat (length (take 4 (drop p buf)))) with 4; [done|].
      rewrite length_take, length_drop. lia.
Qed.

End Access.

Lemma track_stack_min_bytes (a : Z) (m : mem_state) : same_bytes m (track_stack_min a m).
Proof. intros x. unfold track_stack_min. by case_match. Qed.

Lemma length_take_drop (buf : list Z) (p n : nat) :
  (p + n <= length buf)%nat -> length (take n (drop p buf)) = n.
Proof. intros. rewrite length_take, length_drop. lia. Qed.

(** The sizes an access can have: the three single transfers or whole words. *)
Lemma access_sizes (addr nbytes : Z) :
  bad_align addr nbytes = false -> 0 < nbytes ->
  (exists k, 0 <= k <= 2 /\ nbytes = 2 ^ k /\ addr mod 2 ^ k = 0) \/
  (exists w : nat, nbytes = 4 * Z.of_nat w /\ Z.to_nat (Z.shiftr nbytes 2) = w /\
     4 < nbytes /\ addr mod 4 = 0).
Proof.
  intros Hb Hn. unfold bad_align in Hb. bool_to_prop.
  apply not_pow2_spec in H as (k & Hk & ->); [|done]. rewrite land_mask in H0 by done.
  destruct (Z.le_gt_cases k 2) as [|Hgt]; [left; exists k; lia|right].
  assert (Hp : 2 ^ k = 4 * 2 ^ (k - 2)).
  { change 4 with (2 ^ 2). rewrite <- Z.pow_add_r by lia. f_equal. lia. }
  pose proof (pow2_pos (k - 2) ltac:(lia)).
  exists (Z.to_nat (2 ^ (k - 2))). rewrite shiftr_div, Hp by lia.
  change (2 ^ 2) with 4. rewrite (Z.mul_comm 4), Z.div_mul by lia.
  assert (2 ^ 1 <= 2 ^ (k - 2)) by (apply Z.pow_le_mono_r; lia).
  repeat split; [lia..|].
  rewrite <- (Z.mod_mod_divide addr (2 ^ k)), H0; [done|]. exists (2 ^ (k - 2)). lia.
Qed.

(** The whole of [mem_access]: errors first, then a read copies the bytes of the
    memory into the buffer and a write copies them out of it. *)
Lemma mem_access_spec (hb : bool) (ld : ld_bounds) (cmd : mem_cmd) (addr : Z) (buf : list Z)
    (p : nat) (nbytes : Z) (m : mem_state) :
  valid_access ld cmd addr nbytes -> bytes_ok m -> (cmd = Write -> Forall is_byte buf) ->
  (p + Z.to_nat nbytes <= length buf)%nat ->
  exists m' buf', mem_access hb ld cmd addr buf p nbytes m = Ok (m', buf') /\
    mem_brk_point m' = mem_brk_point m /\
    mem_stack_min m' = mem_stack_min (track_stack_min addr m) /\
    match cmd with
    | Read => same_bytes m m' /\ buf' = buf_store buf p (mem_bytes m addr (Z.to_nat nbytes))
    | Write => buf' = buf /\ stored m addr (take (Z.to_nat nbytes) (drop p buf)) m'
    end.
Proof.
  intros (Hal & Hperm & Hn & Ha & Hr) Hm Hb Hp.
  unfold mem_access. rewrite Hal, Hperm. cbn [fatal_if negb mbind outcome_bind].
  set (m0 := track_stack_min addr m).
  assert (Hm0 : same_bytes m m0) by apply track_stack_min_bytes.
  assert (Hbrk : mem_brk_point m0 = mem_brk_point m)
    by (unfold m0, track_stack_min; by case_match).
  assert (Hok0 : bytes_ok m0) by (intros a Har; rewrite (Hm0 a); by apply Hm).
  assert (Hst : forall bs m', stored m0 addr bs m' -> stored m addr bs m').
  { intros bs m' Hs a Har. rewrite (Hs a Har). by rewrite (Hm0 a). }
  destruct (access_sizes addr nbytes Hal Hn) as [(k & Hk & Hnk & Hmod)|(w & Hw & Hwn & Hgt & Hmod)].
  - assert (Hf : fits addr (Z.to_nat nbytes)) by (apply (fits_aligned addr k); lia).
    assert (E : forall sz, mem_xfer hb cmd sz = mem_xfer hb cmd (Z.to_nat nbytes) ->
      exists m' buf', mem_xfer hb cmd sz addr buf p m0 = Ok (m', buf') /\
        mem_brk_point m' = mem_brk_point m /\ mem_stack_min m' = mem_stack_min m0 /\
        match cmd with
        | Read => same_bytes m m' /\ buf' = buf_store buf p (mem_bytes m addr (Z.to_nat nbytes))
        | Write => buf' = buf /\ stored m addr (take (Z.to_nat nbytes) (drop p buf)) m'
        end).
    { intros sz ->. destruct cmd.
      - destruct (mem_xfer_read hb (Z.to_nat nbytes) addr buf p m0) as (m' & -> & Hs & ? & ?);
          [done..|]. eexists _, _. split; [done|]. split; [lia|]. split; [done|].
        split; [intros a; by rewrite (Hs a)|]. by rewrite (mem_bytes_ext m m0).
      - destruct (mem_xfer_write hb (Z.to_nat nbytes) addr buf p m0) as (m' & -> & Hs & ? & ?);
          [by auto..|]. eexists _, _. split; [done|]. split; [lia|]. split; [done|].
        split; [done|]. by apply Hst. }
    assert (k = 0 \/ k = 1 \/ k = 2) as [-> | [-> | ->]] by lia; subst nbytes; by apply E.
  - replace (nbytes =? 1) with false by blia. replace (nbytes =? 2) with false by blia.
    replace (nbytes =? 4) with false by blia. rewrite Hwn.
    replace (Z.to_nat nbytes) with (4 * w)%nat in * by lia. destruct cmd.
    + destruct (mem_xfer_words_read hb w addr buf p m0) as (m' & -> & Hs & ? & ?);
        [lia|lia|done|done|lia|].
      eexists _, _. split; [done|]. split; [lia|]. split; [done|].
      split; [intros a; by rewrite (Hs a)|]. by rewrite (mem_bytes_ext m m0).
    + destruct (mem_xfer_words_write hb w addr buf p m0) as (m' & -> & Hs & ? & ?);
        [lia|lia|done|by auto|lia|].
      eexists _, _. split; [done|]. split; [lia|]. split; [done|].
      split; [done|]. by apply Hst.
Qed.

Lemma buf_store_one (buf : list Z) (p : nat) (b : Z) :
  (p < length buf)%nat -> buf_store buf p [b] = <[p := b]> buf.
Proof.
  intros Hp. unfold buf_store. rewrite (insert_take_drop buf p b) by done. simpl.
  do 2 f_equal. f_equal. lia.
Qed.

Lemma stored_bytes_ok (m m' : mem_state) (addr : Z) (bs : list Z) :
  bytes_ok m -> Forall is_byte bs -> stored m addr bs m' -> bytes_ok m'.
Proof.
  intros Hm Hb Hs a Ha. rewrite (Hs a Ha). case_match eqn:E; [|by apply Hm].
  bool_to_prop. destruct (lookup_lt_is_Some_2 bs (Z.to_nat (a - addr))) as [b Hb']; [lia|].
  rewrite Hb'. simpl. by eapply Forall_lookup_1.
Qed.

#[export] Instance mem_access_bytes (hb : bool) (ld : ld_bounds) :
  ByteAccess (mem_access hb ld) mem_byte
    (fun cmd a => 0 <= a < 2 ^ 31 /\ mem_perm ld cmd a = true) bytes_ok.
Proof.
  assert (Hv : forall cmd a, 0 <= a < 2 ^ 31 /\ mem_perm ld cmd a = true -> valid_access ld cmd a 1).
  { intros cmd a [Ha Hp]. split; [|split; [done|lia]].
    unfold bad_align. simpl. by rewrite Z.land_0_r. }
  split.
  - by intros cmd a [].
  - intros a m Hm Ha. by apply Hm.
  - intros a buf p m Hm Ha Hp.
    destruct (mem_access_spec hb ld Read a buf p 1 m (Hv _ _ Ha) Hm) as (m' & b' & E & _ & _ & Hs & ->);
      [done|lia|].
    exists m'. unfold mem_bytes in E. simpl in E. rewrite Z.add_0_r, buf_store_one in E by done.
    split; [done|]. split; [|auto]. intros x Hx. rewrite (Hs x). by apply Hm.
  - intros a buf p b m Hm Ha Hp Hb.
    destruct (mem_access_spec hb ld Write a buf p 1 m (Hv _ _ Ha) Hm) as (m' & b' & E & _ & _ & -> & Hs);
      [done|by apply lookup_lt_Some in Hp; lia|].
    exists m'. split; [done|]. apply drop_S in Hp as Hd. simpl in Hs. rewrite Hd in Hs. simpl in Hs.
    split.
    + eapply stored_bytes_ok; [done| |exact Hs].
      rewrite take_0. constructor; [|constructor]. by eapply Forall_lookup_1.
    + intros x Hx. rewrite (Hs x Hx), take_0. simpl.
      destruct (Z.eqb_spec x a) as [->|Hne].
      * replace ((a <=? a) && (a <? a + Z.of_nat 1)) with true by blia. rewrite Z.sub_diag. done.
      * by replace ((a <=? x) && (x <? a + Z.of_nat 1)) with false by blia.
Qed.

(** * The copy loops, over any byte access function *)

Section Copies.
Context {M : Type} (mem_fn : mem_cmd -> Z -> list Z -> nat -> Z -> M -> outcome (M * list Z)).
Context {byte : M -> Z -> Z} {ok : mem_cmd -> Z -> Prop} {wf : M -> Prop}.
Context `{!ByteAccess mem_fn byte ok wf}.

(** The bytes of the memory from [addr]. *)
Definition bytes_from (m : M) (addr : Z) (n : nat) : list Z :=
  map (fun i => byte m (addr + Z.of_nat i)) (seq 0 n).

Definition ok_range (cmd : mem_cmd) (addr : Z) (n : nat) : Prop :=
  forall i, (i < n)%nat -> ok cmd (addr + Z.of_nat i).

Lemma ok_range_S (cmd : mem_cmd) (addr : Z) (n : nat) :
  ok_range cmd addr (S n) -> ok cmd addr /\ u32 (addr + 1) = addr + 1 /\ ok_range cmd (addr + 1) n.
Proof.
  intros H. pose proof (H 0%nat ltac:(lia)) as H0. rewrite Z.add_0_r in H0. split; [done|].
  pose proof (byte_addr cmd addr H0). rewrite u32_small by lia. split; [done|].
  intros i Hi. specialize (H (S i) ltac:(lia)).
  by replace (addr + 1 + Z.of_nat i) with (addr + Z.of_nat (S i)) by lia.
Qed.

Lemma bytes_from_S (m : M) (addr : Z) (n : nat) :
  bytes_from m addr (S n) = byte m addr :: bytes_from m (addr + 1) n.
Proof.
  unfold bytes_from. simpl. rewrite Z.add_0_r. f_equal. rewrite <- seq_shift, map_map.
  apply map_ext. intros i. f_equal. lia.
Qed.

Lemma bytes_from_ext (m m' : M) (addr : Z) (n : nat) :
  (forall i, (i < n)%nat -> byte m' (addr + Z.of_nat i) = byte m (addr + Z.of_nat i)) ->
  bytes_from m' addr n = bytes_from m addr n.
Proof. intros H. apply map_ext_in. intros i Hi%in_seq. apply H. lia. Qed.

Lemma mem_bcopy_read (n : nat) (addr : Z) (buf : list Z) (p : nat) (m : M) :
  wf m -> ok_range Read addr n -> (p + n <= length buf)%nat ->
  exists m', mem_bcopy mem_fn Read addr buf p n m = Ok (m', buf_store buf p (bytes_from m addr n))
    /\ wf m' /\ forall a, 0 <= a < 2 ^ 31 -> byte m' a = byte m a.
Proof.
  revert addr buf p m. induction n as [|n IH]; intros addr buf p m Hm Hok Hp.
  - exists m. unfold buf_store. simpl. by rewrite Nat.add_0_r, take_drop.
  - apply ok_range_S in Hok as Hok'. destruct Hok' as (H0 & Hu & Hr).
    destruct (byte_read addr buf p m Hm H0) as (m1 & E & Hm1 & Hs1); [lia|].
    destruct (IH (addr + 1) (<[p := byte m addr]> buf) (p + 1)%nat m1 Hm1 Hr)
      as (m' & E' & Hm' & Hs'); [rewrite length_insert; lia|].
    exists m'. cbn [mem_bcopy]. rewrite E. cbn [mbind outcome_bind]. rewrite Hu, E'.
    split; [|split; [done|intros a Ha; by rewrite Hs', Hs1]]. do 2 f_equal.
    rewrite bytes_from_S, (bytes_from_ext m m1).
    2: { intros i Hi. apply Hs1. eapply byte_addr, (Hr i). lia. }
    rewrite <- buf_store_one by lia. change 1%nat with (length [byte m addr]) at 1.
    rewrite buf_store_app; [done|]. simpl. unfold bytes_from. rewrite length_map, length_seq. lia.
Qed.

Lemma mem_bcopy_write (n : nat) (addr : Z) (buf : list Z) (p : nat) (m : M) :
  wf m -> ok_range Write addr n -> (p + n <= length buf)%nat -> Forall is_byte buf ->
  exists m', mem_bcopy mem_fn Write addr buf p n m = Ok (m', buf) /\ wf m' /\
    forall a, 0 <= a < 2 ^ 31 ->
      byte m' a = if (addr <=? a) && (a <? addr + Z.of_nat n)
                  then default 0 (buf !! (p + Z.to_nat (a - addr))%nat) else byte m a.
Proof.
  revert addr p m. induction n as [|n IH]; intros addr p m Hm Hok Hp Hb.
  - exists m. simpl. repeat split; [done|]. intros a Ha.
    by replace ((addr <=? a) && (a <? addr + Z.of_nat 0)) with false by blia.
  - apply ok_range_S in Hok as Hok'. destruct Hok' as (H0 & Hu & Hr).
    destruct (lookup_lt_is_Some_2 buf p) as [b Hbp]; [lia|].
    destruct (byte_write addr buf p b m Hm H0 Hbp Hb) as (m1 & E & Hm1 & Hs1).
    destruct (IH (addr + 1) (p + 1)%nat m1 Hm1 Hr) as (m' & E' & Hm' & Hs'); [lia|done|].
    exists m'. cbn [mem_bcopy]. rewrite E. cbn [mbind outcome_bind]. rewrite Hu, E'.
    split; [done|]. split; [done|]. intros a Ha. rewrite Hs', Hs1 by done.
    destruct (Z.eqb_spec a addr) as [->|Hne].
    + replace ((addr + 1 <=? addr) && _) with false by blia.
      replace ((addr <=? addr) && (addr <? addr + Z.of_nat (S n))) with true by blia.
      by rewrite Z.sub_diag, Nat.add_0_r, Hbp.
    + replace ((addr + 1 <=? a) && (a <? addr + 1 + Z.of_nat n))
        with ((addr <=? a) && (a <? addr + Z.of_nat (S n))) by blia.
      case_match eqn:Ec; [|done]. bool_to_prop. do 2 f_equal. lia.
Qed.

(** The terminated string [s ++ [0]] sits in memory at [addr]. *)
Definition string_at (m : M) (addr : Z) (s : list Z) : Prop :=
  bytes_from m addr (S (length s)) = s ++ [0].

Lemma mem_strcpy_read_spec (s : list Z) (fuel : nat) (addr : Z) (buf : list Z) (p : nat) (n : Z) (m : M) :
  wf m -> ok_range Read addr (S (length s)) -> Forall (fun b => b <> 0) s -> string_at m addr s ->
  (length s < fuel)%nat -> (p + S (length s) <= length buf)%nat ->
  exists m', mem_strcpy_read mem_fn fuel addr buf p n m
    = Ok (m', buf_store buf p (s ++ [0]), n + Z.of_nat (S (length s))) /\ wf m' /\
    forall a, 0 <= a < 2 ^ 31 -> byte m' a = byte m a.
Proof.
  revert fuel addr buf p n m.
  induction s as [|b s IH]; intros [|fuel] addr buf p n m Hm Hok Hnz Hs Hf Hp; simpl in *; try lia;
    apply ok_range_S in Hok as (H0 & Hu & Hr);
    destruct (byte_read addr [0] 0 m Hm H0) as (m1 & E & Hm1 & Hs1); simpl; try lia;
    rewrite E; simpl; unfold c_get; simpl.
  - unfold string_at in Hs. rewrite bytes_from_S in Hs. injection Hs as ->.
    destruct (lookup_lt_is_Some_2 buf p) as [x Hx]; [lia|].
    rewrite (c_upd_insert _ _ _ x) by done. simpl. exists m1.
    rewrite <- buf_store_one by lia. split; [done|]. split; [done|]. intros a Ha. by rewrite Hs1.
  - unfold string_at in Hs. cbn [length] in Hs. rewrite bytes_from_S in Hs. injection Hs as Hb Hs.
    destruct (lookup_lt_is_Some_2 buf p) as [x Hx]; [lia|].
    rewrite (c_upd_insert _ _ _ x) by done. simpl. inversion_clear Hnz as [|? ? Hb0 Hnz'].
    rewrite Hb. unfold truth. replace (b =? 0) with false by blia. simpl. rewrite Hu.
    destruct (IH fuel (addr + 1) (<[p := b]> buf) (p + 1)%nat (n + 1) m1) as (m' & E' & Hm' & Hs'); try done.
    + unfold string_at. rewrite <- Hs. apply bytes_from_ext. intros i Hi. apply Hs1.
      eapply byte_addr, (Hr i). lia.
    + lia.
    + rewrite length_insert. lia.
    + exists m'. rewrite E'. split; [|split; [done|intros a Ha; by rewrite Hs', Hs1]].
      rewrite <- buf_store_one by lia. change 1%nat with (length [b]) at 1.
      rewrite buf_store_app by (rewrite length_app; simpl; lia). do 2 f_equal. lia.
Qed.

Lemma mem_strcpy_write_spec (s : list Z) (fuel : nat) (addr : Z) (buf : list Z) (p : nat) (n : Z) (m : M) :
  wf m -> ok_range Write addr (S (length s)) -> Forall (fun b => b <> 0) s -> Forall is_byte s ->
  take (S (length s)) (drop p buf) = s ++ [0] -> (length s < fuel)%nat ->
  exists m', mem_strcpy_write mem_fn fuel addr buf p n m
    = Ok (m', buf, n + Z.of_nat (S (length s))) /\ wf m' /\ string_at m' addr s /\
    forall a, 0 <= a < addr -> byte m' a = byte m a.
Proof.
  revert fuel addr p n m.
  induction s as [|b s IH]; intros [|fuel] addr p n m Hm Hok Hnz Hb Hs Hf; simpl in *; try lia;
    apply ok_range_S in Hok as (H0 & Hu & Hr); unfold c_get;
    destruct (drop p buf) as [|c rest] eqn:Hd; try done;
    (injection Hs as -> Hs || injection Hs as ->);
    assert (Hp : buf !! p = Some _) by (rewrite <- (Nat.add_0_r p), <- lookup_drop, Hd; done);
    rewrite Hp; simpl.
  - destruct (byte_write addr [0] 0 0 m Hm H0) as (m1 & E & Hm1 & Hs1);
      [done|by apply Forall_singleton|].
    rewrite E. simpl. pose proof (byte_addr _ _ H0). exists m1. split; [done|]. split; [done|]. split.
    + unfold string_at. rewrite bytes_from_S, Hs1 by done. by rewrite Z.eqb_refl.
    + intros a Ha. rewrite Hs1 by lia. by replace (a =? addr) with false by blia.
  - inversion_clear Hnz as [|? ? Hb0 Hnz']. inversion_clear Hb as [|? ? Hbb Hb'].
    destruct (byte_write addr [b] 0 b m Hm H0) as (m1 & E & Hm1 & Hs1);
      [done|by apply Forall_singleton|].
    rewrite E. simpl. unfold truth. replace (b =? 0) with false by blia. simpl. rewrite Hu.
    destruct (IH fuel (addr + 1) (p + 1)%nat (n + 1) m1) as (m' & E' & Hm' & Hst & Hs'); try done.
    + rewrite <- drop_drop, Hd. exact Hs.
    + lia.
    + pose proof (byte_addr _ _ H0). exists m'. rewrite E'.
      split; [do 2 f_equal; lia|]. split; [done|]. split.
      * unfold string_at. cbn [length]. rewrite bytes_from_S, Hs', Hs1, Z.eqb_refl by lia.
        simpl. by rewrite Hst.
      * intros a Ha. rewrite Hs', Hs1 by lia. by replace (a =? addr) with false by blia.
Qed.

End Copies.

(** * Properties *)

(** A loaded program with one page of text and of data, used in the witnesses. *)
Definition ld_example : ld_bounds := mk_ld 0x400000 0x1000 0x10000000 0x1000 0x7fffc000.

Lemma bytes_ok_init : bytes_ok mem_init.
Proof. intros a _. unfold is_byte. by vm_compute. Qed.

(** C33: the checked accessor [mem_access].  An access of bad size, misaligned,
    or outside the segments its command allows is a fatal error.  Any other
    access of any power of two size succeeds whatever the byte order of the
    host: a read leaves memory unchanged and copies its bytes into the buffer, a
    write stores the bytes of the buffer and changes no other byte.  Accesses
    larger than MEM_BLOCK_SIZE are among them, where the comments in memory.c
    and memory.h say that the accessor "bombs". *)
Theorem mem_access_correct (hb : bool) (ld : ld_bounds) (cmd : mem_cmd) (addr : Z) (buf : list Z)
    (p : nat) (nbytes : Z) (m : mem_state) :
  (bad_align addr nbytes = true \/ mem_perm ld cmd addr = false ->
   mem_access hb ld cmd addr buf p nbytes m = Fatal) /\
  (valid_access ld cmd addr nbytes -> bytes_ok m -> Forall is_byte buf ->
   (p + Z.to_nat nbytes <= length buf)%nat ->
   exists m' buf', mem_access hb ld cmd addr buf p nbytes m = Ok (m', buf') /\
    mem_brk_point m' = mem_brk_point m /\
    mem_stack_min m' = mem_stack_min (track_stack_min addr m) /\
    match cmd with
    | Read => same_bytes m m' /\ buf' = buf_store buf p (mem_bytes m addr (Z.to_nat nbytes))
    | Write => buf' = buf /\ stored m addr (take (Z.to_nat nbytes) (drop p buf)) m'
    end).
Proof.
  split.
  - unfold mem_access. intros [-> | Hp]; [done|].
    destruct (bad_align addr nbytes); [done|]. by rewrite Hp.
  - intros. by apply mem_access_spec.
Qed.

Lemma mem_access_correct_witness :
  (exists m' buf', mem_access false ld_example Write 0x10000008 [1; 2; 3; 4; 5; 6; 7; 8] 0 8 mem_init
     = Ok (m', buf') /\ mem_byte m' 0x1000000a = 3) /\
  mem_access true ld_example Write 0x400000 [1; 2; 3; 4] 0 4 mem_init = Fatal.
Proof.
  split.
  - destruct (proj2 (mem_access_correct false ld_example Write 0x10000008
      [1; 2; 3; 4; 5; 6; 7; 8] 0 8 mem_init)) as (m' & buf' & E & _ & _ & _ & Hs).
    + unfold valid_access. vm_compute. repeat split; discriminate.
    + apply bytes_ok_init.
    + solve_bytes.
    + vm_compute. lia.
    + exists m', buf'. split; [exact E|]. rewrite (Hs 0x1000000a) by lia. reflexivity.
  - apply mem_access_correct. right. reflexivity.
Defined.

(** bytes copied into the simulated memory with [mem_bcopy] and copied back
    come back unchanged, through any memory access function that reads and
    writes single bytes. *)
Theorem mem_bcopy_roundtrip {M : Type}
    (mem_fn : mem_cmd -> Z -> list Z -> nat -> Z -> M -> outcome (M * list Z))
    (byte : M -> Z -> Z) (ok : mem_cmd -> Z -> Prop) (wf : M -> Prop)
    `{!ByteAccess mem_fn byte ok wf} (addr : Z) (src dst : list Z) (m : M) :
  wf m -> Forall is_byte src -> length dst = length src ->
  ok_range (ok := ok) Write addr (length src) -> ok_range (ok := ok) Read addr (length src) ->
  exists m1 m2, mem_bcopy mem_fn Write addr src 0 (length src) m = Ok (m1, src) /\
    mem_bcopy mem_fn Read addr dst 0 (length src) m1 = Ok (m2, src).
Proof.
  intros Hm Hb Hl Hw Hr.
  destruct (mem_bcopy_write mem_fn (length src) addr src 0 m Hm Hw) as (m1 & E1 & Hm1 & Hs); [lia|done|].
  destruct (mem_bcopy_read mem_fn (length src) addr dst 0 m1 Hm1 Hr) as (m2 & E2 & _); [lia|].
  exists m1, m2. split; [done|]. rewrite E2. do 2 f_equal.
  unfold buf_store, bytes_from. simpl. rewrite length_map, length_seq, drop_ge, app_nil_r by lia.
  apply list_eq. intros i. change (map ?f ?l) with (f <$> l). rewrite list_lookup_fmap.
  destruct (decide (i < length src)%nat) as [Hi|Hi].
  - rewrite lookup_seq_lt by done. simpl. pose proof (byte_addr _ _ (Hr i Hi)).
    rewrite Hs by done.
    replace ((addr <=? addr + Z.of_nat i) && (addr + Z.of_nat i <? addr + Z.of_nat (length src)))
      with true by blia. simpl.
    replace (Z.to_nat (addr + Z.of_nat i - addr)) with i by lia.
    destruct (lookup_lt_is_Some_2 src i Hi) as [b ->]. done.
  - rewrite lookup_seq_ge by lia. symmetry. apply lookup_ge_None_2. lia.
Qed.

Lemma mem_bcopy_roundtrip_witness :
  exists m1 m2, mem_bcopy (mem_access true ld_example) Write 0x10000001 [7; 0; 255] 0 3 mem_init
      = Ok (m1, [7; 0; 255]) /\
    mem_bcopy (mem_access true ld_example) Read 0x10000001 [0; 0; 0] 0 3 m1 = Ok (m2, [7; 0; 255]).
Proof.
  apply (mem_bcopy_roundtrip (mem_access true ld_example) mem_byte _ bytes_ok 0x10000001
    [7; 0; 255] [0; 0; 0] mem_init); [apply bytes_ok_init| |done| |].
  - solve_bytes.
  - intros i Hi. simpl in Hi.
    assert (i = 0 \/ i = 1 \/ i = 2)%nat as [-> | [-> | ->]] by lia; vm_compute; repeat split; discriminate.
  - intros i Hi. simpl in Hi.
    assert (i = 0 \/ i = 1 \/ i = 2)%nat as [-> | [-> | ->]] by lia; vm_compute; repeat split; discriminate.
Defined.

(** [mem_strcpy] terminates: a NUL terminated string copied into memory is
    read back with its terminator, and both directions return the number of
    bytes copied, terminator included. *)
Theorem mem_strcpy_roundtrip {M : Type}
    (mem_fn : mem_cmd -> Z -> list Z -> nat -> Z -> M -> outcome (M * list Z))
    (byte : M -> Z -> Z) (ok : mem_cmd -> Z -> Prop) (wf : M -> Prop)
    `{!ByteAccess mem_fn byte ok wf} (addr : Z) (s junk buf : list Z) (fuel : nat) (m : M) :
  wf m -> Forall is_byte s -> Forall (fun b => b <> 0) s ->
  ok_range (ok := ok) Write addr (S (length s)) -> ok_range (ok := ok) Read addr (S (length s)) ->
  (length s < length buf)%nat -> (length s < fuel)%nat ->
  exists m1 m2 n, mem_strcpy mem_fn Write addr (s ++ [0] ++ junk) fuel m = Ok (m1, s ++ [0] ++ junk, n) /\
    mem_strcpy mem_fn Read addr buf fuel m1
      = Ok (m2, s ++ [0] ++ drop (S (length s)) buf, n) /\ n = Z.of_nat (length s) + 1.
Proof.
  intros Hm Hb Hnz Hw Hr Hl Hf.
  destruct (mem_strcpy_write_spec mem_fn s fuel addr (s ++ [0] ++ junk) 0 0 m) as (m1 & E1 & Hm1 & Hs & _);
    [done..| |done|].
  { rewrite drop_0, (app_assoc s [0] junk). apply take_app_length'. rewrite length_app. simpl. lia. }
  destruct (mem_strcpy_read_spec mem_fn s fuel addr buf 0 0 m1) as (m2 & E2 & _); [done..|lia|].
  exists m1, m2, (0 + Z.of_nat (S (length s))). split; [exact E1|]. split; [|lia].
  replace (s ++ [0] ++ drop (S (length s)) buf) with (buf_store buf 0 (s ++ [0])); [exact E2|].
  unfold buf_store. rewrite length_app, <- app_assoc. simpl. by rewrite Nat.add_comm.
Qed.

Lemma mem_strcpy_roundtrip_witness :
  exists m1 m2 n, mem_strcpy (mem_access false ld_example) Write 0x10000000 [104; 105; 0; 9] 5 mem_init
      = Ok (m1, [104; 105; 0; 9], n) /\
    mem_strcpy (mem_access false ld_example) Read 0x10000000 [1; 1; 1; 1] 5 m1
      = Ok (m2, [104; 105; 0; 1], n) /\ n = 3.
Proof.
  apply (mem_strcpy_roundtrip (mem_access false ld_example) mem_byte _ bytes_ok 0x10000000
    [104; 105] [9] [1; 1; 1; 1] 5 mem_init); [apply bytes_ok_init| | | | |simpl; lia|simpl; lia].
  - solve_bytes.
  - repeat constructor; discriminate.
  - intros i Hi. simpl in Hi.
    assert (i = 0 \/ i = 1 \/ i = 2)%nat as [-> | [-> | ->]] by lia; vm_compute; repeat split; discriminate.
  - intros i Hi. simpl in Hi.
    assert (i = 0 \/ i = 1 \/ i = 2)%nat as [-> | [-> | ->]] by lia; vm_compute; repeat split; discriminate.
Defined.

Lemma mem_bcopy4_last (hb : bool) (ld : ld_bounds) (cmd : mem_cmd) (words : nat) (addr : Z)
    (buf : list Z) (p : nat) (m : mem_state) (r : mem_state * list Z) :
  (0 < words)%nat -> (length buf < p + 4 * words + 4)%nat ->
  mem_bcopy4_loop (mem_access hb ld) cmd addr buf p words m <> Ok r.
Proof.
  revert addr buf p m. induction words as [|w IH]; intros addr buf p m Hw Hl E; [lia|].
  cbn [mem_bcopy4_loop] in E. apply bind_ok in E as ([m1 buf1] & E1 & E).
  unfold mem_access in E1. do 2 apply bind_ok in E1 as (? & _ & E1). simpl in E1.
  assert (Hx : length buf1 = length buf /\ (p + 8 <= length buf)%nat).
  { destruct cmd; simpl in E1.
    - apply bind_ok in E1 as ([v m2] & _ & E1). apply bind_ok in E1 as (b2 & Eb & [= _ <-]).
      unfold buf_put in Eb. case_match eqn:Hle; [|done]. injection Eb as <-.
      apply Nat.leb_le in Hle. rewrite length_host_split in Hle.
      rewrite !length_app, length_take, length_drop, length_host_split. lia.
    - apply bind_ok in E1 as (b2 & Eb & E1). apply bind_ok in E1 as (m2 & _ & [= _ <-]).
      unfold buf_get in Eb. case_match eqn:Hle; [|done]. apply Nat.leb_le in Hle. lia. }
  destruct w as [|w]; [lia|]. eapply (IH _ _ _ _ ltac:(lia)); [|exact E]. lia.
Qed.

(** [mem_bcopy4] is broken.  It steps the address and the buffer pointer
    before each transfer, so that it never touches the first word and runs one
    word past the end: with a buffer of exactly the [nbytes] it is asked to copy
    no call succeeds. *)
Theorem mem_bcopy4_overruns (hb : bool) (ld : ld_bounds) (cmd : mem_cmd) (addr : Z)
    (buf : list Z) (nbytes : Z) (m : mem_state) :
  4 <= nbytes -> nbytes mod 4 = 0 -> Z.of_nat (length buf) = nbytes ->
  succeeds (mem_bcopy4 (mem_access hb ld) cmd addr buf nbytes m) = false.
Proof.
  intros Hn Hmod Hl. apply succeeds_false. intros r. unfold mem_bcopy4. rewrite shiftr_div by lia. change (2 ^ 2) with 4.
  pose proof (Z.div_mod nbytes 4 ltac:(lia)). apply mem_bcopy4_last; lia.
Qed.

Lemma mem_bcopy4_overruns_witness :
  succeeds (mem_bcopy4 (mem_access false ld_example) Write 0x10000000 [1; 2; 3; 4; 5; 6; 7; 8] 8 mem_init) = false.
Proof. apply mem_bcopy4_overruns; [lia|reflexivity|reflexivity]. Defined.

Lemma mem_dump_loop_range {M : Type} mem_fn (len : nat) (addr : Z) (m m' : M) (out : list (Z * list Z)) :
  0 <= addr -> addr + 4 * Z.of_nat len < 2 ^ 32 ->
  mem_dump_loop mem_fn len addr m = Ok (m', out) ->
  Forall (fun e => addr <= e.1 < addr + 4 * Z.of_nat len) out.
Proof.
  revert addr m m' out. induction len as [|len IH]; intros addr m m' out Ha Hl E; cbn [mem_dump_loop] in E.
  - injection E as _ <-. constructor.
  - apply bind_ok in E as ([m1 data] & _ & E). apply bind_ok in E as ([m2 o] & E & [= _ <-]).
    rewrite u32_small in E by lia. apply IH in E; [|lia|lia]. constructor; [simpl; lia|].
    eapply Forall_impl; [exact E|]. simpl. intros e He. lia.
Qed.

(** [mem_dump] is broken.  It keeps the wrong bits of its address and of its
    length ([& sizeof(int)] for [& ~(sizeof(int)-1)]): whatever block it is asked
    to dump, it prints at most the four words from address 0 or from address 4. *)
Theorem mem_dump_low_words {M : Type} mem_fn (addr len : Z) (m m' : M) (out : list (Z * list Z)) :
  mem_dump mem_fn addr len m = Ok (m', out) -> Forall (fun e => 0 <= e.1 < 20) out.
Proof.
  unfold mem_dump. intros E.
  assert (H4 : forall x, Z.land x 4 = 0 \/ Z.land x 4 = 4).
  { intros x. change 4 with (2 ^ 2). destruct (Z.testbit x 2) eqn:Hb; [right|left];
      apply Z.bits_inj'; intros n Hn; rewrite Z.land_spec, Z.pow2_bits_eqb by lia;
      destruct (Z.eqb_spec 2 n) as [<-|]; rewrite ?Hb, ?andb_false_r, ?Z.testbit_0_l; done. }
  eapply Forall_impl; [eapply mem_dump_loop_range; [| |exact E]|].
  - destruct (H4 addr) as [-> | ->]; lia.
  - destruct (H4 addr) as [-> | ->], (H4 (len + 3)) as [-> | ->]; lia.
  - simpl. intros e He. destruct (H4 addr) as [Ea|Ea], (H4 (len + 3)) as [El|El]; rewrite Ea, El in He; lia.
Qed.

(** A memory access function that answers every request with the buffer it gets. *)
Lemma mem_dump_low_words_witness :
  let fn := fun (_ : mem_cmd) (_ : Z) buf (_ : nat) (_ : Z) (m : unit) => Ok (m, buf) in
  exists out, mem_dump fn 0x10000000 16 tt = Ok (tt, []) /\
    mem_dump fn 0x10000004 5 tt = Ok (tt, out) /\ Forall (fun e => 0 <= e.1 < 20) out.
Proof.
  eexists. split; [reflexivity|]. split; [vm_compute; reflexivity|].
  eapply (mem_dump_low_words (fun _ _ buf _ _ m => Ok (m, buf)) 0x10000004 5 tt tt). vm_compute. reflexivity.
Defined.
