(* ===== verification/Cache.v ===== *)
(** cache.c and cache.h: the set associative caches.

    A cache set is an array of blocks; the way chain (replacement order) is a
    doubly linked list of block indices threaded through it, and in a highly
    associative cache the blocks are also chained in hash buckets.  A pointer to a
    block is its index in the set, NULL is [None].  The miss handler is a field of
    the cache, as in the code; it may change the block it is given and the world
    [W] it lives in (the next level of the memory hierarchy). *)

From S2P Require Import Prelude Dll Misc Memory.

(** [enum cache_policy], [enum list_loc_t]. *)
Inductive cache_policy := LRU | Random | FIFO.
Inductive list_loc_t := Head | Tail.

#[global] Instance cache_policy_eq_dec : EqDecision cache_policy.
Proof. solve_decision. Defined.
#[global] Instance list_loc_eq_dec : EqDecision list_loc_t.
Proof. solve_decision. Defined.

Definition CACHE_BLK_VALID : Z := 1.
Definition CACHE_BLK_DIRTY : Z := 2.

(** [struct cache_blk]; [user_data] names the allocation it points to, [data] is
    empty when the cache has no data (balloc is false). *)
Record cache_blk := mk_blk {
  way_next : option nat;
  way_prev : option nat;
  hash_next : option nat;
  tag : Z;
  status : Z;
  ready : Z;
  user_data : option nat;
  data : list Z;
}.
#[global] Instance eta_cache_blk : Eta cache_blk := mk_eta (fun b =>
  mk_blk (way_next b) (way_prev b) (hash_next b) (tag b) (status b) (ready b) (user_data b) (data b)).

#[global] Instance cache_blk_eq_dec : EqDecision cache_blk.
Proof. solve_decision. Defined.

#[global] Program Instance cache_blk_linked : Linked cache_blk := {|
  lprev := way_prev; lnext := way_next;
  set_lprev v b := b <| way_prev := v |>;
  set_lnext v b := b <| way_next := v |>;
|}.
Solve Obligations with done.

(** [struct cache_set]. *)
Record cache_set := mk_set {
  hash : list (option nat);
  way_head : option nat;
  way_tail : option nat;
  blks : list cache_blk;
}.
#[global] Instance eta_cache_set : Eta cache_set := mk_eta (fun s =>
  mk_set (hash s) (way_head s) (way_tail s) (blks s)).

(** Tests of the status bits. *)
Definition is_valid (b : cache_blk) : bool := truth (Z.land (status b) CACHE_BLK_VALID).
Definition is_dirty (b : cache_blk) : bool := truth (Z.land (status b) CACHE_BLK_DIRTY).

(** The address arithmetic, over the derived parameters of a geometry. *)
Record geometry := mk_geom {
  hsize : Z;
  blk_mask : Z;
  set_shift : Z;
  set_mask : Z;
  tag_shift : Z;
  tag_mask : Z;
  tagset_mask : Z;
}.

Definition CACHE_TAG (g : geometry) (addr : Z) : Z := Z.shiftr addr (tag_shift g).
Definition CACHE_SET (g : geometry) (addr : Z) : Z := Z.land (Z.shiftr addr (set_shift g)) (set_mask g).
Definition CACHE_BLK (g : geometry) (addr : Z) : Z := Z.land addr (blk_mask g).
Definition CACHE_TAGSET (g : geometry) (addr : Z) : Z := Z.land addr (tagset_mask g).
Definition CACHE_BADDR (g : geometry) (addr : Z) : Z := Z.land addr (u32_not (blk_mask g)).
Definition CACHE_MK_BADDR (g : geometry) (tag set : Z) : Z :=
  Z.lor (u32 (Z.shiftl tag (tag_shift g))) (u32 (Z.shiftl set (set_shift g))).
Definition CACHE_HASH (g : geometry) (key : Z) : Z :=
  Z.land (Z.lxor (Z.lxor (Z.lxor (Z.shiftr key 24) (Z.shiftr key 16)) (Z.shiftr key 8)) key)
    (hsize g - 1).

(** * Hash bucket chains *)

(** [unlink_htab_ent]'s search for [blk] in the bucket chain, with the entry
    before it; the chain is followed through [hash_next] from [ent]. *)
Fixpoint find_htab_ent (fuel : nat) (bs : list cache_blk) (blk : nat) (prev ent : option nat)
    : outcome (option nat * nat) :=
  match fuel with
  | O => NoFuel
  | S fuel' =>
      match ent with
      | None => AssertFail
      | Some e =>
          if bool_decide (e = blk) then Ok (prev, e)
          else b ← c_get bs e; find_htab_ent fuel' bs blk (Some e) (hash_next b)
      end
  end.

Definition unlink_htab_ent (g : geometry) (set : cache_set) (blk : nat) : outcome cache_set :=
  b ← c_get (blks set) blk;
  let index := Z.to_nat (CACHE_HASH g (tag b)) in
  bucket ← c_get (hash set) index;
  '(prev, ent) ← find_htab_ent (S (length (blks set))) (blks set) blk None bucket;
  e ← c_get (blks set) ent;
  set ← match prev with
        | None => h ← c_upd (hash set) index (fun _ => hash_next e); Ok (set <| hash := h |>)
        | Some p =>
            bs ← c_upd (blks set) p (fun b => b <| hash_next := hash_next e |>);
            Ok (set <| blks := bs |>)
        end;
  bs ← c_upd (blks set) ent (fun b => b <| hash_next := None |>);
  Ok (set <| blks := bs |>).

Definition link_htab_ent (g : geometry) (set : cache_set) (blk : nat) : outcome cache_set :=
  b ← c_get (blks set) blk;
  let index := Z.to_nat (CACHE_HASH g (tag b)) in
  bucket ← c_get (hash set) index;
  bs ← c_upd (blks set) blk (fun b => b <| hash_next := bucket |>);
  h ← c_upd (hash set) index (fun _ => Some blk);
  Ok (set <| blks := bs |> <| hash := h |>).

(** * The way chain *)

(** Assignment to a link field of the block a pointer designates. *)
Definition put_way_next (p : option nat) (v : option nat) (set : cache_set) : outcome cache_set :=
  i ← deref p;
  bs ← c_upd (blks set) i (fun b => b <| way_next := v |>);
  Ok (set <| blks := bs |>).

Definition put_way_prev (p : option nat) (v : option nat) (set : cache_set) : outcome cache_set :=
  i ← deref p;
  bs ← c_upd (blks set) i (fun b => b <| way_prev := v |>);
  Ok (set <| blks := bs |>).

(** The second half of [update_way_list]: linking [blk] back. *)
Definition relink_way (set : cache_set) (blk : nat) (where_ : list_loc_t) : outcome cache_set :=
  match where_ with
  | Head =>
      set ← put_way_next (Some blk) (way_head set) set;
      set ← put_way_prev (Some blk) None set;
      set ← put_way_prev (way_head set) (Some blk) set;
      Ok (set <| way_head := Some blk |>)
  | Tail =>
      set ← put_way_prev (Some blk) (way_tail set) set;
      set ← put_way_next (Some blk) None set;
      set ← put_way_next (way_tail set) (Some blk) set;
      Ok (set <| way_tail := Some blk |>)
  end.

Definition update_way_list (set : cache_set) (blk : nat) (where_ : list_loc_t) : outcome cache_set :=
  b ← c_get (blks set) blk;
  match way_prev b, way_next b with
  | None, None =>
      c_assert (bool_decide (way_head set = Some blk) && bool_decide (way_tail set = Some blk));;
      Ok set
  | None, Some n =>
      c_assert (bool_decide (way_head set = Some blk) && negb (bool_decide (way_tail set = Some blk)));;
      if bool_decide (where_ = Head) then Ok set
      else
        let set := set <| way_head := Some n |> in
        set ← put_way_prev (Some n) None set;
        relink_way set blk where_
  | Some p, None =>
      c_assert (negb (bool_decide (way_head set = Some blk)) && bool_decide (way_tail set = Some blk));;
      if bool_decide (where_ = Tail) then Ok set
      else
        let set := set <| way_tail := Some p |> in
        set ← put_way_next (Some p) None set;
        relink_way set blk where_
  | Some p, Some n =>
      c_assert (negb (bool_decide (way_head set = Some blk)) && negb (bool_decide (way_tail set = Some blk)));;
      set ← put_way_next (Some p) (Some n) set;
      set ← put_way_prev (Some n) (Some p) set;
      relink_way set blk where_
  end.

(** * Block lookup *)

(** The search loops of cache_access, cache_probe and cache_flush_addr: follow
    [next] from [p] to the first valid block with the tag. *)
Fixpoint find_blk (fuel : nat) (next : cache_blk -> option nat) (bs : list cache_blk) (t : Z)
    (p : option nat) : outcome (option nat) :=
  match fuel with
  | O => NoFuel
  | S fuel' =>
      match p with
      | None => Ok None
      | Some i =>
          b ← c_get bs i;
          if (tag b =? t) && is_valid b then Ok (Some i)
          else find_blk fuel' next bs t (next b)
      end
  end.

(** Hash table or way chain, as the cache has one or not. *)
Definition lookup_blk (g : geometry) (set : cache_set) (t : Z) : outcome (option nat) :=
  let fuel := S (length (blks set)) in
  if truth (hsize g) then
    bucket ← c_get (hash set) (Z.to_nat (CACHE_HASH g t));
    find_blk fuel hash_next (blks set) t bucket
  else find_blk fuel way_next (blks set) t (way_head set).

(** * Copying between a block and the access buffer *)

(** [CACHE_BCOPY]: one transfer for 1, 2 and 4 bytes, words otherwise. *)
Definition bcopy_xfer (cmd : mem_cmd) (sz : nat) (d : list Z) (bofs : nat) (p : list Z) (pofs : nat)
    : outcome (list Z * list Z) :=
  match cmd with
  | Read => bs ← buf_get d bofs sz; p ← buf_put p pofs bs; Ok (d, p)
  | Write => bs ← buf_get p pofs sz; d ← buf_put d bofs bs; Ok (d, p)
  end.

Fixpoint bcopy_words (cmd : mem_cmd) (words : nat) (d : list Z) (bofs : nat) (p : list Z) (pofs : nat)
    : outcome (list Z * list Z) :=
  match words with
  | O => Ok (d, p)
  | S words' =>
      '(d, p) ← bcopy_xfer cmd 4 d bofs p pofs;
      bcopy_words cmd words' d (bofs + 4) p (pofs + 4)
  end.

Definition CACHE_BCOPY (cmd : mem_cmd) (d : list Z) (bofs : Z) (p : list Z) (nbytes : Z)
    : outcome (list Z * list Z) :=
  if nbytes =? 1 then bcopy_xfer cmd 1 d (Z.to_nat bofs) p 0
  else if nbytes =? 2 then bcopy_xfer cmd 2 d (Z.to_nat bofs) p 0
  else if nbytes =? 4 then bcopy_xfer cmd 4 d (Z.to_nat bofs) p 0
  else bcopy_words cmd (Z.to_nat (Z.shiftr nbytes 2)) d (Z.to_nat bofs) p 0.

(** * Caches *)

Section Cache.
Context {W : Type}.

(** [blk_access_fn]: command, block address, block size, the user data and the data of the block it
    may fill or drain, the time; the latency and the new data. *)
Definition access_fn : Type := mem_cmd -> Z -> Z -> option nat -> list Z -> Z -> W -> outcome (Z * list Z * W).

(** [struct cache]; the derived parameters are in [geom], [last_blk] designates
    a block by its set and its index. *)
Record cache := mk_cache {
  nsets : Z;
  bsize : Z;
  balloc : bool;
  usize : Z;
  assoc : Z;
  policy : cache_policy;
  hit_latency : Z;
  blk_access_fn : access_fn;
  geom : geometry;
  bus_free : Z;
  hits : Z;
  misses : Z;
  replacements : Z;
  writebacks : Z;
  invalidations : Z;
  last_tagset : Z;
  last_blk : option (nat * nat);
  sets : list cache_set;
}.
#[global] Instance eta_cache : Eta cache := mk_eta (fun c =>
  mk_cache (nsets c) (bsize c) (balloc c) (usize c) (assoc c) (policy c) (hit_latency c)
    (blk_access_fn c) (geom c) (bus_free c) (hits c) (misses c) (replacements c) (writebacks c)
    (invalidations c) (last_tagset c) (last_blk c) (sets c)).

(** The derived parameters cache_create computes; a shift of 1 by 32 or more, or
    by less than 0, is undefined. *)
Definition mk_geometry (nsets bsize assoc : Z) : outcome geometry :=
  set_shift ← log_base2 bsize;
  l ← log_base2 nsets;
  let tag_shift := set_shift + l in
  if (0 <=? 32 - tag_shift) && (32 - tag_shift <? 32) then
    Ok (mk_geom (if 4 <? assoc then Z.shiftr assoc 2 else 0) (bsize - 1) set_shift (nsets - 1)
      tag_shift (u32 (Z.shiftl 1 (32 - tag_shift) - 1)) (u32_not (bsize - 1)))
  else Undef.

(** The body of cache_create's loop over the blocks of one set: block [j] is
    invalidated and inserted in the hash table and at the head of the way list. *)
Definition init_blk (g : geometry) (usize : Z) (bindex j : nat) (set : cache_set) : outcome cache_set :=
  bs ← c_upd (blks set) j (fun b =>
    b <| status := 0 |> <| tag := 0 |> <| ready := 0 |>
      <| user_data := if truth usize then Some bindex else None |>);
  let set := set <| blks := bs |> in
  set ← (if truth (hsize g) then link_htab_ent g set j else Ok set);
  set ← put_way_next (Some j) (way_head set) set;
  set ← put_way_prev (Some j) None set;
  set ← (if way_head set then put_way_prev (way_head set) (Some j) set else Ok set);
  let set := set <| way_head := Some j |> in
  Ok (if way_tail set then set else set <| way_tail := Some j |>).

Fixpoint init_blks (g : geometry) (usize : Z) (bindex : nat) (js : list nat) (set : cache_set)
    : outcome cache_set :=
  match js with
  | [] => Ok set
  | j :: js' => set ← init_blk g usize bindex j set; init_blks g usize (S bindex) js' set
  end.

(** A block as calloc() leaves it. *)
Definition zero_blk (balloc : bool) (bsize : Z) : cache_blk :=
  mk_blk None None None 0 0 0 None (if balloc then repeat 0 (Z.to_nat bsize) else []).

Definition init_set (g : geometry) (balloc : bool) (bsize usize assoc : Z) (bindex : nat)
    : outcome cache_set :=
  init_blks g usize bindex (seq 0 (Z.to_nat assoc))
    (mk_set (if truth (hsize g) then repeat None (Z.to_nat (hsize g)) else []) None None
       (repeat (zero_blk balloc bsize) (Z.to_nat assoc))).

(** The loop over the sets; [n] sets remain. *)
Fixpoint init_sets (g : geometry) (balloc : bool) (bsize usize assoc : Z) (n : nat) (bindex : nat)
    : outcome (list cache_set) :=
  match n with
  | O => Ok []
  | S n' =>
      set ← init_set g balloc bsize usize assoc bindex;
      rest ← init_sets g balloc bsize usize assoc n' (bindex + Z.to_nat assoc);
      Ok (set :: rest)
  end.

Definition cache_create (nsets bsize : Z) (balloc : bool) (usize assoc : Z) (policy : cache_policy)
    (fn : option access_fn) (hit_latency : Z) : outcome cache :=
  fatal_if (nsets <=? 0);;
  fatal_if (not_pow2 nsets);;
  fatal_if (bsize <? 8);;
  fatal_if (not_pow2 bsize);;
  fatal_if (usize <? 0);;
  fatal_if (assoc <=? 0);;
  fatal_if (not_pow2 assoc);;
  match fn with
  | None => Fatal
  | Some fn =>
      g ← mk_geometry nsets bsize assoc;
      sets ← init_sets g balloc bsize usize assoc (Z.to_nat nsets) 0;
      Ok (mk_cache nsets bsize balloc usize assoc policy hit_latency fn g 0 0 0 0 0 0 0 None sets)
  end.

(** Update of one block of one set. *)
Definition upd_blk (c : cache) (s i : nat) (f : cache_blk -> cache_blk) : outcome cache :=
  set ← c_get (sets c) s;
  bs ← c_upd (blks set) i f;
  Ok (c <| sets ::= <[s := set <| blks := bs |>]> |>).

Definition get_blk (c : cache) (s i : nat) : outcome cache_blk :=
  set ← c_get (sets c) s; c_get (blks set) i.

Definition upd_set (c : cache) (s : nat) (f : cache_set -> outcome cache_set) : outcome cache :=
  set ← c_get (sets c) s; set ← f set; Ok (c <| sets ::= <[s := set]> |>).

(** What an access gives back: the latency, the buffer, *udata and *repl_addr. *)
Record access_result := mk_res {
  r_lat : Z;
  r_buf : list Z;
  r_udata : option nat;
  r_repl : Z;
}.

(** The copy and the dirty bit of an access to block [i] of set [s]. *)
Definition touch_blk (c : cache) (cmd : mem_cmd) (s i : nat) (bofs : Z) (p : list Z) (nbytes : Z)
    : outcome (cache * list Z) :=
  '(c, p) ← (if balloc c then
               b ← get_blk c s i;
               '(d, p) ← CACHE_BCOPY cmd (data b) bofs p nbytes;
               c ← upd_blk c s i (fun b => b <| data := d |>);
               Ok (c, p)
             else Ok (c, p));
  c ← (if bool_decide (cmd = Write)
       then upd_blk c s i (fun b => b <| status := Z.lor (status b) CACHE_BLK_DIRTY |>)
       else Ok c);
  Ok (c, p).

(** Latency of a hit on block [b]. *)
Definition hit_lat (c : cache) (b : cache_blk) (now : Z) : Z :=
  u32 (MAX (s32 (hit_latency c)) (s32 (s64 (ready b - now)))).

(** The slow hit handler. *)
Definition cache_hit (c : cache) (cmd : mem_cmd) (addr : Z) (s i : nat) (p : list Z) (nbytes now : Z)
    : outcome (cache * access_result) :=
  let c := c <| hits ::= Z.add 1 |> in
  '(c, p) ← touch_blk c cmd s i (CACHE_BLK (geom c) addr) p nbytes;
  b ← get_blk c s i;
  c ← (if way_prev b then
         if bool_decide (policy c = LRU) then upd_set c s (fun set => update_way_list set i Head)
         else Ok c
       else Ok c);
  let c := c <| last_tagset := CACHE_TAGSET (geom c) addr |> <| last_blk := Some (s, i) |> in
  b ← get_blk c s i;
  Ok (c, mk_res (hit_lat c b now) p (user_data b) 0).

(** The fast hit handler: the block that hit last. *)
Definition cache_fast_hit (c : cache) (cmd : mem_cmd) (addr : Z) (s i : nat) (p : list Z) (nbytes now : Z)
    : outcome (cache * access_result) :=
  let c := c <| hits ::= Z.add 1 |> in
  '(c, p) ← touch_blk c cmd s i (CACHE_BLK (geom c) addr) p nbytes;
  b ← get_blk c s i;
  let c := c <| last_tagset := CACHE_TAGSET (geom c) addr |> <| last_blk := Some (s, i) |> in
  Ok (c, mk_res (hit_lat c b now) p (user_data b) 0).

(** The choice of the block to replace; [rnd] is what random() returns. *)
Definition select_repl (c : cache) (s : nat) (rnd : Z) : outcome (cache * nat) :=
  match policy c with
  | LRU | FIFO =>
      set ← c_get (sets c) s;
      repl ← deref (way_tail set);
      c ← upd_set c s (fun set => update_way_list set repl Head);
      Ok (c, repl)
  | Random => Ok (c, Z.to_nat (Z.land rnd (assoc c - 1)))
  end.

(** Replacing a valid block: the stalls, the bus, and the write back. *)
Definition evict (c : cache) (s repl : nat) (now : Z) (w : W) : outcome (cache * Z * Z * W) :=
  b ← get_blk c s repl;
  if is_valid b then
    let c := c <| replacements ::= Z.add 1 |> in
    let repl_addr := CACHE_MK_BADDR (geom c) (tag b) (Z.of_nat s) in
    let lat := s32 (MAX 0 (s32 (s64 (ready b - now)))) in
    let lat := s32 (lat + MAX 0 (s32 (s64 (bus_free c - s64 (now + lat))))) in
    let c := c <| bus_free := s64 (MAX (bus_free c) (s64 (now + lat)) + 1) |> in
    if is_dirty b then
      let c := c <| writebacks ::= Z.add 1 |> in
      '(l, d, w) ← blk_access_fn c Write repl_addr (bsize c) (user_data b) (data b) (s64 (now + lat)) w;
      c ← upd_blk c s repl (fun b => b <| data := d |>);
      Ok (c, s32 (lat + l), repl_addr, w)
    else Ok (c, lat, repl_addr, w)
  else Ok (c, 0, 0, w).

(** The miss handler of cache_access. *)
Definition cache_miss (c : cache) (cmd : mem_cmd) (addr : Z) (s : nat) (t : Z) (p : list Z)
    (nbytes now rnd : Z) (w : W) : outcome (cache * access_result * W) :=
  let c := c <| misses ::= Z.add 1 |> in
  '(c, repl) ← select_repl c s rnd;
  c ← (if truth (hsize (geom c)) then upd_set c s (fun set => unlink_htab_ent (geom c) set repl)
       else Ok c);
  let c := c <| last_tagset := 0 |> <| last_blk := None |> in
  '(c, lat, repl_addr, w) ← evict c s repl now w;
  c ← upd_blk c s repl (fun b => b <| tag := t |> <| status := CACHE_BLK_VALID |>);
  b ← get_blk c s repl;
  '(l, d, w) ← blk_access_fn c Read (CACHE_BADDR (geom c) addr) (bsize c) (user_data b) (data b) (s64 (now + lat)) w;
  c ← upd_blk c s repl (fun b => b <| data := d |>);
  let lat := s32 (lat + l) in
  '(c, p) ← touch_blk c cmd s repl (CACHE_BLK (geom c) addr) p nbytes;
  c ← upd_blk c s repl (fun b => b <| ready := s64 (now + lat) |>);
  c ← (if truth (hsize (geom c)) then upd_set c s (fun set => link_htab_ent (geom c) set repl)
       else Ok c);
  b ← get_blk c s repl;
  Ok (c, mk_res (u32 lat) p (user_data b) repl_addr, w).

(** [cache_access]; [rnd] is what random() returns if it is called. *)
Definition cache_access (c : cache) (cmd : mem_cmd) (addr : Z) (p : list Z) (nbytes now rnd : Z) (w : W)
    : outcome (cache * access_result * W) :=
  let g := geom c in
  let t := CACHE_TAG g addr in
  let s := Z.to_nat (CACHE_SET g addr) in
  fatal_if (not_pow2 nbytes || negb (Z.land addr (nbytes - 1) =? 0));;
  fatal_if (u32 (Z.land addr (u32_not (blk_mask g)) + bsize c) <? u32 (addr + nbytes));;
  if CACHE_TAGSET g addr =? last_tagset c then
    '(bs, bi) ← deref (last_blk c);
    '(c, r) ← cache_fast_hit c cmd addr bs bi p nbytes now;
    Ok (c, r, w)
  else
    set ← c_get (sets c) s;
    found ← lookup_blk g set t;
    match found with
    | Some i => '(c, r) ← cache_hit c cmd addr s i p nbytes now; Ok (c, r, w)
    | None => cache_miss c cmd addr s t p nbytes now rnd w
    end.

(** [cache_probe]: non-zero if an access would hit. *)
Definition cache_probe (c : cache) (addr : Z) : outcome bool :=
  let g := geom c in
  set ← c_get (sets c) (Z.to_nat (CACHE_SET g addr));
  found ← lookup_blk g set (CACHE_TAG g addr);
  Ok (bool_decide (is_Some found)).

(** [blk->status &= ~CACHE_BLK_VALID]. *)
Definition invalidate (b : cache_blk) : cache_blk :=
  b <| status := Z.land (status b) (u32_not CACHE_BLK_VALID) |>.

(** The body of the flush loops: invalidate block [i] of set [s], and write it
    back if it is dirty. *)
Definition flush_blk (c : cache) (s i : nat) (lat now : Z) (w : W) : outcome (cache * Z * W) :=
  let c := c <| invalidations ::= Z.add 1 |> in
  c ← upd_blk c s i invalidate;
  b ← get_blk c s i;
  if is_dirty b then
    '(l, d, w) ← blk_access_fn c Write (CACHE_MK_BADDR (geom c) (tag b) (Z.of_nat s)) (bsize c)
                   (user_data b) (data b) (s64 (now + lat)) w;
    c ← upd_blk c s i (fun b => b <| data := d |>);
    Ok (c, s32 (lat + l), w)
  else Ok (c, lat, w).

(** [for (blk=cp->sets[i].way_head; blk; blk=blk->way_next)]. *)
Fixpoint flush_ways (fuel : nat) (c : cache) (s : nat) (p : option nat) (lat now : Z) (w : W)
    : outcome (cache * Z * W) :=
  match fuel with
  | O => NoFuel
  | S fuel' =>
      match p with
      | None => Ok (c, lat, w)
      | Some i =>
          b ← get_blk c s i;
          '(c, lat, w) ← (if is_valid b then flush_blk c s i lat now w else Ok (c, lat, w));
          b ← get_blk c s i;
          flush_ways fuel' c s (way_next b) lat now w
      end
  end.

Fixpoint flush_sets (c : cache) (ss : list nat) (lat now : Z) (w : W) : outcome (cache * Z * W) :=
  match ss with
  | [] => Ok (c, lat, w)
  | s :: ss' =>
      set ← c_get (sets c) s;
      '(c, lat, w) ← flush_ways (S (length (blks set))) c s (way_head set) lat now w;
      flush_sets c ss' lat now w
  end.

Definition cache_flush (c : cache) (now : Z) (w : W) : outcome (cache * Z * W) :=
  let lat := s32 (hit_latency c) in
  let c := c <| last_tagset := 0 |> <| last_blk := None |> in
  '(c, lat, w) ← flush_sets c (seq 0 (Z.to_nat (nsets c))) lat now w;
  Ok (c, u32 lat, w).

Definition cache_flush_addr (c : cache) (addr now : Z) (w : W) : outcome (cache * Z * W) :=
  let g := geom c in
  let s := Z.to_nat (CACHE_SET g addr) in
  let lat := s32 (hit_latency c) in
  set ← c_get (sets c) s;
  found ← lookup_blk g set (CACHE_TAG g addr);
  match found with
  | Some i =>
      let c := c <| last_tagset := 0 |> <| last_blk := None |> in
      '(c, lat, w) ← flush_blk c s i lat now w;
      c ← upd_set c s (fun set => update_way_list set i Tail);
      Ok (c, u32 lat, w)
  | None => Ok (c, u32 lat, w)
  end.

End Cache.

Arguments cache : clear implicits.
Arguments access_fn : clear implicits.

(** [cache_char2policy]. *)
Definition cache_char2policy (c : Z) : outcome cache_policy :=
  if c =? 108 then Ok LRU else if c =? 114 then Ok Random else if c =? 102 then Ok FIFO else Fatal.
