(* ===== verification/CacheSet.v ===== *)
(** One set of a cache: its invariant, and what the operations of cache.c on the
    way chain and on the hash bucket chains do to it. *)

From S2P Require Import Prelude Dll Misc Memory Cache.

(** Everything of a block but its way links, and but all its links. *)
Definition strip (b : cache_blk) : cache_blk := b <| way_next := None |> <| way_prev := None |>.
Definition core (b : cache_blk) : cache_blk := strip b <| hash_next := None |>.

(** [l] without [i], and with [i] moved to one end. *)
Definition without (i : nat) (l : list nat) : list nat := filter (fun j => j <> i) l.

Definition move (where_ : list_loc_t) (i : nat) (l : list nat) : list nat :=
  match where_ with Head => i :: without i l | Tail => without i l ++ [i] end.

(** The chain of the blocks [l] from pointer [p], following [next]. *)
Fixpoint chain (next : cache_blk -> option nat) (bs : list cache_blk) (p : option nat) (l : list nat)
    : Prop :=
  match l with
  | [] => p = None
  | i :: l' => p = Some i /\ exists b, bs !! i = Some b /\ chain next bs (next b) l'
  end.

(** The bucket of block [i], if its tag is the one the block has. *)
Definition bucket_of (g : geometry) (b : cache_blk) : nat := Z.to_nat (CACHE_HASH g (tag b)).

(** Exactly the blocks [P] are chained, each in the bucket of its tag. *)
Definition hash_ok (g : geometry) (set : cache_set) (P : nat -> Prop) : Prop :=
  truth (hsize g) = true ->
  length (hash set) = Z.to_nat (hsize g) /\
  forall k h, hash set !! k = Some h ->
    exists l, chain hash_next (blks set) h l /\ NoDup l /\
      forall i, i ∈ l <-> P i /\ exists b, blks set !! i = Some b /\ bucket_of g b = k.

(** Two blocks of a set never hold the same tag. *)
Definition tags_unique (bs : list cache_blk) : Prop :=
  forall i j b c, bs !! i = Some b -> bs !! j = Some c ->
    is_valid b = true -> is_valid c = true -> tag b = tag c -> i = j.

(** Block [i] is the one an access to tag [t] hits. *)
Definition hit_in (bs : list cache_blk) (t : Z) (i : nat) : bool :=
  match bs !! i with Some b => (tag b =? t) && is_valid b | None => false end.

(** The invariant of a set whose blocks, most recently placed first, are [l];
    the blocks [P] are in the hash table. *)
Record set_wfP (g : geometry) (P : nat -> Prop) (set : cache_set) (l : list nat) : Prop := {
  wf_ways : dlist (blks set) (way_head set) (way_tail set) l;
  wf_perm : l ≡ₚ seq 0 (length (blks set));
  wf_hash : hash_ok g set P;
  wf_tags : tags_unique (blks set);
}.

Definition set_wf (g : geometry) : cache_set -> list nat -> Prop := set_wfP g (fun _ => True).

(** * The way chain *)

Lemma without_notin (i : nat) (l : list nat) : i ∉ l -> without i l = l.
Proof.
  intros H. unfold without. induction l as [|j l IH]; [done|].
  rewrite filter_cons_True by set_solver. f_equal. apply IH. set_solver.
Qed.

Lemma without_middle (i : nat) (l1 l2 : list nat) :
  NoDup (l1 ++ i :: l2) -> without i (l1 ++ i :: l2) = l1 ++ l2.
Proof.
  intros H. apply NoDup_app in H as (H1 & Hd & H2). apply NoDup_cons in H2 as [Hi H2].
  unfold without. rewrite filter_app, filter_cons_False by auto. fold (without i l1) (without i l2).
  rewrite !without_notin; [done|done|]. intros Hx. apply (Hd i Hx). set_solver.
Qed.

Lemma without_elem (i j : nat) (l : list nat) : j ∈ without i l <-> j ∈ l /\ j <> i.
Proof. unfold without. rewrite list_elem_of_filter. naive_solver. Qed.

Lemma move_Permutation (wh : list_loc_t) (i : nat) (l : list nat) :
  NoDup l -> i ∈ l -> move wh i l ≡ₚ l.
Proof.
  intros Hnd Hi. apply list_elem_of_split in Hi as (l1 & l2 & ->).
  unfold move. rewrite without_middle by done.
  destruct wh; [|rewrite Permutation_app_comm; simpl]; apply Permutation_middle.
Qed.

Lemma strip_next (b : cache_blk) (v : option nat) : strip (b <| way_next := v |>) = strip b.
Proof. done. Qed.

Lemma strip_prev (b : cache_blk) (v : option nat) : strip (b <| way_prev := v |>) = strip b.
Proof. done. Qed.

Lemma put_way_next_ok (i : nat) (v : option nat) (set : cache_set) :
  is_Some (blks set !! i) ->
  put_way_next (Some i) v set = Ok (set <| blks ::= alter (set_lnext v) i |>).
Proof. intros H. unfold put_way_next. simpl. by rewrite c_upd_alter. Qed.

Lemma put_way_prev_ok (i : nat) (v : option nat) (set : cache_set) :
  is_Some (blks set !! i) ->
  put_way_prev (Some i) v set = Ok (set <| blks ::= alter (set_lprev v) i |>).
Proof. intros H. unfold put_way_prev. simpl. by rewrite c_upd_alter. Qed.

Lemma is_Some_alter {A : Type} (f : A -> A) (i j : nat) (l : list A) :
  is_Some (l !! j) -> is_Some (alter f i l !! j).
Proof. intros H. rewrite list_lookup_alter. case_decide; [subst; by apply fmap_is_Some|done]. Qed.

#[local] Hint Resolve is_Some_alter : sim.

(** Relinking a free block into the chain of the others. *)
Lemma relink_way_spec (set : cache_set) (i : nat) (wh : list_loc_t) (l : list nat) :
  is_Some (blks set !! i) -> i ∉ l -> l <> [] ->
  dlist (blks set) (way_head set) (way_tail set) l ->
  exists set', relink_way set i wh = Ok set' /\
    dlist (blks set') (way_head set') (way_tail set') (match wh with Head => i :: l | Tail => l ++ [i] end) /\
    hash set' = hash set /\ strip <$> blks set' = strip <$> blks set.
Proof.
  intros Hi Hil Hne (Hnd & Hh & Ht & Hs). destruct wh; simpl.
  - destruct l as [|h l]; [done|]. simpl in Hh. rewrite Hh.
    assert (Hhs : is_Some (blks set !! h)) by (eapply dllseg_lookup; [done|set_solver]).
    rewrite put_way_next_ok by done. simpl. rewrite put_way_prev_ok by (simpl; auto with sim). simpl.
    rewrite Hh, put_way_prev_ok by (simpl; auto with sim). simpl.
    eexists. split; [done|]. simpl.
    split; [|split; [done|by rewrite !list_fmap_alter_id]].
    split; [by apply NoDup_cons|]. split; [done|]. split; [by rewrite Ht|].
    destruct Hi as [b Hb].
    exact (dlist_link_head (blks set) i h l b (proj2 (NoDup_cons _ _) (conj Hil Hnd)) Hb Hs).
  - destruct l as [|t l _] using rev_ind; [done|].
    rewrite last_or_app in Ht. simpl in Ht. rewrite Ht.
    assert (Hts : is_Some (blks set !! t)) by (eapply dllseg_lookup; [done|set_solver]).
    rewrite put_way_prev_ok by done. simpl. rewrite put_way_next_ok by (simpl; auto with sim). simpl.
    rewrite Ht, put_way_next_ok by (simpl; auto with sim). simpl.
    eexists. split; [done|]. simpl.
    split; [|split; [done|by rewrite !list_fmap_alter_id]].
    assert (Hnd' : NoDup ((l ++ [t]) ++ [i])).
    { apply NoDup_app. split; [done|]. split; [|apply NoDup_singleton]. set_solver. }
    split; [done|]. split; [by rewrite Hh, !hd_or_app|]. split; [by rewrite last_or_app|].
    destruct Hi as [b Hb]. rewrite <- app_assoc in Hnd' |- *.
    exact (dlist_link_tail (blks set) i t l b Hnd' Hb Hs).
Qed.

Lemma update_way_list_spec (set : cache_set) (i : nat) (wh : list_loc_t) (l : list nat) :
  dlist (blks set) (way_head set) (way_tail set) l -> i ∈ l ->
  exists set', update_way_list set i wh = Ok set' /\
    dlist (blks set') (way_head set') (way_tail set') (move wh i l) /\
    hash set' = hash set /\ strip <$> blks set' = strip <$> blks set.
Proof.
  intros Hdl Hi. destruct (dlist_split _ _ _ _ _ Hdl Hi) as (l1 & l2 & b & -> & Hb & Hp & Hn).
  simpl in Hp, Hn. pose proof Hdl as (Hnd & Hh & Ht & Hs).
  unfold move. rewrite without_middle by done.
  assert (Hi12 : i ∉ l1 ++ l2).
  { rewrite <- (without_middle i l1 l2) by done. rewrite without_elem. naive_solver. }
  assert (His : is_Some (blks set !! i)) by eauto.
  unfold update_way_list. rewrite (c_get_some _ _ _ Hb). cbn [mbind outcome_bind].
  rewrite Hp, Hn. rewrite hd_or_app in Hh. rewrite last_or_app in Ht. simpl in Ht.
  destruct l1 as [|a l1 _] using rev_ind; destruct l2 as [|c l2]; simpl in Hh, Ht |- *.
  - rewrite Hh, Ht, bool_decide_eq_true_2 by done. simpl. exists set.
    split; [done|]. split; [by destruct wh|done].
  - assert (Hnt : way_tail set <> Some i).
    { rewrite Ht. intros E. apply (last_or_elem None (c :: l2)) in E. set_solver. }
    rewrite Hh, (bool_decide_eq_true_2 (Some i = Some i) eq_refl), (bool_decide_eq_false_2 _ Hnt).
    simpl. destruct wh; simpl; [by exists set|].
    assert (Hcs : is_Some (blks set !! c)) by (eapply dllseg_lookup; [done|set_solver]).
    rewrite put_way_prev_ok by done. cbn [mbind outcome_bind].
    edestruct (relink_way_spec (set <| way_head := Some c |> <| blks ::= alter (set_lprev None) c |>)
      i Tail (c :: l2)) as (set' & E & Hd & Hh' & Hst); [simpl; auto with sim|set_solver|done| |].
    { split; [by apply NoDup_cons in Hnd as [_ ?]|]. split; [done|]. split; [done|].
      exact (dlist_unlink_first _ i c l2 Hnd Hs). }
    exists set'. split; [exact E|]. split; [exact Hd|]. split; [by rewrite Hh'|].
    rewrite Hst. simpl. by rewrite list_fmap_alter_id.
  - rewrite last_or_app in Hp |- *. simpl. rewrite Ht.
    assert (Hnh : way_head set <> Some i) by (rewrite Hh; destruct l1; simpl; intros [=]; set_solver).
    rewrite (bool_decide_eq_true_2 (Some i = Some i) eq_refl), (bool_decide_eq_false_2 _ Hnh).
    simpl. rewrite app_nil_r in *. destruct wh; simpl; [|by exists set].
    assert (Has : is_Some (blks set !! a)) by (eapply dllseg_lookup; [done|set_solver]).
    rewrite put_way_next_ok by done. cbn [mbind outcome_bind].
    edestruct (relink_way_spec (set <| way_tail := Some a |> <| blks ::= alter (set_lnext None) a |>)
      i Head (l1 ++ [a])) as (set' & E & Hd & Hh' & Hst); [simpl; auto with sim|set_solver|by destruct l1| |].
    { rewrite <- app_assoc in Hnd, Hs. apply NoDup_app in Hnd as Hnd'. split; [|split; [|split]].
      - rewrite app_assoc in Hnd. by apply NoDup_app in Hnd as (? & _).
      - simpl. rewrite Hh. by destruct l1.
      - by rewrite last_or_app.
      - exact (dlist_unlink_last _ l1 a i Hnd Hs). }
    exists set'. split; [exact E|]. split; [exact Hd|]. split; [by rewrite Hh'|].
    rewrite Hst. simpl. by rewrite list_fmap_alter_id.
  - assert (Hnh : way_head set <> Some i) by (rewrite Hh; destruct l1; simpl; intros [=]; set_solver).
    assert (Hnt : way_tail set <> Some i).
    { rewrite Ht. intros E. apply (last_or_elem None (c :: l2)) in E. set_solver. }
    rewrite last_or_app, (bool_decide_eq_false_2 _ Hnh), (bool_decide_eq_false_2 _ Hnt).
    simpl. assert (Has : is_Some (blks set !! a)) by (eapply dllseg_lookup; [done|set_solver]).
    assert (Hcs : is_Some (blks set !! c)) by (eapply dllseg_lookup; [done|set_solver]).
    rewrite put_way_next_ok by done. cbn [mbind outcome_bind].
    rewrite put_way_prev_ok by (simpl; auto with sim). cbn [mbind outcome_bind].
    edestruct (relink_way_spec (set <| blks ::= alter (set_lnext (Some c)) a |>
        <| blks ::= alter (set_lprev (Some a)) c |>) i wh ((l1 ++ [a]) ++ c :: l2))
      as (set' & E & Hd & Hh' & Hst); [simpl; auto with sim|set_solver|by destruct l1| |].
    { assert (Hnd2 : NoDup ((l1 ++ [a]) ++ c :: l2))
        by (rewrite <- (without_middle i) by done; by apply NoDup_filter).
      rewrite <- app_assoc in Hnd, Hs, Hnd2 |- *. split; [done|split; [|split]].
      - simpl. rewrite Hh. by destruct l1.
      - rewrite last_or_app. simpl. by rewrite Ht.
      - exact (dlist_unlink_middle _ l1 a i c l2 Hnd Hs). }
    exists set'. split; [exact E|]. split; [exact Hd|]. split; [by rewrite Hh'|].
    rewrite Hst. simpl. by rewrite !list_fmap_alter_id.
Qed.

(** * Chains and lookup *)

Lemma chain_lookup (next : cache_blk -> option nat) (bs : list cache_blk) (p : option nat) (l : list nat) (i : nat) :
  chain next bs p l -> i ∈ l -> is_Some (bs !! i).
Proof.
  revert p. induction l as [|j l IH]; intros p Hc Hi; [set_solver|].
  destruct Hc as (_ & b & Hb & Hc). apply elem_of_cons in Hi as [->|Hi]; eauto.
Qed.

Lemma chain_frame (next : cache_blk -> option nat) (bs bs' : list cache_blk) (p : option nat) (l : list nat) :
  (forall i, i ∈ l -> next <$> bs' !! i = next <$> bs !! i) ->
  chain next bs p l -> chain next bs' p l.
Proof.
  revert p. induction l as [|i l IH]; intros p Heq Hc; [done|].
  destruct Hc as (-> & b & Hb & Hc). split; [done|].
  pose proof (Heq i ltac:(set_solver)) as Hi. rewrite Hb in Hi. simpl in Hi.
  destruct (bs' !! i) as [b'|] eqn:Hb'; [|done]. simpl in Hi. simplify_eq.
  exists b'. split; [done|]. rewrite Hi. apply IH; [|done]. intros j Hj. apply Heq. set_solver.
Qed.

Lemma dlist_chain (bs : list cache_blk) (h t : option nat) (l : list nat) :
  dlist bs h t l -> chain way_next bs h l.
Proof.
  intros (_ & -> & _ & Hs). revert Hs. generalize (@None nat) at 1 as p.
  induction l as [|i l IH]; intros p; [done|]. intros (b & Hb & _ & Hn & Hs). simpl in Hn |- *.
  split; [done|]. exists b. split; [done|]. rewrite Hn. by eapply IH.
Qed.

Lemma find_blk_spec (next : cache_blk -> option nat) (bs : list cache_blk) (t : Z) (l : list nat)
    (fuel : nat) (p : option nat) :
  chain next bs p l -> (length l < fuel)%nat ->
  find_blk fuel next bs t p = Ok (List.find (hit_in bs t) l).
Proof.
  revert fuel p. induction l as [|i l IH]; intros [|fuel] p Hc Hf; simpl in Hf; try lia.
  - simpl in Hc. by rewrite Hc.
  - destruct Hc as (-> & b & Hb & Hc). simpl. rewrite (c_get_some _ _ _ Hb). simpl.
    unfold hit_in at 1. rewrite Hb. case_match; [done|]. apply IH; [done|lia].
Qed.

Lemma CACHE_HASH_range (g : geometry) (t : Z) :
  0 < hsize g -> (Z.to_nat (CACHE_HASH g t) < Z.to_nat (hsize g))%nat.
Proof.
  intros Hh. unfold CACHE_HASH.
  match goal with |- context [Z.land ?x _] => pose proof (land_le_r x (hsize g - 1)); pose proof (land_nonneg_r x (hsize g - 1)) end.
  lia.
Qed.

Lemma NoDup_bounded (l : list nat) (n : nat) :
  NoDup l -> (forall i, i ∈ l -> (i < n)%nat) -> (length l <= n)%nat.
Proof.
  intros Hnd Hb. rewrite <- (length_seq n 0). apply submseteq_length, NoDup_submseteq; [done|].
  intros i Hi. apply elem_of_seq. specialize (Hb i Hi). lia.
Qed.

(** What both lookups compute: the block that an access would hit. *)
Definition lookup_result (bs : list cache_blk) (t : Z) (r : option nat) : Prop :=
  match r with
  | Some i => hit_in bs t i = true
  | None => forall i, hit_in bs t i = false
  end.

Lemma hit_in_lookup (bs : list cache_blk) (t : Z) (i : nat) :
  hit_in bs t i = true <-> exists b, bs !! i = Some b /\ tag b = t /\ is_valid b = true.
Proof.
  unfold hit_in. destruct (bs !! i); [|naive_solver].
  rewrite andb_true_iff, Z.eqb_eq. naive_solver.
Qed.

Lemma find_lookup_result (bs : list cache_blk) (t : Z) (l : list nat) :
  (forall i, hit_in bs t i = true -> i ∈ l) -> lookup_result bs t (List.find (hit_in bs t) l).
Proof.
  intros Hl. destruct (List.find (hit_in bs t) l) as [i|] eqn:E; simpl.
  - by apply find_some in E as [_ E].
  - intros i. destruct (hit_in bs t i) eqn:Hi; [|done].
    eapply find_none in E; [|apply list_elem_of_In; by apply Hl]. congruence.
Qed.

(** The hash table finds exactly what the linear search of the way chain finds. *)
Lemma lookup_blk_spec (g : geometry) (set : cache_set) (l : list nat) (t : Z) :
  set_wf g set l -> 0 <= hsize g ->
  exists r, lookup_blk g set t = Ok r /\ lookup_result (blks set) t r.
Proof.
  intros [Hw Hp Hh Ht] Hg. unfold lookup_blk. destruct (truth (hsize g)) eqn:Htr.
  - destruct (Hh Htr) as [Hlen Hb].
    assert (0 < hsize g) by (unfold truth in Htr; bool_to_prop; lia).
    destruct (lookup_lt_is_Some_2 (hash set) (Z.to_nat (CACHE_HASH g t))) as [h Hk].
    { rewrite Hlen. by apply CACHE_HASH_range. }
    rewrite (c_get_some _ _ _ Hk). cbn [mbind outcome_bind].
    destruct (Hb _ _ Hk) as (bl & Hc & Hnd & Hin).
    rewrite (find_blk_spec _ _ _ bl); [|done|].
    + eexists. split; [done|]. apply find_lookup_result. intros i Hi.
      apply hit_in_lookup in Hi as (b & Hbi & Hbt & _). apply Hin. split; [done|].
      exists b. split; [done|]. unfold bucket_of. by rewrite Hbt.
    + apply (Nat.lt_succ_r), NoDup_bounded; [done|]. intros i Hi.
      eapply lookup_lt_is_Some_1, chain_lookup; done.
  - rewrite (find_blk_spec _ _ _ l).
    + eexists. split; [done|]. apply find_lookup_result. intros i Hi.
      apply hit_in_lookup in Hi as (b & Hbi & _). rewrite Hp. apply elem_of_seq.
      apply lookup_lt_Some in Hbi. lia.
    + by eapply dlist_chain.
    + rewrite Hp, length_seq. lia.
Qed.

Lemma lookup_result_unique (bs : list cache_blk) (t : Z) (r r' : option nat) :
  tags_unique bs -> lookup_result bs t r -> lookup_result bs t r' -> r = r'.
Proof.
  intros Hu. destruct r as [i|], r' as [j|]; simpl; intros Hi Hj.
  - apply hit_in_lookup in Hi as (b & Hb & Htb & Hvb), Hj as (c & Hc & Htc & Hvc).
    f_equal. eapply Hu; try done. congruence.
  - by rewrite (Hj i) in Hi.
  - by rewrite (Hi j) in Hj.
  - done.
Qed.

(** * Hash chains *)

Definition nohash (b : cache_blk) : cache_blk := b <| hash_next := None |>.

Lemma chain_remove (bs : list cache_blk) (p : option nat) (l1 : list nat) (a i : nat) (l2 : list nat) (b : cache_blk) :
  NoDup (l1 ++ a :: i :: l2) -> bs !! i = Some b -> chain hash_next bs p (l1 ++ a :: i :: l2) ->
  chain hash_next (alter (fun c => c <| hash_next := hash_next b |>) a bs) p (l1 ++ a :: l2).
Proof.
  revert p. induction l1 as [|j l1 IH]; intros p Hnd Hb; simpl.
  - intros (-> & c & Hc & _ & b' & Hb' & Hl). simplify_eq. split; [done|].
    rewrite list_lookup_alter_eq, Hc. eexists. split; [done|]. simpl.
    eapply chain_frame; [|done]. intros k Hk. rewrite list_lookup_alter_ne; [done|].
    simpl in Hnd. apply NoDup_cons in Hnd as [Hnd _]. set_solver.
  - simpl in Hnd. apply NoDup_cons in Hnd as [Hj Hnd].
    intros (-> & c & Hc & Hl). split; [done|]. exists c. split.
    + rewrite list_lookup_alter_ne; [done|]. set_solver.
    + by apply IH.
Qed.

Lemma find_htab_ent_spec (bs : list cache_blk) (l1 : list nat) (i : nat) (l2 : list nat) (fuel : nat)
    (prev p : option nat) :
  NoDup (l1 ++ i :: l2) -> chain hash_next bs p (l1 ++ i :: l2) -> (length l1 < fuel)%nat ->
  find_htab_ent fuel bs i prev p = Ok (last_or prev l1, i).
Proof.
  revert fuel prev p. induction l1 as [|j l1 IH]; intros [|fuel] prev p Hnd Hc Hf; simpl in Hf; try lia.
  - destruct Hc as (-> & _). simpl. by rewrite bool_decide_eq_true_2.
  - simpl in Hnd. apply NoDup_cons in Hnd as [Hj Hnd]. destruct Hc as (-> & b & Hb & Hc). simpl.
    rewrite bool_decide_eq_false_2 by set_solver. rewrite (c_get_some _ _ _ Hb). simpl.
    apply IH; [done|done|lia].
Qed.

(** Changing hash links only: what the invariants see of the blocks is kept. *)
Lemma nohash_lookup (bs bs' : list cache_blk) (i : nat) (b : cache_blk) :
  nohash <$> bs' = nohash <$> bs -> bs !! i = Some b ->
  exists b', bs' !! i = Some b' /\ nohash b' = nohash b.
Proof.
  intros H Hb. assert (Hi : (nohash <$> bs') !! i = (nohash <$> bs) !! i) by (by rewrite H).
  rewrite !list_lookup_fmap, Hb in Hi. destruct (bs' !! i) as [b'|]; simpl in Hi; [|done].
  exists b'. split; [done|]. congruence.
Qed.

Lemma bucket_of_nohash (g : geometry) (b b' : cache_blk) :
  nohash b' = nohash b -> bucket_of g b' = bucket_of g b.
Proof. intros H. unfold bucket_of. by injection H as _ _ ->. Qed.

Definition in_bucket (g : geometry) (bs : list cache_blk) (k j : nat) : Prop :=
  exists b, bs !! j = Some b /\ bucket_of g b = k.

Lemma in_bucket_nohash (g : geometry) (bs bs' : list cache_blk) (k j : nat) :
  nohash <$> bs' = nohash <$> bs -> in_bucket g bs' k j <-> in_bucket g bs k j.
Proof.
  intros H. split; intros (b & Hb & Hk).
  - destruct (nohash_lookup bs' bs j b (eq_sym H) Hb) as (b' & Hb' & Hn).
    exists b'. split; [done|]. by rewrite (bucket_of_nohash g b b').
  - destruct (nohash_lookup bs bs' j b H Hb) as (b' & Hb' & Hn).
    exists b'. split; [done|]. by rewrite (bucket_of_nohash g b b').
Qed.

(** The chains of the other buckets survive a change of [a]'s hash link. *)
Lemma chain_other (bs : list cache_blk) (p : option nat) (l : list nat) (a : nat) (v : option nat) :
  a ∉ l -> chain hash_next bs p l ->
  chain hash_next (alter (fun c => c <| hash_next := v |>) a bs) p l.
Proof.
  intros Ha. apply chain_frame. intros j Hj. rewrite list_lookup_alter_ne; [done|]. set_solver.
Qed.

Lemma hash_bucket (g : geometry) (set : cache_set) (P : nat -> Prop) (i : nat) (b : cache_blk) :
  truth (hsize g) = true -> 0 <= hsize g -> hash_ok g set P -> blks set !! i = Some b ->
  exists h l, hash set !! bucket_of g b = Some h /\ chain hash_next (blks set) h l /\ NoDup l /\
    (forall j, j ∈ l <-> P j /\ in_bucket g (blks set) (bucket_of g b) j).
Proof.
  intros Htr Hg Hok Hb. destruct (Hok Htr) as [Hlen Hk].
  assert (0 < hsize g) by (unfold truth in Htr; bool_to_prop; lia).
  destruct (lookup_lt_is_Some_2 (hash set) (bucket_of g b)) as [h Hh].
  { rewrite Hlen. by apply CACHE_HASH_range. }
  destruct (Hk _ _ Hh) as (l & Hc & Hnd & Hin). by exists h, l.
Qed.

Lemma unlink_htab_ent_spec (g : geometry) (set : cache_set) (P : nat -> Prop) (i : nat) (b : cache_blk) :
  truth (hsize g) = true -> 0 <= hsize g -> hash_ok g set P -> P i -> blks set !! i = Some b ->
  exists set', unlink_htab_ent g set i = Ok set' /\ hash_ok g set' (fun j => P j /\ j <> i) /\
    way_head set' = way_head set /\ way_tail set' = way_tail set /\
    nohash <$> blks set' = nohash <$> blks set.
Proof.
  intros Htr Hg Hok HP Hb.
  destruct (hash_bucket g set P i b Htr Hg Hok Hb) as (h & l & Hh & Hc & Hnd & Hin).
  assert (Hil : i ∈ l) by (apply Hin; split; [done|by exists b]).
  assert (Hll : (length l <= length (blks set))%nat).
  { apply NoDup_bounded; [done|]. intros j Hj. by eapply lookup_lt_is_Some_1, chain_lookup. }
  apply list_elem_of_split in Hil as (l1 & l2 & ->).
  unfold unlink_htab_ent. rewrite (c_get_some _ _ _ Hb). cbn [mbind outcome_bind].
  fold (bucket_of g b). rewrite (c_get_some _ _ _ Hh). cbn [mbind outcome_bind].
  rewrite (find_htab_ent_spec _ l1 i l2); [|done|done|rewrite length_app in Hll; simpl in Hll; lia].
  cbn [mbind outcome_bind]. rewrite (c_get_some _ _ _ Hb). cbn [mbind outcome_bind].
  assert (Hl12 : forall j, j ∈ l1 ++ l2 <-> (P j /\ j <> i) /\ in_bucket g (blks set) (bucket_of g b) j).
  { intros j. rewrite <- (without_middle i) by done. rewrite without_elem, Hin. tauto. }
  destruct l1 as [|a l1 _] using rev_ind.
  - simpl last_or. cbv iota. rewrite (c_upd_insert _ _ _ h) by done. cbn [mbind outcome_bind].
    cbn [blks set_field]. rewrite c_upd_alter by done. cbn [mbind outcome_bind].
    eexists. split; [done|]. cbn [hash blks way_head way_tail set_field].
    assert (Hnh : nohash <$> alter (fun c => c <| hash_next := None |>) i (blks set) = nohash <$> blks set)
      by (by apply list_fmap_alter_id).
    split; [|by repeat split]. intros _. cbn [hash blks]. destruct (Hok Htr) as [Hlen Hk].
    split; [by rewrite length_insert|]. intros k h' Hk'.
    destruct (decide (bucket_of g b = k)) as [<-|Hne].
    + rewrite list_lookup_insert_eq in Hk' by (by eapply lookup_lt_Some). injection Hk' as <-.
      apply NoDup_cons in Hnd as [Hi2 Hnd]. destruct Hc as (_ & b' & Hb' & Hc). simplify_eq.
      exists l2. split; [by apply chain_other|]. split; [done|].
      intros j. rewrite (Hl12 j). by setoid_rewrite <- (in_bucket_nohash g _ _ _ j Hnh).
    + rewrite list_lookup_insert_ne in Hk' by done. destruct (Hk _ _ Hk') as (lk & Hck & Hndk & Hink).
      exists lk. split; [apply chain_other; [|done]|split; [done|]].
      * intros Hx. apply Hink in Hx as (_ & b' & Hb' & Hkb). simplify_eq.
      * intros j. rewrite Hink. setoid_rewrite (in_bucket_nohash g _ _ k j Hnh).
        split; [|by intros [[? ?] ?]]. intros [HPj (b' & Hb' & Hkb)]. split; [|by exists b'].
        split; [done|]. intros ->. simplify_eq.
  - rewrite last_or_app. simpl last_or. cbv iota.
    assert (El : (l1 ++ [a]) ++ i :: l2 = l1 ++ a :: i :: l2) by (by rewrite <- app_assoc).
    assert (El2 : (l1 ++ [a]) ++ l2 = l1 ++ a :: l2) by (by rewrite <- app_assoc).
    assert (Hnd2 : NoDup (l1 ++ a :: l2))
      by (rewrite <- El2, <- (without_middle i) by done; by apply NoDup_filter).
    rewrite El in Hc, Hnd, Hin. rewrite El2 in Hl12.
    assert (Ha : is_Some (blks set !! a)) by (eapply chain_lookup; [done|rewrite elem_of_app, elem_of_cons; auto]).
    rewrite c_upd_alter by done. cbn [mbind outcome_bind]. cbn [blks set_field].
    rewrite c_upd_alter by (apply is_Some_alter; by exists b). cbn [mbind outcome_bind].
    eexists. split; [done|]. cbn [hash blks way_head way_tail set_field].
    set (bs' := alter _ i _).
    assert (Hnh : nohash <$> bs' = nohash <$> blks set) by (unfold bs'; by rewrite !list_fmap_alter_id).
    split; [|by repeat split]. intros _. cbn [hash blks]. destruct (Hok Htr) as [Hlen Hk].
    split; [done|]. intros k h' Hk'. destruct (decide (bucket_of g b = k)) as [<-|Hne].
    + simplify_eq. exists (l1 ++ a :: l2). split; [|split].
      * apply chain_other; [|by eapply chain_remove]. intros Hx. apply Hl12 in Hx. tauto.
      * done.
      * intros j. rewrite (Hl12 j). by setoid_rewrite <- (in_bucket_nohash g _ _ _ j Hnh).
    + destruct (Hk _ _ Hk') as (lk & Hck & Hndk & Hink).
      assert (Hnot : forall x, x ∈ l1 ++ a :: i :: l2 -> x ∉ lk).
      { intros x Hx Hy. apply Hin in Hx as (_ & b1 & Hb1 & Hk1). apply Hink in Hy as (_ & b2 & Hb2 & Hk2).
        simplify_eq. }
      exists lk. split; [|split; [done|]].
      * apply chain_other; [apply Hnot; rewrite elem_of_app, !elem_of_cons; auto|].
        apply chain_other; [apply Hnot; rewrite elem_of_app, !elem_of_cons; auto|done].
      * intros j. rewrite Hink. setoid_rewrite (in_bucket_nohash g _ _ k j Hnh).
        split; [|by intros [[? ?] ?]]. intros [HPj (b' & Hb' & Hkb)]. split; [|by exists b'].
        split; [done|]. intros ->. simplify_eq.
Qed.

Lemma link_htab_ent_spec (g : geometry) (set : cache_set) (P : nat -> Prop) (i : nat) (b : cache_blk) :
  truth (hsize g) = true -> 0 <= hsize g -> hash_ok g set P -> ~ P i -> blks set !! i = Some b ->
  exists set', link_htab_ent g set i = Ok set' /\ hash_ok g set' (fun j => P j \/ j = i) /\
    way_head set' = way_head set /\ way_tail set' = way_tail set /\
    nohash <$> blks set' = nohash <$> blks set.
Proof.
  intros Htr Hg Hok HP Hb.
  destruct (hash_bucket g set P i b Htr Hg Hok Hb) as (h & l & Hh & Hc & Hnd & Hin).
  assert (Hil : i ∉ l) by (rewrite Hin; tauto).
  unfold link_htab_ent. rewrite (c_get_some _ _ _ Hb). cbn [mbind outcome_bind].
  fold (bucket_of g b). rewrite (c_get_some _ _ _ Hh). cbn [mbind outcome_bind].
  rewrite (c_upd_alter (blks set)) by (by exists b). cbn [mbind outcome_bind].
  rewrite (c_upd_insert _ _ _ h) by done. cbn [mbind outcome_bind].
  eexists. split; [done|]. cbn [hash blks way_head way_tail set_field]. set (bs' := alter _ i _).
  assert (Hnh : nohash <$> bs' = nohash <$> blks set) by (unfold bs'; by rewrite list_fmap_alter_id).
  split; [|by repeat split]. intros _. cbn [hash blks]. destruct (Hok Htr) as [Hlen Hk].
  split; [by rewrite length_insert|]. intros k h' Hk'.
  destruct (decide (bucket_of g b = k)) as [<-|Hne].
  - rewrite list_lookup_insert_eq in Hk' by (by eapply lookup_lt_Some). injection Hk' as <-.
    exists (i :: l). split; [|split].
    + split; [done|]. exists (b <| hash_next := h |>). unfold bs'.
      rewrite list_lookup_alter_eq, Hb. split; [done|]. simpl. by apply chain_other.
    + by apply NoDup_cons.
    + intros j. fold (in_bucket g bs' (bucket_of g b) j). rewrite (in_bucket_nohash g _ _ _ j Hnh).
      rewrite elem_of_cons, Hin. split; [|tauto].
      intros [->|[? ?]]; [|by auto]. split; [by right|by exists b].
  - rewrite list_lookup_insert_ne in Hk' by done. destruct (Hk _ _ Hk') as (lk & Hck & Hndk & Hink).
    assert (i ∉ lk). { intros Hx. apply Hink in Hx as (? & _). done. }
    exists lk. split; [by apply chain_other|]. split; [done|].
    intros j. rewrite Hink. setoid_rewrite (in_bucket_nohash g _ _ k j Hnh). split; [tauto|].
    intros [[HPj| ->] (b' & Hb' & Hkb)]; [|simplify_eq]. split; [done|by exists b'].
Qed.

(** * Changes that keep the invariant *)

(** What the invariant sees of a block. *)
Definition skel (b : cache_blk) : option nat * option nat * option nat * Z * bool :=
  (way_prev b, way_next b, hash_next b, tag b, is_valid b).

Lemma fmap_lookup_eq {A B : Type} (f : A -> B) (l l' : list A) (i : nat) (a : A) :
  f <$> l' = f <$> l -> l' !! i = Some a -> exists b, l !! i = Some b /\ f a = f b.
Proof.
  intros H Ha. assert (Hi : (f <$> l') !! i = (f <$> l) !! i) by (by rewrite H).
  rewrite !list_lookup_fmap, Ha in Hi. destruct (l !! i) as [b|]; simpl in Hi; [|done].
  exists b. split; [done|]. congruence.
Qed.

Lemma fmap_length_eq {A B : Type} (f : A -> B) (l l' : list A) :
  f <$> l' = f <$> l -> length l' = length l.
Proof. intros H. by rewrite <- (length_fmap f l), <- H, length_fmap. Qed.

Lemma fmap_view_eq {A B C : Type} (f : A -> B) (v : A -> C) (l l' : list A) (i : nat) :
  (forall a b, f a = f b -> v a = v b) -> f <$> l' = f <$> l -> v <$> l' !! i = v <$> l !! i.
Proof.
  intros Hv H. destruct (l' !! i) as [a|] eqn:Ha.
  - destruct (fmap_lookup_eq f l l' i a H Ha) as (b & -> & Hab). simpl. f_equal. by apply Hv.
  - apply lookup_ge_None in Ha. rewrite (fmap_length_eq f l l' H) in Ha.
    apply lookup_ge_None in Ha. by rewrite Ha.
Qed.

Lemma hash_ok_view (g : geometry) (P : nat -> Prop) (set set' : cache_set) :
  hash set' = hash set ->
  (forall i, (fun b => (hash_next b, tag b)) <$> blks set' !! i
             = (fun b => (hash_next b, tag b)) <$> blks set !! i) ->
  hash_ok g set P -> hash_ok g set' P.
Proof.
  intros Hh Hv Hok Htr. rewrite Hh. destruct (Hok Htr) as [Hl Hk]. split; [done|].
  intros k h Hkh. destruct (Hk k h Hkh) as (l & Hc & Hnd & Hin). exists l. split; [|split; [done|]].
  - eapply chain_frame; [|done]. intros i _. specialize (Hv i).
    destruct (blks set' !! i), (blks set !! i); simpl in *; congruence.
  - intros i. rewrite Hin. specialize (Hv i). unfold bucket_of.
    destruct (blks set' !! i) as [b'|], (blks set !! i) as [b|]; simpl in *; try done.
    injection Hv as _ Ht. split; intros (HP & b0 & [= <-] & Hb0); (split; [done|]); eexists; (split; [done|]); congruence.
Qed.

Lemma tags_unique_view (bs bs' : list cache_blk) :
  (forall i, (fun b => (tag b, is_valid b)) <$> bs' !! i = (fun b => (tag b, is_valid b)) <$> bs !! i) ->
  tags_unique bs -> tags_unique bs'.
Proof.
  intros Hv Hu i j b c Hb Hc Hvb Hvc Ht. pose proof (Hv i) as Hi. pose proof (Hv j) as Hj.
  rewrite Hb in Hi. rewrite Hc in Hj. simpl in Hi, Hj.
  destruct (bs !! i) as [b0|] eqn:Hb0; [|done]. destruct (bs !! j) as [c0|] eqn:Hc0; [|done].
  simpl in Hi, Hj. eapply Hu; try done; congruence.
Qed.

(** Changes of data, times and dirty bits. *)
Lemma set_wfP_skel (g : geometry) (P : nat -> Prop) (set : cache_set) (bs : list cache_blk) (l : list nat) :
  set_wfP g P set l -> skel <$> bs = skel <$> blks set -> set_wfP g P (set <| blks := bs |>) l.
Proof.
  intros [(Hnd & Hh & Ht & Hs) Hp Hok Hu] Hsk. simpl.
  assert (Hv : forall {C : Type} (v : cache_blk -> C), (forall a b, skel a = skel b -> v a = v b) ->
    forall i, v <$> bs !! i = v <$> blks set !! i).
  { intros C v Hv i. by apply (fmap_view_eq skel). }
  split; simpl.
  - split; [done|]. split; [done|]. split; [done|].
    eapply dllseg_frame; [|done]. intros i _. apply Hv. unfold skel. intros a b. simpl. congruence.
  - by rewrite (fmap_length_eq skel _ _ Hsk).
  - eapply hash_ok_view; [| |done]; [done|]. apply Hv. unfold skel. intros a b. congruence.
  - eapply tags_unique_view; [|done]. apply Hv. unfold skel. intros a b. congruence.
Qed.

(** Changes of the way chain. *)
Lemma set_wfP_ways (g : geometry) (P : nat -> Prop) (set set' : cache_set) (l l' : list nat) :
  set_wfP g P set l -> dlist (blks set') (way_head set') (way_tail set') l' -> l' ≡ₚ l ->
  hash set' = hash set -> strip <$> blks set' = strip <$> blks set -> set_wfP g P set' l'.
Proof.
  intros [_ Hp Hok Hu] Hd Hl Hh Hst.
  assert (Hv : forall {C : Type} (v : cache_blk -> C), (forall a b, strip a = strip b -> v a = v b) ->
    forall i, v <$> blks set' !! i = v <$> blks set !! i).
  { intros C v Hv i. by apply (fmap_view_eq strip). }
  split; [done| | |].
  - by rewrite Hl, (fmap_length_eq strip _ _ Hst).
  - eapply hash_ok_view; [done| |done]. apply Hv. unfold strip. intros a b. simpl. congruence.
  - eapply tags_unique_view; [|done]. apply Hv. unfold strip, is_valid. intros a b. simpl. congruence.
Qed.

(** Changes of the hash chains. *)
Lemma set_wfP_hash (g : geometry) (P Q : nat -> Prop) (set set' : cache_set) (l : list nat) :
  set_wfP g P set l -> hash_ok g set' Q -> way_head set' = way_head set -> way_tail set' = way_tail set ->
  nohash <$> blks set' = nohash <$> blks set -> set_wfP g Q set' l.
Proof.
  intros [(Hnd & Hh & Ht & Hs) Hp _ Hu] Hok Hhd Htl Hno.
  assert (Hv : forall {C : Type} (v : cache_blk -> C), (forall a b, nohash a = nohash b -> v a = v b) ->
    forall i, v <$> blks set' !! i = v <$> blks set !! i).
  { intros C v Hv i. by apply (fmap_view_eq nohash). }
  split; [|by rewrite (fmap_length_eq nohash _ _ Hno)|done|].
  - split; [done|]. rewrite Hhd, Htl. split; [done|]. split; [done|].
    eapply dllseg_frame; [|done]. intros i _. apply Hv. unfold nohash. intros a b. simpl. congruence.
  - eapply tags_unique_view; [|done]. apply Hv. unfold nohash, is_valid. intros a b. simpl. congruence.
Qed.

Lemma hash_ok_equiv (g : geometry) (P Q : nat -> Prop) (set : cache_set) :
  (forall i, P i <-> Q i) -> hash_ok g set P -> hash_ok g set Q.
Proof.
  intros HPQ Hok Htr. destruct (Hok Htr) as [Hl Hk]. split; [done|]. intros k h Hkh.
  destruct (Hk k h Hkh) as (l & Hc & Hnd & Hin). exists l. split; [done|]. split; [done|].
  intros i. by rewrite Hin, HPQ.
Qed.

(** A new tag for a block that is out of the hash table. *)
Lemma set_wfP_retag (g : geometry) (P : nat -> Prop) (set : cache_set) (i : nat) (b b' : cache_blk) (l : list nat) :
  set_wfP g P set l -> (truth (hsize g) = true -> ~ P i) -> blks set !! i = Some b ->
  way_prev b' = way_prev b -> way_next b' = way_next b ->
  (forall j c, blks set !! j = Some c -> j <> i -> is_valid c = true -> is_valid b' = true -> tag c <> tag b') ->
  set_wfP g P (set <| blks := <[i := b']> (blks set) |>) l.
Proof.
  intros [(Hnd & Hh & Ht & Hs) Hp Hok Hu] HP Hb Hpr Hnx Hnew. split; simpl.
  - split; [done|]. split; [done|]. split; [done|]. eapply dllseg_frame; [|done].
    intros j _. simpl. destruct (decide (i = j)) as [<-|Hne].
    + rewrite list_lookup_insert_eq by (by eapply lookup_lt_Some). rewrite Hb. simpl. congruence.
    + by rewrite list_lookup_insert_ne.
  - by rewrite length_insert.
  - intros Htr. destruct (Hok Htr) as [Hl Hk]. specialize (HP Htr). split; [done|].
    intros k h Hkh. simpl in *. destruct (Hk k h Hkh) as (bl & Hc & Hndb & Hin).
    exists bl. split; [|split; [done|]].
    + eapply chain_frame; [|done]. intros j Hj. rewrite list_lookup_insert_ne; [done|].
      intros <-. apply Hin in Hj as [? _]. done.
    + intros j. rewrite Hin. destruct (decide (i = j)) as [<-|Hne]; [tauto|].
      by rewrite list_lookup_insert_ne.
  - intros x y c d Hx Hy Hvc Hvd Htag.
    assert (Hil : (i < length (blks set))%nat) by (by eapply lookup_lt_Some).
    destruct (decide (i = x)) as [<-|Hix], (decide (i = y)) as [<-|Hiy]; [done| | |].
    + rewrite list_lookup_insert_eq in Hx by done. rewrite list_lookup_insert_ne in Hy by done.
      injection Hx as <-. exfalso. by apply (Hnew y d).
    + rewrite list_lookup_insert_ne in Hx by done. rewrite list_lookup_insert_eq in Hy by done.
      injection Hy as <-. exfalso. by apply (Hnew x c).
    + rewrite list_lookup_insert_ne in Hx by done. rewrite list_lookup_insert_ne in Hy by done.
      by eapply Hu.
Qed.
