(* ===== verification/CacheSpec.v ===== *)
(** The abstract cache: each set is a list of lines in replacement order, with
    no pointers, hash tables, latencies or data.  The refinement theorems of
    CacheAccess.v say that cache.c implements it. *)

From S2P Require Import Prelude Misc Memory Dll Cache CacheSet.

(** A line holds a tag and a dirty bit, or nothing. *)
Definition line : Type := option (Z * bool).

Definition line_tag (t : Z) (x : line) : Prop := fst <$> x = Some t.

#[global] Instance line_tag_dec (t : Z) (x : line) : Decision (line_tag t x).
Proof. unfold line_tag. apply _. Defined.

Record spec_cache := mk_spec {
  sp_sets : list (list line);
  sp_hits : Z;
  sp_misses : Z;
  sp_replacements : Z;
  sp_writebacks : Z;
  sp_invalidations : Z;
}.
#[global] Instance eta_spec_cache : Eta spec_cache := mk_eta (fun c =>
  mk_spec (sp_sets c) (sp_hits c) (sp_misses c) (sp_replacements c) (sp_writebacks c) (sp_invalidations c)).

(** A written line becomes dirty. *)
Definition mark (cmd : mem_cmd) (x : line) : line :=
  (fun '(t, d) => (t, d || bool_decide (cmd = Write))) <$> x.

Definition remove_at {A : Type} (k : nat) (l : list A) : list A := take k l ++ drop (S k) l.

(** A hit on the line at position [k]: only LRU replacement moves it. *)
Definition spec_hit (pol : cache_policy) (cmd : mem_cmd) (k : nat) (x : line) (ls : list line) : list line :=
  if bool_decide (pol = LRU) then mark cmd x :: remove_at k ls else <[k := mark cmd x]> ls.

(** The position a miss replaces: the last one, or the one chosen at random. *)
Definition victim_pos (pol : cache_policy) (k : nat) (ls : list line) : nat :=
  match pol with Random => k | _ => (length ls - 1)%nat end.

Definition spec_fill (pol : cache_policy) (cmd : mem_cmd) (t : Z) (k : nat) (ls : list line) : list line :=
  let new := Some (t, bool_decide (cmd = Write)) in
  match pol with Random => <[k := new]> ls | _ => new :: remove_at (length ls - 1) ls end.

Definition find_line (t : Z) (ls : list line) : option (nat * line) := list_find (line_tag t) ls.

(** An access to tag [t] of set [s]; the line replaced, if a valid one was. *)
Definition spec_access (pol : cache_policy) (cmd : mem_cmd) (t : Z) (s k : nat) (sc : spec_cache)
    : spec_cache * line :=
  let ls := default [] (sp_sets sc !! s) in
  match find_line t ls with
  | Some (j, x) => (sc <| sp_hits ::= Z.add 1 |> <| sp_sets ::= <[s := spec_hit pol cmd j x ls]> |>, None)
  | None =>
      let v := default (None : line) (ls !! victim_pos pol k ls) in
      (sc <| sp_misses ::= Z.add 1 |>
          <| sp_replacements ::= Z.add (match v with Some _ => 1 | None => 0 end) |>
          <| sp_writebacks ::= Z.add (match v with Some (_, true) => 1 | _ => 0 end) |>
          <| sp_sets ::= <[s := spec_fill pol cmd t k ls]> |>, v)
  end.

(** Invalidating the block with tag [t]: its line is emptied and goes last. *)
Definition spec_flush_addr (t : Z) (s : nat) (sc : spec_cache) : spec_cache :=
  let ls := default [] (sp_sets sc !! s) in
  match find_line t ls with
  | Some (j, _) => sc <| sp_invalidations ::= Z.add 1 |> <| sp_sets ::= <[s := remove_at j ls ++ [None]]> |>
  | None => sc
  end.

(** * What a cache of cache.c holds *)

Definition line_of (b : cache_blk) : line := if is_valid b then Some (tag b, is_dirty b) else None.

(** The way chain, read off the links. *)
Fixpoint way_walk (fuel : nat) (bs : list cache_blk) (p : option nat) : list nat :=
  match fuel, p with
  | S fuel', Some i =>
      i :: match bs !! i with Some b => way_walk fuel' bs (way_next b) | None => [] end
  | _, _ => []
  end.

Definition way_order (set : cache_set) : list nat :=
  way_walk (length (blks set)) (blks set) (way_head set).

Definition line_at (bs : list cache_blk) (i : nat) : line :=
  match bs !! i with Some b => line_of b | None => None end.

Definition abs_set (set : cache_set) : list line := line_at (blks set) <$> way_order set.

Definition abs_cache {W : Type} (c : cache W) : spec_cache :=
  mk_spec (abs_set <$> sets c) (hits c) (misses c) (replacements c) (writebacks c) (invalidations c).

(** * Well-formed caches *)

(** The derived parameters of a cache of [2^ks] sets of [2^kb] byte blocks. *)
Record geom_wf (g : geometry) (kb ks : Z) : Prop := {
  gw_kb : 3 <= kb;
  gw_ks : 0 <= ks;
  gw_tag : kb + ks < 32;
  gw_hsize : 0 <= hsize g;
  gw_blk_mask : blk_mask g = 2 ^ kb - 1;
  gw_set_shift : set_shift g = kb;
  gw_set_mask : set_mask g = 2 ^ ks - 1;
  gw_tag_shift : tag_shift g = kb + ks;
  gw_tagset_mask : tagset_mask g = u32_not (2 ^ kb - 1);
}.

(** One set of a cache of associativity [assoc] and [bsize] byte blocks. *)
Record set_ok (g : geometry) (assoc : Z) (balloc : bool) (bsize usize : Z) (set : cache_set) : Prop := {
  so_len : length (blks set) = Z.to_nat assoc;
  so_wf : set_wf g set (way_order set);
  so_tag : Forall (fun b => 0 <= tag b < 2 ^ (32 - tag_shift g)) (blks set);
  so_data : Forall (fun b => balloc = true -> length (data b) = Z.to_nat bsize) (blks set);
  so_user : Forall (fun b => truth usize = true -> is_Some (user_data b)) (blks set);
}.

Record cache_wf {W : Type} (c : cache W) (kb ks : Z) : Prop := {
  cw_geom : geom_wf (geom c) kb ks;
  cw_bsize : bsize c = 2 ^ kb;
  cw_nsets : nsets c = 2 ^ ks;
  cw_assoc : 0 < assoc c /\ not_pow2 (assoc c) = false;
  cw_sets : length (sets c) = Z.to_nat (nsets c);
  cw_set : Forall (set_ok (geom c) (assoc c) (balloc c) (bsize c) (usize c)) (sets c);
  cw_last : match last_blk c with
            | None => last_tagset c = 0
            | Some (s, i) =>
                exists set b, sets c !! s = Some set /\ blks set !! i = Some b /\ is_valid b = true /\
                  CACHE_MK_BADDR (geom c) (tag b) (Z.of_nat s) = last_tagset c /\
                  (policy c = LRU -> way_head set = Some i)
            end;
}.
