(* ===== verification/CacheAccess.v ===== *)
(** cache_access, cache_probe and cache_flush_addr implement the abstract cache of
    CacheSpec.v and keep the invariant of the caches. *)

From S2P Require Import Prelude Dll Misc Memory Cache CacheSet CacheSpec.

(** * Addresses *)

(** The bounds of a geometry. *)
Ltac geo :=
  match goal with
  | H : geom_wf _ _ _ |- _ =>
      pose proof (gw_kb _ _ _ H); pose proof (gw_ks _ _ _ H); pose proof (gw_tag _ _ _ H)
  end.

Section Geometry.
Context {g : geometry} {kb ks : Z} (Hg : geom_wf g kb ks).

Lemma CACHE_TAG_div (a : Z) : CACHE_TAG g a = a / 2 ^ (kb + ks).
Proof. geo. unfold CACHE_TAG. rewrite (gw_tag_shift _ _ _ Hg), shiftr_div by lia. done. Qed.

Lemma CACHE_SET_div (a : Z) : CACHE_SET g a = (a / 2 ^ kb) mod 2 ^ ks.
Proof.
  geo. unfold CACHE_SET. rewrite (gw_set_shift _ _ _ Hg), (gw_set_mask _ _ _ Hg), shiftr_div, land_mask by lia. done.
Qed.

Lemma CACHE_BLK_mod (a : Z) : CACHE_BLK g a = a mod 2 ^ kb.
Proof. geo. unfold CACHE_BLK. rewrite (gw_blk_mask _ _ _ Hg), land_mask by lia. done. Qed.

Lemma CACHE_TAGSET_sub (a : Z) : 0 <= a < 2 ^ 32 -> CACHE_TAGSET g a = a - a mod 2 ^ kb.
Proof. geo. intros. unfold CACHE_TAGSET. rewrite (gw_tagset_mask _ _ _ Hg). apply land_not_mask; lia. Qed.

Lemma CACHE_BADDR_sub (a : Z) : 0 <= a < 2 ^ 32 -> CACHE_BADDR g a = a - a mod 2 ^ kb.
Proof. geo. intros. unfold CACHE_BADDR. rewrite (gw_blk_mask _ _ _ Hg). apply land_not_mask; lia. Qed.

Lemma CACHE_SET_range (a : Z) : 0 <= CACHE_SET g a < 2 ^ ks.
Proof. geo. rewrite CACHE_SET_div. apply Z.mod_pos_bound, pow2_pos. done. Qed.

Lemma pow2_split (a b : Z) : 0 <= a -> 0 <= b -> 2 ^ (a + b) = 2 ^ a * 2 ^ b.
Proof. intros. by rewrite Z.pow_add_r. Qed.

Lemma CACHE_TAG_range (a : Z) : 0 <= a < 2 ^ 32 -> 0 <= CACHE_TAG g a < 2 ^ (32 - tag_shift g).
Proof.
  intros Ha. rewrite CACHE_TAG_div. geo. rewrite (gw_tag_shift _ _ _ Hg).
  pose proof (pow2_pos (kb + ks) ltac:(lia)). split; [apply Z.div_pos; lia|].
  apply Z.div_lt_upper_bound; [done|]. rewrite <- pow2_split by lia.
  replace (kb + ks + (32 - (kb + ks))) with 32 by lia. lia.
Qed.

Lemma CACHE_MK_BADDR_add (t s : Z) :
  0 <= t < 2 ^ (32 - tag_shift g) -> 0 <= s < 2 ^ ks ->
  CACHE_MK_BADDR g t s = t * 2 ^ (kb + ks) + s * 2 ^ kb.
Proof.
  intros Ht Hs. geo. unfold CACHE_MK_BADDR.
  rewrite (gw_tag_shift _ _ _ Hg), (gw_set_shift _ _ _ Hg) in *.
  rewrite !shiftl_mul by lia.
  pose proof (pow2_pos kb ltac:(lia)). pose proof (pow2_pos ks ltac:(lia)).
  pose proof (pow2_pos (kb + ks) ltac:(lia)).
  assert (Hp : 2 ^ (kb + ks) = 2 ^ ks * 2 ^ kb) by (rewrite (Z.add_comm kb), pow2_split by lia; lia).
  assert (H32 : 2 ^ 32 = 2 ^ (32 - (kb + ks)) * 2 ^ (kb + ks))
    by (rewrite <- pow2_split by lia; f_equal; lia).
  assert (Hsb : 0 <= s * 2 ^ kb < 2 ^ (kb + ks)) by nia.
  rewrite (u32_small (t * _)), (u32_small (s * _)) by nia. apply lor_add; lia.
Qed.

Lemma CACHE_MK_BADDR_inj (t s t' s' : Z) :
  0 <= t < 2 ^ (32 - tag_shift g) -> 0 <= s < 2 ^ ks ->
  0 <= t' < 2 ^ (32 - tag_shift g) -> 0 <= s' < 2 ^ ks ->
  CACHE_MK_BADDR g t s = CACHE_MK_BADDR g t' s' -> t = t' /\ s = s'.
Proof.
  intros Ht Hs Ht' Hs'. rewrite !CACHE_MK_BADDR_add by done.
  pose proof (gw_kb _ _ _ Hg). pose proof (gw_ks _ _ _ Hg).
  rewrite (pow2_split kb ks) by lia. pose proof (pow2_pos kb ltac:(lia)). pose proof (pow2_pos ks ltac:(lia)).
  intros E. assert (E' : t * 2 ^ ks + s = t' * 2 ^ ks + s') by nia.
  assert (Hq : t = (t * 2 ^ ks + s) / 2 ^ ks) by (apply (Z.div_unique _ _ _ s); lia).
  assert (Hq' : t' = (t' * 2 ^ ks + s') / 2 ^ ks) by (apply (Z.div_unique _ _ _ s'); lia).
  assert (t = t') by congruence.
  subst. lia.
Qed.

(** The block address of an access is made of its tag and of its set. *)
Lemma CACHE_BADDR_MK (a : Z) : 0 <= a < 2 ^ 32 ->
  CACHE_MK_BADDR g (CACHE_TAG g a) (CACHE_SET g a) = CACHE_BADDR g a.
Proof.
  intros Ha. rewrite CACHE_MK_BADDR_add by (apply CACHE_TAG_range || apply CACHE_SET_range; done).
  rewrite CACHE_BADDR_sub, CACHE_TAG_div, CACHE_SET_div by done.
  pose proof (gw_kb _ _ _ Hg). pose proof (gw_ks _ _ _ Hg).
  pose proof (pow2_pos kb ltac:(lia)). pose proof (pow2_pos ks ltac:(lia)).
  rewrite (pow2_split kb ks) by lia. rewrite <- Z.div_div by lia.
  pose proof (Z.div_mod a (2 ^ kb) ltac:(lia)). pose proof (Z.div_mod (a / 2 ^ kb) (2 ^ ks) ltac:(lia)). nia.
Qed.

Lemma CACHE_TAGSET_MK (a : Z) : 0 <= a < 2 ^ 32 ->
  CACHE_MK_BADDR g (CACHE_TAG g a) (CACHE_SET g a) = CACHE_TAGSET g a.
Proof. intros Ha. by rewrite CACHE_BADDR_MK, CACHE_BADDR_sub, CACHE_TAGSET_sub. Qed.

End Geometry.

(** * The copy between block and buffer *)

Definition touch_data (cmd : mem_cmd) (d : list Z) (bofs : nat) (p : list Z) (n : nat) : list Z :=
  match cmd with Write => buf_store d bofs (take n p) | Read => d end.

Definition touch_buf (cmd : mem_cmd) (d : list Z) (bofs : nat) (p : list Z) (n : nat) : list Z :=
  match cmd with Read => buf_store p 0 (take n (drop bofs d)) | Write => p end.

Lemma bcopy_words_spec (cmd : mem_cmd) (w : nat) (d : list Z) (bofs : nat) (p : list Z) (pofs : nat) :
  (bofs + 4 * w <= length d)%nat -> (pofs + 4 * w <= length p)%nat ->
  bcopy_words cmd w d bofs p pofs =
    Ok (match cmd with Write => buf_store d bofs (take (4 * w) (drop pofs p)) | Read => d end,
        match cmd with Read => buf_store p pofs (take (4 * w) (drop bofs d)) | Write => p end).
Proof.
  revert d bofs p pofs. induction w as [|w IH]; intros d bofs p pofs Hd Hp.
  - unfold buf_store. simpl. rewrite !Nat.add_0_r, !take_drop. by destruct cmd.
  - replace (4 * S w)%nat with (4 + 4 * w)%nat by lia. cbn [bcopy_words].
    destruct cmd; cbn [bcopy_xfer]; rewrite buf_get_spec by lia; cbn [mbind outcome_bind];
      rewrite buf_put_spec by (rewrite length_take_drop; lia); cbn [mbind outcome_bind].
    + rewrite IH by (rewrite ?length_buf_store; rewrite ?length_take_drop; lia). do 2 f_equal.
      rewrite <- (take_take_drop (drop bofs d)), drop_drop.
      rewrite <- buf_store_app by (rewrite length_take_drop by lia; rewrite length_take, length_drop; lia).
      by rewrite length_take_drop by lia.
    + rewrite IH by (rewrite ?length_buf_store; rewrite ?length_take_drop; lia). do 2 f_equal.
      rewrite <- (take_take_drop (drop pofs p)), drop_drop.
      rewrite <- buf_store_app by (rewrite length_take_drop by lia; rewrite length_take, length_drop; lia).
      by rewrite length_take_drop by lia.
Qed.

Lemma bcopy_xfer_spec (cmd : mem_cmd) (n : nat) (d : list Z) (bofs : nat) (p : list Z) :
  (bofs + n <= length d)%nat -> (n <= length p)%nat ->
  bcopy_xfer cmd n d bofs p 0 = Ok (touch_data cmd d bofs p n, touch_buf cmd d bofs p n).
Proof.
  intros Hd Hp. destruct cmd; cbn [bcopy_xfer]; rewrite buf_get_spec by lia; cbn [mbind outcome_bind];
    rewrite buf_put_spec by (rewrite length_take_drop; lia); done.
Qed.

Lemma CACHE_BCOPY_spec (cmd : mem_cmd) (d : list Z) (bofs : Z) (p : list Z) (nbytes : Z) :
  0 < nbytes -> not_pow2 nbytes = false -> 0 <= bofs ->
  bofs + nbytes <= Z.of_nat (length d) -> nbytes <= Z.of_nat (length p) ->
  CACHE_BCOPY cmd d bofs p nbytes =
    Ok (touch_data cmd d (Z.to_nat bofs) p (Z.to_nat nbytes),
        touch_buf cmd d (Z.to_nat bofs) p (Z.to_nat nbytes)).
Proof.
  intros Hn Hpow Hb Hd Hp. unfold CACHE_BCOPY.
  destruct (access_sizes 0 nbytes) as [(k & Hk & -> & _)|(w & Hw & Hwn & Hgt & _)].
  - unfold bad_align. by rewrite Hpow, Z.land_0_l.
  - done.
  - assert (k = 0 \/ k = 1 \/ k = 2) as [-> | [-> | ->]] by lia; apply bcopy_xfer_spec; lia.
  - replace (nbytes =? 1) with false by blia. replace (nbytes =? 2) with false by blia.
    replace (nbytes =? 4) with false by blia. rewrite Hwn.
    rewrite bcopy_words_spec by lia. unfold touch_data, touch_buf. rewrite drop_0.
    by replace (Z.to_nat nbytes) with (4 * w)%nat by lia.
Qed.

Lemma length_touch_data (cmd : mem_cmd) (d : list Z) (bofs : nat) (p : list Z) (n : nat) :
  (bofs + n <= length d)%nat -> length (touch_data cmd d bofs p n) = length d.
Proof. intros H. destruct cmd; [done|]. apply length_buf_store. rewrite length_take. lia. Qed.

(** * Reading the way chain *)

Lemma way_walk_chain (bs : list cache_blk) (p : option nat) (l : list nat) (fuel : nat) :
  chain way_next bs p l -> (length l <= fuel)%nat -> way_walk fuel bs p = l.
Proof.
  revert p fuel. induction l as [|i l IH]; intros p fuel Hc Hf.
  - simpl in Hc. subst. by destruct fuel.
  - destruct Hc as (-> & b & Hb & Hc). destruct fuel as [|fuel]; simpl in Hf; [lia|].
    simpl. rewrite Hb. f_equal. apply IH; [done|lia].
Qed.

Lemma way_order_wf (g : geometry) (P : nat -> Prop) (set : cache_set) (l : list nat) :
  set_wfP g P set l -> way_order set = l.
Proof.
  intros [Hd Hp _ _]. apply way_walk_chain; [by eapply dlist_chain|]. rewrite Hp, length_seq. lia.
Qed.

Lemma line_of_core (b b' : cache_blk) : core b = core b' -> line_of b = line_of b'.
Proof. unfold core, strip, line_of, is_valid, is_dirty. simpl. intros [= -> -> ?]. done. Qed.

Lemma line_at_core (bs bs' : list cache_blk) (i : nat) :
  core <$> bs' = core <$> bs -> line_at bs' i = line_at bs i.
Proof.
  intros H. unfold line_at. pose proof (fmap_view_eq core core bs bs' i (fun a b e => e) H) as Hi.
  destruct (bs' !! i), (bs !! i); simpl in Hi; try done. apply line_of_core. congruence.
Qed.

Lemma core_strip (b b' : cache_blk) : strip b = strip b' -> core b = core b'.
Proof. unfold core, strip. simpl. intros H. injection H as H. congruence. Qed.

Lemma core_nohash (b b' : cache_blk) : nohash b = nohash b' -> core b = core b'.
Proof.
  assert (Hc : forall x, core x = strip (nohash x)) by (by intros []). rewrite !Hc. by intros ->.
Qed.

Lemma fmap_weaken {A B C : Type} (f : A -> B) (h : A -> C) (l l' : list A) :
  (forall a b, f a = f b -> h a = h b) -> f <$> l' = f <$> l -> h <$> l' = h <$> l.
Proof.
  intros Hfh H. apply list_eq. intros i. rewrite !list_lookup_fmap. by apply (fmap_view_eq f h).
Qed.

(** The sets of a cache, one of them replaced. *)
Definition put_set {W : Type} (c : cache W) (s : nat) (set : cache_set) : cache W :=
  c <| sets ::= <[s := set]> |>.

Section Access.
Context {W : Type}.
Implicit Types (c : cache W) (set : cache_set) (s i : nat).

Lemma put_set_put c s set set' : put_set (put_set c s set) s set' = put_set c s set'.
Proof. unfold put_set. simpl. by rewrite list_insert_insert_eq. Qed.

Lemma put_set_lookup c s set set' :
  sets c !! s = Some set -> sets (put_set c s set') !! s = Some set'.
Proof. intros H. simpl. apply list_lookup_insert_eq. by eapply lookup_lt_Some. Qed.

Lemma put_set_id c s set : sets c !! s = Some set -> put_set c s set = c.
Proof. intros H. unfold put_set. destruct c. simpl in *. by rewrite list_insert_id. Qed.

Lemma set_blk_id set i b b' : blks set !! i = Some b -> b' = b -> set <| blks ::= <[i := b']> |> = set.
Proof. intros H ->. destruct set. simpl in *. by rewrite list_insert_id. Qed.

Lemma upd_blk_ok c s i set b f :
  sets c !! s = Some set -> blks set !! i = Some b ->
  upd_blk c s i f = Ok (put_set c s (set <| blks := <[i := f b]> (blks set) |>)).
Proof.
  intros Hs Hb. unfold upd_blk. rewrite (c_get_some _ _ _ Hs). simpl. by rewrite (c_upd_insert _ _ _ b).
Qed.

Lemma get_blk_ok c s i set b :
  sets c !! s = Some set -> blks set !! i = Some b -> get_blk c s i = Ok b.
Proof.
  intros Hs Hb. unfold get_blk. rewrite (c_get_some _ _ _ Hs). simpl. by apply c_get_some.
Qed.

Lemma upd_set_ok c s set f set' :
  sets c !! s = Some set -> f set = Ok set' -> upd_set c s f = Ok (put_set c s set').
Proof. intros Hs Hf. unfold upd_set. rewrite (c_get_some _ _ _ Hs). simpl. by rewrite Hf. Qed.

(** A block after an access to it. *)
Definition touched c (cmd : mem_cmd) (bofs : nat) (p : list Z) (n : nat) (b : cache_blk) : cache_blk :=
  b <| data := if balloc c then touch_data cmd (data b) bofs p n else data b |>
    <| status := if bool_decide (cmd = Write) then Z.lor (status b) CACHE_BLK_DIRTY else status b |>.

Lemma touch_blk_ok c cmd s i bofs p nbytes set b :
  sets c !! s = Some set -> blks set !! i = Some b ->
  0 < nbytes -> not_pow2 nbytes = false -> 0 <= bofs ->
  (balloc c = true -> bofs + nbytes <= Z.of_nat (length (data b)) /\ nbytes <= Z.of_nat (length p)) ->
  touch_blk c cmd s i bofs p nbytes =
    Ok (put_set c s (set <| blks ::= <[i := touched c cmd (Z.to_nat bofs) p (Z.to_nat nbytes) b]> |>),
        if balloc c then touch_buf cmd (data b) (Z.to_nat bofs) p (Z.to_nat nbytes) else p).
Proof.
  intros Hs Hb Hn Hpow Hbo Hlen. unfold touch_blk.
  assert (Hi : (i < length (blks set))%nat) by (by eapply lookup_lt_Some).
  destruct (balloc c) eqn:Hba.
  - destruct (Hlen eq_refl) as [Hd Hp].
    rewrite (get_blk_ok _ _ _ _ _ Hs Hb). cbn [mbind outcome_bind].
    rewrite CACHE_BCOPY_spec by done. cbn [mbind outcome_bind].
    rewrite (upd_blk_ok _ _ _ _ _ _ Hs Hb). cbn [mbind outcome_bind].
    unfold touched. rewrite Hba. case_bool_decide as Hcmd.
    + erewrite upd_blk_ok; [|by apply put_set_lookup with set|by apply list_lookup_insert_eq].
      cbn [mbind outcome_bind]. rewrite put_set_put. simpl. by rewrite list_insert_insert_eq.
    + cbn [mbind outcome_bind]. by destruct b.
  - cbn [mbind outcome_bind]. unfold touched. rewrite Hba. case_bool_decide as Hcmd.
    + rewrite (upd_blk_ok _ _ _ _ _ _ Hs Hb). cbn [mbind outcome_bind]. by destruct b.
    + cbn [mbind outcome_bind]. rewrite (set_blk_id set i b) by (done || by destruct b).
      by rewrite put_set_id.
Qed.

Lemma is_valid_lor (b : cache_blk) : is_valid (b <| status := Z.lor (status b) CACHE_BLK_DIRTY |>) = is_valid b.
Proof.
  unfold is_valid. simpl. f_equal. apply Z.bits_inj'. intros n Hn.
  rewrite !Z.land_spec, Z.lor_spec. unfold CACHE_BLK_DIRTY, CACHE_BLK_VALID.
  destruct (Z.testbit (status b) n) eqn:E; [done|]. simpl.
  destruct n as [|[?|?|]|?]; done.
Qed.

Lemma is_dirty_lor (b : cache_blk) : is_dirty (b <| status := Z.lor (status b) CACHE_BLK_DIRTY |>) = true.
Proof.
  unfold is_dirty, truth. simpl. apply negb_true_iff, Z.eqb_neq. intros E.
  assert (Ht : Z.testbit (Z.land (Z.lor (status b) CACHE_BLK_DIRTY) CACHE_BLK_DIRTY) 1 = true).
  { rewrite Z.land_spec, Z.lor_spec. unfold CACHE_BLK_DIRTY. simpl. by rewrite orb_true_r. }
  by rewrite E in Ht.
Qed.

Lemma skel_touched c cmd bofs p n b : skel (touched c cmd bofs p n b) = skel b.
Proof.
  unfold skel, touched. simpl. f_equal. case_bool_decide; [apply is_valid_lor|done].
Qed.

Lemma line_of_touched c cmd bofs p n b : line_of (touched c cmd bofs p n b) = mark cmd (line_of b).
Proof.
  unfold line_of.
  assert (Hv : is_valid (touched c cmd bofs p n b) = is_valid b).
  { pose proof (skel_touched c cmd bofs p n b) as H. unfold skel in H. congruence. }
  rewrite Hv. destruct (is_valid b); [|done]. simpl. do 2 f_equal. unfold touched.
  case_bool_decide; [|by rewrite orb_false_r].
  rewrite orb_true_r. exact (is_dirty_lor b).
Qed.


(** * Lines in replacement order *)

Lemma line_at_lookup (bs : list cache_blk) i b : bs !! i = Some b -> line_at bs i = line_of b.
Proof. intros H. unfold line_at. by rewrite H. Qed.

Lemma lines_insert (bs : list cache_blk) (l : list nat) (i j : nat) (b : cache_blk) :
  NoDup l -> l !! j = Some i -> (i < length bs)%nat ->
  line_at (<[i := b]> bs) <$> l = <[j := line_of b]> (line_at bs <$> l).
Proof.
  intros Hnd Hj Hi. apply list_eq. intros k. rewrite list_lookup_fmap.
  destruct (decide (j = k)) as [<-|Hne].
  - rewrite Hj, list_lookup_insert_eq by (rewrite length_fmap; by eapply lookup_lt_Some).
    simpl. f_equal. apply line_at_lookup. by apply list_lookup_insert_eq.
  - rewrite list_lookup_insert_ne, list_lookup_fmap by done.
    destruct (l !! k) as [i'|] eqn:Hk; simpl; [|done]. f_equal.
    unfold line_at. rewrite list_lookup_insert_ne; [done|].
    intros <-. apply Hne. eapply NoDup_lookup; done.
Qed.

Lemma remove_at_middle {A : Type} (l1 : list A) (x : A) (l2 : list A) :
  remove_at (length l1) (l1 ++ x :: l2) = l1 ++ l2.
Proof.
  unfold remove_at. rewrite take_app_length.
  replace (l1 ++ x :: l2) with ((l1 ++ [x]) ++ l2) by (by rewrite <- app_assoc).
  by rewrite drop_app_length' by (rewrite length_app; simpl; lia).
Qed.

Lemma without_remove_at (l : list nat) (i j : nat) :
  NoDup l -> l !! j = Some i -> without i l = remove_at j l.
Proof.
  intros Hnd Hj. pose proof (take_drop_middle _ _ _ Hj) as Hl.
  rewrite <- Hl in Hnd |- *. rewrite without_middle by done.
  assert (length (take j l) = j) as Hlen by (rewrite length_take; apply lookup_lt_Some in Hj; lia).
  set (l1 := take j l) in *. rewrite <- Hlen at 2. by rewrite remove_at_middle.
Qed.

Lemma fmap_remove_at {A B : Type} (f : A -> B) (k : nat) (l : list A) :
  f <$> remove_at k l = remove_at k (f <$> l).
Proof. unfold remove_at. by rewrite fmap_app, fmap_take, fmap_drop. Qed.

Lemma line_tag_of (t : Z) (b : cache_blk) : line_tag t (line_of b) <-> tag b = t /\ is_valid b = true.
Proof. unfold line_tag, line_of. destruct (is_valid b); simpl; naive_solver. Qed.

Lemma wf_order_lookup (g : geometry) P set (l : list nat) i :
  set_wfP g P set l -> is_Some (blks set !! i) -> exists j, l !! j = Some i.
Proof.
  intros Hwf Hi. apply list_elem_of_lookup. rewrite (wf_perm _ _ _ _ Hwf). apply elem_of_seq.
  apply lookup_lt_is_Some in Hi. lia.
Qed.

Lemma wf_order_bound (g : geometry) P set (l : list nat) i j :
  set_wfP g P set l -> l !! j = Some i -> (i < length (blks set))%nat.
Proof.
  intros Hwf Hj. assert (Hin : i ∈ l) by (apply list_elem_of_lookup; eauto).
  rewrite (wf_perm _ _ _ _ Hwf) in Hin. apply elem_of_seq in Hin. lia.
Qed.

(** The search of the abstract set is the lookup of the code. *)
Lemma find_line_hit (g : geometry) P set (l : list nat) (t : Z) i j b :
  set_wfP g P set l -> l !! j = Some i -> blks set !! i = Some b -> tag b = t -> is_valid b = true ->
  find_line t (line_at (blks set) <$> l) = Some (j, line_of b).
Proof.
  intros Hwf Hj Hb Ht Hv. apply list_find_Some. rewrite list_lookup_fmap, Hj. simpl.
  rewrite (line_at_lookup _ _ _ Hb). split; [done|]. split; [by apply line_tag_of|].
  intros k y Hk Hlt Hy. rewrite list_lookup_fmap in Hk. destruct (l !! k) as [i'|] eqn:Hi'; [|done].
  simpl in Hk. injection Hk as <-. unfold line_at in Hy.
  destruct (blks set !! i') as [b'|] eqn:Hb'; [|done].
  apply line_tag_of in Hy as [Ht' Hv'].
  assert (i' = i) as -> by (eapply (wf_tags _ _ _ _ Hwf); try done; congruence).
  destruct (wf_ways _ _ _ _ Hwf) as (Hnd & _).
  assert (k = j) by (eapply NoDup_lookup; done). lia.
Qed.

Lemma find_line_miss set (l : list nat) (t : Z) :
  lookup_result (blks set) t None -> find_line t (line_at (blks set) <$> l) = None.
Proof.
  intros Hm. apply list_find_None, Forall_fmap, Forall_forall. intros i _ Hx. simpl in Hx.
  unfold line_at in Hx. destruct (blks set !! i) as [b|] eqn:Hb; [|done].
  apply line_tag_of in Hx as [Ht Hv]. simpl in Hm. specialize (Hm i).
  assert (hit_in (blks set) t i = true) by (apply hit_in_lookup; eauto). congruence.
Qed.

End Access.
