(* ===== verification/CacheRefine.v ===== *)
(** The handlers of cache_access on one set of a well-formed cache: what a hit, the
    choice of the victim, its eviction and the refill do to the lines of the set. *)

From S2P Require Import Prelude Dll Misc Memory Cache CacheSet CacheSpec CacheAccess.

(** * One set *)

Section OneSet.
Context (g : geometry) (assoc : Z) (ba : bool) (bsz usz : Z).
Implicit Types (set : cache_set) (i j : nat) (b : cache_blk).

Notation set_ok := (set_ok g assoc ba bsz usz).

(** What is asked of each block. *)
Definition blk_ok b : Prop :=
  0 <= tag b < 2 ^ (32 - tag_shift g) /\ (ba = true -> length (data b) = Z.to_nat bsz) /\
  (truth usz = true -> is_Some (user_data b)).

Lemma set_ok_intro set (l : list nat) :
  length (blks set) = Z.to_nat assoc -> set_wf g set l -> Forall blk_ok (blks set) ->
  set_ok set /\ way_order set = l.
Proof.
  intros Hlen Hwf Hall. pose proof (way_order_wf _ _ _ _ Hwf) as Ho. split; [|done].
  split; [done|by rewrite Ho|..]; (eapply Forall_impl; [exact Hall|]); intros b (? & ? & ?); done.
Qed.

Lemma set_ok_blks set : set_ok set -> Forall blk_ok (blks set).
Proof. intros [_ _ Ht Hd Hu]. apply Forall_and. split; [done|]. apply Forall_and. done. Qed.

Lemma blk_ok_core b b' : core b = core b' -> blk_ok b -> blk_ok b'.
Proof. unfold core, strip, blk_ok. simpl. intros H. injection H as H. congruence. Qed.

Lemma Forall_core (Q : cache_blk -> Prop) (bs bs' : list cache_blk) :
  (forall b b', core b = core b' -> Q b -> Q b') -> core <$> bs' = core <$> bs -> Forall Q bs -> Forall Q bs'.
Proof.
  intros HQ Hc Hall. rewrite Forall_lookup in Hall |- *. intros i b' Hb'.
  destruct (fmap_lookup_eq core _ _ _ _ Hc Hb') as (b & Hb & Hbb). eauto.
Qed.

Lemma order_lookup set i b : set_ok set -> blks set !! i = Some b -> exists j, way_order set !! j = Some i.
Proof. intros Hs Hb. eapply wf_order_lookup; [apply (so_wf _ _ _ _ _ _ Hs)|eauto]. Qed.

Lemma order_blk set i j : set_ok set -> way_order set !! j = Some i -> exists b, blks set !! i = Some b.
Proof.
  intros Hs Hj. apply lookup_lt_is_Some. eapply wf_order_bound; [apply (so_wf _ _ _ _ _ _ Hs)|done].
Qed.

(** The order of the ways starts at way_head and ends at way_tail. *)
Lemma order_head set : set_ok set -> way_head set = head (way_order set).
Proof.
  intros Hs. destruct (wf_ways _ _ _ _ (so_wf _ _ _ _ _ _ Hs)) as (_ & -> & _). by destruct (way_order set).
Qed.

Lemma last_or_last (l : list nat) p : last_or p l = match last l with Some i => Some i | None => p end.
Proof.
  revert p. induction l as [|i l IH]; intros p; [done|]. simpl. rewrite IH.
  destruct l as [|n l]; [done|].
  change (last (i :: n :: l)) with (last (n :: l)).
  destruct (last (n :: l)) eqn:E; [done|]. by apply last_None in E.
Qed.

Lemma order_tail set : set_ok set -> way_tail set = way_order set !! (length (way_order set) - 1)%nat.
Proof.
  intros Hs. destruct (wf_ways _ _ _ _ (so_wf _ _ _ _ _ _ Hs)) as (_ & _ & -> & _).
  rewrite last_or_last. replace (length (way_order set) - 1)%nat with (pred (length (way_order set))) by lia.
  rewrite <- last_lookup. by destruct (last _).
Qed.

Lemma order_length set : set_ok set -> length (way_order set) = Z.to_nat assoc.
Proof. intros Hs. by rewrite (wf_perm _ _ _ _ (so_wf _ _ _ _ _ _ Hs)), length_seq, (so_len _ _ _ _ _ _ Hs). Qed.

(** Changing the data, the ready time or the dirty bit of one block. *)
Lemma payload_ok set i j b b' :
  set_ok set -> blks set !! i = Some b -> way_order set !! j = Some i -> skel b' = skel b -> blk_ok b' ->
  set_ok (set <| blks ::= <[i := b']> |>) /\
  way_order (set <| blks ::= <[i := b']> |>) = way_order set /\
  abs_set (set <| blks ::= <[i := b']> |>) = <[j := line_of b']> (abs_set set).
Proof.
  intros Hs Hb Hj Hsk Hok. pose proof (so_wf _ _ _ _ _ _ Hs) as Hwf.
  assert (Hwf' : set_wf g (set <| blks := <[i := b']> (blks set) |>) (way_order set)).
  { eapply set_wfP_skel; [exact Hwf|]. rewrite list_fmap_insert, Hsk.
    apply list_insert_id. by rewrite list_lookup_fmap, Hb. }
  destruct (set_ok_intro (set <| blks := <[i := b']> (blks set) |>) (way_order set)) as [Hs' Ho];
    [simpl; rewrite length_insert; apply Hs|done| |].
  { simpl. apply Forall_insert; [by apply set_ok_blks|done]. }
  split; [exact Hs'|]. split; [exact Ho|]. unfold abs_set.
  change (way_order (set <| blks ::= <[i := b']> |>)) with (way_order (set <| blks := <[i := b']> (blks set) |>)).
  rewrite Ho. simpl. apply lines_insert; [|done|by eapply lookup_lt_Some].
  by destruct (wf_ways _ _ _ _ Hwf).
Qed.

Definition spec_move (wh : list_loc_t) (k : nat) (ls : list line) : list line :=
  match wh with
  | Head => default (None : line) (ls !! k) :: remove_at k ls
  | Tail => remove_at k ls ++ [default (None : line) (ls !! k)]
  end.

Lemma abs_set_core set set' : way_order set' = way_order set -> core <$> blks set' = core <$> blks set ->
  abs_set set' = abs_set set.
Proof.
  intros Ho Hc. unfold abs_set. rewrite Ho. apply list_fmap_ext. intros _ i _. by apply line_at_core.
Qed.

(** Moving a block to one end of the way chain. *)
Lemma update_way_list_ok set i j wh :
  set_ok set -> way_order set !! j = Some i ->
  exists set', update_way_list set i wh = Ok set' /\ set_ok set' /\
    way_order set' = move wh i (way_order set) /\ abs_set set' = spec_move wh j (abs_set set) /\
    strip <$> blks set' = strip <$> blks set.
Proof.
  intros Hs Hj. pose proof (so_wf _ _ _ _ _ _ Hs) as Hwf.
  destruct (update_way_list_spec set i wh (way_order set)) as (set' & E & Hd & Hh & Hst);
    [apply Hwf|by eapply list_elem_of_lookup_2|].
  assert (Hnd : NoDup (way_order set)) by (by destruct (wf_ways _ _ _ _ Hwf)).
  assert (Hc : core <$> blks set' = core <$> blks set) by (eapply fmap_weaken; [exact core_strip|done]).
  destruct (set_ok_intro set' (move wh i (way_order set))) as [Hs' Ho].
  - rewrite (fmap_length_eq strip _ _ Hst). apply Hs.
  - eapply set_wfP_ways; [done|done| |done|done]. apply move_Permutation; [done|]. by eapply list_elem_of_lookup_2.
  - eapply Forall_core; [exact blk_ok_core|done|]. by apply set_ok_blks.
  - exists set'. do 3 (split; [done|]). split; [|done].
    assert (Hx : abs_set set !! j = Some (line_at (blks set) i))
      by (unfold abs_set; by rewrite list_lookup_fmap, Hj).
    assert (Hm : abs_set set' = line_at (blks set) <$> move wh i (way_order set)).
    { unfold abs_set. rewrite Ho. apply list_fmap_ext. intros. by apply line_at_core. }
    rewrite Hm. destruct wh; cbn [move spec_move]; rewrite Hx, ?fmap_cons, ?fmap_app;
      by rewrite (without_remove_at _ _ _ Hnd Hj), fmap_remove_at.
Qed.

(** Taking a block out of the hash table, if there is one. *)
Lemma unlink_ok set i b :
  0 <= hsize g -> set_ok set -> blks set !! i = Some b ->
  exists set', (if truth (hsize g) then unlink_htab_ent g set i else Ok set) = Ok set' /\
    set_wfP g (fun k => k <> i) set' (way_order set) /\ nohash <$> blks set' = nohash <$> blks set.
Proof.
  intros Hg Hs Hb. pose proof (so_wf _ _ _ _ _ _ Hs) as Hwf. destruct (truth (hsize g)) eqn:Htr.
  - destruct (unlink_htab_ent_spec g set (fun _ => True) i b Htr Hg (wf_hash _ _ _ _ Hwf) I Hb)
      as (set' & E & Hok & Hh & Ht & Hno).
    exists set'. split; [done|]. split; [|done].
    eapply (set_wfP_hash g (fun _ => True)); try done.
    eapply hash_ok_equiv; [|exact Hok]. intros k. simpl. tauto.
  - exists set. split; [done|]. split; [|done].
    destruct Hwf as [? ? _ ?]. split; try done. intros Htr'. congruence.
Qed.

(** Giving the unlinked block a new tag, and putting it back in the table. *)
Lemma refill_ok set (l : list nat) i b b' :
  0 <= hsize g -> set_wfP g (fun k => k <> i) set l -> blks set !! i = Some b ->
  length (blks set) = Z.to_nat assoc -> Forall blk_ok (blks set) ->
  way_prev b' = way_prev b -> way_next b' = way_next b -> blk_ok b' ->
  (forall k, k <> i -> hit_in (blks set) (tag b') k = false) ->
  exists set', (if truth (hsize g) then link_htab_ent g (set <| blks ::= <[i := b']> |>) i
                else Ok (set <| blks ::= <[i := b']> |>)) = Ok set' /\
    set_ok set' /\ way_order set' = l /\ core <$> blks set' = core <$> <[i := b']> (blks set).
Proof.
  intros Hg Hwf Hb Hlen Hall Hp Hn Hok Hmiss.
  assert (Hi : (i < length (blks set))%nat) by (by eapply lookup_lt_Some).
  assert (Hwf' : set_wfP g (fun k => k <> i) (set <| blks := <[i := b']> (blks set) |>) l).
  { eapply set_wfP_retag; [done| |done|done|done|]; [tauto|].
    intros j c Hc Hji Hv _ Ht. specialize (Hmiss j Hji).
    assert (hit_in (blks set) (tag b') j = true) by (apply hit_in_lookup; eauto). congruence. }
  assert (Hall' : Forall blk_ok (<[i := b']> (blks set))) by (by apply Forall_insert).
  destruct (truth (hsize g)) eqn:Htr.
  - destruct (link_htab_ent_spec g (set <| blks := <[i := b']> (blks set) |>) (fun k => k <> i) i b' Htr Hg
      (wf_hash _ _ _ _ Hwf')) as (set' & E & Hok' & Hh & Ht & Hno); [tauto|by apply list_lookup_insert_eq|].
    simpl in Hno. exists set'. split; [exact E|].
    assert (Hc : core <$> blks set' = core <$> <[i := b']> (blks set))
      by (eapply fmap_weaken; [exact core_nohash|done]).
    destruct (set_ok_intro set' l) as [Hs' Ho]; [| | |by auto].
    + by rewrite (fmap_length_eq nohash _ _ Hno), length_insert.
    + eapply set_wfP_hash; [exact Hwf'| |done|done|done]. eapply hash_ok_equiv; [|exact Hok'].
      intros k. simpl. destruct (decide (k = i)); tauto.
    + eapply Forall_core; [exact blk_ok_core|exact Hc|done].
  - exists (set <| blks ::= <[i := b']> |>). split; [done|].
    destruct (set_ok_intro (set <| blks := <[i := b']> (blks set) |>) l) as [Hs' Ho]; [| |done|by auto].
    + simpl. by rewrite length_insert.
    + destruct Hwf' as [? ? _ ?]. split; try done. intros Htr'. congruence.
Qed.

End OneSet.

Lemma remove_at_insert {A : Type} (j : nat) (x : A) (l : list A) : remove_at j (<[j := x]> l) = remove_at j l.
Proof.
  unfold remove_at. rewrite take_insert_ge by lia. by rewrite drop_insert_lt by lia.
Qed.

Lemma insert_0_remove {A : Type} (x y : A) (l : list A) :
  l !! 0%nat = Some y -> <[0%nat := x]> l = x :: remove_at 0 l.
Proof. destruct l; [done|]. intros _. unfold remove_at. simpl. by rewrite drop_0. Qed.

(** * A whole cache *)

Section Whole.
Context {W : Type} (A : mem_cmd -> Z -> Prop) (Inv : W -> Prop) (kb ks : Z).
Implicit Types (c : cache W) (set : cache_set) (s i j : nat) (b : cache_blk).

(** What no operation changes. *)
Definition params c :=
  (nsets c, bsize c, balloc c, usize c, assoc c, policy c, hit_latency c, geom c, blk_access_fn c).

Notation set_okc c := (set_ok (geom c) (assoc c) (balloc c) (bsize c) (usize c)).

(** The miss handler answers the commands and addresses [A] when the rest of the memory
    hierarchy is in a state [Inv], and leaves it in one. *)
Definition handler_ok c : Prop :=
  forall cmd a u d now w, A cmd a -> (truth (usize c) = true -> is_Some u) -> Inv w ->
    exists l d' w', blk_access_fn c cmd a (bsize c) u d now w = Ok (l, d', w') /\
      length d' = length d /\ Inv w'.

(** Only blocks that can be written back are dirty. *)
Definition resident c : Prop :=
  forall s set i b, sets c !! s = Some set -> blks set !! i = Some b -> is_valid b = true -> is_dirty b = true ->
    A Write (CACHE_MK_BADDR (geom c) (tag b) (Z.of_nat s)).

(** The requests of the handler to the next level, in order. *)
Inductive handled (fn : access_fn W) (bsz : Z) : list (mem_cmd * Z) -> W -> W -> Prop :=
| handled_nil w : handled fn bsz [] w w
| handled_cons cmd a u d now l d' qs w w1 w2 :
    fn cmd a bsz u d now w = Ok (l, d', w1) -> handled fn bsz qs w1 w2 -> handled fn bsz ((cmd, a) :: qs) w w2.

(** A replaced line is written back if it is dirty. *)
Definition write_back (g : geometry) s (x : line) : list (mem_cmd * Z) :=
  match x with Some (t, true) => [(Write, CACHE_MK_BADDR g t (Z.of_nat s))] | _ => [] end.

(** The handler may be asked for the block, and to write it back after a write. *)
Definition served (cmd : mem_cmd) (a : Z) : Prop := A Read a /\ (cmd = Write -> A Write a).

(** The last block to hit is the one the fast path believes it is. *)
Definition last_ok c : Prop :=
  match last_blk c with
  | None => last_tagset c = 0
  | Some (s, i) =>
      exists set b, sets c !! s = Some set /\ blks set !! i = Some b /\ is_valid b = true /\
        CACHE_MK_BADDR (geom c) (tag b) (Z.of_nat s) = last_tagset c /\
        (policy c = LRU -> way_head set = Some i)
  end.

Lemma cache_wf_put c c' s set' :
  cache_wf c kb ks -> params c' = params c -> sets c' = <[s := set']> (sets c) -> set_okc c set' ->
  last_ok c' -> cache_wf c' kb ks.
Proof.
  intros [Hg Hb Hn Ha Hl Hf Hla] Hp Hs Hset Hlast. injection Hp as E1 E2 E3 E4 E5 E6 E7 E8 E9.
  split; [| | | | | |exact Hlast]; rewrite ?E1, ?E2, ?E3, ?E4, ?E5, ?E8; try done.
  - by rewrite Hs, length_insert.
  - rewrite Hs. by apply Forall_insert.
Qed.

(** A request cache_access accepts. *)
Record request_ok c (addr : Z) (p : list Z) (nbytes : Z) : Prop := {
  rq_addr : 0 <= addr < 2 ^ 32;
  rq_pos : 0 < nbytes;
  rq_pow : not_pow2 nbytes = false;
  rq_align : Z.land addr (nbytes - 1) = 0;
  rq_fits : nbytes <= bsize c;
  rq_buf : balloc c = true -> nbytes <= Z.of_nat (length p);
}.

(** An aligned access does not cross a block. *)
Lemma request_offset c addr p nbytes :
  geom_wf (geom c) kb ks -> bsize c = 2 ^ kb -> request_ok c addr p nbytes ->
  0 <= CACHE_BLK (geom c) addr /\ CACHE_BLK (geom c) addr + nbytes <= bsize c.
Proof.
  intros Hg Hbs [Ha Hpos Hpow Hal Hfit _]. rewrite (CACHE_BLK_mod Hg). rewrite Hbs in *.
  destruct (proj1 (not_pow2_spec nbytes Hpos) Hpow) as (m & Hm & ->).
  rewrite land_mask in Hal by done. pose proof (gw_kb _ _ _ Hg).
  assert (Hmk : m <= kb) by (apply (Z.pow_le_mono_r_iff 2); lia).
  assert (E : 2 ^ kb = 2 ^ (kb - m) * 2 ^ m) by (rewrite <- pow2_split by lia; f_equal; lia).
  pose proof (pow2_pos m Hm). pose proof (pow2_pos (kb - m) ltac:(lia)).
  pose proof (Z.mod_pos_bound addr (2 ^ kb) ltac:(nia)) as Hb. split; [lia|].
  pose proof (Z.div_mod addr (2 ^ kb) ltac:(lia)) as Hd. pose proof (Z.div_mod addr (2 ^ m) ltac:(lia)) as Hd'.
  set (r := addr mod 2 ^ kb) in *. rewrite E in Hd, Hb |- *.
  assert (r = 2 ^ m * (addr / 2 ^ m - 2 ^ (kb - m) * (addr / (2 ^ (kb - m) * 2 ^ m)))) as Hr by nia.
  set (q := addr / 2 ^ m - 2 ^ (kb - m) * (addr / (2 ^ (kb - m) * 2 ^ m))) in *.
  assert (q < 2 ^ (kb - m)) by nia. nia.
Qed.

Lemma set_lookup c addr : cache_wf c kb ks ->
  exists set, sets c !! Z.to_nat (CACHE_SET (geom c) addr) = Some set /\ set_okc c set.
Proof.
  intros Hc. pose proof (cw_geom _ _ _ Hc) as Hg.
  destruct (lookup_lt_is_Some_2 (sets c) (Z.to_nat (CACHE_SET (geom c) addr))) as [set Hs].
  { rewrite (cw_sets _ _ _ Hc), (cw_nsets _ _ _ Hc). pose proof (CACHE_SET_range Hg addr). lia. }
  exists set. split; [done|]. eapply (Forall_lookup_1 _ _ _ _ (cw_set _ _ _ Hc) Hs).
Qed.

(** The copy of an access to block [i] of set [s]. *)
Lemma touch_ok c cmd addr p nbytes s set i j b :
  cache_wf c kb ks -> request_ok c addr p nbytes ->
  sets c !! s = Some set -> set_okc c set -> blks set !! i = Some b -> way_order set !! j = Some i ->
  let b' := touched c cmd (Z.to_nat (CACHE_BLK (geom c) addr)) p (Z.to_nat nbytes) b in
  let set' := set <| blks ::= <[i := b']> |> in
  touch_blk c cmd s i (CACHE_BLK (geom c) addr) p nbytes =
    Ok (put_set c s set', if balloc c then touch_buf cmd (data b) (Z.to_nat (CACHE_BLK (geom c) addr)) p
                                             (Z.to_nat nbytes) else p) /\
  set_okc c set' /\ way_order set' = way_order set /\ abs_set set' = <[j := mark cmd (line_of b)]> (abs_set set).
Proof.
  intros Hc Hr Hs Hset Hb Hj b' set'. pose proof (request_offset _ _ _ _ (cw_geom _ _ _ Hc) (cw_bsize _ _ _ Hc) Hr) as [Hlo Hhi].
  pose proof (Forall_lookup_1 _ _ _ _ (set_ok_blks _ _ _ _ _ _ Hset) Hb) as (Ht & Hd & Hu).
  pose proof (rq_pos _ _ _ _ Hr). pose proof (cw_bsize _ _ _ Hc) as Hbs.
  split.
  - apply touch_blk_ok; try done; [apply Hr|]. intros Hba. specialize (Hd Hba). split; [lia|].
    by apply (rq_buf _ _ _ _ Hr).
  - pose proof (payload_ok _ _ _ _ _ set i j b b' Hset Hb Hj) as Hp. unfold b' in Hp.
    rewrite line_of_touched in Hp. apply Hp; [apply skel_touched|].
    split; [done|]. split; [|done]. intros Hba. specialize (Hd Hba). unfold b', touched. simpl. rewrite Hba.
    rewrite length_touch_data; lia.
Qed.

Lemma strip_touched c cmd bofs p n b : tag (touched c cmd bofs p n b) = tag b.
Proof. done. Qed.

(** All blocks but one keep everything but their links. *)
Definition others_kept i set set' : Prop := forall j, j <> i -> core <$> (blks set' !! j) = core <$> (blks set !! j).

Lemma others_kept_insert i set set' b : core <$> blks set' = core <$> <[i := b]> (blks set) -> others_kept i set set'.
Proof. intros H j Hj. by rewrite <- !list_lookup_fmap, H, !list_lookup_fmap, list_lookup_insert_ne. Qed.

(** The slow hit handler. *)
Lemma cache_hit_ok c cmd addr p nbytes now s set i j b :
  cache_wf c kb ks -> request_ok c addr p nbytes ->
  sets c !! s = Some set -> set_okc c set -> blks set !! i = Some b -> way_order set !! j = Some i ->
  let bofs := Z.to_nat (CACHE_BLK (geom c) addr) in
  exists set' b',
    cache_hit c cmd addr s i p nbytes now =
      Ok (put_set (c <| hits ::= Z.add 1 |> <| last_tagset := CACHE_TAGSET (geom c) addr |>
                     <| last_blk := Some (s, i) |>) s set',
          mk_res (hit_lat c b now) (if balloc c then touch_buf cmd (data b) bofs p (Z.to_nat nbytes) else p)
            (user_data b) 0) /\
    set_okc c set' /\ abs_set set' = spec_hit (policy c) cmd j (line_of b) (abs_set set) /\
    (policy c = LRU -> way_head set' = Some i) /\
    blks set' !! i = Some b' /\ strip b' = strip (touched c cmd bofs p (Z.to_nat nbytes) b) /\ others_kept i set set'.
Proof.
  intros Hc Hr Hs Hset Hb Hj bofs.
  assert (Hil : (i < length (blks set))%nat) by (by eapply lookup_lt_Some).
  destruct (touch_ok (c <| hits ::= Z.add 1 |>) cmd addr p nbytes s set i j b) as (E & Hset1 & Ho1 & Ha1);
    [by destruct Hc|by destruct Hr|done..|].
  unfold cache_hit. cbv zeta. simpl geom in *. simpl balloc in *. rewrite E. cbn [mbind outcome_bind].
  set (b1 := touched _ cmd _ p _ b) in *. set (set1 := set <| blks ::= <[i := b1]> |>) in *.
  assert (Hs1 : sets (put_set (c <| hits ::= Z.add 1 |>) s set1) !! s = Some set1)
    by (apply (put_set_lookup _ _ set); done).
  assert (Hb1 : blks set1 !! i = Some b1) by (by apply list_lookup_insert_eq).
  rewrite (get_blk_ok _ _ _ _ _ Hs1 Hb1). cbn [mbind outcome_bind].
  assert (Hx : abs_set set !! j = Some (line_of b)).
  { unfold abs_set. rewrite list_lookup_fmap, Hj. simpl. f_equal. by apply line_at_lookup. }
  destruct (way_prev b1) as [pv|] eqn:Hprev; [destruct (decide (policy c = LRU)) as [Hlru|Hlru]|].
  - change (policy (put_set (c <| hits ::= Z.add 1 |>) s set1)) with (policy c).
    rewrite bool_decide_eq_true_2 by done.
    destruct (update_way_list_ok _ _ _ _ _ set1 i j Head Hset1) as (set2 & E2 & Hset2 & Ho2 & Ha2 & Hst2);
      [by rewrite Ho1|].
    rewrite (upd_set_ok _ _ set1 _ set2 Hs1 E2). cbn [mbind outcome_bind].
    destruct (fmap_lookup_eq strip (blks set2) (blks set1) i b1 (eq_sym Hst2) Hb1) as (b2 & Hb2 & Hbb).
    erewrite get_blk_ok; [|by apply (put_set_lookup _ _ set1)|exact Hb2]. cbn [mbind outcome_bind].
    exists set2, b2. rewrite put_set_put. split; [|split; [done|split; [|split; [|split; [done|split; [done|]]]]]].
    + unfold strip in Hbb. injection Hbb as Hbb. unfold b1, touched in Hbb.
      do 3 f_equal; [|done]. unfold hit_lat. simpl in *. do 4 f_equal. congruence.
    + rewrite Ha2, Ha1. unfold spec_hit. rewrite bool_decide_eq_true_2 by done. simpl.
      rewrite remove_at_insert, list_lookup_insert_eq by (by eapply lookup_lt_Some). done.
    + intros _. rewrite (order_head _ _ _ _ _ _ Hset2), Ho2. done.
    + apply (others_kept_insert i set set2 b1). eapply fmap_weaken; [exact core_strip|]. exact Hst2.
  - change (policy (put_set (c <| hits ::= Z.add 1 |>) s set1)) with (policy c).
    rewrite bool_decide_eq_false_2 by done. cbn [mbind outcome_bind].
    erewrite get_blk_ok; [|exact Hs1|exact Hb1]. cbn [mbind outcome_bind].
    exists set1, b1. split; [done|]. split; [done|]. split; [|do 3 (split; [done|]); by apply (others_kept_insert i set set1 b1)].
    rewrite Ha1. unfold spec_hit. by rewrite bool_decide_eq_false_2.
  - cbn [mbind outcome_bind]. erewrite get_blk_ok; [|exact Hs1|exact Hb1]. cbn [mbind outcome_bind].
    assert (Hj0 : j = 0%nat).
    { pose proof (wf_ways _ _ _ _ (so_wf _ _ _ _ _ _ Hset1)) as Hd. rewrite Ho1 in Hd.
      destruct (dlist_split _ _ _ _ i Hd) as (l1 & l2 & b' & El & Hb' & Hp & _); [by eapply list_elem_of_lookup_2|].
      rewrite Hb1 in Hb'. injection Hb' as <-. change (way_prev b1 = last_or None l1) in Hp.
      rewrite Hprev in Hp. destruct l1 as [|a l1 _] using rev_ind.
      - destruct Hd as (Hnd & _). eapply NoDup_lookup; [exact Hnd|exact Hj|]. by rewrite El.
      - by rewrite last_or_app in Hp. }
    subst j. exists set1, b1. split; [done|]. split; [done|]. split; [|split; [|do 2 (split; [done|]); by apply (others_kept_insert i set set1 b1)]].
    + rewrite Ha1. unfold spec_hit. case_bool_decide; [|done]. by eapply insert_0_remove.
    + intros _. rewrite (order_head _ _ _ _ _ _ Hset1), Ho1. by destruct (way_order set).
Qed.

(** The fast hit handler, on the block at the head of an LRU set. *)
Lemma cache_fast_hit_ok c cmd addr p nbytes now s set i j b :
  cache_wf c kb ks -> request_ok c addr p nbytes ->
  sets c !! s = Some set -> set_okc c set -> blks set !! i = Some b -> way_order set !! j = Some i ->
  (policy c = LRU -> way_head set = Some i) ->
  let bofs := Z.to_nat (CACHE_BLK (geom c) addr) in
  exists set' b',
    cache_fast_hit c cmd addr s i p nbytes now =
      Ok (put_set (c <| hits ::= Z.add 1 |> <| last_tagset := CACHE_TAGSET (geom c) addr |>
                     <| last_blk := Some (s, i) |>) s set',
          mk_res (hit_lat c b now) (if balloc c then touch_buf cmd (data b) bofs p (Z.to_nat nbytes) else p)
            (user_data b) 0) /\
    set_okc c set' /\ abs_set set' = spec_hit (policy c) cmd j (line_of b) (abs_set set) /\
    (policy c = LRU -> way_head set' = Some i) /\
    blks set' !! i = Some b' /\ strip b' = strip (touched c cmd bofs p (Z.to_nat nbytes) b) /\ others_kept i set set'.
Proof.
  intros Hc Hr Hs Hset Hb Hj Hlru bofs.
  assert (Hil : (i < length (blks set))%nat) by (by eapply lookup_lt_Some).
  destruct (touch_ok (c <| hits ::= Z.add 1 |>) cmd addr p nbytes s set i j b) as (E & Hset1 & Ho1 & Ha1);
    [by destruct Hc|by destruct Hr|done..|].
  unfold cache_fast_hit. cbv zeta. simpl geom in *. simpl balloc in *. rewrite E. cbn [mbind outcome_bind].
  set (b1 := touched _ cmd _ p _ b) in *. set (set1 := set <| blks ::= <[i := b1]> |>) in *.
  assert (Hs1 : sets (put_set (c <| hits ::= Z.add 1 |>) s set1) !! s = Some set1)
    by (apply (put_set_lookup _ _ set); done).
  assert (Hb1 : blks set1 !! i = Some b1) by (by apply list_lookup_insert_eq).
  rewrite (get_blk_ok _ _ _ _ _ Hs1 Hb1). cbn [mbind outcome_bind].
  exists set1, b1. split; [done|]. split; [done|]. split; [|do 3 (split; [done|]); by apply (others_kept_insert i set set1 b1)].
  rewrite Ha1. unfold spec_hit. case_bool_decide as Hp; [|done].
  specialize (Hlru Hp). rewrite (order_head _ _ _ _ _ _ Hset) in Hlru.
  assert (Hj0 : j = 0%nat).
  { destruct (wf_ways _ _ _ _ (so_wf _ _ _ _ _ _ Hset)) as (Hnd & _).
    eapply NoDup_lookup; [exact Hnd|exact Hj|]. by destruct (way_order set). }
  subst j. eapply insert_0_remove. unfold abs_set. by rewrite list_lookup_fmap, Hj.
Qed.

(** The position of the victim once it has been relinked. *)
Definition refill_pos (pol : cache_policy) (k : nat) : nat := match pol with Random => k | _ => 0%nat end.

Lemma select_repl_ok c s set rnd :
  cache_wf c kb ks -> sets c !! s = Some set -> set_okc c set ->
  exists set1 i k, select_repl c s rnd = Ok (put_set c s set1, i) /\ set_okc c set1 /\
    way_order set1 !! refill_pos (policy c) k = Some i /\
    (policy c = Random -> way_order set !! k = Some (Z.to_nat (Z.land rnd (assoc c - 1)))) /\
    core <$> blks set1 = core <$> blks set /\
    abs_set set !! victim_pos (policy c) k (abs_set set) = Some (line_at (blks set1) i) /\
    (forall cmd t, <[refill_pos (policy c) k := Some (t, bool_decide (cmd = Write))]> (abs_set set1)
       = spec_fill (policy c) cmd t k (abs_set set)).
Proof.
  intros Hc Hs Hset. pose proof (cw_assoc _ _ _ Hc) as [Hpos _].
  assert (Hal : length (abs_set set) = length (way_order set)) by (unfold abs_set; by rewrite length_fmap).
  pose proof (order_length _ _ _ _ _ _ Hset) as Hol.
  assert (Hlast : policy c <> Random -> exists set1 i,
    select_repl c s rnd = Ok (put_set c s set1, i) /\ set_okc c set1 /\
    way_order set !! (length (way_order set) - 1)%nat = Some i /\ way_order set1 !! 0%nat = Some i /\
    core <$> blks set1 = core <$> blks set /\ abs_set set1 = spec_move Head (length (abs_set set) - 1) (abs_set set)).
  { intros Hp. destruct (lookup_lt_is_Some_2 (way_order set) (length (way_order set) - 1)) as [i Hi]; [lia|].
    destruct (update_way_list_ok _ _ _ _ _ set i _ Head Hset Hi) as (set1 & E1 & Hset1 & Ho1 & Ha1 & Hst).
    exists set1, i. split; [|split; [done|split; [done|split; [by rewrite Ho1|split]]]].
    - unfold select_repl. rewrite (c_get_some _ _ _ Hs). cbn [mbind outcome_bind].
      rewrite (order_tail _ _ _ _ _ _ Hset), Hi. simpl deref. cbn [mbind outcome_bind].
      rewrite (upd_set_ok _ _ set _ set1 Hs E1). by destruct (policy c).
    - eapply fmap_weaken; [exact core_strip|done].
    - by rewrite Hal. }
  destruct (policy c) eqn:Hpol.
  2: { set (i := Z.to_nat (Z.land rnd (assoc c - 1))).
    assert (Hi : (i < length (blks set))%nat).
    { unfold i. rewrite (so_len _ _ _ _ _ _ Hset).
      pose proof (land_le_r rnd (assoc c - 1)). pose proof (land_nonneg_r rnd (assoc c - 1)). lia. }
    destruct (lookup_lt_is_Some_2 _ _ Hi) as [b Hb].
    destruct (order_lookup _ _ _ _ _ _ _ _ Hset Hb) as [k Hk].
    exists set, i, k. rewrite put_set_id by done. unfold select_repl. rewrite Hpol.
    do 5 (split; [done|]). split; [|done]. simpl. unfold abs_set. by rewrite list_lookup_fmap, Hk. }
  all: destruct (Hlast ltac:(done)) as (set1 & i & E & Hset1 & Hi & Hi1 & Hcr & Ha).
  all: exists set1, i, 0%nat; do 5 (split; [done|]); simpl.
  all: assert (Hv : abs_set set !! (length (abs_set set) - 1)%nat = Some (line_at (blks set1) i))
    by (rewrite Hal; unfold abs_set; rewrite list_lookup_fmap, Hi; simpl; f_equal; symmetry; by apply line_at_core).
  all: split; [exact Hv|]; intros cmd t; rewrite Ha;
    cbn [spec_move]; by rewrite Hv.
Qed.

Lemma handled_app fn bsz q1 q2 w w1 w2 : handled fn bsz q1 w w1 -> handled fn bsz q2 w1 w2 -> handled fn bsz (q1 ++ q2) w w2.
Proof. intros H H2. induction H; [done|]. eapply handled_cons; [done|by apply IHhandled]. Qed.

(** The stalls, the bus and the write back of the block replaced. *)
Lemma evict_ok c s set i b now w :
  handler_ok c -> Inv w -> sets c !! s = Some set -> blks set !! i = Some b ->
  (is_valid b = true -> is_dirty b = true -> A Write (CACHE_MK_BADDR (geom c) (tag b) (Z.of_nat s))) ->
  (truth (usize c) = true -> is_Some (user_data b)) ->
  exists lat bf d w',
    evict c s i now w =
      Ok (put_set (c <| replacements ::= Z.add (b2z (is_valid b)) |> <| bus_free := bf |>
                     <| writebacks ::= Z.add (b2z (is_valid b && is_dirty b)) |>)
            s (set <| blks ::= <[i := b <| data := d |>]> |>), lat,
          if is_valid b then CACHE_MK_BADDR (geom c) (tag b) (Z.of_nat s) else 0, w') /\
    length d = length (data b) /\ Inv w' /\ handled (blk_access_fn c) (bsize c) (write_back (geom c) s (line_of b)) w w'.
Proof.
  intros Hh Hw Hs Hb HA Hu. unfold evict. rewrite (get_blk_ok _ _ _ _ _ Hs Hb). cbn [mbind outcome_bind].
  assert (Hid : forall bf, put_set (c <| replacements ::= Z.add (b2z (is_valid b)) |> <| bus_free := bf |>
      <| writebacks ::= Z.add 0 |>) s (set <| blks ::= <[i := b <| data := data b |>]> |>) =
      c <| replacements ::= Z.add (b2z (is_valid b)) |> <| bus_free := bf |>).
  { intros bf. rewrite (set_blk_id _ _ b) by (done || by destruct b). rewrite put_set_id by done. by destruct c. }
  destruct (is_valid b) eqn:Hv; cbn [andb b2z].
  - cbv zeta. destruct (is_dirty b) eqn:Hd; cbn [b2z].
    + edestruct (Hh Write (CACHE_MK_BADDR (geom c) (tag b) (Z.of_nat s)) (user_data b) (data b)) as (l & d & w' & E & Hl & Hw');
        [by apply HA|exact Hu|exact Hw|].
      simpl. rewrite E. cbn [mbind outcome_bind].
      erewrite upd_blk_ok; [|exact Hs|exact Hb]. cbn [mbind outcome_bind].
      eexists _, _, d, w'. split; [reflexivity|]. split; [done|]. split; [done|]. unfold line_of. rewrite Hv, Hd.
      eapply handled_cons; [exact E|constructor].
    + eexists _, _, (data b), w. rewrite Hid. split; [done|]. split; [done|]. split; [done|]. unfold line_of. rewrite Hv, Hd. constructor.
  - exists 0, (bus_free c), (data b), w. rewrite Hid. split; [by destruct c|]. split; [done|]. split; [done|].
    unfold line_of. rewrite Hv. constructor.
Qed.

(** The block a miss puts in place: [d] is what the handler read. *)
Definition filled c (cmd : mem_cmd) (addr t : Z) (p : list Z) (nbytes rdy : Z) (d : list Z) b : cache_blk :=
  touched c cmd (Z.to_nat (CACHE_BLK (geom c) addr)) p (Z.to_nat nbytes)
    (b <| tag := t |> <| status := CACHE_BLK_VALID |> <| data := d |>) <| ready := rdy |>.

Lemma line_of_filled c cmd addr t p nbytes rdy d b :
  line_of (filled c cmd addr t p nbytes rdy d b) = Some (t, bool_decide (cmd = Write)).
Proof.
  unfold filled. change (line_of (?x <| ready := rdy |>)) with (line_of x). by rewrite line_of_touched.
Qed.

(** The second half of the miss handler, from the victim [i] taken out of the
    hash table: write back, read, copy, and back into the table. *)
Lemma miss_refill_ok c cmd addr p nbytes now s set (l : list nat) i b w :
  geom_wf (geom c) kb ks -> bsize c = 2 ^ kb -> request_ok c addr p nbytes -> handler_ok c -> Inv w -> A Read (CACHE_BADDR (geom c) addr) ->
  sets c !! s = Some set -> set_wfP (geom c) (fun k => k <> i) set l -> blks set !! i = Some b ->
  length (blks set) = Z.to_nat (assoc c) -> Forall (blk_ok (geom c) (balloc c) (bsize c) (usize c)) (blks set) ->
  (forall k, k <> i -> hit_in (blks set) (CACHE_TAG (geom c) addr) k = false) ->
  (is_valid b = true -> is_dirty b = true -> A Write (CACHE_MK_BADDR (geom c) (tag b) (Z.of_nat s))) ->
  exists set' lat d rdy bf w',
    (let t := CACHE_TAG (geom c) addr in
     '(c, lat, repl_addr, w) ← evict c s i now w;
     c ← upd_blk c s i (fun b => b <| tag := t |> <| status := CACHE_BLK_VALID |>);
     b ← get_blk c s i;
     '(l, d, w) ← blk_access_fn c Read (CACHE_BADDR (geom c) addr) (bsize c) (user_data b) (data b) (s64 (now + lat)) w;
     c ← upd_blk c s i (fun b => b <| data := d |>);
     let lat := s32 (lat + l) in
     '(c, p) ← touch_blk c cmd s i (CACHE_BLK (geom c) addr) p nbytes;
     c ← upd_blk c s i (fun b => b <| ready := s64 (now + lat) |>);
     c ← (if truth (hsize (geom c)) then upd_set c s (fun set => link_htab_ent (geom c) set i) else Ok c);
     b ← get_blk c s i;
     Ok (c, mk_res (u32 lat) p (user_data b) repl_addr, w)) =
    Ok (put_set (c <| replacements ::= Z.add (b2z (is_valid b)) |> <| bus_free := bf |>
                   <| writebacks ::= Z.add (b2z (is_valid b && is_dirty b)) |>) s set',
        mk_res lat (if balloc c then touch_buf cmd d (Z.to_nat (CACHE_BLK (geom c) addr)) p (Z.to_nat nbytes) else p)
          (user_data b) (if is_valid b then CACHE_MK_BADDR (geom c) (tag b) (Z.of_nat s) else 0), w') /\
    set_okc c set' /\ way_order set' = l /\
    core <$> blks set' =
      core <$> <[i := filled c cmd addr (CACHE_TAG (geom c) addr) p nbytes rdy d b]> (blks set) /\
    length d = length (data b) /\ Inv w' /\
    handled (blk_access_fn c) (bsize c) (write_back (geom c) s (line_of b) ++ [(Read, CACHE_BADDR (geom c) addr)]) w w'.
Proof.
  intros Hg Hbs Hr Hh Hw HA Hs Hwf Hb Hlen Hall Hmiss HAb.
  assert (Hil : (i < length (blks set))%nat) by (by eapply lookup_lt_Some).
  pose proof (Forall_lookup_1 _ _ _ _ Hall Hb) as (Htag & Hdat & Hub).
  destruct (evict_ok c s set i b now w Hh Hw Hs Hb HAb Hub) as (lat1 & bf & d1 & w1 & E1 & Hd1 & Hw1 & Hq1).
  cbv zeta. rewrite E1. cbn [mbind outcome_bind].
  set (c1 := c <| replacements ::= Z.add (b2z (is_valid b)) |> <| bus_free := bf |>
    <| writebacks ::= Z.add (b2z (is_valid b && is_dirty b)) |>).
  assert (Hs1 : forall x, sets (put_set c1 s x) !! s = Some x) by (intros x; by apply (put_set_lookup c1 s set)).
  assert (Hi1 : forall x, blks (set <| blks ::= <[i := x]> |>) !! i = Some x)
    by (intros x; by apply list_lookup_insert_eq).
  assert (Hi2 : forall x y, set <| blks ::= <[i := x]> |> <| blks ::= <[i := y]> |> = set <| blks ::= <[i := y]> |>)
    by (intros x y; simpl; by rewrite list_insert_insert_eq).
  rewrite (upd_blk_ok _ _ _ _ _ _ (Hs1 _) (Hi1 _)). cbn [mbind outcome_bind].
  rewrite put_set_put. change (?S <| blks := <[i := ?x]> (blks ?S) |>) with (S <| blks ::= <[i := x]> |>).
  rewrite Hi2, (get_blk_ok _ _ _ _ _ (Hs1 _) (Hi1 _)). cbn [mbind outcome_bind].
  edestruct (Hh Read (CACHE_BADDR (geom c) addr) (user_data b)) as (lr & d & w2 & E2 & Hd2 & Hw2); [exact HA|exact Hub|exact Hw1|].
  change (blk_access_fn (put_set c1 ?x ?y)) with (blk_access_fn c). change (geom (put_set c1 ?x ?y)) with (geom c).
  change (bsize (put_set c1 ?x ?y)) with (bsize c). rewrite E2. cbn [mbind outcome_bind].
  rewrite (upd_blk_ok _ _ _ _ _ _ (Hs1 _) (Hi1 _)). cbn [mbind outcome_bind].
  rewrite put_set_put. change (?S <| blks := <[i := ?x]> (blks ?S) |>) with (S <| blks ::= <[i := x]> |>).
  rewrite Hi2. cbv zeta.
  set (bt := b <| tag := CACHE_TAG (geom c) addr |> <| status := CACHE_BLK_VALID |> <| data := d |>).
  pose proof (request_offset _ _ _ _ Hg Hbs Hr) as [Hlo Hhi]. pose proof (rq_pos _ _ _ _ Hr) as Hpos.
  assert (Hdl : balloc c = true -> length d = Z.to_nat (bsize c)) by (intros Hba; rewrite Hd2; simpl; rewrite Hd1; auto).
  rewrite (touch_blk_ok _ _ _ _ _ _ _ _ _ (Hs1 _) (Hi1 _) (rq_pos _ _ _ _ Hr) (rq_pow _ _ _ _ Hr) Hlo).
  2: { intros Hba. change (balloc (put_set c1 ?x ?y)) with (balloc c) in Hba. simpl data. rewrite Hdl by done.
    split; [lia|]. by apply (rq_buf _ _ _ _ Hr). }
  cbn [mbind outcome_bind]. rewrite put_set_put, Hi2.
  rewrite (upd_blk_ok _ _ _ _ _ _ (Hs1 _) (Hi1 _)). cbn [mbind outcome_bind].
  rewrite put_set_put. change (?S <| blks := <[i := ?x]> (blks ?S) |>) with (S <| blks ::= <[i := x]> |>).
  rewrite Hi2. set (rdy := s64 _).
  set (bf' := filled c cmd addr (CACHE_TAG (geom c) addr) p nbytes rdy d b).
  match goal with |- context [upd_set (put_set c1 s (set <| blks ::= <[i := ?x]> |>)) s _] => change x with bf' end.
  destruct (refill_ok (geom c) (assoc c) (balloc c) (bsize c) (usize c) set l i b bf' (gw_hsize _ _ _ Hg) Hwf Hb Hlen Hall)
    as (set' & E3 & Hset' & Ho' & Hcr'); [done|done| |exact Hmiss|].
  { split; [apply (CACHE_TAG_range Hg), Hr|]. split; [|done]. intros Hba. unfold bf', filled, touched. simpl. rewrite Hba.
    rewrite length_touch_data; rewrite Hdl by done; lia. }
  change (geom (put_set c1 ?x ?y)) with (geom c).
  assert (E4 : (if truth (hsize (geom c)) then
      upd_set (put_set c1 s (set <| blks ::= <[i := bf']> |>)) s (fun set0 => link_htab_ent (geom c) set0 i)
    else Ok (put_set c1 s (set <| blks ::= <[i := bf']> |>))) = Ok (put_set c1 s set')).
  { destruct (truth (hsize (geom c))); [|by injection E3 as <-].
    rewrite (upd_set_ok _ _ _ _ _ (Hs1 _) E3). by rewrite put_set_put. }
  rewrite E4. cbn [mbind outcome_bind].
  destruct (fmap_lookup_eq core (blks set') (<[i := bf']> (blks set)) i bf' (eq_sym Hcr')) as (b' & Hb' & Hbb);
    [by apply list_lookup_insert_eq|].
  rewrite (get_blk_ok _ _ _ _ _ (Hs1 _) Hb'). cbn [mbind outcome_bind].
  exists set', (u32 (s32 (lat1 + lr))), d, rdy, bf, w2. split; [|split; [done|split; [done|split; [done|split]]]].
  - do 4 f_equal. unfold core, strip in Hbb. injection Hbb as Hbb. unfold bf', filled, touched in Hbb.
    simpl in Hbb. congruence.
  - rewrite Hd2. simpl. done.
  - split; [done|]. eapply handled_app; [exact Hq1|]. eapply handled_cons; [exact E2|constructor].
Qed.

End Whole.
