(* ===== verification/CacheInit.v ===== *)
(** cache_create: the caches it makes are well formed and empty. *)

From S2P Require Import Prelude Dll Misc Memory Cache CacheSet CacheSpec CacheAccess CacheRefine.

(** The set under construction: the blocks [l] are linked, and no block is valid. *)
Record init_inv (g : geometry) (ba : bool) (bsz usz : Z) (n : nat) (set : cache_set) (l : list nat) : Prop := {
  ii_ways : dlist (blks set) (way_head set) (way_tail set) l;
  ii_hash : hash_ok g set (fun i => i ∈ l);
  ii_blks : Forall (fun b => tag b = 0 /\ status b = 0 /\ (ba = true -> length (data b) = Z.to_nat bsz)) (blks set);
  ii_len : length (blks set) = n;
  ii_user : forall i b, i ∈ l -> blks set !! i = Some b -> truth usz = true -> is_Some (user_data b);
}.

Section Init.
Context (g : geometry) (ba : bool) (bsz : Z).
Implicit Types (set : cache_set) (i j n : nat) (b : cache_blk).

(** The way links of a block put at the head of the list. *)
Lemma link_front_ok set j l :
  j ∉ l -> is_Some (blks set !! j) -> dlist (blks set) (way_head set) (way_tail set) l ->
  exists set',
    (set ← put_way_next (Some j) (way_head set) set;
     set ← put_way_prev (Some j) None set;
     set ← (if way_head set then put_way_prev (way_head set) (Some j) set else Ok set);
     let set := set <| way_head := Some j |> in
     Ok (if way_tail set then set else set <| way_tail := Some j |>)) = Ok set' /\
    dlist (blks set') (way_head set') (way_tail set') (j :: l) /\
    hash set' = hash set /\ strip <$> blks set' = strip <$> blks set.
Proof.
  intros Hj Hs (Hnd & Hh & Ht & Hd). destruct Hs as [b Hb].
  rewrite put_way_next_ok by eauto. cbn [mbind outcome_bind].
  rewrite put_way_prev_ok by (simpl; apply is_Some_alter; eauto). cbn [mbind outcome_bind way_head set_field].
  destruct l as [|h l]; simpl in Hh; rewrite Hh.
  - cbn [mbind outcome_bind way_tail set_field]. rewrite Ht. simpl.
    eexists. split; [done|]. simpl. split; [|split; [done|by rewrite !list_fmap_alter_id]].
    split; [apply NoDup_singleton|]. split; [done|]. split; [done|].
    eexists. rewrite !list_lookup_alter_eq, Hb. by split.
  - assert (Hhs : is_Some (blks set !! h)) by (eapply dllseg_lookup; [done|set_solver]).
    rewrite put_way_prev_ok by (simpl; by do 2 apply is_Some_alter). cbn [mbind outcome_bind way_tail set_field].
    destruct (last_or None (h :: l)) as [t|] eqn:El.
    2: { exfalso. clear -El. rewrite last_or_last in El. destruct (last (h :: l)) eqn:E; [done|by apply last_None in E]. }
    rewrite Ht. eexists. split; [done|]. simpl. split; [|split; [done|by rewrite !list_fmap_alter_id]].
    split; [by apply NoDup_cons|]. split; [done|]. split; [simpl in El |- *; congruence|].
    exact (dlist_link_head (blks set) j h l b (proj2 (NoDup_cons _ _) (conj Hj Hnd)) Hb Hd).
Qed.

Lemma init_blk_ok n usize bindex j set l :
  0 <= hsize g -> init_inv g ba bsz usize n set l -> j ∉ l -> (j < n)%nat ->
  exists set', init_blk g usize bindex j set = Ok set' /\ init_inv g ba bsz usize n set' (j :: l).
Proof.
  intros Hg [Hd Hh Hb Hl Hu] Hj Hjn.
  destruct (lookup_lt_is_Some_2 (blks set) j) as [b Hbj]; [lia|].
  unfold init_blk. rewrite (c_upd_insert _ _ _ b) by done. cbn [mbind outcome_bind]. cbv zeta.
  set (b1 := b <| status := 0 |> <| tag := 0 |> <| ready := 0 |>
    <| user_data := if truth usize then Some bindex else None |>).
  pose proof (Forall_lookup_1 _ _ _ _ Hb Hbj) as (Htb & Hsb & Hdb).
  set (set1 := set <| blks := <[j := b1]> (blks set) |>).
  assert (Hsk : skel <$> <[j := b1]> (blks set) = skel <$> blks set).
  { rewrite list_fmap_insert. apply list_insert_id. rewrite list_lookup_fmap, Hbj. unfold skel, is_valid. simpl.
    by rewrite Htb, Hsb. }
  assert (Hv : forall {C : Type} (v : cache_blk -> C), (forall a b, skel a = skel b -> v a = v b) ->
    forall i, v <$> blks set1 !! i = v <$> blks set !! i).
  { intros C v Hv i. by apply (fmap_view_eq skel). }
  assert (Hh1 : hash_ok g set1 (fun i => i ∈ l)).
  { apply (hash_ok_view g _ set); [done| |done]. apply Hv. unfold skel. intros x y. congruence. }
  assert (Hd1 : dlist (blks set1) (way_head set1) (way_tail set1) l).
  { destruct Hd as (Hnd & ? & ? & Hds). do 3 (split; [done|]). eapply dllseg_frame; [|done].
    intros i _. apply Hv. unfold skel. simpl. intros x y. congruence. }
  assert (Hb1 : Forall (fun b => tag b = 0 /\ status b = 0 /\ (ba = true -> length (data b) = Z.to_nat bsz)) (blks set1))
    by (apply Forall_insert; [done|by split]).
  assert (Hb1j : blks set1 !! j = Some b1) by (apply list_lookup_insert_eq; lia).
  assert (E2 : exists set2, (if truth (hsize g) then link_htab_ent g set1 j else Ok set1) = Ok set2 /\
    hash_ok g set2 (fun i => i ∈ j :: l) /\ way_head set2 = way_head set1 /\ way_tail set2 = way_tail set1 /\
    nohash <$> blks set2 = nohash <$> blks set1).
  { destruct (truth (hsize g)) eqn:Htr.
    - destruct (link_htab_ent_spec g set1 _ j b1 Htr Hg Hh1 Hj Hb1j) as (set2 & E & Hok & Hrest).
      exists set2. split; [done|]. split; [|done]. eapply hash_ok_equiv; [|exact Hok].
      intros i. simpl. rewrite elem_of_cons. tauto.
    - exists set1. split; [done|]. split; [|done]. intros ?. congruence. }
  destruct E2 as (set2 & E2 & Hh2 & Hhd2 & Htl2 & Hno2). rewrite E2. cbn [mbind outcome_bind].
  assert (Hd2 : dlist (blks set2) (way_head set2) (way_tail set2) l).
  { rewrite Hhd2, Htl2. destruct Hd1 as (Hnd & ? & ? & Hds). do 3 (split; [done|]). eapply dllseg_frame; [|done].
    intros i _. apply (fmap_view_eq nohash); [|done]. unfold nohash. simpl. intros x y. congruence. }
  destruct (link_front_ok set2 j l Hj) as (set3 & E3 & Hd3 & Hh3 & Hst3); [|done|].
  { apply lookup_lt_is_Some. rewrite (fmap_length_eq _ _ _ Hno2). by eapply lookup_lt_Some. }
  assert (Hcr : core <$> blks set3 = core <$> blks set1).
  { transitivity (core <$> blks set2); eapply fmap_weaken; [exact core_strip|done|exact core_nohash|done]. }
  exists set3. split; [exact E3|]. split.
  - done.
  - apply (hash_ok_view g _ set2); [done| |done]. intros i. apply (fmap_view_eq strip); [|done].
    unfold strip. simpl. intros x y. congruence.
  - eapply Forall_core; [|exact Hcr|done]. intros x y Hxy. unfold core, strip in Hxy. injection Hxy as Hxy. intros (? & ? & ?).
    assert (Hxd : data x = data y) by congruence. rewrite <- Hxd.
    split; [congruence|]. split; [congruence|done].
  - rewrite (fmap_length_eq _ _ _ Hst3), (fmap_length_eq _ _ _ Hno2). unfold set1. simpl. by rewrite length_insert.
  - intros i b3 Hi Hb3 Hus. destruct (fmap_lookup_eq core (blks set1) (blks set3) i b3 Hcr Hb3) as (b' & Hb' & Hbb).
    unfold core, strip in Hbb. injection Hbb as _ _ _ Hbb _. cbn in Hbb. assert (Hbu : user_data b3 = user_data b') by done. rewrite Hbu. clear Hbb Hbu. destruct (decide (i = j)) as [->|Hne].
    + rewrite Hb1j in Hb'. injection Hb' as <-. unfold b1. cbn. rewrite Hus. by eexists.
    + apply elem_of_cons in Hi as [|Hi]; [done|]. apply (Hu i b' Hi); [|done]. unfold set1 in Hb'. cbn in Hb'.
      by rewrite list_lookup_insert_ne in Hb' by done.
Qed.

Lemma init_blks_ok n usize js : forall bindex set l,
  0 <= hsize g -> init_inv g ba bsz usize n set l -> NoDup (js ++ l) -> (forall j, j ∈ js -> (j < n)%nat) ->
  exists set', init_blks g usize bindex js set = Ok set' /\ init_inv g ba bsz usize n set' (rev js ++ l).
Proof.
  induction js as [|j js IH]; intros bindex set l Hg Hi Hnd Hb; [by exists set|].
  simpl in Hnd. apply NoDup_cons in Hnd as [Hj Hnd].
  destruct (init_blk_ok n usize bindex j set l Hg Hi) as (set1 & E1 & Hi1); [set_solver|apply Hb; set_solver|].
  destruct (IH (S bindex) set1 (j :: l) Hg Hi1) as (set2 & E2 & Hi2).
  - rewrite <- Permutation_middle. by apply NoDup_cons.
  - intros k Hk. apply Hb. set_solver.
  - exists set2. split; [|by simpl; rewrite <- app_assoc]. cbn [init_blks]. rewrite E1. exact E2.
Qed.

Lemma zero_inv usize n : 0 <= hsize g ->
  init_inv g ba bsz usize n (mk_set (if truth (hsize g) then repeat None (Z.to_nat (hsize g)) else []) None None
    (repeat (zero_blk ba bsz) n)) [].
Proof.
  intros Hg. split; simpl.
  - split; [apply NoDup_nil_2|by repeat split].
  - intros Htr. simpl. rewrite Htr. split; [apply repeat_length|]. intros k h Hk.
    apply list_elem_of_lookup_2, list_elem_of_In, repeat_spec in Hk as ->. exists []. split; [done|]. split; [apply NoDup_nil_2|]. set_solver.
  - apply Forall_forall. intros b Hb. apply list_elem_of_In, repeat_spec in Hb as ->.
    do 2 (split; [done|]). simpl. intros ->. apply repeat_length.
  - apply repeat_length.
  - set_solver.
Qed.

(** An empty set: no valid block. *)
Lemma init_set_ok assoc usize bindex : 0 <= hsize g -> 0 <= tag_shift g <= 32 ->
  exists set, init_set g ba bsz usize assoc bindex = Ok set /\ set_ok g assoc ba bsz usize set /\
    Forall (fun b => is_valid b = false) (blks set) /\ abs_set set = replicate (Z.to_nat assoc) None.
Proof.
  intros Hg Hts. destruct (init_blks_ok (Z.to_nat assoc) usize (seq 0 (Z.to_nat assoc)) bindex _ [] Hg (zero_inv usize _ Hg))
    as (set & E & [Hd Hh Hb Hl Hu]).
  - rewrite app_nil_r. apply NoDup_seq.
  - intros j Hj. apply elem_of_seq in Hj. lia.
  - exists set. split; [exact E|]. rewrite app_nil_r in *.
    assert (Hinv : Forall (fun b => is_valid b = false) (blks set)).
    { eapply Forall_impl; [exact Hb|]. intros b (_ & Hs & _). unfold is_valid. by rewrite Hs. }
    assert (Hp : rev (seq 0 (Z.to_nat assoc)) ≡ₚ seq 0 (Z.to_nat assoc)) by (symmetry; apply Permutation_rev).
    destruct (set_ok_intro g assoc ba bsz usize set (rev (seq 0 (Z.to_nat assoc)))) as [Hs Ho]; [done| | |].
    + split; [done|by rewrite Hp, Hl| |].
      * intros Htr. destruct (Hh Htr) as [Hhl Hhk]. split; [done|]. intros k h Hk.
        destruct (Hhk k h Hk) as (bl & Hc & Hnd & Hin). exists bl. do 2 (split; [done|]).
        intros i. rewrite Hin. split; [tauto|]. intros [_ (b & Hbi & Hbk)]. split; [|by exists b].
        rewrite Hp. apply elem_of_seq. apply lookup_lt_Some in Hbi. lia.
      * intros i j b c Hbi _ Hv _ _. pose proof (Forall_lookup_1 _ _ _ _ Hinv Hbi). congruence.
    + apply Forall_lookup. intros i b Hi. pose proof (Forall_lookup_1 _ _ _ _ Hb Hi) as (Ht & _ & Hdat).
      split; [rewrite Ht; pose proof (pow2_pos (32 - tag_shift g)); lia|]. split; [done|].
      apply (Hu i b); [|done]. rewrite Hp. apply elem_of_seq. apply lookup_lt_Some in Hi. lia.
    + do 2 (split; [done|]). unfold abs_set. rewrite Ho.
      apply list_eq. intros k. rewrite list_lookup_fmap.
      destruct (rev (seq 0 (Z.to_nat assoc)) !! k) as [i|] eqn:Hk; simpl.
      * rewrite lookup_replicate_2 by (apply lookup_lt_Some in Hk; by rewrite length_rev, length_seq in Hk).
        f_equal. unfold line_at. destruct (blks set !! i) as [b|] eqn:Hbi; [|done]. unfold line_of.
        by rewrite (Forall_lookup_1 _ _ _ _ Hinv Hbi).
      * symmetry. apply lookup_ge_None. apply lookup_ge_None in Hk. rewrite length_rev, length_seq in Hk.
        by rewrite length_replicate.
Qed.

Lemma init_sets_ok assoc usize n : forall bindex, 0 <= hsize g -> 0 <= tag_shift g <= 32 ->
  exists ss, init_sets g ba bsz usize assoc n bindex = Ok ss /\ length ss = n /\
    Forall (set_ok g assoc ba bsz usize) ss /\
    Forall (fun set => Forall (fun b => is_valid b = false) (blks set)) ss /\
    abs_set <$> ss = replicate n (replicate (Z.to_nat assoc) None).
Proof.
  induction n as [|n IH]; intros bindex Hg Hts; [by exists []|].
  destruct (init_set_ok assoc usize bindex Hg Hts) as (set & E & Hs & Hi & Ha).
  destruct (IH (bindex + Z.to_nat assoc)%nat Hg Hts) as (ss & Es & Hl & Hss & Hsi & Has).
  exists (set :: ss). cbn [init_sets]. rewrite E. cbn [mbind outcome_bind]. rewrite Es. cbn [mbind outcome_bind].
  split; [done|]. split; [by simpl; rewrite Hl|]. split; [by apply Forall_cons|]. split; [by apply Forall_cons|].
  by rewrite fmap_cons, Ha, Has.
Qed.

End Init.

Definition empty_spec (nsets assoc : Z) : spec_cache :=
  mk_spec (replicate (Z.to_nat nsets) (replicate (Z.to_nat assoc) None)) 0 0 0 0 0.

Lemma mk_geometry_ok (kb ks assoc : Z) :
  3 <= kb -> 0 <= ks -> kb + ks < 32 ->
  exists g, mk_geometry (2 ^ ks) (2 ^ kb) assoc = Ok g /\ geom_wf g kb ks.
Proof.
  intros Hkb Hks Hsum. unfold mk_geometry.
  rewrite log_base2_pow2 by lia. cbn [mbind outcome_bind]. rewrite log_base2_pow2 by lia. cbn [mbind outcome_bind].
  cbv zeta. replace (0 <=? 32 - (kb + ks)) with true by blia. replace (32 - (kb + ks) <? 32) with true by blia.
  simpl andb. cbv iota. eexists. split; [done|].
  split; simpl; try done; try lia. destruct (Z.ltb_spec 4 assoc); [|lia].
  rewrite shiftr_div by lia. apply Z.div_pos; lia.
Qed.

Section Create.
Context {W : Type}.

Lemma cache_create_ok (kb ks : Z) (balloc : bool) (usize assoc : Z) (pol : cache_policy)
    (fn : access_fn W) (lat : Z) :
  3 <= kb -> 0 <= ks -> kb + ks < 32 -> 0 <= usize -> 0 < assoc -> not_pow2 assoc = false ->
  exists c, cache_create (2 ^ ks) (2 ^ kb) balloc usize assoc pol (Some fn) lat = Ok c /\
    cache_wf c kb ks /\ abs_cache c = empty_spec (2 ^ ks) assoc /\ (forall A, resident A c) /\
    policy c = pol /\ blk_access_fn c = fn /\ (Cache.balloc c = balloc /\ Cache.usize c = usize) /\ last_blk c = None.
Proof.
  intros Hkb Hks Hsum Hu Ha Hp. destruct (mk_geometry_ok kb ks assoc Hkb Hks Hsum) as (g & Eg & Hg).
  pose proof (gw_tag_shift _ _ _ Hg) as Hts.
  destruct (init_sets_ok g balloc (2 ^ kb) assoc usize (Z.to_nat (2 ^ ks)) 0 (gw_hsize _ _ _ Hg) ltac:(lia))
    as (ss & Es & Hl & Hss & Hinv & Habs).
  pose proof (pow2_pos ks Hks). pose proof (Z.pow_le_mono_r 2 3 kb ltac:(lia) Hkb). change (2 ^ 3) with 8 in *.
  unfold cache_create.
  rewrite (fatal_if_false (2 ^ ks <=? 0)) by blia. cbn [mbind outcome_bind].
  rewrite (fatal_if_false (not_pow2 (2 ^ ks))) by (apply not_pow2_spec; [lia|by exists ks]). cbn [mbind outcome_bind].
  rewrite (fatal_if_false (2 ^ kb <? 8)) by blia. cbn [mbind outcome_bind].
  rewrite (fatal_if_false (not_pow2 (2 ^ kb))) by (apply not_pow2_spec; [lia|exists kb; split; [lia|done]]). cbn [mbind outcome_bind].
  rewrite (fatal_if_false (usize <? 0)) by blia. cbn [mbind outcome_bind].
  rewrite (fatal_if_false (assoc <=? 0)) by blia. cbn [mbind outcome_bind].
  rewrite (fatal_if_false _ Hp). cbn [mbind outcome_bind].
  rewrite Eg. cbn [mbind outcome_bind]. rewrite Es. cbn [mbind outcome_bind].
  eexists. split; [done|]. split; [by split|]. split; [unfold abs_cache; simpl; by rewrite Habs|].
  split; [|done]. intros A s set i b Hs Hb Hv. simpl in Hs.
  pose proof (Forall_lookup_1 _ _ _ _ Hinv Hs) as Hi. pose proof (Forall_lookup_1 _ _ _ _ Hi Hb). simpl in *. congruence.
Qed.

End Create.
