(* ===== verification/CacheCorrect.v ===== *)
(** The correctness of the caches: every access, probe and flush of a well-formed
    cache does what the abstract cache of CacheSpec.v says, and leaves the cache
    well formed; cache_create makes an empty one. *)

From S2P Require Import Prelude Dll Misc Memory Cache CacheSet CacheSpec CacheAccess CacheRefine.

Section Correct.
Context {W : Type} (A : mem_cmd -> Z -> Prop) (Inv : W -> Prop) (kb ks : Z).
Implicit Types (c : cache W) (set : cache_set) (s i j k : nat) (b : cache_blk).

(** The cache [c'] holds [bytes] at [addr]. *)
Definition holds c (addr nbytes : Z) (bytes : list Z) : Prop :=
  exists set i b, sets c !! Z.to_nat (CACHE_SET (geom c) addr) = Some set /\ blks set !! i = Some b /\
    tag b = CACHE_TAG (geom c) addr /\ is_valid b = true /\
    take (Z.to_nat nbytes) (drop (Z.to_nat (CACHE_BLK (geom c) addr)) (data b)) = bytes.

(** The cache has the block of [addr]. *)
Definition caches c (addr : Z) : Prop :=
  exists set i b, sets c !! Z.to_nat (CACHE_SET (geom c) addr) = Some set /\ blks set !! i = Some b /\
    tag b = CACHE_TAG (geom c) addr /\ is_valid b = true.

Lemma probe_caches c addr : cache_wf c kb ks -> cache_probe c addr = Ok true -> caches c addr.
Proof.
  intros Hc Hp. destruct (set_lookup kb ks c addr Hc) as (set & Hs & Hset).
  destruct (lookup_blk_spec (geom c) set (way_order set) (CACHE_TAG (geom c) addr) (so_wf _ _ _ _ _ _ Hset)
    (gw_hsize _ _ _ (cw_geom _ _ _ Hc))) as (r & E & Hr).
  unfold cache_probe in Hp. rewrite (c_get_some _ _ _ Hs) in Hp. cbn [mbind outcome_bind] in Hp. rewrite E in Hp.
  destruct r as [i|]; [|done]. apply hit_in_lookup in Hr as (b & Hb & Ht & Hv). by exists set, i, b.
Qed.

(** The miss handler. *)
Lemma cache_miss_ok c cmd addr p nbytes now rnd set w :
  let s := Z.to_nat (CACHE_SET (geom c) addr) in
  let t := CACHE_TAG (geom c) addr in
  cache_wf c kb ks -> request_ok c addr p nbytes -> handler_ok A Inv c -> Inv w ->
  A Read (CACHE_BADDR (geom c) addr) -> resident A c -> sets c !! s = Some set ->
  lookup_result (blks set) t None ->
  exists set' lat buf ud ra bf w' k (v : line),
    cache_miss c cmd addr s t p nbytes now rnd w =
      Ok (put_set (c <| misses ::= Z.add 1 |> <| last_tagset := 0 |> <| last_blk := None |>
             <| replacements ::= Z.add (match v with Some _ => 1 | None => 0 end) |> <| bus_free := bf |>
             <| writebacks ::= Z.add (match v with Some (_, true) => 1 | _ => 0 end) |>) s set',
          mk_res lat buf ud ra, w') /\
    set_ok (geom c) (assoc c) (balloc c) (bsize c) (usize c) set' /\ Inv w' /\
    (policy c = Random -> way_order set !! k = Some (Z.to_nat (Z.land rnd (assoc c - 1)))) /\
    abs_set set !! victim_pos (policy c) k (abs_set set) = Some v /\
    abs_set set' = spec_fill (policy c) cmd t k (abs_set set) /\
    ra = match v with Some (t, _) => CACHE_MK_BADDR (geom c) t (Z.of_nat s) | None => 0 end /\
    exists i b d, blks set' !! i = Some b /\ tag b = t /\ is_valid b = true /\ others_kept i set set' /\
      (balloc c = true -> length d = Z.to_nat (bsize c) /\
         data b = touch_data cmd d (Z.to_nat (CACHE_BLK (geom c) addr)) p (Z.to_nat nbytes) /\
         buf = touch_buf cmd d (Z.to_nat (CACHE_BLK (geom c) addr)) p (Z.to_nat nbytes)) /\
      handled (blk_access_fn c) (bsize c) (write_back (geom c) s v ++ [(Read, CACHE_BADDR (geom c) addr)]) w w'.
Proof.
  intros s t Hc Hr Hh Hw HA Hres Hs Hmiss. pose proof (cw_geom _ _ _ Hc) as Hg.
  pose proof (Forall_lookup_1 _ _ _ _ (cw_set _ _ _ Hc) Hs) as Hset.
  set (c0 := c <| misses ::= Z.add 1 |>).
  destruct (select_repl_ok kb ks c0 s set rnd) as (set1 & i & k & E1 & Hset1 & Hk1 & Hrnd & Hcr1 & Hv & Hfill);
    [by destruct Hc|done|done|].
  destruct (order_blk _ _ _ _ _ _ _ _ Hset1 Hk1) as [b1 Hb1].
  destruct (unlink_ok _ _ _ _ _ set1 i b1 (gw_hsize _ _ _ Hg) Hset1 Hb1) as (set2 & E2 & Hwf2 & Hno).
  assert (Hcr2 : core <$> blks set2 = core <$> blks set1) by (eapply fmap_weaken; [exact core_nohash|done]).
  destruct (fmap_lookup_eq core (blks set2) (blks set1) i b1 (eq_sym Hcr2) Hb1) as (b2 & Hb2 & Hbb).
  set (c2 := put_set (c0 <| last_tagset := 0 |> <| last_blk := None |>) s set2).
  assert (Hl : line_at (blks set1) i = line_of b2)
    by (rewrite (line_at_lookup _ _ _ Hb1); by apply line_of_core).
  edestruct (miss_refill_ok A Inv kb ks c2 cmd addr p nbytes now s set2 (way_order set1) i b2 w)
    as (set' & lat & d & rdy & bf & w' & E3 & Hset' & Ho' & Hcr' & Hd & Hw' & Hq).
  - exact Hg.
  - exact (cw_bsize _ _ _ Hc).
  - by destruct Hr.
  - exact Hh.
  - exact Hw.
  - exact HA.
  - by apply (put_set_lookup _ s set).
  - exact Hwf2.
  - exact Hb2.
  - rewrite (fmap_length_eq _ _ _ Hcr2). apply Hset1.
  - eapply Forall_core; [apply blk_ok_core|exact Hcr2|]. eapply set_ok_blks. exact Hset1.
  - intros j _. destruct (hit_in (blks set2) _ j) eqn:Hj; [|done]. exfalso.
    apply hit_in_lookup in Hj as (bj & Hbj & Htj & Hvj). specialize (Hmiss j).
    destruct (fmap_lookup_eq core (blks set) (blks set2) j bj) as (bj' & Hbj' & Hc');
      [by rewrite Hcr2, Hcr1|done|].
    assert (hit_in (blks set) t j = true); [|congruence].
    apply hit_in_lookup. exists bj'. unfold core, strip in Hc'. injection Hc' as Hc'.
    split; [done|]. split; [etrans; [|exact Htj]; congruence|]. revert Hvj. unfold is_valid. congruence.
  - intros Hvb Hdb. destruct (fmap_lookup_eq core (blks set) (blks set2) i b2) as (b0 & Hb0 & Hc0);
      [by rewrite Hcr2, Hcr1|done|].
    assert (HA0 : A Write (CACHE_MK_BADDR (geom c) (tag b0) (Z.of_nat s))).
    { unfold core, strip in Hc0. injection Hc0 as Hc0. eapply Hres; [done|done| |].
      - revert Hvb. unfold is_valid. congruence.
      - revert Hdb. unfold is_dirty. congruence. }
    unfold core, strip in Hc0. injection Hc0 as Hc0. simpl. congruence.
  - exists set', lat, (if balloc c then touch_buf cmd d (Z.to_nat (CACHE_BLK (geom c) addr)) p (Z.to_nat nbytes) else p),
      (user_data b2), (if is_valid b2 then CACHE_MK_BADDR (geom c) (tag b2) (Z.of_nat s) else 0), bf, w', k, (line_of b2).
    split; [|split; [done|split; [done|split; [done|split; [|split; [|split]]]]]].
    + unfold cache_miss. cbv zeta. fold c0. rewrite E1. cbn [mbind outcome_bind].
      change (geom (put_set c0 s set1)) with (geom c).
      assert (E4 : (if truth (hsize (geom c)) then upd_set (put_set c0 s set1) s (fun set => unlink_htab_ent (geom c) set i)
                    else Ok (put_set c0 s set1)) = Ok (put_set c0 s set2)).
      { destruct (truth (hsize (geom c))); [|by injection E2 as <-].
        rewrite (upd_set_ok _ _ set1 _ set2); [by rewrite put_set_put|by apply (put_set_lookup _ _ set)|done]. }
      rewrite E4. cbn [mbind outcome_bind].
      cbv zeta in E3. change (geom c2) with (geom c) in E3. fold t in E3.
      unfold line_of. destruct (is_valid b2), (is_dirty b2);
      (etrans; [exact E3|]); refine (f_equal (fun x => Ok (x, _, _)) _);
      match goal with |- _ = put_set ?cm s set' => exact (put_set_put cm s set2 set') end.
    + rewrite <- Hl. exact Hv.
    + etrans; [|exact (Hfill cmd t)]. unfold abs_set. rewrite Ho'.
      rewrite (list_fmap_ext (line_at (blks set')) (line_at (<[i := filled c2 cmd addr t p nbytes rdy d b2]> (blks set2))))
        by (intros; by apply line_at_core).
      rewrite (lines_insert _ _ i (refill_pos (policy c) k)); [|apply Hwf2|exact Hk1|by eapply lookup_lt_Some].
      rewrite line_of_filled. f_equal. apply list_fmap_ext. intros. by apply line_at_core.
    + unfold line_of. by destruct (is_valid b2).
    + destruct (fmap_lookup_eq core (blks set') (<[i := filled c2 cmd addr t p nbytes rdy d b2]> (blks set2)) i
        (filled c2 cmd addr t p nbytes rdy d b2)) as (b' & Hb' & Hbb'); [done| |].
      { apply list_lookup_insert_eq. by eapply lookup_lt_Some. }
      exists i, b', d. unfold core, strip in Hbb'. injection Hbb' as Ht' Hst' Hrd' Hud' Hdt'.
      split; [done|]. split; [by rewrite <- Ht'|]. split.
      * unfold is_valid. rewrite <- Hst'. by destruct cmd.
      * split.
        { intros j Hj. rewrite <- !list_lookup_fmap, Hcr', list_lookup_fmap, list_lookup_insert_ne by done.
          by rewrite <- !list_lookup_fmap, Hcr2, Hcr1. }
        split; [|exact Hq]. intros Hba. rewrite Hba. split; [|split; [|done]].
        -- rewrite Hd. pose proof (Forall_core _ _ _ (blk_ok_core _ _ _ _) Hcr2 (set_ok_blks _ _ _ _ _ _ Hset1)) as Hall.
           by apply (Forall_lookup_1 _ _ _ _ Hall Hb2).
        -- rewrite <- Hdt'. simpl. by rewrite Hba.
Qed.

(** * Residency, read off the abstract sets *)

Lemma elem_remove_at {X : Type} (x : X) (j : nat) (l : list X) : x ∈ remove_at j l -> x ∈ l.
Proof. unfold remove_at. rewrite elem_of_app. intros [H|H]; [by apply elem_of_take in H as (? & H & _); eapply list_elem_of_lookup_2|].
  rewrite <- (take_drop (S j) l), elem_of_app. by right. Qed.

Lemma elem_insert {X : Type} (x y : X) (j : nat) (l : list X) : x ∈ <[j := y]> l -> x = y \/ x ∈ l.
Proof.
  intros H. apply list_elem_of_lookup in H as [k Hk]. destruct (decide (j = k)) as [<-|Hne].
  - left. destruct (decide (j < length l)%nat).
    + rewrite list_lookup_insert_eq in Hk by done. congruence.
    + rewrite list_insert_ge in Hk by lia. apply lookup_lt_Some in Hk. lia.
  - right. rewrite list_lookup_insert_ne in Hk by done. by eapply list_elem_of_lookup_2.
Qed.

Definition tag_of_line (x : line) : option Z := fst <$> x.

Lemma spec_hit_lines pol cmd j x (ls : list line) t d :
  ls !! j = Some x -> Some (t, d) ∈ spec_hit pol cmd j x ls -> Some (t, d) ∈ ls \/ cmd = Write /\ tag_of_line x = Some t.
Proof.
  intros Hj Hin. assert (Hm : Some (t, d) = mark cmd x \/ Some (t, d) ∈ ls).
  { unfold spec_hit in Hin. case_bool_decide; [|by apply elem_insert in Hin].
    apply elem_of_cons in Hin as [?|Hin]; [by left|right; by eapply elem_remove_at]. }
  destruct Hm as [Hm|]; [|by left]. destruct x as [[t' d']|]; [|done]. injection Hm as -> ->.
  destruct cmd; [left|by right]. rewrite orb_false_r. by eapply list_elem_of_lookup_2.
Qed.

Lemma spec_fill_lines pol cmd t k (ls : list line) t' d :
  Some (t', d) ∈ spec_fill pol cmd t k ls -> t' = t /\ d = bool_decide (cmd = Write) \/ Some (t', d) ∈ ls.
Proof.
  assert (Hc : forall l, Some (t', d) ∈ Some (t, bool_decide (cmd = Write)) :: remove_at l ls ->
    t' = t /\ d = bool_decide (cmd = Write) \/ Some (t', d) ∈ ls).
  { intros l Hin. apply elem_of_cons in Hin as [Hin|Hin]; [left; by injection Hin|right; by eapply elem_remove_at]. }
  unfold spec_fill. destruct pol; eauto. intros Hin. apply elem_insert in Hin as [Hin|?]; [left; by injection Hin|by right].
Qed.

Definition lines_resident (g : geometry) (s : nat) (ls : list line) : Prop :=
  forall t, Some (t, true) ∈ ls -> A Write (CACHE_MK_BADDR g t (Z.of_nat s)).

Lemma blk_line g assoc ba bsz usz set i b :
  set_ok g assoc ba bsz usz set -> blks set !! i = Some b -> line_of b ∈ abs_set set.
Proof.
  intros Hs Hb. destruct (order_lookup _ _ _ _ _ _ _ _ Hs Hb) as [j Hj]. eapply list_elem_of_lookup_2.
  unfold abs_set. rewrite list_lookup_fmap, Hj. simpl. by rewrite (line_at_lookup _ _ _ Hb).
Qed.

Lemma lines_resident_of c s set :
  cache_wf c kb ks -> resident A c -> sets c !! s = Some set -> lines_resident (geom c) s (abs_set set).
Proof.
  intros Hc Hr Hs t Hin. unfold abs_set in Hin. apply list_elem_of_fmap in Hin as (i & Hl & _).
  unfold line_at in Hl. destruct (blks set !! i) as [b|] eqn:Hb; [|done].
  unfold line_of in Hl. destruct (is_valid b) eqn:Hv; [|done]. injection Hl as -> Hd. by eapply Hr.
Qed.

Lemma resident_put c c' s set' :
  resident A c -> sets c' = <[s := set']> (sets c) -> geom c' = geom c ->
  set_ok (geom c) (assoc c) (balloc c) (bsize c) (usize c) set' -> lines_resident (geom c) s (abs_set set') ->
  resident A c'.
Proof.
  intros Hr Hs Hg Hok Hl s1 set1 i b Hs1 Hb Hv Hd. rewrite Hg. rewrite Hs in Hs1.
  destruct (decide (s = s1)) as [<-|Hne].
  - destruct (decide (s < length (sets c))%nat).
    + rewrite list_lookup_insert_eq in Hs1 by done. injection Hs1 as <-. apply (Hl (tag b)).
      pose proof (blk_line _ _ _ _ _ _ _ _ Hok Hb) as Hbl. unfold line_of in Hbl. by rewrite Hv, Hd in Hbl.
    + rewrite list_insert_ge in Hs1 by lia. apply lookup_lt_Some in Hs1. lia.
  - rewrite list_lookup_insert_ne in Hs1 by done. by eapply Hr.
Qed.

(** * The whole access *)

Lemma abs_put c s set set' :
  sets c !! s = Some set -> abs_set <$> <[s := set']> (sets c) = <[s := abs_set set']> (sp_sets (abs_cache c)).
Proof. intros _. by rewrite list_fmap_insert. Qed.

Lemma strip_fields b b' : strip b = strip b' ->
  tag b = tag b' /\ is_valid b = is_valid b' /\ data b = data b'.
Proof. unfold strip, is_valid. simpl. intros H. injection H as H. by rewrite H0, H1, H4. Qed.

(** The position, in replacement order, of the block random() designates. *)
Definition random_pos c s (rnd : Z) : nat :=
  match sets c !! s with
  | Some set =>
      match list_find (fun i => i = Z.to_nat (Z.land rnd (assoc c - 1))) (way_order set) with
      | Some (k, _) => k
      | None => 0%nat
      end
  | None => 0%nat
  end.

Lemma random_pos_lookup c s set rnd k :
  cache_wf c kb ks -> sets c !! s = Some set ->
  way_order set !! k = Some (Z.to_nat (Z.land rnd (assoc c - 1))) -> random_pos c s rnd = k.
Proof.
  intros Hc Hs Hk. unfold random_pos. rewrite Hs.
  pose proof (Forall_lookup_1 _ _ _ _ (cw_set _ _ _ Hc) Hs) as Hset.
  destruct (wf_ways _ _ _ _ (so_wf _ _ _ _ _ _ Hset)) as (Hnd & _).
  destruct (list_find _ (way_order set)) as [[k' i']|] eqn:E.
  - apply list_find_Some in E as (Hk' & -> & _). by eapply NoDup_lookup.
  - apply list_find_None in E. rewrite Forall_lookup in E. by destruct (E _ _ Hk).
Qed.

Lemma spec_access_pos pol cmd t s k k' (sc : spec_cache) :
  (pol = Random -> k = k') -> spec_access pol cmd t s k sc = spec_access pol cmd t s k' sc.
Proof. destruct pol; [done| |done]. by intros ->. Qed.

(** The abstract access of a request. *)
Definition request_spec c (cmd : mem_cmd) (addr rnd : Z) : spec_cache * line :=
  let s := Z.to_nat (CACHE_SET (geom c) addr) in
  spec_access (policy c) cmd (CACHE_TAG (geom c) addr) s (random_pos c s rnd) (abs_cache c).

(** What it asks of the next level: a hit nothing, a miss the write back of the
    line it replaces and the block. *)
Definition next_requests c (cmd : mem_cmd) (addr rnd : Z) : list (mem_cmd * Z) :=
  let s := Z.to_nat (CACHE_SET (geom c) addr) in
  match find_line (CACHE_TAG (geom c) addr) (default [] (sp_sets (abs_cache c) !! s)) with
  | Some _ => []
  | None => write_back (geom c) s (snd (request_spec c cmd addr rnd)) ++ [(Read, CACHE_BADDR (geom c) addr)]
  end.

(** What all accesses guarantee. *)
Record access_post c (cmd : mem_cmd) (addr : Z) (p : list Z) (nbytes rnd : Z) (c' : cache W)
    (r : access_result) : Prop := {
  ap_wf : cache_wf c' kb ks;
  ap_params : params c' = params c;
  ap_resident : resident A c';
  ap_abs : abs_cache c' = fst (request_spec c cmd addr rnd);
  ap_repl : r_repl r = match snd (request_spec c cmd addr rnd) with
                       | Some (t, _) => CACHE_MK_BADDR (geom c) t (CACHE_SET (geom c) addr)
                       | None => 0
                       end;
  ap_holds : balloc c = true ->
    holds c' addr nbytes (take (Z.to_nat nbytes) (match cmd with Read => r_buf r | Write => p end));
  ap_read : forall bytes, balloc c = true -> cmd = Read -> holds c addr nbytes bytes ->
    take (Z.to_nat nbytes) (r_buf r) = bytes;
  ap_keeps : forall addr2 p2 n2 bytes, request_ok c addr2 p2 n2 -> holds c addr2 n2 bytes -> caches c' addr2 ->
    (cmd = Write -> addr + nbytes <= addr2 \/ addr2 + n2 <= addr) -> holds c' addr2 n2 bytes;
}.

(** Bytes outside of what is written. *)
Lemma touch_elsewhere cmd (d : list Z) (o : nat) (p : list Z) (n o2 n2 : nat) :
  (o + n <= length d)%nat -> (n <= length p)%nat -> (cmd = Write -> (o + n <= o2)%nat \/ (o2 + n2 <= o)%nat) ->
  take n2 (drop o2 (touch_data cmd d o p n)) = take n2 (drop o2 d).
Proof.
  intros Hd Hp Hdis. destruct cmd; [done|]. specialize (Hdis eq_refl). apply list_eq. intros k.
  rewrite !lookup_take. case_decide as Hk; [|done]. rewrite !lookup_drop. simpl. unfold buf_store.
  rewrite length_take, Nat.min_l by done. destruct Hdis as [Hdis|Hdis].
  - rewrite lookup_app_r by (rewrite length_take; lia). rewrite length_take, Nat.min_l by lia.
    rewrite lookup_app_r by (rewrite length_take; lia). rewrite length_take, lookup_drop. f_equal. lia.
  - rewrite lookup_app_l by (rewrite length_take; lia). apply lookup_take_lt. lia.
Qed.

(** Two addresses of one block: their distance is that of their offsets. *)
Lemma same_block c addr addr2 : geom_wf (geom c) kb ks -> 0 <= addr < 2 ^ 32 -> 0 <= addr2 < 2 ^ 32 ->
  CACHE_TAG (geom c) addr = CACHE_TAG (geom c) addr2 ->
  Z.to_nat (CACHE_SET (geom c) addr) = Z.to_nat (CACHE_SET (geom c) addr2) ->
  addr - CACHE_BLK (geom c) addr = addr2 - CACHE_BLK (geom c) addr2.
Proof.
  intros Hg H1 H2 Ht Hs. pose proof (CACHE_SET_range Hg addr). pose proof (CACHE_SET_range Hg addr2).
  rewrite !(CACHE_BLK_mod Hg), <- !(CACHE_BADDR_sub Hg), <- !(CACHE_BADDR_MK Hg) by done. f_equal; [done|lia].
Qed.

Lemma core_eq b b' : core b = core b' -> tag b = tag b' /\ is_valid b = is_valid b' /\ data b = data b'.
Proof. unfold core, strip, is_valid. simpl. intros H. injection H as Ht Hst _ _ Hd. by rewrite Ht, Hst, Hd. Qed.

Lemma others_kept_lookup i set set' j b : others_kept i set set' -> j <> i -> blks set !! j = Some b ->
  exists b', blks set' !! j = Some b' /\ tag b' = tag b /\ is_valid b' = is_valid b /\ data b' = data b.
Proof.
  intros Hk Hj Hb. specialize (Hk j Hj). rewrite Hb in Hk. destruct (blks set' !! j) as [b'|]; [|done].
  exists b'. split; [done|]. apply core_eq. by apply (inj Some) in Hk.
Qed.

(** What is held in other sets than the one replaced. *)
Lemma holds_other_set c c' s set' addr2 n2 bytes :
  sets c' = <[s := set']> (sets c) -> geom c' = geom c -> s <> Z.to_nat (CACHE_SET (geom c) addr2) ->
  holds c addr2 n2 bytes -> holds c' addr2 n2 bytes.
Proof.
  intros Hs Hg Hne (set & i & b & Hset & H). exists set, i, b. rewrite Hg, Hs. by rewrite list_lookup_insert_ne.
Qed.

Lemma touch_holds cmd (d : list Z) (o : nat) (p : list Z) (n : nat) :
  (o + n <= length d)%nat -> (n <= length p)%nat ->
  take n (drop o (touch_data cmd d o p n)) = take n (match cmd with Read => touch_buf cmd d o p n | Write => p end).
Proof.
  intros Hd Hp. destruct cmd; simpl.
  - unfold buf_store. simpl. rewrite length_take_drop by lia. rewrite take_app_le by (rewrite length_take_drop; lia).
    by rewrite take_take, Nat.min_id.
  - unfold buf_store. rewrite length_take, Nat.min_l by lia.
    rewrite drop_app_length' by (rewrite length_take; lia).
    rewrite take_app_le by (rewrite length_take; lia). by rewrite take_take, Nat.min_id.
Qed.

Lemma touch_read (d : list Z) (o : nat) (p : list Z) (n : nat) :
  (o + n <= length d)%nat -> take n (touch_buf Read d o p n) = take n (drop o d).
Proof.
  intros Hd. simpl. unfold buf_store. simpl. rewrite take_app_le by (rewrite length_take_drop; lia).
  by rewrite take_take, Nat.min_id.
Qed.

(** Both kinds of hit, from what they do to their set. *)
Lemma hit_post c cmd addr p nbytes rnd s set i j b set' b' lat ud :
  cache_wf c kb ks -> request_ok c addr p nbytes -> resident A c -> served A cmd (CACHE_BADDR (geom c) addr) ->
  s = Z.to_nat (CACHE_SET (geom c) addr) ->
  sets c !! s = Some set -> blks set !! i = Some b -> way_order set !! j = Some i ->
  tag b = CACHE_TAG (geom c) addr -> is_valid b = true ->
  set_ok (geom c) (assoc c) (balloc c) (bsize c) (usize c) set' ->
  abs_set set' = spec_hit (policy c) cmd j (line_of b) (abs_set set) ->
  (policy c = LRU -> way_head set' = Some i) -> blks set' !! i = Some b' ->
  strip b' = strip (touched c cmd (Z.to_nat (CACHE_BLK (geom c) addr)) p (Z.to_nat nbytes) b) -> others_kept i set set' ->
  access_post c cmd addr p nbytes rnd
    (put_set (c <| hits ::= Z.add 1 |> <| last_tagset := CACHE_TAGSET (geom c) addr |>
                <| last_blk := Some (s, i) |>) s set')
    (mk_res lat (if balloc c then touch_buf cmd (data b) (Z.to_nat (CACHE_BLK (geom c) addr)) p (Z.to_nat nbytes)
                 else p) ud 0).
Proof.
  intros Hc Hr Hres HA Es Hs Hb Hj Ht Hv Hset' Habs Hlru Hb' Hst Hkept.
  pose proof (cw_geom _ _ _ Hc) as Hg. pose proof (Forall_lookup_1 _ _ _ _ (cw_set _ _ _ Hc) Hs) as Hset.
  pose proof (request_offset _ _ _ _ _ _ Hg (cw_bsize _ _ _ Hc) Hr) as [Hlo Hhi]. pose proof (rq_pos _ _ _ _ Hr) as Hpos.
  destruct (strip_fields _ _ Hst) as (Ht' & Hv' & Hd').
  assert (Hvt : is_valid b' = true).
  { rewrite Hv'. pose proof (skel_touched c cmd (Z.to_nat (CACHE_BLK (geom c) addr)) p (Z.to_nat nbytes) b) as Hsk.
    unfold skel in Hsk. congruence. }
  assert (Htt : tag b' = CACHE_TAG (geom c) addr) by (rewrite Ht', <- Ht; done).
  assert (Hsl : (s < length (sets c))%nat) by (by eapply lookup_lt_Some).
  pose proof (CACHE_SET_range Hg addr) as Hsr.
  assert (Hzs : Z.of_nat s = CACHE_SET (geom c) addr) by lia.
  assert (Hfind : find_line (CACHE_TAG (geom c) addr) (abs_set set) = Some (j, line_of b)).
  { eapply (find_line_hit (geom c)); try done. apply (so_wf _ _ _ _ _ _ Hset). }
  assert (Hdl : balloc c = true -> length (data b) = Z.to_nat (bsize c)).
  { intros Hba. by apply (Forall_lookup_1 _ _ _ _ (set_ok_blks _ _ _ _ _ _ Hset) Hb). }
  assert (Hspec : request_spec c cmd addr rnd =
    ((abs_cache c) <| sp_hits ::= Z.add 1 |> <| sp_sets ::= <[s := abs_set set']> |>, None)).
  { unfold request_spec. rewrite <- Es. unfold spec_access. simpl. rewrite list_lookup_fmap, Hs. simpl.
    by rewrite Hfind, Habs. }
  split.
  - eapply (cache_wf_put kb ks c); [done|done|done|done|]. unfold last_ok. simpl.
    exists set', b'. rewrite list_lookup_insert_eq by done. do 3 (split; [done|]).
    split; [|done]. rewrite Hzs, Htt. apply (CACHE_TAGSET_MK Hg), Hr.
  - done.
  - eapply (resident_put c); [done|done|done|done|]. intros t Hin. rewrite Habs in Hin.
    eapply spec_hit_lines in Hin as [Hin|[Hcmd Hin]]; [by eapply lines_resident_of| |].
    { unfold line_of in Hin. rewrite Hv in Hin. injection Hin as <-. rewrite Hzs, Ht, (CACHE_BADDR_MK Hg) by apply Hr. by apply HA. }
    unfold abs_set. rewrite list_lookup_fmap, Hj. simpl. f_equal. by apply line_at_lookup.
  - rewrite Hspec. unfold abs_cache. simpl. by rewrite list_fmap_insert.
  - by rewrite Hspec.
  - intros Hba. exists set', i, b'. simpl. rewrite <- Es, list_lookup_insert_eq by done.
    do 4 (split; [done|]). rewrite Hd'. simpl. rewrite Hba.
    rewrite touch_holds; [by destruct cmd| |]; [rewrite Hdl by done; lia|].
    pose proof (rq_buf _ _ _ _ Hr Hba). lia.
  - intros bytes Hba -> (set0 & i0 & b0 & Hs0 & Hb0 & Ht0 & Hv0 & <-). rewrite <- Es in Hs0. simplify_eq.
    assert (i0 = i) as ->.
    { eapply (wf_tags _ _ _ _ (so_wf _ _ _ _ _ _ Hset)); try done. congruence. }
    simplify_eq. cbn [r_buf]. rewrite Hba. apply touch_read. rewrite Hdl by done. lia.
  - intros addr2 p2 n2 bytes Hr2 Hh2 _ Hdis. destruct (decide (s = Z.to_nat (CACHE_SET (geom c) addr2))) as [E2|Hne].
    2: { by apply (holds_other_set c _ s set'). }
    destruct Hh2 as (set2 & i2 & b2 & Hs2 & Hb2 & Ht2 & Hv2 & Hby). rewrite <- E2 in Hs2. simplify_eq.
    destruct (decide (i2 = i)) as [->|Hne].
    + simplify_eq. exists set', i, b'. simpl. rewrite <- E2, list_lookup_insert_eq by done.
      split; [done|]. split; [done|]. split; [by rewrite Ht'|]. split; [done|]. rewrite Hd'. simpl.
      destruct (balloc c) eqn:Hba; [|done]. specialize (Hdl eq_refl). pose proof (rq_buf _ _ _ _ Hr Hba).
      pose proof (request_offset _ _ _ _ _ _ Hg (cw_bsize _ _ _ Hc) Hr2). pose proof (rq_pos _ _ _ _ Hr2).
      pose proof (same_block c addr addr2 Hg (rq_addr _ _ _ _ Hr) (rq_addr _ _ _ _ Hr2) ltac:(congruence) E2).
      apply touch_elsewhere; [lia|lia|]. intros Hw. specialize (Hdis Hw). lia.
    + destruct (others_kept_lookup i set _ i2 b2 Hkept Hne Hb2) as (b3 & Hb3 & Ht3 & Hv3 & Hd3).
      exists set', i2, b3. simpl. rewrite <- E2, list_lookup_insert_eq by done. rewrite Ht3, Hv3, Hd3. done.
Qed.

Lemma next_requests_hit c cmd addr rnd set i j b :
  sets c !! Z.to_nat (CACHE_SET (geom c) addr) = Some set ->
  set_ok (geom c) (assoc c) (balloc c) (bsize c) (usize c) set -> blks set !! i = Some b -> way_order set !! j = Some i ->
  tag b = CACHE_TAG (geom c) addr -> is_valid b = true -> next_requests c cmd addr rnd = [].
Proof.
  intros Hs Hset Hb Hj Ht Hv. unfold next_requests. simpl. rewrite list_lookup_fmap, Hs.
  cbn [fmap option_fmap option_map default from_option]. unfold id, abs_set.
  by rewrite (find_line_hit (geom c) _ set _ _ i j b (so_wf _ _ _ _ _ _ Hset)).
Qed.

(** A miss. *)
Lemma miss_post c cmd addr p nbytes now rnd set w :
  let s := Z.to_nat (CACHE_SET (geom c) addr) in
  let t := CACHE_TAG (geom c) addr in
  cache_wf c kb ks -> request_ok c addr p nbytes -> handler_ok A Inv c -> Inv w ->
  served A cmd (CACHE_BADDR (geom c) addr) -> resident A c -> sets c !! s = Some set ->
  lookup_result (blks set) t None ->
  exists c' r w', cache_miss c cmd addr s t p nbytes now rnd w = Ok (c', r, w') /\
    access_post c cmd addr p nbytes rnd c' r /\ Inv w' /\
    handled (blk_access_fn c) (bsize c) (next_requests c cmd addr rnd) w w'.
Proof.
  intros s t Hc Hr Hh Hw HA Hres Hs Hmiss.
  destruct (cache_miss_ok c cmd addr p nbytes now rnd set w Hc Hr Hh Hw (proj1 HA) Hres Hs Hmiss)
    as (set' & lat & buf & ud & ra & bf & w' & k & v & E & Hset' & Hw' & Hrnd & Hv & Habs & Hra &
        i & b & d & Hb & Ht & Hvb & Hkept & Hdata & Hq).
  eexists _, _, w'. split; [exact E|].
  pose proof (cw_geom _ _ _ Hc) as Hg. pose proof (Forall_lookup_1 _ _ _ _ (cw_set _ _ _ Hc) Hs) as Hset.
  pose proof (request_offset _ _ _ _ _ _ Hg (cw_bsize _ _ _ Hc) Hr) as [Hlo Hhi]. pose proof (rq_pos _ _ _ _ Hr) as Hpos.
  pose proof (CACHE_SET_range Hg addr) as Hsr. assert (Hzs : Z.of_nat s = CACHE_SET (geom c) addr) by (unfold s; lia).
  assert (Hsl : (s < length (sets c))%nat) by (by eapply lookup_lt_Some).
  assert (Hspec : request_spec c cmd addr rnd =
    ((abs_cache c) <| sp_misses ::= Z.add 1 |>
       <| sp_replacements ::= Z.add (match v with Some _ => 1 | None => 0 end) |>
       <| sp_writebacks ::= Z.add (match v with Some (_, true) => 1 | _ => 0 end) |>
       <| sp_sets ::= <[s := abs_set set']> |>, v)).
  { unfold request_spec. fold s t. rewrite (spec_access_pos _ _ _ _ _ k).
    2: { intros Hp. eapply random_pos_lookup; [done|done|by apply Hrnd]. }
    unfold spec_access. simpl. rewrite list_lookup_fmap, Hs. cbn [fmap option_fmap option_map default].
    pose proof (find_line_miss set (way_order set) t Hmiss) as Hfm. fold (abs_set set) in Hfm.
    unfold default, from_option, id. rewrite Hfm, Hv, Habs. done. }
  split; [|split; [done|]].
  2: { unfold next_requests. fold s t. simpl. rewrite list_lookup_fmap, Hs. cbn [fmap option_fmap option_map default from_option].
    unfold id. pose proof (find_line_miss set (way_order set) t Hmiss) as Hfm. fold (abs_set set) in Hfm.
    by rewrite Hfm, Hspec. }
  split.
  - eapply (cache_wf_put kb ks c); done.
  - done.
  - eapply (resident_put c); [done|done|done|done|]. intros t' Hin. rewrite Habs in Hin.
    apply spec_fill_lines in Hin as [[-> Hd]|Hin]; [|by eapply lines_resident_of].
    fold s. rewrite Hzs. unfold t. rewrite (CACHE_BADDR_MK Hg) by apply Hr. apply HA. by eapply bool_decide_eq_true.
  - rewrite Hspec. unfold abs_cache. simpl. by rewrite list_fmap_insert.
  - rewrite Hspec. simpl. rewrite Hra. destruct v as [[??]|]; [|done]. f_equal. exact Hzs.
  - intros Hba. destruct (Hdata Hba) as (Hdl & Hd & Hbuf). exists set', i, b. simpl.
    rewrite list_lookup_insert_eq by done. do 4 (split; [done|]). rewrite Hd, Hbuf.
    pose proof (rq_buf _ _ _ _ Hr Hba). rewrite touch_holds; [by destruct cmd|lia|lia].
  - intros bytes _ _ (set0 & i0 & b0 & Hs0 & Hb0 & Ht0 & Hv0 & _). fold s in Hs0. simplify_eq.
    simpl in Hmiss. specialize (Hmiss i0). assert (hit_in (blks set) t i0 = true); [|congruence].
    apply hit_in_lookup. eauto.
  - intros addr2 p2 n2 bytes Hr2 Hh2 Hin Hdis. destruct (decide (s = Z.to_nat (CACHE_SET (geom c) addr2))) as [E2|Hne].
    2: { by apply (holds_other_set c _ s set'). }
    destruct Hh2 as (set2 & i2 & b2 & Hs2 & Hb2 & Ht2 & Hv2 & Hby). rewrite <- E2 in Hs2. simplify_eq.
    assert (Hne : i2 <> i).
    { intros ->. destruct Hin as (set3 & i3 & b3 & Hs3 & Hb3 & Ht3 & Hv3). simpl in Hs3, Ht3.
      rewrite <- E2, list_lookup_insert_eq in Hs3 by done. injection Hs3 as <-.
      assert (Htt : CACHE_TAG (geom c) addr2 <> t).
      { intros Heq. simpl in Hmiss. specialize (Hmiss i). assert (hit_in (blks set) t i = true); [|congruence].
        apply hit_in_lookup. exists b2. rewrite <- Heq. done. }
      assert (i3 <> i) as Hi3 by (intros ->; apply Htt; unfold t; congruence).
      specialize (Hkept i3 Hi3) as Hk3. rewrite Hb3 in Hk3. destruct (blks set !! i3) as [b4|] eqn:Hb4; [|done].
      destruct (core_eq b3 b4) as (Ht4 & Hv4 & _); [by apply (inj Some) in Hk3|].
      apply Hi3. eapply (wf_tags _ _ _ _ (so_wf _ _ _ _ _ _ Hset)); try done; congruence. }
    destruct (others_kept_lookup i set _ i2 b2 Hkept Hne Hb2) as (b3 & Hb3 & Ht3 & Hv3 & Hd3).
    exists set', i2, b3. simpl. rewrite <- E2, list_lookup_insert_eq by done. rewrite Ht3, Hv3, Hd3. done.
Qed.

(** A request for which the code's checks pass and its fast path finds a block:
    the last block of the address space fails the check of its end address,
    computed modulo 2^32, and block 0 is confused with "no last block". *)
Definition addressable c (addr : Z) : Prop :=
  CACHE_BADDR (geom c) addr + bsize c < 2 ^ 32 /\ (last_blk c = None -> CACHE_TAGSET (geom c) addr <> 0).

Lemma request_checks c addr p nbytes :
  cache_wf c kb ks -> request_ok c addr p nbytes -> CACHE_BADDR (geom c) addr + bsize c < 2 ^ 32 ->
  fatal_if (not_pow2 nbytes || negb (Z.land addr (nbytes - 1) =? 0)) = Ok tt /\
  fatal_if (u32 (Z.land addr (u32_not (blk_mask (geom c))) + bsize c) <? u32 (addr + nbytes)) = Ok tt.
Proof.
  intros Hc Hr Hlast. pose proof (cw_geom _ _ _ Hc) as Hg. pose proof (rq_addr _ _ _ _ Hr) as Ha.
  split; apply fatal_if_false.
  - by rewrite (rq_pow _ _ _ _ Hr), (rq_align _ _ _ _ Hr).
  - fold (CACHE_BADDR (geom c) addr). rewrite (CACHE_BADDR_sub Hg) in * by done.
    pose proof (request_offset _ _ _ _ _ _ Hg (cw_bsize _ _ _ Hc) Hr) as [Hlo Hhi].
    rewrite (CACHE_BLK_mod Hg) in Hlo, Hhi. pose proof (rq_pos _ _ _ _ Hr).
    pose proof (gw_kb _ _ _ Hg). pose proof (pow2_pos kb ltac:(lia)).
    pose proof (Z.mod_le addr (2 ^ kb) ltac:(lia) ltac:(lia)).
    rewrite (cw_bsize _ _ _ Hc) in *. rewrite !u32_small by lia. blia.
Qed.

Lemma access_requests c cmd addr p nbytes now rnd w :
  cache_wf c kb ks -> request_ok c addr p nbytes -> addressable c addr ->
  handler_ok A Inv c -> Inv w -> served A cmd (CACHE_BADDR (geom c) addr) -> resident A c ->
  exists c' r w', cache_access c cmd addr p nbytes now rnd w = Ok (c', r, w') /\
    access_post c cmd addr p nbytes rnd c' r /\ Inv w' /\
    handled (blk_access_fn c) (bsize c) (next_requests c cmd addr rnd) w w'.
Proof.
  intros Hc Hr [Hlast Hfast] Hh Hw HA Hres. pose proof (cw_geom _ _ _ Hc) as Hg.
  destruct (request_checks c addr p nbytes Hc Hr Hlast) as [E1 E2].
  unfold cache_access. cbv zeta. rewrite E1. cbn [mbind outcome_bind]. rewrite E2. cbn [mbind outcome_bind].
  destruct (set_lookup kb ks c addr Hc) as (set & Hs & Hset).
  destruct (Z.eqb_spec (CACHE_TAGSET (geom c) addr) (last_tagset c)) as [Hts|Hts].
  - pose proof (cw_last _ _ _ Hc) as Hl. destruct (last_blk c) as [[s0 i]|].
    2: { destruct (Hfast eq_refl). congruence. }
    destruct Hl as (set0 & b & Hs0 & Hb & Hv & Hmk & Hhd). cbn [deref mbind outcome_bind].
    pose proof (Forall_lookup_1 _ _ _ _ (cw_set _ _ _ Hc) Hs0) as Hset0.
    pose proof (CACHE_SET_range Hg addr) as Hsr. pose proof (lookup_lt_Some _ _ _ Hs0) as Hs0l.
    rewrite (cw_sets _ _ _ Hc), (cw_nsets _ _ _ Hc) in Hs0l.
    destruct (CACHE_MK_BADDR_inj Hg (tag b) (Z.of_nat s0) (CACHE_TAG (geom c) addr) (CACHE_SET (geom c) addr))
      as [Ht Hss].
    + by apply (Forall_lookup_1 _ _ _ _ (set_ok_blks _ _ _ _ _ _ Hset0) Hb).
    + pose proof (pow2_pos ks (gw_ks _ _ _ Hg)). lia.
    + apply (CACHE_TAG_range Hg), Hr.
    + done.
    + rewrite (CACHE_TAGSET_MK Hg) by apply Hr. congruence.
    + assert (Es : s0 = Z.to_nat (CACHE_SET (geom c) addr)) by lia.
      assert (set0 = set) as -> by congruence.
      destruct (order_lookup _ _ _ _ _ _ _ _ Hset Hb) as [j Hj].
      destruct (cache_fast_hit_ok kb ks c cmd addr p nbytes now s0 set i j b Hc Hr Hs0 Hset Hb Hj Hhd)
        as (set' & b' & E & Hset' & Habs & Hlru & Hb' & Hst & Hkept).
      rewrite E. cbn [mbind outcome_bind]. eexists _, _, w. split; [reflexivity|]. split; [by eapply hit_post|]. split; [done|].
      rewrite (next_requests_hit c cmd addr rnd set i j b); [constructor|by rewrite <- ?Es|done..].
  - rewrite (c_get_some _ _ _ Hs). cbn [mbind outcome_bind].
    destruct (lookup_blk_spec (geom c) set (way_order set) (CACHE_TAG (geom c) addr) (so_wf _ _ _ _ _ _ Hset)
      (gw_hsize _ _ _ Hg)) as (res & E & Hres0).
    rewrite E. cbn [mbind outcome_bind]. destruct res as [i|].
    + apply hit_in_lookup in Hres0 as (b & Hb & Ht & Hv).
      destruct (order_lookup _ _ _ _ _ _ _ _ Hset Hb) as [j Hj].
      destruct (cache_hit_ok kb ks c cmd addr p nbytes now _ set i j b Hc Hr Hs Hset Hb Hj)
        as (set' & b' & E3 & Hset' & Habs & Hlru & Hb' & Hst & Hkept).
      rewrite E3. cbn [mbind outcome_bind]. eexists _, _, w. split; [reflexivity|]. split; [by eapply hit_post|]. split; [done|].
      rewrite (next_requests_hit c cmd addr rnd set i j b); [constructor|by rewrite <- ?Es|done..].
    + by apply (miss_post c cmd addr p nbytes now rnd set w).
Qed.

Lemma access_correct c cmd addr p nbytes now rnd w :
  cache_wf c kb ks -> request_ok c addr p nbytes -> addressable c addr ->
  handler_ok A Inv c -> Inv w -> served A cmd (CACHE_BADDR (geom c) addr) -> resident A c ->
  exists c' r w', cache_access c cmd addr p nbytes now rnd w = Ok (c', r, w') /\
    access_post c cmd addr p nbytes rnd c' r /\ Inv w'.
Proof.
  intros Hc Hr Had Hh Hw HA Hres. destruct (access_requests c cmd addr p nbytes now rnd w Hc Hr Had Hh Hw HA Hres)
    as (c' & r & w' & E & Hp & Hw' & _). by exists c', r, w'.
Qed.

End Correct.
