(* ===== verification/CacheFlush.v ===== *)
(** cache_probe, cache_flush_addr and cache_flush. *)

From S2P Require Import Prelude Dll Misc Memory Cache CacheSet CacheSpec CacheAccess CacheRefine CacheCorrect.

(** The abstract flush of everything. *)
Definition valid_lines (ls : list line) : Z := Z.of_nat (length (filter (fun x => x <> None) ls)).

Definition spec_flush (sc : spec_cache) : spec_cache :=
  sc <| sp_sets := (fun ls => replicate (length ls) None) <$> sp_sets sc |>
     <| sp_invalidations ::= Z.add (foldr Z.add 0 (valid_lines <$> sp_sets sc)) |>.

(** An invalidated block keeps its tag, its links and its dirty bit. *)
Lemma invalidate_status (b : cache_blk) :
  is_valid (invalidate b) = false /\ is_dirty (invalidate b) = is_dirty b.
Proof.
  unfold is_valid, is_dirty, invalidate. simpl. rewrite <- !Z.land_assoc.
  split; [|done]. change (Z.land (u32_not CACHE_BLK_VALID) CACHE_BLK_VALID) with 0. by rewrite Z.land_0_r.
Qed.

(** Invalidating one block of a set. *)
Lemma invalid_ok (g : geometry) (assoc : Z) (ba : bool) (bsz usz : Z) (set : cache_set) (i j : nat) (b b' : cache_blk) :
  set_ok g assoc ba bsz usz set -> blks set !! i = Some b -> way_order set !! j = Some i ->
  way_prev b' = way_prev b -> way_next b' = way_next b -> hash_next b' = hash_next b -> tag b' = tag b ->
  is_valid b' = false -> blk_ok g ba bsz usz b' ->
  set_ok g assoc ba bsz usz (set <| blks ::= <[i := b']> |>) /\
  way_order (set <| blks ::= <[i := b']> |>) = way_order set /\
  abs_set (set <| blks ::= <[i := b']> |>) = <[j := None]> (abs_set set).
Proof.
  intros Hs Hb Hj Hp Hn Hh Ht Hv Hok. destruct (so_wf _ _ _ _ _ _ Hs) as [(Hnd & Hhd & Htl & Hds) Hperm Hhash Huniq].
  assert (Hil : (i < length (blks set))%nat) by (by eapply lookup_lt_Some).
  assert (Hview : forall {C : Type} (v : cache_blk -> C), v b' = v b ->
    forall k, v <$> <[i := b']> (blks set) !! k = v <$> blks set !! k).
  { intros C v Hvv k. destruct (decide (i = k)) as [<-|Hne].
    - rewrite list_lookup_insert_eq, Hb by done. simpl. by f_equal.
    - by rewrite list_lookup_insert_ne. }
  destruct (set_ok_intro g assoc ba bsz usz (set <| blks := <[i := b']> (blks set) |>) (way_order set)) as [Hs' Ho].
  - simpl. rewrite length_insert. apply Hs.
  - split; simpl.
    + do 3 (split; [done|]). eapply dllseg_frame; [|exact Hds]. intros k _. apply Hview. simpl. congruence.
    + by rewrite length_insert.
    + apply (hash_ok_view g _ set); [done| |done]. apply Hview. congruence.
    + intros x y c d Hx Hy Hvc Hvd Htt. apply (Huniq x y c d); try done.
      * rewrite list_lookup_insert_ne in Hx; [done|]. intros <-.
        rewrite list_lookup_insert_eq in Hx by done. congruence.
      * rewrite list_lookup_insert_ne in Hy; [done|]. intros <-.
        rewrite list_lookup_insert_eq in Hy by done. congruence.
  - simpl. apply Forall_insert; [by eapply set_ok_blks|done].
  - split; [exact Hs'|]. split; [exact Ho|]. unfold abs_set.
    change (way_order (set <| blks ::= <[i := b']> |>)) with (way_order (set <| blks := <[i := b']> (blks set) |>)).
    rewrite Ho. simpl. rewrite (lines_insert _ _ i j) by done.
    f_equal. unfold line_of. by rewrite Hv.
Qed.

(** Without its line, a tag is not found. *)
Lemma lines_unique (g : geometry) (assoc : Z) (ba : bool) (bsz usz : Z) (set : cache_set) (t : Z) :
  set_ok g assoc ba bsz usz set -> forall j x, find_line t (abs_set set) = Some (j, x) ->
  find_line t (remove_at j (abs_set set) ++ [None]) = None.
Proof.
  intros Hs j x Hf. apply list_find_Some in Hf as (Hj & Hx & _). pose proof (so_wf _ _ _ _ _ _ Hs) as Hwf.
  destruct (wf_ways _ _ _ _ Hwf) as (Hnd & _). unfold abs_set in Hj.
  rewrite list_lookup_fmap in Hj. destruct (way_order set !! j) as [i|] eqn:Hi; [|done]. injection Hj as <-.
  apply list_find_None, Forall_app. split; [|by apply Forall_singleton].
  unfold abs_set. rewrite <- fmap_remove_at, <- (without_remove_at _ i) by done.
  apply Forall_fmap, Forall_forall. intros k Hk Hy. apply without_elem in Hk as [_ Hk]. apply Hk.
  unfold line_at in *. simpl in Hy. destruct (blks set !! i) as [b|] eqn:Hb; [|done].
  destruct (blks set !! k) as [d|] eqn:Hd; [|done]. apply line_tag_of in Hx as [? ?], Hy as [? ?].
  eapply (wf_tags _ _ _ _ Hwf); try done. congruence.
Qed.

Section Flush.
Context {W : Type} (A : mem_cmd -> Z -> Prop) (Inv : W -> Prop) (kb ks : Z).
Implicit Types (c : cache W) (set : cache_set) (s i j : nat) (b : cache_blk).

(** The body of the flush loops, on a valid block. *)
Lemma flush_blk_ok c s set i j b lat now w :
  handler_ok A Inv c -> Inv w -> sets c !! s = Some set ->
  set_ok (geom c) (assoc c) (balloc c) (bsize c) (usize c) set ->
  blks set !! i = Some b -> way_order set !! j = Some i ->
  (is_dirty b = true -> A Write (CACHE_MK_BADDR (geom c) (tag b) (Z.of_nat s))) ->
  exists set' lat' w',
    flush_blk c s i lat now w = Ok (put_set (c <| invalidations ::= Z.add 1 |>) s set', lat', w') /\ Inv w' /\
    set_ok (geom c) (assoc c) (balloc c) (bsize c) (usize c) set' /\ way_order set' = way_order set /\
    abs_set set' = <[j := None]> (abs_set set).
Proof.
  intros Hh Hw Hs Hset Hb Hj HA. unfold flush_blk. cbv zeta. set (c1 := c <| invalidations ::= Z.add 1 |>).
  destruct (invalidate_status b) as [Hv Hd].
  assert (Hil : (i < length (blks set))%nat) by (by eapply lookup_lt_Some).
  rewrite (upd_blk_ok c1 s i set b) by done. cbn [mbind outcome_bind].
  assert (Hs1 : forall x, sets (put_set c1 s x) !! s = Some x) by (intros x; by apply (put_set_lookup c1 s set)).
  assert (Hi1 : forall x, blks (set <| blks := <[i := x]> (blks set) |>) !! i = Some x)
    by (intros x; by apply list_lookup_insert_eq).
  rewrite (get_blk_ok _ _ _ _ _ (Hs1 _) (Hi1 _)). cbn [mbind outcome_bind].
  pose proof (Forall_lookup_1 _ _ _ _ (set_ok_blks _ _ _ _ _ _ Hset) Hb) as Hbo.
  destruct (is_dirty (invalidate b)).
  - edestruct (Hh Write (CACHE_MK_BADDR (geom c) (tag b) (Z.of_nat s)) (user_data b) (data b)) as (l & d & w' & E & Hl & Hw');
      [by apply HA|apply Hbo|exact Hw|].
    simpl in E |- *. rewrite E. cbn [mbind outcome_bind].
    erewrite upd_blk_ok; [|by apply (put_set_lookup c1 s set)|simpl; by apply list_lookup_insert_eq].
    cbn [mbind outcome_bind].
    rewrite put_set_put. simpl. rewrite list_insert_insert_eq.
    destruct (invalid_ok (geom c) (assoc c) (balloc c) (bsize c) (usize c) set i j b (invalidate b <| data := d |>) Hset Hb Hj)
      as (Hset' & Ho & Ha); try done.
    { destruct Hbo as (? & ? & ?). split; [done|]. split; [|done]. simpl. by rewrite Hl. }
    eexists _, _, w'. split; [reflexivity|done].
  - destruct (invalid_ok (geom c) (assoc c) (balloc c) (bsize c) (usize c) set i j b (invalidate b) Hset Hb Hj)
      as (Hset' & Ho & Ha); try done.
    eexists _, _, w. split; [reflexivity|done].
Qed.

(** An empty line more in a set keeps the cache resident. *)
Lemma lines_resident_none (g : geometry) s j (ls : list line) :
  lines_resident A g s ls -> lines_resident A g s (<[j := None]> ls).
Proof. intros H t Hin. apply elem_insert in Hin as [?|Hin]; [done|by eapply H]. Qed.

Lemma access_lookup c addr :
  cache_wf c kb ks -> exists set r, sets c !! Z.to_nat (CACHE_SET (geom c) addr) = Some set /\
    set_ok (geom c) (assoc c) (balloc c) (bsize c) (usize c) set /\
    lookup_blk (geom c) set (CACHE_TAG (geom c) addr) = Ok r /\
    lookup_result (blks set) (CACHE_TAG (geom c) addr) r.
Proof.
  intros Hc. destruct (set_lookup kb ks c addr Hc) as (set & Hs & Hset).
  destruct (lookup_blk_spec (geom c) set (way_order set) (CACHE_TAG (geom c) addr) (so_wf _ _ _ _ _ _ Hset)
      (gw_hsize _ _ _ (cw_geom _ _ _ Hc))) as (res & E & Hres0). eauto 10.
Qed.

(** A probe says whether the abstract set has the line. *)
Lemma probe_correct c addr :
  cache_wf c kb ks ->
  cache_probe c addr = Ok (bool_decide (is_Some
    (find_line (CACHE_TAG (geom c) addr) (default [] (sp_sets (abs_cache c) !! Z.to_nat (CACHE_SET (geom c) addr)))))).
Proof.
  intros Hc. destruct (access_lookup c addr Hc) as (set & r & Hs & Hset & E & Hr).
  unfold cache_probe. rewrite (c_get_some _ _ _ Hs). cbn [mbind outcome_bind]. rewrite E. cbn [mbind outcome_bind].
  simpl sp_sets. rewrite list_lookup_fmap, Hs. simpl. f_equal.
  destruct r as [i|].
  - apply hit_in_lookup in Hr as (b & Hb & Ht & Hv). destruct (order_lookup _ _ _ _ _ _ _ _ Hset Hb) as [j Hj].
    unfold abs_set. by rewrite (find_line_hit (geom c) _ set _ _ i j b (so_wf _ _ _ _ _ _ Hset)).
  - unfold abs_set. by rewrite (find_line_miss _ _ _ Hr).
Qed.

Lemma flush_addr_correct c addr now w :
  cache_wf c kb ks -> handler_ok A Inv c -> Inv w -> resident A c ->
  exists c' lat w', cache_flush_addr c addr now w = Ok (c', lat, w') /\
    cache_wf c' kb ks /\ params c' = params c /\ resident A c' /\ Inv w' /\
    abs_cache c' = spec_flush_addr (CACHE_TAG (geom c) addr) (Z.to_nat (CACHE_SET (geom c) addr)) (abs_cache c).
Proof.
  intros Hc Hh Hw Hres. destruct (access_lookup c addr Hc) as (set & r & Hs & Hset & E & Hr).
  set (s := Z.to_nat (CACHE_SET (geom c) addr)) in *. set (t := CACHE_TAG (geom c) addr) in *.
  unfold cache_flush_addr. cbv zeta. fold s t. rewrite (c_get_some _ _ _ Hs). cbn [mbind outcome_bind].
  rewrite E. cbn [mbind outcome_bind]. unfold spec_flush_addr. simpl sp_sets. rewrite list_lookup_fmap, Hs.
  cbn [fmap option_fmap option_map default from_option]. unfold id.
  destruct r as [i|].
  - apply hit_in_lookup in Hr as (b & Hb & Ht & Hv). destruct (order_lookup _ _ _ _ _ _ _ _ Hset Hb) as [j Hj].
    assert (Hf : find_line t (abs_set set) = Some (j, line_of b))
      by (unfold abs_set; by apply (find_line_hit (geom c) _ set _ _ i j b (so_wf _ _ _ _ _ _ Hset))).
    rewrite Hf.
    set (c0 := c <| last_tagset := 0 |> <| last_blk := None |>).
    destruct (flush_blk_ok c0 s set i j b
      (s32 (hit_latency c)) now w Hh Hw Hs Hset Hb Hj)
      as (set1 & lat1 & w1 & E1 & Hw1 & Hset1 & Ho1 & Ha1); [by eapply Hres|].
    rewrite E1. cbn [mbind outcome_bind].
    destruct (update_way_list_ok (geom c) (assoc c) (balloc c) (bsize c) (usize c) set1 i j Tail Hset1)
      as (set2 & E2 & Hset2 & Ho2 & Ha2 & Hst2); [by rewrite Ho1|].
    assert (Hs1 : forall c x, sets c !! s = Some set -> sets (put_set c s x) !! s = Some x)
      by (intros; by apply (put_set_lookup _ s set)).
    rewrite (upd_set_ok _ _ set1 _ set2) by (done || by apply Hs1). cbn [mbind outcome_bind].
    rewrite put_set_put. eexists _, _, w1. split; [reflexivity|].
    assert (Habs : abs_set set2 = remove_at j (abs_set set) ++ [None]).
    { rewrite Ha2, Ha1. unfold spec_move. rewrite remove_at_insert. do 2 f_equal.
      rewrite list_lookup_insert_eq; [done|]. unfold abs_set. rewrite length_fmap. by eapply lookup_lt_Some. }
    split; [|split; [done|split; [|split; [done|]]]].
    + by eapply (cache_wf_put kb ks c).
    + eapply (resident_put A c); [done|done|done|done|]. rewrite Habs.
      intros t' Hin. apply elem_of_app in Hin as [Hin|Hin]; [|by apply list_elem_of_singleton in Hin].
      eapply (lines_resident_of A kb ks c s set); [done|done|done|by eapply elem_remove_at].
    + unfold abs_cache. simpl. by rewrite list_fmap_insert, Habs.
  - assert (Hf : find_line t (abs_set set) = None) by (unfold abs_set; by apply find_line_miss).
    rewrite Hf. by eexists _, _, w.
Qed.

End Flush.

(** * Flushing everything *)

Section FlushAll.
Context {W : Type} (A : mem_cmd -> Z -> Prop) (Inv : W -> Prop) (kb ks : Z).
Implicit Types (c : cache W) (set : cache_set) (s i j : nat) (b : cache_blk).

Notation set_okc c := (set_ok (geom c) (assoc c) (balloc c) (bsize c) (usize c)).

(** [c] with set [s] flushed to [set'] and [n] blocks invalidated. *)
Definition flushed c s (n : Z) set' : cache W := put_set (c <| invalidations ::= Z.add n |>) s set'.

Lemma flushed_flushed c s n m set set' : flushed (flushed c s n set) s m set' = flushed c s (m + n) set'.
Proof. unfold flushed, put_set. simpl. by rewrite list_insert_insert_eq, Z.add_assoc. Qed.

Lemma flushed_0 c s set : sets c !! s = Some set -> flushed c s 0 set = c.
Proof. intros H. unfold flushed. rewrite put_set_id by done. by destruct c. Qed.

Lemma valid_resident c s set i b :
  set_okc c set -> lines_resident A (geom c) s (abs_set set) -> blks set !! i = Some b -> is_valid b = true -> is_dirty b = true ->
  A Write (CACHE_MK_BADDR (geom c) (tag b) (Z.of_nat s)).
Proof.
  intros Hset HA Hb Hv Hd. apply HA. pose proof (blk_line _ _ _ _ _ _ _ _ Hset Hb) as Hl.
  unfold line_of in Hl. by rewrite Hv, Hd in Hl.
Qed.

Lemma valid_lines_cons (x : line) (ls : list line) :
  valid_lines (x :: ls) = b2z (bool_decide (x <> None)) + valid_lines ls.
Proof.
  unfold valid_lines. rewrite filter_cons. case_decide; case_bool_decide; try tauto; cbn [b2z length].
  rewrite Nat2Z.inj_succ, <- Z.add_1_l. done.
Qed.

(** One more line of the set is empty. *)
Lemma lines_step (f g : nat -> line) (l1 : list nat) (i : nat) (l2 : list nat) :
  f <$> (l1 ++ i :: l2) = <[length l1 := None]> (g <$> (l1 ++ i :: l2)) ->
  f <$> (l1 ++ [i]) = (g <$> l1) ++ [None] /\ f <$> l2 = g <$> l2.
Proof.
  rewrite !fmap_app, !fmap_cons, <- (length_fmap g l1), <- (Nat.add_0_r (length (g <$> l1))), insert_app_r. simpl.
  intros H. apply app_inj_1 in H as [-> H]; [|by rewrite !length_fmap]. injection H as -> H. done.
Qed.

Lemma flush_ways_ok (l2 : list nat) : forall l1 fuel c s set lat now w,
  handler_ok A Inv c -> Inv w -> sets c !! s = Some set -> set_okc c set -> way_order set = l1 ++ l2 ->
  lines_resident A (geom c) s (abs_set set) ->
  (length l2 < fuel)%nat ->
  exists set' lat' w',
    flush_ways fuel c s (hd_or l2 None) lat now w =
      Ok (flushed c s (valid_lines (line_at (blks set) <$> l2)) set', lat', w') /\ Inv w' /\
    set_okc c set' /\ way_order set' = way_order set /\
    abs_set set' = (line_at (blks set) <$> l1) ++ replicate (length l2) None.
Proof.
  induction l2 as [|i l2 IH]; intros l1 [|fuel] c s set lat now w Hh Hw Hs Hset Ho HA Hf; simpl in Hf; try lia.
  - exists set, lat, w. simpl. change (valid_lines []) with 0. rewrite flushed_0 by done.
    do 4 (split; [done|]). unfold abs_set. by rewrite Ho, !app_nil_r.
  - assert (Hj : way_order set !! length l1 = Some i) by (by rewrite Ho, list_lookup_middle).
    destruct (order_blk _ _ _ _ _ _ _ _ Hset Hj) as [b Hb]. cbn [hd_or flush_ways].
    rewrite (get_blk_ok _ _ _ _ _ Hs Hb). cbn [mbind outcome_bind].
    assert (Hstep : exists set1 lat1 w1,
      (if is_valid b then flush_blk c s i lat now w else Ok (c, lat, w)) =
        Ok (flushed c s (b2z (is_valid b)) set1, lat1, w1) /\ Inv w1 /\ set_okc c set1 /\
      way_order set1 = way_order set /\ abs_set set1 = <[length l1 := None]> (abs_set set)).
    { destruct (is_valid b) eqn:Hv.
      - destruct (flush_blk_ok A Inv c s set i (length l1) b lat now w Hh Hw Hs Hset Hb Hj)
          as (set1 & lat1 & w1 & E1 & Hrest); [by eapply valid_resident|]. by exists set1, lat1, w1.
      - exists set, lat, w. simpl. rewrite flushed_0 by done. do 4 (split; [done|]).
        symmetry. apply list_insert_id. unfold abs_set. rewrite list_lookup_fmap, Hj. simpl.
        rewrite (line_at_lookup _ _ _ Hb). unfold line_of. by rewrite Hv. }
    destruct Hstep as (set1 & lat1 & w1 & E1 & Hw1 & Hset1 & Ho1 & Ha1). rewrite E1. cbn [mbind outcome_bind].
    assert (Hs1 : sets (flushed c s (b2z (is_valid b)) set1) !! s = Some set1) by (by apply (put_set_lookup _ s set)).
    destruct (order_blk _ _ _ _ _ set1 i (length l1) Hset1) as [b1 Hb1]; [by rewrite Ho1|].
    rewrite (get_blk_ok _ _ _ _ _ Hs1 Hb1). cbn [mbind outcome_bind].
    assert (Hn : way_next b1 = hd_or l2 None).
    { destruct (wf_ways _ _ _ _ (so_wf _ _ _ _ _ _ Hset1)) as (_ & _ & _ & Hds). rewrite Ho1, Ho in Hds.
      apply dllseg_app in Hds as [_ (b' & Hb' & _ & Hn & _)]. simpl in Hn. congruence. }
    rewrite Hn.
    assert (Hlines := Ha1). unfold abs_set in Hlines. rewrite Ho1, Ho in Hlines.
    apply lines_step in Hlines as [Hl1 Hl2].
    edestruct (IH (l1 ++ [i]) fuel (flushed c s (b2z (is_valid b)) set1) s set1 lat1 now w1)
      as (set' & lat' & w' & E' & Hw' & Hset' & Ho' & Ha'); [exact Hh|exact Hw1|exact Hs1|exact Hset1| | |lia|].
    { rewrite Ho1, Ho. by rewrite <- app_assoc. }
    { rewrite Ha1. by apply lines_resident_none. }
    exists set', lat', w'. split; [|split; [done|split; [done|split; [congruence|]]]].
    + rewrite E', flushed_flushed. do 4 f_equal. rewrite fmap_cons, valid_lines_cons, Hl2, Z.add_comm. f_equal.
      rewrite (line_at_lookup _ _ _ Hb). unfold line_of. by destruct (is_valid b).
    + rewrite Ha', Hl1, <- app_assoc. done.
Qed.

Lemma flush_sets_ok (n : nat) : forall m c lat now w,
  cache_wf c kb ks -> last_blk c = None -> handler_ok A Inv c -> Inv w -> resident A c ->
  (m + n = length (sets c))%nat ->
  Forall (fun set => abs_set set = replicate (Z.to_nat (assoc c)) None) (take m (sets c)) ->
  exists c' lat' w', flush_sets c (seq m n) lat now w = Ok (c', lat', w') /\ cache_wf c' kb ks /\ Inv w' /\
    params c' = params c /\ resident A c' /\
    last_blk c' = None /\
    (hits c', misses c', replacements c', writebacks c') = (hits c, misses c, replacements c, writebacks c) /\
    abs_set <$> sets c' = replicate (length (sets c)) (replicate (Z.to_nat (assoc c)) None) /\
    invalidations c' = foldr Z.add 0 (valid_lines <$> (abs_set <$> drop m (sets c))) + invalidations c.
Proof.
  induction n as [|n IH]; intros m c lat now w Hc Hlast Hh Hw Hres Hmn Hall.
  - exists c, lat, w. rewrite drop_ge by lia. rewrite take_ge in Hall by lia. do 7 (split; [done|]).
    split; [|simpl; lia]. apply list_eq. intros k. rewrite list_lookup_fmap.
    destruct (sets c !! k) as [set|] eqn:Hk; simpl.
    + rewrite lookup_replicate_2 by (by eapply lookup_lt_Some). f_equal. by apply (Forall_lookup_1 _ _ _ _ Hall Hk).
    + symmetry. apply lookup_ge_None. rewrite length_replicate. by apply lookup_ge_None.
  - cbn [seq flush_sets]. destruct (lookup_lt_is_Some_2 (sets c) m) as [set Hs]; [lia|].
    pose proof (Forall_lookup_1 _ _ _ _ (cw_set _ _ _ Hc) Hs) as Hset.
    rewrite (c_get_some _ _ _ Hs). cbn [mbind outcome_bind].
    assert (Hhd : way_head set = hd_or (way_order set) None).
    { by destruct (wf_ways _ _ _ _ (so_wf _ _ _ _ _ _ Hset)) as (_ & ? & _). }
    destruct (flush_ways_ok (way_order set) [] (S (length (blks set))) c m set lat now w)
      as (set' & lat1 & w1 & E1 & Hw1 & Hset' & Ho' & Ha'); try done.
    { by eapply lines_resident_of. }
    { rewrite (order_length _ _ _ _ _ _ Hset), (so_len _ _ _ _ _ _ Hset). lia. }
    rewrite Hhd, E1. cbn [mbind outcome_bind]. simpl in Ha'. rewrite (order_length _ _ _ _ _ _ Hset) in Ha'.
    fold (abs_set set). set (c1 := flushed c m (valid_lines (abs_set set)) set').
    assert (Hml : (m < length (sets c))%nat) by (by eapply lookup_lt_Some).
    assert (Hc1 : cache_wf c1 kb ks).
    { apply (cache_wf_put kb ks c c1 m set'); [done|done|done|done|]. unfold last_ok.
      change (last_blk c1) with (last_blk c). rewrite Hlast.
      pose proof (cw_last _ _ _ Hc) as Hl. by rewrite Hlast in Hl. }
    assert (Hr1 : resident A c1).
    { eapply (resident_put A c c1 m set'); [done|done|done|done|]. rewrite Ha'. intros t Hin.
      apply elem_of_replicate in Hin as [? _]. done. }
    destruct (IH (S m) c1 lat1 now w1 Hc1 Hlast Hh Hw1 Hr1)
      as (c' & lat' & w' & E' & Hc' & Hw' & Hp' & Hr' & Hl' & Hcnt & Habs & Hinv).
    + unfold c1, flushed, put_set. simpl. rewrite length_insert. lia.
    + unfold c1, flushed, put_set. simpl. rewrite (take_S_r _ _ set') by (by apply list_lookup_insert_eq).
      rewrite take_insert_ge by lia. apply Forall_app. split; [done|]. by apply Forall_singleton.
    + exists c', lat', w'. do 3 (split; [done|]). split; [by rewrite Hp'|]. do 3 (split; [done|]). split.
      * rewrite Habs. unfold c1, flushed, put_set. simpl. by rewrite length_insert.
      * rewrite Hinv. unfold c1, flushed, put_set. simpl. rewrite drop_insert_lt by lia.
        rewrite (drop_S _ _ _ Hs). rewrite !fmap_cons. cbn [foldr]. by rewrite Z.add_assoc, (Z.add_comm (foldr _ _ _)).
Qed.

Lemma flush_correct c now w :
  cache_wf c kb ks -> handler_ok A Inv c -> Inv w -> resident A c ->
  exists c' lat w', cache_flush c now w = Ok (c', lat, w') /\
    cache_wf c' kb ks /\ params c' = params c /\ resident A c' /\ Inv w' /\ abs_cache c' = spec_flush (abs_cache c).
Proof.
  intros Hc Hh Hw Hres. unfold cache_flush. cbv zeta. set (c0 := c <| last_tagset := 0 |> <| last_blk := None |>).
  assert (Hc0 : cache_wf c0 kb ks) by (destruct Hc; split; done).
  destruct (flush_sets_ok (Z.to_nat (nsets c)) 0 c0 (s32 (hit_latency c)) now w Hc0 eq_refl Hh Hw Hres)
    as (c' & lat' & w' & E' & Hc' & Hw' & Hp' & Hr' & Hl' & Hcnt & Habs & Hinv); [|done|].
  { symmetry. apply (cw_sets _ _ _ Hc). }
  change (nsets c0) with (nsets c). rewrite E'. cbn [mbind outcome_bind]. eexists _, _, w'. split; [reflexivity|]. do 4 (split; [done|]).
  unfold abs_cache, spec_flush. injection Hcnt as E1 E2 E3 E4. simpl. rewrite Habs, Hinv, E1, E2, E3, E4.
  simpl. f_equal. apply list_eq. intros k. rewrite !list_lookup_fmap.
  destruct (sets c !! k) as [set|] eqn:Hk; simpl.
  - rewrite lookup_replicate_2 by (by eapply lookup_lt_Some). do 2 f_equal. unfold abs_set.
    by rewrite length_fmap, (order_length _ _ _ _ _ _ (Forall_lookup_1 _ _ _ _ (cw_set _ _ _ Hc) Hk)).
  - apply lookup_ge_None. rewrite length_replicate. by apply lookup_ge_None.
Qed.

End FlushAll.
