(* ===== verification/CacheProps.v ===== *)
(** The properties of the caches: refinement of the abstract cache, data
    transparency, probes and flushes, LRU inclusion, and two requests the code
    does not serve. *)

From S2P Require Import Prelude Dll Misc Memory Cache CacheSet CacheSpec CacheAccess CacheRefine CacheInit CacheCorrect CacheFlush.

(** * Sequences of requests *)

Record request := mk_request {
  q_cmd : mem_cmd;
  q_addr : Z;
  q_buf : list Z;
  q_nbytes : Z;
  q_now : Z;
  q_rnd : Z;
}.

Section Sequences.
Context {W : Type} (A : mem_cmd -> Z -> Prop) (Inv : W -> Prop) (kb ks : Z).
Implicit Types (c : cache W).

Fixpoint access_all c (qs : list request) (w : W) : outcome (cache W * W) :=
  match qs with
  | [] => Ok (c, w)
  | q :: qs' =>
      '(c, _, w) ← cache_access c (q_cmd q) (q_addr q) (q_buf q) (q_nbytes q) (q_now q) (q_rnd q) w;
      access_all c qs' w
  end.

(** A request any cache of these block and set sizes serves. *)
Definition servable (q : request) : Prop :=
  0 <= q_addr q < 2 ^ 32 /\ 0 < q_nbytes q /\ not_pow2 (q_nbytes q) = false /\
  Z.land (q_addr q) (q_nbytes q - 1) = 0 /\ q_nbytes q <= 2 ^ kb /\
  q_nbytes q <= Z.of_nat (length (q_buf q)) /\
  2 ^ kb <= q_addr q < 2 ^ 32 - 2 ^ kb /\ served A (q_cmd q) (q_addr q - q_addr q mod 2 ^ kb).

Lemma servable_request c q : cache_wf c kb ks -> servable q ->
  request_ok c (q_addr q) (q_buf q) (q_nbytes q) /\ addressable c (q_addr q) /\ served A (q_cmd q) (CACHE_BADDR (geom c) (q_addr q)).
Proof.
  intros Hc (Ha & Hp & Hpow & Hal & Hfit & Hbuf & Hmid & HA). pose proof (cw_geom _ _ _ Hc) as Hg.
  pose proof (cw_bsize _ _ _ Hc) as Hb. pose proof (gw_kb _ _ _ Hg) as Hkb. pose proof (gw_ks _ _ _ Hg).
  pose proof (gw_tag _ _ _ Hg).
  pose proof (pow2_pos kb ltac:(lia)) as Hpk. pose proof (Z.mod_pos_bound (q_addr q) (2 ^ kb) ltac:(lia)).
  split; [by split; rewrite ?Hb|]. rewrite (CACHE_BADDR_sub Hg) by done. split; [|done].
  unfold addressable. rewrite (CACHE_BADDR_sub Hg), (CACHE_TAGSET_sub Hg), Hb by done.
  assert (Hm : 2 ^ 32 = 2 ^ (32 - kb) * 2 ^ kb) by (rewrite <- pow2_split by lia; f_equal; lia).
  pose proof (Z.div_mod (q_addr q) (2 ^ kb) ltac:(lia)) as Hdm.
  split; [|intros _; lia]. lia.
Qed.

(** The abstract run of the same requests. *)
Fixpoint spec_all (g : geometry) (pol : cache_policy) (qs : list request) (ks_ : list nat) (sc : spec_cache)
    : spec_cache :=
  match qs with
  | [] => sc
  | q :: qs' =>
      spec_all g pol qs' (tl ks_)
        (fst (spec_access pol (q_cmd q) (CACHE_TAG g (q_addr q)) (Z.to_nat (CACHE_SET g (q_addr q))) (hd 0%nat ks_) sc))
  end.

Lemma access_all_correct qs : forall c w,
  cache_wf c kb ks -> handler_ok A Inv c -> Inv w -> resident A c -> Forall servable qs ->
  exists c' w' ks_, access_all c qs w = Ok (c', w') /\ cache_wf c' kb ks /\ params c' = params c /\ Inv w' /\
    resident A c' /\ abs_cache c' = spec_all (geom c) (policy c) qs ks_ (abs_cache c).
Proof.
  induction qs as [|q qs IH]; intros c w Hc Hh Hw Hr Hq.
  - by exists c, w, [].
  - apply Forall_cons in Hq as [Hq Hqs]. destruct (servable_request c q Hc Hq) as (Hrq & Had & HA).
    destruct (access_correct A Inv kb ks c (q_cmd q) (q_addr q) (q_buf q) (q_nbytes q) (q_now q) (q_rnd q) w
      Hc Hrq Had Hh Hw HA Hr) as (c1 & r & w1 & E & [Hc1 Hp1 Hr1 Ha1 _ _ _ _] & Hw1).
    assert (Hh1 : handler_ok A Inv c1).
    { unfold handler_ok. injection Hp1 as _ -> _ -> _ _ _ _ ->. exact Hh. }
    destruct (IH c1 w1 Hc1 Hh1 Hw1 Hr1 Hqs) as (c2 & w2 & kk & E2 & Hc2 & Hp2 & Hw2 & Hr2 & Ha2).
    exists c2, w2, (random_pos c (Z.to_nat (CACHE_SET (geom c) (q_addr q))) (q_rnd q) :: kk).
    split; [by simpl; rewrite E|]. split; [done|]. split; [congruence|]. do 2 (split; [done|]).
    rewrite Ha2, Ha1. injection Hp1 as _ _ _ _ _ Hpol _ Hgeo _. by rewrite Hpol, Hgeo.
Qed.

(** Requests that do not write into [n] bytes from [addr]. *)
Definition apart (addr n : Z) (q : request) : Prop :=
  q_cmd q = Write -> q_addr q + q_nbytes q <= addr \/ addr + n <= q_addr q.

(** The block of [addr] is in the cache after each of the requests. *)
Fixpoint keeps_block c (addr : Z) (qs : list request) (w : W) : Prop :=
  match qs with
  | [] => True
  | q :: qs' =>
      match cache_access c (q_cmd q) (q_addr q) (q_buf q) (q_nbytes q) (q_now q) (q_rnd q) w with
      | Ok (c', _, w') => cache_probe c' addr = Ok true /\ keeps_block c' addr qs' w'
      | _ => True
      end
  end.

Lemma request_ok_params c c' addr p nbytes : params c' = params c -> request_ok c addr p nbytes -> request_ok c' addr p nbytes.
Proof. intros [= _ Eb Eba _ _ _ _ _ _] []. split; rewrite ?Eb, ?Eba; done. Qed.

Lemma handler_ok_params c c' : params c' = params c -> handler_ok A Inv c -> handler_ok A Inv c'.
Proof. intros [= _ Eb _ Eu _ _ _ _ Ef]. unfold handler_ok. by rewrite Eb, Eu, Ef. Qed.

Lemma access_all_holds addr p nbytes bytes qs : forall c w,
  cache_wf c kb ks -> handler_ok A Inv c -> Inv w -> resident A c -> Forall servable qs -> Forall (apart addr nbytes) qs ->
  keeps_block c addr qs w -> request_ok c addr p nbytes -> holds c addr nbytes bytes ->
  exists c' w', access_all c qs w = Ok (c', w') /\ cache_wf c' kb ks /\ params c' = params c /\ Inv w' /\
    resident A c' /\ holds c' addr nbytes bytes.
Proof.
  induction qs as [|q qs IH]; intros c w Hc Hh Hw Hr Hq Hap Hk Hrq Hhold.
  - by exists c, w.
  - apply Forall_cons in Hq as [Hq Hqs]. apply Forall_cons in Hap as [Ha Hap].
    destruct (servable_request c q Hc Hq) as (Hrq1 & Had & HA).
    destruct (access_correct A Inv kb ks c (q_cmd q) (q_addr q) (q_buf q) (q_nbytes q) (q_now q) (q_rnd q) w
      Hc Hrq1 Had Hh Hw HA Hr) as (c1 & r & w1 & E & Hp & Hw1).
    cbn [keeps_block] in Hk. rewrite E in Hk. destruct Hk as [Hprobe Hk].
    destruct Hp as [Hc1 Hp1 Hr1 _ _ _ _ Hkeep].
    destruct (IH c1 w1) as (c2 & w2 & E2 & Hc2 & Hp2 & H2); try done.
    + by eapply handler_ok_params.
    + by eapply request_ok_params.
    + apply (Hkeep addr p nbytes bytes Hrq Hhold); [by eapply probe_caches|exact Ha].
    + exists c2, w2. split; [by cbn [access_all]; rewrite E|]. split; [done|]. split; [congruence|done].
Qed.

End Sequences.

(** * LRU inclusion *)

Definition tag_of (x : line) : option Z := fst <$> x.

(** What an LRU access to tag [t] does to the tags of a set. *)
Definition find_tag (t : Z) (ts : list (option Z)) : option (nat * option Z) := list_find (fun x => x = Some t) ts.

Definition touch_tags (t : Z) (ts : list (option Z)) : list (option Z) :=
  Some t :: remove_at (match find_tag t ts with Some (j, _) => j | None => (length ts - 1)%nat end) ts.

Lemma find_line_tags (t : Z) (l : list line) : fst <$> find_line t l = fst <$> find_tag t (tag_of <$> l).
Proof.
  unfold find_line, find_tag. induction l as [|x l IH]; [done|]. rewrite fmap_cons. cbn [list_find].
  destruct (decide (tag_of x = Some t)) as [E|E].
  - by rewrite !decide_True by done.
  - rewrite !decide_False by done.
    destruct (list_find (line_tag t) l) as [[??]|], (list_find _ (tag_of <$> l)) as [[??]|];
      cbn in IH |- *; congruence.
Qed.

Lemma spec_access_tags (cmd : mem_cmd) (t : Z) (s k : nat) (sc : spec_cache) (ls : list line) :
  sp_sets sc !! s = Some ls ->
  let sc' := fst (spec_access LRU cmd t s k sc) in
  exists ls', sp_sets sc' = <[s := ls']> (sp_sets sc) /\ tag_of <$> ls' = touch_tags t (tag_of <$> ls) /\
    sp_misses sc' = b2z (bool_decide (find_tag t (tag_of <$> ls) = None)) + sp_misses sc.
Proof.
  intros Hls. cbv zeta. unfold spec_access. rewrite Hls. cbn [default from_option]. unfold id.
  pose proof (find_line_tags t ls) as Hf. unfold touch_tags.
  destruct (find_line t ls) as [[j x]|] eqn:E; destruct (find_tag t (tag_of <$> ls)) as [[j' x']|] eqn:E';
    simpl in Hf; try done.
  - injection Hf as <-. eexists. split; [reflexivity|]. split; [|done].
    unfold spec_hit. rewrite bool_decide_eq_true_2 by done. rewrite fmap_cons, fmap_remove_at. f_equal.
    apply list_find_Some in E as (_ & Ht & _). unfold line_tag in Ht. by destruct x as [[??]|].
  - eexists. split; [reflexivity|]. split; [|done]. unfold spec_fill. by rewrite fmap_cons, fmap_remove_at, length_fmap.
Qed.

Lemma take_remove_ge {X : Type} (n j : nat) (l : list X) : (n <= j)%nat -> take n (remove_at j l) = take n l.
Proof.
  intros H. unfold remove_at. destruct (decide (j <= length l)%nat).
  - rewrite take_app_le by (rewrite length_take; lia). rewrite take_take. f_equal. lia.
  - rewrite (take_ge l j), (drop_ge l (S j)) by lia. by rewrite app_nil_r.
Qed.

Lemma remove_at_take {X : Type} (n j : nat) (l : list X) :
  (j < n <= length l)%nat -> remove_at j (take n l) = take (n - 1) (remove_at j l).
Proof.
  intros H. unfold remove_at. rewrite take_take, Nat.min_l by lia. rewrite take_app, take_take, length_take.
  rewrite (Nat.min_r (n - 1) j), (Nat.min_l j (length l)) by lia. f_equal.
  rewrite take_drop_commute. do 2 f_equal. lia.
Qed.

Lemma find_tag_take (t : Z) (n : nat) (l : list (option Z)) :
  find_tag t (take n l) =
    match find_tag t l with Some (j, x) => if decide (j < n)%nat then Some (j, x) else None | None => None end.
Proof.
  unfold find_tag. revert n. induction l as [|x l IH]; intros n.
  - by rewrite take_nil.
  - destruct n as [|n]; [simpl; destruct (decide _); [done|]; by destruct (list_find _ l) as [[??]|]|].
    cbn [take list_find]. destruct (decide (x = Some t)); [done|]. rewrite IH.
    destruct (list_find _ l) as [[j y]|]; [|done]. simpl.
    destruct (decide (j < n)%nat), (decide (S j < S n)%nat); simpl; done || lia.
Qed.

Lemma touch_tags_included (t : Z) (n : nat) (ts : list (option Z)) :
  (0 < n <= length ts)%nat -> touch_tags t (take n ts) = take n (touch_tags t ts).
Proof.
  intros Hn. unfold touch_tags. destruct n as [|n]; [lia|]. cbn [take]. f_equal.
  rewrite find_tag_take, length_take, Nat.min_l by lia.
  assert (Hlast : forall j, (n <= j)%nat -> remove_at n (take (S n) ts) = take n (remove_at j ts)).
  { intros j Hj. rewrite remove_at_take by lia. simpl. rewrite Nat.sub_0_r.
    by rewrite !take_remove_ge by lia. }
  simpl. rewrite Nat.sub_0_r. destruct (find_tag t ts) as [[j x]|]; [|apply Hlast; lia].
  destruct (decide (j < S n)%nat); [|apply Hlast; lia].
  rewrite remove_at_take by lia. simpl. by rewrite Nat.sub_0_r.
Qed.

Lemma length_touch_tags (t : Z) (ts : list (option Z)) : (0 < length ts)%nat -> length (touch_tags t ts) = length ts.
Proof.
  intros H. unfold touch_tags, remove_at. simpl. rewrite length_app, length_take, length_drop.
  destruct (find_tag t ts) as [[j x]|] eqn:E; [|lia].
  apply list_find_Some in E as (Hj & _). apply lookup_lt_Some in Hj. lia.
Qed.

(** The smaller cache holds, in each set, the most recent lines of the larger one. *)
Definition included (n : nat) (sc1 sc2 : spec_cache) : Prop :=
  Forall2 (fun l1 l2 => (0 < n <= length l2)%nat /\ tag_of <$> l1 = take n (tag_of <$> l2)) (sp_sets sc1) (sp_sets sc2).

Lemma spec_access_included (cmd : mem_cmd) (t : Z) (s k1 k2 n : nat) (sc1 sc2 : spec_cache) :
  included n sc1 sc2 -> sp_misses sc2 <= sp_misses sc1 ->
  let sc1' := fst (spec_access LRU cmd t s k1 sc1) in
  let sc2' := fst (spec_access LRU cmd t s k2 sc2) in
  (s < length (sp_sets sc1))%nat -> included n sc1' sc2' /\ sp_misses sc2' <= sp_misses sc1'.
Proof.
  intros Hi Hm sc1' sc2' Hs. destruct (lookup_lt_is_Some_2 _ _ Hs) as [l1 Hl1].
  destruct (Forall2_lookup_l _ _ _ _ _ Hi Hl1) as (l2 & Hl2 & Hn & Ht).
  destruct (spec_access_tags cmd t s k1 sc1 l1 Hl1) as (l1' & E1 & T1 & M1).
  destruct (spec_access_tags cmd t s k2 sc2 l2 Hl2) as (l2' & E2 & T2 & M2).
  fold sc1' in E1, M1. fold sc2' in E2, M2. split.
  - unfold included. rewrite E1, E2. apply Forall2_insert; [done|].
    rewrite T1, T2, Ht. split; [|apply touch_tags_included; by rewrite length_fmap].
    rewrite <- (length_fmap tag_of l2'), T2, length_touch_tags; rewrite length_fmap; lia.
  - rewrite M1, M2, Ht, find_tag_take.
    destruct (find_tag t (tag_of <$> l2)) as [[j x]|]; simpl; [|lia].
    destruct (decide (j < n)%nat); simpl; lia.
Qed.

Lemma spec_all_included (g1 g2 : geometry) (n : nat) (qs : list request) : forall ka kb_ sc1 sc2,
  included n sc1 sc2 -> sp_misses sc2 <= sp_misses sc1 ->
  Forall (fun q => CACHE_TAG g1 (q_addr q) = CACHE_TAG g2 (q_addr q) /\
    CACHE_SET g1 (q_addr q) = CACHE_SET g2 (q_addr q) /\
    (Z.to_nat (CACHE_SET g1 (q_addr q)) < length (sp_sets sc1))%nat) qs ->
  sp_misses (spec_all g2 LRU qs kb_ sc2) <= sp_misses (spec_all g1 LRU qs ka sc1).
Proof.
  induction qs as [|q qs IH]; intros ka kb_ sc1 sc2 Hi Hm Hq; [done|].
  apply Forall_cons in Hq as [(Ht & Hs & Hl) Hqs]. cbn [spec_all].
  destruct (spec_access_included (q_cmd q) (CACHE_TAG g1 (q_addr q)) (Z.to_nat (CACHE_SET g1 (q_addr q)))
    (hd 0%nat ka) (hd 0%nat kb_) n sc1 sc2 Hi Hm Hl) as [Hi' Hm'].
  rewrite <- Ht, <- Hs. apply IH; [done|done|].
  eapply Forall_impl; [exact Hqs|]. intros q' (? & ? & ?). do 2 (split; [done|]).
  destruct (lookup_lt_is_Some_2 _ _ Hl) as [l1 Hl1].
  destruct (spec_access_tags (q_cmd q) (CACHE_TAG g1 (q_addr q)) _ (hd 0%nat ka) sc1 l1 Hl1) as (l1' & E1 & _).
  rewrite E1. by rewrite length_insert.
Qed.

(** * The properties *)

Section Properties.
Context {W : Type} (A : mem_cmd -> Z -> Prop) (Inv : W -> Prop) (kb ks : Z).
Implicit Types (c : cache W).

(** A miss handler, on its own, for blocks of [bsz] bytes with user data if [usz]
    is not 0. *)
Definition fn_ok (bsz usz : Z) (fn : access_fn W) : Prop :=
  forall cmd a u d now w, A cmd a -> (truth usz = true -> is_Some u) -> Inv w ->
    exists l d' w', fn cmd a bsz u d now w = Ok (l, d', w') /\ length d' = length d /\ Inv w'.

(** cache_create, on parameters that are powers of two, makes a well-formed cache
    in which every line of every set is empty and every counter is zero: all the
    blocks are on the way list of their set and, in a highly associative cache, in
    its hash table. *)
Theorem cache_create_empty (balloc : bool) (usize assoc : Z) (pol : cache_policy) (fn : access_fn W) (lat : Z) :
  3 <= kb -> 0 <= ks -> kb + ks < 32 -> 0 <= usize -> 0 < assoc -> not_pow2 assoc = false ->
  exists c, cache_create (2 ^ ks) (2 ^ kb) balloc usize assoc pol (Some fn) lat = Ok c /\
    cache_wf c kb ks /\ abs_cache c = empty_spec (2 ^ ks) assoc /\ last_blk c = None.
Proof.
  intros. destruct (cache_create_ok kb ks balloc usize assoc pol fn lat) as (c & E & Hc & Ha & _ & _ & _ & _ & Hl);
    try done. by exists c.
Qed.

(** C5: cache_access implements the abstract cache.  Whatever the replacement
    policy, the associativity and the miss handler, an access to an aligned part of
    a block returns, keeps the cache well formed, and changes its lines and its
    counters as the abstract access does: a hit marks the line and moves it to the
    front under LRU, a miss replaces the last line (the randomly chosen one under
    Random), counts the replacement and the write back, and reports the address of
    the block it replaced. *)
Theorem cache_access_refines c cmd addr p nbytes now rnd w :
  cache_wf c kb ks -> request_ok c addr p nbytes -> addressable c addr ->
  handler_ok A Inv c -> Inv w -> served A cmd (CACHE_BADDR (geom c) addr) -> resident A c ->
  exists c' r w', cache_access c cmd addr p nbytes now rnd w = Ok (c', r, w') /\
    cache_wf c' kb ks /\ resident A c' /\ Inv w' /\
    abs_cache c' = fst (request_spec c cmd addr rnd) /\
    r_repl r = match snd (request_spec c cmd addr rnd) with
               | Some (t, _) => CACHE_MK_BADDR (geom c) t (CACHE_SET (geom c) addr)
               | None => 0
               end.
Proof.
  intros Hc Hr Had Hh Hw HA Hres.
  destruct (access_correct A Inv kb ks c cmd addr p nbytes now rnd w Hc Hr Had Hh Hw HA Hres)
    as (c' & r & w' & E & Hp & Hw'). exists c', r, w'. split; [done|]. destruct Hp. done.
Qed.

(** C7: A cache with data is transparent.  What was written is read back, at any
    later time and through the fast or the slow path: right after the write, and
    after any requests in between, of either kind and to any blocks, that do not
    write the same bytes and after each of which the block is still in the cache.
    The block is not one at an end of the address space. *)
Theorem cache_read_back c addr p p' nbytes now now' rnd rnd' w :
  cache_wf c kb ks -> balloc c = true -> request_ok c addr p nbytes -> request_ok c addr p' nbytes ->
  CACHE_BADDR (geom c) addr + bsize c < 2 ^ 32 -> CACHE_TAGSET (geom c) addr <> 0 ->
  handler_ok A Inv c -> Inv w -> served A Write (CACHE_BADDR (geom c) addr) -> resident A c ->
  exists c1 r1 w1, cache_access c Write addr p nbytes now rnd w = Ok (c1, r1, w1) /\
    forall qs, Forall (servable A kb) qs -> Forall (apart addr nbytes) qs -> keeps_block c1 addr qs w1 ->
    exists c2 w2 c3 r3 w3, access_all c1 qs w1 = Ok (c2, w2) /\
      cache_access c2 Read addr p' nbytes now' rnd' w2 = Ok (c3, r3, w3) /\
      take (Z.to_nat nbytes) (r_buf r3) = take (Z.to_nat nbytes) p.
Proof.
  intros Hc Hb Hr Hr' Hl Hz Hh Hw HA Hres.
  destruct (access_correct A Inv kb ks c Write addr p nbytes now rnd w Hc Hr (conj Hl (fun _ => Hz)) Hh Hw HA Hres)
    as (c1 & r1 & w1 & E1 & [Hc1 Hp1 Hr1 _ _ Hh1 _ _] & Hw1).
  exists c1, r1, w1. split; [done|]. intros qs Hq Hap Hk.
  destruct (access_all_holds A Inv kb ks addr p nbytes (take (Z.to_nat nbytes) p) qs c1 w1 Hc1
    (handler_ok_params A Inv c c1 Hp1 Hh) Hw1 Hr1 Hq Hap Hk (request_ok_params c c1 addr p nbytes Hp1 Hr) (Hh1 Hb))
    as (c2 & w2 & E2 & Hc2 & Hp2 & Hw2 & Hr2 & Hhold).
  assert (Hp : params c2 = params c) by congruence. injection Hp as En Eb Eba Eu Ea Epo Elat Eg Ef.
  assert (Hp : params c2 = params c) by congruence.
  destruct (access_correct A Inv kb ks c2 Read addr p' nbytes now' rnd' w2 Hc2 (request_ok_params c c2 addr p' nbytes Hp Hr'))
    as (c3 & r3 & w3 & E3 & Hp3 & Hw3).
  - split; rewrite ?Eg, ?Eb; done.
  - by eapply handler_ok_params.
  - done.
  - rewrite Eg. split; [apply HA|done].
  - done.
  - exists c2, w2, c3, r3, w3. do 2 (split; [done|]). eapply (ap_read _ _ _ _ _ _ _ _ _ _ _ Hp3); [by rewrite Eba|done|done].
Qed.

(** C12: cache_probe says whether the next access hits: the access adds one to the hits
    if the probe answers yes and one to the misses if it answers no, and a probe
    after the access answers yes. *)
Theorem cache_probe_predicts c cmd addr p nbytes now rnd w :
  cache_wf c kb ks -> request_ok c addr p nbytes -> addressable c addr ->
  handler_ok A Inv c -> Inv w -> served A cmd (CACHE_BADDR (geom c) addr) -> resident A c ->
  exists h c' r w', cache_probe c addr = Ok h /\
    cache_access c cmd addr p nbytes now rnd w = Ok (c', r, w') /\
    hits c' = b2z h + hits c /\ misses c' = b2z (negb h) + misses c /\ cache_probe c' addr = Ok true.
Proof.
  intros Hc Hr Had Hh Hw HA Hres.
  destruct (access_correct A Inv kb ks c cmd addr p nbytes now rnd w Hc Hr Had Hh Hw HA Hres)
    as (c' & r & w' & E & [Hc' Hp _ Ha _ _ _ _] & Hw').
  eexists _, c', r, w'. split; [by apply (probe_correct kb ks)|]. split; [done|].
  rewrite (probe_correct kb ks c' addr Hc'). injection Hp as _ _ _ _ _ _ _ -> _. rewrite Ha.
  change (hits c') with (sp_hits (abs_cache c')). change (misses c') with (sp_misses (abs_cache c')). rewrite Ha.
  unfold request_spec. destruct (set_lookup kb ks c addr Hc) as (set & Hs & Hset).
  set (s := Z.to_nat (CACHE_SET (geom c) addr)) in *. set (t := CACHE_TAG (geom c) addr).
  unfold spec_access. assert (Hls : sp_sets (abs_cache c) !! s = Some (abs_set set))
    by (simpl; by rewrite list_lookup_fmap, Hs).
  assert (Hsl : (s < length (sp_sets (abs_cache c)))%nat) by (by eapply lookup_lt_Some).
  rewrite Hls. cbn [default from_option]. unfold id.
  assert (Hpos : (0 < length (abs_set set))%nat).
  { unfold abs_set. rewrite length_fmap, (order_length _ _ _ _ _ _ Hset). pose proof (cw_assoc _ _ _ Hc). lia. }
  assert (Hhead : forall x ls, line_tag t x -> is_Some (find_line t (x :: ls))).
  { intros x ls Hx. unfold find_line. cbn [list_find]. rewrite decide_True by done. by eexists. }
  assert (Hins : forall x j ls, (j < length ls)%nat -> line_tag t x -> is_Some (find_line t (<[j := x]> ls))).
  { intros x j ls Hj Hx. destruct (find_line t (<[j := x]> ls)) as [?|] eqn:En; [by eexists|exfalso].
    apply list_find_None in En. rewrite Forall_lookup in En. apply (En j x); [by apply list_lookup_insert_eq|done]. }
  destruct (find_line t (abs_set set)) as [[j x]|] eqn:Hf; simpl fst; cbn [sp_sets sp_hits sp_misses set_field];
    rewrite list_lookup_insert_eq by done; cbn [default from_option]; unfold id;
    (split; [done|]); (split; [done|]); f_equal; apply bool_decide_eq_true_2.
  - apply list_find_Some in Hf as (Hj & Hx & _).
    assert (line_tag t (mark cmd x)) by (unfold line_tag in *; by destruct x as [[??]|]).
    unfold spec_hit. case_bool_decide; [by apply Hhead|]. apply Hins; [by eapply lookup_lt_Some|done].
  - unfold spec_fill. destruct (policy c) eqn:Hpol; [by apply Hhead| |by apply Hhead].
    apply Hins; [|done]. unfold random_pos. rewrite Hs.
    destruct (list_find _ (way_order set)) as [[k i]|] eqn:Ef; [|done].
    apply list_find_Some in Ef as (Hk & _). apply lookup_lt_Some in Hk. unfold abs_set. by rewrite length_fmap.
Qed.

(** cache_flush_addr implements the abstract invalidation (the line is emptied and
    goes to the back of the replacement order, nothing changes if the block is not
    there), keeps the cache well formed, and a probe of the address then fails. *)
Theorem cache_flush_addr_refines c addr now w :
  cache_wf c kb ks -> handler_ok A Inv c -> Inv w -> resident A c ->
  exists c' lat w', cache_flush_addr c addr now w = Ok (c', lat, w') /\ cache_wf c' kb ks /\ resident A c' /\
    abs_cache c' = spec_flush_addr (CACHE_TAG (geom c) addr) (Z.to_nat (CACHE_SET (geom c) addr)) (abs_cache c) /\
    cache_probe c' addr = Ok false.
Proof.
  intros Hc Hh Hw Hr. destruct (flush_addr_correct A Inv kb ks c addr now w Hc Hh Hw Hr)
    as (c' & lat & w' & E & Hc' & Hp & Hr' & _ & Ha).
  exists c', lat, w'. do 4 (split; [done|]). rewrite (probe_correct kb ks c' addr Hc').
  injection Hp as _ _ _ _ _ _ _ -> _. rewrite Ha.
  destruct (set_lookup kb ks c addr Hc) as (set & Hs & Hset).
  pose proof (lines_unique _ _ _ _ _ set (CACHE_TAG (geom c) addr) Hset) as Hu.
  set (s := Z.to_nat (CACHE_SET (geom c) addr)) in *. set (t := CACHE_TAG (geom c) addr) in *.
  assert (Hls : sp_sets (abs_cache c) !! s = Some (abs_set set)) by (simpl; by rewrite list_lookup_fmap, Hs).
  unfold spec_flush_addr. rewrite Hls. cbn [default from_option]. unfold id.
  do 2 f_equal. apply bool_decide_eq_false_2.
  destruct (find_line t (abs_set set)) as [[j x]|] eqn:Hf.
  - cbn [sp_sets set_field]. rewrite list_lookup_insert_eq by (by eapply lookup_lt_Some).
    cbn [default from_option]. unfold id. rewrite (Hu j x eq_refl). by intros [? ?].
  - rewrite Hls. cbn [default from_option]. unfold id. rewrite Hf. by intros [? ?].
Qed.

(** C13: cache_flush implements the abstract flush: it returns (the loops over the ways
    of each set end), every line of every set is empty afterwards, exactly the valid
    lines are counted as invalidated, and no probe succeeds. *)
Theorem cache_flush_refines c addr now w :
  cache_wf c kb ks -> handler_ok A Inv c -> Inv w -> resident A c ->
  exists c' lat w', cache_flush c now w = Ok (c', lat, w') /\ cache_wf c' kb ks /\
    abs_cache c' = spec_flush (abs_cache c) /\ cache_probe c' addr = Ok false.
Proof.
  intros Hc Hh Hw Hr. destruct (flush_correct A Inv kb ks c now w Hc Hh Hw Hr)
    as (c' & lat & w' & E & Hc' & Hp & Hr' & _ & Ha).
  exists c', lat, w'. do 3 (split; [done|]). rewrite (probe_correct kb ks c' addr Hc'), Ha.
  do 2 f_equal. apply bool_decide_eq_false_2. simpl. rewrite list_lookup_fmap.
  destruct ((abs_set <$> sets c) !! _) as [ls|]; simpl; [|by intros [? ?]].
  intros [[j x] Hx]. apply list_find_Some in Hx as (Hj & Hx & _). apply lookup_replicate in Hj as [-> _]. done.
Qed.

(** C8: LRU inclusion.  Of two LRU caches of the same sets and blocks, the one with the
    larger associativity never misses more often on the same sequence of requests. *)
Theorem cache_lru_inclusion b1 b2 u1 u2 n m lat1 lat2 fn1 fn2 qs w1 w2 :
  3 <= kb -> 0 <= ks -> kb + ks < 32 -> 0 <= u1 -> 0 <= u2 ->
  0 < n <= m -> not_pow2 n = false -> not_pow2 m = false ->
  fn_ok (2 ^ kb) u1 fn1 -> fn_ok (2 ^ kb) u2 fn2 -> Inv w1 -> Inv w2 -> Forall (servable A kb) qs ->
  exists c1 c2 c1' c2' w1' w2',
    cache_create (2 ^ ks) (2 ^ kb) b1 u1 n LRU (Some fn1) lat1 = Ok c1 /\
    cache_create (2 ^ ks) (2 ^ kb) b2 u2 m LRU (Some fn2) lat2 = Ok c2 /\
    access_all c1 qs w1 = Ok (c1', w1') /\ access_all c2 qs w2 = Ok (c2', w2') /\
    misses c2' <= misses c1'.
Proof.
  intros Hkb Hks Hsum Hu1 Hu2 Hnm Hn Hm Hf1 Hf2 Hw1 Hw2 Hqs.
  destruct (cache_create_ok kb ks b1 u1 n LRU fn1 lat1) as (c1 & E1 & Hc1 & Ha1 & Hr1 & Hp1 & Hfn1 & [_ Hus1] & _); [done||lia..|].
  destruct (cache_create_ok kb ks b2 u2 m LRU fn2 lat2) as (c2 & E2 & Hc2 & Ha2 & Hr2 & Hp2 & Hfn2 & [_ Hus2] & _); [done||lia..|].
  destruct (access_all_correct A Inv kb ks qs c1 w1 Hc1) as (c1' & w1' & k1 & X1 & _ & _ & _ & _ & A1); [|done..|].
  { unfold handler_ok. by rewrite Hfn1, Hus1, (cw_bsize _ _ _ Hc1). }
  destruct (access_all_correct A Inv kb ks qs c2 w2 Hc2) as (c2' & w2' & k2 & X2 & _ & _ & _ & _ & A2); [|done..|].
  { unfold handler_ok. by rewrite Hfn2, Hus2, (cw_bsize _ _ _ Hc2). }
  exists c1, c2, c1', c2', w1', w2'. do 4 (split; [done|]).
  change (misses c2') with (sp_misses (abs_cache c2')). change (misses c1') with (sp_misses (abs_cache c1')).
  rewrite A1, A2, Ha1, Ha2, Hp1, Hp2. pose proof (pow2_pos ks Hks).
  apply (spec_all_included _ _ (Z.to_nat n)).
  - unfold included, empty_spec. simpl. apply Forall2_replicate. rewrite length_replicate. split; [lia|].
    rewrite !fmap_replicate, take_replicate. f_equal. lia.
  - simpl. lia.
  - eapply Forall_impl; [exact Hqs|]. intros q _. pose proof (cw_geom _ _ _ Hc1) as G1. pose proof (cw_geom _ _ _ Hc2) as G2.
    rewrite (CACHE_TAG_div G1), (CACHE_TAG_div G2), (CACHE_SET_div G1), (CACHE_SET_div G2). do 2 (split; [done|]).
    simpl. rewrite length_replicate. pose proof (Z.mod_pos_bound (q_addr q / 2 ^ kb) (2 ^ ks) ltac:(lia)). lia.
Qed.

(** The fast path of cache_access compares the block address with [last_tagset],
    which is 0 when there is no last block: an access to the block at address 0 of a
    cache without a last block (a new one, or one whose last access missed or was
    flushed) dereferences the null pointer [last_blk]. *)
Theorem cache_access_block0_undef c cmd addr p nbytes now rnd w :
  cache_wf c kb ks -> request_ok c addr p nbytes -> addr < bsize c -> last_blk c = None ->
  cache_access c cmd addr p nbytes now rnd w = Undef.
Proof.
  intros Hc Hr Hlt Hl. pose proof (cw_geom _ _ _ Hc) as Hg. pose proof (rq_addr _ _ _ _ Hr) as Ha.
  pose proof (gw_kb _ _ _ Hg). pose proof (gw_ks _ _ _ Hg). pose proof (gw_tag _ _ _ Hg).
  rewrite (cw_bsize _ _ _ Hc) in Hlt.
  assert (Hm : addr mod 2 ^ kb = addr) by (apply Z.mod_small; lia).
  destruct (request_checks kb ks c addr p nbytes Hc Hr) as [E1 E2].
  { rewrite (CACHE_BADDR_sub Hg), Hm, (cw_bsize _ _ _ Hc) by done.
    pose proof (Z.pow_lt_mono_r 2 kb 32). lia. }
  unfold cache_access. cbv zeta. rewrite E1. cbn [mbind outcome_bind]. rewrite E2. cbn [mbind outcome_bind].
  rewrite (CACHE_TAGSET_sub Hg), Hm, Z.sub_diag by done.
  pose proof (cw_last _ _ _ Hc) as Hlast. rewrite Hl in Hlast. by rewrite Hlast, Hl.
Qed.

(** The check that an access fits in its block is computed modulo 2^32: in the last
    block of the address space every access that does not reach its very end is
    declared to span the block. *)
Theorem cache_access_last_block_fatal c cmd addr p nbytes now rnd w :
  cache_wf c kb ks -> request_ok c addr p nbytes -> CACHE_BADDR (geom c) addr + bsize c = 2 ^ 32 ->
  addr + nbytes < 2 ^ 32 -> cache_access c cmd addr p nbytes now rnd w = Fatal.
Proof.
  intros Hc Hr Hl Hlt. pose proof (rq_addr _ _ _ _ Hr) as Ha. pose proof (rq_pos _ _ _ _ Hr).
  unfold cache_access. cbv zeta. rewrite (rq_pow _ _ _ _ Hr), (rq_align _ _ _ _ Hr).
  cbn [orb negb Z.eqb fatal_if mbind outcome_bind]. fold (CACHE_BADDR (geom c) addr). rewrite Hl.
  change (u32 (2 ^ 32)) with 0. rewrite u32_small by lia.
  replace (0 <? addr + nbytes) with true by blia. done.
Qed.

End Properties.

(** * Witnesses: a cache of 4 sets of 16 byte blocks over a memory of latency 10 *)

Definition memory_fn : access_fn unit := fun _ _ _ _ d _ w => Ok (10, d, w).

Definition anywhere (_ : mem_cmd) (_ : Z) : Prop := True.
Definition always (_ : unit) : Prop := True.

Lemma memory_fn_ok (bsz usz : Z) : fn_ok anywhere always bsz usz memory_fn.
Proof. intros cmd a u d now w _ _ _. by exists 10, d, w. Qed.

Lemma cache_create_empty_witness :
  exists c, cache_create (2 ^ 2) (2 ^ 4) false 0 8 FIFO (Some memory_fn) 1 = Ok c /\ cache_wf c 4 2 /\
    abs_cache c = empty_spec (2 ^ 2) 8 /\ last_blk c = None.
Proof. apply (cache_create_empty 4 2 false 0 8 FIFO memory_fn 1); reflexivity || lia. Defined.

(** The request of the witnesses: 4 bytes at address 64. *)
Definition a_request : request := mk_request Write 64 [1; 2; 3; 4] 4 0 0.

Lemma a_request_servable : servable anywhere 4 a_request.
Proof. unfold servable. simpl. repeat split; lia || reflexivity. Qed.

Lemma cache_access_refines_witness :
  exists c c' r w', cache_create (2 ^ 2) (2 ^ 4) true 0 2 LRU (Some memory_fn) 1 = Ok c /\
    cache_access c Write 64 [1; 2; 3; 4] 4 0 0 tt = Ok (c', r, w') /\ cache_wf c' 4 2.
Proof.
  destruct (cache_create_ok 4 2 true 0 2 LRU memory_fn 1) as (c & E & Hc & _ & Hres & _ & Hfn & _);
    [reflexivity || lia..|].
  destruct (servable_request anywhere 4 2 c a_request Hc a_request_servable) as (Hr & Had & HA).
  destruct (cache_access_refines anywhere always 4 2 c Write 64 [1; 2; 3; 4] 4 0 0 tt Hc Hr Had) as (c' & r & w' & H).
  - unfold handler_ok. rewrite Hfn. apply memory_fn_ok.
  - exact I.
  - exact HA.
  - apply Hres.
  - exists c, c', r, w'. split; [exact E|]. split; apply H.
Defined.

(** Between the write of 64 to 67 and its read: a read of another block of the set, and
    a write of the next bytes of the block. *)
Definition between : list request := [mk_request Read 128 [0; 0] 2 1 0; mk_request Write 68 [9; 9; 9; 9] 4 2 0].

Lemma between_servable : Forall (servable anywhere 4) between.
Proof. repeat constructor; unfold servable; simpl; repeat split; lia || reflexivity. Qed.

Lemma between_apart : Forall (apart 64 4) between.
Proof. constructor; [by intros|]. constructor; [|constructor]. intros _. right. simpl. lia. Qed.

Lemma cache_read_back_witness :
  exists c c1 r1 w1 c2 w2 c3 r3 w3, cache_create (2 ^ 2) (2 ^ 4) true 0 2 LRU (Some memory_fn) 1 = Ok c /\
    cache_access c Write 64 [1; 2; 3; 4] 4 0 0 tt = Ok (c1, r1, w1) /\ access_all c1 between w1 = Ok (c2, w2) /\
    cache_access c2 Read 64 [0; 0; 0; 0] 4 5 0 w2 = Ok (c3, r3, w3) /\ take 4 (r_buf r3) = [1; 2; 3; 4].
Proof.
  destruct (cache_create_ok 4 2 true 0 2 LRU memory_fn 1) as (c & E & Hc & _ & Hres & _ & Hfn & [Hba _] & Hl);
    [reflexivity || lia..|].
  destruct (servable_request anywhere 4 2 c a_request Hc a_request_servable) as (Hr & [Had1 Had2] & HA).
  destruct (cache_read_back anywhere always 4 2 c 64 [1; 2; 3; 4] [0; 0; 0; 0] 4 0 5 0 0 tt Hc Hba Hr)
    as (c1 & r1 & w1 & E1 & H).
  - by destruct Hr.
  - exact Had1.
  - exact (Had2 Hl).
  - unfold handler_ok. rewrite Hfn. apply memory_fn_ok.
  - exact I.
  - exact HA.
  - apply Hres.
  - destruct (H between between_servable) as (c2 & w2 & c3 & r3 & w3 & H3).
    + exact between_apart.
    + clear - E E1. vm_compute in E. injection E as <-. vm_compute in E1. injection E1 as <- <- <-. vm_compute. by split.
    + exists c, c1, r1, w1, c2, w2, c3, r3, w3. split; [exact E|]. split; [exact E1|]. exact H3.
Defined.

Lemma cache_probe_predicts_witness :
  exists c h c' r w', cache_create (2 ^ 2) (2 ^ 4) false 0 8 LRU (Some memory_fn) 1 = Ok c /\
    cache_probe c 64 = Ok h /\ cache_access c Write 64 [1; 2; 3; 4] 4 0 0 tt = Ok (c', r, w') /\
    cache_probe c' 64 = Ok true.
Proof.
  destruct (cache_create_ok 4 2 false 0 8 LRU memory_fn 1) as (c & E & Hc & _ & Hres & _ & Hfn & _);
    [reflexivity || lia..|].
  destruct (servable_request anywhere 4 2 c a_request Hc a_request_servable) as (Hr & Had & HA).
  destruct (cache_probe_predicts anywhere always 4 2 c Write 64 [1; 2; 3; 4] 4 0 0 tt Hc Hr Had)
    as (h & c' & r & w' & H).
  - unfold handler_ok. rewrite Hfn. apply memory_fn_ok.
  - exact I.
  - exact HA.
  - apply Hres.
  - exists c, h, c', r, w'. split; [exact E|]. destruct H as (H1 & H2 & _ & _ & H3).
    exact (conj H1 (conj H2 H3)).
Defined.

Lemma cache_flush_addr_refines_witness :
  exists c c' lat w', cache_create (2 ^ 2) (2 ^ 4) false 0 2 LRU (Some memory_fn) 1 = Ok c /\
    cache_flush_addr c 64 0 tt = Ok (c', lat, w') /\ cache_probe c' 64 = Ok false.
Proof.
  destruct (cache_create_ok 4 2 false 0 2 LRU memory_fn 1) as (c & E & Hc & _ & Hres & _ & Hfn & _);
    [reflexivity || lia..|].
  destruct (cache_flush_addr_refines anywhere always 4 2 c 64 0 tt Hc) as (c' & lat & w' & H).
  - unfold handler_ok. rewrite Hfn. apply memory_fn_ok.
  - exact I.
  - apply Hres.
  - exists c, c', lat, w'. split; [exact E|]. destruct H as (H1 & _ & _ & _ & H2).
    exact (conj H1 H2).
Defined.

Lemma cache_flush_refines_witness :
  exists c c' lat w', cache_create (2 ^ 2) (2 ^ 4) false 0 2 LRU (Some memory_fn) 1 = Ok c /\
    cache_flush c 0 tt = Ok (c', lat, w') /\ cache_probe c' 64 = Ok false.
Proof.
  destruct (cache_create_ok 4 2 false 0 2 LRU memory_fn 1) as (c & E & Hc & _ & Hres & _ & Hfn & _);
    [reflexivity || lia..|].
  destruct (cache_flush_refines anywhere always 4 2 c 64 0 tt Hc) as (c' & lat & w' & H).
  - unfold handler_ok. rewrite Hfn. apply memory_fn_ok.
  - exact I.
  - apply Hres.
  - exists c, c', lat, w'. split; [exact E|]. destruct H as (H1 & _ & _ & H2).
    exact (conj H1 H2).
Defined.

Lemma cache_lru_inclusion_witness :
  exists c1 c2 c1' c2' w1' w2',
    cache_create (2 ^ 2) (2 ^ 4) false 0 1 LRU (Some memory_fn) 1 = Ok c1 /\
    cache_create (2 ^ 2) (2 ^ 4) false 0 2 LRU (Some memory_fn) 1 = Ok c2 /\
    access_all c1 [a_request; a_request] tt = Ok (c1', w1') /\
    access_all c2 [a_request; a_request] tt = Ok (c2', w2') /\ misses c2' <= misses c1'.
Proof.
  apply (cache_lru_inclusion anywhere always 4 2 false false 0 0 1 2 1 1 memory_fn memory_fn
    [a_request; a_request] tt tt);
    [lia|lia|lia|lia|lia|lia|reflexivity|reflexivity|apply memory_fn_ok|apply memory_fn_ok|exact I|exact I|].
  apply Forall_cons. split; [apply a_request_servable|]. apply Forall_singleton, a_request_servable.
Defined.

Lemma cache_access_block0_undef_witness :
  exists c, cache_create (2 ^ 2) (2 ^ 4) false 0 2 LRU (Some memory_fn) 1 = Ok c /\
    cache_access c Read 4 [] 4 0 0 tt = Undef.
Proof.
  destruct (cache_create_ok 4 2 false 0 2 LRU memory_fn 1) as (c & E & Hc & _ & _ & _ & _ & [Hba _] & Hl);
    [reflexivity || lia..|].
  exists c. split; [exact E|]. pose proof (cw_bsize _ _ _ Hc) as Hb.
  apply (cache_access_block0_undef 4 2 c Read 4 [] 4 0 0 tt Hc); [|rewrite Hb; reflexivity|exact Hl].
  split; rewrite ?Hb, ?Hba; reflexivity || lia || discriminate.
Defined.

Lemma cache_access_last_block_fatal_witness :
  exists c, cache_create (2 ^ 2) (2 ^ 4) false 0 2 LRU (Some memory_fn) 1 = Ok c /\
    cache_access c Read 4294967280 [] 4 0 0 tt = Fatal.
Proof.
  destruct (cache_create_ok 4 2 false 0 2 LRU memory_fn 1) as (c & E & Hc & _ & _ & _ & _ & [Hba _] & Hl);
    [reflexivity || lia..|].
  exists c. split; [exact E|]. pose proof (cw_bsize _ _ _ Hc) as Hb.
  apply (cache_access_last_block_fatal 4 2 c Read 4294967280 [] 4 0 0 tt Hc); [| |reflexivity].
  - split; rewrite ?Hb, ?Hba; reflexivity || lia || discriminate.
  - rewrite (CACHE_BADDR_sub (cw_geom _ _ _ Hc)), Hb by lia. reflexivity.
Defined.
