(* ===== verification/Hierarchy.v ===== *)
(** The memory hierarchy of sim-outorder.c: the level 1 and level 2 caches, any
    of them absent or unified, the TLBs, their miss handlers, and the part of
    sim_check_options that creates them.

    A handler runs on the level below its cache: the level 2 caches are the
    world of the level 1 caches, the pages their blocks point to that of the
    TLBs.  A pointer to an already created cache (the unified hierarchies) is a
    constructor of its own, so that there is one copy of the cache. *)

From S2P Require Import Prelude Dll Misc Memory Cache.

(** The results of random(): value [n] is for the [n]th access to a cache, if
    it calls it. *)
Class RandomSource := random_value : nat -> Z.

(** sscanf(opt, "%[^:]:%d:%d:%d:%c"): the four values after the name, when it
    converts all five fields. *)
Class CacheOptParser := sscanf_cache : list Z -> option (Z * Z * Z * Z).

(** The options of the caches and TLBs. *)
Record hier_opts := mk_hier_opts {
  cache_dl1_opt : list Z;
  cache_dl2_opt : list Z;
  cache_il1_opt : list Z;
  cache_il2_opt : list Z;
  itlb_opt : list Z;
  dtlb_opt : list Z;
  cache_dl1_lat : Z;
  cache_dl2_lat : Z;
  cache_il1_lat : Z;
  cache_il2_lat : Z;
}.

(** [mem_nelt], [mem_lat], [mem_bus_width] and [tlb_miss_lat]. *)
Record mem_opts := mk_mem_opts {
  mem_nelt : Z;
  mem_lat0 : Z;
  mem_lat1 : Z;
  mem_bus_width : Z;
  tlb_miss_lat : Z;
}.

(** [cache_il2]: NULL, the level 2 data cache, or a cache of its own. *)
Inductive il2_ref := IL2_none | IL2_dl2 | IL2_own (c : cache unit).

(** The level 2 caches and the position in the results of random(). *)
Record level2 := mk_level2 {
  cache_dl2 : option (cache unit);
  cache_il2 : il2_ref;
  rng : nat;
}.
#[global] Instance eta_level2 : Eta level2 := mk_eta (fun w => mk_level2 (cache_dl2 w) (cache_il2 w) (rng w)).

(** [cache_il1]: NULL, a data cache, or a cache of its own. *)
Inductive il1_ref := IL1_none | IL1_dl1 | IL1_dl2 | IL1_own (c : cache level2).

(** The physical pages the TLB entries point to; 0 at first. *)
Definition pages : Type := gmap nat Z.

Record mem_hier := mk_mem_hier {
  cache_dl1 : option (cache level2);
  cache_il1 : il1_ref;
  lower : level2;
  itlb : option (cache pages);
  itlb_pages : pages;
  dtlb : option (cache pages);
  dtlb_pages : pages;
}.
#[global] Instance eta_mem_hier : Eta mem_hier := mk_eta (fun h =>
  mk_mem_hier (cache_dl1 h) (cache_il1 h) (lower h) (itlb h) (itlb_pages h) (dtlb h) (dtlb_pages h)).

(** The miss handlers a simulator gives its caches. *)
Record handlers := mk_handlers {
  dl1_fn : access_fn level2;
  dl2_fn : access_fn unit;
  il1_fn : access_fn level2;
  il2_fn : access_fn unit;
  itlb_fn : access_fn pages;
  dtlb_fn : access_fn pages;
}.

Section Accesses.
Context {R : RandomSource}.

(** cache_access on the level 2 data cache, without a buffer. *)
Definition access_dl2 (cmd : mem_cmd) (addr nbytes now : Z) (w : level2) : outcome (Z * level2) :=
  c ← deref (cache_dl2 w);
  '(c, r, _) ← cache_access c cmd addr [] nbytes now (random_value (rng w)) tt;
  Ok (r_lat r, w <| cache_dl2 := Some c |> <| rng ::= S |>).

Definition access_il2 (cmd : mem_cmd) (addr nbytes now : Z) (w : level2) : outcome (Z * level2) :=
  match cache_il2 w with
  | IL2_none => Undef
  | IL2_dl2 => access_dl2 cmd addr nbytes now w
  | IL2_own c =>
      '(c, r, _) ← cache_access c cmd addr [] nbytes now (random_value (rng w)) tt;
      Ok (r_lat r, w <| cache_il2 := IL2_own c |> <| rng ::= S |>)
  end.

(** cache_access on a level 1 cache; its handler works on the level 2. *)
Definition access_l1 (c : cache level2) (cmd : mem_cmd) (addr nbytes now : Z) (w : level2)
    : outcome (cache level2 * Z * level2) :=
  '(c, r, w) ← cache_access c cmd addr [] nbytes now (random_value (rng w)) (w <| rng ::= S |>);
  Ok (c, r_lat r, w).

Definition access_dl1 (cmd : mem_cmd) (addr nbytes now : Z) (h : mem_hier) : outcome (Z * mem_hier) :=
  c ← deref (cache_dl1 h);
  '(c, lat, w) ← access_l1 c cmd addr nbytes now (lower h);
  Ok (lat, h <| cache_dl1 := Some c |> <| lower := w |>).

Definition access_il1 (cmd : mem_cmd) (addr nbytes now : Z) (h : mem_hier) : outcome (Z * mem_hier) :=
  match cache_il1 h with
  | IL1_none => Undef
  | IL1_dl1 => access_dl1 cmd addr nbytes now h
  | IL1_dl2 => '(lat, w) ← access_dl2 cmd addr nbytes now (lower h); Ok (lat, h <| lower := w |>)
  | IL1_own c =>
      '(c, lat, w) ← access_l1 c cmd addr nbytes now (lower h);
      Ok (lat, h <| cache_il1 := IL1_own c |> <| lower := w |>)
  end.

(** cache_access on a TLB; random() is shared with the caches. *)
Definition access_itlb (cmd : mem_cmd) (addr nbytes now : Z) (h : mem_hier) : outcome (Z * mem_hier) :=
  c ← deref (itlb h);
  '(c, r, pg) ← cache_access c cmd addr [] nbytes now (random_value (rng (lower h))) (itlb_pages h);
  Ok (r_lat r, h <| itlb := Some c |> <| itlb_pages := pg |> <| lower ::= set_field rng S |>).

Definition access_dtlb (cmd : mem_cmd) (addr nbytes now : Z) (h : mem_hier) : outcome (Z * mem_hier) :=
  c ← deref (dtlb h);
  '(c, r, pg) ← cache_access c cmd addr [] nbytes now (random_value (rng (lower h))) (dtlb_pages h);
  Ok (r_lat r, h <| dtlb := Some c |> <| dtlb_pages := pg |> <| lower ::= set_field rng S |>).

(** The guarded calls of the simulators, [cache ? cache_access(cache, ...) : 0]. *)
Definition data_ref (cmd : mem_cmd) (addr nbytes now : Z) (h : mem_hier) : outcome (Z * mem_hier) :=
  match cache_dl1 h with Some _ => access_dl1 cmd addr nbytes now h | None => Ok (0, h) end.

Definition inst_ref (addr nbytes now : Z) (h : mem_hier) : outcome (Z * mem_hier) :=
  match cache_il1 h with IL1_none => Ok (0, h) | _ => access_il1 Read addr nbytes now h end.

Definition itlb_ref (addr nbytes now : Z) (h : mem_hier) : outcome (Z * mem_hier) :=
  match itlb h with Some _ => access_itlb Read addr nbytes now h | None => Ok (0, h) end.

Definition dtlb_ref (cmd : mem_cmd) (addr nbytes now : Z) (h : mem_hier) : outcome (Z * mem_hier) :=
  match dtlb h with Some _ => access_dtlb cmd addr nbytes now h | None => Ok (0, h) end.

(** * The miss handlers of sim-outorder.c *)

Section Outorder.
Variable m : mem_opts.

(** [mem_access_latency]. *)
Definition mem_access_latency (blk_sz : Z) : outcome Z :=
  let chunks := s32 (blk_sz + (mem_bus_width m - 1)) ÷ mem_bus_width m in
  c_assert (0 <? chunks);;
  Ok (u32 (mem_lat0 m + mem_lat1 m * (chunks - 1))).

Definition dl1_access_fn : access_fn level2 := fun cmd baddr bsize _ d now w =>
  match cache_dl2 w with
  | Some _ =>
      '(lat, w) ← access_dl2 cmd baddr bsize now w;
      match cmd with Read => Ok (lat, d, w) | Write => Ok (0, d, w) end
  | None =>
      match cmd with Read => lat ← mem_access_latency bsize; Ok (lat, d, w) | Write => Ok (0, d, w) end
  end.

Definition dl2_access_fn : access_fn unit := fun cmd baddr bsize _ d now w =>
  match cmd with Read => lat ← mem_access_latency bsize; Ok (lat, d, w) | Write => Ok (0, d, w) end.

Definition il1_access_fn : access_fn level2 := fun cmd baddr bsize _ d now w =>
  match cache_il2 w with
  | IL2_none => match cmd with Read => lat ← mem_access_latency bsize; Ok (lat, d, w) | Write => Panic end
  | _ =>
      '(lat, w) ← access_il2 cmd baddr bsize now w;
      match cmd with Read => Ok (lat, d, w) | Write => Panic end
  end.

Definition il2_access_fn : access_fn unit := fun cmd baddr bsize _ d now w =>
  match cmd with Read => lat ← mem_access_latency bsize; Ok (lat, d, w) | Write => Panic end.

(** The TLBs' handlers: a fake translation, page 0. *)
Definition itlb_access_fn : access_fn pages := fun cmd baddr bsize u d now w =>
  match u with
  | Some page => Ok (u32 (tlb_miss_lat m), d, <[page := 0]> w)
  | None => AssertFail
  end.

Definition dtlb_access_fn : access_fn pages := fun cmd baddr bsize u d now w =>
  match u with
  | Some page => Ok (u32 (tlb_miss_lat m), d, <[page := 0]> w)
  | None => AssertFail
  end.

Definition outorder_handlers : handlers :=
  mk_handlers dl1_access_fn dl2_access_fn il1_access_fn il2_access_fn itlb_access_fn dtlb_access_fn.

End Outorder.
End Accesses.

(** * Creating the caches *)

Definition opt_none : list Z := [110; 111; 110; 101].   (* "none" *)
Definition opt_dl1 : list Z := [100; 108; 49].          (* "dl1" *)
Definition opt_dl2 : list Z := [100; 108; 50].          (* "dl2" *)

(** [!mystricmp(opt, name)]; [strcmp(opt, name)] is the inequality of the strings. *)
Definition opt_is (opt name : list Z) : bool := mystricmp opt name =? 0.

Section Options.
Context {P : CacheOptParser} (fns : handlers) (o : hier_opts).

(** sscanf, or the fatal error, then cache_create. *)
Definition create_from {W : Type} (opt : list Z) (usize : Z) (fn : access_fn W) (lat : Z) : outcome (cache W) :=
  match sscanf_cache opt with
  | None => Fatal
  | Some (nsets, bsize, assoc, c) =>
      pol ← cache_char2policy c;
      cache_create nsets bsize false usize assoc pol (Some fn) lat
  end.

(** The level 1 and level 2 data caches. *)
Definition check_dcaches : outcome (option (cache level2) * option (cache unit)) :=
  if opt_is (cache_dl1_opt o) opt_none then
    fatal_if (negb (bool_decide (cache_dl2_opt o = opt_none)));;
    Ok (None, None)
  else
    dl1 ← create_from (cache_dl1_opt o) 0 (dl1_fn fns) (cache_dl1_lat o);
    if opt_is (cache_dl2_opt o) opt_none then Ok (Some dl1, None)
    else dl2 ← create_from (cache_dl2_opt o) 0 (dl2_fn fns) (cache_dl2_lat o); Ok (Some dl1, Some dl2).

(** The level 1 and level 2 instruction caches, given the data caches. *)
Definition check_icaches (dl1 : option (cache level2)) (dl2 : option (cache unit)) : outcome (il1_ref * il2_ref) :=
  if opt_is (cache_il1_opt o) opt_none then
    fatal_if (negb (bool_decide (cache_il2_opt o = opt_none)));;
    Ok (IL1_none, IL2_none)
  else if opt_is (cache_il1_opt o) opt_dl1 then
    fatal_if (negb (bool_decide (is_Some dl1)));;
    fatal_if (negb (bool_decide (cache_il2_opt o = opt_none)));;
    Ok (IL1_dl1, IL2_none)
  else if opt_is (cache_il1_opt o) opt_dl2 then
    fatal_if (negb (bool_decide (is_Some dl2)));;
    fatal_if (negb (bool_decide (cache_il2_opt o = opt_none)));;
    Ok (IL1_dl2, IL2_none)
  else
    il1 ← create_from (cache_il1_opt o) 0 (il1_fn fns) (cache_il1_lat o);
    if opt_is (cache_il2_opt o) opt_none then Ok (IL1_own il1, IL2_none)
    else if opt_is (cache_il2_opt o) opt_dl2 then
      fatal_if (negb (bool_decide (is_Some dl2)));;
      Ok (IL1_own il1, IL2_dl2)
    else il2 ← create_from (cache_il2_opt o) 0 (il2_fn fns) (cache_il2_lat o); Ok (IL1_own il1, IL2_own il2).

(** A TLB: its entries have room for a page address, its hit latency is 1. *)
Definition check_tlb (opt : list Z) (fn : access_fn pages) : outcome (option (cache pages)) :=
  if opt_is opt opt_none then Ok None else c ← create_from opt 4 fn 1; Ok (Some c).

Definition sim_check_caches : outcome mem_hier :=
  '(dl1, dl2) ← check_dcaches;
  '(il1, il2) ← check_icaches dl1 dl2;
  it ← check_tlb (itlb_opt o) (itlb_fn fns);
  dt ← check_tlb (dtlb_opt o) (dtlb_fn fns);
  Ok (mk_mem_hier dl1 il1 (mk_level2 dl2 il2 0) it ∅ dt ∅).

End Options.

(** The checks on the latencies, after the caches are created. *)
Definition sim_check_latencies (o : hier_opts) (m : mem_opts) : outcome unit :=
  fatal_if (cache_dl1_lat o <? 1);;
  fatal_if (cache_dl2_lat o <? 1);;
  fatal_if (cache_il1_lat o <? 1);;
  fatal_if (cache_il2_lat o <? 1);;
  fatal_if (negb (mem_nelt m =? 2));;
  fatal_if ((mem_lat0 m <? 1) || (mem_lat1 m <? 1));;
  fatal_if ((mem_bus_width m <? 1) || not_pow2 (mem_bus_width m));;
  fatal_if (tlb_miss_lat m <? 1).
