(* ===== verification/HierWf.v ===== *)
(** The memory hierarchy of sim-outorder.c, cache by cache: one access of a
    cache and the requests it makes to the level below, and the miss handlers,
    which serve all of them. *)

From S2P Require Import Prelude Dll Misc Memory Cache CacheSet CacheSpec CacheAccess CacheRefine CacheInit CacheCorrect Hierarchy.

(** * One access of one cache *)

Definition traffic {W : Type} (c : cache W) : Z := hits c + misses c.

(** What a cache asks of the next level. *)
Definition below {W : Type} (c : cache W) : Z := misses c + writebacks c.

(** The block addresses a cache of [2^kb] byte blocks may be asked for, away
    from both ends of the address space by [2^K] bytes. *)
Definition block_addr (K kb a : Z) : Prop := a mod 2 ^ kb = 0 /\ 2 ^ K <= a < 2 ^ 32 - 2 ^ K.

Section Step.
Context {W : Type} (A : mem_cmd -> Z -> Prop) (Inv : W -> Prop) (kb ks : Z).
Implicit Types (c : cache W).

Definition reads_only (qs : list (mem_cmd * Z)) : Prop := Forall (fun q => fst q = Read) qs.

Record access_counts c c' (qs : list (mem_cmd * Z)) : Prop := {
  ac_traffic : traffic c' = traffic c + 1;
  ac_below : below c' = below c + Z.of_nat (length qs);
  ac_allowed : Forall (uncurry A) qs;
  ac_reads : reads_only qs -> writebacks c' = writebacks c;
}.

Lemma request_counts c c' cmd addr rnd :
  cache_wf c kb ks -> resident A c -> A Read (CACHE_BADDR (geom c) addr) ->
  abs_cache c' = fst (request_spec c cmd addr rnd) -> access_counts c c' (next_requests c cmd addr rnd).
Proof.
  intros Hc Hres HA Habs. set (s := Z.to_nat (CACHE_SET (geom c) addr)).
  destruct (set_lookup kb ks c addr Hc) as (set & Hs & Hset). fold s in Hs.
  pose proof (lines_resident_of A kb ks c s set Hc Hres Hs) as Hl.
  assert (Ehits : hits c' = sp_hits (abs_cache c')) by done. assert (Emiss : misses c' = sp_misses (abs_cache c')) by done.
  assert (Ewb : writebacks c' = sp_writebacks (abs_cache c')) by done. rewrite Habs in Ehits, Emiss, Ewb. clear Habs.
  unfold next_requests, request_spec, spec_access in *. cbv zeta in *. fold s in Ehits, Emiss, Ewb |- *.
  cbn [sp_sets abs_cache] in Ehits, Emiss, Ewb |- *. rewrite list_lookup_fmap, Hs in Ehits, Emiss, Ewb |- *.
  cbn [fmap option_fmap option_map default from_option] in Ehits, Emiss, Ewb |- *. unfold id in *.
  destruct (find_line _ _) as [[j x]|]; cbn in Ehits, Emiss, Ewb |- *.
  - split; unfold traffic, below; [lia|simpl; lia|constructor|lia].
  - destruct (abs_set set !! _) as [v|] eqn:Hv; cbn in Ehits, Emiss, Ewb |- *;
      [destruct v as [[t [|]]|]|]; (split; unfold traffic, below; [lia|simpl; lia| |]); cbn [write_back app];
      try (by repeat constructor); try (intros; lia).
    + constructor; [|by repeat constructor]. apply (Hl t). by eapply list_elem_of_lookup_2.
    + intros Hq. by apply Forall_cons in Hq as [? _].
Qed.

Lemma cache_step c K cmd addr nbytes now rnd w :
  cache_wf c kb ks -> balloc c = false -> kb <= K ->
  0 < nbytes -> not_pow2 nbytes = false -> addr mod nbytes = 0 -> nbytes <= bsize c ->
  2 ^ K <= addr < 2 ^ 32 - 2 ^ K ->
  handler_ok A Inv c -> Inv w -> resident A c ->
  (forall a, block_addr K kb a -> served A cmd a) ->
  exists c' r w' qs, cache_access c cmd addr [] nbytes now rnd w = Ok (c', r, w') /\
    cache_wf c' kb ks /\ params c' = params c /\ resident A c' /\ Inv w' /\
    handled (blk_access_fn c) (bsize c) qs w w' /\ access_counts c c' qs.
Proof.
  intros Hc Hba HkK Hn Hpow Hal Hfit Hr Hh Hw Hres Hall.
  pose proof (cw_geom _ _ _ Hc) as Hg. pose proof (cw_bsize _ _ _ Hc) as Hb.
  pose proof (gw_kb _ _ _ Hg) as Hkb. pose proof (gw_ks _ _ _ Hg) as Hks. pose proof (gw_tag _ _ _ Hg) as Htag.
  pose proof (pow2_pos kb ltac:(lia)) as Hpk. pose proof (Z.mod_pos_bound addr (2 ^ kb) ltac:(lia)) as Hmb.
  assert (HK : 2 ^ kb <= 2 ^ K) by (apply Z.pow_le_mono_r; lia).
  assert (HKm : 2 ^ K = 2 ^ (K - kb) * 2 ^ kb) by (rewrite <- pow2_split by lia; f_equal; lia).
  assert (H32 : 2 ^ 32 = 2 ^ (32 - kb) * 2 ^ kb) by (rewrite <- pow2_split by lia; f_equal; lia).
  pose proof (Z.div_mod addr (2 ^ kb) ltac:(lia)) as Hdm.
  assert (Ha : 0 <= addr < 2 ^ 32) by lia.
  assert (Hrq : request_ok c addr [] nbytes).
  { split; try done; [|by rewrite Hba]. destruct (proj1 (not_pow2_spec nbytes Hn) Hpow) as (k & Hk & ->).
    replace (2 ^ k - 1) with (Z.ones k) by (rewrite Z.ones_equiv; lia).
    by rewrite Z.land_ones. }
  assert (Hbd : CACHE_BADDR (geom c) addr = 2 ^ kb * (addr / 2 ^ kb)) by (rewrite (CACHE_BADDR_sub Hg) by done; lia).
  assert (Hblk : block_addr K kb (CACHE_BADDR (geom c) addr)).
  { rewrite Hbd. split; [rewrite Z.mul_comm; apply Z.mod_mul; lia|].
    split; [|lia]. assert (2 ^ (K - kb) <= addr / 2 ^ kb) by (apply Z.div_le_lower_bound; lia). nia. }
  destruct (Hall _ Hblk) as [HA HAw].
  destruct (access_requests A Inv kb ks c cmd addr [] nbytes now rnd w) as (c' & r & w' & E & Hp & Hw' & Hq); try done.
  - split; [rewrite Hb; destruct Hblk as [_ ?]; lia|]. intros _. rewrite (CACHE_TAGSET_sub Hg) by done.
    rewrite (CACHE_BADDR_sub Hg) in Hblk by done. destruct Hblk as [_ ?]. lia.
  - exists c', r, w', (next_requests c cmd addr rnd). destruct Hp as [Hc' Hpar Hres' Habs _ _ _ _].
    do 6 (split; [done|]). by eapply request_counts.
Qed.

End Step.

(** * Caches of a hierarchy *)

(** The requests to the level below a cache of [bsz] byte blocks; an
    instruction cache ([wr] is false) only reads. *)
Definition allows (wr : bool) (K bsz : Z) (cmd : mem_cmd) (a : Z) : Prop :=
  (cmd = Write -> wr = true) /\ a mod bsz = 0 /\ 2 ^ K <= a < 2 ^ 32 - 2 ^ K.

(** A cache without data and with at most [2^K] byte blocks. *)
Definition cache_fits {W : Type} (K : Z) (wr : bool) (fn : access_fn W) (usz : Z) (c : cache W) : Prop :=
  exists kb ks, cache_wf c kb ks /\ kb <= K /\ resident (allows wr K (bsize c)) c /\
    balloc c = false /\ blk_access_fn c = fn /\ usize c = usz.

(** A handler answers all of them, each with a [step] of the level below. *)
Definition serves {W : Type} (fn : access_fn W) (wr : bool) (usz K bsz : Z) (Inv : W -> Prop)
    (step : W -> W -> Prop) : Prop :=
  forall cmd a u d now w, allows wr K bsz cmd a -> (truth usz = true -> is_Some u) -> Inv w ->
    exists l d' w', fn cmd a bsz u d now w = Ok (l, d', w') /\ length d' = length d /\ Inv w' /\ step w w'.

(** A request that no cache refuses: aligned, within a block of every cache,
    and away from the ends of the address space. *)
Record fine (K addr nbytes bsz : Z) : Prop := {
  fi_pow : exists k, 0 <= k /\ nbytes = 2 ^ k;
  fi_align : addr mod nbytes = 0;
  fi_fits : nbytes <= bsz;
  fi_range : 2 ^ K <= addr < 2 ^ 32 - 2 ^ K;
}.

Section Fits.
Context {W : Type} (fn : access_fn W) (wr : bool) (usz K : Z) (Inv : W -> Prop) (step : W -> W -> Prop).

Lemma handled_steps bsz qs w w' :
  serves fn wr usz K bsz Inv step -> truth usz = false -> Inv w -> Forall (uncurry (allows wr K bsz)) qs ->
  handled fn bsz qs w w' -> nsteps step (length qs) w w'.
Proof.
  intros Hs Hu Hw Hall Hq. induction Hq as [|cmd a u d now l d' qs w w1 w2 E _ IH]; [constructor|].
  apply Forall_cons in Hall as [Ha Hall]. destruct (Hs cmd a u d now w Ha) as (l1 & d1 & w1' & E' & _ & Hw1 & Hst);
    [by rewrite Hu|done|]. rewrite E in E'. injection E' as <- <- <-.
  econstructor; [exact Hst|by apply IH].
Qed.

Lemma fits_access c cmd addr nbytes now rnd w :
  cache_fits K wr fn usz c -> serves fn wr usz K (bsize c) Inv step -> Inv w -> fine K addr nbytes (bsize c) ->
  (cmd = Write -> wr = true) ->
  exists c' r w', cache_access c cmd addr [] nbytes now rnd w = Ok (c', r, w') /\
    cache_fits K wr fn usz c' /\ bsize c' = bsize c /\ Inv w' /\ traffic c' = traffic c + 1 /\
    (wr = false -> writebacks c' = writebacks c) /\
    (truth usz = false -> exists n, nsteps step n w w' /\ below c' = below c + Z.of_nat n).
Proof.
  intros (kb & ks & Hc & HkK & Hres & Hba & Hfn & Hus) Hs Hw [(k & Hk & ->) Hal Hfit Hr] Hcmd.
  pose proof (cw_bsize _ _ _ Hc) as Hb. pose proof (pow2_pos k Hk) as Hpk.
  destruct (cache_step (allows wr K (bsize c)) Inv kb ks c K cmd addr (2 ^ k) now rnd w)
    as (c' & r & w' & qs & E & Hc' & Hp & Hres' & Hw' & Hq & [Ht Hbl Hall Hrd]); try done.
  - apply not_pow2_spec; [done|]. by exists k.
  - intros cmd' a u d now' w1 Ha Hu Hw1. rewrite Hfn. rewrite Hus in Hu.
    destruct (Hs cmd' a u d now' w1 Ha Hu Hw1) as (l & d' & w2 & ? & ? & ? & _). by exists l, d', w2.
  - intros a [Hm Ha]. unfold served, allows. rewrite Hb. split; [by split|]. intros ->. split; [by auto|by split].
  - exists c', r, w'. injection Hp as En Eb Eba Eu Ea Ep El Eg Ef. split; [done|].
    split; [exists kb, ks; rewrite Eb, Eba, Ef, Eu; done|]. split; [done|]. split; [done|]. split; [done|].
    split.
    + intros ->. apply Hrd. eapply Forall_impl; [exact Hall|]. intros [[] a] [Hx _]; [done|]. discriminate (Hx eq_refl).
    + intros Hu. exists (length qs). split; [|done]. rewrite Hfn in Hq. by eapply handled_steps.
Qed.

End Fits.

Lemma cache_fits_bsize {W : Type} (K : Z) (wr : bool) (fn : access_fn W) (usz : Z) (c : cache W) :
  0 <= K -> cache_fits K wr fn usz c -> exists k, 3 <= k <= K /\ bsize c = 2 ^ k.
Proof.
  intros HK (kb & ks & Hc & HkK & _). exists kb. split; [|apply Hc]. pose proof (gw_kb _ _ _ (cw_geom _ _ _ Hc)). lia.
Qed.

(** * What a simulator's handlers promise *)

(** The lookups seen by the level 2 caches; [Some None] stands for a pointer to
    the level 2 data cache. *)
Definition l2_view (w : level2) : option Z * option (option Z) :=
  (traffic <$> cache_dl2 w,
   match cache_il2 w with IL2_none => None | IL2_dl2 => Some None | IL2_own c => Some (Some (traffic c)) end).

Definition dl2_bump (n : Z) (v : option Z * option (option Z)) := (Z.add n <$> v.1, v.2).

Definition il2_bump (n : Z) (v : option Z * option (option Z)) :=
  match v.2 with
  | None => v
  | Some None => dl2_bump n v
  | Some (Some t) => (v.1, Some (Some (n + t)))
  end.

(** The level 2 caches, when the blocks of the level 1 data and instruction
    caches have [bd] and [bi] bytes. *)
Record level2_ok (fns : handlers) (K bd bi : Z) (w : level2) : Prop := {
  l2_dl2 : forall c, cache_dl2 w = Some c -> cache_fits K true (dl2_fn fns) 0 c /\ bd <= bsize c;
  l2_il2 : match cache_il2 w with
           | IL2_none => True
           | IL2_dl2 => exists c, cache_dl2 w = Some c /\ bi <= bsize c
           | IL2_own c => cache_fits K false (il2_fn fns) 0 c /\ bi <= bsize c
           end;
}.

(** The level 2 handlers answer every request of blocks up to [2^K] bytes. *)
Class Level2Laws (fns : handlers) (K : Z) : Prop := {
  hl_range : 0 <= K <= 30;
  hl_dl2 k : 3 <= k <= K -> serves (dl2_fn fns) true 0 K (2 ^ k) (fun _ => True) (fun _ _ => True);
  hl_il2 k : 3 <= k <= K -> serves (il2_fn fns) false 0 K (2 ^ k) (fun _ => True) (fun _ _ => True);
}.

(** The level 1 handlers too, with one lookup of the level 2 cache, if there is
    one, for each; those of the TLBs, with blocks that have user data. *)
Class HandlerLaws (fns : handlers) (K : Z) : Prop := {
  hl_level2 :: Level2Laws fns K;
  hl_dl1 bi k : 3 <= k <= K ->
    serves (dl1_fn fns) true 0 K (2 ^ k) (level2_ok fns K (2 ^ k) bi) (fun w w' => l2_view w' = dl2_bump 1 (l2_view w));
  hl_il1 bd k : 3 <= k <= K ->
    serves (il1_fn fns) false 0 K (2 ^ k) (level2_ok fns K bd (2 ^ k)) (fun w w' => l2_view w' = il2_bump 1 (l2_view w));
  hl_itlb k : serves (itlb_fn fns) true 4 K (2 ^ k) (fun _ => True) (fun _ _ => True);
  hl_dtlb k : serves (dtlb_fn fns) true 4 K (2 ^ k) (fun _ => True) (fun _ _ => True);
}.

(** * The level 2 caches *)

Section Level2.
Context {R : RandomSource} (fns : handlers) (K : Z) {laws : Level2Laws fns K}.

Lemma access_dl2_ok bd bi cmd addr nbytes now w c :
  level2_ok fns K bd bi w -> cache_dl2 w = Some c -> fine K addr nbytes (bsize c) ->
  exists lat w', access_dl2 cmd addr nbytes now w = Ok (lat, w') /\ level2_ok fns K bd bi w' /\
    l2_view w' = dl2_bump 1 (l2_view w).
Proof.
  intros [Hd Hi] Hc Hf. destruct (Hd c Hc) as [Hfit Hbd].
  destruct (cache_fits_bsize K _ _ _ _ (proj1 hl_range) Hfit) as (k & Hk & Hb).
  unfold access_dl2. rewrite Hc. cbn [deref mbind outcome_bind].
  destruct (fits_access (dl2_fn fns) true 0 K (fun _ => True) (fun _ _ => True) c cmd addr nbytes now
    (random_value (rng w)) tt Hfit) as (c' & r & [] & E & Hfit' & Hb' & _ & Ht & _); try done.
  { rewrite Hb. by apply hl_dl2. }
  rewrite E. cbn [mbind outcome_bind]. eexists _, _. split; [done|]. split.
  - split; simpl; [intros c1 [= <-]; by rewrite Hb'|]. destruct (cache_il2 w); [done| |done].
    destruct Hi as (c1 & Hc1 & Hbi). exists c'. split; [done|]. congruence.
  - unfold l2_view, dl2_bump. simpl. rewrite Hc. simpl. rewrite Ht. do 2 f_equal. lia.
Qed.

Lemma access_il2_ok bd bi cmd addr nbytes now w :
  level2_ok fns K bd bi w -> cache_il2 w <> IL2_none -> cmd = Read ->
  (forall b, bi <= b -> fine K addr nbytes b) ->
  exists lat w', access_il2 cmd addr nbytes now w = Ok (lat, w') /\ level2_ok fns K bd bi w' /\
    l2_view w' = il2_bump 1 (l2_view w).
Proof.
  intros Hl Hn -> Hf. pose proof Hl as [Hd Hi]. unfold access_il2. destruct (cache_il2 w) as [| |c] eqn:Ei; [done| |].
  - destruct Hi as (c & Hc & Hbi). destruct (access_dl2_ok bd bi Read addr nbytes now w c Hl Hc (Hf _ Hbi))
      as (lat & w' & E & Hl' & Hv). exists lat, w'. split; [done|]. split; [done|]. rewrite Hv.
    unfold il2_bump, l2_view. by rewrite Ei.
  - destruct Hi as [Hfit Hbi]. destruct (cache_fits_bsize K _ _ _ _ (proj1 hl_range) Hfit) as (k & Hk & Hb).
    destruct (fits_access (il2_fn fns) false 0 K (fun _ => True) (fun _ _ => True) c Read addr nbytes now
      (random_value (rng w)) tt Hfit) as (c' & r & [] & E & Hfit' & Hb' & _ & Ht & _); try done.
    { rewrite Hb. by apply hl_il2. } { by apply Hf. }
    rewrite E. cbn [mbind outcome_bind]. eexists _, _. split; [done|]. split.
    + split; simpl; [exact Hd|]. split; [done|]. congruence.
    + unfold l2_view, il2_bump. simpl. rewrite Ei. simpl. rewrite Ht. do 3 f_equal. lia.
Qed.

(** A request for a whole block of the level above. *)
Lemma block_fine k a b : 0 <= k -> a mod 2 ^ k = 0 -> 2 ^ K <= a < 2 ^ 32 - 2 ^ K -> 2 ^ k <= b -> fine K a (2 ^ k) b.
Proof. intros. split; [by exists k|done..]. Qed.

Lemma dl2_request_ok k bi cmd a now w :
  3 <= k <= K -> allows true K (2 ^ k) cmd a -> level2_ok fns K (2 ^ k) bi w -> cache_dl2 w <> None ->
  exists lat w', access_dl2 cmd a (2 ^ k) now w = Ok (lat, w') /\ level2_ok fns K (2 ^ k) bi w' /\
    l2_view w' = dl2_bump 1 (l2_view w).
Proof.
  intros Hk (_ & Ha & Hr) Hl Hn. destruct (cache_dl2 w) as [c|] eqn:Hc; [|done].
  apply (access_dl2_ok _ _ _ _ _ _ _ c); [done..|]. apply block_fine; try done; [lia|]. by apply Hl.
Qed.

Lemma il2_request_ok k bd a now w :
  3 <= k <= K -> allows false K (2 ^ k) Read a -> level2_ok fns K bd (2 ^ k) w -> cache_il2 w <> IL2_none ->
  exists lat w', access_il2 Read a (2 ^ k) now w = Ok (lat, w') /\ level2_ok fns K bd (2 ^ k) w' /\
    l2_view w' = il2_bump 1 (l2_view w).
Proof.
  intros Hk (_ & Ha & Hr) Hl Hn. apply access_il2_ok; [done..|]. intros b Hb. by apply block_fine; [lia|..].
Qed.

Lemma no_dl2_view w : cache_dl2 w = None -> l2_view w = dl2_bump 1 (l2_view w).
Proof. intros Hc. unfold l2_view, dl2_bump. by rewrite Hc. Qed.

Lemma no_il2_view w : cache_il2 w = IL2_none -> l2_view w = il2_bump 1 (l2_view w).
Proof. intros Hc. unfold l2_view, il2_bump. simpl. by rewrite Hc. Qed.

End Level2.
