(* ===== verification/HierRun.v ===== *)
(** Runs of references over a memory hierarchy, for any simulator whose handlers
    obey [HandlerLaws]: every reference is served, the hierarchy stays well
    formed, and the requests are conserved from one level to the next. *)

From S2P Require Import Prelude Dll Misc Memory Cache CacheSet CacheSpec CacheAccess CacheRefine CacheInit CacheCorrect Hierarchy HierWf.

(** * References *)

Inductive mem_ref :=
| Inst_ref (pc nbytes : Z)
| Itlb_ref (pc nbytes : Z)
| Data_ref (cmd : mem_cmd) (a nbytes : Z)
| Dtlb_ref (cmd : mem_cmd) (a nbytes : Z).

Section Run.
Context {R : RandomSource}.

Definition do_ref (r : mem_ref) (now : Z) (h : mem_hier) : outcome mem_hier :=
  '(_, h) ← match r with
            | Inst_ref pc n => inst_ref pc n now h
            | Itlb_ref pc n => itlb_ref pc n now h
            | Data_ref cmd a n => data_ref cmd a n now h
            | Dtlb_ref cmd a n => dtlb_ref cmd a n now h
            end;
  Ok h.

Fixpoint do_refs (rs : list (mem_ref * Z)) (h : mem_hier) : outcome mem_hier :=
  match rs with
  | [] => Ok h
  | (r, now) :: rs => h ← do_ref r now h; do_refs rs h
  end.
End Run.

(** * Well-formed hierarchies *)

Definition size_or {W : Type} (c : option (cache W)) : Z := match c with Some c => bsize c | None => 0 end.

Definition il1_own (i : il1_ref) : option (cache level2) := match i with IL1_own c => Some c | _ => None end.

Section Hier.
Context {R : RandomSource} (fns : handlers) (K : Z).

Record hier_ok (h : mem_hier) : Prop := {
  ho_lower : level2_ok fns K (size_or (cache_dl1 h)) (size_or (il1_own (cache_il1 h))) (lower h);
  ho_dl1 : forall c, cache_dl1 h = Some c -> cache_fits K true (dl1_fn fns) 0 c;
  ho_il1 : match cache_il1 h with
           | IL1_none => True
           | IL1_dl1 => is_Some (cache_dl1 h)
           | IL1_dl2 => is_Some (cache_dl2 (lower h))
           | IL1_own c => cache_fits K false (il1_fn fns) 0 c
           end;
  ho_itlb : forall c, itlb h = Some c -> cache_fits K true (itlb_fn fns) 4 c;
  ho_dtlb : forall c, dtlb h = Some c -> cache_fits K true (dtlb_fn fns) 4 c;
}.

(** The geometry of the options: blocks of at most [2^K] bytes, less than 4 GB
    of blocks, and no level with smaller blocks than the one above it. *)
Definition small {W : Type} (c : cache W) : Prop := bsize c <= 2 ^ K /\ nsets c * bsize c < 2 ^ 32.

Record geometry_fits (h : mem_hier) : Prop := {
  gf_dl1 : forall c, cache_dl1 h = Some c -> small c /\ forall c2, cache_dl2 (lower h) = Some c2 -> bsize c <= bsize c2;
  gf_il1 : forall c, cache_il1 h = IL1_own c -> small c /\ (forall c2, cache_il2 (lower h) = IL2_own c2 -> bsize c <= bsize c2) /\
             (forall c2, cache_il2 (lower h) = IL2_dl2 -> cache_dl2 (lower h) = Some c2 -> bsize c <= bsize c2);
  gf_dl2 : forall c, cache_dl2 (lower h) = Some c -> small c;
  gf_il2 : forall c, cache_il2 (lower h) = IL2_own c -> small c;
  gf_tlb : forall c, itlb h = Some c \/ dtlb h = Some c -> small c;
}.

Definition smallb {W : Type} (c : cache W) : bool := (bsize c <=? 2 ^ K) && (nsets c * bsize c <? 2 ^ 32).

Definition geometry_fitsb (h : mem_hier) : bool :=
  match cache_dl1 h with
  | Some c => smallb c && match cache_dl2 (lower h) with Some c2 => bsize c <=? bsize c2 | None => true end
  | None => true
  end &&
  match cache_il1 h with
  | IL1_own c =>
      smallb c &&
      match cache_il2 (lower h), cache_dl2 (lower h) with
      | IL2_own c2, _ | IL2_dl2, Some c2 => bsize c <=? bsize c2
      | _, _ => true
      end
  | _ => true
  end &&
  match cache_dl2 (lower h) with Some c => smallb c | None => true end &&
  match cache_il2 (lower h) with IL2_own c => smallb c | _ => true end &&
  match itlb h with Some c => smallb c | None => true end &&
  match dtlb h with Some c => smallb c | None => true end.

Lemma smallb_spec {W : Type} (c : cache W) : smallb c = true -> small c.
Proof. unfold smallb, small. intros H. apply andb_true_iff in H. blia. Qed.

Lemma geometry_fitsb_spec h : geometry_fitsb h = true -> geometry_fits h.
Proof.
  unfold geometry_fitsb. rewrite !andb_true_iff. intros [[[[[H1 H2] H3] H4] H5] H6].
  split.
  - intros c Hc. rewrite Hc, andb_true_iff in H1. destruct H1 as [H1 Hb]. split; [by apply smallb_spec|].
    intros c2 Hc2. rewrite Hc2 in Hb. blia.
  - intros c Hc. rewrite Hc, andb_true_iff in H2. destruct H2 as [H2 Hb]. split; [by apply smallb_spec|].
    split; [intros c2 E; rewrite E in Hb; blia|]. intros c2 E Hc2. rewrite E, Hc2 in Hb. blia.
  - intros c Hc. rewrite Hc in H3. by apply smallb_spec.
  - intros c Hc. rewrite Hc in H4. by apply smallb_spec.
  - intros c [Hc|Hc]; [rewrite Hc in H5|rewrite Hc in H6]; by apply smallb_spec.
Qed.

Lemma create_fits {P : CacheOptParser} {W : Type} opt usz (fn : access_fn W) lat wr c :
  0 <= K -> 0 <= usz -> create_from opt usz fn lat = Ok c -> small c ->
  cache_fits K wr fn usz c /\ hits c = 0 /\ misses c = 0 /\ writebacks c = 0.
Proof.
  intros HK Hus H [Hsm H32]. unfold create_from in H. destruct (sscanf_cache opt) as [[[[ns bs] asc] ch]|]; [|done].
  apply bind_ok in H as (pol & _ & H). pose proof H as H0. unfold cache_create in H0.
  apply bind_ok in H0 as ([] & Hns & H0). apply bind_ok in H0 as ([] & Hns2 & H0).
  apply bind_ok in H0 as ([] & Hbs & H0). apply bind_ok in H0 as ([] & Hbs2 & H0).
  apply bind_ok in H0 as ([] & _ & H0). apply bind_ok in H0 as ([] & Has & H0). apply bind_ok in H0 as ([] & Has2 & H0).
  apply bind_ok in H0 as (g & _ & H0). apply bind_ok in H0 as (ss & _ & H0). injection H0 as <-. simpl in Hsm, H32.
  unfold fatal_if in *. destruct (ns <=? 0) eqn:E1; [done|]. destruct (not_pow2 ns) eqn:E2; [done|].
  destruct (bs <? 8) eqn:E3; [done|]. destruct (not_pow2 bs) eqn:E4; [done|]. destruct (asc <=? 0) eqn:E5; [done|].
  destruct (not_pow2 asc) eqn:E6; [done|].
  apply not_pow2_spec in E2 as (ks & Hks & ->); [|blia]. apply not_pow2_spec in E4 as (kb & Hkb & ->); [|blia].
  assert (3 <= kb) by (apply (Z.pow_le_mono_r_iff 2); [lia|lia|]; change (2 ^ 3) with 8; blia).
  assert (kb <= K) by (apply (Z.pow_le_mono_r_iff 2); lia).
  assert (ks + kb < 32) by (apply (Z.pow_lt_mono_r_iff 2); [lia|lia|]; by rewrite Z.pow_add_r by lia).
  destruct (cache_create_ok kb ks false usz asc pol fn lat) as (c & E & Hc & Ha & Hres & _ & Hfn & [Hba Hu] & _);
    [lia|lia|lia|lia|blia|done|]. rewrite E in H. apply Ok_inj in H as <-. unfold abs_cache, empty_spec in Ha.
  injection Ha as _ Hh Hmi _ Hwb _. split; [|done]. exists kb, ks. do 3 (split; [done|]); done.
Qed.

(** * Conservation of the requests *)

Definition is_inst (r : mem_ref) : bool := match r with Inst_ref _ _ => true | _ => false end.
Definition is_data (r : mem_ref) : bool := match r with Data_ref _ _ _ => true | _ => false end.
Definition is_itlb (r : mem_ref) : bool := match r with Itlb_ref _ _ => true | _ => false end.
Definition is_dtlb (r : mem_ref) : bool := match r with Dtlb_ref _ _ _ => true | _ => false end.

Definition number (f : mem_ref -> bool) (rs : list (mem_ref * Z)) : Z :=
  foldr (fun r n => b2z (f r.1) + n) 0 rs.

Lemma number_snoc f rs r now : number f (rs ++ [(r, now)]) = number f rs + b2z (f r).
Proof. unfold number. induction rs as [|r' rs IH]; simpl in *; lia. Qed.

(** After the references [rs]: a cache looks up the references the pipeline
    makes to it, and the misses and the blocks written back of the caches above
    it; an instruction cache writes nothing back. *)
Record conserved (rs : list (mem_ref * Z)) (h : mem_hier) : Prop := {
  cv_dl1 : forall c, cache_dl1 h = Some c ->
    traffic c = number is_data rs + match cache_il1 h with IL1_dl1 => number is_inst rs | _ => 0 end;
  cv_il1 : forall c, cache_il1 h = IL1_own c -> traffic c = number is_inst rs /\ writebacks c = 0;
  cv_dl2 : forall c, cache_dl2 (lower h) = Some c ->
    traffic c = match cache_dl1 h with Some d => misses d + writebacks d | None => 0 end +
      match cache_il1 h with
      | IL1_dl2 => number is_inst rs
      | IL1_own i => match cache_il2 (lower h) with IL2_dl2 => misses i | _ => 0 end
      | _ => 0
      end;
  cv_il2 : forall c, cache_il2 (lower h) = IL2_own c ->
    traffic c = match cache_il1 h with IL1_own i => misses i | _ => 0 end;
  cv_itlb : forall c, itlb h = Some c -> traffic c = number is_itlb rs;
  cv_dtlb : forall c, dtlb h = Some c -> traffic c = number is_dtlb rs;
}.

(** A reference the caches serve: at most 8 bytes, aligned, and away from the
    ends of the address space. *)
Definition ref_fine (r : mem_ref) : Prop :=
  match r with Inst_ref a n | Itlb_ref a n | Data_ref _ a n | Dtlb_ref _ a n => fine K a n 8 end.

Context {laws : HandlerLaws fns K}.

Lemma K_range : 0 <= K <= 30.
Proof. exact hl_range. Qed.

Lemma view_dl2 w w' n c' : l2_view w' = dl2_bump n (l2_view w) -> cache_dl2 w' = Some c' ->
  exists c, cache_dl2 w = Some c /\ traffic c' = traffic c + n.
Proof.
  unfold l2_view, dl2_bump. intros [= H _] Hc. rewrite Hc in H. destruct (cache_dl2 w) as [c|]; [|done].
  injection H as H. exists c. split; [done|]. lia.
Qed.

Lemma view_il2_same w w' n : l2_view w' = dl2_bump n (l2_view w) ->
  match cache_il2 w' with
  | IL2_none => cache_il2 w = IL2_none
  | IL2_dl2 => cache_il2 w = IL2_dl2
  | IL2_own c' => exists c, cache_il2 w = IL2_own c /\ traffic c' = traffic c
  end.
Proof.
  unfold l2_view, dl2_bump. intros [= _ H]. destruct (cache_il2 w'), (cache_il2 w); try done; injection H as H; eauto.
Qed.

Lemma nsteps_dl2 n w w' : nsteps (fun w w' => l2_view w' = dl2_bump 1 (l2_view w)) n w w' ->
  l2_view w' = dl2_bump (Z.of_nat n) (l2_view w).
Proof.
  induction 1 as [w|n w w1 w2 H _ IH].
  - unfold dl2_bump. by destruct (l2_view w) as [[t|] v].
  - rewrite IH, H. unfold dl2_bump. destruct (l2_view w) as [[t|] v]; cbn; [|done]. do 2 f_equal. lia.
Qed.

Lemma nsteps_il2 n w w' : nsteps (fun w w' => l2_view w' = il2_bump 1 (l2_view w)) n w w' ->
  l2_view w' = il2_bump (Z.of_nat n) (l2_view w).
Proof.
  induction 1 as [w|n w w1 w2 H _ IH].
  - unfold il2_bump, dl2_bump. by destruct (l2_view w) as [[t|] [[v|]|]].
  - rewrite IH, H. unfold il2_bump, dl2_bump. destruct (l2_view w) as [[t|] [[v|]|]]; cbn;
      first [done | do 2 f_equal; lia | do 3 f_equal; lia].
Qed.

(** * One reference *)

Lemma fine_ref addr nbytes : fine K addr nbytes 8 -> forall bsz, 8 <= bsz -> fine K addr nbytes bsz.
Proof. intros [] bsz Hb. split; [done..|lia|done]. Qed.

Lemma fits_8 {W : Type} wr (fn : access_fn W) usz c : cache_fits K wr fn usz c -> exists k, 3 <= k <= K /\ bsize c = 2 ^ k /\ 8 <= bsize c.
Proof.
  intros H. destruct (cache_fits_bsize K wr fn usz c (proj1 K_range) H) as (k & Hk & ->). exists k. do 2 (split; [done|]).
  change 8 with (2 ^ 3). apply Z.pow_le_mono_r; lia.
Qed.

Lemma level2_ok_rng bd bi w : level2_ok fns K bd bi w -> level2_ok fns K bd bi (w <| rng ::= S |>).
Proof. by intros []. Qed.

Lemma access_dl1_step h c cmd addr nbytes now :
  hier_ok h -> cache_dl1 h = Some c -> (forall bsz, 8 <= bsz -> fine K addr nbytes bsz) ->
  exists lat c' w' n, access_dl1 cmd addr nbytes now h = Ok (lat, h <| cache_dl1 := Some c' |> <| lower := w' |>) /\
    hier_ok (h <| cache_dl1 := Some c' |> <| lower := w' |>) /\
    traffic c' = traffic c + 1 /\ below c' = below c + n /\ l2_view w' = dl2_bump n (l2_view (lower h)).
Proof.
  intros [Hl Hd Hi Hit Hdt] Hc Hf. pose proof (Hd c Hc) as Hfit. destruct (fits_8 _ _ _ _ Hfit) as (k & Hk & Hb & H8).
  unfold access_dl1, access_l1. rewrite Hc in Hl |- *. cbn [deref mbind outcome_bind size_or] in Hl |- *.
  destruct (fits_access (dl1_fn fns) true 0 K (level2_ok fns K (bsize c) (size_or (il1_own (cache_il1 h))))
    (fun w w' => l2_view w' = dl2_bump 1 (l2_view w)) c cmd addr nbytes now (random_value (rng (lower h)))
    ((lower h) <| rng ::= S |>) Hfit) as (c' & r & w' & E & Hfit' & Hb' & Hl' & Ht & _ & Hn).
  - rewrite Hb. by apply hl_dl1.
  - by apply level2_ok_rng.
  - by apply Hf.
  - done.
  - destruct (Hn eq_refl) as (n & Hst & Hbl). apply nsteps_dl2 in Hst. rewrite E. cbn [mbind outcome_bind].
    eexists _, c', w', (Z.of_nat n). split; [done|]. split; [|done]. split; simpl; try done.
    + by rewrite Hb'.
    + by intros c1 [= <-].
    + destruct (cache_il1 h); try done. destruct Hi as [c2 Hc2].
      unfold l2_view, dl2_bump in Hst. simpl in Hst. rewrite Hc2 in Hst. by destruct (cache_dl2 w').
Qed.

Lemma access_il1_step h c addr nbytes now :
  hier_ok h -> cache_il1 h = IL1_own c -> (forall bsz, 8 <= bsz -> fine K addr nbytes bsz) ->
  exists lat c' w' n, access_il1 Read addr nbytes now h = Ok (lat, h <| cache_il1 := IL1_own c' |> <| lower := w' |>) /\
    hier_ok (h <| cache_il1 := IL1_own c' |> <| lower := w' |>) /\
    traffic c' = traffic c + 1 /\ below c' = below c + n /\ writebacks c' = writebacks c /\
    l2_view w' = il2_bump n (l2_view (lower h)).
Proof.
  intros [Hl Hd Hi Hit Hdt] Hc Hf. rewrite Hc in Hi. destruct (fits_8 _ _ _ _ Hi) as (k & Hk & Hb & H8).
  unfold access_il1, access_l1. rewrite Hc in Hl |- *. cbn [il1_own size_or] in Hl |- *.
  destruct (fits_access (il1_fn fns) false 0 K (level2_ok fns K (size_or (cache_dl1 h)) (bsize c))
    (fun w w' => l2_view w' = il2_bump 1 (l2_view w)) c Read addr nbytes now (random_value (rng (lower h)))
    ((lower h) <| rng ::= S |>) Hi) as (c' & r & w' & E & Hfit' & Hb' & Hl' & Ht & Hw & Hn).
  - rewrite Hb. by apply hl_il1.
  - by apply level2_ok_rng.
  - by apply Hf.
  - done.
  - destruct (Hn eq_refl) as (n & Hst & Hbl). apply nsteps_il2 in Hst. rewrite E. cbn [mbind outcome_bind].
    eexists _, c', w', (Z.of_nat n). split; [done|]. split; [|by auto]. split; simpl; try done. by rewrite Hb'.
Qed.

Lemma tlb_step fn (c : cache pages) cmd addr nbytes now rnd pg :
  (forall k, serves fn true 4 K (2 ^ k) (fun _ => True) (fun _ _ => True)) ->
  cache_fits K true fn 4 c -> (forall bsz, 8 <= bsz -> fine K addr nbytes bsz) ->
  exists c' r pg', cache_access c cmd addr [] nbytes now rnd pg = Ok (c', r, pg') /\
    cache_fits K true fn 4 c' /\ traffic c' = traffic c + 1.
Proof.
  intros Hs Hfit Hf. destruct (fits_8 _ _ _ _ Hfit) as (k & Hk & Hb & H8).
  destruct (fits_access fn true 4 K (fun _ => True) (fun _ _ => True) c cmd addr nbytes now rnd pg Hfit)
    as (c' & r & pg' & E & Hfit' & _ & _ & Ht & _); try done; [by rewrite Hb|by apply Hf|].
  by exists c', r, pg'.
Qed.

(** Which caches there are never changes. *)
Definition is_Some_b {T : Type} (o : option T) : bool := match o with Some _ => true | None => false end.

Definition presence (h : mem_hier) : bool * nat * bool * bool :=
  (is_Some_b (cache_dl1 h),
   match cache_il1 h with IL1_none => 0 | IL1_dl1 => 1 | IL1_dl2 => 2 | IL1_own _ => 3 end%nat,
   is_Some_b (itlb h), is_Some_b (dtlb h)).

(** What a lookup of the level 1 data cache adds to the counts. *)
Lemma conserved_dl1 rs r now h c c' w' n :
  conserved rs h -> cache_dl1 h = Some c -> traffic c' = traffic c + 1 -> below c' = below c + n ->
  l2_view w' = dl2_bump n (l2_view (lower h)) ->
  is_data r = true \/ is_inst r = true /\ cache_il1 h = IL1_dl1 ->
  is_itlb r = false -> is_dtlb r = false ->
  conserved (rs ++ [(r, now)]) (h <| cache_dl1 := Some c' |> <| lower := w' |>).
Proof.
  intros [C1 C2 C3 C4 C5 C6] Hc Ht Hb Hv Hr Hri Hrd. pose proof (view_il2_same _ _ _ Hv) as Hi2.
  specialize (C1 c Hc). rewrite Hc in C3. unfold below in Hb.
  split; simpl; rewrite ?number_snoc.
  - intros ? [= <-]. rewrite Ht, C1. destruct (cache_il1 h), Hr as [Hr|[Hr Hi]]; try done; destruct r; try done; simpl; lia.
  - intros i Hi. rewrite Hi in *. destruct (C2 i eq_refl) as [-> ->]. destruct Hr as [Hr|[_ Hx]]; [|done].
    destruct r; try done. simpl. split; [lia|done].
  - intros c2' Hc2. destruct (view_dl2 _ _ _ _ Hv Hc2) as (c2 & Hc0 & ->). rewrite (C3 c2 Hc0).
    destruct (cache_il1 h) as [| | |i], Hr as [Hr|[Hr Hx]]; try done; destruct r; try done; simpl; try lia.
    destruct (cache_il2 w'); [rewrite Hi2|rewrite Hi2|destruct Hi2 as (c1 & -> & _)]; lia.
  - intros c2' Hc2. rewrite Hc2 in Hi2. destruct Hi2 as (c2 & Hc0 & ->). by apply C4.
  - intros t Hit. rewrite (C5 t Hit), Hri. simpl. lia.
  - intros t Hdt. rewrite (C6 t Hdt), Hrd. simpl. lia.
Qed.

Lemma view_il2_bump w w' n : l2_view w' = il2_bump n (l2_view w) ->
  (forall c', cache_dl2 w' = Some c' -> exists c, cache_dl2 w = Some c /\
     traffic c' = traffic c + match cache_il2 w with IL2_dl2 => n | _ => 0 end) /\
  match cache_il2 w' with
  | IL2_none => cache_il2 w = IL2_none
  | IL2_dl2 => cache_il2 w = IL2_dl2
  | IL2_own c' => exists c, cache_il2 w = IL2_own c /\ traffic c' = traffic c + n
  end.
Proof.
  unfold l2_view, il2_bump, dl2_bump. destruct (cache_il2 w) as [| |c]; cbn; intros [= H1 H2]; (split;
    [intros c' Hc'; rewrite Hc' in H1; destruct (cache_dl2 w) as [c0|]; [|done]; injection H1 as H1; exists c0; split; [done|lia]|]);
    destruct (cache_il2 w'); try done.
  injection H2 as H2. exists c. split; [done|lia].
Qed.

Lemma conserved_il1 rs pc nb now h c c' w' n :
  conserved rs h -> cache_il1 h = IL1_own c -> traffic c' = traffic c + 1 -> below c' = below c + n ->
  writebacks c' = writebacks c -> l2_view w' = il2_bump n (l2_view (lower h)) ->
  conserved (rs ++ [(Inst_ref pc nb, now)]) (h <| cache_il1 := IL1_own c' |> <| lower := w' |>).
Proof.
  intros [C1 C2 C3 C4 C5 C6] Hc Ht Hb Hw Hv. destruct (view_il2_bump _ _ _ Hv) as [Hd2 Hi2].
  destruct (C2 c Hc) as [Hct Hcw]. rewrite Hc in *. unfold below in Hb.
  split; simpl; rewrite ?number_snoc; simpl.
  - intros d Hd. rewrite (C1 d Hd). lia.
  - intros ? [= <-]. split; lia.
  - intros c2' Hc2. destruct (Hd2 c2' Hc2) as (c2 & Hc0 & ->). rewrite (C3 c2 Hc0).
    destruct (cache_il2 w'); [rewrite Hi2|rewrite Hi2|destruct Hi2 as (c1 & -> & _)]; lia.
  - intros c2' Hc2. rewrite Hc2 in Hi2. destruct Hi2 as (c2 & Hc0 & ->). rewrite (C4 c2 Hc0). lia.
  - intros t Hit. rewrite (C5 t Hit). lia.
  - intros t Hdt. rewrite (C6 t Hdt). lia.
Qed.

Lemma conserved_dl2 rs pc nb now h w' :
  conserved rs h -> cache_il1 h = IL1_dl2 -> l2_view w' = dl2_bump 1 (l2_view (lower h)) ->
  conserved (rs ++ [(Inst_ref pc nb, now)]) (h <| lower := w' |>).
Proof.
  intros [C1 C2 C3 C4 C5 C6] Hc Hv. pose proof (view_il2_same _ _ _ Hv) as Hi2. rewrite Hc in *.
  split; simpl; rewrite ?number_snoc, ?Hc; simpl.
  - intros d Hd. rewrite (C1 d Hd). lia.
  - done.
  - intros c2' Hc2. destruct (view_dl2 _ _ _ _ Hv Hc2) as (c2 & Hc0 & ->). rewrite (C3 c2 Hc0). lia.
  - intros c2' Hc2. rewrite Hc2 in Hi2. destruct Hi2 as (c2 & Hc0 & ->). by apply C4.
  - intros t Hit. rewrite (C5 t Hit). lia.
  - intros t Hdt. rewrite (C6 t Hdt). lia.
Qed.

(** A reference that is no lookup of a cache: those of absent caches. *)
Lemma conserved_skip rs r now h :
  conserved rs h ->
  (is_data r = true -> cache_dl1 h = None) -> (is_inst r = true -> cache_il1 h = IL1_none) ->
  (is_itlb r = true -> itlb h = None) -> (is_dtlb r = true -> dtlb h = None) -> conserved (rs ++ [(r, now)]) h.
Proof.
  intros [C1 C2 C3 C4 C5 C6] Hd Hi Hit Hdt. split; rewrite ?number_snoc.
  - intros c Hc. rewrite (C1 c Hc). destruct r; simpl; try (destruct (cache_il1 h) eqn:E; specialize (Hi eq_refl) || idtac; try done; lia).
    rewrite Hd in Hc by done. done.
  - intros c Hc. destruct (C2 c Hc). destruct r; simpl; try (split; [lia|done]). by rewrite Hi in Hc.
  - intros c Hc. rewrite (C3 c Hc). destruct r; simpl; try (destruct (cache_il1 h); lia). by rewrite Hi.
  - exact C4.
  - intros c Hc. rewrite (C5 c Hc). destruct r; simpl; try lia. by rewrite Hit in Hc.
  - intros c Hc. rewrite (C6 c Hc). destruct r; simpl; try lia. by rewrite Hdt in Hc.
Qed.

Lemma conserved_itlb rs pc nb now h t t' pg :
  conserved rs h -> itlb h = Some t -> traffic t' = traffic t + 1 ->
  conserved (rs ++ [(Itlb_ref pc nb, now)]) (h <| itlb := Some t' |> <| itlb_pages := pg |> <| lower ::= set_field rng S |>).
Proof.
  intros [C1 C2 C3 C4 C5 C6] Ht Htr. split; simpl; rewrite ?number_snoc; simpl; rewrite ?Z.add_0_r; try done.
  intros ? [= <-]. by rewrite Htr, (C5 _ Ht).
Qed.

Lemma conserved_dtlb rs cmd a nb now h t t' pg :
  conserved rs h -> dtlb h = Some t -> traffic t' = traffic t + 1 ->
  conserved (rs ++ [(Dtlb_ref cmd a nb, now)]) (h <| dtlb := Some t' |> <| dtlb_pages := pg |> <| lower ::= set_field rng S |>).
Proof.
  intros [C1 C2 C3 C4 C5 C6] Ht Htr. split; simpl; rewrite ?number_snoc; simpl; rewrite ?Z.add_0_r; try done.
  intros ? [= <-]. by rewrite Htr, (C6 _ Ht).
Qed.

(** What a reference leaves: the same caches, well formed, and one more
    reference counted. *)
Definition served_ref (r : mem_ref) (now : Z) (h h' : mem_hier) : Prop :=
  presence h' = presence h /\ hier_ok h' /\ forall rs, conserved rs h -> conserved (rs ++ [(r, now)]) h'.

Lemma inst_ref_ok pc nb now h : hier_ok h -> fine K pc nb 8 ->
  exists lat h', inst_ref pc nb now h = Ok (lat, h') /\ served_ref (Inst_ref pc nb) now h h'.
Proof.
  intros Hok Hf8. pose proof (fine_ref _ _ Hf8) as Hf. pose proof (ho_il1 _ Hok) as Hs.
  unfold inst_ref, served_ref, presence. destruct (cache_il1 h) as [| | |c] eqn:Hi.
  - exists 0, h. rewrite Hi. do 3 (split; [done|]). intros rs Hcv. by apply conserved_skip.
  - destruct Hs as [c Hc]. destruct (access_dl1_step h c Read pc nb now Hok Hc Hf) as (lat & c' & w' & n & E & Hok' & Ht & Hb & Hv).
    unfold access_il1. rewrite Hi, E. eexists _, _. split; [done|]. split; [simpl; by rewrite Hi, Hc|]. split; [done|].
    intros rs Hcv. apply (conserved_dl1 rs _ now h c c' w' n); auto.
  - destruct Hs as [c Hc]. destruct (l2_dl2 _ _ _ _ _ (ho_lower _ Hok) c Hc) as [Hfit Hbd].
    destruct (fits_8 _ _ _ _ Hfit) as (k & Hk & Hb & H8).
    destruct (access_dl2_ok fns K _ _ Read pc nb now (lower h) c (ho_lower _ Hok) Hc (Hf _ H8)) as (lat & w' & E & Hl' & Hv).
    unfold access_il1. rewrite Hi, E. eexists _, _. split; [done|]. split; [simpl; by rewrite Hi|].
    split; [|intros rs Hcv; by apply conserved_dl2]. destruct Hok as [Ol Od Oi Oit Odt]. split; simpl; try done. rewrite Hi.
    unfold l2_view, dl2_bump in Hv. simpl in Hv. rewrite Hc in Hv. by destruct (cache_dl2 w').
  - destruct (access_il1_step h c pc nb now Hok Hi Hf) as (lat & c' & w' & n & E & Hok' & Ht & Hb & Hw & Hv).
    rewrite E. eexists _, _. do 3 (split; [done|]). intros rs Hcv. by eapply conserved_il1.
Qed.

Lemma data_ref_ok cmd a nb now h : hier_ok h -> fine K a nb 8 ->
  exists lat h', data_ref cmd a nb now h = Ok (lat, h') /\ served_ref (Data_ref cmd a nb) now h h'.
Proof.
  intros Hok Hf. unfold data_ref, served_ref, presence. destruct (cache_dl1 h) as [d|] eqn:Hd.
  - destruct (access_dl1_step h d cmd a nb now Hok Hd (fine_ref _ _ Hf)) as (lat & c' & w' & n & E & Hok' & Ht & Hb & Hv).
    rewrite E. eexists _, _. do 3 (split; [done|]). intros rs Hcv. apply (conserved_dl1 rs _ now h d c' w' n); auto.
  - exists 0, h. rewrite Hd. do 3 (split; [done|]). intros rs Hcv. by apply conserved_skip.
Qed.

Lemma itlb_ref_ok pc nb now h : hier_ok h -> fine K pc nb 8 ->
  exists lat h', itlb_ref pc nb now h = Ok (lat, h') /\ served_ref (Itlb_ref pc nb) now h h'.
Proof.
  intros Hok Hf. unfold itlb_ref, served_ref, presence. destruct (itlb h) as [t|] eqn:Ht.
  - destruct (tlb_step (itlb_fn fns) t Read pc nb now (random_value (rng (lower h))) (itlb_pages h)
      hl_itlb (ho_itlb _ Hok t Ht) (fine_ref _ _ Hf)) as (t' & r & pg & E & Hfit & Htr).
    unfold access_itlb. rewrite Ht. cbn [deref mbind outcome_bind]. rewrite E.
    eexists _, _. do 2 (split; [done|]). split; [|intros rs Hcv; by eapply conserved_itlb].
    destruct Hok as [Ol Od Oi Oit Odt]. split; simpl; try done; [by apply level2_ok_rng|]. by intros ? [= <-].
  - exists 0, h. rewrite Ht. do 3 (split; [done|]). intros rs Hcv. by apply conserved_skip.
Qed.

Lemma dtlb_ref_ok cmd a nb now h : hier_ok h -> fine K a nb 8 ->
  exists lat h', dtlb_ref cmd a nb now h = Ok (lat, h') /\ served_ref (Dtlb_ref cmd a nb) now h h'.
Proof.
  intros Hok Hf. unfold dtlb_ref, served_ref, presence. destruct (dtlb h) as [t|] eqn:Ht.
  - destruct (tlb_step (dtlb_fn fns) t cmd a nb now (random_value (rng (lower h))) (dtlb_pages h)
      hl_dtlb (ho_dtlb _ Hok t Ht) (fine_ref _ _ Hf)) as (t' & r & pg & E & Hfit & Htr).
    unfold access_dtlb. rewrite Ht. cbn [deref mbind outcome_bind]. rewrite E.
    eexists _, _. do 2 (split; [done|]). split; [|intros rs Hcv; by eapply conserved_dtlb].
    destruct Hok as [Ol Od Oi Oit Odt]. split; simpl; try done; [by apply level2_ok_rng|]. by intros ? [= <-].
  - exists 0, h. rewrite Ht. do 3 (split; [done|]). intros rs Hcv. by apply conserved_skip.
Qed.

Lemma do_ref_ok r now h : hier_ok h -> ref_fine r -> exists h', do_ref r now h = Ok h' /\ served_ref r now h h'.
Proof.
  intros Hok Hf. unfold do_ref. destruct r as [pc n|pc n|cmd a n|cmd a n]; cbn [ref_fine] in Hf.
  - destruct (inst_ref_ok pc n now h Hok Hf) as (l & h' & -> & Hs). by exists h'.
  - destruct (itlb_ref_ok pc n now h Hok Hf) as (l & h' & -> & Hs). by exists h'.
  - destruct (data_ref_ok cmd a n now h Hok Hf) as (l & h' & -> & Hs). by exists h'.
  - destruct (dtlb_ref_ok cmd a n now h Hok Hf) as (l & h' & -> & Hs). by exists h'.
Qed.

Lemma do_refs_ok rs : forall dn h, hier_ok h -> conserved dn h -> Forall (fun r => ref_fine r.1) rs ->
  exists h', do_refs rs h = Ok h' /\ presence h' = presence h /\ hier_ok h' /\ conserved (dn ++ rs) h'.
Proof.
  induction rs as [|[r now] rs IH]; intros dn h Hok Hcv Hf; [exists h; by rewrite app_nil_r|].
  apply Forall_cons in Hf as [Hr Hf]. destruct (do_ref_ok r now h Hok Hr) as (h1 & E & Hp1 & Hok1 & Hcv1).
  destruct (IH _ h1 Hok1 (Hcv1 _ Hcv) Hf) as (h2 & E2 & Hp2 & Hok2 & Hcv2). exists h2. cbn [do_refs]. rewrite E.
  split; [exact E2|]. split; [congruence|]. split; [done|]. by rewrite <- app_assoc in Hcv2.
Qed.

(** * The caches that sim_check_options creates *)

Section Created.
Context {P : CacheOptParser} (o : hier_opts).

Lemma dcaches_ok d1 d2 : check_dcaches fns o = Ok (d1, d2) ->
  (forall c, d1 = Some c -> small c) -> (forall c, d2 = Some c -> small c) ->
  (forall c, d1 = Some c -> cache_fits K true (dl1_fn fns) 0 c /\ traffic c = 0 /\ below c = 0) /\
  (forall c, d2 = Some c -> cache_fits K true (dl2_fn fns) 0 c /\ traffic c = 0).
Proof.
  intros H Hs1 Hs2. unfold check_dcaches in H. unfold traffic, below.
  destruct (opt_is (cache_dl1_opt o) opt_none); [by apply bind_ok in H as ([] & _ & [= <- <-])|].
  apply bind_ok in H as (c1 & E1 & H). assert (d1 = Some c1 /\ forall c, d2 = Some c ->
    create_from (cache_dl2_opt o) 0 (dl2_fn fns) (cache_dl2_lat o) = Ok c) as [-> E2].
  { destruct (opt_is _ _); [injection H as <- <-; done|]. apply bind_ok in H as (c2 & E2 & H).
    injection H as <- <-. split; [done|]. by intros c [= <-]. }
  split; intros c Hc.
  - injection Hc as <-. destruct (create_fits _ 0 _ _ true c1 (proj1 K_range) ltac:(lia) E1 (Hs1 _ eq_refl)) as (Hf & -> & -> & ->). done.
  - destruct (create_fits _ 0 _ _ true c (proj1 K_range) ltac:(lia) (E2 c Hc) (Hs2 _ Hc)) as (Hf & -> & -> & _). done.
Qed.

Lemma icaches_ok d1 d2 i1 i2 : check_icaches fns o d1 d2 = Ok (i1, i2) ->
  (forall c, i1 = IL1_own c -> small c) -> (forall c, i2 = IL2_own c -> small c) ->
  match i1 with
  | IL1_none => True
  | IL1_dl1 => is_Some d1
  | IL1_dl2 => is_Some d2
  | IL1_own c => cache_fits K false (il1_fn fns) 0 c /\ traffic c = 0 /\ misses c = 0 /\ writebacks c = 0
  end /\
  match i2 with
  | IL2_none => True
  | IL2_dl2 => is_Some d2 /\ exists c, i1 = IL1_own c
  | IL2_own c => cache_fits K false (il2_fn fns) 0 c /\ traffic c = 0 /\ exists c, i1 = IL1_own c
  end.
Proof.
  intros H Hs1 Hs2. unfold check_icaches in H.
  destruct (opt_is (cache_il1_opt o) opt_none); [by apply bind_ok in H as ([] & _ & [= <- <-])|].
  destruct (opt_is (cache_il1_opt o) opt_dl1);
    [apply bind_ok in H as ([] & E & H); apply bind_ok in H as ([] & _ & [= <- <-]); split; [|done];
     unfold fatal_if in E; case_bool_decide; done|].
  destruct (opt_is (cache_il1_opt o) opt_dl2);
    [apply bind_ok in H as ([] & E & H); apply bind_ok in H as ([] & _ & [= <- <-]); split; [|done];
     unfold fatal_if in E; case_bool_decide; done|].
  apply bind_ok in H as (c1 & E1 & H).
  assert (small c1 -> cache_fits K false (il1_fn fns) 0 c1 /\ traffic c1 = 0 /\ misses c1 = 0 /\ writebacks c1 = 0) as Hc1.
  { intros Hs. destruct (create_fits _ 0 _ _ false c1 (proj1 K_range) ltac:(lia) E1 Hs) as (Hf & Hh & Hmi & Hw).
    unfold traffic. by rewrite Hh, Hmi, Hw. }
  destruct (opt_is (cache_il2_opt o) opt_none); [injection H as <- <-; split; [by apply Hc1, Hs1|done]|].
  destruct (opt_is (cache_il2_opt o) opt_dl2).
  - apply bind_ok in H as ([] & E & [= <- <-]). split; [by apply Hc1, Hs1|]. split; [|eauto].
    unfold fatal_if in E. case_bool_decide; done.
  - apply bind_ok in H as (c2 & E2 & [= <- <-]). split; [by apply Hc1, Hs1|].
    destruct (create_fits _ 0 _ _ false c2 (proj1 K_range) ltac:(lia) E2 (Hs2 _ eq_refl)) as (Hf & Hh & Hmi & _).
    unfold traffic. rewrite Hh, Hmi. eauto.
Qed.

Lemma tlb_created opt (fn : access_fn pages) t : check_tlb opt fn = Ok t ->
  (forall c, t = Some c -> small c) -> forall c, t = Some c -> cache_fits K true fn 4 c /\ traffic c = 0.
Proof.
  intros H Hs c Hc. unfold check_tlb in H. destruct (opt_is _ _); [congruence|].
  apply bind_ok in H as (c1 & E & H). assert (c1 = c) as -> by congruence.
  destruct (create_fits _ 4 _ _ true c (proj1 K_range) ltac:(lia) E (Hs _ Hc)) as (Hf & Hh & Hmi & _).
  unfold traffic. by rewrite Hh, Hmi.
Qed.

Lemma sim_check_caches_ok h : sim_check_caches fns o = Ok h -> geometry_fits h -> hier_ok h /\ conserved [] h.
Proof.
  intros H [G1 G2 G3 G4 G5]. unfold sim_check_caches in H. apply bind_ok in H as ([d1 d2] & Ed & H).
  apply bind_ok in H as ([i1 i2] & Ei & H). apply bind_ok in H as (it & Eit & H). apply bind_ok in H as (dt & Edt & H).
  apply Ok_inj in H as <-. simpl in *.
  destruct (dcaches_ok d1 d2 Ed) as [Hd1 Hd2]; [intros c Hc; by apply G1|done|].
  destruct (icaches_ok d1 d2 i1 i2 Ei) as [Hi1 Hi2]; [intros c Hc; by apply G2|done|].
  pose proof (tlb_created _ _ _ Eit ltac:(auto)) as Hit. pose proof (tlb_created _ _ _ Edt ltac:(auto)) as Hdt.
  split.
  - split; simpl.
    + split; simpl.
      * intros c Hc. split; [by apply Hd2|]. destruct d1 as [c1|]; [by apply (G1 c1)|].
        destruct (Hd2 c Hc) as [Hf _]. destruct (fits_8 _ _ _ _ Hf) as (k & _ & _ & ?). simpl. lia.
      * destruct i2 as [| |c]; [done| |].
        -- destruct Hi2 as [[c Hc] [c1 ->]]. exists c. split; [done|]. simpl. destruct (G2 c1 eq_refl) as (_ & _ & Hb). auto.
        -- destruct Hi2 as (Hf & _ & c1 & ->). split; [done|]. simpl. destruct (G2 c1 eq_refl) as (_ & Hb & _). auto.
    + intros c Hc. by apply Hd1.
    + destruct i1; [done..|]. apply Hi1.
    + intros c Hc. by apply Hit.
    + intros c Hc. by apply Hdt.
  - unfold below, number in *. split; simpl.
    + intros c Hc. destruct (Hd1 c Hc) as (_ & -> & _). by destruct i1.
    + intros c ->. destruct Hi1 as (_ & -> & _ & ->). done.
    + intros c Hc. destruct (Hd2 c Hc) as [_ ->]. destruct d1 as [c1|]; [destruct (Hd1 c1 eq_refl) as (_ & _ & ->)|];
        (destruct i1 as [| | |c2]; [done..|]; destruct Hi1 as (_ & _ & -> & _); by destruct i2).
    + intros c ->. destruct Hi2 as (_ & -> & c1 & ->). destruct Hi1 as (_ & _ & -> & _). done.
    + intros c Hc. by apply Hit.
    + intros c Hc. by apply Hdt.
Qed.

End Created.
End Hier.

