(* ===== verification/Isa.v ===== *)
(** ss.h, ss.c and ss.def: the instruction set the simulators share, its decoder
    and the properties of each opcode.  The opcodes are those of the DEFINST entries
    of ss.def, in their order. *)

From Stdlib Require Import String.
From S2P Require Import Prelude.
Close Scope string_scope.
Open Scope Z_scope.

(** [enum ss_opcode]. *)
Inductive ss_opcode :=
  OP_NA | NOP | JUMP | JAL | JR | JALR | BEQ | BNE | BLEZ | BGTZ | BLTZ | BGEZ | BC1F | BC1T | LB |
  LBU | LH | LHU | LW | DLW | L_S | L_D | LWL | LWR | SB | SH | SW | DSW | DSZ | S_S | S_D | SWL |
  SWR | LB_RR | LBU_RR | LH_RR | LHU_RR | LW_RR | DLW_RR | L_S_RR | L_D_RR | SB_RR | SH_RR |
  SW_RR | DSW_RR | DSZ_RR | S_S_RR | S_D_RR | L_S_RR_R2 | S_S_RR_R2 | LW_RR_R2 | SW_RR_R2 | ADD |
  ADDI | ADDU | ADDIU | SUB | SUBU | MULT | MULTU | DIV | DIVU | MFHI | MTHI | MFLO | MTLO | AND_ |
  ANDI | OR | ORI | XOR | XORI | NOR | SLL | SLLV | SRL | SRLV | SRA | SRAV | SLT | SLTI | SLTU |
  SLTIU | FADD_S | FADD_D | FSUB_S | FSUB_D | FMUL_S | FMUL_D | FDIV_S | FDIV_D | FABS_S | FABS_D |
  FMOV_S | FMOV_D | FNEG_S | FNEG_D | CVT_S_D | CVT_S_W | CVT_D_S | CVT_D_W | CVT_W_S | CVT_W_D |
  C_EQ_S | C_EQ_D | C_LT_S | C_LT_D | C_LE_S | C_LE_D | FSQRT_S | FSQRT_D | SYSCALL | BREAK | LUI |
  MFC1 | DMFC1 | CFC1 | MTC1 | DMTC1 | CTC1.

(** The opcodes in the order of the enumeration, and the value of each. *)
Definition ss_opcodes : list ss_opcode :=
  [OP_NA; NOP; JUMP; JAL; JR; JALR; BEQ; BNE; BLEZ; BGTZ; BLTZ; BGEZ; BC1F; BC1T; LB; LBU; LH; LHU;
   LW; DLW; L_S; L_D; LWL; LWR; SB; SH; SW; DSW; DSZ; S_S; S_D; SWL; SWR; LB_RR; LBU_RR; LH_RR;
   LHU_RR; LW_RR; DLW_RR; L_S_RR; L_D_RR; SB_RR; SH_RR; SW_RR; DSW_RR; DSZ_RR; S_S_RR; S_D_RR;
   L_S_RR_R2; S_S_RR_R2; LW_RR_R2; SW_RR_R2; ADD; ADDI; ADDU; ADDIU; SUB; SUBU; MULT; MULTU; DIV;
   DIVU; MFHI; MTHI; MFLO; MTLO; AND_; ANDI; OR; ORI; XOR; XORI; NOR; SLL; SLLV; SRL; SRLV; SRA;
   SRAV; SLT; SLTI; SLTU; SLTIU; FADD_S; FADD_D; FSUB_S; FSUB_D; FMUL_S; FMUL_D; FDIV_S; FDIV_D;
   FABS_S; FABS_D; FMOV_S; FMOV_D; FNEG_S; FNEG_D; CVT_S_D; CVT_S_W; CVT_D_S; CVT_D_W; CVT_W_S;
   CVT_W_D; C_EQ_S; C_EQ_D; C_LT_S; C_LT_D; C_LE_S; C_LE_D; FSQRT_S; FSQRT_D; SYSCALL; BREAK; LUI;
   MFC1; DMFC1; CFC1; MTC1; DMTC1; CTC1].

Definition ss_opcode_val (op : ss_opcode) : Z :=
  match op with
  | OP_NA => 0 | NOP => 1 | JUMP => 2 | JAL => 3 | JR => 4 | JALR => 5 | BEQ => 6 | BNE => 7
  | BLEZ => 8 | BGTZ => 9 | BLTZ => 10 | BGEZ => 11 | BC1F => 12 | BC1T => 13 | LB => 14
  | LBU => 15 | LH => 16 | LHU => 17 | LW => 18 | DLW => 19 | L_S => 20 | L_D => 21 | LWL => 22
  | LWR => 23 | SB => 24 | SH => 25 | SW => 26 | DSW => 27 | DSZ => 28 | S_S => 29 | S_D => 30
  | SWL => 31 | SWR => 32 | LB_RR => 33 | LBU_RR => 34 | LH_RR => 35 | LHU_RR => 36 | LW_RR => 37
  | DLW_RR => 38 | L_S_RR => 39 | L_D_RR => 40 | SB_RR => 41 | SH_RR => 42 | SW_RR => 43
  | DSW_RR => 44 | DSZ_RR => 45 | S_S_RR => 46 | S_D_RR => 47 | L_S_RR_R2 => 48 | S_S_RR_R2 => 49
  | LW_RR_R2 => 50 | SW_RR_R2 => 51 | ADD => 52 | ADDI => 53 | ADDU => 54 | ADDIU => 55 | SUB => 56
  | SUBU => 57 | MULT => 58 | MULTU => 59 | DIV => 60 | DIVU => 61 | MFHI => 62 | MTHI => 63
  | MFLO => 64 | MTLO => 65 | AND_ => 66 | ANDI => 67 | OR => 68 | ORI => 69 | XOR => 70
  | XORI => 71 | NOR => 72 | SLL => 73 | SLLV => 74 | SRL => 75 | SRLV => 76 | SRA => 77
  | SRAV => 78 | SLT => 79 | SLTI => 80 | SLTU => 81 | SLTIU => 82 | FADD_S => 83 | FADD_D => 84
  | FSUB_S => 85 | FSUB_D => 86 | FMUL_S => 87 | FMUL_D => 88 | FDIV_S => 89 | FDIV_D => 90
  | FABS_S => 91 | FABS_D => 92 | FMOV_S => 93 | FMOV_D => 94 | FNEG_S => 95 | FNEG_D => 96
  | CVT_S_D => 97 | CVT_S_W => 98 | CVT_D_S => 99 | CVT_D_W => 100 | CVT_W_S => 101
  | CVT_W_D => 102 | C_EQ_S => 103 | C_EQ_D => 104 | C_LT_S => 105 | C_LT_D => 106 | C_LE_S => 107
  | C_LE_D => 108 | FSQRT_S => 109 | FSQRT_D => 110 | SYSCALL => 111 | BREAK => 112 | LUI => 113
  | MFC1 => 114 | DMFC1 => 115 | CFC1 => 116 | MTC1 => 117 | DMTC1 => 118 | CTC1 => 119
  end.

Lemma ss_opcodes_val (op : ss_opcode) : ss_opcodes !! Z.to_nat (ss_opcode_val op) = Some op.
Proof. destruct op; reflexivity. Qed.

#[global] Instance ss_opcode_val_inj : Inj (=) (=) ss_opcode_val.
Proof. intros x y H. pose proof (ss_opcodes_val x) as Hx. rewrite H, ss_opcodes_val in Hx. congruence. Qed.

#[global] Instance ss_opcode_eq_dec : EqDecision ss_opcode.
Proof.
  refine (fun x y => cast_if (decide (ss_opcode_val x = ss_opcode_val y))); [by apply (inj ss_opcode_val)|congruence].
Defined.

(** [enum ss_fu_class]. *)
Inductive ss_fu_class :=
  FUClass_NA | IntALU | IntMULT | IntDIV | FloatADD | FloatCMP | FloatCVT | FloatMULT | FloatDIV | FloatSQRT
  | RdPort | WrPort.

#[global] Instance ss_fu_class_eq_dec : EqDecision ss_fu_class.
Proof. solve_decision. Defined.

(** Instruction flags. *)
Definition F_ICOMP : Z := 0x1.
Definition F_FCOMP : Z := 0x2.
Definition F_CTRL : Z := 0x4.
Definition F_UNCOND : Z := 0x8.
Definition F_COND : Z := 0x10.
Definition F_MEM : Z := 0x20.
Definition F_LOAD : Z := 0x40.
Definition F_STORE : Z := 0x80.
Definition F_DISP : Z := 0x100.
Definition F_RR : Z := 0x200.
Definition F_DIRECT : Z := 0x400.
Definition F_TRAP : Z := 0x800.
Definition F_LONGLAT : Z := 0x1000.
Definition F_DIRJMP : Z := 0x2000.
Definition F_INDIRJMP : Z := 0x4000.
Definition F_CALL : Z := 0x8000.
Definition F_FPCOND : Z := 0x10000.

(** [ss_op2flags]. *)
Definition SS_OP_FLAGS (op : ss_opcode) : Z :=
  match op with
  | OP_NA => 0
  | NOP | ADD | ADDI | ADDU | ADDIU | SUB | SUBU | MFHI | MTHI | MFLO | MTLO | AND_ | ANDI | OR
  | ORI | XOR | XORI | NOR | SLL | SLLV | SRL | SRLV | SRA | SRAV | SLT | SLTI | SLTU | SLTIU | LUI
  | MFC1 | DMFC1 | CFC1 | MTC1 | DMTC1 | CTC1 => F_ICOMP
  | JUMP => Z.lor (Z.lor F_CTRL F_UNCOND) F_DIRJMP
  | JAL => Z.lor (Z.lor (Z.lor F_CTRL F_UNCOND) F_DIRJMP) F_CALL
  | JR => Z.lor (Z.lor F_CTRL F_UNCOND) F_INDIRJMP
  | JALR => Z.lor (Z.lor (Z.lor F_CTRL F_UNCOND) F_INDIRJMP) F_CALL
  | BEQ | BNE | BLEZ | BGTZ | BLTZ | BGEZ => Z.lor (Z.lor F_CTRL F_COND) F_DIRJMP
  | BC1F | BC1T => Z.lor (Z.lor (Z.lor F_CTRL F_COND) F_DIRJMP) F_FPCOND
  | LB | LBU | LH | LHU | LW | DLW | L_S | L_D | LWL | LWR => Z.lor (Z.lor F_MEM F_LOAD) F_DISP
  | SB | SH | SW | DSW | DSZ | S_S | S_D | SWL | SWR => Z.lor (Z.lor F_MEM F_STORE) F_DISP
  | LB_RR | LBU_RR | LH_RR | LHU_RR | LW_RR | DLW_RR | L_S_RR | L_D_RR | L_S_RR_R2 | LW_RR_R2 => Z.lor (Z.lor F_MEM F_LOAD) F_RR
  | SB_RR | SH_RR | SW_RR | DSW_RR | DSZ_RR | S_S_RR | S_D_RR | S_S_RR_R2 | SW_RR_R2 => Z.lor (Z.lor F_MEM F_STORE) F_RR
  | MULT | MULTU | DIV | DIVU => Z.lor F_ICOMP F_LONGLAT
  | FADD_S | FADD_D | FSUB_S | FSUB_D | FABS_S | FABS_D | FMOV_S | FMOV_D | FNEG_S | FNEG_D
  | CVT_S_D | CVT_S_W | CVT_D_S | CVT_D_W | CVT_W_S | CVT_W_D | C_EQ_S | C_EQ_D | C_LT_S | C_LT_D
  | C_LE_S | C_LE_D => F_FCOMP
  | FMUL_S | FMUL_D | FDIV_S | FDIV_D | FSQRT_S | FSQRT_D => Z.lor F_FCOMP F_LONGLAT
  | SYSCALL | BREAK => F_TRAP
  end.

(** [ss_op2fu]; NA is 0, the value of FUClass_NA. *)
Definition SS_OP_FUCLASS (op : ss_opcode) : ss_fu_class :=
  match op with
  | NOP | JAL | JALR | BEQ | BNE | BLEZ | BGTZ | BLTZ | BGEZ | BC1F | BC1T | ADD | ADDI | ADDU
  | ADDIU | SUB | SUBU | MFHI | MTHI | MFLO | MTLO | AND_ | ANDI | OR | ORI | XOR | XORI | NOR
  | SLL | SLLV | SRL | SRLV | SRA | SRAV | SLT | SLTI | SLTU | SLTIU | LUI | MFC1 | DMFC1 | CFC1
  | MTC1 | DMTC1 | CTC1 => IntALU
  | OP_NA | JUMP | JR | SYSCALL | BREAK => FUClass_NA
  | LB | LBU | LH | LHU | LW | DLW | L_S | L_D | LWL | LWR | LB_RR | LBU_RR | LH_RR | LHU_RR
  | LW_RR | DLW_RR | L_S_RR | L_D_RR | L_S_RR_R2 | LW_RR_R2 => RdPort
  | SB | SH | SW | DSW | DSZ | S_S | S_D | SWL | SWR | SB_RR | SH_RR | SW_RR | DSW_RR | DSZ_RR
  | S_S_RR | S_D_RR | S_S_RR_R2 | SW_RR_R2 => WrPort
  | MULT | MULTU => IntMULT
  | DIV | DIVU => IntDIV
  | FADD_S | FADD_D | FSUB_S | FSUB_D | FABS_S | FABS_D | FMOV_S | FMOV_D | FNEG_S | FNEG_D => FloatADD
  | FMUL_S | FMUL_D => FloatMULT
  | FDIV_S | FDIV_D => FloatDIV
  | CVT_S_D | CVT_S_W | CVT_D_S | CVT_D_W | CVT_W_S | CVT_W_D => FloatCVT
  | C_EQ_S | C_EQ_D | C_LT_S | C_LT_D | C_LE_S | C_LE_D => FloatCMP
  | FSQRT_S | FSQRT_D => FloatSQRT
  end.

(** The opcode field value of each DEFINST, in the order of ss.def. *)
Definition ss_insts : list (ss_opcode * Z) :=
  [(NOP, 0x00); (JUMP, 0x01); (JAL, 0x02); (JR, 0x03); (JALR, 0x04); (BEQ, 0x05); (BNE, 0x06);
   (BLEZ, 0x07); (BGTZ, 0x08); (BLTZ, 0x09); (BGEZ, 0x0a); (BC1F, 0x0b); (BC1T, 0x0c); (LB, 0x20);
   (LBU, 0x22); (LH, 0x24); (LHU, 0x26); (LW, 0x28); (DLW, 0x29); (L_S, 0x2a); (L_D, 0x2b);
   (LWL, 0x2c); (LWR, 0x2d); (SB, 0x30); (SH, 0x32); (SW, 0x34); (DSW, 0x35); (DSZ, 0x38);
   (S_S, 0x36); (S_D, 0x37); (SWL, 0x39); (SWR, 0x3a); (LB_RR, 0xc0); (LBU_RR, 0xc1);
   (LH_RR, 0xc2); (LHU_RR, 0xc3); (LW_RR, 0xc4); (DLW_RR, 0xce); (L_S_RR, 0xc5); (L_D_RR, 0xcf);
   (SB_RR, 0xc6); (SH_RR, 0xc7); (SW_RR, 0xc8); (DSW_RR, 0xd0); (DSZ_RR, 0xd1); (S_S_RR, 0xc9);
   (S_D_RR, 0xd2); (L_S_RR_R2, 0xca); (S_S_RR_R2, 0xcb); (LW_RR_R2, 0xcc); (SW_RR_R2, 0xcd);
   (ADD, 0x40); (ADDI, 0x41); (ADDU, 0x42); (ADDIU, 0x43); (SUB, 0x44); (SUBU, 0x45); (MULT, 0x46);
   (MULTU, 0x47); (DIV, 0x48); (DIVU, 0x49); (MFHI, 0x4a); (MTHI, 0x4b); (MFLO, 0x4c);
   (MTLO, 0x4d); (AND_, 0x4e); (ANDI, 0x4f); (OR, 0x50); (ORI, 0x51); (XOR, 0x52); (XORI, 0x53);
   (NOR, 0x54); (SLL, 0x55); (SLLV, 0x56); (SRL, 0x57); (SRLV, 0x58); (SRA, 0x59); (SRAV, 0x5a);
   (SLT, 0x5b); (SLTI, 0x5c); (SLTU, 0x5d); (SLTIU, 0x5e); (FADD_S, 0x70); (FADD_D, 0x71);
   (FSUB_S, 0x72); (FSUB_D, 0x73); (FMUL_S, 0x74); (FMUL_D, 0x75); (FDIV_S, 0x76); (FDIV_D, 0x77);
   (FABS_S, 0x78); (FABS_D, 0x79); (FMOV_S, 0x7a); (FMOV_D, 0x7b); (FNEG_S, 0x7c); (FNEG_D, 0x7d);
   (CVT_S_D, 0x80); (CVT_S_W, 0x81); (CVT_D_S, 0x82); (CVT_D_W, 0x83); (CVT_W_S, 0x84);
   (CVT_W_D, 0x85); (C_EQ_S, 0x90); (C_EQ_D, 0x91); (C_LT_S, 0x92); (C_LT_D, 0x93); (C_LE_S, 0x94);
   (C_LE_D, 0x95); (FSQRT_S, 0x96); (FSQRT_D, 0x97); (SYSCALL, 0xa0); (BREAK, 0xa1); (LUI, 0xa2);
   (MFC1, 0xa3); (DMFC1, 0xa7); (CFC1, 0xa4); (MTC1, 0xa5); (DMTC1, 0xa8); (CTC1, 0xa6)].

(** [ss_op2name]. *)
Definition SS_OP_NAME (op : ss_opcode) : option string :=
  match op with
  | OP_NA => None
  | NOP => Some "nop"%string
  | JUMP => Some "j"%string
  | JAL => Some "jal"%string
  | JR => Some "jr"%string
  | JALR => Some "jalr"%string
  | BEQ => Some "beq"%string
  | BNE => Some "bne"%string
  | BLEZ => Some "blez"%string
  | BGTZ => Some "bgtz"%string
  | BLTZ => Some "bltz"%string
  | BGEZ => Some "bgez"%string
  | BC1F => Some "bc1f"%string
  | BC1T => Some "bc1t"%string
  | LB => Some "lb"%string
  | LBU => Some "lbu"%string
  | LH => Some "lh"%string
  | LHU => Some "lhu"%string
  | LW => Some "lw"%string
  | DLW => Some "dlw"%string
  | L_S => Some "l.s"%string
  | L_D => Some "l.d"%string
  | LWL => Some "lwl"%string
  | LWR => Some "lwr"%string
  | SB => Some "sb"%string
  | SH => Some "sh"%string
  | SW => Some "sw"%string
  | DSW => Some "dsw"%string
  | DSZ => Some "dsz"%string
  | S_S => Some "s.s"%string
  | S_D => Some "s.d"%string
  | SWL => Some "swl"%string
  | SWR => Some "swr"%string
  | LB_RR => Some "lb"%string
  | LBU_RR => Some "lbu"%string
  | LH_RR => Some "lh"%string
  | LHU_RR => Some "lhu"%string
  | LW_RR => Some "lw"%string
  | DLW_RR => Some "dlw"%string
  | L_S_RR => Some "l.s"%string
  | L_D_RR => Some "l.d"%string
  | SB_RR => Some "sb"%string
  | SH_RR => Some "sh"%string
  | SW_RR => Some "sw"%string
  | DSW_RR => Some "dsw"%string
  | DSZ_RR => Some "dsz"%string
  | S_S_RR => Some "s.s"%string
  | S_D_RR => Some "s.d"%string
  | L_S_RR_R2 => Some "l.s.r2"%string
  | S_S_RR_R2 => Some "s.s.r2"%string
  | LW_RR_R2 => Some "lw.r2"%string
  | SW_RR_R2 => Some "sw.r2"%string
  | ADD => Some "add"%string
  | ADDI => Some "addi"%string
  | ADDU => Some "addu"%string
  | ADDIU => Some "addiu"%string
  | SUB => Some "sub"%string
  | SUBU => Some "subu"%string
  | MULT => Some "mult"%string
  | MULTU => Some "multu"%string
  | DIV => Some "div"%string
  | DIVU => Some "divu"%string
  | MFHI => Some "mfhi"%string
  | MTHI => Some "mthi"%string
  | MFLO => Some "mflo"%string
  | MTLO => Some "mtlo"%string
  | AND_ => Some "and"%string
  | ANDI => Some "andi"%string
  | OR => Some "or"%string
  | ORI => Some "ori"%string
  | XOR => Some "xor"%string
  | XORI => Some "xori"%string
  | NOR => Some "nor"%string
  | SLL => Some "sll"%string
  | SLLV => Some "sllv"%string
  | SRL => Some "srl"%string
  | SRLV => Some "srlv"%string
  | SRA => Some "sra"%string
  | SRAV => Some "srav"%string
  | SLT => Some "slt"%string
  | SLTI => Some "slti"%string
  | SLTU => Some "sltu"%string
  | SLTIU => Some "sltiu"%string
  | FADD_S => Some "add.s"%string
  | FADD_D => Some "add.d"%string
  | FSUB_S => Some "sub.s"%string
  | FSUB_D => Some "sub.d"%string
  | FMUL_S => Some "mul.s"%string
  | FMUL_D => Some "mul.d"%string
  | FDIV_S => Some "div.s"%string
  | FDIV_D => Some "div.d"%string
  | FABS_S => Some "abs.s"%string
  | FABS_D => Some "abs.d"%string
  | FMOV_S => Some "mov.s"%string
  | FMOV_D => Some "mov.d"%string
  | FNEG_S => Some "neg.s"%string
  | FNEG_D => Some "neg.d"%string
  | CVT_S_D => Some "cvt.s.d"%string
  | CVT_S_W => Some "cvt.s.w"%string
  | CVT_D_S => Some "cvt.d.s"%string
  | CVT_D_W => Some "cvt.d.w"%string
  | CVT_W_S => Some "cvt.w.s"%string
  | CVT_W_D => Some "cvt.w.d"%string
  | C_EQ_S => Some "c.eq.s"%string
  | C_EQ_D => Some "c.eq.d"%string
  | C_LT_S => Some "c.lt.s"%string
  | C_LT_D => Some "c.lt.d"%string
  | C_LE_S => Some "c.le.s"%string
  | C_LE_D => Some "c.le.d"%string
  | FSQRT_S => Some "sqrt.s"%string
  | FSQRT_D => Some "sqrt.d"%string
  | SYSCALL => Some "syscall"%string
  | BREAK => Some "break"%string
  | LUI => Some "lui"%string
  | MFC1 => Some "mfc1"%string
  | DMFC1 => Some "dmfc1"%string
  | CFC1 => Some "cfc1"%string
  | MTC1 => Some "mtc1"%string
  | DMTC1 => Some "dmtc1"%string
  | CTC1 => Some "ctc1"%string
  end.

(** [ss_op2format]. *)
Definition SS_OP_FORMAT (op : ss_opcode) : option string :=
  match op with
  | OP_NA => None
  | NOP | SYSCALL => Some ""%string
  | JUMP | JAL => Some "J"%string
  | JR | MTHI | MTLO => Some "s"%string
  | JALR => Some "d,s"%string
  | BEQ | BNE => Some "s,t,j"%string
  | BLEZ | BGTZ | BLTZ | BGEZ => Some "s,j"%string
  | BC1F | BC1T => Some "j"%string
  | LB | LBU | LH | LHU | LW | DLW | LWL | LWR | SB | SH | SW | DSW | SWL | SWR => Some "t,o(b)"%string
  | L_S | L_D | S_S | S_D => Some "T,o(b)"%string
  | DSZ => Some "o(b)"%string
  | LB_RR | LBU_RR | LH_RR | LHU_RR | LW_RR | DLW_RR | SB_RR | SH_RR | SW_RR | DSW_RR | LW_RR_R2
  | SW_RR_R2 => Some "t,(b+d)"%string
  | L_S_RR | L_D_RR | S_S_RR | S_D_RR | L_S_RR_R2 | S_S_RR_R2 => Some "T,(b+d)"%string
  | DSZ_RR => Some "(b+d)"%string
  | ADD | ADDU | SUB | SUBU | AND_ | OR | XOR | NOR | SLT | SLTU => Some "d,s,t"%string
  | ADDI | ADDIU | SLTI | SLTIU => Some "t,s,i"%string
  | MULT | MULTU | DIV | DIVU => Some "s,t"%string
  | MFHI | MFLO => Some "d"%string
  | ANDI | ORI | XORI => Some "t,s,u"%string
  | SLL | SRL | SRA => Some "d,t,H"%string
  | SLLV | SRLV | SRAV => Some "d,t,s"%string
  | FADD_S | FADD_D | FSUB_S | FSUB_D | FMUL_S | FMUL_D | FDIV_S | FDIV_D => Some "D,S,T"%string
  | FABS_S | FABS_D | FMOV_S | FMOV_D | FNEG_S | FNEG_D | CVT_S_D | CVT_S_W | CVT_D_S | CVT_D_W
  | CVT_W_S | CVT_W_D | FSQRT_S | FSQRT_D => Some "D,S"%string
  | C_EQ_S | C_EQ_D | C_LT_S | C_LT_D | C_LE_S | C_LE_D => Some "S,T"%string
  | BREAK => Some "B"%string
  | LUI => Some "t,U"%string
  | MFC1 | DMFC1 | CFC1 | MTC1 | DMTC1 | CTC1 => Some "t,S"%string
  end.

(** * Instructions *)

(** [SS_INST_TYPE]: the opcode word and the operand word. *)
Record ss_inst := mk_inst { inst_a : Z; inst_b : Z }.
#[global] Instance eta_ss_inst : Eta ss_inst := mk_eta (fun i => mk_inst (inst_a i) (inst_b i)).

Definition SS_INST_SIZE : Z := 8.

Definition SS_OPCODE (inst : ss_inst) : Z := Z.land (inst_a inst) 0xff.
Definition SS_COMP_OP (inst : ss_inst) : Z := Z.shiftr (Z.land (inst_a inst) 0xff00) 8.

(** Register, immediate and target fields. *)
Definition RS (inst : ss_inst) : Z := Z.shiftr (inst_b inst) 24.
Definition RT (inst : ss_inst) : Z := Z.land (Z.shiftr (inst_b inst) 16) 0xff.
Definition RD (inst : ss_inst) : Z := Z.land (Z.shiftr (inst_b inst) 8) 0xff.
Definition SHAMT (inst : ss_inst) : Z := Z.land (inst_b inst) 0xff.
Definition IMM (inst : ss_inst) : Z := s16 (Z.land (inst_b inst) 0xffff).
Definition UIMM (inst : ss_inst) : Z := Z.land (inst_b inst) 0xffff.
Definition TARG (inst : ss_inst) : Z := Z.land (inst_b inst) 0x3ffffff.
Definition BCODE (inst : ss_inst) : Z := Z.land (inst_b inst) 0xfffff.

(** * The decoder *)

Definition SS_MAX_MASK : Z := 255.

(** One DEFINST of ss_init_decoder. *)
Definition define_inst (tab : list ss_opcode) (e : ss_opcode * Z) : outcome (list ss_opcode) :=
  old ← c_get tab (Z.to_nat e.2);
  fatal_if (negb (bool_decide (old = OP_NA)));;
  fatal_if (SS_MAX_MASK <? e.2);;
  c_upd tab (Z.to_nat e.2) (fun _ => e.1).

Fixpoint define_insts (tab : list ss_opcode) (es : list (ss_opcode * Z)) : outcome (list ss_opcode) :=
  match es with
  | [] => Ok tab
  | e :: es' => tab ← define_inst tab e; define_insts tab es'
  end.

(** [ss_init_decoder], from the zeroed table. *)
Definition ss_init_decoder : outcome (list ss_opcode) :=
  define_insts (repeat OP_NA (Z.to_nat (SS_MAX_MASK + 1))) ss_insts.

(** [SS_OP_ENUM]. *)
Definition SS_OP_ENUM (tab : list ss_opcode) (msk : Z) : outcome ss_opcode := c_get tab (Z.to_nat msk).

(** * Properties *)

(** The decoder table can be built (no opcode field value is used twice or is too
    large), and it decodes the field value of each instruction of ss.def to that
    instruction; there is exactly one entry per opcode. *)
Theorem decoder_complete :
  exists tab, ss_init_decoder = Ok tab /\ length tab = 256%nat /\
    Forall (fun e => SS_OP_ENUM tab e.2 = Ok e.1) ss_insts /\
    NoDup ss_insts.*1 /\ (forall op, op = OP_NA \/ op ∈ ss_insts.*1).
Proof.
  exists (match ss_init_decoder with Ok tab => tab | _ => [] end).
  split; [by vm_compute|]. split; [by vm_compute|]. split; [|split].
  - apply (bool_decide_unpack _). vm_compute. exact I.
  - apply (bool_decide_unpack _). vm_compute. exact I.
  - intros op. apply (bool_decide_unpack _). destruct op; vm_compute; exact I.
Qed.

(** All bits of [f], or one of them, in the flags of an opcode. *)
Definition has (op : ss_opcode) (f : Z) : bool := Z.land (SS_OP_FLAGS op) f =? f.

(** The instruction flags the simulators rely on are consistent: a control
    instruction is either conditional or unconditional and jumps either directly or
    through a register, a call is unconditional; a memory instruction is either a
    load using a read port or a store using a write port, with one addressing mode;
    no instruction is in two classes. *)
Theorem flags_consistent (op : ss_opcode) :
  xorb (has op F_COND) (has op F_UNCOND) = has op F_CTRL /\
  xorb (has op F_DIRJMP) (has op F_INDIRJMP) = has op F_CTRL /\
  implb (has op F_CALL) (has op F_UNCOND) = true /\
  xorb (has op F_LOAD) (has op F_STORE) = has op F_MEM /\
  xorb (has op F_DISP) (has op F_RR) = has op F_MEM /\
  has op F_LOAD = bool_decide (SS_OP_FUCLASS op = RdPort) /\
  has op F_STORE = bool_decide (SS_OP_FUCLASS op = WrPort) /\
  b2z (has op F_ICOMP) + b2z (has op F_FCOMP) + b2z (has op F_CTRL) + b2z (has op F_MEM) + b2z (has op F_TRAP)
    = b2z (negb (bool_decide (op = OP_NA))).
Proof. destruct op; repeat split; done. Qed.
