(* ===== verification/Bpred.v ===== *)
(** bpred.c and bpred.h: the branch predictors.

    The direction predictors are tables of 2-bit counters; the pointers to counters
    that bpred_lookup hands to bpred_update are a table and an index.  The branch
    target buffer is one array whose sets are LRU chains of array indices; the
    return address stack is a circular array. *)

From Stdlib Require Import String.
From S2P Require Import Prelude Dll Isa.
Close Scope string_scope.
Open Scope Z_scope.

(** [enum bpred_class]. *)
Inductive bpred_class := BPredComb | BPred2Level | BPred2bit | BPredTaken | BPredNotTaken.

#[global] Instance bpred_class_eq_dec : EqDecision bpred_class.
Proof. solve_decision. Defined.

(** [struct bpred_btb_ent]. *)
Record bpred_btb_ent := mk_btb {
  addr : Z;
  op : ss_opcode;
  target : Z;
  prev : option nat;
  next : option nat;
}.
#[global] Instance eta_btb : Eta bpred_btb_ent := mk_eta (fun e =>
  mk_btb (addr e) (op e) (target e) (prev e) (next e)).

#[global] Program Instance btb_linked : Linked bpred_btb_ent := {|
  lprev := prev; lnext := next;
  set_lprev v e := e <| prev := v |>;
  set_lnext v e := e <| next := v |>;
|}.
Solve Obligations with done.

(** [struct bpred_dir]: the class and its side of the union. *)
Inductive bpred_dir :=
| Dir2bit (size : Z) (table : list Z)
| Dir2lev (l1size l2size shift_width : Z) (xor : bool) (shiftregs l2table : list Z)
| DirStatic (class : bpred_class).

(** [struct bpred]. *)
Record bpred := mk_bpred {
  class : bpred_class;
  bimod : option bpred_dir;
  twolev : option bpred_dir;
  meta : option bpred_dir;
  btb_sets : Z;
  btb_assoc : Z;
  btb_data : list bpred_btb_ent;
  rs_size : Z;
  tos : Z;
  stack : list Z;        (* the targets of the entries of retstack.stack *)
  addr_hits : Z;
  dir_hits : Z;
  used_bimod : Z;
  used_2lev : Z;
  jr_hits : Z;
  jr_seen : Z;
  misses : Z;
  lookups : Z;
  retstack_pops : Z;
  retstack_pushes : Z;
}.
#[global] Instance eta_bpred : Eta bpred := mk_eta (fun p =>
  mk_bpred (class p) (bimod p) (twolev p) (meta p) (btb_sets p) (btb_assoc p) (btb_data p) (rs_size p) (tos p)
    (stack p) (addr_hits p) (dir_hits p) (used_bimod p) (used_2lev p) (jr_hits p) (jr_seen p) (misses p)
    (lookups p) (retstack_pops p) (retstack_pushes p)).

(** A pointer to a counter: the predictor it is in and its index. *)
Inductive dir_id := PBimod | PTwolev | PMeta.

#[global] Instance dir_id_eq_dec : EqDecision dir_id.
Proof. solve_decision. Defined.

Definition ctr_ptr : Type := dir_id * nat.

(** [struct bpred_update]; the one-bit fields are booleans. *)
Record bpred_update_rec := mk_upd {
  pdir1 : option ctr_ptr;
  pdir2 : option ctr_ptr;
  pmeta : option ctr_ptr;
  dir_bimod : bool;
  dir_twolev : bool;
  dir_meta : bool;
}.
#[global] Instance eta_upd : Eta bpred_update_rec := mk_eta (fun u =>
  mk_upd (pdir1 u) (pdir2 u) (pmeta u) (dir_bimod u) (dir_twolev u) (dir_meta u)).

(** * Creation *)

(** The counters alternate between weakly not taken and weakly taken. *)
Fixpoint flipflop_table (n : nat) (flipflop : Z) : list Z :=
  match n with O => [] | S n' => flipflop :: flipflop_table n' (3 - flipflop) end.

Definition bpred_dir_create (c : bpred_class) (l1size l2size shift_width : Z) (xor : bool) : outcome bpred_dir :=
  match c with
  | BPred2Level =>
      fatal_if ((l1size =? 0) || not_pow2 l1size);;
      fatal_if ((l2size =? 0) || not_pow2 l2size);;
      fatal_if ((shift_width =? 0) || (30 <? shift_width));;
      Ok (Dir2lev (s32 l1size) (s32 l2size) (s32 shift_width) xor (repeat 0 (Z.to_nat l1size)) (flipflop_table (Z.to_nat l2size) 1))
  | BPred2bit =>
      fatal_if ((l1size =? 0) || not_pow2 l1size);;
      Ok (Dir2bit l1size (flipflop_table (Z.to_nat l1size) 1))
  | BPredTaken | BPredNotTaken => Ok (DirStatic c)
  | BPredComb => Panic
  end.

Definition zero_btb : bpred_btb_ent := mk_btb 0 OP_NA 0 None None.

(** One iteration of the loop that links each set of the BTB into a chain. *)
Definition link_btb (assoc i : Z) (d : list bpred_btb_ent) : outcome (list bpred_btb_ent) :=
  let last := i mod assoc =? assoc - 1 in
  d ← c_upd d (Z.to_nat i) (fun e => e <| next := if last then None else Some (Z.to_nat (i + 1)) |>);
  if last then Ok d else c_upd d (Z.to_nat (i + 1)) (fun e => e <| prev := Some (Z.to_nat i) |>).

Fixpoint link_btbs (assoc : Z) (idxs : list nat) (d : list bpred_btb_ent) : outcome (list bpred_btb_ent) :=
  match idxs with
  | [] => Ok d
  | i :: idxs' => d ← link_btb assoc (Z.of_nat i) d; link_btbs assoc idxs' d
  end.

Definition zero_bpred (c : bpred_class) : bpred :=
  mk_bpred c None None None 0 0 [] 0 0 [] 0 0 0 0 0 0 0 0 0 0.

(** The second switch of bpred_create: BTB and return address stack.  The sizes are
    unsigned parameters kept in int fields; the product that bounds the loop is an
    int multiplication, which must not overflow. *)
Definition create_btb (sets assoc retstack_size : Z) (p : bpred) : outcome bpred :=
  fatal_if ((sets =? 0) || not_pow2 sets);;
  fatal_if ((assoc =? 0) || not_pow2 assoc);;
  let n := Z.to_nat (u32 (sets * assoc)) in
  let d := repeat zero_btb n in
  d ← (if 1 <? s32 assoc then
         if s32 (sets * assoc) =? s32 sets * s32 assoc then link_btbs assoc (seq 0 n) d else Undef
       else Ok d);
  fatal_if (not_pow2 retstack_size);;
  Ok (p <| btb_sets := s32 sets |> <| btb_assoc := s32 assoc |> <| btb_data := d |>
        <| rs_size := s32 retstack_size |> <| stack := repeat 0 (Z.to_nat retstack_size) |>
        <| tos := s32 (retstack_size - 1) |>).

Definition bpred_create (c : bpred_class) (bimod_size l1size l2size meta_size shift_width : Z) (xor : bool)
    (sets assoc retstack_size : Z) : outcome bpred :=
  let p := zero_bpred c in
  match c with
  | BPredComb =>
      b ← bpred_dir_create BPred2bit bimod_size 0 0 false;
      t ← bpred_dir_create BPred2Level l1size l2size shift_width xor;
      m ← bpred_dir_create BPred2bit meta_size 0 0 false;
      create_btb sets assoc retstack_size (p <| bimod := Some b |> <| twolev := Some t |> <| meta := Some m |>)
  | BPred2Level =>
      t ← bpred_dir_create c l1size l2size shift_width xor;
      create_btb sets assoc retstack_size (p <| twolev := Some t |>)
  | BPred2bit =>
      b ← bpred_dir_create c bimod_size 0 0 false;
      create_btb sets assoc retstack_size (p <| bimod := Some b |>)
  | BPredTaken | BPredNotTaken => Ok p
  end.

(** * Configuration output: what is printed, in order *)

Inductive config_line :=
| Cfg2lev (name : string) (l1size shift_width : Z) (xor : bool) (l2size : Z)
| Cfg2bit (name : string) (size : Z)
| CfgTaken (name : string)
| CfgNotTaken (name : string)
| CfgBtb (sets assoc : Z)
| CfgRetstack (size : Z).

Definition bpred_dir_config (d : option bpred_dir) (name : string) : outcome (list config_line) :=
  d ← deref d;
  match d with
  | Dir2lev l1 l2 w x _ _ => Ok [Cfg2lev name l1 w x l2]
  | Dir2bit n _ => Ok [Cfg2bit name n]
  | DirStatic BPredTaken => Ok [CfgTaken name]
  | DirStatic BPredNotTaken => Ok [CfgNotTaken name]
  | DirStatic _ => Panic
  end.

Definition bpred_config (p : bpred) : outcome (list config_line) :=
  let tables := [CfgBtb (btb_sets p) (btb_assoc p); CfgRetstack (rs_size p)] in
  match class p with
  | BPredComb =>
      a ← bpred_dir_config (bimod p) "bimod"%string;
      b ← bpred_dir_config (twolev p) "2lev"%string;
      c ← bpred_dir_config (meta p) "meta"%string;
      Ok (a ++ b ++ c ++ tables)
  | BPred2Level => b ← bpred_dir_config (twolev p) "2lev"%string; Ok (b ++ tables)
  | BPred2bit => a ← bpred_dir_config (bimod p) "bimod"%string; Ok (a ++ tables)
  | BPredTaken => bpred_dir_config (bimod p) "taken"%string
  | BPredNotTaken => bpred_dir_config (bimod p) "nottaken"%string
  end.

(** [bpred_after_priming]: NULL is no predictor. *)
Definition bpred_after_priming (p : option bpred) : option bpred :=
  (fun p => p <| lookups := 0 |> <| addr_hits := 0 |> <| dir_hits := 0 |> <| used_bimod := 0 |>
    <| used_2lev := 0 |> <| jr_hits := 0 |> <| jr_seen := 0 |> <| misses := 0 |> <| retstack_pops := 0 |>
    <| retstack_pushes := 0 |>) <$> p.

(** * Lookup *)

Definition BIMOD_HASH (size a : Z) : Z := Z.land (Z.lxor (Z.shiftr a 19) (Z.shiftr a 3)) (size - 1).

(** The index of the counter of a branch, [None] for NULL. *)
Definition bpred_dir_lookup (d : bpred_dir) (baddr : Z) : outcome (option nat) :=
  match d with
  | Dir2lev l1size l2size shift_width xor shiftregs _ =>
      let l1index := Z.land (Z.shiftr baddr 3) (l1size - 1) in
      sr ← c_get shiftregs (Z.to_nat l1index);
      let l2index := if xor then Z.lxor sr (Z.shiftr baddr 3)
                     else Z.lor sr (u32 (Z.shiftl (Z.shiftr baddr 3) shift_width)) in
      Ok (Some (Z.to_nat (Z.land l2index (l2size - 1))))
  | Dir2bit size _ => Ok (Some (Z.to_nat (BIMOD_HASH size baddr)))
  | DirStatic BPredTaken | DirStatic BPredNotTaken => Ok None
  | DirStatic _ => Panic
  end.

Definition dir_table (d : bpred_dir) : list Z :=
  match d with Dir2bit _ t => t | Dir2lev _ _ _ _ _ t => t | DirStatic _ => [] end.

Definition set_dir_table (d : bpred_dir) (t : list Z) : bpred_dir :=
  match d with
  | Dir2bit n _ => Dir2bit n t
  | Dir2lev l1 l2 w x sr _ => Dir2lev l1 l2 w x sr t
  | DirStatic c => DirStatic c
  end.

Definition get_dir (p : bpred) (i : dir_id) : option bpred_dir :=
  match i with PBimod => bimod p | PTwolev => twolev p | PMeta => meta p end.

Definition set_dir (p : bpred) (i : dir_id) (d : bpred_dir) : bpred :=
  match i with
  | PBimod => p <| bimod := Some d |>
  | PTwolev => p <| twolev := Some d |>
  | PMeta => p <| meta := Some d |>
  end.

(** Reading and writing through a pointer to a counter. *)
Definition get_ctr (p : bpred) (q : option ctr_ptr) : outcome Z :=
  '(i, k) ← deref q; d ← deref (get_dir p i); c_get (dir_table d) k.

Definition upd_ctr (p : bpred) (q : option ctr_ptr) (f : Z -> Z) : outcome bpred :=
  '(i, k) ← deref q;
  d ← deref (get_dir p i);
  t ← c_upd (dir_table d) k f;
  Ok (set_dir p i (set_dir_table d t)).

(** [bpred_dir_lookup] on one of the three direction predictors. *)
Definition dir_ptr (p : bpred) (i : dir_id) (baddr : Z) : outcome (option ctr_ptr) :=
  d ← deref (get_dir p i);
  k ← bpred_dir_lookup d baddr;
  Ok (option_map (fun k : nat => (i, k)) k).

Definition uncond (o : ss_opcode) : bool :=
  Z.land (SS_OP_FLAGS o) (Z.lor F_CTRL F_UNCOND) =? Z.lor F_CTRL F_UNCOND.

Definition is_ctrl (o : ss_opcode) : bool := truth (Z.land (SS_OP_FLAGS o) F_CTRL).

(** The direction part of bpred_lookup for the stateful predictors. *)
Definition lookup_dirs (p : bpred) (baddr : Z) (o : ss_opcode) (u : bpred_update_rec) : outcome bpred_update_rec :=
  let u := u <| pdir1 := None |> <| pdir2 := None |> <| pmeta := None |> in
  if uncond o then Ok u
  else
    match class p with
    | BPredComb =>
        b ← dir_ptr p PBimod baddr;
        t ← dir_ptr p PTwolev baddr;
        m ← dir_ptr p PMeta baddr;
        mv ← get_ctr p m;
        bv ← get_ctr p b;
        tv ← get_ctr p t;
        let u := u <| pmeta := m |> <| dir_meta := 2 <=? mv |> <| dir_bimod := 2 <=? bv |>
                   <| dir_twolev := 2 <=? tv |> in
        Ok (if 2 <=? mv then u <| pdir1 := t |> <| pdir2 := b |> else u <| pdir1 := b |> <| pdir2 := t |>)
    | BPred2Level => t ← dir_ptr p PTwolev baddr; Ok (u <| pdir1 := t |>)
    | BPred2bit => b ← dir_ptr p PBimod baddr; Ok (u <| pdir1 := b |>)
    | BPredTaken | BPredNotTaken => Ok u
    end.

(** The index of the first entry of the set. *)
Definition btb_index (p : bpred) (baddr : Z) : Z :=
  let index := Z.land (Z.shiftr baddr 3) (btb_sets p - 1) in
  if 1 <? btb_assoc p then index * btb_assoc p else index.

(** The search of a set for the branch. *)
Fixpoint btb_find (d : list bpred_btb_ent) (baddr : Z) (idxs : list nat) : outcome (option nat) :=
  match idxs with
  | [] => Ok None
  | i :: idxs' =>
      e ← c_get d i;
      if addr e =? baddr then Ok (Some i) else btb_find d baddr idxs'
  end.

Definition btb_set (p : bpred) (baddr : Z) : list nat :=
  seq (Z.to_nat (btb_index p baddr)) (Z.to_nat (btb_assoc p)).

Definition btb_lookup (p : bpred) (baddr : Z) : outcome (option nat) :=
  if 1 <? btb_assoc p then btb_find (btb_data p) baddr (btb_set p baddr)
  else
    e ← c_get (btb_data p) (Z.to_nat (btb_index p baddr));
    Ok (if addr e =? baddr then Some (Z.to_nat (btb_index p baddr)) else None).

(** What bpred_lookup returns: the predictor, the update record, the saved top of
    stack ([*stack_recover_idx], untouched on some paths) and the predicted address. *)
Record lookup_result := mk_look {
  l_pred : bpred;
  l_upd : bpred_update_rec;
  l_recover : Z;
  l_addr : Z;
}.

Definition bpred_lookup (p : bpred) (baddr btarget : Z) (o : ss_opcode) (r31p : bool)
    (u : option bpred_update_rec) (recover : Z) : outcome lookup_result :=
  match u with
  | None => Panic
  | Some u =>
      if negb (is_ctrl o) then Ok (mk_look p u recover 0)
      else
        let p := p <| lookups ::= Z.add 1 |> in
        u ← lookup_dirs p baddr o u;
        match class p with
        | BPredTaken => Ok (mk_look p u recover btarget)
        | BPredNotTaken =>
            Ok (mk_look p u recover (if uncond o then btarget else u32 (baddr + SS_INST_SIZE)))
        | _ =>
            let recover := if truth (rs_size p) then tos p else 0 in
            if bool_decide (o = JR) && r31p && truth (rs_size p) then
              t ← c_get (stack p) (Z.to_nat (tos p));
              Ok (mk_look (p <| tos := (tos p + rs_size p - 1) mod rs_size p |> <| retstack_pops ::= Z.add 1 |>)
                    u recover t)
            else
              hit ← btb_lookup p baddr;
              if uncond o then
                match hit with
                | Some i => e ← c_get (btb_data p) i; Ok (mk_look p u recover (target e))
                | None => Ok (mk_look p u recover 1)
                end
              else
                c ← get_ctr p (pdir1 u);
                match hit with
                | Some i =>
                    e ← c_get (btb_data p) i;
                    Ok (mk_look p u recover (if 2 <=? c then target e else 0))
                | None => Ok (mk_look p u recover (if 2 <=? c then 1 else 0))
                end
        end
  end.

Definition bpred_recover (p : option bpred) (stack_recover_idx : Z) : option bpred :=
  (fun p => p <| tos := stack_recover_idx |>) <$> p.

(** * Update *)

(** The statistics at the head of bpred_update. *)
Definition update_stats (p : bpred) (taken pred_taken : Z) (correct : bool) (u : bpred_update_rec) : bpred :=
  let p := if correct then p <| addr_hits ::= Z.add 1 |> else p in
  let p := if eqb (truth pred_taken) (truth taken) then p <| dir_hits ::= Z.add 1 |>
           else p <| misses ::= Z.add 1 |> in
  if dir_meta u then p <| used_2lev ::= Z.add 1 |> else p <| used_bimod ::= Z.add 1 |>.

(** A function call pushes its return address. *)
Definition push_retstack (p : bpred) (baddr : Z) (o : ss_opcode) : outcome bpred :=
  if (Z.land (SS_OP_FLAGS o) (Z.lor F_CTRL F_CALL) =? Z.lor F_CTRL F_CALL) && truth (rs_size p) then
    let p := p <| tos := (tos p + 1) mod rs_size p |> in
    s ← c_upd (stack p) (Z.to_nat (tos p)) (fun _ => u32 (baddr + SS_INST_SIZE));
    Ok (p <| stack := s |> <| retstack_pushes ::= Z.add 1 |>)
  else Ok p.

(** The history register of a conditional branch. *)
Definition update_history (p : bpred) (baddr taken : Z) (o : ss_opcode) : outcome bpred :=
  if negb (uncond o) && (bool_decide (class p = BPred2Level) || bool_decide (class p = BPredComb)) then
    d ← deref (twolev p);
    match d with
    | Dir2lev l1size l2size w xor shiftregs t =>
        let l1index := Z.to_nat (Z.land (Z.shiftr baddr 3) (l1size - 1)) in
        sr ← c_get shiftregs l1index;
        let shift_reg := Z.lor (s32 (Z.shiftl sr 1)) (b2z (truth taken)) in
        srs ← c_upd shiftregs l1index (fun _ => Z.land shift_reg (Z.shiftl 1 w - 1));
        Ok (p <| twolev := Some (Dir2lev l1size l2size w xor srs t) |>)
    | _ => Undef
    end
  else Ok p.

(** The scan of a set for the branch, the MRU and the LRU entries, with its
    assertions. *)
Record btb_scan := mk_scan { sc_pbtb : option nat; sc_head : option nat; sc_item : option nat }.

Fixpoint scan_btb (d : list bpred_btb_ent) (baddr : Z) (idxs : list nat) (s : btb_scan) : outcome btb_scan :=
  match idxs with
  | [] => Ok s
  | i :: idxs' =>
      e ← c_get d i;
      pb ← (if addr e =? baddr then
              c_assert (negb (bool_decide (is_Some (sc_pbtb s))));; Ok (Some i)
            else Ok (sc_pbtb s));
      c_assert (negb (bool_decide (prev e = next e)));;
      hd ← (match prev e with
            | None => c_assert (negb (bool_decide (is_Some (sc_head s))));; Ok (Some i)
            | Some _ => Ok (sc_head s)
            end);
      it ← (match next e with
            | None => c_assert (negb (bool_decide (is_Some (sc_item s))));; Ok (Some i)
            | Some _ => Ok (sc_item s)
            end);
      scan_btb d baddr idxs' (mk_scan pb hd it)
  end.

(** Splicing entry [i] out of its chain and in again at the head. *)
Definition btb_to_head (d : list bpred_btb_ent) (i lruhead : nat) : outcome (list bpred_btb_ent) :=
  e ← c_get d i;
  d ← (match prev e with Some q => c_upd d q (fun x => x <| next := next e |>) | None => Ok d end);
  e ← c_get d i;
  d ← (match next e with Some q => c_upd d q (fun x => x <| prev := prev e |>) | None => Ok d end);
  d ← c_upd d i (fun x => x <| next := Some lruhead |>);
  d ← c_upd d i (fun x => x <| prev := None |>);
  d ← c_upd d lruhead (fun x => x <| prev := Some i |>);
  e ← c_get d i;
  c_assert (bool_decide (is_Some (prev e)) || bool_decide (is_Some (next e)));;
  c_assert (negb (bool_decide (prev e = next e)));;
  Ok d.

(** The entry of a taken branch: the one that matches or the LRU one, made MRU. *)
Definition btb_select (p : bpred) (baddr : Z) : outcome (bpred * nat) :=
  if 1 <? btb_assoc p then
    s ← scan_btb (btb_data p) baddr (btb_set p baddr) (mk_scan None None None);
    lruhead ← match sc_head s with Some h => Ok h | None => AssertFail end;
    lruitem ← match sc_item s with Some h => Ok h | None => AssertFail end;
    let pbtb := default lruitem (sc_pbtb s) in
    if bool_decide (pbtb = lruhead) then Ok (p, pbtb)
    else d ← btb_to_head (btb_data p) pbtb lruhead; Ok (p <| btb_data := d |>, pbtb)
  else Ok (p, Z.to_nat (btb_index p baddr)).

(** A 2-bit counter follows the branch. *)
Definition sat_step (up : bool) (c : Z) : Z :=
  if up then if c <? 3 then c + 1 else c else if 0 <? c then c - 1 else c.

Definition update_ctr (p : bpred) (q : option ctr_ptr) (up : bool) : outcome bpred :=
  match q with Some _ => upd_ctr p q (sat_step up) | None => Ok p end.

(** The meta predictor; [taken] is compared as an unsigned int with a one-bit field. *)
Definition update_meta (p : bpred) (u : bpred_update_rec) (taken : Z) : outcome bpred :=
  match pmeta u with
  | Some _ =>
      if negb (eqb (dir_bimod u) (dir_twolev u)) then
        upd_ctr p (pmeta u) (sat_step (b2z (dir_twolev u) =? u32 taken))
      else Ok p
  | None => Ok p
  end.

Definition update_btb (p : bpred) (pbtb : option nat) (baddr btarget : Z) (correct : bool) (o : ss_opcode)
    : outcome bpred :=
  match pbtb with
  | None => Ok p
  | Some i =>
      e ← c_get (btb_data p) i;
      d ← c_upd (btb_data p) i (fun e =>
        if addr e =? baddr then if correct then e else e <| target := btarget |>
        else e <| addr := baddr |> <| op := o |> <| target := btarget |>);
      Ok (p <| btb_data := d |>)
  end.

Definition bpred_update (p : bpred) (baddr btarget taken pred_taken : Z) (correct : bool) (o : ss_opcode)
    (r31p : bool) (u : option bpred_update_rec) : outcome bpred :=
  if negb (is_ctrl o) then Ok p
  else
    u ← deref u;
    let p := update_stats p taken pred_taken correct u in
    let p := if bool_decide (o = JR) then
               let p := p <| jr_seen ::= Z.add 1 |> in
               if correct then p <| jr_hits ::= Z.add 1 |> else p
             else p in
    if bool_decide (o = JR) && r31p && truth (rs_size p) then Ok p
    else if bool_decide (class p = BPredNotTaken) || bool_decide (class p = BPredTaken) then Ok p
    else
      p ← push_retstack p baddr o;
      p ← update_history p baddr taken o;
      '(p, pbtb) ← (if truth taken then '(p, i) ← btb_select p baddr; Ok (p, Some i) else Ok (p, None));
      p ← update_ctr p (pdir1 u) (truth taken);
      p ← update_ctr p (pdir2 u) (truth taken);
      p ← update_meta p u taken;
      update_btb p pbtb baddr btarget correct o.
