(* ===== verification/BpredWf.v ===== *)
(** The invariant of the stateful branch predictors, and what each part of bpred.c
    does to it. *)

From S2P Require Import Prelude Dll Misc Isa Bpred.

(** * The invariant *)

Definition ctr_ok (c : Z) : Prop := 0 <= c <= 3.

(** A power of two, as the code tests it. *)
Definition pow2 (n : Z) : Prop := 0 < n /\ not_pow2 n = false.

Definition table_ok (n : Z) (t : list Z) : Prop := pow2 n /\ length t = Z.to_nat n /\ Forall ctr_ok t.

Inductive dir_ok : bpred_dir -> Prop :=
| dir_ok_2bit n t : table_ok n t -> dir_ok (Dir2bit n t)
| dir_ok_2lev l1 l2 w x sr t :
    pow2 l1 -> length sr = Z.to_nat l1 -> 0 < w <= 30 -> Forall (fun r => 0 <= r < 2 ^ w) sr ->
    table_ok l2 t -> dir_ok (Dir2lev l1 l2 w x sr t).

Definition is_2lev (d : bpred_dir) : bool := match d with Dir2lev _ _ _ _ _ _ => true | _ => false end.

(** The direction predictors a class needs. *)
Definition needs (c : bpred_class) (i : dir_id) : bool :=
  match c, i with
  | BPredComb, _ => true
  | BPred2Level, PTwolev => true
  | BPred2bit, PBimod => true
  | _, _ => false
  end.

Definition dirs_ok (p : bpred) : Prop :=
  forall i, needs (class p) i = true ->
    exists d, get_dir p i = Some d /\ dir_ok d /\ is_2lev d = bool_decide (i = PTwolev).

Definition rs_ok (p : bpred) : Prop :=
  length (stack p) = Z.to_nat (rs_size p) /\ (rs_size p = 0 \/ pow2 (rs_size p) /\ 0 <= tos p < rs_size p).

(** Set [s] of the BTB is the chain [l], most recently used entry first. *)
Definition btb_chain (p : bpred) (s : nat) (l : list nat) : Prop :=
  l ≡ₚ seq (s * Z.to_nat (btb_assoc p)) (Z.to_nat (btb_assoc p)) /\
  (1 < btb_assoc p -> dllseg (btb_data p) None l None).

(** No two entries of a set track the same branch; address 0 marks a free entry. *)
Definition btb_unique (p : bpred) (l : list nat) : Prop :=
  forall i j e f, i ∈ l -> j ∈ l -> btb_data p !! i = Some e -> btb_data p !! j = Some f ->
    addr e <> 0 -> addr e = addr f -> i = j.

Record btb_ok (p : bpred) : Prop := {
  bo_sets : pow2 (btb_sets p);
  bo_assoc : pow2 (btb_assoc p);
  bo_len : length (btb_data p) = (Z.to_nat (btb_sets p) * Z.to_nat (btb_assoc p))%nat;
  bo_chain : forall s, (s < Z.to_nat (btb_sets p))%nat -> exists l, btb_chain p s l /\ btb_unique p l;
}.

Record bpred_wf (p : bpred) : Prop := {
  bw_class : class p <> BPredTaken /\ class p <> BPredNotTaken;
  bw_dirs : dirs_ok p;
  bw_rs : rs_ok p;
  bw_btb : btb_ok p;
}.

(** A pointer into the tables. *)
Definition ptr_ok (p : bpred) (q : option ctr_ptr) : Prop :=
  match q with
  | None => True
  | Some (i, k) => needs (class p) i = true /\ exists d, get_dir p i = Some d /\ (k < length (dir_table d))%nat
  end.

Definition upd_ok (p : bpred) (u : bpred_update_rec) : Prop :=
  ptr_ok p (pdir1 u) /\ ptr_ok p (pdir2 u) /\ ptr_ok p (pmeta u).

(** What the parts of the predictor depend on. *)
Definition same_dirs (p p' : bpred) : Prop :=
  class p' = class p /\ forall i, get_dir p' i = get_dir p i.
Definition same_rs (p p' : bpred) : Prop := rs_size p' = rs_size p /\ tos p' = tos p /\ stack p' = stack p.
Definition same_btb (p p' : bpred) : Prop :=
  btb_sets p' = btb_sets p /\ btb_assoc p' = btb_assoc p /\ btb_data p' = btb_data p.

Lemma dirs_ok_same p p' : same_dirs p p' -> dirs_ok p -> dirs_ok p'.
Proof. intros [Hc Hd] Hok i. rewrite Hc, Hd. apply Hok. Qed.

Lemma rs_ok_same p p' : same_rs p p' -> rs_ok p -> rs_ok p'.
Proof. intros (H1 & H2 & H3). unfold rs_ok. by rewrite H1, H2, H3. Qed.

Lemma btb_chain_same p p' s l : same_btb p p' -> btb_chain p s l -> btb_chain p' s l.
Proof. intros (H1 & H2 & H3). unfold btb_chain. by rewrite H2, H3. Qed.

Lemma btb_ok_same p p' : same_btb p p' -> btb_ok p -> btb_ok p'.
Proof.
  intros Hs [H1 H2 H3 H4]. pose proof Hs as (E1 & E2 & E3). split; rewrite ?E1, ?E2, ?E3; try done.
  intros s Hlt. destruct (H4 s Hlt) as (l & Hc & Hu). exists l. split; [by eapply btb_chain_same|].
  unfold btb_unique. by rewrite E3.
Qed.

Lemma bpred_wf_same p p' : same_dirs p p' -> same_rs p p' -> same_btb p p' -> bpred_wf p -> bpred_wf p'.
Proof.
  intros Hd Hr Hb [Hc H1 H2 H3]. split.
  - by rewrite (proj1 Hd).
  - by eapply dirs_ok_same.
  - by eapply rs_ok_same.
  - by eapply btb_ok_same.
Qed.

Lemma ptr_ok_same p p' q : same_dirs p p' -> ptr_ok p q -> ptr_ok p' q.
Proof. intros [Hc Hd]. destruct q as [[i k]|]; simpl; [|done]. by rewrite Hc, Hd. Qed.

Lemma pow2_land (n x : Z) : pow2 n -> 0 <= Z.land x (n - 1) < n.
Proof. intros [Hn _]. pose proof (land_nonneg_r x (n - 1)). pose proof (land_le_r x (n - 1)). lia. Qed.

Lemma pow2_index (n x : Z) : pow2 n -> (Z.to_nat (Z.land x (n - 1)) < Z.to_nat n)%nat.
Proof. intros H. pose proof (pow2_land n x H). destruct H. lia. Qed.

(** * Direction predictors *)

Lemma bpred_dir_lookup_ok d baddr : dir_ok d ->
  exists k, bpred_dir_lookup d baddr = Ok (Some k) /\ (k < length (dir_table d))%nat.
Proof.
  intros [n t (Hp & Hl & _)|l1 l2 w x sr t Hl1 Hsr _ _ (Hp & Hl & _)]; cbn [bpred_dir_lookup dir_table].
  - eexists. split; [done|]. rewrite Hl. unfold BIMOD_HASH. by apply pow2_index.
  - destruct (lookup_lt_is_Some_2 sr (Z.to_nat (Z.land (Z.shiftr baddr 3) (l1 - 1)))) as [r Hr].
    { rewrite Hsr. by apply pow2_index. }
    rewrite (c_get_some _ _ _ Hr). cbn [mbind outcome_bind]. eexists. split; [done|]. rewrite Hl. by apply pow2_index.
Qed.

Lemma dir_ptr_ok p i baddr : dirs_ok p -> needs (class p) i = true ->
  exists k, dir_ptr p i baddr = Ok (Some (i, k)) /\ ptr_ok p (Some (i, k)).
Proof.
  intros Hd Hn. destruct (Hd i Hn) as (d & Hg & Hok & _). unfold dir_ptr. rewrite Hg. cbn [deref mbind outcome_bind].
  destruct (bpred_dir_lookup_ok d baddr Hok) as (k & -> & Hk). cbn [mbind outcome_bind option_map].
  exists k. split; [done|]. split; [done|]. by exists d.
Qed.

Lemma dir_table_all d : dir_ok d -> Forall ctr_ok (dir_table d).
Proof. by intros [n t (_ & _ & H)|l1 l2 w x sr t _ _ _ _ (_ & _ & H)]. Qed.

Lemma dir_table_ctr d k c : dir_ok d -> dir_table d !! k = Some c -> ctr_ok c.
Proof. intros Hd Hk. by apply (Forall_lookup_1 _ _ _ _ (dir_table_all d Hd) Hk). Qed.

(** The counter a valid pointer designates. *)
Lemma get_ctr_ok p i k : dirs_ok p -> ptr_ok p (Some (i, k)) ->
  exists c, get_ctr p (Some (i, k)) = Ok c /\ ctr_ok c.
Proof.
  intros Hd (Hn & d & Hg & Hk). destruct (Hd i Hn) as (d' & Hg' & Hok & _). simplify_eq.
  destruct (lookup_lt_is_Some_2 _ _ Hk) as [c Hc]. exists c. split; [|by eapply dir_table_ctr].
  unfold get_ctr. cbn [deref mbind outcome_bind]. rewrite Hg. cbn [deref mbind outcome_bind]. by apply c_get_some.
Qed.

Lemma set_dir_table_ok d t : dir_ok d -> length t = length (dir_table d) -> Forall ctr_ok t ->
  dir_ok (set_dir_table d t).
Proof.
  intros [n t0 (Hp & Hl & _)|l1 l2 w x sr t0 Hl1 Hsr Hw Hrg (Hp & Hl & _)] Hlen Hall; simpl in *.
  - constructor. split; [done|]. split; [congruence|done].
  - constructor; try done. split; [done|]. split; [congruence|done].
Qed.

Lemma get_set_dir p i j d : get_dir (set_dir p i d) j = if decide (i = j) then Some d else get_dir p j.
Proof. destruct i, j; done. Qed.

Lemma set_dir_class p i d : class (set_dir p i d) = class p.
Proof. by destruct i. Qed.

Lemma set_dir_same_rs p i d : same_rs p (set_dir p i d).
Proof. by destruct i. Qed.

Lemma set_dir_same_btb p i d : same_btb p (set_dir p i d).
Proof. by destruct i. Qed.

(** Two predictors with the same tables up to the contents: pointers stay valid. *)
Definition dir_len (d : option bpred_dir) : option nat := (fun d => length (dir_table d)) <$> d.

Definition same_shape (p p' : bpred) : Prop :=
  class p' = class p /\ forall i, dir_len (get_dir p' i) = dir_len (get_dir p i).

Lemma same_shape_refl p : same_shape p p.
Proof. done. Qed.

Lemma same_shape_trans p p' p'' : same_shape p p' -> same_shape p' p'' -> same_shape p p''.
Proof. intros [H1 H2] [H3 H4]. split; [congruence|]. intros i. by rewrite H4. Qed.

Lemma same_dirs_shape p p' : same_dirs p p' -> same_shape p p'.
Proof. intros [H1 H2]. split; [done|]. intros i. by rewrite H2. Qed.

Lemma ptr_ok_shape p p' q : same_shape p p' -> ptr_ok p q -> ptr_ok p' q.
Proof.
  intros [Hc Hd]. destruct q as [[i k]|]; simpl; [|done]. rewrite Hc.
  intros (Hn & d & Hg & Hk). split; [done|]. specialize (Hd i). rewrite Hg in Hd.
  destruct (get_dir p' i) as [d'|]; simplify_eq/=. exists d'. split; [done|]. lia.
Qed.

Lemma upd_ok_shape p p' u : same_shape p p' -> upd_ok p u -> upd_ok p' u.
Proof. intros Hs (H1 & H2 & H3). split_and!; by eapply ptr_ok_shape. Qed.

(** Replacing a direction predictor by a sound one of the same kind and size. *)
Lemma set_dir_ok p i d d' : dirs_ok p -> get_dir p i = Some d -> dir_ok d' -> is_2lev d' = is_2lev d ->
  length (dir_table d') = length (dir_table d) ->
  dirs_ok (set_dir p i d') /\ same_shape p (set_dir p i d').
Proof.
  intros Hd Hg Hok H2 Hl. split; [|split; [apply set_dir_class|]].
  - intros j. rewrite set_dir_class, get_set_dir. intros Hn. destruct (decide (i = j)) as [<-|]; [|by apply Hd].
    exists d'. split_and!; [done..|]. destruct (Hd _ Hn) as (d0 & Hg0 & _ & H20). simplify_eq. by rewrite H2.
  - intros j. rewrite get_set_dir. destruct (decide (i = j)) as [<-|]; [|done]. rewrite Hg. simpl. by rewrite Hl.
Qed.

Lemma sat_step_ok up c : ctr_ok c -> ctr_ok (sat_step up c).
Proof. unfold ctr_ok, sat_step. intros. destruct up; [destruct (Z.ltb_spec c 3)|destruct (Z.ltb_spec 0 c)]; lia. Qed.

Lemma dir_table_set d t : dir_ok d -> dir_table (set_dir_table d t) = t.
Proof. by intros []. Qed.

Lemma is_2lev_set d t : is_2lev (set_dir_table d t) = is_2lev d.
Proof. by destruct d. Qed.

(** An update through a pointer changes the counter it designates, by one saturating
    step, and nothing else. *)
Lemma upd_ctr_ok p i k up : dirs_ok p -> ptr_ok p (Some (i, k)) ->
  exists p' d c, upd_ctr p (Some (i, k)) (sat_step up) = Ok p' /\ get_dir p i = Some d /\ dir_table d !! k = Some c /\
    p' = set_dir p i (set_dir_table d (<[k := sat_step up c]> (dir_table d))) /\ dirs_ok p' /\ same_shape p p'.
Proof.
  intros Hd (Hn & d & Hg & Hk). destruct (Hd i Hn) as (d' & Hg' & Hok & _). simplify_eq.
  destruct (lookup_lt_is_Some_2 _ _ Hk) as [c Hc]. unfold upd_ctr. cbn [deref mbind outcome_bind]. rewrite Hg.
  cbn [deref mbind outcome_bind]. rewrite (c_upd_insert _ _ _ _ Hc). cbn [mbind outcome_bind].
  eexists _, d, c. split; [done|]. split; [done|]. split; [done|]. split; [done|].
  apply (set_dir_ok p i d); [done|done| |apply is_2lev_set|].
  - apply set_dir_table_ok; [done|apply length_insert|]. apply Forall_insert; [by apply dir_table_all|].
    apply sat_step_ok. by eapply dir_table_ctr.
  - rewrite dir_table_set by done. apply length_insert.
Qed.

Lemma update_ctr_ok p q up : dirs_ok p -> ptr_ok p q ->
  exists p', update_ctr p q up = Ok p' /\ dirs_ok p' /\ same_shape p p' /\ same_rs p p' /\ same_btb p p'.
Proof.
  intros Hd Hq. destruct q as [[i k]|]; [|by exists p].
  destruct (upd_ctr_ok p i k up Hd Hq) as (p' & d & c & Hu & _ & _ & -> & H1 & H2). cbn [update_ctr].
  eexists. split; [exact Hu|]. do 2 (split; [done|]). split; [apply set_dir_same_rs|apply set_dir_same_btb].
Qed.

Lemma update_meta_ok p u taken : dirs_ok p -> ptr_ok p (pmeta u) ->
  exists p', update_meta p u taken = Ok p' /\ dirs_ok p' /\ same_shape p p' /\ same_rs p p' /\ same_btb p p'.
Proof.
  intros Hd Hq. unfold update_meta. destruct (pmeta u) as [q|]; [|by exists p].
  destruct (negb _); [|by exists p]. by apply (update_ctr_ok p (Some q)).
Qed.

(** The history registers stay inside their width. *)
Lemma update_history_ok p baddr taken o : dirs_ok p ->
  exists p', update_history p baddr taken o = Ok p' /\ dirs_ok p' /\ same_shape p p' /\ same_rs p p' /\ same_btb p p'
    /\ (forall i, dir_table <$> get_dir p' i = dir_table <$> get_dir p i).
Proof.
  intros Hd. unfold update_history.
  destruct (negb (uncond o) && _) eqn:E; [|by exists p].
  assert (Hn : needs (class p) PTwolev = true).
  { apply andb_prop in E as [_ E]. apply orb_prop in E as [E|E]; bool_to_prop; by rewrite E. }
  destruct (Hd PTwolev Hn) as (d & Hg & Hok & H2). rewrite bool_decide_true in H2 by done. simpl in Hg. rewrite Hg.
  destruct d as [| l1 l2 w x sr t|]; try done. inversion Hok as [|? ? ? ? ? ? Hl1 Hsr Hw Hrg Ht]; subst.
  destruct (lookup_lt_is_Some_2 sr (Z.to_nat (Z.land (Z.shiftr baddr 3) (l1 - 1)))) as [r Hr].
  { rewrite Hsr. by apply pow2_index. }
  cbn [deref mbind outcome_bind]. rewrite (c_get_some _ _ _ Hr). cbn [mbind outcome_bind].
  rewrite (c_upd_insert _ _ _ _ Hr). cbn [mbind outcome_bind].
  set (d' := Dir2lev l1 l2 w x _ t).
  destruct (set_dir_ok p PTwolev (Dir2lev l1 l2 w x sr t) d' Hd Hg) as [Hd' Hs]; [|done..|].
  { constructor; [done|by rewrite length_insert|done| |done]. apply Forall_insert; [done|].
    rewrite Z.shiftl_1_l, land_mask by lia. apply Z.mod_pos_bound, pow2_pos. lia. }
  eexists. split; [done|]. split; [exact Hd'|]. split; [exact Hs|]. do 2 (split; [done|]).
  intros []; try done. cbn. by rewrite Hg.
Qed.

(** * The return address stack *)

Lemma push_retstack_ok p baddr o : rs_ok p ->
  exists p', push_retstack p baddr o = Ok p' /\ rs_ok p' /\ same_dirs p p' /\ same_btb p p'.
Proof.
  intros [Hl Hs]. unfold push_retstack. destruct (_ && _) eqn:E; [|by exists p].
  apply andb_prop in E as [_ E]. unfold truth in E. bool_to_prop. destruct Hs as [|[[Hp Hp2] Ht]]; [lia|].
  pose proof (Z.mod_pos_bound (tos p + 1) (rs_size p) Hp).
  destruct (lookup_lt_is_Some_2 (stack p) (Z.to_nat ((tos p + 1) mod rs_size p))) as [a Ha]; [lia|].
  set (p1 := p <| tos := (tos p + 1) mod rs_size p |>).
  change (stack p1) with (stack p). change (tos p1) with ((tos p + 1) mod rs_size p).
  rewrite (c_upd_insert _ _ _ _ Ha). cbn [mbind outcome_bind]. eexists. split; [done|].
  split; [split|by do 2 (split; [by intros []||done|])].
  - cbn. by rewrite length_insert.
  - right. split; [by split|]. done.
Qed.
