(* ===== verification/BpredBtb.v ===== *)
(** The branch target buffer of bpred.c: each set, read along its LRU chain, behaves
    as a list of branches, most recently used first. *)

From S2P Require Import Prelude Dll Misc Isa Bpred BpredWf.

(** * The abstract buffer *)

(** What an entry remembers of its branch. *)
Record btb_view := mk_view { v_addr : Z; v_op : ss_opcode; v_target : Z }.

Definition view_ent (e : bpred_btb_ent) : btb_view := mk_view (addr e) (op e) (target e).

Definition btb_views (d : list bpred_btb_ent) (l : list nat) : list btb_view :=
  omap (fun i => view_ent <$> d !! i) l.

Definition is_for (baddr : Z) (v : btb_view) : bool := v_addr v =? baddr.

(** The set [s] of the buffer holds [vs], most recently used first. *)
Definition btb_holds (p : bpred) (s : nat) (vs : list btb_view) : Prop :=
  exists l, btb_chain p s l /\ btb_unique p l /\ vs = btb_views (btb_data p) l.

(** A taken branch in the abstract set: its entry comes first, with the new target
    unless the prediction was right; a branch not in the set replaces the last one. *)
Definition taken_in_set (baddr btarget : Z) (correct : bool) (o : ss_opcode) (vs : list btb_view) : list btb_view :=
  match List.find (is_for baddr) vs with
  | Some v => (if correct then v else mk_view (v_addr v) (v_op v) btarget)
              :: filter (fun v => negb (is_for baddr v)) vs
  | None => mk_view baddr o btarget :: removelast vs
  end.

(** The set a branch maps to. *)
Definition set_of (p : bpred) (baddr : Z) : nat := Z.to_nat (Z.land (Z.shiftr baddr 3) (btb_sets p - 1)).

(** * Scanning a set *)

Definition opt_list (o : option nat) : list nat := match o with Some i => [i] | None => [] end.

(** The tests of the scan. *)
Definition ent_test (d : list bpred_btb_ent) (t : bpred_btb_ent -> bool) (i : nat) : bool :=
  match d !! i with Some e => t e | None => false end.

Definition for_branch (baddr : Z) (e : bpred_btb_ent) : bool := addr e =? baddr.
Definition is_mru (e : bpred_btb_ent) : bool := match prev e with None => true | Some _ => false end.
Definition is_lru (e : bpred_btb_ent) : bool := match next e with None => true | Some _ => false end.

Definition found (d : list bpred_btb_ent) (t : bpred_btb_ent -> bool) (o : option nat) (idxs : list nat) : list nat :=
  opt_list o ++ filter (fun i => ent_test d t i) idxs.

Lemma filter_test d t i idxs e : d !! i = Some e ->
  filter (fun i => ent_test d t i) (i :: idxs)
  = (if t e then [i] else []) ++ filter (fun i => ent_test d t i) idxs.
Proof.
  intros He. assert (Ht : ent_test d t i = t e) by (unfold ent_test; by rewrite He).
  rewrite filter_cons. case_decide as Hd; rewrite Ht in Hd; destruct (t e); try done; by destruct Hd.
Qed.

(** One found index goes on from the accumulator; a second one fails the assertion. *)
Lemma found_step d t o i idxs e :
  d !! i = Some e -> (length (found d t o (i :: idxs)) <= 1)%nat ->
  (t e = true -> o = None) /\ found d t (if t e then Some i else o) idxs = found d t o (i :: idxs).
Proof.
  intros He. unfold found. rewrite (filter_test _ _ _ _ _ He).
  destruct (t e); [|done]. cbn. rewrite length_app. cbn. destruct o; cbn; [lia|done].
Qed.

Lemma scan_btb_ok d baddr idxs s :
  (forall i, i ∈ idxs -> exists e, d !! i = Some e /\ prev e <> next e) ->
  (length (found d (for_branch baddr) (sc_pbtb s) idxs) <= 1)%nat ->
  (length (found d is_mru (sc_head s) idxs) <= 1)%nat ->
  (length (found d is_lru (sc_item s) idxs) <= 1)%nat ->
  scan_btb d baddr idxs s = Ok (mk_scan (head (found d (for_branch baddr) (sc_pbtb s) idxs))
    (head (found d is_mru (sc_head s) idxs)) (head (found d is_lru (sc_item s) idxs))).
Proof.
  revert s. induction idxs as [|i idxs IH]; intros s Hd Ha Hh Ht.
  { by destruct s as [[] [] []]. }
  destruct (Hd i) as (e & He & Hne); [set_solver|].
  destruct (found_step _ _ _ _ _ _ He Ha) as [Na Ea]. destruct (found_step _ _ _ _ _ _ He Hh) as [Nh Eh].
  destruct (found_step _ _ _ _ _ _ He Ht) as [Nt Et]. rewrite <- Ea in Ha |- *. rewrite <- Eh in Hh |- *.
  rewrite <- Et in Ht |- *. cbn [scan_btb]. rewrite (c_get_some _ _ _ He). cbn [mbind outcome_bind].
  rewrite (c_assert_true (negb (bool_decide (prev e = next e)))) by (by rewrite bool_decide_false).
  set (s' := mk_scan (if for_branch baddr e then Some i else sc_pbtb s) (if is_mru e then Some i else sc_head s)
    (if is_lru e then Some i else sc_item s)).
  assert (IH' := IH s' ltac:(set_solver) Ha Hh Ht). etransitivity; [|exact IH']. clear IH IH' Ha Hh Ht Ea Eh Et. unfold s', for_branch, is_mru, is_lru in *.
  destruct (addr e =? baddr); [rewrite (Na eq_refl)|]; cbn [mbind outcome_bind];
  (destruct (prev e); [|rewrite (Nh eq_refl)]); cbn [mbind outcome_bind];
  (destruct (next e); [|rewrite (Nt eq_refl)]); done.
Qed.

(** * A chain has one head, one tail and no entry linked to the same entry twice *)

Section Chain.
Variable d : list bpred_btb_ent.
Implicit Types (l : list nat) (p n : option nat).

Lemma chain_mru_some p l n j : p = Some j -> dllseg d p l n -> filter (fun i => ent_test d is_mru i) l = [].
Proof.
  revert p j. induction l as [|i l IH]; intros p j Hp Hs; [done|]. destruct Hs as (e & He & Hpe & _ & Hs).
  rewrite (filter_test _ _ _ _ _ He). unfold is_mru at 1. cbn in Hpe. rewrite Hpe, Hp. cbn.
  by apply (IH (Some i) i).
Qed.

Lemma chain_mru i l n : dllseg d None (i :: l) n -> filter (fun i => ent_test d is_mru i) (i :: l) = [i].
Proof.
  intros (e & He & Hpe & _ & Hs). rewrite (filter_test _ _ _ _ _ He).
  unfold is_mru at 1. cbn in Hpe. rewrite Hpe. cbn. f_equal. by eapply chain_mru_some.
Qed.

Lemma chain_lru p l i : dllseg d p (l ++ [i]) None -> filter (fun i => ent_test d is_lru i) (l ++ [i]) = [i].
Proof.
  revert p. induction l as [|j l IH]; intros p; cbn [app]; intros (e & He & _ & Hne & Hs);
    rewrite (filter_test _ _ _ _ _ He); unfold is_lru at 1; cbn in Hne; rewrite Hne; [done|].
  destruct (hd_or (l ++ [i]) None) eqn:E; [|by destruct l]. cbn. by eapply IH.
Qed.

Lemma chain_links_differ l i : NoDup l -> (2 <= length l)%nat -> dllseg d None l None -> i ∈ l ->
  exists e, d !! i = Some e /\ prev e <> next e.
Proof.
  intros Hnd Hl Hs Hi. destruct (dlist_split d (hd_or l None) (last_or None l) l i) as (l1 & l2 & e & -> & He & Hp & Hn);
    [by split_and!|done|].
  exists e. split; [done|]. cbn in Hp, Hn. rewrite Hp, Hn. intros Heq.
  destruct (last_or None l1) as [j|] eqn:E1.
  - destruct l2 as [|j' l2]; cbn in Heq; [done|]. injection Heq as <-.
    apply last_or_elem in E1 as [|E1]; [done|]. apply NoDup_app in Hnd as (_ & Hd & _). apply (Hd j); set_solver.
  - destruct l2 as [|]; cbn in Heq; [|done]. destruct l1 as [|x l1]; [cbn in Hl; lia|].
    clear -E1. cbn in E1. revert x E1. induction l1 as [|y l1 IH]; intros x E1; [done|]. cbn in E1. by eapply IH.
Qed.

End Chain.

(** * Moving an entry to the head of its chain *)

(** [d'] has the chain [l'] in place of [l], the same payloads, and the same entries
    elsewhere. *)
Definition rechained (d d' : list bpred_btb_ent) (l l' : list nat) : Prop :=
  dllseg d' None l' None /\ view_ent <$> d' = view_ent <$> d /\ (forall k, k ∉ l -> d' !! k = d !! k).

Lemma view_alter_links (f : bpred_btb_ent -> bpred_btb_ent) (k : nat) (d : list bpred_btb_ent) :
  (forall e, view_ent (f e) = view_ent e) -> view_ent <$> alter f k d = view_ent <$> d.
Proof. apply list_fmap_alter_id. Qed.

Lemma lookup_alter_out (f : bpred_btb_ent -> bpred_btb_ent) k j (d d' : list bpred_btb_ent) (l : list nat) :
  j ∈ l -> k ∉ l -> d' !! k = d !! k -> alter f j d' !! k = d !! k.
Proof. intros Hj Hk. rewrite list_lookup_alter_ne; [done|]. set_solver. Qed.

Lemma btb_link_head d i h l (l0 : list nat) : i ∈ l0 -> h ∈ l0 ->
  NoDup (i :: h :: l) -> is_Some (d !! i) -> dllseg d None (h :: l) None ->
  exists d', (d ← c_upd d i (fun x => x <| next := Some h |>);
              d ← c_upd d i (fun x => x <| prev := None |>);
              d ← c_upd d h (fun x => x <| prev := Some i |>);
              e ← c_get d i;
              c_assert (bool_decide (is_Some (prev e)) || bool_decide (is_Some (next e)));;
              c_assert (negb (bool_decide (prev e = next e)));; Ok d) = Ok d' /\
    rechained d d' l0 (i :: h :: l).
Proof.
  intros Hi0 Hh0 Hnd [b Hb] Hs. pose proof (dlist_link_head d i h l b Hnd Hb Hs) as Hl.
  assert (i <> h) by (rewrite NoDup_cons in Hnd; set_solver).
  rewrite c_upd_alter by (by rewrite Hb). cbn [mbind outcome_bind].
  rewrite c_upd_alter by (rewrite list_lookup_alter_eq, Hb; done). cbn [mbind outcome_bind].
  rewrite c_upd_alter.
  2: { rewrite !list_lookup_alter_ne by done. destruct Hs as (x & Hx & _). by rewrite Hx. }
  cbn [mbind outcome_bind]. unfold c_get at 1. rewrite list_lookup_alter_ne, !list_lookup_alter_eq, Hb by done. cbn.
  eexists. split; [done|]. split; [exact Hl|]. split.
  - by rewrite !view_alter_links.
  - intros k Hk. repeat (eapply lookup_alter_out; [eassumption|eassumption|]). done.
Qed.

(** Taking an entry that is not the first one out of the links of its neighbours. *)
Lemma btb_unlink_ok d h l1 i l2 :
  let l := h :: l1 ++ i :: l2 in
  NoDup l -> dllseg d None l None ->
  exists d' e, d !! i = Some e /\ (d ← (match prev e with Some q => c_upd d q (fun x => x <| next := next e |>) | None => Ok d end);
      e ← c_get d i;
      match next e with Some q => c_upd d q (fun x => x <| prev := prev e |>) | None => Ok d end) = Ok d' /\
    d' !! i = Some e /\ rechained d d' l (h :: l1 ++ l2).
Proof.
  intros l Hnd Hs.
  destruct (exists_last (l := h :: l1)) as (L & a & HL); [done|].
  assert (Hl : l = L ++ a :: i :: l2) by (unfold l; rewrite app_comm_cons, HL, <- app_assoc; done).
  assert (Hl' : h :: l1 ++ l2 = L ++ a :: l2) by (rewrite app_comm_cons, HL, <- app_assoc; done).
  rewrite Hl'. clear HL Hl'. clearbody l. subst l.
  pose proof Hs as Hs'. apply dllseg_app in Hs' as [_ (ea & Ha & _ & _ & (e & He & Hp & Hn & Hs'))].
  cbn in Hp, Hn.
  assert (Hai : a <> i). { intros ->. apply NoDup_app in Hnd as (_ & _ & Hnd). rewrite !NoDup_cons in Hnd. set_solver. }
  exists (match l2 with
    | [] => alter (set_lnext None) a d
    | c :: _ => alter (set_lprev (Some a)) c (alter (set_lnext (Some c)) a d) end), e.
  split; [done|]. rewrite Hp. rewrite c_upd_alter by (by rewrite Ha). cbn [mbind outcome_bind].
  unfold c_get. rewrite list_lookup_alter_ne, He by done. cbn [deref mbind outcome_bind]. rewrite Hn, Hp.
  destruct l2 as [|c l2]; cbn [hd_or].
  - split; [done|]. split; [by rewrite list_lookup_alter_ne|].
    split; [by apply (dlist_unlink_last _ _ _ i)|]. split; [by apply view_alter_links|].
    intros k Hk. rewrite list_lookup_alter_ne; [done|]. set_solver.
  - assert (Hci : c <> i). { intros ->. apply NoDup_app in Hnd as (_ & _ & Hnd). rewrite !NoDup_cons in Hnd. set_solver. }
    split; [|split; [by rewrite !list_lookup_alter_ne|]].
    + apply c_upd_alter. destruct Hs' as (ec & Hc & _). destruct (decide (a = c)) as [<-|].
      * by rewrite list_lookup_alter_eq, Ha.
      * by rewrite list_lookup_alter_ne, Hc.
    + split; [by apply (dlist_unlink_middle _ _ _ i)|]. split; [by rewrite !view_alter_links|].
      intros k Hk. rewrite !list_lookup_alter_ne; [done|set_solver..].
Qed.

Lemma btb_to_head_ok d h l1 i l2 :
  let l := h :: l1 ++ i :: l2 in
  NoDup l -> dllseg d None l None ->
  exists d', btb_to_head d i h = Ok d' /\ rechained d d' l (i :: h :: l1 ++ l2).
Proof.
  intros l Hnd Hs. assert (Hi : i ∈ l) by set_solver. assert (Hh : h ∈ l) by set_solver.
  assert (Hnd' : NoDup (i :: h :: l1 ++ l2)).
  { assert (Hp : l ≡ₚ i :: h :: l1 ++ l2) by (unfold l; rewrite (Permutation_middle (h :: l1) l2 i); done). by rewrite <- Hp. }
  destruct (btb_unlink_ok d h l1 i l2 Hnd Hs) as (d1 & e & He & E1 & He1 & Hs1 & Hv1 & Hf1).
  destruct (btb_link_head d1 i h (l1 ++ l2) l Hi Hh Hnd' ltac:(by rewrite He1) Hs1) as (d2 & E2 & Hs2 & Hv2 & Hf2).
  exists d2. split; [|split; [exact Hs2|split; [congruence|]]].
  - unfold btb_to_head. rewrite (c_get_some _ _ _ He). cbn [mbind outcome_bind].
    destruct (match prev e with Some q => _ | None => _ end) as [d0| | | | | |]; cbn [mbind outcome_bind] in E1 |- *; try done.
    destruct (c_get d0 i) as [e0| | | | | |]; cbn [mbind outcome_bind] in E1 |- *; try done.
    rewrite E1. cbn [mbind outcome_bind]. exact E2.
  - intros k Hk. rewrite Hf2, Hf1 by done. done.
Qed.

(** * Choosing the entry of a taken branch *)

Lemma btb_index_eq p baddr : btb_ok p ->
  Z.to_nat (btb_index p baddr) = (set_of p baddr * Z.to_nat (btb_assoc p))%nat.
Proof.
  intros [Hs [Ha _] _ _]. pose proof (pow2_land _ (Z.shiftr baddr 3) Hs). unfold btb_index, set_of.
  destruct (Z.ltb_spec 1 (btb_assoc p)); [rewrite Z2Nat.inj_mul; lia|]. replace (btb_assoc p) with 1 by lia. lia.
Qed.

Lemma btb_set_eq p baddr : btb_ok p ->
  btb_set p baddr = seq (set_of p baddr * Z.to_nat (btb_assoc p)) (Z.to_nat (btb_assoc p)).
Proof. intros H. unfold btb_set. by rewrite btb_index_eq. Qed.

Lemma set_of_lt p baddr : btb_ok p -> (set_of p baddr < Z.to_nat (btb_sets p))%nat.
Proof. intros H. apply pow2_index, H. Qed.

Lemma chain_NoDup p s l : btb_chain p s l -> NoDup l.
Proof. intros [Hp _]. rewrite Hp. apply NoDup_seq. Qed.

Lemma chain_range p s l i : btb_ok p -> (s < Z.to_nat (btb_sets p))%nat -> btb_chain p s l -> i ∈ l ->
  is_Some (btb_data p !! i).
Proof.
  intros [_ _ Hl _] Hs [Hp _] Hi. rewrite Hp, elem_of_seq in Hi. apply lookup_lt_is_Some_2. rewrite Hl. nia.
Qed.

Lemma all_equal_short (l : list nat) : NoDup l -> (forall i j, i ∈ l -> j ∈ l -> i = j) -> (length l <= 1)%nat.
Proof.
  intros Hnd H. destruct l as [|i [|j l]]; cbn; [lia..|]. exfalso. rewrite (H i j) in Hnd by set_solver.
  rewrite NoDup_cons in Hnd. set_solver.
Qed.

Lemma head_perm_singleton (i : nat) (l : list nat) : l ≡ₚ [i] -> l = [i].
Proof. apply Permutation_singleton_r. Qed.

Lemma found_unique p baddr s l : btb_chain p s l -> btb_unique p l -> baddr <> 0 ->
  (length (filter (fun i => ent_test (btb_data p) (for_branch baddr) i) l) <= 1)%nat.
Proof.
  intros Hc Hu Hb. apply all_equal_short; [by apply NoDup_filter, (chain_NoDup p s)|].
  intros i j Hi Hj. apply list_elem_of_filter in Hi as [Ti Hi]. apply list_elem_of_filter in Hj as [Tj Hj].
  unfold ent_test, for_branch in *. destruct (btb_data p !! i) as [e|] eqn:Ei; [|done].
  destruct (btb_data p !! j) as [f|] eqn:Ej; [|done]. apply Is_true_eq_true in Ti, Tj. bool_to_prop.
  eapply Hu; [exact Hi|exact Hj|exact Ei|exact Ej|congruence|congruence].
Qed.

(** The scan of a set of several entries. *)
Lemma scan_set p baddr s h l t l' : btb_ok p -> baddr <> 0 -> 1 < btb_assoc p ->
  btb_chain p s (h :: l) -> btb_unique p (h :: l) -> h :: l = l' ++ [t] ->
  scan_btb (btb_data p) baddr (seq (s * Z.to_nat (btb_assoc p)) (Z.to_nat (btb_assoc p))) (mk_scan None None None)
  = Ok (mk_scan (head (filter (fun i => ent_test (btb_data p) (for_branch baddr) i) (h :: l))) (Some h) (Some t)).
Proof.
  intros Hok Hb Ha Hc Hu Ht. pose proof Hc as [Hp Hs]. specialize (Hs Ha).
  set (idxs := seq _ _) in *. pose proof (chain_NoDup _ _ _ Hc) as Hnd.
  pose proof (found_unique p baddr s _ Hc Hu Hb) as Hone.
  assert (Hperm : forall P : nat -> bool, filter P idxs ≡ₚ filter P (h :: l)) by (intros P; by rewrite Hp).
  assert (Hm : filter (fun i => ent_test (btb_data p) is_mru i) idxs = [h]).
  { apply head_perm_singleton. rewrite Hperm. by rewrite (chain_mru _ _ _ None). }
  assert (Hl : filter (fun i => ent_test (btb_data p) is_lru i) idxs = [t]).
  { apply head_perm_singleton. rewrite Hperm, Ht. rewrite Ht in Hs. by rewrite (chain_lru _ None). }
  assert (Hf : filter (fun i => ent_test (btb_data p) (for_branch baddr) i) idxs
    = filter (fun i => ent_test (btb_data p) (for_branch baddr) i) (h :: l)).
  { pose proof (Hperm (fun i => ent_test (btb_data p) (for_branch baddr) i)) as Hq.
    destruct (filter _ (h :: l)) as [|x [|]]; [by apply Permutation_nil_r|by apply head_perm_singleton|cbn in Hone; lia]. }
  rewrite scan_btb_ok; unfold found; cbn [opt_list app sc_pbtb sc_head sc_item].
  - by rewrite Hm, Hl, Hf.
  - intros i Hi. apply (chain_links_differ _ (h :: l)); [done| |done|by rewrite Hp].
    rewrite Hp. unfold idxs. rewrite length_seq. lia.
  - by rewrite Hf.
  - by rewrite Hm.
  - by rewrite Hl.
Qed.

Definition tracks (p : bpred) (baddr : Z) (i : nat) : bool := ent_test (btb_data p) (for_branch baddr) i.

(** What the selection does to the chain [l] of the set: entry [i] comes first; it is the
    one of the branch or, without one, the last. *)
Definition selected (p : bpred) (baddr : Z) (l : list nat) (d : list bpred_btb_ent) (i : nat) : Prop :=
  exists l1 l2, l = l1 ++ i :: l2 /\ btb_chain (p <| btb_data := d |>) (set_of p baddr) (i :: l1 ++ l2) /\
    view_ent <$> d = view_ent <$> btb_data p /\ (forall k, k ∉ l -> d !! k = btb_data p !! k) /\
    (tracks p baddr i = true \/ (l2 = [] /\ forall j, j ∈ l -> tracks p baddr j = false)).

Lemma set_btb_data_id p : p <| btb_data := btb_data p |> = p.
Proof. by destruct p. Qed.

Lemma btb_select_one p baddr l : btb_ok p -> btb_assoc p = 1 -> btb_chain p (set_of p baddr) l ->
  exists i, btb_select p baddr = Ok (p, i) /\ selected p baddr l (btb_data p) i.
Proof.
  intros Hok Ha Hc. pose proof Hc as [Hp _]. unfold btb_select. rewrite btb_index_eq, Ha by done.
  rewrite Ha in Hp. cbn in Hp. rewrite Nat.mul_1_r in *. apply Permutation_singleton_r in Hp.
  exists (set_of p baddr). split; [done|]. exists [], []. rewrite set_btb_data_id. subst l. split_and!; [done..|].
  destruct (tracks p baddr (set_of p baddr)) eqn:E; [by left|right]. split; [done|]. intros j Hj. set_solver.
Qed.

(** Where the selected entry is in a chain of several. *)
Lemma select_split p baddr s h l t l' : btb_chain p s (h :: l) -> h :: l = l' ++ [t] ->
  let i := default t (head (filter (fun i => tracks p baddr i) (h :: l))) in
  exists l1 l2, h :: l = l1 ++ i :: l2 /\
    (tracks p baddr i = true \/ (l2 = [] /\ forall j, j ∈ h :: l -> tracks p baddr j = false)).
Proof.
  intros Hc Ht i. destruct (filter (fun i => tracks p baddr i) (h :: l)) as [|x r] eqn:E; unfold i; cbn.
  - exists l', []. split; [done|]. right. split; [done|]. intros j Hj. destruct (tracks p baddr j) eqn:Ej; [|done].
    assert (j ∈ []) by (rewrite <- E; apply list_elem_of_filter; by rewrite Ej). set_solver.
  - assert (Hx : x ∈ filter (fun i => tracks p baddr i) (h :: l)) by (rewrite E; set_solver).
    apply list_elem_of_filter in Hx as [Hx Hin]. apply list_elem_of_split in Hin as (l1 & l2 & Hl).
    exists l1, l2. split; [done|]. left. by apply Is_true_eq_true.
Qed.

Lemma btb_select_many p baddr l : btb_ok p -> baddr <> 0 -> 1 < btb_assoc p ->
  btb_chain p (set_of p baddr) l -> btb_unique p l ->
  exists d i, btb_select p baddr = Ok (p <| btb_data := d |>, i) /\ selected p baddr l d i.
Proof.
  intros Hok Hb Ha Hc Hu. pose proof Hc as [Hp Hs]. specialize (Hs Ha). pose proof (chain_NoDup _ _ _ Hc) as Hnd.
  destruct l as [|h l]; [apply Permutation_length in Hp; rewrite length_seq in Hp; cbn in Hp; lia|].
  destruct (exists_last (l := h :: l)) as (l' & t & Ht); [done|].
  destruct (select_split p baddr _ h l t l' Hc Ht) as (l1 & l2 & Hl & Hsel).
  set (i := default _ _) in *. unfold btb_select. rewrite (proj2 (Z.ltb_lt _ _) Ha), btb_set_eq by done.
  rewrite (scan_set p baddr _ h l t l') by done. cbn [mbind outcome_bind sc_head sc_item sc_pbtb].
  fold (tracks p baddr). change (default t _) with i. case_bool_decide as Hih.
  - exists (btb_data p), i. rewrite set_btb_data_id. split; [done|]. exists l1, l2. rewrite set_btb_data_id.
    assert (l1 = []) as ->.
    { destruct l1 as [|x l1]; [done|]. injection Hl as -> Hl. exfalso. rewrite Hl, Hih in Hnd.
      rewrite NoDup_cons in Hnd. set_solver. }
    split_and!; try done. cbn in Hl |- *. by rewrite <- Hl.
  - destruct l1 as [|x l1]; [exfalso; apply Hih; by injection Hl|]. injection Hl as <- Hl. rewrite Hl in *.
    destruct (btb_to_head_ok (btb_data p) h l1 i l2 Hnd Hs) as (d & -> & Hd & Hv & Hf). cbn [mbind outcome_bind].
    exists d, i. split; [done|]. exists (h :: l1), l2. split_and!; try done. split; [|done].
    etransitivity; [|exact Hp]. exact (Permutation_middle (h :: l1) l2 i).
Qed.

Lemma btb_select_ok p baddr l : btb_ok p -> baddr <> 0 -> btb_chain p (set_of p baddr) l -> btb_unique p l ->
  exists d i, btb_select p baddr = Ok (p <| btb_data := d |>, i) /\ selected p baddr l d i.
Proof.
  intros Hok Hb Hc Hu. pose proof Hok as [_ [Ha _] _ _]. destruct (Z.lt_ge_cases 1 (btb_assoc p)).
  - by apply btb_select_many.
  - destruct (btb_select_one p baddr l Hok ltac:(lia) Hc) as (i & E & Hi).
    exists (btb_data p), i. by rewrite set_btb_data_id.
Qed.

(** * The views of a chain *)

Lemma btb_views_cons d i l e : d !! i = Some e -> btb_views d (i :: l) = view_ent e :: btb_views d l.
Proof. intros He. unfold btb_views. cbn. by rewrite He. Qed.

Lemma btb_views_app d l l' : btb_views d (l ++ l') = btb_views d l ++ btb_views d l'.
Proof. apply omap_app. Qed.

Lemma btb_views_ext d d' l :
  (forall i, i ∈ l -> view_ent <$> d' !! i = view_ent <$> d !! i) -> btb_views d' l = btb_views d l.
Proof.
  intros H. unfold btb_views. induction l as [|i l IH]; [done|]. cbn. rewrite (H i) by set_solver.
  rewrite IH by set_solver. done.
Qed.

Lemma views_lookup (d d' : list bpred_btb_ent) (i : nat) : view_ent <$> d' = view_ent <$> d -> view_ent <$> d' !! i = view_ent <$> d !! i.
Proof. intros H. rewrite <- !list_lookup_fmap. by rewrite H. Qed.

(** Entries that do not track the branch. *)
Lemma views_none p baddr l : (forall i, i ∈ l -> tracks p baddr i = false) ->
  List.find (is_for baddr) (btb_views (btb_data p) l) = None /\
  filter (fun v => negb (is_for baddr v)) (btb_views (btb_data p) l) = btb_views (btb_data p) l.
Proof.
  unfold tracks, ent_test. induction l as [|i l IH]; intros H; [done|]. pose proof (H i ltac:(set_solver)) as Hi.
  destruct (IH ltac:(set_solver)) as [H1 H2]. destruct (btb_data p !! i) as [e|] eqn:He.
  - rewrite (btb_views_cons _ _ _ _ He). cbn [List.find]. rewrite filter_cons.
    change (is_for baddr (view_ent e)) with (for_branch baddr e). rewrite Hi. split; [done|]. cbn. by f_equal.
  - replace (btb_views (btb_data p) (i :: l)) with (btb_views (btb_data p) l); [done|].
    unfold btb_views. cbn. by rewrite He.
Qed.

Lemma find_app (f : btb_view -> bool) (l l' : list btb_view) :
  List.find f (l ++ l') = match List.find f l with Some v => Some v | None => List.find f l' end.
Proof. induction l as [|v l IH]; [done|]. cbn. by destruct (f v). Qed.

(** An entry that tracks the branch is the only one. *)
Lemma tracks_unique p baddr s l1 i l2 : btb_chain p s (l1 ++ i :: l2) -> btb_unique p (l1 ++ i :: l2) -> baddr <> 0 ->
  tracks p baddr i = true -> forall j, j ∈ l1 ++ l2 -> tracks p baddr j = false.
Proof.
  intros Hc Hu Hb Hi j Hj. destruct (tracks p baddr j) eqn:Ej; [exfalso|done].
  assert (i = j).
  { unfold tracks, ent_test, for_branch in *. destruct (btb_data p !! i) as [e|] eqn:E1; [|done].
    destruct (btb_data p !! j) as [f|] eqn:E2; [|done]. bool_to_prop.
    eapply Hu; [set_solver|set_solver|exact E1|exact E2|congruence|congruence]. }
  subst j. pose proof (chain_NoDup _ _ _ Hc) as Hnd. rewrite <- Permutation_middle, NoDup_cons in Hnd.
  by destruct Hnd.
Qed.

(** The search of bpred_lookup finds the entry of the abstract set. *)
Lemma btb_find_ok d baddr idxs : (forall i, i ∈ idxs -> is_Some (d !! i)) ->
  btb_find d baddr idxs = Ok (head (filter (fun i => ent_test d (for_branch baddr) i) idxs)).
Proof.
  induction idxs as [|i idxs IH]; intros H; [done|]. destruct (H i) as [e He]; [set_solver|].
  rewrite (filter_test _ _ _ _ _ He). cbn [btb_find]. rewrite (c_get_some _ _ _ He). cbn [mbind outcome_bind].
  unfold for_branch at 1. destruct (addr e =? baddr); [done|]. apply IH. set_solver.
Qed.

Lemma btb_lookup_head p baddr : btb_ok p ->
  btb_lookup p baddr = Ok (head (filter (fun i => tracks p baddr i) (btb_set p baddr))).
Proof.
  intros Hok. pose proof (btb_set_eq p baddr Hok) as Es. pose proof Hok as [_ [Ha _] Hl _].
  pose proof (set_of_lt p baddr Hok) as Hlt.
  assert (Hr : forall i, i ∈ btb_set p baddr -> is_Some (btb_data p !! i)).
  { intros i Hi. rewrite Es, elem_of_seq in Hi. apply lookup_lt_is_Some_2. rewrite Hl. nia. }
  unfold btb_lookup. destruct (Z.ltb_spec 1 (btb_assoc p)) as [H1|H1].
  - by rewrite btb_find_ok.
  - unfold btb_set in Hr |- *. replace (Z.to_nat (btb_assoc p)) with 1%nat in Hr |- * by lia. cbn [seq] in *.
    destruct (Hr (Z.to_nat (btb_index p baddr))) as [e He]; [set_solver|].
    rewrite (c_get_some _ _ _ He). cbn [mbind outcome_bind]. unfold tracks. rewrite (filter_test _ _ _ _ _ He).
    unfold for_branch at 1. by destruct (addr e =? baddr).
Qed.

Lemma btb_lookup_ok p baddr vs : btb_ok p -> baddr <> 0 -> btb_holds p (set_of p baddr) vs ->
  exists hit, btb_lookup p baddr = Ok hit /\
    (hit ≫= fun i => view_ent <$> btb_data p !! i) = List.find (is_for baddr) vs.
Proof.
  intros Hok Hb (l & Hc & Hu & ->). rewrite btb_lookup_head by done. eexists. split; [done|].
  pose proof (found_unique p baddr _ l Hc Hu Hb) as Hone. pose proof Hc as [Hp _]. rewrite btb_set_eq by done.
  fold (tracks p baddr) in Hone.
  assert (Hq : filter (fun i => tracks p baddr i) (seq (set_of p baddr * Z.to_nat (btb_assoc p)) (Z.to_nat (btb_assoc p)))
    ≡ₚ filter (fun i => tracks p baddr i) l) by (by rewrite Hp).
  destruct (filter _ l) as [|i [|]] eqn:El; [| |cbn in Hone; lia].
  - apply Permutation_nil_r in Hq. rewrite Hq. cbn. symmetry. apply views_none. intros j Hj.
    destruct (tracks p baddr j) eqn:Ej; [|done].
    assert (j ∈ []) by (rewrite <- El; apply list_elem_of_filter; split; [exact (Is_true_eq_left _ Ej)|done]). set_solver.
  - apply Permutation_singleton_r in Hq. rewrite Hq. cbn.
    assert (Hi : i ∈ [i]) by set_solver. rewrite <- El in Hi.
    apply list_elem_of_filter in Hi as [Hi Hin]. apply Is_true_eq_true in Hi.
    apply list_elem_of_split in Hin as (l1 & l2 & ->).
    pose proof (tracks_unique p baddr _ l1 i l2 Hc Hu Hb Hi) as Hno.
    rewrite btb_views_app, find_app, (proj1 (views_none p baddr l1 ltac:(set_solver))).
    unfold tracks, ent_test in Hi. destruct (btb_data p !! i) as [e|] eqn:He; [|done].
    rewrite (btb_views_cons _ _ _ _ He). cbn. change (is_for baddr (view_ent e)) with (for_branch baddr e). by rewrite Hi.
Qed.

Lemma btb_lookup_some p baddr i : btb_ok p -> btb_lookup p baddr = Ok (Some i) -> exists e, btb_data p !! i = Some e.
Proof.
  intros Hok. rewrite btb_lookup_head by done. intros [= H].
  assert (Hi : i ∈ filter (fun i => tracks p baddr i) (btb_set p baddr)) by (by apply head_Some_elem_of).
  apply list_elem_of_filter in Hi as [Hi _]. unfold tracks, ent_test in Hi.
  destruct (btb_data p !! i) as [e|]; [by exists e|done].
Qed.

(** * Writing the selected entry *)

(** The new contents of the selected entry. *)
Definition write_ent (baddr btarget : Z) (correct : bool) (o : ss_opcode) (e : bpred_btb_ent) : bpred_btb_ent :=
  if addr e =? baddr then if correct then e else e <| target := btarget |>
  else e <| addr := baddr |> <| op := o |> <| target := btarget |>.

Lemma write_ent_addr baddr btarget correct o e : addr (write_ent baddr btarget correct o e) = baddr.
Proof. unfold write_ent. destruct (Z.eqb_spec (addr e) baddr); [|done]. by destruct correct. Qed.

Lemma write_ent_links baddr btarget correct o e :
  lprev (write_ent baddr btarget correct o e) = lprev e /\ lnext (write_ent baddr btarget correct o e) = lnext e.
Proof. unfold write_ent. by destruct (addr e =? baddr), correct. Qed.

Section Write.
Variables (p : bpred) (baddr btarget : Z) (correct : bool) (o : ss_opcode).
Variables (d : list bpred_btb_ent) (i : nat) (l1 l2 : list nat) (e : bpred_btb_ent).
Hypothesis (Hok : btb_ok p) (Hb : baddr <> 0).
Let l := l1 ++ i :: l2.
Hypothesis (Hc : btb_chain p (set_of p baddr) l) (Hu : btb_unique p l).
Hypothesis (Hc' : btb_chain (p <| btb_data := d |>) (set_of p baddr) (i :: l1 ++ l2)).
Hypothesis (Hv : view_ent <$> d = view_ent <$> btb_data p).
Hypothesis (Hf : forall k, k ∉ l -> d !! k = btb_data p !! k).
Hypothesis (Ht : tracks p baddr i = true \/ (l2 = [] /\ forall j, j ∈ l -> tracks p baddr j = false)).
Hypothesis (He : d !! i = Some e).

Let d' := <[i := write_ent baddr btarget correct o e]> d.
Let p' := p <| btb_data := d' |>.

Lemma write_others j : j ∈ l1 ++ l2 -> tracks p baddr j = false.
Proof. destruct Ht as [H|[_ H]]; intros Hj; [by apply (tracks_unique p baddr (set_of p baddr) l1 i l2)|apply H; unfold l; set_solver]. Qed.

Lemma write_not_in : i ∉ l1 ++ l2.
Proof. pose proof (chain_NoDup _ _ _ Hc') as H. rewrite NoDup_cons in H. apply H. Qed.

Lemma write_lookup j : j <> i -> view_ent <$> d' !! j = view_ent <$> btb_data p !! j.
Proof. intros H. unfold d'. rewrite list_lookup_insert_ne by done. by apply views_lookup. Qed.

Lemma write_tracks_i : is_for baddr (view_ent e) = tracks p baddr i.
Proof.
  unfold tracks, ent_test. pose proof (views_lookup _ _ i Hv) as H. rewrite He in H.
  destruct (btb_data p !! i) as [f|]; [|done]. exact (f_equal (from_option (is_for baddr) false) H).
Qed.

Lemma write_views : btb_views d' (i :: l1 ++ l2) = taken_in_set baddr btarget correct o (btb_views (btb_data p) l).
Proof.
  assert (Hi : btb_views (btb_data p) (i :: l2) = view_ent e :: btb_views (btb_data p) l2).
  { pose proof (views_lookup _ _ i Hv) as H. rewrite He in H. unfold btb_views. cbn. by rewrite <- H. }
  assert (Hd' : d' !! i = Some (write_ent baddr btarget correct o e)).
  { unfold d'. apply list_lookup_insert_eq. by eapply lookup_lt_Some. }
  rewrite (btb_views_cons _ _ _ _ Hd'), (btb_views_ext (btb_data p) d').
  2: { intros j Hj. apply write_lookup. intros ->. by apply write_not_in. }
  destruct (views_none p baddr l1) as [F1 G1]; [intros j Hj; apply write_others; set_solver|].
  destruct (views_none p baddr l2) as [F2 G2]; [intros j Hj; apply write_others; set_solver|].
  unfold taken_in_set, l. rewrite !btb_views_app, find_app, F1, Hi. cbn [List.find]. pose proof write_tracks_i as Et.
  destruct (is_for baddr (view_ent e)) eqn:E.
  - rewrite filter_app, filter_cons, E, G1, G2. cbn. f_equal. unfold write_ent.
    change (is_for baddr (view_ent e)) with (addr e =? baddr) in E. rewrite E. by destruct correct.
  - destruct Ht as [H|[-> _]]; [congruence|]. cbn [List.find btb_views omap list_omap]. rewrite removelast_last, app_nil_r.
    f_equal. unfold write_ent. change (is_for baddr (view_ent e)) with (addr e =? baddr) in E. by rewrite E.
Qed.

Lemma write_chain : btb_chain p' (set_of p baddr) (i :: l1 ++ l2).
Proof.
  destruct Hc' as [Hp Hs]. split; [done|]. intros Ha. specialize (Hs Ha).
  change (dllseg d' None (i :: l1 ++ l2) None). change (dllseg d None (i :: l1 ++ l2) None) in Hs. unfold d'.
  rewrite <- (alter_insert d i (write_ent baddr btarget correct o) e He).
  apply dllseg_alter_payload; [intros x; apply write_ent_links..|exact Hs].
Qed.

Lemma write_unique : btb_unique p' (i :: l1 ++ l2).
Proof.
  assert (Hone : forall j f, j ∈ l1 ++ l2 -> d' !! j = Some f -> addr f <> baddr).
  { intros j f Hj Hl. pose proof (write_others j Hj) as Hn.
    pose proof (write_lookup j ltac:(intros ->; by apply write_not_in)) as Hw. rewrite Hl in Hw.
    unfold tracks, ent_test in Hn. destruct (btb_data p !! j) as [g|]; [|done]. cbn in Hw. injection Hw as Hw _ _.
    unfold for_branch in Hn. bool_to_prop. congruence. }
  assert (Hi : forall f, d' !! i = Some f -> addr f = baddr).
  { intros f Hl. unfold d' in Hl. rewrite list_lookup_insert_eq in Hl by (by eapply lookup_lt_Some).
    injection Hl as <-. apply write_ent_addr. }
  intros j k f g Hj Hk Lj Lk Hn Heq. change (btb_data p') with d' in *.
  apply elem_of_cons in Hj as [->|Hj]; apply elem_of_cons in Hk as [->|Hk]; [done|..].
  - exfalso. apply (Hone k g); [done..|]. rewrite <- Heq. by apply Hi.
  - exfalso. apply (Hone j f); [done..|]. rewrite Heq. by apply Hi.
  - pose proof (write_lookup j ltac:(intros ->; by apply write_not_in)) as Wj. rewrite Lj in Wj.
    pose proof (write_lookup k ltac:(intros ->; by apply write_not_in)) as Wk. rewrite Lk in Wk.
    destruct (btb_data p !! j) as [fj|] eqn:Ej; [|done]. destruct (btb_data p !! k) as [fk|] eqn:Ek; [|done].
    cbn in Wj, Wk. injection Wj as Wj _ _. injection Wk as Wk _ _.
    eapply (Hu j k fj fk); unfold l; [set_solver|set_solver|done|done|congruence|congruence].
Qed.

(** The other sets are not touched. *)
Lemma write_frame s k : s <> set_of p baddr ->
  k ∈ seq (s * Z.to_nat (btb_assoc p)) (Z.to_nat (btb_assoc p)) -> d' !! k = btb_data p !! k.
Proof.
  intros Hs Hk. assert (Hn : k ∉ l).
  { destruct Hc as [Hp _]. rewrite Hp, elem_of_seq. rewrite elem_of_seq in Hk. nia. }
  unfold d'. rewrite list_lookup_insert_ne; [by apply Hf|]. intros ->. apply Hn. unfold l. set_solver.
Qed.

Lemma write_other_sets s l0 : s <> set_of p baddr -> btb_chain p s l0 -> btb_unique p l0 ->
  btb_chain p' s l0 /\ btb_unique p' l0 /\ btb_views d' l0 = btb_views (btb_data p) l0.
Proof.
  intros Hs [Hp Hd] Hu0.
  assert (Hfr : forall k, k ∈ l0 -> d' !! k = btb_data p !! k) by (intros k; rewrite Hp; by apply write_frame).
  split_and!.
  - split; [exact Hp|]. intros Ha. change (dllseg d' None l0 None). eapply dllseg_frame; [|exact (Hd Ha)]. intros k Hk. by rewrite Hfr.
  - intros j k f g Hj Hk Lj Lk. change (btb_data p') with d' in *. rewrite Hfr in Lj, Lk by done. by apply Hu0.
  - apply btb_views_ext. intros k Hk. by rewrite Hfr.
Qed.

Lemma write_ok : btb_ok p' /\
  btb_holds p' (set_of p baddr) (taken_in_set baddr btarget correct o (btb_views (btb_data p) l)) /\
  (forall s vs, s <> set_of p baddr -> btb_holds p s vs -> btb_holds p' s vs).
Proof.
  split_and!.
  - destruct Hok as [H1 H2 H3 H4]. split; [done|done| |].
    + cbn. unfold d'. rewrite length_insert. rewrite <- H3, <- (length_fmap view_ent d), Hv. apply length_fmap.
    + intros s Hs. destruct (decide (s = set_of p baddr)) as [->|Hne].
      * eexists. split; [apply write_chain|apply write_unique].
      * destruct (H4 s Hs) as (l0 & Hc0 & Hu0). exists l0. by destruct (write_other_sets s l0 Hne Hc0 Hu0) as (? & ? & _).
  - exists (i :: l1 ++ l2). split; [apply write_chain|]. split; [apply write_unique|]. symmetry. apply write_views.
  - intros s vs Hne (l0 & Hc0 & Hu0 & ->). exists l0.
    destruct (write_other_sets s l0 Hne Hc0 Hu0) as (? & ? & H). by split_and!.
Qed.

End Write.
