(* ===== verification/BpredInit.v ===== *)
(** bpred_create makes a sound predictor with an empty branch target buffer. *)

From S2P Require Import Prelude Dll Misc Isa Bpred BpredWf BpredBtb.

(** * The loop that links the sets *)

(** Whether entry [k] has its prev and next links when the first [m] iterations are done. *)
Definition has_prev (a m k : nat) : bool := ((0 <? k) && (k <=? m) && negb (k mod a =? 0))%nat.
Definition has_next (a m k : nat) : bool := ((k <? m) && negb (k mod a =? a - 1))%nat.

Definition linked_ent (a m k : nat) : bpred_btb_ent :=
  mk_btb 0 OP_NA 0 (if has_prev a m k then Some (k - 1)%nat else None) (if has_next a m k then Some (k + 1)%nat else None).

Definition linked (a m n : nat) : list bpred_btb_ent := linked_ent a m <$> seq 0 n.

Lemma linked_lookup a m n k : (k < n)%nat -> linked a m n !! k = Some (linked_ent a m k).
Proof. intros H. unfold linked. rewrite list_lookup_fmap, lookup_seq_lt by done. done. Qed.

Lemma linked_length a m n : length (linked a m n) = n.
Proof. unfold linked. by rewrite length_fmap, length_seq. Qed.

Lemma linked_ext a m n d : length d = n -> (forall k, (k < n)%nat -> d !! k = Some (linked_ent a m k)) ->
  d = linked a m n.
Proof.
  intros Hl H. apply list_eq. intros k. destruct (decide (k < n)%nat) as [Hk|Hk].
  - by rewrite H, linked_lookup.
  - rewrite !lookup_ge_None_2; rewrite ?linked_length; done || lia.
Qed.

Lemma linked_0 a n : repeat zero_btb n = linked a 0 n.
Proof.
  apply linked_ext; [apply repeat_length|]. intros k Hk. rewrite lookup_repeat by done. unfold linked_ent.
  replace (has_prev a 0 k) with false by (unfold has_prev; destruct k; done).
  by replace (has_next a 0 k) with false by (unfold has_next; destruct k; done).
Qed.

Lemma mod_step a m : (1 < a)%nat ->
  (m mod a = a - 1 /\ (m + 1) mod a = 0 \/ m mod a <> a - 1 /\ (m + 1) mod a = m mod a + 1)%nat.
Proof.
  intros Ha. pose proof (Nat.mod_upper_bound m a ltac:(lia)). rewrite Nat.Div0.add_mod, (Nat.mod_small 1) by lia.
  destruct (Nat.eq_dec (m mod a) (a - 1)) as [E|E]; [left|right]; (split; [done|]).
  - rewrite E. replace (a - 1 + 1)%nat with a by lia. apply Nat.Div0.mod_same.
  - apply Nat.mod_small. lia.
Qed.

Lemma has_step a m k : (1 < a)%nat -> (k <> m -> has_next a (S m) k = has_next a m k) /\
  (k <> m + 1 -> has_prev a (S m) k = has_prev a m k)%nat /\
  has_next a (S m) m = negb (m mod a =? a - 1)%nat /\ has_prev a (S m) (m + 1) = negb (m mod a =? a - 1)%nat /\
  has_prev a m (m + 1) = false /\ has_next a m m = false.
Proof.
  intros Ha. unfold has_next, has_prev. destruct (mod_step a m Ha) as [[E1 E2]|[E1 E2]];
    split_and!; intros; try blia; rewrite ?E2; blia.
Qed.

Lemma link_btb_step a s m : (1 < a)%nat -> (m < s * a)%nat ->
  link_btb (Z.of_nat a) (Z.of_nat m) (linked a m (s * a)) = Ok (linked a (S m) (s * a)).
Proof.
  intros Ha Hm. unfold link_btb. rewrite <- Nat2Z.inj_mod, Nat2Z.id.
  replace (Z.of_nat (m mod a) =? Z.of_nat a - 1) with (m mod a =? a - 1)%nat by blia.
  replace (Z.to_nat (Z.of_nat m + 1)) with (m + 1)%nat by lia.
  assert (Hnot : (m mod a <> a - 1 -> m + 1 < s * a)%nat).
  { intros Hl. destruct (decide (m + 1 < s * a)%nat); [done|]. exfalso. apply Hl.
    destruct s as [|s]; [lia|]. replace m with (a - 1 + s * a)%nat by lia. rewrite Nat.Div0.mod_add. apply Nat.mod_small. lia. }
  rewrite (c_upd_insert _ _ _ _ (linked_lookup a m _ m Hm)). cbn [mbind outcome_bind].
  set (n := (s * a)%nat) in *. clearbody n. destruct (Nat.eqb_spec (m mod a) (a - 1)) as [Hlast|Hlast].
  - f_equal. apply linked_ext; [by rewrite length_insert, linked_length|]. intros k Hk.
    destruct (has_step a m k Ha) as (H1 & H2 & H3 & H4 & H5 & H6). rewrite Hlast, Nat.eqb_refl in H3, H4.
    destruct (decide (k = m)) as [->|Hne].
    + rewrite list_lookup_insert_eq by (by rewrite linked_length). unfold linked_ent. cbn. by rewrite H3, H2 by lia.
    + rewrite list_lookup_insert_ne, linked_lookup by done. unfold linked_ent. rewrite H1 by done.
      destruct (decide (k = m + 1)%nat) as [->|]; [by rewrite H4, H5|by rewrite H2].
  - rewrite (c_upd_insert _ _ _ (linked_ent a m (m + 1))).
    2: { rewrite list_lookup_insert_ne by lia. apply linked_lookup. auto. }
    f_equal. apply linked_ext; [by rewrite !length_insert, linked_length|]. intros k Hk.
    destruct (has_step a m k Ha) as (H1 & H2 & H3 & H4 & H5 & H6).
    rewrite (proj2 (Nat.eqb_neq _ _) Hlast) in H3, H4. destruct (decide (k = m + 1)%nat) as [->|Hne].
    + rewrite list_lookup_insert_eq by (by rewrite length_insert, linked_length). unfold linked_ent. cbn.
      rewrite H4, H1 by lia. cbn. by replace (m + 1 - 1)%nat with m by lia.
    + rewrite list_lookup_insert_ne by done. destruct (decide (k = m)) as [->|Hne'].
      * rewrite list_lookup_insert_eq by (by rewrite linked_length). unfold linked_ent. cbn. by rewrite H3, H2.
      * rewrite list_lookup_insert_ne, linked_lookup by done. unfold linked_ent. by rewrite H1, H2.
Qed.

Lemma link_btbs_ok a s len m : (1 < a)%nat -> (m + len = s * a)%nat ->
  link_btbs (Z.of_nat a) (seq m len) (linked a m (s * a)) = Ok (linked a (s * a) (s * a)).
Proof.
  intros Ha. revert m. induction len as [|len IH]; intros m Hm; cbn [seq link_btbs].
  - by replace m with (s * a)%nat by lia.
  - rewrite link_btb_step by lia. cbn [mbind outcome_bind]. apply IH. lia.
Qed.

(** * The chains that come out *)

Lemma linked_seg a s k len : (1 < a)%nat -> (forall n, n = s * a -> forall q, q * a + a <= n -> k + len = q * a + a -> q * a <= k ->
  dllseg (linked a n n) (if k mod a =? 0 then None else Some (k - 1)) (seq k len) None)%nat.
Proof.
  intros Ha n -> q Hq. revert k. induction len as [|len IH]; intros k Hk Hge; [done|]. cbn [seq dllseg].
  exists (linked_ent a (s * a) k). rewrite linked_lookup by lia.
  assert (Hmod : (k mod a = k - q * a)%nat).
  { replace k with ((k - q * a) + q * a)%nat at 1 by lia. rewrite Nat.Div0.mod_add, Nat.mod_small; lia. }
  split; [done|]. unfold linked_ent. cbn [lprev lnext btb_linked prev next].
  split; [|split].
  - unfold has_prev. rewrite Hmod. destruct (Nat.eqb_spec (k - q * a) 0); [by rewrite andb_false_r|].
    by replace ((0 <? k) && (k <=? s * a) && negb false)%nat with true by blia.
  - unfold has_next. rewrite Hmod. destruct len as [|len]; cbn [seq hd_or].
    + by replace ((k <? s * a) && negb (k - q * a =? a - 1))%nat with false by blia.
    + replace ((k <? s * a) && negb (k - q * a =? a - 1))%nat with true by blia. f_equal. lia.
  - specialize (IH (S k) ltac:(lia) ltac:(lia)). destruct len as [|len]; [done|].
    assert (Hmod' : (S k mod a = S k - q * a)%nat).
    { replace (S k) with ((S k - q * a) + q * a)%nat at 1 by lia. rewrite Nat.Div0.mod_add, Nat.mod_small; lia. }
    rewrite Hmod' in IH. replace (S k - q * a =? 0)%nat with false in IH by blia.
    replace (S k - 1)%nat with k in IH by lia. exact IH.
Qed.

Definition free_view : btb_view := mk_view 0 OP_NA 0.

(** An array of free entries whose sets are chained. *)
Definition fresh_btb (a n : nat) (d : list bpred_btb_ent) : Prop :=
  length d = n /\ (forall k, (k < n)%nat -> exists e, d !! k = Some e /\ view_ent e = free_view) /\
  ((1 < a)%nat -> forall s, (s * a + a <= n)%nat -> dllseg d None (seq (s * a) a) None).

Lemma linked_fresh a s : (1 < a)%nat -> fresh_btb a (s * a) (linked a (s * a) (s * a)).
Proof.
  intros Ha. split_and!; [apply linked_length| |].
  - intros k Hk. eexists. split; [by apply linked_lookup|done].
  - intros _ q Hq. pose proof (linked_seg a s (q * a) a Ha _ eq_refl q Hq ltac:(lia) ltac:(lia)) as H.
    by rewrite Nat.Div0.mod_mul in H.
Qed.

Lemma zero_fresh a n : (a <= 1)%nat -> fresh_btb a n (repeat zero_btb n).
Proof.
  intros Ha. split_and!; [apply repeat_length| |lia].
  intros k Hk. exists zero_btb. split; [by apply lookup_repeat|done].
Qed.

Lemma fresh_views d l a n : fresh_btb a n d -> (forall k, k ∈ l -> (k < n)%nat) ->
  btb_views d l = repeat free_view (length l).
Proof.
  intros (_ & He & _) Hl. induction l as [|k l IH]; [done|]. destruct (He k) as (e & Hk & Hv); [apply Hl; set_solver|].
  rewrite (btb_views_cons _ _ _ _ Hk), IH, Hv by set_solver. done.
Qed.

Lemma fresh_ok p : pow2 (btb_sets p) -> pow2 (btb_assoc p) ->
  fresh_btb (Z.to_nat (btb_assoc p)) (Z.to_nat (btb_sets p) * Z.to_nat (btb_assoc p)) (btb_data p) ->
  btb_ok p /\ forall s, (s < Z.to_nat (btb_sets p))%nat -> btb_holds p s (repeat free_view (Z.to_nat (btb_assoc p))).
Proof.
  intros Hs Ha Hf. set (a := Z.to_nat (btb_assoc p)) in *.
  assert (Hset : forall s, (s < Z.to_nat (btb_sets p))%nat ->
    btb_chain p s (seq (s * a) a) /\ btb_unique p (seq (s * a) a)).
  { intros s Hlt. destruct Hf as (Hl & He & Hc). split.
    - split; [done|]. intros H1. apply Hc; [unfold a; lia|nia].
    - intros i j e f Hi Hj Hei Hej Hn _. exfalso. apply Hn. rewrite elem_of_seq in Hi.
      destruct (He i) as (e' & He' & Hv); [nia|]. rewrite Hei in He'. injection He' as <-. by injection Hv. }
  split.
  - split; [done|done|apply Hf|]. intros s Hlt. eexists. by apply Hset.
  - intros s Hlt. exists (seq (s * a) a). destruct (Hset s Hlt) as [Hc Hu]. split; [done|]. split; [done|].
    rewrite (fresh_views _ _ _ _ Hf), length_seq; [done|]. intros k Hk. rewrite elem_of_seq in Hk. nia.
Qed.

(** * Creation *)

Definition size_ok (n : Z) : bool := negb ((n =? 0) || not_pow2 n).

Lemma size_ok_pow2 n : 0 <= n < 2 ^ 31 -> size_ok n = true -> pow2 n /\ s32 n = n.
Proof.
  unfold size_ok. intros Hn H. bool_to_prop. split; [|by apply s32_small; lia]. split; [lia|done].
Qed.

Lemma flipflop_ok n f : f = 1 \/ f = 2 -> Forall ctr_ok (flipflop_table n f) /\ length (flipflop_table n f) = n.
Proof.
  revert f. induction n as [|n IH]; intros f Hf; [by split|]. cbn.
  destruct (IH (3 - f)) as [H1 H2]; [lia|]. split; [constructor; [unfold ctr_ok; lia|done]|by rewrite H2].
Qed.

Lemma flipflop_table_ok n : pow2 n -> table_ok n (flipflop_table (Z.to_nat n) 1).
Proof. intros H. destruct (flipflop_ok (Z.to_nat n) 1) as [H1 H2]; [by left|]. split; [done|]. by split. Qed.

Lemma dir_create_2bit n : 0 <= n < 2 ^ 31 ->
  if size_ok n then exists d, bpred_dir_create BPred2bit n 0 0 false = Ok d /\ dir_ok d /\ is_2lev d = false
  else bpred_dir_create BPred2bit n 0 0 false = Fatal.
Proof.
  intros Hn. pose proof (size_ok_pow2 n Hn) as Hp. unfold size_ok in *. cbn [bpred_dir_create]. unfold fatal_if.
  destruct (_ || _); cbn [negb] in *; [done|]. cbn [mbind outcome_bind]. eexists. split; [done|]. split; [|done]. constructor.
  by apply flipflop_table_ok, Hp.
Qed.

Definition history_ok (w : Z) : bool := negb ((w =? 0) || (30 <? w)).

Lemma dir_create_2lev l1 l2 w x : 0 <= l1 < 2 ^ 31 -> 0 <= l2 < 2 ^ 31 -> 0 <= w < 2 ^ 31 ->
  if size_ok l1 && size_ok l2 && history_ok w
  then exists d, bpred_dir_create BPred2Level l1 l2 w x = Ok d /\ dir_ok d /\ is_2lev d = true
  else bpred_dir_create BPred2Level l1 l2 w x = Fatal.
Proof.
  intros H1 H2 Hw. pose proof (size_ok_pow2 l1 H1) as P1. pose proof (size_ok_pow2 l2 H2) as P2.
  unfold size_ok, history_ok in *. cbn [bpred_dir_create]. unfold fatal_if.
  destruct ((l1 =? 0) || _); cbn [negb andb mbind outcome_bind] in *; [done|].
  destruct ((l2 =? 0) || _); cbn [negb andb mbind outcome_bind] in *; [done|].
  destruct ((w =? 0) || _) eqn:E; cbn [negb andb mbind outcome_bind] in *; [done|].
  destruct (P1 eq_refl) as [Q1 ->]. destruct (P2 eq_refl) as [Q2 ->]. bool_to_prop. rewrite s32_small by lia.
  eexists. split; [done|]. split; [|done]. constructor; [done|apply repeat_length|lia| |by apply flipflop_table_ok].
  apply Forall_forall. intros r Hr. apply list_elem_of_In, repeat_spec in Hr as ->.
  pose proof (pow2_pos w). lia.
Qed.

(** What bpred_create accepts for the target buffer and the return stack. *)
Definition btb_sizes_ok (sets assoc rs : Z) : bool := size_ok sets && size_ok assoc && negb (not_pow2 rs).

Definition fresh_bpred (p : bpred) : Prop :=
  btb_ok p /\ rs_ok p /\
  (forall s, (s < Z.to_nat (btb_sets p))%nat -> btb_holds p s (repeat free_view (Z.to_nat (btb_assoc p)))).

Lemma create_btb_ok sets assoc rs p : 0 <= sets -> 0 <= assoc -> sets * assoc < 2 ^ 31 -> 0 <= rs < 2 ^ 31 ->
  if btb_sizes_ok sets assoc rs
  then exists p', create_btb sets assoc rs p = Ok p' /\ same_dirs p p' /\ fresh_bpred p' /\
         btb_sets p' = sets /\ btb_assoc p' = assoc /\ rs_size p' = rs
  else create_btb sets assoc rs p = Fatal.
Proof.
  intros H1 H2 H3 H4. unfold create_btb, btb_sizes_ok, fatal_if.
  pose proof (size_ok_pow2 sets) as P1. pose proof (size_ok_pow2 assoc) as P2. unfold size_ok in *.
  destruct ((sets =? 0) || _) eqn:E1; cbn [negb andb mbind outcome_bind] in *; [done|].
  destruct ((assoc =? 0) || _) eqn:E2; cbn [negb andb mbind outcome_bind] in *; [done|]. bool_to_prop.
  destruct P1 as [Q1 ->]; [nia|done|]. destruct P2 as [Q2 ->]; [nia|done|].
  rewrite (s32_small (sets * assoc)), Z.eqb_refl, (u32_small (sets * assoc)) by nia. cbn [mbind outcome_bind].
  set (d := if 1 <? assoc then _ else _).
  assert (Hd : exists d', d = Ok d' /\ fresh_btb (Z.to_nat assoc) (Z.to_nat sets * Z.to_nat assoc) d').
  { unfold d. rewrite Z2Nat.inj_mul by lia. destruct (Z.ltb_spec 1 assoc).
    - rewrite (linked_0 (Z.to_nat assoc)). pose proof (link_btbs_ok (Z.to_nat assoc) (Z.to_nat sets) _ 0 ltac:(lia) eq_refl) as L.
      rewrite Z2Nat.id in L by lia. rewrite L. eexists. split; [done|]. apply linked_fresh. lia.
    - eexists. split; [done|]. apply zero_fresh. lia. }
  destruct Hd as (d' & -> & Hf). cbn [mbind outcome_bind]. destruct (not_pow2 rs) eqn:E3; cbn [negb mbind outcome_bind]; [done|].
  eexists. split; [done|]. split; [by split; [|intros []]|].
  split; [|do 2 (split; [done|]); apply s32_small; lia].
  destruct (fresh_ok (p <| btb_sets := sets |> <| btb_assoc := assoc |> <| btb_data := d' |>
        <| rs_size := s32 rs |> <| stack := repeat 0 (Z.to_nat rs) |> <| tos := s32 (rs - 1) |>)) as [Hb Hh]; [done..|].
  split; [exact Hb|]. split; [|exact Hh]. unfold rs_ok. cbn. rewrite !s32_small by lia. split; [apply repeat_length|].
  destruct (decide (rs = 0)); [by left|right]. split; [split; [lia|done]|lia].
Qed.

(** The sizes a predictor of each class is created with. *)
Definition create_valid (c : bpred_class) (bimod_size l1size l2size meta_size shift_width sets assoc rs : Z) : bool :=
  match c with
  | BPredComb => size_ok bimod_size && (size_ok l1size && size_ok l2size && history_ok shift_width)
                 && size_ok meta_size && btb_sizes_ok sets assoc rs
  | BPred2Level => size_ok l1size && size_ok l2size && history_ok shift_width && btb_sizes_ok sets assoc rs
  | BPred2bit => size_ok bimod_size && btb_sizes_ok sets assoc rs
  | BPredTaken | BPredNotTaken => true
  end.

Lemma bpred_create_ok c bim l1 l2 met w x sets assoc rs :
  c <> BPredTaken /\ c <> BPredNotTaken ->
  0 <= bim < 2 ^ 31 -> 0 <= l1 < 2 ^ 31 -> 0 <= l2 < 2 ^ 31 -> 0 <= met < 2 ^ 31 -> 0 <= w < 2 ^ 31 ->
  0 <= sets -> 0 <= assoc -> sets * assoc < 2 ^ 31 -> 0 <= rs < 2 ^ 31 ->
  if create_valid c bim l1 l2 met w sets assoc rs
  then exists p, bpred_create c bim l1 l2 met w x sets assoc rs = Ok p /\ bpred_wf p /\ fresh_bpred p /\
    class p = c /\ btb_sets p = sets /\ btb_assoc p = assoc /\ rs_size p = rs
  else bpred_create c bim l1 l2 met w x sets assoc rs = Fatal.
Proof.
  intros Hc Hbim Hl1 Hl2 Hmet Hw Hs Ha Hsa Hrs.
  assert (Hfin : forall p, class p = c -> dirs_ok p ->
    if btb_sizes_ok sets assoc rs
    then exists p', create_btb sets assoc rs p = Ok p' /\ bpred_wf p' /\ fresh_bpred p' /\
      class p' = c /\ btb_sets p' = sets /\ btb_assoc p' = assoc /\ rs_size p' = rs
    else create_btb sets assoc rs p = Fatal).
  { intros p Hp Hd. pose proof (create_btb_ok sets assoc rs p Hs Ha Hsa Hrs) as H.
    destruct (btb_sizes_ok sets assoc rs); [|done]. destruct H as (p' & E & Hsd & Hf & H1 & H2 & H3).
    assert (Hcl : class p' = c) by (rewrite <- Hp; apply Hsd).
    exists p'. split; [done|]. split; [|exact (conj Hf (conj Hcl (conj H1 (conj H2 H3))))]. split; [by rewrite Hcl|by eapply dirs_ok_same|apply Hf..]. }
  pose proof (dir_create_2bit bim Hbim) as Eb. pose proof (dir_create_2bit met Hmet) as Em.
  pose proof (dir_create_2lev l1 l2 w x Hl1 Hl2 Hw) as Et.
  destruct c; cbn [bpred_create create_valid]; [| | |by destruct Hc..].
  - destruct (size_ok bim); cbn [andb]; [destruct Eb as (b & -> & Hb & Hb2)|by rewrite Eb]. cbn [mbind outcome_bind].
    destruct (size_ok l1 && _ && _); cbn [andb]; [destruct Et as (t & -> & Ht & Ht2)|by rewrite Et]. cbn [mbind outcome_bind].
    destruct (size_ok met); cbn [andb]; [destruct Em as (m & -> & Hm & Hm2)|by rewrite Em]. cbn [mbind outcome_bind].
    apply Hfin; [done|]. intros [] _; eexists; split_and!; done.
  - destruct (size_ok l1 && _ && _); cbn [andb]; [destruct Et as (t & -> & Ht & Ht2)|by rewrite Et]. cbn [mbind outcome_bind].
    apply Hfin; [done|]. intros [] Hn; try done; eexists; split_and!; done.
  - destruct (size_ok bim); cbn [andb]; [destruct Eb as (b & -> & Hb & Hb2)|by rewrite Eb]. cbn [mbind outcome_bind].
    apply Hfin; [done|]. intros [] Hn; try done; eexists; split_and!; done.
Qed.
