(* ===== verification/BpredOps.v ===== *)
(** bpred_lookup and bpred_update on a sound predictor: what they answer and what they
    change, with the invariant kept. *)

From S2P Require Import Prelude Dll Misc Isa Bpred BpredWf BpredBtb BpredInit.

(** * The answers of the predictor *)

(** The counter a direction predictor has for a branch. *)
Definition dir_counter (p : bpred) (i : dir_id) (baddr : Z) : Z :=
  match dir_ptr p i baddr with
  | Ok q => match get_ctr p q with Ok c => c | _ => 0 end
  | _ => 0
  end.

Definition says_taken (p : bpred) (i : dir_id) (baddr : Z) : bool := 2 <=? dir_counter p i baddr.

(** The predicted direction: the combined predictor asks the meta predictor which
    component to follow. *)
Definition predict_dir (p : bpred) (baddr : Z) : bool :=
  match class p with
  | BPredComb => says_taken p (if says_taken p PMeta baddr then PTwolev else PBimod) baddr
  | BPred2Level => says_taken p PTwolev baddr
  | _ => says_taken p PBimod baddr
  end.

(** A return through r31 takes its target from the return address stack. *)
Definition is_return (p : bpred) (o : ss_opcode) (r31p : bool) : bool :=
  bool_decide (o = JR) && r31p && truth (rs_size p).

(** The return address stack read from its top: the newest address first. *)
Definition rs_view (p : bpred) : list Z :=
  (fun j => default 0 (stack p !! Z.to_nat ((tos p - Z.of_nat j) mod rs_size p))) <$> seq 0 (Z.to_nat (rs_size p)).

(** The address answered for a branch whose BTB set holds [vs]; 1 is "taken, target
    unknown" and 0 is "not taken". *)
Definition predict (p : bpred) (vs : list btb_view) (baddr : Z) (o : ss_opcode) (r31p : bool) : Z :=
  if is_return p o r31p then default 0 (head (rs_view p))
  else if uncond o || predict_dir p baddr
       then match List.find (is_for baddr) vs with Some v => v_target v | None => 1 end
       else 0.

(** * Lookup *)

Lemma dir_counter_ok p i baddr : dirs_ok p -> needs (class p) i = true ->
  exists k, dir_ptr p i baddr = Ok (Some (i, k)) /\ ptr_ok p (Some (i, k)) /\
    get_ctr p (Some (i, k)) = Ok (dir_counter p i baddr).
Proof.
  intros Hd Hn. destruct (dir_ptr_ok p i baddr Hd Hn) as (k & E & Hp). exists k. split; [done|]. split; [done|].
  destruct (get_ctr_ok p i k Hd Hp) as (c & Ec & _). unfold dir_counter. by rewrite E, Ec.
Qed.

(** The update record of a conditional branch: pointers to the counters of the
    components, and the directions they predict. *)
Definition upd_for (p : bpred) (baddr : Z) (u : bpred_update_rec) : Prop :=
  match class p with
  | BPredComb => exists kb kt km,
      dir_ptr p PBimod baddr = Ok (Some (PBimod, kb)) /\ dir_ptr p PTwolev baddr = Ok (Some (PTwolev, kt)) /\
      dir_ptr p PMeta baddr = Ok (Some (PMeta, km)) /\ pmeta u = Some (PMeta, km) /\
      pdir1 u = (if says_taken p PMeta baddr then Some (PTwolev, kt) else Some (PBimod, kb)) /\
      pdir2 u = (if says_taken p PMeta baddr then Some (PBimod, kb) else Some (PTwolev, kt)) /\
      dir_bimod u = says_taken p PBimod baddr /\ dir_twolev u = says_taken p PTwolev baddr /\
      dir_meta u = says_taken p PMeta baddr
  | BPred2Level => exists k, dir_ptr p PTwolev baddr = Ok (Some (PTwolev, k)) /\ pdir1 u = Some (PTwolev, k) /\
      pdir2 u = None /\ pmeta u = None
  | _ => exists k, dir_ptr p PBimod baddr = Ok (Some (PBimod, k)) /\ pdir1 u = Some (PBimod, k) /\
      pdir2 u = None /\ pmeta u = None
  end.

(** Behind [pdir1] is the predicted direction. *)
Definition upd_dir (p : bpred) (baddr : Z) (u : bpred_update_rec) : Prop :=
  exists c, get_ctr p (pdir1 u) = Ok c /\ (2 <=? c) = predict_dir p baddr.

Lemma lookup_dirs_ok p baddr o u : class p <> BPredTaken /\ class p <> BPredNotTaken -> dirs_ok p ->
  exists u', lookup_dirs p baddr o u = Ok u' /\ upd_ok p u' /\
    (uncond o = false -> upd_for p baddr u' /\ upd_dir p baddr u') /\
    (uncond o = true -> pdir1 u' = None /\ pdir2 u' = None /\ pmeta u' = None).
Proof.
  intros Hc Hd. unfold lookup_dirs, upd_for, upd_dir, predict_dir, says_taken.
  destruct (uncond o); [eexists; split; [done|]; by split_and!|].
  destruct (class p) eqn:E; try by destruct Hc.
  - destruct (dir_counter_ok p PBimod baddr Hd ltac:(by rewrite E)) as (kb & Eb & Hb & Cb).
    destruct (dir_counter_ok p PTwolev baddr Hd ltac:(by rewrite E)) as (kt & Et & Ht & Ct).
    destruct (dir_counter_ok p PMeta baddr Hd ltac:(by rewrite E)) as (km & Em & Hm & Cm). rewrite Eb, Et, Em.
    cbn [mbind outcome_bind]. rewrite Cm, Cb, Ct. cbn [mbind outcome_bind]. eexists. split; [done|].
    destruct (2 <=? dir_counter p PMeta baddr); (split; [by split; [|split]|]; split; [intros _; split|done]);
      try (by exists kb, kt, km); eexists; split; done.
  - destruct (dir_counter_ok p PTwolev baddr Hd ltac:(by rewrite E)) as (kt & Et & Ht & Ct). rewrite Et. cbn.
    eexists. split; [done|]. split; [by split|]. split; [|done]. intros _. split; [by exists kt|by eexists].
  - destruct (dir_counter_ok p PBimod baddr Hd ltac:(by rewrite E)) as (kt & Et & Ht & Ct). rewrite Et. cbn.
    eexists. split; [done|]. split; [by split|]. split; [|done]. intros _. split; [by exists kt|by eexists].
Qed.

(** The predictor after a lookup: a return pops the stack. *)
Definition looked_up (p : bpred) (o : ss_opcode) (r31p : bool) : bpred :=
  let p := p <| lookups ::= Z.add 1 |> in
  if is_return p o r31p then p <| tos := (tos p + rs_size p - 1) mod rs_size p |> <| retstack_pops ::= Z.add 1 |> else p.

Lemma rs_view_head p : rs_ok p -> rs_size p <> 0 ->
  exists a, stack p !! Z.to_nat (tos p) = Some a /\ head (rs_view p) = Some a.
Proof.
  intros [Hl Hs] Hn. destruct Hs as [|[[Hp _] Ht]]; [done|].
  destruct (lookup_lt_is_Some_2 (stack p) (Z.to_nat (tos p))) as [a Ha]; [lia|]. exists a. split; [done|].
  unfold rs_view. destruct (Z.to_nat (rs_size p)) as [|n] eqn:E; [lia|]. cbn. rewrite Z.sub_0_r, Z.mod_small by lia. by rewrite Ha.
Qed.

Lemma truth_true x : truth x = true <-> x <> 0.
Proof. unfold truth. blia. Qed.

Lemma JR_uncond : uncond JR = true.
Proof. reflexivity. Qed.

Lemma bpred_lookup_ok p vs baddr btarget o r31p u rec :
  bpred_wf p -> is_ctrl o = true -> baddr <> 0 -> btb_holds p (set_of p baddr) vs ->
  exists u', bpred_lookup p baddr btarget o r31p (Some u) rec
      = Ok (mk_look (looked_up p o r31p) u' (if truth (rs_size p) then tos p else 0) (predict p vs baddr o r31p)) /\
    upd_ok p u' /\ (uncond o = false -> upd_for p baddr u') /\
    (uncond o = true -> pdir1 u' = None /\ pdir2 u' = None /\ pmeta u' = None).
Proof.
  intros [Hc Hd Hrs Hb] Hctl Hba Hv. unfold bpred_lookup, looked_up. rewrite Hctl. cbn [negb].
  set (p1 := p <| lookups ::= Z.add 1 |>).
  destruct (lookup_dirs_ok p1 baddr o u Hc Hd) as (u' & -> & Hu & Hf & Hn). cbn [mbind outcome_bind].
  exists u'. split; [|split; [done|split; [intros H; by apply Hf|done]]]. change (class p1) with (class p). change (rs_size p1) with (rs_size p).
  change (tos p1) with (tos p). change (is_return p1 o r31p) with (is_return p o r31p).
  assert (Hcls : forall (A : Type) (a b c : A), match class p with BPredTaken => a | BPredNotTaken => b | _ => c end = c).
  { intros. destruct (class p); try done; by destruct Hc. }
  rewrite Hcls. clear Hcls. unfold predict. fold (is_return p o r31p). destruct (is_return p o r31p) eqn:Er.
  { unfold is_return in Er. bool_to_prop. destruct (rs_view_head p Hrs) as (a & Ha & ->); [by apply truth_true|].
    change (stack p1) with (stack p). rewrite (c_get_some _ _ _ Ha). done. }
  assert (Hb1 : btb_ok p1) by (by apply (btb_ok_same p)).
  destruct (btb_lookup_ok p1 baddr vs Hb1 Hba Hv) as (hit & Eh & Hhit). rewrite Eh. cbn [mbind outcome_bind].
  rewrite <- Hhit. clear Er Hhit. destruct (uncond o) eqn:Eo; cbn [orb].
  - destruct hit as [i|]; [|done]. destruct (btb_lookup_some _ _ _ Hb1 Eh) as [e He].
    rewrite (c_get_some _ _ _ He). cbn [mbind outcome_bind]. cbn [mbind option_bind]. by rewrite He.
  - destruct (Hf eq_refl) as (_ & c & -> & Hq). cbn [mbind outcome_bind].
    change (predict_dir p baddr) with (predict_dir p1 baddr). rewrite <- Hq.
    destruct hit as [i|]; [|done]. destruct (btb_lookup_some _ _ _ Hb1 Eh) as [e He].
    rewrite (c_get_some _ _ _ He). cbn [mbind outcome_bind option_bind]. rewrite He. done.
Qed.

Lemma looked_up_wf p o r31p : bpred_wf p -> bpred_wf (looked_up p o r31p) /\ same_shape p (looked_up p o r31p).
Proof.
  intros Hwf. unfold looked_up. set (p1 := p <| lookups ::= Z.add 1 |>).
  assert (Hwf1 : bpred_wf p1) by (by apply (bpred_wf_same p)).
  destruct (is_return p1 o r31p) eqn:Er; [|by split].
  destruct Hwf1 as [H1 H2 [Hl Hs] H4]. split; [|done]. split.
  - done.
  - by apply (dirs_ok_same p1).
  - unfold is_return in Er. bool_to_prop. apply truth_true in H0. split; [done|]. right.
    destruct Hs as [|[Hp Ht]]; [done|]. split; [done|]. apply Z.mod_pos_bound, Hp.
  - by apply (btb_ok_same p1).
Qed.

(** * Update *)

(** The three saturating counters of the update record. *)
Lemma train_ok p u up taken : dirs_ok p -> upd_ok p u ->
  exists p1 p2 p3, update_ctr p (pdir1 u) up = Ok p1 /\ update_ctr p1 (pdir2 u) up = Ok p2 /\
    update_meta p2 u taken = Ok p3 /\ dirs_ok p3 /\ same_shape p p3 /\ same_rs p p3 /\ same_btb p p3.
Proof.
  intros Hd (H1 & H2 & H3).
  destruct (update_ctr_ok p (pdir1 u) up Hd H1) as (p1 & E1 & Hd1 & Hs1 & Hr1 & Hb1).
  destruct (update_ctr_ok p1 (pdir2 u) up Hd1) as (p2 & E2 & Hd2 & Hs2 & Hr2 & Hb2); [by eapply ptr_ok_shape|].
  assert (Hs12 : same_shape p p2) by (by eapply same_shape_trans).
  destruct (update_meta_ok p2 u taken Hd2) as (p3 & E3 & Hd3 & Hs3 & Hr3 & Hb3); [by eapply ptr_ok_shape|].
  exists p1, p2, p3. do 4 (split; [done|]). split; [by eapply same_shape_trans|]. unfold same_rs, same_btb in *.
  destruct_and!. split_and!; congruence.
Qed.

Lemma update_stats_same p taken pt correct u :
  let p' := update_stats p taken pt correct u in same_dirs p p' /\ same_rs p p' /\ same_btb p p'.
Proof. unfold update_stats. destruct correct, (eqb _ _), (dir_meta u); (split; [split; [done|by intros []]|done]). Qed.

(** The statistics and the counter of JRs. *)
Definition update_head (p : bpred) (taken pred_taken : Z) (correct : bool) (o : ss_opcode) (u : bpred_update_rec) : bpred :=
  let p := update_stats p taken pred_taken correct u in
  if bool_decide (o = JR) then
    let p := p <| jr_seen ::= Z.add 1 |> in
    if correct then p <| jr_hits ::= Z.add 1 |> else p
  else p.

Lemma update_head_same p taken pt correct o u :
  let p' := update_head p taken pt correct o u in same_dirs p p' /\ same_rs p p' /\ same_btb p p'.
Proof.
  unfold update_head. destruct (update_stats_same p taken pt correct u) as ([Hc Hd] & Hr & Hb).
  destruct (bool_decide (o = JR)), correct; (split; [split; [done|intros i; rewrite <- (Hd i); by destruct i]|done]).
Qed.

Lemma btb_holds_same p p' s vs : same_btb p p' -> btb_holds p s vs -> btb_holds p' s vs.
Proof.
  intros Hs (l & Hc & Hu & ->). pose proof Hs as (_ & _ & E). exists l. split; [by eapply btb_chain_same|].
  unfold btb_unique. by rewrite E.
Qed.

Lemma set_of_same p p' baddr : same_btb p p' -> set_of p' baddr = set_of p baddr.
Proof. intros (E & _). unfold set_of. by rewrite E. Qed.

Lemma same_btb_trans p p' p'' : same_btb p p' -> same_btb p' p'' -> same_btb p p''.
Proof. intros (H1 & H2 & H3) (H4 & H5 & H6). split_and!; congruence. Qed.

(** What an update does to the target buffer. *)
Definition btb_updated (p p' : bpred) (baddr btarget taken : Z) (correct : bool) (o : ss_opcode) : Prop :=
  btb_sets p' = btb_sets p /\ btb_assoc p' = btb_assoc p /\
  (forall vs, btb_holds p (set_of p baddr) vs ->
     btb_holds p' (set_of p baddr) (if truth taken then taken_in_set baddr btarget correct o vs else vs)) /\
  (forall s vs, s <> set_of p baddr -> btb_holds p s vs -> btb_holds p' s vs).

Lemma btb_updated_same p p' q baddr btarget taken correct o :
  same_btb p p' -> btb_updated p' q baddr btarget taken correct o -> btb_updated p q baddr btarget taken correct o.
Proof.
  intros Hs (E1 & E2 & H1 & H2). unfold btb_updated in *. rewrite (set_of_same p p' baddr Hs) in *.
  rewrite E1, E2. destruct Hs as (E3 & E4 & E5). split; [done|]. split; [done|]. split; intros; [apply H1|apply H2]; try done; by apply (btb_holds_same p).
Qed.

(** The selection and the write together, in terms of the abstract set. *)
Lemma select_write_ok p baddr btarget correct o : btb_ok p -> baddr <> 0 ->
  exists d i e, btb_select p baddr = Ok (p <| btb_data := d |>, i) /\ d !! i = Some e /\
    let p' := p <| btb_data := <[i := write_ent baddr btarget correct o e]> d |> in
    btb_ok p' /\ btb_updated p p' baddr btarget 1 correct o.
Proof.
  intros Hb Hba.
  assert (Hsel : forall l, btb_chain p (set_of p baddr) l -> btb_unique p l ->
    exists d i e, btb_select p baddr = Ok (p <| btb_data := d |>, i) /\ d !! i = Some e /\
      let p' := p <| btb_data := <[i := write_ent baddr btarget correct o e]> d |> in
      btb_ok p' /\
      btb_holds p' (set_of p baddr) (taken_in_set baddr btarget correct o (btb_views (btb_data p) l)) /\
      (forall s vs, s <> set_of p baddr -> btb_holds p s vs -> btb_holds p' s vs)).
  { intros l Hc Hu. destruct (btb_select_ok p baddr l Hb Hba Hc Hu) as (d & i & E & l1 & l2 & -> & Hc' & Hv & Hf & Ht).
    destruct (chain_range p _ _ i Hb (set_of_lt p baddr Hb) Hc ltac:(set_solver)) as [e0 He0].
    pose proof (views_lookup _ _ i Hv) as Hi. rewrite He0 in Hi. destruct (d !! i) as [e|] eqn:He; [|done].
    exists d, i, e. split; [done|]. split; [done|]. by apply write_ok with (l1 := l1) (l2 := l2). }
  pose proof Hb as [_ _ _ Hch]. destruct (Hch _ (set_of_lt p baddr Hb)) as (l & Hc & Hu).
  destruct (Hsel l Hc Hu) as (d & i & e & E & He & Hok & _ & Hfr). exists d, i, e. split; [done|]. split; [done|].
  split; [done|]. split; [done|]. split; [done|]. split; [|done]. intros vs (l' & Hc' & Hu' & ->). cbn [truth negb Z.eqb].
  destruct (Hsel l' Hc' Hu') as (d' & i' & e' & E' & He' & _ & Hh & _). rewrite E in E'. injection E' as Ed Ei.
  rewrite <- Ed, <- Ei in *. rewrite He in He'. by injection He' as ->.
Qed.

(** The selection and the write, with the training of the counters in between. *)
Lemma update_btb_ok p u baddr btarget taken correct o : dirs_ok p -> btb_ok p -> upd_ok p u -> baddr <> 0 ->
  exists p',
    ('(p, pbtb) ← (if truth taken then '(p, i) ← btb_select p baddr; Ok (p, Some i) else Ok (p, None));
     p ← update_ctr p (pdir1 u) (truth taken);
     p ← update_ctr p (pdir2 u) (truth taken);
     p ← update_meta p u taken;
     update_btb p pbtb baddr btarget correct o) = Ok p' /\
    dirs_ok p' /\ same_shape p p' /\ same_rs p p' /\ btb_ok p' /\ btb_updated p p' baddr btarget taken correct o.
Proof.
  intros Hd Hb Hu Hba. destruct (truth taken) eqn:Et; cbn [mbind outcome_bind].
  - destruct (select_write_ok p baddr btarget correct o Hb Hba) as (d & i & e & -> & He & Hok & Hup).
    cbn [mbind outcome_bind]. set (p0 := p <| btb_data := d |>).
    destruct (train_ok p0 u true taken) as (p1 & p2 & p3 & -> & E2 & E3 & Hd3 & Hs3 & Hr3 & Hb3); [done..|].
    cbn [mbind outcome_bind]. rewrite E2. cbn [mbind outcome_bind]. rewrite E3. cbn [mbind outcome_bind update_btb].
    assert (Hdata : btb_data p3 = d) by apply Hb3. rewrite Hdata, (c_get_some _ _ _ He). cbn [mbind outcome_bind].
    rewrite (c_upd_insert _ _ _ _ He). cbn [mbind outcome_bind]. eexists. split; [done|]. fold (write_ent baddr btarget correct o e).
    set (d' := <[i := _]> d) in *. split; [by apply (dirs_ok_same p3); [split; [|intros []]|]|].
    split; [by eapply (same_shape_trans p p3); [|split; [|intros []]]|]. split; [exact Hr3|].
    assert (Hs : same_btb (p <| btb_data := d' |>) (p3 <| btb_data := d' |>)) by (split; [apply Hb3|split; [apply Hb3|done]]).
    split; [by eapply btb_ok_same|]. unfold btb_updated in *. rewrite Et. destruct Hup as (_ & _ & H1 & H2). cbn in H1.
    split; [apply Hb3|]. split; [apply Hb3|]. split; intros; (eapply btb_holds_same; [exact Hs|]); [by apply H1|by apply H2].
  - destruct (train_ok p u false taken Hd Hu) as (p1 & p2 & p3 & -> & E2 & E3 & Hd3 & Hs3 & Hr3 & Hb3).
    cbn [mbind outcome_bind]. rewrite E2. cbn [mbind outcome_bind]. rewrite E3. cbn [mbind outcome_bind update_btb].
    exists p3. do 4 (split; [done|]). split; [by eapply btb_ok_same|]. unfold btb_updated. rewrite Et.
    split; [apply Hb3|]. split; [apply Hb3|]. split; intros; by eapply btb_holds_same.
Qed.

(** * The return address stack as a bounded stack *)

Definition is_call (o : ss_opcode) : bool := Z.land (SS_OP_FLAGS o) (Z.lor F_CTRL F_CALL) =? Z.lor F_CTRL F_CALL.

Lemma rs_view_length p : length (rs_view p) = Z.to_nat (rs_size p).
Proof. unfold rs_view. by rewrite length_fmap, length_seq. Qed.

Lemma rs_view_lookup p j : (j < Z.to_nat (rs_size p))%nat ->
  rs_view p !! j = Some (default 0 (stack p !! Z.to_nat ((tos p - Z.of_nat j) mod rs_size p))).
Proof. intros H. unfold rs_view. rewrite list_lookup_fmap, lookup_seq_lt by done. done. Qed.

Lemma rs_view_same p p' : same_rs p p' -> rs_view p' = rs_view p.
Proof. intros (E1 & E2 & E3). unfold rs_view. by rewrite E1, E2, E3. Qed.

Lemma rs_view_ext p l : length l = Z.to_nat (rs_size p) ->
  (forall j, (j < Z.to_nat (rs_size p))%nat ->
     l !! j = Some (default 0 (stack p !! Z.to_nat ((tos p - Z.of_nat j) mod rs_size p)))) -> rs_view p = l.
Proof.
  intros Hl H. apply list_eq. intros j. destruct (decide (j < Z.to_nat (rs_size p))%nat) as [Hj|Hj].
  - by rewrite rs_view_lookup, H.
  - rewrite !lookup_ge_None_2; rewrite ?rs_view_length; done || lia.
Qed.

Lemma mod_neq n t j : 0 < n -> 0 < j < n -> (t - j) mod n <> t mod n.
Proof.
  intros Hn Hj H. assert (Hz : (t - (t - j)) mod n = 0) by (rewrite Zminus_mod, H, Z.sub_diag; apply Z.mod_0_l; lia).
  replace (t - (t - j)) with j in Hz by lia. rewrite Z.mod_small in Hz; lia.
Qed.

(** The new address on top of the old ones, the oldest one lost. *)
Definition rs_push (a : Z) (l : list Z) : list Z := a :: removelast l.

Lemma rs_view_push p p' a : rs_ok p -> 0 < rs_size p -> rs_size p' = rs_size p ->
  tos p' = (tos p + 1) mod rs_size p -> stack p' = <[Z.to_nat (tos p') := a]> (stack p) ->
  rs_view p' = rs_push a (rs_view p).
Proof.
  intros [Hl Hs] Hp E1 E2 E3. destruct Hs as [|[_ Ht]]; [lia|]. set (n := rs_size p) in *.
  pose proof (Z.mod_pos_bound (tos p + 1) n Hp) as Hb. unfold rs_push. apply rs_view_ext.
  - cbn. rewrite removelast_firstn_len, length_take, rs_view_length, E1. fold n. lia.
  - rewrite E1. fold n. intros [|j] Hj; cbn [lookup list_lookup].
    + rewrite Z.sub_0_r, E3, E2, Z.mod_mod, list_lookup_insert_eq by lia. done.
    + change ((removelast (rs_view p)) !! j = Some (default 0 (stack p' !! Z.to_nat ((tos p' - Z.of_nat (S j)) mod n)))).
      rewrite removelast_firstn_len, rs_view_length, lookup_take_lt, rs_view_lookup by (fold n; lia). fold n. do 2 f_equal.
      rewrite E3, list_lookup_insert_ne.
      * f_equal. f_equal. rewrite E2, Zminus_mod_idemp_l. f_equal. lia.
      * rewrite E2. rewrite Zminus_mod_idemp_l. pose proof (mod_neq n (tos p + 1) (Z.of_nat (S j)) Hp ltac:(lia)).
        pose proof (Z.mod_pos_bound (tos p + 1 - Z.of_nat (S j)) n Hp). lia.
Qed.

(** A pop turns the circle: the popped address becomes the oldest one. *)
Definition rs_pop (l : list Z) : list Z := match l with [] => [] | a :: l' => l' ++ [a] end.

Lemma rs_view_pop p p' : rs_ok p -> 0 < rs_size p -> rs_size p' = rs_size p ->
  tos p' = (tos p + rs_size p - 1) mod rs_size p -> stack p' = stack p -> rs_view p' = rs_pop (rs_view p).
Proof.
  intros [Hl Hs] Hp E1 E2 E3. set (n := rs_size p) in *.
  destruct (rs_view p) as [|a l] eqn:Ev; [pose proof (rs_view_length p) as H; rewrite Ev in H; cbn in H; fold n in H; lia|].
  pose proof (rs_view_length p) as Hlen. rewrite Ev in Hlen. cbn in Hlen. fold n in Hlen. cbn [rs_pop].
  apply rs_view_ext; rewrite E1; fold n; [rewrite length_app; cbn; lia|]. intros j Hj. rewrite E3, E2, Zminus_mod_idemp_l.
  assert (Hv : forall k, (k < Z.to_nat n)%nat -> (a :: l) !! k = Some (default 0 (stack p !! Z.to_nat ((tos p - Z.of_nat k) mod n)))).
  { intros k Hk. rewrite <- Ev. by apply rs_view_lookup. }
  destruct (decide (j = length l)) as [->|].
  - rewrite list_lookup_middle by done. specialize (Hv 0%nat ltac:(lia)). cbn in Hv. rewrite Hv. do 3 f_equal. f_equal.
    replace (tos p + n - 1 - Z.of_nat (length l)) with (tos p - Z.of_nat 0) by lia. done.
  - rewrite lookup_app_l by lia. specialize (Hv (S j) ltac:(lia)).
    change ((a :: l) !! S j) with (l !! j) in Hv. rewrite Hv. do 3 f_equal. f_equal.
    replace (tos p + n - 1 - Z.of_nat j) with (tos p - Z.of_nat (S j) + 1 * n) by lia. by rewrite Z.mod_add by lia.
Qed.

(** What an update does to the return stack. *)
Definition rs_updated (p p' : bpred) (baddr : Z) (o : ss_opcode) : Prop :=
  rs_size p' = rs_size p /\
  rs_view p' = if is_call o && truth (rs_size p) then rs_push (u32 (baddr + SS_INST_SIZE)) (rs_view p) else rs_view p.

Lemma push_retstack_view p p' baddr o : rs_ok p -> push_retstack p baddr o = Ok p' -> rs_updated p p' baddr o.
Proof.
  intros Hok. unfold push_retstack, rs_updated, is_call. destruct (_ && _) eqn:E; [|by intros [= ->]].
  set (p1 := p <| tos := (tos p + 1) mod rs_size p |>).
  intros H. apply bind_ok in H as (s & Hs & [= <-]). apply andb_prop in E as [_ E]. apply truth_true in E.
  unfold c_upd in Hs. destruct (stack p1 !! _) eqn:El; [|done]. injection Hs as <-. split; [done|].
  apply rs_view_push; try done. destruct Hok as [_ [|[[] _]]]; lia.
Qed.

Lemma return_is_JR p o r31p : is_return p o r31p = true -> o = JR.
Proof. unfold is_return. intros H. by bool_to_prop. Qed.

(** An update on a sound predictor succeeds and keeps it sound. *)
Lemma bpred_update_ok p baddr btarget taken pt correct o r31p u :
  bpred_wf p -> is_ctrl o = true -> baddr <> 0 -> upd_ok p u ->
  exists p', bpred_update p baddr btarget taken pt correct o r31p (Some u) = Ok p' /\ bpred_wf p' /\ same_shape p p' /\
    rs_updated p p' baddr o /\
    (is_return p o r31p = false -> btb_updated p p' baddr btarget taken correct o) /\
    (is_return p o r31p = true -> same_dirs p p' /\ same_btb p p').
Proof.
  intros Hwf Hctl Hba Hu. unfold bpred_update. rewrite Hctl. cbn [negb deref mbind outcome_bind].
  fold (update_head p taken pt correct o u). set (p0 := update_head p taken pt correct o u).
  destruct (update_head_same p taken pt correct o u) as (Hd0 & Hr0 & Hb0). fold p0 in Hd0, Hr0, Hb0.
  assert (Hwf0 : bpred_wf p0) by (by eapply bpred_wf_same).
  change (bool_decide (o = JR) && r31p && truth (rs_size p0)) with (is_return p0 o r31p).
  assert (Hret : is_return p0 o r31p = is_return p o r31p) by (unfold is_return; by rewrite (proj1 Hr0)). rewrite Hret.
  destruct (is_return p o r31p) eqn:Er.
  { exists p0. split; [done|]. split; [done|]. split; [by apply same_dirs_shape|]. split; [|done].
    apply return_is_JR in Er as ->. split; [apply Hr0|]. by apply rs_view_same. }
  destruct Hwf0 as [Hc Hd Hr Hb]. rewrite !bool_decide_false by apply Hc. cbn [orb].
  destruct (push_retstack_ok p0 baddr o Hr) as (p1 & E1 & Hr1 & Hd1 & Hb1). rewrite E1. cbn [mbind outcome_bind].
  destruct (update_history_ok p1 baddr taken o) as (p2 & -> & Hd2 & Hs2 & Hr2 & Hb2 & _); [by eapply dirs_ok_same|].
  cbn [mbind outcome_bind].
  assert (Hs02 : same_shape p p2).
  { eapply same_shape_trans; [|exact Hs2]. eapply same_shape_trans; by apply same_dirs_shape. }
  destruct (update_btb_ok p2 u baddr btarget taken correct o) as (p' & -> & Hd3 & Hs3 & Hr3 & Hb3 & Hup); [done| | |done|].
  { by do 2 (eapply btb_ok_same; [eassumption|]). }
  { by eapply upd_ok_shape. }
  exists p'. split; [done|]. split; [|split; [by eapply same_shape_trans|split; [|split; [|done]]]].
  - split; [|done| |done].
    + rewrite (proj1 Hs3), (proj1 Hs02). by rewrite (proj1 Hd0) in Hc.
    + eapply rs_ok_same; [exact Hr3|]. by eapply rs_ok_same.
  - destruct (push_retstack_view p0 p1 baddr o Hr E1) as [S1 V1]. unfold rs_updated.
    rewrite (rs_view_same p2 p'), (rs_view_same p1 p2), V1, (rs_view_same p p0) by done.
    rewrite (proj1 Hr3), (proj1 Hr2), S1, (proj1 Hr0). done.
  - intros _. do 3 (eapply btb_updated_same; [eassumption|]). done.
Qed.
