(* ===== verification/BpredRun.v ===== *)
(** The loop of sim-bpred.c on the branches of a program: every branch is predicted and
    then resolved.  What holds along any such run, and what the predictor learns. *)

From S2P Require Import Prelude Dll Misc Isa Bpred BpredWf BpredBtb BpredInit BpredOps.

(** * One branch *)

(** A control instruction as sim_main of sim-bpred.c sees it: its address, the target
    and the next program counter it computed, its opcode, whether its register is r31. *)
Record branch := mk_branch { b_pc : Z; b_target : Z; b_next : Z; b_op : ss_opcode; b_r31 : bool }.

(** The prediction and the update of sim_main, with the predicted next address. *)
Definition sim_bpred_branch (p : bpred) (u0 : bpred_update_rec) (stack_idx : Z) (b : branch) : outcome (bpred * Z) :=
  if is_ctrl (b_op b) then
    r ← bpred_lookup p (b_pc b) (b_target b) (b_op b) (b_r31 b) (Some u0) stack_idx;
    let pred_PC := if l_addr r =? 0 then u32 (b_pc b + 8) else l_addr r in
    p ← bpred_update (l_pred r) (b_pc b) (b_next b) (b2z (negb (b_next b =? u32 (b_pc b + 8))))
          (b2z (negb (pred_PC =? u32 (b_pc b + 8)))) (pred_PC =? b_next b) (b_op b) (b_r31 b) (Some (l_upd r));
    Ok (p, pred_PC)
  else Ok (p, 0).

Fixpoint sim_bpred_run (p : bpred) (u0 : bpred_update_rec) (stack_idx : Z) (bs : list branch) : outcome (bpred * list Z) :=
  match bs with
  | [] => Ok (p, [])
  | b :: bs' =>
      '(p, a) ← sim_bpred_branch p u0 stack_idx b;
      '(p, l) ← sim_bpred_run p u0 stack_idx bs';
      Ok (p, a :: l)
  end.

(** * The statistics *)

Definition stats_of (p : bpred) : Z * Z * Z * Z * Z * Z :=
  (lookups p, addr_hits p, dir_hits p, misses p, jr_hits p, jr_seen p).

Lemma set_dir_stats p i d : stats_of (set_dir p i d) = stats_of p.
Proof. by destruct i. Qed.

Lemma upd_ctr_stats p q f p' : upd_ctr p q f = Ok p' -> stats_of p' = stats_of p.
Proof.
  unfold upd_ctr. destruct q as [[i k]|]; [|done]. cbn [deref mbind outcome_bind]. intros H.
  apply bind_ok in H as (d & _ & H). apply bind_ok in H as (t & _ & [= <-]). apply set_dir_stats.
Qed.

Lemma update_ctr_stats p q up p' : update_ctr p q up = Ok p' -> stats_of p' = stats_of p.
Proof. destruct q; cbn [update_ctr]; [apply upd_ctr_stats|by intros [= ->]]. Qed.

Lemma update_meta_stats p u taken p' : update_meta p u taken = Ok p' -> stats_of p' = stats_of p.
Proof.
  unfold update_meta. destruct (pmeta u); [|by intros [= ->]].
  destruct (negb _); [apply upd_ctr_stats|by intros [= ->]].
Qed.

Lemma update_history_stats p baddr taken o p' : update_history p baddr taken o = Ok p' -> stats_of p' = stats_of p.
Proof.
  unfold update_history. destruct (_ && _); [|by intros [= ->]]. intros H. apply bind_ok in H as (d & _ & H).
  destruct d; [done| |done]. apply bind_ok in H as (? & _ & H). by apply bind_ok in H as (? & _ & [= <-]).
Qed.

Lemma push_retstack_stats p baddr o p' : push_retstack p baddr o = Ok p' -> stats_of p' = stats_of p.
Proof.
  unfold push_retstack. destruct (_ && _); [|by intros [= ->]]. intros H. by apply bind_ok in H as (? & _ & [= <-]).
Qed.

Lemma btb_select_stats p baddr p' i : btb_select p baddr = Ok (p', i) -> stats_of p' = stats_of p.
Proof.
  unfold btb_select. destruct (1 <? btb_assoc p); [|by intros [= <- _]]. intros H. apply bind_ok in H as (? & _ & H).
  apply bind_ok in H as (? & _ & H). apply bind_ok in H as (? & _ & H). case_bool_decide; [by injection H as <- _|].
  by apply bind_ok in H as (? & _ & [= <- _]).
Qed.

Lemma update_btb_stats p i baddr btarget correct o p' : update_btb p i baddr btarget correct o = Ok p' -> stats_of p' = stats_of p.
Proof.
  destruct i; cbn [update_btb]; [|by intros [= ->]]. intros H. apply bind_ok in H as (? & _ & H).
  by apply bind_ok in H as (? & _ & [= <-]).
Qed.

Lemma bpred_update_stats p baddr btarget taken pt correct o r31p u p' : is_ctrl o = true ->
  bpred_update p baddr btarget taken pt correct o r31p (Some u) = Ok p' ->
  stats_of p' = stats_of (update_head p taken pt correct o u).
Proof.
  intros Hc. unfold bpred_update. rewrite Hc. cbn [negb deref mbind outcome_bind].
  fold (update_head p taken pt correct o u). set (p0 := update_head p taken pt correct o u).
  destruct (_ && _ && _); [by intros [= <-]|]. destruct (_ || _); [by intros [= <-]|]. intros H.
  apply bind_ok in H as (p1 & E1 & H). apply bind_ok in H as (p2 & E2 & H). apply bind_ok in H as ([p3 i] & E3 & H).
  apply bind_ok in H as (p4 & E4 & H). apply bind_ok in H as (p5 & E5 & H). apply bind_ok in H as (p6 & E6 & E7).
  rewrite (update_btb_stats _ _ _ _ _ _ _ E7), (update_meta_stats _ _ _ _ E6), (update_ctr_stats _ _ _ _ E5),
    (update_ctr_stats _ _ _ _ E4), <- (push_retstack_stats _ _ _ _ E1), <- (update_history_stats _ _ _ _ _ E2).
  destruct (truth taken); [|by injection E3 as -> _].
  apply bind_ok in E3 as ([p3' j] & E3 & [= <- _]). by eapply btb_select_stats.
Qed.

(** Every prediction is a hit or a miss in direction, and a right address is a right
    direction. *)
Definition stats_ok (p : bpred) : Prop :=
  dir_hits p + misses p = lookups p /\ 0 <= addr_hits p <= dir_hits p /\ 0 <= misses p /\ 0 <= jr_hits p <= jr_seen p.

Lemma truth_b2z b : truth (b2z b) = b.
Proof. by destruct b. Qed.

Lemma stats_step p u r t pt c (o : ss_opcode) r31p p' :
  stats_ok p -> stats_of r = stats_of (looked_up p o r31p) -> (c = true -> t = pt) ->
  stats_of p' = stats_of (update_head r (b2z t) (b2z pt) c o u) -> stats_ok p' /\ lookups p' = lookups p + 1.
Proof.
  intros H Hr Hc Hp. unfold stats_ok, stats_of in *. unfold looked_up in Hr. unfold update_head, update_stats in Hp.
  rewrite !truth_b2z in Hp.
  destruct (is_return _ _ _); cbn in Hr; injection Hr as R1 R2 R3 R4 R5 R6; destruct c; [rewrite Hc in Hp by done| |rewrite Hc in Hp by done|];
    destruct t, pt; cbn [eqb] in Hp; destruct (dir_meta u), (bool_decide (o = JR)); cbn in Hp; injection Hp as P1 P2 P3 P4 P5 P6; lia.
Qed.

(** * Soundness of a step *)

Lemma bpred_wf_holds p s : bpred_wf p -> (s < Z.to_nat (btb_sets p))%nat -> exists vs, btb_holds p s vs.
Proof. intros [_ _ _ [_ _ _ H]] Hs. destruct (H s Hs) as (l & Hc & Hu). by exists (btb_views (btb_data p) l), l. Qed.

Lemma looked_up_btb p o r31p : same_btb p (looked_up p o r31p).
Proof. unfold looked_up. by destruct (is_return _ _ _). Qed.

Lemma looked_up_dirs p o r31p : same_dirs p (looked_up p o r31p).
Proof. unfold looked_up. destruct (is_return _ _ _); (split; [done|by intros []]). Qed.

Lemma looked_up_rs p o r31p : rs_ok p -> rs_size (looked_up p o r31p) = rs_size p /\
  rs_view (looked_up p o r31p) = if is_return p o r31p then rs_pop (rs_view p) else rs_view p.
Proof.
  intros Hok. unfold looked_up. change (is_return (p <| lookups ::= Z.add 1 |>) o r31p) with (is_return p o r31p).
  destruct (is_return p o r31p) eqn:E; [|done]. split; [done|]. unfold is_return in E. bool_to_prop.
  apply truth_true in H0. apply rs_view_pop; try done. destruct Hok as [_ [|[[] _]]]; lia.
Qed.

(** bpred_recover with the saved top of stack undoes a pop. *)
Lemma rs_view_recovered p p' : rs_size p' = rs_size p -> stack p' = stack p ->
  rs_view (p' <| tos := if truth (rs_size p) then tos p else 0 |>) = rs_view p.
Proof.
  intros E1 E2. unfold rs_view. cbn. rewrite E1, E2. destruct (truth (rs_size p)) eqn:E; [done|].
  unfold truth in E. bool_to_prop. by rewrite E.
Qed.

(** The prediction of a branch in a predictor whose set holds [vs], as a next address. *)
Definition next_pc (p : bpred) (vs : list btb_view) (b : branch) : Z :=
  let a := predict p vs (b_pc b) (b_op b) (b_r31 b) in if a =? 0 then u32 (b_pc b + 8) else a.

Definition taken (b : branch) : bool := negb (b_next b =? u32 (b_pc b + 8)).

(** One branch: the predicted address, and the state after it. *)
Lemma sim_bpred_branch_ok p u0 idx b vs : bpred_wf p -> is_ctrl (b_op b) = true -> b_pc b <> 0 ->
  btb_holds p (set_of p (b_pc b)) vs ->
  exists p' u', sim_bpred_branch p u0 idx b = Ok (p', next_pc p vs b) /\
    bpred_wf p' /\ same_shape p p' /\ rs_size p' = rs_size p /\ (stats_ok p -> stats_ok p' /\ lookups p' = lookups p + 1) /\
    rs_view p' = (let l := if is_return p (b_op b) (b_r31 b) then rs_pop (rs_view p) else rs_view p in
                  if is_call (b_op b) && truth (rs_size p) then rs_push (u32 (b_pc b + SS_INST_SIZE)) l else l) /\
    (if is_return p (b_op b) (b_r31 b) then same_btb p p'
     else btb_updated p p' (b_pc b) (b_next b) (b2z (taken b)) (next_pc p vs b =? b_next b) (b_op b)) /\
    bpred_update (looked_up p (b_op b) (b_r31 b)) (b_pc b) (b_next b) (b2z (taken b))
      (b2z (negb (next_pc p vs b =? u32 (b_pc b + 8)))) (next_pc p vs b =? b_next b) (b_op b) (b_r31 b) (Some u') = Ok p' /\
    (uncond (b_op b) = false -> upd_for p (b_pc b) u').
Proof.
  intros Hwf Hctl Hpc Hv. unfold sim_bpred_branch. rewrite Hctl.
  destruct (bpred_lookup_ok p vs (b_pc b) (b_target b) (b_op b) (b_r31 b) u0 idx Hwf Hctl Hpc Hv) as (u & -> & Hu & Hf & _).
  cbn [mbind outcome_bind l_addr l_pred l_upd]. fold (next_pc p vs b). fold (taken b).
  destruct (looked_up_wf p (b_op b) (b_r31 b) Hwf) as [Hwf1 Hs1].
  destruct (looked_up_rs p (b_op b) (b_r31 b)) as [Hz1 Hrs1]; [apply Hwf|].
  set (p1 := looked_up p (b_op b) (b_r31 b)) in *.
  destruct (bpred_update_ok p1 (b_pc b) (b_next b) (b2z (taken b)) (b2z (negb (next_pc p vs b =? u32 (b_pc b + 8))))
    (next_pc p vs b =? b_next b) (b_op b) (b_r31 b) u Hwf1 Hctl Hpc ltac:(by eapply upd_ok_shape))
    as (p' & E & Hwf' & Hs' & [Hz Hrs] & Hbtb & Hret).
  rewrite E. cbn [mbind outcome_bind]. exists p', u. split; [done|]. split; [done|]. split; [by eapply same_shape_trans|].
  split; [congruence|]. split; [|split; [|split; [|split; [done|by intros H; apply Hf]]]].
  - intros Hst. apply (bpred_update_stats _ _ _ _ _ _ _ _ _ _ Hctl) in E.
    eapply stats_step; [exact Hst|reflexivity| |exact E]. intros Heq. unfold taken. bool_to_prop. by rewrite Heq.
  - by rewrite Hrs, Hz1, Hrs1.
  - assert (Hir : is_return p1 (b_op b) (b_r31 b) = is_return p (b_op b) (b_r31 b)) by (unfold is_return; by rewrite Hz1).
    rewrite Hir in Hbtb, Hret. destruct (is_return p _ _).
    + eapply same_btb_trans; [apply looked_up_btb|]. by apply Hret.
    + apply (btb_updated_same p p1); [apply looked_up_btb|]. by apply Hbtb.
Qed.

(** * Runs *)

(** The branches a program can execute: control instructions not at address 0. *)
Definition real_branch (b : branch) : bool := is_ctrl (b_op b) && negb (b_pc b =? 0).

Lemma run_step p b : bpred_wf p -> real_branch b = true ->
  exists vs, btb_holds p (set_of p (b_pc b)) vs /\ is_ctrl (b_op b) = true /\ b_pc b <> 0.
Proof.
  intros Hwf Hb. unfold real_branch in Hb. bool_to_prop.
  destruct (bpred_wf_holds p (set_of p (b_pc b)) Hwf (set_of_lt p _ ltac:(apply Hwf))) as [vs Hv]. by exists vs.
Qed.

Lemma sim_bpred_run_ok p u0 idx bs : bpred_wf p -> stats_ok p -> forallb real_branch bs = true ->
  exists p' l, sim_bpred_run p u0 idx bs = Ok (p', l) /\ bpred_wf p' /\ same_shape p p' /\ rs_size p' = rs_size p /\
    stats_ok p' /\ lookups p' = lookups p + Z.of_nat (length bs) /\ length l = length bs.
Proof.
  revert p. induction bs as [|b bs IH]; intros p Hwf Hst Hb; cbn [forallb] in Hb.
  { exists p, []. cbn. split; [done|]. split; [done|]. split; [done|]. split; [done|]. split; [done|]. split; [lia|done]. }
  apply andb_prop in Hb as [Hb Hbs]. destruct (run_step p b Hwf Hb) as (vs & Hv & Hc & Hpc).
  destruct (sim_bpred_branch_ok p u0 idx b vs Hwf Hc Hpc Hv) as (p1 & u' & E & Hwf1 & Hs1 & Hz1 & Hst1 & _).
  destruct (Hst1 Hst) as [Hst1' Hl1]. destruct (IH p1 Hwf1 Hst1' Hbs) as (p2 & l & E2 & Hwf2 & Hs2 & Hz2 & Hst2 & Hl2 & Hlen).
  exists p2, (next_pc p vs b :: l). cbn [sim_bpred_run]. rewrite E. cbn [mbind outcome_bind]. rewrite E2. cbn [mbind outcome_bind].
  split; [done|]. split; [done|]. split; [by eapply same_shape_trans|]. split; [congruence|]. split; [done|].
  cbn [length]. split; [lia|by rewrite Hlen].
Qed.

(** The same without the statistics. *)
Lemma sim_bpred_run_safe p u0 idx bs : bpred_wf p -> forallb real_branch bs = true ->
  exists p' l, sim_bpred_run p u0 idx bs = Ok (p', l) /\ bpred_wf p' /\ class p' = class p.
Proof.
  revert p. induction bs as [|b bs IH]; intros p Hwf Hb; cbn [forallb] in Hb; [by exists p, []|].
  apply andb_prop in Hb as [Hb Hbs]. destruct (run_step p b Hwf Hb) as (vs & Hv & Hc & Hpc).
  destruct (sim_bpred_branch_ok p u0 idx b vs Hwf Hc Hpc Hv) as (p1 & u' & E & Hwf1 & Hs1 & _).
  destruct (IH p1 Hwf1 Hbs) as (p2 & l & E2 & Hwf2 & Hc2). exists p2, (next_pc p vs b :: l). cbn [sim_bpred_run].
  rewrite E. cbn [mbind outcome_bind]. rewrite E2. split; [done|]. split; [done|]. rewrite Hc2. apply Hs1.
Qed.
