(* ===== verification/BpredTrain.v ===== *)
(** What a predictor learns along a run: return addresses, the targets of taken
    branches, and the directions of conditional ones, which the saturating counters
    follow. *)

From S2P Require Import Prelude Dll Misc Isa Bpred BpredWf BpredBtb BpredInit BpredOps BpredRun.

Lemma sim_bpred_run_app p u0 idx bs bs' :
  sim_bpred_run p u0 idx (bs ++ bs') =
  ('(p, l) ← sim_bpred_run p u0 idx bs; '(p, l') ← sim_bpred_run p u0 idx bs'; Ok (p, l ++ l')).
Proof.
  revert p. induction bs as [|b bs IH]; intros p; cbn [app sim_bpred_run].
  - cbn [mbind outcome_bind]. by destruct (sim_bpred_run p u0 idx bs') as [[]| | | | | |].
  - destruct (sim_bpred_branch p u0 idx b) as [[p1 a]| | | | | |]; cbn [mbind outcome_bind]; try done. rewrite IH.
    destruct (sim_bpred_run p1 u0 idx bs) as [[p2 l]| | | | | |]; cbn [mbind outcome_bind]; try done.
    by destruct (sim_bpred_run p2 u0 idx bs') as [[]| | | | | |].
Qed.

(** * Return addresses *)

Definition ret_addr (b : branch) : Z := u32 (b_pc b + SS_INST_SIZE).
Definition call_branch (b : branch) : bool := real_branch b && is_call (b_op b) && negb (ret_addr b =? 0).
Definition return_branch (b : branch) : bool := real_branch b && bool_decide (b_op b = JR) && b_r31 b.

Lemma run_calls p u0 idx bs : bpred_wf p -> forallb call_branch bs = true -> 0 < rs_size p ->
  exists p' l, sim_bpred_run p u0 idx bs = Ok (p', l) /\ bpred_wf p' /\ rs_size p' = rs_size p /\ length l = length bs /\
    rs_view p' = fold_left (fun v b => rs_push (ret_addr b) v) bs (rs_view p).
Proof.
  intros Hwf Hb Hz. revert p Hwf Hz. induction bs as [|b bs IH]; intros p Hwf Hz; cbn [forallb] in Hb; [by exists p, []|].
  apply andb_prop in Hb as [Hb Hbs]. unfold call_branch in Hb. bool_to_prop.
  destruct (run_step p b Hwf H) as (vs & Hv & Hc & Hpc).
  destruct (sim_bpred_branch_ok p u0 idx b vs Hwf Hc Hpc Hv) as (p1 & u' & E & Hwf1 & _ & Hz1 & _ & Hrs & _).
  assert (Hnr : is_return p (b_op b) (b_r31 b) = false).
  { destruct (is_return _ _ _) eqn:Er; [|done]. apply return_is_JR in Er. by rewrite Er in H1. }
  rewrite Hnr, H1 in Hrs. rewrite (proj2 (truth_true _)) in Hrs by lia.
  destruct (IH Hbs p1 Hwf1 ltac:(lia)) as (p2 & l & E2 & Hwf2 & Hz2 & Hlen & Hrs2).
  exists p2, (next_pc p vs b :: l). cbn [sim_bpred_run]. rewrite E. cbn [mbind outcome_bind]. rewrite E2.
  split; [done|]. split; [done|]. split; [congruence|]. split; [by cbn; rewrite Hlen|]. rewrite Hrs2, Hrs. done.
Qed.

Lemma pushed_length bs v : v <> [] -> length (fold_left (fun v b => rs_push (ret_addr b) v) bs v) = length v.
Proof.
  revert v. induction bs as [|b bs IH]; intros v Hv; [done|]. cbn [fold_left]. rewrite IH by done.
  unfold rs_push. cbn. rewrite removelast_firstn_len, length_take. destruct v; [done|]. cbn. lia.
Qed.

(** The last pushes are on top, newest first. *)
Lemma pushed_top bs v : (length bs <= length v)%nat ->
  take (length bs) (fold_left (fun v b => rs_push (ret_addr b) v) bs v) = rev (ret_addr <$> bs).
Proof.
  induction bs as [|b bs IH] using rev_ind; intros Hl; [done|]. rewrite length_app in Hl |- *. cbn [length] in Hl |- *.
  rewrite fold_left_app. cbn [fold_left]. rewrite fmap_app, rev_app_distr. cbn.
  rewrite Nat.add_comm. cbn [Nat.add take]. unfold rs_push. cbn. f_equal. rewrite <- IH by lia.
  set (w := fold_left _ bs v). assert (Hw : length w = length v) by (apply pushed_length; intros ->; cbn in Hl; lia).
  rewrite removelast_firstn_len, take_take. f_equal. lia.
Qed.

Lemma run_returns p u0 idx bs : bpred_wf p -> forallb return_branch bs = true ->
  (length bs <= Z.to_nat (rs_size p))%nat -> Forall (fun a => a <> 0) (take (length bs) (rs_view p)) ->
  exists p', sim_bpred_run p u0 idx bs = Ok (p', take (length bs) (rs_view p)) /\ bpred_wf p'.
Proof.
  intros Hwf Hb Hl Hnz. assert (Hin : Forall (fun a => a <> 0) (take (length bs) (rs_view p)) /\ (length bs <= length (rs_view p))%nat)
    by (by rewrite rs_view_length). clear Hnz Hl.
  revert p Hwf Hin. induction bs as [|b bs IH]; intros p Hwf [Hnz Hl]; cbn [forallb] in Hb; [by exists p|].
  apply andb_prop in Hb as [Hb Hbs]. unfold return_branch in Hb. bool_to_prop.
  destruct (run_step p b Hwf H) as (vs & Hv & Hc & Hpc).
  destruct (sim_bpred_branch_ok p u0 idx b vs Hwf Hc Hpc Hv) as (p1 & u' & E & Hwf1 & _ & Hz1 & _ & Hrs & _).
  rewrite rs_view_length in Hl. cbn [length] in Hl.
  assert (Hr : is_return p (b_op b) (b_r31 b) = true).
  { unfold is_return. rewrite bool_decide_true, H0 by done. apply truth_true. lia. }
  rewrite Hr, H1 in Hrs. change (is_call JR) with false in Hrs. cbn [andb] in Hrs.
  pose proof (rs_view_length p) as Hlen. destruct (rs_view p) as [|a v] eqn:Ev; [cbn in Hlen; lia|]. cbn [length] in Hlen.
  cbn [length take] in Hnz. apply Forall_cons in Hnz as [Ha Hnz]. cbn [rs_pop] in Hrs.
  assert (Hpred : next_pc p vs b = a).
  { unfold next_pc, predict. rewrite Hr, Ev. cbn. destruct (Z.eqb_spec a 0); done. }
  destruct (IH Hbs p1 Hwf1) as (p2 & E2 & Hwf2).
  { rewrite Hrs. rewrite take_app_le by lia. split; [done|]. rewrite length_app. lia. }
  exists p2. split; [|done]. cbn [sim_bpred_run]. rewrite E. cbn [mbind outcome_bind]. rewrite E2. cbn [mbind outcome_bind].
  rewrite Hpred, Hrs, take_app_le by lia. done.
Qed.

(** * Targets *)

Lemma holds_length p s vs : btb_ok p -> (s < Z.to_nat (btb_sets p))%nat -> btb_holds p s vs ->
  length vs = Z.to_nat (btb_assoc p).
Proof.
  intros Hok Hs (l & Hc & _ & ->). assert (Hl : length l = Z.to_nat (btb_assoc p)).
  { destruct Hc as [Hp _]. by rewrite Hp, length_seq. }
  rewrite <- Hl. assert (Hr : forall i, i ∈ l -> is_Some (btb_data p !! i)) by (intros i; by apply (chain_range p s l)).
  clear -Hr. induction l as [|i l IH]; [done|]. destruct (Hr i) as [e He]; [set_solver|].
  rewrite (btb_views_cons _ _ _ _ He). cbn [length]. rewrite IH by set_solver. done.
Qed.

(** The branch [pc] is in the set with target [t], among the [j] + 1 most recent ones. *)
Definition remembers (pc t : Z) (j : nat) (vs : list btb_view) : Prop :=
  exists l1 v l2, vs = l1 ++ v :: l2 /\ (length l1 <= j)%nat /\ is_for pc v = true /\ v_target v = t /\
    Forall (fun w => is_for pc w = false) l1.

Lemma remembers_find pc t j vs : remembers pc t j vs -> exists v, List.find (is_for pc) vs = Some v /\ v_target v = t.
Proof.
  intros (l1 & v & l2 & -> & _ & Hv & Ht & Hf). exists v. split; [|done]. rewrite find_app.
  induction Hf as [|w l1 Hw _ IH]; cbn; [by rewrite Hv|by rewrite Hw].
Qed.

(** Another taken branch moves it by at most one place. *)
Lemma remembers_step pc t j vs b bt c o : remembers pc t j vs -> (S j < length vs)%nat -> b <> pc ->
  remembers pc t (S j) (taken_in_set b bt c o vs).
Proof.
  intros (l1 & v & l2 & -> & Hl & Hv & Ht & Hf) Hlen Hb. unfold taken_in_set.
  assert (Hno : forall w, is_for b w = true -> is_for pc w = false).
  { unfold is_for. intros w Hw. bool_to_prop. apply Z.eqb_neq. congruence. }
  assert (Hvb : is_for b v = false) by (destruct (is_for b v) eqn:E; [|done]; rewrite Hno in Hv; done).
  destruct (List.find (is_for b) (l1 ++ v :: l2)) as [w|] eqn:Ew.
  - apply List.find_some in Ew as [_ Hw].
    set (w' := if c then w else mk_view (v_addr w) (v_op w) bt).
    assert (Hw' : is_for pc w' = false) by (rewrite <- (Hno w Hw); by destruct c).
    exists (w' :: filter (fun v => negb (is_for b v)) l1), v, (filter (fun v => negb (is_for b v)) l2).
    split; [by rewrite filter_app, filter_cons, Hvb|]. split; [cbn; pose proof (length_filter (fun v => negb (is_for b v)) l1); lia|].
    split; [done|]. split; [done|]. constructor; [done|].
    rewrite Forall_forall in Hf |- *. intros x Hx. apply list_elem_of_filter in Hx as [_ Hx]. by apply Hf.
  - rewrite length_app in Hlen. cbn [length] in Hlen. destruct l2 as [|x l2]; [cbn in Hlen; lia|].
    exists (mk_view b o bt :: l1), v, (removelast (x :: l2)).
    split. { cbn [app]. f_equal. rewrite removelast_app by done. done. }
    split; [cbn; lia|]. split; [done|]. split; [done|]. constructor; [|done].
    unfold is_for. cbn. by apply Z.eqb_neq.
Qed.

Lemma remembers_weaken pc t j j' vs : remembers pc t j vs -> (j <= j')%nat -> remembers pc t j' vs.
Proof. intros (l1 & v & l2 & H1 & H2 & H3) Hj. exists l1, v, l2. split; [done|]. split; [lia|done]. Qed.

Lemma remembers_new b bt (c : bool) o vs :
  remembers b (match List.find (is_for b) vs with Some v => if c then v_target v else bt | None => bt end) 0
    (taken_in_set b bt c o vs).
Proof.
  unfold taken_in_set. destruct (List.find (is_for b) vs) as [v|] eqn:E.
  - apply List.find_some in E as [_ Hv]. exists (@nil btb_view). eexists _, _. split; [done|]. split; [done|]. by destruct c.
  - exists (@nil btb_view). eexists _, _. split; [done|]. split; [done|]. split; [apply Z.eqb_refl|done].
Qed.

Definition plain_branch (p : bpred) (b : branch) : bool := real_branch b && negb (is_return p (b_op b) (b_r31 b)).

(** A taken branch is remembered with the address it went to. *)
Lemma taken_remembered p u0 idx b : bpred_wf p -> plain_branch p b = true -> taken b = true ->
  exists p' a vs, sim_bpred_branch p u0 idx b = Ok (p', a) /\ bpred_wf p' /\ rs_size p' = rs_size p /\
    btb_assoc p' = btb_assoc p /\ btb_holds p' (set_of p' (b_pc b)) vs /\ remembers (b_pc b) (b_next b) 0 vs.
Proof.
  intros Hwf Hb Ht. unfold plain_branch in Hb. bool_to_prop. destruct (run_step p b Hwf H) as (vs & Hv & Hc & Hpc).
  destruct (sim_bpred_branch_ok p u0 idx b vs Hwf Hc Hpc Hv) as (p1 & u' & E & Hwf1 & _ & Hz1 & _ & _ & Hbtb & _).
  rewrite H0 in Hbtb. destruct Hbtb as (Es & Ea & Hnew & _). specialize (Hnew vs Hv). rewrite truth_b2z, Ht in Hnew.
  eexists p1, _, _. split; [done|]. split; [done|]. split; [done|]. split; [done|].
  split; [unfold set_of in *; rewrite Es; exact Hnew|].
  pose proof (remembers_new (b_pc b) (b_next b) (next_pc p vs b =? b_next b) (b_op b) vs) as Hr.
  replace (match List.find _ vs with Some v => _ | None => _ end) with (b_next b) in Hr; [done|].
  destruct (List.find (is_for (b_pc b)) vs) as [v|] eqn:Ev; [|done].
  destruct (Z.eqb_spec (next_pc p vs b) (b_next b)) as [Heq|]; [|done]. unfold next_pc, predict in Heq. rewrite H0, Ev in Heq.
  unfold taken in Ht. bool_to_prop.
  destruct (uncond (b_op b) || predict_dir p (b_pc b)); [|done]. destruct (Z.eqb_spec (v_target v) 0); congruence.
Qed.

(** It stays remembered while fewer branches than the set has ways follow it. *)
Lemma run_remembers p u0 idx bs pc t j vs : bpred_wf p -> btb_holds p (set_of p pc) vs -> remembers pc t j vs ->
  forallb (fun b => real_branch b && negb (b_pc b =? pc)) bs = true ->
  (j + length bs < Z.to_nat (btb_assoc p))%nat ->
  exists p' l vs', sim_bpred_run p u0 idx bs = Ok (p', l) /\ bpred_wf p' /\ rs_size p' = rs_size p /\
    btb_holds p' (set_of p' pc) vs' /\ remembers pc t (j + length bs) vs'.
Proof.
  revert p j vs. induction bs as [|b bs IH]; intros p j vs Hwf Hv Hr Hb Hlen; cbn [forallb length] in *.
  { exists p, [], vs. by rewrite Nat.add_0_r. }
  bool_to_prop. destruct (run_step p b Hwf H) as (vb & Hvb & Hc & Hpc).
  destruct (sim_bpred_branch_ok p u0 idx b vb Hwf Hc Hpc Hvb) as (p1 & u' & E & Hwf1 & _ & Hz1 & _ & _ & Hbtb & _).
  assert (Hnext : exists vs1, btb_holds p1 (set_of p1 pc) vs1 /\ remembers pc t (S j) vs1 /\ btb_assoc p1 = btb_assoc p).
  { destruct (is_return p _ _).
    - exists vs. rewrite (set_of_same _ _ _ Hbtb). split; [by eapply btb_holds_same|].
      split; [by eapply remembers_weaken; [exact Hr|lia]|apply Hbtb].
    - destruct Hbtb as (Es & Ea & Hnew & Hold).
      assert (Hset : set_of p1 pc = set_of p pc) by (unfold set_of; by rewrite Es). rewrite Hset.
      destruct (decide (set_of p pc = set_of p (b_pc b))) as [Heq|Hne].
      + eexists. rewrite Heq in Hv |- *. split; [exact (Hnew vs Hv)|]. split; [|done].
        rewrite truth_b2z. destruct (taken b); [|by eapply remembers_weaken; [exact Hr|lia]]. apply remembers_step; [done| |done].
        rewrite (holds_length p _ vs) by (try apply Hwf; try done; by apply set_of_lt, Hwf). lia.
      + exists vs. split; [by apply Hold|]. split; [by eapply remembers_weaken; [exact Hr|lia]|done]. }
  destruct Hnext as (vs1 & Hv1 & Hr1 & Ha1). destruct (IH p1 (S j) vs1 Hwf1 Hv1 Hr1) as (p2 & l & vs2 & E2 & Hwf2 & Hz2 & Hv2 & Hr2).
  { done. }
  { rewrite Ha1. lia. }
  eexists p2, _, vs2. cbn [sim_bpred_run]. rewrite E. cbn [mbind outcome_bind]. rewrite E2. split; [done|]. split; [done|].
  split; [congruence|]. split; [done|]. by replace (j + S (length bs))%nat with (S j + length bs)%nat by lia.
Qed.

(** * Counters *)

(** The counter a pointer designates. *)
Definition counter_at (p : bpred) (q : ctr_ptr) : option Z := d ← get_dir p q.1; dir_table d !! q.2.

Lemma counter_at_same p p' q : same_dirs p p' -> counter_at p' q = counter_at p q.
Proof. intros [_ H]. unfold counter_at. by rewrite H. Qed.

Lemma get_ctr_at p q c : get_ctr p (Some q) = Ok c <-> counter_at p q = Some c.
Proof.
  destruct q as [i k]. unfold get_ctr, counter_at. cbn. destruct (get_dir p i) as [d|]; cbn; [|done].
  unfold c_get, deref. destruct (dir_table d !! k); naive_solver.
Qed.

Lemma update_ctr_at p q0 up p' q : dirs_ok p -> ptr_ok p q0 -> update_ctr p q0 up = Ok p' ->
  counter_at p' q = if decide (q0 = Some q) then sat_step up <$> counter_at p q else counter_at p q.
Proof.
  intros Hd Hp E. destruct q0 as [[i k]|]; cbn [update_ctr] in E; [|by injection E as ->].
  destruct (upd_ctr_ok p i k up Hd Hp) as (p1 & d & c & E1 & Hg & Hc & -> & _). pose proof (eq_trans (eq_sym E) E1) as E2. injection E2 as ->.
  destruct (Hd i (proj1 Hp)) as (d' & Hg' & Hok & _). simplify_eq.
  unfold counter_at. rewrite get_set_dir. destruct q as [j m]. cbn [fst snd].
  destruct (decide (i = j)) as [<-|Hne]; [|by rewrite decide_False by congruence].
  cbn [mbind option_bind]. rewrite Hg, dir_table_set by done. cbn [mbind option_bind]. destruct (decide (k = m)) as [<-|].
  - rewrite decide_True by done. rewrite list_lookup_insert_eq by (by eapply lookup_lt_Some). by rewrite Hc.
  - rewrite decide_False by congruence. by rewrite list_lookup_insert_ne.
Qed.

Lemma update_meta_at p u t p' q : dirs_ok p -> ptr_ok p (pmeta u) -> update_meta p u (b2z t) = Ok p' ->
  counter_at p' q = if decide (pmeta u = Some q) then
      (if eqb (dir_bimod u) (dir_twolev u) then id else sat_step (eqb (dir_twolev u) t)) <$> counter_at p q
    else counter_at p q.
Proof.
  intros Hd Hp E. unfold update_meta in E. destruct (pmeta u) as [q0|] eqn:Em; [|by injection E as ->].
  destruct (eqb (dir_bimod u) (dir_twolev u)); cbn [negb] in E.
  - injection E as ->. case_decide; [|done]. by destruct (counter_at p' q).
  - apply (update_ctr_at p (Some q0)); [done|done|]. cbn [update_ctr]. rewrite <- E. f_equal.
    by destruct (dir_twolev u), t.
Qed.

(** The parts of an update around the counters. *)
Lemma update_history_at p baddr taken o p' q : dirs_ok p -> update_history p baddr taken o = Ok p' ->
  counter_at p' q = counter_at p q.
Proof.
  intros Hd E. destruct (update_history_ok p baddr taken o Hd) as (p1 & E1 & _ & _ & _ & _ & Ht).
  rewrite E in E1. injection E1 as <-. specialize (Ht q.1). unfold counter_at.
  destruct (get_dir p' q.1), (get_dir p q.1); cbn in Ht |- *; congruence.
Qed.

Lemma btb_select_dirs p baddr p' i : btb_select p baddr = Ok (p', i) -> same_dirs p p'.
Proof.
  assert (Hrefl : same_dirs p p) by done.
  unfold btb_select. destruct (1 <? btb_assoc p); [|by intros [= <- _]]. intros H. apply bind_ok in H as (? & _ & H).
  apply bind_ok in H as (? & _ & H). apply bind_ok in H as (? & _ & H). case_bool_decide; [by injection H as <- _|].
  apply bind_ok in H as (? & _ & [= <- _]). split; [done|by intros []].
Qed.

Lemma update_btb_dirs p i baddr btarget correct o p' : update_btb p i baddr btarget correct o = Ok p' -> same_dirs p p'.
Proof.
  destruct i; cbn [update_btb]; [|by intros [= ->]]. intros H. apply bind_ok in H as (? & _ & H).
  apply bind_ok in H as (? & _ & [= <-]). split; [done|by intros []].
Qed.

(** The state the counters are trained in. *)
Lemma update_counters p baddr btarget taken pt correct o r31p u p' : bpred_wf p -> is_ctrl o = true ->
  is_return p o r31p = false -> bpred_update p baddr btarget taken pt correct o r31p (Some u) = Ok p' ->
  exists p3 p4 p5 p6, dirs_ok p3 /\ same_shape p p3 /\ (forall q, counter_at p3 q = counter_at p q) /\
    update_ctr p3 (pdir1 u) (truth taken) = Ok p4 /\ update_ctr p4 (pdir2 u) (truth taken) = Ok p5 /\
    update_meta p5 u taken = Ok p6 /\ (forall q, counter_at p' q = counter_at p6 q).
Proof.
  intros Hwf Hctl Hr. unfold bpred_update. rewrite Hctl. cbn [negb deref mbind outcome_bind].
  fold (update_head p taken pt correct o u). set (p0 := update_head p taken pt correct o u).
  destruct (update_head_same p taken pt correct o u) as (Hd0 & Hr0 & Hb0). fold p0 in Hd0, Hr0, Hb0.
  change (bool_decide (o = JR) && r31p && truth (rs_size p0)) with (is_return p0 o r31p).
  assert (Hret : is_return p0 o r31p = is_return p o r31p) by (unfold is_return; by rewrite (proj1 Hr0)). rewrite Hret, Hr.
  rewrite !bool_decide_false by (rewrite (proj1 Hd0); apply Hwf). cbn [orb]. intros H.
  apply bind_ok in H as (p1 & E1 & H). apply bind_ok in H as (p2 & E2 & H). apply bind_ok in H as ([p3 i] & E3 & H).
  apply bind_ok in H as (p4 & E4 & H). apply bind_ok in H as (p5 & E5 & H). apply bind_ok in H as (p6 & E6 & E7).
  assert (Hdirs0 : dirs_ok p0) by (eapply dirs_ok_same; [done|apply Hwf]).
  destruct (push_retstack_ok p0 baddr o) as (p1' & E1' & _ & Hd1 & _); [eapply rs_ok_same; [done|apply Hwf]|].
  rewrite E1 in E1'. injection E1' as <-. assert (Hdirs1 : dirs_ok p1) by (by eapply dirs_ok_same).
  destruct (update_history_ok p1 baddr taken o Hdirs1) as (p2' & E2' & Hdirs2 & Hs2 & _).
  rewrite E2 in E2'. injection E2' as <-.
  assert (Hd3 : same_dirs p2 p3).
  { destruct (truth taken); [|by injection E3 as <- _]. apply bind_ok in E3 as ([p3' j] & E3 & [= <- _]).
    by eapply btb_select_dirs. }
  exists p3, p4, p5, p6. split; [by eapply dirs_ok_same|]. split.
  { eapply same_shape_trans; [|by apply same_dirs_shape]. eapply same_shape_trans; [|done].
    eapply same_shape_trans; by apply same_dirs_shape. }
  split; [|split; [done|split; [done|split; [done|]]]].
  - intros q. rewrite (counter_at_same p2), (update_history_at _ _ _ _ _ _ Hdirs1 E2), (counter_at_same p0), (counter_at_same p); done.
  - intros q. apply counter_at_same. by eapply update_btb_dirs.
Qed.

(** What a conditional branch does to a counter. *)
Definition trained (p : bpred) (pc : Z) (t : bool) (q : ctr_ptr) (c : Z) : Z :=
  if needs (class p) q.1 && bool_decide (dir_ptr p q.1 pc = Ok (Some q)) then
    match q.1 with
    | PMeta => if eqb (says_taken p PBimod pc) (says_taken p PTwolev pc) then c
               else sat_step (eqb (says_taken p PTwolev pc) t) c
    | _ => sat_step t c
    end
  else c.

Lemma trained_counters p u pc t p3 p4 p5 p6 q : class p <> BPredTaken /\ class p <> BPredNotTaken ->
  upd_ok p3 u -> upd_for p pc u -> dirs_ok p3 ->
  update_ctr p3 (pdir1 u) t = Ok p4 -> update_ctr p4 (pdir2 u) t = Ok p5 -> update_meta p5 u (b2z t) = Ok p6 ->
  counter_at p6 q = trained p pc t q <$> counter_at p3 q.
Proof.
  intros Hc (U1 & U2 & U3) Hf Hd3 E4 E5 E6.
  destruct (update_ctr_ok p3 _ t Hd3 U1) as (p4' & E4' & Hd4 & Hs4 & _). rewrite E4 in E4'. injection E4' as <-.
  assert (U2' : ptr_ok p4 (pdir2 u)) by (by eapply ptr_ok_shape).
  destruct (update_ctr_ok p4 _ t Hd4 U2') as (p5' & E5' & Hd5 & Hs5 & _). rewrite E5 in E5'. injection E5' as <-.
  assert (U3' : ptr_ok p5 (pmeta u)) by (do 2 (eapply ptr_ok_shape; [eassumption|]); done).
  rewrite (update_meta_at p5 u t p6 q Hd5 U3' E6), (update_ctr_at p4 _ t p5 q Hd4 U2' E5), (update_ctr_at p3 _ t p4 q Hd3 U1 E4).
  clear -Hc Hf. unfold trained, upd_for in *. destruct q as [i k]. cbn [fst].
  destruct (class p); cbn [needs]; try by destruct Hc.
  - destruct Hf as (kb & kt & km & Eb & Et & Em & -> & -> & -> & -> & -> & _).
    destruct i; cbn [andb]; rewrite ?Eb, ?Et, ?Em; destruct (says_taken p PMeta pc); repeat case_decide; repeat case_bool_decide; simplify_eq;
      try congruence; destruct (counter_at p3 _); cbn; try done; by destruct (eqb _ _).
  - destruct Hf as (kt & Et & -> & -> & ->).
    destruct i; cbn [andb]; rewrite ?Et; repeat case_decide; repeat case_bool_decide; simplify_eq;
      try congruence; by destruct (counter_at p3 _).
  - destruct Hf as (kt & Et & -> & -> & ->).
    destruct i; cbn [andb]; rewrite ?Et; repeat case_decide; repeat case_bool_decide; simplify_eq;
      try congruence; by destruct (counter_at p3 _).
Qed.

(** One branch of the run, in terms of the counters. *)
Lemma step_counters p u0 idx b p' a : bpred_wf p -> real_branch b = true ->
  sim_bpred_branch p u0 idx b = Ok (p', a) ->
  forall q, counter_at p' q
    = (if uncond (b_op b) then id else trained p (b_pc b) (taken b) q) <$> counter_at p q.
Proof.
  intros Hwf Hb E q. destruct (run_step p b Hwf Hb) as (vs & Hv & Hc & Hpc).
  destruct (bpred_lookup_ok p vs (b_pc b) (b_target b) (b_op b) (b_r31 b) u0 idx Hwf Hc Hpc Hv) as (u & El & Hu & Hf & Hn).
  unfold sim_bpred_branch in E. rewrite Hc, El in E. cbn [mbind outcome_bind l_addr l_pred l_upd] in E.
  apply bind_ok in E as (p2 & E & [= <- _]). fold (next_pc p vs b) in E. fold (taken b) in E.
  destruct (looked_up_wf p (b_op b) (b_r31 b) Hwf) as [Hwf1 Hs1]. pose proof (looked_up_dirs p (b_op b) (b_r31 b)) as Hd1.
  destruct (looked_up_rs p (b_op b) (b_r31 b)) as [Hz1 _]; [apply Hwf|]. set (p1 := looked_up p (b_op b) (b_r31 b)) in *.
  rewrite <- (counter_at_same p p1 q Hd1). destruct (is_return p1 (b_op b) (b_r31 b)) eqn:Er.
  { destruct (bpred_update_ok p1 (b_pc b) (b_next b) (b2z (taken b)) (b2z (negb (next_pc p vs b =? u32 (b_pc b + 8))))
      (next_pc p vs b =? b_next b) (b_op b) (b_r31 b) u Hwf1 Hc Hpc ltac:(by eapply upd_ok_shape)) as (p3 & E3 & _ & _ & _ & _ & Hret).
    rewrite E in E3. injection E3 as <-. destruct (Hret Er) as [Hd _]. apply return_is_JR in Er. rewrite Er, JR_uncond.
    rewrite (counter_at_same p1 p2 q Hd). by destruct (counter_at p1 q). }
  destruct (update_counters _ _ _ _ _ _ _ _ _ _ Hwf1 Hc Er E) as (p3 & p4 & p5 & p6 & Hd3 & Hs3 & H3 & E4 & E5 & E6 & H6).
  rewrite truth_b2z in E4, E5. rewrite H6, <- (H3 q). destruct (uncond (b_op b)) eqn:Eu.
  - destruct (Hn eq_refl) as (N1 & N2 & N3). rewrite N1 in E4. rewrite N2 in E5. injection E4 as <-. injection E5 as <-.
    unfold update_meta in E6. rewrite N3 in E6. injection E6 as <-. by destruct (counter_at p3 q).
  - eapply trained_counters; [by apply Hwf| |by apply Hf|done..]. do 2 (eapply upd_ok_shape; [eassumption|]). done.
Qed.

(** * The bimodal predictor *)

Lemma bimod_dir p : bpred_wf p -> class p = BPred2bit -> exists n t, bimod p = Some (Dir2bit n t) /\ table_ok n t.
Proof.
  intros [_ Hd _ _] Hc. destruct (Hd PBimod) as (d & Hg & Hok & H2); [by rewrite Hc|].
  destruct Hok as [n t Ht|]; [by exists n, t|done].
Qed.

Definition bimod_size (p : bpred) : Z := match bimod p with Some (Dir2bit n _) => n | _ => 0 end.

Lemma bimod_index p pc : bpred_wf p -> class p = BPred2bit ->
  let k := Z.to_nat (BIMOD_HASH (bimod_size p) pc) in
  dir_ptr p PBimod pc = Ok (Some (PBimod, k)) /\ counter_at p (PBimod, k) = Some (dir_counter p PBimod pc).
Proof.
  intros Hwf Hc k. destruct (bimod_dir p Hwf Hc) as (n & t & Hg & Ht). unfold k, bimod_size. rewrite Hg.
  assert (E : dir_ptr p PBimod pc = Ok (Some (PBimod, Z.to_nat (BIMOD_HASH n pc)))).
  { unfold dir_ptr. cbn [get_dir]. by rewrite Hg. }
  split; [done|]. destruct (dir_counter_ok p PBimod pc ltac:(apply Hwf) ltac:(by rewrite Hc)) as (k' & E' & _ & Hctr).
  rewrite E in E'. injection E' as <-. by apply get_ctr_at.
Qed.

Lemma bimod_size_same p p' : bpred_wf p -> bpred_wf p' -> class p = BPred2bit -> same_shape p p' ->
  bimod_size p' = bimod_size p /\ class p' = BPred2bit.
Proof.
  intros Hwf Hwf' Hc [Hc' Hl]. assert (Hc2 : class p' = BPred2bit) by congruence. split; [|done].
  destruct (bimod_dir p Hwf Hc) as (n & t & Hg & [Hn _] & Ht & _). destruct (bimod_dir p' Hwf' Hc2) as (n' & t' & Hg' & [Hn' _] & Ht' & _).
  specialize (Hl PBimod). cbn in Hl. rewrite Hg, Hg' in Hl. cbn in Hl. injection Hl as Hl. unfold bimod_size. rewrite Hg, Hg'. lia.
Qed.

(** A branch that uses the same counter as [pc] moves it. *)
Definition bimod_hits (n pc : Z) (b : branch) : bool := negb (uncond (b_op b)) && (BIMOD_HASH n (b_pc b) =? BIMOD_HASH n pc).

Lemma bimod_step p u0 idx b p' a pc : bpred_wf p -> bpred_wf p' -> class p = BPred2bit -> same_shape p p' -> real_branch b = true ->
  sim_bpred_branch p u0 idx b = Ok (p', a) ->
  dir_counter p' PBimod pc = if bimod_hits (bimod_size p) pc b then sat_step (taken b) (dir_counter p PBimod pc)
                             else dir_counter p PBimod pc.
Proof.
  intros Hwf Hwf' Hc Hs Hb E. destruct (bimod_size_same p p' Hwf Hwf' Hc Hs) as [Hn Hc'].
  destruct (bimod_index p pc Hwf Hc) as [Ei Hk]. destruct (bimod_index p' pc Hwf' Hc') as [Ei' Hk']. rewrite Hn in Ei', Hk'.
  destruct (bimod_index p (b_pc b) Hwf Hc) as [Eb _].
  rewrite (step_counters p u0 idx b p' a Hwf Hb E) in Hk'. rewrite Hk in Hk'. cbn in Hk'. injection Hk' as <-.
  unfold bimod_hits. destruct (uncond (b_op b)); [done|]. unfold trained. cbn [fst]. rewrite Hc, Eb. cbn [needs andb negb].
  destruct (bimod_dir p Hwf Hc) as (n & t & Hg & Hp & _). unfold bimod_size. rewrite Hg.
  pose proof (pow2_land n (Z.lxor (Z.shiftr pc 19) (Z.shiftr pc 3)) Hp).
  pose proof (pow2_land n (Z.lxor (Z.shiftr (b_pc b) 19) (Z.shiftr (b_pc b) 3)) Hp). unfold BIMOD_HASH.
  destruct (Z.eqb_spec (Z.land (Z.lxor (Z.shiftr (b_pc b) 19) (Z.shiftr (b_pc b) 3)) (n - 1))
    (Z.land (Z.lxor (Z.shiftr pc 19) (Z.shiftr pc 3)) (n - 1))) as [->|Hne].
  - by rewrite bool_decide_true.
  - rewrite bool_decide_false; [done|]. intros [= Heq]. lia.
Qed.

Lemma bimod_run p u0 idx bs p' l pc : bpred_wf p -> class p = BPred2bit -> forallb real_branch bs = true ->
  sim_bpred_run p u0 idx bs = Ok (p', l) ->
  dir_counter p' PBimod pc
  = fold_left (fun c b => sat_step (taken b) c) (filter (fun b => bimod_hits (bimod_size p) pc b) bs) (dir_counter p PBimod pc).
Proof.
  revert p l. induction bs as [|b bs IH]; intros p l Hwf Hc Hb E; cbn [forallb sim_bpred_run] in *; [by injection E as <- _|].
  apply andb_prop in Hb as [Hb Hbs]. apply bind_ok in E as ([p1 a] & E1 & E). apply bind_ok in E as ([p2 l2] & E2 & [= <- _]).
  destruct (run_step p b Hwf Hb) as (vs & Hv & Hctl & Hpc).
  destruct (sim_bpred_branch_ok p u0 idx b vs Hwf Hctl Hpc Hv) as (p1' & u' & E1' & Hwf1 & Hs1 & _).
  rewrite E1 in E1'. injection E1' as <- _. destruct (bimod_size_same p p1 Hwf Hwf1 Hc Hs1) as [Hn Hc1].
  rewrite (IH p1 l2 Hwf1 Hc1 Hbs E2), Hn, (bimod_step p u0 idx b p1 a pc Hwf Hwf1 Hc Hs1 Hb E1), filter_cons.
  case_decide as Hd; destruct (bimod_hits _ _ b); done.
Qed.
