(* ===== verification/BpredProps.v ===== *)
(** The properties of the branch predictors, with their witnesses. *)

From S2P Require Import Prelude Dll Misc Isa Bpred BpredWf BpredBtb BpredInit BpredOps BpredRun BpredTrain.

(** A small predictor for the witnesses: tables of 4 counters, a BTB of 2 sets of 2 ways
    and a return stack of 4 entries. *)
Definition ex_pred (c : bpred_class) : bpred :=
  match bpred_create c 4 2 4 4 2 false 2 2 4 with Ok p => p | _ => zero_bpred c end.

Definition ex_upd : bpred_update_rec := mk_upd None None None false false false.

Lemma create_stats c bim l1 l2 met w x sets assoc rs p : bpred_create c bim l1 l2 met w x sets assoc rs = Ok p ->
  stats_of p = (0, 0, 0, 0, 0, 0).
Proof.
  assert (Hb : forall q, stats_of q = (0, 0, 0, 0, 0, 0) -> create_btb sets assoc rs q = Ok p -> stats_of p = (0, 0, 0, 0, 0, 0)).
  { intros q Hq H. unfold create_btb in H. apply bind_ok in H as (? & _ & H). apply bind_ok in H as (? & _ & H).
    apply bind_ok in H as (? & _ & H). apply bind_ok in H as (? & _ & [= <-]). done. }
  destruct c; cbn [bpred_create]; intros H; [| | |by injection H as <-..].
  - apply bind_ok in H as (? & _ & H). apply bind_ok in H as (? & _ & H). apply bind_ok in H as (? & _ & H). by eapply Hb; [|exact H].
  - apply bind_ok in H as (? & _ & H). by eapply Hb; [|exact H].
  - apply bind_ok in H as (? & _ & H). by eapply Hb; [|exact H].
Qed.

Lemma zero_stats_ok p : stats_of p = (0, 0, 0, 0, 0, 0) -> stats_ok p.
Proof. intros [= H1 H2 H3 H4 H5 H6]. unfold stats_ok. lia. Qed.

Lemma ex_ok c : c <> BPredTaken /\ c <> BPredNotTaken ->
  bpred_wf (ex_pred c) /\ stats_ok (ex_pred c) /\ class (ex_pred c) = c /\ rs_size (ex_pred c) = 4 /\ btb_assoc (ex_pred c) = 2 /\
  btb_holds (ex_pred c) (set_of (ex_pred c) 64) (repeat free_view 2).
Proof.
  intros Hc. pose proof (bpred_create_ok c 4 2 4 4 2 false 2 2 4 Hc) as H.
  replace (create_valid c 4 2 4 4 2 2 2 4) with true in H by (by destruct c).
  destruct H as (p & E & Hwf & (_ & _ & Hh) & Hcl & Hs & Ha & Hr); [lia..|]. unfold ex_pred. rewrite E.
  split; [done|]. split; [by eapply zero_stats_ok, create_stats|]. split; [done|]. split; [done|]. split; [done|].
  rewrite Ha in Hh. apply Hh. apply set_of_lt, Hwf.
Qed.

Lemma create_stack c bim l1 l2 met w x sets assoc rs p : c <> BPredTaken /\ c <> BPredNotTaken ->
  bpred_create c bim l1 l2 met w x sets assoc rs = Ok p -> stack p = repeat 0 (Z.to_nat rs).
Proof.
  intros Hc. assert (Hb : forall q, create_btb sets assoc rs q = Ok p -> stack p = repeat 0 (Z.to_nat rs)).
  { intros q H. unfold create_btb in H. apply bind_ok in H as (? & _ & H). apply bind_ok in H as (? & _ & H).
    apply bind_ok in H as (? & _ & H). by apply bind_ok in H as (? & _ & [= <-]). }
  destruct c; cbn [bpred_create]; intros H; [| | |by destruct Hc..].
  - apply bind_ok in H as (? & _ & H). apply bind_ok in H as (? & _ & H). apply bind_ok in H as (? & _ & H). by eapply Hb.
  - apply bind_ok in H as (? & _ & H). by eapply Hb.
  - apply bind_ok in H as (? & _ & H). by eapply Hb.
Qed.

Lemma zero_view p n : stack p = repeat 0 n -> rs_view p = repeat 0 (Z.to_nat (rs_size p)).
Proof.
  intros E. apply rs_view_ext; [apply repeat_length|]. intros j Hj. rewrite lookup_repeat by done. f_equal.
  rewrite E. destruct (decide (Z.to_nat ((tos p - Z.of_nat j) mod rs_size p) < n)%nat) as [Hk|Hk].
  - by rewrite lookup_repeat.
  - rewrite lookup_ge_None_2; [done|]. rewrite repeat_length. lia.
Qed.

(** C31: bpred_create accepts exactly the documented sizes (non-zero powers of two, a
    history width of 1 to 30, a return stack of zero or a power of two entries) and then
    gives a sound predictor: counters between 0 and 3, history registers inside their
    width, every BTB set one LRU chain of free entries. *)
Theorem bpred_create_sound c bim l1 l2 met w x sets assoc rs :
  c <> BPredTaken /\ c <> BPredNotTaken ->
  0 <= bim < 2 ^ 31 -> 0 <= l1 < 2 ^ 31 -> 0 <= l2 < 2 ^ 31 -> 0 <= met < 2 ^ 31 -> 0 <= w < 2 ^ 31 ->
  0 <= sets -> 0 <= assoc -> sets * assoc < 2 ^ 31 -> 0 <= rs < 2 ^ 31 ->
  if create_valid c bim l1 l2 met w sets assoc rs
  then exists p, bpred_create c bim l1 l2 met w x sets assoc rs = Ok p /\ bpred_wf p /\ class p = c /\
    rs_size p = rs /\ rs_view p = repeat 0 (Z.to_nat rs) /\ stats_of p = (0, 0, 0, 0, 0, 0) /\
    forall s, (s < Z.to_nat sets)%nat -> btb_holds p s (repeat free_view (Z.to_nat assoc))
  else bpred_create c bim l1 l2 met w x sets assoc rs = Fatal.
Proof.
  intros Hc H1 H2 H3 H4 H5 H6 H7 H8 H9. pose proof (bpred_create_ok c bim l1 l2 met w x sets assoc rs Hc H1 H2 H3 H4 H5 H6 H7 H8 H9) as H.
  destruct (create_valid _ _ _ _ _ _ _ _ _); [|done]. destruct H as (p & E & Hwf & (_ & _ & Hh) & Hcl & Hs & Ha & Hr).
  exists p. split; [done|]. split; [done|]. split; [done|]. split; [done|]. rewrite Hs, Ha in Hh.
  split; [|split; [by eapply create_stats|done]]. rewrite <- Hr. by eapply zero_view, create_stack.
Qed.

Lemma bpred_create_sound_witness :
  exists p, bpred_create BPredComb 4 2 4 4 2 false 2 2 4 = Ok p /\ bpred_wf p /\ class p = BPredComb /\
    rs_size p = 4 /\ rs_view p = repeat 0 4 /\ stats_of p = (0, 0, 0, 0, 0, 0) /\
    forall s, (s < 2)%nat -> btb_holds p s (repeat free_view 2).
Proof. apply (bpred_create_sound BPredComb 4 2 4 4 2 false 2 2 4); [by split|lia..]. Defined.

(** C25: On a sound predictor a lookup always succeeds, answers the address [predict]
    specifies (the top of the return stack for a return, else by the counters and the
    entry of the BTB set), keeps the predictor sound and the BTB as it was, gives the
    update valid counter pointers, and saves a top of stack with which bpred_recover
    restores the return stack. *)
Theorem bpred_lookup_predicts p vs baddr btarget o r31p u rec :
  bpred_wf p -> is_ctrl o = true -> baddr <> 0 -> btb_holds p (set_of p baddr) vs ->
  exists r, bpred_lookup p baddr btarget o r31p (Some u) rec = Ok r /\
    l_addr r = predict p vs baddr o r31p /\ bpred_wf (l_pred r) /\ same_btb p (l_pred r) /\ upd_ok (l_pred r) (l_upd r) /\
    rs_view (l_pred r) = (if is_return p o r31p then rs_pop (rs_view p) else rs_view p) /\
    rs_view <$> bpred_recover (Some (l_pred r)) (l_recover r) = Some (rs_view p).
Proof.
  intros Hwf Hc Hb Hv. destruct (bpred_lookup_ok p vs baddr btarget o r31p u rec Hwf Hc Hb Hv) as (u' & -> & Hu & _).
  destruct (looked_up_wf p o r31p Hwf) as [Hwf' Hs]. destruct (looked_up_rs p o r31p ltac:(apply Hwf)) as [Hz Hr].
  eexists. split; [done|]. split; [done|]. split; [done|]. split; [apply looked_up_btb|].
  split; [by eapply upd_ok_shape|]. split; [done|]. cbn. f_equal. apply rs_view_recovered; [done|].
  unfold looked_up. by destruct (is_return _ _ _).
Qed.

Lemma bpred_lookup_predicts_witness :
  exists r, bpred_lookup (ex_pred BPredComb) 64 128 BEQ false (Some ex_upd) 0 = Ok r /\
    l_addr r = 0 /\ bpred_wf (l_pred r) /\ same_btb (ex_pred BPredComb) (l_pred r) /\ upd_ok (l_pred r) (l_upd r) /\
    rs_view (l_pred r) = rs_view (ex_pred BPredComb) /\
    rs_view <$> bpred_recover (Some (l_pred r)) (l_recover r) = Some (rs_view (ex_pred BPredComb)).
Proof.
  destruct (ex_ok BPredComb) as (Hwf & _ & _ & _ & _ & Hh); [by split|].
  exact (bpred_lookup_predicts (ex_pred BPredComb) _ 64 128 BEQ false ex_upd 0 Hwf eq_refl ltac:(lia) Hh).
Defined.

(** sim-bpred's loop is safe for every program: from creation, any sequence of branches
    (none at address 0) is looked up and updated without an assertion, a wild pointer or an
    access out of bounds; the predictor stays sound, and the counts it reports add up:
    every branch is one lookup, a direction hit or a miss, and no address hit is a
    direction miss. *)
Theorem bpred_run_sound c bim l1 l2 met w x sets assoc rs u0 idx bs p :
  c <> BPredTaken /\ c <> BPredNotTaken ->
  0 <= bim < 2 ^ 31 -> 0 <= l1 < 2 ^ 31 -> 0 <= l2 < 2 ^ 31 -> 0 <= met < 2 ^ 31 -> 0 <= w < 2 ^ 31 ->
  0 <= sets -> 0 <= assoc -> sets * assoc < 2 ^ 31 -> 0 <= rs < 2 ^ 31 ->
  bpred_create c bim l1 l2 met w x sets assoc rs = Ok p -> forallb real_branch bs = true ->
  exists p' l, sim_bpred_run p u0 idx bs = Ok (p', l) /\ bpred_wf p' /\ length l = length bs /\
    lookups p' = Z.of_nat (length bs) /\ dir_hits p' + misses p' = Z.of_nat (length bs) /\
    0 <= addr_hits p' <= dir_hits p' /\ 0 <= misses p' /\ 0 <= jr_hits p' <= jr_seen p'.
Proof.
  intros Hc H1 H2 H3 H4 H5 H6 H7 H8 H9 E Hbs. pose proof (create_stats _ _ _ _ _ _ _ _ _ _ _ E) as Hst.
  pose proof (bpred_create_ok c bim l1 l2 met w x sets assoc rs Hc H1 H2 H3 H4 H5 H6 H7 H8 H9) as H. rewrite E in H.
  destruct (create_valid _ _ _ _ _ _ _ _ _); [|done]. destruct H as (p0 & [= <-] & Hwf & _).
  destruct (sim_bpred_run_ok p u0 idx bs Hwf (zero_stats_ok p Hst) Hbs) as (p' & l & E' & Hwf' & _ & _ & (S1 & S2 & S3 & S4) & Hl & Hlen).
  exists p', l. injection Hst as L _ _ _ _ _. split; [done|]. split; [done|]. split; [done|]. lia.
Qed.

Definition ex_run : list branch :=
  [mk_branch 64 128 128 BEQ false; mk_branch 128 64 64 JUMP false; mk_branch 64 128 72 BEQ false; mk_branch 72 256 256 JAL false;
   mk_branch 256 80 80 JR true].

Lemma bpred_run_sound_witness :
  exists p' l, sim_bpred_run (ex_pred BPredComb) ex_upd 0 ex_run = Ok (p', l) /\ bpred_wf p' /\ length l = 5%nat /\
    lookups p' = 5 /\ dir_hits p' + misses p' = 5 /\
    0 <= addr_hits p' <= dir_hits p' /\ 0 <= misses p' /\ 0 <= jr_hits p' <= jr_seen p'.
Proof.
  exact (bpred_run_sound BPredComb 4 2 4 4 2 false 2 2 4 ex_upd 0 ex_run (ex_pred BPredComb) ltac:(by split) ltac:(lia) ltac:(lia)
    ltac:(lia) ltac:(lia) ltac:(lia) ltac:(lia) ltac:(lia) ltac:(lia) ltac:(lia) ltac:(vm_compute; reflexivity) eq_refl).
Defined.

(** C28: The return address stack is last in, first out: after calls nested no deeper than
    the stack, whatever it held before, the returns are predicted to the addresses behind
    the calls, the innermost one first. *)
Theorem bpred_returns_lifo p u0 idx calls rets :
  bpred_wf p -> 0 < rs_size p -> forallb call_branch calls = true -> forallb return_branch rets = true ->
  (length rets <= length calls <= Z.to_nat (rs_size p))%nat ->
  exists p' l, sim_bpred_run p u0 idx (calls ++ rets) = Ok (p', l) /\
    drop (length calls) l = take (length rets) (rev (ret_addr <$> calls)).
Proof.
  intros Hwf Hz Hc Hr Hl. destruct (run_calls p u0 idx calls Hwf Hc Hz) as (p1 & l1 & E1 & Hwf1 & Hz1 & Hlen1 & Hv1).
  assert (Htop : take (length rets) (rs_view p1) = take (length rets) (rev (ret_addr <$> calls))).
  { rewrite <- (pushed_top calls (rs_view p)), <- Hv1, take_take by (rewrite rs_view_length; lia). f_equal. lia. }
  destruct (run_returns p1 u0 idx rets Hwf1 Hr) as (p2 & E2 & _); [rewrite Hz1; lia| |].
  { rewrite Htop. apply Forall_take. apply Forall_rev, Forall_fmap, Forall_forall. intros b Hb. cbn.
    rewrite forallb_forall in Hc. specialize (Hc b (proj1 (list_elem_of_In _ _) Hb)). unfold call_branch in Hc. by bool_to_prop. }
  rewrite sim_bpred_run_app, E1. cbn [mbind outcome_bind]. rewrite E2. cbn [mbind outcome_bind].
  eexists _, _. split; [done|]. rewrite <- Hlen1, drop_app_length. done.
Qed.

Definition ex_calls : list branch := [mk_branch 64 256 256 JAL false; mk_branch 264 512 512 JAL false].
Definition ex_rets : list branch := [mk_branch 520 272 272 JR true; mk_branch 280 72 72 JR true].

Lemma bpred_returns_lifo_witness :
  exists p' l, sim_bpred_run (ex_pred BPred2bit) ex_upd 0 (ex_calls ++ ex_rets) = Ok (p', l) /\ drop 2 l = [272; 72].
Proof.
  destruct (ex_ok BPred2bit) as (Hwf & _ & _ & Hz & _); [by split|].
  exact (bpred_returns_lifo (ex_pred BPred2bit) ex_upd 0 ex_calls ex_rets Hwf ltac:(lia) eq_refl eq_refl ltac:(rewrite Hz; cbn; lia)).
Defined.

(** C27: The BTB keeps the target of a taken branch: while fewer other branches than the
    associativity have been resolved since, the next lookup of that branch, if it is
    predicted taken, answers the address the branch went to. *)
Theorem bpred_target_retained p u0 idx b bs btarget u rec :
  bpred_wf p -> plain_branch p b = true -> taken b = true ->
  forallb (fun x => real_branch x && negb (b_pc x =? b_pc b)) bs = true ->
  (length bs < Z.to_nat (btb_assoc p))%nat ->
  exists p' l r, sim_bpred_run p u0 idx (b :: bs) = Ok (p', l) /\
    bpred_lookup p' (b_pc b) btarget (b_op b) (b_r31 b) (Some u) rec = Ok r /\
    l_addr r = if uncond (b_op b) || predict_dir p' (b_pc b) then b_next b else 0.
Proof.
  intros Hwf Hb Ht Hbs Hl. destruct (taken_remembered p u0 idx b Hwf Hb Ht) as (p1 & a & vs & E1 & Hwf1 & Hz1 & Ha1 & Hv1 & Hr1).
  destruct (run_remembers p1 u0 idx bs _ _ 0 vs Hwf1 Hv1 Hr1 Hbs) as (p2 & l & vs2 & E2 & Hwf2 & Hz2 & Hv2 & Hr2); [by rewrite Ha1|].
  unfold plain_branch in Hb. bool_to_prop. destruct (run_step p b Hwf H) as (_ & _ & Hctl & Hpc).
  destruct (bpred_lookup_ok p2 vs2 (b_pc b) btarget (b_op b) (b_r31 b) u rec Hwf2 Hctl Hpc Hv2) as (u' & E3 & _).
  eexists p2, _, _. cbn [sim_bpred_run]. rewrite E1. cbn [mbind outcome_bind]. rewrite E2. cbn [mbind outcome_bind].
  split; [done|]. split; [exact E3|]. cbn [l_addr]. unfold predict.
  assert (Hir : is_return p2 (b_op b) (b_r31 b) = false) by (unfold is_return in *; by rewrite Hz2, Hz1).
  rewrite Hir. destruct (remembers_find _ _ _ _ Hr2) as (v & -> & ->). done.
Qed.

Definition ex_jump : branch := mk_branch 64 512 512 JUMP false.
Definition ex_jump2 : branch := mk_branch 192 640 640 JUMP false.

Lemma bpred_target_retained_witness :
  exists p' l r, sim_bpred_run (ex_pred BPred2bit) ex_upd 0 [ex_jump; ex_jump2] = Ok (p', l) /\
    bpred_lookup p' (b_pc ex_jump) 0 (b_op ex_jump) (b_r31 ex_jump) (Some ex_upd) 0 = Ok r /\
    l_addr r = if uncond (b_op ex_jump) || predict_dir p' (b_pc ex_jump) then b_next ex_jump else 0.
Proof.
  destruct (ex_ok BPred2bit) as (Hwf & _ & _ & Hz & Ha & _); [by split|].
  apply (bpred_target_retained (ex_pred BPred2bit) ex_upd 0 ex_jump [ex_jump2] 0 ex_upd 0 Hwf); [vm_compute; reflexivity..|].
  rewrite Ha. cbn. lia.
Defined.

(** C30: One branch trains exactly the right counters: a conditional branch moves the
    counter it indexes in each direction table one saturating step towards its outcome,
    moves the meta counter towards the component that was right when the two disagreed,
    and leaves every other counter, as an unconditional branch leaves all of them. *)
Theorem bpred_counters_trained p u0 idx b :
  bpred_wf p -> real_branch b = true ->
  exists p' a, sim_bpred_branch p u0 idx b = Ok (p', a) /\
    forall q, counter_at p' q
      = (fun c => if uncond (b_op b) then c else trained p (b_pc b) (taken b) q c) <$> counter_at p q.
Proof.
  intros Hwf Hb. destruct (run_step p b Hwf Hb) as (vs & Hv & Hc & Hpc).
  destruct (sim_bpred_branch_ok p u0 idx b vs Hwf Hc Hpc Hv) as (p' & u' & E & _). eexists p', _. split; [exact E|].
  intros q. rewrite (step_counters p u0 idx b p' _ Hwf Hb E). by destruct (uncond (b_op b)).
Qed.

Definition ex_beq : branch := mk_branch 64 128 128 BEQ false.

Lemma bpred_counters_trained_witness :
  exists p' a, sim_bpred_branch (ex_pred BPredComb) ex_upd 0 ex_beq = Ok (p', a) /\
    forall q, counter_at p' q
      = (fun c => if uncond (b_op ex_beq) then c else trained (ex_pred BPredComb) (b_pc ex_beq) (taken ex_beq) q c)
        <$> counter_at (ex_pred BPredComb) q.
Proof.
  destruct (ex_ok BPredComb) as (Hwf & _); [by split|].
  apply (bpred_counters_trained (ex_pred BPredComb) ex_upd 0 ex_beq Hwf). vm_compute. reflexivity.
Defined.

(** The bimodal predictor along any run: its counter for a branch is the saturating
    count of the outcomes of the conditional branches that share the entry, so two equal
    outcomes in a row of that entry decide the prediction. *)
Theorem bimod_predicts p u0 idx bs pc :
  bpred_wf p -> class p = BPred2bit -> forallb real_branch bs = true ->
  exists p' l, sim_bpred_run p u0 idx bs = Ok (p', l) /\
    let hits := filter (fun b => bimod_hits (bimod_size p) pc b) bs in
    dir_counter p' PBimod pc = fold_left (fun c b => sat_step (taken b) c) hits (dir_counter p PBimod pc) /\
    (forall hs x y, hits = hs ++ [x; y] -> taken x = taken y -> predict_dir p' pc = taken y).
Proof.
  intros Hwf Hc Hb. destruct (sim_bpred_run_safe p u0 idx bs Hwf Hb) as (p' & l & E & Hwf' & Hcl). exists p', l. split; [done|].
  intros hits. pose proof (bimod_run p u0 idx bs p' l pc Hwf Hc Hb E) as Hrun. fold hits in Hrun. split; [exact Hrun|].
  intros hs x y -> Hxy. unfold predict_dir, says_taken. rewrite Hcl, Hc, Hrun, fold_left_app. cbn [fold_left].
  assert (Hctr : forall l c, ctr_ok c -> ctr_ok (fold_left (fun c b => sat_step (taken b) c) l c)).
  { induction l0 as [|b l0 IH]; intros c; cbn; [done|]. intros H. by apply IH, sat_step_ok. }
  assert (H0 : ctr_ok (dir_counter p PBimod pc)).
  { destruct (dir_counter_ok p PBimod pc ltac:(apply Hwf) ltac:(by rewrite Hc)) as (k & _ & Hp & Hg).
    destruct (get_ctr_ok p PBimod k ltac:(apply Hwf) Hp) as (c & Hg' & Hok). congruence. }
  specialize (Hctr hs _ H0). set (c := fold_left _ hs _) in *. unfold ctr_ok in Hctr. rewrite Hxy.
  assert (c = 0 \/ c = 1 \/ c = 2 \/ c = 3) as [->|[->|[->| ->]]] by lia; by destruct (taken y).
Qed.

Lemma bimod_predicts_witness :
  exists p' l, sim_bpred_run (ex_pred BPred2bit) ex_upd 0 [ex_beq; ex_beq] = Ok (p', l) /\
    let hits := filter (fun b => bimod_hits (bimod_size (ex_pred BPred2bit)) 64 b) [ex_beq; ex_beq] in
    dir_counter p' PBimod 64 = fold_left (fun c b => sat_step (taken b) c) hits (dir_counter (ex_pred BPred2bit) PBimod 64) /\
    (forall hs x y, hits = hs ++ [x; y] -> taken x = taken y -> predict_dir p' 64 = taken y).
Proof.
  destruct (ex_ok BPred2bit) as (Hwf & _ & Hc & _); [by split|].
  apply (bimod_predicts (ex_pred BPred2bit) ex_upd 0 [ex_beq; ex_beq] 64 Hwf Hc). vm_compute. reflexivity.
Defined.

(** Printing the configuration of a static predictor dereferences the direction
    predictor it does not have. *)
Theorem bpred_config_static_undef bim l1 l2 met w x sets assoc rs :
  (p ← bpred_create BPredTaken bim l1 l2 met w x sets assoc rs; bpred_config p) = Undef /\
  (p ← bpred_create BPredNotTaken bim l1 l2 met w x sets assoc rs; bpred_config p) = Undef.
Proof. by split. Qed.

(** A taken branch at address 0 stops an associative BTB: both free ways match the
    address, and the scan asserts that at most one does. *)
Theorem bpred_update_zero_asserts :
  bpred_update (ex_pred BPred2bit) 0 64 1 1 false JUMP false (Some ex_upd) = AssertFail.
Proof. vm_compute. reflexivity. Qed.
