(* ===== verification/Bitmap.v ===== *)
(** bitmap.h: bitmaps as arrays of 32-bit words.

    A bitmap is a list of words, the macros' BMAP pointers are the lists they
    point to.  The word count SZ bounds the loops, an index past the array is
    undefined.  [1 << (BIT % 32)] is the word with that bit alone (bit 31 is
    the sign bit of the int).  BITMAP_NOT and BITMAP_CLEAR_P do not compile
    when used (an unbalanced parenthesis, an undeclared name). *)

From S2P Require Import Prelude.

Definition BITMAP_SIZE (BITS : Z) : Z := Z.quot (BITS + 31) 32.

(** The word and the mask of bit BIT. *)
Definition bit_word (BIT : Z) : nat := Z.to_nat (Z.quot BIT 32).
Definition bit_mask (BIT : Z) : Z := u32 (Z.shiftl 1 (Z.rem BIT 32)).

(** The loops [for (i=0; i<(SZ); i++) (BMAP)[i] = f(i)], over one array. *)
Fixpoint map_words (f : nat -> outcome Z) (i n : nat) (BMAP : list Z) : outcome (list Z) :=
  match n with
  | O => Ok BMAP
  | S n' => w ← f i; BMAP ← c_upd BMAP i (fun _ => w); map_words f (S i) n' BMAP
  end.

Definition BITMAP_SET_MAP (BMAP : list Z) (SZ : nat) : outcome (list Z) :=
  map_words (fun _ => Ok 0xffffffff) 0 SZ BMAP.

Definition BITMAP_CLEAR_MAP (BMAP : list Z) (SZ : nat) : outcome (list Z) :=
  map_words (fun _ => Ok 0) 0 SZ BMAP.

Definition BITMAP_SET (BMAP : list Z) (BIT : Z) : outcome (list Z) :=
  if BIT <? 0 then Undef
  else c_upd BMAP (bit_word BIT) (fun w => Z.lor w (bit_mask BIT)).

Definition BITMAP_CLEAR (BMAP : list Z) (BIT : Z) : outcome (list Z) :=
  if BIT <? 0 then Undef
  else c_upd BMAP (bit_word BIT) (fun w => Z.land w (u32_not (bit_mask BIT))).

Definition BITMAP_COPY (DESTMAP SRCMAP : list Z) (SZ : nat) : outcome (list Z) :=
  map_words (fun i => c_get SRCMAP i) 0 SZ DESTMAP.

(** [__BITMAP_OP], the destination distinct from the sources. *)
Definition BITMAP_OP (OP : Z -> Z -> Z) (B1 B2 B3 : list Z) (SZ : nat) : outcome (list Z) :=
  map_words (fun i => w2 ← c_get B2 i; w3 ← c_get B3 i; Ok (OP w2 w3)) 0 SZ B1.

Definition BITMAP_IOR : list Z -> list Z -> list Z -> nat -> outcome (list Z) := BITMAP_OP Z.lor.
Definition BITMAP_XOR : list Z -> list Z -> list Z -> nat -> outcome (list Z) := BITMAP_OP Z.lxor.
Definition BITMAP_AND : list Z -> list Z -> list Z -> nat -> outcome (list Z) := BITMAP_OP Z.land.

(** The loops [res |= f(i)] of the two tests. *)
Fixpoint or_words (f : nat -> outcome Z) (i n : nat) (res : Z) : outcome Z :=
  match n with
  | O => Ok res
  | S n' => w ← f i; or_words f (S i) n' (Z.lor res w)
  end.

Definition BITMAP_EMPTY_P (BMAP : list Z) (SZ : nat) : outcome bool :=
  res ← or_words (fun i => c_get BMAP i) 0 SZ 0; Ok (negb (truth res)).

Definition BITMAP_DISJOINT_P (B1 B2 : list Z) (SZ : nat) : outcome bool :=
  res ← or_words (fun i => w1 ← c_get B1 i; w2 ← c_get B2 i; Ok (Z.land w1 w2)) 0 SZ 0;
  Ok (negb (truth res)).

Definition BITMAP_SET_P (BMAP : list Z) (BIT : Z) : outcome bool :=
  if BIT <? 0 then Undef
  else w ← c_get BMAP (bit_word BIT); Ok (negb (Z.land w (bit_mask BIT) =? 0)).

(** * Bitmaps as sets of bit numbers *)

(** The elements of a bitmap, as a test. *)
Definition bm_mem (bm : list Z) (b : nat) : bool :=
  match bm !! (b `div` 32)%nat with
  | Some w => Z.testbit w (Z.of_nat (b mod 32))
  | None => false
  end.

Definition bm_ok (bm : list Z) : Prop := Forall (fun w => 0 <= w < 2 ^ 32) bm.

Lemma bit_word_nat (b : nat) : bit_word (Z.of_nat b) = (b `div` 32)%nat.
Proof. unfold bit_word. rewrite Z.quot_div_nonneg by lia. rewrite <- (Nat2Z.id (b `div` 32)), Nat2Z.inj_div. done. Qed.

Lemma bit_mask_nat (b : nat) : bit_mask (Z.of_nat b) = 2 ^ Z.of_nat (b mod 32).
Proof.
  unfold bit_mask. rewrite Z.rem_mod_nonneg by lia. rewrite Nat2Z.inj_mod.
  change (Z.of_nat 32) with 32. rewrite Z.shiftl_1_l. pose proof (Z.mod_pos_bound (Z.of_nat b) 32).
  apply u32_small. split; [apply Z.pow_nonneg; lia|]. apply Z.pow_lt_mono_r; lia.
Qed.

(** What the word loops write: the first [SZ] words are [f]'s. *)
Lemma map_words_lookup f n : forall i bm bm',
  map_words f i n bm = Ok bm' ->
  length bm' = length bm /\
  forall j, (i <= j < i + n)%nat -> exists w, f j = Ok w /\ bm' !! j = Some w.
Proof.
  assert (Hk : forall n i bm bm', map_words f i n bm = Ok bm' ->
    length bm' = length bm /\ forall j, (j < i)%nat -> bm' !! j = bm !! j).
  { clear n. induction n as [|n IH]; intros i bm bm' H; cbn in H; [by injection H as ->|].
    apply bind_ok in H as (w & Hw & H). apply bind_ok in H as (bm1 & H1 & H).
    unfold c_upd in H1. destruct (bm !! i) eqn:Hi; [injection H1 as <-|done].
    apply IH in H as [Hl H]. rewrite length_insert in Hl. split; [done|]. intros j Hj.
    rewrite H by lia. apply list_lookup_insert_ne. lia. }
  induction n as [|n IH]; intros i bm bm' H; [cbn in H; injection H as ->; split; [done|lia]|].
  split; [by eapply Hk|]. cbn in H.
  apply bind_ok in H as (w & Hw & H). apply bind_ok in H as (bm1 & H1 & H).
  intros j Hj. destruct (decide (j = i)) as [->|Hne]; [|eapply IH; [exact H|lia]].
  exists w. split; [done|]. destruct (Hk _ _ _ _ H) as [_ ->]; [|lia].
  unfold c_upd in H1. destruct (bm !! i) eqn:Hi; [injection H1 as <-|done].
  apply list_lookup_insert_eq. by apply lookup_lt_Some in Hi.
Qed.

Lemma map_words_total f n : forall i bm,
  (i + n <= length bm)%nat -> (forall j, (i <= j < i + n)%nat -> exists w, f j = Ok w) ->
  exists bm', map_words f i n bm = Ok bm'.
Proof.
  induction n as [|n IH]; intros i bm Hl Hf; cbn; [by eexists|].
  destruct (Hf i) as [w ->]; [lia|]. cbn.
  destruct (lookup_lt_is_Some_2 bm i) as [v Hv]; [lia|].
  rewrite (c_upd_insert _ _ _ v) by done. cbn. apply IH; [rewrite length_insert; lia|].
  intros j Hj. apply Hf. lia.
Qed.

(** A whole-map loop computes the bitmap whose words are [g]'s. *)
Lemma map_words_full f g bm :
  (forall j, (j < length bm)%nat -> f j = Ok (g j)) ->
  map_words f 0 (length bm) bm = Ok (map g (seq 0 (length bm))).
Proof.
  intros Hf. destruct (map_words_total f (length bm) 0 bm) as [bm' H]; [lia| |].
  { intros j Hj. eexists. apply Hf. lia. }
  rewrite H. f_equal. apply map_words_lookup in H as [Hl H].
  apply list_eq. intros j. destruct (decide (j < length bm)%nat) as [Hj|Hj].
  - destruct (H j) as (w & Hw & ->); [lia|]. rewrite Hf in Hw by done. injection Hw as <-.
    rewrite list_lookup_fmap, lookup_seq_lt by done. done.
  - rewrite lookup_ge_None_2 by lia. symmetry. apply lookup_ge_None_2.
    rewrite length_map, length_seq. lia.
Qed.

Lemma clear_map (bm : list Z) n : length bm = n -> BITMAP_CLEAR_MAP bm n = Ok (repeat 0 n).
Proof.
  intros <-. unfold BITMAP_CLEAR_MAP. rewrite (map_words_full _ (fun _ => 0)) by done. f_equal.
  apply list_eq. intros j. rewrite list_lookup_fmap. destruct (decide (j < length bm)%nat) as [Hj|Hj].
  - rewrite lookup_seq_lt, lookup_repeat by done. done.
  - rewrite lookup_seq_ge by lia. symmetry. apply lookup_ge_None_2. rewrite repeat_length. lia.
Qed.

Lemma BITMAP_SET_length (bm : list Z) b bm' : BITMAP_SET bm b = Ok bm' -> length bm' = length bm.
Proof.
  unfold BITMAP_SET, c_upd. destruct (b <? 0); [done|]. destruct (bm !! _); [|done]. intros [= <-]. apply length_insert.
Qed.

Lemma or_words_spec f n : forall i res,
  (forall j, (i <= j < i + n)%nat -> exists w, f j = Ok w) ->
  exists r, or_words f i n res = Ok r /\
    (r = 0 <-> res = 0 /\ forall j, (i <= j < i + n)%nat -> f j = Ok 0).
Proof.
  induction n as [|n IH]; intros i res Hf; cbn.
  - exists res. split; [done|]. split; [|tauto]. intros ->. split; [done|lia].
  - destruct (Hf i) as [w Hw]; [lia|]. rewrite Hw. cbn.
    destruct (IH (S i) (Z.lor res w)) as (r & Hr & Hz); [intros; apply Hf; lia|].
    exists r. split; [done|]. rewrite Hz, Z.lor_eq_0_iff. split.
    + intros [[-> ->] H]. split; [done|]. intros j Hj.
      destruct (decide (j = i)) as [->|]; [done|apply H; lia].
    + intros [-> H]. split; [split; [done|]|intros; apply H; lia].
      specialize (H i ltac:(lia)). congruence.
Qed.

Lemma bm_mem_insert bm k w b :
  (k < length bm)%nat ->
  bm_mem (<[k := w]> bm) b =
    (if decide (b `div` 32 = k)%nat then Z.testbit w (Z.of_nat (b mod 32)) else bm_mem bm b).
Proof.
  intros Hk. unfold bm_mem. case_decide as Hd.
  - rewrite Hd, list_lookup_insert_eq by done. done.
  - by rewrite list_lookup_insert_ne by done.
Qed.

Lemma bm_mem_map g n b :
  bm_mem (map g (seq 0 n)) b =
    (if decide (b < 32 * n)%nat then Z.testbit (g (b `div` 32)%nat) (Z.of_nat (b mod 32)) else false).
Proof.
  unfold bm_mem. change (map g (seq 0 n)) with (g <$> seq 0 n). rewrite list_lookup_fmap.
  pose proof (Nat.div_mod_eq b 32). pose proof (Nat.mod_upper_bound b 32).
  case_decide.
  - rewrite lookup_seq_lt by lia. done.
  - rewrite lookup_seq_ge by lia. done.
Qed.

Lemma same_bit (a b : nat) :
  a = b <-> (a `div` 32 = b `div` 32 /\ a mod 32 = b mod 32)%nat.
Proof.
  split; [by intros ->|intros [H1 H2]].
  rewrite (Nat.div_mod_eq a 32), (Nat.div_mod_eq b 32). lia.
Qed.

Lemma testbit_mask (a b : nat) :
  Z.testbit (2 ^ Z.of_nat (b mod 32)) (Z.of_nat (a mod 32)) = bool_decide (a mod 32 = b mod 32)%nat.
Proof.
  rewrite Z.pow2_bits_eqb by lia. apply eq_true_iff_eq.
  rewrite Z.eqb_eq, bool_decide_eq_true. lia.
Qed.

Lemma testbit_not_mask (a b : nat) :
  Z.testbit (u32_not (2 ^ Z.of_nat (b mod 32))) (Z.of_nat (a mod 32)) = bool_decide (a mod 32 <> b mod 32)%nat.
Proof.
  pose proof (Nat.mod_upper_bound a 32).
  unfold u32_not, u32. rewrite Z.mod_pow2_bits_low by lia.
  rewrite Z.lnot_spec, testbit_mask by lia.
  apply eq_true_iff_eq. rewrite negb_true_iff, bool_decide_eq_true, bool_decide_eq_false. done.
Qed.

Lemma bm_mem_lt bm b : bm_mem bm b = true -> (b < 32 * length bm)%nat.
Proof.
  unfold bm_mem. destruct (bm !! _) eqn:H; [|done]. intros _. apply lookup_lt_Some in H.
  pose proof (Nat.div_mod_eq b 32). pose proof (Nat.mod_upper_bound b 32). lia.
Qed.

Lemma words_zero bm : bm_ok bm -> (forall b, bm_mem bm b = false) -> forall j w, bm !! j = Some w -> w = 0.
Proof.
  intros Hok H j w Hj. pose proof (Forall_lookup_1 _ _ _ _ Hok Hj) as Hw. cbv beta in Hw.
  apply Z.bits_inj'. intros n Hn. rewrite Z.testbit_0_l.
  destruct (Z.lt_ge_cases n 32).
  - specialize (H (32 * j + Z.to_nat n)%nat). unfold bm_mem in H.
    rewrite Nat.mul_comm, Nat.div_add_l, (Nat.div_small (Z.to_nat n)), Nat.add_0_r, Hj in H by lia.
    rewrite Nat.add_comm, Nat.Div0.mod_add, Nat.mod_small, Z2Nat.id in H by lia. done.
  - destruct (Z.eq_dec w 0) as [->|]; [apply Z.testbit_0_l|].
    apply Z.bits_above_log2; [lia|]. apply Z.log2_lt_pow2; [lia|].
    eapply Z.lt_le_trans; [apply Hw|]. apply Z.pow_le_mono_r; lia.
Qed.

Lemma BITMAP_SET_mem bm (n : nat) :
  (n < 32 * length bm)%nat ->
  exists bm', BITMAP_SET bm (Z.of_nat n) = Ok bm' /\ length bm' = length bm /\
    forall b, bm_mem bm' b = bool_decide (b = n) || bm_mem bm b.
Proof.
  intros Hn. unfold BITMAP_SET. rewrite (proj2 (Z.ltb_ge _ _)) by lia.
  rewrite bit_word_nat, bit_mask_nat.
  assert (Hk : (n `div` 32 < length bm)%nat) by (apply Nat.Div0.div_lt_upper_bound; lia).
  destruct (lookup_lt_is_Some_2 _ _ Hk) as [w Hw]. erewrite c_upd_insert by done.
  eexists. split; [done|]. split; [apply length_insert|]. intros b.
  rewrite bm_mem_insert by done. pose proof (same_bit b n) as Hs. case_decide as Hd.
  - rewrite Z.lor_spec, testbit_mask, orb_comm. f_equal; [apply bool_decide_ext; rewrite Hs; tauto|].
    unfold bm_mem. by rewrite Hd, Hw.
  - rewrite bool_decide_eq_false_2 by naive_solver. done.
Qed.

Lemma BITMAP_CLEAR_mem bm (n : nat) :
  (n < 32 * length bm)%nat ->
  exists bm', BITMAP_CLEAR bm (Z.of_nat n) = Ok bm' /\ length bm' = length bm /\
    forall b, bm_mem bm' b = bool_decide (b <> n) && bm_mem bm b.
Proof.
  intros Hn. unfold BITMAP_CLEAR. rewrite (proj2 (Z.ltb_ge _ _)) by lia.
  rewrite bit_word_nat, bit_mask_nat.
  assert (Hk : (n `div` 32 < length bm)%nat) by (apply Nat.Div0.div_lt_upper_bound; lia).
  destruct (lookup_lt_is_Some_2 _ _ Hk) as [w Hw]. erewrite c_upd_insert by done.
  eexists. split; [done|]. split; [apply length_insert|]. intros b.
  rewrite bm_mem_insert by done. pose proof (same_bit b n) as Hs. case_decide as Hd.
  - rewrite Z.land_spec, testbit_not_mask, andb_comm. f_equal; [apply bool_decide_ext; rewrite Hs; tauto|].
    unfold bm_mem. by rewrite Hd, Hw.
  - rewrite bool_decide_eq_true_2 by naive_solver. done.
Qed.

Lemma BITMAP_SET_P_mem bm (n : nat) :
  (n < 32 * length bm)%nat -> BITMAP_SET_P bm (Z.of_nat n) = Ok (bm_mem bm n).
Proof.
  intros Hn. unfold BITMAP_SET_P, bm_mem. rewrite (proj2 (Z.ltb_ge _ _)) by lia.
  rewrite bit_word_nat, bit_mask_nat.
  assert (Hk : (n `div` 32 < length bm)%nat) by (apply Nat.Div0.div_lt_upper_bound; lia).
  destruct (lookup_lt_is_Some_2 _ _ Hk) as [w Hw]. rewrite (c_get_some _ _ _ Hw), Hw. cbn [mbind outcome_bind]. f_equal.
  destruct (Z.testbit w (Z.of_nat (n mod 32))) eqn:E.
  - apply negb_true_iff, Z.eqb_neq. intros H0.
    assert (Z.testbit (Z.land w (2 ^ Z.of_nat (n mod 32))) (Z.of_nat (n mod 32)) = true) as Ht.
    { rewrite Z.land_spec, E, Z.pow2_bits_true by lia. done. }
    by rewrite H0, Z.testbit_0_l in Ht.
  - apply negb_false_iff, Z.eqb_eq. apply Z.bits_inj'. intros m Hm.
    rewrite Z.land_spec, Z.pow2_bits_eqb, Z.testbit_0_l by lia.
    destruct (Z.eqb_spec (Z.of_nat (n mod 32)) m) as [<-|]; [by rewrite E|by rewrite andb_false_r].
Qed.

Lemma BITMAP_OP_mem OP bop bm1 bm2 bm3 :
  (forall x y n, 0 <= n -> Z.testbit (OP x y) n = bop (Z.testbit x n) (Z.testbit y n)) ->
  bop false false = false ->
  length bm2 = length bm1 -> length bm3 = length bm1 ->
  exists bm', BITMAP_OP OP bm1 bm2 bm3 (length bm1) = Ok bm' /\ length bm' = length bm1 /\
    forall b, bm_mem bm' b = bop (bm_mem bm2 b) (bm_mem bm3 b).
Proof.
  intros Hop Hff H2 H3. unfold BITMAP_OP.
  rewrite (map_words_full _ (fun i => OP (default 0 (bm2 !! i)) (default 0 (bm3 !! i)))).
  2:{ intros j Hj. destruct (lookup_lt_is_Some_2 bm2 j) as [w2 E2]; [lia|].
      destruct (lookup_lt_is_Some_2 bm3 j) as [w3 E3]; [lia|].
      by rewrite (c_get_some _ _ _ E2), (c_get_some _ _ _ E3), E2, E3. }
  eexists. split; [done|]. split; [by rewrite length_map, length_seq|]. intros b.
  rewrite bm_mem_map. pose proof (Nat.div_mod_eq b 32). pose proof (Nat.mod_upper_bound b 32).
  unfold bm_mem. case_decide.
  - destruct (lookup_lt_is_Some_2 bm2 (b / 32)) as [w2 E2]; [lia|].
    destruct (lookup_lt_is_Some_2 bm3 (b / 32)) as [w3 E3]; [lia|].
    rewrite E2, E3, Hop by lia. done.
  - by rewrite !lookup_ge_None_2 by lia.
Qed.

Lemma map_words_const c bm :
  exists bm', map_words (fun _ => Ok c) 0 (length bm) bm = Ok bm' /\ length bm' = length bm /\
    forall b, bm_mem bm' b = bool_decide (b < 32 * length bm)%nat && Z.testbit c (Z.of_nat (b mod 32)).
Proof.
  rewrite (map_words_full _ (fun _ => c)) by done. eexists. split; [done|].
  split; [by rewrite length_map, length_seq|]. intros b. rewrite bm_mem_map.
  case_decide; [by rewrite bool_decide_eq_true_2 | by rewrite bool_decide_eq_false_2].
Qed.

Lemma BITMAP_COPY_mem bm src :
  length src = length bm -> BITMAP_COPY bm src (length bm) = Ok src.
Proof.
  intros Hl. unfold BITMAP_COPY. rewrite (map_words_full _ (fun i => default 0 (src !! i))).
  - f_equal. apply list_eq. intros j. change (map ?f ?l) with (f <$> l). rewrite list_lookup_fmap.
    destruct (decide (j < length bm)%nat).
    + rewrite lookup_seq_lt by done. cbn. destruct (lookup_lt_is_Some_2 src j) as [w ->]; [lia|done].
    + rewrite lookup_seq_ge, lookup_ge_None_2 by lia. done.
  - intros j Hj. destruct (lookup_lt_is_Some_2 src j) as [w E]; [lia|]. by rewrite (c_get_some _ _ _ E), E.
Qed.

(** A test loop is zero exactly when no bit of the words it reads is set. *)
Lemma or_words_none f bm :
  bm_ok bm -> (forall j, (j < length bm)%nat -> f j = Ok (default 0 (bm !! j))) ->
  exists r, or_words f 0 (length bm) 0 = Ok r /\ (r = 0 <-> forall b, bm_mem bm b = false).
Proof.
  intros Hok Hf. destruct (or_words_spec f (length bm) 0 0) as (r & Hr & Hz).
  { intros j Hj. eexists. apply Hf. lia. }
  exists r. split; [done|]. rewrite Hz. split.
  - intros [_ H] b. unfold bm_mem. destruct (bm !! _) as [w|] eqn:E; [|done].
    pose proof (lookup_lt_Some _ _ _ E) as Hlt. specialize (H (b / 32)%nat ltac:(lia)).
    rewrite Hf, E in H by done. injection H as ->. apply Z.testbit_0_l.
  - intros H. split; [done|]. intros j Hj. rewrite Hf by lia.
    destruct (bm !! j) as [w|] eqn:E; [|done]. by rewrite (words_zero bm Hok H j w E).
Qed.

Lemma BITMAP_EMPTY_P_mem bm :
  bm_ok bm -> exists e, BITMAP_EMPTY_P bm (length bm) = Ok e /\ (e = true <-> forall b, bm_mem bm b = false).
Proof.
  intros Hok. destruct (or_words_none (fun i => c_get bm i) bm Hok) as (r & Hr & Hz).
  { intros j Hj. destruct (lookup_lt_is_Some_2 bm j Hj) as [w E]. by rewrite (c_get_some _ _ _ E), E. }
  unfold BITMAP_EMPTY_P. rewrite Hr. eexists. split; [done|].
  rewrite <- Hz. unfold truth. rewrite negb_involutive, Z.eqb_eq. done.
Qed.

Lemma BITMAP_DISJOINT_P_mem bm1 bm2 :
  bm_ok bm1 -> bm_ok bm2 -> length bm1 = length bm2 ->
  exists e, BITMAP_DISJOINT_P bm1 bm2 (length bm1) = Ok e /\
    (e = true <-> forall b, bm_mem bm1 b && bm_mem bm2 b = false).
Proof.
  intros Hok1 Hok2 Hl. set (bm := zip_with Z.land bm1 bm2).
  assert (Hlen : length bm = length bm1) by (unfold bm; rewrite length_zip_with; lia).
  assert (Hlk : forall j, (j < length bm1)%nat -> exists w1 w2, bm1 !! j = Some w1 /\ bm2 !! j = Some w2).
  { intros j Hj. destruct (lookup_lt_is_Some_2 bm1 j Hj) as [w1 E1].
    destruct (lookup_lt_is_Some_2 bm2 j) as [w2 E2]; [lia|]. eauto. }
  destruct (or_words_none (fun i => w1 ← c_get bm1 i; w2 ← c_get bm2 i; Ok (Z.land w1 w2)) bm) as (r & Hr & Hz).
  - apply Forall_lookup. intros j w Hw. unfold bm in Hw.
    apply lookup_zip_with_Some in Hw as (w1 & w2 & -> & E1 & E2).
    pose proof (Forall_lookup_1 _ _ _ _ Hok2 E2) as Hw2. cbv beta in Hw2.
    pose proof (land_le_r w1 w2). pose proof (land_nonneg_r w1 w2). lia.
  - intros j Hj. destruct (Hlk j) as (w1 & w2 & E1 & E2); [lia|].
    unfold bm. by rewrite (c_get_some _ _ _ E1), (c_get_some _ _ _ E2), lookup_zip_with, E1, E2.
  - unfold BITMAP_DISJOINT_P. rewrite <- Hlen, Hr. eexists. split; [done|].
    unfold truth. rewrite negb_involutive, Z.eqb_eq, Hz. apply forall_proper. intros b.
    unfold bm_mem, bm. rewrite lookup_zip_with.
    destruct (bm1 !! _) as [w1|]; cbn [mbind option_bind]; [|done].
    destruct (bm2 !! _) as [w2|]; cbn [mbind option_bind]; [by rewrite Z.land_spec|by rewrite andb_false_r].
Qed.

(** What the macros promise: bitmaps of [sz] words behave as sets of the bit
    numbers below [32 * sz]. *)
Record bitmap_spec (sz : nat) (bm1 bm2 bm3 : list Z) (n : nat) : Prop := mk_bitmap_spec {
  spec_set : exists bm', BITMAP_SET bm1 (Z.of_nat n) = Ok bm' /\ length bm' = sz /\
    forall b, bm_mem bm' b = bool_decide (b = n) || bm_mem bm1 b;
  spec_clear : exists bm', BITMAP_CLEAR bm1 (Z.of_nat n) = Ok bm' /\ length bm' = sz /\
    forall b, bm_mem bm' b = bool_decide (b <> n) && bm_mem bm1 b;
  spec_set_map : exists bm', BITMAP_SET_MAP bm1 sz = Ok bm' /\ length bm' = sz /\
    forall b, bm_mem bm' b = bool_decide (b < 32 * sz)%nat;
  spec_clear_map : exists bm', BITMAP_CLEAR_MAP bm1 sz = Ok bm' /\ length bm' = sz /\
    forall b, bm_mem bm' b = false;
  spec_copy : BITMAP_COPY bm1 bm2 sz = Ok bm2;
  spec_ior : exists bm', BITMAP_IOR bm1 bm2 bm3 sz = Ok bm' /\ length bm' = sz /\
    forall b, bm_mem bm' b = bm_mem bm2 b || bm_mem bm3 b;
  spec_xor : exists bm', BITMAP_XOR bm1 bm2 bm3 sz = Ok bm' /\ length bm' = sz /\
    forall b, bm_mem bm' b = xorb (bm_mem bm2 b) (bm_mem bm3 b);
  spec_and : exists bm', BITMAP_AND bm1 bm2 bm3 sz = Ok bm' /\ length bm' = sz /\
    forall b, bm_mem bm' b = bm_mem bm2 b && bm_mem bm3 b;
  spec_empty : exists e, BITMAP_EMPTY_P bm1 sz = Ok e /\ (e = true <-> forall b, bm_mem bm1 b = false);
  spec_disjoint : exists e, BITMAP_DISJOINT_P bm1 bm2 sz = Ok e /\
    (e = true <-> forall b, bm_mem bm1 b && bm_mem bm2 b = false);
  spec_set_p : BITMAP_SET_P bm1 (Z.of_nat n) = Ok (bm_mem bm1 n);
}.

(** C32: every bitmap macro that compiles (BITMAP_NOT and BITMAP_CLEAR_P do
    not) computes its set operation: for bitmaps of [sz]
    words and a bit number below [32 * sz], setting, clearing, filling,
    emptying, copying, union, symmetric difference, intersection, the
    emptiness and disjointness tests and the membership test all succeed and
    agree with the operation on sets of bit numbers.  BITMAP_DISJOINT_P is
    true when the sets are disjoint; its comment has the opposite. *)
Theorem bitmap_implements_sets (sz : nat) (bm1 bm2 bm3 : list Z) (n : nat) :
  length bm1 = sz -> length bm2 = sz -> length bm3 = sz ->
  bm_ok bm1 -> bm_ok bm2 -> (n < 32 * sz)%nat ->
  bitmap_spec sz bm1 bm2 bm3 n.
Proof.
  intros <- H2 H3 Hok1 Hok2 Hn. constructor.
  - by apply BITMAP_SET_mem.
  - by apply BITMAP_CLEAR_mem.
  - destruct (map_words_const 0xffffffff bm1) as (bm' & H & Hl & Hm). exists bm'. split; [done|].
    split; [done|]. intros b. rewrite Hm. change 0xffffffff with (Z.ones 32).
    rewrite Z.ones_spec_low; [apply andb_true_r|]. pose proof (Nat.mod_upper_bound b 32). lia.
  - destruct (map_words_const 0 bm1) as (bm' & H & Hl & Hm). exists bm'. split; [done|].
    split; [done|]. intros b. by rewrite Hm, Z.testbit_0_l, andb_false_r.
  - by apply BITMAP_COPY_mem.
  - apply BITMAP_OP_mem; auto using Z.lor_spec.
  - apply BITMAP_OP_mem; auto using Z.lxor_spec.
  - apply BITMAP_OP_mem; auto using Z.land_spec.
  - by apply BITMAP_EMPTY_P_mem.
  - by apply BITMAP_DISJOINT_P_mem.
  - by apply BITMAP_SET_P_mem.
Qed.

Lemma bitmap_implements_sets_witness :
  bitmap_spec 2 [5; 2 ^ 31] [0; 1] [7; 7] 63 /\ BITMAP_SET_P [5; 2 ^ 31] 63 = Ok true.
Proof.
  split; [|vm_compute; reflexivity].
  apply (bitmap_implements_sets 2); [reflexivity..| | |lia]; unfold bm_ok; repeat constructor; lia.
Defined.
