(* ===== verification/Eventq.v ===== *)
(** eventq.c and eventq.h: the time ordered event queue.

    The event descriptors are the cells of [ev_descs], a pointer to one is its
    index, [calloc] adds a cell.  The bitmaps and integers the actions change
    belong to the clients: they are the cells of [world].  The functions that
    callbacks call are client code: they are the argument [callback]. *)

From S2P Require Import Prelude Bitmap.

(** What the actions write to. *)
Record world := mk_world { w_bmaps : list (list Z); w_ints : list Z }.
#[global] Instance eta_world : Eta world := mk_eta (fun w => mk_world (w_bmaps w) (w_ints w)).

(** [enum eventq_action] with the member of [union eventq_data] it selects. *)
Inductive eventq_action :=
| EventSetBit (bmap : nat) (bitnum : Z)
| EventClearBit (bmap : nat) (bitnum : Z)
| EventSetFlag (pflag : nat) (value : Z)
| EventAddOp (summand : nat) (addend : Z)
| EventCallback (fn : nat) (arg : Z).

Record eventq_desc := mk_desc {
  ev_next : option nat;
  ev_when : Z;
  ev_id : Z;
  ev_action : eventq_action;
}.
#[global] Instance eta_eventq_desc : Eta eventq_desc :=
  mk_eta (fun d => mk_desc (ev_next d) (ev_when d) (ev_id d) (ev_action d)).

(** The variables of eventq.c, the descriptors and the clients' variables. *)
Record eventq := mk_eventq {
  eventq_max_events : Z;
  eventq_event_count : Z;
  eventq_pending : option nat;
  eventq_free : option nat;
  next_ID : Z;
  ev_descs : list eventq_desc;
  ev_world : world;
}.
#[global] Instance eta_eventq : Eta eventq := mk_eta (fun s =>
  mk_eventq (eventq_max_events s) (eventq_event_count s) (eventq_pending s) (eventq_free s)
    (next_ID s) (ev_descs s) (ev_world s)).

(** The state before [eventq_init]: [next_ID] starts at 1. *)
Definition eventq_start (w : world) : eventq := mk_eventq 0 0 None None 1 [] w.

(** [eventq_init] forgets the descriptors and leaves [next_ID] alone. *)
Definition eventq_init (max_events : Z) (s : eventq) : eventq :=
  s <| eventq_max_events := max_events |> <| eventq_event_count := 0 |>
    <| eventq_pending := None |> <| eventq_free := None |>.

(** A cleared descriptor; its action is written before anything reads it. *)
Definition cleared_desc : eventq_desc := mk_desc None 0 0 (EventSetBit 0 0).

(** "get a free event descriptor" *)
Definition get_free_desc (s : eventq) : outcome (nat * eventq) :=
  s ← match eventq_free s with
      | Some _ => Ok s
      | None =>
          if negb (eventq_max_events s =? 0) && (eventq_max_events s <=? eventq_event_count s)
          then Panic
          else Ok (s <| ev_descs := ev_descs s ++ [cleared_desc] |>
                     <| eventq_free := Some (length (ev_descs s)) |>)
      end;
  new ← deref (eventq_free s);
  d ← c_get (ev_descs s) new;
  Ok (new, s <| eventq_free := ev_next d |>).

(** "locate insertion point": the final values of [prev] and [ev]. *)
Fixpoint insertion_point (fuel : nat) (ds : list eventq_desc) (when : Z) (prev ev : option nat)
    : outcome (option nat) :=
  match fuel with
  | O => NoFuel
  | S fuel =>
      match ev with
      | None => Ok prev
      | Some p =>
          d ← c_get ds p;
          if ev_when d <? when then insertion_point fuel ds when ev (ev_next d) else Ok prev
      end
  end.

(** "insert new record" *)
Definition insert_record (prev : option nat) (new : nat) (s : eventq) : outcome eventq :=
  match prev with
  | Some p =>
      dp ← c_get (ev_descs s) p;
      ds ← c_upd (ev_descs s) new (fun d => d <| ev_next := ev_next dp |>);
      ds ← c_upd ds p (fun d => d <| ev_next := Some new |>);
      Ok (s <| ev_descs := ds |>)
  | None =>
      ds ← c_upd (ev_descs s) new (fun d => d <| ev_next := eventq_pending s |>);
      Ok (s <| ev_descs := ds |> <| eventq_pending := Some new |>)
  end.

(** The macro [__QUEUE_EVENT]: the value is the ID. *)
Definition QUEUE_EVENT (when : Z) (ACTION : eventq_action) (s : eventq) : outcome (Z * eventq) :=
  '(new, s) ← get_free_desc s;
  let id := next_ID s in
  ds ← c_upd (ev_descs s) new
         (fun d => d <| ev_when := when |> <| ev_id := id |> <| ev_action := ACTION |>);
  let s := s <| ev_descs := ds |> <| next_ID := u32 (id + 1) |> in
  prev ← insertion_point (S (length ds)) ds when None (eventq_pending s);
  s ← insert_record prev new s;
  Ok (id, s).

Definition eventq_queue_setbit (when : Z) (bmap : nat) (bitnum : Z) : eventq -> outcome (Z * eventq) :=
  QUEUE_EVENT when (EventSetBit bmap bitnum).
Definition eventq_queue_clearbit (when : Z) (bmap : nat) (bitnum : Z) : eventq -> outcome (Z * eventq) :=
  QUEUE_EVENT when (EventClearBit bmap bitnum).
Definition eventq_queue_setflag (when : Z) (pflag : nat) (value : Z) : eventq -> outcome (Z * eventq) :=
  QUEUE_EVENT when (EventSetFlag pflag value).
Definition eventq_queue_addop (when : Z) (summand : nat) (addend : Z) : eventq -> outcome (Z * eventq) :=
  QUEUE_EVENT when (EventAddOp summand addend).
Definition eventq_queue_callback (when : Z) (fn : nat) (arg : Z) : eventq -> outcome (Z * eventq) :=
  QUEUE_EVENT when (EventCallback fn arg).

(** The search of [eventq_execute] and [eventq_remove]: [prev] and [ev] at the
    descriptor with the ID. *)
Fixpoint find_event (fuel : nat) (ds : list eventq_desc) (id : Z) (prev ev : option nat)
    : outcome (option (option nat * nat)) :=
  match fuel with
  | O => NoFuel
  | S fuel =>
      match ev with
      | None => Ok None
      | Some p =>
          d ← c_get ds p;
          if ev_id d =? id then Ok (Some (prev, p)) else find_event fuel ds id ev (ev_next d)
      end
  end.

(** Take [ev] off the pending list. *)
Definition unlink_event (prev : option nat) (ev : nat) (s : eventq) : outcome eventq :=
  d ← c_get (ev_descs s) ev;
  match prev with
  | Some p =>
      ds ← c_upd (ev_descs s) p (fun dp => dp <| ev_next := ev_next d |>);
      Ok (s <| ev_descs := ds |>)
  | None => Ok (s <| eventq_pending := ev_next d |>)
  end.

(** "put event on free list" *)
Definition free_event (ev : nat) (s : eventq) : outcome eventq :=
  ds ← c_upd (ev_descs s) ev (fun d => d <| ev_next := eventq_free s |>);
  Ok (s <| ev_descs := ds |> <| eventq_free := Some ev |>).

Definition eventq_remove (id : Z) (s : eventq) : outcome (bool * eventq) :=
  r ← find_event (S (length (ev_descs s))) (ev_descs s) id None (eventq_pending s);
  match r with
  | Some (prev, ev) =>
      s ← unlink_event prev ev s;
      s ← free_event ev s;
      Ok (true, s)
  | None => Ok (false, s)
  end.

(** The actions of [EXECUTE_ACTION] on the clients' variables; [None] for a
    callback. *)
Definition act_world (a : eventq_action) (w : world) : option (outcome world) :=
  match a with
  | EventSetBit bmap bitnum => Some (
      bm ← c_get (w_bmaps w) bmap; bm ← BITMAP_SET bm bitnum;
      Ok (w <| w_bmaps ::= <[bmap := bm]> |>))
  | EventClearBit bmap bitnum => Some (
      bm ← c_get (w_bmaps w) bmap; bm ← BITMAP_CLEAR bm bitnum;
      Ok (w <| w_bmaps ::= <[bmap := bm]> |>))
  | EventSetFlag pflag value => Some (
      xs ← c_upd (w_ints w) pflag (fun _ => value); Ok (w <| w_ints := xs |>))
  | EventAddOp summand addend => Some (
      xs ← c_upd (w_ints w) summand (fun x => s32 (x + addend)); Ok (w <| w_ints := xs |>))
  | EventCallback _ _ => None
  end.

Section Callbacks.
(** [callback fn now arg]: the call [( *fn)(now, arg)]. *)
Variable callback : nat -> Z -> Z -> eventq -> outcome eventq.

Definition EXECUTE_ACTION (a : eventq_action) (now : Z) (s : eventq) : outcome eventq :=
  match act_world a (ev_world s), a with
  | Some m, _ => w ← m; Ok (s <| ev_world := w |>)
  | None, EventCallback fn arg => callback fn now arg s
  | None, _ => Panic
  end.

Definition eventq_execute (id : Z) (s : eventq) : outcome (bool * eventq) :=
  r ← find_event (S (length (ev_descs s))) (ev_descs s) id None (eventq_pending s);
  match r with
  | Some (prev, ev) =>
      d ← c_get (ev_descs s) ev;
      s ← unlink_event prev ev s;
      s ← EXECUTE_ACTION (ev_action d) 0 s;
      s ← free_event ev s;
      Ok (true, s)
  | None => Ok (false, s)
  end.

(** [eventq_service_events]: [ev] stays at the head of the list while its
    action runs; [ev->next] is read again afterwards. *)
Fixpoint eventq_service_events (fuel : nat) (now : Z) (s : eventq) : outcome eventq :=
  match fuel with
  | O => NoFuel
  | S fuel =>
      match eventq_pending s with
      | None => Ok s
      | Some ev =>
          d ← c_get (ev_descs s) ev;
          if ev_when d <=? now then
            s ← EXECUTE_ACTION (ev_action d) now s;
            d' ← c_get (ev_descs s) ev;
            s ← free_event ev (s <| eventq_pending := ev_next d' |>);
            eventq_service_events fuel now s
          else Ok s
      end
  end.

End Callbacks.
