(* ===== verification/EventqRefine.v ===== *)
(** The event queue of eventq.c implements a list of events sorted by time:
    the representation, the abstract operations and the refinement. *)

From Stdlib Require Import Sorting.Sorted.
From S2P Require Import Prelude Bitmap Eventq.

(** * The abstract queue *)

Record event := mk_event { e_when : Z; e_id : Z; e_action : eventq_action }.

(** Pending events in the order they will occur, the next ID and the variables
    the actions change. *)
Record aq := mk_aq { a_events : list event; a_next : Z; a_world : world }.

(** A new event goes before the events of its own time. *)
Fixpoint insert_event (e : event) (q : list event) : list event :=
  match q with
  | [] => [e]
  | x :: q' => if e_when x <? e_when e then x :: insert_event e q' else e :: q
  end.

Definition abs_queue (wa : Z * eventq_action) (a : aq) : aq :=
  mk_aq (insert_event (mk_event wa.1 (a_next a) wa.2) (a_events a)) (u32 (a_next a + 1)) (a_world a).

(** Cut a queue at the first event with an ID. *)
Fixpoint split_id (id : Z) (q : list event) : option (list event * event * list event) :=
  match q with
  | [] => None
  | e :: q' =>
      if e_id e =? id then Some ([], e, q')
      else match split_id id q' with
           | Some (q1, x, q2) => Some (e :: q1, x, q2)
           | None => None
           end
  end.

Definition abs_remove (id : Z) (a : aq) : bool * aq :=
  match split_id id (a_events a) with
  | Some (q1, _, q2) => (true, mk_aq (q1 ++ q2) (a_next a) (a_world a))
  | None => (false, a)
  end.

(** * Representation *)

Definition event_of (d : eventq_desc) : event := mk_event (ev_when d) (ev_id d) (ev_action d).

(** [chain ds p l]: following the links from [p] visits the descriptors of [l]. *)
Fixpoint chain (ds : list eventq_desc) (p : option nat) (l : list (nat * event)) : Prop :=
  match l with
  | [] => p = None
  | (a, e) :: l' => p = Some a /\ exists d, ds !! a = Some d /\ event_of d = e /\ chain ds (ev_next d) l'
  end.

Definition by_time (x y : event) : Prop := e_when x <= e_when y.

Record eventq_repr (s : eventq) (pl fl : list (nat * event)) : Prop := mk_repr {
  repr_pending : chain (ev_descs s) (eventq_pending s) pl;
  repr_free : chain (ev_descs s) (eventq_free s) fl;
  repr_nodup : NoDup (pl.*1 ++ fl.*1);
  repr_sorted : StronglySorted by_time (pl.*2);
}.

(** The abstraction relation. *)
Definition eventq_abs (s : eventq) (a : aq) : Prop :=
  exists pl fl, eventq_repr s pl fl /\ a = mk_aq (pl.*2) (next_ID s) (ev_world s).

Definition eventq_room (s : eventq) : Prop :=
  eventq_event_count s = 0 /\ 0 <= eventq_max_events s.

(** * Chains *)

Section Chains.
Implicit Types (ds : list eventq_desc) (l : list (nat * event)) (p : option nat).

Lemma chain_dom ds p l : chain ds p l -> forall a, a ∈ l.*1 -> is_Some (ds !! a).
Proof.
  revert p. induction l as [|[b e] l IH]; intros p; cbn; [intros _ a Ha; by apply elem_of_nil in Ha|].
  intros (-> & d & Hd & _ & H) a [->|Ha]%elem_of_cons; [by eexists|eauto].
Qed.

Lemma pending_frame ds ds' p l :
  (forall a, a ∈ l.*1 -> ds' !! a = ds !! a) -> chain ds p l -> chain ds' p l.
Proof.
  revert p. induction l as [|[b e] l IH]; intros p Hf; cbn; [done|].
  intros (-> & d & Hd & He & H). split; [done|]. exists d.
  rewrite Hf by (cbn; left). repeat (split; [done|]).
  apply IH; [|done]. intros a Ha. apply Hf. cbn. by right.
Qed.

Lemma chain_insert ds p l a d : a ∉ l.*1 -> chain ds p l -> chain (<[a := d]> ds) p l.
Proof.
  intros Ha. apply pending_frame. intros b Hb. apply list_lookup_insert_ne. by intros ->.
Qed.

Lemma chain_length ds p l : chain ds p l -> NoDup (l.*1) -> (length l <= length ds)%nat.
Proof.
  intros H Hnd. rewrite <- (length_fmap fst l), <- (length_seq (length ds) 0).
  apply NoDup_incl_length; [by apply NoDup_ListNoDup|].
  intros a Ha. apply in_seq. apply list_elem_of_In, (chain_dom _ _ _ H) in Ha as [d Hd].
  apply lookup_lt_Some in Hd. lia.
Qed.

(** Cutting a chain: the entry point of the second part. *)
Definition chain_head l : option nat := match l with [] => None | (a, _) :: _ => Some a end.

Lemma chain_start ds p l : chain ds p l -> p = chain_head l.
Proof. destruct l as [|[a e] l]; cbn; [done|]. by intros [-> _]. Qed.

Lemma chain_app ds p l1 l2 :
  chain ds p (l1 ++ l2) -> chain ds (chain_head l2) l2.
Proof.
  revert p. induction l1 as [|[a e] l1 IH]; intros p; cbn [app].
  - intros H. by rewrite <- (chain_start _ _ _ H).
  - cbn. intros (-> & d & _ & _ & H). eauto.
Qed.

Lemma chain_cell ds p l1 a e l2 d :
  chain ds p (l1 ++ (a, e) :: l2) -> ds !! a = Some d -> ev_next d = chain_head l2 /\ event_of d = e.
Proof.
  intros H Hd. apply chain_app in H. cbn in H. destruct H as (_ & d' & Hd' & He & H).
  rewrite Hd in Hd'. injection Hd' as <-. split; [|done]. by eapply chain_start.
Qed.

(** Redirecting the last link of the first part. *)
Lemma chain_relink ds p l1 a e l2 l3 d :
  chain ds p (l1 ++ (a, e) :: l2) -> NoDup (l1.*1 ++ [a]) -> ds !! a = Some d ->
  a ∉ l3.*1 -> chain ds (chain_head l3) l3 ->
  chain (<[a := d <| ev_next := chain_head l3 |>]> ds) p (l1 ++ (a, e) :: l3).
Proof.
  revert p. induction l1 as [|[b eb] l1 IH]; intros p H Hnd Hd Ha H3; cbn in H |- *.
  - destruct H as (-> & d' & Hd' & He & _). split; [done|].
    rewrite Hd in Hd'. injection Hd' as <-.
    exists (d <| ev_next := chain_head l3 |>). split.
    { apply list_lookup_insert_eq. by eapply lookup_lt_Some. }
    split; [done|]. by apply chain_insert.
  - destruct H as (-> & db & Hdb & He & H). split; [done|]. exists db.
    cbn in Hnd. apply NoDup_cons in Hnd as [Hb Hnd].
    split; [|split; [done|by apply IH]].
    rewrite list_lookup_insert_ne; [done|]. intros ->. apply Hb, elem_of_app. right. by left.
Qed.

End Chains.

(** * Lists sorted by time *)

(** Where a new event goes. *)
Fixpoint cut_at (when : Z) (l : list (nat * event)) : list (nat * event) * list (nat * event) :=
  match l with
  | [] => ([], [])
  | x :: l' => if e_when x.2 <? when then let '(l1, l2) := cut_at when l' in (x :: l1, l2) else ([], l)
  end.

Lemma cut_at_app when l : (cut_at when l).1 ++ (cut_at when l).2 = l.
Proof.
  induction l as [|x l IH]; cbn; [done|]. destruct (_ <? _); [|done].
  destruct (cut_at when l). cbn in *. by rewrite IH.
Qed.

Lemma cut_at_insert when l a e :
  e_when e = when ->
  ((cut_at when l).1 ++ (a, e) :: (cut_at when l).2).*2 = insert_event e (l.*2).
Proof.
  intros <-. induction l as [|x l IH]; cbn; [done|]. destruct (_ <? _); [|done].
  destruct (cut_at _ l). cbn in *. by rewrite IH.
Qed.

Lemma insert_event_elem e q x : x ∈ insert_event e q <-> x = e \/ x ∈ q.
Proof.
  induction q as [|y q IH]; cbn; [set_solver|]. destruct (_ <? _); set_solver.
Qed.

Lemma insert_event_sorted e q : StronglySorted by_time q -> StronglySorted by_time (insert_event e q).
Proof.
  induction 1 as [|x q Hs IH Hx]; cbn; [by repeat constructor|].
  destruct (Z.ltb_spec (e_when x) (e_when e)) as [Hlt|Hge].
  - constructor; [done|]. apply Forall_forall. intros y [->|Hy]%insert_event_elem.
    + unfold by_time. lia.
    + by eapply Forall_forall.
  - constructor; [by constructor|]. constructor; [done|].
    eapply Forall_impl; [exact Hx|]. unfold by_time. intros y ?. lia.
Qed.

(** An event later than those of the first part goes into the second. *)
Lemma insert_event_app e q1 q2 :
  Forall (fun x => e_when x < e_when e) q1 -> insert_event e (q1 ++ q2) = q1 ++ insert_event e q2.
Proof.
  induction 1 as [|x q1 Hx _ IH]; cbn; [done|].
  rewrite (proj2 (Z.ltb_lt _ _)) by done. by rewrite IH.
Qed.

(** * Queueing *)

Lemma insertion_point_spec ds when l : forall fuel prev p,
  chain ds p l -> (length l < fuel)%nat ->
  insertion_point fuel ds when prev p =
    Ok (match last ((cut_at when l).1.*1) with Some a => Some a | None => prev end).
Proof.
  induction l as [|[a e] l IH]; intros [|fuel] prev p H Hf; cbn in Hf; try lia; cbn in H |- *.
  - by rewrite H.
  - destruct H as (-> & d & Hd & He & H). rewrite (c_get_some _ _ _ Hd). cbn.
    replace (e_when e) with (ev_when d) by (by rewrite <- He).
    destruct (ev_when d <? when); [|done]. rewrite (IH fuel (Some a)) by (done || lia).
    destruct (cut_at when l) as [l1 l2]. cbn [fst snd fmap list_fmap]. rewrite last_cons.
    by destruct (last _).
Qed.

(** A descriptor in neither list, as [get_free_desc] gives it. *)
Record eventq_alloc (s : eventq) (new : nat) (pl fl : list (nat * event)) : Prop := mk_alloc {
  alloc_pending : chain (ev_descs s) (eventq_pending s) pl;
  alloc_free : chain (ev_descs s) (eventq_free s) fl;
  alloc_nodup : NoDup (new :: pl.*1 ++ fl.*1);
  alloc_new : is_Some (ev_descs s !! new);
}.

Lemma chain_snoc_frame ds d p l : chain ds p l -> chain (ds ++ [d]) p l.
Proof.
  intros H. eapply pending_frame; [|exact H]. intros a Ha.
  apply (chain_dom _ _ _ H) in Ha as [x Hx]. apply lookup_app_l. by eapply lookup_lt_Some.
Qed.

Lemma get_free_desc_spec s pl fl :
  eventq_repr s pl fl -> eventq_room s ->
  exists new s' fl', get_free_desc s = Ok (new, s') /\ eventq_alloc s' new pl fl' /\
    next_ID s' = next_ID s /\ ev_world s' = ev_world s /\ eventq_room s' /\
    (length (ev_descs s) <= length (ev_descs s'))%nat /\
    (forall a, a ∈ new :: fl'.*1 -> a ∈ fl.*1 \/ (length (ev_descs s) <= a)%nat).
Proof.
  intros [Hp Hf Hnd Hs] [Hc Hm]. unfold get_free_desc. destruct (eventq_free s) as [f|] eqn:Ef.
  - cbn. rewrite Ef. cbn. destruct fl as [|[f' e] fl]; [done|]. cbn in Hf.
    destruct Hf as ([= ->] & d & Hd & He & Hf). rewrite (c_get_some _ _ _ Hd). cbn.
    eexists _, _, fl. split; [done|]. split; [|do 4 (split; [done|]); cbn; auto].
    constructor; cbn; [done..| |by eexists].
    by rewrite Permutation_middle.
  - destruct fl as [|[f' e] fl]; [|by destruct Hf].
    replace (negb _ && _) with false by (rewrite Hc; blia). cbn.
    rewrite (c_get_some _ _ cleared_desc) by (rewrite lookup_app_r, Nat.sub_diag; done). cbn.
    eexists _, _, []. split; [done|]. split.
    2:{ do 3 (split; [done|]). cbn. rewrite length_app. split; [lia|].
        intros a ->%list_elem_of_singleton. by right. }
    constructor; cbn.
    + by apply chain_snoc_frame.
    + done.
    + rewrite app_nil_r in Hnd |- *. apply NoDup_cons. split; [|done].
      intros Ha. apply (chain_dom _ _ _ Hp) in Ha as [x Hx]. apply lookup_lt_Some in Hx. lia.
    + rewrite lookup_app_r, Nat.sub_diag; [by eexists|done].
Qed.

(** Linking a filled descriptor into the pending list. *)
Lemma insert_record_spec s new pl fl l1 l2 d :
  eventq_alloc s new pl fl -> pl = l1 ++ l2 -> ev_descs s !! new = Some d ->
  exists s', insert_record (last (l1.*1)) new s = Ok s' /\
    chain (ev_descs s') (eventq_pending s') (l1 ++ (new, event_of d) :: l2) /\
    chain (ev_descs s') (eventq_free s') fl /\
    next_ID s' = next_ID s /\ ev_world s' = ev_world s /\ (eventq_room s -> eventq_room s') /\
    length (ev_descs s') = length (ev_descs s).
Proof.
  intros [Hp Hf Hnd _] -> Hd. apply NoDup_cons in Hnd as [Hn Hnd].
  apply not_elem_of_app in Hn as [Hnp Hnf].
  set (d' := d <| ev_next := chain_head l2 |>).
  assert (H2 : chain (<[new := d']> (ev_descs s)) (Some new) ((new, event_of d) :: l2)).
  { cbn. split; [done|]. exists d'. split; [apply list_lookup_insert_eq; by eapply lookup_lt_Some|].
    split; [done|]. rewrite fmap_app in Hnp. apply not_elem_of_app in Hnp as [_ Hn2].
    apply chain_insert; [done|]. by eapply chain_app. }
  destruct l1 as [|[a e] l1 _] using rev_ind.
  - cbn [fmap list_fmap last insert_record]. cbn in Hp. rewrite (chain_start _ _ _ Hp).
    rewrite (c_upd_insert _ _ _ d) by done. eexists. split; [done|]. cbn [mbind]. cbn.
    repeat (split; [done|]). split; [by apply chain_insert|]. do 3 (split; [done|]). apply length_insert.
  - rewrite fmap_app, last_app. cbn [fmap list_fmap last insert_record fst].
    rewrite <- app_assoc in Hp. cbn [app] in Hp.
    assert (Ha : is_Some (ev_descs s !! a)).
    { apply (chain_dom _ _ _ Hp). rewrite fmap_app. apply elem_of_app. right. by left. }
    destruct Ha as [da Hda]. rewrite (c_get_some _ _ _ Hda). cbn [mbind outcome_bind].
    destruct (chain_cell _ _ _ _ _ _ _ Hp Hda) as [Hnext He].
    assert (Hne : new <> a) by (intros ->; apply Hnp; rewrite !fmap_app, !elem_of_app; cbn; set_solver).
    rewrite (c_upd_insert _ _ _ d) by done. cbn [mbind outcome_bind]. rewrite Hnext. fold d'.
    rewrite (c_upd_insert _ _ _ da) by (by rewrite list_lookup_insert_ne).
    eexists. split; [done|]. cbn [mbind]. rewrite !fmap_app, <- !app_assoc in *. cbn in Hnp, Hnd, Hnf.
    split; [|split; [|do 3 (split; [done|]); cbn; by rewrite !length_insert]].
    + apply (chain_relink _ _ l1 a e l2 ((new, event_of d) :: l2)).
      * apply chain_insert; [|done]. rewrite fmap_app. cbn. done.
      * rewrite (cons_middle a), app_assoc in Hnd. by apply NoDup_app in Hnd as [Hnd _].
      * by rewrite list_lookup_insert_ne.
      * cbn. apply not_elem_of_cons. split; [done|]. apply NoDup_app in Hnd as (_ & _ & Hnd).
        apply NoDup_cons in Hnd as [Hnd _]. set_solver.
      * done.
    + cbn. apply chain_insert; [|by apply chain_insert].
      apply NoDup_app in Hnd as (_ & _ & Hnd). apply NoDup_cons in Hnd as [Hnd _]. set_solver.
Qed.

(** The descriptors in use are the old ones and new cells. *)
Definition eventq_grows (s : eventq) (pl fl : list (nat * event)) (s' : eventq) (pl' fl' : list (nat * event)) : Prop :=
  (length (ev_descs s) <= length (ev_descs s'))%nat /\
  forall a, a ∈ pl'.*1 ++ fl'.*1 -> a ∈ pl.*1 ++ fl.*1 \/ (length (ev_descs s) <= a)%nat.

Lemma QUEUE_EVENT_spec when act s pl fl :
  eventq_repr s pl fl -> eventq_room s ->
  exists new s' fl',
    let e := mk_event when (next_ID s) act in
    let pl' := (cut_at when pl).1 ++ (new, e) :: (cut_at when pl).2 in
    QUEUE_EVENT when act s = Ok (next_ID s, s') /\ eventq_repr s' pl' fl' /\
    pl'.*2 = insert_event e (pl.*2) /\
    next_ID s' = u32 (next_ID s + 1) /\ ev_world s' = ev_world s /\ eventq_room s' /\
    eventq_grows s pl fl s' pl' fl'.
Proof.
  intros Hr Hroom.
  destruct (get_free_desc_spec _ _ _ Hr Hroom) as (new & s1 & fl' & Hg & Ha & Hid & Hw & Hroom1 & Hlen & Hin).
  unfold QUEUE_EVENT. rewrite Hg. cbn [mbind outcome_bind]. destruct Ha as [Hp Hf Hnd [d Hd]].
  rewrite (c_upd_insert _ _ _ d) by done. cbn [mbind outcome_bind].
  set (ds := <[new := _]> (ev_descs s1)). set (s2 := s1 <| ev_descs := ds |> <| next_ID := _ |>).
  apply NoDup_cons in Hnd as Hnd'. destruct Hnd' as [Hn Hnd'].
  apply not_elem_of_app in Hn as [Hnp Hnf].
  assert (Halloc : eventq_alloc s2 new pl fl').
  { constructor; [by apply chain_insert..|done|]. exists (d <| ev_when := when |> <| ev_id := next_ID s1 |> <| ev_action := act |>).
    apply list_lookup_insert_eq. by eapply lookup_lt_Some. }
  rewrite (insertion_point_spec _ _ pl).
  2: apply (alloc_pending _ _ _ _ Halloc).
  2:{ pose proof (chain_length _ _ _ (alloc_pending _ _ _ _ Halloc)) as Hl.
      apply NoDup_app in Hnd' as [Hnd' _]. specialize (Hl Hnd'). cbn in Hl. lia. }
  cbn [mbind outcome_bind].
  destruct (insert_record_spec s2 new pl fl' (cut_at when pl).1 (cut_at when pl).2
    (d <| ev_when := when |> <| ev_id := next_ID s1 |> <| ev_action := act |>)) as (s3 & Hi & H1 & H2 & H3 & H4 & H5 & H6);
    [done|by rewrite cut_at_app| |].
  { apply list_lookup_insert_eq. by eapply lookup_lt_Some. }
  destruct (last _); rewrite Hi; cbn [mbind outcome_bind]; rewrite <- Hid.
  all: exists new, s3, fl'; cbv zeta; split; [done|]; rewrite cut_at_insert by done.
  all: split; [constructor; [done|done| |]|split; [done|rewrite H3, H4; do 3 (split; [by auto|])]].
  all: try (rewrite cut_at_insert by done; apply insert_event_sorted; apply Hr).
  all: try (rewrite fmap_app, <- app_assoc; cbn; rewrite <- Permutation_middle, app_assoc, <- fmap_app, cut_at_app; done).
  all: split; [rewrite H6; unfold s2, ds; cbn; rewrite length_insert; done|].
  all: intros a; rewrite fmap_app, <- app_assoc; cbn; rewrite <- Permutation_middle, app_assoc, <- fmap_app, cut_at_app.
  all: rewrite elem_of_cons, !elem_of_app; intros [->|[Ha| Ha]]; [|by auto|].
  all: match goal with |- _ \/ (_ <= ?b)%nat => destruct (Hin b); [set_solver|auto|auto] end.
Qed.

(** * Removing *)

Lemma find_event_spec ds id l : forall fuel prev p,
  chain ds p l -> (length l < fuel)%nat ->
  (find_event fuel ds id prev p = Ok None /\ split_id id (l.*2) = None) \/
  (exists l1 a e l2, l = l1 ++ (a, e) :: l2 /\
     find_event fuel ds id prev p = Ok (Some (match last (l1.*1) with Some b => Some b | None => prev end, a)) /\
     split_id id (l.*2) = Some (l1.*2, e, l2.*2)).
Proof.
  induction l as [|[a e] l IH]; intros [|fuel] prev p H Hf; cbn in Hf; try lia; cbn in H |- *.
  - rewrite H. by left.
  - destruct H as (-> & d & Hd & <- & H). rewrite (c_get_some _ _ _ Hd). cbn.
    destruct (ev_id d =? id).
    + right. by exists [], a, (event_of d), l.
    + destruct (IH fuel (Some a) (ev_next d) H) as [[-> ->]|(l1 & b & e & l2 & -> & Hr & ->)]; [lia|by left|].
      right. exists ((a, event_of d) :: l1), b, e, l2. split; [done|]. split; [|done].
      rewrite Hr. cbn [fmap list_fmap fst]. rewrite last_cons. by destruct (last _).
Qed.

(** [s] with the descriptor [a] taken off the pending list. *)
Lemma unlink_event_spec s l1 a e l2 fl :
  eventq_repr s (l1 ++ (a, e) :: l2) fl ->
  exists s' d, unlink_event (last (l1.*1)) a s = Ok s' /\
    ev_descs s !! a = Some d /\ event_of d = e /\
    eventq_repr s' (l1 ++ l2) fl /\ NoDup (a :: (l1 ++ l2).*1 ++ fl.*1) /\ is_Some (ev_descs s' !! a) /\
    next_ID s' = next_ID s /\ ev_world s' = ev_world s /\ (eventq_room s -> eventq_room s').
Proof.
  intros [Hp Hf Hnd Hs].
  assert (Ha : is_Some (ev_descs s !! a)).
  { apply (chain_dom _ _ _ Hp). rewrite fmap_app, elem_of_app. right. by left. }
  destruct Ha as [d Hd]. destruct (chain_cell _ _ _ _ _ _ _ Hp Hd) as [Hnext He].
  unfold unlink_event. rewrite (c_get_some _ _ _ Hd). cbn [mbind outcome_bind]. rewrite Hnext.
  assert (Hnd' : NoDup (a :: (l1 ++ l2).*1 ++ fl.*1)).
  { rewrite !fmap_app, <- !app_assoc in *. cbn in Hnd. by rewrite Permutation_middle. }
  assert (Hnd1 : NoDup ((l1 ++ l2).*1 ++ fl.*1)) by (by apply NoDup_cons in Hnd' as [_ ?]).
  assert (Hs' : StronglySorted by_time ((l1 ++ l2).*2)).
  { clear -Hs. rewrite fmap_app in *. cbn in Hs. induction (l1.*2) as [|x l IH]; cbn in *.
    - by inversion Hs.
    - inversion Hs as [|? ? Hs1 Hx]; subst. constructor; [by apply IH|].
      apply Forall_app in Hx as [? Hx]. inversion Hx; subst. by apply Forall_app. }
  destruct l1 as [|[b eb] l1 _] using rev_ind.
  - cbn [fmap list_fmap last]. eexists _, d. split; [done|]. do 2 (split; [done|]).
    split; [|split; [done|split; [by eexists|done]]].
    constructor; [by eapply (chain_app _ _ [(a, e)]), (chain_app _ _ []) in Hp | done..].
  - rewrite fmap_app, last_app. cbn [fmap list_fmap last fst].
    rewrite <- app_assoc in Hp. cbn [app] in Hp.
    assert (Hb : is_Some (ev_descs s !! b)).
    { apply (chain_dom _ _ _ Hp). rewrite fmap_app, elem_of_app. right. by left. }
    destruct Hb as [db Hdb]. rewrite (c_upd_insert _ _ _ db) by done.
    eexists _, d. split; [done|]. do 2 (split; [done|]). rewrite <- (app_assoc l1) in *. cbn [app] in *.
    pose proof Hnd1 as Hnd2. rewrite !fmap_app, <- !app_assoc in Hnd2. cbn in Hnd2.
    rewrite (cons_middle b), app_assoc in Hnd2. apply NoDup_app in Hnd2 as (Hnd2 & Hd2 & _).
    split; [constructor; cbn; [| |done|done]|split; [done|split; [|done]]].
    + apply (chain_relink _ _ l1 b eb ((a, e) :: l2) l2); [done|done|done| |].
      * intros Hb. apply (Hd2 b); [|apply elem_of_app; by left]. apply elem_of_app. right. by left.
      * eapply (chain_app _ _ ((l1 ++ [(b, eb)]) ++ [(a, e)])). rewrite <- !app_assoc. exact Hp.
    + apply chain_insert; [|done]. intros Hb. apply (Hd2 b); [|apply elem_of_app; by right].
      apply elem_of_app. right. by left.
    + apply lookup_lt_is_Some. cbn. rewrite length_insert. by eapply lookup_lt_Some.
Qed.

Lemma free_event_spec s a pl fl :
  eventq_repr s pl fl -> NoDup (a :: pl.*1 ++ fl.*1) ->
  is_Some (ev_descs s !! a) ->
  exists s', free_event a s = Ok s' /\
    (exists fl', eventq_repr s' pl fl') /\ next_ID s' = next_ID s /\ ev_world s' = ev_world s /\
    (eventq_room s -> eventq_room s').
Proof.
  intros [Hp Hf Hnd Hs] Hnd' [d Hd]. unfold free_event. rewrite (c_upd_insert _ _ _ d) by done.
  eexists. split; [done|]. split; [|done].
  apply NoDup_cons in Hnd' as Hn. destruct Hn as [Hn _]. apply not_elem_of_app in Hn as [Hn1 Hn2].
  exists ((a, event_of d) :: fl). constructor; cbn.
  - by apply chain_insert.
  - split; [done|]. eexists. split; [apply list_lookup_insert_eq; by eapply lookup_lt_Some|].
    split; [done|]. by apply chain_insert.
  - by rewrite <- Permutation_middle.
  - done.
Qed.

Lemma repr_length s pl fl : eventq_repr s pl fl -> (length pl < S (length (ev_descs s)))%nat.
Proof.
  intros [Hp _ Hnd _]. apply NoDup_app in Hnd as [Hnd _]. pose proof (chain_length _ _ _ Hp Hnd). lia.
Qed.

Lemma eventq_grows_refl s pl fl : eventq_grows s pl fl s pl fl.
Proof. split; auto. Qed.

Lemma eventq_grows_trans s1 pl1 fl1 s2 pl2 fl2 s3 pl3 fl3 :
  eventq_grows s1 pl1 fl1 s2 pl2 fl2 -> eventq_grows s2 pl2 fl2 s3 pl3 fl3 ->
  eventq_grows s1 pl1 fl1 s3 pl3 fl3.
Proof.
  intros [H1 H2] [H3 H4]. split; [lia|]. intros a [Ha|Ha]%H4; [auto|right; lia].
Qed.

(** A descriptor outside the lists stays outside. *)
Lemma eventq_grows_detached s pl fl s' pl' fl' a :
  eventq_grows s pl fl s' pl' fl' -> eventq_repr s' pl' fl' ->
  NoDup (a :: pl.*1 ++ fl.*1) -> is_Some (ev_descs s !! a) ->
  NoDup (a :: pl'.*1 ++ fl'.*1) /\ is_Some (ev_descs s' !! a).
Proof.
  intros [H1 H2] Hr Hnd Ha. apply NoDup_cons in Hnd as [Hn _]. apply lookup_lt_is_Some in Ha.
  split; [apply NoDup_cons; split|apply lookup_lt_is_Some; lia].
  - intros [Hin|Hin]%H2; [done|lia].
  - apply Hr.
Qed.

(** * Callbacks that queue events *)

(** Client code that changes its variables and queues events, in order. *)
Fixpoint queue_all (evs : list (Z * eventq_action)) (s : eventq) : outcome eventq :=
  match evs with
  | [] => Ok s
  | (when, act) :: evs' => '(_, s) ← QUEUE_EVENT when act s; queue_all evs' s
  end.

Section Clients.
Variable client : nat -> Z -> Z -> world -> outcome (world * list (Z * eventq_action)).

Definition client_callback (fn : nat) (now arg : Z) (s : eventq) : outcome eventq :=
  '(w, evs) ← client fn now arg (ev_world s); queue_all evs (s <| ev_world := w |>).

(** The abstract meaning of an action at time [now]. *)
Definition abs_exec (now : Z) (act : eventq_action) (a : aq) : outcome aq :=
  match act_world act (a_world a), act with
  | Some m, _ => w ← m; Ok (mk_aq (a_events a) (a_next a) w)
  | None, EventCallback fn arg =>
      '(w, evs) ← client fn now arg (a_world a);
      Ok (fold_left (fun a x => abs_queue x a) evs (mk_aq (a_events a) (a_next a) w))
  | None, _ => Panic
  end.

Definition abs_execute (id : Z) (a : aq) : outcome (bool * aq) :=
  match split_id id (a_events a) with
  | Some (q1, e, q2) =>
      a ← abs_exec 0 (e_action e) (mk_aq (q1 ++ q2) (a_next a) (a_world a)); Ok (true, a)
  | None => Ok (false, a)
  end.

(** The due events and the others. *)
Fixpoint split_due (now : Z) (q : list event) : list event * list event :=
  match q with
  | [] => ([], [])
  | e :: q' => if e_when e <=? now then let '(d, r) := split_due now q' in (e :: d, r) else ([], q)
  end.

Fixpoint exec_all (now : Z) (due : list event) (a : aq) : outcome aq :=
  match due with
  | [] => Ok a
  | e :: due' => a ← abs_exec now (e_action e) a; exec_all now due' a
  end.

(** Servicing takes the due events off the queue and performs them in order. *)
Definition abs_service (now : Z) (a : aq) : outcome aq :=
  let '(due, rest) := split_due now (a_events a) in
  exec_all now due (mk_aq rest (a_next a) (a_world a)).

(** Servicing when callbacks may queue events that are due: an event that is queued
    for the time of the event being serviced, or for an earlier one, is lost (its ID
    is used up); a later one is queued, and serviced in turn if it is due.  [fuel]
    bounds the number of events serviced. *)
Definition abs_queue_later (time : Z) (wa : Z * eventq_action) (a : aq) : aq :=
  if time <? wa.1 then abs_queue wa a else mk_aq (a_events a) (u32 (a_next a + 1)) (a_world a).

Definition abs_perform (now : Z) (e : event) (a : aq) : outcome aq :=
  match act_world (e_action e) (a_world a), e_action e with
  | Some m, _ => w ← m; Ok (mk_aq (a_events a) (a_next a) w)
  | None, EventCallback fn arg =>
      '(w, evs) ← client fn now arg (a_world a);
      Ok (fold_left (fun a x => abs_queue_later (e_when e) x a) evs (mk_aq (a_events a) (a_next a) w))
  | None, _ => Panic
  end.

Fixpoint abs_service_each (fuel : nat) (now : Z) (a : aq) : outcome aq :=
  match fuel with
  | O => NoFuel
  | S fuel =>
      match a_events a with
      | e :: q =>
          if e_when e <=? now
          then a ← abs_perform now e (mk_aq q (a_next a) (a_world a)); abs_service_each fuel now a
          else Ok a
      | [] => Ok a
      end
  end.

End Clients.

Section Refinement.
Variable client : nat -> Z -> Z -> world -> outcome (world * list (Z * eventq_action)).

Lemma cut_at_after when p1 p2 :
  Forall (fun x => e_when x.2 < when) p1 ->
  cut_at when (p1 ++ p2) = (p1 ++ (cut_at when p2).1, (cut_at when p2).2).
Proof.
  induction 1 as [|x p1 Hx _ IH]; cbn; [by destruct (cut_at when p2)|].
  rewrite (proj2 (Z.ltb_lt _ _)) by done. by rewrite IH.
Qed.

Lemma queue_all_refines evs : forall s p1 p2 fl,
  eventq_repr s (p1 ++ p2) fl -> eventq_room s ->
  Forall (fun w => Forall (fun x => e_when x.2 < w.1) p1) evs ->
  exists s' p2' fl', queue_all evs s = Ok s' /\ eventq_repr s' (p1 ++ p2') fl' /\ eventq_room s' /\
    eventq_grows s (p1 ++ p2) fl s' (p1 ++ p2') fl' /\
    mk_aq (p2'.*2) (next_ID s') (ev_world s') =
      fold_left (fun a x => abs_queue x a) evs (mk_aq (p2.*2) (next_ID s) (ev_world s)).
Proof.
  induction evs as [|[w act] evs IH]; intros s p1 p2 fl Hr Hroom Hev; cbn [queue_all fold_left].
  - exists s, p2, fl. auto using eventq_grows_refl.
  - apply Forall_cons in Hev as [Hw Hev]. cbn in Hw.
    destruct (QUEUE_EVENT_spec w act s _ _ Hr Hroom)
      as (new & s1 & fl1 & Hq & Hr1 & Hv & Hid & Hwd & Hroom1 & Hg). cbv zeta in *.
    rewrite Hq. cbn [mbind outcome_bind]. rewrite cut_at_after in Hr1, Hg by done. cbn [fst snd] in Hr1, Hg.
    rewrite <- app_assoc in Hr1, Hg.
    destruct (IH _ _ _ _ Hr1 Hroom1 Hev) as (s' & p2' & fl' & Hq' & Hr' & Hroom' & Hg' & Ha).
    exists s', p2', fl'. do 3 (split; [done|]). split; [by eapply eventq_grows_trans|].
    rewrite Ha. f_equal. unfold abs_queue. cbn [fst snd a_events a_next a_world].
    rewrite Hid, Hwd. f_equal. by apply cut_at_insert.
Qed.

(** Every event a callback queues at time [now] is later than [now]. *)
Definition queues_later (now : Z) : Prop :=
  forall fn arg w w' evs, client fn now arg w = Ok (w', evs) -> Forall (fun x => now < x.1) evs.

Lemma EXECUTE_ACTION_refines act now s p1 p2 fl :
  eventq_repr s (p1 ++ p2) fl -> eventq_room s ->
  (p1 <> [] -> queues_later now) -> Forall (fun x => e_when x.2 <= now) p1 ->
  orel (fun s' a' => exists p2' fl', eventq_repr s' (p1 ++ p2') fl' /\ eventq_room s' /\
          eventq_grows s (p1 ++ p2) fl s' (p1 ++ p2') fl' /\
          a' = mk_aq (p2'.*2) (next_ID s') (ev_world s'))
    (EXECUTE_ACTION (client_callback client) act now s)
    (abs_exec client now act (mk_aq (p2.*2) (next_ID s) (ev_world s))).
Proof.
  intros Hr Hroom Hlate Hp1. unfold EXECUTE_ACTION, abs_exec. cbn [a_events a_next a_world].
  destruct (act_world act (ev_world s)) as [m|] eqn:Em.
  - eapply orel_bind; [apply orel_eq|]. intros w ? _ _ <-. cbn. exists p2, fl.
    split; [by destruct Hr|]. split; [done|]. split; [by split; cbn; auto|done].
  - destruct act as [| | | |fn arg]; cbn; [done..|]. unfold client_callback.
    eapply orel_bind; [apply orel_eq|]. intros [w evs] ? Hc _ <-.
    destruct (queue_all_refines evs (s <| ev_world := w |>) p1 p2 fl)
      as (s' & p2' & fl' & -> & Hr' & Hroom' & Hg & Ha); [by destruct Hr|done| |].
    + destruct p1 as [|x p1]; [apply Forall_true; by intros|].
      eapply Forall_impl; [exact (Hlate ltac:(done) _ _ _ _ _ Hc)|]. cbn. intros y Hy.
      eapply Forall_impl; [exact Hp1|]. cbn. intros z Hz. lia.
    + cbn. exists p2', fl'. do 3 (split; [done|]). symmetry. exact Ha.
Qed.

Lemma eventq_execute_refines id s pl fl :
  eventq_repr s pl fl -> eventq_room s ->
  orel (fun r ra => r.1 = ra.1 /\ eventq_abs r.2 ra.2 /\ eventq_room r.2)
    (eventq_execute (client_callback client) id s)
    (abs_execute client id (mk_aq (pl.*2) (next_ID s) (ev_world s))).
Proof.
  intros Hr Hroom. unfold eventq_execute, abs_execute. cbn [a_events].
  destruct (find_event_spec (ev_descs s) id pl (S (length (ev_descs s))) None (eventq_pending s))
    as [[-> ->]|(l1 & a & e & l2 & -> & -> & ->)]; [apply Hr|by eapply repr_length| |].
  - cbn. split; [done|]. split; [by exists pl, fl|done].
  - destruct (unlink_event_spec _ _ _ _ _ _ Hr) as (s1 & d & Hu & Hd & He & Hr1 & Hnd & Ha & Hid & Hw & Hroom1).
    cbn [mbind outcome_bind]. rewrite (c_get_some _ _ _ Hd). cbn [mbind outcome_bind].
    replace (match last l1.*1 with Some b => Some b | None => None end) with (last l1.*1) by (by destruct (last _)).
    rewrite Hu. cbn [mbind outcome_bind]. cbn [a_next a_world]. rewrite <- Hid, <- Hw, <- fmap_app.
    replace (e_action e) with (ev_action d) by (by rewrite <- He).
    eapply orel_bind.
    { apply (EXECUTE_ACTION_refines _ 0 s1 [] (l1 ++ l2) fl); [done|auto|done|constructor]. }
    intros s2 a2 _ _ (p2 & fl2 & Hr2 & Hroom2 & Hg & ->).
    destruct (eventq_grows_detached _ _ _ _ _ _ _ Hg Hr2 Hnd Ha) as [Hnd2 Ha2].
    destruct (free_event_spec _ _ _ _ Hr2 Hnd2 Ha2) as (s3 & -> & [fl3 Hr3] & Hid3 & Hw3 & Hroom3).
    cbn. split; [done|]. split; [|auto]. exists p2, fl3. by rewrite Hid3, Hw3.
Qed.

Lemma eventq_remove_refines id s pl fl :
  eventq_repr s pl fl -> eventq_room s ->
  exists s', eventq_remove id s = Ok ((abs_remove id (mk_aq (pl.*2) (next_ID s) (ev_world s))).1, s') /\
    eventq_abs s' (abs_remove id (mk_aq (pl.*2) (next_ID s) (ev_world s))).2 /\ eventq_room s'.
Proof.
  intros Hr Hroom. unfold eventq_remove, abs_remove. cbn [a_events].
  destruct (find_event_spec (ev_descs s) id pl (S (length (ev_descs s))) None (eventq_pending s))
    as [[-> ->]|(l1 & a & e & l2 & -> & -> & ->)]; [apply Hr|by eapply repr_length| |].
  - exists s. split; [done|]. split; [by exists pl, fl|done].
  - destruct (unlink_event_spec _ _ _ _ _ _ Hr) as (s1 & d & Hu & Hd & He & Hr1 & Hnd & Ha & Hid & Hw & Hroom1).
    cbn [mbind outcome_bind].
    replace (match last l1.*1 with Some b => Some b | None => None end) with (last l1.*1) by (by destruct (last _)).
    rewrite Hu. cbn [mbind outcome_bind].
    destruct (free_event_spec _ _ _ _ Hr1 Hnd Ha) as (s3 & -> & [fl3 Hr3] & Hid3 & Hw3 & Hroom3).
    exists s3. split; [done|]. split; [|auto]. exists (l1 ++ l2), fl3. cbn. by rewrite Hid3, Hw3, Hid, Hw, fmap_app.
Qed.

(** * Servicing *)

Lemma split_due_insert now e q :
  now < e_when e -> StronglySorted by_time q ->
  split_due now (insert_event e q) = ((split_due now q).1, insert_event e (split_due now q).2).
Proof.
  intros He. induction 1 as [|x q Hs IH Hx]; cbn.
  - by rewrite (proj2 (Z.leb_gt _ _)).
  - destruct (Z.ltb_spec (e_when x) (e_when e)) as [Hlt|Hge]; cbn.
    + destruct (e_when x <=? now) eqn:En; cbn.
      * rewrite IH. by destruct (split_due now q).
      * by rewrite (proj2 (Z.ltb_lt _ _)).
    + rewrite (proj2 (Z.leb_gt (e_when e) now)) by done.
      rewrite (proj2 (Z.leb_gt (e_when x) now)) by lia. cbn.
      by rewrite (proj2 (Z.ltb_ge _ _)).
Qed.

(** What an action does to the whole queue it does to the part not yet due. *)
Lemma abs_exec_rest act now q n w :
  queues_later now -> StronglySorted by_time q ->
  orel (fun a1 a2 => StronglySorted by_time (a_events a1) /\
          (split_due now (a_events a1)).1 = (split_due now q).1 /\
          a2 = mk_aq (split_due now (a_events a1)).2 (a_next a1) (a_world a1))
    (abs_exec client now act (mk_aq q n w))
    (abs_exec client now act (mk_aq (split_due now q).2 n w)).
Proof.
  intros Hlate Hs. unfold abs_exec. cbn [a_events a_next a_world].
  destruct (act_world act w) as [m|].
  - eapply orel_bind; [apply orel_eq|]. by intros w1 ? _ _ <-.
  - destruct act; cbn; [done..|]. eapply orel_bind; [apply orel_eq|].
    intros [w1 evs] ? Hc _ <-. apply Hlate in Hc. cbn. clear -Hc Hs.
    revert q n Hs. induction Hc as [|[t act] evs Ht _ IH]; intros q n Hs; cbn; [done|].
    cbn in Ht. unfold abs_queue. cbn.
    pose proof (split_due_insert now (mk_event t n act) q Ht Hs) as Hi.
    specialize (IH (insert_event (mk_event t n act) q) (u32 (n + 1)) (insert_event_sorted _ _ Hs)).
    rewrite Hi in IH. exact IH.
Qed.

Lemma eventq_service_refines now pl : forall fuel s fl,
  eventq_repr s pl fl -> eventq_room s -> queues_later now ->
  (length (split_due now (pl.*2)).1 < fuel)%nat ->
  orel (fun s' a' => eventq_abs s' a' /\ eventq_room s')
    (eventq_service_events (client_callback client) fuel now s)
    (abs_service client now (mk_aq (pl.*2) (next_ID s) (ev_world s))).
Proof.
  intros fuel. revert pl. induction fuel as [|fuel IH]; intros pl s fl Hr Hroom Hlate Hf; [lia|].
  cbn [eventq_service_events]. unfold abs_service. cbn [a_events a_next a_world].
  destruct pl as [|[a e] pl].
  { pose proof (repr_pending _ _ _ Hr) as Hp. cbn in Hp. rewrite Hp. cbn.
    split; [by exists [], fl|done]. }
  pose proof (repr_pending _ _ _ Hr) as (Hp & d & Hd & <- & Hc). rewrite Hp, (c_get_some _ _ _ Hd).
  cbn [mbind outcome_bind]. cbn [fmap list_fmap snd split_due e_when event_of] in Hf |- *.
  destruct (ev_when d <=? now) eqn:En; [|cbn; split; [by eexists _, fl|done]].
  destruct (split_due now pl.*2) as [due rest] eqn:Ed. cbn [exec_all]. cbn in Hf.
  assert (Hs : StronglySorted by_time (pl.*2)) by (pose proof (repr_sorted _ _ _ Hr) as Hs; by inversion Hs).
  change (e_action (event_of d)) with (ev_action d).
  eapply orel_bind.
  { eapply orel_trans; [apply (EXECUTE_ACTION_refines (ev_action d) now s [(a, event_of d)] pl fl)|].
    - done.
    - done.
    - done.
    - repeat constructor. cbn. lia.
    - replace rest with (split_due now pl.*2).2 by (by rewrite Ed). by apply abs_exec_rest. }
  intros s2 a2 _ _ (a1 & (p2 & fl2 & Hr2 & Hroom2 & _ & ->) & Hs2 & Hdue & ->). cbn in Hdue, Hs2.
  destruct Hr2 as [(Hp2 & d2 & Hd2 & _ & Hc2) Hf2 Hnd2 _].
  rewrite (c_get_some _ _ _ Hd2). cbn [mbind outcome_bind].
  destruct (free_event_spec (s2 <| eventq_pending := ev_next d2 |>) a p2 fl2)
    as (s3 & -> & [fl3 Hr3] & Hid3 & Hw3 & Hroom3); [|done|by eexists|].
  { constructor; [done|done| |done]. cbn in Hnd2. by apply NoDup_cons in Hnd2 as [_ ?]. }
  cbn [mbind outcome_bind].
  specialize (IH p2 s3 fl3 Hr3 (Hroom3 Hroom2) Hlate). unfold abs_service in IH.
  cbn [a_events a_next a_world] in IH. rewrite Ed in Hdue. cbn in Hdue.
  cbn [a_events a_next a_world]. destruct (split_due now p2.*2) as [due2 rest2]. cbn in Hdue, IH |- *. subst due2.
  rewrite Hid3, Hw3 in IH. apply IH. lia.
Qed.

(** ** Servicing, whatever callbacks queue *)

Lemma cut_at_before when p1 x p2 : when <= e_when x.2 ->
  cut_at when (p1 ++ x :: p2) = ((cut_at when p1).1, (cut_at when p1).2 ++ x :: p2).
Proof.
  intros Hx. induction p1 as [|y p1 IH]; cbn; [by rewrite (proj2 (Z.ltb_ge _ _))|].
  destruct (_ <? _); [|done]. rewrite IH. by destruct (cut_at when p1).
Qed.

Lemma sorted_before p1 (x : nat * event) p2 : StronglySorted by_time (p1 ++ x :: p2).*2 ->
  Forall (fun y => e_when y.2 <= e_when x.2) p1.
Proof.
  rewrite fmap_app. cbn [fmap list_fmap]. intros H. induction p1 as [|y p1 IH]; constructor; cbn in H; inversion H as [|? ? Hs Hy]; subst; [|auto].
  apply Forall_app in Hy as [_ Hy]. by apply List.Forall_inv in Hy.
Qed.

(** The events that are queued go in front of the event that is serviced, where they
    are lost, or behind it. *)
Lemma queue_all_loses evs : forall s p1 x p2 fl,
  eventq_repr s (p1 ++ x :: p2) fl -> eventq_room s ->
  exists s' p1' p2' fl', queue_all evs s = Ok s' /\ eventq_repr s' (p1' ++ x :: p2') fl' /\ eventq_room s' /\
    mk_aq (p2'.*2) (next_ID s') (ev_world s') =
      fold_left (fun a w => abs_queue_later (e_when x.2) w a) evs (mk_aq (p2.*2) (next_ID s) (ev_world s)).
Proof.
  induction evs as [|[w act] evs IH]; intros s p1 x p2 fl Hr Hroom; cbn [queue_all fold_left]; [by exists s, p1, p2, fl|].
  destruct (QUEUE_EVENT_spec w act s _ _ Hr Hroom) as (new & s1 & fl1 & Hq & Hr1 & _ & Hid & Hwd & Hroom1 & _). cbv zeta in *.
  rewrite Hq. cbn [mbind outcome_bind]. unfold abs_queue_later at 2. cbn [fst a_events a_next a_world].
  destruct (Z.ltb_spec (e_when x.2) w) as [Hlt|Hge].
  - rewrite (cons_middle x), app_assoc, cut_at_after in Hr1.
    2: { apply Forall_app. split; [|by constructor].
         eapply Forall_impl; [apply (sorted_before p1 x p2), Hr|]. cbn. lia. }
    cbn [fst snd] in Hr1. rewrite <- !app_assoc in Hr1. cbn [app] in Hr1.
    destruct (IH _ _ _ _ _ Hr1 Hroom1) as (s' & p1' & p2' & fl' & Hq' & Hr' & Hroom' & Ha).
    exists s', p1', p2', fl'. do 3 (split; [done|]). rewrite Ha. f_equal. unfold abs_queue. cbn [fst snd a_events a_next a_world].
    rewrite Hid, Hwd. f_equal. by apply cut_at_insert.
  - rewrite cut_at_before in Hr1 by done. cbn [fst snd] in Hr1. rewrite app_comm_cons, app_assoc in Hr1.
    destruct (IH _ _ _ _ _ Hr1 Hroom1) as (s' & p1' & p2' & fl' & Hq' & Hr' & Hroom' & Ha).
    exists s', p1', p2', fl'. do 3 (split; [done|]). by rewrite Ha, Hid, Hwd.
Qed.

Lemma EXECUTE_ACTION_performs now s x p2 fl :
  eventq_repr s (x :: p2) fl -> eventq_room s ->
  orel (fun s' a' => exists p1' p2' fl', eventq_repr s' (p1' ++ x :: p2') fl' /\ eventq_room s' /\
          a' = mk_aq (p2'.*2) (next_ID s') (ev_world s'))
    (EXECUTE_ACTION (client_callback client) (e_action x.2) now s)
    (abs_perform client now x.2 (mk_aq (p2.*2) (next_ID s) (ev_world s))).
Proof.
  intros Hr Hroom. unfold EXECUTE_ACTION, abs_perform. cbn [a_events a_next a_world].
  destruct (act_world (e_action x.2) (ev_world s)) as [m|] eqn:Em.
  - eapply orel_bind; [apply orel_eq|]. intros w ? _ _ <-. cbn. exists [], p2, fl. split; [by destruct Hr|done].
  - destruct (e_action x.2) as [| | | |fn arg]; cbn; [done..|]. unfold client_callback.
    eapply orel_bind; [apply orel_eq|]. intros [w evs] ? Hc _ <-.
    destruct (queue_all_loses evs (s <| ev_world := w |>) [] x p2 fl) as (s' & p1' & p2' & fl' & -> & Hr' & Hroom' & Ha);
      [by destruct Hr|done|].
    cbn. exists p1', p2', fl'. split; [done|]. split; [done|]. symmetry. exact Ha.
Qed.

Lemma eventq_service_each_refines now : forall fuel s pl fl,
  eventq_repr s pl fl -> eventq_room s ->
  orel (fun s' a' => eventq_abs s' a' /\ eventq_room s')
    (eventq_service_events (client_callback client) fuel now s)
    (abs_service_each client fuel now (mk_aq (pl.*2) (next_ID s) (ev_world s))).
Proof.
  induction fuel as [|fuel IH]; intros s pl fl Hr Hroom; [done|].
  cbn [eventq_service_events abs_service_each]. cbn [a_events a_next a_world].
  destruct pl as [|[a e] pl].
  { pose proof (repr_pending _ _ _ Hr) as Hp. cbn in Hp. rewrite Hp. cbn. split; [by exists [], fl|done]. }
  pose proof (repr_pending _ _ _ Hr) as (Hp & d & Hd & <- & Hc). rewrite Hp, (c_get_some _ _ _ Hd).
  cbn [mbind outcome_bind]. cbn [fmap list_fmap snd e_when event_of].
  destruct (ev_when d <=? now) eqn:En; [|cbn; split; [by eexists _, fl|done]].
  eapply orel_bind; [apply (EXECUTE_ACTION_performs now s (a, event_of d) pl fl Hr Hroom)|].
  intros s2 a2 _ _ (p1 & p2 & fl2 & [Hp2 Hf2 Hnd2 Hs2] & Hroom2 & ->).
  assert (is_Some (ev_descs s2 !! a)) as [d2 Hd2].
  { apply (chain_dom _ _ _ Hp2). rewrite fmap_app, elem_of_app. right. by left. }
  destruct (chain_cell _ _ _ _ _ _ _ Hp2 Hd2) as [Hnext _].
  rewrite (c_get_some _ _ _ Hd2). cbn [mbind outcome_bind]. rewrite Hnext.
  rewrite fmap_app, <- app_assoc in Hnd2. apply NoDup_app in Hnd2 as (_ & _ & Hnd2). cbn in Hnd2.
  destruct (free_event_spec (s2 <| eventq_pending := chain_head p2 |>) a p2 fl2)
    as (s3 & -> & [fl3 Hr3] & Hid3 & Hw3 & Hroom3); [|done|by eexists|].
  { constructor; cbn; [|done|by apply NoDup_cons in Hnd2 as [_ ?]|].
    - apply (chain_app _ (eventq_pending s2) (p1 ++ [(a, event_of d)])). by rewrite <- app_assoc.
    - rewrite fmap_app in Hs2. cbn in Hs2. clear -Hs2. induction p1 as [|y p1 IH]; cbn in Hs2; inversion Hs2; auto. }
  cbn [mbind outcome_bind]. specialize (IH s3 p2 fl3 Hr3 (Hroom3 Hroom2)). rewrite Hid3, Hw3 in IH. exact IH.
Qed.

End Refinement.
