(* ===== verification/EventqProps.v ===== *)
(** What eventq.c guarantees: any sequence of calls behaves as the abstract
    time ordered queue, and the limits of servicing with callbacks. *)

From Stdlib Require Import Sorting.Sorted.
From S2P Require Import Prelude Bitmap Eventq EventqRefine.

(** The calls of the interface (the five eventq_queue functions as one). *)
Inductive eventq_op :=
| OpQueue (when : Z) (act : eventq_action)
| OpRemove (id : Z)
| OpExecute (id : Z)
| OpService (now : Z).

Section Runs.
Variable client : nat -> Z -> Z -> world -> outcome (world * list (Z * eventq_action)).

(** One call: its result and the new state. [fuel] bounds the loop of servicing, and
    [service] is what servicing means. *)
Definition eventq_step (fuel : eventq -> nat) (op : eventq_op) (s : eventq) : outcome (Z * eventq) :=
  match op with
  | OpQueue when act => QUEUE_EVENT when act s
  | OpRemove id => '(b, s) ← eventq_remove id s; Ok (b2z b, s)
  | OpExecute id => '(b, s) ← eventq_execute (client_callback client) id s; Ok (b2z b, s)
  | OpService now =>
      s ← eventq_service_events (client_callback client) (fuel s) now s; Ok (0, s)
  end.

Definition abs_step (service : Z -> aq -> outcome aq) (op : eventq_op) (a : aq) : outcome (Z * aq) :=
  match op with
  | OpQueue when act => Ok (a_next a, abs_queue (when, act) a)
  | OpRemove id => Ok (b2z (abs_remove id a).1, (abs_remove id a).2)
  | OpExecute id => '(b, a) ← abs_execute client id a; Ok (b2z b, a)
  | OpService now => a ← service now a; Ok (0, a)
  end.

Definition run {S : Type} (step : eventq_op -> S -> outcome (Z * S)) : list eventq_op -> S -> outcome (list Z * S) :=
  fix run (ops : list eventq_op) (s : S) : outcome (list Z * S) :=
    match ops with
    | [] => Ok ([], s)
    | op :: ops => '(r, s) ← step op s; '(rs, s) ← run ops s; Ok (r :: rs, s)
    end.

Definition run_rel (r : list Z * eventq) (ra : list Z * aq) : Prop :=
  r.1 = ra.1 /\ eventq_abs r.2 ra.2 /\ eventq_room r.2.

Lemma split_due_length now q : (length (split_due now q).1 <= length q)%nat.
Proof.
  induction q as [|e q IH]; cbn; [lia|]. destruct (_ <=? _); cbn; [|lia].
  destruct (split_due now q). cbn in *. lia.
Qed.

Lemma eventq_step_refines fuel service op s a :
  (forall now s a, op = OpService now -> eventq_abs s a -> eventq_room s ->
    orel (fun s' a' => eventq_abs s' a' /\ eventq_room s') (eventq_service_events (client_callback client) (fuel s) now s) (service now a)) ->
  eventq_abs s a -> eventq_room s ->
  orel (fun r ra => r.1 = ra.1 /\ eventq_abs r.2 ra.2 /\ eventq_room r.2)
    (eventq_step fuel op s) (abs_step service op a).
Proof.
  intros Hserv (pl & fl & Hr & ->) Hroom. destruct op as [when act|id|id|now]; unfold eventq_step, abs_step.
  - cbn [orel]. destruct (QUEUE_EVENT_spec when act s _ _ Hr Hroom) as (new & s' & fl' & -> & Hr' & Hv & Hid & Hw & Hroom' & _).
    cbn. split; [done|]. split; [|done]. eexists _, _. split; [exact Hr'|].
    unfold abs_queue. cbn [a_events a_next a_world fst snd]. by rewrite Hv, Hid, Hw.
  - destruct (eventq_remove_refines id s pl fl Hr Hroom) as (s1 & -> & Ha & Hroom1); done.
  - eapply orel_bind; [by apply (eventq_execute_refines client id s pl fl)|].
    intros [b s'] [b' a'] _ _ (H1 & H2 & H3). cbn in *. by subst.
  - eapply orel_bind; [apply (Hserv now s); [done|by eexists _, _|done]|]. by intros s' a' _ _ [H1 H2].
Qed.

Lemma eventq_run_rel fuel service ops :
  (forall now s a, OpService now ∈ ops -> eventq_abs s a -> eventq_room s ->
    orel (fun s' a' => eventq_abs s' a' /\ eventq_room s') (eventq_service_events (client_callback client) (fuel s) now s) (service now a)) ->
  forall s a, eventq_abs s a -> eventq_room s -> orel run_rel (run (eventq_step fuel) ops s) (run (abs_step service) ops a).
Proof.
  induction ops as [|op ops IH]; intros Hserv s a Ha Hroom; cbn; [done|].
  eapply orel_bind; [apply eventq_step_refines; [intros now s' a' ->; apply Hserv; by left|done..]|].
  intros [r s'] [r' a'] _ _ (H1 & H2 & H3). cbn in *. subst.
  eapply orel_bind; [apply IH; [intros now s2 a2 Hin; apply Hserv; by right|done..]|].
  intros [rs s2] [rs' a2] _ _ (H4 & H5 & H6). cbn in *. by subst.
Qed.

Lemma eventq_start_abs max_events w : 0 <= max_events ->
  eventq_abs (eventq_init max_events (eventq_start w)) (mk_aq [] 1 w) /\ eventq_room (eventq_init max_events (eventq_start w)).
Proof. intros H. split; [|done]. exists [], []. split; [|done]. constructor; cbn; [done|done|constructor|constructor]. Qed.

End Runs.

(** C14: Any sequence of calls of eventq.c returns what the abstract queue
    returns and leaves the same events pending and the clients' variables the
    same: an abstract queue is a list sorted by time, queueing inserts before
    the events of the same time, removing deletes the event with the ID, and
    servicing performs the due events one by one in order.  Callbacks change
    their client's variables and queue events: an event that a callback queues
    for a later time than that of the event being serviced is queued (and
    performed in its turn, if it is due), one for the same time or an earlier
    one is lost.  If the callbacks queue only events later than the time up to
    which is serviced, servicing ends after no more events than there are
    descriptors and is the same as taking all due events off first.  The
    limit on the number of pending events, which eventq.h promises to
    [eventq_init], is not enforced: queueing succeeds whatever it is. *)
Theorem eventq_implements_time_ordered_queue (client : nat -> Z -> Z -> world -> outcome (world * list (Z * eventq_action)))
    (ops : list eventq_op) (max_events : Z) (w : world) :
  0 <= max_events ->
  (forall n, orel run_rel (run (eventq_step client (fun _ => n)) ops (eventq_init max_events (eventq_start w)))
    (run (abs_step client (abs_service_each client n)) ops (mk_aq [] 1 w))) /\
  ((forall now, OpService now ∈ ops -> queues_later client now) ->
   orel run_rel (run (eventq_step client (fun s => S (length (ev_descs s)))) ops (eventq_init max_events (eventq_start w)))
    (run (abs_step client (abs_service client)) ops (mk_aq [] 1 w))).
Proof.
  intros Hmax. destruct (eventq_start_abs max_events w Hmax) as [Ha Hroom]. split.
  - intros n. apply eventq_run_rel; [|done..]. intros now s a _ (pl & fl & Hr & ->) Hrm.
    by apply (eventq_service_each_refines client now n s pl fl).
  - intros Hlate. apply eventq_run_rel; [|done..]. intros now s a Hin (pl & fl & Hr & ->) Hrm.
    apply (eventq_service_refines client now pl _ s fl Hr Hrm); [by apply Hlate|].
    pose proof (split_due_length now pl.*2) as Hl. rewrite length_fmap in Hl.
    pose proof (repr_length _ _ _ Hr). lia.
Qed.

(** A client that adds its argument to variable 0 and asks to be called again
    five cycles later, until cycle 20. *)
Definition ticking_client (fn : nat) (now arg : Z) (w : world) : outcome (world * list (Z * eventq_action)) :=
  ints ← c_upd (w_ints w) 0 (fun x => x + arg);
  Ok (w <| w_ints := ints |>, if now <? 20 then [(now + 5, EventCallback fn arg)] else []).

Definition example_ops : list eventq_op :=
  [OpQueue 7 (EventAddOp 1 4); OpQueue 3 (EventCallback 0 1); OpQueue 7 (EventSetFlag 1 50);
   OpQueue 9 (EventSetBit 0 33); OpRemove 4; OpService 8; OpService 9; OpExecute 5; OpRemove 77].
Definition example_world : world := mk_world [[0; 0]] [0; 10].

(** The first servicing queues a tick for 13, which the one until 15 performs, with
    one for 20 left. *)
Lemma eventq_implements_time_ordered_queue_witness :
  (orel run_rel (run (eventq_step ticking_client (fun _ => 10%nat)) (example_ops ++ [OpService 15]) (eventq_init 2 (eventq_start example_world)))
     (run (abs_step ticking_client (abs_service_each ticking_client 10)) (example_ops ++ [OpService 15]) (mk_aq [] 1 example_world))) /\
  fst <$> (match run (abs_step ticking_client (abs_service_each ticking_client 10)) (example_ops ++ [OpService 15]) (mk_aq [] 1 example_world) with
           | Ok r => Some r | _ => None end)
    = Some [1; 2; 3; 4; 1; 0; 0; 1; 0; 0].
Proof.
  split; [|vm_compute; reflexivity].
  exact (proj1 (eventq_implements_time_ordered_queue ticking_client (example_ops ++ [OpService 15]) 2 example_world ltac:(lia)) 10%nat).
Defined.

(** A client whose event 0 sets a flag "now": it queues it at the time given. *)
Definition prompt_client (t : Z) (fn : nat) (now arg : Z) (w : world) : outcome (world * list (Z * eventq_action)) :=
  Ok (w, [(t, EventSetFlag 0 1)]).

(** an event that a callback queues at or before the time of the event
    being serviced is lost: it is linked in front of that event, and taking
    that event off the list takes it off too; it is never performed, is not
    pending and its descriptor is not free. *)
Theorem eventq_same_time_event_lost (t u now : Z) :
  u <= t -> t <= now ->
  exists s, run (eventq_step (prompt_client u) (fun _ => 3%nat)) [OpQueue t (EventCallback 0 0); OpService now]
              (eventq_init 0 (eventq_start (mk_world [] [0]))) = Ok ([1; 0], s) /\
    eventq_pending s = None /\ eventq_free s = Some 0%nat /\ length (ev_descs s) = 2%nat /\
    w_ints (ev_world s) = [0].
Proof.
  intros Hu Ht. cbn -[Z.leb Z.ltb]. rewrite (proj2 (Z.leb_le t now)) by done. cbn -[Z.leb Z.ltb].
  rewrite (proj2 (Z.ltb_ge t u)) by done. cbn. by eexists.
Qed.

Lemma eventq_same_time_event_lost_witness :
  exists s, run (eventq_step (prompt_client 5) (fun _ => 3%nat)) [OpQueue 5 (EventCallback 0 0); OpService 5]
              (eventq_init 0 (eventq_start (mk_world [] [0]))) = Ok ([1; 0], s) /\
    eventq_pending s = None /\ eventq_free s = Some 0%nat /\ length (ev_descs s) = 2%nat /\
    w_ints (ev_world s) = [0].
Proof. apply (eventq_same_time_event_lost 5 5 5); lia. Defined.

(** The limit given to [eventq_init] is never reached: [eventq_event_count]
    stays zero. *)
Lemma eventq_limit_not_enforced :
  succeeds (run (eventq_step (prompt_client 0) (fun _ => 3%nat)) [OpQueue 1 (EventSetFlag 0 1); OpQueue 2 (EventSetFlag 0 1)]
    (eventq_init 1 (eventq_start (mk_world [] [0])))) = true.
Proof. vm_compute. reflexivity. Qed.
