(* ===== verification/Resource.v ===== *)
(** resource.c and resource.h: pools of functional units.

    A unit is an index of the instance table, a template (unit, position in
    its list [x]); the [master] link of a template is an index too.  The time
    fields are ints, [busy] counts down in sim-outorder. *)

From Stdlib Require Import Strings.String.
From S2P Require Import Prelude Isa.

Definition MAX_RES_CLASSES : nat := 16.
Definition MAX_INSTS_PER_CLASS : nat := 8.

(** [struct res_template]. *)
Record res_template := mk_template {
  rt_class : Z;
  oplat : Z;
  issuelat : Z;
  master : option nat;
}.
#[global] Instance eta_res_template : Eta res_template :=
  mk_eta (fun t => mk_template (rt_class t) (oplat t) (issuelat t) (master t)).

(** [struct res_desc]. *)
Record res_desc := mk_res_desc {
  rd_name : string;
  quantity : Z;
  busy : Z;
  x : list res_template;
}.
#[global] Instance eta_res_desc : Eta res_desc :=
  mk_eta (fun d => mk_res_desc (rd_name d) (quantity d) (busy d) (x d)).

(** [struct res_pool]. *)
Record res_pool := mk_res_pool {
  rp_name : string;
  num_resources : Z;
  resources : list res_desc;
  nents : list nat;
  table : list (list (option (nat * nat)));
}.
#[global] Instance eta_res_pool : Eta res_pool :=
  mk_eta (fun p => mk_res_pool (rp_name p) (num_resources p) (resources p) (nents p) (table p)).

(** Cleared storage, and an initializer list padded with it. *)
Definition no_template : res_template := mk_template 0 0 0 None.
Definition no_res_desc : res_desc := mk_res_desc "" 0 0 (repeat no_template MAX_RES_CLASSES).
Definition templates (l : list (Z * Z * Z)) : list res_template :=
  map (fun '(c, o, i) => mk_template c o i None) l ++ repeat no_template (MAX_RES_CLASSES - List.length l).

(** "count total instances" *)
Fixpoint count_instances (pool : list res_desc) (ninsts : Z) : outcome Z :=
  match pool with
  | [] => Ok ninsts
  | d :: pool' =>
      _ ← fatal_if (Z.of_nat MAX_INSTS_PER_CLASS <? quantity d);
      count_instances pool' (ninsts + quantity d)
  end.

(** The loop that sets the master links, up to the first unused template. *)
Fixpoint set_masters (index : nat) (x : list res_template) : list res_template :=
  match x with
  | [] => []
  | t :: x' => if rt_class t =? 0 then x else (t <| master := Some index |>) :: set_masters index x'
  end.

Definition res_instance (d : res_desc) (index : nat) : res_desc :=
  d <| quantity := 1 |> <| busy := 0 |> <| x := set_masters index (x d) |>.

(** "fill in the instance table": the copies of one descriptor, of all. *)
Fixpoint fill_copies (d : res_desc) (n index : nat) (inst_pool : list res_desc) : outcome (nat * list res_desc) :=
  match n with
  | O => Ok (index, inst_pool)
  | S n' =>
      inst_pool ← c_upd inst_pool index (fun _ => res_instance d index);
      fill_copies d n' (S index) inst_pool
  end.

Fixpoint fill_instances (pool : list res_desc) (index : nat) (inst_pool : list res_desc)
    : outcome (nat * list res_desc) :=
  match pool with
  | [] => Ok (index, inst_pool)
  | d :: pool' =>
      '(index, inst_pool) ← fill_copies d (Z.to_nat (quantity d)) index inst_pool;
      fill_instances pool' index inst_pool
  end.

(** "fill in the resource table map": the templates of one unit, of all. *)
Fixpoint map_templates (i j : nat) (xs : list res_template) (res : res_pool) : outcome res_pool :=
  match xs with
  | [] => Ok res
  | plate :: xs' =>
      if rt_class plate =? 0 then Ok res
      else
        _ ← c_assert (rt_class plate <? Z.of_nat MAX_RES_CLASSES);
        if rt_class plate <? 0 then Undef
        else
          let c := Z.to_nat (rt_class plate) in
          n ← c_get (nents res) c;
          row ← c_get (table res) c;
          row ← c_upd row n (fun _ => Some (i, j));
          map_templates i (S j) xs'
            (res <| nents ::= <[c := S n]> |> <| table ::= <[c := row]> |>)
  end.

Fixpoint map_instances (i : nat) (insts : list res_desc) (res : res_pool) : outcome res_pool :=
  match insts with
  | [] => Ok res
  | d :: insts' => res ← map_templates i 0 (x d) res; map_instances (S i) insts' res
  end.

(** [res_create_pool]; calloc of a negative count fails. *)
Definition res_create_pool (name : string) (pool : list res_desc) : outcome res_pool :=
  ninsts ← count_instances pool 0;
  _ ← fatal_if (ninsts <? 0);
  '(index, inst_pool) ← fill_instances pool 0 (repeat no_res_desc (Z.to_nat ninsts));
  _ ← c_assert (Z.of_nat index =? ninsts);
  map_instances 0 inst_pool
    (mk_res_pool name ninsts inst_pool (repeat 0%nat MAX_RES_CLASSES)
       (repeat (repeat None MAX_INSTS_PER_CLASS) MAX_RES_CLASSES)).

(** The template a table entry points to. *)
Definition get_template (pool : res_pool) (p : nat * nat) : outcome res_template :=
  d ← c_get (resources pool) p.1; c_get (x d) p.2.

(** The loop of [res_get] over the entries of a row. *)
Fixpoint scan_row (pool : res_pool) (row : list (option (nat * nat))) : outcome (option (nat * nat)) :=
  match row with
  | [] | None :: _ => Ok None
  | Some p :: row' =>
      t ← get_template pool p;
      m ← deref (master t);
      d ← c_get (resources pool) m;
      if busy d =? 0 then Ok (Some p) else scan_row pool row'
  end.

(** [res_get]: a pointer to the template, or NULL. *)
Definition res_get (pool : res_pool) (class : Z) : outcome (option (nat * nat)) :=
  _ ← c_assert (class <? Z.of_nat MAX_RES_CLASSES);
  if class <? 0 then Undef
  else
    row ← c_get (table pool) (Z.to_nat class);
    first ← c_get row 0;
    _ ← c_assert (bool_decide (is_Some first));
    scan_row pool row.

(** The assertions of [res_dump]: every row has exactly [nents] entries. *)
Fixpoint row_entries (row : list (option (nat * nat))) : nat :=
  match row with Some _ :: row' => S (row_entries row') | _ => 0 end.

Fixpoint res_dump_asserts (nents : list nat) (table : list (list (option (nat * nat)))) : outcome unit :=
  match nents, table with
  | n :: nents', row :: table' =>
      _ ← c_assert (row_entries row =? n)%nat; res_dump_asserts nents' table'
  | _, _ => Ok tt
  end.
Definition res_dump (pool : res_pool) : outcome unit := res_dump_asserts (nents pool) (table pool).

(** sim-outorder.c, [ruu_release_fu]: "walk all resource units, decrement busy
    counts by one". *)
Definition ruu_release_fu (pool : res_pool) : res_pool :=
  pool <| resources ::= map (fun d => if 0 <? busy d then d <| busy := busy d - 1 |> else d) |>.

(** sim-outorder.c, what [ruu_issue] and [ruu_commit] do with the unit: reserve
    it for the issue latency. *)
Definition res_reserve (pool : res_pool) (p : nat * nat) : outcome res_pool :=
  t ← get_template pool p;
  m ← deref (master t);
  d ← c_get (resources pool) m;
  if truth (busy d) then Panic
  else Ok (pool <| resources ::= <[m := d <| busy := issuelat t |>]> |>).

(** * The functional units of sim-outorder *)

(** The values of [enum ss_fu_class]. *)
Definition fu_class_val (c : ss_fu_class) : Z :=
  match c with
  | FUClass_NA => 0 | IntALU => 1 | IntMULT => 2 | IntDIV => 3 | FloatADD => 4 | FloatCMP => 5
  | FloatCVT => 6 | FloatMULT => 7 | FloatDIV => 8 | FloatSQRT => 9 | RdPort => 10 | WrPort => 11
  end.

(** sim-outorder.c, [fu_config], with the quantities the options set. *)
Definition fu_config (res_ialu res_imult res_memport res_fpalu res_fpmult : Z) : list res_desc :=
  let v := fu_class_val in
  [mk_res_desc "integer-ALU" res_ialu 0 (templates [(v IntALU, 1, 1)]);
   mk_res_desc "integer-MULT/DIV" res_imult 0 (templates [(v IntMULT, 3, 1); (v IntDIV, 20, 19)]);
   mk_res_desc "memory-port" res_memport 0 (templates [(v RdPort, 1, 1); (v WrPort, 1, 1)]);
   mk_res_desc "FP-adder" res_fpalu 0
     (templates [(v FloatADD, 2, 1); (v FloatCMP, 2, 1); (v FloatCVT, 2, 1)]);
   mk_res_desc "FP-MULT/DIV" res_fpmult 0
     (templates [(v FloatMULT, 4, 1); (v FloatDIV, 12, 12); (v FloatSQRT, 24, 24)])].
