(* ===== verification/ResourceProps.v ===== *)
(** What resource.c guarantees: which pools can be created, what [res_get]
    answers, and how long a unit stays reserved. *)

From Stdlib Require Import Strings.String.
From S2P Require Import Prelude Isa Resource.

(** * The instances of a pool *)

(** The templates in use, up to the first unused one. *)
Fixpoint used (xs : list res_template) : list res_template :=
  match xs with
  | [] => []
  | t :: xs' => if rt_class t =? 0 then [] else t :: used xs'
  end.

Fixpoint instances (pool : list res_desc) (i : nat) : list res_desc :=
  match pool with
  | [] => []
  | d :: pool' =>
      let q := Z.to_nat (quantity d) in
      map (res_instance d) (seq i q) ++ instances pool' (i + q)
  end.

(** The templates of a class, in table order. *)
Fixpoint unit_entries (i j : nat) (xs : list res_template) (c : nat) : list (nat * nat) :=
  match xs with
  | [] => []
  | t :: xs' =>
      if rt_class t =? 0 then []
      else (if (Z.to_nat (rt_class t) =? c)%nat then [(i, j)] else []) ++ unit_entries i (S j) xs' c
  end.

Fixpoint class_entries (i : nat) (insts : list res_desc) (c : nat) : list (nat * nat) :=
  match insts with
  | [] => []
  | d :: insts' => unit_entries i 0 (x d) c ++ class_entries (S i) insts' c
  end.

Definition class_in_range (t : res_template) : Prop := 0 < rt_class t < Z.of_nat MAX_RES_CLASSES.

(** The descriptors [res_create_pool] can work with. *)
Record pool_config (pool : list res_desc) : Prop := mk_pool_config {
  cfg_quantity : Forall (fun d => 0 <= quantity d <= Z.of_nat MAX_INSTS_PER_CLASS) pool;
  cfg_classes : Forall (fun d => Forall class_in_range (used (x d))) pool;
  cfg_room : forall c, (List.length (class_entries 0 (instances pool 0) c) <= MAX_INSTS_PER_CLASS)%nat;
}.

(** * The invariant of a pool *)

Definition row_of (es : list (nat * nat)) : list (option (nat * nat)) :=
  map Some es ++ repeat None (MAX_INSTS_PER_CLASS - List.length es).

Definition has_template (insts : list res_desc) (c : nat) (p : nat * nat) : Prop :=
  exists d t, insts !! p.1 = Some d /\ used (x d) !! p.2 = Some t /\ rt_class t = Z.of_nat c.

Definition class_row (pool : res_pool) (c : nat) (es : list (nat * nat)) : Prop :=
  table pool !! c = Some (row_of es) /\ nents pool !! c = Some (List.length es) /\
  (List.length es <= MAX_INSTS_PER_CLASS)%nat.

Record pool_wf (pool : res_pool) : Prop := mk_pool_wf {
  wf_rows : forall c, (c < MAX_RES_CLASSES)%nat -> exists es, class_row pool c es /\
    forall p, p ∈ es <-> has_template (resources pool) c p /\ c <> O;
  wf_masters : forall i d, resources pool !! i = Some d ->
    Forall (fun t => master t = Some i) (used (x d));
  wf_busy : Forall (fun d => 0 <= busy d) (resources pool);
}.

(** * Creation *)

Lemma fill_copies_spec d n : forall pre m,
  fill_copies d n (List.length pre) (pre ++ repeat no_res_desc (n + m)) =
    Ok ((List.length pre + n)%nat, pre ++ map (res_instance d) (seq (List.length pre) n) ++ repeat no_res_desc m).
Proof.
  induction n as [|n IH]; intros pre m; cbn [fill_copies seq map].
  - by rewrite Nat.add_0_r.
  - rewrite (c_upd_insert _ _ _ no_res_desc) by (rewrite lookup_app_r, Nat.sub_diag; done).
    cbn [mbind outcome_bind]. rewrite insert_app_r_alt, Nat.sub_diag by lia. cbn [repeat Nat.add].
    change (<[0%nat := ?a]> (?b :: ?l)) with (a :: l).
    rewrite cons_middle, app_assoc.
    replace (S (List.length pre)) with (List.length (pre ++ [res_instance d (List.length pre)]))
      by (rewrite length_app; cbn; lia).
    rewrite IH, length_app, <- !app_assoc. cbn. do 2 f_equal. lia.
Qed.

Definition total (pool : list res_desc) : nat := list_sum (map (fun d => Z.to_nat (quantity d)) pool).

Lemma fill_instances_spec pool : forall pre m,
  fill_instances pool (List.length pre) (pre ++ repeat no_res_desc (total pool + m)) =
    Ok ((List.length pre + total pool)%nat, pre ++ instances pool (List.length pre) ++ repeat no_res_desc m).
Proof.
  unfold total. induction pool as [|d pool IH]; intros pre m; cbn [fill_instances instances map list_sum fold_right].
  - by rewrite Nat.add_0_r.
  - rewrite <- Nat.add_assoc, fill_copies_spec. cbn [mbind outcome_bind].
    rewrite app_assoc.
    replace (List.length pre + Z.to_nat (quantity d))%nat with
      (List.length (pre ++ map (res_instance d) (seq (List.length pre) (Z.to_nat (quantity d)))))
      by (by rewrite length_app, length_map, length_seq).
    rewrite IH. rewrite !length_app, length_map, length_seq, <- !app_assoc. do 2 f_equal. unfold list_sum. lia.
Qed.

Lemma count_instances_spec pool : forall n,
  Forall (fun d => 0 <= quantity d <= Z.of_nat MAX_INSTS_PER_CLASS) pool ->
  count_instances pool n = Ok (n + Z.of_nat (total pool)).
Proof.
  unfold total. induction pool as [|d pool IH]; intros n H; cbn; [f_equal; lia|].
  apply Forall_cons in H as [Hd H]. rewrite fatal_if_false by (cbn in *; lia).
  cbn [mbind outcome_bind]. rewrite IH by done. f_equal. unfold list_sum. lia.
Qed.

(** The table under construction holds the entries [es]. *)
Definition table_rep (res : res_pool) (es : nat -> list (nat * nat)) : Prop :=
  List.length (table res) = MAX_RES_CLASSES /\ List.length (nents res) = MAX_RES_CLASSES /\
  forall c, (c < MAX_RES_CLASSES)%nat -> class_row res c (es c).

Lemma row_of_snoc es p :
  (List.length es < MAX_INSTS_PER_CLASS)%nat -> <[List.length es := Some p]> (row_of es) = row_of (es ++ [p]).
Proof.
  intros Hl. unfold row_of.
  rewrite insert_app_r_alt by (rewrite length_map; lia).
  rewrite length_map, Nat.sub_diag, map_app, length_app, <- app_assoc.
  destruct (MAX_INSTS_PER_CLASS - List.length es)%nat eqn:E; [lia|].
  cbn [repeat map app List.length]. change (<[0%nat := ?a]> (?b :: ?l)) with (a :: l).
  by replace (MAX_INSTS_PER_CLASS - (List.length es + 1))%nat with n by lia.
Qed.

Lemma map_templates_spec i xs : forall j res es,
  table_rep res es -> Forall class_in_range (used xs) ->
  (forall c, (List.length (es c ++ unit_entries i j xs c) <= MAX_INSTS_PER_CLASS)%nat) ->
  exists res', map_templates i j xs res = Ok res' /\ resources res' = resources res /\
    num_resources res' = num_resources res /\
    table_rep res' (fun c => es c ++ unit_entries i j xs c).
Proof.
  induction xs as [|t xs IH]; intros j res es Hrep Hcl Hroom; cbn in Hcl, Hroom |- *.
  - exists res. do 3 (split; [done|]). destruct Hrep as (H1 & H2 & H3). split; [done|]. split; [done|].
    intros c Hc. rewrite app_nil_r. auto.
  - destruct (rt_class t =? 0).
    { exists res. do 3 (split; [done|]). destruct Hrep as (H1 & H2 & H3). split; [done|]. split; [done|].
      intros c Hc. rewrite app_nil_r. auto. }
    apply Forall_cons in Hcl as [Ht Hcl]. unfold class_in_range in Ht.
    rewrite c_assert_true by lia. cbn [mbind outcome_bind]. rewrite (proj2 (Z.ltb_ge _ _)) by lia.
    destruct Hrep as (H1 & H2 & H3). set (ct := Z.to_nat (rt_class t)).
    assert (Hct : (ct < MAX_RES_CLASSES)%nat) by (unfold ct; lia).
    destruct (H3 ct Hct) as (Hrow & Hn & Hle).
    rewrite (c_get_some _ _ _ Hn), (c_get_some _ _ _ Hrow). cbn [mbind outcome_bind].
    assert (Hlt : (List.length (es ct) < MAX_INSTS_PER_CLASS)%nat).
    { specialize (Hroom ct). fold ct in Hroom. rewrite Nat.eqb_refl, !length_app in Hroom. cbn in Hroom. lia. }
    assert (Hnone : row_of (es ct) !! List.length (es ct) = Some None).
    { unfold row_of. rewrite lookup_app_r, length_map, Nat.sub_diag by (rewrite length_map; lia).
      apply lookup_repeat. lia. }
    rewrite (c_upd_insert _ _ _ None) by done. cbn [mbind outcome_bind]. rewrite row_of_snoc by done.
    
    set (res1 := res <| nents ::= <[ct := S (List.length (es ct))]> |>
      <| table ::= <[ct := row_of (es ct ++ [(i, j)])]> |>).
    destruct (IH (S j) res1 (fun c => es c ++ if (ct =? c)%nat then [(i, j)] else [])) as (res' & Hm & Hr & Hnr & Hrep').
    + split; [cbn; by rewrite length_insert|]. split; [cbn; by rewrite length_insert|].
      intros c Hc. unfold class_row. cbn. destruct (Nat.eqb_spec ct c) as [<-|Hne].
      * rewrite !list_lookup_insert_eq by lia. rewrite length_app. cbn. split; [done|]. split; [f_equal; lia|lia].
      * rewrite !list_lookup_insert_ne by done. rewrite app_nil_r. by apply H3.
    + done.
    + intros c. rewrite <- app_assoc. apply Hroom.
    + exists res'. do 3 (split; [done|]). destruct Hrep' as (R1 & R2 & R3).
      split; [done|]. split; [done|]. intros c Hc. rewrite app_assoc. by apply R3.
Qed.

Lemma map_instances_spec insts : forall i res es,
  table_rep res es -> Forall (fun d => Forall class_in_range (used (x d))) insts ->
  (forall c, (List.length (es c ++ class_entries i insts c) <= MAX_INSTS_PER_CLASS)%nat) ->
  exists res', map_instances i insts res = Ok res' /\ resources res' = resources res /\
    num_resources res' = num_resources res /\
    table_rep res' (fun c => es c ++ class_entries i insts c).
Proof.
  induction insts as [|d insts IH]; intros i res es Hrep Hcl Hroom; cbn in Hroom |- *.
  - exists res. do 3 (split; [done|]). destruct Hrep as (H1 & H2 & H3). split; [done|]. split; [done|].
    intros c Hc. rewrite app_nil_r. auto.
  - apply Forall_cons in Hcl as [Hd Hcl].
    destruct (map_templates_spec i (x d) 0 res es Hrep Hd) as (res1 & -> & Hr1 & Hn1 & Hrep1).
    { intros c. specialize (Hroom c). rewrite !length_app in *. lia. }
    cbn [mbind outcome_bind].
    destruct (IH (S i) res1 _ Hrep1 Hcl) as (res' & -> & Hr' & Hn' & Hrep').
    { intros c. rewrite <- app_assoc. apply Hroom. }
    exists res'. split; [done|]. split; [congruence|]. split; [congruence|].
    destruct Hrep' as (R1 & R2 & R3). split; [done|]. split; [done|].
    intros c Hc. rewrite app_assoc. by apply R3.
Qed.

Lemma unit_entries_spec i j xs c p :
  Forall class_in_range (used xs) ->
  p ∈ unit_entries i j xs c <->
    p.1 = i /\ exists k t, p.2 = (j + k)%nat /\ used xs !! k = Some t /\ rt_class t = Z.of_nat c.
Proof.
  revert j. induction xs as [|t xs IH]; intros j Hcl; cbn in Hcl |- *.
  - split; [intros H; by apply elem_of_nil in H|]. intros (_ & k & t & _ & H & _). done.
  - destruct (rt_class t =? 0).
    { split; [intros H; by apply elem_of_nil in H|]. intros (_ & k & t' & _ & H & _). done. }
    apply Forall_cons in Hcl as [Ht Hcl]. unfold class_in_range in Ht.
    rewrite elem_of_app, IH by done. split.
    + intros [H|(H1 & k & t' & H2 & H3 & H4)].
      * destruct (Nat.eqb_spec (Z.to_nat (rt_class t)) c); [|by apply elem_of_nil in H].
        apply list_elem_of_singleton in H as ->. split; [done|]. exists O, t. cbn. split; [lia|]. split; [done|lia].
      * split; [done|]. exists (S k), t'. split; [lia|done].
    + intros (H1 & [|k] & t' & H2 & H3 & H4); cbn in H3.
      * injection H3 as <-. left. rewrite (proj2 (Nat.eqb_eq _ _)) by lia.
        apply list_elem_of_singleton. destruct p. cbn in *. f_equal; lia.
      * right. split; [done|]. exists k, t'. split; [lia|done].
Qed.

Lemma class_entries_spec insts c p : forall i,
  Forall (fun d => Forall class_in_range (used (x d))) insts ->
  p ∈ class_entries i insts c <->
    exists k, p.1 = (i + k)%nat /\ has_template insts c (k, p.2).
Proof.
  unfold has_template. induction insts as [|d insts IH]; intros i Hcl; cbn.
  - split; [intros H; by apply elem_of_nil in H|]. intros (k & _ & d & t & H & _). done.
  - apply Forall_cons in Hcl as [Hd Hcl]. rewrite elem_of_app, unit_entries_spec, IH by done. split.
    + intros [(H1 & k & t & H2 & H3 & H4)|(k & H1 & d' & t & H2 & H3 & H4)].
      * exists O. split; [lia|]. exists d, t. cbn. split; [done|]. split; [by rewrite H2|done].
      * exists (S k). split; [lia|]. by exists d', t.
    + intros ([|k] & H1 & d' & t & H2 & H3 & H4); cbn in H2, H3.
      * injection H2 as <-. left. split; [lia|]. exists p.2, t. done.
      * right. exists k. split; [lia|]. by exists d', t.
Qed.

Lemma used_set_masters i xs :
  used (set_masters i xs) = map (fun t => t <| master := Some i |>) (used xs).
Proof. induction xs as [|t xs IH]; cbn; [done|]. destruct (rt_class t =? 0) eqn:E; cbn; rewrite E; [done|]. cbn. by rewrite IH. Qed.

Lemma instances_lookup pool : forall i k u,
  instances pool i !! k = Some u -> exists d, d ∈ pool /\ u = res_instance d (i + k).
Proof.
  induction pool as [|d pool IH]; intros i k u H; cbn in H; [done|].
  apply lookup_app_Some in H as [H|[Hl H]].
  - change (map ?f ?l) with (f <$> l) in H. apply list_lookup_fmap_Some in H as (n & -> & Hn).
    apply lookup_seq in Hn as [-> _]. exists d. split; [by left|done].
  - rewrite length_map, length_seq in Hl, H. apply IH in H as (d' & Hd' & ->). exists d'.
    split; [by right|]. f_equal. lia.
Qed.

Lemma instances_forall (P : res_desc -> Prop) pool :
  (forall d i, d ∈ pool -> P (res_instance d i)) -> Forall P (instances pool 0).
Proof.
  intros H. apply Forall_lookup. intros k u Hu. apply instances_lookup in Hu as (d & Hd & ->). by apply H.
Qed.

Lemma instances_length pool : forall i, List.length (instances pool i) = total pool.
Proof.
  unfold total. induction pool as [|d pool IH]; intros i; cbn; [done|].
  rewrite length_app, length_map, length_seq, IH. done.
Qed.

Lemma res_create_pool_spec name pool :
  pool_config pool ->
  exists p, res_create_pool name pool = Ok p /\ pool_wf p /\
    resources p = instances pool 0 /\ num_resources p = Z.of_nat (total pool).
Proof.
  intros [Hq Hc Hroom]. unfold res_create_pool. rewrite count_instances_spec by done.
  cbn [mbind outcome_bind]. rewrite fatal_if_false by blia. cbn [mbind outcome_bind].
  rewrite Z.add_0_l, Nat2Z.id.
  pose proof (fill_instances_spec pool [] 0) as Hf. cbn [List.length app repeat] in Hf.
  rewrite Nat.add_0_r, app_nil_r in Hf. rewrite Hf. cbn [mbind outcome_bind].
  rewrite c_assert_true by blia. cbn [mbind outcome_bind].
  assert (Hcl : Forall (fun d => Forall class_in_range (used (x d))) (instances pool 0)).
  { apply instances_forall. intros d i Hd. cbn. rewrite used_set_masters.
    apply Forall_map. by eapply Forall_forall in Hc. }
  match goal with |- context [map_instances 0 ?insts ?res0] =>
    destruct (map_instances_spec insts 0 res0 (fun _ => [])) as (p & -> & Hr & Hn & Hrep) end; [|done|done|].
  - split; [done|]. split; [done|]. intros c Hc'. split; [|split; [|cbn; lia]].
    + by apply lookup_repeat.
    + by apply lookup_repeat.
  - cbn in Hr, Hn. exists p. split; [done|]. split; [|done].
    destruct Hrep as (_ & _ & Hrep). constructor; rewrite Hr.
    + intros c Hc'. exists (class_entries 0 (instances pool 0) c). split; [by apply Hrep|].
      intros e. rewrite class_entries_spec by done. split.
      * intros (k & H1 & Ht). cbn in H1. subst k. destruct e as [i j]. cbn in Ht. split; [done|].
        destruct Ht as (d & t & H1 & H2 & H3). cbn in H1, H2. intros ->.
        eapply Forall_lookup in Hcl; [|exact H1]. cbv beta in Hcl. eapply Forall_lookup in Hcl; [|exact H2].
        unfold class_in_range in Hcl. lia.
      * intros [Ht _]. exists e.1. by destruct e.
    + intros i d Hd. apply instances_lookup in Hd as (d' & _ & ->). cbn. rewrite used_set_masters.
      apply Forall_map, Forall_forall. done.
    + by apply instances_forall.
Qed.

(** * Asking for a unit *)

(** The busy count of a unit. *)
Definition unit_busy (pool : res_pool) (i : nat) : Z :=
  match resources pool !! i with Some d => busy d | None => 0 end.

Lemma used_lookup xs k t : used xs !! k = Some t -> xs !! k = Some t.
Proof.
  revert k. induction xs as [|t' xs IH]; intros k; cbn; [done|]. destruct (_ =? _); [done|].
  destruct k; cbn; auto.
Qed.

Lemma get_template_spec pool c p :
  pool_wf pool -> has_template (resources pool) c p ->
  exists t d, get_template pool p = Ok t /\ rt_class t = Z.of_nat c /\ master t = Some p.1 /\
    resources pool !! p.1 = Some d.
Proof.
  intros Hwf (d & t & Hd & Ht & Hc). exists t, d. unfold get_template.
  rewrite (c_get_some _ _ _ Hd). cbn [mbind outcome_bind]. rewrite (c_get_some _ _ _ (used_lookup _ _ _ Ht)).
  do 2 (split; [done|]). split; [|done].
  pose proof (wf_masters _ Hwf _ _ Hd) as Hm. by eapply Forall_lookup in Hm.
Qed.

Lemma scan_row_spec pool c es n :
  pool_wf pool -> Forall (has_template (resources pool) c) es ->
  scan_row pool (map Some es ++ repeat None n) = Ok (head (filter (fun p => unit_busy pool p.1 = 0) es)).
Proof.
  intros Hwf. induction 1 as [|p es Hp _ IH]; cbn [map app].
  - by destruct n.
  - cbn [scan_row]. destruct (get_template_spec _ _ _ Hwf Hp) as (t & d & -> & _ & Hm & Hd).
    cbn [mbind outcome_bind]. rewrite Hm. cbn [mbind outcome_bind deref]. rewrite (c_get_some _ _ _ Hd).
    cbn [mbind outcome_bind]. rewrite filter_cons.
    assert (Hb : unit_busy pool p.1 = busy d) by (unfold unit_busy; by rewrite Hd).
    destruct (Z.eqb_spec (busy d) 0); case_decide; [done|lia|lia|done].
Qed.

(** The answer of [res_get]: [None] when all units of the class are busy. *)
Definition get_answer (pool : res_pool) (c : nat) (r : option (nat * nat)) : Prop :=
  match r with
  | Some p => has_template (resources pool) c p /\ unit_busy pool p.1 = 0
  | None => forall p, has_template (resources pool) c p -> 0 < unit_busy pool p.1
  end.

Lemma unit_busy_nonneg pool i : pool_wf pool -> 0 <= unit_busy pool i.
Proof.
  intros Hwf. unfold unit_busy. destruct (resources pool !! i) eqn:E; [|done].
  pose proof (wf_busy _ Hwf) as Hb. eapply Forall_lookup in Hb; [|exact E]. done.
Qed.

Lemma res_get_answer pool c :
  pool_wf pool -> (0 < c < MAX_RES_CLASSES)%nat -> (exists p, has_template (resources pool) c p) ->
  exists r, res_get pool (Z.of_nat c) = Ok r /\ get_answer pool c r.
Proof.
  intros Hwf Hc [p0 Hp0]. destruct (wf_rows _ Hwf c) as (es & (Hrow & _ & Hle) & Hes); [lia|].
  unfold res_get. rewrite c_assert_true by lia. cbn [mbind outcome_bind].
  rewrite (proj2 (Z.ltb_ge _ _)) by lia. rewrite Nat2Z.id, (c_get_some _ _ _ Hrow). cbn [mbind outcome_bind].
  assert (Hall : Forall (has_template (resources pool) c) es).
  { apply Forall_forall. intros p Hp. by apply Hes in Hp as [? _]. }
  destruct es as [|e es].
  { exfalso. apply (not_elem_of_nil p0). apply Hes. split; [done|lia]. }
  change (c_get (row_of (e :: es)) 0) with (Ok (Some e)). cbn [mbind outcome_bind].
  rewrite c_assert_true by (apply bool_decide_eq_true; by eexists). cbn [mbind outcome_bind].
  unfold row_of. rewrite (scan_row_spec pool c (e :: es)) by done. eexists. split; [done|].
  set (fl := filter _ (e :: es)).
  assert (Hfl : forall p, p ∈ fl <-> unit_busy pool p.1 = 0 /\ p ∈ e :: es) by (intros; unfold fl; by rewrite list_elem_of_filter).
  destruct fl as [|p fl]; cbn.
  - intros p Hp. assert (p ∈ e :: es) as Hin by (apply Hes; split; [done|lia]).
    pose proof (unit_busy_nonneg pool p.1 Hwf). destruct (decide (unit_busy pool p.1 = 0)); [|lia].
    exfalso. apply (not_elem_of_nil p). by apply Hfl.
  - destruct (proj1 (Hfl p) ltac:(by left)) as [H1 H2]. split; [|done]. by apply Hes in H2 as [? _].
Qed.

Lemma res_get_some pool c p :
  pool_wf pool -> (0 < c < MAX_RES_CLASSES)%nat -> res_get pool (Z.of_nat c) = Ok (Some p) ->
  has_template (resources pool) c p /\ unit_busy pool p.1 = 0.
Proof.
  intros Hwf Hc H. destruct (wf_rows _ Hwf c) as (es & (Hrow & _) & Hes); [lia|].
  destruct es as [|e es].
  - unfold res_get in H. rewrite c_assert_true in H by blia. cbn [mbind outcome_bind] in H.
    rewrite (proj2 (Z.ltb_ge _ _)), Nat2Z.id, (c_get_some _ _ _ Hrow) in H by lia. done.
  - destruct (res_get_answer pool c Hwf Hc) as (r & Hr & Ha); [exists e; apply Hes; by left|].
    rewrite H in Hr. by injection Hr as <-.
Qed.

(** * Reserving and releasing *)

(** Changing busy counts only. *)
Definition same_units (pool pool' : res_pool) : Prop :=
  table pool' = table pool /\ nents pool' = nents pool /\
  map x (resources pool') = map x (resources pool).

Lemma same_units_x pool pool' i :
  same_units pool pool' -> x <$> resources pool' !! i = x <$> resources pool !! i.
Proof. intros (_ & _ & H). rewrite <- !list_lookup_fmap.
  change (x <$> ?l) with (map x l). by rewrite H.
Qed.

Lemma same_units_template pool pool' c p :
  same_units pool pool' -> has_template (resources pool) c p -> has_template (resources pool') c p.
Proof.
  intros Hs (d & t & Hd & Ht & Hc). pose proof (same_units_x _ _ p.1 Hs) as Hx. rewrite Hd in Hx.
  destruct (resources pool' !! p.1) as [d'|] eqn:Hd'; [|done]. cbn in Hx. injection Hx as Hx.
  exists d', t. by rewrite Hx.
Qed.

Lemma same_units_sym pool pool' : same_units pool pool' -> same_units pool' pool.
Proof. intros (H1 & H2 & H3). by split. Qed.

Lemma same_units_trans p1 p2 p3 : same_units p1 p2 -> same_units p2 p3 -> same_units p1 p3.
Proof. intros (H1 & H2 & H3) (H4 & H5 & H6). split; [congruence|]. split; congruence. Qed.

Lemma same_units_wf pool pool' :
  same_units pool pool' -> Forall (fun d => 0 <= busy d) (resources pool') -> pool_wf pool -> pool_wf pool'.
Proof.
  intros Hs Hb [Hr Hm _]. constructor; [| |done].
  - intros c Hc. destruct (Hr c Hc) as (es & He & Hin). exists es. split.
    + destruct Hs as (H1 & H2 & _). unfold class_row. by rewrite H1, H2.
    + intros p. rewrite Hin. split; intros [H1 H2]; (split; [|done]);
        (eapply same_units_template; [|exact H1]); [done|by apply same_units_sym].
  - intros i d Hd. pose proof (same_units_x _ _ i Hs) as Hx. rewrite Hd in Hx.
    destruct (resources pool !! i) as [d'|] eqn:Hd'; [|done]. cbn in Hx. injection Hx as ->. by eapply Hm.
Qed.

Lemma release_spec pool :
  same_units pool (ruu_release_fu pool) /\
  forall i, unit_busy (ruu_release_fu pool) i = (if 0 <? unit_busy pool i then unit_busy pool i - 1 else unit_busy pool i).
Proof.
  split.
  - split; [done|]. split; [done|]. cbn. rewrite map_map. apply map_ext. intros d. by destruct (0 <? busy d).
  - intros i. unfold unit_busy. cbn. change (map ?f ?l) with (f <$> l). rewrite list_lookup_fmap.
    destruct (resources pool !! i) as [d|]; cbn; [|done]. by destruct (0 <? busy d).
Qed.

Lemma release_wf pool : pool_wf pool -> pool_wf (ruu_release_fu pool).
Proof.
  intros Hwf. eapply same_units_wf; [apply release_spec| |done]. cbn. apply Forall_map.
  eapply Forall_impl; [apply (wf_busy _ Hwf)|]. cbn. intros d Hd. destruct (Z.ltb_spec 0 (busy d)); cbn; lia.
Qed.

(** The latency of the unit a template belongs to. *)
Definition issue_latency (pool : res_pool) (p : nat * nat) (L : Z) : Prop :=
  exists d t, resources pool !! p.1 = Some d /\ used (x d) !! p.2 = Some t /\ issuelat t = L.

Lemma reserve_spec pool c p :
  pool_wf pool -> has_template (resources pool) c p -> unit_busy pool p.1 = 0 ->
  exists pool' L, res_reserve pool p = Ok pool' /\ same_units pool pool' /\ issue_latency pool p L /\
    forall i, unit_busy pool' i = if decide (i = p.1) then L else unit_busy pool i.
Proof.
  intros Hwf Hp Hb. destruct (get_template_spec _ _ _ Hwf Hp) as (t & d & Hg & _ & Hm & Hd).
  destruct Hp as (d' & t' & Hd' & Ht' & _). rewrite Hd in Hd'. injection Hd' as <-.
  assert (t' = t) as ->.
  { unfold get_template in Hg. rewrite (c_get_some _ _ _ Hd) in Hg. cbn in Hg.
    unfold c_get in Hg. rewrite (used_lookup _ _ _ Ht') in Hg. by injection Hg. }
  unfold res_reserve. rewrite Hg. cbn [mbind outcome_bind]. rewrite Hm. cbn [mbind outcome_bind deref].
  rewrite (c_get_some _ _ _ Hd). cbn [mbind outcome_bind].
  unfold unit_busy in Hb. rewrite Hd in Hb. rewrite Hb. cbn [truth].
  exists (pool <| resources ::= <[p.1 := d <| busy := issuelat t |>]> |>), (issuelat t).
  split; [done|]. split; [|split; [by exists d, t|]].
  - split; [done|]. split; [done|]. cbn. change (map ?f ?l) with (f <$> l). rewrite list_fmap_insert. cbn.
    apply list_insert_id. by rewrite list_lookup_fmap, Hd.
  - intros i. unfold unit_busy. cbn. case_decide as Hi.
    + subst i. rewrite list_lookup_insert_eq; [done|]. by eapply lookup_lt_Some.
    + by rewrite list_lookup_insert_ne.
Qed.

Lemma busy_forall pool : (forall i, 0 <= unit_busy pool i) -> Forall (fun d => 0 <= busy d) (resources pool).
Proof. intros H. apply Forall_lookup. intros i d Hd. specialize (H i). unfold unit_busy in H. by rewrite Hd in H. Qed.

Definition latencies_ok (pool : res_pool) : Prop :=
  Forall (fun d => Forall (fun t => 0 <= issuelat t) (used (x d))) (resources pool).

Lemma same_units_latencies pool pool' : same_units pool pool' -> latencies_ok pool -> latencies_ok pool'.
Proof.
  intros (_ & _ & H) Hl. unfold latencies_ok in *.
  apply (Forall_map x (fun xs => Forall (fun t => 0 <= issuelat t) (used xs))) in Hl.
  rewrite <- H in Hl. apply (Forall_map x (fun xs => Forall (fun t => 0 <= issuelat t) (used xs))). exact Hl.
Qed.

Lemma reserve_wf pool c p pool' :
  pool_wf pool -> latencies_ok pool -> has_template (resources pool) c p -> unit_busy pool p.1 = 0 ->
  res_reserve pool p = Ok pool' -> pool_wf pool' /\ latencies_ok pool'.
Proof.
  intros Hwf Hl Hp Hb H. destruct (reserve_spec _ _ _ Hwf Hp Hb) as (pool1 & L & H1 & Hs & HL & Hbusy).
  rewrite H1 in H. injection H as ->. split; [|by eapply same_units_latencies].
  eapply same_units_wf; [done| |done]. apply busy_forall. intros i. rewrite Hbusy. case_decide.
  - destruct HL as (d & t & Hd & Ht & <-). pose proof (Forall_lookup_1 _ _ _ _ Hl Hd) as Hl'.
    exact (Forall_lookup_1 _ _ _ _ Hl' Ht).
  - by apply unit_busy_nonneg.
Qed.

(** One thing the simulator does with the pool: ask for a unit of a class and
    reserve it for its issue latency, or start a new cycle. *)
Inductive pool_op := GetUnit (class : nat) | NewCycle.

Definition pool_step (op : pool_op) (pool : res_pool) : outcome res_pool :=
  match op with
  | GetUnit class =>
      r ← res_get pool (Z.of_nat class);
      match r with Some p => res_reserve pool p | None => Ok pool end
  | NewCycle => Ok (ruu_release_fu pool)
  end.

Fixpoint pool_run (ops : list pool_op) (pool : res_pool) : outcome res_pool :=
  match ops with
  | [] => Ok pool
  | op :: ops' => pool ← pool_step op pool; pool_run ops' pool
  end.

(** The classes that have a unit. *)
Definition served (insts : list res_desc) (c : nat) : Prop :=
  (0 < c < MAX_RES_CLASSES)%nat /\ exists p, has_template insts c p.

Lemma pool_run_spec ops : forall pool,
  pool_wf pool -> latencies_ok pool ->
  (forall c, GetUnit c ∈ ops -> served (resources pool) c) ->
  exists pool', pool_run ops pool = Ok pool' /\ pool_wf pool' /\ same_units pool pool'.
Proof.
  induction ops as [|op ops IH]; intros pool Hwf Hl Hops; cbn [pool_run].
  { by exists pool. }
  assert (Hstep : exists pool1, pool_step op pool = Ok pool1 /\ pool_wf pool1 /\ latencies_ok pool1 /\ same_units pool pool1).
  { destruct op as [c|]; cbn [pool_step].
    - destruct (Hops c) as [Hc Hex]; [by left|].
      destruct (res_get_answer _ _ Hwf Hc Hex) as ([p|] & -> & Ha); cbn [mbind outcome_bind]; [|by exists pool].
      destruct Ha as [Hp Hb]. destruct (reserve_spec _ _ _ Hwf Hp Hb) as (pool1 & L & H1 & Hs & _).
      exists pool1. split; [done|]. destruct (reserve_wf _ _ _ _ Hwf Hl Hp Hb H1). done.
    - exists (ruu_release_fu pool). split; [done|]. pose proof (proj1 (release_spec pool)) as Hs.
      split; [by apply release_wf|]. split; [by eapply same_units_latencies|done]. }
  destruct Hstep as (pool1 & -> & Hwf1 & Hl1 & Hs1). cbn [mbind outcome_bind].
  destruct (IH pool1 Hwf1 Hl1) as (pool' & H' & Hwf' & Hs').
  - intros c Hc. destruct (Hops c) as [Hr [p Hp]]; [by right|]. split; [done|]. exists p.
    by eapply same_units_template.
  - exists pool'. split; [done|]. split; [done|]. by eapply same_units_trans.
Qed.

(** a pool of functional units never breaks: when every descriptor asks
    for at most MAX_INSTS_PER_CLASS units, no class has more units than that
    in total and latencies are not negative, the pool can be created, any
    sequence of requests (each reserving the unit it gets) and new cycles
    runs without a panic or a failed assertion, and in every state reached a
    request for a class that has units gives a template of that class on a
    unit that is not busy, or NULL exactly when all units of the class are
    busy. *)
Theorem resource_pool_sound (name : string) (pool : list res_desc) (ops : list pool_op) :
  pool_config pool ->
  Forall (fun d => Forall (fun t => 0 <= issuelat t) (used (x d))) pool ->
  (forall c, GetUnit c ∈ ops -> served (instances pool 0) c) ->
  exists p p', res_create_pool name pool = Ok p /\ pool_run ops p = Ok p' /\
    forall c, served (instances pool 0) c ->
      exists r, res_get p' (Z.of_nat c) = Ok r /\ get_answer p' c r.
Proof.
  intros Hcfg Hlat Hops. destruct (res_create_pool_spec name pool Hcfg) as (p & Hp & Hwf & Hr & _).
  destruct (pool_run_spec ops p Hwf) as (p' & Hp' & Hwf' & Hs).
  - unfold latencies_ok. rewrite Hr. apply instances_forall. intros d i Hd. cbn. rewrite used_set_masters.
    apply Forall_map. pose proof (proj1 (Forall_forall _ _) Hlat d Hd) as H. cbn in H. exact H.
  - by rewrite Hr.
  - exists p, p'. do 2 (split; [done|]). intros c [Hc [e He]]. apply res_get_answer; [done|done|].
    exists e. eapply same_units_template; [done|]. by rewrite Hr.
Qed.

(** * sim-outorder's units *)

Lemma unit_entries_length xs c : forall i j i' j',
  List.length (unit_entries i j xs c) = List.length (unit_entries i' j' xs c).
Proof.
  induction xs as [|t xs IH]; intros i j i' j'; cbn; [done|]. destruct (_ =? _); [done|].
  rewrite !length_app. f_equal; [by destruct (_ =? _)%nat|apply IH].
Qed.

Lemma unit_entries_masters xs c : forall i j n,
  unit_entries i j (set_masters n xs) c = unit_entries i j xs c.
Proof.
  induction xs as [|t xs IH]; intros i j n; cbn; [done|].
  destruct (rt_class t =? 0) eqn:E; cbn; rewrite E; [done|]. by rewrite IH.
Qed.

Lemma class_entries_app insts1 insts2 c : forall i,
  class_entries i (insts1 ++ insts2) c = class_entries i insts1 c ++ class_entries (i + List.length insts1) insts2 c.
Proof.
  induction insts1 as [|d insts1 IH]; intros i; cbn; [by rewrite Nat.add_0_r|].
  rewrite IH, <- app_assoc. do 2 f_equal. f_equal. lia.
Qed.

(** How many templates of a class a pool has. *)
Definition class_size (pool : list res_desc) (c : nat) : nat :=
  list_sum (map (fun d => Z.to_nat (quantity d) * List.length (unit_entries 0 0 (x d) c))%nat pool).

Lemma class_entries_length pool c : forall i j,
  List.length (class_entries i (instances pool j) c) = class_size pool c.
Proof.
  unfold class_size. induction pool as [|d pool IH]; intros i j; [done|].
  cbn [instances map list_sum fold_right]. rewrite class_entries_app, length_app, IH. unfold list_sum. f_equal.
  generalize (Z.to_nat (quantity d)) as q. clear IH. intros q. revert i j.
  induction q as [|q IHq]; intros i j; [done|]. cbn [seq map class_entries]. rewrite length_app, IHq.
  change (x (res_instance d j)) with (set_masters j (x d)).
  rewrite unit_entries_masters, (unit_entries_length _ _ i 0 0 0). lia.
Qed.

Lemma instances_head d pool' : forall pre i,
  0 < quantity d ->
  exists k, instances (pre ++ d :: pool') i !! k = Some (res_instance d (i + k)).
Proof.
  induction pre as [|d0 pre IH]; intros i Hq; cbn [app instances].
  - exists O. destruct (Z.to_nat (quantity d)) eqn:E; [lia|]. cbn. by rewrite Nat.add_0_r.
  - destruct (IH (i + Z.to_nat (quantity d0))%nat Hq) as [k Hk]. exists (Z.to_nat (quantity d0) + k)%nat.
    rewrite lookup_app_r by (rewrite length_map, length_seq; lia).
    rewrite length_map, length_seq. replace (_ + k - _)%nat with k by lia.
    rewrite Hk. do 2 f_equal. lia.
Qed.

(** A class that some descriptor lists has units. *)
Lemma served_intro pool d k t :
  d ∈ pool -> 0 < quantity d -> used (x d) !! k = Some t -> class_in_range t ->
  served (instances pool 0) (Z.to_nat (rt_class t)).
Proof.
  intros Hd Hq Ht Hr. unfold class_in_range in Hr. split; [lia|].
  apply list_elem_of_split in Hd as (pre & post & ->). destruct (instances_head d post pre 0 Hq) as [i Hi].
  exists (i, k). eexists _, _. split; [exact Hi|]. cbn. rewrite used_set_masters.
  change (map ?f ?l) with (f <$> l). rewrite list_lookup_fmap, Ht. split; [done|]. cbn. lia.
Qed.

Definition quantity_ok (q : Z) : Prop := 1 <= q <= Z.of_nat MAX_INSTS_PER_CLASS.

(** Computes the lengths of concrete entry lists. *)
Ltac count_entries :=
  repeat match goal with
  | |- context [@List.length (nat * nat) ?l] =>
      let v := eval vm_compute in (@List.length (nat * nat) l) in change (@List.length (nat * nat) l) with v
  end; unfold MAX_INSTS_PER_CLASS.

(** the units of sim-outorder serve every instruction: for the quantities
    [sim_check_options] accepts (1 to MAX_INSTS_PER_CLASS each), the pool can
    be created, and after any requests of the units that instructions need,
    every instruction that needs a functional unit finds a free one of its
    class or learns that all are busy; [res_get] never fails an assertion. *)
Theorem fu_pool_serves_instructions (name : string) (res_ialu res_imult res_memport res_fpalu res_fpmult : Z)
    (ops : list pool_op) :
  quantity_ok res_ialu -> quantity_ok res_imult -> quantity_ok res_memport ->
  quantity_ok res_fpalu -> quantity_ok res_fpmult ->
  (forall c, GetUnit c ∈ ops -> exists op, SS_OP_FUCLASS op <> FUClass_NA /\ Z.of_nat c = fu_class_val (SS_OP_FUCLASS op)) ->
  exists p p', res_create_pool name (fu_config res_ialu res_imult res_memport res_fpalu res_fpmult) = Ok p /\
    pool_run ops p = Ok p' /\
    forall op, SS_OP_FUCLASS op <> FUClass_NA ->
      exists r, res_get p' (fu_class_val (SS_OP_FUCLASS op)) = Ok r /\
        get_answer p' (Z.to_nat (fu_class_val (SS_OP_FUCLASS op))) r.
Proof.
  unfold quantity_ok. intros H1 H2 H3 H4 H5 Hops. set (pool := fu_config _ _ _ _ _).
  assert (Hserved : forall op, SS_OP_FUCLASS op <> FUClass_NA ->
    served (instances pool 0) (Z.to_nat (fu_class_val (SS_OP_FUCLASS op)))).
  { intros op Hop. destruct (SS_OP_FUCLASS op); [done|..].
    all: match goal with |- served _ (Z.to_nat (fu_class_val ?c)) =>
      let i := lazymatch c with IntALU => constr:((0, 0)%nat) | IntMULT => constr:((1, 0)%nat)
        | IntDIV => constr:((1, 1)%nat) | RdPort => constr:((2, 0)%nat) | WrPort => constr:((2, 1)%nat)
        | FloatADD => constr:((3, 0)%nat) | FloatCMP => constr:((3, 1)%nat) | FloatCVT => constr:((3, 2)%nat)
        | FloatMULT => constr:((4, 0)%nat) | FloatDIV => constr:((4, 1)%nat) | FloatSQRT => constr:((4, 2)%nat) end in
      let d := eval cbn in (default no_res_desc (pool !! i.1)) in
      let t := eval cbn in (default no_template (used (x d) !! i.2)) in
      apply (served_intro pool d i.2 t) end.
    all: try (unfold class_in_range; cbn; lia). all: try done.
    all: unfold pool, fu_config; rewrite !elem_of_cons; cbn; tauto. }
  destruct (resource_pool_sound name pool ops) as (p & p' & Hp & Hp' & Hget).
  - constructor.
    + repeat constructor; cbn; lia.
    + repeat constructor; cbn; lia.
    + intros c. rewrite class_entries_length. unfold class_size, pool, fu_config.
      cbn [map list_sum fold_right quantity x].
      assert (Hb : forall q, 1 <= q <= Z.of_nat MAX_INSTS_PER_CLASS -> (Z.to_nat q <= 8)%nat) by (unfold MAX_INSTS_PER_CLASS; lia).
      pose proof (Hb _ H1). pose proof (Hb _ H2). pose proof (Hb _ H3). pose proof (Hb _ H4). pose proof (Hb _ H5).
      generalize dependent (Z.to_nat res_ialu). generalize dependent (Z.to_nat res_imult).
      generalize dependent (Z.to_nat res_memport). generalize dependent (Z.to_nat res_fpalu).
      generalize dependent (Z.to_nat res_fpmult). clear. intros.
      do 12 (destruct c as [|c]; [count_entries; lia|]). count_entries. lia.
  - repeat constructor; cbn; lia.
  - intros c Hc. destruct (Hops c Hc) as (op & Hop & Hv). rewrite <- (Nat2Z.id c), Hv. by apply Hserved.
  - exists p, p'. do 2 (split; [done|]). intros op Hop.
    destruct (Hget _ (Hserved op Hop)) as (r & Hr & Ha). exists r. split; [|done].
    rewrite Z2Nat.id in Hr; [done|]. by destruct (SS_OP_FUCLASS op).
Qed.

(** * How long a unit is reserved *)

Fixpoint release_cycles (n : nat) (pool : res_pool) : res_pool :=
  match n with O => pool | S n' => release_cycles n' (ruu_release_fu pool) end.

Lemma release_cycles_spec n : forall pool,
  pool_wf pool -> pool_wf (release_cycles n pool) /\ same_units pool (release_cycles n pool) /\
  forall i, unit_busy (release_cycles n pool) i = Z.max 0 (unit_busy pool i - Z.of_nat n).
Proof.
  induction n as [|n IH]; intros pool Hwf; cbn [release_cycles].
  - split; [done|]. split; [done|]. intros i. pose proof (unit_busy_nonneg pool i Hwf). lia.
  - destruct (IH _ (release_wf _ Hwf)) as (H1 & H2 & H3). destruct (release_spec pool) as [H4 H5].
    split; [done|]. split; [by eapply same_units_trans|]. intros i. rewrite H3, H5.
    pose proof (unit_busy_nonneg pool i Hwf). destruct (Z.ltb_spec 0 (unit_busy pool i)); lia.
Qed.

(** C39: a reserved unit comes back: after [res_get] gave a template and its
    unit was reserved for its issue latency L, no request gets that unit
    before the L-th [ruu_release_fu], and from then on (while nobody else
    takes it) a request for the class gets a unit. *)
Theorem reserved_unit_released (pool : res_pool) (c : nat) (p : nat * nat) :
  pool_wf pool -> latencies_ok pool -> (0 < c < MAX_RES_CLASSES)%nat ->
  res_get pool (Z.of_nat c) = Ok (Some p) ->
  exists pool' L, res_reserve pool p = Ok pool' /\ issue_latency pool p L /\
    (forall n d q, Z.of_nat n < L -> (0 < d < MAX_RES_CLASSES)%nat ->
       res_get (release_cycles n pool') (Z.of_nat d) = Ok (Some q) -> q.1 <> p.1) /\
    (forall n, L <= Z.of_nat n ->
       exists q, res_get (release_cycles n pool') (Z.of_nat c) = Ok (Some q)).
Proof.
  intros Hwf Hl Hc Hget. destruct (res_get_some _ _ _ Hwf Hc Hget) as [Hp Hb].
  destruct (reserve_spec _ _ _ Hwf Hp Hb) as (pool' & L & H1 & Hs & HL & Hbusy).
  destruct (reserve_wf _ _ _ _ Hwf Hl Hp Hb H1) as [Hwf' _].
  exists pool', L. split; [done|]. split; [done|].
  assert (Hn : forall n, unit_busy (release_cycles n pool') p.1 = Z.max 0 (L - Z.of_nat n)).
  { intros n. destruct (release_cycles_spec n pool' Hwf') as (_ & _ & ->). rewrite Hbusy. by rewrite decide_True. }
  split.
  - intros n d q Hlt Hd Hq Heq. destruct (release_cycles_spec n pool' Hwf') as (Hwfn & _ & _).
    destruct (res_get_some _ _ _ Hwfn Hd Hq) as [_ Hz]. rewrite Heq, Hn in Hz. lia.
  - intros n Hge. destruct (release_cycles_spec n pool' Hwf') as (Hwfn & Hsn & _).
    assert (Hpn : has_template (resources (release_cycles n pool')) c p).
    { eapply same_units_template; [exact Hsn|]. by eapply same_units_template. }
    destruct (res_get_answer _ c Hwfn Hc ltac:(by exists p)) as ([q|] & Hr & Ha); [by exists q|].
    specialize (Ha p Hpn). rewrite Hn in Ha. lia.
Qed.

(** * Witnesses *)

(** The default quantities. *)
Definition default_fu_config : list res_desc := fu_config 4 1 2 4 1.
Definition default_pool : res_pool :=
  match res_create_pool "fu-pool" default_fu_config with Ok p => p | _ => mk_res_pool "" 0 [] [] [] end.
Definition example_requests : list pool_op :=
  [GetUnit 3; GetUnit 3; NewCycle; GetUnit 10; GetUnit 11; GetUnit 11; NewCycle; GetUnit 2].

Lemma default_config_ok : pool_config default_fu_config.
Proof.
  unfold default_fu_config, fu_config. constructor.
  - rewrite !Forall_cons, Forall_nil. unfold MAX_INSTS_PER_CLASS. cbn. lia.
  - rewrite !Forall_cons, Forall_nil. unfold class_in_range, MAX_RES_CLASSES. cbn. rewrite !Forall_cons, !Forall_nil. cbn. lia.
  - intros c. rewrite class_entries_length. unfold class_size, default_fu_config, fu_config.
    cbn [map list_sum fold_right quantity x].
    do 12 (destruct c as [|c]; [count_entries; lia|]). count_entries. lia.
Qed.

Lemma resource_pool_sound_witness :
  exists p p', res_create_pool "fu-pool" default_fu_config = Ok p /\ pool_run example_requests p = Ok p' /\
    forall c, served (instances default_fu_config 0) c ->
      exists r, res_get p' (Z.of_nat c) = Ok r /\ get_answer p' c r.
Proof.
  apply (resource_pool_sound "fu-pool" default_fu_config example_requests).
  - apply default_config_ok.
  - unfold default_fu_config, fu_config. rewrite !Forall_cons, Forall_nil. cbn. rewrite !Forall_cons, !Forall_nil. cbn. lia.
  - intros c Hc. unfold example_requests in Hc. rewrite !elem_of_cons, elem_of_nil in Hc.
    assert (Hc' : c = 3%nat \/ c = 10%nat \/ c = 11%nat \/ c = 2%nat).
    { repeat destruct Hc as [Hc|Hc]; try done; injection Hc as ->; tauto. }
    destruct Hc' as [->|[->|[->| ->]]]; (split; [unfold MAX_RES_CLASSES; lia|]).
    + exists (4, 1)%nat. eexists _, _. cbn. split; [reflexivity|]. split; reflexivity.
    + exists (5, 0)%nat. eexists _, _. cbn. split; [reflexivity|]. split; reflexivity.
    + exists (5, 1)%nat. eexists _, _. cbn. split; [reflexivity|]. split; reflexivity.
    + exists (4, 0)%nat. eexists _, _. cbn. split; [reflexivity|]. split; reflexivity.
Defined.

Lemma fu_pool_serves_instructions_witness :
  exists p p', res_create_pool "fu-pool" (fu_config 4 1 2 4 1) = Ok p /\ pool_run [GetUnit 2; NewCycle; GetUnit 2] p = Ok p' /\
    forall op, SS_OP_FUCLASS op <> FUClass_NA ->
      exists r, res_get p' (fu_class_val (SS_OP_FUCLASS op)) = Ok r /\
        get_answer p' (Z.to_nat (fu_class_val (SS_OP_FUCLASS op))) r.
Proof.
  apply (fu_pool_serves_instructions "fu-pool" 4 1 2 4 1 [GetUnit 2; NewCycle; GetUnit 2]);
    [unfold quantity_ok, MAX_INSTS_PER_CLASS; lia..|].
  intros c Hc. exists MULT. split; [done|]. rewrite !elem_of_cons, elem_of_nil in Hc.
  assert (c = 2%nat) as -> by naive_solver. reflexivity.
Defined.

Lemma default_pool_wf : pool_wf default_pool /\ latencies_ok default_pool.
Proof.
  destruct (res_create_pool_spec "fu-pool" default_fu_config default_config_ok) as (p & Hp & Hwf & Hr & _).
  unfold default_pool. rewrite Hp. split; [done|]. unfold latencies_ok. rewrite Hr.
  apply instances_forall. intros d i Hd. cbn. rewrite used_set_masters. apply Forall_map.
  unfold default_fu_config, fu_config in Hd. rewrite !elem_of_cons, elem_of_nil in Hd.
  destruct Hd as [->|[->|[->|[->|[->|[]]]]]]; cbn; rewrite !Forall_cons, !Forall_nil; cbn; lia.
Qed.

(** The integer divider: 19 cycles. *)
Lemma reserved_unit_released_witness :
  exists pool' L, res_reserve default_pool (4, 1)%nat = Ok pool' /\ issue_latency default_pool (4, 1)%nat L /\
    (forall n d q, Z.of_nat n < L -> (0 < d < MAX_RES_CLASSES)%nat ->
       res_get (release_cycles n pool') (Z.of_nat d) = Ok (Some q) -> q.1 <> (4, 1)%nat.1) /\
    (forall n, L <= Z.of_nat n ->
       exists q, res_get (release_cycles n pool') (Z.of_nat 3) = Ok (Some q)).
Proof.
  apply (reserved_unit_released default_pool 3 (4, 1)%nat).
  - apply default_pool_wf.
  - apply default_pool_wf.
  - unfold MAX_RES_CLASSES; lia.
  - vm_compute; reflexivity.
Defined.

(** The quantity check is per descriptor: two descriptors of one class with 8
    and 1 units pass it, and the ninth entry is written past the class's row. *)
Lemma shared_class_overflows :
  res_create_pool "pool" [mk_res_desc "a" 8 0 (templates [(1, 1, 1)]); mk_res_desc "b" 1 0 (templates [(1, 1, 1)])] = Undef.
Proof. vm_compute. reflexivity. Qed.
