(* ===== verification/Exec.v ===== *)
(** ss.def, ss.h and ss.c: the meaning of the instructions.

    Each simulator expands the expressions of ss.def with its own macros for
    registers, memory and faults.  Those macros are the operations of the class
    [Machine]; [execute] is the expansion of ss.def over them, one case per
    DEFINST.  32-bit registers hold signed values, floating-point registers
    words; a float or double is the bit pattern of its word or words.  Host
    floating-point arithmetic is the class [HostFP].  Int additions and shifts
    wrap as on the hosts the program runs on; a shift by 32 or more, an out of
    range register number or an overflowing division is undefined.
    SET_GPR(N,EXPR) may act before EXPR is evaluated: sim-outorder marks the
    register first, which is [MARK_GPR]. *)

From S2P Require Import Prelude Misc Isa.

(** The temporary each memory access of sim-outorder goes through; it decides
    the size and the conversion of an access. *)
Inductive mem_temp := temp_uint | temp_ushort | temp_short | temp_uchar | temp_char.

#[global] Instance mem_temp_eq_dec : EqDecision mem_temp.
Proof. solve_decision. Defined.

Definition temp_size (t : mem_temp) : nat :=
  match t with temp_uint => 4 | temp_ushort | temp_short => 2 | temp_uchar | temp_char => 1 end.

(** The macros a simulator defines before it includes ss.def. *)
Class Machine (S : Type) := {
  CPC : S -> Z;
  SET_NPC : Z -> S -> S;
  SET_TPC : Z -> S -> S;
  GPR : Z -> S -> outcome Z;
  MARK_GPR : Z -> S -> outcome S;       (* what SET_GPR(N,EXPR) does before it evaluates EXPR *)
  SET_GPR : Z -> Z -> S -> outcome S;   (* and with its value *)
  FPR_L : Z -> S -> outcome Z;
  MARK_FPR : Z -> S -> outcome S;
  SET_FPR_L : Z -> Z -> S -> outcome S;
  HI : S -> Z;
  SET_HI : Z -> S -> S;
  LO : S -> Z;
  SET_LO : Z -> S -> S;
  FCC : S -> Z;
  SET_FCC : Z -> S -> S;
  READ_MEM : mem_temp -> Z -> S -> outcome (Z * S);
  WRITE_MEM : mem_temp -> Z -> Z -> S -> outcome S;
  IFAIL : S -> outcome S;
  IDIV_int : Z -> Z -> outcome Z;
  IMOD_int : Z -> Z -> outcome Z;
  FINT_nan : option Z;  (* what FINT makes of a NaN, when it tests for one *)
  FDIV_zero : bool;     (* whether FDIV tests for a zero denominator *)
  do_syscall : ss_inst -> S -> outcome S;
}.

(** Arithmetic on bit patterns: [_S] on floats (32 bits), [_D] on doubles (64
    bits), conversions to and from ints. *)
Class HostFP := {
  fadd_S : Z -> Z -> Z; fsub_S : Z -> Z -> Z; fmul_S : Z -> Z -> Z; fdiv_S : Z -> Z -> Z;
  fadd_D : Z -> Z -> Z; fsub_D : Z -> Z -> Z; fmul_D : Z -> Z -> Z; fdiv_D : Z -> Z -> Z;
  fneg_S : Z -> Z; fneg_D : Z -> Z; fabs_D : Z -> Z; fsqrt_D : Z -> Z;
  feq_S : Z -> Z -> bool; flt_S : Z -> Z -> bool; fle_S : Z -> Z -> bool;
  feq_D : Z -> Z -> bool; flt_D : Z -> Z -> bool; fle_D : Z -> Z -> bool;
  isnan_S : Z -> bool; isnan_D : Z -> bool;
  cvt_S_D : Z -> Z; cvt_D_S : Z -> Z;  (* to single from double, to double from single *)
  cvt_S_W : Z -> Z; cvt_D_W : Z -> Z;  (* from int *)
  cvt_W_S : Z -> Z; cvt_W_D : Z -> Z;  (* to int, truncating *)
}.

(** ss.c: the step tables, [XX] marks invalid sizes. *)
Definition XX : Z := 0x6bababab.
Definition ss_fore_tab : list (list Z) :=
  [[0; 0; 0; 1; -1]; [0; 0; 0; 2; -2]; [XX; XX; XX; XX; XX]; [0; 0; 0; 4; -4];
   [XX; XX; XX; XX; XX]; [XX; XX; XX; XX; XX]; [XX; XX; XX; XX; XX]; [0; 0; 0; 8; -8]].
Definition ss_aft_tab : list (list Z) :=
  [[0; 1; -1; 0; 0]; [0; 2; -2; 0; 0]; [XX; XX; XX; XX; XX]; [0; 4; -4; 0; 0];
   [XX; XX; XX; XX; XX]; [XX; XX; XX; XX; XX]; [XX; XX; XX; XX; XX]; [0; 8; -8; 0; 0]].

Definition tab_step (tab : list (list Z)) (SIZE : nat) (inst : ss_inst) : outcome Z :=
  row ← c_get tab (SIZE - 1); c_get row (Z.to_nat (SS_COMP_OP inst)).

(** ss.c: [ss_lr_masks], by the byte order of the target. *)
Definition ss_lr_masks (big : bool) : list Z :=
  if big then [0x00000000; 0x000000ff; 0x0000ffff; 0x00ffffff; 0xffffffff]
  else [0xffffffff; 0x00ffffff; 0x0000ffff; 0x000000ff; 0x00000000].

Definition WL_SIZE (ADDR : Z) : Z := 4 - Z.land ADDR 3.
Definition WL_BASE (ADDR : Z) : Z := Z.land ADDR (u32_not 3).
Definition WL_PROT_MASK (big : bool) (ADDR : Z) : outcome Z :=
  c_get (ss_lr_masks big) (Z.to_nat (4 - WL_SIZE ADDR)).
Definition WR_SIZE (ADDR : Z) : Z := Z.land ADDR 3 + 1.
Definition WR_BASE (ADDR : Z) : Z := Z.land ADDR (u32_not 3).
Definition WR_PROT_MASK (big : bool) (ADDR : Z) : outcome Z :=
  m ← c_get (ss_lr_masks big) (Z.to_nat (WR_SIZE ADDR)); Ok (u32_not m).

Definition MAXINT_VAL : Z := 0x7fffffff.

(** C's << and >> by a variable amount; >> of an int is arithmetic. *)
Definition c_shl (x n : Z) : outcome Z := if (0 <=? n) && (n <? 32) then Ok (s32 (Z.shiftl x n)) else Undef.
Definition c_shr (x n : Z) : outcome Z := if (0 <=? n) && (n <? 32) then Ok (Z.shiftr x n) else Undef.

(** C's / and % on ints. *)
Definition c_div (a b : Z) : outcome Z :=
  if (b =? 0) || ((a =? - 2 ^ 31) && (b =? -1)) then Undef else Ok (Z.quot a b).
Definition c_mod (a b : Z) : outcome Z :=
  if (b =? 0) || ((a =? - 2 ^ 31) && (b =? -1)) then Undef else Ok (Z.rem a b).

(** Double values as the pair of words of the register file, in host order. *)
Definition words_double (host_big : bool) (w0 w1 : Z) : Z :=
  if host_big then u32 w0 * 2 ^ 32 + u32 w1 else u32 w1 * 2 ^ 32 + u32 w0.
Definition double_words (host_big : bool) (d : Z) : Z * Z :=
  let hi := s32 (Z.shiftr d 32) in let lo := s32 d in
  if host_big then (hi, lo) else (lo, hi).

(** What the simulators know of the host and the target. *)
Record byte_config := mk_byte_config {
  host_big : bool;          (* byte order of the host *)
  target_big : bool;        (* BYTES_BIG_ENDIAN *)
  sim_swap_words : Z;       (* 1 when the words of doubles are swapped *)
}.

Section Execute.
Context {S : Type} `{Machine S} `{HostFP}.
Variable cfg : byte_config.

Definition check (b : bool) (s : S) : outcome S := if b then IFAIL s else Ok s.

Definition OVER (X Y : Z) (s : S) : outcome S :=
  s ← check ((0 <? X) && (0 <? Y) && (MAXINT_VAL - X <? Y)) s;
  check ((X <? 0) && (Y <? 0) && (Y <? - MAXINT_VAL - X)) s.
Definition UNDER (X Y : Z) (s : S) : outcome S :=
  s ← check ((0 <? X) && (Y <? 0) && (MAXINT_VAL + Y <? X)) s;
  check ((X <? 0) && (0 <? Y) && (X <? - MAXINT_VAL + Y)) s.
Definition DIV0 (zero : bool) (s : S) : outcome S := check zero s.
Definition INTALIGN (N : Z) (s : S) : outcome S := check (truth (Z.land N 1)) s.
Definition FPALIGN (N : Z) (s : S) : outcome S := check (truth (Z.land N 1)) s.
Definition TALIGN (TARG : Z) (s : S) : outcome S := check (truth (Z.land TARG 7)) s.

(** The macros SET_GPR(N,EXPR) and SET_FPR_L(N,EXPR), for an expression that
    only reads registers and one that reads memory. *)
Definition set_gpr (N : Z) (EXPR : S -> outcome Z) (s : S) : outcome S :=
  s ← MARK_GPR N s; v ← EXPR s; SET_GPR N v s.
Definition set_gpr_mem (N : Z) (EXPR : S -> outcome (Z * S)) (s : S) : outcome S :=
  s ← MARK_GPR N s; '(v, s) ← EXPR s; SET_GPR N v s.
Definition set_fpr (N : Z) (EXPR : S -> outcome Z) (s : S) : outcome S :=
  s ← MARK_FPR N s; v ← EXPR s; SET_FPR_L N v s.
Definition set_fpr_mem (N : Z) (EXPR : S -> outcome (Z * S)) (s : S) : outcome S :=
  s ← MARK_FPR N s; '(v, s) ← EXPR s; SET_FPR_L N v s.

Definition FPR_F (N : Z) (s : S) : outcome Z := w ← FPR_L N s; Ok (u32 w).
Definition SET_FPR_F (N : Z) (EXPR : S -> outcome Z) (s : S) : outcome S := set_fpr N EXPR s.
Definition FPR_D (N : Z) (s : S) : outcome Z :=
  let N := 2 * Z.shiftr N 1 in
  w0 ← FPR_L N s; w1 ← FPR_L (N + 1) s; Ok (words_double (host_big cfg) w0 w1).
Definition SET_FPR_D (N : Z) (EXPR : S -> outcome Z) (s : S) : outcome S :=
  let N := 2 * Z.shiftr N 1 in
  s ← MARK_FPR N s; v ← EXPR s;
  let '(w0, w1) := double_words (host_big cfg) v in
  s ← SET_FPR_L N w0 s; SET_FPR_L (N + 1) w1 s.

(** The READ and WRITE macros: unsigned ints. *)
Definition READ_WORD (a : Z) (s : S) : outcome (Z * S) := READ_MEM temp_uint (u32 a) s.
Definition READ_UNSIGNED_HALF (a : Z) (s : S) : outcome (Z * S) := READ_MEM temp_ushort (u32 a) s.
Definition READ_SIGNED_HALF (a : Z) (s : S) : outcome (Z * S) :=
  '(v, s) ← READ_MEM temp_short (u32 a) s; Ok (u32 (s16 v), s).
Definition READ_UNSIGNED_BYTE (a : Z) (s : S) : outcome (Z * S) := READ_MEM temp_uchar (u32 a) s.
Definition READ_SIGNED_BYTE (a : Z) (s : S) : outcome (Z * S) :=
  '(v, s) ← READ_MEM temp_char (u32 a) s; Ok (u32 ((v + 2 ^ 7) mod 2 ^ 8 - 2 ^ 7), s).
Definition WRITE_WORD (v a : Z) (s : S) : outcome S := WRITE_MEM temp_uint (u32 v) (u32 a) s.
Definition WRITE_HALF (v a : Z) (s : S) : outcome S := WRITE_MEM temp_ushort (u16 v) (u32 a) s.
Definition WRITE_BYTE (v a : Z) (s : S) : outcome S := WRITE_MEM temp_uchar (u8 v) (u32 a) s.

(** ss.h: [INC_DEC], the expression between its pre and post steps. *)
Definition INC_DEC (inst : ss_inst) (EXPR : S -> outcome S) (REG : Z) (SIZE : nat) (s : S) : outcome S :=
  f ← tab_step ss_fore_tab SIZE inst;
  s ← set_gpr REG (fun s => r ← GPR REG s; Ok (s32 (r + f))) s;
  s ← EXPR s;
  a ← tab_step ss_aft_tab SIZE inst;
  set_gpr REG (fun s => r ← GPR REG s; Ok (s32 (r + a))) s.

(** The effective addresses: base plus offset, base plus register. *)
Definition ea_disp (inst : ss_inst) (s : S) : outcome Z := b ← GPR (RS inst) s; Ok (u32 (b + IMM inst)).
Definition ea_rr (inst : ss_inst) (s : S) : outcome Z :=
  b ← GPR (RS inst) s; d ← GPR (RD inst) s; Ok (u32 (b + d)).

(** * Control *)

Definition jump_target (inst : ss_inst) (s : S) : Z :=
  Z.lor (Z.land (CPC s) 0xf0000000) (Z.shiftl (TARG inst) 2).
Definition branch_target (inst : ss_inst) (s : S) : Z := u32 (CPC s + 8 + s32 (Z.shiftl (IMM inst) 2)).

Definition branch (inst : ss_inst) (taken : bool) (s : S) : S :=
  let s := SET_TPC (branch_target inst s) s in
  if taken then SET_NPC (branch_target inst s) s else s.

Definition exec_control (op : ss_opcode) (inst : ss_inst) (s : S) : outcome S :=
  let rs := RS inst in let rt := RT inst in
  match op with
  | JUMP => let s := SET_TPC (jump_target inst s) s in Ok (SET_NPC (jump_target inst s) s)
  | JAL =>
      let s := SET_TPC (jump_target inst s) s in
      let s := SET_NPC (jump_target inst s) s in set_gpr 31 (fun s => Ok (s32 (CPC s + 8))) s
  | JR =>
      t ← GPR rs s; s ← TALIGN t s;
      t ← GPR rs s; let s := SET_TPC (u32 t) s in
      t ← GPR rs s; Ok (SET_NPC (u32 t) s)
  | JALR =>
      t ← GPR rs s; s ← TALIGN t s;
      s ← set_gpr (RD inst) (fun s => Ok (s32 (CPC s + 8))) s;
      t ← GPR rs s; let s := SET_TPC (u32 t) s in
      t ← GPR rs s; Ok (SET_NPC (u32 t) s)
  | BEQ => a ← GPR rs s; b ← GPR rt s; Ok (branch inst (a =? b) s)
  | BNE => a ← GPR rs s; b ← GPR rt s; Ok (branch inst (negb (a =? b)) s)
  | BLEZ => a ← GPR rs s; Ok (branch inst (a <=? 0) s)
  | BGTZ => a ← GPR rs s; Ok (branch inst (0 <? a) s)
  | BLTZ => a ← GPR rs s; Ok (branch inst (a <? 0) s)
  | BGEZ => a ← GPR rs s; Ok (branch inst (0 <=? a) s)
  | BC1F => Ok (branch inst (negb (truth (FCC s))) s)
  | BC1T => Ok (branch inst (truth (FCC s)) s)
  | _ => Undef
  end.

(** * Loads *)

(** Loading one register, and a pair of them (words in the order of
    [sim_swap_words]), from the address [ea] gives. *)
Definition load_gpr (READ : Z -> S -> outcome (Z * S)) (ea : S -> outcome Z) (inst : ss_inst) (s : S) : outcome S :=
  set_gpr_mem (RT inst) (fun s => a ← ea s; READ a s) s.
Definition load_fpr (ofs : Z) (ea : S -> outcome Z) (inst : ss_inst) (s : S) : outcome S :=
  set_fpr_mem (RT inst) (fun s => a ← ea s; READ_WORD (a + ofs) s) s.
(** The base (and index) register is read once, into temp_bs (and temp_rd). *)
Definition load_gpr_pair (ea : S -> outcome Z) (inst : ss_inst) (s : S) : outcome S :=
  s ← INTALIGN (RT inst) s;
  a ← ea s;
  s ← set_gpr_mem (Z.lxor (RT inst) (sim_swap_words cfg)) (READ_WORD a) s;
  set_gpr_mem (Z.lxor (RT inst + 1) (sim_swap_words cfg)) (READ_WORD (a + 4)) s.
Definition load_fpr_pair (ea : S -> outcome Z) (inst : ss_inst) (s : S) : outcome S :=
  s ← FPALIGN (RT inst) s;
  s ← set_fpr_mem (Z.lxor (RT inst) (sim_swap_words cfg)) (fun s => a ← ea s; READ_WORD a s) s;
  set_fpr_mem (Z.lxor (RT inst + 1) (sim_swap_words cfg)) (fun s => a ← ea s; READ_WORD (a + 4) s) s.

(** LWL and LWR: merge the bytes of the aligned word that [PROT] does not
    protect into the register. *)
Definition load_part (BASE : Z -> Z) (PROT : Z -> outcome Z) (inst : ss_inst) (s : S) : outcome S :=
  b ← GPR (RS inst) s;
  let a := u32 (b + IMM inst) in
  '(w, s) ← READ_WORD (BASE a) s;
  set_gpr (RT inst) (fun s => t ← GPR (RT inst) s; m ← PROT a;
    Ok (s32 (Z.lor (Z.land (u32 t) m) (Z.land w (u32_not m))))) s.

Definition exec_load (op : ss_opcode) (inst : ss_inst) (s : S) : outcome S :=
  let disp := ea_disp inst in let bs := RS inst in
  match op with
  | LB => INC_DEC inst (load_gpr READ_SIGNED_BYTE disp inst) bs 1 s
  | LBU => INC_DEC inst (load_gpr READ_UNSIGNED_BYTE disp inst) bs 1 s
  | LH => INC_DEC inst (load_gpr READ_SIGNED_HALF disp inst) bs 2 s
  | LHU => INC_DEC inst (load_gpr READ_UNSIGNED_HALF disp inst) bs 2 s
  | LW => INC_DEC inst (load_gpr READ_WORD disp inst) bs 4 s
  | DLW => INC_DEC inst (load_gpr_pair disp inst) bs 8 s
  | L_S => INC_DEC inst (load_fpr 0 disp inst) bs 4 s
  | L_D => INC_DEC inst (load_fpr_pair disp inst) bs 8 s
  | LWL => load_part WL_BASE (WL_PROT_MASK (target_big cfg)) inst s
  | LWR => load_part WR_BASE (WR_PROT_MASK (target_big cfg)) inst s
  | _ => Undef
  end.

Definition exec_load_rr (op : ss_opcode) (inst : ss_inst) (s : S) : outcome S :=
  let rr := ea_rr inst in let bs := RS inst in
  match op with
  | LB_RR => INC_DEC inst (load_gpr READ_SIGNED_BYTE rr inst) bs 1 s
  | LBU_RR => INC_DEC inst (load_gpr READ_UNSIGNED_BYTE rr inst) bs 1 s
  | LH_RR => INC_DEC inst (load_gpr READ_SIGNED_HALF rr inst) bs 2 s
  | LHU_RR => INC_DEC inst (load_gpr READ_UNSIGNED_HALF rr inst) bs 2 s
  | LW_RR => INC_DEC inst (load_gpr READ_WORD rr inst) bs 4 s
  | DLW_RR => INC_DEC inst (load_gpr_pair rr inst) bs 8 s
  | L_S_RR => INC_DEC inst (load_fpr 0 rr inst) bs 4 s
  | L_D_RR => INC_DEC inst (load_fpr_pair rr inst) bs 8 s
  | L_S_RR_R2 => INC_DEC inst (load_fpr 4 rr inst) bs 4 s
  | LW_RR_R2 => INC_DEC inst (load_gpr (fun a => READ_WORD (a + 4)) rr inst) bs 4 s
  | _ => Undef
  end.

(** * Stores *)

Definition store_gpr (WRITE : Z -> Z -> S -> outcome S) (ofs : Z) (ea : S -> outcome Z) (inst : ss_inst) (s : S) : outcome S :=
  v ← GPR (RT inst) s; a ← ea s; WRITE v (a + ofs) s.
Definition store_fpr (ofs : Z) (ea : S -> outcome Z) (inst : ss_inst) (s : S) : outcome S :=
  v ← FPR_L (RT inst) s; a ← ea s; WRITE_WORD v (a + ofs) s.
Definition store_gpr_pair (ea : S -> outcome Z) (inst : ss_inst) (s : S) : outcome S :=
  s ← INTALIGN (RT inst) s;
  v ← GPR (Z.lxor (RT inst) (sim_swap_words cfg)) s; a ← ea s; s ← WRITE_WORD v a s;
  v ← GPR (Z.lxor (RT inst + 1) (sim_swap_words cfg)) s; a ← ea s; WRITE_WORD v (a + 4) s.
Definition store_zero_pair (ea : S -> outcome Z) (s : S) : outcome S :=
  v ← GPR 0 s; a ← ea s; s ← WRITE_WORD v a s;
  v ← GPR 0 s; a ← ea s; WRITE_WORD v (a + 4) s.
(** S_D stores the words in register order, S_D_RR in that of [sim_swap_words]. *)
Definition store_fpr_pair (swap : Z) (ea : S -> outcome Z) (inst : ss_inst) (s : S) : outcome S :=
  s ← FPALIGN (RT inst) s;
  v ← FPR_L (Z.lxor (RT inst) swap) s; a ← ea s; s ← WRITE_WORD v a s;
  v ← FPR_L (Z.lxor (RT inst + 1) swap) s; a ← ea s; WRITE_WORD v (a + 4) s.

(** SWL and SWR: merge the register into the aligned word. *)
Definition store_part (BASE : Z -> Z) (PROT : Z -> outcome Z) (inst : ss_inst) (s : S) : outcome S :=
  a ← ea_disp inst s;
  '(w, s) ← READ_WORD (BASE a) s;
  t ← GPR (RT inst) s; m ← PROT a;
  a ← ea_disp inst s;
  WRITE_WORD (Z.lor (Z.land (u32 t) (u32_not m)) (Z.land w m)) (BASE a) s.

Definition exec_store (op : ss_opcode) (inst : ss_inst) (s : S) : outcome S :=
  let disp := ea_disp inst in let bs := RS inst in
  match op with
  | SB => INC_DEC inst (store_gpr WRITE_BYTE 0 disp inst) bs 1 s
  | SH => INC_DEC inst (store_gpr WRITE_HALF 0 disp inst) bs 2 s
  | SW => INC_DEC inst (store_gpr WRITE_WORD 0 disp inst) bs 4 s
  | DSW => INC_DEC inst (store_gpr_pair disp inst) bs 8 s
  | DSZ => INC_DEC inst (store_zero_pair disp) bs 8 s
  | S_S => INC_DEC inst (store_fpr 0 disp inst) bs 4 s
  | S_D => INC_DEC inst (store_fpr_pair 0 disp inst) bs 4 s
  | SWL => store_part WL_BASE (WL_PROT_MASK (target_big cfg)) inst s
  | SWR => store_part WR_BASE (WR_PROT_MASK (target_big cfg)) inst s
  | _ => Undef
  end.

Definition exec_store_rr (op : ss_opcode) (inst : ss_inst) (s : S) : outcome S :=
  let rr := ea_rr inst in let bs := RS inst in
  match op with
  | SB_RR => INC_DEC inst (store_gpr WRITE_BYTE 0 rr inst) bs 1 s
  | SH_RR => INC_DEC inst (store_gpr WRITE_HALF 0 rr inst) bs 2 s
  | SW_RR => INC_DEC inst (store_gpr WRITE_WORD 0 rr inst) bs 4 s
  | DSW_RR => INC_DEC inst (store_gpr_pair rr inst) bs 8 s
  | DSZ_RR => INC_DEC inst (store_zero_pair rr) bs 8 s
  | S_S_RR => INC_DEC inst (store_fpr 0 rr inst) bs 4 s
  | S_D_RR => INC_DEC inst (store_fpr_pair (sim_swap_words cfg) rr inst) bs 8 s
  | S_S_RR_R2 => INC_DEC inst (store_fpr 4 rr inst) bs 4 s
  | SW_RR_R2 => INC_DEC inst (store_gpr WRITE_WORD 4 rr inst) bs 4 s
  | _ => Undef
  end.

(** * Integer operations *)

(** [InstSRA] and [InstSRAV]: the sign bit is put back after every step. *)
Fixpoint sra_loop (n : nat) (rd : Z) (s : S) : outcome S :=
  match n with
  | O => Ok s
  | Datatypes.S n' =>
      s ← set_gpr rd (fun s => r ← GPR rd s; Ok (s32 (Z.lor (u32 (Z.shiftr r 1)) 0x80000000))) s;
      sra_loop n' rd s
  end.

Definition inst_sra (shamt : Z) (inst : ss_inst) (s : S) : outcome S :=
  t ← GPR (RT inst) s;
  if truth (Z.land (u32 t) 0x80000000) then
    s ← set_gpr (RD inst) (GPR (RT inst)) s;
    sra_loop (Z.to_nat shamt) (RD inst) s
  else set_gpr (RD inst) (fun s => t ← GPR (RT inst) s; c_shr t shamt) s.

Definition InstSRA (inst : ss_inst) (s : S) : outcome S := inst_sra (SHAMT inst) inst s.
Definition InstSRAV (inst : ss_inst) (s : S) : outcome S :=
  r ← GPR (RS inst) s; inst_sra (Z.land r 0x1f) inst s.

(** One round of the multiplication loops: double HI,LO and add [op2] when bit
    [30 - i] of the multiplier is set. *)
Definition mult_step (i : Z) (op1 op2 : Z) (s : S) : outcome S :=
  let s := SET_HI (s32 (Z.shiftl (HI s) 1)) s in
  b ← extractl (LO s) 31 1;
  let s := SET_HI (s32 (HI s + b)) s in
  let s := SET_LO (s32 (Z.shiftl (LO s) 1)) s in
  b ← extractl op1 (30 - i) 1;
  if b =? 1 then
    let s := if u32 (0xffffffff - u32 (LO s)) <? u32 op2 then SET_HI (s32 (HI s + 1)) s else s in
    Ok (SET_LO (s32 (LO s + op2)) s)
  else Ok s.

Fixpoint mult_loop (n : nat) (i : Z) (op1 op2 : S -> outcome Z) (s : S) : outcome S :=
  match n with
  | O => Ok s
  | Datatypes.S n' =>
      a ← op1 s; b ← op2 s;
      s ← mult_step i a b s;
      mult_loop n' (i + 1) op1 op2 s
  end.

(** The operand of [InstMULT] without its sign: [~x + 1] of a negative one. *)
Definition mult_operand (x : Z) : Z * bool :=
  if truth (Z.land (u32 x) 0x80000000) then (s32 (Z.lnot x + 1), true) else (x, false).

Definition InstMULT (inst : ss_inst) (s : S) : outcome S :=
  let s := SET_HI 0 s in
  let s := SET_LO 0 s in
  op1 ← GPR (RS inst) s;
  op2 ← GPR (RT inst) s;
  let '(op1, sign1) := mult_operand op1 in
  let '(op2, sign2) := mult_operand op2 in
  let s := if truth (Z.land (u32 op1) 0x80000000) then SET_LO op2 s else s in
  s ← mult_loop 31 0 (fun _ => Ok op1) (fun _ => Ok op2) s;
  if xorb sign1 sign2 then
    let s := SET_LO (Z.lnot (LO s)) s in
    let s := SET_HI (Z.lnot (HI s)) s in
    let s := if u32 (LO s) =? 0xffffffff then SET_HI (s32 (HI s + 1)) s else s in
    Ok (SET_LO (s32 (LO s + 1)) s)
  else Ok s.

Definition InstMULTU (inst : ss_inst) (s : S) : outcome S :=
  let s := SET_HI 0 s in
  let s := SET_LO 0 s in
  op1 ← GPR (RS inst) s;
  s ← (if truth (Z.land (u32 op1) 0x80000000)
       then op2 ← GPR (RT inst) s; Ok (SET_LO op2 s) else Ok s);
  mult_loop 31 0 (GPR (RS inst)) (GPR (RT inst)) s.

(** Operations on two source values: [SET_GPR(dst, f(x, y))]. *)
Definition alu (dst : Z) (x y : S -> outcome Z) (f : Z -> Z -> Z) (s : S) : outcome S :=
  set_gpr dst (fun s => x ← x s; y ← y s; Ok (s32 (f x y))) s.
Definition alu_o (dst : Z) (x y : S -> outcome Z) (f : Z -> Z -> outcome Z) (s : S) : outcome S :=
  set_gpr dst (fun s => x ← x s; y ← y s; v ← f x y; Ok (s32 v)) s.

Definition exec_arith (op : ss_opcode) (inst : ss_inst) (s : S) : outcome S :=
  let rs := GPR (RS inst) in let rt := GPR (RT inst) in let imm := fun _ => Ok (IMM inst) in
  match op with
  | ADD => x ← rs s; y ← rt s; s ← OVER x y s; alu (RD inst) rs rt Z.add s
  | ADDI => x ← rs s; s ← OVER x (IMM inst) s; alu (RT inst) rs imm Z.add s
  | ADDU => alu (RD inst) rs rt Z.add s
  | ADDIU => alu (RT inst) rs imm Z.add s
  | SUB => x ← rs s; y ← rt s; s ← UNDER x y s; alu (RD inst) rs rt Z.sub s
  | SUBU => alu (RD inst) rs rt Z.sub s
  | MULT => InstMULT inst s
  | MULTU => InstMULTU inst s
  | DIV =>
      y ← rt s; s ← DIV0 (y =? 0) s;
      x ← rs s; y ← rt s; q ← IDIV_int x y; let s := SET_LO q s in
      x ← rs s; y ← rt s; r ← IMOD_int x y; Ok (SET_HI r s)
  | DIVU =>
      y ← rt s; s ← DIV0 (y =? 0) s;
      x ← rs s; y ← rt s; q ← IDIV_int (u32 x) (u32 y); let s := SET_LO (s32 q) s in
      x ← rs s; y ← rt s; r ← IMOD_int (u32 x) (u32 y); Ok (SET_HI (s32 r) s)
  | MFHI => set_gpr (RD inst) (fun s => Ok (HI s)) s
  | MTHI => x ← rs s; Ok (SET_HI x s)
  | MFLO => set_gpr (RD inst) (fun s => Ok (LO s)) s
  | MTLO => x ← rs s; Ok (SET_LO x s)
  | _ => Undef
  end.

Definition exec_logic (op : ss_opcode) (inst : ss_inst) (s : S) : outcome S :=
  let rs := GPR (RS inst) in let rt := GPR (RT inst) in
  let rd := RD inst in let imm := fun _ => Ok (IMM inst) in let uimm := fun _ => Ok (UIMM inst) in
  match op with
  | AND_ => alu rd rs rt Z.land s
  | ANDI => alu (RT inst) rs uimm Z.land s
  | OR => alu rd rs rt Z.lor s
  | ORI => alu (RT inst) rs uimm Z.lor s
  | XOR => alu rd rs rt Z.lxor s
  | XORI => alu (RT inst) rs uimm Z.lxor s
  | NOR => alu rd rs rt (fun x y => Z.lnot (Z.lor x y)) s
  | SLL => alu_o rd rt (fun _ => Ok (SHAMT inst)) c_shl s
  | SLLV => alu_o rd rt rs (fun x y => c_shl x (Z.land y 0x1f)) s
  | SRL => alu_o rd rt (fun _ => Ok (SHAMT inst)) (fun x y => c_shr (u32 x) y) s
  | SRLV => alu_o rd rt rs (fun x y => c_shr (u32 x) (Z.land y 0x1f)) s
  | SRA => InstSRA inst s
  | SRAV => InstSRAV inst s
  | SLT => alu rd rs rt (fun x y => b2z (x <? y)) s
  | SLTI => alu (RT inst) rs imm (fun x y => b2z (x <? y)) s
  | SLTU => alu rd rs rt (fun x y => b2z (u32 x <? u32 y)) s
  | SLTIU => alu (RT inst) rs imm (fun x y => b2z (u32 x <? u32 y)) s
  | LUI => set_gpr (RT inst) (fun _ => Ok (s32 (Z.shiftl (UIMM inst) 16))) s
  | _ => Undef
  end.

(** * Floating point operations *)

(** The alignment checks the arithmetic operations start with, FS = RS, FT = RT
    and FD = RD. *)
Definition fp_align3 (inst : ss_inst) (s : S) : outcome S :=
  s ← FPALIGN (RD inst) s; s ← FPALIGN (RS inst) s; FPALIGN (RT inst) s.
Definition fp_align2 (inst : ss_inst) (s : S) : outcome S :=
  s ← FPALIGN (RD inst) s; FPALIGN (RS inst) s.
Definition fp_align_cmp (inst : ss_inst) (s : S) : outcome S :=
  s ← FPALIGN (RS inst) s; FPALIGN (RT inst) s.

(** [SET(FD, f(GET(FS), GET(FT)))] and [SET(FD, f(GET(FS)))]. *)
Definition fp_op2 (GET : Z -> S -> outcome Z) (SET : Z -> (S -> outcome Z) -> S -> outcome S) (f : Z -> Z -> Z)
    (inst : ss_inst) (s : S) : outcome S :=
  s ← fp_align3 inst s; SET (RD inst) (fun s => x ← GET (RS inst) s; y ← GET (RT inst) s; Ok (f x y)) s.
Definition fp_op1 (GET : Z -> S -> outcome Z) (SET : Z -> (S -> outcome Z) -> S -> outcome S) (f : Z -> Z)
    (inst : ss_inst) (s : S) : outcome S :=
  s ← fp_align2 inst s; SET (RD inst) (fun s => x ← GET (RS inst) s; Ok (f x)) s.
Definition fp_cmp (GET : Z -> S -> outcome Z) (f : Z -> Z -> bool) (inst : ss_inst) (s : S) : outcome S :=
  s ← fp_align_cmp inst s; x ← GET (RS inst) s; y ← GET (RT inst) s; Ok (SET_FCC (b2z (f x y)) s).
(** Division: zero (of either sign) is the pattern 0 or compares equal to it. *)
Definition fp_div (GET : Z -> S -> outcome Z) (SET : Z -> (S -> outcome Z) -> S -> outcome S) (eq : Z -> Z -> bool)
    (f : Z -> Z -> Z) (inst : ss_inst) (s : S) : outcome S :=
  s ← fp_align3 inst s;
  y ← GET (RT inst) s; s ← DIV0 (eq y 0) s;
  SET (RD inst) (fun s => x ← GET (RS inst) s; y ← GET (RT inst) s;
    Ok (if FDIV_zero && eq y 0 then 0 else f x y)) s.

Definition FINT (isnan : Z -> bool) (to_int : Z -> Z) (x : Z) : Z :=
  match FINT_nan with Some v => if isnan x then v else to_int x | None => to_int x end.

(** A move copies the bits; [fabs] and [sqrt] work on doubles. *)
Definition exec_fp (op : ss_opcode) (inst : ss_inst) (s : S) : outcome S :=
  match op with
  | FADD_S => fp_op2 FPR_F SET_FPR_F fadd_S inst s
  | FADD_D => fp_op2 FPR_D SET_FPR_D fadd_D inst s
  | FSUB_S => fp_op2 FPR_F SET_FPR_F fsub_S inst s
  | FSUB_D => fp_op2 FPR_D SET_FPR_D fsub_D inst s
  | FMUL_S => fp_op2 FPR_F SET_FPR_F fmul_S inst s
  | FMUL_D => fp_op2 FPR_D SET_FPR_D fmul_D inst s
  | FDIV_S => fp_div FPR_F SET_FPR_F feq_S fdiv_S inst s
  | FDIV_D => fp_div FPR_D SET_FPR_D feq_D fdiv_D inst s
  | FABS_S => fp_op1 FPR_F SET_FPR_F (fun x => cvt_S_D (fabs_D (cvt_D_S x))) inst s
  | FABS_D => fp_op1 FPR_D SET_FPR_D fabs_D inst s
  | FMOV_S => fp_op1 FPR_F SET_FPR_F (fun x => x) inst s
  | FMOV_D => fp_op1 FPR_D SET_FPR_D (fun x => x) inst s
  | FNEG_S => fp_op1 FPR_F SET_FPR_F fneg_S inst s
  | FNEG_D => fp_op1 FPR_D SET_FPR_D fneg_D inst s
  | FSQRT_S => fp_op1 FPR_F SET_FPR_F (fun x => cvt_S_D (fsqrt_D (cvt_D_S x))) inst s
  | FSQRT_D => fp_op1 FPR_D SET_FPR_D fsqrt_D inst s
  | _ => Undef
  end.

Definition exec_fp_conv (op : ss_opcode) (inst : ss_inst) (s : S) : outcome S :=
  match op with
  | CVT_S_D => fp_op1 FPR_D SET_FPR_F cvt_S_D inst s
  | CVT_S_W => fp_op1 FPR_L SET_FPR_F cvt_S_W inst s
  | CVT_D_S => fp_op1 FPR_F SET_FPR_D cvt_D_S inst s
  | CVT_D_W => fp_op1 FPR_L SET_FPR_D cvt_D_W inst s
  | CVT_W_S => fp_op1 FPR_F set_fpr (FINT isnan_S cvt_W_S) inst s
  | CVT_W_D => fp_op1 FPR_D set_fpr (FINT isnan_D cvt_W_D) inst s
  | C_EQ_S => fp_cmp FPR_F feq_S inst s
  | C_EQ_D => fp_cmp FPR_D feq_D inst s
  | C_LT_S => fp_cmp FPR_F flt_S inst s
  | C_LT_D => fp_cmp FPR_D flt_D inst s
  | C_LE_S => fp_cmp FPR_F fle_S inst s
  | C_LE_D => fp_cmp FPR_D fle_D inst s
  | _ => Undef
  end.

(** * The rest *)

Definition exec_misc (op : ss_opcode) (inst : ss_inst) (s : S) : outcome S :=
  match op with
  | NOP | BREAK | CFC1 | CTC1 => Ok s
  | SYSCALL => do_syscall inst s
  | MFC1 => set_gpr (RT inst) (FPR_L (RS inst)) s
  | DMFC1 =>
      s ← INTALIGN (RT inst) s; s ← FPALIGN (RS inst) s;
      s ← set_gpr (RT inst) (FPR_L (RS inst)) s; set_gpr (RT inst + 1) (FPR_L (RS inst + 1)) s
  | MTC1 => set_fpr (RS inst) (GPR (RT inst)) s
  | DMTC1 =>
      s ← FPALIGN (RS inst) s; s ← INTALIGN (RT inst) s;
      s ← set_fpr (RS inst) (GPR (RT inst)) s; set_fpr (RS inst + 1) (GPR (RT inst + 1)) s
  | _ => Undef
  end.

(** The [switch] the simulators make of ss.def; [OP_NA] is not one of its
    cases. *)
Definition execute (op : ss_opcode) (inst : ss_inst) (s : S) : outcome S :=
  match op with
  | OP_NA => Panic
  | JUMP | JAL | JR | JALR | BEQ | BNE | BLEZ | BGTZ | BLTZ | BGEZ | BC1F | BC1T => exec_control op inst s
  | LB | LBU | LH | LHU | LW | DLW | L_S | L_D | LWL | LWR => exec_load op inst s
  | SB | SH | SW | DSW | DSZ | S_S | S_D | SWL | SWR => exec_store op inst s
  | LB_RR | LBU_RR | LH_RR | LHU_RR | LW_RR | DLW_RR | L_S_RR | L_D_RR | L_S_RR_R2 | LW_RR_R2 =>
      exec_load_rr op inst s
  | SB_RR | SH_RR | SW_RR | DSW_RR | DSZ_RR | S_S_RR | S_D_RR | S_S_RR_R2 | SW_RR_R2 =>
      exec_store_rr op inst s
  | ADD | ADDI | ADDU | ADDIU | SUB | SUBU | MULT | MULTU | DIV | DIVU | MFHI | MTHI | MFLO | MTLO =>
      exec_arith op inst s
  | AND_ | ANDI | OR | ORI | XOR | XORI | NOR | SLL | SLLV | SRL | SRLV | SRA | SRAV | SLT | SLTI
  | SLTU | SLTIU | LUI => exec_logic op inst s
  | FADD_S | FADD_D | FSUB_S | FSUB_D | FMUL_S | FMUL_D | FDIV_S | FDIV_D | FABS_S | FABS_D
  | FMOV_S | FMOV_D | FNEG_S | FNEG_D | FSQRT_S | FSQRT_D => exec_fp op inst s
  | CVT_S_D | CVT_S_W | CVT_D_S | CVT_D_W | CVT_W_S | CVT_W_D | C_EQ_S | C_EQ_D | C_LT_S | C_LT_D
  | C_LE_S | C_LE_D => exec_fp_conv op inst s
  | NOP | SYSCALL | BREAK | MFC1 | DMFC1 | CFC1 | MTC1 | DMTC1 | CTC1 => exec_misc op inst s
  end.

End Execute.
