(* ===== verification/ExecMult.v ===== *)
(** The multiplication loops of ss.def compute the exact 64-bit product, and
    the shift loops of InstSRA the arithmetic shift, on every machine whose
    register accessors obey the laws below. *)

From S2P Require Import Prelude Misc Isa Exec.

(** * Laws of the register accessors *)

(** What the accessors of HI, LO and the integer registers promise in the
    states [ok]. *)
Class MachineLaws (S : Type) `{Machine S} (ok : S -> Prop) : Prop := {
  ok_set_hi v s : ok s -> ok (SET_HI v s);
  ok_set_lo v s : ok s -> ok (SET_LO v s);
  hi_set_hi v s : ok s -> HI (SET_HI v s) = s32 v;
  lo_set_hi v s : LO (SET_HI v s) = LO s;
  hi_set_lo v s : HI (SET_LO v s) = HI s;
  lo_set_lo v s : ok s -> LO (SET_LO v s) = s32 v;
  set_hi_hi v w s : SET_HI v (SET_HI w s) = SET_HI v s;
  set_lo_lo v w s : SET_LO v (SET_LO w s) = SET_LO v s;
  set_hi_lo v w s : SET_HI v (SET_LO w s) = SET_LO w (SET_HI v s);
  gpr_set_hi r v s : GPR r (SET_HI v s) = GPR r s;
  gpr_set_lo r v s : GPR r (SET_LO v s) = GPR r s;
  gpr_range r s x : ok s -> GPR r s = Ok x -> - 2 ^ 31 <= x < 2 ^ 31;
  gpr_set_gpr r v s s' : ok s -> SET_GPR r v s = Ok s' -> GPR r s' = Ok (s32 v);
  mark_gpr_ok r s : ok s -> MARK_GPR r s = Ok s;
  set_gpr_gpr r v w s s' : SET_GPR r v s = Ok s' -> SET_GPR r w s' = SET_GPR r w s;
  set_gpr_total r v s : ok s -> 0 <= r < 32 -> exists s', SET_GPR r v s = Ok s';
  set_gpr_ok r v s s' : ok s -> SET_GPR r v s = Ok s' -> ok s';
}.

(** * Bits of words *)

Lemma u32_s32_id (x : Z) : - 2 ^ 31 <= x < 2 ^ 31 -> s32 (u32 x) = x.
Proof. intros H. rewrite s32_u32. by apply s32_small. Qed.

Lemma s32_s32 (x : Z) : s32 (s32 x) = s32 x.
Proof. apply s32_small, s32_range. Qed.

Lemma s32_lnot (x : Z) : s32 (Z.lnot (s32 x)) = Z.lnot (s32 x).
Proof. apply s32_small. pose proof (s32_range x). unfold Z.lnot. lia. Qed.

Lemma u32_bound (x : Z) : 0 <= u32 x < 4294967296.
Proof. apply u32_range. Qed.

(** The words of a 64-bit number. *)
Definition hi_word (p : Z) : Z := s32 (p / 2 ^ 32).
Definition lo_word (p : Z) : Z := s32 p.

Lemma extractl_bit (w i : Z) : 0 <= i < 32 -> extractl w i 1 = Ok (b2z (Z.testbit (u32 w) i)).
Proof.
  intros Hi. unfold extractl. replace (i + 1 - 1) with i by lia.
  replace ((0 <=? i) && (i <? 32) && (0 <=? 1) && (1 <? 32)) with true by (symmetry; blia).
  f_equal. replace (u32_not (u32 (Z.shiftl (-1) 1))) with (Z.ones 1) by reflexivity.
  rewrite Z.land_ones, Z.pow_1_r by lia. rewrite Z.shiftr_div_pow2, <- Z.bit0_mod by lia.
  rewrite <- Z.shiftr_div_pow2, Z.shiftr_spec, Z.add_0_l by lia. by destruct (Z.testbit _ _).
Qed.

Lemma sign_bit (x : Z) : - 2 ^ 31 <= x < 2 ^ 31 -> truth (Z.land (u32 x) 0x80000000) = (x <? 0).
Proof.
  intros Hx. unfold truth. change 0x80000000 with (2 ^ 31).
  assert (Hb : Z.testbit (u32 x) 31 = (x <? 0)).
  { destruct (Z.ltb_spec x 0) as [Hn|Hn].
    - replace (u32 x) with (x + 2 ^ 32).
      + apply Z.testbit_true; [lia|].
        by replace ((x + 2 ^ 32) / 2 ^ 31) with 1 by (apply Z.div_unique with (x + 2 ^ 31); lia).
      + unfold u32. rewrite <- (Z.mod_small (x + 2 ^ 32) (2 ^ 32)) by lia.
        by rewrite <- (Z_mod_plus_full x 1 (2 ^ 32)), Z.mul_1_l.
    - rewrite u32_small by lia. apply Z.testbit_false; [lia|]. by rewrite Z.div_small by lia. }
  rewrite <- Hb. destruct (Z.testbit (u32 x) 31) eqn:E.
  - apply negb_true_iff, Z.eqb_neq. intros H0.
    assert (Ht : Z.testbit (Z.land (u32 x) (2 ^ 31)) 31 = true) by (rewrite Z.land_spec, E; done).
    by rewrite H0 in Ht.
  - apply negb_false_iff, Z.eqb_eq. apply Z.bits_inj'. intros n Hn.
    rewrite Z.land_spec, Z.pow2_bits_eqb, Z.testbit_0_l by lia.
    destruct (Z.eqb_spec 31 n) as [<-|]; [by rewrite E|by rewrite andb_false_r].
Qed.

(** * The multiplication loop *)

Section Mult.
Context {S : Type} {machine : Machine S} {ok : S -> Prop} {laws : MachineLaws S ok}.

Definition with_hilo (p : Z) (s : S) : S := SET_LO (lo_word p) (SET_HI (hi_word p) s).

Lemma hi_with p s : ok s -> HI (with_hilo p s) = hi_word p.
Proof. intros. unfold with_hilo, hi_word. rewrite hi_set_lo, hi_set_hi by done. apply s32_s32. Qed.

Lemma lo_with p s : ok s -> LO (with_hilo p s) = lo_word p.
Proof. intros. unfold with_hilo, lo_word. rewrite lo_set_lo by (by apply ok_set_hi). apply s32_s32. Qed.

Lemma set_hi_with v p s : SET_HI v (with_hilo p s) = SET_LO (lo_word p) (SET_HI v s).
Proof. unfold with_hilo. by rewrite set_hi_lo, set_hi_hi. Qed.

Lemma set_both h l p s : SET_LO l (SET_HI h (with_hilo p s)) = SET_LO l (SET_HI h s).
Proof. by rewrite set_hi_with, set_lo_lo. Qed.

(** Doubling the 64-bit number. *)
Lemma double_hi p : 0 <= p -> s32 (s32 (Z.shiftl (hi_word p) 1) + b2z (Z.testbit (u32 (lo_word p)) 31)) = hi_word (2 * p).
Proof.
  intros Hp. unfold hi_word, lo_word. rewrite u32_s32.
  assert (Hb : b2z (Z.testbit (u32 p) 31) = u32 p / 2 ^ 31).
  { transitivity (Z.b2z (Z.testbit (u32 p) 31)); [by destruct (Z.testbit _ _)|].
    rewrite Z.testbit_spec' by lia. apply Z.mod_small. pose proof (u32_bound p).
    split; [apply Z.div_pos; lia|apply Z.div_lt_upper_bound; lia]. }
  rewrite Hb. rewrite <- (s32_u32 (2 * p / 2 ^ 32)), <- (s32_u32 (s32 _ + _)). f_equal.
  unfold u32, s32. rewrite Z.shiftl_mul_pow2 by lia. rewrite Z.pow_1_r.
  pose proof (Z.div_mod p (2 ^ 32)). pose proof (Z.mod_pos_bound p (2 ^ 32)).
  set (q := p / 2 ^ 32) in *. set (r := p mod 2 ^ 32) in *.
  assert (Hd : 2 * p / 2 ^ 32 = 2 * q + r / 2 ^ 31).
  { replace (2 * p) with (2 * r + (2 * q) * 2 ^ 32) by lia. rewrite Z.div_add by lia.
    replace (2 ^ 32) with (2 * 2 ^ 31) by lia. rewrite Z.div_mul_cancel_l by lia. lia. }
  rewrite Hd. set (t := r / 2 ^ 31). clearbody q t. clear.
  Z.to_euclidean_division_equations. lia.
Qed.

Lemma double_lo p : s32 (Z.shiftl (lo_word p) 1) = lo_word (2 * p).
Proof.
  unfold lo_word. rewrite Z.shiftl_mul_pow2, Z.pow_1_r by lia.
  rewrite <- (s32_u32 (2 * p)), <- (s32_u32 (s32 p * 2)). f_equal. unfold u32, s32.
  Z.to_euclidean_division_equations. lia.
Qed.

(** Adding an unsigned word to the 64-bit number. *)
Lemma add_lo d b : s32 (lo_word d + b) = lo_word (d + u32 b).
Proof.
  unfold lo_word. rewrite <- (s32_u32 (s32 d + b)), <- (s32_u32 (d + u32 b)). f_equal. unfold u32, s32.
  Z.to_euclidean_division_equations. lia.
Qed.

Lemma add_hi d b : 0 <= d ->
  (if u32 (0xffffffff - u32 (lo_word d)) <? u32 b then s32 (hi_word d + 1) else hi_word d) = hi_word (d + u32 b).
Proof.
  intros Hd. unfold hi_word, lo_word. rewrite u32_s32.
  pose proof (u32_bound d). pose proof (u32_bound b). rewrite (u32_small (0xffffffff - u32 d)) by lia.
  pose proof (Z.div_mod d (2 ^ 32) ltac:(lia)) as Hdm. change (d mod 2 ^ 32) with (u32 d) in Hdm.
  destruct (Z.ltb_spec (0xffffffff - u32 d) (u32 b)).
  - replace ((d + u32 b) / 2 ^ 32) with (d / 2 ^ 32 + 1)
      by (apply Z.div_unique with (u32 d + u32 b - 2 ^ 32); lia).
    generalize (d / 2 ^ 32) as q. clear. intros q.
    rewrite <- (s32_u32 (s32 q + 1)), <- (s32_u32 (q + 1)). f_equal. unfold u32, s32.
    Z.to_euclidean_division_equations. lia.
  - f_equal. apply Z.div_unique with (u32 d + u32 b); lia.
Qed.

Lemma mult_step_spec i a b p s :
  ok s -> 0 <= p -> 0 <= i <= 30 ->
  mult_step i a b (with_hilo p s) =
    Ok (with_hilo (2 * p + (if Z.testbit (u32 a) (30 - i) then u32 b else 0)) s).
Proof.
  intros Hok Hp Hi. unfold mult_step. set (X := SET_HI (s32 (Z.shiftl (HI (with_hilo p s)) 1)) (with_hilo p s)).
  assert (HX : X = SET_LO (lo_word p) (SET_HI (s32 (Z.shiftl (hi_word p) 1)) s)).
  { unfold X. by rewrite hi_with, set_hi_with. }
  pose proof (ok_set_hi (s32 (Z.shiftl (hi_word p) 1)) s Hok) as Hok1.
  assert (HlX : LO X = lo_word p) by (unfold lo_word in *; by rewrite HX, lo_set_lo, s32_s32).
  rewrite HlX, (extractl_bit (lo_word p) 31) by lia. cbn [mbind outcome_bind].
  set (bit := b2z (Z.testbit (u32 (lo_word p)) 31)).
  assert (E2 : SET_LO (s32 (Z.shiftl (LO (SET_HI (s32 (HI X + bit)) X)) 1)) (SET_HI (s32 (HI X + bit)) X) = with_hilo (2 * p) s).
  { rewrite lo_set_hi, HlX, double_lo, HX, hi_set_lo, hi_set_hi, s32_s32, set_hi_lo, set_hi_hi, set_lo_lo by done.
    unfold bit. by rewrite double_hi. }
  cbv zeta. rewrite !E2. clear X HX HlX bit E2 Hok1.
  rewrite (extractl_bit a) by lia. cbn [mbind outcome_bind].
  destruct (Z.testbit (u32 a) (30 - i)); cbn [b2z Z.eqb Pos.eqb].
  - rewrite lo_with, hi_with, set_hi_with by done. unfold with_hilo at 2.
    f_equal. transitivity (SET_LO (s32 (lo_word (2 * p) + b)) (SET_HI (if u32 (0xffffffff - u32 (lo_word (2 * p))) <? u32 b
      then s32 (hi_word (2 * p) + 1) else hi_word (2 * p)) s)).
    + destruct (_ <? _).
      * unfold lo_word. by rewrite lo_set_lo, set_lo_lo, s32_s32 by (by apply ok_set_hi).
      * by rewrite lo_with, set_lo_lo.
    + rewrite add_hi, add_lo by lia. done.
  - by rewrite Z.add_0_r.
Qed.

Lemma testbit_mod x n : 0 <= n -> 0 <= x ->
  x mod 2 ^ (n + 1) = b2z (Z.testbit x n) * 2 ^ n + x mod 2 ^ n.
Proof.
  intros Hn Hx. replace (b2z (Z.testbit x n)) with (Z.b2z (Z.testbit x n)) by (by destruct (Z.testbit x n)).
  rewrite Z.testbit_spec' by done. rewrite Z.pow_add_r, Z.pow_1_r by lia.
  rewrite Z.rem_mul_r by (pose proof (pow2_pos n Hn); lia). lia.
Qed.

Lemma mult_loop_spec op1 op2 a b s n : forall i p,
  (forall p, op1 (with_hilo p s) = Ok a) -> (forall p, op2 (with_hilo p s) = Ok b) ->
  ok s -> 0 <= p -> 0 <= i -> i + Z.of_nat n = 31 ->
  mult_loop n i op1 op2 (with_hilo p s) =
    Ok (with_hilo (p * 2 ^ Z.of_nat n + (u32 a mod 2 ^ Z.of_nat n) * u32 b) s).
Proof.
  induction n as [|n IH]; intros i p H1 H2 Hok Hp Hi Hn; cbn [mult_loop].
  - do 2 f_equal. rewrite Z.pow_0_r, Z.mod_1_r. lia.
  - rewrite H1, H2. cbn [mbind outcome_bind]. rewrite mult_step_spec by (done || lia). cbn [mbind outcome_bind].
    pose proof (u32_bound a). pose proof (u32_bound b).
    rewrite IH; [|done|done|done|destruct (Z.testbit _ _); lia|lia|lia].
    do 2 f_equal. rewrite Nat2Z.inj_succ, <- Z.add_1_r, (testbit_mod (u32 a)), Z.pow_add_r, Z.pow_1_r by lia.
    replace (30 - i) with (Z.of_nat n) by lia. destruct (Z.testbit (u32 a) (Z.of_nat n)); cbn [b2z]; lia.
Qed.

(** * The instructions *)

(** HI and LO hold the two's complement 64-bit number [p]. *)
Definition holds_product (p : Z) (s : S) : Prop := HI s * 2 ^ 32 + u32 (LO s) = p.

Lemma with_hilo_holds p s : ok s -> - 2 ^ 63 <= p < 2 ^ 63 -> holds_product p (with_hilo p s).
Proof.
  intros Hok Hp. unfold holds_product. rewrite hi_with, lo_with by done. unfold hi_word, lo_word.
  rewrite u32_s32, s32_small by (split; [apply Z.div_le_lower_bound|apply Z.div_lt_upper_bound]; lia).
  unfold u32. pose proof (Z.div_mod p (2 ^ 32)). lia.
Qed.

Lemma with_hilo_zero s : SET_LO 0 (SET_HI 0 s) = with_hilo 0 s.
Proof. done. Qed.

Lemma with_hilo_lo b s : - 2 ^ 31 <= b < 2 ^ 31 -> SET_LO b (with_hilo 0 s) = with_hilo (u32 b) s.
Proof.
  intros Hb. unfold with_hilo. rewrite set_lo_lo. f_equal.
  - unfold lo_word. by rewrite u32_s32_id.
  - f_equal. unfold hi_word. rewrite (Z.div_small (u32 b)) by apply u32_bound. done.
Qed.

(** The loop from the initial value the code chooses for operand [a]. *)
Lemma mult_whole_loop op1 op2 a b s :
  (forall p, op1 (with_hilo p s) = Ok a) -> (forall p, op2 (with_hilo p s) = Ok b) ->
  ok s -> - 2 ^ 31 <= a < 2 ^ 31 -> - 2 ^ 31 <= b < 2 ^ 31 ->
  mult_loop 31 0 op1 op2 (if truth (Z.land (u32 a) 0x80000000) then SET_LO b (with_hilo 0 s) else with_hilo 0 s) =
    Ok (with_hilo (u32 a * u32 b) s).
Proof.
  intros H1 H2 Hok Ha Hb. rewrite sign_bit by done. pose proof (u32_bound b).
  assert (Hm : u32 a = (if a <? 0 then 1 else 0) * 2 ^ 31 + u32 a mod 2 ^ Z.of_nat 31).
  { pose proof (u32_bound a). change (Z.of_nat 31) with 31.
    assert (u32 a / 2 ^ 31 = if a <? 0 then 1 else 0); [|pose proof (Z.div_mod (u32 a) (2 ^ 31)); lia].
    unfold u32. symmetry. destruct (Z.ltb_spec a 0).
    - apply Z.div_unique with (a + 2 ^ 31); [lia|]. rewrite <- (Z_mod_plus_full a 1), Z.mod_small; lia.
    - apply Z.div_unique with a; [lia|]. rewrite Z.mod_small; lia. }
  destruct (a <? 0).
  - rewrite with_hilo_lo, (mult_loop_spec op1 op2 a b) by (done || lia). do 2 f_equal. lia.
  - rewrite (mult_loop_spec op1 op2 a b) by (done || lia). do 2 f_equal. lia.
Qed.

Lemma negate_hilo p s : ok s ->
  (let s1 := SET_LO (Z.lnot (LO (with_hilo p s))) (with_hilo p s) in
   let s1 := SET_HI (Z.lnot (HI s1)) s1 in
   let s1 := if u32 (LO s1) =? 0xffffffff then SET_HI (s32 (HI s1 + 1)) s1 else s1 in
   SET_LO (s32 (LO s1 + 1)) s1) = with_hilo (- p) s.
Proof.
  intros Hok. cbv zeta. rewrite lo_with, hi_set_lo, hi_with by done.
  set (l := Z.lnot (lo_word p)). set (h := Z.lnot (hi_word p)).
  assert (E : SET_HI h (SET_LO l (with_hilo p s)) = SET_LO l (SET_HI h s)).
  { by rewrite set_hi_lo, set_hi_with, set_lo_lo. }
  rewrite E. pose proof (ok_set_hi h s Hok) as Hokh. rewrite lo_set_lo, hi_set_lo, hi_set_hi by done.
  assert (El : s32 l = l) by apply s32_lnot. assert (Eh : s32 h = h) by apply s32_lnot. rewrite El, Eh.
  assert (Hl : u32 l = 0xffffffff <-> u32 p = 0).
  { unfold l, lo_word, Z.lnot, u32, s32. clear. Z.to_euclidean_division_equations. lia. }
  transitivity (SET_LO (s32 (l + 1)) (SET_HI (if u32 l =? 0xffffffff then s32 (h + 1) else h) s)).
  { destruct (u32 l =? 0xffffffff); [rewrite set_hi_lo, set_hi_hi|]; rewrite lo_set_lo, set_lo_lo, El by (done || by apply ok_set_hi); done. }
  unfold with_hilo. f_equal.
  - unfold l, lo_word, Z.lnot. rewrite <- (s32_u32 (- p)), <- (s32_u32 (_ + 1)). f_equal. unfold u32, s32. clear.
    Z.to_euclidean_division_equations. lia.
  - f_equal. unfold hi_word. unfold h, hi_word, Z.lnot.
    pose proof (Z.div_mod p (2 ^ 32) ltac:(lia)) as Hp. change (p mod 2 ^ 32) with (u32 p) in Hp.
    pose proof (u32_bound p). generalize dependent (p / 2 ^ 32). intros q Hp.
    destruct (Z.eqb_spec (u32 l) 0xffffffff) as [Hc|Hc].
    + apply Hl in Hc. replace (- p / 2 ^ 32) with (- q) by (apply Z.div_unique with 0; lia).
      rewrite <- (s32_u32 (- q)), <- (s32_u32 (_ + 1)). f_equal. unfold u32, s32. clear.
      Z.to_euclidean_division_equations. lia.
    + assert (u32 p <> 0) by tauto.
      replace (- p / 2 ^ 32) with (- q - 1) by (apply Z.div_unique with (2 ^ 32 - u32 p); lia).
      unfold s32. clear. Z.to_euclidean_division_equations. lia.
Qed.

(** The operand without its sign: its absolute value, as an unsigned word. *)
Lemma mult_operand_spec x :
  - 2 ^ 31 <= x < 2 ^ 31 ->
  (mult_operand x).2 = (x <? 0) /\ u32 (mult_operand x).1 = Z.abs x /\
  - 2 ^ 31 <= (mult_operand x).1 < 2 ^ 31.
Proof.
  intros Hx. unfold mult_operand. rewrite sign_bit by done. destruct (Z.ltb_spec x 0); cbn [fst snd].
  - split; [done|]. rewrite u32_s32. split; [|apply s32_range].
    rewrite u32_small; [unfold Z.lnot; lia|unfold Z.lnot; lia].
  - split; [done|]. split; [rewrite u32_small; lia|done].
Qed.

Lemma gpr_with r p s : GPR r (with_hilo p s) = GPR r s.
Proof. unfold with_hilo. by rewrite gpr_set_lo, gpr_set_hi. Qed.

Lemma InstMULT_spec inst s x y :
  ok s -> GPR (RS inst) s = Ok x -> GPR (RT inst) s = Ok y ->
  InstMULT inst s = Ok (with_hilo (x * y) s).
Proof.
  intros Hok Hx Hy. unfold InstMULT. rewrite with_hilo_zero, !gpr_with, Hx. cbn [mbind outcome_bind].
  rewrite Hy. cbn [mbind outcome_bind].
  pose proof (gpr_range _ _ _ Hok Hx) as Hrx. pose proof (gpr_range _ _ _ Hok Hy) as Hry.
  destruct (mult_operand_spec x Hrx) as (Hs1 & Hu1 & Hr1). destruct (mult_operand_spec y Hry) as (Hs2 & Hu2 & Hr2).
  destruct (mult_operand x) as [a s1], (mult_operand y) as [b s2]. cbn [fst snd] in *.
  rewrite (mult_whole_loop _ _ a b) by done. cbn [mbind outcome_bind]. rewrite Hu1, Hu2, Hs1, Hs2.
  destruct (Z.ltb_spec x 0), (Z.ltb_spec y 0); cbn [xorb].
  - do 2 f_equal. lia.
  - pose proof (negate_hilo (Z.abs x * Z.abs y) s Hok) as Hneg. cbv zeta in Hneg. rewrite Hneg. do 2 f_equal. lia.
  - pose proof (negate_hilo (Z.abs x * Z.abs y) s Hok) as Hneg. cbv zeta in Hneg. rewrite Hneg. do 2 f_equal. lia.
  - do 2 f_equal. lia.
Qed.

Lemma InstMULTU_spec inst s x y :
  ok s -> GPR (RS inst) s = Ok x -> GPR (RT inst) s = Ok y ->
  InstMULTU inst s = Ok (with_hilo (u32 x * u32 y) s).
Proof.
  intros Hok Hx Hy. unfold InstMULTU. rewrite with_hilo_zero, !gpr_with, Hx. cbn [mbind outcome_bind].
  rewrite Hy. cbn [mbind outcome_bind].
  pose proof (mult_whole_loop (GPR (RS inst)) (GPR (RT inst)) x y s) as Hl.
  rewrite <- Hl; [|by intros; rewrite gpr_with|by intros; rewrite gpr_with|done|by eapply gpr_range..].
  by destruct (truth _).
Qed.

(** * Arithmetic shifts *)

Lemma sra_step x : - 2 ^ 31 <= x < 0 -> s32 (Z.lor (u32 (Z.shiftr x 1)) 0x80000000) = Z.shiftr x 1.
Proof.
  intros Hx. rewrite Z.shiftr_div_pow2, Z.pow_1_r by lia.
  assert (Hr : - 2 ^ 30 <= x / 2 < 0) by (split; [apply Z.div_le_lower_bound|apply Z.div_lt_upper_bound]; lia).
  set (y := x / 2) in *. clearbody y.
  assert (Hu : u32 y = y + 2 ^ 32).
  { unfold u32. rewrite <- (Z_mod_plus_full y 1), Z.mul_1_l. apply Z.mod_small. lia. }
  assert (Hlor : Z.lor (u32 y) 0x80000000 = u32 y).
  { rewrite Hu. replace (y + 2 ^ 32) with (1 * 2 ^ 31 + (y + 2 ^ 31)) by lia.
    rewrite <- (lor_add 1 (y + 2 ^ 31) 31) by lia. change (1 * 2 ^ 31) with 0x80000000.
    rewrite (Z.lor_comm (Z.lor _ _)), Z.lor_assoc, Z.lor_diag. done. }
  rewrite Hlor, Hu. rewrite <- (s32_u32 (y + 2 ^ 32)). unfold u32.
  rewrite <- (Z.mul_1_l (2 ^ 32)) at 1. rewrite Z_mod_plus_full. change (y mod 2 ^ 32) with (u32 y).
  rewrite s32_u32. apply s32_small. lia.
Qed.

Lemma set_gpr_at N (EXPR : S -> outcome Z) s v : ok s -> EXPR s = Ok v -> set_gpr N EXPR s = SET_GPR N v s.
Proof. intros Hok Hv. unfold set_gpr. rewrite mark_gpr_ok by done. cbn [mbind outcome_bind]. by rewrite Hv. Qed.

Lemma sra_loop_spec rd s0 n : forall x s,
  - 2 ^ 31 <= x < 0 -> SET_GPR rd x s0 = Ok s -> ok s0 -> 0 <= rd < 32 ->
  sra_loop n rd s = SET_GPR rd (Z.shiftr x (Z.of_nat n)) s0.
Proof.
  induction n as [|n IH]; intros x s Hx Hs Hok Hrd; cbn [sra_loop].
  - rewrite Z.shiftr_0_r. done.
  - rewrite (set_gpr_at _ _ _ (Z.shiftr x 1)); [|by eapply set_gpr_ok|].
    2: { rewrite (gpr_set_gpr rd x s0 s), s32_small by (done || lia). cbn [mbind outcome_bind]. by rewrite sra_step. }
    rewrite (set_gpr_gpr _ _ _ _ _ Hs).
    assert (Hr : - 2 ^ 31 <= Z.shiftr x 1 < 0).
    { rewrite Z.shiftr_div_pow2 by lia. split; [apply Z.div_le_lower_bound|apply Z.div_lt_upper_bound]; lia. }
    rewrite Nat2Z.inj_succ, <- Z.add_1_l, <- Z.shiftr_shiftr by lia.
    destruct (set_gpr_total rd (Z.shiftr x 1) s0 Hok Hrd) as [s' Hs']. rewrite Hs'. cbn [mbind outcome_bind].
    by apply IH.
Qed.

Lemma inst_sra_spec inst s x shamt :
  ok s -> GPR (RT inst) s = Ok x -> 0 <= RD inst < 32 -> 0 <= shamt < 32 ->
  inst_sra shamt inst s = SET_GPR (RD inst) (Z.shiftr x shamt) s.
Proof.
  intros Hok Hx Hrd Hsh. pose proof (gpr_range _ _ _ Hok Hx) as Hr. unfold inst_sra. rewrite Hx. cbn [mbind outcome_bind].
  rewrite sign_bit by done. destruct (Z.ltb_spec x 0) as [Hn|Hn].
  - rewrite (set_gpr_at _ _ _ x) by done.
    destruct (set_gpr_total (RD inst) x s Hok Hrd) as [s' Hs]. rewrite Hs. cbn [mbind outcome_bind].
    rewrite (sra_loop_spec _ s _ x s'), Z2Nat.id by (done || lia). done.
  - rewrite (set_gpr_at _ _ _ (Z.shiftr x shamt)); [done|done|]. rewrite Hx. cbn [mbind outcome_bind].
    unfold c_shr. by replace ((0 <=? shamt) && (shamt <? 32)) with true by (symmetry; blia).
Qed.
End Mult.
