(* ===== verification/ExecMeta.v ===== *)
(** Two facts about every instruction of ss.def at once: a relation between two
    machines that their register, memory and fault macros respect is respected
    by [execute], and a property of states that the macros preserve without
    declaring a fault is preserved by [execute] without a fault. *)

From S2P Require Import Prelude Misc Isa Exec.

Create HintDb execsim.

(** * Simulation *)

(** If the first execution gives a value, so does the second, a related one;
    the first faults only when [bad] holds. *)
Definition osim {A B : Type} (bad : Prop) (R : A -> B -> Prop) (m1 : outcome A) (m2 : outcome B) : Prop :=
  match m1 with
  | Ok a => exists b, m2 = Ok b /\ R a b
  | Undef => True
  | Exit _ | Fatal | Panic | AssertFail | NoFuel => bad
  end.

(** Executions that have a value or none in C. *)
Definition plain {A : Type} (m : outcome A) : Prop :=
  match m with Ok _ | Undef => True | _ => False end.

Lemma osim_ok {A B : Type} (bad : Prop) (R : A -> B -> Prop) a b : R a b -> osim bad R (Ok a) (Ok b).
Proof. intros HR. exists b. done. Qed.

Lemma osim_bind {A B A' B' : Type} (bad : Prop) (R : A -> B -> Prop) (R' : A' -> B' -> Prop) m1 m2 k1 k2 :
  osim bad R m1 m2 -> (forall a b, m1 = Ok a -> R a b -> osim bad R' (k1 a) (k2 b)) ->
  osim bad R' (mbind k1 m1) (mbind k2 m2).
Proof.
  intros Hm Hk. destruct m1 as [a| | | | | |]; cbn in Hm |- *; try done.
  destruct Hm as (b & -> & HR). cbn. by apply Hk.
Qed.

Lemma osim_plain {A : Type} (bad : Prop) (m : outcome A) : plain m -> osim bad eq m m.
Proof. destruct m; cbn; try done. eauto. Qed.

Lemma osim_undef {A B : Type} (bad : Prop) (R : A -> B -> Prop) (m : outcome B) : osim bad R Undef m.
Proof. done. Qed.

Lemma osim_inv {A B : Type} (bad : Prop) (R : A -> B -> Prop) m1 m2 a :
  osim bad R m1 m2 -> m1 = Ok a -> exists b, m2 = Ok b /\ R a b.
Proof. intros H ->. exact H. Qed.

Lemma plain_bind {A B : Type} (m : outcome A) (k : A -> outcome B) :
  plain m -> (forall a, plain (k a)) -> plain (mbind k m).
Proof. destruct m; cbn; auto. Qed.

Lemma plain_c_get {A : Type} (l : list A) i : plain (c_get l i).
Proof. unfold c_get. by destruct (l !! i). Qed.

Lemma plain_extractl w p n : plain (extractl w p n).
Proof. unfold extractl. by destruct (_ && _). Qed.

Lemma plain_c_shl x n : plain (c_shl x n).
Proof. unfold c_shl. by destruct (_ && _). Qed.

Lemma plain_c_shr x n : plain (c_shr x n).
Proof. unfold c_shr. by destruct (_ && _). Qed.

Lemma plain_tab_step tab size inst : plain (tab_step tab size inst).
Proof. apply plain_bind; intros; apply plain_c_get. Qed.

Lemma plain_WL_PROT_MASK big a : plain (WL_PROT_MASK big a).
Proof. apply plain_c_get. Qed.

Lemma plain_WR_PROT_MASK big a : plain (WR_PROT_MASK big a).
Proof. apply plain_bind; [apply plain_c_get|done]. Qed.

#[export] Hint Resolve plain_c_get plain_extractl plain_c_shl plain_c_shr plain_tab_step
  plain_WL_PROT_MASK plain_WR_PROT_MASK : execsim.

(** What [R] must satisfy: related machines read the same values, related
    states stay related, and if the first machine goes on after a fault, the
    two machines divide by zero alike; floats are divided alike by every
    denominator, unless the one checked is the one used. *)
Class MachineSim {S1 S2 : Type} `{M1 : Machine S1} `{M2 : Machine S2} (bad : Prop) (R : S1 -> S2 -> Prop) : Prop := {
  sim_cpc s1 s2 : R s1 s2 -> CPC s1 = CPC s2;
  sim_set_npc v s1 s2 : R s1 s2 -> R (SET_NPC v s1) (SET_NPC v s2);
  sim_set_tpc v s1 s2 : R s1 s2 -> R (SET_TPC v s1) (SET_TPC v s2);
  sim_gpr r s1 s2 : R s1 s2 -> osim bad eq (GPR r s1) (GPR r s2);
  sim_mark_gpr r s1 s2 : R s1 s2 -> osim bad R (MARK_GPR r s1) (MARK_GPR r s2);
  sim_set_gpr r v s1 s2 : R s1 s2 -> osim bad R (SET_GPR r v s1) (SET_GPR r v s2);
  sim_fpr r s1 s2 : R s1 s2 -> osim bad eq (FPR_L r s1) (FPR_L r s2);
  sim_mark_fpr r s1 s2 : R s1 s2 -> osim bad R (MARK_FPR r s1) (MARK_FPR r s2);
  sim_set_fpr r v s1 s2 : R s1 s2 -> osim bad R (SET_FPR_L r v s1) (SET_FPR_L r v s2);
  sim_hi s1 s2 : R s1 s2 -> HI s1 = HI s2;
  sim_set_hi v s1 s2 : R s1 s2 -> R (SET_HI v s1) (SET_HI v s2);
  sim_lo s1 s2 : R s1 s2 -> LO s1 = LO s2;
  sim_set_lo v s1 s2 : R s1 s2 -> R (SET_LO v s1) (SET_LO v s2);
  sim_fcc s1 s2 : R s1 s2 -> FCC s1 = FCC s2;
  sim_set_fcc v s1 s2 : R s1 s2 -> R (SET_FCC v s1) (SET_FCC v s2);
  sim_read t a s1 s2 : R s1 s2 ->
    osim bad (fun x y => x.1 = y.1 /\ R x.2 y.2) (READ_MEM t a s1) (READ_MEM t a s2);
  sim_write t v a s1 s2 : R s1 s2 -> osim bad R (WRITE_MEM t v a s1) (WRITE_MEM t v a s2);
  sim_gpr_range r s1 s2 x : R s1 s2 -> GPR r s1 = Ok x -> - 2 ^ 31 <= x < 2 ^ 31;
  sim_gpr_lo r v s1 s2 : R s1 s2 -> GPR r (SET_LO v s1) = GPR r s1;
  sim_ifail s1 s2 : R s1 s2 -> osim bad R (IFAIL s1) (IFAIL s2);
  sim_idiv a b : b <> 0 -> osim bad eq (IDIV_int (S:=S1) a b) (IDIV_int (S:=S2) a b);
  sim_imod a b : b <> 0 -> osim bad eq (IMOD_int (S:=S1) a b) (IMOD_int (S:=S2) a b);
  sim_fdiv : FDIV_zero (S:=S1) = FDIV_zero (S:=S2) \/
    (forall r s1 s2, R s1 s2 -> MARK_FPR r s1 = Ok s1 /\ MARK_FPR r s2 = Ok s2);
  sim_div0 s1 s2 s : R s1 s2 -> IFAIL s1 = Ok s ->
    (forall a b, osim bad eq (IDIV_int (S:=S1) a b) (IDIV_int (S:=S2) a b)) /\
    (forall a b, osim bad eq (IMOD_int (S:=S1) a b) (IMOD_int (S:=S2) a b)) /\
    FDIV_zero (S:=S1) = FDIV_zero (S:=S2);
}.

Section Simulation.
Context {S1 S2 : Type} {M1 : Machine S1} {M2 : Machine S2} {bad : Prop} {R : S1 -> S2 -> Prop} {sim : MachineSim bad R} {fp : HostFP}.
Variable cfg : byte_config.

Definition read_rel (x : Z * S1) (y : Z * S2) : Prop := x.1 = y.1 /\ R x.2 y.2.

(** [R] of states built by total setters. *)
Ltac sim_state :=
  solve [repeat first [assumption | apply sim_set_npc | apply sim_set_tpc | apply sim_set_hi
    | apply sim_set_lo | apply sim_set_fcc]].

Ltac sim_base :=
  solve
    [ apply osim_ok; solve [sim_state | reflexivity | split; [reflexivity|sim_state]]
    | apply sim_gpr; sim_state
    | apply sim_mark_gpr; sim_state
    | apply sim_mark_fpr; sim_state
    | apply sim_fpr; sim_state
    | apply sim_set_gpr; sim_state
    | apply sim_set_fpr; sim_state
    | apply sim_read; sim_state
    | apply sim_write; sim_state
    | apply osim_undef
    | apply osim_plain; auto with execsim
    | eauto with execsim ].

(** Reads of related states replaced by those of the second, and a walk of two
    executions in lockstep, the intermediate relation decided by the
    type of the intermediate value. *)
Ltac sim_values :=
  repeat match goal with
  | HR : R ?s1 ?s2 |- context [CPC ?s1] => rewrite (sim_cpc s1 s2 HR)
  | HR : R ?s1 ?s2 |- context [HI ?s1] => rewrite (sim_hi s1 s2 HR)
  | HR : R ?s1 ?s2 |- context [LO ?s1] => rewrite (sim_lo s1 s2 HR)
  | HR : R ?s1 ?s2 |- context [FCC ?s1] => rewrite (sim_fcc s1 s2 HR)
  end.

(** Expressions that give the same value in related states, and expressions
    that read memory. *)
Definition sim_expr (e1 : S1 -> outcome Z) (e2 : S2 -> outcome Z) : Prop :=
  forall s1 s2, R s1 s2 -> osim bad eq (e1 s1) (e2 s2).
Definition sim_mem_expr (e1 : S1 -> outcome (Z * S1)) (e2 : S2 -> outcome (Z * S2)) : Prop :=
  forall s1 s2, R s1 s2 -> osim bad read_rel (e1 s1) (e2 s2).

Lemma sim_set_gpr_e N e1 e2 s1 s2 : sim_expr e1 e2 -> R s1 s2 -> osim bad R (set_gpr N e1 s1) (set_gpr N e2 s2).
Proof.
  intros He HR. unfold set_gpr. eapply osim_bind; [by apply sim_mark_gpr|intros ? ? _ ?].
  eapply osim_bind; [by apply He|intros ? ? _ <-]. by apply sim_set_gpr.
Qed.
Lemma sim_set_fpr_e N e1 e2 s1 s2 : sim_expr e1 e2 -> R s1 s2 -> osim bad R (set_fpr N e1 s1) (set_fpr N e2 s2).
Proof.
  intros He HR. unfold set_fpr. eapply osim_bind; [by apply sim_mark_fpr|intros ? ? _ ?].
  eapply osim_bind; [by apply He|intros ? ? _ <-]. by apply sim_set_fpr.
Qed.
Lemma sim_set_gpr_m N e1 e2 s1 s2 : sim_mem_expr e1 e2 -> R s1 s2 -> osim bad R (set_gpr_mem N e1 s1) (set_gpr_mem N e2 s2).
Proof.
  intros He HR. unfold set_gpr_mem. eapply osim_bind; [by apply sim_mark_gpr|intros ? ? _ ?].
  eapply osim_bind; [by apply He|intros [? ?] [? ?] _ [? ?]; cbn [fst snd] in *; subst]. by apply sim_set_gpr.
Qed.
Lemma sim_set_fpr_m N e1 e2 s1 s2 : sim_mem_expr e1 e2 -> R s1 s2 -> osim bad R (set_fpr_mem N e1 s1) (set_fpr_mem N e2 s2).
Proof.
  intros He HR. unfold set_fpr_mem. eapply osim_bind; [by apply sim_mark_fpr|intros ? ? _ ?].
  eapply osim_bind; [by apply He|intros [? ?] [? ?] _ [? ?]; cbn [fst snd] in *; subst]. by apply sim_set_fpr.
Qed.

Ltac sim_walk :=
  repeat (sim_values; try sim_base;
    lazymatch goal with
    | |- sim_expr _ _ => intros ? ? ?
    | |- sim_mem_expr _ _ => intros ? ? ?
    | |- osim _ _ (set_gpr _ _ _) _ => apply sim_set_gpr_e
    | |- osim _ _ (set_fpr _ _ _) _ => apply sim_set_fpr_e
    | |- osim _ _ (set_gpr_mem _ _ _) _ => apply sim_set_gpr_m
    | |- osim _ _ (set_fpr_mem _ _ _) _ => apply sim_set_fpr_m
    | |- R _ _ => sim_state
    | |- osim _ _ (mbind _ ?m) _ =>
        lazymatch type of m with
        | outcome S1 => eapply (osim_bind bad R); [|intros ? ? _ ?]
        | outcome Z => eapply (osim_bind bad eq); [|intros ? ? _ <-]
        | outcome (Z * S1) => eapply (osim_bind bad read_rel); [|intros [? ?] [? ?] _ [? ?]; cbn [fst snd] in *; subst]
        end
    | |- osim _ _ (if ?b then _ else _) _ => destruct b
    end).

Lemma sim_check_R b s1 s2 : R s1 s2 -> osim bad R (check b s1) (check b s2).
Proof. intros HR. unfold check. destruct b; [by apply sim_ifail|by apply osim_ok]. Qed.
Hint Resolve sim_check_R : execsim.

Lemma sim_OVER x y s1 s2 : R s1 s2 -> osim bad R (OVER x y s1) (OVER x y s2).
Proof. intros HR. unfold OVER. sim_walk. Qed.
Lemma sim_UNDER x y s1 s2 : R s1 s2 -> osim bad R (UNDER x y s1) (UNDER x y s2).
Proof. intros HR. unfold UNDER. sim_walk. Qed.
Hint Resolve sim_OVER sim_UNDER : execsim.
Hint Unfold DIV0 INTALIGN FPALIGN TALIGN : execsim.

Lemma sim_FPR_F n s1 s2 : R s1 s2 -> osim bad eq (FPR_F n s1) (FPR_F n s2).
Proof. intros HR. unfold FPR_F. sim_walk. Qed.
Lemma sim_SET_FPR_F n v1 v2 s1 s2 : sim_expr v1 v2 -> R s1 s2 -> osim bad R (SET_FPR_F n v1 s1) (SET_FPR_F n v2 s2).
Proof. apply sim_set_fpr_e. Qed.
Lemma sim_FPR_D n s1 s2 : R s1 s2 -> osim bad eq (FPR_D cfg n s1) (FPR_D cfg n s2).
Proof. intros HR. unfold FPR_D. sim_walk. Qed.
Lemma sim_SET_FPR_D n v1 v2 s1 s2 : sim_expr v1 v2 -> R s1 s2 -> osim bad R (SET_FPR_D cfg n v1 s1) (SET_FPR_D cfg n v2 s2).
Proof.
  intros Hv HR. unfold SET_FPR_D. eapply (osim_bind bad R); [by apply sim_mark_fpr|intros ? ? _ ?].
  eapply (osim_bind bad eq); [by apply Hv|intros v ? _ <-]. destruct (double_words _ _). sim_walk.
Qed.
Hint Resolve sim_FPR_F sim_SET_FPR_F sim_FPR_D sim_SET_FPR_D : execsim.

Lemma sim_ea_disp inst s1 s2 : R s1 s2 -> osim bad eq (ea_disp inst s1) (ea_disp inst s2).
Proof. intros HR. unfold ea_disp. sim_walk. Qed.
Lemma sim_ea_rr inst s1 s2 : R s1 s2 -> osim bad eq (ea_rr inst s1) (ea_rr inst s2).
Proof. intros HR. unfold ea_rr. sim_walk. Qed.
Hint Resolve sim_ea_disp sim_ea_rr : execsim.

Lemma sim_READ_WORD a s1 s2 : R s1 s2 -> osim bad read_rel (READ_WORD a s1) (READ_WORD a s2).
Proof. intros HR. unfold READ_WORD. by apply sim_read. Qed.
Hint Resolve sim_READ_WORD : execsim.

(** * The groups of instructions *)

Lemma sim_branch inst taken s1 s2 : R s1 s2 -> R (branch inst taken s1) (branch inst taken s2).
Proof.
  intros HR. unfold branch.
  assert (Ht : forall s1 s2, R s1 s2 -> branch_target inst s1 = branch_target inst s2).
  { intros t1 t2 HR'. unfold branch_target. by rewrite (sim_cpc _ _ HR'). }
  pose proof (sim_set_tpc (branch_target inst s2) _ _ HR) as HR1.
  rewrite (Ht _ _ HR). destruct taken; [|done]. rewrite (Ht _ _ HR1). by apply sim_set_npc.
Qed.

Lemma sim_control op inst s1 s2 : R s1 s2 -> osim bad R (exec_control op inst s1) (exec_control op inst s2).
Proof.
  intros HR.
  assert (Ht : forall s1 s2, R s1 s2 -> jump_target inst s1 = jump_target inst s2).
  { intros t1 t2 HR'. unfold jump_target. by rewrite (sim_cpc _ _ HR'). }
  assert (Hj : R (SET_NPC (jump_target inst (SET_TPC (jump_target inst s1) s1)) (SET_TPC (jump_target inst s1) s1))
                 (SET_NPC (jump_target inst (SET_TPC (jump_target inst s2) s2)) (SET_TPC (jump_target inst s2) s2))).
  { rewrite (Ht _ _ HR). pose proof (sim_set_tpc (jump_target inst s2) _ _ HR) as HR1.
    rewrite (Ht _ _ HR1). by apply sim_set_npc. }
  destruct op; unfold exec_control; try apply osim_undef; cbv zeta.
  all: try solve [sim_walk; apply osim_ok; by apply sim_branch].
  all: sim_walk.
  all: apply osim_ok; rewrite (sim_fcc _ _ HR); by apply sim_branch.
Qed.
Hint Resolve sim_control : execsim.

Lemma sim_INC_DEC inst (E1 : S1 -> outcome S1) (E2 : S2 -> outcome S2) reg size s1 s2 :
  (forall s1 s2, R s1 s2 -> osim bad R (E1 s1) (E2 s2)) -> R s1 s2 ->
  osim bad R (INC_DEC inst E1 reg size s1) (INC_DEC inst E2 reg size s2).
Proof. intros HE HR. unfold INC_DEC. sim_walk. Qed.

(** The pieces of loads and stores, for address computations [ea1] and [ea2]
    and read and write functions that correspond. *)
Section Memory.
Variables (ea1 : S1 -> outcome Z) (ea2 : S2 -> outcome Z).
Hypothesis Hea : forall s1 s2, R s1 s2 -> osim bad eq (ea1 s1) (ea2 s2).
Hint Resolve Hea : execsim.

Lemma sim_load_gpr (RD1 : Z -> S1 -> outcome (Z * S1)) (RD2 : Z -> S2 -> outcome (Z * S2)) inst s1 s2 :
  (forall a s1 s2, R s1 s2 -> osim bad read_rel (RD1 a s1) (RD2 a s2)) -> R s1 s2 ->
  osim bad R (load_gpr RD1 ea1 inst s1) (load_gpr RD2 ea2 inst s2).
Proof. intros HD HR. unfold load_gpr. sim_walk. Qed.

Lemma sim_load_fpr ofs inst s1 s2 : R s1 s2 -> osim bad R (load_fpr ofs ea1 inst s1) (load_fpr ofs ea2 inst s2).
Proof. intros HR. unfold load_fpr. sim_walk. Qed.

Lemma sim_load_gpr_pair inst s1 s2 : R s1 s2 -> osim bad R (load_gpr_pair cfg ea1 inst s1) (load_gpr_pair cfg ea2 inst s2).
Proof. intros HR. unfold load_gpr_pair. sim_walk. Qed.

Lemma sim_load_fpr_pair inst s1 s2 : R s1 s2 -> osim bad R (load_fpr_pair cfg ea1 inst s1) (load_fpr_pair cfg ea2 inst s2).
Proof. intros HR. unfold load_fpr_pair. sim_walk. Qed.

Lemma sim_store_gpr (W1 : Z -> Z -> S1 -> outcome S1) (W2 : Z -> Z -> S2 -> outcome S2) ofs inst s1 s2 :
  (forall v a s1 s2, R s1 s2 -> osim bad R (W1 v a s1) (W2 v a s2)) -> R s1 s2 ->
  osim bad R (store_gpr W1 ofs ea1 inst s1) (store_gpr W2 ofs ea2 inst s2).
Proof. intros HW HR. unfold store_gpr. sim_walk. Qed.

Lemma sim_store_fpr ofs inst s1 s2 : R s1 s2 -> osim bad R (store_fpr ofs ea1 inst s1) (store_fpr ofs ea2 inst s2).
Proof. intros HR. unfold store_fpr, WRITE_WORD. sim_walk. Qed.

Lemma sim_store_gpr_pair inst s1 s2 : R s1 s2 -> osim bad R (store_gpr_pair cfg ea1 inst s1) (store_gpr_pair cfg ea2 inst s2).
Proof. intros HR. unfold store_gpr_pair, WRITE_WORD. sim_walk. Qed.

Lemma sim_store_zero_pair s1 s2 : R s1 s2 -> osim bad R (store_zero_pair ea1 s1) (store_zero_pair ea2 s2).
Proof. intros HR. unfold store_zero_pair, WRITE_WORD. sim_walk. Qed.

Lemma sim_store_fpr_pair swap inst s1 s2 :
  R s1 s2 -> osim bad R (store_fpr_pair swap ea1 inst s1) (store_fpr_pair swap ea2 inst s2).
Proof. intros HR. unfold store_fpr_pair, WRITE_WORD. sim_walk. Qed.
End Memory.

Lemma sim_load_part BASE PROT inst s1 s2 : (forall a, plain (PROT a)) -> R s1 s2 -> osim bad R (load_part BASE PROT inst s1) (load_part BASE PROT inst s2).
Proof. intros HP HR. unfold load_part. sim_walk. Qed.

Lemma sim_store_part BASE PROT inst s1 s2 : (forall a, plain (PROT a)) -> R s1 s2 -> osim bad R (store_part BASE PROT inst s1) (store_part BASE PROT inst s2).
Proof. intros HP HR. unfold store_part, WRITE_WORD. sim_walk. Qed.

Lemma sim_signed_read t f a s1 s2 :
  R s1 s2 -> osim bad read_rel ('(v, s) ← READ_MEM t a s1; Ok (f v, s)) ('(v, s) ← READ_MEM t a s2; Ok (f v, s)).
Proof. intros HR. sim_walk. Qed.

Hint Resolve sim_INC_DEC sim_load_gpr sim_load_fpr sim_load_gpr_pair sim_load_fpr_pair sim_store_gpr
  sim_store_fpr sim_store_gpr_pair sim_store_zero_pair sim_store_fpr_pair sim_load_part sim_store_part : execsim.

Lemma sim_memory op inst s1 s2 :
  R s1 s2 ->
  osim bad R (exec_load cfg op inst s1) (exec_load cfg op inst s2) /\
  osim bad R (exec_load_rr cfg op inst s1) (exec_load_rr cfg op inst s2) /\
  osim bad R (exec_store cfg op inst s1) (exec_store cfg op inst s2) /\
  osim bad R (exec_store_rr cfg op inst s1) (exec_store_rr cfg op inst s2).
Proof.
  intros HR.
  assert (Hr : forall t f a s1 s2, R s1 s2 -> osim bad read_rel ('(v, s) ← READ_MEM t a s1; Ok (f v, s)) ('(v, s) ← READ_MEM t a s2; Ok (f v, s)))
    by (intros; by apply sim_signed_read).
  split; [|split; [|split]]; destruct op; try apply osim_undef;
    unfold exec_load, exec_load_rr, exec_store, exec_store_rr, READ_SIGNED_BYTE, READ_UNSIGNED_BYTE,
      READ_SIGNED_HALF, READ_UNSIGNED_HALF, READ_WORD, WRITE_BYTE, WRITE_HALF, WRITE_WORD; cbv zeta;
    try (apply sim_load_part; [auto with execsim|exact HR]); try (apply sim_store_part; [auto with execsim|exact HR]);
    (apply sim_INC_DEC; [intros t1 t2 HR'|exact HR]).
  all: lazymatch goal with
    | |- osim _ _ (load_gpr _ _ _ _) _ => apply sim_load_gpr
    | |- osim _ _ (load_fpr _ _ _ _) _ => apply sim_load_fpr
    | |- osim _ _ (load_gpr_pair _ _ _ _) _ => apply sim_load_gpr_pair
    | |- osim _ _ (load_fpr_pair _ _ _ _) _ => apply sim_load_fpr_pair
    | |- osim _ _ (store_gpr _ _ _ _ _) _ => apply sim_store_gpr
    | |- osim _ _ (store_fpr _ _ _ _) _ => apply sim_store_fpr
    | |- osim _ _ (store_gpr_pair _ _ _ _) _ => apply sim_store_gpr_pair
    | |- osim _ _ (store_zero_pair _ _) _ => apply sim_store_zero_pair
    | |- osim _ _ (store_fpr_pair _ _ _ _) _ => apply sim_store_fpr_pair
    end.
  all: try assumption; intros; eauto using sim_read, sim_write with execsim.
Qed.

Lemma sim_sra_loop n rd : forall s1 s2, R s1 s2 -> osim bad R (sra_loop n rd s1) (sra_loop n rd s2).
Proof. induction n as [|n IH]; intros s1 s2 HR; cbn [sra_loop]; sim_walk. Qed.

Lemma sim_inst_sra shamt inst s1 s2 : R s1 s2 -> osim bad R (inst_sra shamt inst s1) (inst_sra shamt inst s2).
Proof. intros HR. unfold inst_sra. sim_walk. by apply sim_sra_loop. Qed.

Lemma sim_mult_step i a b s1 s2 : R s1 s2 -> osim bad R (mult_step i a b s1) (mult_step i a b s2).
Proof.
  intros HR. unfold mult_step.
  pose proof (sim_set_hi (s32 (Z.shiftl (HI s2) 1)) _ _ HR) as HR1. rewrite (sim_hi _ _ HR), (sim_lo _ _ HR1).
  eapply (osim_bind bad eq); [apply osim_plain; auto with execsim|intros bit ? _ <-].
  rewrite (sim_hi _ _ HR1). pose proof (sim_set_hi (s32 (HI (SET_HI (s32 (Z.shiftl (HI s2) 1)) s2) + bit)) _ _ HR1) as HR2.
  cbv zeta. rewrite (sim_lo _ _ HR2).
  match goal with |- context [SET_LO ?v (SET_HI ?h (SET_HI ?g s1))] =>
    pose proof (sim_set_lo v _ _ HR2) as HR3; set (t1 := SET_LO v (SET_HI h (SET_HI g s1))) in *;
    set (t2 := SET_LO v (SET_HI h (SET_HI g s2))) in * end.
  eapply (osim_bind bad eq); [apply osim_plain; auto with execsim|intros bit' ? _ <-]. destruct (bit' =? 1); [|by apply osim_ok].
  rewrite (sim_lo _ _ HR3), (sim_hi _ _ HR3). apply osim_ok.
  destruct (_ <? _); [|rewrite (sim_lo _ _ HR3); by apply sim_set_lo].
  pose proof (sim_set_hi (s32 (HI t2 + 1)) _ _ HR3) as HR4. rewrite (sim_lo _ _ HR4). by apply sim_set_lo.
Qed.

Lemma sim_mult_loop n (f1 g1 : S1 -> outcome Z) (f2 g2 : S2 -> outcome Z) :
  (forall s1 s2, R s1 s2 -> osim bad eq (f1 s1) (f2 s2)) -> (forall s1 s2, R s1 s2 -> osim bad eq (g1 s1) (g2 s2)) ->
  forall i s1 s2, R s1 s2 -> osim bad R (mult_loop n i f1 g1 s1) (mult_loop n i f2 g2 s2).
Proof.
  intros Hf Hg. induction n as [|n IH]; intros i s1 s2 HR; cbn [mult_loop]; [by apply osim_ok|].
  eapply (osim_bind bad eq); [by apply Hf|intros a ? _ <-]. eapply (osim_bind bad eq); [by apply Hg|intros b ? _ <-].
  eapply (osim_bind bad R); [by apply sim_mult_step|intros ? ? _ ?]. by apply IH.
Qed.

Lemma sim_mult_start s1 s2 : R s1 s2 -> R (SET_LO 0 (SET_HI 0 s1)) (SET_LO 0 (SET_HI 0 s2)).
Proof. intros. by apply sim_set_lo, sim_set_hi. Qed.

Lemma sim_InstMULT inst s1 s2 : R s1 s2 -> osim bad R (InstMULT inst s1) (InstMULT inst s2).
Proof.
  intros HR. unfold InstMULT. pose proof (sim_mult_start _ _ HR) as HR1.
  set (t1 := SET_LO 0 _) in *. set (t2 := SET_LO 0 (SET_HI 0 s2)) in *.
  eapply (osim_bind bad eq); [by apply sim_gpr|intros x ? _ <-]. eapply (osim_bind bad eq); [by apply sim_gpr|intros y ? _ <-].
  destruct (mult_operand x) as [a sa], (mult_operand y) as [b sb].
  eapply (osim_bind bad R).
  { apply sim_mult_loop; [intros; by apply osim_plain..|]. destruct (truth _); [by apply sim_set_lo|done]. }
  intros u1 u2 _ HR2. destruct (xorb sa sb); [|by apply osim_ok]. apply osim_ok.
  rewrite (sim_lo _ _ HR2). pose proof (sim_set_lo (Z.lnot (LO u2)) _ _ HR2) as HR3. rewrite (sim_hi _ _ HR3).
  pose proof (sim_set_hi (Z.lnot (HI (SET_LO (Z.lnot (LO u2)) u2))) _ _ HR3) as HR4.
  cbv zeta. rewrite (sim_lo _ _ HR4), (sim_hi _ _ HR4). destruct (_ =? _).
  - pose proof (sim_set_hi (s32 (HI (SET_HI (Z.lnot (HI (SET_LO (Z.lnot (LO u2)) u2))) (SET_LO (Z.lnot (LO u2)) u2)) + 1)) _ _ HR4) as HR5.
    rewrite (sim_lo _ _ HR5). by apply sim_set_lo.
  - rewrite (sim_lo _ _ HR4). by apply sim_set_lo.
Qed.

Lemma sim_InstMULTU inst s1 s2 : R s1 s2 -> osim bad R (InstMULTU inst s1) (InstMULTU inst s2).
Proof.
  intros HR. unfold InstMULTU. pose proof (sim_mult_start _ _ HR) as HR1.
  eapply (osim_bind bad eq); [by apply sim_gpr|intros x ? _ <-].
  eapply (osim_bind bad R).
  - destruct (truth _); [|by apply osim_ok]. eapply (osim_bind bad eq); [by apply sim_gpr|intros y ? _ <-].
    apply osim_ok. by apply sim_set_lo.
  - intros u1 u2 _ HR2. apply sim_mult_loop; [intros; by apply sim_gpr..|done].
Qed.

Lemma sim_alu dst x1 x2 y1 y2 f s1 s2 :
  sim_expr x1 x2 -> sim_expr y1 y2 -> R s1 s2 -> osim bad R (alu dst x1 y1 f s1) (alu dst x2 y2 f s2).
Proof. intros. unfold alu. sim_walk. Qed.
Lemma sim_alu_o dst x1 x2 y1 y2 f s1 s2 :
  (forall x y, plain (f x y)) -> sim_expr x1 x2 -> sim_expr y1 y2 -> R s1 s2 -> osim bad R (alu_o dst x1 y1 f s1) (alu_o dst x2 y2 f s2).
Proof. intros. unfold alu_o. sim_walk. Qed.
Hint Resolve sim_inst_sra sim_InstMULT sim_InstMULTU sim_alu sim_alu_o : execsim.

(** What follows [DIV0], for denominators [P]. *)
Definition div_tail {S : Type} `{Machine S} (f g : Z -> Z -> outcome Z) (u w : Z -> Z) (inst : ss_inst) (s : S) : outcome S :=
  x ← GPR (RS inst) s; y ← GPR (RT inst) s; q ← f (u x) (u y); let s := SET_LO (w q) s in
  x ← GPR (RS inst) s; y ← GPR (RT inst) s; r ← g (u x) (u y); Ok (SET_HI (w r) s).

Lemma sim_div_tail (f1 g1 f2 g2 : Z -> Z -> outcome Z) (u w : Z -> Z) (P : Z -> Prop) inst s1 s2 :
  (forall a b, P b -> osim bad eq (f1 a b) (f2 a b)) -> (forall a b, P b -> osim bad eq (g1 a b) (g2 a b)) ->
  (forall y, GPR (RT inst) s1 = Ok y -> P (u y)) ->
  R s1 s2 -> osim bad R (div_tail f1 g1 u w inst s1) (div_tail f2 g2 u w inst s2).
Proof.
  intros Hf Hg HP HR. unfold div_tail.
  eapply (osim_bind bad eq); [by apply sim_gpr|intros x ? _ <-].
  eapply (osim_bind bad eq); [by apply sim_gpr|intros y ? Hy <-].
  eapply (osim_bind bad eq); [by apply Hf, HP|intros q ? _ <-]. cbv zeta.
  pose proof (sim_set_lo (w q) _ _ HR) as HR'.
  eapply (osim_bind bad eq); [by apply sim_gpr|intros x' ? _ <-].
  eapply (osim_bind bad eq); [by apply sim_gpr|intros y' ? Hy' <-].
  rewrite (sim_gpr_lo _ _ _ _ HR) in Hy'.
  eapply (osim_bind bad eq); [by apply Hg, HP|intros r ? _ <-]. apply osim_ok. by apply sim_set_hi.
Qed.

(** Division runs only with a denominator that passed [DIV0]. *)
Definition div_code {S : Type} `{Machine S} (f g : Z -> Z -> outcome Z) (u w : Z -> Z) (inst : ss_inst) (s : S) : outcome S :=
  y ← GPR (RT inst) s; s ← DIV0 (y =? 0) s; div_tail f g u w inst s.

Lemma sim_div (u w : Z -> Z) inst s1 s2 :
  (forall y, - 2 ^ 31 <= y < 2 ^ 31 -> y <> 0 -> u y <> 0) ->
  R s1 s2 -> osim bad R (div_code (IDIV_int (S:=S1)) (IMOD_int (S:=S1)) u w inst s1)
    (div_code (IDIV_int (S:=S2)) (IMOD_int (S:=S2)) u w inst s2).
Proof.
  intros Hu HR. unfold div_code, DIV0.
  pose proof (sim_gpr (RT inst) _ _ HR) as Hgr. destruct (GPR (RT inst) s1) as [y| | | | | |] eqn:Hy; cbn in Hgr |- *; try done.
  destruct Hgr as (? & -> & <-). cbn [mbind outcome_bind]. destruct (Z.eqb_spec y 0) as [Hz|Hz]; cbn [check].
  - eapply (osim_bind bad R); [by apply sim_ifail|intros t1 t2 Ht HR'].
    destruct (sim_div0 _ _ _ HR Ht) as (Hf0 & Hg0 & _). apply (sim_div_tail _ _ _ _ _ _ (fun _ => True)); [intros; apply Hf0|intros; apply Hg0|done|done].
  - cbn [mbind outcome_bind]. apply (sim_div_tail _ _ _ _ _ _ (fun b => b <> 0)); [by intros; apply sim_idiv|by intros; apply sim_imod| |done].
    intros y' Hy'. rewrite Hy in Hy'. injection Hy' as <-. apply Hu; [by eapply sim_gpr_range|done].
Qed.

Lemma sim_arith op inst s1 s2 : R s1 s2 -> osim bad R (exec_arith op inst s1) (exec_arith op inst s2).
Proof.
  intros HR. destruct op; try apply osim_undef; unfold exec_arith; cbv zeta.
  9: exact (sim_div (fun x => x) (fun x => x) inst s1 s2 (fun _ _ H => H) HR).
  9: exact (sim_div u32 s32 inst s1 s2 u32_nonzero HR).
  all: sim_walk.
  all: apply sim_alu; sim_walk.
Qed.

Lemma sim_logic op inst s1 s2 : R s1 s2 -> osim bad R (exec_logic op inst s1) (exec_logic op inst s2).
Proof.
  intros HR. destruct op; try apply osim_undef; unfold exec_logic, InstSRA, InstSRAV; cbv zeta.
  all: lazymatch goal with
    | |- osim _ _ (alu _ _ _ _ _) _ => apply sim_alu; sim_walk
    | |- osim _ _ (alu_o _ _ _ _ _) _ => apply sim_alu_o; [by auto with execsim|sim_walk..]
    | |- _ => sim_walk
    end.
Qed.

(** Marking a register does nothing in related states. *)
Definition unmarked : Prop := forall r s1 s2, R s1 s2 -> MARK_FPR r s1 = Ok s1 /\ MARK_FPR r s2 = Ok s2.

Lemma sim_SET_FPR_F_at n v1 v2 s1 s2 :
  unmarked -> osim bad eq (v1 s1) (v2 s2) -> R s1 s2 -> osim bad R (SET_FPR_F n v1 s1) (SET_FPR_F n v2 s2).
Proof.
  intros Hm Hv HR. unfold SET_FPR_F, set_fpr. destruct (Hm n _ _ HR) as [-> ->]. cbn [mbind outcome_bind].
  eapply (osim_bind bad eq); [exact Hv|intros v ? _ <-]. by apply sim_set_fpr.
Qed.

Lemma sim_SET_FPR_D_at n v1 v2 s1 s2 :
  unmarked -> osim bad eq (v1 s1) (v2 s2) -> R s1 s2 -> osim bad R (SET_FPR_D cfg n v1 s1) (SET_FPR_D cfg n v2 s2).
Proof.
  intros Hm Hv HR. unfold SET_FPR_D. cbv zeta. destruct (Hm (2 * Z.shiftr n 1) _ _ HR) as [-> ->]. cbn [mbind outcome_bind].
  eapply (osim_bind bad eq); [exact Hv|intros v ? _ <-]. destruct (double_words _ _). sim_walk.
Qed.

Section FpOps.
Variables (GET1 : Z -> S1 -> outcome Z) (GET2 : Z -> S2 -> outcome Z).
Variables (SET1 : Z -> (S1 -> outcome Z) -> S1 -> outcome S1) (SET2 : Z -> (S2 -> outcome Z) -> S2 -> outcome S2).
Hypothesis Hget : forall n s1 s2, R s1 s2 -> osim bad eq (GET1 n s1) (GET2 n s2).
Hypothesis Hset : forall n v1 v2 s1 s2, sim_expr v1 v2 -> R s1 s2 -> osim bad R (SET1 n v1 s1) (SET2 n v2 s2).
Hint Resolve Hget : execsim.

Lemma sim_align inst s1 s2 : R s1 s2 ->
  osim bad R (fp_align3 inst s1) (fp_align3 inst s2) /\ osim bad R (fp_align2 inst s1) (fp_align2 inst s2) /\
  osim bad R (fp_align_cmp inst s1) (fp_align_cmp inst s2).
Proof. intros HR. unfold fp_align3, fp_align2, fp_align_cmp. split; [|split]; sim_walk. Qed.

Lemma sim_fp_op2 f inst s1 s2 : R s1 s2 -> osim bad R (fp_op2 GET1 SET1 f inst s1) (fp_op2 GET2 SET2 f inst s2).
Proof. intros HR. unfold fp_op2. eapply (osim_bind bad R); [exact (proj1 (sim_align inst _ _ HR))|intros ? ? _ ?]. apply Hset; sim_walk. Qed.

Lemma sim_fp_op1 f1 f2 inst s1 s2 :
  (forall x, f1 x = f2 x) -> R s1 s2 -> osim bad R (fp_op1 GET1 SET1 f1 inst s1) (fp_op1 GET2 SET2 f2 inst s2).
Proof.
  intros Hf HR. unfold fp_op1. eapply (osim_bind bad R); [exact (proj1 (proj2 (sim_align inst _ _ HR)))|intros ? ? _ ?].
  apply Hset; [|done]. intros u1 u2 HR2. eapply (osim_bind bad eq); [by apply Hget|intros ? ? _ <-]. rewrite Hf. by apply osim_ok.
Qed.

Lemma sim_fp_cmp f inst s1 s2 : R s1 s2 -> osim bad R (fp_cmp GET1 f inst s1) (fp_cmp GET2 f inst s2).
Proof. intros HR. unfold fp_cmp. eapply (osim_bind bad R); [exact (proj2 (proj2 (sim_align inst _ _ HR)))|intros ? ? _ ?]. sim_walk. Qed.

Lemma sim_fp_div eqf f inst s1 s2 :
  (forall n v1 v2 s1 s2, unmarked -> osim bad eq (v1 s1) (v2 s2) -> R s1 s2 -> osim bad R (SET1 n v1 s1) (SET2 n v2 s2)) ->
  R s1 s2 -> osim bad R (fp_div GET1 SET1 eqf f inst s1) (fp_div GET2 SET2 eqf f inst s2).
Proof.
  intros Hat HR. unfold fp_div, DIV0. eapply (osim_bind bad R); [exact (proj1 (sim_align inst _ _ HR))|intros t1 t2 _ HR'].
  assert (Heq : forall u1 u2, R u1 u2 -> FDIV_zero (S:=S1) = FDIV_zero (S:=S2) ->
    osim bad R (SET1 (RD inst) (fun s => x ← GET1 (RS inst) s; y ← GET1 (RT inst) s; Ok (if FDIV_zero (S:=S1) && eqf y 0 then 0 else f x y)) u1)
      (SET2 (RD inst) (fun s => x ← GET2 (RS inst) s; y ← GET2 (RT inst) s; Ok (if FDIV_zero (S:=S2) && eqf y 0 then 0 else f x y)) u2)).
  { intros u1 u2 HRu ->. apply Hset; [|done]. sim_walk. }
  pose proof (Hget (RT inst) _ _ HR') as Hgr. destruct (GET1 (RT inst) t1) as [y| | | | | |] eqn:Hy; cbn in Hgr |- *; try done.
  destruct Hgr as (? & Hy2 & <-). rewrite Hy2. cbn [mbind outcome_bind].
  destruct (eqf y 0) eqn:Hz; cbn [check].
  - eapply (osim_bind bad R); [by apply sim_ifail|intros u1 u2 Hu HR2].
    destruct (sim_div0 _ _ _ HR' Hu) as (_ & _ & He). by apply Heq.
  - cbn [mbind outcome_bind]. destruct (sim_fdiv (S1:=S1) (S2:=S2)) as [He|Hm]; [by apply Heq|].
    apply Hat; [exact Hm| |done]. eapply (osim_bind bad eq); [by apply Hget|intros x ? _ <-].
    rewrite Hy, Hy2. cbn [mbind outcome_bind]. rewrite Hz, !andb_false_r. by apply osim_ok.
Qed.
End FpOps.

(** The accessors of the two machines correspond. *)
Ltac fp_access :=
  solve [assumption | exact sim_SET_FPR_F_at | exact sim_SET_FPR_D_at | exact sim_set_fpr_e | exact sim_FPR_F | exact sim_FPR_D | exact sim_SET_FPR_F | exact sim_SET_FPR_D
    | exact sim_fpr | exact sim_set_fpr | intros; reflexivity].

Lemma sim_fp op inst s1 s2 : R s1 s2 -> osim bad R (exec_fp cfg op inst s1) (exec_fp cfg op inst s2).
Proof.
  intros HR. destruct op; try apply osim_undef; unfold exec_fp.
  all: lazymatch goal with
    | |- osim _ _ (fp_op2 _ _ _ _ _) _ => apply sim_fp_op2
    | |- osim _ _ (fp_op1 _ _ _ _ _) _ => apply sim_fp_op1
    | _ => apply sim_fp_div
    end; fp_access.
Qed.

Lemma sim_fp_conv op inst s1 s2 :
  (op = CVT_W_S \/ op = CVT_W_D -> FINT_nan (S:=S1) = FINT_nan (S:=S2)) ->
  R s1 s2 -> osim bad R (exec_fp_conv cfg op inst s1) (exec_fp_conv cfg op inst s2).
Proof.
  intros Hn HR. destruct op; try apply osim_undef; unfold exec_fp_conv.
  all: lazymatch goal with |- osim _ _ (fp_cmp _ _ _ _) _ => apply sim_fp_cmp | _ => apply sim_fp_op1 end; try fp_access.
  all: intros x; unfold FINT; rewrite Hn by tauto; done.
Qed.

Lemma sim_misc op inst s1 s2 :
  (op = SYSCALL -> osim bad R (do_syscall inst s1) (do_syscall inst s2)) ->
  R s1 s2 -> osim bad R (exec_misc op inst s1) (exec_misc op inst s2).
Proof.
  intros Hs HR. destruct op; try apply osim_undef; unfold exec_misc; [..|by apply Hs| | | | | | |]; sim_walk.
Qed.

(** The two machines stay related through any instruction but those the
    hypotheses single out: a system call must be related itself, OP_NA is no
    instruction, and conversions to int must treat a NaN alike. *)
Lemma execute_sim op inst s1 s2 :
  (op = CVT_W_S \/ op = CVT_W_D -> FINT_nan (S:=S1) = FINT_nan (S:=S2)) ->
  (op = SYSCALL -> osim bad R (do_syscall inst s1) (do_syscall inst s2)) ->
  op <> OP_NA ->
  R s1 s2 -> osim bad R (execute cfg op inst s1) (execute cfg op inst s2).
Proof.
  intros Hn Hs Hna HR.
  assert (Hm : forall op, osim bad R (exec_load cfg op inst s1) (exec_load cfg op inst s2) /\
    osim bad R (exec_load_rr cfg op inst s1) (exec_load_rr cfg op inst s2) /\
    osim bad R (exec_store cfg op inst s1) (exec_store cfg op inst s2) /\
    osim bad R (exec_store_rr cfg op inst s1) (exec_store_rr cfg op inst s2)) by (intros; by apply sim_memory).
  destruct op; cbn [execute].
  all: lazymatch goal with
    | |- osim _ _ Panic _ => by destruct Hna
    | |- osim _ _ (exec_control _ _ _) _ => exact (sim_control _ _ _ _ HR)
    | |- osim _ _ (exec_load _ ?op _ _) _ => exact (proj1 (Hm op))
    | |- osim _ _ (exec_load_rr _ ?op _ _) _ => exact (proj1 (proj2 (Hm op)))
    | |- osim _ _ (exec_store _ ?op _ _) _ => exact (proj1 (proj2 (proj2 (Hm op))))
    | |- osim _ _ (exec_store_rr _ ?op _ _) _ => exact (proj2 (proj2 (proj2 (Hm op))))
    | |- osim _ _ (exec_arith _ _ _) _ => exact (sim_arith _ _ _ _ HR)
    | |- osim _ _ (exec_logic _ _ _) _ => exact (sim_logic _ _ _ _ HR)
    | |- osim _ _ (exec_fp _ _ _ _) _ => exact (sim_fp _ _ _ _ HR)
    | |- osim _ _ (exec_fp_conv _ _ _ _) _ => exact (sim_fp_conv _ _ _ _ Hn HR)
    | |- osim _ _ (exec_misc _ _ _) _ => exact (sim_misc _ _ _ _ Hs HR)
    end.
Qed.

End Simulation.
