(* ===== verification/ExecTotal.v ===== *)
(** Where the instructions of ss.def are defined: on a machine that ignores
    faults and whose macros are defined on the registers 0 to 31, every
    instruction whose fields name registers is executed, but a DIV whose quotient
    does not fit in an int. *)

From S2P Require Import Prelude Misc Isa Exec ExecMeta.

(** * The fields an instruction uses *)

Definition reg_num (r : Z) : bool := (0 <=? r) && (r <? 32).

(** A pair of registers starts at [r]: its second register exists. *)
Definition pair_num (r : Z) : bool := (0 <=? r) && (r + 1 <? 32).

(** The five addressing modes of the step tables. *)
Definition mode_num (inst : ss_inst) : bool := SS_COMP_OP inst <? 5.

(** The register fields that the instruction uses are register numbers, its
    shift amount is less than 32, and its addressing mode is one of the five. *)
Definition well_encoded (op : ss_opcode) (inst : ss_inst) : bool :=
  let rs := reg_num (RS inst) in let rt := reg_num (RT inst) in let rd := reg_num (RD inst) in
  match op with
  | OP_NA | JUMP | JAL | BC1F | BC1T | NOP | SYSCALL | BREAK | CFC1 | CTC1 => true
  | JR | BLEZ | BGTZ | BLTZ | BGEZ | MTHI | MTLO => rs
  | MFHI | MFLO => rd
  | LUI => rt
  | JALR | FABS_S | FABS_D | FMOV_S | FMOV_D | FNEG_S | FNEG_D | FSQRT_S | FSQRT_D
  | CVT_S_D | CVT_S_W | CVT_D_S | CVT_D_W | CVT_W_S | CVT_W_D => rs && rd
  | BEQ | BNE | LWL | LWR | SWL | SWR | ADDI | ADDIU | MULT | MULTU | DIV | DIVU
  | ANDI | ORI | XORI | SLTI | SLTIU | MFC1 | MTC1
  | C_EQ_S | C_EQ_D | C_LT_S | C_LT_D | C_LE_S | C_LE_D => rs && rt
  | LB | LBU | LH | LHU | LW | L_S | SB | SH | SW | S_S => rs && rt && mode_num inst
  | DLW | L_D | DSW | S_D => rs && pair_num (RT inst) && mode_num inst
  | DSZ => rs && mode_num inst
  | LB_RR | LBU_RR | LH_RR | LHU_RR | LW_RR | L_S_RR | L_S_RR_R2 | LW_RR_R2
  | SB_RR | SH_RR | SW_RR | S_S_RR | S_S_RR_R2 | SW_RR_R2 => rs && rt && rd && mode_num inst
  | DLW_RR | L_D_RR | DSW_RR | S_D_RR => rs && pair_num (RT inst) && rd && mode_num inst
  | DSZ_RR => rs && rd && mode_num inst
  | SLL | SRL | SRA => rt && rd && (SHAMT inst <? 32)
  | ADD | ADDU | SUB | SUBU | AND_ | OR | XOR | NOR | SLLV | SRLV | SRAV | SLT | SLTU
  | FADD_S | FADD_D | FSUB_S | FSUB_D | FMUL_S | FMUL_D | FDIV_S | FDIV_D => rs && rt && rd
  | DMFC1 | DMTC1 => pair_num (RS inst) && pair_num (RT inst)
  end.

(** The quotient of [a] by [b] is not an int. *)
Definition quotient_overflows (a b : Z) : bool := (a =? - 2 ^ 31) && (b =? -1).

Definition division_overflows {S : Type} `{Machine S} (op : ss_opcode) (inst : ss_inst) (s : S) : Prop :=
  op = DIV /\ GPR (RS inst) s = Ok (- 2 ^ 31) /\ GPR (RT inst) s = Ok (-1).

(** * Computations that are defined *)

Definition total {A : Type} (Q : A -> Prop) (m : outcome A) : Prop := exists a, m = Ok a /\ Q a.

Definition any {A : Type} (a : A) : Prop := True.

Lemma total_ok {A : Type} (Q : A -> Prop) a : Q a -> total Q (Ok a).
Proof. by exists a. Qed.

Lemma total_bind {A B : Type} (P : A -> Prop) (Q : B -> Prop) m (k : A -> outcome B) :
  total P m -> (forall a, P a -> total Q (k a)) -> total Q (mbind k m).
Proof. intros (a & -> & Ha) Hk. by apply Hk. Qed.

Lemma total_any {A : Type} (Q : A -> Prop) m : total Q m -> total any m.
Proof. intros (a & -> & _). by apply total_ok. Qed.

Lemma reg_num_spec r : reg_num r = true <-> 0 <= r < 32.
Proof. unfold reg_num. by rewrite andb_true_iff, Z.leb_le, Z.ltb_lt. Qed.
Lemma pair_num_spec r : pair_num r = true <-> 0 <= r < 31.
Proof. unfold pair_num. rewrite andb_true_iff, Z.leb_le, Z.ltb_lt. lia. Qed.

Lemma pair_num_fst r : pair_num r = true -> reg_num r = true.
Proof. rewrite pair_num_spec, reg_num_spec. lia. Qed.
Lemma pair_num_snd r : pair_num r = true -> reg_num (r + 1) = true.
Proof. rewrite pair_num_spec, reg_num_spec. lia. Qed.

Lemma even_num r : reg_num r = true -> pair_num (2 * Z.shiftr r 1) = true.
Proof.
  rewrite pair_num_spec, reg_num_spec, Z.shiftr_div_pow2 by lia. change (2 ^ 1) with 2. intros H. Z.to_euclidean_division_equations. lia.
Qed.

(** Flipping the lowest bit, or none, gives a register again. *)
Lemma swap_num r w : reg_num r = true -> w = 0 \/ w = 1 -> reg_num (Z.lxor r w) = true.
Proof.
  intros H%reg_num_spec [-> | ->]; [rewrite Z.lxor_0_r; by apply reg_num_spec|].
  assert (Hall : Forall (fun i => reg_num (Z.lxor (Z.of_nat i) 1) = true) (seq 0 32)) by (repeat constructor).
  rewrite Forall_forall in Hall. specialize (Hall (Z.to_nat r)). rewrite Z2Nat.id in Hall by lia. apply Hall, elem_of_seq. lia.
Qed.

Lemma c_get_total {A : Type} (l : list A) i : (i < length l)%nat -> total any (c_get l i).
Proof. intros H. apply lookup_lt_is_Some_2 in H as [x Hx]. unfold c_get. rewrite Hx. by apply total_ok. Qed.

Lemma c_shl_total x n : 0 <= n < 32 -> total any (c_shl x n).
Proof. intros H. unfold c_shl. replace ((0 <=? n) && (n <? 32)) with true by blia. by apply total_ok. Qed.
Lemma c_shr_total x n : 0 <= n < 32 -> total any (c_shr x n).
Proof. intros H. unfold c_shr. replace ((0 <=? n) && (n <? 32)) with true by blia. by apply total_ok. Qed.
Lemma extractl_total w pos : 0 <= pos <= 31 -> total any (extractl w pos 1).
Proof.
  intros H. unfold extractl. replace ((0 <=? pos + 1 - 1) && (pos + 1 - 1 <? 32) && (0 <=? 1) && (1 <? 32)) with true by blia.
  by apply total_ok.
Qed.

Lemma land_31 x : 0 <= Z.land x 31 < 32.
Proof. change 31 with (Z.ones 5). rewrite Z.land_ones by lia. apply (Z.mod_pos_bound _ (2 ^ 5)). lia. Qed.

Lemma tab_step_total tab size inst :
  mode_num inst = true -> (size - 1 < length tab)%nat -> Forall (fun row => length row = 5%nat) tab ->
  total any (tab_step tab size inst).
Proof.
  intros Hm Hs Ht. unfold tab_step. unfold c_get. apply lookup_lt_is_Some_2 in Hs as [row Hr]. rewrite Hr. cbn [deref mbind outcome_bind].
  apply c_get_total. rewrite Forall_lookup in Ht. rewrite (Ht _ _ Hr). unfold mode_num in Hm. lia.
Qed.

Lemma land_3 a : 0 <= Z.land a 3 < 4.
Proof. change 3 with (Z.ones 2). rewrite Z.land_ones by lia. apply (Z.mod_pos_bound _ (2 ^ 2)). lia. Qed.

Lemma WL_PROT_MASK_total big a : total any (WL_PROT_MASK big a).
Proof.
  unfold WL_PROT_MASK, WL_SIZE. apply c_get_total. pose proof (land_3 a).
  replace (length (ss_lr_masks big)) with 5%nat by by destruct big. lia.
Qed.
Lemma WR_PROT_MASK_total big a : total any (WR_PROT_MASK big a).
Proof.
  unfold WR_PROT_MASK, WR_SIZE. eapply total_bind; [|intros m _; by apply total_ok]. apply c_get_total. pose proof (land_3 a).
  replace (length (ss_lr_masks big)) with 5%nat by by destruct big. lia.
Qed.

Create HintDb total.
#[export] Hint Resolve c_shl_total c_shr_total extractl_total land_31 WL_PROT_MASK_total WR_PROT_MASK_total
  total_ok pair_num_fst pair_num_snd even_num swap_num : total.
#[export] Hint Extern 1 (any _) => exact I : total.

(** * Machines whose macros are defined *)

(** A machine that goes on after a fault, and whose macros are defined on the
    registers there are and keep [Inv]; only an overflowing division is not. *)
Class TotalMachine {S : Type} `{Machine S} (Inv : S -> Prop) : Prop := {
  tot_npc v s : Inv s -> Inv (SET_NPC v s);
  tot_tpc v s : Inv s -> Inv (SET_TPC v s);
  tot_hi v s : Inv s -> Inv (SET_HI v s);
  tot_lo v s : Inv s -> Inv (SET_LO v s);
  tot_fcc v s : Inv s -> Inv (SET_FCC v s);
  tot_gpr r s : reg_num r = true -> Inv s -> total any (GPR r s);
  tot_mark_gpr r s : reg_num r = true -> Inv s -> total Inv (MARK_GPR r s);
  tot_put_gpr r v s : reg_num r = true -> Inv s -> total Inv (SET_GPR r v s);
  tot_fpr r s : reg_num r = true -> Inv s -> total any (FPR_L r s);
  tot_mark_fpr r s : reg_num r = true -> Inv s -> total Inv (MARK_FPR r s);
  tot_put_fpr r v s : reg_num r = true -> Inv s -> total Inv (SET_FPR_L r v s);
  tot_read t a s : Inv s -> total (fun x => Inv x.2) (READ_MEM t a s);
  tot_write t v a s : Inv s -> total Inv (WRITE_MEM t v a s);
  tot_gpr_lo r v s : Inv s -> GPR r (SET_LO v s) = GPR r s;
  tot_ifail s : Inv s -> IFAIL s = Ok s;
  tot_idiv a b : quotient_overflows a b = false -> total any (IDIV_int (S:=S) a b);
  tot_imod a b : quotient_overflows a b = false -> total any (IMOD_int (S:=S) a b);
}.

Section Totality.
Context {S : Type} {M : Machine S} {Inv : S -> Prop} {laws : TotalMachine Inv} {fp : HostFP}.
Variable cfg : byte_config.
Hypothesis Hswap : sim_swap_words cfg = 0 \/ sim_swap_words cfg = 1.

Hint Extern 1 (Inv _) => first [apply tot_npc | apply tot_tpc | apply tot_hi | apply tot_lo | apply tot_fcc] : total.
Hint Resolve tot_gpr tot_mark_gpr tot_put_gpr tot_fpr tot_mark_fpr tot_put_fpr tot_read tot_write Hswap : total.

(** Expressions that are defined in the states of [Inv], of registers and of memory. *)
Definition total_expr (e : S -> outcome Z) : Prop := forall s, Inv s -> total any (e s).
Definition total_mem_expr (e : S -> outcome (Z * S)) : Prop := forall s, Inv s -> total (fun x => Inv x.2) (e s).
Definition total_step (e : S -> outcome S) : Prop := forall s, Inv s -> total Inv (e s).

Ltac total_base := solve [eauto 6 with total].

(** Walks a computation, the intermediate claim decided by the type of the
    intermediate value. *)
Ltac total_walk :=
  repeat (cbv zeta; cbn [fst snd] in *; first [total_base |
    lazymatch goal with
    | |- total_expr _ => intros ? ?
    | |- total_mem_expr _ => intros ? ?
    | |- total_step _ => intros ? ?
    | |- total _ (mbind _ ?m) =>
        lazymatch type of m with
        | outcome S => eapply (total_bind Inv); [|intros ? ?]
        | outcome Z => eapply (total_bind any); [|intros ? _]
        | outcome (Z * S) => eapply (total_bind (fun x => Inv x.2)); [|intros [? ?] ?]
        end
    | |- total _ (if ?b then _ else _) => destruct b
    | |- total _ (Ok _) => apply total_ok
    end]).

Lemma total_set_gpr N e s : reg_num N = true -> total_expr e -> Inv s -> total Inv (set_gpr N e s).
Proof. intros HN He Hs. unfold set_gpr. total_walk. Qed.
Lemma total_set_fpr N e s : reg_num N = true -> total_expr e -> Inv s -> total Inv (set_fpr N e s).
Proof. intros HN He Hs. unfold set_fpr. total_walk. Qed.
Lemma total_set_gpr_mem N e s : reg_num N = true -> total_mem_expr e -> Inv s -> total Inv (set_gpr_mem N e s).
Proof. intros HN He Hs. unfold set_gpr_mem. total_walk. Qed.
Lemma total_set_fpr_mem N e s : reg_num N = true -> total_mem_expr e -> Inv s -> total Inv (set_fpr_mem N e s).
Proof. intros HN He Hs. unfold set_fpr_mem. total_walk. Qed.

Lemma check_ignored b s : Inv s -> check b s = Ok s.
Proof. intros Hs. unfold check. destruct b; [by apply tot_ifail|done]. Qed.
Lemma total_check b s : Inv s -> total Inv (check b s).
Proof. intros Hs. rewrite check_ignored by done. by apply total_ok. Qed.
Hint Resolve total_check : total.

Lemma total_OVER x y s : Inv s -> total Inv (OVER x y s).
Proof. intros Hs. unfold OVER. total_walk. Qed.
Lemma total_UNDER x y s : Inv s -> total Inv (UNDER x y s).
Proof. intros Hs. unfold UNDER. total_walk. Qed.
Hint Resolve total_OVER total_UNDER : total.

Lemma total_FPR_F n s : reg_num n = true -> Inv s -> total any (FPR_F n s).
Proof. intros Hn Hs. unfold FPR_F. total_walk. Qed.
Lemma total_SET_FPR_F n e s : reg_num n = true -> total_expr e -> Inv s -> total Inv (SET_FPR_F n e s).
Proof. apply total_set_fpr. Qed.
Lemma total_FPR_D n s : reg_num n = true -> Inv s -> total any (FPR_D cfg n s).
Proof. intros Hn Hs. unfold FPR_D. apply even_num in Hn. total_walk. Qed.
Lemma total_SET_FPR_D n e s : reg_num n = true -> total_expr e -> Inv s -> total Inv (SET_FPR_D cfg n e s).
Proof.
  intros Hn He Hs. unfold SET_FPR_D. apply even_num in Hn. eapply (total_bind Inv); [total_base|intros s1 Hs1].
  eapply (total_bind any); [by apply He|intros v _]. destruct (double_words _ _). total_walk.
Qed.

Lemma total_ea_disp inst : reg_num (RS inst) = true -> total_expr (ea_disp inst).
Proof. intros Hr s Hs. unfold ea_disp. total_walk. Qed.
Lemma total_ea_rr inst : reg_num (RS inst) = true -> reg_num (RD inst) = true -> total_expr (ea_rr inst).
Proof. intros Hr Hd s Hs. unfold ea_rr. total_walk. Qed.

Lemma total_READ_WORD a s : Inv s -> total (fun x => Inv x.2) (READ_WORD a s).
Proof. apply tot_read. Qed.
Lemma total_WRITE_WORD v a s : Inv s -> total Inv (WRITE_WORD v a s).
Proof. apply tot_write. Qed.
Hint Resolve total_set_gpr total_set_fpr total_set_gpr_mem total_set_fpr_mem total_FPR_F total_FPR_D
  total_ea_disp total_ea_rr total_READ_WORD total_WRITE_WORD : total.

(** * The groups of instructions *)

Lemma total_branch inst taken s : Inv s -> Inv (branch inst taken s).
Proof. intros Hs. unfold branch. destruct taken; eauto with total. Qed.
Hint Resolve total_branch : total.

Lemma total_INC_DEC inst e (size : nat) s :
  reg_num (RS inst) = true -> mode_num inst = true -> (size - 1 < 8)%nat -> total_step e -> Inv s ->
  total Inv (INC_DEC inst e (RS inst) size s).
Proof.
  intros Hr Hm Hz He Hs. unfold INC_DEC.
  eapply (total_bind any); [by apply tab_step_total; [| |repeat constructor]|intros f _].
  eapply (total_bind Inv); [apply total_set_gpr; [done| |done]; total_walk|intros s1 Hs1].
  eapply (total_bind Inv); [by apply He|intros s2 Hs2].
  eapply (total_bind any); [by apply tab_step_total; [| |repeat constructor]|intros a _].
  apply total_set_gpr; [done| |done]. total_walk.
Qed.

(** The pieces of loads and stores, for an address computation [ea]. *)
Section Memory.
Variables (ea : S -> outcome Z) (inst : ss_inst).
Hypothesis Hea : total_expr ea.
Hint Extern 0 (total any (ea _)) => apply Hea : total.

Lemma total_load_gpr READ : reg_num (RT inst) = true -> (forall a, total_mem_expr (READ a)) -> total_step (load_gpr READ ea inst).
Proof. intros Hr HR s Hs. unfold load_gpr. apply total_set_gpr_mem; [done| |done]. total_walk. by apply HR. Qed.
Lemma total_load_fpr ofs : reg_num (RT inst) = true -> total_step (load_fpr ofs ea inst).
Proof. intros Hr s Hs. unfold load_fpr. apply total_set_fpr_mem; [done| |done]. total_walk. Qed.
Lemma total_load_gpr_pair : pair_num (RT inst) = true -> total_step (load_gpr_pair cfg ea inst).
Proof. intros Hr s Hs. unfold load_gpr_pair, INTALIGN. total_walk; apply total_set_gpr_mem; eauto with total; total_walk. Qed.
Lemma total_load_fpr_pair : pair_num (RT inst) = true -> total_step (load_fpr_pair cfg ea inst).
Proof. intros Hr s Hs. unfold load_fpr_pair, FPALIGN. total_walk; apply total_set_fpr_mem; eauto with total; total_walk. Qed.
Lemma total_store_gpr WRITE ofs :
  reg_num (RT inst) = true -> (forall v a, total_step (WRITE v a)) -> total_step (store_gpr WRITE ofs ea inst).
Proof. intros Hr HW s Hs. unfold store_gpr. total_walk. by apply HW. Qed.
Lemma total_store_fpr ofs : reg_num (RT inst) = true -> total_step (store_fpr ofs ea inst).
Proof. intros Hr s Hs. unfold store_fpr. total_walk. Qed.
Lemma total_store_gpr_pair : pair_num (RT inst) = true -> total_step (store_gpr_pair cfg ea inst).
Proof. intros Hr s Hs. unfold store_gpr_pair, INTALIGN. total_walk. Qed.
Lemma total_store_zero_pair : total_step (store_zero_pair ea).
Proof. intros s Hs. unfold store_zero_pair. total_walk. Qed.
Lemma total_store_fpr_pair swap :
  swap = 0 \/ swap = 1 -> pair_num (RT inst) = true -> total_step (store_fpr_pair swap ea inst).
Proof. intros Hw Hr s Hs. unfold store_fpr_pair, FPALIGN. total_walk. Qed.
End Memory.

Lemma total_load_part BASE PROT inst :
  reg_num (RS inst) = true -> reg_num (RT inst) = true -> (forall a, total any (PROT a)) -> total_step (load_part BASE PROT inst).
Proof. intros Hs Ht HP s HI. unfold load_part. total_walk. apply total_set_gpr; [done| |done]. total_walk. Qed.
Lemma total_store_part BASE PROT inst :
  reg_num (RS inst) = true -> reg_num (RT inst) = true -> (forall a, total any (PROT a)) -> total_step (store_part BASE PROT inst).
Proof. intros Hs Ht HP s HI. unfold store_part. total_walk. by apply total_ea_disp. by apply total_ea_disp. Qed.

Lemma total_signed_read t f a : total_mem_expr (fun s => '(v, s) ← READ_MEM t a s; Ok (f v, s)).
Proof. intros s Hs. total_walk. Qed.

Hint Resolve total_load_gpr total_load_fpr total_load_gpr_pair total_load_fpr_pair total_store_gpr total_store_fpr
  total_store_gpr_pair total_store_zero_pair total_store_fpr_pair total_load_part total_store_part total_signed_read : total.

(** The conditions of [well_encoded], one by one. *)
Ltac encoded :=
  cbn [well_encoded] in *; repeat match goal with H : _ && _ = true |- _ => apply andb_prop in H as [? ?] end.

(** One goal for each opcode of a list. *)
Ltac each_op Hop := repeat (apply elem_of_cons in Hop as [-> | Hop]); [..|by apply elem_of_nil in Hop].

Lemma total_control op inst s :
  well_encoded op inst = true -> Inv s ->
  op ∈ [JUMP; JAL; JR; JALR; BEQ; BNE; BLEZ; BGTZ; BLTZ; BGEZ; BC1F; BC1T] -> total Inv (exec_control op inst s).
Proof.
  intros He Hs Hop. each_op Hop; encoded; unfold exec_control, TALIGN; total_walk.
  all: apply total_set_gpr; [done|total_walk|total_base].
Qed.

Ltac total_inc_dec := apply total_INC_DEC; [done|done|cbn; lia| |done].

Lemma total_load op inst s :
  well_encoded op inst = true -> Inv s ->
  op ∈ [LB; LBU; LH; LHU; LW; DLW; L_S; L_D; LWL; LWR] -> total Inv (exec_load cfg op inst s).
Proof.
  intros He Hs Hop. each_op Hop; encoded; unfold exec_load; cbv zeta.
  9,10: by apply total_load_part; auto with total.
  all: total_inc_dec; auto 6 using tot_read with total.
  all: apply total_load_gpr; auto with total; intros a; first [apply total_signed_read | intros ? ?; by apply tot_read].
Qed.

Lemma total_load_rr op inst s :
  well_encoded op inst = true -> Inv s ->
  op ∈ [LB_RR; LBU_RR; LH_RR; LHU_RR; LW_RR; DLW_RR; L_S_RR; L_D_RR; L_S_RR_R2; LW_RR_R2] -> total Inv (exec_load_rr cfg op inst s).
Proof.
  intros He Hs Hop. each_op Hop; encoded; unfold exec_load_rr; cbv zeta.
  all: total_inc_dec; auto 6 with total.
  all: apply total_load_gpr; auto with total; intros a; first [apply total_signed_read | intros ? ?; by apply tot_read].
Qed.

Lemma total_store op inst s :
  well_encoded op inst = true -> Inv s ->
  op ∈ [SB; SH; SW; DSW; DSZ; S_S; S_D; SWL; SWR] -> total Inv (exec_store cfg op inst s).
Proof.
  intros He Hs Hop. each_op Hop; encoded; unfold exec_store; cbv zeta.
  8,9: by apply total_store_part; auto with total.
  all: total_inc_dec; auto 6 with total.
  all: apply total_store_gpr; auto with total; intros ? ? ? ?; by apply tot_write.
Qed.

Lemma total_store_rr op inst s :
  well_encoded op inst = true -> Inv s ->
  op ∈ [SB_RR; SH_RR; SW_RR; DSW_RR; DSZ_RR; S_S_RR; S_D_RR; S_S_RR_R2; SW_RR_R2] -> total Inv (exec_store_rr cfg op inst s).
Proof.
  intros He Hs Hop. each_op Hop; encoded; unfold exec_store_rr; cbv zeta.
  all: total_inc_dec; auto 6 with total.
  all: apply total_store_gpr; auto with total; intros ? ? ? ?; by apply tot_write.
Qed.

(** * Integer operations *)

Lemma total_alu dst x y f s :
  reg_num dst = true -> total_expr x -> total_expr y -> Inv s -> total Inv (alu dst x y f s).
Proof. intros Hd Hx Hy Hs. unfold alu. apply total_set_gpr; [done| |done]. total_walk. Qed.
Lemma total_alu_o dst x y f s :
  reg_num dst = true -> total_expr x -> total_expr y -> (forall a b, total any (f a b)) -> Inv s -> total Inv (alu_o dst x y f s).
Proof. intros Hd Hx Hy Hf Hs. unfold alu_o. apply total_set_gpr; [done| |done]. total_walk. Qed.

Lemma total_shift dst x n f s :
  reg_num dst = true -> total_expr x -> (forall a, total any (f a n)) -> Inv s ->
  total Inv (alu_o dst x (fun _ => Ok n) f s).
Proof.
  intros Hd Hx Hf Hs. unfold alu_o. apply total_set_gpr; [done| |done]. intros s1 Hs1.
  eapply (total_bind any); [by apply Hx|intros a _]. cbn [mbind outcome_bind]. total_walk.
Qed.

Lemma total_sra_loop n rd : reg_num rd = true -> total_step (sra_loop n rd).
Proof.
  intros Hr. induction n as [|n IH]; intros s Hs; cbn [sra_loop]; [total_base|].
  eapply (total_bind Inv); [apply total_set_gpr; [done|total_walk|done]|intros s1 Hs1]. by apply IH.
Qed.

Lemma total_inst_sra n inst :
  reg_num (RT inst) = true -> reg_num (RD inst) = true -> 0 <= n < 32 -> total_step (inst_sra n inst).
Proof.
  intros Ht Hd Hn s Hs. unfold inst_sra. total_walk; [apply total_set_gpr; [done|total_walk|done]|by apply total_sra_loop|].
  apply total_set_gpr; [done|total_walk|done].
Qed.

Lemma total_mult_step i a b : 0 <= i <= 30 -> total_step (mult_step i a b).
Proof.
  intros Hi s Hs. unfold mult_step. cbv zeta.
  eapply (total_bind any); [apply extractl_total; lia|intros bit _].
  eapply (total_bind any); [apply extractl_total; lia|intros bit' _].
  destruct (bit' =? 1); [|total_walk; eauto 8 with total]. apply total_ok, tot_lo. destruct (_ <? _); eauto 8 with total.
Qed.

Lemma total_mult_loop (f g : S -> outcome Z) :
  total_expr f -> total_expr g -> forall n i, 0 <= i -> i + Z.of_nat n <= 31 -> total_step (mult_loop n i f g).
Proof.
  intros Hf Hg n. induction n as [|n IH]; intros i Hi Hn s Hs; cbn [mult_loop]; [total_base|].
  eapply (total_bind any); [by apply Hf|intros a _]. eapply (total_bind any); [by apply Hg|intros b _].
  eapply (total_bind Inv); [apply total_mult_step; [lia|done]|intros s1 Hs1]. apply IH; [lia..|done].
Qed.

(** The reads and checks an instruction starts with. *)
Ltac total_binds :=
  repeat lazymatch goal with
  | |- total _ (mbind _ ?m) =>
      lazymatch type of m with
      | outcome S => eapply (total_bind Inv); [total_base|intros ? ?]
      | outcome Z => eapply (total_bind any); [total_base|intros ? _]
      end
  end.

Lemma total_InstMULT inst : reg_num (RS inst) = true -> reg_num (RT inst) = true -> total_step (InstMULT inst).
Proof.
  intros Hr Ht s Hs. unfold InstMULT. cbv zeta.
  eapply (total_bind any); [apply tot_gpr; eauto with total|intros x _].
  eapply (total_bind any); [apply tot_gpr; eauto with total|intros y _].
  destruct (mult_operand x) as [a sa], (mult_operand y) as [b sb].
  eapply (total_bind Inv).
  { apply total_mult_loop; [intros ? ?; total_base..|lia|cbn; lia|]. destruct (truth _); eauto with total. }
  intros s1 Hs1. destruct (xorb sa sb); [|total_base]. apply total_ok, tot_lo. destruct (_ =? _); eauto 8 with total.
Qed.

Lemma total_InstMULTU inst : reg_num (RS inst) = true -> reg_num (RT inst) = true -> total_step (InstMULTU inst).
Proof.
  intros Hr Ht s Hs. unfold InstMULTU. cbv zeta.
  eapply (total_bind any); [apply tot_gpr; eauto with total|intros x _].
  eapply (total_bind Inv); [|intros s1 Hs1; apply total_mult_loop; [intros ? ?; total_base..|lia|cbn; lia|done]].
  destruct (truth _); [|eauto with total]. eapply (total_bind any); [apply tot_gpr; eauto with total|intros y _]. eauto with total.
Qed.

(** Division of the operands that [u] makes of two registers. *)
Lemma total_div (u w : Z -> Z) inst s :
  reg_num (RS inst) = true -> reg_num (RT inst) = true -> Inv s ->
  (forall x y, GPR (RS inst) s = Ok x -> GPR (RT inst) s = Ok y -> quotient_overflows (u x) (u y) = false) ->
  total Inv (div_code (IDIV_int (S:=S)) (IMOD_int (S:=S)) u w inst s).
Proof.
  intros Hr Ht Hs Hq. unfold div_code, DIV0, div_tail.
  destruct (tot_gpr _ _ Hr Hs) as (x & Hx & _), (tot_gpr _ _ Ht Hs) as (y & Hy & _). specialize (Hq x y Hx Hy).
  rewrite Hy, mbind_ok, check_ignored, mbind_ok, Hx, mbind_ok, Hy, mbind_ok by done.
  eapply (total_bind any); [by apply tot_idiv|intros q _]. cbv zeta.
  rewrite !tot_gpr_lo, Hx, mbind_ok, Hy, mbind_ok by done.
  eapply (total_bind any); [by apply tot_imod|intros r _]. eauto with total.
Qed.

Lemma u32_quotient x y : quotient_overflows (u32 x) y = false.
Proof. unfold quotient_overflows. pose proof (u32_range x). apply andb_false_iff. rewrite Z.eqb_neq. lia. Qed.

Lemma total_arith op inst s :
  well_encoded op inst = true -> Inv s ->
  op ∈ [ADD; ADDI; ADDU; ADDIU; SUB; SUBU; MULT; MULTU; DIV; DIVU; MFHI; MTHI; MFLO; MTLO] ->
  total Inv (exec_arith op inst s) \/ division_overflows op inst s.
Proof.
  intros He Hs Hop. each_op Hop; encoded; unfold exec_arith; cbv zeta.
  9: { destruct (tot_gpr (RS inst) s) as (x & Hx & _); [done..|]. destruct (tot_gpr (RT inst) s) as (y & Hy & _); [done..|].
    destruct (quotient_overflows x y) eqn:Hq; [right|left].
    - unfold quotient_overflows in Hq. apply andb_prop in Hq as [->%Z.eqb_eq ->%Z.eqb_eq]. done.
    - apply (total_div (fun x => x) (fun x => x)); [done..|]. intros x' y' Hx' Hy'. rewrite Hx in Hx'. rewrite Hy in Hy'. by simplify_eq. }
  9: { left. apply (total_div u32 s32); [done..|]. intros x y _ _. apply u32_quotient. }
  7: left; by apply total_InstMULT.
  7: left; by apply total_InstMULTU.
  all: left; total_binds; lazymatch goal with
    | |- total _ (Ok _) => total_base
    | |- total _ (alu _ _ _ _ _) => apply total_alu; [done|intros ? ?; total_base..|done]
    | |- total _ (set_gpr _ _ _) => apply total_set_gpr; [done|intros ? ?; total_base|done]
    end.
Qed.

Lemma total_logic op inst s :
  well_encoded op inst = true -> Inv s ->
  op ∈ [AND_; ANDI; OR; ORI; XOR; XORI; NOR; SLL; SLLV; SRL; SRLV; SRA; SRAV; SLT; SLTI; SLTU; SLTIU; LUI] ->
  total Inv (exec_logic op inst s).
Proof.
  intros He Hs Hop.
  assert (Hn : 0 <= SHAMT inst) by (unfold SHAMT; apply Z.land_nonneg; lia).
  each_op Hop; encoded; unfold exec_logic, InstSRA, InstSRAV; cbv zeta.
  all: lazymatch goal with
    | |- total _ (alu _ _ _ _ _) => apply total_alu; [done|intros ? ?; total_base..|done]
    | |- total _ (alu_o _ _ (fun _ => Ok _) _ _) => apply total_shift; [done|intros ? ?; total_base|intros; first [apply c_shl_total | apply c_shr_total]; lia|done]
    | |- total _ (alu_o _ _ _ _ _) => apply total_alu_o; [done|intros ? ?; total_base..|intros; auto with total|done]
    | |- total _ (inst_sra _ _ _) => apply total_inst_sra; [done..|lia|done]
    | |- total _ (set_gpr _ _ _) => apply total_set_gpr; [done|intros ? ?; total_base|done]
    | |- _ => total_binds; by apply total_inst_sra; auto with total
    end.
Qed.

(** * Floating point and the rest *)

Section FpOps.
Variables (GET : Z -> S -> outcome Z) (SET : Z -> (S -> outcome Z) -> S -> outcome S) (inst : ss_inst).
Hypothesis Hget : forall n s, reg_num n = true -> Inv s -> total any (GET n s).
Hypothesis Hset : forall n e s, reg_num n = true -> total_expr e -> Inv s -> total Inv (SET n e s).
Hint Resolve Hget : total.
Hypothesis Hrs : reg_num (RS inst) = true.

Lemma total_align s : Inv s -> total Inv (fp_align3 inst s) /\ total Inv (fp_align2 inst s) /\ total Inv (fp_align_cmp inst s).
Proof. intros Hs. unfold fp_align3, fp_align2, fp_align_cmp, FPALIGN. split; [|split]; total_walk. Qed.

Lemma total_fp_op2 f : reg_num (RT inst) = true -> reg_num (RD inst) = true -> total_step (fp_op2 GET SET f inst).
Proof.
  intros Ht Hd s Hs. unfold fp_op2. eapply (total_bind Inv); [by apply total_align|intros s1 Hs1]. apply Hset; [done| |done].
  intros s2 Hs2. total_walk.
Qed.
Lemma total_fp_op1 f : reg_num (RD inst) = true -> total_step (fp_op1 GET SET f inst).
Proof.
  intros Hd s Hs. unfold fp_op1. eapply (total_bind Inv); [by apply total_align|intros s1 Hs1]. apply Hset; [done| |done].
  intros s2 Hs2. total_walk.
Qed.
Lemma total_fp_cmp f : reg_num (RT inst) = true -> total_step (fp_cmp GET f inst).
Proof. intros Ht s Hs. unfold fp_cmp. eapply (total_bind Inv); [by apply total_align|intros s1 Hs1]. total_walk. Qed.
Lemma total_fp_div eq f : reg_num (RT inst) = true -> reg_num (RD inst) = true -> total_step (fp_div GET SET eq f inst).
Proof.
  intros Ht Hd s Hs. unfold fp_div, DIV0. eapply (total_bind Inv); [by apply total_align|intros s1 Hs1].
  total_binds. apply Hset; [done| |done]. intros s2 Hs2. total_walk.
Qed.
End FpOps.

(** The accessors of registers are defined. *)
Ltac fp_defined :=
  solve [assumption | exact total_set_fpr | exact total_FPR_F | exact total_FPR_D | exact total_SET_FPR_F | exact total_SET_FPR_D
    | exact tot_fpr].

Lemma total_fp op inst s :
  well_encoded op inst = true -> Inv s ->
  op ∈ [FADD_S; FADD_D; FSUB_S; FSUB_D; FMUL_S; FMUL_D; FDIV_S; FDIV_D; FABS_S; FABS_D; FMOV_S; FMOV_D; FNEG_S; FNEG_D; FSQRT_S; FSQRT_D] ->
  total Inv (exec_fp cfg op inst s).
Proof.
  intros He Hs Hop. each_op Hop; encoded; unfold exec_fp.
  all: lazymatch goal with
    | |- total _ (fp_op2 _ _ _ _ _) => apply total_fp_op2
    | |- total _ (fp_op1 _ _ _ _ _) => apply total_fp_op1
    | _ => apply total_fp_div
    end; fp_defined.
Qed.

Lemma total_fp_conv op inst s :
  well_encoded op inst = true -> Inv s ->
  op ∈ [CVT_S_D; CVT_S_W; CVT_D_S; CVT_D_W; CVT_W_S; CVT_W_D; C_EQ_S; C_EQ_D; C_LT_S; C_LT_D; C_LE_S; C_LE_D] ->
  total Inv (exec_fp_conv cfg op inst s).
Proof.
  intros He Hs Hop. each_op Hop; encoded; unfold exec_fp_conv.
  all: lazymatch goal with |- total _ (fp_cmp _ _ _ _) => apply total_fp_cmp | _ => apply total_fp_op1 end; fp_defined.
Qed.

Lemma total_misc op inst s :
  well_encoded op inst = true -> Inv s ->
  op ∈ [NOP; BREAK; MFC1; DMFC1; CFC1; MTC1; DMTC1; CTC1] -> total Inv (exec_misc op inst s).
Proof.
  intros He Hs Hop. each_op Hop; encoded; unfold exec_misc, INTALIGN, FPALIGN; total_walk.
  all: first [apply total_set_gpr | apply total_set_fpr]; eauto with total; intros ? ?; apply tot_fpr || apply tot_gpr; eauto with total.
Qed.

(** Every instruction whose fields are sound is executed, but an overflowing
    division; OP_NA is none and a system call is the machine's own. *)
Lemma execute_total op inst s :
  op <> OP_NA -> op <> SYSCALL -> well_encoded op inst = true -> Inv s ->
  total Inv (execute cfg op inst s) \/ division_overflows op inst s.
Proof.
  intros Hna Hsy He Hs. destruct op; try done; unfold execute.
  all: lazymatch goal with
    | |- total _ (exec_control _ _ _) \/ _ => left; apply total_control
    | |- total _ (exec_load _ _ _ _) \/ _ => left; apply total_load
    | |- total _ (exec_load_rr _ _ _ _) \/ _ => left; apply total_load_rr
    | |- total _ (exec_store _ _ _ _) \/ _ => left; apply total_store
    | |- total _ (exec_store_rr _ _ _ _) \/ _ => left; apply total_store_rr
    | |- total _ (exec_arith _ _ _) \/ _ => apply total_arith
    | |- total _ (exec_logic _ _ _) \/ _ => left; apply total_logic
    | |- total _ (exec_fp _ _ _ _) \/ _ => left; apply total_fp
    | |- total _ (exec_fp_conv _ _ _ _) \/ _ => left; apply total_fp_conv
    | |- total _ (exec_misc _ _ _) \/ _ => left; apply total_misc
    end; [exact He|exact Hs|repeat first [apply list_elem_of_here | apply list_elem_of_further]].
Qed.
End Totality.
