(* ===== verification/Funsim.v ===== *)
(** regs.c, sim-safe.c and sim-fast.c: the architected registers and the two
    functional simulators, the one that checks every instruction and the one
    that checks nothing.

    Both expand ss.def over their own macros, here two instances of [Machine],
    and run it in a loop whose body is [sim_safe_step] and [sim_fast_step].
    [ss_syscall] is a part of what surrounds them: it is what syscall.c does to the
    registers and the memory, and the calls it makes of the host ([host_trace]).  The DLite
    debugger is inactive, its breakpoint tests are false. *)

From S2P Require Import Prelude Misc Memory Isa Exec ExecMult.

(** * The host *)

(** The host as the system calls of the simulated program see it is a function from the
    calls of a run so far, with their answers, to the answer of the next one, so that the
    answers may change from call to call.  Strings and buffers are lists of bytes. *)

(** The calls of the C library that syscall.c makes.  What has been stored in a place
    that is passed to be filled is among the arguments; a null pointer, and a place
    that holds nothing yet, is [None]. *)
Inductive host_call :=
| h_read (fd nbytes : Z)
| h_write (fd : Z) (buf : list Z)
| h_open (path : list Z) (flags mode : Z)
| h_close (fd : Z)
| h_creat (path : list Z) (mode : Z)
| h_unlink (path : list Z)
| h_chdir (path : list Z)
| h_chmod (path : list Z) (mode : Z)
| h_chown (path : list Z) (owner group : Z)
| h_lseek (fd off dir : Z)
| h_getpid
| h_getuid
| h_geteuid
| h_access (path : list Z) (mode : Z)
| h_stat (path : list Z)
| h_lstat (path : list Z)
| h_dup (fd : Z)
| h_pipe (fd0 fd1 : Z)
| h_getgid
| h_getegid
| h_ioctl (fd req : Z) (buf : list Z)
| h_fstat (fd : Z)
| h_getrlimit (resource : Z) (rl : option (Z * Z))
| h_setrlimit (resource cur max : Z)
| h_dup2 (fd1 fd2 : Z)
| h_fcntl (fd cmd arg : Z)
| h_select (nfd : Z) (readfds writefds exceptfds timeout : option (list Z))
| h_gettimeofday (tv tz : option (Z * Z))
| h_getrusage (who : Z)
| h_writev (fd : Z) (iov : list (option (list Z) * Z))
| h_utimes (path : list Z) (times : option (list Z)).

#[global] Instance host_call_eq_dec : EqDecision host_call.
Proof. solve_decision. Defined.

(** The result, errno, and what is in each of the places the call fills, when it
    returns. *)
Record host_answer := mk_answer { a_result : Z; a_errno : Z; a_out : list (list Z) }.

#[global] Instance host_answer_eq_dec : EqDecision host_answer.
Proof. solve_decision. Defined.

Record host_event := mk_host_event { he_call : host_call; he_answer : host_answer }.

#[global] Instance host_event_eq_dec : EqDecision host_event.
Proof. solve_decision. Defined.

(** The calls of a run, the last one first. *)
Definition host_trace := list host_event.

(** * regs.c *)

Definition SS_NUM_REGS : Z := 32.
Definition SS_STACK_REGNO : Z := 29.

(** The register files; [regs_F] is the word view [l] of the union. *)
Record regs := mk_regs {
  regs_R : list Z;
  regs_F : list Z;
  regs_HI : Z;
  regs_LO : Z;
  regs_FCC : Z;
  regs_PC : Z;
}.
#[global] Instance eta_regs : Eta regs := mk_eta (fun r =>
  mk_regs (regs_R r) (regs_F r) (regs_HI r) (regs_LO r) (regs_FCC r) (regs_PC r)).

#[global] Instance regs_eq_dec : EqDecision regs.
Proof. solve_decision. Defined.

(** [a[i]] and [a[i] = v] for an array of ints: the assignment converts to int. *)
Definition z_get (l : list Z) (i : Z) : outcome Z := if i <? 0 then Undef else c_get l (Z.to_nat i).
Definition z_set (l : list Z) (i v : Z) : outcome (list Z) :=
  if i <? 0 then Undef else c_upd l (Z.to_nat i) (fun _ => s32 v).

Fixpoint clear_regs (n : nat) (i : Z) (r : regs) : outcome regs :=
  match n with
  | O => Ok r
  | S n' =>
      R ← z_set (regs_R r) i 0; F ← z_set (regs_F r) i 0;
      clear_regs n' (i + 1) (r <| regs_R := R |> <| regs_F := F |>)
  end.

Definition regs_init (ld_environ_base ld_prog_entry : Z) (r : regs) : outcome regs :=
  r ← clear_regs (Z.to_nat SS_NUM_REGS) 0 r;
  let r := r <| regs_HI := 0 |> <| regs_LO := 0 |> <| regs_FCC := 0 |> <| regs_PC := 0 |> in
  R ← z_set (regs_R r) SS_STACK_REGNO ld_environ_base;
  Ok (r <| regs_R := R |> <| regs_PC := ld_prog_entry |>).

(** * What surrounds the simulators *)

Class SimEnv := {
  env_ld : ld_bounds;
  env_cfg : byte_config;
  ss_syscall : ss_inst -> regs -> mem_state -> host_trace -> outcome (regs * mem_state * host_trace);
}.

(** An instruction in memory, its fields in host order. *)
Definition fetch_inst `{SimEnv} (pc : Z) (m : mem_state) : outcome ss_inst :=
  bs ← unchk_read 8 pc m;
  Ok (mk_inst (host_combine (host_big env_cfg) (take 4 bs)) (host_combine (host_big env_cfg) (drop 4 bs))).

(** The opcode an enumeration value names: the text segment is pre-decoded. *)
Definition opcode_of_val (v : Z) : option ss_opcode :=
  if v <? 0 then None else ss_opcodes !! Z.to_nat v.

(** The initial decode loop: the opcode field of each instruction of the text
    segment is replaced by its enumeration value.  sim-safe swaps the bytes of
    the two words first on hosts of the other byte order ([swap]). *)
Definition predecode `{SimEnv} (swap : Z -> Z) (tab : list ss_opcode) (addr : Z) (m : mem_state) : outcome mem_state :=
  inst ← fetch_inst addr m;
  let inst := mk_inst (swap (inst_a inst)) (swap (inst_b inst)) in
  op ← SS_OP_ENUM tab (SS_OPCODE inst);
  let a := Z.lor (Z.land (inst_a inst) (u32_not 0xff)) (ss_opcode_val op) in
  unchk_write addr (host_split (host_big env_cfg) 4 a ++ host_split (host_big env_cfg) 4 (inst_b inst)) m.

Fixpoint predecode_loop `{SimEnv} (swap : Z -> Z) (tab : list ss_opcode) (fuel : nat) (addr : Z) (m : mem_state) : outcome mem_state :=
  match fuel with
  | O => NoFuel
  | S fuel' =>
      if addr <? u32 (ld_text_base env_ld + ld_text_size env_ld) then
        m ← predecode swap tab addr m; predecode_loop swap tab fuel' (u32 (addr + SS_INST_SIZE)) m
      else Ok m
  end.

(** * sim-safe.c *)

Record safe_state := mk_safe {
  s_regs : regs;
  s_mem : mem_state;
  s_next_PC : Z;
  s_addr : Z;
  s_is_write : bool;
  s_num_insn : Z;
  s_num_refs : Z;
  s_host : host_trace;
}.
#[global] Instance eta_safe_state : Eta safe_state := mk_eta (fun s =>
  mk_safe (s_regs s) (s_mem s) (s_next_PC s) (s_addr s) (s_is_write s) (s_num_insn s) (s_num_refs s) (s_host s)).

Section Safe.
Context `{SimEnv}.

Definition safe_GPR (n : Z) (s : safe_state) : outcome Z := z_get (regs_R (s_regs s)) n.
Definition safe_SET_GPR (n v : Z) (s : safe_state) : outcome safe_state :=
  R ← z_set (regs_R (s_regs s)) n v; Ok (s <| s_regs ::= set_field regs_R (fun _ => R) |>).
Definition safe_FPR_L (n : Z) (s : safe_state) : outcome Z := z_get (regs_F (s_regs s)) n.
Definition safe_SET_FPR_L (n v : Z) (s : safe_state) : outcome safe_state :=
  F ← z_set (regs_F (s_regs s)) n v; Ok (s <| s_regs ::= set_field regs_F (fun _ => F) |>).

(** [MEM_READ_xxx(addr = (SRC))]: validity is declared, then the page read. *)
Definition safe_READ (t : mem_temp) (a : Z) (s : safe_state) : outcome (Z * safe_state) :=
  '(_, m) ← mem_valid env_ld Read a (Z.of_nat (temp_size t)) true (s_mem s);
  '(v, m) ← MEM_READ (host_big env_cfg) (temp_size t) a m;
  Ok (v, s <| s_mem := m |> <| s_addr := a |>).
Definition safe_WRITE (t : mem_temp) (v a : Z) (s : safe_state) : outcome safe_state :=
  '(_, m) ← mem_valid env_ld Write a (Z.of_nat (temp_size t)) true (s_mem s);
  m ← MEM_WRITE (host_big env_cfg) (temp_size t) a v m;
  Ok (s <| s_mem := m |> <| s_addr := a |>).

Definition safe_SYSCALL (inst : ss_inst) (s : safe_state) : outcome safe_state :=
  '(r, m, h) ← ss_syscall inst (s_regs s) (s_mem s) (s_host s); Ok (s <| s_regs := r |> <| s_mem := m |> <| s_host := h |>).

#[export] Instance safe_machine : Machine safe_state := {
  CPC s := regs_PC (s_regs s);
  SET_NPC v s := s <| s_next_PC := v |>;
  SET_TPC _ s := s;
  GPR := safe_GPR;
  MARK_GPR _ s := Ok s;
  SET_GPR := safe_SET_GPR;
  FPR_L := safe_FPR_L;
  MARK_FPR _ s := Ok s;
  SET_FPR_L := safe_SET_FPR_L;
  HI s := regs_HI (s_regs s);
  SET_HI v s := s <| s_regs ::= set_field regs_HI (fun _ => s32 v) |>;
  LO s := regs_LO (s_regs s);
  SET_LO v s := s <| s_regs ::= set_field regs_LO (fun _ => s32 v) |>;
  FCC s := regs_FCC (s_regs s);
  SET_FCC v s := s <| s_regs ::= set_field regs_FCC (fun _ => s32 v) |>;
  READ_MEM := safe_READ;
  WRITE_MEM := safe_WRITE;
  IFAIL _ := Fatal;
  IDIV_int := c_div;
  IMOD_int := c_mod;
  FINT_nan := None;
  FDIV_zero := false;
  do_syscall := safe_SYSCALL;
}.

(** The body of the loop of [sim_main]. *)
Definition sim_safe_step `{HostFP} (s : safe_state) : outcome safe_state :=
  s ← safe_SET_GPR 0 0 s;
  let s := s <| s_num_insn ::= Z.add 1 |> in
  inst ← fetch_inst (regs_PC (s_regs s)) (s_mem s);
  let s := s <| s_addr := 0 |> <| s_is_write := false |> in
  op ← (match opcode_of_val (SS_OPCODE inst) with Some op => Ok op | None => Panic end);
  s ← execute env_cfg op inst s;
  let s := if truth (Z.land (SS_OP_FLAGS op) F_MEM)
           then s <| s_num_refs ::= Z.add 1 |> <| s_is_write ::= orb (truth (Z.land (SS_OP_FLAGS op) F_STORE)) |>
           else s in
  Ok (s <| s_regs ::= set_field regs_PC (fun _ => s_next_PC s) |> <| s_next_PC ::= fun pc => u32 (pc + SS_INST_SIZE) |>).

Fixpoint sim_safe_run `{HostFP} (n : nat) (s : safe_state) : outcome safe_state :=
  match n with O => Ok s | S n' => s ← sim_safe_step s; sim_safe_run n' s end.

(** [sim_main] before its loop. *)
Definition sim_safe_main (s : safe_state) : safe_state :=
  s <| s_next_PC := u32 (regs_PC (s_regs s) + SS_INST_SIZE) |>.
End Safe.

(** * sim-fast.c *)

Record fast_state := mk_fast { q_regs : regs; q_mem : mem_state; q_next_PC : Z; q_host : host_trace }.
#[global] Instance eta_fast_state : Eta fast_state := mk_eta (fun s =>
  mk_fast (q_regs s) (q_mem s) (q_next_PC s) (q_host s)).

Section Fast.
Context `{SimEnv}.

Definition fast_GPR (n : Z) (s : fast_state) : outcome Z := z_get (regs_R (q_regs s)) n.
Definition fast_SET_GPR (n v : Z) (s : fast_state) : outcome fast_state :=
  R ← z_set (regs_R (q_regs s)) n v; Ok (s <| q_regs ::= set_field regs_R (fun _ => R) |>).
Definition fast_FPR_L (n : Z) (s : fast_state) : outcome Z := z_get (regs_F (q_regs s)) n.
Definition fast_SET_FPR_L (n v : Z) (s : fast_state) : outcome fast_state :=
  F ← z_set (regs_F (q_regs s)) n v; Ok (s <| q_regs ::= set_field regs_F (fun _ => F) |>).

Definition fast_READ (t : mem_temp) (a : Z) (s : fast_state) : outcome (Z * fast_state) :=
  '(v, m) ← MEM_READ (host_big env_cfg) (temp_size t) a (q_mem s); Ok (v, s <| q_mem := m |>).
Definition fast_WRITE (t : mem_temp) (v a : Z) (s : fast_state) : outcome fast_state :=
  m ← MEM_WRITE (host_big env_cfg) (temp_size t) a v (q_mem s); Ok (s <| q_mem := m |>).

Definition fast_SYSCALL (inst : ss_inst) (s : fast_state) : outcome fast_state :=
  '(r, m, h) ← ss_syscall inst (q_regs s) (q_mem s) (q_host s); Ok (s <| q_regs := r |> <| q_mem := m |> <| q_host := h |>).

(** NO_ICHECKS: a failed check is nothing. *)
#[export] Instance fast_machine : Machine fast_state := {
  CPC s := regs_PC (q_regs s);
  SET_NPC v s := s <| q_next_PC := v |>;
  SET_TPC _ s := s;
  GPR := fast_GPR;
  MARK_GPR _ s := Ok s;
  SET_GPR := fast_SET_GPR;
  FPR_L := fast_FPR_L;
  MARK_FPR _ s := Ok s;
  SET_FPR_L := fast_SET_FPR_L;
  HI s := regs_HI (q_regs s);
  SET_HI v s := s <| q_regs ::= set_field regs_HI (fun _ => s32 v) |>;
  LO s := regs_LO (q_regs s);
  SET_LO v s := s <| q_regs ::= set_field regs_LO (fun _ => s32 v) |>;
  FCC s := regs_FCC (q_regs s);
  SET_FCC v s := s <| q_regs ::= set_field regs_FCC (fun _ => s32 v) |>;
  READ_MEM := fast_READ;
  WRITE_MEM := fast_WRITE;
  IFAIL s := Ok s;
  IDIV_int := c_div;
  IMOD_int := c_mod;
  FINT_nan := None;
  FDIV_zero := false;
  do_syscall := fast_SYSCALL;
}.

(** The body of the loop (USE_JUMP_TABLE is not defined): a switch without a
    default, an opcode outside ss.def does nothing. *)
Definition sim_fast_step `{HostFP} (s : fast_state) : outcome fast_state :=
  s ← fast_SET_GPR 0 0 s;
  inst ← fetch_inst (regs_PC (q_regs s)) (q_mem s);
  s ← (match opcode_of_val (SS_OPCODE inst) with
       | Some OP_NA | None => Ok s
       | Some op => execute env_cfg op inst s
       end);
  Ok (s <| q_regs ::= set_field regs_PC (fun _ => q_next_PC s) |> <| q_next_PC ::= fun pc => u32 (pc + SS_INST_SIZE) |>).

Fixpoint sim_fast_run `{HostFP} (n : nat) (s : fast_state) : outcome fast_state :=
  match n with O => Ok s | S n' => s ← sim_fast_step s; sim_fast_run n' s end.

(** [sim_main] before its loop: the next PC is the current one. *)
Definition sim_fast_main (sim_swap_bytes : Z) (s : fast_state) : outcome fast_state :=
  fatal_if (truth sim_swap_bytes || truth (sim_swap_words env_cfg));;
  Ok (s <| q_next_PC := regs_PC (q_regs s) |>).
End Fast.
