(* ===== verification/FunsimProps.v ===== *)
(** The two functional simulators agree: a program that sim-safe runs without
    an error runs the same on sim-fast; and both compute exact products. *)

From Stdlib Require Import ZifyBool.
From S2P Require Import Prelude Misc Memory Isa Exec ExecMult ExecMeta Funsim.

(** * Register files *)

Definition is_int (v : Z) : Prop := - 2 ^ 31 <= v < 2 ^ 31.

Record regs_ok (r : regs) : Prop := {
  regs_R_len : length (regs_R r) = Z.to_nat SS_NUM_REGS;
  regs_F_len : length (regs_F r) = Z.to_nat SS_NUM_REGS;
  regs_R_int : Forall is_int (regs_R r);
}.

Lemma z_set_spec (l l' : list Z) (i v : Z) :
  z_set l i v = Ok l' -> 0 <= i /\ (Z.to_nat i < length l)%nat /\ l' = <[Z.to_nat i := s32 v]> l.
Proof.
  unfold z_set. destruct (Z.ltb_spec i 0); [done|]. unfold c_upd.
  destruct (l !! Z.to_nat i) eqn:E; [|done]. intros [= <-]. apply lookup_lt_Some in E. done.
Qed.

Lemma z_set_some (l : list Z) (i v : Z) :
  0 <= i -> (Z.to_nat i < length l)%nat -> z_set l i v = Ok (<[Z.to_nat i := s32 v]> l).
Proof.
  intros Hi Hl. unfold z_set. replace (i <? 0) with false by blia.
  apply lookup_lt_is_Some_2 in Hl as [x Hx]. by rewrite (c_upd_insert _ _ _ x).
Qed.

Lemma z_get_spec (l : list Z) (i v : Z) : z_get l i = Ok v <-> 0 <= i /\ l !! Z.to_nat i = Some v.
Proof.
  unfold z_get, c_get. destruct (Z.ltb_spec i 0); [split; [done|lia]|].
  destruct (l !! Z.to_nat i); cbn; naive_solver.
Qed.

Lemma z_set_int (l l' : list Z) (i v : Z) : z_set l i v = Ok l' -> Forall is_int l -> Forall is_int l'.
Proof. intros (? & ? & ->)%z_set_spec Hl. apply Forall_insert; [done|]. apply s32_range. Qed.

Lemma z_get_int (l : list Z) (i v : Z) : Forall is_int l -> z_get l i = Ok v -> is_int v.
Proof. intros Hl [_ H]%z_get_spec. by eapply Forall_lookup_1 in Hl. Qed.

Lemma z_set_get (l l' : list Z) (i v : Z) : z_set l i v = Ok l' -> z_get l' i = Ok (s32 v).
Proof.
  intros (? & ? & ->)%z_set_spec. apply z_get_spec. split; [done|]. by apply list_lookup_insert_eq.
Qed.

Lemma z_set_set (l l' : list Z) (i v w : Z) : z_set l i v = Ok l' -> z_set l' i w = z_set l i w.
Proof.
  intros (? & ? & ->)%z_set_spec. rewrite !z_set_some by (rewrite ?length_insert; done).
  by rewrite list_insert_insert_eq.
Qed.

Lemma z_set_length (l l' : list Z) (i v : Z) : z_set l i v = Ok l' -> length l' = length l.
Proof. intros (? & ? & ->)%z_set_spec. apply length_insert. Qed.

(** * sim-safe and sim-fast *)

(** Memories with the same contents and break; [mem_stack_min] is a statistic. *)
Definition mem_same (m1 m2 : mem_state) : Prop :=
  mem_table m1 = mem_table m2 /\ mem_brk_point m1 = mem_brk_point m2.

Lemma mem_valid_same ld cmd a n m1 m2 e m1' :
  mem_valid ld cmd a n true m1 = Ok (e, m1') -> mem_same m1 m2 -> mem_same m1' m2.
Proof.
  unfold mem_valid. cbn [negb].
  destruct (if bad_align a n then Some BadSizeOrAlignment else if negb (mem_perm ld cmd a) then Some SegmentationViolation else None); [done|].
  intros [= <- <-] [H1 H2]. unfold track_stack_min. destruct (_ && _); done.
Qed.

Lemma mem_tickle_same a m1 m2 : mem_same m1 m2 -> mem_same (mem_tickle a m1) (mem_tickle a m2).
Proof.
  intros [H1 H2]. unfold mem_tickle. rewrite H1. destruct (mem_table m2 !! _); [done|].
  split; cbn; [by rewrite H1|done].
Qed.

Lemma MEM_READ_same hb n a m1 m2 v m1' :
  MEM_READ hb n a m1 = Ok (v, m1') -> mem_same m1 m2 ->
  exists m2', MEM_READ hb n a m2 = Ok (v, m2') /\ mem_same m1' m2'.
Proof.
  intros H Hm. apply (mem_tickle_same a) in Hm. unfold MEM_READ, unchk_read in *.
  destruct Hm as [Ht Hb]. rewrite <- Ht. cbv zeta in *.
  destruct (mem_table (mem_tickle a m1) !! MEM_BLOCK a); cbn [deref mbind outcome_bind] in *; [|done].
  destruct (_ <=? _); cbn [mbind outcome_bind] in *; [|done]. injection H as <- <-. by eexists.
Qed.

Lemma unchk_write_same a bs m1 m2 m1' :
  unchk_write a bs m1 = Ok m1' -> mem_same m1 m2 ->
  exists m2', unchk_write a bs m2 = Ok m2' /\ mem_same m1' m2'.
Proof.
  intros H [Ht Hb]. unfold unchk_write in *. rewrite <- Ht.
  destruct (mem_table m1 !! MEM_BLOCK a); cbn [deref mbind outcome_bind] in *; [|done].
  destruct (_ <=? _); [|done]. injection H as <-. eexists. split; [done|]. split; cbn; [by rewrite Ht|done].
Qed.

Lemma fetch_inst_same `{SimEnv} pc m1 m2 : mem_same m1 m2 -> fetch_inst pc m1 = fetch_inst pc m2.
Proof. intros [Ht _]. unfold fetch_inst, unchk_read. by rewrite Ht. Qed.

(** The pages hold bytes. *)
Definition pages_ok (m : mem_state) : Prop :=
  forall b pg o v, mem_table m !! b = Some pg -> pg !! o = Some v -> is_byte v.

(** Memories with the same bytes and break, whatever pages are allocated. *)
Definition page_of (m : mem_state) (b : Z) : gmap Z Z := default ∅ (mem_table m !! b).
Definition mem_like (m1 m2 : mem_state) : Prop :=
  (forall b o, page_get (page_of m1 b) o = page_get (page_of m2 b) o) /\ mem_brk_point m1 = mem_brk_point m2.

#[global] Instance mem_like_equivalence : Equivalence mem_like.
Proof.
  split.
  - done.
  - intros m1 m2 [H1 H2]. done.
  - intros m1 m2 m3 [H1 H2] [H3 H4]. split; [|congruence]. intros b o. by rewrite H1.
Qed.

Lemma mem_like_bytes m1 m2 : mem_like m1 m2 -> same_bytes m1 m2.
Proof. intros [H _] a. symmetry. apply H. Qed.

Lemma page_of_tickle a m b : page_of (mem_tickle a m) b = page_of m b.
Proof.
  unfold page_of, mem_tickle. destruct (mem_table m !! MEM_BLOCK a) eqn:Ea; [done|]. cbn. rewrite lookup_insert.
  case_decide as Hb; [|done]. by rewrite <- Hb, Ea.
Qed.

Lemma mem_like_tickle a m : mem_like m (mem_tickle a m).
Proof.
  split; [intros b o; by rewrite page_of_tickle|]. unfold mem_tickle. by destruct (mem_table m !! _).
Qed.

Lemma mem_like_track a m : mem_like m (track_stack_min a m).
Proof. unfold track_stack_min. by destruct (_ && _). Qed.

Lemma pages_bytes_ok m m' : pages_ok m -> mem_like m m' -> bytes_ok m'.
Proof.
  intros Hp [Hl _] a _. unfold mem_byte. change (default ∅ (mem_table m' !! MEM_BLOCK a)) with (page_of m' (MEM_BLOCK a)). rewrite <- Hl.
  unfold page_of, page_get. destruct (mem_table m !! MEM_BLOCK a) as [pg|] eqn:Eb; cbn.
  - destruct (pg !! MEM_OFFSET a) eqn:Eo; cbn; [by eapply Hp|unfold is_byte; lia].
  - rewrite lookup_empty. cbn. unfold is_byte. lia.
Qed.

Lemma MEM_READ_like hb n a m1 m2 v m1' :
  MEM_READ hb n a m1 = Ok (v, m1') -> mem_like m1 m2 ->
  MEM_READ hb n a m2 = Ok (v, mem_tickle a m2) /\ mem_like m1' (mem_tickle a m2).
Proof.
  intros H Hm. unfold MEM_READ, unchk_read in *. cbv zeta in *.
  destruct (mem_tickle_page a m1) as [pg1 H1]. destruct (mem_tickle_page a m2) as [pg2 H2]. rewrite H1 in H. rewrite H2.
  assert (Hp : forall o, page_get pg2 o = page_get pg1 o).
  { intros o. pose proof (proj1 Hm (MEM_BLOCK a) o) as Ho. rewrite <- (page_of_tickle a m1), <- (page_of_tickle a m2) in Ho.
    unfold page_of in Ho. by rewrite H1, H2 in Ho. }
  cbn [deref mbind outcome_bind] in *. destruct (_ <=? _); cbn [mbind outcome_bind] in *; [|done]. injection H as <- <-.
  split; [do 3 f_equal; by apply map_ext|]. rewrite <- (mem_like_tickle a m1), Hm. apply mem_like_tickle.
Qed.

Lemma page_put_ext bs : forall pg1 pg2 o, (forall o, page_get pg1 o = page_get pg2 o) ->
  forall o', page_get (page_put pg1 o bs) o' = page_get (page_put pg2 o bs) o'.
Proof. intros pg1 pg2 o H o'. rewrite !page_put_get. by rewrite H. Qed.

Lemma MEM_WRITE_like hb n a v m1 m2 m1' :
  MEM_WRITE hb n a v m1 = Ok m1' -> mem_like m1 m2 ->
  exists m2', MEM_WRITE hb n a v m2 = Ok m2' /\ mem_like m1' m2'.
Proof.
  intros H Hm. unfold MEM_WRITE, unchk_write in *.
  destruct (mem_tickle_page a m1) as [pg1 H1]. destruct (mem_tickle_page a m2) as [pg2 H2]. rewrite H1 in H. rewrite H2.
  assert (Hp : forall o, page_get pg1 o = page_get pg2 o).
  { intros o. pose proof (proj1 Hm (MEM_BLOCK a) o) as Ho. rewrite <- (page_of_tickle a m1), <- (page_of_tickle a m2) in Ho.
    unfold page_of in Ho. by rewrite H1, H2 in Ho. }
  cbn [deref mbind outcome_bind] in *. destruct (_ <=? _); cbn [mbind outcome_bind] in *; [|done]. injection H as <-.
  eexists. split; [done|]. split; cbn.
  - intros b o. unfold page_of. cbn. rewrite !lookup_insert. case_decide; cbn; [by apply page_put_ext|].
    pose proof (proj1 Hm b o) as Ho. by rewrite <- (page_of_tickle a m1), <- (page_of_tickle a m2) in Ho.
  - rewrite <- (proj2 (mem_like_tickle a m1)), <- (proj2 (mem_like_tickle a m2)). apply Hm.
Qed.

(** What the comparisons need of system calls: they do not look at
    [mem_stack_min] nor at what pages are allocated, leave ints in the registers
    and bytes in memory. *)
Class SyscallLaws `{SimEnv} : Prop := {
  syscall_same inst r m1 m2 h r' m1' h' :
    ss_syscall inst r m1 h = Ok (r', m1', h') -> mem_same m1 m2 ->
    exists m2', ss_syscall inst r m2 h = Ok (r', m2', h') /\ mem_same m1' m2';
  syscall_like inst r m1 m2 h r' m1' h' :
    ss_syscall inst r m1 h = Ok (r', m1', h') -> mem_like m1 m2 ->
    exists m2', ss_syscall inst r m2 h = Ok (r', m2', h') /\ mem_like m1' m2';
  syscall_ok inst r m h r' m' h' :
    ss_syscall inst r m h = Ok (r', m', h') -> regs_ok r -> pages_ok m -> regs_ok r' /\ pages_ok m';
}.

Record safe_fast (s : safe_state) (q : fast_state) : Prop := {
  sf_regs : s_regs s = q_regs q;
  sf_next : s_next_PC s = q_next_PC q;
  sf_mem : mem_same (s_mem s) (q_mem q);
  sf_ok : regs_ok (s_regs s);
  sf_pages : pages_ok (s_mem s);
  sf_host : s_host s = q_host q;
}.

Lemma regs_ok_R r R n v : regs_ok r -> z_set (regs_R r) n v = Ok R -> regs_ok (r <| regs_R := R |>).
Proof.
  intros [? ? ?] H. split; cbn; [by rewrite (z_set_length _ _ _ _ H)|done|by eapply z_set_int].
Qed.
Lemma regs_ok_F r F n v : regs_ok r -> z_set (regs_F r) n v = Ok F -> regs_ok (r <| regs_F := F |>).
Proof. intros [? ? ?] H. split; cbn; [done|by rewrite (z_set_length _ _ _ _ H)|done]. Qed.

Lemma pages_ok_tickle a m : pages_ok m -> pages_ok (mem_tickle a m).
Proof.
  intros Hm. unfold mem_tickle. destruct (mem_table m !! MEM_BLOCK a) eqn:Ep; [done|].
  intros b pg o v. cbn. rewrite lookup_insert. case_decide; [|apply Hm]. intros [= <-]. unfold mem_newblock. by rewrite lookup_empty.
Qed.
Lemma pages_ok_track a m : pages_ok m -> pages_ok (track_stack_min a m).
Proof. unfold track_stack_min. by destruct (_ && _). Qed.

Lemma page_put_ok bs : forall pg o, Forall is_byte bs -> (forall o v, pg !! o = Some v -> is_byte v) ->
  forall o' v, page_put pg o bs !! o' = Some v -> is_byte v.
Proof.
  induction bs as [|b bs IH]; intros pg o Hb Hp; cbn [page_put]; [done|].
  apply Forall_cons in Hb as [Hb Hbs]. apply IH; [done|]. intros o' v. rewrite lookup_insert. case_decide; [|apply Hp].
  by intros [= <-].
Qed.

Lemma host_split_bytes hb n w : Forall is_byte (host_split hb n w).
Proof.
  assert (Hl : Forall is_byte (le_split n w)).
  { revert w. induction n as [|n IH]; intros w; cbn; [constructor|]. constructor; [|done]. unfold is_byte. apply Z.mod_pos_bound. lia. }
  unfold host_split. destruct hb; [by apply Forall_rev|done].
Qed.

Lemma pages_ok_write hb n a v m m' : MEM_WRITE hb n a v m = Ok m' -> pages_ok m -> pages_ok m'.
Proof.
  unfold MEM_WRITE, unchk_write. intros H Hm. pose proof (pages_ok_tickle a m Hm) as Ht.
  destruct (mem_table (mem_tickle a m) !! MEM_BLOCK a) as [pg|] eqn:Ep; cbn [deref mbind outcome_bind] in H; [|done].
  destruct (_ <=? _); [|done]. injection H as <-. intros b pg' o w. cbn. rewrite lookup_insert. case_decide; [|apply Ht].
  intros [= <-]. apply page_put_ok; [apply host_split_bytes|]. intros o' w'. by apply Ht with (MEM_BLOCK a).
Qed.

Lemma mem_valid_ok ld cmd a n m e m' :
  mem_valid ld cmd a n true m = Ok (e, m') -> bad_align a n = false /\ mem_perm ld cmd a = true /\ m' = track_stack_min a m.
Proof.
  unfold mem_valid. cbn [negb]. destruct (bad_align a n); [done|]. destruct (mem_perm ld cmd a); cbn [negb]; [|done]. by intros [= <- <-].
Qed.

Lemma mem_valid_declares ld cmd a n m : bad_align a n = false -> mem_perm ld cmd a = true ->
  mem_valid ld cmd a n true m = Ok (None, track_stack_min a m).
Proof. intros Ha Hp. unfold mem_valid. by rewrite Ha, Hp. Qed.

Lemma safe_READ_ok `{SimEnv} t a s v s' :
  safe_READ t a s = Ok (v, s') ->
  bad_align a (Z.of_nat (temp_size t)) = false /\ mem_perm env_ld Read a = true /\
  exists m, MEM_READ (host_big env_cfg) (temp_size t) a (track_stack_min a (s_mem s)) = Ok (v, m) /\
    s' = s <| s_mem := m |> <| s_addr := a |>.
Proof.
  intros H0. apply bind_ok in H0 as ([e m] & Hv & H0). apply bind_ok in H0 as ([w m'] & HR & H0).
  injection H0 as <- <-. apply mem_valid_ok in Hv as (? & ? & ->). eauto.
Qed.

Lemma safe_WRITE_ok `{SimEnv} t v a s s' :
  safe_WRITE t v a s = Ok s' ->
  bad_align a (Z.of_nat (temp_size t)) = false /\ mem_perm env_ld Write a = true /\
  exists m, MEM_WRITE (host_big env_cfg) (temp_size t) a v (track_stack_min a (s_mem s)) = Ok m /\
    s' = s <| s_mem := m |> <| s_addr := a |>.
Proof.
  intros H0. apply bind_ok in H0 as ([e m] & Hv & H0). apply bind_ok in H0 as (m' & HR & [= <-]).
  apply mem_valid_ok in Hv as (? & ? & ->). eauto.
Qed.

Lemma MEM_READ_table hb n a m v m' : MEM_READ hb n a m = Ok (v, m') -> m' = mem_tickle a m.
Proof. unfold MEM_READ. cbv zeta. intros H. by apply bind_ok in H as (bs & _ & [= _ <-]). Qed.


Lemma osim_self {A B : Type} (R : A -> B -> Prop) m1 m2 :
  (forall a, m1 = Ok a -> exists b, m2 = Ok b /\ R a b) -> osim True R m1 m2.
Proof. intros H. destruct m1; cbn; auto. Qed.

Lemma osim_refl {A : Type} (m : outcome A) : osim True eq m m.
Proof. apply osim_self. eauto. Qed.

Section SafeFast.
Context {E : SimEnv} {L : SyscallLaws}.

#[local] Instance safe_fast_sim : MachineSim True safe_fast.
Proof.
  split.
  - intros s q []. cbn. congruence.
  - intros v s q []. by split.
  - done.
  - intros r s q []. cbn. unfold safe_GPR, fast_GPR. rewrite sf_regs0. apply osim_refl.
  - intros r s q HR. by apply osim_ok.
  - intros r v s q [Hr Hn Hm Hi Hp Hh]. cbn. unfold safe_SET_GPR, fast_SET_GPR. rewrite <- Hr. apply osim_self.
    intros s' H. apply bind_ok in H as (R & HR & [= <-]). rewrite HR. eexists. split; [done|].
    split; cbn; [by rewrite Hr|done|done|by eapply regs_ok_R|done|done].
  - intros r s q []. cbn. unfold safe_FPR_L, fast_FPR_L. rewrite sf_regs0. apply osim_refl.
  - intros r s q HR. by apply osim_ok.
  - intros r v s q [Hr Hn Hm Hi Hp Hh]. cbn. unfold safe_SET_FPR_L, fast_SET_FPR_L. rewrite <- Hr. apply osim_self.
    intros s' H. apply bind_ok in H as (R & HR & [= <-]). rewrite HR. eexists. split; [done|].
    split; cbn; [by rewrite Hr|done|done|by eapply regs_ok_F|done|done].
  - intros s q []. cbn. congruence.
  - intros v s q [Hr Hn Hm [] Hp Hh]. split; cbn; [by rewrite Hr|done|done|by split|done|done].
  - intros s q []. cbn. congruence.
  - intros v s q [Hr Hn Hm [] Hp Hh]. split; cbn; [by rewrite Hr|done|done|by split|done|done].
  - intros s q []. cbn. congruence.
  - intros v s q [Hr Hn Hm [] Hp Hh]. split; cbn; [by rewrite Hr|done|done|by split|done|done].
  - intros t a s q [Hr Hn Hm Hi Hp Hh]. apply osim_self.
    intros [v s'] H. apply safe_READ_ok in H as (_ & _ & m & HR & ->).
    assert (Hm1 : mem_same (track_stack_min a (s_mem s)) (q_mem q)) by (unfold track_stack_min; by destruct (_ && _)).
    destruct (MEM_READ_same _ _ _ _ _ _ _ HR Hm1) as (m2 & Hm2 & Hs2). cbn. unfold fast_READ. rewrite Hm2. eexists.
    split; [done|]. split; [done|]. split; cbn; try done. rewrite (MEM_READ_table _ _ _ _ _ _ HR). by apply pages_ok_tickle, pages_ok_track.
  - intros t v a s q [Hr Hn Hm Hi Hp Hh]. apply osim_self.
    intros s' H. apply safe_WRITE_ok in H as (_ & _ & m & HR & ->).
    assert (Hm1 : mem_same (track_stack_min a (s_mem s)) (q_mem q)) by (unfold track_stack_min; by destruct (_ && _)).
    pose proof (pages_ok_write _ _ _ _ _ _ HR (pages_ok_track a _ Hp)) as Hp'. unfold MEM_WRITE in HR.
    destruct (unchk_write_same _ _ _ _ _ HR (mem_tickle_same a _ _ Hm1)) as (m2 & Hm2 & Hs2). cbn. unfold fast_WRITE, MEM_WRITE.
    rewrite Hm2. eexists. split; [done|]. by split.
  - intros r s q x []. cbn. unfold safe_GPR. apply z_get_int, sf_ok0.
  - done.
  - done.
  - intros a b _. apply osim_refl.
  - intros a b _. apply osim_refl.
  - by left.
  - done.
Qed.

Lemma safe_fast_syscall inst s q :
  safe_fast s q -> osim True safe_fast (do_syscall inst s) (do_syscall inst q).
Proof.
  intros [Hr Hn Hm Hi Hp Hh]. cbn. unfold safe_SYSCALL, fast_SYSCALL. rewrite <- Hr, <- Hh. apply osim_self.
  intros s' H. apply bind_ok in H as ([[r m] h] & Hs & [= <-]).
  destruct (syscall_same _ _ _ _ _ _ _ _ Hs Hm) as (m2 & -> & Hm2). eexists. split; [done|].
  destruct (syscall_ok _ _ _ _ _ _ _ Hs Hi Hp). by split.
Qed.

Lemma safe_fast_step {fp : HostFP} s q s' :
  safe_fast s q -> sim_safe_step s = Ok s' -> exists q', sim_fast_step q = Ok q' /\ safe_fast s' q'.
Proof.
  intros HR H. unfold sim_safe_step in H. apply bind_ok in H as (s1 & H1 & H).
  pose proof (sim_set_gpr 0 0 s q HR : osim True safe_fast (safe_SET_GPR 0 0 s) (fast_SET_GPR 0 0 q)) as Hset.
  destruct (osim_inv _ _ _ _ _ Hset H1) as (q1 & Hq1 & HR1). unfold sim_fast_step. rewrite Hq1. cbn [mbind outcome_bind] in *.
  apply bind_ok in H as (inst & Hi & H). cbn in Hi.
  rewrite <- (sf_regs _ _ HR1), <- (fetch_inst_same _ _ _ (sf_mem _ _ HR1)), Hi. cbn [mbind outcome_bind].
  destruct (opcode_of_val (SS_OPCODE inst)) as [op|] eqn:Hop; cbn [mbind outcome_bind] in *; [|done].
  apply bind_ok in H as (s2 & Hs2 & H).
  set (s1' := set_field s_is_write _ _) in Hs2.
  assert (HR1' : safe_fast s1' q1) by (destruct HR1; by split).
  destruct (decide (op = OP_NA)) as [->|Hna]; [done|].
  pose proof (execute_sim env_cfg op inst s1' q1 (fun _ => eq_refl) (fun _ => safe_fast_syscall inst _ _ HR1') Hna HR1') as Hsim.
  destruct (osim_inv True safe_fast _ _ _ Hsim Hs2) as (q2 & Hq2 & HR2).
  assert (E2 : (match op with OP_NA => Ok q1 | _ => execute env_cfg op inst q1 end) = Ok q2) by (by destruct op).
  rewrite E2. cbn [mbind outcome_bind]. eexists. split; [done|]. injection H as <-.
  destruct HR2 as [Hr Hn Hm [] Hp Hh]. destruct (truth _); split; cbn; rewrite ?Hr, ?Hn; try done; by rewrite <- Hr.
Qed.

Lemma safe_fast_run {fp : HostFP} n : forall s q s',
  safe_fast s q -> sim_safe_run n s = Ok s' -> exists q', sim_fast_run n q = Ok q' /\ safe_fast s' q'.
Proof.
  induction n as [|n IH]; intros s q s' HR H; cbn [sim_safe_run sim_fast_run] in *.
  - injection H as <-. by eexists.
  - apply bind_ok in H as (s1 & H1 & H). destruct (safe_fast_step _ _ _ HR H1) as (q1 & -> & HR1).
    cbn [mbind outcome_bind]. by eapply IH.
Qed.

Lemma sim_fast_run_app {fp : HostFP} k n : forall q, sim_fast_run (k + n) q = (q ← sim_fast_run k q; sim_fast_run n q).
Proof.
  induction k as [|k IH]; intros q; [done|]. cbn [Nat.add sim_fast_run]. destruct (sim_fast_step q); [|done..]. apply IH.
Qed.
End SafeFast.

(** * The laws of the register accessors *)

Section SafeLaws.
Context {E : SimEnv}.

#[export] Instance safe_laws : MachineLaws safe_state (fun s => regs_ok (s_regs s)).
Proof.
  split; cbn; unfold safe_GPR, safe_SET_GPR; try done.
  - intros v s [? ? ?]. by split.
  - intros v s [? ? ?]. by split.
  - intros r s x Hok. apply z_get_int, Hok.
  - intros r v s s' _ H. apply bind_ok in H as (R & HR & [= <-]). cbn. by eapply z_set_get.
  - intros r v w s s' H. apply bind_ok in H as (R & HR & [= <-]). cbn. by rewrite (z_set_set _ _ _ _ _ HR).
  - intros r v s Hok Hr. rewrite z_set_some; [by eexists|lia|]. rewrite (regs_R_len _ Hok). unfold SS_NUM_REGS. lia.
  - intros r v s s' [? ? ?] H. apply bind_ok in H as (R & HR & [= <-]). split; cbn; [|done|].
    + by rewrite (z_set_length _ _ _ _ HR).
    + by eapply z_set_int.
Qed.
End SafeLaws.

(** * Arithmetic *)

(** C20: MULT leaves the signed 64-bit product in HI and LO, MULTU the unsigned one, and
    SRA and SRAV shift arithmetically, on every machine with lawful registers (the
    loops of InstMULT, InstMULTU, InstSRA and InstSRAV of ss.def, however their operands
    and destination coincide). *)
Theorem mul_shift_exact {S : Type} {machine : Machine S} {ok : S -> Prop} {laws : MachineLaws S ok} {fp : HostFP}
    (cfg : byte_config) (inst : ss_inst) (s : S) (x y : Z) :
  ok s -> GPR (RS inst) s = Ok x -> GPR (RT inst) s = Ok y -> 0 <= RD inst < 32 -> 0 <= SHAMT inst < 32 ->
  (exists s', execute cfg MULT inst s = Ok s' /\ HI s' * 2 ^ 32 + u32 (LO s') = x * y) /\
  (exists s', execute cfg MULTU inst s = Ok s' /\ u32 (HI s') * 2 ^ 32 + u32 (LO s') = u32 x * u32 y) /\
  (exists s', execute cfg SRA inst s = Ok s' /\ GPR (RD inst) s' = Ok (Z.shiftr y (SHAMT inst))) /\
  (exists s', execute cfg SRAV inst s = Ok s' /\ GPR (RD inst) s' = Ok (Z.shiftr y (x mod 32))).
Proof.
  intros Hok Hx Hy Hrd Hsh. pose proof (gpr_range _ _ _ Hok Hx) as Rx. pose proof (gpr_range _ _ _ Hok Hy) as Ry.
  assert (Hsra : forall k, 0 <= k < 32 -> exists s', inst_sra k inst s = Ok s' /\ GPR (RD inst) s' = Ok (Z.shiftr y k)).
  { intros k Hk. rewrite (inst_sra_spec inst s y k) by done.
    destruct (set_gpr_total (RD inst) (Z.shiftr y k) s Hok Hrd) as [s' Hs]. exists s'. split; [done|].
    rewrite (gpr_set_gpr _ _ _ _ Hok Hs). f_equal. apply s32_small. rewrite Z.shiftr_div_pow2 by lia.
    pose proof (pow2_pos k ltac:(lia)). split; [apply Z.div_le_lower_bound; nia|apply Z.div_lt_upper_bound; nia]. }
  split; [|split; [|split]]; cbn [execute exec_arith exec_logic].
  - rewrite (InstMULT_spec _ _ x y) by done. eexists. split; [done|]. apply with_hilo_holds; [done|].
    assert (Z.abs (x * y) <= 2 ^ 31 * 2 ^ 31) by (rewrite Z.abs_mul; apply Z.mul_le_mono_nonneg; lia). lia.
  - rewrite (InstMULTU_spec _ _ x y) by done. eexists. split; [done|].
    rewrite hi_with, lo_with by done. unfold hi_word, lo_word. rewrite !u32_s32.
    pose proof (u32_bound x). pose proof (u32_bound y).
    rewrite (u32_small (_ / _)) by (split; [apply Z.div_pos; nia|apply Z.div_lt_upper_bound; nia]).
    generalize (u32 x * u32 y). intros p. unfold u32. pose proof (Z.div_mod p (2 ^ 32)). lia.
  - apply Hsra, Hsh.
  - unfold InstSRAV. rewrite Hx. cbn [mbind outcome_bind]. change 0x1f with (2 ^ 5 - 1). rewrite land_mask by lia.
    apply Hsra. apply Z.mod_pos_bound. lia.
Qed.

(** A program of two instructions, [addiu r1,r1,1] and [mult r1,r1], on a little
    endian host; its system calls do nothing and it computes on no float. *)
#[export] Instance no_fp : HostFP := {
  fadd_S _ _ := 0; fsub_S _ _ := 0; fmul_S _ _ := 0; fdiv_S _ _ := 0;
  fadd_D _ _ := 0; fsub_D _ _ := 0; fmul_D _ _ := 0; fdiv_D _ _ := 0;
  fneg_S _ := 0; fneg_D _ := 0; fabs_D _ := 0; fsqrt_D _ := 0;
  feq_S _ _ := false; flt_S _ _ := false; fle_S _ _ := false;
  feq_D _ _ := false; flt_D _ _ := false; fle_D _ _ := false;
  isnan_S _ := false; isnan_D _ := false;
  cvt_S_D _ := 0; cvt_D_S _ := 0; cvt_S_W _ := 0; cvt_D_W _ := 0; cvt_W_S _ := 0; cvt_W_D _ := 0;
}.

#[export] Instance example_env : SimEnv := {
  env_ld := mk_ld 0x400000 0x1000 0x10000000 0x1000 0x7fffc000;
  env_cfg := mk_byte_config false false 0;
  ss_syscall _ r m h := Ok (r, m, h);
}.

#[export] Instance example_syscalls : SyscallLaws.
Proof.
  split; cbn.
  - intros inst r m1 m2 h r' m1' h' [= <- <- <-] Hm. by eexists.
  - intros inst r m1 m2 h r' m1' h' [= <- <- <-] Hm. by eexists.
  - by intros inst r m h r' m' h' [= <- <- <-].
Qed.

Definition asm (op : ss_opcode) (rs rt low : Z) : ss_inst :=
  mk_inst (ss_opcode_val op) (rs * 2 ^ 24 + rt * 2 ^ 16 + low).
Definition inst_bytes (i : ss_inst) : list Z := host_split false 4 (inst_a i) ++ host_split false 4 (inst_b i).

Definition example_mem : mem_state :=
  match unchk_write 0x400000 (inst_bytes (asm ADDIU 1 1 1) ++ inst_bytes (asm MULT 1 1 0)) (mem_tickle 0x400000 mem_init) with
  | Ok m => m | _ => mem_init
  end.
Definition example_regs : regs := mk_regs (repeat 0 32) (repeat 0 32) 0 0 0 0x400000.
Definition example_safe : safe_state := mk_safe example_regs example_mem 0x400008 0 false 0 0 [].
Definition example_fast : fast_state := mk_fast example_regs example_mem 0x400008 [].

Lemma example_regs_ok : regs_ok example_regs.
Proof. split; [vm_compute; reflexivity..|]. apply (bool_decide_unpack _). vm_compute. exact I. Qed.

(** Bytes written from an empty memory are bytes. *)
Lemma example_pages_ok : pages_ok example_mem.
Proof.
  assert (H : map_Forall (fun _ (pg : gmap Z Z) => map_Forall (fun _ v => 0 <= v < 256) pg) (mem_table example_mem))
    by (apply (bool_decide_unpack _); vm_compute; exact I).
  intros b pg o v Hb Ho. exact (H b pg Hb o v Ho).
Qed.

Lemma example_safe_fast : safe_fast example_safe example_fast.
Proof. split; [done|done|done|exact example_regs_ok|exact example_pages_ok|done]. Qed.

Definition example_mul : ss_inst := asm OP_NA 1 2 0x304.
Definition example_mul_state : safe_state :=
  example_safe <| s_regs ::= set_field regs_R (fun _ => [0; -3; -2 ^ 31] ++ repeat 0 29) |>.

Lemma mul_shift_exact_witness :
  exists s', execute env_cfg MULT example_mul example_mul_state = Ok s' /\ HI s' * 2 ^ 32 + u32 (LO s') = -3 * - 2 ^ 31.
Proof.
  refine (proj1 (mul_shift_exact env_cfg example_mul example_mul_state (-3) (- 2 ^ 31) _ _ _ _ _)).
  - split; [vm_compute; reflexivity..|]. apply (bool_decide_unpack _). vm_compute. exact I.
  - vm_compute. reflexivity.
  - vm_compute. reflexivity.
  - vm_compute. split; [intros H; discriminate H|reflexivity].
  - vm_compute. split; [intros H; discriminate H|reflexivity].
Defined.

(** The same registers, next PC, memory contents and system calls. *)
Definition safe_agrees (s t : safe_state) : Prop :=
  s_regs s = s_regs t /\ s_next_PC s = s_next_PC t /\ mem_same (s_mem s) (s_mem t) /\ s_host s = s_host t.
Definition fast_agrees (s : safe_state) (q : fast_state) : Prop :=
  q_regs q = s_regs s /\ q_next_PC q = s_next_PC s /\ mem_same (s_mem s) (q_mem q) /\ q_host q = s_host s.

(** sim-safe from where sim_main of sim-fast starts, the next PC being the PC. *)
Definition from_pc (s : safe_state) : safe_state := s <| s_next_PC := regs_PC (s_regs s) |>.

Lemma safe_fast_agrees s q : safe_fast s q -> fast_agrees s q.
Proof. by intros [Hr Hn Hm _ _ Hh]. Qed.

(** sim-fast goes on from a state that agrees. *)
Lemma safe_fast_moved s t q : safe_fast s q -> safe_agrees s t -> safe_fast t q.
Proof.
  intros [Hr Hn [Hm Hb] Hi Hp Hh] (Er & En & [Em Eb] & Eh). split; try congruence; [split; congruence|].
  intros b pg o v. rewrite <- Em. apply Hp.
Qed.

Lemma fast_main_start {E : SimEnv} s q q0 :
  regs_ok (s_regs s) -> pages_ok (s_mem s) -> q_regs q = s_regs s -> mem_same (s_mem s) (q_mem q) -> q_host q = s_host s ->
  sim_fast_main 0 q = Ok q0 -> safe_fast (from_pc s) q0.
Proof.
  intros Hr Hp Hqr Hqm Hqh H. unfold sim_fast_main in H. apply bind_ok in H as (u & _ & H). injection H as <-.
  split; cbn; congruence || done.
Qed.

(** C16: sim-fast is sim-safe without the checks, started one instruction early.
    Its sim_main starts with the next PC equal to the PC, where sim-safe's has the
    instruction after.  From the registers and memory of sim-safe, whatever [n]
    instructions sim-safe would execute from that start without declaring a fault,
    sim-fast executes with the same registers, next PC, memory contents and system
    calls.  Compared with sim-safe's own start: if [k] instructions from that of
    sim-fast lead where the first of sim-safe leads ([k] is 1 if the first
    instruction jumps; it is 2, for sim-fast executes the first instruction twice,
    if that does the same as executing it once), sim-fast has after [k + n]
    instructions what sim-safe has after [1 + n]. *)
Theorem sim_fast_agrees {E : SimEnv} {L : SyscallLaws} {fp : HostFP} (s : safe_state) (q q0 : fast_state) :
  regs_ok (s_regs s) -> pages_ok (s_mem s) -> q_regs q = s_regs s -> mem_same (s_mem s) (q_mem q) -> q_host q = s_host s ->
  sim_fast_main 0 q = Ok q0 ->
  (forall n s', sim_safe_run n (from_pc s) = Ok s' -> exists q', sim_fast_run n q0 = Ok q' /\ fast_agrees s' q') /\
  (forall k s1 t n s', sim_safe_run k (from_pc s) = Ok s1 -> sim_safe_step (sim_safe_main s) = Ok t -> safe_agrees s1 t ->
   sim_safe_run (1 + n) (sim_safe_main s) = Ok s' -> exists q', sim_fast_run (k + n) q0 = Ok q' /\ fast_agrees s' q').
Proof.
  intros Hr Hp Hqr Hqm Hqh Hmain. assert (safe_fast (from_pc s) q0) as H0 by (by apply (fast_main_start s q)). split.
  - intros n s' H. destruct (safe_fast_run n _ _ _ H0 H) as (q' & Hq & Hs'). exists q'. split; [done|by apply safe_fast_agrees].
  - intros k s1 t n s' H1 Ht Hst H. destruct (safe_fast_run k _ _ _ H0 H1) as (q1 & Hq1 & Hs1).
    cbn [Nat.add sim_safe_run] in H. rewrite Ht in H. cbn [mbind outcome_bind] in H.
    destruct (safe_fast_run n t q1 s' (safe_fast_moved _ _ _ Hs1 Hst) H) as (q' & Hq & Hs').
    exists q'. split; [|by apply safe_fast_agrees]. by rewrite sim_fast_run_app, Hq1.
Qed.

(** A program whose first instruction, [r1 := 5], can be executed twice. *)
Definition again_mem : mem_state :=
  match unchk_write 0x400000 (inst_bytes (asm ADDIU 0 1 5) ++ inst_bytes (asm ADDIU 1 1 1)) (mem_tickle 0x400000 mem_init) with
  | Ok m => m | _ => mem_init
  end.

Lemma again_pages_ok : pages_ok again_mem.
Proof.
  assert (H : map_Forall (fun _ (pg : gmap Z Z) => map_Forall (fun _ v => 0 <= v < 256) pg) (mem_table again_mem))
    by (apply (bool_decide_unpack _); vm_compute; exact I).
  intros b pg o v Hb Ho. exact (H b pg Hb o v Ho).
Qed.

Lemma sim_fast_agrees_witness : exists q0 q',
  sim_fast_main 0 (mk_fast example_regs again_mem 0 []) = Ok q0 /\ sim_fast_run 3 q0 = Ok q'
  /\ (s ← sim_safe_run 2 (sim_safe_main (mk_safe example_regs again_mem 0 0 false 0 0 [])); Ok (s_regs s)) = Ok (q_regs q')
  /\ take 2 (regs_R (q_regs q')) = [0; 6].
Proof.
  destruct (sim_fast_main 0 (mk_fast example_regs again_mem 0 [])) as [q0| | | | | |] eqn:Hq0; [|vm_compute in Hq0; discriminate Hq0..].
  set (s := mk_safe example_regs again_mem 0 0 false 0 0 []).
  destruct (sim_safe_run 2 (from_pc s)) as [s1| | | | | |] eqn:H1; [|vm_compute in H1; discriminate H1..].
  destruct (sim_safe_step (sim_safe_main s)) as [t| | | | | |] eqn:Ht; [|vm_compute in Ht; discriminate Ht..].
  destruct (sim_safe_run 2 (sim_safe_main s)) as [s'| | | | | |] eqn:H2; [|vm_compute in H2; discriminate H2..].
  assert (safe_agrees s1 t) as Hst.
  { vm_compute in H1, Ht. injection H1 as <-. injection Ht as <-. repeat split; reflexivity. }
  destruct (proj2 (sim_fast_agrees s (mk_fast example_regs again_mem 0 []) q0 example_regs_ok again_pages_ok eq_refl (conj eq_refl eq_refl) eq_refl Hq0)
    2%nat s1 t 1%nat s' H1 Ht Hst H2) as (q' & Hq' & Hr & _).
  exists q0, q'. split; [reflexivity|]. split; [exact Hq'|]. cbn [mbind outcome_bind]. rewrite Hr. split; [reflexivity|].
  vm_compute in H2. injection H2 as <-. reflexivity.
Defined.

(** In general the first instruction runs twice: with r1 := r1 + 1, r1 is 2 where
    sim-safe has 1. *)
Lemma sim_fast_repeats_first :
  (s ← sim_safe_run 1 (sim_safe_main example_safe); Ok (regs_PC (s_regs s), take 2 (regs_R (s_regs s)))) = Ok (0x400008, [0; 1]) /\
  (q ← sim_fast_main 0 example_fast; q ← sim_fast_run 2 q; Ok (regs_PC (q_regs q), take 2 (regs_R (q_regs q)))) = Ok (0x400008, [0; 2]).
Proof. split; vm_compute; reflexivity. Qed.

(** * Checked arithmetic *)

(** The sum and the difference the checks OVER and UNDER let pass. *)
Definition sum_ok (x y : Z) : bool :=
  (- 2 ^ 31 <=? x + y) && (x + y <? 2 ^ 31) && negb ((x <? 0) && (y <? 0) && (x + y =? - 2 ^ 31)).
Definition diff_ok (x y : Z) : bool :=
  (- 2 ^ 31 <=? x - y) && (x - y <? 2 ^ 31) && negb ((x <? 0) && (0 <? y) && (x - y =? - 2 ^ 31))
  || (x =? 0) && (y =? - 2 ^ 31).

Section Checked.
Context {E : SimEnv}.

Lemma check_safe b (s : safe_state) : check b s = if b then Fatal else Ok s.
Proof. done. Qed.

Lemma OVER_safe x y (s : safe_state) : is_int x -> is_int y -> OVER x y s = if sum_ok x y then Ok s else Fatal.
Proof.
  unfold is_int. intros Hx Hy. unfold OVER, MAXINT_VAL. rewrite check_safe.
  assert (Hc : sum_ok x y = negb ((0 <? x) && (0 <? y) && (0x7fffffff - x <? y)) && negb ((x <? 0) && (y <? 0) && (y <? - 0x7fffffff - x)))
    by (unfold sum_ok; lia).
  rewrite Hc. destruct (_ && _ && _); [done|]. cbn [mbind outcome_bind negb andb]. rewrite check_safe. by destruct (_ && _ && _).
Qed.

Lemma UNDER_safe x y (s : safe_state) : is_int x -> is_int y -> UNDER x y s = if diff_ok x y then Ok s else Fatal.
Proof.
  unfold is_int. intros Hx Hy. unfold UNDER, MAXINT_VAL. rewrite check_safe.
  assert (Hc : diff_ok x y = negb ((0 <? x) && (y <? 0) && (0x7fffffff + y <? x)) && negb ((x <? 0) && (0 <? y) && (x <? - 0x7fffffff + y)))
    by (unfold diff_ok; lia).
  rewrite Hc. destruct (_ && _ && _); [done|]. cbn [mbind outcome_bind negb andb]. rewrite check_safe. by destruct (_ && _ && _).
Qed.

(** C40: What the checked arithmetic of sim-safe does on every pair of operands.  ADD
    faults exactly when the sum is no int, or when two negative operands give -2^31,
    which the check takes for an underflow; otherwise RD gets the exact sum.  SUB
    faults exactly when the difference is no int or a negative minuend gives -2^31,
    except for 0 - (-2^31), which passes the check and wraps to -2^31.  ADDU and SUBU
    always wrap.  DIV faults exactly on a zero denominator, then LO and HI are the
    quotient and the remainder, undefined for -2^31 / -1 alone. *)
Theorem checked_arithmetic {fp : HostFP} (inst : ss_inst) (s : safe_state) (x y : Z) :
  regs_ok (s_regs s) -> GPR (RS inst) s = Ok x -> GPR (RT inst) s = Ok y -> 0 <= RD inst < 32 ->
  let result (z : Z) (m : outcome safe_state) := exists s', m = Ok s' /\ GPR (RD inst) s' = Ok z in
  (if sum_ok x y then result (x + y) (execute env_cfg ADD inst s) else execute env_cfg ADD inst s = Fatal) /\
  (if diff_ok x y then result (s32 (x - y)) (execute env_cfg SUB inst s) else execute env_cfg SUB inst s = Fatal) /\
  result (s32 (x + y)) (execute env_cfg ADDU inst s) /\ result (s32 (x - y)) (execute env_cfg SUBU inst s) /\
  execute env_cfg DIV inst s =
    (if y =? 0 then Fatal else if (x =? - 2 ^ 31) && (y =? -1) then Undef
     else Ok (SET_HI (Z.rem x y) (SET_LO (Z.quot x y) s))).
Proof.
  intros Hok Hx Hy Hrd result.
  assert (Rx : is_int x) by exact (gpr_range _ s _ Hok Hx). assert (Ry : is_int y) by exact (gpr_range _ s _ Hok Hy).
  assert (Hset : forall z, result (s32 z) (SET_GPR (RD inst) (s32 z) s)).
  { intros z. destruct (set_gpr_total (RD inst) (s32 z) s Hok Hrd) as [s' Hs]. exists s'. split; [done|].
    rewrite (gpr_set_gpr _ _ s _ Hok Hs). by rewrite s32_s32. }
  assert (Halu : forall f z, f x y = z -> result (s32 z) (alu (RD inst) (GPR (RS inst)) (GPR (RT inst)) f s)).
  { intros f z <-. unfold alu. rewrite (set_gpr_at _ _ s (s32 (f x y)) Hok); [apply Hset|].
    rewrite Hx. cbn [mbind outcome_bind]. by rewrite Hy. }
  cbn [execute exec_arith]. rewrite Hx. cbn [mbind outcome_bind]. rewrite Hy. cbn [mbind outcome_bind].
  rewrite OVER_safe, UNDER_safe by done. split; [|split; [|split; [|split]]]; try by apply Halu.
  - destruct (sum_ok x y) eqn:Es; [|done]. cbn [mbind outcome_bind].
    rewrite <- (s32_small (x + y)); [by apply Halu|]. unfold sum_ok in Es. lia.
  - destruct (diff_ok x y); [|done]. cbn [mbind outcome_bind]. by apply Halu.
  - unfold DIV0. rewrite check_safe. destruct (Z.eqb_spec y 0) as [H0|H0]; [done|]. cbn [mbind outcome_bind].
    rewrite Hx. cbn [mbind outcome_bind]. rewrite Hy. cbn [mbind outcome_bind]. cbv zeta.
    unfold IDIV_int, IMOD_int, safe_machine, c_div, c_mod. replace (y =? 0) with false by blia. cbn [orb].
    destruct (_ && _) eqn:Eo; [done|]. cbn [mbind outcome_bind].
    change (GPR (RS inst) (SET_LO (x ÷ y) s)) with (GPR (RS inst) s).
    change (GPR (RT inst) (SET_LO (x ÷ y) s)) with (GPR (RT inst) s).
    rewrite Hx. cbn [mbind outcome_bind]. rewrite Hy. cbn [mbind outcome_bind].
    replace (y =? 0) with false by blia. cbn [orb]. by rewrite Eo.
Qed.
End Checked.

(** 0 - (-2^31) passes the check; -2^30 + -2^30 does not. *)
Definition example_sub_state : safe_state :=
  example_safe <| s_regs ::= set_field regs_R (fun _ => [0; 0; -2 ^ 31] ++ repeat 0 29) |>.

Lemma checked_arithmetic_witness :
  exists s', execute env_cfg SUB example_mul example_sub_state = Ok s' /\ GPR 3 s' = Ok (- 2 ^ 31).
Proof.
  refine (proj1 (proj2 (checked_arithmetic example_mul example_sub_state 0 (- 2 ^ 31) _ _ _ _))).
  - split; [vm_compute; reflexivity..|]. apply (bool_decide_unpack _). vm_compute. exact I.
  - vm_compute. reflexivity.
  - vm_compute. reflexivity.
  - vm_compute. split; [intros H; discriminate H|reflexivity].
Defined.

(** * Events *)

(** The instructions that sim-safe executes, for the machines whose macros are those of
    sim-safe with hooks. *)

(** An instruction and the state it has left, before the PC moves on. *)
Record insn_event := mk_event { ev_op : ss_opcode; ev_inst : ss_inst; ev_state : safe_state }.

Definition ev_flags (e : insn_event) : Z := SS_OP_FLAGS (ev_op e).
Definition ev_PC (e : insn_event) : Z := regs_PC (s_regs (ev_state e)).

(** The state with the references of an instruction counted. *)
Definition refs_counted (op : ss_opcode) (s : safe_state) : safe_state :=
  if truth (Z.land (SS_OP_FLAGS op) F_MEM)
  then s <| s_num_refs ::= Z.add 1 |> <| s_is_write ::= orb (truth (Z.land (SS_OP_FLAGS op) F_STORE)) |>
  else s.

(** The state before an instruction is executed. *)
Definition fetch_state (s : safe_state) : safe_state := s <| s_num_insn ::= Z.add 1 |> <| s_addr := 0 |> <| s_is_write := false |>.

Definition safe_advance (s : safe_state) : safe_state :=
  s <| s_regs ::= set_field regs_PC (fun _ => s_next_PC s) |> <| s_next_PC ::= fun pc => u32 (pc + SS_INST_SIZE) |>.

Section Events.
Context `{E : SimEnv} {fp : HostFP}.

(** The part of a step of sim-safe before the PC moves on. *)
Definition safe_exec (s : safe_state) : outcome insn_event :=
  s ← safe_SET_GPR 0 0 s;
  inst ← fetch_inst (regs_PC (s_regs s)) (s_mem s);
  op ← (match opcode_of_val (SS_OPCODE inst) with Some op => Ok op | None => Panic end);
  s ← execute env_cfg op inst (fetch_state s);
  Ok (mk_event op inst (refs_counted op s)).

Fixpoint safe_events (n : nat) (s : safe_state) : outcome (list insn_event) :=
  match n with
  | O => Ok []
  | S n' => e ← safe_exec s; evs ← safe_events n' (safe_advance (ev_state e)); Ok (e :: evs)
  end.

Lemma safe_step_exec (s : safe_state) : sim_safe_step s = (e ← safe_exec s; Ok (safe_advance (ev_state e))).
Proof.
  unfold sim_safe_step, safe_exec. destruct (safe_SET_GPR 0 0 s) as [s1| | | | | |]; cbn [mbind outcome_bind]; try done.
  change (regs_PC (s_regs (s1 <| s_num_insn ::= Z.add 1 |>))) with (regs_PC (s_regs s1)). change (s_mem (s1 <| s_num_insn ::= Z.add 1 |>)) with (s_mem s1).
  destruct (fetch_inst _ _) as [inst| | | | | |]; cbn [mbind outcome_bind]; try done.
  destruct (opcode_of_val _) as [op|]; cbn [mbind outcome_bind]; [|done].
  change (execute env_cfg op inst _) with (execute env_cfg op inst (fetch_state s1)) at 1. by destruct (execute env_cfg op inst (fetch_state s1)).
Qed.

(** Opcodes that are executed are not NA. *)
Lemma exec_op (s : safe_state) (e : insn_event) : safe_exec s = Ok e -> ev_op e <> OP_NA.
Proof.
  unfold safe_exec. intros (s1 & _ & H)%bind_ok. apply bind_ok in H as (inst & _ & H). apply bind_ok in H as (op & Hop & H).
  apply bind_ok in H as (s2 & Hs2 & H). apply Ok_inj in H as <-. cbn. by intros ->.
Qed.

Lemma events_exist (n : nat) (s0 s : safe_state) : sim_safe_run n s0 = Ok s -> exists evs, safe_events n s0 = Ok evs /\ length evs = n.
Proof.
  revert s0. induction n as [|n IH]; intros s0 Hrun; [by exists []|]. cbn [sim_safe_run] in Hrun. rewrite safe_step_exec in Hrun. cbn [safe_events].
  destruct (safe_exec s0) as [e| | | | | |]; cbn [mbind outcome_bind] in *; try done. destruct (IH _ Hrun) as (evs & -> & Hl).
  exists (e :: evs). cbn. by rewrite Hl.
Qed.

End Events.
