(* ===== verification/Syscall.v ===== *)
(** syscall.c: the system calls of the simulated program, made on the host.

    [ss_syscall] reads its code from $r2 and its arguments from $r4 on, copies what they
    point to from the simulated memory, asks the host and copies the results back; $r7
    tells errors.  The branches for a Unix host of 32-bit longs and pointers are
    modelled; warnings are not. *)

From S2P Require Import Prelude Misc Memory Isa Exec Funsim.

(** * syscall.h *)

Definition SS_SYS_exit : Z := 1.
Definition SS_SYS_read : Z := 3.
Definition SS_SYS_write : Z := 4.
Definition SS_SYS_open : Z := 5.
Definition SS_SYS_close : Z := 6.
Definition SS_SYS_creat : Z := 8.
Definition SS_SYS_unlink : Z := 10.
Definition SS_SYS_chdir : Z := 12.
Definition SS_SYS_chmod : Z := 15.
Definition SS_SYS_chown : Z := 16.
Definition SS_SYS_brk : Z := 17.
Definition SS_SYS_lseek : Z := 19.
Definition SS_SYS_getpid : Z := 20.
Definition SS_SYS_getuid : Z := 24.
Definition SS_SYS_access : Z := 33.
Definition SS_SYS_stat : Z := 38.
Definition SS_SYS_lstat : Z := 40.
Definition SS_SYS_dup : Z := 41.
Definition SS_SYS_pipe : Z := 42.
Definition SS_SYS_getgid : Z := 47.
Definition SS_SYS_ioctl : Z := 54.
Definition SS_SYS_fstat : Z := 62.
Definition SS_SYS_getpagesize : Z := 64.
Definition SS_SYS_setitimer : Z := 83.
Definition SS_SYS_getdtablesize : Z := 89.
Definition SS_SYS_dup2 : Z := 90.
Definition SS_SYS_fcntl : Z := 92.
Definition SS_SYS_select : Z := 93.
Definition SS_SYS_sigvec : Z := 108.
Definition SS_SYS_sigblock : Z := 109.
Definition SS_SYS_sigsetmask : Z := 110.
Definition SS_SYS_gettimeofday : Z := 116.
Definition SS_SYS_getrusage : Z := 117.
Definition SS_SYS_writev : Z := 121.
Definition SS_SYS_utimes : Z := 138.
Definition SS_SYS_getrlimit : Z := 144.
Definition SS_SYS_setrlimit : Z := 145.

Definition SS_IOCTL_TIOCGETP : Z := 1074164744.
Definition SS_IOCTL_TIOCSETP : Z := -2147060727.
Definition SS_IOCTL_TCGETP : Z := 1076130901.
Definition SS_IOCTL_TCGETA : Z := 1075082331.
Definition SS_IOCTL_TIOCGLTC : Z := 1074164852.
Definition SS_IOCTL_TIOCSLTC : Z := -2147060619.
Definition SS_IOCTL_TIOCGWINSZ : Z := 1074295912.
Definition SS_IOCTL_TCSETAW : Z := -2146143143.
Definition SS_IOCTL_TIOCGETC : Z := 1074164754.
Definition SS_IOCTL_TIOCSETC : Z := -2147060719.
Definition SS_IOCTL_TIOCLBIC : Z := 0x8004747e.
Definition SS_IOCTL_TIOCLBIS : Z := 0x8004747f.
Definition SS_IOCTL_TIOCLGET : Z := 0x4004747c.
Definition SS_IOCTL_TIOCLSET : Z := 0x8004747d.

Definition MAXBUFSIZE : nat := 1024.
Definition NUM_IOCTL_BYTES : nat := 128.
Definition SS_PAGE_SIZE : Z := 4096.

Definition SS_O_RDONLY : Z := 0.
Definition SS_O_WRONLY : Z := 1.
Definition SS_O_RDWR : Z := 2.
Definition SS_O_APPEND : Z := 0x0008.
Definition SS_O_CREAT : Z := 0x0200.
Definition SS_O_TRUNC : Z := 0x0400.
Definition SS_O_EXCL : Z := 0x0800.
Definition SS_O_NONBLOCK : Z := 0x4000.
Definition SS_O_NOCTTY : Z := 0x8000.
Definition SS_O_SYNC : Z := 0x2000.

(** The layout of [struct ss_statbuf]: offset and size of the fields in the order in
    which they are set; the padding and the spare fields are not. *)
Definition sizeof_statbuf : nat := 64.
Definition statbuf_fields : list (nat * nat) :=
  [(0, 2); (4, 4); (8, 2); (10, 2); (12, 2); (14, 2); (16, 2); (20, 4); (24, 4); (32, 4); (40, 4); (48, 4); (52, 4)]%nat.

(** The ints of [struct ss_timeval], [ss_timezone], [ss_rlimit] and [ss_rusage]. *)
Definition int_fields (n : nat) : list (nat * nat) := map (fun i => (4 * i, 4)%nat) (seq 0 n).

(** * The host *)

(** The constants of the host's headers; the requests of ioctl() that it may not have
    are [None]. *)
Record host_abi := mk_abi {
  ENOMEM : Z;
  host_O_RDONLY : Z; host_O_WRONLY : Z; host_O_RDWR : Z; host_O_APPEND : Z; host_O_CREAT : Z; host_O_TRUNC : Z; host_O_EXCL : Z;
  host_O_NONBLOCK : Z; host_O_NOCTTY : Z; host_O_SYNC : option Z;
  TIOCGETP : Z; TIOCSETP : Z; TIOCGWINSZ : Z;
  TCGETA : option Z; TIOCGLTC : option Z; TIOCSLTC : option Z; TCSETAW : option Z; TIOCGETC : option Z; TIOCSETC : option Z;
  TIOCLBIC : option Z; TIOCLBIS : option Z; TIOCLGET : option Z; TIOCLSET : option Z;
  RLIMIT_NOFILE : Z;
  sizeof_fd_set : nat;
}.

(** What the host answers, the bytes an automatic variable has before it is set, and
    whether there is memory for a buffer: functions of what the run has asked so far. *)
Class HostOS := {
  kernel : host_trace -> host_call -> host_answer;
  indeterminate : host_trace -> nat -> list Z;
  can_alloc : host_trace -> Z -> bool;
  abi : host_abi;
}.

(** * Steps of a system call *)

Record sys_state := mk_sys { y_regs : regs; y_mem : mem_state; y_host : host_trace }.
#[global] Instance eta_sys_state : Eta sys_state := mk_eta (fun y => mk_sys (y_regs y) (y_mem y) (y_host y)).

Definition sysM (A : Type) : Type := sys_state -> outcome (A * sys_state).
#[global] Instance sys_ret : MRet sysM := fun A a y => Ok (a, y).
#[global] Instance sys_bind : MBind sysM := fun A B k p y => '(a, y) ← p y; k a y.

Section Syscall.
Context `{OS : HostOS}.
Variable hb : bool.  (* whether the host is big endian *)
Variable mem_fn : mem_cmd -> Z -> list Z -> nat -> Z -> mem_state -> outcome (mem_state * list Z).

Definition lift {A : Type} (m : outcome A) : sysM A := fun y => a ← m; Ok (a, y).
Definition trace_of : sysM host_trace := fun y => Ok (y_host y, y).
Definition brk_point : sysM Z := fun y => Ok (mem_brk_point (y_mem y), y).
Definition set_brk_point (a : Z) : sysM unit := fun y => Ok (tt, y <| y_mem ::= set_field mem_brk_point (fun _ => a) |>).

(** [regs_R[n]]. *)
Definition arg (n : Z) : sysM Z := fun y => v ← z_get (regs_R (y_regs y)) n; Ok (v, y).
Definition set_arg (n v : Z) : sysM unit := fun y =>
  R ← z_set (regs_R (y_regs y)) n v; Ok (tt, y <| y_regs ::= set_field regs_R (fun _ => R) |>).

(** A call of the host. *)
Definition call (c : host_call) : sysM host_answer := fun y =>
  let a := kernel (y_host y) c in Ok (a, y <| y_host ::= cons (mk_host_event c a) |>).

(** The contents of the [k]-th place that a call has filled, and a field of it. *)
Definition out (a : host_answer) (k : nat) : list Z := nth k (a_out a) [].
Definition out_field (a : host_answer) (k i : nat) : sysM Z := lift (c_get (out a k) i).

(** An automatic variable of [n] bytes, and a buffer on the heap. *)
Definition local (n : nat) : sysM (list Z) := h ← trace_of; mret (indeterminate h n).
Definition calloc (n : Z) : sysM (list Z) :=
  h ← trace_of; if can_alloc h (u32 n) then mret (repeat 0 (Z.to_nat (u32 n))) else lift Fatal.

(** [mem_bcopy] of [n] bytes to and from a host buffer. *)
Definition copy (cmd : mem_cmd) (addr : Z) (buf : list Z) (n : Z) : sysM (list Z) := fun y =>
  '(m, buf) ← mem_bcopy mem_fn cmd (u32 addr) buf 0 (Z.to_nat (s32 n)) (y_mem y); Ok (buf, y <| y_mem := m |>).
Definition copy_in := copy Read.
Definition copy_out (addr : Z) (buf : list Z) (n : Z) : sysM unit := _ ← copy Write addr buf n; mret tt.

(** The string in a buffer. *)
Fixpoint string_in (buf : list Z) : list Z := match buf with b :: buf => if b =? 0 then [] else b :: string_in buf | [] => [] end.

(** [mem_strcpy] into a buffer of MAXBUFSIZE, which a longer string runs over. *)
Definition strcpy_in (addr : Z) (buf : list Z) : sysM (list Z) := fun y =>
  '(m, buf, _) ← mem_strcpy mem_fn Read (u32 addr) buf (S MAXBUFSIZE) (y_mem y); Ok (string_in buf, y <| y_mem := m |>).
Definition path_arg (n : Z) : sysM (list Z) := addr ← arg n; buf ← local MAXBUFSIZE; strcpy_in addr buf.

(** The fields of a structure in a buffer, set and read. *)
Fixpoint set_fields (fs : list (nat * nat)) (vs : list Z) (buf : list Z) : outcome (list Z) :=
  match fs with
  | [] => Ok buf
  | (off, sz) :: fs => v ← deref (head vs); buf ← buf_put buf off (host_split hb sz v); set_fields fs (tail vs) buf
  end.
Definition int_at (buf : list Z) (off : nat) : sysM Z := bs ← lift (buf_get buf off 4); mret (s32 (host_combine hb bs)).

(** * Errors *)

(** The result of a call is in $r2, -1 stands for an error: $r7 is 1 and $r2 the error. *)
Definition check_error (a : host_answer) : sysM unit :=
  v ← arg 2;
  if negb (v =? -1) then set_arg 7 0 else _ ← set_arg 2 (a_errno a); set_arg 7 1.

Definition return_result (a : host_answer) : sysM unit := _ ← set_arg 2 (a_result a); check_error a.

(** * The system calls *)

(** What setjmp() in main.c returns for longjmp(), which cannot pass 0, and the exit
    code that is made of it. *)
Definition exit_now_code (v : Z) : Z := (if v =? 0 then 1 else v) - 1.
Definition sys_exit : sysM unit := status ← arg 4; lift (Exit (exit_now_code (s32 (status + 1)))).

Definition sys_read : sysM unit :=
  fd ← arg 4; nbytes ← arg 6; buf ← calloc nbytes;
  a ← call (h_read fd (u32 nbytes)); buf ← lift (buf_put buf 0 (out a 0));
  _ ← return_result a;
  dst ← arg 5; nread ← arg 2;
  copy_out dst buf nread.

Definition sys_write : sysM unit :=
  fd ← arg 4; src ← arg 5; nbytes ← arg 6; buf ← calloc nbytes;
  buf ← copy_in src buf nbytes;
  a ← call (h_write fd buf);
  _ ← set_arg 2 (a_result a);
  nwritten ← arg 2;
  if nwritten =? nbytes then set_arg 7 0 else _ ← set_arg 2 (a_errno a); set_arg 7 1.

Definition ss_flag_table : list (Z * Z) :=
  [(SS_O_RDONLY, host_O_RDONLY abi); (SS_O_WRONLY, host_O_WRONLY abi); (SS_O_RDWR, host_O_RDWR abi); (SS_O_APPEND, host_O_APPEND abi);
   (SS_O_CREAT, host_O_CREAT abi); (SS_O_TRUNC, host_O_TRUNC abi); (SS_O_EXCL, host_O_EXCL abi); (SS_O_NONBLOCK, host_O_NONBLOCK abi);
   (SS_O_NOCTTY, host_O_NOCTTY abi)]
  ++ match host_O_SYNC abi with Some f => [(SS_O_SYNC, f)] | None => [] end.

(** The loop over the table: the flags that are left, and those of the host. *)
Fixpoint translate_flags (tab : list (Z * Z)) (ss_flags local_flags : Z) : Z * Z :=
  match tab with
  | [] => (ss_flags, local_flags)
  | (f, g) :: tab =>
      if truth (Z.land ss_flags f) then translate_flags tab (Z.land ss_flags (Z.lnot f)) (Z.lor local_flags g)
      else translate_flags tab ss_flags local_flags
  end.

Definition sys_open : sysM unit :=
  flags ← arg 5;
  let '(ss_flags, local_flags) := translate_flags ss_flag_table flags 0 in
  _ ← lift (fatal_if (negb (ss_flags =? 0)));
  path ← path_arg 4; mode ← arg 6;
  a ← call (h_open path local_flags mode); return_result a.

Definition sys_close : sysM unit :=
  fd ← arg 4;
  if (fd =? 0) || (fd =? 1) || (fd =? 2) then set_arg 7 0 else a ← call (h_close fd); return_result a.

Definition sys_creat : sysM unit := path ← path_arg 4; mode ← arg 5; a ← call (h_creat path mode); return_result a.
Definition sys_unlink : sysM unit := path ← path_arg 4; a ← call (h_unlink path); return_result a.
Definition sys_chdir : sysM unit := path ← path_arg 4; a ← call (h_chdir path); return_result a.
Definition sys_chmod : sysM unit := path ← path_arg 4; mode ← arg 5; a ← call (h_chmod path mode); return_result a.
Definition sys_chown : sysM unit := path ← path_arg 4; owner ← arg 5; group ← arg 6; a ← call (h_chown path owner group); return_result a.

Definition sys_brk : sysM unit :=
  base ← arg 4; let addr := ROUND_UP base SS_PAGE_SIZE in
  brk ← brk_point; sp ← arg 29;
  if (brk <=? addr) && (addr <? u32 sp) then _ ← set_arg 2 0; _ ← set_arg 7 0; set_brk_point addr
  else _ ← set_arg 2 (ENOMEM abi); set_arg 7 1.

Definition sys_lseek : sysM unit := fd ← arg 4; off ← arg 5; dir ← arg 6; a ← call (h_lseek fd off dir); return_result a.
Definition sys_getpid : sysM unit := a ← call h_getpid; return_result a.
Definition sys_getuid : sysM unit :=
  a ← call h_getuid; _ ← set_arg 2 (a_result a); b ← call h_geteuid; _ ← set_arg 3 (a_result b); check_error b.
Definition sys_getgid : sysM unit :=
  a ← call h_getgid; _ ← set_arg 2 (a_result a); b ← call h_getegid; _ ← set_arg 3 (a_result b); check_error b.
Definition sys_access : sysM unit := path ← path_arg 4; mode ← arg 5; a ← call (h_access path mode); return_result a.

(** The structure of the host, translated and copied, also after an error. *)
Definition copy_stat (a : host_answer) : sysM unit :=
  ss_sbuf ← local sizeof_statbuf; ss_sbuf ← lift (set_fields statbuf_fields (out a 0) ss_sbuf);
  dst ← arg 5; copy_out dst ss_sbuf (Z.of_nat sizeof_statbuf).
Definition sys_stat (syscode : Z) : sysM unit :=
  path ← path_arg 4;
  a ← call (if syscode =? SS_SYS_stat then h_stat path else h_lstat path);
  _ ← return_result a; copy_stat a.
Definition sys_fstat : sysM unit := fd ← arg 4; a ← call (h_fstat fd); _ ← return_result a; copy_stat a.

Definition sys_dup : sysM unit := fd ← arg 4; a ← call (h_dup fd); return_result a.

Definition sys_pipe : sysM unit :=
  addr ← arg 4; fd ← local 8; fd ← copy_in addr fd 8;
  fd0 ← int_at fd 0; fd1 ← int_at fd 4;
  a ← call (h_pipe fd0 fd1); _ ← set_arg 7 (a_result a);
  fd0 ← out_field a 0 0; _ ← set_arg 2 fd0; fd1 ← out_field a 0 1; _ ← set_arg 3 fd1;
  r ← arg 7;
  if r =? -1 then _ ← set_arg 2 (a_errno a); set_arg 7 1 else mret tt.

(** The request of the host for one of the target, 0 for those it does not have. *)
Definition ioctl_table : list (Z * option Z) :=
  [(SS_IOCTL_TIOCGETP, Some (TIOCGETP abi)); (SS_IOCTL_TIOCSETP, Some (TIOCSETP abi)); (SS_IOCTL_TCGETP, Some (TIOCGETP abi));
   (SS_IOCTL_TCGETA, TCGETA abi); (SS_IOCTL_TIOCGLTC, TIOCGLTC abi); (SS_IOCTL_TIOCSLTC, TIOCSLTC abi);
   (SS_IOCTL_TIOCGWINSZ, Some (TIOCGWINSZ abi)); (SS_IOCTL_TCSETAW, TCSETAW abi); (SS_IOCTL_TIOCGETC, TIOCGETC abi);
   (SS_IOCTL_TIOCSETC, TIOCSETC abi); (SS_IOCTL_TIOCLBIC, TIOCLBIC abi); (SS_IOCTL_TIOCLBIS, TIOCLBIS abi);
   (SS_IOCTL_TIOCLGET, TIOCLGET abi); (SS_IOCTL_TIOCLSET, TIOCLSET abi)].
Definition local_req (req : Z) : Z :=
  match list_find (fun e => u32 e.1 = u32 req) ioctl_table with Some (_, (_, Some r)) => r | _ => 0 end.

Definition sys_ioctl : sysM unit :=
  buf ← local NUM_IOCTL_BYTES; req ← arg 5; fd ← arg 4;
  if local_req req =? 0 then _ ← set_arg 2 0; set_arg 7 0
  else
    argp ← arg 6;
    buf ← (if negb (argp =? 0) then copy_in argp buf (Z.of_nat NUM_IOCTL_BYTES) else mret buf);
    a ← call (h_ioctl fd (local_req req) buf); _ ← set_arg 2 (a_result a); buf ← lift (buf_put buf 0 (out a 0));
    _ ← (if negb (argp =? 0) then copy_out argp buf (Z.of_nat NUM_IOCTL_BYTES) else mret tt);
    check_error a.

Definition sys_getpagesize : sysM unit := _ ← set_arg 2 SS_PAGE_SIZE; set_arg 7 0.

(** setitimer, sigvec, sigblock and sigsetmask. *)
Definition sys_ignored : sysM unit := _ ← set_arg 7 0; set_arg 2 0.

Definition sys_getdtablesize : sysM unit :=
  a ← call (h_getrlimit (RLIMIT_NOFILE abi) None);
  if negb (a_result a =? -1) then cur ← out_field a 0 0; _ ← set_arg 2 cur; set_arg 7 0
  else _ ← set_arg 2 (a_errno a); set_arg 7 1.

Definition sys_dup2 : sysM unit := fd1 ← arg 4; fd2 ← arg 5; a ← call (h_dup2 fd1 fd2); return_result a.
Definition sys_fcntl : sysM unit := fd ← arg 4; cmd ← arg 5; x ← arg 6; a ← call (h_fcntl fd cmd x); return_result a.

(** A set of descriptors, or the timeout, of select(): copied in if the address is not
    null, and out again. *)
Definition select_in (addr : Z) (n : nat) : sysM (option (list Z)) :=
  if negb (addr =? 0) then set ← local n; set ← copy_in addr set (Z.of_nat n); mret (Some set) else mret None.
Definition select_filled (p : option (list Z)) (bs : list Z) : sysM (list Z) :=
  match p with Some buf => lift (buf_put buf 0 bs) | None => local (sizeof_fd_set abi) end.
Definition select_out (addr : Z) (set : list Z) (n : nat) : sysM unit :=
  if negb (addr =? 0) then copy_out addr set (Z.of_nat n) else mret tt.

Definition sizeof_timeval : nat := 8.
Definition sys_select : sysM unit :=
  sp ← arg 29; word ← local 4; word ← copy_in (sp + 16) word 4; param5 ← int_at word 0;
  r ← arg 5; readfdp ← select_in r (sizeof_fd_set abi);
  w ← arg 6; writefdp ← select_in w (sizeof_fd_set abi);
  e ← arg 7; exceptfdp ← select_in e (sizeof_fd_set abi);
  timeoutp ← select_in param5 sizeof_timeval;
  nfd ← arg 4;
  a ← call (h_select nfd readfdp writefdp exceptfdp timeoutp);
  readfd ← select_filled readfdp (out a 0); writefd ← select_filled writefdp (out a 1);
  exceptfd ← select_filled exceptfdp (out a 2); timeout ← select_filled timeoutp (out a 3);
  _ ← return_result a;
  r ← arg 5; _ ← select_out r readfd (sizeof_fd_set abi);
  w ← arg 6; _ ← select_out w writefd (sizeof_fd_set abi);
  e ← arg 7; _ ← select_out e exceptfd (sizeof_fd_set abi);
  select_out param5 timeout sizeof_timeval.

(** Two ints of the simulated memory, and their way back. *)
Definition ints_in (addr : Z) : sysM (option (Z * Z)) :=
  if negb (addr =? 0) then buf ← local 8; buf ← copy_in addr buf 8; x ← int_at buf 0; y ← int_at buf 4; mret (Some (x, y)) else mret None.
Definition ints_out (addr : Z) (vs : list Z) : sysM unit :=
  if negb (addr =? 0) then buf ← lift (set_fields (int_fields 2) vs (repeat 0 8)); copy_out addr buf 8 else mret tt.

Definition sys_gettimeofday : sysM unit :=
  t ← arg 4; tv ← ints_in t; z ← arg 5; tz ← ints_in z;
  a ← call (h_gettimeofday tv tz); _ ← return_result a;
  t ← arg 4; _ ← ints_out t (out a 0); z ← arg 5; ints_out z (out a 1).

(** The structure has 18 ints, all of them set. *)
Definition sizeof_rusage : nat := 72.
Definition sys_getrusage : sysM unit :=
  who ← arg 4; a ← call (h_getrusage who); _ ← return_result a;
  rusage ← lift (set_fields (int_fields 18) (out a 0) (repeat 0 sizeof_rusage));
  dst ← arg 5; copy_out dst rusage (Z.of_nat sizeof_rusage).

(** The vectors, of a pointer and a length each, and the buffers they point to. *)
Definition sizeof_iovec : Z := 8.
Fixpoint iov_buffers (iov : list Z) (i n : nat) : sysM (list (option (list Z) * Z)) :=
  match n with
  | O => mret []
  | S n =>
      base ← int_at iov (8 * i); len ← int_at iov (8 * i + 4);
      b ← (if negb (base =? 0) then buf ← calloc len; buf ← copy_in base buf len; mret (Some buf) else mret None);
      bs ← iov_buffers iov (S i) n;
      mret ((b, u32 len) :: bs)
  end.

Definition sys_writev : sysM unit :=
  iovcnt ← arg 6; h ← trace_of;
  _ ← lift (fatal_if (negb (can_alloc h (u32 (iovcnt * sizeof_iovec)))));
  iov ← local (Z.to_nat (u32 (iovcnt * sizeof_iovec)));
  src ← arg 5; iov ← copy_in src iov (iovcnt * sizeof_iovec);
  bufs ← iov_buffers iov 0 (Z.to_nat iovcnt);
  fd ← arg 4; a ← call (h_writev fd bufs); return_result a.

Definition sys_utimes : sysM unit :=
  path ← path_arg 4; addr ← arg 5;
  times ← (if addr =? 0 then mret None
           else buf ← local 16; buf ← copy_in addr buf 16;
                x ← int_at buf 0; y ← int_at buf 4; z ← int_at buf 8; w ← int_at buf 12; mret (Some [x; y; z; w]));
  a ← call (h_utimes path times); return_result a.

(** setrlimit() does not change its structure. *)
Definition sys_rlimit (syscode : Z) : sysM unit :=
  addr ← arg 5; ss_rl ← local 8; ss_rl ← copy_in addr ss_rl 8;
  cur ← int_at ss_rl 0; max ← int_at ss_rl 4; let cur := u32 cur in let max := u32 max in res ← arg 4;
  let getting := syscode =? SS_SYS_getrlimit in
  a ← call (if getting then h_getrlimit res (Some (cur, max)) else h_setrlimit res cur max);
  _ ← return_result a;
  ss_rl ← lift (set_fields (int_fields 2) (if getting then out a 0 else [cur; max]) ss_rl);
  addr ← arg 5; copy_out addr ss_rl 8.

(** The cases of the switch. *)
Definition syscalls : list (Z * sysM unit) :=
  [(SS_SYS_exit, sys_exit); (SS_SYS_read, sys_read); (SS_SYS_write, sys_write); (SS_SYS_open, sys_open); (SS_SYS_close, sys_close);
   (SS_SYS_creat, sys_creat); (SS_SYS_unlink, sys_unlink); (SS_SYS_chdir, sys_chdir); (SS_SYS_chmod, sys_chmod); (SS_SYS_chown, sys_chown);
   (SS_SYS_brk, sys_brk); (SS_SYS_lseek, sys_lseek); (SS_SYS_getpid, sys_getpid); (SS_SYS_getuid, sys_getuid); (SS_SYS_access, sys_access);
   (SS_SYS_stat, sys_stat SS_SYS_stat); (SS_SYS_lstat, sys_stat SS_SYS_lstat); (SS_SYS_dup, sys_dup); (SS_SYS_pipe, sys_pipe);
   (SS_SYS_getgid, sys_getgid); (SS_SYS_ioctl, sys_ioctl); (SS_SYS_fstat, sys_fstat); (SS_SYS_getpagesize, sys_getpagesize);
   (SS_SYS_setitimer, sys_ignored); (SS_SYS_getdtablesize, sys_getdtablesize); (SS_SYS_dup2, sys_dup2); (SS_SYS_fcntl, sys_fcntl);
   (SS_SYS_select, sys_select); (SS_SYS_sigvec, sys_ignored); (SS_SYS_sigblock, sys_ignored); (SS_SYS_sigsetmask, sys_ignored);
   (SS_SYS_gettimeofday, sys_gettimeofday); (SS_SYS_getrusage, sys_getrusage); (SS_SYS_writev, sys_writev); (SS_SYS_utimes, sys_utimes);
   (SS_SYS_getrlimit, sys_rlimit SS_SYS_getrlimit); (SS_SYS_setrlimit, sys_rlimit SS_SYS_setrlimit)].

Definition sys_dispatch (syscode : Z) : sysM unit :=
  match list_find (fun e => e.1 = syscode) syscalls with Some (_, (_, p)) => p | None => lift Panic end.

Definition do_ss_syscall (r : regs) (m : mem_state) (h : host_trace) : outcome (regs * mem_state * host_trace) :=
  '(_, y) ← (syscode ← arg 2; sys_dispatch syscode) (mk_sys r m h); Ok (y_regs y, y_mem y, y_host y).

End Syscall.

(** The surroundings of a simulator with these system calls. *)
Definition syscall_env `{OS : HostOS} (ld : ld_bounds) (cfg : byte_config) : SimEnv := {|
  env_ld := ld;
  env_cfg := cfg;
  ss_syscall _ := do_ss_syscall (host_big cfg) (mem_access (host_big cfg) ld);
|}.
