(* ===== verification/SyscallSim.v ===== *)
(** What every system call respects: a relation between memories that the accesses
    respect, so that simulators whose memories differ in what a program cannot see make
    the same calls of the host and get the same results. *)

From S2P Require Import Prelude Misc Memory Isa Exec Funsim FunsimProps Syscall.

Create HintDb syscall.

(** * Properties of every system call *)

(** A property of the steps of system calls that holds of each step, of one after the
    other, and of brk, which reads and moves the break. *)
Class SysClosed `{OS : HostOS} (hb : bool) (mem_fn : mem_cmd -> Z -> list Z -> nat -> Z -> mem_state -> outcome (mem_state * list Z))
    (P : forall A, sysM A -> Prop) : Prop := {
  closed_ret A (a : A) : P A (mret a);
  closed_bind A B (p : sysM A) (k : A -> sysM B) : P A p -> (forall a, P B (k a)) -> P B (mbind k p);
  closed_lift A (m : outcome A) : P A (lift m);
  closed_trace : P _ trace_of;
  closed_arg n : P _ (arg n);
  closed_set n v : Z.to_nat n ∈ [2; 3; 7]%nat -> P _ (set_arg n v);
  closed_call c : P _ (call c);
  closed_copy cmd a buf n : P _ (copy mem_fn cmd a buf n);
  closed_strcpy a buf : P _ (strcpy_in mem_fn a buf);
  closed_brk : P _ sys_brk;
}.

Section Closed.
Context `{OS : HostOS} {hb : bool} {mem_fn : mem_cmd -> Z -> list Z -> nat -> Z -> mem_state -> outcome (mem_state * list Z)}.
Context {P : forall A, sysM A -> Prop} {closed : SysClosed hb mem_fn P}.

Lemma closed_set2 v : P _ (set_arg 2 v).
Proof. apply closed_set. by left. Qed.
Lemma closed_set3 v : P _ (set_arg 3 v).
Proof. apply closed_set. by right; left. Qed.
Lemma closed_set7 v : P _ (set_arg 7 v).
Proof. apply closed_set. by right; right; left. Qed.
Lemma closed_if A (b : bool) (p q : sysM A) : P A p -> P A q -> P A (if b then p else q).
Proof. by destruct b. Qed.

#[local] Hint Extern 0 => first [simple apply closed_ret | simple apply closed_lift | simple apply closed_trace | simple apply closed_arg | simple apply closed_call | simple apply closed_copy
  | simple apply closed_strcpy | simple apply closed_brk | simple apply closed_set2 | simple apply closed_set3 | simple apply closed_set7] : syscall.

(** Step by step through the code of a system call. *)
Ltac walk := repeat lazymatch goal with
  | |- P _ (mbind _ _) => apply closed_bind; [|intros ?]
  | |- P _ (if _ then _ else _) => apply closed_if
  | |- _ => solve [auto with syscall nocore]
  end.

Lemma closed_local n : P _ (local n).
Proof. unfold local. walk. Qed.
Lemma closed_calloc n : P _ (calloc n).
Proof. unfold calloc. walk. Qed.
Lemma closed_copy_in a buf n : P _ (copy_in mem_fn a buf n).
Proof. unfold copy_in. walk. Qed.
Lemma closed_copy_out a buf n : P _ (copy_out mem_fn a buf n).
Proof. unfold copy_out. walk. Qed.
#[local] Hint Extern 0 => first [simple apply closed_local | simple apply closed_calloc | simple apply closed_copy_in | simple apply closed_copy_out] : syscall.

Lemma closed_path n : P _ (path_arg mem_fn n).
Proof. unfold path_arg. walk. Qed.
Lemma closed_int_at buf off : P _ (int_at hb buf off).
Proof. unfold int_at. walk. Qed.
Lemma closed_out_field a k i : P _ (out_field a k i).
Proof. unfold out_field. walk. Qed.
Lemma closed_check_error a : P _ (check_error a).
Proof. unfold check_error. walk. Qed.
#[local] Hint Extern 0 => first [simple apply closed_path | simple apply closed_int_at | simple apply closed_out_field | simple apply closed_check_error] : syscall.

Lemma closed_return a : P _ (return_result a).
Proof. unfold return_result. walk. Qed.
Lemma closed_copy_stat a : P _ (copy_stat hb mem_fn a).
Proof. unfold copy_stat. walk. Qed.
Lemma closed_select_in a n : P _ (select_in mem_fn a n).
Proof. unfold select_in. walk. Qed.
Lemma closed_select_filled p bs : P _ (select_filled p bs).
Proof. unfold select_filled. destruct p; walk. Qed.
Lemma closed_select_out a set n : P _ (select_out mem_fn a set n).
Proof. unfold select_out. walk. Qed.
Lemma closed_ints_in a : P _ (ints_in hb mem_fn a).
Proof. unfold ints_in. walk. Qed.
Lemma closed_ints_out a vs : P _ (ints_out hb mem_fn a vs).
Proof. unfold ints_out. walk. Qed.
#[local] Hint Extern 0 => first [simple apply closed_return | simple apply closed_copy_stat | simple apply closed_select_in | simple apply closed_select_filled | simple apply closed_select_out | simple apply closed_ints_in | simple apply closed_ints_out] : syscall.

Lemma closed_iov iov n : forall i, P _ (iov_buffers hb mem_fn iov i n).
Proof. induction n as [|n IH]; intros i; cbn [iov_buffers]; walk. Qed.
Lemma closed_open : P _ (sys_open mem_fn).
Proof. unfold sys_open. apply closed_bind; [walk|]. intros flags. destruct (translate_flags _ _ _). walk. Qed.
#[local] Hint Extern 0 => first [simple apply closed_iov | simple apply closed_open] : syscall.

Lemma syscalls_closed : Forall (fun e => P _ e.2) (syscalls hb mem_fn).
Proof.
  unfold syscalls. repeat apply List.Forall_cons; try apply List.Forall_nil; cbn [snd]; try exact closed_brk;
    unfold sys_exit, sys_read, sys_write, sys_close, sys_creat, sys_unlink, sys_chdir, sys_chmod, sys_chown, sys_lseek, sys_getpid,
      sys_getuid, sys_access, sys_stat, sys_dup, sys_pipe, sys_getgid, sys_ioctl, sys_fstat, sys_getpagesize, sys_ignored, sys_getdtablesize,
      sys_dup2, sys_fcntl, sys_select, sys_gettimeofday, sys_getrusage, sys_writev, sys_utimes, sys_rlimit; walk.
Qed.

Lemma dispatch_closed : P _ (syscode ← arg 2; sys_dispatch hb mem_fn syscode).
Proof.
  apply closed_bind; [walk|]. intros code. unfold sys_dispatch. destruct (list_find _ _) as [[i [c p]]|] eqn:E; [|walk].
  apply list_find_Some in E as (Hi & _ & _). exact (Forall_lookup_1 _ _ _ _ syscalls_closed Hi).
Qed.
End Closed.

(** * Relations between memories *)

(** A relation that reads, writes and the moves of the break respect. *)
Class MemRel (hb : bool) (Rm : mem_state -> mem_state -> Prop) : Prop := {
  rel_read n a m1 m2 v m1' : MEM_READ hb n a m1 = Ok (v, m1') -> Rm m1 m2 -> exists m2', MEM_READ hb n a m2 = Ok (v, m2') /\ Rm m1' m2';
  rel_write n a v m1 m2 m1' : MEM_WRITE hb n a v m1 = Ok m1' -> Rm m1 m2 -> exists m2', MEM_WRITE hb n a v m2 = Ok m2' /\ Rm m1' m2';
  rel_track a m1 m2 : Rm m1 m2 -> Rm (track_stack_min a m1) (track_stack_min a m2);
  rel_brk m1 m2 : Rm m1 m2 -> mem_brk_point m1 = mem_brk_point m2;
  rel_set_brk b m1 m2 : Rm m1 m2 -> Rm (m1 <| mem_brk_point := b |>) (m2 <| mem_brk_point := b |>);
}.

Lemma mem_same_track a m1 m2 : mem_same m1 m2 -> mem_same (track_stack_min a m1) (track_stack_min a m2).
Proof. intros [H1 H2]. unfold track_stack_min. by destruct (_ && _), (_ && _). Qed.

#[export] Instance mem_same_rel (hb : bool) : MemRel hb mem_same.
Proof.
  split.
  - intros *. apply MEM_READ_same.
  - intros n a v m1 m2 m1' H Hm. exact (unchk_write_same _ _ _ _ _ H (mem_tickle_same a _ _ Hm)).
  - apply mem_same_track.
  - by intros m1 m2 [].
  - by intros b m1 m2 [].
Qed.

#[export] Instance mem_like_rel (hb : bool) : MemRel hb mem_like.
Proof.
  split.
  - intros n a m1 m2 v m1' H Hm. destruct (MEM_READ_like _ _ _ _ _ _ _ H Hm). by eexists.
  - intros *. apply MEM_WRITE_like.
  - intros a m1 m2 Hm. rewrite <- (mem_like_track a m1), Hm. apply mem_like_track.
  - by intros m1 m2 [].
  - by intros b m1 m2 [].
Qed.

(** The pages hold bytes. *)
#[export] Instance pages_ok_rel (hb : bool) : MemRel hb (fun m1 m2 => m1 = m2 /\ pages_ok m1).
Proof.
  split.
  - intros n a m1 m2 v m1' H [<- Hp]. exists m1'. split; [done|]. split; [done|]. rewrite (MEM_READ_table _ _ _ _ _ _ H). by apply pages_ok_tickle.
  - intros n a v m1 m2 m1' H [<- Hp]. exists m1'. split; [done|]. split; [done|]. by eapply pages_ok_write.
  - intros a m1 m2 [<- Hp]. split; [done|by apply pages_ok_track].
  - by intros m1 m2 [<- _].
  - by intros b m1 m2 [<- Hp].
Qed.

(** ** Accesses and copies *)

Section Accesses.
Context {hb : bool} {Rm : mem_state -> mem_state -> Prop} {rel : MemRel hb Rm}.
Variable ld : ld_bounds.

(** Two runs of an access, from memories that are related. *)
Definition simulates {A : Type} (f1 f2 : outcome (mem_state * A)) : Prop :=
  forall m1' a, f1 = Ok (m1', a) -> exists m2', f2 = Ok (m2', a) /\ Rm m1' m2'.

Lemma simulates_bind {A B : Type} f1 f2 (k1 k2 : mem_state * A -> outcome (mem_state * B)) : simulates f1 f2 ->
  (forall m1 m2 a, Rm m1 m2 -> simulates (k1 (m1, a)) (k2 (m2, a))) -> simulates (mbind k1 f1) (mbind k2 f2).
Proof. intros Hf Hk m1' b H. apply bind_ok in H as ([m1 a] & H1 & H). destruct (Hf _ _ H1) as (m2 & -> & Hm). cbn. by apply (Hk m1). Qed.

Lemma simulates_same {A B : Type} (f : outcome A) (k1 k2 : A -> outcome (mem_state * B)) :
  (forall a, simulates (k1 a) (k2 a)) -> simulates (mbind k1 f) (mbind k2 f).
Proof. intros Hk m1' b H. apply bind_ok in H as (a & -> & H). cbn. by apply Hk. Qed.

Lemma simulates_ok {A : Type} m1 m2 (a : A) : Rm m1 m2 -> simulates (Ok (m1, a)) (Ok (m2, a)).
Proof. intros Hm m1' b [= <- <-]. by exists m2. Qed.

Lemma mem_xfer_sim cmd sz a buf p m1 m2 : Rm m1 m2 -> simulates (mem_xfer hb cmd sz a buf p m1) (mem_xfer hb cmd sz a buf p m2).
Proof.
  intros Hm. destruct cmd; cbn [mem_xfer].
  - intros m1' b H. apply bind_ok in H as ([v m] & Hr & H). destruct (rel_read _ _ _ _ _ _ Hr Hm) as (m2' & -> & Hm'). cbn [mbind outcome_bind].
    apply bind_ok in H as (b' & -> & [= <- <-]). by exists m2'.
  - apply simulates_same. intros bs m1' b H. apply bind_ok in H as (m & Hw & [= <- <-]).
    destruct (rel_write _ _ _ _ _ _ Hw Hm) as (m2' & -> & Hm'). by exists m2'.
Qed.

Lemma mem_xfer_words_sim cmd words : forall a buf p m1 m2, Rm m1 m2 ->
  simulates (mem_xfer_words hb cmd words a buf p m1) (mem_xfer_words hb cmd words a buf p m2).
Proof.
  induction words as [|words IH]; intros a buf p m1 m2 Hm; cbn [mem_xfer_words]; [by apply simulates_ok|].
  apply simulates_bind; [by apply mem_xfer_sim|]. intros. by apply IH.
Qed.

Lemma mem_access_sim cmd a buf p n m1 m2 : Rm m1 m2 -> simulates (mem_access hb ld cmd a buf p n m1) (mem_access hb ld cmd a buf p n m2).
Proof.
  intros Hm. unfold mem_access. apply simulates_same. intros _. apply simulates_same. intros _. cbv zeta. apply (rel_track a) in Hm.
  repeat (case_match; [by apply mem_xfer_sim|]). by apply mem_xfer_words_sim.
Qed.

Lemma mem_bcopy_sim cmd n : forall a buf p m1 m2, Rm m1 m2 ->
  simulates (mem_bcopy (mem_access hb ld) cmd a buf p n m1) (mem_bcopy (mem_access hb ld) cmd a buf p n m2).
Proof.
  induction n as [|n IH]; intros a buf p m1 m2 Hm; cbn [mem_bcopy]; [by apply simulates_ok|].
  apply simulates_bind; [by apply mem_access_sim|]. intros. by apply IH.
Qed.

Lemma mem_strcpy_read_sim fuel : forall a buf p n m1 m2, Rm m1 m2 -> forall m1' b k,
  mem_strcpy_read (mem_access hb ld) fuel a buf p n m1 = Ok (m1', b, k) ->
  exists m2', mem_strcpy_read (mem_access hb ld) fuel a buf p n m2 = Ok (m2', b, k) /\ Rm m1' m2'.
Proof.
  induction fuel as [|fuel IH]; intros a buf p n m1 m2 Hm m1' b k H; cbn [mem_strcpy_read] in *; [done|].
  apply bind_ok in H as ([m cbuf] & Ha & H). destruct (mem_access_sim _ _ _ _ _ _ m2 Hm _ _ Ha) as (m2' & -> & Hm'). cbn [mbind outcome_bind].
  apply bind_ok in H as (c & -> & H). cbn [mbind outcome_bind]. apply bind_ok in H as (s & -> & H). cbn [mbind outcome_bind].
  destruct (truth c); [by eapply IH|]. injection H as <- <- <-. by exists m2'.
Qed.
End Accesses.

(** * The steps of a system call *)

Section Respects.
Context `{OS : HostOS} {hb : bool} {Rm : mem_state -> mem_state -> Prop} {rel : MemRel hb Rm}.
Variable ld : ld_bounds.
Variable Pr : regs -> Prop.
Hypothesis regs_set : forall r R n v, Pr r -> z_set (regs_R r) n v = Ok R -> Pr (r <| regs_R := R |>).

Record related (y1 y2 : sys_state) : Prop := mk_related {
  re_regs : y_regs y1 = y_regs y2;
  re_host : y_host y1 = y_host y2;
  re_mem : Rm (y_mem y1) (y_mem y2);
  re_pr : Pr (y_regs y1);
}.

(** What the first run does, the second one does. *)
Definition respects {A : Type} (p : sysM A) : Prop := forall y1 y2 a y1',
  related y1 y2 -> p y1 = Ok (a, y1') -> exists y2', p y2 = Ok (a, y2') /\ related y1' y2'.

Lemma respects_ret {A : Type} (a : A) : respects (mret a).
Proof. intros y1 y2 b y1' Hy [= <- <-]. by exists y2. Qed.

Lemma respects_bind {A B : Type} (p : sysM A) (k : A -> sysM B) : respects p -> (forall a, respects (k a)) -> respects (mbind k p).
Proof.
  intros Hp Hk y1 y2 b y1' Hy H. apply bind_ok in H as ([a y] & Ha & H). destruct (Hp _ _ _ _ Hy Ha) as (y2' & E & Hy').
  destruct (Hk a _ _ _ _ Hy' H) as (y2'' & E2 & Hy2). exists y2''. split; [|done]. unfold mbind, sys_bind. by rewrite E.
Qed.

Lemma respects_lift {A : Type} (m : outcome A) : respects (lift m).
Proof. intros y1 y2 a y1' Hy H. apply bind_ok in H as (b & -> & [= <- <-]). by exists y2. Qed.

Lemma respects_trace : respects trace_of.
Proof. intros y1 y2 a y1' Hy [= <- <-]. exists y2. split; [|done]. unfold trace_of. by rewrite (re_host _ _ Hy). Qed.

Lemma respects_brk : respects brk_point.
Proof. intros y1 y2 a y1' Hy [= <- <-]. exists y2. split; [|done]. unfold brk_point. by rewrite (rel_brk _ _ (re_mem _ _ Hy)). Qed.

Lemma respects_set_brk b : respects (set_brk_point b).
Proof. intros y1 y2 a y1' [H1 H2 H3 H4] [= <- <-]. eexists. split; [reflexivity|]. split; [done|done|by apply rel_set_brk|done]. Qed.

Lemma respects_arg n : respects (arg n).
Proof. intros y1 y2 a y1' Hy H. apply bind_ok in H as (v & Hv & [= <- <-]). exists y2. split; [|done]. unfold arg. by rewrite <- (re_regs _ _ Hy), Hv. Qed.

Lemma respects_set_arg n v : respects (set_arg n v).
Proof.
  intros y1 y2 a y1' [H1 H2 H3 H4] H. apply bind_ok in H as (R & HR & [= <- <-]). eexists. split; [unfold set_arg; rewrite <- H1, HR; reflexivity|].
  split; cbn; [by rewrite H1|done|done|by eapply regs_set].
Qed.

Lemma respects_call c : respects (call c).
Proof. intros y1 y2 a y1' [H1 H2 H3 H4] [= <- <-]. eexists. split; [unfold call; rewrite <- H2; reflexivity|]. split; cbn; [done|by rewrite H2|done|done]. Qed.

Lemma respects_copy cmd a buf n : respects (copy (mem_access hb ld) cmd a buf n).
Proof.
  intros y1 y2 b y1' [H1 H2 H3 H4] H. apply bind_ok in H as ([m b'] & Hb & [= <- <-]).
  destruct (mem_bcopy_sim ld _ _ _ _ _ _ _ H3 _ _ Hb) as (m2 & E & Hm). eexists. split; [unfold copy; rewrite E; reflexivity|]. by split.
Qed.

Lemma respects_strcpy a buf : respects (strcpy_in (mem_access hb ld) a buf).
Proof.
  intros y1 y2 b y1' [H1 H2 H3 H4] H. apply bind_ok in H as ([[m b'] k] & Hb & [= <- <-]).
  destruct (mem_strcpy_read_sim ld _ _ _ _ _ _ _ H3 _ _ _ Hb) as (m2 & E & Hm). eexists. split; [unfold strcpy_in, mem_strcpy; rewrite E; reflexivity|]. by split.
Qed.

Lemma respects_sys_brk : respects sys_brk.
Proof.
  apply respects_bind; [apply respects_arg|intros base]. apply respects_bind; [apply respects_brk|intros brk].
  apply respects_bind; [apply respects_arg|intros sp]. destruct (_ && _); repeat (apply respects_bind; [apply respects_set_arg|intros _]).
  - apply respects_set_brk.
  - apply respects_set_arg.
Qed.

#[local] Instance respects_closed : SysClosed hb (mem_access hb ld) (fun A => @respects A).
Proof.
  split; auto using respects_ret, respects_bind, respects_lift, respects_trace, respects_arg, respects_set_arg, respects_call, respects_copy,
    respects_strcpy, respects_sys_brk.
Qed.

(** A system call, from registers that are the same and memories that are related. *)
Lemma do_ss_syscall_sim r m1 m2 h r' m1' h' :
  do_ss_syscall hb (mem_access hb ld) r m1 h = Ok (r', m1', h') -> Rm m1 m2 -> Pr r ->
  exists m2', do_ss_syscall hb (mem_access hb ld) r m2 h = Ok (r', m2', h') /\ Rm m1' m2' /\ Pr r'.
Proof.
  intros H Hm Hr. apply bind_ok in H as ([[] y] & Hy & [= <- <- <-]).
  destruct (dispatch_closed (P := fun A => @respects A) (mk_sys r m1 h) (mk_sys r m2 h) tt y) as (y2 & E & [H1 H2 H3 H4]);
    [by split|exact Hy|]. exists (y_mem y2). split; [|done]. unfold do_ss_syscall. rewrite E. cbn. by rewrite H1, H2.
Qed.
End Respects.

(** * The laws the comparisons of the simulators need *)

#[export] Instance syscall_laws `{OS : HostOS} (ld : ld_bounds) (cfg : byte_config) : SyscallLaws (H := syscall_env ld cfg).
Proof.
  split; cbn.
  - intros inst r m1 m2 h r' m1' h' H Hm.
    destruct (do_ss_syscall_sim (rel := mem_same_rel (host_big cfg)) ld (fun _ => True) (fun _ _ _ _ _ _ => I) _ _ _ _ _ _ _ H Hm I) as (m2' & E & Hm' & _).
    by exists m2'.
  - intros inst r m1 m2 h r' m1' h' H Hm.
    destruct (do_ss_syscall_sim (rel := mem_like_rel (host_big cfg)) ld (fun _ => True) (fun _ _ _ _ _ _ => I) _ _ _ _ _ _ _ H Hm I) as (m2' & E & Hm' & _).
    by exists m2'.
  - intros inst r m h r' m' h' H Hr Hp.
    destruct (do_ss_syscall_sim (rel := pages_ok_rel (host_big cfg)) ld regs_ok regs_ok_R _ _ _ _ _ _ _ H (conj eq_refl Hp) Hr) as (m2' & E & [_ Hm'] & Hr').
    by split.
Qed.
