(* ===== verification/SyscallProps.v ===== *)
(** What the system calls do to the simulated program: what no call touches, and what
    read, write and brk do. *)

From S2P Require Import Prelude Misc Memory Isa Exec ExecMeta Funsim FunsimProps Syscall SyscallSim.

(** * What a system call can change *)

(** Every answer in the trace is the one of the kernel at that point. *)
Fixpoint answered `{OS : HostOS} (h : host_trace) : Prop :=
  match h with [] => True | e :: h => he_answer e = kernel h (he_call e) /\ answered h end.

(** The bytes that a program cannot write stay as they are. *)
Definition protected (ld : ld_bounds) (m m' : mem_state) : Prop :=
  forall a, 0 <= a < 2 ^ 31 -> mem_perm ld Write a = false -> mem_byte m' a = mem_byte m a.

(** The registers but [$r2], [$r3] and [$r7], the protected bytes and the break, which
    only grows; the calls that are made have the answers of the kernel. *)
Record frame `{OS : HostOS} (ld : ld_bounds) (y y' : sys_state) : Prop := {
  fr_R n : n ∉ [2; 3; 7]%nat -> regs_R (y_regs y') !! n = regs_R (y_regs y) !! n;
  fr_regs : y_regs y' = (y_regs y) <| regs_R := regs_R (y_regs y') |>;
  fr_mem : protected ld (y_mem y) (y_mem y');
  fr_brk : mem_brk_point (y_mem y) <= mem_brk_point (y_mem y');
  fr_host : exists evs, y_host y' = evs ++ y_host y;
  fr_answers : answered (y_host y) -> answered (y_host y');
}.

Section Frame.
Context `{OS : HostOS}.
Variables (hb : bool) (ld : ld_bounds).
Hypothesis layout : 0 <= ld_data_base ld /\ ld_stack_base ld <= 2 ^ 31.

Lemma frame_refl y : frame ld y y.
Proof. split; try done. by destruct (y_regs y). by exists []. Qed.

Lemma frame_trans y1 y2 y3 : frame ld y1 y2 -> frame ld y2 y3 -> frame ld y1 y3.
Proof.
  intros [R1 G1 M1 B1 [e1 H1] A1] [R2 G2 M2 B2 [e2 H2] A2]. split.
  - intros n Hn. by rewrite R2, R1.
  - rewrite G2, G1. done.
  - intros a Ha Hp. by rewrite M2, M1.
  - lia.
  - exists (e2 ++ e1). by rewrite H2, H1, app_assoc.
  - auto.
Qed.

(** One byte. *)
Lemma byte_access_protected cmd a buf p m m' buf' : mem_access hb ld cmd a buf p 1 m = Ok (m', buf') ->
  protected ld m m' /\ mem_brk_point m' = mem_brk_point m.
Proof.
  unfold mem_access. intros H. apply bind_ok in H as ([] & _ & H). apply bind_ok in H as ([] & Hp & H). cbv zeta in H. cbn [Z.eqb Pos.eqb] in H.
  assert (mem_perm ld cmd a = true) as Hperm by (by destruct (mem_perm ld cmd a)). clear Hp.
  assert (forall x, mem_byte (track_stack_min a m) x = mem_byte m x) as Ht by (intros x; unfold track_stack_min; by destruct (_ && _)).
  assert (mem_brk_point (track_stack_min a m) = mem_brk_point m) as Hb by (unfold track_stack_min; by destruct (_ && _)).
  destruct cmd; cbn [mem_xfer] in H.
  - apply bind_ok in H as ([v m1] & Hr & H). apply bind_ok in H as (b & _ & [= <- <-]). rewrite (MEM_READ_table _ _ _ _ _ _ Hr).
    split; [intros x _ _; by rewrite mem_tickle_bytes|]. unfold mem_tickle. rewrite <- Hb. by destruct (mem_table _ !! _).
  - apply bind_ok in H as (bs & Hbs & H). apply bind_ok in H as (m1 & Hw & [= <- <-]). unfold MEM_WRITE in Hw.
    assert (0 <= a < 2 ^ 31) as Ha. { unfold mem_perm in Hperm. rewrite bool_decide_eq_false_2, andb_false_r in Hperm by done. blia. }
    destruct (unchk_write_spec a (host_split hb 1 (host_combine hb bs)) (mem_tickle a (track_stack_min a m))) as (m2 & E & Hs & Hk & _).
    { rewrite length_host_split. split; [done|]. rewrite MEM_OFFSET_mod. pose proof (Z.mod_pos_bound a (2 ^ 16) ltac:(lia)). unfold MEM_BLOCK_SIZE. lia. }
    { destruct (mem_tickle_page a (track_stack_min a m)) as [pg ->]. by eexists. }
    rewrite E in Hw. injection Hw as <-. rewrite Hk. split; [|unfold mem_tickle; rewrite <- Hb; by destruct (mem_table _ !! _)].
    intros x Hx Hpx. rewrite (Hs x Hx), length_host_split, mem_tickle_bytes, Ht.
    destruct ((a <=? x) && (x <? a + Z.of_nat 1)) eqn:E1; [|done]. replace x with a in Hpx by blia. congruence.
Qed.

Lemma protected_trans m1 m2 m3 : protected ld m1 m2 -> protected ld m2 m3 -> protected ld m1 m3.
Proof. intros H1 H2 a Ha Hp. by rewrite H2, H1. Qed.

Lemma mem_bcopy_protected cmd n : forall a buf p m m' buf', mem_bcopy (mem_access hb ld) cmd a buf p n m = Ok (m', buf') ->
  protected ld m m' /\ mem_brk_point m' = mem_brk_point m.
Proof.
  induction n as [|n IH]; intros a buf p m m' buf' H; cbn [mem_bcopy] in H; [by injection H as <- <-|].
  apply bind_ok in H as ([m1 b1] & H1 & H). apply byte_access_protected in H1 as [P1 B1]. apply IH in H as [P2 B2].
  split; [by eapply protected_trans|congruence].
Qed.

Lemma mem_strcpy_protected fuel : forall a buf p n m m' buf' k, mem_strcpy_read (mem_access hb ld) fuel a buf p n m = Ok (m', buf', k) ->
  protected ld m m' /\ mem_brk_point m' = mem_brk_point m.
Proof.
  induction fuel as [|fuel IH]; intros a buf p n m m' buf' k H; cbn [mem_strcpy_read] in H; [done|].
  apply bind_ok in H as ([m1 b1] & H1 & H). apply byte_access_protected in H1 as [P1 B1].
  apply bind_ok in H as (c & _ & H). apply bind_ok in H as (s & _ & H). destruct (truth c); [|by injection H as <- _ _].
  apply IH in H as [P2 B2]. split; [by eapply protected_trans|congruence].
Qed.

(** ** Step by step *)

Definition keeps {A : Type} (p : sysM A) : Prop := forall y a y', p y = Ok (a, y') -> frame ld y y'.

Lemma keeps_ret {A : Type} (a : A) : keeps (mret a).
Proof. intros y b y' [= _ <-]. apply frame_refl. Qed.

Lemma keeps_bind {A B : Type} (p : sysM A) (k : A -> sysM B) : keeps p -> (forall a, keeps (k a)) -> keeps (mbind k p).
Proof. intros Hp Hk y b y' H. apply bind_ok in H as ([a y1] & Ha & H). eapply frame_trans; [by eapply Hp|by eapply Hk]. Qed.

Lemma keeps_lift {A : Type} (m : outcome A) : keeps (lift m).
Proof. intros y a y' H. apply bind_ok in H as (b & _ & [= _ <-]). apply frame_refl. Qed.

Lemma keeps_trace : keeps trace_of.
Proof. intros y a y' [= _ <-]. apply frame_refl. Qed.

Lemma keeps_arg n : keeps (arg n).
Proof. intros y a y' H. apply bind_ok in H as (b & _ & [= _ <-]). apply frame_refl. Qed.

Lemma keeps_set n v : Z.to_nat n ∈ [2; 3; 7]%nat -> keeps (set_arg n v).
Proof.
  intros Hn y a y' H. apply bind_ok in H as (R & HR & [= _ <-]). apply z_set_spec in HR as (_ & _ & ->). split; cbn; try done; [|by exists []].
  intros k Hk. apply list_lookup_insert_ne. by intros <-.
Qed.

Lemma keeps_call c : keeps (call c).
Proof. intros y a y' [= _ <-]. split; cbn; try done; [by destruct (y_regs y)|by eexists [_]]. Qed.

Lemma keeps_copy cmd a buf n : keeps (copy (mem_access hb ld) cmd a buf n).
Proof.
  intros y b y' H. apply bind_ok in H as ([m b'] & Hb & [= _ <-]). apply mem_bcopy_protected in Hb as [Hp Hk].
  split; cbn; try done; [by destruct (y_regs y)|lia|by exists []].
Qed.

Lemma keeps_strcpy a buf : keeps (strcpy_in (mem_access hb ld) a buf).
Proof.
  intros y b y' H. apply bind_ok in H as ([[m b'] k] & Hb & [= _ <-]). apply mem_strcpy_protected in Hb as [Hp Hk].
  split; cbn; try done; [by destruct (y_regs y)|lia|by exists []].
Qed.

(** The break does not move down. *)
Lemma keeps_sys_brk : keeps sys_brk.
Proof.
  intros y a y' H. apply bind_ok in H as ([base y0] & H0 & H). apply bind_ok in H0 as (v & _ & [= -> <-]). cbv zeta in H.
  apply bind_ok in H as ([brk y0] & [= <- <-] & H). apply bind_ok in H as ([sp y0] & H0 & H). apply bind_ok in H0 as (w & _ & [= -> <-]).
  destruct (_ && _) eqn:E.
  - apply bind_ok in H as ([u y1] & H1 & H). apply bind_ok in H as ([u' y2] & H2 & [= _ <-]).
    pose proof (frame_trans _ _ _ (keeps_set 2 _ ltac:(by left) _ _ _ H1) (keeps_set 7 _ ltac:(by right; right; left) _ _ _ H2)) as [R G M B Hh A].
    split; cbn; try done. apply andb_true_iff in E as [E%Z.leb_le _]. exact E.
  - apply bind_ok in H as ([u y1] & H1 & H).
    exact (frame_trans _ _ _ (keeps_set 2 _ ltac:(by left) _ _ _ H1) (keeps_set 7 _ ltac:(by right; right; left) _ _ _ H)).
Qed.

#[local] Instance keeps_closed : SysClosed hb (mem_access hb ld) (fun A => @keeps A).
Proof.
  split; auto using keeps_ret, keeps_bind, keeps_lift, keeps_trace, keeps_arg, keeps_set, keeps_call, keeps_copy, keeps_strcpy, keeps_sys_brk.
Qed.

Lemma ss_syscall_frame r m h r' m' h' : do_ss_syscall hb (mem_access hb ld) r m h = Ok (r', m', h') ->
  frame ld (mk_sys r m h) (mk_sys r' m' h').
Proof.
  intros H. apply bind_ok in H as ([[] y] & Hy & [= <- <- <-]). apply (dispatch_closed (P := fun A => @keeps A)) in Hy. by destruct y.
Qed.
End Frame.

(** * Runs *)

(** What a run of sim-safe leaves: the memory that cannot be written, a break that has
    not moved down, and the trace that has grown by answers of the kernel. *)
Record since `{OS : HostOS} (ld : ld_bounds) (s0 s : safe_state) : Prop := {
  si_mem : protected ld (s_mem s0) (s_mem s);
  si_brk : mem_brk_point (s_mem s0) <= mem_brk_point (s_mem s);
  si_host : exists evs, s_host s = evs ++ s_host s0;
  si_answers : answered (s_host s0) -> answered (s_host s);
}.

Section Runs.
Context {OS : HostOS} {fp : HostFP}.
Variables (ld : ld_bounds) (cfg : byte_config).
Hypothesis layout : 0 <= ld_data_base ld /\ ld_stack_base ld <= 2 ^ 31 /\ ld_stack_base ld mod 4 = 0.
#[local] Instance the_env : SimEnv := syscall_env ld cfg.

Lemma since_refl s : since ld s s.
Proof. split; [done|lia|by exists []|done]. Qed.

(** A step that makes no system call. *)
Lemma since_mem s0 s s' : since ld s0 s -> protected ld (s_mem s) (s_mem s') -> mem_brk_point (s_mem s') = mem_brk_point (s_mem s) ->
  s_host s' = s_host s -> since ld s0 s'.
Proof. intros [H1 H2 H3 H4] Hp Hb Hh. split; rewrite ?Hb, ?Hh; [by eapply protected_trans|done..]. Qed.

Lemma track_mem a m : protected ld m (track_stack_min a m) /\ mem_brk_point (track_stack_min a m) = mem_brk_point m.
Proof. unfold track_stack_min. by destruct (_ && _). Qed.

Lemma tickle_mem a m : protected ld m (mem_tickle a m) /\ mem_brk_point (mem_tickle a m) = mem_brk_point m.
Proof. split; [intros x _ _; apply mem_tickle_bytes|]. unfold mem_tickle. by destruct (mem_table _ !! _). Qed.

Lemma safe_read_since t a s0 s v s' : since ld s0 s -> safe_READ t a s = Ok (v, s') -> since ld s0 s'.
Proof.
  intros Hs H. apply safe_READ_ok in H as (_ & _ & m & Hr & ->). apply MEM_READ_table in Hr as ->.
  destruct (track_mem a (s_mem s)) as [P1 B1], (tickle_mem a (track_stack_min a (s_mem s))) as [P2 B2].
  eapply since_mem; [exact Hs|by eapply protected_trans|cbn; congruence|done].
Qed.

Lemma safe_write_since t v a s0 s s' : since ld s0 s -> safe_WRITE t v a s = Ok s' -> since ld s0 s'.
Proof.
  intros Hs H. apply safe_WRITE_ok in H as (Hal & Hp & m & Hw & ->). destruct layout as (L1 & L2 & L3).
  destruct (track_mem a (s_mem s)) as [P1 B1], (tickle_mem a (track_stack_min a (s_mem s))) as [P2 B2].
  assert (exists k, 0 <= k <= 2 /\ Z.of_nat (temp_size t) = 2 ^ k) as (k & Hk & En)
    by (destruct t; [exists 2|exists 1|exists 1|exists 0|exists 0]; by split).
  rewrite En in Hal. unfold bad_align in Hal. apply orb_false_iff in Hal as [_ Hal]. apply negb_false_iff, Z.eqb_eq in Hal.
  rewrite land_mask in Hal by lia.
  unfold mem_perm in Hp. rewrite bool_decide_eq_false_2, andb_false_r in Hp by done. change (env_ld) with ld in Hp.
  cbn [orb] in Hp. apply andb_true_iff in Hp as [Hlo%Z.leb_le Hhi%Z.ltb_lt].
  destruct (unchk_write_spec a (host_split (host_big env_cfg) (temp_size t) v) (mem_tickle a (track_stack_min a (s_mem s)))) as (m2 & E & Hst & Hb & _).
  { rewrite length_host_split. apply (fits_aligned a k); [lia|lia|done|done]. }
  { destruct (mem_tickle_page a (track_stack_min a (s_mem s))) as [pg ->]. by eexists. }
  unfold MEM_WRITE in Hw. rewrite E in Hw. injection Hw as <-. eapply since_mem; [exact Hs| |cbn; congruence|done].
  intros x Hx Hpx. cbn. rewrite (Hst x Hx), length_host_split. destruct (_ && _) eqn:Ex; [|by rewrite (P2 x Hx Hpx), (P1 x Hx Hpx)].
  exfalso. unfold mem_perm in Hpx. rewrite bool_decide_eq_false_2, andb_false_r in Hpx by done. cbn [orb] in Hpx.
  rewrite En in Ex. assert (k = 0 \/ k = 1 \/ k = 2) as Hk3 by lia.
  assert (a + 2 ^ k <= ld_stack_base ld) by (destruct Hk3 as [->|[->| ->]]; change (2 ^ 0) with 1 in *; change (2 ^ 1) with 2 in *; change (2 ^ 2) with 4 in *;
    Z.to_euclidean_division_equations; lia). blia.
Qed.

(** The states of one run, from [s0]. *)
Definition runs_from (s0 s1 s2 : safe_state) : Prop := s1 = s2 /\ regs_ok (s_regs s1) /\ pages_ok (s_mem s1) /\ since ld s0 s1.

Lemma runs_step s0 (f : safe_state -> outcome safe_state) s1 s2 : runs_from s0 s1 s2 ->
  (forall s', f s1 = Ok s' -> regs_ok (s_regs s') /\ pages_ok (s_mem s') /\ since ld s0 s') -> osim True (runs_from s0) (f s1) (f s2).
Proof. intros (-> & _) Hf. apply osim_self. intros s' H. exists s'. split; [done|]. split; [done|]. by apply Hf. Qed.

Lemma runs_keep s0 s s' : runs_from s0 s s -> regs_ok (s_regs s') -> s_mem s' = s_mem s -> s_host s' = s_host s -> runs_from s0 s' s'.
Proof.
  intros (_ & Hr & Hp & Hs) Hr' Hm Hh. split; [done|]. split; [done|]. rewrite Hm. split; [done|]. eapply since_mem; [exact Hs|by rewrite Hm|by rewrite Hm|done].
Qed.

#[local] Instance runs_sim s0 : MachineSim True (runs_from s0).
Proof.
  split.
  - by intros s1 s2 [-> _].
  - intros v s1 s2 HR. pose proof HR as (-> & Hr & _). by apply (runs_keep s0 s2).
  - by intros v s1 s2 HR.
  - intros r s1 s2 [-> _]. apply osim_refl.
  - intros r s1 s2 HR. by apply osim_ok.
  - intros r v s1 s2 HR. pose proof HR as (-> & Hr & _). apply runs_step; [done|]. intros s' H. apply bind_ok in H as (R & HR' & [= <-]).
    eapply (runs_keep s0 s2); [done|by eapply regs_ok_R|done|done].
  - intros r s1 s2 [-> _]. apply osim_refl.
  - intros r s1 s2 HR. by apply osim_ok.
  - intros r v s1 s2 HR. pose proof HR as (-> & Hr & _). apply runs_step; [done|]. intros s' H. apply bind_ok in H as (R & HR' & [= <-]).
    eapply (runs_keep s0 s2); [done|by eapply regs_ok_F|done|done].
  - by intros s1 s2 [-> _].
  - intros v s1 s2 HR. pose proof HR as (-> & [] & _). by apply (runs_keep s0 s2).
  - by intros s1 s2 [-> _].
  - intros v s1 s2 HR. pose proof HR as (-> & [] & _). by apply (runs_keep s0 s2).
  - by intros s1 s2 [-> _].
  - intros v s1 s2 HR. pose proof HR as (-> & [] & _). by apply (runs_keep s0 s2).
  - intros t a s1 s2 (-> & Hr & Hp & Hs). apply osim_self. intros [v s'] H. exists (v, s'). split; [done|]. split; [done|]. split; [done|].
    pose proof (safe_read_since _ _ _ _ _ _ Hs H) as Hs'. apply safe_READ_ok in H as (_ & _ & m & HR & ->). split; [done|]. split; [|done].
    cbn. rewrite (MEM_READ_table _ _ _ _ _ _ HR). by apply pages_ok_tickle, pages_ok_track.
  - intros t v a s1 s2 HR. apply runs_step; [done|]. destruct HR as (-> & Hr & Hp & Hs). intros s' H.
    pose proof (safe_write_since _ _ _ _ _ _ Hs H) as Hs'. apply safe_WRITE_ok in H as (_ & _ & m & HR & ->). split; [done|]. split; [|done].
    exact (pages_ok_write _ _ _ _ _ _ HR (pages_ok_track a _ Hp)).
  - intros r s1 s2 x (_ & [_ _ Hr] & _). cbn. unfold safe_GPR. by apply z_get_int.
  - done.
  - done.
  - intros a b _. apply osim_refl.
  - intros a b _. apply osim_refl.
  - by left.
  - done.
Qed.

Lemma runs_syscall s0 inst s1 s2 : runs_from s0 s1 s2 -> osim True (runs_from s0) (do_syscall inst s1) (do_syscall inst s2).
Proof.
  intros HR. apply (runs_step s0 (safe_SYSCALL inst)); [done|]. destruct HR as (-> & Hr & Hp & [S1 S2 [evs S3] S4]). intros s' H.
  apply bind_ok in H as ([[r m] h] & Hs & [= <-]). destruct (syscall_ok _ _ _ _ _ _ _ Hs Hr Hp) as [Hr' Hp']. split; [done|]. split; [done|].
  destruct layout as (L1 & L2 & _). destruct (ss_syscall_frame (host_big cfg) ld (conj L1 L2) _ _ _ _ _ _ Hs) as [_ _ Fm Fb [evs' Fh] Fa]. cbn in *. split; cbn.
  - by eapply protected_trans.
  - lia.
  - exists (evs' ++ evs). by rewrite Fh, S3, app_assoc.
  - auto.
Qed.

Lemma safe_step_since s0 s s' : runs_from s0 s s -> sim_safe_step s = Ok s' -> runs_from s0 s' s'.
Proof.
  intros HR H. rewrite safe_step_exec in H. apply bind_ok in H as (e & He & [= <-]). unfold safe_exec in He.
  apply bind_ok in He as (s1 & H1 & He). apply bind_ok in He as (inst & Hi & He). apply bind_ok in He as (op & Hop & He).
  apply bind_ok in He as (s2 & H2 & [= <-]).
  pose proof (sim_set_gpr 0 0 s s HR : osim True (runs_from s0) (safe_SET_GPR 0 0 s) (safe_SET_GPR 0 0 s)) as Hset.
  rewrite H1 in Hset. destruct Hset as (s1' & [= <-] & HR1). assert (runs_from s0 (fetch_state s1) (fetch_state s1)) as HRf
    by (apply (runs_keep s0 s1); [done|apply HR1|done|done]).
  destruct (decide (op = OP_NA)) as [->|Hna]; [done|].
  pose proof (execute_sim env_cfg op inst _ _ (fun _ => eq_refl) (fun _ => runs_syscall s0 inst _ _ HRf) Hna HRf) as Hsim.
  rewrite H2 in Hsim. destruct Hsim as (s2' & [= <-] & HR2). cbn [ev_state].
  assert (runs_from s0 (refs_counted op s2) (refs_counted op s2)) as HR3
    by (apply (runs_keep s0 s2); unfold refs_counted; [done|destruct (truth _); apply HR2|by destruct (truth _)..]).
  apply (runs_keep s0 (refs_counted op s2)); [done| |done|done]. destruct HR3 as (_ & [] & _). by split.
Qed.

Lemma safe_run_since n : forall s0 s s', runs_from s0 s s -> sim_safe_run n s = Ok s' -> runs_from s0 s' s'.
Proof.
  induction n as [|n IH]; intros s0 s s' HR H; cbn [sim_safe_run] in H; [by injection H as <-|].
  apply bind_ok in H as (s1 & H1 & H). eapply IH; [|exact H]. by eapply safe_step_since.
Qed.
End Runs.
