(* ===== verification/SyscallCorrect.v ===== *)
(** The system calls read, write and brk in full, programs that make system calls, and
    the properties. *)

From S2P Require Import Prelude Misc Memory Isa Exec Funsim FunsimProps Syscall SyscallSim SyscallProps.

(** * Steps *)

Section Steps.
Context `{OS : HostOS}.

Lemma bind_step {A B : Type} (p : sysM A) (k : A -> sysM B) y a y1 r : p y = Ok (a, y1) -> k a y1 = r -> mbind k p y = r.
Proof. intros Hp Hk. unfold mbind, sys_bind. by rewrite Hp. Qed.

Lemma arg_step {B : Type} n v (k : Z -> sysM B) y r : regs_R (y_regs y) !! Z.to_nat n = Some v -> 0 <= n -> k v y = r -> mbind k (arg n) y = r.
Proof.
  intros Hv Hn Hk. eapply bind_step; [|exact Hk]. unfold arg. assert (z_get (regs_R (y_regs y)) n = Ok v) as -> by by apply z_get_spec. done.
Qed.

Lemma set_arg_ok n v y : 0 <= n -> (Z.to_nat n < length (regs_R (y_regs y)))%nat ->
  set_arg n v y = Ok (tt, y <| y_regs ::= set_field regs_R <[Z.to_nat n := s32 v]> |>).
Proof. intros Hn Hl. unfold set_arg. rewrite z_set_some by done. reflexivity. Qed.

Lemma calloc_step {B : Type} n (k : list Z -> sysM B) y r : 0 <= n < 2 ^ 31 -> can_alloc (y_host y) n = true ->
  k (repeat 0 (Z.to_nat n)) y = r -> mbind k (calloc n) y = r.
Proof. intros Hn Ha Hk. eapply bind_step; [|exact Hk]. unfold calloc, mbind, sys_bind, trace_of. cbn. rewrite u32_small by lia. by rewrite Ha. Qed.

Lemma lift_step {A B : Type} (m : outcome A) (k : A -> sysM B) y a r : m = Ok a -> k a y = r -> mbind k (lift m) y = r.
Proof. intros -> Hk. by eapply bind_step. Qed.

Lemma call_step {B : Type} c (k : host_answer -> sysM B) y r :
  k (kernel (y_host y) c) (y <| y_host ::= cons (mk_host_event c (kernel (y_host y) c)) |>) = r -> mbind k (call c) y = r.
Proof. by apply bind_step. Qed.
End Steps.

(** * read and write *)

Section Transfer.
Context `{OS : HostOS}.
Variables (hb : bool) (ld : ld_bounds).

(** The bytes from [addr] can be accessed. *)
Definition accessible (cmd : mem_cmd) (addr n : Z) : Prop := forall i, 0 <= i < n -> 0 <= addr + i < 2 ^ 31 /\ mem_perm ld cmd (addr + i) = true.

Lemma accessible_range cmd addr n : accessible cmd addr n ->
  ok_range (ok := fun cmd a => 0 <= a < 2 ^ 31 /\ mem_perm ld cmd a = true) cmd addr (Z.to_nat n).
Proof. intros H i Hi. apply H. lia. Qed.

Lemma copy_in_ok src n y : 0 <= src < 2 ^ 31 -> 0 <= n < 2 ^ 31 -> accessible Read src n -> bytes_ok (y_mem y) ->
  exists m', copy_in (mem_access hb ld) src (repeat 0 (Z.to_nat n)) n y = Ok (mem_bytes (y_mem y) src (Z.to_nat n), y <| y_mem := m' |>)
    /\ forall a, 0 <= a < 2 ^ 31 -> mem_byte m' a = mem_byte (y_mem y) a.
Proof.
  intros Hs Hn Ha Hm.
  destruct (mem_bcopy_read (mem_access hb ld) (ByteAccess0 := mem_access_bytes hb ld) (Z.to_nat n) src (repeat 0 (Z.to_nat n)) 0 (y_mem y) Hm
    (accessible_range _ _ _ Ha)) as (m' & E & _ & Hb); [by rewrite repeat_length|].
  exists m'. split; [|exact Hb]. unfold copy_in, copy. rewrite u32_small, s32_small by lia. rewrite E. cbn. unfold buf_store. cbn [take app].
  rewrite drop_ge; [by rewrite app_nil_r|]. unfold bytes_from. rewrite repeat_length, length_map, length_seq. lia.
Qed.

Lemma copy_out_ok dst buf n y : 0 <= dst < 2 ^ 31 -> 0 <= n < 2 ^ 31 -> (Z.to_nat n <= length buf)%nat -> accessible Write dst n ->
  bytes_ok (y_mem y) -> Forall is_byte buf ->
  exists m', copy_out (mem_access hb ld) dst buf n y = Ok (tt, y <| y_mem := m' |>) /\ stored (y_mem y) dst (take (Z.to_nat n) buf) m'.
Proof.
  intros Hs Hn Hl Ha Hm Hb.
  destruct (mem_bcopy_write (mem_access hb ld) (ByteAccess0 := mem_access_bytes hb ld) (Z.to_nat n) dst buf 0 (y_mem y) Hm
    (accessible_range _ _ _ Ha)) as (m' & E & _ & Hst); [lia|done|].
  exists m'. split; [unfold copy_out; eapply bind_step; [unfold copy; rewrite u32_small, s32_small, E by lia; reflexivity|reflexivity]|].
  intros a Hr. rewrite (Hst a Hr), length_take, Nat.min_l by done. destruct (_ && _) eqn:Ea; [|done].
  rewrite lookup_take. case_decide; [done|]. exfalso. blia.
Qed.

Lemma zeros_are_bytes (n : nat) : Forall is_byte (repeat 0 n).
Proof. apply Forall_forall. intros x Hx. apply list_elem_of_In, repeat_spec in Hx as ->. unfold is_byte. lia. Qed.

(** Copying more than the buffer has is undefined. *)
Lemma bcopy_overrun (n : nat) (dst : Z) (buf : list Z) (p : nat) (m : mem_state) : bytes_ok m ->
  ok_range (ok := fun cmd a => 0 <= a < 2 ^ 31 /\ mem_perm ld cmd a = true) Write dst n ->
  (p <= length buf)%nat -> (length buf < p + n)%nat -> Forall is_byte buf ->
  mem_bcopy (mem_access hb ld) Write dst buf p n m = Undef.
Proof.
  revert dst p m. induction n as [|n IH]; intros dst p m Hm Hok Hp Hl Hb; [lia|]. cbn [mem_bcopy].
  destruct (ok_range_S (mem_access hb ld) (ByteAccess0 := mem_access_bytes hb ld) _ _ _ Hok) as (H0 & Hu & Hr).
  destruct (decide (p = length buf)) as [->|Hne].
  - unfold mem_access. replace (bad_align dst 1) with false by (unfold bad_align; simpl; by rewrite Z.land_0_r).
    rewrite (proj2 H0). cbn. unfold buf_get. by rewrite (proj2 (Nat.leb_gt _ _)) by lia.
  - destruct (lookup_lt_is_Some_2 buf p) as [b Hbp]; [lia|].
    destruct (byte_write (mem_fn := mem_access hb ld) (ByteAccess := mem_access_bytes hb ld) dst buf p b m Hm H0 Hbp Hb) as (m1 & E & Hm1 & _).
    rewrite E. cbn [mbind outcome_bind]. rewrite Hu. apply IH; done || lia.
Qed.

(** The registers with a result and no error, or an error. *)
Definition returns (r : regs) (v e : Z) : regs := r <| regs_R ::= fun R => <[7%nat := e]> (<[2%nat := v]> R) |>.

Lemma returns_twice (r : regs) (v v' e : Z) : returns (r <| regs_R ::= <[2%nat := v]> |>) v' e = returns r v' e.
Proof. unfold returns. cbn. by rewrite list_insert_insert_eq. Qed.

Lemma drop_repeat {A : Type} (x : A) (n k : nat) : drop k (repeat x n) = repeat x (n - k).
Proof. revert k. by induction n as [|n IH]; intros [|k]; cbn. Qed.

Section Call.
Variables (r : regs) (m : mem_state) (h : host_trace) (code fd addr n : Z).
Hypothesis Hr : regs_ok r.
Hypothesis Hm : bytes_ok m.
Hypothesis H2 : regs_R r !! 2%nat = Some code.
Hypothesis H4 : regs_R r !! 4%nat = Some fd.
Hypothesis H5 : regs_R r !! 5%nat = Some addr.
Hypothesis H6 : regs_R r !! 6%nat = Some n.
Hypothesis Haddr : 0 <= addr < 2 ^ 31.
Hypothesis Hn : 0 <= n < 2 ^ 31.
Hypothesis Halloc : can_alloc h n = true.

Lemma length_R : length (regs_R r) = 32%nat.
Proof. by destruct Hr. Qed.

Lemma dispatch_case (p : sysM unit) r' m' h' : sys_dispatch hb (mem_access hb ld) code = p -> p (mk_sys r m h) = Ok (tt, mk_sys r' m' h') ->
  do_ss_syscall hb (mem_access hb ld) r m h = Ok (r', m', h').
Proof.
  intros Hp Hy. unfold do_ss_syscall. rewrite (arg_step 2 code _ _ (Ok (tt, mk_sys r' m' h'))); [done|exact H2|done|]. by rewrite Hp.
Qed.

(** write() is given the bytes of the buffer. *)
Lemma sys_write_ok (a : host_answer) : code = SS_SYS_write -> accessible Read addr n ->
  a = kernel h (h_write fd (mem_bytes m addr (Z.to_nat n))) ->
  exists m', (forall x, 0 <= x < 2 ^ 31 -> mem_byte m' x = mem_byte m x) /\
    do_ss_syscall hb (mem_access hb ld) r m h
    = Ok (if s32 (a_result a) =? n then returns r n 0 else returns r (s32 (a_errno a)) 1, m',
          mk_host_event (h_write fd (mem_bytes m addr (Z.to_nat n))) a :: h).
Proof.
  intros Hcode Hacc Ha. destruct (copy_in_ok addr n (mk_sys r m h) Haddr Hn Hacc Hm) as (m' & E & Hb).
  exists m'. split; [exact Hb|]. apply (dispatch_case (sys_write (mem_access hb ld))); [by rewrite Hcode|]. unfold sys_write.
  apply (arg_step _ fd); [exact H4|done|]. apply (arg_step _ addr); [exact H5|done|]. apply (arg_step _ n); [exact H6|done|].
  apply calloc_step; [done|exact Halloc|]. eapply bind_step; [exact E|]. apply call_step. change (kernel (y_host _) _) with (kernel h (h_write fd (mem_bytes m addr (Z.to_nat n)))). rewrite <- Ha.
  eapply bind_step; [apply set_arg_ok; [done|cbn; rewrite length_R; lia]|].
  apply (arg_step _ (s32 (a_result a))); [cbn; apply list_lookup_insert_eq; rewrite length_R; lia|done|].
  destruct (Z.eqb_spec (s32 (a_result a)) n) as [Hres|_].
  - rewrite set_arg_ok; [|done|cbn; rewrite length_insert, length_R; lia]. rewrite <- Hres at 2. reflexivity.
  - eapply bind_step; [apply set_arg_ok; [done|cbn; rewrite length_insert, length_R; lia]|].
    rewrite set_arg_ok; [|done|cbn; rewrite !length_insert, length_R; lia]. rewrite <- returns_twice with (v := s32 (a_result a)). reflexivity.
Qed.
Lemma return_ok (a : host_answer) (m1 : mem_state) (h1 : host_trace) : - 2 ^ 31 <= a_result a < 2 ^ 31 -> - 2 ^ 31 <= a_errno a < 2 ^ 31 ->
  return_result a (mk_sys r m1 h1)
  = Ok (tt, mk_sys (returns r (if a_result a =? -1 then a_errno a else a_result a) (if a_result a =? -1 then 1 else 0)) m1 h1).
Proof.
  intros Hres Herr. unfold return_result. eapply bind_step; [apply set_arg_ok; [done|cbn; rewrite length_R; lia]|].
  unfold check_error. apply (arg_step _ (s32 (a_result a))); [cbn; apply list_lookup_insert_eq; rewrite length_R; lia|done|].
  rewrite s32_small by done. destruct (a_result a =? -1); cbn [negb].
  - eapply bind_step; [apply set_arg_ok; [done|cbn; rewrite length_insert, length_R; lia]|].
    rewrite set_arg_ok; [|done|cbn; rewrite !length_insert, length_R; lia]. rewrite (s32_small (a_errno a)) by done.
    rewrite <- returns_twice with (v := a_result a). reflexivity.
  - rewrite set_arg_ok; [|done|cbn; rewrite length_insert, length_R; lia]. reflexivity.
Qed.

(** The part of read() up to the copy to the program: the buffer has the data, and zeros
    behind them. *)
Definition read_buffer (a : host_answer) : list Z := out a 0 ++ repeat 0 (Z.to_nat n - length (out a 0)).

Lemma read_asks (a : host_answer) res : code = SS_SYS_read -> a = kernel h (h_read fd n) -> Z.of_nat (length (out a 0)) <= n ->
  - 2 ^ 31 <= a_result a < 2 ^ 31 -> - 2 ^ 31 <= a_errno a < 2 ^ 31 ->
  (let v := if a_result a =? -1 then a_errno a else a_result a in
   copy_out (mem_access hb ld) addr (read_buffer a) v
     (mk_sys (returns r v (if a_result a =? -1 then 1 else 0)) m (mk_host_event (h_read fd n) a :: h))) = res ->
  do_ss_syscall hb (mem_access hb ld) r m h = ('(_, y) ← res; Ok (y_regs y, y_mem y, y_host y)).
Proof.
  intros Hcode Ha Hlen Hres Herr <-. unfold do_ss_syscall. f_equal. apply (arg_step _ code); [exact H2|done|].
  rewrite Hcode. change (sys_dispatch _ _ SS_SYS_read) with (sys_read (mem_access hb ld)). unfold sys_read.
  apply (arg_step _ fd); [exact H4|done|]. apply (arg_step _ n); [exact H6|done|]. apply calloc_step; [done|exact Halloc|].
  rewrite u32_small by lia. apply call_step. cbn [y_host]. rewrite <- Ha. eapply lift_step.
  { rewrite buf_put_spec by (rewrite repeat_length; lia). reflexivity. }
  assert (buf_store (repeat 0 (Z.to_nat n)) 0 (out a 0) = read_buffer a) as ->.
  { unfold buf_store, read_buffer. rewrite take_0. cbn [app]. f_equal. apply drop_repeat. }
  eapply bind_step; [by apply return_ok|]. cbv zeta.
  apply (arg_step _ addr); [cbn; rewrite !list_lookup_insert_ne by done; exact H5|done|].
  apply (arg_step _ (if a_result a =? -1 then a_errno a else a_result a)); [|done|reflexivity].
  cbn. rewrite list_lookup_insert_ne by done. apply list_lookup_insert_eq. rewrite length_R. lia.
Qed.

(** The data that were read are in the buffer of the program, and nothing else has
    changed. *)
Lemma sys_read_ok (a : host_answer) : code = SS_SYS_read -> a = kernel h (h_read fd n) -> Z.of_nat (length (out a 0)) <= n ->
  a_result a = Z.of_nat (length (out a 0)) -> - 2 ^ 31 <= a_errno a < 2 ^ 31 -> Forall is_byte (out a 0) -> accessible Write addr (a_result a) ->
  exists m', stored m addr (out a 0) m' /\
    do_ss_syscall hb (mem_access hb ld) r m h = Ok (returns r (a_result a) 0, m', mk_host_event (h_read fd n) a :: h).
Proof.
  intros Hcode Ha Hlen Hres Herr Hb Hacc. assert ((a_result a =? -1) = false) as Hne by (apply Z.eqb_neq; lia).
  destruct (copy_out_ok addr (read_buffer a) (a_result a) (mk_sys (returns r (a_result a) 0) m (mk_host_event (h_read fd n) a :: h))) as (m' & E & Hs);
    [done|lia|unfold read_buffer; rewrite length_app; lia|done|done| |].
  { apply Forall_app. split; [done|]. apply zeros_are_bytes. }
  exists m'. split.
  - revert Hs. unfold read_buffer. rewrite Hres, Nat2Z.id, take_app_length. done.
  - rewrite (read_asks a _ Hcode Ha Hlen ltac:(lia) Herr eq_refl). rewrite Hne. cbv zeta. rewrite E. reflexivity.
Qed.

(** After an error, as many bytes of the buffer as the number of the error are copied:
    its zeros, or what is behind it. *)
Lemma read_error (a : host_answer) : code = SS_SYS_read -> a = kernel h (h_read fd n) -> out a 0 = [] ->
  a_result a = -1 -> 0 <= a_errno a < 2 ^ 31 -> accessible Write addr (a_errno a) ->
  if a_errno a <=? n
  then exists m', stored m addr (repeat 0 (Z.to_nat (a_errno a))) m' /\
    do_ss_syscall hb (mem_access hb ld) r m h = Ok (returns r (a_errno a) 1, m', mk_host_event (h_read fd n) a :: h)
  else do_ss_syscall hb (mem_access hb ld) r m h = Undef.
Proof.
  intros Hcode Ha Hout Hres Herr Hacc. assert ((a_result a =? -1) = true) as He by (by rewrite Hres).
  assert (read_buffer a = repeat 0 (Z.to_nat n)) as Hbuf by (unfold read_buffer; rewrite Hout; cbn [app length]; f_equal; lia).
  pose proof (read_asks a _ Hcode Ha ltac:(rewrite Hout; cbn; lia) ltac:(lia) ltac:(lia) eq_refl) as Hask.
  rewrite He in Hask. cbv zeta in Hask. rewrite Hask, Hbuf. destruct (Z.leb_spec (a_errno a) n) as [Hle|Hgt].
  - destruct (copy_out_ok addr (repeat 0 (Z.to_nat n)) (a_errno a) (mk_sys (returns r (a_errno a) 1) m (mk_host_event (h_read fd n) a :: h))) as (m' & E & Hs);
      [done|lia|rewrite repeat_length; lia|done|done|apply zeros_are_bytes|].
    exists m'. rewrite E. split; [|reflexivity]. revert Hs.
    replace (Z.to_nat n) with (Z.to_nat (a_errno a) + (Z.to_nat n - Z.to_nat (a_errno a)))%nat by lia.
    rewrite repeat_app, take_app_length' by (by rewrite repeat_length). done.
  - unfold copy_out, copy, mbind, sys_bind. cbn [y_mem]. rewrite (u32_small addr), s32_small by lia.
    rewrite (bcopy_overrun (Z.to_nat (a_errno a)) addr _ 0 m Hm (accessible_range _ _ _ Hacc)); [done|rewrite repeat_length; lia..|apply zeros_are_bytes].
Qed.
End Call.

(** brk() moves the break to a page boundary below the stack pointer, and up only. *)
Lemma brk_ok r m h base sp : regs_ok r -> - 2 ^ 31 <= ENOMEM abi < 2 ^ 31 ->
  regs_R r !! 2%nat = Some SS_SYS_brk -> regs_R r !! 4%nat = Some base -> regs_R r !! 29%nat = Some sp ->
  do_ss_syscall hb (mem_access hb ld) r m h
  = Ok (if (mem_brk_point m <=? ROUND_UP base SS_PAGE_SIZE) && (ROUND_UP base SS_PAGE_SIZE <? u32 sp)
        then (returns r 0 0, m <| mem_brk_point := ROUND_UP base SS_PAGE_SIZE |>, h) else (returns r (ENOMEM abi) 1, m, h)).
Proof.
  intros [HR _ _] He H2 H4 H29. unfold do_ss_syscall.
  rewrite (arg_step 2 SS_SYS_brk (sys_dispatch hb (mem_access hb ld)) (mk_sys r m h)
    (Ok (tt, if (mem_brk_point m <=? ROUND_UP base SS_PAGE_SIZE) && (ROUND_UP base SS_PAGE_SIZE <? u32 sp)
      then mk_sys (returns r 0 0) (m <| mem_brk_point := ROUND_UP base SS_PAGE_SIZE |>) h else mk_sys (returns r (ENOMEM abi) 1) m h))); [by destruct (_ && _)|exact H2|done|].
  change (sys_dispatch _ _ SS_SYS_brk) with sys_brk. unfold sys_brk. apply (arg_step _ base); [exact H4|done|]. cbv zeta.
  eapply bind_step; [reflexivity|]. apply (arg_step _ sp); [exact H29|done|]. cbn [y_mem].
  change (Z.to_nat SS_NUM_REGS) with 32%nat in HR.
  destruct (_ && _); (eapply bind_step; [apply set_arg_ok; [done|cbn; rewrite HR; lia]|]).
  - eapply bind_step; [apply set_arg_ok; [done|cbn; rewrite length_insert, HR; lia]|]. reflexivity.
  - rewrite set_arg_ok; [|done|cbn; rewrite length_insert, HR; lia]. by rewrite (s32_small (ENOMEM abi)).
Qed.

End Transfer.

(** The exit code of the program, but -1 is reported as 0: longjmp() cannot pass the 0
    that stands for it. *)
Lemma exit_ok `{OS : HostOS} (hb : bool) (ld : ld_bounds) r m h status : - 2 ^ 31 <= status < 2 ^ 31 - 1 ->
  regs_R r !! 2%nat = Some SS_SYS_exit -> regs_R r !! 4%nat = Some status ->
  do_ss_syscall hb (mem_access hb ld) r m h = Exit (if status =? -1 then 0 else status).
Proof.
  intros Hs H2 H4. unfold do_ss_syscall.
  rewrite (arg_step 2 SS_SYS_exit (sys_dispatch hb (mem_access hb ld)) (mk_sys r m h) (Exit (if status =? -1 then 0 else status))); [done|exact H2|done|].
  change (sys_dispatch _ _ SS_SYS_exit) with sys_exit. unfold sys_exit. apply (arg_step _ status); [exact H4|done|].
  rewrite s32_small by lia. unfold lift, exit_now_code. cbn [mbind outcome_bind]. destruct (Z.eqb_spec status (-1)) as [->|Hne]; [done|].
  rewrite (proj2 (Z.eqb_neq _ _)) by lia. f_equal. lia.
Qed.

(** * Properties *)

(** C15: The system calls read and write move the bytes between the host and the memory of
    the program.  write() is given the bytes of the buffer, and memory stays as it is;
    a result of all bytes is the result of the call, and any other, a part of the bytes
    among them, is an error with the host's errno.  The bytes that read() delivers, and no
    others, are in the buffer afterwards, with their number as the result.  When read()
    fails the result is errno, and so many bytes are written to the buffer as errno says:
    zeros, if errno is at most the size the program asked for, and else the copy runs over
    the end of the host's buffer, which is undefined.  Registers other than the result
    ($r2) and the error flag ($r7) stay as they are, and the trace has the call with the
    answer of the kernel. *)
Theorem read_write_transfer {OS : HostOS} (hb : bool) (ld : ld_bounds) (r : regs) (m : mem_state) (h : host_trace) (fd addr n : Z) :
  regs_ok r -> bytes_ok m -> regs_R r !! 4%nat = Some fd -> regs_R r !! 5%nat = Some addr -> regs_R r !! 6%nat = Some n ->
  0 <= addr < 2 ^ 31 -> 0 <= n < 2 ^ 31 -> can_alloc h n = true ->
  (forall a, regs_R r !! 2%nat = Some SS_SYS_write -> accessible ld Read addr n -> a = kernel h (h_write fd (mem_bytes m addr (Z.to_nat n))) ->
   exists m', (forall x, 0 <= x < 2 ^ 31 -> mem_byte m' x = mem_byte m x) /\
     do_ss_syscall hb (mem_access hb ld) r m h
     = Ok (if s32 (a_result a) =? n then returns r n 0 else returns r (s32 (a_errno a)) 1, m',
           mk_host_event (h_write fd (mem_bytes m addr (Z.to_nat n))) a :: h)) /\
  (forall a, regs_R r !! 2%nat = Some SS_SYS_read -> a = kernel h (h_read fd n) -> Z.of_nat (length (out a 0)) <= n ->
   a_result a = Z.of_nat (length (out a 0)) -> - 2 ^ 31 <= a_errno a < 2 ^ 31 -> Forall is_byte (out a 0) -> accessible ld Write addr (a_result a) ->
   exists m', stored m addr (out a 0) m' /\
     do_ss_syscall hb (mem_access hb ld) r m h = Ok (returns r (a_result a) 0, m', mk_host_event (h_read fd n) a :: h)) /\
  (forall a, regs_R r !! 2%nat = Some SS_SYS_read -> a = kernel h (h_read fd n) -> out a 0 = [] ->
   a_result a = -1 -> 0 <= a_errno a < 2 ^ 31 -> accessible ld Write addr (a_errno a) ->
   if a_errno a <=? n
   then exists m', stored m addr (repeat 0 (Z.to_nat (a_errno a))) m' /\
     do_ss_syscall hb (mem_access hb ld) r m h = Ok (returns r (a_errno a) 1, m', mk_host_event (h_read fd n) a :: h)
   else do_ss_syscall hb (mem_access hb ld) r m h = Undef).
Proof.
  intros Hr Hm H4 H5 H6 Haddr Hn Halloc. split; [|split]; intros a H2.
  - by apply (sys_write_ok hb ld r m h SS_SYS_write fd addr n Hr Hm H2 H4 H5 H6 Haddr Hn Halloc).
  - by apply (sys_read_ok hb ld r m h SS_SYS_read fd addr n Hr Hm H2 H4 H5 H6 Haddr Hn Halloc).
  - by apply (read_error hb ld r m h SS_SYS_read fd addr n Hr Hm H2 H4 H5 H6 Haddr Hn Halloc).
Qed.

(** C6: Whatever a program does in a run of sim-safe, with the system calls of
    syscall.c on any host, the bytes outside of what it may write, the text segment among
    them, stay as they were, the break does not move down, and the host has been asked
    what the trace says, every answer being the one of the kernel at that point. *)
Theorem run_protects_program {OS : HostOS} {fp : HostFP} (ld : ld_bounds) (cfg : byte_config) (n : nat) (s s' : safe_state) :
  0 <= ld_data_base ld -> ld_stack_base ld <= 2 ^ 31 -> ld_stack_base ld mod 4 = 0 -> regs_ok (s_regs s) -> pages_ok (s_mem s) ->
  sim_safe_run (H := syscall_env ld cfg) n s = Ok s' ->
  protected ld (s_mem s) (s_mem s') /\ mem_brk_point (s_mem s) <= mem_brk_point (s_mem s') /\
  (exists evs, s_host s' = evs ++ s_host s) /\ (answered (s_host s) -> answered (s_host s')).
Proof.
  intros L1 L2 L3 Hr Hp H. destruct (safe_run_since ld cfg (conj L1 (conj L2 L3)) n s s s') as (_ & _ & _ & [H1 H2 H3 H4]); [|exact H|done].
  split; [done|]. split; [done|]. split; [done|apply since_refl].
Qed.

(** A program that reads up to four bytes, writes what it has read and exits, on a
    host whose standard input has two bytes. *)
Module SyscallExample.

Definition linux_abi : host_abi := mk_abi 12 0 1 2 1024 64 512 128 2048 256 (Some 1052672) 29704 29705 21523
  (Some 21509) None None (Some 21511) None None None None None None 7 128.

Definition answer (h : host_trace) (c : host_call) : host_answer :=
  match c with
  | h_read 0 _ => if bool_decide (h = []) then mk_answer 2 0 [[104; 105]] else mk_answer 0 0 []
  | h_write 1 buf => mk_answer (Z.of_nat (length buf)) 0 []
  | _ => mk_answer (-1) 9 []
  end.

#[export] Instance os : HostOS := {
  kernel := answer;
  indeterminate _ n := repeat 0 n;
  can_alloc _ _ := true;
  abi := linux_abi;
}.

Definition ld : ld_bounds := mk_ld 0x400000 0x1000 0x10000000 0x1000 0x7fffc000.
Definition cfg : byte_config := mk_byte_config false false 0.

Definition program : list ss_inst :=
  [asm ADDIU 0 2 3; asm LUI 0 5 0x1000; asm ADDIU 0 6 4; asm SYSCALL 0 0 0;
   asm ADDU 2 0 0x600; asm ADDIU 0 2 4; asm ADDIU 0 4 1; asm SYSCALL 0 0 0;
   asm ADDIU 0 2 1; asm ADDIU 0 4 7; asm SYSCALL 0 0 0].
Definition text : mem_state :=
  match unchk_write 0x400000 (flat_map inst_bytes program) (mem_tickle 0x400000 mem_init) with Ok m => m | _ => mem_init end.
Definition start : safe_state := mk_safe example_regs text 0x400008 0 false 0 0 [].

Lemma echo_text_pages : pages_ok text.
Proof.
  assert (H : map_Forall (fun _ (pg : gmap Z Z) => map_Forall (fun _ v => 0 <= v < 256) pg) (mem_table text)) by (apply (bool_decide_unpack _); vm_compute; exact I).
  intros b pg o v Hb Ho. exact (H b pg Hb o v Ho).
Qed.

(** The program echoes its input and exits with 7. *)
Lemma echoes : (s ← sim_safe_run (H := syscall_env ld cfg) 10 start; Ok (s_host s))
    = Ok [mk_host_event (h_write 1 [104; 105]) (mk_answer 2 0 []); mk_host_event (h_read 0 4) (mk_answer 2 0 [[104; 105]])]
  /\ sim_safe_run (H := syscall_env ld cfg) 11 start = Exit 7.
Proof. split; vm_compute; reflexivity. Qed.

(** The registers of the write. *)
Definition write_regs : regs := example_regs <| regs_R := [0; 0; 4; 0; 1; 0x400000; 8] ++ repeat 0 25 |>.
Lemma write_regs_ok : regs_ok write_regs.
Proof. split; [vm_compute; reflexivity..|]. apply (bool_decide_unpack _). vm_compute. exact I. Qed.
End SyscallExample.

Lemma read_write_transfer_witness : exists m',
  do_ss_syscall (OS := SyscallExample.os) false (mem_access false SyscallExample.ld) SyscallExample.write_regs SyscallExample.text []
  = Ok (returns SyscallExample.write_regs 8 0, m', [mk_host_event (h_write 1 (mem_bytes SyscallExample.text 0x400000 8)) (mk_answer 8 0 [])]).
Proof.
  destruct (proj1 (read_write_transfer (OS := SyscallExample.os) false SyscallExample.ld SyscallExample.write_regs SyscallExample.text [] 1 0x400000 8
    SyscallExample.write_regs_ok (pages_bytes_ok _ _ SyscallExample.echo_text_pages (reflexivity _)) eq_refl eq_refl eq_refl ltac:(lia) ltac:(lia) eq_refl) (mk_answer 8 0 []) eq_refl)
    as (m' & _ & E).
  - intros i Hi. split; [lia|]. unfold mem_perm. apply orb_true_iff. left. rewrite bool_decide_eq_true_2, andb_true_r by done.
    change (u32 _) with 0x401000. change (ld_text_base SyscallExample.ld) with 0x400000. blia.
  - reflexivity.
  - exists m'. exact E.
Defined.

Lemma run_protects_program_witness :
  match sim_safe_run (H := syscall_env (OS := SyscallExample.os) SyscallExample.ld SyscallExample.cfg) 10 SyscallExample.start with
  | Ok s => protected SyscallExample.ld SyscallExample.text (s_mem s) /\ answered (OS := SyscallExample.os) (s_host s) /\ length (s_host s) = 2%nat
  | _ => False
  end.
Proof.
  pose proof (proj1 SyscallExample.echoes) as He.
  destruct (sim_safe_run (H := syscall_env (OS := SyscallExample.os) SyscallExample.ld SyscallExample.cfg) 10 SyscallExample.start) as [s| | | | | |] eqn:E;
    [|discriminate He..].
  destruct (run_protects_program (OS := SyscallExample.os) SyscallExample.ld SyscallExample.cfg 10 SyscallExample.start s) as (H1 & _ & _ & H2);
    [by vm_compute|by vm_compute|by vm_compute|exact example_regs_ok|exact SyscallExample.echo_text_pages|exact E|].
  split; [exact H1|]. split; [by apply H2|]. cbn in He. by injection He as ->.
Defined.
