(* ===== verification/SpecSim.v ===== *)
(** sim-outorder.c: the trace generator, the part of ruu_dispatch that executes
    instructions, on the right path and past mispredicted branches.

    Mis-speculated instructions write copies of the registers, [use_spec_R] and
    the like tell which, and a hash table over memory; [tracer_recover] drops
    both.  A bucket chain is the list of its entries, the free list too; an
    entry's [data] is its eight host bytes.  The variables [temp_uint] to
    [temp_char] of ruu_dispatch, through which memory is accessed, hold the
    unsigned values of their bytes.  Pipetracing is inactive. *)

From S2P Require Import Prelude Misc Memory Isa Bitmap Exec Funsim.

(** * State *)

Definition STORE_HASH_SIZE : Z := 32.
Definition R_BMAP_SZ : nat := Z.to_nat (BITMAP_SIZE SS_NUM_REGS).
Definition F_BMAP_SZ : nat := Z.to_nat (BITMAP_SIZE SS_NUM_REGS).

Record spec_mem_ent := mk_ent { ent_addr : Z; ent_data : list Z }.
#[global] Instance eta_spec_mem_ent : Eta spec_mem_ent := mk_eta (fun e => mk_ent (ent_addr e) (ent_data e)).

Record temps := mk_temps { v_uint : Z; v_ushort : Z; v_short : Z; v_uchar : Z; v_char : Z }.
#[global] Instance eta_temps : Eta temps := mk_eta (fun t =>
  mk_temps (v_uint t) (v_ushort t) (v_short t) (v_uchar t) (v_char t)).

Definition get_temp (t : mem_temp) (x : temps) : Z :=
  match t with
  | temp_uint => v_uint x | temp_ushort => v_ushort x | temp_short => v_short x
  | temp_uchar => v_uchar x | temp_char => v_char x
  end.
Definition set_temp (t : mem_temp) (v : Z) (x : temps) : temps :=
  match t with
  | temp_uint => x <| v_uint := v |> | temp_ushort => x <| v_ushort := v |> | temp_short => x <| v_short := v |>
  | temp_uchar => x <| v_uchar := v |> | temp_char => x <| v_char := v |>
  end.

Record tracer := mk_tracer {
  g_regs : regs;
  g_mem : mem_state;
  g_next_PC : Z;
  g_target_PC : Z;
  g_addr : Z;
  g_temps : temps;
  spec_mode : bool;
  use_spec_R : list Z;
  spec_regs_R : list Z;
  use_spec_F : list Z;
  spec_regs_F : list Z;
  use_spec_HI : bool;
  spec_regs_HI : Z;
  use_spec_LO : bool;
  spec_regs_LO : Z;
  use_spec_FCC : bool;
  spec_regs_FCC : Z;
  store_htable : list (list spec_mem_ent);
  bucket_free_list : list spec_mem_ent;
  g_host : host_trace;
}.
#[global] Instance eta_tracer : Eta tracer := mk_eta (fun s =>
  mk_tracer (g_regs s) (g_mem s) (g_next_PC s) (g_target_PC s) (g_addr s) (g_temps s) (spec_mode s)
    (use_spec_R s) (spec_regs_R s) (use_spec_F s) (spec_regs_F s) (use_spec_HI s) (spec_regs_HI s)
    (use_spec_LO s) (spec_regs_LO s) (use_spec_FCC s) (spec_regs_FCC s) (store_htable s) (bucket_free_list s) (g_host s)).

(** The variables of the fetch stage that recovery resets. *)
Record fetch_vars := mk_fetch {
  fetch_num : Z; fetch_tail : Z; fetch_head : Z;
  fetch_regs_PC : Z; fetch_pred_PC : Z; recover_PC : Z;
}.
#[global] Instance eta_fetch_vars : Eta fetch_vars := mk_eta (fun f =>
  mk_fetch (fetch_num f) (fetch_tail f) (fetch_head f) (fetch_regs_PC f) (fetch_pred_PC f) (recover_PC f)).

(** * Initialization and recovery *)

Definition clear_spec_regs (s : tracer) : outcome tracer :=
  R ← BITMAP_CLEAR_MAP (use_spec_R s) R_BMAP_SZ;
  F ← BITMAP_CLEAR_MAP (use_spec_F s) F_BMAP_SZ;
  Ok (s <| use_spec_R := R |> <| use_spec_F := F |>
        <| use_spec_HI := false |> <| use_spec_LO := false |> <| use_spec_FCC := false |>).

(** Each bucket of a chain goes to the head of the free list. *)
Definition release_chain (chain free : list spec_mem_ent) : list spec_mem_ent :=
  fold_left (fun free ent => ent :: free) chain free.

Fixpoint release_chains (n i : nat) (s : tracer) : outcome tracer :=
  match n with
  | O => Ok s
  | S n' =>
      chain ← c_get (store_htable s) i;
      t ← c_upd (store_htable s) i (fun _ => []);
      release_chains n' (S i) (s <| bucket_free_list ::= release_chain chain |> <| store_htable := t |>)
  end.

Definition tracer_recover (s : tracer) (f : fetch_vars) : outcome (tracer * fetch_vars) :=
  if negb (spec_mode s) then Panic else
  s ← clear_spec_regs (s <| spec_mode := false |>);
  s ← release_chains (Z.to_nat STORE_HASH_SIZE) 0 s;
  Ok (s, f <| fetch_num := 0 |> <| fetch_tail := 0 |> <| fetch_head := 0 |>
           <| fetch_regs_PC := recover_PC f |> <| fetch_pred_PC := recover_PC f |>).

Definition tracer_init (s : tracer) : outcome tracer :=
  s ← clear_spec_regs (s <| spec_mode := false |>);
  Ok (s <| store_htable := repeat [] (Z.to_nat STORE_HASH_SIZE) |>).

(** * Speculative memory *)

Definition HASH_ADDR (ADDR : Z) : nat :=
  Z.to_nat (Z.land (Z.lxor (Z.lxor (Z.lxor (Z.shiftr ADDR 24) (Z.shiftr ADDR 16)) (Z.shiftr ADDR 8)) ADDR) (STORE_HASH_SIZE - 1)).

(** The entry of an address in a chain, and the chain without it. *)
Fixpoint find_ent (addr : Z) (chain : list spec_mem_ent) : option (spec_mem_ent * list spec_mem_ent) :=
  match chain with
  | [] => None
  | e :: chain' =>
      if ent_addr e =? addr then Some (e, chain')
      else match find_ent addr chain' with Some (f, rest) => Some (f, e :: rest) | None => None end
  end.

(** A bucket from the free list, or a cleared one. *)
Definition alloc_ent (free : list spec_mem_ent) : spec_mem_ent * list spec_mem_ent :=
  match free with [] => (mk_ent 0 (repeat 0 8), []) | e :: free' => (e, free') end.

Section SpecSim.
Context `{SimEnv}.
Variable bugcompat_mode : bool.

(** The switch on the size for a hit in the buffer, and for a read from memory;
    an 8 byte write stores its first word only. *)
Definition spec_store (nbytes : Z) (p data : list Z) : outcome (list Z) :=
  if nbytes =? 1 then bs ← buf_get p 0 1; buf_put data 0 bs
  else if nbytes =? 2 then bs ← buf_get p 0 2; buf_put data 0 bs
  else if nbytes =? 4 then bs ← buf_get p 0 4; buf_put data 0 bs
  else if nbytes =? 8 then bs ← buf_get p 0 4; buf_put data 0 bs
  else Panic.

Definition spec_load (nbytes : Z) (data p : list Z) : outcome (list Z) :=
  if nbytes =? 1 then bs ← buf_get data 0 1; buf_put p 0 bs
  else if nbytes =? 2 then bs ← buf_get data 0 2; buf_put p 0 bs
  else if nbytes =? 4 then bs ← buf_get data 0 4; buf_put p 0 bs
  else if nbytes =? 8 then bs ← buf_get data 0 8; buf_put p 0 bs
  else Panic.

(** [MEM_READ_BYTE] and the like: checked, declared. *)
Definition CHK_MEM_READ (sz : nat) (addr : Z) (m : mem_state) : outcome (Z * mem_state) :=
  '(_, m) ← mem_valid env_ld Read addr (Z.of_nat sz) true m; MEM_READ (host_big env_cfg) sz addr m.

Definition spec_load_mem (nbytes addr : Z) (p : list Z) (m : mem_state) : outcome (mem_state * list Z) :=
  if (nbytes =? 1) || (nbytes =? 2) || (nbytes =? 4) then
    '(w, m) ← CHK_MEM_READ (Z.to_nat nbytes) addr m;
    p ← buf_put p 0 (host_split (host_big env_cfg) (Z.to_nat nbytes) w); Ok (m, p)
  else if nbytes =? 8 then
    '(w, m) ← CHK_MEM_READ 4 addr m;
    p ← buf_put p 0 (host_split (host_big env_cfg) 4 w);
    '(w, m) ← CHK_MEM_READ 4 (u32 (addr + 4)) m;
    p ← buf_put p 4 (host_split (host_big env_cfg) 4 w); Ok (m, p)
  else Panic.

Definition spec_mem_access (cmd : mem_cmd) (addr : Z) (p : list Z) (nbytes : Z) (s : tracer) : outcome (tracer * list Z) :=
  if bad_align addr nbytes then Ok (s, p) else
  if negb (mem_perm env_ld cmd addr) then Ok (s, p) else
  let index := HASH_ADDR addr in
  chain ← c_get (store_htable s) index;
  match find_ent addr chain, cmd with
  | Some (ent, rest), Read =>
      p ← spec_load nbytes (ent_data ent) p;
      t ← c_upd (store_htable s) index (fun _ => ent :: rest);
      Ok (s <| store_htable := t |>, p)
  | Some (ent, rest), Write =>
      data ← spec_store nbytes p (ent_data ent);
      t ← c_upd (store_htable s) index (fun _ => (ent <| ent_data := data |>) :: rest);
      Ok (s <| store_htable := t |>, p)
  | None, Read =>
      '(m, p) ← spec_load_mem nbytes addr p (g_mem s); Ok (s <| g_mem := m |>, p)
  | None, Write =>
      let '(ent, free) := alloc_ent (bucket_free_list s) in
      let s := s <| bucket_free_list := free |> in
      if bugcompat_mode then (spec_store nbytes p (ent_data ent) ≫= fun _ => Ok (s, p))
      else
        data ← spec_store nbytes p (repeat 0 8);
        t ← c_upd (store_htable s) index (fun _ => mk_ent addr data :: chain);
        Ok (s <| store_htable := t |>, p)
  end.

(** * The macros of sim-outorder.c *)

Definition tg_GPR (N : Z) (s : tracer) : outcome Z :=
  b ← BITMAP_SET_P (use_spec_R s) N;
  if (b : bool) then z_get (spec_regs_R s) N else z_get (regs_R (g_regs s)) N.
Definition tg_MARK_GPR (N : Z) (s : tracer) : outcome tracer :=
  if spec_mode s then bm ← BITMAP_SET (use_spec_R s) N; Ok (s <| use_spec_R := bm |>) else Ok s.
Definition tg_SET_GPR (N v : Z) (s : tracer) : outcome tracer :=
  if spec_mode s then R ← z_set (spec_regs_R s) N v; Ok (s <| spec_regs_R := R |>)
  else R ← z_set (regs_R (g_regs s)) N v; Ok (s <| g_regs ::= set_field regs_R (fun _ => R) |>).

Definition even_reg (N : Z) : Z := Z.land N (Z.lnot 1).
Definition tg_FPR_L (N : Z) (s : tracer) : outcome Z :=
  b ← BITMAP_SET_P (use_spec_F s) (even_reg N);
  if (b : bool) then z_get (spec_regs_F s) N else z_get (regs_F (g_regs s)) N.
Definition tg_MARK_FPR (N : Z) (s : tracer) : outcome tracer :=
  if spec_mode s then bm ← BITMAP_SET (use_spec_F s) (even_reg N); Ok (s <| use_spec_F := bm |>) else Ok s.
Definition tg_SET_FPR_L (N v : Z) (s : tracer) : outcome tracer :=
  if spec_mode s then F ← z_set (spec_regs_F s) N v; Ok (s <| spec_regs_F := F |>)
  else F ← z_set (regs_F (g_regs s)) N v; Ok (s <| g_regs ::= set_field regs_F (fun _ => F) |>).

Definition tg_HI (s : tracer) : Z := if use_spec_HI s then spec_regs_HI s else regs_HI (g_regs s).
Definition tg_SET_HI (v : Z) (s : tracer) : tracer :=
  if spec_mode s then s <| use_spec_HI := true |> <| spec_regs_HI := s32 v |>
  else s <| g_regs ::= set_field regs_HI (fun _ => s32 v) |>.
Definition tg_LO (s : tracer) : Z := if use_spec_LO s then spec_regs_LO s else regs_LO (g_regs s).
Definition tg_SET_LO (v : Z) (s : tracer) : tracer :=
  if spec_mode s then s <| use_spec_LO := true |> <| spec_regs_LO := s32 v |>
  else s <| g_regs ::= set_field regs_LO (fun _ => s32 v) |>.
Definition tg_FCC (s : tracer) : Z := if use_spec_FCC s then spec_regs_FCC s else regs_FCC (g_regs s).
Definition tg_SET_FCC (v : Z) (s : tracer) : tracer :=
  if spec_mode s then s <| use_spec_FCC := true |> <| spec_regs_FCC := s32 v |>
  else s <| g_regs ::= set_field regs_FCC (fun _ => s32 v) |>.

(** An access through the bytes of a temporary. *)
Definition tg_access (cmd : mem_cmd) (t : mem_temp) (s : tracer) : outcome tracer :=
  let n := temp_size t in
  let p := host_split (host_big env_cfg) n (get_temp t (g_temps s)) in
  '(s, p) ← (if spec_mode s then spec_mem_access cmd (g_addr s) p (Z.of_nat n) s
             else '(m, p) ← mem_access (host_big env_cfg) env_ld cmd (g_addr s) p 0 (Z.of_nat n) (g_mem s);
                  Ok (s <| g_mem := m |>, p));
  Ok (s <| g_temps ::= set_temp t (host_combine (host_big env_cfg) p) |>).

Definition READ_SPECMEM (t : mem_temp) (a : Z) (s : tracer) : outcome (Z * tracer) :=
  s ← tg_access Read t (s <| g_addr := a |>); Ok (get_temp t (g_temps s), s).
Definition WRITE_SPECMEM (t : mem_temp) (v a : Z) (s : tracer) : outcome tracer :=
  tg_access Write t (s <| g_addr := a |> <| g_temps ::= set_temp t v |>).

Definition tg_SYSCALL (inst : ss_inst) (s : tracer) : outcome tracer :=
  if spec_mode s then Panic
  else '(r, m, h) ← ss_syscall inst (g_regs s) (g_mem s) (g_host s); Ok (s <| g_regs := r |> <| g_mem := m |> <| g_host := h |>).
Definition tg_IFAIL (s : tracer) : outcome tracer := if spec_mode s then Ok s else Fatal.
Definition tg_IDIV (A B : Z) : outcome Z := if B =? 0 then Ok 0 else c_div A B.
Definition tg_IMOD (A B : Z) : outcome Z := if B =? 0 then Ok 0 else c_mod A B.

#[export] Instance tracer_machine : Machine tracer := {
  CPC s := regs_PC (g_regs s);
  SET_NPC v s := s <| g_next_PC := v |>;
  SET_TPC v s := s <| g_target_PC := v |>;
  GPR := tg_GPR;
  MARK_GPR := tg_MARK_GPR;
  SET_GPR := tg_SET_GPR;
  FPR_L := tg_FPR_L;
  MARK_FPR := tg_MARK_FPR;
  SET_FPR_L := tg_SET_FPR_L;
  HI := tg_HI; SET_HI := tg_SET_HI;
  LO := tg_LO; SET_LO := tg_SET_LO;
  FCC := tg_FCC; SET_FCC := tg_SET_FCC;
  READ_MEM := READ_SPECMEM;
  WRITE_MEM := WRITE_SPECMEM;
  IFAIL := tg_IFAIL;
  IDIV_int := tg_IDIV;
  IMOD_int := tg_IMOD;
  FINT_nan := Some 0;
  FDIV_zero := true;
  do_syscall := tg_SYSCALL;
}.

(** The execution of one instruction in ruu_dispatch: the opcode it is taken
    for, and the state.  Of a decoded TRAP, speculative ones are refused. *)
Definition dispatch_exec `{HostFP} (inst : ss_inst) (regs_PC0 : Z) (s : tracer) : outcome (ss_opcode * tracer) :=
  let s := s <| g_regs ::= set_field regs_PC (fun _ => regs_PC0) |> <| g_next_PC := u32 (regs_PC0 + SS_INST_SIZE) |> in
  let op := opcode_of_val (SS_OPCODE inst) in
  match op with
  | Some op => if truth (Z.land (SS_OP_FLAGS op) F_TRAP) && spec_mode s then Panic else Ok tt
  | None => Ok tt
  end;;
  R ← z_set (regs_R (g_regs s)) 0 0; SR ← z_set (spec_regs_R s) 0 0;
  let s := s <| g_regs ::= set_field regs_R (fun _ => R) |> <| spec_regs_R := SR |> <| g_addr := 0 |> in
  match op with
  | Some OP_NA | None => Ok (NOP, s)
  | Some op => s ← execute env_cfg op inst s; Ok (op, s)
  end.

End SpecSim.
