(* ===== verification/SpecProps.v ===== *)
(** Where a wrong path is defined, and what mis-speculation leaves behind:
    nothing in the architected registers and memory.  And on the right path the
    trace generator of sim-outorder computes what sim-safe computes. *)

From S2P Require Import Prelude Misc Memory Isa Bitmap Exec ExecMult ExecMeta ExecTotal Funsim FunsimProps SpecSim.

(** * Plain operations *)

Lemma plain_c_upd {A : Type} (l : list A) i f : plain (c_upd l i f).
Proof. unfold c_upd. by destruct (l !! i). Qed.
Lemma plain_z_get l i : plain (z_get l i).
Proof. unfold z_get. destruct (i <? 0); [done|]. apply plain_c_get. Qed.
Lemma plain_z_set l i v : plain (z_set l i v).
Proof. unfold z_set. destruct (i <? 0); [done|]. apply plain_c_upd. Qed.
Lemma plain_BITMAP_SET bm b : plain (BITMAP_SET bm b).
Proof. unfold BITMAP_SET. destruct (b <? 0); [done|]. apply plain_c_upd. Qed.
Lemma plain_BITMAP_SET_P bm b : plain (BITMAP_SET_P bm b).
Proof. unfold BITMAP_SET_P. destruct (b <? 0); [done|]. apply plain_bind; [apply plain_c_get|done]. Qed.
Lemma plain_buf_get b p n : plain (buf_get b p n).
Proof. unfold buf_get. by destruct (_ <=? _)%nat. Qed.
Lemma plain_buf_put b p bs : plain (buf_put b p bs).
Proof. unfold buf_put. by destruct (_ <=? _)%nat. Qed.
Lemma plain_c_div a b : plain (c_div a b).
Proof. unfold c_div. by destruct (_ || _). Qed.
Lemma plain_c_mod a b : plain (c_mod a b).
Proof. unfold c_mod. by destruct (_ || _). Qed.
Lemma plain_MEM_READ hb n a m : plain (MEM_READ hb n a m).
Proof.
  unfold MEM_READ, unchk_read. cbv zeta. apply plain_bind; [|done].
  apply plain_bind; [by destruct (mem_table _ !! _)|]. intros pg. by destruct (_ <=? _).
Qed.

Lemma plain_or {A : Type} (m : outcome A) : plain m -> (exists a, m = Ok a) \/ m = Undef.
Proof. destruct m; cbn; eauto; done. Qed.

Create HintDb plain.
#[export] Hint Resolve plain_c_get plain_c_upd plain_z_get plain_z_set plain_BITMAP_SET plain_BITMAP_SET_P
  plain_buf_get plain_buf_put plain_c_div plain_c_mod plain_MEM_READ : plain.

(** Walks a computation whose steps are plain. *)
Ltac plain_walk :=
  repeat (first [solve [auto with plain] | apply plain_bind; [|intros] | exact I
    | match goal with |- plain (if ?b then _ else _) => destruct b end ]).

(** A register file of ints. *)
Definition ints_ok (l : list Z) : Prop := Forall is_int l /\ length l = Z.to_nat SS_NUM_REGS.

Lemma ints_ok_set l i v l' : z_set l i v = Ok l' -> ints_ok l -> ints_ok l'.
Proof. intros H [H1 H2]. split; [by eapply z_set_int|]. by rewrite (z_set_length _ _ _ _ H). Qed.

(** * Where a wrong path is defined *)

Lemma even_reg_spec r : 0 <= r -> even_reg r = 2 * (r / 2).
Proof.
  intros Hr. unfold even_reg. rewrite <- Z.ldiff_land. change 1 with (Z.ones 1). rewrite Z.ldiff_ones_r by lia.
  rewrite Z.shiftl_mul_pow2, Z.shiftr_div_pow2 by lia. change (2 ^ 1) with 2. lia.
Qed.

Lemma even_reg_num r : reg_num r = true -> reg_num (even_reg r) = true.
Proof. rewrite !reg_num_spec. intros H. rewrite even_reg_spec by lia. Z.to_euclidean_division_equations. lia. Qed.

Definition reg_file {A : Type} (l : list A) : Prop := length l = Z.to_nat SS_NUM_REGS.
Definition reg_bmap (l : list Z) : Prop := length l = R_BMAP_SZ.

Lemma z_get_total l r : reg_file l -> reg_num r = true -> total any (z_get l r).
Proof.
  intros Hl Hr%reg_num_spec. unfold z_get. replace (r <? 0) with false by blia. apply c_get_total. rewrite Hl. unfold SS_NUM_REGS. lia.
Qed.
Lemma z_set_total l r v : reg_file l -> reg_num r = true -> total reg_file (z_set l r v).
Proof.
  intros Hl Hr%reg_num_spec. rewrite z_set_some; [|lia|rewrite Hl; unfold SS_NUM_REGS; lia].
  apply total_ok. unfold reg_file. by rewrite length_insert.
Qed.

Lemma reg_bit_word r : reg_num r = true -> bit_word r = 0%nat.
Proof. intros H%reg_num_spec. unfold bit_word. by rewrite Z.quot_small. Qed.

Lemma BITMAP_SET_P_total bm r : reg_bmap bm -> reg_num r = true -> total any (BITMAP_SET_P bm r).
Proof.
  intros Hb Hr. unfold BITMAP_SET_P. rewrite (reg_bit_word r Hr). apply reg_num_spec in Hr. replace (r <? 0) with false by blia.
  eapply total_bind; [apply c_get_total; rewrite Hb; vm_compute; lia|]. intros w _. by apply total_ok.
Qed.
Lemma BITMAP_SET_total bm r : reg_bmap bm -> reg_num r = true -> total reg_bmap (BITMAP_SET bm r).
Proof.
  intros Hb Hr. unfold BITMAP_SET. rewrite (reg_bit_word r Hr). apply reg_num_spec in Hr. replace (r <? 0) with false by blia.
  unfold c_upd. destruct bm as [|w bm]; [done|]. by apply total_ok.
Qed.

(** The buckets of the speculative memory hold eight bytes. *)
Definition bucket_ok (e : spec_mem_ent) : Prop := length (ent_data e) = 8%nat.

(** The state of a mis-speculation has the sizes that its declarations give. *)
Record sized (s : tracer) : Prop := {
  sz_mode : spec_mode s = true;
  sz_R : reg_file (regs_R (g_regs s));
  sz_F : reg_file (regs_F (g_regs s));
  sz_spec_R : reg_file (spec_regs_R s);
  sz_spec_F : reg_file (spec_regs_F s);
  sz_use_R : reg_bmap (use_spec_R s);
  sz_use_F : reg_bmap (use_spec_F s);
  sz_table : length (store_htable s) = Z.to_nat STORE_HASH_SIZE;
  sz_buckets : Forall (Forall bucket_ok) (store_htable s);
  sz_free : Forall bucket_ok (bucket_free_list s);
}.

Lemma HASH_ADDR_range a : (HASH_ADDR a < Z.to_nat STORE_HASH_SIZE)%nat.
Proof. unfold HASH_ADDR, STORE_HASH_SIZE. change (32 - 1) with 31. pose proof (land_31 (Z.lxor (Z.lxor (Z.lxor (Z.shiftr a 24) (Z.shiftr a 16)) (Z.shiftr a 8)) a)). lia. Qed.

Lemma find_ent_ok a chain e rest : Forall bucket_ok chain -> find_ent a chain = Some (e, rest) -> bucket_ok e /\ Forall bucket_ok rest.
Proof.
  revert e rest. induction chain as [|x chain IH]; intros e rest Hc; cbn [find_ent]; [done|].
  apply Forall_cons in Hc as [Hx Hc]. destruct (ent_addr x =? a); [by intros [= <- <-]|].
  destruct (find_ent a chain) as [[f r]|]; [|done]. intros [= <- <-]. destruct (IH _ _ Hc eq_refl). split; [done|]. by constructor.
Qed.

Lemma alloc_ent_ok free : Forall bucket_ok free -> bucket_ok (alloc_ent free).1 /\ Forall bucket_ok (alloc_ent free).2.
Proof. intros Hf. destruct free as [|e free]; cbn; [done|]. by apply Forall_cons in Hf. Qed.

(** An aligned access of at most four bytes does not cross a page. *)
Lemma aligned_in_page a n : n ∈ [1; 2; 4] -> bad_align a n = false -> MEM_OFFSET a + n <= MEM_BLOCK_SIZE.
Proof.
  intros Hn [_ Ha%negb_false_iff%Z.eqb_eq]%orb_false_iff. rewrite MEM_OFFSET_mod. change MEM_BLOCK_SIZE with (2 ^ 16).
  assert (Hk : exists k, n = 2 ^ k /\ 0 <= k <= 2).
  { rewrite !elem_of_cons, elem_of_nil in Hn. destruct Hn as [-> | [-> | [-> | []]]]; [exists 0|exists 1|exists 2]; split; done || lia. }
  destruct Hk as (k & -> & Hk). rewrite Z.sub_1_r, <- Z.ones_equiv, Z.land_ones in Ha by lia.
  apply Z.mod_divide in Ha as [q ->]; [|lia].
  replace (2 ^ 16) with (2 ^ (16 - k) * 2 ^ k) by (rewrite <- Z.pow_add_r by lia; f_equal; lia).
  rewrite Z.mul_mod_distr_r by lia. pose proof (Z.mod_pos_bound q (2 ^ (16 - k)) ltac:(lia)). nia.
Qed.

(** The state [dispatch_exec] hands to the instruction. *)
Definition dispatched (pc : Z) (g : tracer) : tracer :=
  let g := g <| g_regs ::= set_field regs_PC (fun _ => pc) |> <| g_next_PC := u32 (pc + SS_INST_SIZE) |> in
  g <| g_regs ::= set_field regs_R <[0%nat := 0]> |> <| spec_regs_R ::= <[0%nat := 0]> |> <| g_addr := 0 |>.

Definition is_trap (inst : ss_inst) : bool :=
  match opcode_of_val (SS_OPCODE inst) with
  | Some op => truth (Z.land (SS_OP_FLAGS op) F_TRAP)
  | None => false
  end.

Section Defined.
Context {E : SimEnv}.
Variable bugcompat : bool.
#[local] Hint Extern 0 (Machine tracer) => exact (tracer_machine bugcompat) : typeclass_instances.

Lemma CHK_MEM_READ_total n a m :
  Z.of_nat n ∈ [1; 2; 4] -> bad_align a (Z.of_nat n) = false -> mem_perm env_ld Read a = true -> total any (CHK_MEM_READ n a m).
Proof.
  intros Hn Ha Hp. unfold CHK_MEM_READ, mem_valid. rewrite Ha, Hp. cbn [negb mbind outcome_bind].
  generalize (track_stack_min a m). clear m. intros m. unfold MEM_READ, unchk_read. cbv zeta.
  assert (Hpg : exists pg, mem_table (mem_tickle a m) !! MEM_BLOCK a = Some pg).
  { unfold mem_tickle. destruct (mem_table m !! MEM_BLOCK a) eqn:Et; [eauto|]. cbn. rewrite lookup_insert_eq. eauto. }
  destruct Hpg as [pg ->]. pose proof (aligned_in_page _ _ Hn Ha). cbn [deref mbind outcome_bind].
  replace (_ <=? _) with true by blia. by apply total_ok.
Qed.

Lemma spec_store_total n p data : Z.of_nat n ∈ [1; 2; 4] -> length p = n -> length data = 8%nat ->
  total (fun d => length d = 8%nat) (spec_store (Z.of_nat n) p data).
Proof.
  intros Hn Hp Hd. rewrite !elem_of_cons, elem_of_nil in Hn.
  assert (Hput : (n <= 8)%nat -> total (fun d => length d = 8%nat) (bs ← buf_get p 0 n; buf_put data 0 bs)).
  { intros H8. unfold buf_get, buf_put. rewrite Hp, Nat.leb_refl. cbn [Nat.add mbind outcome_bind]. rewrite drop_0, length_take, Hp, Nat.min_id, Hd.
    replace (n <=? 8)%nat with true by blia. apply total_ok. rewrite take_0. cbn [app]. rewrite length_app, length_take, length_drop. lia. }
  assert (Hc : n = 1%nat \/ n = 2%nat \/ n = 4%nat) by lia. destruct Hc as [-> | [-> | ->]]; apply Hput; lia.
Qed.

Lemma spec_load_total n data p : Z.of_nat n ∈ [1; 2; 4] -> length p = n -> length data = 8%nat -> total any (spec_load (Z.of_nat n) data p).
Proof.
  intros Hn Hp Hd. rewrite !elem_of_cons, elem_of_nil in Hn.
  assert (Hput : (n <= 8)%nat -> total any (bs ← buf_get data 0 n; buf_put p 0 bs)).
  { intros H8. unfold buf_get, buf_put. rewrite Hd. cbn [Nat.add]. replace (n <=? 8)%nat with true by blia. cbn [mbind outcome_bind].
    rewrite drop_0, length_take, Hd, Hp. replace (n `min` 8 <=? n)%nat with true by blia. by apply total_ok. }
  assert (Hc : n = 1%nat \/ n = 2%nat \/ n = 4%nat) by lia. destruct Hc as [-> | [-> | ->]]; apply Hput; lia.
Qed.

Lemma spec_load_mem_total n a p m :
  Z.of_nat n ∈ [1; 2; 4] -> length p = n -> bad_align a (Z.of_nat n) = false -> mem_perm env_ld Read a = true ->
  total any (spec_load_mem (Z.of_nat n) a p m).
Proof.
  intros Hn Hp Ha Hperm. unfold spec_load_mem.
  replace ((Z.of_nat n =? 1) || (Z.of_nat n =? 2) || (Z.of_nat n =? 4)) with true by (rewrite !elem_of_cons, elem_of_nil in Hn; blia).
  rewrite Nat2Z.id. eapply total_bind; [by apply CHK_MEM_READ_total|]. intros [w m1] _.
  unfold buf_put. rewrite length_host_split, Hp, Nat.leb_refl. cbn [Nat.add mbind outcome_bind]. by apply total_ok.
Qed.

Lemma table_upd_total idx chain t :
  length t = Z.to_nat STORE_HASH_SIZE -> Forall (Forall bucket_ok) t -> (idx < Z.to_nat STORE_HASH_SIZE)%nat -> Forall bucket_ok chain ->
  total (fun t' => length t' = Z.to_nat STORE_HASH_SIZE /\ Forall (Forall bucket_ok) t') (c_upd t idx (fun _ => chain)).
Proof.
  intros Hl Ht Hi Hc. destruct (lookup_lt_is_Some_2 t idx) as [c Hx]; [lia|]. rewrite (c_upd_insert _ _ _ c) by done.
  apply total_ok. rewrite length_insert. split; [done|]. by apply Forall_insert.
Qed.

Lemma sized_table s t : sized s -> length t = Z.to_nat STORE_HASH_SIZE -> Forall (Forall bucket_ok) t -> sized (s <| store_htable := t |>).
Proof. by intros []. Qed.

Lemma spec_mem_access_total cmd a p n s :
  Z.of_nat n ∈ [1; 2; 4] -> length p = n -> sized s ->
  total (fun x => sized x.1) (spec_mem_access bugcompat cmd a p (Z.of_nat n) s).
Proof.
  intros Hn Hp Hs. unfold spec_mem_access. destruct (bad_align a (Z.of_nat n)) eqn:Ha; [by apply total_ok|].
  destruct (mem_perm env_ld cmd a) eqn:Hperm; cbn [negb]; [|by apply total_ok]. cbv zeta.
  pose proof (HASH_ADDR_range a) as Hi. pose proof (sz_table _ Hs) as Hl. pose proof (sz_buckets _ Hs) as Ht.
  generalize dependent (HASH_ADDR a). intros idx Hi. destruct (lookup_lt_is_Some_2 (store_htable s) idx) as [chain Hx]; [lia|].
  rewrite (c_get_some _ _ _ Hx), mbind_ok. pose proof (Forall_lookup_1 _ _ _ _ Ht Hx) as Hc. cbn in Hc.
  destruct (find_ent a chain) as [[ent rest]|] eqn:Ef; [destruct (find_ent_ok _ _ _ _ Hc Ef) as [He Hr]|]; destruct cmd.
  - eapply total_bind; [by apply spec_load_total|]. intros q _. eapply total_bind; [apply table_upd_total; [done..|by constructor]|].
    intros t [H1 H2]. by apply total_ok, sized_table.
  - eapply total_bind; [by apply spec_store_total|]. intros d Hd. eapply total_bind; [apply table_upd_total; [done..|by constructor]|].
    intros t [H1 H2]. by apply total_ok, sized_table.
  - eapply total_bind; [by apply spec_load_mem_total|]. intros [m q] _. apply total_ok. by destruct Hs.
  - destruct (alloc_ent_ok _ (sz_free _ Hs)) as [He Hf]. destruct (alloc_ent (bucket_free_list s)) as [ent free]. cbn [fst snd] in *.
    assert (Hs1 : sized (s <| bucket_free_list := free |>)) by (by destruct Hs). destruct bugcompat.
    + eapply total_bind; [by apply spec_store_total|]. intros d _. by apply total_ok.
    + eapply total_bind; [by apply spec_store_total|]. intros d Hd. eapply total_bind; [apply table_upd_total; [done..|by constructor]|].
      intros t [H1 H2]. by apply total_ok, sized_table.
Qed.

Lemma tg_access_total cmd t s : sized s -> total sized (tg_access bugcompat cmd t s).
Proof.
  intros Hs. unfold tg_access. cbv zeta. rewrite (sz_mode _ Hs).
  eapply total_bind; [apply spec_mem_access_total; [destruct t; cbn; set_solver|apply length_host_split|done]|].
  intros [s1 p] H. apply total_ok. by destruct H.
Qed.

Lemma tg_GPR_total r s : reg_num r = true -> sized s -> total any (tg_GPR r s).
Proof.
  intros Hr Hs. unfold tg_GPR. eapply total_bind; [apply BITMAP_SET_P_total; [apply Hs|done]|].
  intros [] _; apply z_get_total; done || apply Hs.
Qed.
Lemma tg_FPR_total r s : reg_num r = true -> sized s -> total any (tg_FPR_L r s).
Proof.
  intros Hr Hs. unfold tg_FPR_L. eapply total_bind; [apply BITMAP_SET_P_total; [apply Hs|by apply even_reg_num]|].
  intros [] _; apply z_get_total; done || apply Hs.
Qed.

#[local] Instance tracer_total : TotalMachine (H:=tracer_machine bugcompat) sized.
Proof.
  split.
  1,2: by intros v s [].
  1,2,3: intros v s Hs; cbn; unfold tg_SET_HI, tg_SET_LO, tg_SET_FCC; rewrite (sz_mode _ Hs); by destruct Hs.
  - intros r s. apply tg_GPR_total.
  - intros r s Hr Hs. cbn. unfold tg_MARK_GPR. rewrite (sz_mode _ Hs).
    eapply total_bind; [apply BITMAP_SET_total; [apply Hs|done]|]. intros bm Hb. apply total_ok. by destruct Hs.
  - intros r v s Hr Hs. cbn. unfold tg_SET_GPR. rewrite (sz_mode _ Hs).
    eapply total_bind; [apply z_set_total; [apply Hs|done]|]. intros bm Hb. apply total_ok. by destruct Hs.
  - intros r s. apply tg_FPR_total.
  - intros r s Hr Hs. cbn. unfold tg_MARK_FPR. rewrite (sz_mode _ Hs).
    eapply total_bind; [apply BITMAP_SET_total; [apply Hs|by apply even_reg_num]|]. intros bm Hb. apply total_ok. by destruct Hs.
  - intros r v s Hr Hs. cbn. unfold tg_SET_FPR_L. rewrite (sz_mode _ Hs).
    eapply total_bind; [apply z_set_total; [apply Hs|done]|]. intros bm Hb. apply total_ok. by destruct Hs.
  - intros t a s Hs. change (READ_MEM t a s) with (READ_SPECMEM bugcompat t a s). unfold READ_SPECMEM.
    eapply total_bind; [apply tg_access_total; by destruct Hs|]. intros s1 Hs1. by apply total_ok.
  - intros t v a s Hs. apply tg_access_total. by destruct Hs.
  - intros r v s Hs. cbn. unfold tg_SET_LO. by rewrite (sz_mode _ Hs).
  - intros s Hs. cbn. unfold tg_IFAIL. by rewrite (sz_mode _ Hs).
  - intros a b Hq. cbn. unfold tg_IDIV, c_div. unfold quotient_overflows in Hq. rewrite Hq. destruct (b =? 0); by apply total_ok.
  - intros a b Hq. cbn. unfold tg_IMOD, c_mod. unfold quotient_overflows in Hq. rewrite Hq. destruct (b =? 0); by apply total_ok.
Qed.

(** What ruu_dispatch executes, when it does not refuse a speculative trap. *)
Lemma dispatch_exec_eq {fp : HostFP} inst pc g :
  is_trap inst && spec_mode g = false -> reg_file (regs_R (g_regs g)) -> reg_file (spec_regs_R g) ->
  dispatch_exec bugcompat inst pc g =
  match opcode_of_val (SS_OPCODE inst) with
  | Some OP_NA | None => Ok (NOP, dispatched pc g)
  | Some op => g ← execute env_cfg op inst (dispatched pc g); Ok (op, g)
  end.
Proof.
  intros Ht Hl Hs. unfold dispatch_exec. cbv zeta. unfold is_trap in Ht.
  set (op := opcode_of_val (SS_OPCODE inst)) in *.
  assert (Hp : (match op with Some op => if truth (Z.land (SS_OP_FLAGS op) F_TRAP) && spec_mode g then Panic else Ok tt | None => Ok tt end) = Ok tt).
  { destruct op; [|done]. by rewrite Ht. }
  lazymatch goal with |- context [spec_mode ?x] => change (spec_mode x) with (spec_mode g) end.
  rewrite Hp. clear Hp. cbn [mbind outcome_bind].
  lazymatch goal with |- context [z_set (regs_R ?x) 0 0] => change (regs_R x) with (regs_R (g_regs g)) end.
  rewrite (z_set_some (regs_R (g_regs g))); [|done|rewrite Hl; vm_compute; lia]. cbn [mbind outcome_bind].
  lazymatch goal with |- context [z_set (spec_regs_R ?x) 0 0] => change (spec_regs_R x) with (spec_regs_R g) end.
  rewrite (z_set_some (spec_regs_R g)); [|done|rewrite Hs; vm_compute; lia]. cbn [mbind outcome_bind].
  set (x := set_field g_addr _ _). assert (Hx : x = dispatched pc g) by reflexivity. clearbody x. subst x.
  destruct op as [op|]; [|done]. by destruct op.
Qed.

Lemma sized_dispatched pc s : sized s -> sized (dispatched pc s).
Proof. intros []. by split; try done; unfold reg_file; cbn; rewrite length_insert. Qed.

(** The instruction has ill-formed fields, or divides INT_MIN by -1. *)
Definition undefined_inst (inst : ss_inst) (pc : Z) (s : tracer) : Prop :=
  exists op, opcode_of_val (SS_OPCODE inst) = Some op /\
    (well_encoded op inst = false \/
     op = DIV /\ tg_GPR (RS inst) (dispatched pc s) = Ok (- 2 ^ 31) /\ tg_GPR (RT inst) (dispatched pc s) = Ok (-1)).

Lemma dispatch_total {fp : HostFP} inst pc s :
  sim_swap_words env_cfg = 0 \/ sim_swap_words env_cfg = 1 -> sized s -> is_trap inst = false ->
  total (fun x => sized x.2) (dispatch_exec bugcompat inst pc s) \/ undefined_inst inst pc s.
Proof.
  intros Hw Hs Ht. pose proof (sized_dispatched pc s Hs) as Hd.
  rewrite dispatch_exec_eq; [|by rewrite Ht|apply Hs..]. unfold undefined_inst. unfold is_trap in Ht.
  destruct (opcode_of_val (SS_OPCODE inst)) as [op|]; [|left; by apply total_ok].
  destruct (decide (op = OP_NA)) as [->|Hna]; [left; by apply total_ok|].
  assert (Hsy : op <> SYSCALL) by (by intros ->).
  destruct (well_encoded op inst) eqn:He; [|right; eauto].
  assert (Hm : (match op with OP_NA => Ok (NOP, dispatched pc s) | _ => g ← execute env_cfg op inst (dispatched pc s); Ok (op, g) end)
    = (g ← execute env_cfg op inst (dispatched pc s); Ok (op, g))) by (by destruct op).
  rewrite Hm. clear Hm.
  destruct (execute_total (laws:=tracer_total) env_cfg Hw op inst _ Hna Hsy He Hd) as [Hx|Ho]; [left|right; exists op; eauto].
  eapply total_bind; [exact Hx|]. intros g Hg. by apply total_ok.
Qed.

(** The instructions of a wrong path with their addresses, executed in turn. *)
Fixpoint misspeculate {fp : HostFP} (l : list (ss_inst * Z)) (s : tracer) : outcome tracer :=
  match l with
  | [] => Ok s
  | (inst, pc) :: l' => '(_, s) ← dispatch_exec bugcompat inst pc s; misspeculate l' s
  end.

Lemma misspeculate_total {fp : HostFP} l : forall s,
  sim_swap_words env_cfg = 0 \/ sim_swap_words env_cfg = 1 -> sized s -> Forall (fun i => is_trap i.1 = false) l ->
  total any (misspeculate l s) \/
  exists l1 inst pc l2 s1, l = l1 ++ (inst, pc) :: l2 /\ misspeculate l1 s = Ok s1 /\ undefined_inst inst pc s1.
Proof.
  induction l as [|[inst pc] l IH]; intros s Hw Hs Hl; cbn [misspeculate]; [left; by apply total_ok|].
  apply Forall_cons in Hl as [Ht Hl]. destruct (dispatch_total inst pc s Hw Hs Ht) as [([op s1] & E1 & Hs1)|Hu]; [|by right; exists [], inst, pc, l, s].
  rewrite E1, mbind_ok. destruct (IH s1 Hw Hs1 Hl) as [H|(l1 & i & a & l2 & s2 & -> & H2 & Hu)]; [by left|right].
  exists ((inst, pc) :: l1), i, a, l2, s2. split; [done|]. split; [|done]. cbn [misspeculate]. by rewrite E1, mbind_ok.
Qed.
End Defined.
(** * One mis-speculated instruction *)

Section Speculation.
Context {E : SimEnv}.
Variable bugcompat : bool.
#[local] Existing Instance tracer_machine.
#[local] Hint Extern 0 (Machine tracer) => exact (tracer_machine bugcompat) : typeclass_instances.

(** The state of the mis-speculation mode that started from the registers [r0]
    and the memory and the host [m0]. *)
Record speculating (r0 : regs) (m0 : mem_state * host_trace) (s : tracer) : Prop := {
  sp_mode : spec_mode s = true;
  sp_regs : g_regs s = r0;
  sp_mem : mem_like m0.1 (g_mem s);
  sp_host : g_host s = m0.2;
  sp_int : Forall is_int (regs_R r0);
  sp_spec_int : ints_ok (spec_regs_R s);
  sp_use_R : length (use_spec_R s) = R_BMAP_SZ;
  sp_use_F : length (use_spec_F s) = F_BMAP_SZ;
  sp_table : length (store_htable s) = Z.to_nat STORE_HASH_SIZE;
}.

Lemma spec_store_plain n p data : n ∈ [1; 2; 4; 8] -> plain (spec_store n p data).
Proof.
  intros Hn. unfold spec_store.
  rewrite !elem_of_cons, elem_of_nil in Hn.
  destruct Hn as [-> | [-> | [-> | [-> | []]]]]; cbn [Z.eqb Pos.eqb]; plain_walk.
Qed.

Lemma spec_load_plain n p data : n ∈ [1; 2; 4; 8] -> plain (spec_load n data p).
Proof.
  intros Hn. unfold spec_load.
  rewrite !elem_of_cons, elem_of_nil in Hn.
  destruct Hn as [-> | [-> | [-> | [-> | []]]]]; cbn [Z.eqb Pos.eqb]; plain_walk.
Qed.

(** A valid speculative read does not fault, and leaves the contents of memory. *)
Lemma CHK_MEM_READ_valid n a m :
  bad_align a (Z.of_nat n) = false -> mem_perm env_ld Read a = true ->
  plain (CHK_MEM_READ n a m) /\
  forall w m', CHK_MEM_READ n a m = Ok (w, m') -> mem_like m m'.
Proof.
  intros Ha Hp. unfold CHK_MEM_READ, mem_valid. rewrite Ha, Hp. cbn [negb mbind outcome_bind].
  split; [apply plain_MEM_READ|]. intros w m' H. rewrite (MEM_READ_table _ _ _ _ _ _ H).
  etransitivity; [apply mem_like_track|apply mem_like_tickle].
Qed.

Lemma spec_mem_access_speculating r0 m0 cmd a p n s :
  n ∈ [1; 2; 4] -> speculating r0 m0 s ->
  plain (spec_mem_access bugcompat cmd a p n s) /\
  forall s' p', spec_mem_access bugcompat cmd a p n s = Ok (s', p') -> speculating r0 m0 s' /\ g_temps s' = g_temps s /\ g_addr s' = g_addr s.
Proof.
  intros Hn Hs. assert (Hn8 : n ∈ [1; 2; 4; 8]) by set_solver.
  unfold spec_mem_access. destruct (bad_align a n) eqn:Ha; [split; [done|]; by intros s' p' [= <- <-]|].
  destruct (mem_perm env_ld cmd a) eqn:Hp; cbn [negb]; [|split; [done|]; by intros s' p' [= <- <-]].
  cbv zeta. generalize (HASH_ADDR a). intros idx.
  assert (Hupd : forall f t, c_upd (store_htable s) idx f = Ok t -> length t = length (store_htable s)).
  { intros f t. unfold c_upd. destruct (store_htable s !! idx); [|done]. intros [= <-]. apply length_insert. }
  destruct (c_get (store_htable s) idx) as [chain| | | | | |] eqn:Ec; cbn [mbind outcome_bind];
    try (unfold c_get in Ec; destruct (store_htable s !! idx); done).
  destruct (find_ent a chain) as [[ent rest]|]; destruct cmd.
  - split; [plain_walk; by apply spec_load_plain|]. intros s' p' H.
    apply bind_ok in H as (q & _ & H). apply bind_ok in H as (t & Ht & [= <- <-]).
    destruct Hs. split; [|done]. split; cbn; [done..|]. by rewrite (Hupd _ _ Ht).
  - split; [plain_walk; by apply spec_store_plain|]. intros s' p' H.
    apply bind_ok in H as (q & _ & H). apply bind_ok in H as (t & Ht & [= <- <-]).
    destruct Hs. split; [|done]. split; cbn; [done..|]. by rewrite (Hupd _ _ Ht).
  - unfold spec_load_mem. rewrite !elem_of_cons, elem_of_nil in Hn.
    assert (Hn3 : (n =? 1) || (n =? 2) || (n =? 4) = true) by (destruct Hn as [-> | [-> | [-> | []]]]; done).
    rewrite Hn3. destruct (CHK_MEM_READ_valid (Z.to_nat n) a (g_mem s)) as [Hpl Hby].
    { rewrite Z2Nat.id by (destruct Hn as [-> | [-> | [-> | []]]]; lia). done. } { done. }
    split.
    + apply plain_bind; [|by intros []]. apply plain_bind; [done|]. intros []. plain_walk.
    + intros s' p' H. apply bind_ok in H as ([m q] & H & [= <- <-]). apply bind_ok in H as ([w m1] & Hr & H).
      apply bind_ok in H as (q' & _ & [= <- <-]). pose proof (Hby _ _ Hr) as Hb. destruct Hs.
      split; [|done]. split; cbn; try done. by etransitivity.
  - destruct (alloc_ent (bucket_free_list s)) as [ent free]. destruct bugcompat.
    + split; [plain_walk; by apply spec_store_plain|]. intros s' p' H. apply bind_ok in H as (q & _ & [= <- <-]).
      destruct Hs. done.
    + split; [plain_walk; by apply spec_store_plain|]. intros s' p' H.
      apply bind_ok in H as (q & _ & H). apply bind_ok in H as (t & Ht & [= <- <-]).
      destruct Hs. split; [|done]. split; cbn; [done..|]. by rewrite (Hupd _ _ Ht).
Qed.

(** Two copies of one mis-speculated execution. *)
Definition spec_rel (r0 : regs) (m0 : mem_state * host_trace) (s1 s2 : tracer) : Prop := s1 = s2 /\ speculating r0 m0 s1.

Lemma spec_step r0 m0 (f : tracer -> outcome tracer) s1 s2 :
  spec_rel r0 m0 s1 s2 ->
  (speculating r0 m0 s1 -> plain (f s1) /\ forall s', f s1 = Ok s' -> speculating r0 m0 s') ->
  osim False (spec_rel r0 m0) (f s1) (f s2).
Proof.
  intros [-> Hs] Hf. destruct (Hf Hs) as [Hp Ho]. destruct (f s2) as [s'| | | | | |]; cbn in *; try done.
  exists s'. split; [done|]. split; [done|]. by apply Ho.
Qed.

Lemma spec_read r0 m0 (f : tracer -> outcome Z) s1 s2 :
  spec_rel r0 m0 s1 s2 -> (forall s, plain (f s)) -> osim False eq (f s1) (f s2).
Proof. intros [-> _] Hf. by apply osim_plain. Qed.

Lemma tg_GPR_plain r s : plain (tg_GPR r s).
Proof. unfold tg_GPR. apply plain_bind; [apply plain_BITMAP_SET_P|]. intros []; apply plain_z_get. Qed.
Lemma tg_FPR_plain r s : plain (tg_FPR_L r s).
Proof. unfold tg_FPR_L. apply plain_bind; [apply plain_BITMAP_SET_P|]. intros []; apply plain_z_get. Qed.

Lemma tg_access_speculating r0 m0 cmd t s :
  speculating r0 m0 s -> plain (tg_access bugcompat cmd t s) /\ forall s', tg_access bugcompat cmd t s = Ok s' -> speculating r0 m0 s'.
Proof.
  intros Hs. unfold tg_access. rewrite (sp_mode _ _ _ Hs).
  destruct (spec_mem_access_speculating r0 m0 cmd (g_addr s) (host_split (host_big env_cfg) (temp_size t) (get_temp t (g_temps s)))
    (Z.of_nat (temp_size t)) s) as [Hp Ho]; [destruct t; cbn; set_solver|done|].
  split; [apply plain_bind; [exact Hp|by intros []]|]. intros s' H. apply bind_ok in H as ([s1 p] & H1 & [= <-]).
  destruct (Ho _ _ H1) as [[] _]. by split.
Qed.

#[local] Instance speculation_sim (r0 : regs) (m0 : mem_state * host_trace) :
  MachineSim (M1:=tracer_machine bugcompat) (M2:=tracer_machine bugcompat) False (spec_rel r0 m0).
Proof.
  split.
  - by intros s1 s2 [-> _].
  - intros v s1 s2 [-> []]. split; [done|]. by split.
  - intros v s1 s2 [-> []]. split; [done|]. by split.
  - intros r s1 s2 HR. apply (spec_read r0 m0); [done|apply tg_GPR_plain].
  - intros r s1 s2 HR. apply spec_step; [done|]. intros Hs. cbn. unfold tg_MARK_GPR. rewrite (sp_mode _ _ _ Hs).
    split; [plain_walk|]. intros s' H. apply bind_ok in H as (bm & Hb & [= <-]). destruct Hs. split; cbn; try done.
    by rewrite (BITMAP_SET_length _ _ _ Hb).
  - intros r v s1 s2 HR. apply spec_step; [done|]. intros Hs. cbn. unfold tg_SET_GPR. rewrite (sp_mode _ _ _ Hs).
    split; [plain_walk|]. intros s' H. apply bind_ok in H as (bm & Hb & [= <-]). destruct Hs. split; cbn; try done.
    by eapply ints_ok_set.
  - intros r s1 s2 HR. apply (spec_read r0 m0); [done|apply tg_FPR_plain].
  - intros r s1 s2 HR. apply spec_step; [done|]. intros Hs. cbn. unfold tg_MARK_FPR. rewrite (sp_mode _ _ _ Hs).
    split; [plain_walk|]. intros s' H. apply bind_ok in H as (bm & Hb & [= <-]). destruct Hs. split; cbn; try done.
    by rewrite (BITMAP_SET_length _ _ _ Hb).
  - intros r v s1 s2 HR. apply spec_step; [done|]. intros Hs. cbn. unfold tg_SET_FPR_L. rewrite (sp_mode _ _ _ Hs).
    split; [plain_walk|]. intros s' H. apply bind_ok in H as (bm & Hb & [= <-]). destruct Hs. by split.
  - by intros s1 s2 [-> _].
  - intros v s1 s2 [-> Hs]. split; [done|]. cbn. unfold tg_SET_HI. rewrite (sp_mode _ _ _ Hs). destruct Hs. by split.
  - by intros s1 s2 [-> _].
  - intros v s1 s2 [-> Hs]. split; [done|]. cbn. unfold tg_SET_LO. rewrite (sp_mode _ _ _ Hs). destruct Hs. by split.
  - by intros s1 s2 [-> _].
  - intros v s1 s2 [-> Hs]. split; [done|]. cbn. unfold tg_SET_FCC. rewrite (sp_mode _ _ _ Hs). destruct Hs. by split.
  - intros t a s1 s2 [-> Hs]. change (READ_MEM t a s2) with (READ_SPECMEM bugcompat t a s2). unfold READ_SPECMEM.
    destruct (tg_access_speculating r0 m0 Read t (s2 <| g_addr := a |>)) as [Hp Ho]; [destruct Hs; by split|].
    destruct (tg_access bugcompat Read t _) as [s'| | | | | |]; cbn [mbind outcome_bind]; try done.
    apply osim_ok. split; [done|]. split; [done|]. by apply Ho.
  - intros t v a s1 s2 HR. apply spec_step; [done|]. intros Hs.
    apply (tg_access_speculating r0 m0 Write t (s1 <| g_addr := a |> <| g_temps ::= set_temp t v |>)). destruct Hs. by split.
  - intros r s1 s2 x [-> Hs]. cbn. unfold tg_GPR. intros H. apply bind_ok in H as (b & _ & H).
    destruct Hs. destruct b; eapply z_get_int; [|exact H| |exact H]; [apply sp_spec_int0|]. by rewrite sp_regs0.
  - intros r v s1 s2 [-> Hs]. cbn. unfold tg_SET_LO. by rewrite (sp_mode _ _ _ Hs).
  - intros s1 s2 HR. apply spec_step; [done|]. intros Hs. cbn. unfold tg_IFAIL. rewrite (sp_mode _ _ _ Hs).
    split; [done|]. by intros s' [= <-].
  - intros a b _. apply osim_plain. cbn. unfold tg_IDIV. plain_walk.
  - intros a b _. apply osim_plain. cbn. unfold tg_IMOD. plain_walk.
  - by left.
  - intros s1 s2 s [-> Hs] _. split; [|split; [|done]]; intros; apply osim_plain; cbn; unfold tg_IDIV, tg_IMOD; plain_walk.
Qed.

(** The registers an instruction at [pc] starts from. *)
Definition at_inst (pc : Z) (r : regs) : regs := r <| regs_PC := pc |> <| regs_R ::= <[0%nat := 0]> |>.

Lemma z_set_zero l l' : z_set l 0 0 = Ok l' -> l' = <[0%nat := 0]> l.
Proof. by intros (_ & _ & ->)%z_set_spec. Qed.

Lemma dispatch_speculating {fp : HostFP} inst pc r0 m0 s :
  speculating r0 m0 s -> is_trap inst = false ->
  plain (dispatch_exec bugcompat inst pc s) /\
  forall op s', dispatch_exec bugcompat inst pc s = Ok (op, s') -> speculating (at_inst pc r0) m0 s'.
Proof.
  intros Hs Ht. unfold dispatch_exec. cbv zeta. unfold is_trap in Ht.
  set (op := opcode_of_val (SS_OPCODE inst)) in *.
  assert (Hp : (match op with Some op => if truth (Z.land (SS_OP_FLAGS op) F_TRAP) && spec_mode (set_field g_next_PC
      (fun _ => u32 (pc + SS_INST_SIZE)) (set_field g_regs (set_field regs_PC (fun _ => pc)) s)) then Panic else Ok tt | None => Ok tt end) = Ok tt).
  { destruct op; [|done]. by rewrite Ht. }
  rewrite Hp. clear Hp. cbn [mbind outcome_bind].
  lazymatch goal with |- context [z_set (regs_R ?g) 0 0] => change (regs_R g) with (regs_R (g_regs s)) end.
  destruct (plain_or _ (plain_z_set (regs_R (g_regs s)) 0 0)) as [[R ER]|ER]; rewrite ER; cbn [mbind outcome_bind]; [|by split; [|intros ? ? ?]].
  lazymatch goal with |- context [z_set (spec_regs_R ?g) 0 0] => change (spec_regs_R g) with (spec_regs_R s) end.
  destruct (plain_or _ (plain_z_set (spec_regs_R s) 0 0)) as [[SR ES]|ES]; rewrite ES; cbn [mbind outcome_bind]; [|by split; [|intros ? ? ?]].
  set (s1 := set_field g_addr _ _).
  assert (Hs1 : speculating (at_inst pc r0) m0 s1).
  { destruct Hs. subst r0. split; cbn; try done.
    - by rewrite (z_set_zero _ _ ER).
    - rewrite <- (z_set_zero _ _ ER). exact (z_set_int _ _ _ _ ER sp_int0).
    - exact (ints_ok_set _ _ _ _ ES sp_spec_int0). }
  clearbody s1. clear ER ES. destruct op as [op|].
  - destruct (decide (op = OP_NA)) as [->|Hna]; [split; [done|]; by intros ? ? [= _ <-]|].
    assert (Hsy : op <> SYSCALL) by (by intros ->).
    pose proof (execute_sim (M1:=tracer_machine bugcompat) (M2:=tracer_machine bugcompat) (sim:=speculation_sim (at_inst pc r0) m0)
      env_cfg op inst s1 s1 (fun _ => eq_refl) (fun H => False_ind _ (Hsy H)) Hna (conj eq_refl Hs1)) as Hx.
    assert (Hm : (match op with OP_NA => Ok (NOP, s1) | _ => s' ← execute env_cfg op inst s1; Ok (op, s') end)
      = (s' ← execute env_cfg op inst s1; Ok (op, s'))) by (by destruct op).
    rewrite Hm. destruct (execute env_cfg op inst s1) as [s'| | | | | |]; cbn in *; try done.
    destruct Hx as (s2 & [= <-] & _ & Hx). split; [done|]. by intros ? ? [= _ <-].
  - split; [done|]. by intros ? ? [= _ <-].
Qed.

(** * Runs down a wrong path, and recovery *)

Lemma at_inst_int pc r : Forall is_int (regs_R r) -> Forall is_int (regs_R (at_inst pc r)).
Proof. intros H. apply Forall_insert; [done|]. unfold is_int. lia. Qed.

Lemma at_inst_id pc r : regs_R r !! 0%nat = Some 0 -> at_inst pc r = r <| regs_PC := pc |>.
Proof. intros H. unfold at_inst. destruct r as [R F hi lo fcc p]. cbn in *. by rewrite list_insert_id. Qed.

Lemma misspeculate_speculating {fp : HostFP} l : forall pc r0 m0 s,
  regs_R r0 !! 0%nat = Some 0 -> speculating (r0 <| regs_PC := pc |>) m0 s -> Forall (fun i => is_trap i.1 = false) l ->
  plain (misspeculate bugcompat l s) /\
  forall s', misspeculate bugcompat l s = Ok s' -> exists pc', speculating (r0 <| regs_PC := pc' |>) m0 s'.
Proof.
  induction l as [|[inst pc1] l IH]; intros pc r0 m0 s Hz Hs Hl; cbn [misspeculate].
  - split; [done|]. intros s' [= <-]. by exists pc.
  - apply Forall_cons in Hl as [Ht Hl]. destruct (dispatch_speculating inst pc1 _ m0 s Hs Ht) as [Hp Ho].
    destruct (plain_or _ Hp) as [[[op s1] E1]|E1]; rewrite E1; cbn [mbind outcome_bind]; [|done].
    specialize (Ho _ _ E1). rewrite at_inst_id in Ho by done. by apply (IH pc1).
Qed.

(** The state between mis-speculations: no copy is in use. *)
Record on_path (s : tracer) : Prop := {
  on_mode : spec_mode s = false;
  on_use_R : use_spec_R s = repeat 0 R_BMAP_SZ;
  on_use_F : use_spec_F s = repeat 0 F_BMAP_SZ;
  on_use_HI : use_spec_HI s = false;
  on_use_LO : use_spec_LO s = false;
  on_use_FCC : use_spec_FCC s = false;
  on_table : store_htable s = repeat [] (Z.to_nat STORE_HASH_SIZE);
}.

(** Releasing the chains from [i] on empties them and touches nothing else. *)
Lemma release_chains_spec n : forall i s,
  (i + n <= length (store_htable s))%nat ->
  exists free, release_chains n i s = Ok (s <| bucket_free_list := free |>
    <| store_htable := take i (store_htable s) ++ repeat [] n ++ drop (i + n) (store_htable s) |>).
Proof.
  induction n as [|n IH]; intros i s Hi; cbn [release_chains].
  - exists (bucket_free_list s). cbn [repeat app]. rewrite Nat.add_0_r, take_drop. by destruct s.
  - destruct (lookup_lt_is_Some_2 (store_htable s) i) as [c Hc]; [lia|].
    rewrite (c_get_some _ _ _ Hc). cbn [mbind outcome_bind]. rewrite (c_upd_insert _ _ _ c) by done. cbn [mbind outcome_bind].
    set (s1 := set_field store_htable _ _). destruct (IH (S i) s1) as [free ->].
    { change (store_htable s1) with (<[i:=[]]> (store_htable s)). rewrite length_insert. lia. }
    exists free. change (store_htable s1) with (<[i:=[]]> (store_htable s)).
    rewrite (take_S_r _ i []) by (apply list_lookup_insert_eq; lia).
    rewrite take_insert_ge by lia. rewrite drop_insert_lt by lia.
    rewrite Nat.add_succ_comm, <- app_assoc. cbn [repeat app]. done.
Qed.

Lemma release_all n s :
  length (store_htable s) = n ->
  exists free, release_chains n 0 s = Ok (s <| bucket_free_list := free |> <| store_htable := repeat [] n |>).
Proof.
  intros Hn. destruct (release_chains_spec n 0 s) as [free ->]; [lia|]. exists free.
  cbn [app take Nat.add]. by rewrite drop_ge, app_nil_r by lia.
Qed.

(** The state [tracer_recover] leaves. *)
Definition recovered (free : list spec_mem_ent) (s : tracer) : tracer :=
  s <| spec_mode := false |> <| use_spec_R := repeat 0 R_BMAP_SZ |> <| use_spec_F := repeat 0 F_BMAP_SZ |>
    <| use_spec_HI := false |> <| use_spec_LO := false |> <| use_spec_FCC := false |>
    <| bucket_free_list := free |> <| store_htable := repeat [] (Z.to_nat STORE_HASH_SIZE) |>.

Lemma clear_spec_regs_eq s :
  length (use_spec_R s) = R_BMAP_SZ -> length (use_spec_F s) = F_BMAP_SZ ->
  clear_spec_regs s = Ok (s <| use_spec_R := repeat 0 R_BMAP_SZ |> <| use_spec_F := repeat 0 F_BMAP_SZ |>
    <| use_spec_HI := false |> <| use_spec_LO := false |> <| use_spec_FCC := false |>).
Proof. intros HR HF. unfold clear_spec_regs. by rewrite !clear_map by done. Qed.

#[local] Opaque release_chains clear_spec_regs.

Lemma tracer_recover_eq r0 m0 s f :
  speculating r0 m0 s ->
  exists free, tracer_recover s f = Ok (recovered free s, f <| fetch_num := 0 |> <| fetch_tail := 0 |> <| fetch_head := 0 |>
      <| fetch_regs_PC := recover_PC f |> <| fetch_pred_PC := recover_PC f |>).
Proof.
  intros Hs. unfold tracer_recover. rewrite (sp_mode _ _ _ Hs).
  lazymatch goal with |- exists free, (if negb true then _ else ?b) = _ => change (exists free, b = Ok (recovered free s, f <| fetch_num := 0 |> <| fetch_tail := 0 |> <| fetch_head := 0 |>
      <| fetch_regs_PC := recover_PC f |> <| fetch_pred_PC := recover_PC f |>)) end.
  rewrite clear_spec_regs_eq; [|exact (sp_use_R _ _ _ Hs)|exact (sp_use_F _ _ _ Hs)]. rewrite mbind_ok.
  match goal with |- context [release_chains _ _ ?x] => destruct (release_all (Z.to_nat STORE_HASH_SIZE) x) as [free Hr] end;
    [exact (sp_table _ _ _ Hs)|].
  rewrite Hr, mbind_ok. exists free. reflexivity.
Qed.

Lemma recovered_spec r0 m0 free s :
  speculating r0 m0 s ->
  on_path (recovered free s) /\ g_regs (recovered free s) = r0 /\ mem_like m0.1 (g_mem (recovered free s))
  /\ g_host (recovered free s) = m0.2.
Proof. intros []. split; [split; reflexivity|done]. Qed.
Lemma on_path_speculating s :
  on_path s -> regs_ok (g_regs s) -> ints_ok (spec_regs_R s) ->
  speculating ((g_regs s) <| regs_PC := regs_PC (g_regs s) |>) (g_mem s, g_host s) (s <| spec_mode := true |>).
Proof.
  intros Hp Hr Hi. split; try done; cbn.
  - by destruct (g_regs s).
  - apply Hr.
  - by rewrite (on_use_R _ Hp).
  - by rewrite (on_use_F _ Hp).
  - by rewrite (on_table _ Hp), repeat_length.
Qed.

(** The registers a clean state shows are the architected ones. *)
Lemma on_path_GPR s r : on_path s -> tg_GPR r s = (if (r <? 0) || (32 <=? r) then Undef else z_get (regs_R (g_regs s)) r).
Proof.
  intros Hp. unfold tg_GPR. rewrite (on_use_R _ Hp). unfold BITMAP_SET_P. destruct (Z.ltb_spec r 0); [done|]. cbn [orb].
  unfold bit_word. rewrite Z.quot_div_nonneg by lia. destruct (Z.leb_spec 32 r).
  - unfold c_get. rewrite lookup_ge_None_2; [done|]. rewrite repeat_length. change R_BMAP_SZ with 1%nat.
    assert (1 <= r / 32) by (apply Z.div_le_lower_bound; lia). lia.
  - rewrite Z.div_small by lia. done.
Qed.

Lemma even_reg_range r : 0 <= r -> 0 <= even_reg r <= r /\ (32 <= r -> 32 <= even_reg r).
Proof. intros Hr. rewrite even_reg_spec by done. Z.to_euclidean_division_equations. lia. Qed.

Lemma even_reg_neg r : r < 0 -> even_reg r < 0.
Proof. intros Hr. unfold even_reg. by apply Z.land_neg. Qed.

Lemma on_path_FPR s r : on_path s -> tg_FPR_L r s = (if (r <? 0) || (32 <=? r) then Undef else z_get (regs_F (g_regs s)) r).
Proof.
  intros Hp. unfold tg_FPR_L. rewrite (on_use_F _ Hp). unfold BITMAP_SET_P. destruct (Z.ltb_spec r 0) as [Hn|Hn].
  - pose proof (even_reg_neg r Hn). by replace (even_reg r <? 0) with true by blia.
  - destruct (even_reg_range r Hn) as [He1 He2]. replace (even_reg r <? 0) with false by blia. cbn [orb].
    unfold bit_word. rewrite Z.quot_div_nonneg by lia. destruct (Z.leb_spec 32 r).
    + assert (32 <= even_reg r) by auto.
      unfold c_get. rewrite lookup_ge_None_2; [done|]. rewrite repeat_length. change F_BMAP_SZ with 1%nat.
      assert (1 <= even_reg r / 32) by (apply Z.div_le_lower_bound; lia). lia.
    + rewrite Z.div_small by lia. done.
Qed.
End Speculation.

Lemma on_path_sized s :
  on_path s -> regs_ok (g_regs s) -> ints_ok (spec_regs_R s) -> reg_file (spec_regs_F s) -> Forall bucket_ok (bucket_free_list s) ->
  sized (s <| spec_mode := true |>).
Proof.
  intros [] [] [] HF Hb. split; try done; cbn.
  - by rewrite on_use_R0.
  - by rewrite on_use_F0.
  - by rewrite on_table0, repeat_length.
  - rewrite on_table0. apply Forall_forall. intros c Hc. apply list_elem_of_In, repeat_spec in Hc. by subst c.
Qed.

(** C3: Mis-speculation leaves no trace.  Whatever instructions other than traps are
    executed past a mispredicted branch, faults are ignored (divisions by zero,
    unaligned and protected accesses, overflows), and the wrong path is executed to its
    end, unless it comes to an instruction whose fields name no register, or to a DIV
    of INT_MIN by -1, which C does not define: the guard of IDIV and IMOD tests for a
    zero divisor only.  After tracer_recover every register (of $r0 to $r31, $f0 to
    $f31, HI, LO and FCC) reads as before, every byte of memory is unchanged, no system
    call has been made, no speculative copy is in use, and fetch restarts, with an empty
    queue, at recover_PC. *)
Theorem misspeculation_leaves_no_trace {E : SimEnv} {fp : HostFP} (bugcompat : bool) (l : list (ss_inst * Z)) (s : tracer) (f : fetch_vars) :
  on_path s -> regs_ok (g_regs s) -> regs_R (g_regs s) !! 0%nat = Some 0 -> ints_ok (spec_regs_R s) ->
  length (spec_regs_F s) = Z.to_nat SS_NUM_REGS -> Forall (fun e => length (ent_data e) = 8%nat) (bucket_free_list s) ->
  sim_swap_words env_cfg = 0 \/ sim_swap_words env_cfg = 1 ->
  Forall (fun i => is_trap i.1 = false) l ->
  match misspeculate bugcompat l (s <| spec_mode := true |>) with
  | Ok s1 => exists s2 f', tracer_recover s1 f = Ok (s2, f') /\ on_path s2 /\
      (forall r, tg_GPR r s2 = tg_GPR r s) /\ (forall r, tg_FPR_L r s2 = tg_FPR_L r s) /\
      tg_HI s2 = tg_HI s /\ tg_LO s2 = tg_LO s /\ tg_FCC s2 = tg_FCC s /\ same_bytes (g_mem s) (g_mem s2) /\ g_host s2 = g_host s /\
      fetch_num f' = 0 /\ fetch_regs_PC f' = recover_PC f /\ fetch_pred_PC f' = recover_PC f
  | Undef => exists l1 inst pc l2 s1 op, l = l1 ++ (inst, pc) :: l2 /\
      misspeculate bugcompat l1 (s <| spec_mode := true |>) = Ok s1 /\ opcode_of_val (SS_OPCODE inst) = Some op /\
      (well_encoded op inst = false \/
       op = DIV /\ tg_GPR (RS inst) (dispatched pc s1) = Ok (- 2 ^ 31) /\ tg_GPR (RT inst) (dispatched pc s1) = Ok (-1))
  | _ => False
  end.
Proof.
  intros Hp Hr Hz Hi HF Hb Hw Hl. pose proof (on_path_speculating s Hp Hr Hi) as Hs.
  destruct (misspeculate_speculating bugcompat l _ _ _ _ Hz Hs Hl) as [Hpl Ho].
  destruct (plain_or _ Hpl) as [[s1 E1]|E1]; rewrite E1.
  2: { destruct (misspeculate_total bugcompat l _ Hw (on_path_sized s Hp Hr Hi HF Hb) Hl) as [(a & Ha & _)|Hu]; [by rewrite Ha in E1|].
    destruct Hu as (l1 & inst & pc & l2 & s1 & Hl1 & H1 & op & Hu). by exists l1, inst, pc, l2, s1, op. }
  destruct (Ho _ E1) as [pc' Hs1]. destruct (tracer_recover_eq _ _ _ f Hs1) as [free Hrec].
  destruct (recovered_spec _ _ free _ Hs1) as (Hp2 & Hg2 & Hm2%mem_like_bytes & Hh2).
  eexists _, _. split; [exact Hrec|]. generalize dependent (recovered free s1). intros s2 _ Hp2 Hg2 Hm2 Hh2.
  split; [done|]. split; [intros r; rewrite !on_path_GPR by done; by rewrite Hg2|].
  split; [intros r; rewrite !on_path_FPR by done; by rewrite Hg2|].
  unfold tg_HI, tg_LO, tg_FCC. rewrite (on_use_HI _ Hp), (on_use_HI _ Hp2), (on_use_LO _ Hp), (on_use_LO _ Hp2),
    (on_use_FCC _ Hp), (on_use_FCC _ Hp2), Hg2. done.
Qed.

(** A state on the right path, and a wrong path that writes a register and
    memory and reads memory back. *)
Definition example_tracer : tracer :=
  mk_tracer (mk_regs (0 :: 0x10000000 :: repeat 5 30) (repeat 0 32) 0 0 0 0x400000) example_mem 0 0 0
    (mk_temps 0 0 0 0 0) false (repeat 0 R_BMAP_SZ) (repeat 0 32) (repeat 0 F_BMAP_SZ) (repeat 0 32)
    false 0 false 0 false 0 (repeat [] (Z.to_nat STORE_HASH_SIZE)) [] [].
Definition example_path : list (ss_inst * Z) :=
  [(asm LUI 0 1 0x1000, 0x400000); (asm SW 1 1 4, 0x400008); (asm LW 1 3 4, 0x400010); (asm DIV 3 0 0, 0x400018); (asm MULT 3 3 0, 0x400020)].
Definition example_fetch : fetch_vars := mk_fetch 2 1 3 0x400020 0x400028 0x400100.

Lemma example_on_path : on_path example_tracer.
Proof. split; reflexivity. Qed.

Lemma example_spec_ints : ints_ok (repeat 0 32).
Proof. split; [|reflexivity]. apply (bool_decide_unpack _). vm_compute. exact I. Qed.

Lemma example_path_defined :
  succeeds (@misspeculate example_env false no_fp example_path (example_tracer <| spec_mode := true |>)) = true.
Proof. vm_compute. reflexivity. Qed.

Lemma misspeculation_leaves_no_trace_witness :
  exists s1 s2 f', @misspeculate example_env false no_fp example_path (example_tracer <| spec_mode := true |>) = Ok s1 /\
      tracer_recover s1 example_fetch = Ok (s2, f') /\ on_path s2 /\
      (forall r, tg_GPR r s2 = tg_GPR r example_tracer) /\ (forall r, tg_FPR_L r s2 = tg_FPR_L r example_tracer) /\
      tg_HI s2 = tg_HI example_tracer /\ tg_LO s2 = tg_LO example_tracer /\ tg_FCC s2 = tg_FCC example_tracer /\
      same_bytes (g_mem example_tracer) (g_mem s2) /\ g_host s2 = g_host example_tracer /\
      fetch_num f' = 0 /\ fetch_regs_PC f' = recover_PC example_fetch /\ fetch_pred_PC f' = recover_PC example_fetch.
Proof.
  assert (Hr : regs_ok (g_regs example_tracer)) by (split; [reflexivity|reflexivity|]; apply (bool_decide_unpack _); vm_compute; exact I).
  assert (Ht : Forall (fun i => is_trap i.1 = false) example_path) by (apply (bool_decide_unpack _); vm_compute; exact I).
  pose proof example_path_defined as Hd.
  pose proof (@misspeculation_leaves_no_trace example_env no_fp false example_path example_tracer example_fetch
    example_on_path Hr eq_refl example_spec_ints eq_refl (Forall_nil_2 _) (or_introl eq_refl) Ht) as H.
  destruct (@misspeculate example_env false no_fp example_path _) as [s1| | | | | |]; try discriminate Hd.
  destruct H as (s2 & f' & H). exists s1, s2, f'. split; [reflexivity|exact H].
Defined.

(** A division by zero does not stop the wrong path, one of INT_MIN by -1 does. *)
Lemma spec_division_by_zero :
  (s ← @misspeculate example_env false no_fp [(asm DIV 2 0 0, 0x400000)] (example_tracer <| spec_mode := true |>);
   Ok (tg_LO s, tg_HI s)) = Ok (0, 0).
Proof. vm_compute. reflexivity. Qed.

Lemma spec_division_traps :
  @misspeculate example_env false no_fp [(asm LUI 0 1 0x8000, 0x400000); (asm ADDIU 0 2 0xffff, 0x400008); (asm DIV 1 2 0, 0x400010)]
    (example_tracer <| spec_mode := true |>) = Undef.
Proof. vm_compute. reflexivity. Qed.

(** The wrong path of the example runs: its store is buffered, its load sees it,
    and its product is in the speculative HI. *)
Lemma example_path_runs :
  (s ← @misspeculate example_env false no_fp example_path (example_tracer <| spec_mode := true |>);
   Ok (tg_HI s, regs_HI (g_regs s), succeeds (tg_GPR 3 s), length (concat (store_htable s)))) =
  Ok (2 ^ 24, 0, true, 1%nat).
Proof. vm_compute. reflexivity. Qed.

(** SET_GPR marks the register before it evaluates the expression: the first
    [addiu r2,r2,1] of a wrong path adds to what the copy of r2 last held, here
    0, and not to r2, here 5.  On the right path r2 becomes 6. *)
Lemma spec_reads_stale_copy :
  (s ← @misspeculate example_env false no_fp [(asm ADDIU 2 2 1, 0x400000)] (example_tracer <| spec_mode := true |>); tg_GPR 2 s) = Ok 1 /\
  ('(_, s) ← @dispatch_exec example_env false no_fp (asm ADDIU 2 2 1) 0x400000 example_tracer; tg_GPR 2 s) = Ok 6.
Proof. split; vm_compute; reflexivity. Qed.

(** Writing one half of a floating-point pair marks both: after [mtc1] to $f2 the
    wrong path reads a stale $f3. *)
Definition example_fp_tracer : tracer :=
  example_tracer <| g_regs ::= set_field regs_F (fun _ => repeat 7 32) |>.
Lemma spec_reads_stale_half :
  (s ← @misspeculate example_env false no_fp [(asm MTC1 2 4 0, 0x400000)] (example_fp_tracer <| spec_mode := true |>); tg_FPR_L 3 s) = Ok 0 /\
  tg_FPR_L 3 example_fp_tracer = Ok 7.
Proof. split; vm_compute; reflexivity. Qed.

(** * The right path *)

Lemma MEM_READ_combine hb n a m w m' :
  MEM_READ hb n a m = Ok (w, m') -> pages_ok m -> host_combine hb (host_split hb n w) = w.
Proof.
  unfold MEM_READ, unchk_read. cbv zeta. intros H Hm. apply bind_ok in H as (bs & Hb & [= <- <-]).
  pose proof (pages_ok_tickle a m Hm) as Ht.
  destruct (mem_table (mem_tickle a m) !! MEM_BLOCK a) as [pg|] eqn:Ep; cbn [deref mbind outcome_bind] in Hb; [|done].
  destruct (_ <=? _); [|done]. injection Hb as Hb. assert (Hl : n = length bs) by (by rewrite <- Hb, length_map, length_seq).
  rewrite Hl, host_split_combine; [done|]. rewrite <- Hb. apply Forall_forall. intros b Hi.
  apply list_elem_of_In, in_map_iff in Hi as (i & <- & _). unfold page_get.
  destruct (pg !! _) eqn:Eo; cbn; [by eapply Ht|]. unfold is_byte. lia.
Qed.

(** mem_access through a buffer of its size is the checked access of sim-safe. *)
Lemma mem_access_read hb ld t a buf m w m' :
  length buf = temp_size t -> bad_align a (Z.of_nat (temp_size t)) = false -> mem_perm ld Read a = true ->
  MEM_READ hb (temp_size t) a (track_stack_min a m) = Ok (w, m') ->
  mem_access hb ld Read a buf 0 (Z.of_nat (temp_size t)) m = Ok (m', host_split hb (temp_size t) w).
Proof.
  intros Hl Ha Hp HR. unfold mem_access. rewrite Ha, Hp. cbn [fatal_if negb mbind outcome_bind].
  assert (Hx : mem_xfer hb Read (temp_size t) a buf 0 (track_stack_min a m) = Ok (m', host_split hb (temp_size t) w)).
  { unfold mem_xfer. rewrite HR. cbn [mbind outcome_bind]. unfold buf_put.
    rewrite length_host_split, Hl, Nat.leb_refl. cbn [Nat.add mbind outcome_bind take app].
    by rewrite drop_ge, app_nil_r by lia. }
  destruct t; exact Hx.
Qed.

Lemma mem_access_write hb ld t a v m m' :
  bad_align a (Z.of_nat (temp_size t)) = false -> mem_perm ld Write a = true ->
  MEM_WRITE hb (temp_size t) a v (track_stack_min a m) = Ok m' ->
  mem_access hb ld Write a (host_split hb (temp_size t) v) 0 (Z.of_nat (temp_size t)) m = Ok (m', host_split hb (temp_size t) v).
Proof.
  intros Ha Hp HW. unfold mem_access. rewrite Ha, Hp. cbn [fatal_if negb mbind outcome_bind].
  assert (Hx : mem_xfer hb Write (temp_size t) a (host_split hb (temp_size t) v) 0 (track_stack_min a m) = Ok (m', host_split hb (temp_size t) v)).
  { unfold mem_xfer, buf_get. rewrite length_host_split, Nat.leb_refl. cbn [Nat.add mbind outcome_bind].
    rewrite drop_0, take_ge by (rewrite length_host_split; lia).
    unfold MEM_WRITE in *. rewrite <- (length_host_split hb (temp_size t) v) at 1.
    rewrite host_split_combine by apply host_split_bytes. by rewrite HW. }
  destruct t; exact Hx.
Qed.

Section RightPath.
Context {E : SimEnv} {L : SyscallLaws}.
Variable bugcompat : bool.
#[local] Hint Extern 0 (Machine tracer) => exact (tracer_machine bugcompat) : typeclass_instances.

Record safe_tracer (s : safe_state) (g : tracer) : Prop := {
  st_regs : s_regs s = g_regs g;
  st_next : s_next_PC s = g_next_PC g;
  st_addr : s_addr s = g_addr g;
  st_mem : mem_like (s_mem s) (g_mem g);
  st_path : on_path g;
  st_ok : regs_ok (s_regs s);
  st_pages : pages_ok (s_mem s);
  st_spec : ints_ok (spec_regs_R g);
  st_host : s_host s = g_host g;
}.

Lemma get_set_temp t v x : get_temp t (set_temp t v x) = v.
Proof. by destruct t. Qed.

Lemma z_get_range l r v : z_get l r = Ok v -> length l = Z.to_nat SS_NUM_REGS -> (r <? 0) || (32 <=? r) = false.
Proof.
  intros [H0 H]%z_get_spec Hl. apply lookup_lt_Some in H. rewrite Hl in H. unfold SS_NUM_REGS in H.
  apply orb_false_iff. rewrite Z.ltb_ge, Z.leb_gt. lia.
Qed.

#[local] Instance right_path_sim : MachineSim (M2:=tracer_machine bugcompat) True safe_tracer.
Proof.
  split.
  - intros s g []. cbn. congruence.
  - intros v s g [? ? ? ? [] ? ? ? ?]. by split; [..|split| | | |].
  - intros v s g [? ? ? ? [] ? ? ? ?]. by split; [..|split| | | |].
  - intros r s g []. apply osim_self. intros v Hv. cbn in Hv |- *. unfold safe_GPR in Hv.
    rewrite on_path_GPR by done. rewrite (z_get_range _ _ _ Hv (regs_R_len _ st_ok0)), <- st_regs0. eauto.
  - intros r s g HR. cbn. unfold tg_MARK_GPR. rewrite (on_mode _ (st_path _ _ HR)). by exists g.
  - intros r v s g [Hr Hn Ha Hm Hp Hi Hpg Hsp Hh]. cbn. unfold safe_SET_GPR, tg_SET_GPR. rewrite (on_mode _ Hp), <- Hr. apply osim_self.
    intros s' H. apply bind_ok in H as (R & HR & [= <-]). rewrite HR. eexists. split; [done|].
    destruct Hp. split; cbn; [by rewrite Hr|done|done|done|by split|by eapply regs_ok_R|done|done|done].
  - intros r s g []. apply osim_self. intros v Hv. cbn in Hv |- *. unfold safe_FPR_L in Hv.
    rewrite on_path_FPR by done. rewrite (z_get_range _ _ _ Hv (regs_F_len _ st_ok0)), <- st_regs0. eauto.
  - intros r s g HR. cbn. unfold tg_MARK_FPR. rewrite (on_mode _ (st_path _ _ HR)). by exists g.
  - intros r v s g [Hr Hn Ha Hm Hp Hi Hpg Hsp Hh]. cbn. unfold safe_SET_FPR_L, tg_SET_FPR_L. rewrite (on_mode _ Hp), <- Hr. apply osim_self.
    intros s' H. apply bind_ok in H as (R & HR & [= <-]). rewrite HR. eexists. split; [done|].
    destruct Hp. split; cbn; [by rewrite Hr|done|done|done|by split|by eapply regs_ok_F|done|done|done].
  - intros s g []. cbn. unfold tg_HI. rewrite (on_use_HI _ st_path0). congruence.
  - intros v s g [Hr Hn Ha Hm Hp [] Hpg Hsp Hh]. cbn. unfold tg_SET_HI. rewrite (on_mode _ Hp). destruct Hp.
    split; cbn; [by rewrite Hr|done|done|done|by split|by split|done|done|done].
  - intros s g []. cbn. unfold tg_LO. rewrite (on_use_LO _ st_path0). congruence.
  - intros v s g [Hr Hn Ha Hm Hp [] Hpg Hsp Hh]. cbn. unfold tg_SET_LO. rewrite (on_mode _ Hp). destruct Hp.
    split; cbn; [by rewrite Hr|done|done|done|by split|by split|done|done|done].
  - intros s g []. cbn. unfold tg_FCC. rewrite (on_use_FCC _ st_path0). congruence.
  - intros v s g [Hr Hn Ha Hm Hp [] Hpg Hsp Hh]. cbn. unfold tg_SET_FCC. rewrite (on_mode _ Hp). destruct Hp.
    split; cbn; [by rewrite Hr|done|done|done|by split|by split|done|done|done].
  - intros t a s g [Hr Hn Ha Hm Hp Hi Hpg Hsp Hh]. apply osim_self. intros [v s'] H.
    apply safe_READ_ok in H as (Hal & Hpe & m & HR & ->).
    change (READ_MEM t a g) with (READ_SPECMEM bugcompat t a g). unfold READ_SPECMEM, tg_access. cbv zeta.
    change (spec_mode (set_field g_addr _ g)) with (spec_mode g). rewrite (on_mode _ Hp).
    change (g_mem (set_field g_addr _ g)) with (g_mem g).
    destruct (MEM_READ_like _ _ _ _ (track_stack_min a (g_mem g)) _ _ HR) as [HR2 Hm2].
    { rewrite <- (mem_like_track a (s_mem s)), Hm. apply mem_like_track. }
    rewrite (mem_access_read _ _ t a _ _ v _) by (rewrite ?length_host_split; done). cbn [mbind outcome_bind].
    rewrite (MEM_READ_combine _ _ _ _ _ _ HR) by (by apply pages_ok_track). eexists. split; [done|].
    split; [cbn; by rewrite get_set_temp|]. destruct Hp. split; cbn; try done.
    rewrite (MEM_READ_table _ _ _ _ _ _ HR). by apply pages_ok_tickle, pages_ok_track.
  - intros t v a s g [Hr Hn Ha Hm Hp Hi Hpg Hsp Hh]. apply osim_self. intros s' H.
    apply safe_WRITE_ok in H as (Hal & Hpe & m & HR & ->).
    change (WRITE_MEM t v a g) with (WRITE_SPECMEM bugcompat t v a g). unfold WRITE_SPECMEM, tg_access. cbv zeta.
    match goal with |- context [spec_mode ?x] => change (spec_mode x) with (spec_mode g); change (g_mem x) with (g_mem g);
      change (get_temp t (g_temps x)) with (get_temp t (set_temp t v (g_temps g))) end.
    destruct (MEM_WRITE_like _ _ _ _ _ (track_stack_min a (g_mem g)) _ HR) as (m2 & HR2 & Hm2).
    { rewrite <- (mem_like_track a (s_mem s)), Hm. apply mem_like_track. }
    rewrite (on_mode _ Hp), get_set_temp, (mem_access_write _ _ t a v _ m2) by done. cbn [mbind outcome_bind].
    eexists. split; [done|]. destruct Hp. split; cbn; try done. by eapply pages_ok_write, pages_ok_track.
  - intros r s g x []. cbn. unfold safe_GPR. apply z_get_int, st_ok0.
  - done.
  - done.
  - intros a b Hb. cbn. unfold tg_IDIV. replace (b =? 0) with false by blia. apply osim_refl.
  - intros a b Hb. cbn. unfold tg_IMOD. replace (b =? 0) with false by blia. apply osim_refl.
  - right. intros r s g HR. cbn. split; [done|]. unfold tg_MARK_FPR. by rewrite (on_mode _ (st_path _ _ HR)).
  - done.
Qed.
Lemma safe_tracer_syscall inst s g :
  safe_tracer s g -> osim True safe_tracer (do_syscall inst s) (tg_SYSCALL inst g).
Proof.
  intros [Hr Hn Ha Hm Hp Hi Hpg Hsp Hh]. cbn. unfold safe_SYSCALL, tg_SYSCALL. rewrite (on_mode _ Hp), <- Hr, <- Hh. apply osim_self.
  intros s' H. apply bind_ok in H as ([[r m] h] & Hs & [= <-]). destruct (syscall_like _ _ _ _ _ _ _ _ Hs Hm) as (m2 & -> & Hm2).
  eexists. split; [done|].
  destruct (syscall_ok _ _ _ _ _ _ _ Hs Hi Hpg). destruct Hp. split; cbn; try done; by split.
Qed.

(** The states of the two simulators between instructions: $r0 is cleared before
    the next one, which has its own PC. *)
Record same_arch (s : safe_state) (g : tracer) : Prop := {
  sa_regs : at_inst 0 (s_regs s) = at_inst 0 (g_regs g);
  sa_next : s_next_PC s = u32 (regs_PC (s_regs s) + SS_INST_SIZE);
  sa_mem : mem_like (s_mem s) (g_mem g);
  sa_path : on_path g;
  sa_ok : regs_ok (s_regs s);
  sa_gok : regs_ok (g_regs g);
  sa_pages : pages_ok (s_mem s);
  sa_spec : ints_ok (spec_regs_R g);
  sa_host : s_host s = g_host g;
}.

Lemma dispatch_exec_on_path {fp : HostFP} inst pc op g :
  on_path g -> length (regs_R (g_regs g)) = Z.to_nat SS_NUM_REGS -> length (spec_regs_R g) = Z.to_nat SS_NUM_REGS ->
  opcode_of_val (SS_OPCODE inst) = Some op -> op <> OP_NA ->
  dispatch_exec bugcompat inst pc g = (g ← execute env_cfg op inst (dispatched pc g); Ok (op, g)).
Proof.
  intros Hp Hl Hs Hop Hna. rewrite dispatch_exec_eq; [|by rewrite (on_mode _ Hp), andb_false_r|done..].
  rewrite Hop. by destruct op.
Qed.

Lemma right_path_step {fp : HostFP} inst op s s' g :
  same_arch s g -> fetch_inst (regs_PC (s_regs s)) (s_mem s) = Ok inst ->
  opcode_of_val (SS_OPCODE inst) = Some op -> op <> CVT_W_S -> op <> CVT_W_D ->
  sim_safe_step s = Ok s' ->
  exists g', dispatch_exec bugcompat inst (regs_PC (s_regs s)) g = Ok (op, g') /\ same_arch s' g' /\
    g_next_PC g' = regs_PC (s_regs s') /\ g_addr g' = s_addr s'.
Proof.
  intros [Hr Hn Hm Hp Hok Hgok Hpg Hsp Hh] Hi Hop Hc1 Hc2 H. unfold sim_safe_step in H. apply bind_ok in H as (s1 & H1 & H).
  unfold safe_SET_GPR in H1. apply bind_ok in H1 as (R & HR & [= <-]).
  apply bind_ok in H as (inst' & Hi' & H). cbn in Hi'. rewrite Hi in Hi'. injection Hi' as <-.
  rewrite Hop in H. cbn [mbind outcome_bind] in H. apply bind_ok in H as (s2 & Hs2 & H).
  destruct (decide (op = OP_NA)) as [->|Hna]; [done|].
  set (s1 := set_field s_is_write _ _) in Hs2.
  rewrite (dispatch_exec_on_path _ _ op); [|done|apply (regs_R_len _ Hgok)|apply Hsp|done|done].
  assert (HR1 : safe_tracer s1 (dispatched (regs_PC (s_regs s)) g)).
  { pose proof (regs_ok_R _ _ _ _ Hok HR) as Hok1. apply z_set_spec in HR as (_ & _ & ->). destruct Hp.
    split; cbn; try done; [|destruct Hsp; split; [by apply Forall_insert|by rewrite length_insert]].
    injection Hr as e1 e2 e3 e4 e5. change (Z.to_nat 0) with 0%nat. change (s32 0) with 0. by rewrite e1, e2, e3, e4, e5. }
  pose proof (execute_sim (M1:=safe_machine) (M2:=tracer_machine bugcompat) (sim:=right_path_sim) env_cfg op inst s1 _
    (fun Hc => match Hc with or_introl e => False_ind _ (Hc1 e) | or_intror e => False_ind _ (Hc2 e) end)
    (fun _ => safe_tracer_syscall inst _ _ HR1) Hna HR1) as Hsim.
  destruct (osim_inv _ _ _ _ _ Hsim Hs2) as (g2 & Hg2 & HR2). rewrite Hg2. cbn [mbind outcome_bind].
  exists g2. split; [done|]. injection H as <-. destruct HR2 as [Hr2 Hn2 Ha2 Hm2 Hp2 [] Hpg2 Hsp2 Hh2].
  destruct (truth _); (split; [split|split]; cbn; try done; by rewrite <- Hr2).
Qed.
End RightPath.

(** C4: On the right path the trace generator of sim-outorder refines sim-safe: from
    the same architected state, an instruction that sim-safe executes without a fault
    (conversions to int apart, they differ on a NaN) is executed by ruu_dispatch with
    the same registers, memory, effective address and next PC, and the two states
    correspond again. *)
Theorem right_path_refines_sim_safe {E : SimEnv} {L : SyscallLaws} {fp : HostFP} (bugcompat : bool)
    (inst : ss_inst) (op : ss_opcode) (s s' : safe_state) (g : tracer) :
  same_arch s g -> fetch_inst (regs_PC (s_regs s)) (s_mem s) = Ok inst ->
  opcode_of_val (SS_OPCODE inst) = Some op -> op <> CVT_W_S -> op <> CVT_W_D ->
  sim_safe_step s = Ok s' ->
  exists g', dispatch_exec bugcompat inst (regs_PC (s_regs s)) g = Ok (op, g') /\ same_arch s' g' /\
    g_next_PC g' = regs_PC (s_regs s') /\ g_addr g' = s_addr s'.
Proof. apply right_path_step. Qed.

Definition example_right_tracer : tracer := example_tracer <| g_regs := example_regs |>.

Lemma right_path_refines_sim_safe_witness :
  match sim_safe_step example_safe with
  | Ok s' => exists g', dispatch_exec false (asm ADDIU 1 1 1) 0x400000 example_right_tracer = Ok (ADDIU, g') /\ same_arch s' g' /\
      g_next_PC g' = regs_PC (s_regs s') /\ g_addr g' = s_addr s'
  | _ => False
  end.
Proof.
  destruct (sim_safe_step example_safe) as [s'| | | | | |] eqn:Hs; [|vm_compute in Hs; discriminate Hs..].
  refine (right_path_refines_sim_safe false (asm ADDIU 1 1 1) ADDIU example_safe s' example_right_tracer _ _ _ _ _ Hs).
  - split; [reflexivity|reflexivity|reflexivity|split; reflexivity|exact example_regs_ok|exact example_regs_ok|exact example_pages_ok|exact example_spec_ints|reflexivity].
  - vm_compute. reflexivity.
  - reflexivity.
  - discriminate.
  - discriminate.
Defined.
