(* ===== verification/Ruu.v ===== *)
(** sim-outorder.c: the instruction window of the pipeline: the register update
    unit and the load/store queue, the links that connect their stations, the
    event queue, the ready queue and the create vector.

    A pointer to a station is an [sref], an index into RUU or LSQ.  The lists of
    RS_links never share a node: each is a Rocq list of the contents of its
    nodes, and the free list, whose nodes hold nothing that is read, is its
    length.  A link is valid while its tag is that of its station.  The sizes
    RUU_size and LSQ_size are the lengths of the arrays.  Pipetracing is
    inactive, the dump functions print. *)

From S2P Require Import Prelude Misc Isa Bitmap Bpred.

(** The registers that instructions depend on: [NA] is none. *)
Definition NA : Z := 0.
Definition SS_TOTAL_REGS : Z := 32 + 32 + 1 + 1 + 1 + 1 + 1 + 1.
Definition MAX_IDEPS : nat := 3.
Definition MAX_ODEPS : nat := 2.

(** A pointer to a station. *)
Inductive sref := RUU_ref (i : nat) | LSQ_ref (i : nat).

#[global] Instance sref_eq_dec : EqDecision sref.
Proof. solve_decision. Defined.

(** [struct RS_link]: the union [x] holds a time, a sequence number or an
    operand number. *)
Record RS_link := mk_link { l_rs : sref; l_tag : Z; l_x : Z }.

#[global] Instance RS_link_eq_dec : EqDecision RS_link.
Proof. solve_decision. Defined.

(** [struct RUU_station]. *)
Record RUU_station := mk_station {
  IR : ss_inst;
  rs_op : ss_opcode;
  rs_PC : Z;
  rs_next_PC : Z;
  rs_pred_PC : Z;
  in_LSQ : bool;
  ea_comp : bool;
  recover_inst : bool;
  rs_recover_idx : Z;
  dir_update : bpred_update_rec;
  rs_spec : bool;
  rs_addr : Z;
  rs_tag : Z;
  rs_seq : Z;
  queued : bool;
  issued : bool;
  completed : bool;
  onames : list Z;
  odep_list : list (list RS_link);
  idep_ready : list bool;
}.
#[global] Instance eta_RUU_station : Eta RUU_station := mk_eta (fun s =>
  mk_station (IR s) (rs_op s) (rs_PC s) (rs_next_PC s) (rs_pred_PC s) (in_LSQ s) (ea_comp s) (recover_inst s)
    (rs_recover_idx s) (dir_update s) (rs_spec s) (rs_addr s) (rs_tag s) (rs_seq s) (queued s) (issued s)
    (completed s) (onames s) (odep_list s) (idep_ready s)).

(** A circular queue of stations. *)
Record ring := mk_ring { slots : list RUU_station; r_head : nat; r_tail : nat; r_num : nat }.
#[global] Instance eta_ring : Eta ring := mk_eta (fun q => mk_ring (slots q) (r_head q) (r_tail q) (r_num q)).

Definition ring_size (q : ring) : nat := length (slots q).

Record window := mk_window {
  RUU : ring;
  LSQ : ring;
  rslink_free : nat;
  event_queue : list RS_link;
  ready_queue : list RS_link;
  use_spec_cv : list Z;
  create_vector : list (option (sref * nat));
  spec_create_vector : list (option (sref * nat));
  create_vector_rt : list Z;
  spec_create_vector_rt : list Z;
  last_op : option RS_link;
  inst_seq : Z;
}.
#[global] Instance eta_window : Eta window := mk_eta (fun w =>
  mk_window (RUU w) (LSQ w) (rslink_free w) (event_queue w) (ready_queue w) (use_spec_cv w) (create_vector w)
    (spec_create_vector w) (create_vector_rt w) (spec_create_vector_rt w) (last_op w) (inst_seq w)).

(** * Stations *)

(** calloc'ed stations. *)
Definition zero_station : RUU_station :=
  mk_station (mk_inst 0 0) OP_NA 0 0 0 false false false 0 (mk_upd None None None false false false) false 0 0 0
    false false false (repeat 0 MAX_ODEPS) (repeat [] MAX_ODEPS) (repeat false MAX_IDEPS).

Definition zero_ring (size : nat) : ring := mk_ring (repeat zero_station size) 0 0 0.

Definition ruu_init (size : nat) (w : window) : window := w <| RUU := zero_ring size |>.
Definition lsq_init (size : nat) (w : window) : window := w <| LSQ := zero_ring size |>.

(** Reading and writing through a pointer. *)
Definition get_rs (r : sref) (w : window) : outcome RUU_station :=
  match r with RUU_ref i => c_get (slots (RUU w)) i | LSQ_ref i => c_get (slots (LSQ w)) i end.

Definition upd_rs (r : sref) (f : RUU_station -> RUU_station) (w : window) : outcome window :=
  match r with
  | RUU_ref i => l ← c_upd (slots (RUU w)) i f; Ok (w <| RUU ::= set_field slots (fun _ => l) |>)
  | LSQ_ref i => l ← c_upd (slots (LSQ w)) i f; Ok (w <| LSQ ::= set_field slots (fun _ => l) |>)
  end.

Definition OPERANDS_READY (s : RUU_station) : outcome bool :=
  a ← c_get (idep_ready s) 0; b ← c_get (idep_ready s) 1; c ← c_get (idep_ready s) 2;
  Ok (a && b && c : bool).

(** The operand inputs of stores in the LSQ. *)
Definition STORE_OP_INDEX : nat := 0.
Definition STORE_ADDR_INDEX : nat := 1.
Definition STORE_ADDR_READY (s : RUU_station) : outcome bool := c_get (idep_ready s) STORE_ADDR_INDEX.

(** [(SS_OP_FLAGS(op) & (F_MEM|F_STORE)) == (F_MEM|F_STORE)], and for loads. *)
Definition is_mem (op : ss_opcode) : bool := truth (Z.land (SS_OP_FLAGS op) F_MEM).
Definition is_store (op : ss_opcode) : bool :=
  Z.land (SS_OP_FLAGS op) (Z.lor F_MEM F_STORE) =? Z.lor F_MEM F_STORE.
Definition is_load (op : ss_opcode) : bool :=
  Z.land (SS_OP_FLAGS op) (Z.lor F_MEM F_LOAD) =? Z.lor F_MEM F_LOAD.

(** [(i + 1) % size] and [(i + (size-1)) % size]. *)
Definition ring_next (size i : nat) : nat := ((i + 1) mod size)%nat.
Definition ring_prev (size i : nat) : nat := ((i + (size - 1)) mod size)%nat.

(** * RS links *)

Definition RSLINK_VALID (l : RS_link) (w : window) : outcome bool :=
  s ← get_rs (l_rs l) w; Ok (l_tag l =? rs_tag s).

(** [RSLINK_NEW], the union set by the caller included. *)
Definition RSLINK_NEW (rs : sref) (x : Z) (w : window) : outcome (RS_link * window) :=
  match rslink_free w with
  | O => Panic
  | S n => s ← get_rs rs w; Ok (mk_link rs (rs_tag s) x, w <| rslink_free := n |>)
  end.

Definition RSLINK_FREE (w : window) : window := w <| rslink_free ::= S |>.

Fixpoint RSLINK_FREE_LIST (l : list RS_link) (w : window) : window :=
  match l with [] => w | _ :: l' => RSLINK_FREE_LIST l' (RSLINK_FREE w) end.

(** [RSLINK_INIT]: a link that is not from the pool. *)
Definition RSLINK_INIT (rs : sref) (w : window) : outcome RS_link :=
  s ← get_rs rs w; Ok (mk_link rs (rs_tag s) 0).

Fixpoint link_nodes (n : nat) (w : window) : window :=
  match n with O => w | S n' => link_nodes n' (w <| rslink_free ::= S |>) end.
Definition rslink_init (nlinks : nat) (w : window) : window := link_nodes nlinks (w <| rslink_free := 0%nat |>).

(** The insertion loops of both queues: [new] goes behind the leading links
    that are [before] it. *)
Fixpoint insert_link (before : RS_link -> bool) (new : RS_link) (q : list RS_link) : list RS_link :=
  match q with
  | [] => [new]
  | l :: q' => if before l then l :: insert_link before new q' else new :: q
  end.

(** * The event queue *)

Definition eventq_init (w : window) : window := w <| event_queue := [] |>.

Definition eventq_queue_event (rs : sref) (when sim_cycle : Z) (w : window) : outcome window :=
  s ← get_rs rs w;
  if completed s then Panic
  else if when <=? sim_cycle then Panic
  else
    '(new_ev, w) ← RSLINK_NEW rs when w;
    Ok (w <| event_queue ::= insert_link (fun ev => l_x ev <? when) new_ev |>).

(** [eventq_next_event]: squashed events are dropped on the way. *)
Fixpoint next_event (q : list RS_link) (sim_cycle : Z) (w : window) : outcome (option sref * window) :=
  match q with
  | [] => Ok (None, w)
  | ev :: q' =>
      if l_x ev <=? sim_cycle then
        let w := w <| event_queue := q' |> in
        valid ← RSLINK_VALID ev w;
        let w := RSLINK_FREE w in
        if (valid : bool) then Ok (Some (l_rs ev), w) else next_event q' sim_cycle w
      else Ok (None, w)
  end.
Definition eventq_next_event (sim_cycle : Z) (w : window) : outcome (option sref * window) :=
  next_event (event_queue w) sim_cycle w.

(** * The ready queue *)

Definition readyq_init (w : window) : window := w <| ready_queue := [] |>.

Definition readyq_enqueue (rs : sref) (w : window) : outcome window :=
  s ← get_rs rs w;
  if queued s then Panic
  else
    w ← upd_rs rs (fun s => s <| queued := true |>) w;
    '(new_node, w) ← RSLINK_NEW rs (rs_seq s) w;
    if in_LSQ s || truth (Z.land (SS_OP_FLAGS (rs_op s)) (Z.lor F_LONGLAT F_CTRL))
    then Ok (w <| ready_queue ::= cons new_node |>)
    else Ok (w <| ready_queue ::= insert_link (fun node => l_x node <? rs_seq s) new_node |>).

(** * The create vector *)

Definition CV_BMAP_SZ : nat := Z.to_nat (BITMAP_SIZE SS_TOTAL_REGS).

(** [a[i]] and [a[i] = v] for an index of type int. *)
Definition a_get {A : Type} (l : list A) (i : Z) : outcome A := if i <? 0 then Undef else c_get l (Z.to_nat i).
Definition a_set {A : Type} (l : list A) (i : Z) (v : A) : outcome (list A) :=
  if i <? 0 then Undef else c_upd l (Z.to_nat i) (fun _ => v).

Definition CREATE_VECTOR (n : Z) (w : window) : outcome (option (sref * nat)) :=
  b ← BITMAP_SET_P (use_spec_cv w) n;
  if (b : bool) then a_get (spec_create_vector w) n else a_get (create_vector w) n.

Definition SET_CREATE_VECTOR (spec_mode : bool) (n : Z) (l : option (sref * nat)) (w : window) : outcome window :=
  if spec_mode then
    bm ← BITMAP_SET (use_spec_cv w) n;
    v ← a_set (spec_create_vector w) n l;
    Ok (w <| use_spec_cv := bm |> <| spec_create_vector := v |>)
  else v ← a_set (create_vector w) n l; Ok (w <| create_vector := v |>).

(** [cv_init] sets every entry to CVLINK_NULL and time 0. *)
Definition cv_init (w : window) : outcome window :=
  let n := Z.to_nat SS_TOTAL_REGS in
  bm ← BITMAP_CLEAR_MAP (use_spec_cv w) CV_BMAP_SZ;
  Ok (w <| create_vector := repeat None n |> <| create_vector_rt := repeat 0 n |>
        <| spec_create_vector := repeat None n |> <| spec_create_vector_rt := repeat 0 n |> <| use_spec_cv := bm |>).

(** * Dependences *)

Definition set_idep (k : nat) (v : bool) (s : RUU_station) : RUU_station := s <| idep_ready ::= <[k := v]> |>.
Definition set_odeps (k : nat) (l : list RS_link) (s : RUU_station) : RUU_station := s <| odep_list ::= <[k := l]> |>.
Definition set_oname (k : nat) (n : Z) (s : RUU_station) : RUU_station := s <| onames ::= <[k := n]> |>.

Definition ruu_link_idep (rs : sref) (idep_num : nat) (idep_name : Z) (w : window) : outcome window :=
  if idep_name =? NA then upd_rs rs (set_idep idep_num true) w
  else
    head ← CREATE_VECTOR idep_name w;
    match head with
    | None => upd_rs rs (set_idep idep_num true) w
    | Some (p, odep_num) =>
        w ← upd_rs rs (set_idep idep_num false) w;
        '(link, w) ← RSLINK_NEW rs (Z.of_nat idep_num) w;
        s ← get_rs p w;
        l ← c_get (odep_list s) odep_num;
        upd_rs p (set_odeps odep_num (link :: l)) w
    end.

Definition ruu_install_odep (spec_mode : bool) (rs : sref) (odep_num : nat) (odep_name : Z) (w : window) : outcome window :=
  if odep_name =? NA then upd_rs rs (set_oname odep_num NA) w
  else
    w ← upd_rs rs (set_oname odep_num odep_name) w;
    w ← upd_rs rs (set_odeps odep_num []) w;
    SET_CREATE_VECTOR spec_mode odep_name (Some (rs, odep_num)) w.

(** * Recovery *)

(** Squashing a station: its output lists are freed, its tag changes. *)
Fixpoint free_odeps (rs : sref) (ks : list nat) (w : window) : outcome window :=
  match ks with
  | [] => Ok w
  | k :: ks' =>
      s ← get_rs rs w;
      l ← c_get (odep_list s) k;
      w ← upd_rs rs (set_odeps k []) (RSLINK_FREE_LIST l w);
      free_odeps rs ks' w
  end.

Definition bump_tag (s : RUU_station) : RUU_station := s <| rs_tag ::= fun t => u32 (t + 1) |>.

Definition squash (rs : sref) (w : window) : outcome window :=
  w ← free_odeps rs (seq 0 MAX_ODEPS) w; upd_rs rs bump_tag w.

(** The loop of [ruu_recover] from the youngest station towards the branch;
    [ri], [li] are RUU_index and LSQ_index, [rt], [lt] the previous tails. *)
Fixpoint recover_loop (fuel branch_index ri li rt lt : nat) (w : window) : outcome window :=
  match fuel with
  | O => NoFuel
  | S fuel =>
      if (ri =? branch_index)%nat then
        Ok (w <| RUU ::= set_field r_tail (fun _ => rt) |> <| LSQ ::= set_field r_tail (fun _ => lt) |>)
      else if (r_num (RUU w) =? 0)%nat then Panic
      else if (ri =? r_head (RUU w))%nat then Panic
      else
        s ← get_rs (RUU_ref ri) w;
        '(w, li, lt) ←
          (if ea_comp s then
             if (r_num (LSQ w) =? 0)%nat then Panic
             else
               w ← squash (LSQ_ref li) w;
               Ok (w <| LSQ ::= set_field r_num Nat.pred |>, ring_prev (ring_size (LSQ w)) li, li)
           else Ok (w, li, lt));
        w ← squash (RUU_ref ri) w;
        recover_loop fuel branch_index (ring_prev (ring_size (RUU w)) ri) li ri lt
          (w <| RUU ::= set_field r_num Nat.pred |>)
  end.

Definition ruu_recover (branch_index : nat) (w : window) : outcome window :=
  w ← recover_loop (S (ring_size (RUU w))) branch_index
        (ring_prev (ring_size (RUU w)) (r_tail (RUU w))) (ring_prev (ring_size (LSQ w)) (r_tail (LSQ w)))
        (r_tail (RUU w)) (r_tail (LSQ w)) w;
  bm ← BITMAP_CLEAR_MAP (use_spec_cv w) CV_BMAP_SZ;
  Ok (w <| use_spec_cv := bm |>).
