(* ===== verification/RuuRing.v ===== *)
(** The register update unit and the load/store queue as lists: the stations in
    program order.  [window_wf] says that the two rings are consistent and in
    step; [shape] is what only dispatch, commit and recovery change. *)

From S2P Require Import Prelude Misc Isa Bitmap Bpred Ruu.

(** * Circular queues *)

(** The slot of the [k]-th station from the head. *)
Definition ring_idx (q : ring) (k : nat) : nat := ((r_head q + k) mod ring_size q)%nat.

(** The stations of a queue, oldest first. *)
Definition view (q : ring) : list RUU_station :=
  map (fun k => default zero_station (slots q !! ring_idx q k)) (seq 0 (r_num q)).

Record ring_ok (q : ring) : Prop := {
  ro_size : (0 < ring_size q)%nat;
  ro_num : (r_num q <= ring_size q)%nat;
  ro_head : (r_head q < ring_size q)%nat;
}.

Lemma ring_idx_lt q k : ring_ok q -> (ring_idx q k < ring_size q)%nat.
Proof. intros [H _ _]. apply Nat.mod_upper_bound. lia. Qed.

Lemma ring_idx_slot q k : ring_ok q -> is_Some (slots q !! ring_idx q k).
Proof. intros H. apply lookup_lt_is_Some. by apply ring_idx_lt. Qed.

(** Distinct positions have distinct slots. *)
Lemma ring_idx_inj q i j : (i < ring_size q)%nat -> (j < ring_size q)%nat -> ring_idx q i = ring_idx q j -> i = j.
Proof.
  unfold ring_idx. intros Hi Hj H. set (n := ring_size q) in *.
  pose proof (Nat.div_mod_eq (r_head q + i) n) as D1. pose proof (Nat.div_mod_eq (r_head q + j) n) as D2. rewrite H in D1.
  set (a := ((r_head q + i) / n)%nat) in *. set (b := ((r_head q + j) / n)%nat) in *.
  destruct (Nat.lt_trichotomy a b) as [|[->|]]; nia.
Qed.

Lemma length_view q : length (view q) = r_num q.
Proof. unfold view. by rewrite length_map, length_seq. Qed.

Lemma view_lookup q k : (k < r_num q)%nat -> view q !! k = Some (default zero_station (slots q !! ring_idx q k)).
Proof. intros H. unfold view. rewrite list_lookup_fmap, lookup_seq_lt by done. done. Qed.

Lemma view_slot q k s : ring_ok q -> view q !! k = Some s -> slots q !! ring_idx q k = Some s.
Proof.
  intros Hq H. pose proof (lookup_lt_Some _ _ _ H) as Hk. rewrite length_view in Hk. rewrite view_lookup in H by done.
  destruct (ring_idx_slot q k Hq) as [s' Hs]. rewrite Hs in *. exact H.
Qed.

Lemma view_ext q q' : (forall k, (k < r_num q)%nat -> slots q' !! ring_idx q' k = slots q !! ring_idx q k) ->
  r_num q' = r_num q -> view q' = view q.
Proof.
  intros H Hn. unfold view. rewrite Hn. apply map_ext_in. intros k Hk%in_seq. rewrite H by lia. done.
Qed.

Lemma ring_next_idx q k : ring_ok q -> ring_next (ring_size q) (ring_idx q k) = ring_idx q (S k).
Proof. intros [H _ _]. unfold ring_next, ring_idx. rewrite Nat.Div0.add_mod_idemp_l. f_equal. lia. Qed.

Lemma ring_prev_idx q k : ring_ok q -> ring_prev (ring_size q) (ring_idx q (S k)) = ring_idx q k.
Proof.
  intros [H _ _]. unfold ring_prev, ring_idx. rewrite Nat.Div0.add_mod_idemp_l.
  replace (r_head q + S k + (ring_size q - 1))%nat with (r_head q + k + 1 * ring_size q)%nat by lia. apply Nat.Div0.mod_add.
Qed.

(** ** Operations *)

Definition ring_pop (q : ring) : ring := q <| r_head := ring_next (ring_size q) (r_head q) |> <| r_num ::= Nat.pred |>.
Definition ring_push (s : RUU_station) (q : ring) : ring :=
  q <| slots ::= <[r_tail q := s]> |> <| r_tail ::= ring_next (ring_size q) |> <| r_num ::= S |>.

Lemma head_idx q : ring_ok q -> ring_idx q 0 = r_head q.
Proof. intros [H _ Hh]. unfold ring_idx. rewrite Nat.add_0_r. by apply Nat.mod_small. Qed.

Lemma ring_idx_pop q k : ring_ok q -> ring_idx (ring_pop q) k = ring_idx q (S k).
Proof.
  intros [H _ _]. unfold ring_idx, ring_pop, ring_next. cbn.
  change (ring_size (set_field r_num _ _)) with (ring_size q). rewrite Nat.Div0.add_mod_idemp_l. f_equal. lia.
Qed.

Lemma ring_pop_ok q : ring_ok q -> ring_ok (ring_pop q).
Proof.
  intros [H1 H2 H3]. split; change (ring_size (ring_pop q)) with (ring_size q); [done| |].
  { change (r_num (ring_pop q)) with (Nat.pred (r_num q)). lia. }
  apply Nat.mod_upper_bound. lia.
Qed.

Lemma view_pop q s l : ring_ok q -> view q = s :: l -> view (ring_pop q) = l.
Proof.
  intros Hq Hv. assert (Hn : r_num q = S (length l)) by (by rewrite <- length_view, Hv).
  apply list_eq. intros k. destruct (decide (k < length l)%nat) as [Hk|Hk].
  - rewrite view_lookup by (change (r_num (ring_pop q)) with (Nat.pred (r_num q)); rewrite Hn; cbn; lia). rewrite ring_idx_pop by done.
    change (slots (ring_pop q)) with (slots q). rewrite <- (view_lookup q (S k)) by lia. by rewrite Hv.
  - rewrite (lookup_ge_None_2 l) by lia. apply lookup_ge_None_2. rewrite length_view. change (r_num (ring_pop q)) with (Nat.pred (r_num q)). rewrite Hn. cbn. lia.
Qed.

Lemma ring_push_ok s q : ring_ok q -> (r_num q < ring_size q)%nat -> ring_ok (ring_push s q).
Proof.
  intros [H1 H2 H3] Hn.
  assert (Hs : ring_size (ring_push s q) = ring_size q) by (unfold ring_size; cbn; by rewrite length_insert).
  split; rewrite ?Hs; cbn; lia.
Qed.

Lemma view_push s q : ring_ok q -> (r_num q < ring_size q)%nat -> r_tail q = ring_idx q (r_num q) ->
  view (ring_push s q) = view q ++ [s].
Proof.
  intros Hq Hn Ht. assert (Hs : ring_size (ring_push s q) = ring_size q) by (unfold ring_size; cbn; by rewrite length_insert).
  assert (Hi : forall k, ring_idx (ring_push s q) k = ring_idx q k) by (intros k; unfold ring_idx; rewrite Hs; done).
  assert (Hlt : (r_tail q < ring_size q)%nat) by (rewrite Ht; by apply ring_idx_lt).
  unfold view at 1. cbn [r_num ring_push set_field]. change (r_num (ring_push s q)) with (S (r_num q)).
  rewrite seq_S, map_app. cbn [map Nat.add]. f_equal.
  - apply map_ext_in. intros k Hk%in_seq. rewrite Hi. cbn. rewrite list_lookup_insert_ne; [done|].
    rewrite Ht. intros Hx. apply ring_idx_inj in Hx; lia.
  - rewrite Hi, <- Ht. cbn. by rewrite list_lookup_insert_eq.
Qed.

(** * What only dispatch, commit and recovery change *)

(** The fields of a station set at dispatch. *)
Definition fixed (s : RUU_station) :=
  (IR s, rs_op s, rs_PC s, (rs_next_PC s, rs_pred_PC s), (in_LSQ s, ea_comp s),
   (rs_recover_idx s, dir_update s), (rs_spec s, rs_addr s, rs_seq s)).

(** The sizes of the arrays of a station. *)
Definition st_ok (s : RUU_station) : Prop :=
  length (onames s) = MAX_ODEPS /\ length (odep_list s) = MAX_ODEPS /\ length (idep_ready s) = MAX_IDEPS.

Definition keeps (f : RUU_station -> RUU_station) : Prop :=
  forall s, fixed (f s) = fixed s /\ (st_ok s -> st_ok (f s)).

Record ring_shape (q q' : ring) : Prop := {
  rs_head_eq : r_head q' = r_head q;
  rs_tail_eq : r_tail q' = r_tail q;
  rs_num_eq : r_num q' = r_num q;
  rs_fixed_eq : map fixed (slots q') = map fixed (slots q);
  rs_st_ok : Forall st_ok (slots q) -> Forall st_ok (slots q');
}.

Record same_shape (w w' : window) : Prop := {
  ss_RUU : ring_shape (RUU w) (RUU w');
  ss_LSQ : ring_shape (LSQ w) (LSQ w');
  ss_seq : inst_seq w' = inst_seq w;
  ss_cv : length (use_spec_cv w') = length (use_spec_cv w);
}.

#[export] Instance ring_shape_preorder : PreOrder ring_shape.
Proof.
  split; [by intros q|]. intros q1 q2 q3 [] []. split; [congruence..|auto].
Qed.
#[export] Instance same_shape_preorder : PreOrder same_shape.
Proof.
  split; [by intros w|]. intros w1 w2 w3 [] []. split; [by etransitivity..|congruence].
Qed.

Lemma ring_shape_size q q' : ring_shape q q' -> ring_size q' = ring_size q.
Proof. intros [_ _ _ H _]. unfold ring_size. by rewrite <- (length_map fixed), H, length_map. Qed.

Lemma ring_shape_idx q q' k : ring_shape q q' -> ring_idx q' k = ring_idx q k.
Proof. intros H. unfold ring_idx. by rewrite (ring_shape_size _ _ H), (rs_head_eq _ _ H). Qed.

Lemma ring_shape_ok q q' : ring_shape q q' -> ring_ok q -> ring_ok q'.
Proof.
  intros H []. pose proof (ring_shape_size _ _ H) as Hs. destruct H. split; congruence.
Qed.

Lemma map_fixed_lookup (l l' : list RUU_station) i : map fixed l' = map fixed l -> fixed <$> l' !! i = fixed <$> l !! i.
Proof. intros H. change (map fixed) with (fmap (M:=list) fixed) in H. by rewrite <- !list_lookup_fmap, H. Qed.

Lemma ring_shape_view q q' : ring_shape q q' -> map fixed (view q') = map fixed (view q).
Proof.
  intros H. unfold view. rewrite !map_map, (rs_num_eq _ _ H). apply map_ext. intros k.
  rewrite (ring_shape_idx _ _ _ H). pose proof (map_fixed_lookup _ _ (ring_idx q k) (rs_fixed_eq _ _ H)) as Hk.
  assert (Hd : forall o, fixed (default zero_station o) = default (fixed zero_station) (fixed <$> o)) by (by intros []).
  by rewrite !Hd, Hk.
Qed.

Lemma c_upd_shape (l l' : list RUU_station) i f : c_upd l i f = Ok l' -> keeps f ->
  map fixed l' = map fixed l /\ (Forall st_ok l -> Forall st_ok l').
Proof.
  intros H Hf. unfold c_upd in H. destruct (l !! i) as [s|] eqn:Hs; [|done]. injection H as <-.
  destruct (Hf s) as [H1 H2]. split.
  - change (map fixed) with (fmap (M:=list) fixed). rewrite list_fmap_insert, H1. apply list_insert_id.
    by rewrite list_lookup_fmap, Hs.
  - intros Hl. apply Forall_insert; [done|]. apply H2. by eapply Forall_lookup_1 in Hl.
Qed.

Lemma upd_rs_shape r f w w' : upd_rs r f w = Ok w' -> keeps f -> same_shape w w'.
Proof.
  intros H Hf. destruct r; cbn in H; apply bind_ok in H as (l & Hl & [= <-]); destruct (c_upd_shape _ _ _ _ Hl Hf); by split.
Qed.

Create HintDb shape.

Lemma keeps_set_idep k v : keeps (set_idep k v).
Proof. intros s. split; [done|]. intros (H1 & H2 & H3). split; [done|]. split; [done|]. cbn. by rewrite length_insert. Qed.
Lemma keeps_set_odeps k l : keeps (set_odeps k l).
Proof. intros s. split; [done|]. intros (H1 & H2 & H3). split; [done|]. split; [|done]. cbn. by rewrite length_insert. Qed.
Lemma keeps_set_oname k n : keeps (set_oname k n).
Proof. intros s. split; [done|]. intros (H1 & H2 & H3). split; [|done]. cbn. by rewrite length_insert. Qed.
Lemma keeps_bump_tag : keeps bump_tag.
Proof. by intros s. Qed.
Lemma keeps_queued v : keeps (fun s => s <| queued := v |>).
Proof. by intros s. Qed.
Lemma keeps_issued v : keeps (fun s => s <| issued := v |>).
Proof. by intros s. Qed.
Lemma keeps_completed v : keeps (fun s => s <| completed := v |>).
Proof. by intros s. Qed.
Lemma keeps_done : keeps (fun s => s <| issued := true |> <| completed := true |>).
Proof. by intros s. Qed.
Lemma keeps_recover_inst v : keeps (fun s => s <| recover_inst := v |>).
Proof. by intros s. Qed.
#[export] Hint Resolve keeps_set_idep keeps_set_odeps keeps_set_oname keeps_bump_tag keeps_queued keeps_issued
  keeps_completed keeps_done keeps_recover_inst : shape.

Lemma RSLINK_NEW_shape rs x w l w' : RSLINK_NEW rs x w = Ok (l, w') -> same_shape w w'.
Proof. unfold RSLINK_NEW. destruct (rslink_free w); [done|]. intros H. apply bind_ok in H as (s & _ & [= _ <-]). by split. Qed.

Lemma RSLINK_FREE_LIST_shape l : forall w, same_shape w (RSLINK_FREE_LIST l w).
Proof. induction l as [|x l IH]; intros w; [done|]. cbn. by etransitivity; [|apply IH]. Qed.

Lemma readyq_enqueue_shape rs w w' : readyq_enqueue rs w = Ok w' -> same_shape w w'.
Proof.
  unfold readyq_enqueue. intros H. apply bind_ok in H as (s & _ & H). destruct (queued s); [done|].
  apply bind_ok in H as (w1 & H1 & H). apply bind_ok in H as ([l w2] & H2 & H). etransitivity; [eapply upd_rs_shape; eauto with shape|].
  etransitivity; [by eapply RSLINK_NEW_shape|]. destruct (_ || _); by injection H as <-.
Qed.

Lemma eventq_queue_event_shape rs t now w w' : eventq_queue_event rs t now w = Ok w' -> same_shape w w'.
Proof.
  unfold eventq_queue_event. intros H. apply bind_ok in H as (s & _ & H). destruct (completed s); [done|]. destruct (t <=? now); [done|].
  apply bind_ok in H as ([l w1] & H1 & [= <-]). by apply RSLINK_NEW_shape in H1 as [].
Qed.

Lemma next_event_shape q now : forall w r w', next_event q now w = Ok (r, w') -> same_shape w w'.
Proof.
  induction q as [|ev q IH]; intros w r w' H; cbn [next_event] in H; [by injection H as _ <-|].
  destruct (_ <=? _); [|by injection H as _ <-]. cbv zeta in H. apply bind_ok in H as (valid & _ & H).
  destruct valid; [by injection H as _ <-|]. by apply IH in H as [].
Qed.

Lemma SET_CREATE_VECTOR_shape m n l w w' : SET_CREATE_VECTOR m n l w = Ok w' -> same_shape w w'.
Proof.
  unfold SET_CREATE_VECTOR. intros H. destruct m.
  - apply bind_ok in H as (bm & Hb & H). apply bind_ok in H as (v & _ & [= <-]). split; [done..|]. by apply BITMAP_SET_length in Hb.
  - by apply bind_ok in H as (v & _ & [= <-]).
Qed.

Lemma ruu_link_idep_shape rs k n w w' : ruu_link_idep rs k n w = Ok w' -> same_shape w w'.
Proof.
  unfold ruu_link_idep. intros H. destruct (n =? NA); [eapply upd_rs_shape; eauto with shape|].
  apply bind_ok in H as ([[p o]|] & _ & H); [|eapply upd_rs_shape; eauto with shape].
  apply bind_ok in H as (w1 & H1 & H). apply bind_ok in H as ([l w2] & H2 & H). apply bind_ok in H as (s & _ & H).
  apply bind_ok in H as (ls & _ & H). etransitivity; [eapply upd_rs_shape; eauto with shape|].
  etransitivity; [by eapply RSLINK_NEW_shape|eapply upd_rs_shape; eauto with shape].
Qed.

Lemma ruu_install_odep_shape m rs k n w w' : ruu_install_odep m rs k n w = Ok w' -> same_shape w w'.
Proof.
  unfold ruu_install_odep. intros H. destruct (n =? NA); [eapply upd_rs_shape; eauto with shape|].
  apply bind_ok in H as (w1 & H1 & H). apply bind_ok in H as (w2 & H2 & H). etransitivity; [eapply upd_rs_shape; eauto with shape|].
  etransitivity; [eapply upd_rs_shape; eauto with shape|by eapply SET_CREATE_VECTOR_shape].
Qed.

(** * Consistent windows *)

(** What the address computation in the RUU and the access in the LSQ of one
    instruction share. *)
Definition uop (s : RUU_station) : ss_inst * Z * bool := (IR s, rs_PC s, rs_spec s).

(** The rings are consistent; the LSQ has the accesses of the loads and stores
    of the RUU, in the same order. *)
Record window_wf (w : window) : Prop := {
  ww_RUU : ring_ok (RUU w);
  ww_LSQ : ring_ok (LSQ w);
  ww_RUU_tail : r_tail (RUU w) = ring_idx (RUU w) (r_num (RUU w));
  ww_LSQ_tail : r_tail (LSQ w) = ring_idx (LSQ w) (r_num (LSQ w));
  ww_pairs : map uop (List.filter ea_comp (view (RUU w))) = map uop (view (LSQ w));
  ww_RUU_ops : Forall (fun s => in_LSQ s = false) (view (RUU w));
  ww_LSQ_ops : Forall (fun s => in_LSQ s = true /\ ea_comp s = false) (view (LSQ w));
  ww_RUU_slots : Forall st_ok (slots (RUU w));
  ww_LSQ_slots : Forall st_ok (slots (LSQ w));
  ww_cv : length (use_spec_cv w) = CV_BMAP_SZ;
}.

Lemma fixed_inv s s' : fixed s' = fixed s -> uop s' = uop s /\ ea_comp s' = ea_comp s /\ in_LSQ s' = in_LSQ s.
Proof. unfold fixed, uop. intros [=]. repeat split; congruence. Qed.

Lemma fixed_pairs l : forall l', map fixed l' = map fixed l ->
  map uop (List.filter ea_comp l') = map uop (List.filter ea_comp l) /\ map uop l' = map uop l.
Proof.
  induction l as [|s l IH]; intros [|s' l'] H; [done..|]. apply map_cons_inv in H as [H Hl].
  destruct (fixed_inv s s' H) as (Hu & He & _). destruct (IH _ Hl) as [I1 I2]. cbn [List.filter map]. rewrite He.
  split; [|by rewrite Hu, I2]. destruct (ea_comp s); cbn [map]; [by rewrite Hu, I1|done].
Qed.

Lemma fixed_Forall (P : RUU_station -> Prop) l : (forall s s', fixed s' = fixed s -> P s -> P s') ->
  forall l', map fixed l' = map fixed l -> Forall P l -> Forall P l'.
Proof.
  intros HP. induction l as [|s l IH]; intros [|s' l'] H Hl; [done..|]. apply map_cons_inv in H as [H Hl'].
  apply Forall_cons in Hl as [H1 H2]. constructor; [by eapply HP|by apply IH].
Qed.

Lemma window_wf_shape w w' : same_shape w w' -> window_wf w -> window_wf w'.
Proof.
  intros [HR HL Hseq Hcv] []. pose proof (ring_shape_view _ _ HR) as VR. pose proof (ring_shape_view _ _ HL) as VL.
  split.
  - by eapply ring_shape_ok.
  - by eapply ring_shape_ok.
  - by rewrite (rs_tail_eq _ _ HR), (rs_num_eq _ _ HR), (ring_shape_idx _ _ _ HR).
  - by rewrite (rs_tail_eq _ _ HL), (rs_num_eq _ _ HL), (ring_shape_idx _ _ _ HL).
  - rewrite (proj1 (fixed_pairs _ _ VR)), ww_pairs0. symmetry. apply (fixed_pairs _ _ VL).
  - eapply fixed_Forall; [|exact VR|done]. intros s s' Hs H. destruct (fixed_inv _ _ Hs) as (_ & _ & ->). done.
  - eapply fixed_Forall; [|exact VL|done]. intros s s' Hs H. destruct (fixed_inv _ _ Hs) as (_ & -> & ->). done.
  - by apply HR.
  - by apply HL.
  - by rewrite Hcv.
Qed.

(** Consistent windows pass the checks at the head of a cycle. *)
Lemma window_wf_num w : window_wf w -> (r_num (LSQ w) <= r_num (RUU w))%nat.
Proof.
  intros []. rewrite <- !length_view, <- (length_map uop (view (LSQ w))), <- ww_pairs0, length_map.
  apply filter_length_le.
Qed.
