(* ===== verification/RuuRecover.v ===== *)
(** Recovery from a mispredicted branch: [ruu_recover] squashes exactly the
    stations behind the branch. *)

From S2P Require Import Prelude Misc Isa Bitmap Bpred Ruu RuuRing.

(** * Stations through pointers *)

Definition set_slot (r : sref) (s : RUU_station) (w : window) : window :=
  match r with
  | RUU_ref i => w <| RUU ::= set_field slots <[i := s]> |>
  | LSQ_ref i => w <| LSQ ::= set_field slots <[i := s]> |>
  end.

Lemma get_rs_Some r w s : get_rs r w = Ok s <->
  match r with RUU_ref i => slots (RUU w) !! i | LSQ_ref i => slots (LSQ w) !! i end = Some s.
Proof. destruct r as [i|i]; cbn; unfold c_get; [destruct (slots (RUU w) !! i)|destruct (slots (LSQ w) !! i)]; cbn; naive_solver. Qed.

Lemma upd_rs_ok r f w s : get_rs r w = Ok s -> upd_rs r f w = Ok (set_slot r (f s) w).
Proof. intros H%get_rs_Some. destruct r as [i|i]; cbn; unfold c_upd; by rewrite H. Qed.

Lemma get_set_slot r s s' w : get_rs r w = Ok s -> get_rs r (set_slot r s' w) = Ok s'.
Proof.
  intros H%get_rs_Some. apply get_rs_Some. destruct r as [i|i]; cbn; apply list_lookup_insert_eq; by eapply lookup_lt_Some.
Qed.

Lemma set_slot_twice r s s' w : set_slot r s' (set_slot r s w) = set_slot r s' w.
Proof. destruct r as [i|i], w as [[] []]; cbn; unfold set_field; cbn; by rewrite list_insert_insert_eq. Qed.

Lemma set_slot_free r s n w : set_slot r s (w <| rslink_free ::= Nat.add n |>) = (set_slot r s w) <| rslink_free ::= Nat.add n |>.
Proof. by destruct r. Qed.

Lemma get_rs_free r f w : get_rs r (w <| rslink_free ::= f |>) = get_rs r w.
Proof. by destruct r. Qed.

Lemma RSLINK_FREE_LIST_eq l : forall w, RSLINK_FREE_LIST l w = w <| rslink_free ::= Nat.add (length l) |>.
Proof.
  induction l as [|x l IH]; intros w; cbn [RSLINK_FREE_LIST]; [by destruct w|]. rewrite IH. destruct w. unfold RSLINK_FREE, set_field. cbn. f_equal. lia.
Qed.

(** * Squashing *)

(** A squashed station: what waits for it is forgotten, and so are the links
    to it, whose tags no longer match. *)
Definition squashed (s : RUU_station) : RUU_station := s <| odep_list ::= map (fun _ => []) |> <| rs_tag ::= fun t => u32 (t + 1) |>.

Definition links_of (s : RUU_station) : nat := length (concat (odep_list s)).
Definition links (l : list RUU_station) : nat := sum_list_with links_of l.

Lemma squash_spec r s w : get_rs r w = Ok s -> st_ok s ->
  squash r w = Ok ((set_slot r (squashed s) w) <| rslink_free ::= Nat.add (links_of s) |>).
Proof.
  intros Hs (_ & Ho & _). unfold squash. change (seq 0 MAX_ODEPS) with [0; 1]%nat.
  destruct (odep_list s) as [|a [|b [|]]] eqn:El; try done. cbn [free_odeps]. rewrite Hs, mbind_ok, El. cbn [c_get lookup list_lookup deref]. rewrite mbind_ok.
  rewrite RSLINK_FREE_LIST_eq, (upd_rs_ok _ _ _ s) by (by rewrite get_rs_free). rewrite mbind_ok.
  set (s1 := set_odeps 0 [] s). rewrite set_slot_free.
  assert (H1 : forall f, get_rs r ((set_slot r s1 w) <| rslink_free ::= f |>) = Ok s1) by (intros; rewrite get_rs_free; by eapply get_set_slot).
  rewrite H1, mbind_ok. assert (E1 : odep_list s1 = [[]; b]) by (unfold s1; cbn; by rewrite El). rewrite E1. cbn [c_get lookup list_lookup deref]. rewrite mbind_ok.
  rewrite RSLINK_FREE_LIST_eq, (upd_rs_ok _ _ _ s1) by (by rewrite get_rs_free). rewrite !mbind_ok, !set_slot_free, set_slot_twice.
  set (s2 := set_odeps 1 [] s1). rewrite (upd_rs_ok _ _ _ s2) by (rewrite !get_rs_free; by eapply get_set_slot).
  f_equal. rewrite !set_slot_free, set_slot_twice.
  assert (Hsq : bump_tag s2 = squashed s).
  { unfold bump_tag, squashed, s2, s1, set_odeps. destruct s. cbn in El |- *. subst. reflexivity. }
  rewrite Hsq. unfold links_of. rewrite El. generalize (set_slot r (squashed s) w). intros w'. destruct w'. unfold set_field. cbn. f_equal.
  rewrite !length_app. cbn. lia.
Qed.

(** ** On a ring *)

(** The youngest station goes; the tail is reset at the end of the loop. *)
Definition squash_last (q : ring) : ring :=
  q <| slots ::= alter squashed (ring_idx q (r_num q - 1)) |> <| r_num ::= Nat.pred |>.

Fixpoint ring_squash (n : nat) (q : ring) : ring :=
  match n with O => q | S n => ring_squash n (squash_last q) end.

Lemma squash_last_size q : ring_size (squash_last q) = ring_size q.
Proof. unfold ring_size. cbn. apply length_alter. Qed.

Lemma squash_last_idx q k : ring_idx (squash_last q) k = ring_idx q k.
Proof. unfold ring_idx. by rewrite squash_last_size. Qed.

Lemma squash_last_ok q : ring_ok q -> ring_ok (squash_last q).
Proof.
  intros [H1 H2 H3]. split; rewrite squash_last_size; [done| |done].
  change (r_num (squash_last q)) with (Nat.pred (r_num q)). lia.
Qed.

Lemma squash_last_st_ok q : Forall st_ok (slots q) -> Forall st_ok (slots (squash_last q)).
Proof.
  intros H. cbn. apply Forall_alter; [done|]. intros s _ (H1 & H2 & H3). split; [done|]. split; [|done]. cbn. by rewrite length_map.
Qed.

Lemma squash_last_view q : ring_ok q -> (0 < r_num q)%nat -> view (squash_last q) = take (r_num q - 1) (view q).
Proof.
  intros Hq Hn. apply list_eq. intros k. destruct (decide (k < r_num q - 1)%nat) as [Hk|Hk].
  - rewrite lookup_take_lt by done. rewrite !view_lookup; [|lia|change (r_num (squash_last q)) with (Nat.pred (r_num q)); lia].
    rewrite squash_last_idx. cbn. rewrite list_lookup_alter_ne; [done|]. intros Hx. apply ring_idx_inj in Hx; [lia| |]; destruct Hq; lia.
  - rewrite lookup_take_ge by lia. apply lookup_ge_None_2. rewrite length_view.
    change (r_num (squash_last q)) with (Nat.pred (r_num q)). lia.
Qed.

Lemma ring_squash_ok n : forall q, ring_ok q -> ring_ok (ring_squash n q) /\ ring_size (ring_squash n q) = ring_size q /\
  r_head (ring_squash n q) = r_head q /\ r_num (ring_squash n q) = (r_num q - n)%nat.
Proof.
  induction n as [|n IH]; intros q Hq; cbn [ring_squash].
  - split; [done|]. split; [done|]. split; [done|lia].
  - destruct (IH _ (squash_last_ok q Hq)) as (H1 & H2 & H3 & H4). split; [done|].
    split; [by rewrite H2, squash_last_size|]. split; [by rewrite H3|]. rewrite H4.
    change (r_num (squash_last q)) with (Nat.pred (r_num q)). lia.
Qed.

Lemma ring_squash_idx n q k : ring_ok q -> ring_idx (ring_squash n q) k = ring_idx q k.
Proof. intros Hq. unfold ring_idx. by destruct (ring_squash_ok n q Hq) as (_ & -> & -> & _). Qed.

Lemma ring_squash_st_ok n : forall q, Forall st_ok (slots q) -> Forall st_ok (slots (ring_squash n q)).
Proof. induction n as [|n IH]; intros q H; [done|]. by apply IH, squash_last_st_ok. Qed.

(** What is left is the older stations, as they were. *)
Lemma ring_squash_view n : forall q, ring_ok q -> (n <= r_num q)%nat -> view (ring_squash n q) = take (r_num q - n) (view q).
Proof.
  induction n as [|n IH]; intros q Hq Hn; cbn [ring_squash].
  - rewrite take_ge; [done|]. rewrite length_view. lia.
  - rewrite IH; [|by apply squash_last_ok|change (r_num (squash_last q)) with (Nat.pred (r_num q)); lia].
    rewrite squash_last_view by (done || lia). change (r_num (squash_last q)) with (Nat.pred (r_num q)).
    rewrite take_take. f_equal. lia.
Qed.

(** The stations behind are squashed, every other slot is as it was. *)
Lemma ring_squash_slots n : forall q, ring_ok q -> (n <= r_num q)%nat ->
  (forall k, (r_num q - n <= k < r_num q)%nat ->
     slots (ring_squash n q) !! ring_idx q k = squashed <$> slots q !! ring_idx q k) /\
  (forall j, (forall k, (r_num q - n <= k < r_num q)%nat -> j <> ring_idx q k) -> slots (ring_squash n q) !! j = slots q !! j).
Proof.
  induction n as [|n IH]; intros q Hq Hn; cbn [ring_squash]; [split; [intros; lia|done]|].
  destruct (IH (squash_last q)) as [I1 I2]; [by apply squash_last_ok|change (r_num (squash_last q)) with (Nat.pred (r_num q)); lia|].
  change (r_num (squash_last q)) with (Nat.pred (r_num q)) in *.
  assert (Hsz : (r_num q <= ring_size q)%nat) by apply Hq.
  split.
  - intros k Hk. destruct (decide (k = r_num q - 1)%nat) as [->|Hne].
    + rewrite I2; [cbn; by rewrite list_lookup_alter_eq|]. intros k Hk2. rewrite squash_last_idx. intros Hx. apply ring_idx_inj in Hx; lia.
    + rewrite <- squash_last_idx, I1 by lia. rewrite squash_last_idx. cbn. rewrite list_lookup_alter_ne; [done|].
      intros Hx. apply ring_idx_inj in Hx; lia.
  - intros j Hj. rewrite I2; [|intros k Hk; rewrite squash_last_idx; apply Hj; lia]. cbn. rewrite list_lookup_alter_ne; [done|].
    apply not_eq_sym, Hj. lia.
Qed.

(** * The loop *)

(** The window without its [d] youngest stations and [c] youngest accesses. *)
Definition squash_window (d c : nat) (w : window) : window :=
  w <| RUU := (ring_squash d (RUU w)) <| r_tail := ring_idx (RUU w) (r_num (RUU w) - d) |> |>
    <| LSQ := (ring_squash c (LSQ w)) <| r_tail := ring_idx (LSQ w) (r_num (LSQ w) - c) |> |>
    <| rslink_free ::= Nat.add (links (drop (r_num (RUU w) - d) (view (RUU w))) + links (drop (r_num (LSQ w) - c) (view (LSQ w)))) |>.

Definition squash_RUU (w : window) : window :=
  w <| RUU ::= squash_last |> <| rslink_free ::= Nat.add (links (drop (r_num (RUU w) - 1) (view (RUU w)))) |>.
Definition squash_LSQ (w : window) : window :=
  w <| LSQ ::= squash_last |> <| rslink_free ::= Nat.add (links (drop (r_num (LSQ w) - 1) (view (LSQ w)))) |>.

Lemma view_last q : ring_ok q -> (0 < r_num q)%nat ->
  exists s, view q = take (r_num q - 1) (view q) ++ [s] /\ slots q !! ring_idx q (r_num q - 1) = Some s.
Proof.
  intros Hq Hn. destruct (lookup_lt_is_Some_2 (view q) (r_num q - 1)) as [s Hs]; [rewrite length_view; lia|].
  exists s. split; [|by apply view_slot]. rewrite <- (take_S_r _ _ _ Hs). symmetry. apply take_ge. rewrite length_view. lia.
Qed.

Lemma ring_prev_last q : ring_ok q -> (0 < r_num q)%nat ->
  ring_prev (ring_size q) (ring_idx q (r_num q)) = ring_idx q (r_num q - 1).
Proof. intros Hq Hn. pose proof (ring_prev_idx q (r_num q - 1) Hq) as H. by replace (S (r_num q - 1)) with (r_num q) in H by lia. Qed.

Lemma drop_last q : ring_ok q -> (0 < r_num q)%nat ->
  exists s, drop (r_num q - 1) (view q) = [s] /\ slots q !! ring_idx q (r_num q - 1) = Some s.
Proof.
  intros Hq Hn. destruct (view_last q Hq Hn) as (s & Hv & Hs). exists s. split; [|done]. rewrite Hv.
  rewrite drop_app_ge; rewrite length_take, length_view; [|lia].
  replace (r_num q - 1 - _)%nat with 0%nat by lia. done.
Qed.

(** The squashes of the loop body. *)
Lemma squash_RUU_eq w : ring_ok (RUU w) -> (0 < r_num (RUU w))%nat -> Forall st_ok (slots (RUU w)) ->
  (w ← squash (RUU_ref (ring_idx (RUU w) (r_num (RUU w) - 1))) w; Ok (w <| RUU ::= set_field r_num Nat.pred |>)) = Ok (squash_RUU w).
Proof.
  intros Hq Hn Hf. destruct (drop_last _ Hq Hn) as (s & Hd & Hs).
  rewrite (squash_spec _ s); [|by apply get_rs_Some|by eapply Forall_lookup_1 in Hf].
  rewrite mbind_ok. f_equal. unfold squash_RUU, squash_last, links. rewrite Hd. cbn [sum_list_with set_slot].
  destruct w as [q]; cbn in *. unfold set_field. cbn. f_equal; [|lia]. f_equal. symmetry. apply list_eq. intros j.
  destruct (decide (j = ring_idx q (r_num q - 1))) as [->|Hne].
  - rewrite list_lookup_alter_eq, Hs, list_lookup_insert_eq; [done|by eapply lookup_lt_Some].
  - by rewrite list_lookup_alter_ne, list_lookup_insert_ne by done.
Qed.

Lemma squash_LSQ_eq w : ring_ok (LSQ w) -> (0 < r_num (LSQ w))%nat -> Forall st_ok (slots (LSQ w)) ->
  (w ← squash (LSQ_ref (ring_idx (LSQ w) (r_num (LSQ w) - 1))) w; Ok (w <| LSQ ::= set_field r_num Nat.pred |>)) = Ok (squash_LSQ w).
Proof.
  intros Hq Hn Hf. destruct (drop_last _ Hq Hn) as (s & Hd & Hs).
  rewrite (squash_spec _ s); [|by apply get_rs_Some|by eapply Forall_lookup_1 in Hf].
  rewrite mbind_ok. f_equal. unfold squash_LSQ, squash_last, links. rewrite Hd. cbn [sum_list_with set_slot].
  destruct w as [q0 q]; cbn in *. unfold set_field. cbn. f_equal; [|lia]. f_equal. symmetry. apply list_eq. intros j.
  destruct (decide (j = ring_idx q (r_num q - 1))) as [->|Hne].
  - rewrite list_lookup_alter_eq, Hs, list_lookup_insert_eq; [done|by eapply lookup_lt_Some].
  - by rewrite list_lookup_alter_ne, list_lookup_insert_ne by done.
Qed.

Lemma links_app l l' : links (l ++ l') = (links l + links l')%nat.
Proof. unfold links. apply sum_list_with_app. Qed.

Lemma drop_take_drop {A : Type} (l : list A) a b : (a <= b)%nat -> drop a l = drop a (take b l) ++ drop b l.
Proof.
  intros H. rewrite <- (take_drop b l) at 1. destruct (decide (b <= length l)%nat) as [Hb|Hb].
  - rewrite drop_app_le; [done|]. rewrite length_take. lia.
  - rewrite !take_ge by lia. rewrite (drop_ge l b) by lia. by rewrite !app_nil_r.
Qed.

(** The links of the [n] youngest stations, one at a time. *)
Lemma links_squash_last q n : ring_ok q -> (S n <= r_num q)%nat ->
  links (drop (r_num q - S n) (view q)) =
  (links (drop (r_num q - 1) (view q)) + links (drop (r_num (squash_last q) - n) (view (squash_last q))))%nat.
Proof.
  intros Hq Hn. rewrite (drop_take_drop (view q) (r_num q - S n) (r_num q - 1)) by lia.
  rewrite links_app, Nat.add_comm. f_equal. rewrite squash_last_view by (done || lia).
  change (r_num (squash_last q)) with (Nat.pred (r_num q)).
  by replace (Nat.pred (r_num q) - n)%nat with (r_num q - S n)%nat by lia.
Qed.

Lemma squash_window_RUU d w : ring_ok (RUU w) -> (S d <= r_num (RUU w))%nat ->
  forall c, squash_window d c (squash_RUU w) = squash_window (S d) c w.
Proof.
  intros Hq Hd c. unfold squash_window, squash_RUU. rewrite (links_squash_last (RUU w) d) by done.
  assert (Ht : ring_idx (squash_last (RUU w)) (r_num (squash_last (RUU w)) - d) = ring_idx (RUU w) (r_num (RUU w) - S d)).
  { rewrite squash_last_idx. f_equal. change (r_num (squash_last (RUU w))) with (Nat.pred (r_num (RUU w))). lia. }
  destruct w as [q q1 f ev rq us cv scv cvr scvr lo sq]. cbn [RUU LSQ] in *. unfold set_field in *. cbn [RUU LSQ rslink_free ring_squash] in *. rewrite Ht. f_equal. lia.
Qed.

Lemma squash_window_LSQ d c w : ring_ok (LSQ w) -> (S c <= r_num (LSQ w))%nat ->
  squash_window d c (squash_LSQ w) = squash_window d (S c) w.
Proof.
  intros Hq Hc. unfold squash_window, squash_LSQ. rewrite (links_squash_last (LSQ w) c) by done.
  assert (Ht : ring_idx (squash_last (LSQ w)) (r_num (squash_last (LSQ w)) - c) = ring_idx (LSQ w) (r_num (LSQ w) - S c)).
  { rewrite squash_last_idx. f_equal. change (r_num (squash_last (LSQ w))) with (Nat.pred (r_num (LSQ w))). lia. }
  destruct w as [q0 q f ev rq us cv scv cvr scvr lo sq]. cbn [RUU LSQ] in *. unfold set_field in *. cbn [RUU LSQ rslink_free ring_squash] in *. rewrite Ht. f_equal. lia.
Qed.

Definition ea_count (l : list RUU_station) : nat := length (List.filter ea_comp l).

Lemma ea_count_app l l' : ea_count (l ++ l') = (ea_count l + ea_count l')%nat.
Proof. unfold ea_count. by rewrite List.filter_app, length_app. Qed.

(** What the loop needs. *)
Record loop_ok (w : window) : Prop := {
  lo_RUU : ring_ok (RUU w);
  lo_LSQ : ring_ok (LSQ w);
  lo_RUU_slots : Forall st_ok (slots (RUU w));
  lo_LSQ_slots : Forall st_ok (slots (LSQ w));
  lo_pairs : ea_count (view (RUU w)) = r_num (LSQ w);
}.

(** The window after one iteration. *)
Definition loop_step (s : RUU_station) (w : window) : window := squash_RUU (if ea_comp s then squash_LSQ w else w).

Lemma loop_step_ok s w : loop_ok w -> view (RUU w) = take (r_num (RUU w) - 1) (view (RUU w)) ++ [s] -> (0 < r_num (RUU w))%nat ->
  loop_ok (loop_step s w).
Proof.
  intros [] Hv Hn. assert (HR : RUU (loop_step s w) = squash_last (RUU w)) by (unfold loop_step; by destruct (ea_comp s)).
  assert (HL : LSQ (loop_step s w) = if ea_comp s then squash_last (LSQ w) else LSQ w) by (unfold loop_step; by destruct (ea_comp s)).
  split; rewrite ?HR, ?HL.
  - by apply squash_last_ok.
  - destruct (ea_comp s); [by apply squash_last_ok|done].
  - by apply squash_last_st_ok.
  - destruct (ea_comp s); [by apply squash_last_st_ok|done].
  - rewrite squash_last_view by done. rewrite Hv, ea_count_app in lo_pairs0. unfold ea_count at 2 in lo_pairs0. cbn [List.filter] in lo_pairs0.
    destruct (ea_comp s); cbn [length] in lo_pairs0; [|lia]. change (r_num (squash_last (LSQ w))) with (Nat.pred (r_num (LSQ w))). lia.
Qed.

Lemma squash_window_step s d c w : ring_ok (RUU w) -> ring_ok (LSQ w) -> (S d <= r_num (RUU w))%nat ->
  (ea_count [s] + c <= r_num (LSQ w))%nat ->
  squash_window d c (loop_step s w) = squash_window (S d) (ea_count [s] + c) w.
Proof.
  intros HR HL Hd Hc. unfold loop_step, ea_count in *. cbn [List.filter] in *. destruct (ea_comp s); cbn [length Nat.add] in *.
  - rewrite squash_window_RUU by done. by apply squash_window_LSQ.
  - by apply squash_window_RUU.
Qed.

(** One iteration, on the youngest station [s]. *)
Lemma recover_loop_step fuel b w s :
  loop_ok w -> (0 < r_num (RUU w))%nat -> view (RUU w) = take (r_num (RUU w) - 1) (view (RUU w)) ++ [s] ->
  let ri := ring_idx (RUU w) (r_num (RUU w) - 1) in
  let w' := loop_step s w in
  let lt := ring_idx (LSQ w) (r_num (LSQ w)) in
  let lt' := ring_idx (LSQ w') (r_num (LSQ w')) in
  forall rt, ri <> b -> ri <> r_head (RUU w) ->
  recover_loop (S fuel) b ri (ring_prev (ring_size (LSQ w)) lt) rt lt w =
  recover_loop fuel b (ring_prev (ring_size (RUU w)) ri) (ring_prev (ring_size (LSQ w')) lt') ri lt' w'.
Proof.
  intros [] Hn Hv. cbv zeta. intros rt Hb Hh. cbn [recover_loop].
  rewrite (proj2 (Nat.eqb_neq _ _) Hb), (proj2 (Nat.eqb_neq _ _) Hh).
  replace (r_num (RUU w) =? 0)%nat with false by (symmetry; apply Nat.eqb_neq; lia).
  destruct (view_last (RUU w)) as (s' & Hv' & Hs); [done|done|].
  assert (s' = s) as -> by (rewrite Hv in Hv' at 1; by apply app_inj_2 in Hv' as [_ [= ->]]).
  rewrite (proj2 (get_rs_Some (RUU_ref _) w s) Hs), mbind_ok. clear Hv'. unfold loop_step.
  destruct (ea_comp s) eqn:He.
  - assert (Hl : (0 < r_num (LSQ w))%nat).
    { rewrite <- lo_pairs0, Hv, ea_count_app. unfold ea_count at 2. cbn. rewrite He. cbn. lia. }
    replace (r_num (LSQ w) =? 0)%nat with false by (symmetry; apply Nat.eqb_neq; lia).
    assert (Hp : ring_prev (ring_size (LSQ w)) (ring_idx (LSQ w) (r_num (LSQ w))) = ring_idx (LSQ w) (r_num (LSQ w) - 1)).
    { by apply ring_prev_last. }
    rewrite Hp. pose proof (squash_LSQ_eq w lo_LSQ0 Hl lo_LSQ_slots0) as HL. apply bind_ok in HL as (w1 & -> & HL%Ok_inj).
    rewrite !mbind_ok, HL. assert (Hsz : ring_size (LSQ w1) = ring_size (LSQ w)).
    { transitivity (ring_size (LSQ (squash_LSQ w))); [by rewrite <- HL|apply squash_last_size]. }
    pose proof (squash_RUU_eq (squash_LSQ w) lo_RUU0 Hn lo_RUU_slots0) as HR.
    change (RUU (squash_LSQ w)) with (RUU w) in HR. apply bind_ok in HR as (w2 & -> & HR%Ok_inj). rewrite mbind_ok, HR.
    assert (Hs2 : ring_size (RUU w2) = ring_size (RUU w)).
    { transitivity (ring_size (RUU (squash_RUU (squash_LSQ w)))); [by rewrite <- HR|apply squash_last_size]. }
    rewrite Hs2. change (LSQ (squash_RUU (squash_LSQ w))) with (squash_last (LSQ w)).
    rewrite squash_last_idx, Hsz, squash_last_size. change (r_num (squash_last (LSQ w))) with (Nat.pred (r_num (LSQ w))).
    by rewrite <- Nat.sub_1_r.
  - rewrite mbind_ok. pose proof (squash_RUU_eq w lo_RUU0 Hn lo_RUU_slots0) as HR.
    apply bind_ok in HR as (w2 & -> & HR%Ok_inj). rewrite mbind_ok, HR.
    assert (Hs2 : ring_size (RUU w2) = ring_size (RUU w)).
    { transitivity (ring_size (RUU (squash_RUU w))); [by rewrite <- HR|apply squash_last_size]. }
    rewrite Hs2. change (LSQ (squash_RUU w)) with (LSQ w). done.
Qed.

Lemma recover_loop_spec d : forall fuel w i,
  loop_ok w -> r_num (RUU w) = (S i + d)%nat -> (d < fuel)%nat ->
  let rt := ring_idx (RUU w) (r_num (RUU w)) in let lt := ring_idx (LSQ w) (r_num (LSQ w)) in
  recover_loop fuel (ring_idx (RUU w) i) (ring_prev (ring_size (RUU w)) rt) (ring_prev (ring_size (LSQ w)) lt) rt lt w
  = Ok (squash_window d (ea_count (drop (S i) (view (RUU w)))) w).
Proof.
  induction d as [|d IH]; intros fuel w i Hw Hn Hf; cbv zeta; pose proof Hw as [].
  - destruct fuel as [|fuel]; [lia|]. cbn [recover_loop]. rewrite Hn, Nat.add_0_r, ring_prev_idx, Nat.eqb_refl by done. f_equal.
    rewrite (drop_ge (view _)) by (rewrite length_view; lia).
    unfold squash_window. cbn [ea_count List.filter length ring_squash]. rewrite !Nat.sub_0_r, Hn, Nat.add_0_r.
    rewrite !drop_ge by (rewrite length_view; lia). destruct w. unfold set_field. cbn. done.
  - destruct fuel as [|fuel]; [lia|]. assert (Hb : (i + S d < ring_size (RUU w))%nat) by (destruct lo_RUU0; lia).
    destruct (view_last (RUU w)) as (s & Hv & _); [done|lia|].
    assert (Hri : ring_prev (ring_size (RUU w)) (ring_idx (RUU w) (r_num (RUU w))) = ring_idx (RUU w) (r_num (RUU w) - 1)).
    { apply ring_prev_last; [done|lia]. }
    rewrite Hri, (recover_loop_step _ _ _ s); [|done|lia|done| |].
    2: { intros H%ring_idx_inj; lia. }
    2: { rewrite <- head_idx by done. intros H%ring_idx_inj; lia. }
    assert (HR : RUU (loop_step s w) = squash_last (RUU w)) by (unfold loop_step; by destruct (ea_comp s)).
    assert (Hn' : r_num (RUU (loop_step s w)) = (S i + d)%nat) by (rewrite HR; change (r_num (squash_last (RUU w))) with (Nat.pred (r_num (RUU w))); lia).
    pose proof (IH fuel (loop_step s w) i (loop_step_ok s w Hw Hv ltac:(lia)) Hn' ltac:(lia)) as Hi. cbv zeta in Hi.
    rewrite HR, !squash_last_idx, squash_last_size in Hi. rewrite <- HR, Hn' in Hi.
    replace (r_num (RUU w) - 1)%nat with (S i + d)%nat by lia. rewrite Hi. f_equal.
    rewrite HR, squash_last_view by (done || lia).
    assert (Hcnt : ea_count (view (RUU w)) = (ea_count (take (r_num (RUU w) - 1) (view (RUU w))) + ea_count [s])%nat)
      by (rewrite <- ea_count_app; by rewrite <- Hv).
    assert (Hdrop : ea_count (drop (S i) (view (RUU w))) = (ea_count [s] + ea_count (drop (S i) (take (r_num (RUU w) - 1) (view (RUU w)))))%nat).
    { rewrite Nat.add_comm, <- ea_count_app. f_equal. rewrite Hv at 1. rewrite drop_app_le; [done|]. rewrite length_take, length_view. lia. }
    rewrite Hdrop. apply squash_window_step; [done|done|lia|].
    rewrite <- lo_pairs0, Hcnt. rewrite <- (take_drop (S i) (take _ (view (RUU w)))) at 2. rewrite ea_count_app. lia.
Qed.

(** * Recovery *)

Lemma window_wf_loop w : window_wf w -> loop_ok w.
Proof.
  intros Hw. pose proof (ww_pairs _ Hw) as Hp. destruct Hw. split; [done..|]. unfold ea_count. by rewrite <- (length_map uop), Hp, length_map, length_view.
Qed.

(** The loads and stores up to station [i]. *)
Definition accesses (i : nat) (w : window) : nat := ea_count (take (S i) (view (RUU w))).

Lemma accesses_split i w : window_wf w -> r_num (LSQ w) = (accesses i w + ea_count (drop (S i) (view (RUU w))))%nat.
Proof. intros Hw. rewrite <- (lo_pairs _ (window_wf_loop w Hw)). unfold accesses. rewrite <- ea_count_app. by rewrite take_drop. Qed.

Lemma ruu_recover_eq i w : window_wf w -> (i < r_num (RUU w))%nat ->
  ruu_recover (ring_idx (RUU w) i) w =
  Ok ((squash_window (r_num (RUU w) - S i) (r_num (LSQ w) - accesses i w) w) <| use_spec_cv := repeat 0 CV_BMAP_SZ |>).
Proof.
  intros Hw Hi. unfold ruu_recover. rewrite (ww_RUU_tail _ Hw), (ww_LSQ_tail _ Hw).
  assert (Hn : (r_num (RUU w) <= ring_size (RUU w))%nat) by apply (ww_RUU _ Hw).
  rewrite (recover_loop_spec (r_num (RUU w) - S i) _ w i); [|by apply window_wf_loop|lia|lia].
  rewrite mbind_ok. set (w1 := squash_window _ _ w).
  change (use_spec_cv w1) with (use_spec_cv w). rewrite clear_map by apply (ww_cv _ Hw). rewrite mbind_ok. unfold w1.
  rewrite (accesses_split i w Hw). by rewrite Nat.add_sub_swap, Nat.sub_diag.
Qed.

Lemma filter_ea_take (l : list RUU_station) n : List.filter ea_comp (take n l) = take (ea_count (take n l)) (List.filter ea_comp l).
Proof.
  assert (H : List.filter ea_comp l = List.filter ea_comp (take n l) ++ List.filter ea_comp (drop n l)) by (by rewrite <- List.filter_app, take_drop).
  rewrite H. unfold ea_count. by rewrite take_app_length.
Qed.

Lemma squash_window_wf i w : window_wf w -> (i < r_num (RUU w))%nat ->
  window_wf ((squash_window (r_num (RUU w) - S i) (r_num (LSQ w) - accesses i w) w) <| use_spec_cv := repeat 0 CV_BMAP_SZ |>) /\
  view (RUU (squash_window (r_num (RUU w) - S i) (r_num (LSQ w) - accesses i w) w)) = take (S i) (view (RUU w)) /\
  view (LSQ (squash_window (r_num (RUU w) - S i) (r_num (LSQ w) - accesses i w) w)) = take (accesses i w) (view (LSQ w)).
Proof.
  intros Hw Hi. pose proof (accesses_split i w Hw) as Ha. pose proof (ww_RUU _ Hw) as HqR. pose proof (ww_LSQ _ Hw) as HqL.
  set (d := (r_num (RUU w) - S i)%nat). set (c := (r_num (LSQ w) - accesses i w)%nat).
  assert (VR : view (RUU (squash_window d c w)) = take (S i) (view (RUU w))).
  { change (view (RUU (squash_window d c w))) with (view (ring_squash d (RUU w))). rewrite ring_squash_view by (done || lia). f_equal. lia. }
  assert (VL : view (LSQ (squash_window d c w)) = take (accesses i w) (view (LSQ w))).
  { change (view (LSQ (squash_window d c w))) with (view (ring_squash c (LSQ w))). rewrite ring_squash_view by (done || lia). f_equal. lia. }
  split; [|done]. destruct (ring_squash_ok d (RUU w) HqR) as (R1 & R2 & R3 & R4).
  destruct (ring_squash_ok c (LSQ w) HqL) as (L1 & L2 & L3 & L4). split.
  - by destruct R1.
  - by destruct L1.
  - change (ring_idx (RUU w) (r_num (RUU w) - d) = ring_idx (ring_squash d (RUU w)) (r_num (ring_squash d (RUU w)))).
    by rewrite R4, ring_squash_idx.
  - change (ring_idx (LSQ w) (r_num (LSQ w) - c) = ring_idx (ring_squash c (LSQ w)) (r_num (ring_squash c (LSQ w)))).
    by rewrite L4, ring_squash_idx.
  - change (map uop (List.filter ea_comp (view (RUU (squash_window d c w)))) = map uop (view (LSQ (squash_window d c w)))).
    rewrite VR, VL, filter_ea_take. unfold accesses. change (map uop) with (fmap (M:=list) uop). rewrite !fmap_take. f_equal. apply Hw.
  - change (Forall (fun s => in_LSQ s = false) (view (RUU (squash_window d c w)))). rewrite VR. apply Forall_take, Hw.
  - change (Forall (fun s => in_LSQ s = true /\ ea_comp s = false) (view (LSQ (squash_window d c w)))). rewrite VL. apply Forall_take, Hw.
  - apply ring_squash_st_ok, Hw.
  - apply ring_squash_st_ok, Hw.
  - apply repeat_length.
Qed.

Lemma ruu_recover_wf b w w' i : window_wf w -> (i < r_num (RUU w))%nat -> b = ring_idx (RUU w) i ->
  ruu_recover b w = Ok w' -> window_wf w'.
Proof. intros Hw Hi ->. rewrite (ruu_recover_eq i w Hw Hi). intros <-%Ok_inj. by apply squash_window_wf. Qed.

(** Whether a pointer is to a station behind station [i]. *)
Definition younger (i : nat) (w : window) (r : sref) : bool :=
  match r with
  | RUU_ref j => existsb (fun k => ring_idx (RUU w) k =? j)%nat (seq (S i) (r_num (RUU w) - S i))
  | LSQ_ref j => existsb (fun k => ring_idx (LSQ w) k =? j)%nat (seq (accesses i w) (r_num (LSQ w) - accesses i w))
  end.

Lemma ring_squash_younger q n j : ring_ok q -> (n <= r_num q)%nat ->
  slots (ring_squash (r_num q - n) q) !! j =
  (if existsb (fun k => ring_idx q k =? j)%nat (seq n (r_num q - n)) then squashed else id) <$> slots q !! j.
Proof.
  intros Hq Hn. destruct (ring_squash_slots (r_num q - n) q Hq ltac:(lia)) as [H1 H2].
  destruct (existsb _ _) eqn:He.
  - apply existsb_exists in He as (k & Hk%in_seq & <-%Nat.eqb_eq). apply H1. lia.
  - rewrite H2; [by destruct (slots q !! j)|]. intros k Hk ->. apply not_true_iff_false in He. apply He, existsb_exists.
    exists k. split; [apply in_seq; lia|apply Nat.eqb_refl].
Qed.

Lemma squash_window_get i w r : window_wf w -> (i < r_num (RUU w))%nat ->
  forall s, get_rs r w = Ok s ->
  get_rs r ((squash_window (r_num (RUU w) - S i) (r_num (LSQ w) - accesses i w) w) <| use_spec_cv := repeat 0 CV_BMAP_SZ |>) =
    Ok (if younger i w r then squashed s else s).
Proof.
  intros Hw Hi s Hs%get_rs_Some. pose proof (accesses_split i w Hw) as Ha. pose proof Hw as []. apply get_rs_Some. destruct r as [j|j]; cbn [younger].
  - change (slots (ring_squash (r_num (RUU w) - S i) (RUU w)) !! j = Some (if existsb (fun k => ring_idx (RUU w) k =? j)%nat (seq (S i) (r_num (RUU w) - S i)) then squashed s else s)).
    rewrite ring_squash_younger by (done || lia). rewrite Hs. by destruct (existsb _ _).
  - change (slots (ring_squash (r_num (LSQ w) - accesses i w) (LSQ w)) !! j = Some (if existsb (fun k => ring_idx (LSQ w) k =? j)%nat (seq (accesses i w) (r_num (LSQ w) - accesses i w)) then squashed s else s)).
    rewrite ring_squash_younger by (done || lia). rewrite Hs. by destruct (existsb _ _).
Qed.

(** A tag never matches its successor. *)
Lemma tag_changes t : (t =? u32 (t + 1)) = false.
Proof. apply Z.eqb_neq. unfold u32. intros H. Z.to_euclidean_division_equations. lia. Qed.

Lemma squashed_valid i w l : window_wf w -> (i < r_num (RUU w))%nat -> RSLINK_VALID l w = Ok true ->
  RSLINK_VALID l ((squash_window (r_num (RUU w) - S i) (r_num (LSQ w) - accesses i w) w) <| use_spec_cv := repeat 0 CV_BMAP_SZ |>)
    = Ok (negb (younger i w (l_rs l))).
Proof.
  intros Hw Hi H. unfold RSLINK_VALID in *. apply bind_ok in H as (s & Hs & Ht%Ok_inj). apply Z.eqb_eq in Ht.
  rewrite (squash_window_get i w _ Hw Hi s Hs), mbind_ok. f_equal.
  destruct (younger i w (l_rs l)); cbn [negb]; [|by apply Z.eqb_eq]. rewrite Ht. apply tag_changes.
Qed.
