(* ===== verification/Pipeline.v ===== *)
(** sim-outorder.c: the stages of the pipeline, from fetch to commit, and the
    cycle of sim_main that runs them in reverse order.

    The memory hierarchy is the class [MemHier] (Hierarchy.v has the caches of
    sim-outorder.c), the branch predictor that of Bpred.v, the functional units
    those of Resource.v, the execution of instructions that of SpecSim.v and
    the stations those of Ruu.v.  The debugger, pipetracing and the statistics
    by PC are inactive. *)

From Stdlib Require Import Strings.String.
From S2P Require Import Prelude Misc Memory Isa Bpred Resource Exec Funsim SpecSim Ruu.

(** * Dependences of the instructions *)

(** The register dependence decoders. *)
Definition DGPR (n : Z) : Z := n.
Definition DCGPR (inst : ss_inst) (n : Z) : Z := if negb (SS_COMP_OP inst =? 0) then n else 0.
Definition DGPR_D (n : Z) : Z := Z.land n (Z.lnot 1).
Definition DFPR_L (n : Z) : Z := Z.land (n + 32) (Z.lnot 1).
Definition DFPR_F (n : Z) : Z := Z.land (n + 32) (Z.lnot 1).
Definition DFPR_D (n : Z) : Z := Z.land (n + 32) (Z.lnot 1).
Definition DHI : Z := 0 + 32 + 32.
Definition DLO : Z := 1 + 32 + 32.
Definition DFCC : Z := 2 + 32 + 32.
Definition DTMP : Z := 3 + 32 + 32.
Definition DNA : Z := 0.

(** The outputs and inputs (O1, O2, I1, I2, I3) of the DEFINSTs of ss.def. *)
Definition inst_deps (op : ss_opcode) (inst : ss_inst) : Z * Z * Z * Z * Z :=
  let rs := RS inst in let rt := RT inst in let rd := RD inst in
  match op with
  | OP_NA => (DNA, DNA, DNA, DNA, DNA)
  | NOP | JUMP | SYSCALL | BREAK | CFC1 | CTC1 => (DNA, DNA, DNA, DNA, DNA)
  | JAL => (DGPR 31, DNA, DNA, DNA, DNA)
  | JR | BLEZ | BGTZ | BLTZ | BGEZ => (DNA, DNA, DGPR rs, DNA, DNA)
  | JALR => (DGPR rd, DNA, DGPR rs, DNA, DNA)
  | BEQ | BNE => (DNA, DNA, DGPR rs, DGPR rt, DNA)
  | BC1F | BC1T => (DNA, DNA, DFCC, DNA, DNA)
  | LB | LBU | LH | LHU | LW => (DGPR rt, DCGPR inst rs, DNA, DGPR rs, DNA)
  | DLW => (DGPR_D rt, DCGPR inst rs, DNA, DGPR rs, DNA)
  | L_S => (DFPR_L rt, DCGPR inst rs, DNA, DGPR rs, DNA)
  | L_D => (DFPR_D rt, DCGPR inst rs, DNA, DGPR rs, DNA)
  | LWL | LWR => (DGPR rt, DNA, DNA, DGPR rs, DNA)
  | SB | SH | SW => (DCGPR inst rs, DNA, DGPR rt, DGPR rs, DNA)
  | DSW => (DCGPR inst rs, DNA, DGPR_D rt, DGPR rs, DNA)
  | DSZ => (DCGPR inst rs, DNA, DNA, DGPR rs, DNA)
  | S_S => (DCGPR inst rs, DNA, DFPR_L rt, DGPR rs, DNA)
  | S_D => (DCGPR inst rs, DNA, DFPR_D rt, DGPR rs, DNA)
  | SWL | SWR => (DNA, DNA, DGPR rt, DGPR rs, DNA)
  | LB_RR | LBU_RR | LH_RR | LHU_RR | LW_RR | LW_RR_R2 => (DGPR rt, DCGPR inst rs, DNA, DGPR rs, DGPR rd)
  | DLW_RR => (DGPR_D rt, DCGPR inst rs, DNA, DGPR rs, DGPR rd)
  | L_S_RR | L_S_RR_R2 => (DFPR_L rt, DCGPR inst rs, DNA, DGPR rs, DGPR rd)
  | L_D_RR => (DFPR_D rt, DCGPR inst rs, DNA, DGPR rs, DGPR rd)
  | SB_RR | SH_RR | SW_RR | SW_RR_R2 => (DCGPR inst rs, DNA, DGPR rt, DGPR rs, DGPR rd)
  | DSW_RR => (DCGPR inst rs, DNA, DGPR_D rt, DGPR rs, DGPR rd)
  | DSZ_RR => (DCGPR inst rs, DNA, DNA, DGPR rs, DGPR rd)
  | S_S_RR | S_S_RR_R2 => (DCGPR inst rs, DNA, DFPR_L rt, DGPR rs, DGPR rd)
  | S_D_RR => (DCGPR inst rs, DNA, DFPR_D rt, DGPR rs, DGPR rd)
  | ADD | ADDU | SUB | SUBU | AND_ | OR | XOR | NOR | SLT | SLTU => (DGPR rd, DNA, DGPR rs, DGPR rt, DNA)
  | ADDI | ADDIU | ANDI | ORI | XORI | SLTI | SLTIU => (DGPR rt, DNA, DGPR rs, DNA, DNA)
  | MULT | MULTU | DIV | DIVU => (DHI, DLO, DGPR rt, DGPR rs, DNA)
  | MFHI => (DGPR rd, DNA, DHI, DNA, DNA)
  | MTHI => (DHI, DNA, DGPR rs, DNA, DNA)
  | MFLO => (DGPR rd, DNA, DLO, DNA, DNA)
  | MTLO => (DLO, DNA, DGPR rs, DNA, DNA)
  | SLL | SRL | SRA => (DGPR rd, DNA, DGPR rt, DNA, DNA)
  | SLLV | SRLV | SRAV => (DGPR rd, DNA, DGPR rt, DGPR rs, DNA)
  | FADD_S | FSUB_S | FMUL_S | FDIV_S => (DFPR_F rd, DNA, DFPR_F rs, DFPR_F rt, DNA)
  | FADD_D | FSUB_D | FMUL_D | FDIV_D => (DFPR_D rd, DNA, DFPR_D rs, DFPR_D rt, DNA)
  | FABS_S | FMOV_S | FNEG_S | FSQRT_S => (DFPR_F rd, DNA, DFPR_F rs, DNA, DNA)
  | FABS_D | FMOV_D | FNEG_D | FSQRT_D => (DFPR_D rd, DNA, DFPR_D rs, DNA, DNA)
  | CVT_S_D => (DFPR_F rd, DNA, DFPR_D rs, DNA, DNA)
  | CVT_S_W => (DFPR_F rd, DNA, DFPR_L rs, DNA, DNA)
  | CVT_D_S => (DFPR_D rd, DNA, DFPR_F rs, DNA, DNA)
  | CVT_D_W => (DFPR_D rd, DNA, DFPR_L rs, DNA, DNA)
  | CVT_W_S => (DFPR_L rd, DNA, DFPR_F rs, DNA, DNA)
  | CVT_W_D => (DFPR_L rd, DNA, DFPR_D rs, DNA, DNA)
  | C_EQ_S | C_LT_S | C_LE_S => (DFCC, DNA, DFPR_F rs, DFPR_F rt, DNA)
  | C_EQ_D | C_LT_D | C_LE_D => (DFCC, DNA, DFPR_D rs, DFPR_D rt, DNA)
  | LUI => (DGPR rt, DNA, DNA, DNA, DNA)
  | MFC1 => (DGPR rt, DNA, DFPR_L rs, DNA, DNA)
  | DMFC1 => (DGPR_D rt, DNA, DFPR_D rs, DNA, DNA)
  | MTC1 => (DFPR_L rs, DNA, DGPR rt, DNA, DNA)
  | DMTC1 => (DFPR_D rs, DNA, DGPR_D rt, DNA, DNA)
  end.

(** * The state *)

(** The caches and TLBs as the pipeline uses them: the address, the time and
    the state give the latency; [None] for a NULL cache. *)
Class MemHier (W : Type) := {
  il1_access : option (Z -> Z -> W -> outcome (Z * W));
  itlb_access : option (Z -> Z -> W -> outcome (Z * W));
  dl1_access : option (mem_cmd -> Z -> Z -> W -> outcome (Z * W));
  dtlb_access : option (Z -> Z -> W -> outcome (Z * W));
}.

Inductive spec_update_stage := spec_ID | spec_WB | spec_CT.

#[global] Instance spec_update_stage_eq_dec : EqDecision spec_update_stage.
Proof. solve_decision. Defined.

(** The options, as [sim_check_options] accepts them. *)
Record pipe_config := mk_config {
  ruu_ifq_size : Z;
  ruu_branch_penalty : Z;
  fetch_speed : Z;
  ruu_decode_width : Z;
  ruu_issue_width : Z;
  ruu_commit_width : Z;
  ruu_inorder_issue : bool;
  ruu_include_spec : bool;
  bugcompat_mode : bool;
  pred_perfect : bool;
  bpred_spec_update : spec_update_stage;
  cache_il1_lat : Z;
  stack_idx0 : Z;   (* the uninitialized stack_recover_idx of ruu_fetch *)
}.

(** [struct fetch_rec]. *)
Record fetch_rec := mk_rec {
  f_IR : ss_inst;
  f_PC : Z;
  f_pred_PC : Z;
  f_update : bpred_update_rec;
  f_recover_idx : Z;
}.

(** The counters of instructions, references, loads and branches: those of the
    right path ([num]) and all ([total]). *)
Record counters := mk_counters {
  sim_num_insn : Z; sim_total_insn : Z;
  sim_num_refs : Z; sim_total_refs : Z;
  sim_num_loads : Z; sim_total_loads : Z;
  sim_num_branches : Z; sim_total_branches : Z;
}.
#[global] Instance eta_counters : Eta counters := mk_eta (fun c =>
  mk_counters (sim_num_insn c) (sim_total_insn c) (sim_num_refs c) (sim_total_refs c)
    (sim_num_loads c) (sim_total_loads c) (sim_num_branches c) (sim_total_branches c)).

Section Pipeline.
Context `{E : SimEnv} `{fp : HostFP} {W : Type} `{hierarchy : MemHier W}.
Variable cfg : pipe_config.

Record pipe := mk_pipe {
  win : window;
  trc : tracer;
  ftc : fetch_vars;
  fetch_data : list fetch_rec;
  pred : option bpred;
  fu_pool : res_pool;
  hier : W;
  sim_cycle : Z;
  ruu_fetch_issue_delay : Z;
  stats : counters;
}.
#[export] Instance eta_pipe : Eta pipe := mk_eta (fun p =>
  mk_pipe (win p) (trc p) (ftc p) (fetch_data p) (pred p) (fu_pool p) (hier p) (sim_cycle p)
    (ruu_fetch_issue_delay p) (stats p)).

(** An operation on the window. *)
Definition on_win (f : window -> outcome window) (p : pipe) : outcome pipe :=
  w ← f (win p); Ok (p <| win := w |>).

(** The call of bpred_update on a resolved control instruction. *)
Definition update_pred (inst : ss_inst) (op : ss_opcode) (PC next_PC pred_PC : Z) (u : bpred_update_rec) (p : pipe)
    : outcome pipe :=
  match pred p with
  | None => Ok p
  | Some b =>
      b ← bpred_update b PC next_PC (b2z (negb (next_PC =? u32 (PC + SS_INST_SIZE))))
            (b2z (negb (pred_PC =? u32 (PC + SS_INST_SIZE)))) (pred_PC =? next_PC) op (RS inst =? 31) (Some u);
      Ok (p <| pred := Some b |>)
  end.

(** At the stage [st], for a station. *)
Definition update_pred_at (st : spec_update_stage) (s : RUU_station) (p : pipe) : outcome pipe :=
  if bool_decide (bpred_spec_update cfg = st) && truth (Z.land (SS_OP_FLAGS (rs_op s)) F_CTRL)
  then update_pred (IR s) (rs_op s) (rs_PC s) (rs_next_PC s) (rs_pred_PC s) (dir_update s) p
  else Ok p.

(** * Commit *)

(** A store at the head of the LSQ: [None] when there is no port left. *)
Definition commit_store (s : RUU_station) (p : pipe) : outcome (option pipe) :=
  fu ← res_get (fu_pool p) (fu_class_val (SS_OP_FUCLASS (rs_op s)));
  match fu with
  | None => Ok None
  | Some fu =>
      pool ← res_reserve (fu_pool p) fu;
      let p := p <| fu_pool := pool |> in
      let a := Z.land (rs_addr s) (u32_not 3) in
      p ← (match dl1_access with
           | Some access => '(_, h) ← access Write a (sim_cycle p) (hier p); Ok (p <| hier := h |>)
           | None => Ok p
           end);
      p ← (match dtlb_access with
           | Some access => '(_, h) ← access a (sim_cycle p) (hier p); Ok (p <| hier := h |>)
           | None => Ok p
           end);
      Ok (Some p)
  end.

(** The head leaves its queue. *)
Definition retire (rs : sref) (w : window) : outcome window :=
  w ← upd_rs rs bump_tag w;
  Ok (match rs with
      | RUU_ref _ => w <| RUU ::= fun q => q <| r_head := ring_next (ring_size q) (r_head q) |> <| r_num ::= Nat.pred |> |>
      | LSQ_ref _ => w <| LSQ ::= fun q => q <| r_head := ring_next (ring_size q) (r_head q) |> <| r_num ::= Nat.pred |> |>
      end).

(** The load or store at the head of the LSQ. *)
Definition commit_lsq (p : pipe) : outcome (option pipe) :=
  let lsq := LSQ_ref (r_head (LSQ (win p))) in
  if (r_num (LSQ (win p)) =? 0)%nat then Panic
  else
    s ← get_rs lsq (win p);
    if negb (in_LSQ s) then Panic
    else if negb (completed s) then Ok None
    else
      r ← (if is_store (rs_op s) then commit_store s p else Ok (Some p));
      match r with
      | None => Ok None
      | Some p => p ← on_win (retire lsq) p; Ok (Some p)
      end.

(** The oldest instruction: [None] when it cannot retire yet. *)
Definition commit_head (p : pipe) : outcome (option pipe) :=
  let rs := RUU_ref (r_head (RUU (win p))) in
  s ← get_rs rs (win p);
  if negb (completed s) then Ok None
  else
    r ← (if ea_comp s then commit_lsq p else Ok (Some p));
    match r with
    | None => Ok None
    | Some p =>
        p ← update_pred_at spec_CT s p;
        p ← on_win (retire rs) p;
        if forallb (fun l => match l with [] => true | _ => false end) (odep_list s) then Ok (Some p) else Panic
    end.

Fixpoint commit_loop (fuel : nat) (committed : Z) (p : pipe) : outcome pipe :=
  match fuel with
  | O => NoFuel
  | S fuel =>
      if negb (r_num (RUU (win p)) =? 0)%nat && (committed <? ruu_commit_width cfg) then
        r ← commit_head p;
        match r with None => Ok p | Some p => commit_loop fuel (committed + 1) p end
      else Ok p
  end.

Definition ruu_commit (p : pipe) : outcome pipe := commit_loop (S (r_num (RUU (win p)))) 0 p.

(** * Writeback *)

(** Output [i] of [rs] can now be read from a register. *)
Definition clear_create_vector (rs : sref) (s : RUU_station) (i : nat) (now : Z) (w : window) : outcome window :=
  n ← c_get (onames s) i;
  if rs_spec s then
    l ← a_get (spec_create_vector w) n;
    if bool_decide (l = Some (rs, i)) then
      v ← a_set (spec_create_vector w) n None; t ← a_set (spec_create_vector_rt w) n now;
      Ok (w <| spec_create_vector := v |> <| spec_create_vector_rt := t |>)
    else Ok w
  else
    l ← a_get (create_vector w) n;
    if bool_decide (l = Some (rs, i)) then
      v ← a_set (create_vector w) n None; t ← a_set (create_vector_rt w) n now;
      Ok (w <| create_vector := v |> <| create_vector_rt := t |>)
    else Ok w.

(** One consumer of an output. *)
Definition wake (olink : RS_link) (w : window) : outcome window :=
  valid ← RSLINK_VALID olink w;
  if (valid : bool) then
    s ← get_rs (l_rs olink) w;
    r ← a_get (idep_ready s) (l_x olink);
    if (r : bool) then Panic
    else
      w ← upd_rs (l_rs olink) (set_idep (Z.to_nat (l_x olink)) true) w;
      s ← get_rs (l_rs olink) w;
      ready ← OPERANDS_READY s;
      if ready && (negb (in_LSQ s) || is_store (rs_op s)) then readyq_enqueue (l_rs olink) w else Ok w
  else Ok w.

Fixpoint wake_list (l : list RS_link) (w : window) : outcome window :=
  match l with [] => Ok w | olink :: l' => w ← wake olink w; wake_list l' (RSLINK_FREE w) end.

(** The outputs of a completed station. *)
Fixpoint broadcast (rs : sref) (now : Z) (ks : list nat) (w : window) : outcome window :=
  match ks with
  | [] => Ok w
  | i :: ks' =>
      s ← get_rs rs w;
      n ← c_get (onames s) i;
      w ← (if n =? NA then Ok w
           else
             w ← clear_create_vector rs s i now w;
             l ← c_get (odep_list s) i;
             w ← wake_list l w;
             upd_rs rs (set_odeps i []) w);
      broadcast rs now ks' w
  end.

(** A mispredicted branch is resolved. *)
Definition recover_from (rs : sref) (s : RUU_station) (p : pipe) : outcome pipe :=
  match rs with
  | LSQ_ref _ => Panic
  | RUU_ref i =>
      p ← on_win (ruu_recover i) p;
      '(t, f) ← tracer_recover (trc p) (ftc p);
      Ok (p <| trc := t |> <| ftc := f |> <| pred ::= fun b => bpred_recover b (rs_recover_idx s) |>
            <| ruu_fetch_issue_delay := ruu_branch_penalty cfg |>)
  end.

(** A station whose event has come. *)
Definition writeback_inst (rs : sref) (p : pipe) : outcome pipe :=
  s ← get_rs rs (win p);
  ready ← OPERANDS_READY s;
  if negb ready || queued s || negb (issued s) || completed s then Panic
  else
    p ← on_win (upd_rs rs (fun s => s <| completed := true |>)) p;
    p ← (if recover_inst s then if in_LSQ s then Panic else recover_from rs s p else Ok p);
    p ← (if in_LSQ s then Ok p else update_pred_at spec_WB s p);
    on_win (broadcast rs (sim_cycle p) (seq 0 MAX_ODEPS)) p.

Fixpoint writeback_loop (fuel : nat) (p : pipe) : outcome pipe :=
  match fuel with
  | O => NoFuel
  | S fuel =>
      '(r, w) ← eventq_next_event (sim_cycle p) (win p);
      let p := p <| win := w |> in
      match r with None => Ok p | Some rs => p ← writeback_inst rs p; writeback_loop fuel p end
  end.

Definition ruu_writeback (p : pipe) : outcome pipe := writeback_loop (S (length (event_queue (win p)))) p.

(** * Memory dependences *)

Definition MAX_STD_UNKNOWNS : nat := 64.

(** A store in the scan of [lsq_refresh]: the addresses of unknown data after
    it, [None] when its address is unknown too and the scan ends. *)
Definition scan_store (s : RUU_station) (std_unknowns : list Z) : outcome (option (list Z)) :=
  if is_store (rs_op s) then
    sta ← STORE_ADDR_READY s;
    if negb sta then Ok None
    else
      ready ← OPERANDS_READY s;
      if negb ready then
        if (length std_unknowns =? MAX_STD_UNKNOWNS)%nat then Fatal
        else Ok (Some (std_unknowns ++ [rs_addr s]))
      else Ok (Some (map (fun a => if a =? rs_addr s then 0 else a) std_unknowns))
  else Ok (Some std_unknowns).

Fixpoint refresh_loop (n index : nat) (std_unknowns : list Z) (w : window) : outcome window :=
  match n with
  | O => Ok w
  | S n =>
      s ← get_rs (LSQ_ref index) w;
      r ← scan_store s std_unknowns;
      match r with
      | None => Ok w
      | Some std_unknowns =>
          ready ← OPERANDS_READY s;
          w ← (if is_load (rs_op s) && negb (queued s) && negb (issued s) && negb (completed s) && ready
                 && negb (existsb (fun a => a =? rs_addr s) std_unknowns)
               then readyq_enqueue (LSQ_ref index) w else Ok w);
          refresh_loop n (ring_next (ring_size (LSQ w)) index) std_unknowns w
      end
  end.

Definition lsq_refresh (w : window) : outcome window := refresh_loop (r_num (LSQ w)) (r_head (LSQ w)) [] w.

(** * Issue *)

(** Whether an earlier store of the LSQ has the address: the scan starts at
    the entry before [i]. *)
Fixpoint lsq_forward (fuel : nat) (i : nat) (a : Z) (w : window) : outcome bool :=
  match fuel with
  | O => NoFuel
  | S fuel =>
      let i := ring_prev (ring_size (LSQ w)) i in
      s ← get_rs (LSQ_ref i) w;
      if truth (Z.land (SS_OP_FLAGS (rs_op s)) F_STORE) && (rs_addr s =? a) then Ok true
      else if (i =? r_head (LSQ w))%nat then Ok false
      else lsq_forward fuel i a w
  end.

(** The latency of a load that has the unit [fu]. *)
Definition load_latency (i : nat) (s : RUU_station) (oplat : Z) (p : pipe) : outcome (Z * pipe) :=
  hit ← (if (i =? r_head (LSQ (win p)))%nat then Ok false
         else lsq_forward (ring_size (LSQ (win p))) i (rs_addr s) (win p));
  let valid_addr := (ld_data_base env_ld <=? rs_addr s) && (rs_addr s <? ld_stack_base env_ld) in
  let a := Z.land (rs_addr s) (u32_not 3) in
  '(lat, p) ← (if (hit : bool) then Ok (1, p)
               else match dl1_access with
                    | Some access =>
                        if valid_addr then '(l, h) ← access Read a (sim_cycle p) (hier p); Ok (l, p <| hier := h |>)
                        else Ok (oplat, p)
                    | None => Ok (oplat, p)
                    end);
  match dtlb_access with
  | Some access =>
      if valid_addr then '(l, h) ← access a (sim_cycle p) (hier p); Ok (MAX l lat, p <| hier := h |>) else Ok (lat, p)
  | None => Ok (lat, p)
  end.

(** A ready operation: whether it was issued. *)
Definition issue_op (rs : sref) (p : pipe) : outcome (bool * pipe) :=
  s ← get_rs rs (win p);
  ready ← OPERANDS_READY s;
  if negb ready || negb (queued s) || issued s || completed s then Panic
  else
    p ← on_win (upd_rs rs (fun s => s <| queued := false |>)) p;
    if in_LSQ s && is_store (rs_op s) then
      p ← on_win (upd_rs rs (fun s => s <| issued := true |> <| completed := true |>)) p;
      o0 ← c_get (onames s) 0; o1 ← c_get (onames s) 1;
      if truth o0 || truth o1 then Panic
      else if recover_inst s then Panic
      else Ok (true, p)
    else
      let class := fu_class_val (SS_OP_FUCLASS (rs_op s)) in
      if negb (class =? NA) then
        fu ← res_get (fu_pool p) class;
        match fu with
        | Some fu =>
            p ← on_win (upd_rs rs (fun s => s <| issued := true |>)) p;
            pool ← res_reserve (fu_pool p) fu;
            t ← get_template pool fu;
            let p := p <| fu_pool := pool |> in
            '(lat, p) ← (match rs with
                         | LSQ_ref i => if in_LSQ s && is_load (rs_op s) then load_latency i s (oplat t) p else Ok (oplat t, p)
                         | RUU_ref _ => Ok (oplat t, p)
                         end);
            p ← on_win (eventq_queue_event rs (sim_cycle p + lat) (sim_cycle p)) p;
            Ok (true, p)
        | None => p ← on_win (readyq_enqueue rs) p; Ok (false, p)
        end
      else
        p ← on_win (upd_rs rs (fun s => s <| issued := true |>)) p;
        p ← on_win (eventq_queue_event rs (sim_cycle p + 1) (sim_cycle p)) p;
        Ok (true, p).

(** An operation left over goes back to the ready queue. *)
Definition requeue (rs : sref) (w : window) : outcome window :=
  w ← upd_rs rs (fun s => s <| queued := false |>) w; readyq_enqueue rs w.

(** The two loops of [ruu_issue] over the ready list of the previous cycle. *)
Fixpoint issue_loop (nodes : list RS_link) (n_issued : Z) (p : pipe) : outcome pipe :=
  match nodes with
  | [] => Ok p
  | node :: nodes' =>
      valid ← RSLINK_VALID node (win p);
      '(n, p) ←
        (if (valid : bool) then
           if n_issued <? ruu_issue_width cfg then
             '(b, p) ← issue_op (l_rs node) p; Ok (if (b : bool) then n_issued + 1 else n_issued, p)
           else p ← on_win (requeue (l_rs node)) p; Ok (n_issued, p)
         else Ok (n_issued, p));
      issue_loop nodes' n (p <| win ::= RSLINK_FREE |>)
  end.

Definition ruu_issue (p : pipe) : outcome pipe :=
  issue_loop (ready_queue (win p)) 0 (p <| win ::= set_field ready_queue (fun _ => []) |>).

(** * Dispatch *)

(** A station for the instruction; tag and lists stay. *)
Definition fill_station (rec : fetch_rec) (op : ss_opcode) (next_PC pred_PC : Z) (lsq ea : bool) (idx : Z)
    (u : bpred_update_rec) (spec : bool) (a seq : Z) (s : RUU_station) : RUU_station :=
  mk_station (f_IR rec) op (f_PC rec) next_PC pred_PC lsq ea false idx u spec a (rs_tag s) seq false false false
    (onames s) (odep_list s) (idep_ready s).

Definition next_seq (w : window) : window := w <| inst_seq ::= fun n => u32 (n + 1) |>.

Definition push_RUU (w : window) : window :=
  w <| RUU ::= fun q => q <| r_tail := ring_next (ring_size q) (r_tail q) |> <| r_num ::= S |> |>.
Definition push_LSQ (w : window) : window :=
  w <| LSQ ::= fun q => q <| r_tail := ring_next (ring_size q) (r_tail q) |> <| r_num ::= S |> |>.

Definition enqueue_if_ready (rs : sref) (w : window) : outcome (bool * window) :=
  s ← get_rs rs w;
  ready ← OPERANDS_READY s;
  if (ready : bool) then w ← readyq_enqueue rs w; Ok (true, w) else Ok (false, w).

(** A load or store: the address computation in the RUU, the access in the LSQ. *)
Definition alloc_mem (rec : fetch_rec) (op : ss_opcode) (next_PC pred_PC a : Z) (spec : bool) (w : window)
    : outcome window :=
  let '(out1, out2, in1, in2, in3) := inst_deps op (f_IR rec) in
  let rs := RUU_ref (r_tail (RUU w)) in
  let lsq := LSQ_ref (r_tail (LSQ w)) in
  let w := next_seq w in
  w ← upd_rs rs (fill_station rec ADD next_PC pred_PC false true (f_recover_idx rec) (f_update rec) spec 0 (inst_seq w)) w;
  let w := next_seq w in
  w ← upd_rs lsq (fun s => fill_station rec op next_PC pred_PC true false 0
        ((dir_update s) <| pdir1 := None |> <| pdir2 := None |> <| pmeta := None |>) spec a (inst_seq w) s) w;
  w ← ruu_link_idep rs 0 NA w;
  w ← ruu_link_idep rs 1 in2 w;
  w ← ruu_link_idep rs 2 in3 w;
  w ← ruu_install_odep spec rs 0 DTMP w;
  w ← ruu_install_odep spec rs 1 NA w;
  w ← ruu_link_idep lsq STORE_OP_INDEX in1 w;
  w ← ruu_link_idep lsq STORE_ADDR_INDEX DTMP w;
  w ← ruu_link_idep lsq 2 NA w;
  w ← ruu_install_odep spec lsq 0 out1 w;
  w ← ruu_install_odep spec lsq 1 out2 w;
  '(_, w) ← enqueue_if_ready rs (push_LSQ (push_RUU w));
  l ← RSLINK_INIT lsq w;
  let w := w <| last_op := Some l |> in
  if is_store op then '(_, w) ← enqueue_if_ready lsq w; Ok w else Ok w.

(** Any other operation. *)
Definition alloc_op (rec : fetch_rec) (op : ss_opcode) (next_PC pred_PC : Z) (spec : bool) (w : window) : outcome window :=
  let '(out1, out2, in1, in2, in3) := inst_deps op (f_IR rec) in
  let rs := RUU_ref (r_tail (RUU w)) in
  let w := next_seq w in
  w ← upd_rs rs (fill_station rec op next_PC pred_PC false false (f_recover_idx rec) (f_update rec) spec 0 (inst_seq w)) w;
  w ← ruu_link_idep rs 0 in1 w;
  w ← ruu_link_idep rs 1 in2 w;
  w ← ruu_link_idep rs 2 in3 w;
  w ← ruu_install_odep spec rs 0 out1 w;
  w ← ruu_install_odep spec rs 1 out2 w;
  '(b, w) ← enqueue_if_ready rs (push_RUU w);
  if (b : bool) then Ok (w <| last_op := None |>)
  else l ← RSLINK_INIT rs w; Ok (w <| last_op := Some l |>).

(** The statistics of an executed instruction. *)
Definition count_refs (op : ss_opcode) (spec : bool) (c : counters) : counters :=
  if is_mem op then
    let c := c <| sim_total_refs ::= Z.add 1 |> in
    let c := if spec then c else c <| sim_num_refs ::= Z.add 1 |> in
    if truth (Z.land (SS_OP_FLAGS op) F_STORE) then c
    else
      let c := c <| sim_total_loads ::= Z.add 1 |> in
      if spec then c else c <| sim_num_loads ::= Z.add 1 |>
  else c.

Definition count_inst (op : ss_opcode) (spec : bool) (c : counters) : counters :=
  let ctrl := truth (Z.land (SS_OP_FLAGS op) F_CTRL) in
  let c := c <| sim_total_insn ::= Z.add 1 |> in
  let c := if ctrl then c <| sim_total_branches ::= Z.add 1 |> else c in
  if spec then c
  else
    let c := c <| sim_num_insn ::= Z.add 1 |> in
    if ctrl then c <| sim_num_branches ::= Z.add 1 |> else c.

(** A mis-fetch: the target of a direct jump is known at decode.  With perfect
    prediction every misprediction is patched here. *)
Definition misfetch (op : ss_opcode) (PC next_PC target_PC pred_PC : Z) : bool :=
  (negb (pred_PC =? next_PC) && pred_perfect cfg)
  || ((Z.land (SS_OP_FLAGS op) (Z.lor F_CTRL F_DIRJMP) =? Z.lor F_CTRL F_DIRJMP)
      && negb (target_PC =? pred_PC) && negb (pred_PC =? u32 (PC + SS_INST_SIZE))).

Definition redirect_fetch (next_PC : Z) (p : pipe) : pipe :=
  let p := p <| ftc ::= fun f => f <| fetch_pred_PC := next_PC |> <| fetch_regs_PC := next_PC |>
                  <| fetch_head := ruu_ifq_size cfg - 1 |> <| fetch_num := 1 |> <| fetch_tail := 0 |> |> in
  if pred_perfect cfg then p else p <| ruu_fetch_issue_delay := ruu_branch_penalty cfg |>.

(** The trace generator goes into mis-speculation mode. *)
Definition enter_spec_mode (rs : option sref) (next_PC : Z) (p : pipe) : outcome pipe :=
  let p := p <| trc ::= set_field spec_mode (fun _ => true) |> in
  rs ← deref rs;
  p ← on_win (upd_rs rs (fun s => s <| recover_inst := true |>)) p;
  Ok (p <| ftc ::= set_field recover_PC (fun _ => next_PC) |>).

(** The rest of the loop body of [ruu_dispatch] for a decoded and executed
    instruction; the result says whether it used decode bandwidth and whether
    fetch was redirected. *)
Definition dispatch_inst (rec : fetch_rec) (op : ss_opcode) (redirected : bool) (p : pipe)
    : outcome (bool * bool * pipe) :=
  let spec := spec_mode (trc p) in
  let next_PC := g_next_PC (trc p) in
  let p := p <| stats ::= count_refs op spec |> in
  let fix_up := misfetch op (f_PC rec) next_PC (g_target_PC (trc p)) (f_pred_PC rec) in
  let pred_PC := if fix_up && pred_perfect cfg then next_PC else f_pred_PC rec in
  let p := if fix_up then redirect_fetch next_PC p else p in
  let redirected := redirected || fix_up in
  let rs := if bool_decide (op = NOP) then None else Some (RUU_ref (r_tail (RUU (win p)))) in
  p ← (if bool_decide (op = NOP) then Ok p
       else on_win (if is_mem op then alloc_mem rec op next_PC pred_PC (g_addr (trc p)) spec
                    else alloc_op rec op next_PC pred_PC spec) p);
  let p := p <| stats ::= count_inst op spec |> in
  p ← (if spec then Ok p
       else
         p ← (if truth (Z.land (SS_OP_FLAGS op) F_CTRL) && bool_decide (bpred_spec_update cfg = spec_ID)
              then update_pred (f_IR rec) op (f_PC rec) next_PC pred_PC (f_update rec) p else Ok p);
         if negb (pred_PC =? next_PC) && negb redirected then enter_spec_mode rs next_PC p else Ok p);
  Ok (negb (bool_decide (op = NOP)), redirected,
      p <| ftc ::= fun f => f <| fetch_head := Z.land (fetch_head f + 1) (ruu_ifq_size cfg - 1) |>
                              <| fetch_num := fetch_num f - 1 |> |>).

(** In-order issue: the last operation still waits for its operands. *)
Definition issue_blocked (w : window) : outcome bool :=
  match last_op w with
  | None => Ok false
  | Some l =>
      valid ← RSLINK_VALID l w;
      if (valid : bool) then s ← get_rs (l_rs l) w; ready ← OPERANDS_READY s; Ok (negb ready) else Ok false
  end.

Fixpoint dispatch_loop (fuel : nat) (n_dispatched : Z) (redirected : bool) (p : pipe) : outcome pipe :=
  match fuel with
  | O => NoFuel
  | S fuel =>
      if (n_dispatched <? ruu_decode_width cfg * fetch_speed cfg)
         && (r_num (RUU (win p)) <? ring_size (RUU (win p)))%nat && (r_num (LSQ (win p)) <? ring_size (LSQ (win p)))%nat
         && negb (fetch_num (ftc p) =? 0) && (ruu_include_spec cfg || negb (spec_mode (trc p)))
      then
        blocked ← (if ruu_inorder_issue cfg then issue_blocked (win p) else Ok false);
        if (blocked : bool) then Ok p
        else
          rec ← a_get (fetch_data p) (fetch_head (ftc p));
          o ← deref (opcode_of_val (SS_OPCODE (f_IR rec)));
          if truth (Z.land (SS_OP_FLAGS o) F_TRAP) && negb (r_num (RUU (win p)) =? 0)%nat then
            Ok (p <| trc ::= set_field g_regs (set_field regs_PC (fun _ => f_PC rec)) |>)
          else
            '(op, t) ← dispatch_exec (bugcompat_mode cfg) (f_IR rec) (f_PC rec) (trc p);
            '(used, redirected, p) ← dispatch_inst rec op redirected (p <| trc := t |>);
            dispatch_loop fuel (if (used : bool) then n_dispatched + 1 else n_dispatched) redirected p
      else Ok p
  end.

Definition ruu_dispatch (p : pipe) : outcome pipe := dispatch_loop (S (Z.to_nat (fetch_num (ftc p)))) 0 false p.

(** * Fetch *)

Definition SS_NOP_INST : ss_inst := mk_inst (ss_opcode_val NOP) 0.

(** Whether an address is that of an instruction of the program text. *)
Definition in_text (pc : Z) : bool :=
  (ld_text_base env_ld <=? pc) && (pc <? u32 (ld_text_base env_ld + ld_text_size env_ld)) && (Z.land pc (SS_INST_SIZE - 1) =? 0).

(** The instruction at the fetch address and the latency of the access; off
    the text a NOP. *)
Definition fetch_access (p : pipe) : outcome (ss_inst * Z * pipe) :=
  let pc := fetch_regs_PC (ftc p) in
  if in_text pc then
    '(m, bs) ← mem_access (host_big env_cfg) env_ld Read pc (repeat 0 8) 0 8 (g_mem (trc p));
    let inst := mk_inst (host_combine (host_big env_cfg) (take 4 bs)) (host_combine (host_big env_cfg) (drop 4 bs)) in
    let p := p <| trc ::= set_field g_mem (fun _ => m) |> in
    '(lat, p) ← (match il1_access with
                 | Some access => '(l, h) ← access pc (sim_cycle p) (hier p); Ok (l, p <| hier := h |>)
                 | None => Ok (cache_il1_lat cfg, p)
                 end);
    '(lat, p) ← (match itlb_access with
                 | Some access => '(l, h) ← access pc (sim_cycle p) (hier p); Ok (MAX l lat, p <| hier := h |>)
                 | None => Ok (lat, p)
                 end);
    Ok (inst, lat, p)
  else Ok (SS_NOP_INST, cache_il1_lat cfg, p).

(** The predicted next fetch address, 0 when the predictor has none, with the
    update record and the stack index. *)
Definition fetch_predict (inst : ss_inst) (u : bpred_update_rec) (idx : Z) (p : pipe)
    : outcome (Z * bpred_update_rec * Z * pipe) :=
  match pred p with
  | None => Ok (0, u, idx, p)
  | Some b =>
      o ← deref (opcode_of_val (SS_OPCODE inst));
      if truth (Z.land (SS_OP_FLAGS o) F_CTRL) then
        r ← bpred_lookup b (fetch_regs_PC (ftc p)) 0 o (RS inst =? 31) (Some u) idx;
        Ok (l_addr r, l_upd r, l_recover r, p <| pred := Some (l_pred r) |>)
      else Ok (0, u, idx, p)
  end.

(** The fetch loop: [n] iterations are left, [idx] is stack_recover_idx. *)
Fixpoint fetch_loop (n : nat) (branch_cnt idx : Z) (p : pipe) : outcome pipe :=
  match n with
  | O => Ok p
  | S n =>
      if fetch_num (ftc p) <? ruu_ifq_size cfg then
        let pc := fetch_pred_PC (ftc p) in
        let p := p <| ftc ::= set_field fetch_regs_PC (fun _ => pc) |> in
        '(inst, lat, p) ← fetch_access p;
        if negb (lat =? cache_il1_lat cfg) then
          Ok (p <| ruu_fetch_issue_delay ::= fun d => u32 (d + lat - 1) |>)
        else
          let t := fetch_tail (ftc p) in
          old ← a_get (fetch_data p) t;
          '(target, u, idx, p) ← fetch_predict inst (f_update old) idx p;
          let pred_PC := if target =? 0 then u32 (pc + SS_INST_SIZE) else target in
          let branch_cnt := if target =? 0 then branch_cnt else branch_cnt + 1 in
          data ← a_set (fetch_data p) t (mk_rec inst pc pred_PC u idx);
          let p := p <| fetch_data := data |>
                     <| ftc ::= fun f => f <| fetch_pred_PC := pred_PC |>
                          <| fetch_tail := Z.land (t + 1) (ruu_ifq_size cfg - 1) |> <| fetch_num ::= Z.add 1 |> |> in
          if negb (target =? 0) && (fetch_speed cfg <=? branch_cnt) then Ok p else fetch_loop n branch_cnt idx p
      else Ok p
  end.

Definition ruu_fetch (p : pipe) : outcome pipe :=
  fetch_loop (Z.to_nat (ruu_decode_width cfg * fetch_speed cfg)) 0 (stack_idx0 cfg) p.

(** * The simulator *)

(** The sanity checks at the head of a cycle. *)
Definition ring_wedged (q : ring) : bool := negb ((r_head q + r_num q) mod ring_size q =? r_tail q)%nat.
Definition sanity_checks (w : window) : outcome unit :=
  if (r_num (RUU w) <? r_num (LSQ w))%nat then Panic
  else if ring_wedged (RUU w) then Panic
  else if ring_wedged (LSQ w) then Panic
  else Ok tt.

(** The body of the loop of [sim_main]. *)
Definition sim_main_cycle (p : pipe) : outcome pipe :=
  sanity_checks (win p);;
  p ← ruu_commit p;
  let p := p <| fu_pool ::= ruu_release_fu |> in
  p ← ruu_writeback p;
  p ← (if bugcompat_mode cfg then Ok p else p ← on_win lsq_refresh p; ruu_issue p);
  p ← ruu_dispatch p;
  p ← (if bugcompat_mode cfg then p ← on_win lsq_refresh p; ruu_issue p else Ok p);
  p ← (if ruu_fetch_issue_delay p =? 0 then ruu_fetch p else Ok (p <| ruu_fetch_issue_delay ::= fun d => d - 1 |>));
  Ok (p <| sim_cycle ::= Z.add 1 |>).

Fixpoint sim_main_cycles (n : nat) (p : pipe) : outcome pipe :=
  match n with O => Ok p | S n' => p ← sim_main_cycle p; sim_main_cycles n' p end.

(** * Initialization *)

Definition MAX_RS_LINKS : nat := 4096.

(** [fetch_init]. *)
Definition fetch_init (p : pipe) : pipe :=
  p <| fetch_data := repeat (mk_rec (mk_inst 0 0) 0 0 (mk_upd None None None false false false) 0) (Z.to_nat (ruu_ifq_size cfg)) |>
    <| ftc ::= fun f => f <| fetch_num := 0 |> <| fetch_tail := 0 |> <| fetch_head := 0 |> |>.

(** The engine part of [sim_init]; the sizes of the RUU and the LSQ. *)
Definition engine_init (RUU_size LSQ_size : nat) (fus : list res_desc) (p : pipe) : outcome pipe :=
  pool ← res_create_pool "fu-pool"%string fus;
  let p := p <| fu_pool := pool |> <| win ::= rslink_init MAX_RS_LINKS |> in
  t ← tracer_init (trc p);
  let p := fetch_init (p <| trc := t |>) in
  p ← on_win cv_init p;
  Ok (p <| win ::= fun w => lsq_init LSQ_size (ruu_init RUU_size (readyq_init (eventq_init w))) |>).

(** [sim_main] before its loop. *)
Definition sim_main_start (ld_prog_entry : Z) (p : pipe) : pipe :=
  let pc := u32 (ld_prog_entry - SS_INST_SIZE) in
  p <| trc ::= set_field g_regs (set_field regs_PC (fun _ => pc)) |>
    <| ftc ::= fun f => f <| fetch_regs_PC := pc |> <| fetch_pred_PC := ld_prog_entry |> |>.

End Pipeline.
