(* ===== verification/PipeSim.v ===== *)
(** sim-outorder computes what sim-safe computes: whatever the pipeline does
    with the order of execution, with predictions and with their recovery, the
    instructions it executes on the right path are those of the program. *)

From Stdlib Require Import ZifyBool.
From S2P Require Import Prelude Misc Memory Isa Bpred BpredWf Resource Exec ExecMeta Funsim FunsimProps SpecSim SpecProps Ruu Pipeline.

(** * What the stages behind dispatch leave alone *)

Section Front.
Context `{E : SimEnv} `{fp : HostFP} {W : Type} `{hierarchy : MemHier W}.
Variable cfg : pipe_config.

(** The trace generator, the fetch unit and the statistics. *)
Definition front (p : pipe (W:=W)) : tracer * fetch_vars * list fetch_rec * counters :=
  (trc p, ftc p, fetch_data p, stats p).

Lemma on_win_front f (p p' : pipe (W:=W)) : on_win f p = Ok p' -> front p' = front p.
Proof. unfold on_win. intros H. by apply bind_ok in H as (w & _ & [= <-]). Qed.

Lemma update_pred_front inst op PC next_PC pred_PC u (p p' : pipe (W:=W)) :
  update_pred inst op PC next_PC pred_PC u p = Ok p' -> front p' = front p.
Proof. unfold update_pred. intros H. destruct (pred p); [by apply bind_ok in H as (b' & _ & [= <-])|by injection H as <-]. Qed.

Lemma update_pred_at_front st s (p p' : pipe (W:=W)) : update_pred_at cfg st s p = Ok p' -> front p' = front p.
Proof. unfold update_pred_at. destruct (_ && _); [apply update_pred_front|by intros [= ->]]. Qed.

Lemma commit_store_front s (p p' : pipe (W:=W)) : commit_store s p = Ok (Some p') -> front p' = front p.
Proof.
  unfold commit_store. intros H. apply bind_ok in H as ([fu|] & _ & H); [|done]. apply bind_ok in H as (pool & _ & H).
  cbv zeta in H. apply bind_ok in H as (p1 & H1 & H). apply bind_ok in H as (p2 & H2 & [= <-]).
  assert (E1 : front p1 = front p).
  { destruct dl1_access; [by apply bind_ok in H1 as ([l h] & _ & [= <-])|by injection H1 as <-]. }
  rewrite <- E1. destruct dtlb_access; [by apply bind_ok in H2 as ([l h] & _ & [= <-])|by injection H2 as <-].
Qed.

Lemma commit_lsq_front (p p' : pipe (W:=W)) : commit_lsq p = Ok (Some p') -> front p' = front p.
Proof.
  unfold commit_lsq. intros H. destruct (_ =? _)%nat; [done|]. apply bind_ok in H as (s & _ & H).
  destruct (negb _); [done|]. destruct (negb _); [done|]. apply bind_ok in H as ([p1|] & H1 & H); [|done].
  apply bind_ok in H as (p2 & H2 & [= <-]). rewrite (on_win_front _ _ _ H2).
  destruct (is_store _); [by eapply commit_store_front|by injection H1 as <-].
Qed.

Lemma commit_head_front (p p' : pipe (W:=W)) : commit_head cfg p = Ok (Some p') -> front p' = front p.
Proof.
  unfold commit_head. intros H. apply bind_ok in H as (s & _ & H). destruct (negb _); [done|].
  apply bind_ok in H as ([p1|] & H1 & H); [|done]. apply bind_ok in H as (p2 & H2 & H). apply bind_ok in H as (p3 & H3 & H).
  destruct (forallb _ _); [|done]. injection H as <-. rewrite (on_win_front _ _ _ H3), (update_pred_at_front _ _ _ _ H2).
  destruct (ea_comp s); [by apply commit_lsq_front|by injection H1 as <-].
Qed.

Lemma commit_loop_front fuel : forall c (p p' : pipe (W:=W)), commit_loop cfg fuel c p = Ok p' -> front p' = front p.
Proof.
  induction fuel as [|fuel IH]; intros c p p' H; [done|]. cbn [commit_loop] in H. destruct (_ && _); [|by injection H as <-].
  apply bind_ok in H as ([p1|] & H1 & H); [|by injection H as <-]. rewrite (IH _ _ _ H). by apply commit_head_front.
Qed.

Lemma ruu_commit_front (p p' : pipe (W:=W)) : ruu_commit cfg p = Ok p' -> front p' = front p.
Proof. apply commit_loop_front. Qed.

Lemma load_latency_front i s lat (p p' : pipe (W:=W)) l : load_latency i s lat p = Ok (l, p') -> front p' = front p.
Proof.
  unfold load_latency. intros H. apply bind_ok in H as (hit & _ & H). cbv zeta in H. apply bind_ok in H as ([l1 p1] & H1 & H).
  assert (E1 : front p1 = front p).
  { destruct hit; [by injection H1 as <- <-|]. destruct dl1_access; [|by injection H1 as <- <-].
    destruct (_ && _); [|by injection H1 as <- <-]. by apply bind_ok in H1 as ([l2 h] & _ & [= <- <-]). }
  rewrite <- E1. destruct dtlb_access; [|by injection H as <- <-]. destruct (_ && _); [|by injection H as <- <-].
  by apply bind_ok in H as ([l2 h] & _ & [= <- <-]).
Qed.

Lemma issue_op_front rs (p p' : pipe (W:=W)) b : issue_op rs p = Ok (b, p') -> front p' = front p.
Proof.
  unfold issue_op. intros H. apply bind_ok in H as (s & _ & H). apply bind_ok in H as (ready & _ & H).
  destruct (_ || _); [done|]. apply bind_ok in H as (p1 & H1%on_win_front & H). rewrite <- H1. clear H1.
  destruct (_ && _).
  { apply bind_ok in H as (p2 & H2%on_win_front & H). apply bind_ok in H as (? & _ & H). apply bind_ok in H as (? & _ & H).
    destruct (_ || _); [done|]. destruct (recover_inst s); [done|]. by injection H as _ <-. }
  cbv zeta in H. destruct (negb _).
  - apply bind_ok in H as ([fu|] & _ & H).
    + apply bind_ok in H as (p2 & H2%on_win_front & H). apply bind_ok in H as (pool & _ & H). apply bind_ok in H as (t & _ & H).
      apply bind_ok in H as ([lat p3] & H3 & H). apply bind_ok in H as (p4 & H4%on_win_front & [= _ <-]).
      rewrite H4, <- H2. destruct rs; [by injection H3 as _ <-|]. destruct (_ && _); [|by injection H3 as _ <-].
      by apply load_latency_front in H3.
    + by apply bind_ok in H as (p2 & H2%on_win_front & [= _ <-]).
  - apply bind_ok in H as (p2 & H2%on_win_front & H). apply bind_ok in H as (p3 & H3%on_win_front & [= _ <-]). congruence.
Qed.

Lemma issue_loop_front nodes : forall n (p p' : pipe (W:=W)), issue_loop cfg nodes n p = Ok p' -> front p' = front p.
Proof.
  induction nodes as [|node nodes IH]; intros n p p' H; cbn [issue_loop] in H; [by injection H as <-|].
  apply bind_ok in H as (valid & _ & H). apply bind_ok in H as ([n1 p1] & H1 & H). rewrite (IH _ _ _ H).
  change (front p1 = front p). destruct valid; [|by injection H1 as _ <-]. destruct (n <? _).
  - apply bind_ok in H1 as ([b p2] & H2 & [= _ <-]). by apply issue_op_front in H2.
  - by apply bind_ok in H1 as (p2 & H2%on_win_front & [= _ <-]).
Qed.

Lemma ruu_issue_front (p p' : pipe (W:=W)) : ruu_issue cfg p = Ok p' -> front p' = front p.
Proof. intros H. by apply issue_loop_front in H. Qed.
End Front.

(** * Memory as the fetch unit reads it *)

Lemma mem_xfer_like hb n a buf q m m' buf' : mem_xfer hb Read n a buf q m = Ok (m', buf') -> mem_like m m'.
Proof.
  unfold mem_xfer. intros H. apply bind_ok in H as ([w m1] & HR & H). apply bind_ok in H as (b & _ & [= <- _]).
  rewrite (MEM_READ_table _ _ _ _ _ _ HR). apply mem_like_tickle.
Qed.

Lemma mem_xfer_words_like hb n : forall a buf q m m' buf', mem_xfer_words hb Read n a buf q m = Ok (m', buf') -> mem_like m m'.
Proof.
  induction n as [|n IH]; intros a buf q m m' buf' H; cbn [mem_xfer_words] in H; [by injection H as <- _|].
  apply bind_ok in H as ([m1 b1] & H1 & H). etransitivity; [by eapply mem_xfer_like|by eapply IH].
Qed.

Lemma mem_access_like hb ld a buf q n m m' buf' : mem_access hb ld Read a buf q n m = Ok (m', buf') -> mem_like m m'.
Proof.
  unfold mem_access. intros H. apply bind_ok in H as (? & _ & H). apply bind_ok in H as (? & _ & H). cbv zeta in H.
  etransitivity; [apply mem_like_track|].
  repeat (case_match; [by eapply mem_xfer_like|]). by eapply mem_xfer_words_like.
Qed.

Section Text.
Context `{E : SimEnv}.

(** The layout of the program text. *)
Record text_layout : Prop := {
  tl_base : 0 < ld_text_base env_ld;
  tl_size : 0 <= ld_text_size env_ld;
  tl_end : ld_text_base env_ld + ld_text_size env_ld < 2 ^ 31;
}.

(** The instruction the bytes of memory make. *)
Definition text_inst (m : mem_state) (pc : Z) : ss_inst :=
  mk_inst (host_combine (host_big env_cfg) (mem_bytes m pc 4)) (host_combine (host_big env_cfg) (mem_bytes m (pc + 4) 4)).

Lemma mem_bytes_8 m a : mem_bytes m a 8 = mem_bytes m a 4 ++ mem_bytes m (a + 4) 4.
Proof.
  unfold mem_bytes. change 8%nat with (4 + 4)%nat. rewrite seq_app, map_app. f_equal.
  cbn. by rewrite <- !Z.add_assoc.
Qed.

Lemma split_inst m pc :
  mk_inst (host_combine (host_big env_cfg) (take 4 (mem_bytes m pc 8))) (host_combine (host_big env_cfg) (drop 4 (mem_bytes m pc 8)))
    = text_inst m pc.
Proof. rewrite mem_bytes_8, take_app_length' by done. by rewrite drop_app_length' by done. Qed.

Lemma in_text_range pc : text_layout -> in_text pc = true -> 0 < pc < 2 ^ 31 /\ pc mod 8 = 0.
Proof.
  intros [H1 H2 H3]. unfold in_text. rewrite !andb_true_iff. intros [[Ha Hb] Hc].
  rewrite u32_small in Hb by lia. change (SS_INST_SIZE - 1) with (2 ^ 3 - 1) in Hc. rewrite land_mask in Hc by lia.
  change (2 ^ 3) with 8 in Hc. apply Z.leb_le in Ha. apply Z.ltb_lt in Hb. apply Z.eqb_eq in Hc. lia.
Qed.

Lemma text_fits pc : text_layout -> in_text pc = true -> fits pc 8.
Proof. intros Hl Ht. destruct (in_text_range _ Hl Ht) as [H1 H2]. apply (fits_aligned pc 3); [lia|lia|done|done]. Qed.

(** What sim-safe fetches. *)
Lemma fetch_inst_text pc m inst : text_layout -> in_text pc = true -> fetch_inst pc m = Ok inst -> inst = text_inst m pc.
Proof.
  intros Hl Ht H. unfold fetch_inst in H. apply bind_ok in H as (bs & Hb & [= <-]).
  assert (Hs : is_Some (mem_table m !! MEM_BLOCK pc)).
  { unfold unchk_read in Hb. destruct (mem_table m !! MEM_BLOCK pc); [by eexists|done]. }
  rewrite (unchk_read_spec 8) in Hb; [|by apply text_fits|done]. injection Hb as <-. apply split_inst.
Qed.

(** What sim-outorder and sim-cache fetch, through mem_access. *)
Lemma mem_access_in_text pc m : text_layout -> in_text pc = true -> bytes_ok m ->
  exists m', mem_access (host_big env_cfg) env_ld Read pc (repeat 0 8) 0 8 m = Ok (m', mem_bytes m pc 8).
Proof.
  intros Hl Ht Hb. destruct (in_text_range _ Hl Ht) as [Hr Hm].
  destruct (mem_access_spec (host_big env_cfg) env_ld Read pc (repeat 0 8) 0 8 m) as (m1 & b1 & H1 & _ & _ & _ & ->).
  - unfold in_text in Ht. rewrite !andb_true_iff in Ht. destruct Ht as [[Ha Hc] Hd]. destruct Hl as [? ? ?].
    assert (Hal : bad_align pc 8 = false).
    { change (bad_align pc 8) with (negb (Z.land pc 7 =? 0)). change (SS_INST_SIZE - 1) with 7 in Hd. by rewrite Hd. }
    assert (Hpe : mem_perm env_ld Read pc = true) by (unfold mem_perm; by rewrite Ha, Hc).
    unfold valid_access. split; [exact Hal|]. split; [exact Hpe|].
    apply Z.eqb_eq in Hd. change (SS_INST_SIZE - 1) with (2 ^ 3 - 1) in Hd. rewrite land_mask in Hd by lia. change (2 ^ 3) with 8 in Hd.
    Z.to_euclidean_division_equations. lia.
  - done.
  - done.
  - cbn. lia.
  - exists m1. rewrite H1. reflexivity.
Qed.

Lemma mem_access_text pc m m' bs :
  text_layout -> in_text pc = true -> bytes_ok m ->
  mem_access (host_big env_cfg) env_ld Read pc (repeat 0 8) 0 8 m = Ok (m', bs) -> bs = mem_bytes m pc 8.
Proof. intros Hl Ht Hb H. destruct (mem_access_in_text pc m Hl Ht Hb) as [m1 Hm1]. rewrite Hm1 in H. by injection H as _ <-. Qed.

(** The text is the same in two memories. *)
Definition same_text (m m' : mem_state) : Prop := forall pc, in_text pc = true -> text_inst m' pc = text_inst m pc.

Lemma mem_like_text m m' : mem_like m m' -> same_text m m'.
Proof. intros H%mem_like_bytes pc _. unfold text_inst. by rewrite !(mem_bytes_ext m m'). Qed.

End Text.

(** * The fetch queue *)

Section Queue.
Variable size : Z.
Hypothesis Hsize : pow2 size.

Lemma pow2_mod x : Z.land x (size - 1) = x mod size.
Proof.
  destruct Hsize as [Hp Hn]. apply not_pow2_spec in Hn as (k & Hk & ->); [|done]. by apply land_mask.
Qed.

(** The records in the queue, oldest first. *)
Definition fetch_queue (num head tail : Z) (data q : list fetch_rec) : Prop :=
  num = Z.of_nat (length q) /\ num <= size /\ 0 <= head < size /\ tail = (head + num) mod size /\
  length data = Z.to_nat size /\
  forall i e, q !! i = Some e -> data !! Z.to_nat ((head + Z.of_nat i) mod size) = Some e.

Lemma fetch_queue_empty head data :
  0 <= head < size -> length data = Z.to_nat size -> fetch_queue 0 head head data [].
Proof.
  intros Hh Hl. split; [done|]. split; [lia|]. split; [done|]. split; [by rewrite Z.add_0_r, Z.mod_small|]. by split.
Qed.

Lemma fetch_queue_pop num head tail data e q :
  fetch_queue num head tail data (e :: q) ->
  a_get data head = Ok e /\ fetch_queue (num - 1) (Z.land (head + 1) (size - 1)) tail data q.
Proof.
  intros (Hn & Hs & Hh & Ht & Hl & Hq). cbn [length] in Hn. rewrite pow2_mod. split.
  - pose proof (Hq 0%nat e eq_refl) as H0. rewrite Z.add_0_r, Z.mod_small in H0 by lia.
    unfold a_get. replace (head <? 0) with false by blia. unfold c_get. by rewrite H0.
  - split; [lia|]. split; [lia|]. split; [apply Z.mod_pos_bound; lia|]. split.
    + rewrite Ht, Zplus_mod_idemp_l. f_equal. lia.
    + split; [done|]. intros i x Hi. rewrite Zplus_mod_idemp_l. rewrite <- (Hq (S i) x Hi). f_equal. f_equal. f_equal. lia.
Qed.

Lemma fetch_queue_push num head tail data q e data' :
  fetch_queue num head tail data q -> num < size -> a_set data tail e = Ok data' ->
  fetch_queue (1 + num) head (Z.land (tail + 1) (size - 1)) data' (q ++ [e]).
Proof.
  intros (Hn & Hs & Hh & Ht & Hl & Hq) Hlt Hd. rewrite pow2_mod.
  pose proof (Z.mod_pos_bound (head + num) size ltac:(lia)) as Hb. rewrite <- Ht in Hb.
  assert (Hd' : data' = <[Z.to_nat tail := e]> data).
  { unfold a_set in Hd. replace (tail <? 0) with false in Hd by blia. unfold c_upd in Hd.
    destruct (data !! Z.to_nat tail); [|done]. by injection Hd as <-. }
  split; [rewrite length_app; cbn; lia|]. split; [lia|]. split; [done|]. split.
  - rewrite Ht, Zplus_mod_idemp_l. f_equal. lia.
  - split; [by rewrite Hd', length_insert|]. intros i x Hi. rewrite Hd'.
    apply lookup_app_Some in Hi as [Hi|[Hge Hi]].
    + rewrite list_lookup_insert_ne; [by apply Hq|]. apply lookup_lt_Some in Hi. rewrite Ht. intros Heq.
      pose proof (Z.mod_pos_bound (head + num) size ltac:(lia)). pose proof (Z.mod_pos_bound (head + Z.of_nat i) size ltac:(lia)).
      apply Z2Nat.inj in Heq; [|lia..].
      pose proof (Z.div_mod (head + num) size ltac:(lia)) as D1. pose proof (Z.div_mod (head + Z.of_nat i) size ltac:(lia)) as D2.
      rewrite Heq in D1. set (q1 := (head + num) / size) in *. set (q2 := (head + Z.of_nat i) / size) in *.
      assert (Hx : num - Z.of_nat i = size * (q1 - q2)) by lia. set (d := q1 - q2) in *. clearbody d. clear -Hx Hi Hn Hlt. destruct (Z.le_gt_cases d 0); nia.
    + apply list_lookup_singleton_Some in Hi as [Hi <-]. assert (i = length q) as -> by lia.
      rewrite <- Hn, <- Ht. rewrite list_lookup_insert_eq; [done|]. lia.
Qed.

(** Each record starts where the one before it is predicted to go. *)
Fixpoint chained (pc : Z) (q : list fetch_rec) (last : Z) : Prop :=
  match q with [] => pc = last | e :: q' => f_PC e = pc /\ chained (f_pred_PC e) q' last end.

Lemma chained_snoc pc q last e : chained pc q last -> f_PC e = last -> chained pc (q ++ [e]) (f_pred_PC e).
Proof.
  revert pc. induction q as [|e' q IH]; intros pc; cbn; [by intros ->|]. intros [H1 H2] He. split; [done|]. by apply IH.
Qed.
End Queue.

(** * Instructions do not change the mode *)

Section Mode.
Context {E : SimEnv} {fp : HostFP}.
Variable bugcompat : bool.
#[local] Hint Extern 0 (Machine tracer) => exact (tracer_machine bugcompat) : typeclass_instances.

(** Out of mis-speculation, with registers in range. *)
Definition right_mode (s1 s2 : tracer) : Prop :=
  s1 = s2 /\ spec_mode s1 = false /\ Forall is_int (regs_R (g_regs s1)) /\ Forall is_int (spec_regs_R s1).

Lemma right_mode_step (f : tracer -> outcome tracer) s1 s2 :
  right_mode s1 s2 -> (forall s', f s1 = Ok s' -> right_mode s' s') -> osim True right_mode (f s1) (f s2).
Proof.
  intros (-> & _) Hf. destruct (f s2) as [s'| | | | | |] eqn:H; try done. exists s'. split; [done|]. by apply Hf.
Qed.

Lemma osim_eq {A : Type} (m : outcome A) : osim True eq m m.
Proof. destruct m; cbn; try done. eauto. Qed.

Lemma tg_access_mode cmd t s s' :
  spec_mode s = false -> tg_access bugcompat cmd t s = Ok s' ->
  spec_mode s' = false /\ g_regs s' = g_regs s /\ spec_regs_R s' = spec_regs_R s.
Proof.
  intros Hm H. unfold tg_access in H. rewrite Hm in H. apply bind_ok in H as ([s1 p] & H1 & [= <-]).
  by apply bind_ok in H1 as ([m b] & _ & [= <- _]).
Qed.

#[local] Instance right_mode_sim :
  MachineSim (M1:=tracer_machine bugcompat) (M2:=tracer_machine bugcompat) True right_mode.
Proof.
  split.
  - by intros s1 s2 [-> _].
  - by intros v s1 s2 [-> ?].
  - by intros v s1 s2 [-> ?].
  - intros r s1 s2 [-> _]. apply osim_eq.
  - intros r s1 s2 HR. apply right_mode_step; [done|]. destruct HR as (-> & Hm & ?). cbn. unfold tg_MARK_GPR. rewrite Hm. by intros ? [= <-].
  - intros r v s1 s2 HR. apply right_mode_step; [done|]. destruct HR as (-> & Hm & Hi & Hs). cbn. unfold tg_SET_GPR. rewrite Hm.
    intros s' H. apply bind_ok in H as (R & HR & [= <-]). split; [done|]. split; [done|]. split; [|done]. by eapply z_set_int.
  - intros r s1 s2 [-> _]. apply osim_eq.
  - intros r s1 s2 HR. apply right_mode_step; [done|]. destruct HR as (-> & Hm & ?). cbn. unfold tg_MARK_FPR. rewrite Hm. by intros ? [= <-].
  - intros r v s1 s2 HR. apply right_mode_step; [done|]. destruct HR as (-> & Hm & ?). cbn. unfold tg_SET_FPR_L. rewrite Hm.
    intros s' H0. by apply bind_ok in H0 as (R & HR & [= <-]).
  - by intros s1 s2 [-> _].
  - intros v s1 s2 (-> & Hm & ?). split; [done|]. cbn. unfold tg_SET_HI. by rewrite Hm.
  - by intros s1 s2 [-> _].
  - intros v s1 s2 (-> & Hm & ?). split; [done|]. cbn. unfold tg_SET_LO. by rewrite Hm.
  - by intros s1 s2 [-> _].
  - intros v s1 s2 (-> & Hm & ?). split; [done|]. cbn. unfold tg_SET_FCC. by rewrite Hm.
  - intros t a s1 s2 (-> & Hm & Hi). change (READ_MEM t a s2) with (READ_SPECMEM bugcompat t a s2). unfold READ_SPECMEM.
    destruct (tg_access bugcompat Read t _) as [s'| | | | | |] eqn:H; cbn [mbind outcome_bind]; try done.
    apply osim_ok. split; [done|]. apply tg_access_mode in H as (H1 & H2 & H3); [|done]. split; [done|]. cbn. by rewrite H2, H3.
  - intros t v a s1 s2 HR. apply right_mode_step; [done|]. destruct HR as (-> & Hm & Hi).
    intros s' H. apply tg_access_mode in H as (H1 & H2 & H3); [|done]. split; [done|]. by rewrite H1, H2, H3.
  - intros r s1 s2 x (-> & Hm & Hi & Hs). cbn. unfold tg_GPR. intros H. apply bind_ok in H as (b & _ & H).
    destruct b; by eapply z_get_int; [|exact H].
  - intros r v s1 s2 (-> & Hm & ?). cbn. unfold tg_SET_LO. by rewrite Hm.
  - intros s1 s2 HR. apply right_mode_step; [done|]. destruct HR as (-> & Hm & ?). cbn. unfold tg_IFAIL. by rewrite Hm.
  - intros a b _. apply osim_eq.
  - intros a b _. apply osim_eq.
  - by left.
  - intros s1 s2 s _ _. split; [|split; [|done]]; intros; apply osim_eq.
Qed.

Lemma dispatch_exec_mode inst pc s op s' :
  spec_mode s = false -> Forall is_int (regs_R (g_regs s)) -> Forall is_int (spec_regs_R s) ->
  dispatch_exec bugcompat inst pc s = Ok (op, s') -> spec_mode s' = false.
Proof.
  intros Hm Hi Hs H. unfold dispatch_exec in H. cbv zeta in H. apply bind_ok in H as (? & _ & H).
  apply bind_ok in H as (R & HR & H). apply bind_ok in H as (SR & HS & H). set (s1 := set_field g_addr _ _) in H.
  assert (H1 : right_mode s1 s1).
  { split; [done|]. split; [done|]. split; [exact (z_set_int _ _ _ _ HR Hi)|exact (z_set_int _ _ _ _ HS Hs)]. }
  clearbody s1. clear HR HS. destruct (opcode_of_val (SS_OPCODE inst)) as [o|]; [|by injection H as _ <-; apply H1].
  destruct (decide (o = OP_NA)) as [->|Hna]; [injection H as _ <-; apply H1|].
  assert (Ho : (s' ← execute env_cfg o inst s1; Ok (o, s')) = Ok (op, s')) by (by destruct o). clear H.
  apply bind_ok in Ho as (s2 & H2 & [= _ <-]).
  destruct (decide (o = SYSCALL)) as [->|Hsy].
  - cbn in H2. unfold tg_SYSCALL in H2. destruct H1 as (_ & Hm1 & _). rewrite Hm1 in H2.
    by apply bind_ok in H2 as ([[r m] h] & _ & [= <-]).
  - pose proof (execute_sim (M1:=tracer_machine bugcompat) (M2:=tracer_machine bugcompat) (sim:=right_mode_sim)
      env_cfg o inst s1 s1 (fun _ => eq_refl) (fun H => False_ind _ (Hsy H)) Hna H1) as Hx.
    rewrite H2 in Hx. destruct Hx as (s3 & [= <-] & Hx). apply Hx.
Qed.
End Mode.

(** * The relation between the two simulators *)

Section Program.
Context {E : SimEnv} {L : SyscallLaws} {fp : HostFP} {W : Type} `{hierarchy : MemHier W}.
Variable cfg : pipe_config.
Hypothesis Hsize : pow2 (ruu_ifq_size cfg).
Hypothesis Hlayout : text_layout.

(** The program that sim-safe runs from [s0]: [N] instructions without a
    fault, none of them a conversion to int, all of them in the text segment,
    which the program does not write. *)
Variable s0 : safe_state.
Variable N : nat.

Record program_runs : Prop := {
  pr_run k : (k <= N)%nat -> exists s, sim_safe_run k s0 = Ok s /\ in_text (regs_PC (s_regs s)) = true /\
    same_text (s_mem s0) (s_mem s);
  pr_conv k s op : (k < N)%nat -> sim_safe_run k s0 = Ok s ->
    opcode_of_val (SS_OPCODE (text_inst (s_mem s0) (regs_PC (s_regs s)))) = Some op -> op <> CVT_W_S /\ op <> CVT_W_D;
}.
Hypothesis Hprog : program_runs.

(** Past a mispredicted branch: what is left of the architected state. *)
Definition wrong_path (s : safe_state) (t : tracer) : Prop :=
  (s_next_PC s = u32 (regs_PC (s_regs s) + SS_INST_SIZE) /\ regs_ok (s_regs s) /\ pages_ok (s_mem s)) /\
  exists r0, at_inst 0 r0 = at_inst 0 (s_regs s) /\ speculating r0 (s_mem s, s_host s) t.

Definition ir_ok (e : fetch_rec) : Prop :=
  f_IR e = if in_text (f_PC e) then text_inst (s_mem s0) (f_PC e) else SS_NOP_INST.

(** The fetch queue holds the predicted continuation of the program. *)
Definition fetch_path (pc : Z) (f : fetch_vars) (data : list fetch_rec) : Prop :=
  exists q, fetch_queue (ruu_ifq_size cfg) (fetch_num f) (fetch_head f) (fetch_tail f) data q /\
    chained pc q (fetch_pred_PC f) /\ Forall ir_ok q.

(** The pipeline has executed the program up to [s]. *)
Definition program_at (s : safe_state) (t : tracer) (f : fetch_vars) (data : list fetch_rec) : Prop :=
  if spec_mode t then
    recover_PC f = regs_PC (s_regs s) /\ length data = Z.to_nat (ruu_ifq_size cfg) /\ wrong_path s t
  else same_arch s t /\ fetch_path (regs_PC (s_regs s)) f data.

Definition tracks (p : pipe (W:=W)) : Prop :=
  Z.of_nat N < sim_num_insn (stats p) \/
  exists k s, sim_num_insn (stats p) = Z.of_nat k /\ (k <= N)%nat /\ sim_safe_run k s0 = Ok s /\
    program_at s (trc p) (ftc p) (fetch_data p).

Lemma tracks_front p p' : front p' = front p -> tracks p -> tracks p'.
Proof. unfold front, tracks. by intros [= -> -> -> ->]. Qed.

(** ** The trace generator *)

Lemma wrong_path_enter s t : same_arch s t -> wrong_path s (t <| spec_mode := true |>).
Proof.
  intros [Hr Hn Hm Hp Hok Hgok Hpg Hsp Hh]. split; [done|]. exists (g_regs t). split; [done|].
  split; try done; cbn.
  - apply Hgok.
  - by rewrite (on_use_R _ Hp).
  - by rewrite (on_use_F _ Hp).
  - by rewrite (on_table _ Hp), repeat_length.
Qed.

(** Clearing $r0 and moving the PC. *)
Lemma at_inst_at_inst pc pc' r : at_inst pc (at_inst pc' r) = at_inst pc r.
Proof. unfold at_inst. cbn. by rewrite list_insert_insert_eq. Qed.

Lemma at_inst_eq pc r r' : at_inst 0 r = at_inst 0 r' -> at_inst pc r = at_inst pc r'.
Proof. intros H. rewrite <- (at_inst_at_inst pc 0 r), H. apply at_inst_at_inst. Qed.

Lemma wrong_path_step s t inst pc op t' :
  wrong_path s t -> dispatch_exec (bugcompat_mode cfg) inst pc t = Ok (op, t') -> wrong_path s t'.
Proof.
  intros [Hs (r0 & Hr & Hsp)] H. split; [done|].
  assert (Ht : is_trap inst = false).
  { destruct (is_trap inst) eqn:Et; [|done]. exfalso. unfold is_trap in Et. unfold dispatch_exec in H. cbv zeta in H.
    destruct (opcode_of_val _) as [o|]; [|done]. rewrite Et in H. lazymatch type of H with context [spec_mode ?x] => change (spec_mode x) with (spec_mode t) in H end.
    by rewrite (sp_mode _ _ _ Hsp) in H. }
  destruct (dispatch_speculating (bugcompat_mode cfg) inst pc r0 (s_mem s, s_host s) t Hsp Ht) as [_ Ho].
  exists (at_inst pc r0). split; [by rewrite at_inst_at_inst|by eapply Ho].
Qed.

Lemma wrong_path_recover s t f t' f' :
  wrong_path s t -> tracer_recover t f = Ok (t', f') ->
  same_arch s t' /\ spec_mode t' = false /\ f' = f <| fetch_num := 0 |> <| fetch_tail := 0 |> <| fetch_head := 0 |>
           <| fetch_regs_PC := recover_PC f |> <| fetch_pred_PC := recover_PC f |>.
Proof.
  intros [(Hn & Hok & Hpg) (r0 & Hr & Hsp)] H. destruct (tracer_recover_eq _ _ _ f Hsp) as [free E1].
  rewrite E1 in H. injection H as <- <-. destruct (recovered_spec _ _ free _ Hsp) as (Hp & Hg & Hm & Hh).
  assert (Hs : spec_regs_R (recovered free t) = spec_regs_R t) by reflexivity.
  generalize dependent (recovered free t). intros t2 _ Hp Hg Hm Hh Hs. split; [|split; [apply Hp|reflexivity]].
  split; try done.
  - by rewrite Hg.
  - rewrite Hg. destruct Hok as [H1 H2 _]. injection Hr as e1 e2 _ _ _. change (Z.to_nat 0) with 0%nat in *. split.
    + by rewrite <- (length_insert (regs_R r0) 0 0), e1, length_insert.
    + by rewrite e2.
    + apply Hsp.
  - rewrite Hs. apply Hsp.
Qed.

Lemma program_at_mem s t f data m' : mem_like (g_mem t) m' -> program_at s t f data -> program_at s (t <| g_mem := m' |>) f data.
Proof.
  intros Hm. unfold program_at. change (spec_mode (t <| g_mem := m' |>)) with (spec_mode t). destruct (spec_mode t).
  - intros (H1 & H2 & H3 & r0 & H4 & H5). split; [done|]. split; [done|]. split; [done|]. exists r0. split; [done|].
    destruct H5. split; try done. cbn. by etransitivity.
  - intros [[Hr Hn Hml [] Hok Hgok Hpg Hsp] Hq]. split; [|done]. split; try done; cbn; by etransitivity.
Qed.

Lemma program_at_pc s t f data pc :
  program_at s t f data -> program_at s (t <| g_regs ::= set_field regs_PC (fun _ => pc) |>) f data.
Proof.
  unfold program_at. change (spec_mode (t <| g_regs ::= set_field regs_PC (fun _ => pc) |>)) with (spec_mode t).
  destruct (spec_mode t).
  - intros (H1 & H2 & H3 & r0 & H4 & H5). split; [done|]. split; [done|]. split; [done|].
    exists (r0 <| regs_PC := pc |>). split; [done|]. destruct H5. subst r0. by split.
  - intros [[Hr Hn Hml [] [] [] Hpg Hsp] Hq]. split; [|done]. split; try done; by split.
Qed.

(** ** Writeback *)

Lemma recover_from_tracks rs s p p' : recover_from cfg rs s p = Ok p' -> tracks p -> tracks p'.
Proof.
  unfold recover_from. intros H Ht. destruct rs; [|done]. apply bind_ok in H as (p1 & H1%on_win_front & H).
  apply bind_ok in H as ([t f] & Hrec & [= <-]). apply (tracks_front _ _ H1) in Ht.
  destruct Ht as [Hb|(k & st & Hk & Hle & Hrun & Hat)]; [by left|]. right. exists k, st. split; [done|]. split; [done|]. split; [done|].
  cbn. unfold program_at in *. destruct (spec_mode (trc p1)) eqn:Hm.
  - destruct Hat as (Hpc & Hl & Hw). destruct (wrong_path_recover _ _ _ _ _ Hw Hrec) as (Ha & -> & ->). split; [done|].
    exists []. split; [|split; [|done]].
    + cbn. apply fetch_queue_empty; [destruct Hsize; lia|done].
    + cbn. by rewrite Hpc.
  - unfold tracer_recover in Hrec. by rewrite Hm in Hrec.
Qed.

Lemma writeback_inst_tracks rs p p' : writeback_inst cfg rs p = Ok p' -> tracks p -> tracks p'.
Proof.
  unfold writeback_inst. intros H Ht. apply bind_ok in H as (s & _ & H). apply bind_ok in H as (ready & _ & H).
  destruct (_ || _); [done|]. apply bind_ok in H as (p1 & H1%on_win_front & H). apply bind_ok in H as (p2 & H2 & H).
  apply bind_ok in H as (p3 & H3 & H4%on_win_front). apply (tracks_front _ _ H4).
  assert (Ht2 : tracks p2).
  { apply (tracks_front _ _ H1) in Ht. destruct (recover_inst s); [|by injection H2 as <-].
    destruct (in_LSQ s); [done|]. by eapply recover_from_tracks. }
  destruct (in_LSQ s); [by injection H3 as <-|]. by apply update_pred_at_front, tracks_front in H3.
Qed.

Lemma writeback_loop_tracks fuel : forall p p', writeback_loop cfg fuel p = Ok p' -> tracks p -> tracks p'.
Proof.
  induction fuel as [|fuel IH]; intros p p' H Ht; [done|]. cbn [writeback_loop] in H. apply bind_ok in H as ([r w] & _ & H).
  cbv zeta in H. assert (Ht1 : tracks (p <| win := w |>)) by (by eapply tracks_front; [|exact Ht]).
  destruct r as [rs|]; [|by injection H as <-]. apply bind_ok in H as (p1 & H1 & H). eapply IH; [exact H|]. by eapply writeback_inst_tracks.
Qed.

(** ** Dispatch *)

Lemma sim_safe_run_snoc n : forall s s', sim_safe_run (S n) s = Ok s' <->
  exists s1, sim_safe_run n s = Ok s1 /\ sim_safe_step s1 = Ok s'.
Proof.
  induction n as [|n IH]; intros s s'.
  - cbn [sim_safe_run]. split.
    + intros H. apply bind_ok in H as (s1 & H1 & [= <-]). by exists s.
    + intros (s1 & [= <-] & H). by rewrite H.
  - change (sim_safe_run (S (S n)) s) with (s1 ← sim_safe_step s; sim_safe_run (S n) s1).
    change (sim_safe_run (S n) s) with (s1 ← sim_safe_step s; sim_safe_run n s1). split.
    + intros H. apply bind_ok in H as (s1 & H1 & H). apply IH in H as (s2 & H2 & H3). exists s2. split; [|done].
      by rewrite H1.
    + intros (s2 & H & H3). apply bind_ok in H as (s1 & H1 & H). rewrite H1. apply IH. by exists s2.
Qed.

Lemma count_refs_num op spec c : sim_num_insn (count_refs op spec c) = sim_num_insn c.
Proof. unfold count_refs. destruct (is_mem op); [|done]. destruct spec; by destruct (truth (Z.land _ _)). Qed.

Lemma count_inst_num op spec c : sim_num_insn (count_inst op spec c) = sim_num_insn c + (if spec then 0 else 1).
Proof. unfold count_inst. destruct (truth (Z.land _ _)); destruct spec; cbn; lia. Qed.

(** What the rest of the loop body does to the front end. *)
Definition after_dispatch (rec : fetch_rec) (op : ss_opcode) (t : tracer) (f : fetch_vars) : bool * tracer * fetch_vars :=
  let next := g_next_PC t in
  let fix_up := misfetch cfg op (f_PC rec) next (g_target_PC t) (f_pred_PC rec) in
  let enter := negb (spec_mode t) && negb fix_up && negb (f_pred_PC rec =? next) in
  let f := if fix_up then f <| fetch_pred_PC := next |> <| fetch_regs_PC := next |>
                             <| fetch_head := ruu_ifq_size cfg - 1 |> <| fetch_num := 1 |> <| fetch_tail := 0 |> else f in
  let f := if enter then f <| recover_PC := next |> else f in
  (fix_up, if enter then t <| spec_mode := true |> else t,
   f <| fetch_head := Z.land (fetch_head f + 1) (ruu_ifq_size cfg - 1) |> <| fetch_num := fetch_num f - 1 |>).

Lemma dispatch_inst_front rec op (p : pipe (W:=W)) used red p' :
  dispatch_inst cfg rec op false p = Ok (used, red, p') ->
  (red, trc p', ftc p') = after_dispatch rec op (trc p) (ftc p) /\ fetch_data p' = fetch_data p /\
  sim_num_insn (stats p') = sim_num_insn (stats p) + (if spec_mode (trc p) then 0 else 1).
Proof.
  unfold dispatch_inst, after_dispatch. cbv zeta. rewrite orb_false_l.
  set (fix_up := misfetch _ _ _ _ _ _). set (p1 := p <| stats ::= _ |>).
  set (p2 := if fix_up then _ else p1).
  assert (F2 : trc p2 = trc p /\ fetch_data p2 = fetch_data p /\ sim_num_insn (stats p2) = sim_num_insn (stats p) /\
    ftc p2 = if fix_up then (ftc p) <| fetch_pred_PC := g_next_PC (trc p) |> <| fetch_regs_PC := g_next_PC (trc p) |>
      <| fetch_head := ruu_ifq_size cfg - 1 |> <| fetch_num := 1 |> <| fetch_tail := 0 |> else ftc p).
  { unfold p2. destruct fix_up.
    - unfold redirect_fetch. destruct (pred_perfect cfg); cbn; by rewrite count_refs_num.
    - cbn. by rewrite count_refs_num. }
  destruct F2 as (Ft2 & Fd2 & Fs2 & Ff2). clearbody p2. clear p1.
  intros H. apply bind_ok in H as (p3 & H3 & H).
  assert (F3 : front p3 = front p2).
  { case_bool_decide; [by injection H3 as <-|by apply on_win_front in H3]. }
  injection F3 as Ft3 Ff3 Fd3 Fs3. clear H3. apply bind_ok in H as (p4 & H4 & [= _ <- <-]). cbn [trc ftc fetch_data stats].
  set (p3' := p3 <| stats ::= count_inst op (spec_mode (trc p)) |>) in *.
  assert (Fs3' : sim_num_insn (stats p3') = sim_num_insn (stats p) + (if spec_mode (trc p) then 0 else 1)).
  { unfold p3'. cbn. by rewrite count_inst_num, Fs3, Fs2. }
  assert (Ft3' : trc p3' = trc p) by (by rewrite <- Ft2, <- Ft3).
  assert (Ff3' : ftc p3' = ftc p2) by (by rewrite <- Ff3). assert (Fd3' : fetch_data p3' = fetch_data p) by (by rewrite <- Fd2, <- Fd3).
  clearbody p3'. clear Ft3 Ff3 Fd3 Fs3 Ft2 Fd2 Fs2. rewrite <- Ff2, <- Ff3'. clear Ff2 Ff3' p3. rename p3' into p7.
  destruct (spec_mode (trc p)) eqn:Hm; cbn [negb andb].
  { injection H4 as <-. rewrite Ft3', Fd3'. done. }
  apply bind_ok in H4 as (p5 & H5 & H4).
  assert (F5 : front p5 = front p7).
  { destruct (_ && _); [by apply update_pred_front in H5|by injection H5 as <-]. }
  injection F5 as Ft5 Ff5 Fd5 Fs5. clear H5.
  rewrite <- Fs3'. rewrite Ft3' in Ft5. rewrite Fd3' in Fd5. rewrite andb_comm in H4. destruct fix_up; cbn [negb andb] in *.
  { injection H4 as <-. rewrite Ft5, Fd5, Ff5, Fs5. done. }
  destruct (negb (f_pred_PC rec =? g_next_PC (trc p))); cbn [negb andb] in *.
  - unfold enter_spec_mode in H4. apply bind_ok in H4 as (rs & _ & H4). apply bind_ok in H4 as (p6 & H6%on_win_front & [= <-]).
    injection H6 as e1 e2 e3 e4. cbn. rewrite e1, e2, e3, e4. cbn. rewrite Ft5, Fd5, Ff5, Fs5. done.
  - injection H4 as <-. rewrite Ft5, Fd5, Ff5, Fs5. done.
Qed.

Lemma sim_safe_step_fetch s s' : sim_safe_step s = Ok s' ->
  exists inst op, fetch_inst (regs_PC (s_regs s)) (s_mem s) = Ok inst /\ opcode_of_val (SS_OPCODE inst) = Some op.
Proof.
  unfold sim_safe_step. intros H. apply bind_ok in H as (s1 & H1 & H). apply bind_ok in H as (inst & Hi & H).
  apply bind_ok in H as (op & Hop & _). exists inst, op.
  unfold safe_SET_GPR in H1. apply bind_ok in H1 as (R & _ & [= <-]). cbn in Hi. split; [done|].
  destruct (opcode_of_val _); [by injection Hop as ->|done].
Qed.

(** An instruction of the program. *)
Lemma dispatch_right k s rec op t t' f data q :
  sim_safe_run k s0 = Ok s -> (k < N)%nat -> same_arch s t -> ir_ok rec -> f_PC rec = regs_PC (s_regs s) ->
  fetch_queue (ruu_ifq_size cfg) (fetch_num f) (fetch_head f) (fetch_tail f) data (rec :: q) ->
  chained (f_pred_PC rec) q (fetch_pred_PC f) -> Forall ir_ok q ->
  dispatch_exec (bugcompat_mode cfg) (f_IR rec) (f_PC rec) t = Ok (op, t') ->
  let '(red, t2, f2) := after_dispatch rec op t' f in
  spec_mode t' = false /\ (red = true -> fetch_num f2 = 0) /\
  exists s', sim_safe_run (S k) s0 = Ok s' /\ program_at s' t2 f2 data.
Proof.
  intros Hk HkN Ha Hir HPC Hq Hch Hirs Hd.
  destruct (pr_run Hprog (S k) HkN) as (s' & Hs' & _ & _). pose proof Hs' as Hstep.
  apply sim_safe_run_snoc in Hstep as (s1 & H1 & Hstep). rewrite Hk in H1. injection H1 as <-.
  destruct (pr_run Hprog k ltac:(lia)) as (s1 & H1 & Htext & Hsame). rewrite Hk in H1. injection H1 as <-.
  destruct (sim_safe_step_fetch _ _ Hstep) as (inst & o & Hi & Ho).
  assert (Hinst : f_IR rec = inst).
  { rewrite Hir, HPC, Htext. rewrite (fetch_inst_text _ _ _ Hlayout Htext Hi). symmetry. by apply Hsame. }
  assert (Hc : o <> CVT_W_S /\ o <> CVT_W_D).
  { apply (pr_conv Hprog k s); [done|done|]. rewrite <- Ho, <- Hinst, Hir, HPC, Htext. done. }
  destruct (right_path_step (bugcompat_mode cfg) inst o s s' t Ha Hi Ho (proj1 Hc) (proj2 Hc) Hstep) as (g & Hg & Ha' & Hnext & _).
  rewrite Hinst, HPC, Hg in Hd. injection Hd as <- <-. unfold after_dispatch. cbv zeta.
  assert (Hm : spec_mode g = false) by apply (sa_path _ _ Ha'). rewrite Hm. cbn [negb andb].
  set (fix_up := misfetch _ _ _ _ _ _). destruct (fetch_queue_pop _ Hsize _ _ _ _ _ _ Hq) as [_ Hq'].
  destruct fix_up; cbn [negb andb].
  - split; [done|]. split; [done|]. exists s'. split; [done|]. unfold program_at. rewrite Hm. split; [done|]. exists [].
    split; [|split; [|done]].
    + destruct Hq as (_ & _ & _ & _ & Hl & _). cbn.
      rewrite (pow2_mod _ Hsize), Z.sub_add, Z_mod_same_full. apply fetch_queue_empty; [destruct Hsize; lia|done].
    + cbn. by rewrite Hnext.
  - split; [done|]. split; [done|]. exists s'. split; [done|]. rewrite Hnext.
    destruct (Z.eqb_spec (f_pred_PC rec) (regs_PC (s_regs s'))) as [Hpr|Hpr]; cbn [negb].
    + unfold program_at. rewrite Hm. split; [done|]. exists q. split; [exact Hq'|]. split; [|done]. by rewrite <- Hpr.
    + unfold program_at. cbn [spec_mode set_field]. change (spec_mode (g <| spec_mode := true |>)) with true.
      split; [done|]. split; [apply Hq|]. by apply wrong_path_enter.
Qed.

(** An instruction past a mispredicted branch. *)
Lemma dispatch_wrong s rec op t t' f data :
  spec_mode t = true -> program_at s t f data ->
  dispatch_exec (bugcompat_mode cfg) (f_IR rec) (f_PC rec) t = Ok (op, t') ->
  let '(red, t2, f2) := after_dispatch rec op t' f in
  spec_mode t' = true /\ (red = true -> fetch_num f2 = 0) /\ program_at s t2 f2 data.
Proof.
  intros Hm Hat Hd. unfold program_at in Hat. rewrite Hm in Hat. destruct Hat as (Hpc & Hl & Hw).
  apply (wrong_path_step _ _ _ _ _ _ Hw) in Hd. assert (Hm' : spec_mode t' = true) by (destruct Hd as (_ & r0 & _ & Hs); apply (sp_mode _ _ _ Hs)).
  unfold after_dispatch. cbv zeta. rewrite Hm'. cbn [negb andb].
  set (fix_up := misfetch _ _ _ _ _ _). split; [done|]. split; [by intros ->|].
  unfold program_at. rewrite Hm'. split; [|done]. by destruct fix_up.
Qed.

Lemma after_dispatch_empty red rec op t f t' f' :
  (red, t', f') = after_dispatch rec op t f -> red = true -> fetch_num f' = 0.
Proof. unfold after_dispatch. cbv zeta. intros [= -> _ ->] ->. by rewrite andb_false_r. Qed.

Lemma dispatch_loop_tracks fuel : forall n red (p p' : pipe (W:=W)),
  dispatch_loop cfg fuel n red p = Ok p' -> (red = true -> fetch_num (ftc p) = 0) -> tracks p -> tracks p'.
Proof.
  induction fuel as [|fuel IH]; intros n red p p' H Hred Ht; [done|]. cbn [dispatch_loop] in H.
  destruct (_ && _) eqn:Hc in H; [|by injection H as <-]. rewrite !andb_true_iff in Hc. destruct Hc as [[_ Hnum] _].
  apply bind_ok in H as (blocked & _ & H). destruct blocked; [by injection H as <-|].
  apply bind_ok in H as (rec & Hrec & H). apply bind_ok in H as (o & _ & H).
  destruct (_ && _) eqn:Htrap in H.
  { injection H as <-. destruct Ht as [Hb|(k & s & Hk & Hle & Hrun & Hat)]; [by left|]. right. exists k, s.
    split; [done|]. split; [done|]. split; [done|]. by apply program_at_pc. }
  apply bind_ok in H as ([op t] & Hd & H). apply bind_ok in H as ([[used red'] p1] & Hi & H).
  assert (red = false) as ->.
  { destruct red; [|done]. rewrite (Hred eq_refl) in Hnum. done. }
  destruct (dispatch_inst_front _ _ _ _ _ _ Hi) as (Haf & Hdata & Hins). cbn [trc ftc fetch_data stats] in *.
  change (trc (p <| trc := t |>)) with t in *. change (ftc (p <| trc := t |>)) with (ftc p) in *.
  change (fetch_data (p <| trc := t |>)) with (fetch_data p) in *. change (stats (p <| trc := t |>)) with (stats p) in *.
  assert (Hgoal : (red' = true -> fetch_num (ftc p1) = 0) /\ tracks p1).
  { destruct Ht as [Hb|(k & s & Hk & Hle & Hrun & Hat)].
    - split; [|left; rewrite Hins; destruct (spec_mode t); lia].
      by eapply after_dispatch_empty.
    - destruct (spec_mode (trc p)) eqn:Hm.
      + pose proof (dispatch_wrong s rec op (trc p) t (ftc p) (fetch_data p) Hm Hat Hd) as Hw.
        rewrite <- Haf in Hw. destruct Hw as (Hm' & Hr & Hat'). split; [done|]. right. exists k, s.
        rewrite Hins, Hm', Hdata. split; [lia|done].
      + unfold program_at in Hat. rewrite Hm in Hat. destruct Hat as (Ha & q & Hq & Hch & Hirs).
        destruct q as [|e q]; [destruct Hq as [Hq _]; cbn in Hq; rewrite Hq in Hnum; done|].
        destruct (fetch_queue_pop _ Hsize _ _ _ _ _ _ Hq) as [Hrec' _]. rewrite Hrec in Hrec'. injection Hrec' as <-.
        apply Forall_cons in Hirs as [Hir Hirs]. destruct Hch as [HPC Hch].
        destruct (decide (k < N)%nat) as [HkN|HkN].
        * pose proof (dispatch_right k s rec op (trc p) t (ftc p) (fetch_data p) q Hrun HkN Ha Hir HPC Hq Hch Hirs Hd) as Hw.
          rewrite <- Haf in Hw. destruct Hw as (Hm' & Hr & s' & Hs' & Hat'). split; [done|]. right. exists (S k), s'.
          rewrite Hins, Hm', Hdata. split; [lia|]. split; [lia|done].
        * split.
          -- by eapply after_dispatch_empty.
          -- left. rewrite Hins, (dispatch_exec_mode _ _ _ _ _ _ Hm (regs_R_int _ (sa_gok _ _ Ha)) (proj1 (sa_spec _ _ Ha)) Hd). lia. }
  destruct Hgoal as [Hr Htr]. eapply IH; [exact H|exact Hr|exact Htr].
Qed.
(** ** Fetch *)

Lemma fetch_access_front (p p' : pipe (W:=W)) inst lat : fetch_access cfg p = Ok (inst, lat, p') ->
  ftc p' = ftc p /\ fetch_data p' = fetch_data p /\ stats p' = stats p /\
  (exists m, mem_like (g_mem (trc p)) m /\ trc p' = (trc p) <| g_mem := m |>) /\
  (bytes_ok (g_mem (trc p)) ->
   inst = if in_text (fetch_regs_PC (ftc p)) then text_inst (g_mem (trc p)) (fetch_regs_PC (ftc p)) else SS_NOP_INST).
Proof.
  unfold fetch_access. cbv zeta. destruct (in_text (fetch_regs_PC (ftc p))) eqn:Ht.
  - intros H. apply bind_ok in H as ([m bs] & Hm & H). apply bind_ok in H as ([l1 p1] & H1 & H). apply bind_ok in H as ([l2 p2] & H2 & [= <- _ <-]).
    set (p0 := set_field trc _ p) in H1. assert (F0 : front p0 = ((trc p) <| g_mem := m |>, ftc p, fetch_data p, stats p)) by done.
    clearbody p0.
    assert (F1 : front p1 = front p0).
    { destruct il1_access; [by apply bind_ok in H1 as ([l h] & _ & [= _ <-])|by injection H1 as _ <-]. }
    assert (F2 : front p2 = front p1).
    { destruct itlb_access; [by apply bind_ok in H2 as ([l h] & _ & [= _ <-])|by injection H2 as _ <-]. }
    rewrite <- F2 in F1. rewrite F0 in F1. injection F1 as -> -> -> ->. split; [done|]. split; [done|]. split; [done|]. split.
    + exists m. split; [by eapply mem_access_like|done].
    + intros Hb. rewrite (mem_access_text _ _ _ _ Hlayout Ht Hb Hm). apply split_inst.
  - intros [= <- _ <-]. split; [done|]. split; [done|]. split; [done|]. split; [|done].
    exists (g_mem (trc p)). split; [done|]. by destruct (trc p).
Qed.

Lemma fetch_predict_front inst u i (p p' : pipe (W:=W)) r : fetch_predict inst u i p = Ok (r, p') -> front p' = front p.
Proof.
  unfold fetch_predict. intros H. destruct (pred p); [|by injection H as _ <-].
  apply bind_ok in H as (o & _ & H). destruct (truth _); [|by injection H as _ <-]. by apply bind_ok in H as (? & _ & [= _ <-]).
Qed.

(** A fetched instruction enters the queue. *)
Lemma program_at_fetch s t f data data' e :
  program_at s t f data -> fetch_num f < ruu_ifq_size cfg -> a_set data (fetch_tail f) e = Ok data' ->
  f_PC e = fetch_pred_PC f -> (spec_mode t = false -> ir_ok e) ->
  program_at s t (f <| fetch_regs_PC := fetch_pred_PC f |> <| fetch_pred_PC := f_pred_PC e |>
    <| fetch_tail := Z.land (fetch_tail f + 1) (ruu_ifq_size cfg - 1) |> <| fetch_num ::= Z.add 1 |>) data'.
Proof.
  unfold program_at. intros Hat Hn Hset Hpc Hir. destruct (spec_mode t).
  - destruct Hat as (H1 & H2 & H3). split; [done|]. split; [|done]. rewrite <- H2.
    unfold a_set in Hset. destruct (_ <? 0); [done|]. unfold c_upd in Hset. destruct (data !! _); [|done].
    injection Hset as <-. apply length_insert.
  - destruct Hat as [Ha (q & Hq & Hch & Hirs)]. split; [done|]. exists (q ++ [e]). split; [|split].
    + by apply (fetch_queue_push _ Hsize _ _ _ _ _ _ _ Hq).
    + cbn. by eapply chained_snoc.
    + apply Forall_app. split; [done|]. constructor; [by apply Hir|done].
Qed.

Lemma fetch_loop_tracks n : forall cnt i (p p' : pipe (W:=W)), fetch_loop cfg n cnt i p = Ok p' -> tracks p -> tracks p'.
Proof.
  induction n as [|n IH]; intros cnt i p p' H Ht; cbn [fetch_loop] in H; [by injection H as <-|].
  destruct (Z.ltb_spec (fetch_num (ftc p)) (ruu_ifq_size cfg)) as [Hn|]; [|by injection H as <-].
  apply bind_ok in H as ([[inst lat] p1] & H1 & H).
  destruct (fetch_access_front _ _ _ _ H1) as (F1 & F2 & F3 & (m & Hm & F4) & Hin). clear H1.
  change (trc (set_field ftc _ p)) with (trc p) in *. change (fetch_data (set_field ftc _ p)) with (fetch_data p) in *.
  change (stats (set_field ftc _ p)) with (stats p) in *.
  change (ftc (set_field ftc _ p)) with ((ftc p) <| fetch_regs_PC := fetch_pred_PC (ftc p) |>) in *.
  change (fetch_regs_PC _) with (fetch_pred_PC (ftc p)) in Hin.
  assert (Hright : forall k s, (k <= N)%nat -> sim_safe_run k s0 = Ok s ->
      program_at s (trc p) (ftc p) (fetch_data p) -> spec_mode (trc p) = false ->
      inst = if in_text (fetch_pred_PC (ftc p)) then text_inst (s_mem s0) (fetch_pred_PC (ftc p)) else SS_NOP_INST).
  { intros k s Hk Hrun Hat Hmode. unfold program_at in Hat. rewrite Hmode in Hat. destruct Hat as [Ha _].
    destruct (pr_run Hprog k Hk) as (s' & Hs' & _ & Hsame). rewrite Hrun in Hs'. injection Hs' as <-.
    rewrite Hin by (by eapply pages_bytes_ok; [apply (sa_pages _ _ Ha)|apply (sa_mem _ _ Ha)]).
    destruct (in_text _) eqn:Htx; [|done]. rewrite (mem_like_text _ _ (sa_mem _ _ Ha) _ Htx). by apply Hsame. }
  assert (Ht1 : tracks p1).
  { destruct Ht as [Hb|(k & s & Hk & Hle & Hrun & Hat)]; [left; by rewrite F3|]. right. exists k, s.
    rewrite F1, F2, F3, F4. split; [done|]. split; [done|]. split; [done|]. by apply (program_at_mem _ _ _ _ _ Hm) in Hat. }
  destruct (negb _); [injection H as <-; by eapply tracks_front; [|exact Ht1]|].
  apply bind_ok in H as (old & _ & H). apply bind_ok in H as ([[[target u] i1] p2] & H2%fetch_predict_front & H).
  apply bind_ok in H as (data & Hd & H). cbv zeta in H.
  set (e := mk_rec _ _ _ _ _) in Hd. set (p3 := set_field ftc _ _) in H.
  assert (Ht3 : tracks p3).
  { injection H2 as G1 G2 G3 G4. unfold tracks, p3. cbn [stats trc ftc fetch_data].
    unfold tracks in Ht1. destruct Ht as [Hb|(k & s & Hk & Hle & Hrun & Hat)]; [left; cbn; by rewrite G4, F3|].
    right. exists k, s. split; [cbn; by rewrite G4, F3|]. split; [done|]. split; [done|].
    cbn -[program_at]. rewrite G1, G2, F4. 
    rewrite F1 in *. rewrite G3, F2 in Hd. apply (program_at_mem _ _ _ _ _ Hm).
    exact (program_at_fetch s (trc p) (ftc p) (fetch_data p) data e Hat Hn Hd eq_refl (Hright k s Hle Hrun Hat)). }
  destruct (_ && _) in H; [by injection H as <-|by apply (IH _ _ _ _ H)].
Qed.

(** ** The cycle *)

Lemma tracks_ext (p p' : pipe (W:=W)) : tracks p -> front p' = front p -> tracks p'.
Proof. intros Ht Hf. by eapply tracks_front. Qed.

Lemma back_end_tracks (p p' : pipe (W:=W)) :
  (p ← on_win lsq_refresh p; ruu_issue cfg p) = Ok p' -> tracks p -> tracks p'.
Proof.
  intros H Ht. apply bind_ok in H as (p1 & H1%on_win_front & H%ruu_issue_front).
  eapply tracks_ext; [exact Ht|]. by rewrite H.
Qed.

Lemma sim_main_cycle_tracks (p p' : pipe (W:=W)) : sim_main_cycle cfg p = Ok p' -> tracks p -> tracks p'.
Proof.
  unfold sim_main_cycle. intros H Ht. apply bind_ok in H as (_ & _ & H). apply bind_ok in H as (p1 & H1%ruu_commit_front & H).
  assert (Ht1 : tracks (p1 <| fu_pool ::= ruu_release_fu |>)) by (by eapply tracks_front; [exact H1|]).
  cbv zeta in H. apply bind_ok in H as (p2 & H2 & H). apply writeback_loop_tracks in H2; [|done].
  apply bind_ok in H as (p3 & H3 & H). assert (Ht3 : tracks p3).
  { destruct (bugcompat_mode cfg); [by injection H3 as <-|by eapply back_end_tracks]. }
  apply bind_ok in H as (p4 & H4 & H). apply dispatch_loop_tracks in H4; [|done|done].
  apply bind_ok in H as (p5 & H5 & H). assert (Ht5 : tracks p5).
  { destruct (bugcompat_mode cfg); [by eapply back_end_tracks|by injection H5 as <-]. }
  apply bind_ok in H as (p6 & H6 & [= <-]). assert (Ht6 : tracks p6); [|by eapply tracks_front; [|exact Ht6]].
  destruct (_ =? 0); [by eapply fetch_loop_tracks|]. injection H6 as <-. by eapply tracks_front; [|exact Ht5].
Qed.

Lemma sim_main_cycles_tracks n : forall p p' : pipe (W:=W), sim_main_cycles cfg n p = Ok p' -> tracks p -> tracks p'.
Proof.
  induction n as [|n IH]; intros p p' H Ht; cbn [sim_main_cycles] in H; [by injection H as <-|].
  apply bind_ok in H as (p1 & H1 & H). eapply IH; [exact H|]. by eapply sim_main_cycle_tracks.
Qed.
End Program.
