(* ===== verification/PipeWindow.v ===== *)
(** The window through the stages of the pipeline: what a stage leaves of its
    shape, and that every cycle keeps it consistent. *)

From S2P Require Import Prelude Misc Isa Bitmap Bpred Resource Exec Funsim SpecSim Ruu RuuRing RuuRecover Pipeline.

(** * Recoveries that return *)

(** A recovery to a slot that no station of the window has runs into the
    head. *)
Lemma recover_loop_lost fuel : forall b w rt w', loop_ok w -> (0 < r_num (RUU w))%nat ->
  (forall k, (k < r_num (RUU w))%nat -> ring_idx (RUU w) k <> b) ->
  let lt := ring_idx (LSQ w) (r_num (LSQ w)) in
  recover_loop fuel b (ring_idx (RUU w) (r_num (RUU w) - 1)) (ring_prev (ring_size (LSQ w)) lt) rt lt w <> Ok w'.
Proof.
  induction fuel as [|fuel IH]; intros b w rt w' Hw Hn Hb; cbv zeta; [done|]. pose proof (lo_RUU _ Hw) as HqR.
  destruct (decide (r_num (RUU w) = 1)%nat) as [H1|H1].
  - cbn [recover_loop]. rewrite H1 in *. change (1 - 1)%nat with 0%nat. rewrite (proj2 (Nat.eqb_neq _ _) (Hb 0%nat ltac:(lia))).
    by rewrite head_idx, Nat.eqb_refl by done.
  - destruct (view_last (RUU w)) as (s & Hv & _); [done|lia|]. assert (Hsz : (r_num (RUU w) <= ring_size (RUU w))%nat) by apply HqR.
    rewrite (recover_loop_step _ _ _ s); [|done|lia|done|apply Hb; lia|].
    2: { rewrite <- head_idx by done. intros H%ring_idx_inj; lia. }
    assert (HR : RUU (loop_step s w) = squash_last (RUU w)) by (unfold loop_step; by destruct (ea_comp s)).
    assert (Hp : ring_prev (ring_size (RUU w)) (ring_idx (RUU w) (r_num (RUU w) - 1)) = ring_idx (RUU (loop_step s w)) (r_num (RUU (loop_step s w)) - 1)).
    { rewrite HR, squash_last_idx. change (r_num (squash_last (RUU w))) with (Nat.pred (r_num (RUU w))).
      replace (r_num (RUU w) - 1)%nat with (S (Nat.pred (r_num (RUU w)) - 1)) by lia. by apply ring_prev_idx. }
    rewrite Hp. apply IH.
    + apply loop_step_ok; [done..|lia].
    + rewrite HR. change (r_num (squash_last (RUU w))) with (Nat.pred (r_num (RUU w))). lia.
    + rewrite HR. change (r_num (squash_last (RUU w))) with (Nat.pred (r_num (RUU w))). intros k Hk. rewrite squash_last_idx. apply Hb. lia.
Qed.

(** So a recovery that returns found the branch, or an empty window. *)
Lemma ruu_recover_live b w w' : window_wf w -> ruu_recover b w = Ok w' ->
  r_num (RUU w) = 0%nat \/ exists k, (k < r_num (RUU w))%nat /\ ring_idx (RUU w) k = b.
Proof.
  intros Hw H. destruct (decide (r_num (RUU w) = 0)%nat) as [|Hn]; [by left|right].
  destruct (decide (Exists (fun k => ring_idx (RUU w) k = b) (seq 0 (r_num (RUU w))))) as [He|He].
  - apply Exists_exists in He as (k & Hk%elem_of_seq & He). exists k. split; [lia|done].
  - exfalso. unfold ruu_recover in H. apply bind_ok in H as (w1 & H & _).
    rewrite (ww_RUU_tail _ Hw), (ww_LSQ_tail _ Hw), ring_prev_last in H; [|apply Hw|lia].
    eapply recover_loop_lost; [by apply window_wf_loop| | |exact H]; [lia|].
    intros k Hk Hx. apply He, Exists_exists. exists k. split; [apply elem_of_seq; lia|done].
Qed.

Lemma ruu_recover_empty b w w' : window_wf w -> r_num (RUU w) = 0%nat -> ruu_recover b w = Ok w' -> window_wf w'.
Proof.
  intros Hw Hn H. unfold ruu_recover in H. apply bind_ok in H as (w1 & H & Hc). cbn [recover_loop] in H.
  destruct (_ =? b)%nat; [|rewrite Hn in H; discriminate H]. apply Ok_inj in H as <-.
  change (use_spec_cv (set_field LSQ _ _)) with (use_spec_cv w) in Hc. rewrite clear_map in Hc by apply Hw.
  apply Ok_inj in Hc as <-. destruct Hw as [R1 R2 R3 R4 R5 R6 R7 R8 R9 R10].
  split; [by destruct R1|by destruct R2|done..|apply repeat_length].
Qed.

Lemma ruu_recover_keeps_wf b w w' : window_wf w -> ruu_recover b w = Ok w' -> window_wf w'.
Proof.
  intros Hw H. destruct (ruu_recover_live b w w' Hw H) as [Hn|(k & Hk & <-)].
  - by eapply ruu_recover_empty.
  - by eapply ruu_recover_wf.
Qed.

(** * Stages that keep the shape *)

Lemma on_win_inv {W} f (p p' : pipe (W:=W)) : on_win f p = Ok p' -> exists w, f (win p) = Ok w /\ win p' = w.
Proof. unfold on_win. intros H. apply bind_ok in H as (w & Hw & <-%Ok_inj). by exists w. Qed.

Lemma RSLINK_FREE_shape w : same_shape w (RSLINK_FREE w).
Proof. done. Qed.

Lemma requeue_shape rs w w' : requeue rs w = Ok w' -> same_shape w w'.
Proof.
  unfold requeue. intros H. apply bind_ok in H as (w1 & H1 & H). etransitivity; [eapply upd_rs_shape; eauto with shape|].
  by eapply readyq_enqueue_shape.
Qed.

Lemma refresh_loop_shape n : forall i us w w', refresh_loop n i us w = Ok w' -> same_shape w w'.
Proof.
  induction n as [|n IH]; intros i us w w' H; cbn [refresh_loop] in H; [by apply Ok_inj in H as <-|].
  apply bind_ok in H as (s & _ & H). apply bind_ok in H as ([us'|] & _ & H); [|by apply Ok_inj in H as <-].
  apply bind_ok in H as (ready & _ & H). apply bind_ok in H as (w1 & H1 & H). etransitivity; [|by eapply IH].
  destruct (_ && _); [by eapply readyq_enqueue_shape|by apply Ok_inj in H1 as <-].
Qed.

Lemma clear_create_vector_shape rs s i now w w' : clear_create_vector rs s i now w = Ok w' -> same_shape w w'.
Proof.
  unfold clear_create_vector. intros H. apply bind_ok in H as (n & _ & H).
  destruct (rs_spec s); apply bind_ok in H as (l & _ & H); (destruct (bool_decide _); [|by apply Ok_inj in H as <-]);
    apply bind_ok in H as (v & _ & H); by apply bind_ok in H as (t & _ & <-%Ok_inj).
Qed.

Lemma wake_shape l w w' : wake l w = Ok w' -> same_shape w w'.
Proof.
  unfold wake. intros H. apply bind_ok in H as ([|] & _ & H); [|by apply Ok_inj in H as <-].
  apply bind_ok in H as (s & _ & H). apply bind_ok in H as (r & _ & H). destruct r; [done|].
  apply bind_ok in H as (w1 & H1 & H). apply bind_ok in H as (s1 & _ & H). apply bind_ok in H as (ready & _ & H).
  etransitivity; [eapply upd_rs_shape; eauto with shape|].
  destruct (_ && _); [by eapply readyq_enqueue_shape|by apply Ok_inj in H as <-].
Qed.

Lemma wake_list_shape l : forall w w', wake_list l w = Ok w' -> same_shape w w'.
Proof.
  induction l as [|x l IH]; intros w w' H; cbn [wake_list] in H; [by apply Ok_inj in H as <-|].
  apply bind_ok in H as (w1 & H1 & H). etransitivity; [by eapply wake_shape|]. by etransitivity; [apply RSLINK_FREE_shape|by eapply IH].
Qed.

Lemma broadcast_shape rs now ks : forall w w', broadcast rs now ks w = Ok w' -> same_shape w w'.
Proof.
  induction ks as [|i ks IH]; intros w w' H; cbn [broadcast] in H; [by apply Ok_inj in H as <-|].
  apply bind_ok in H as (s & _ & H). apply bind_ok in H as (n & _ & H). apply bind_ok in H as (w1 & H1 & H).
  etransitivity; [|by eapply IH]. destruct (n =? NA); [by apply Ok_inj in H1 as <-|].
  apply bind_ok in H1 as (w2 & H2 & H1). apply bind_ok in H1 as (l & _ & H1). apply bind_ok in H1 as (w3 & H3 & H1).
  etransitivity; [by eapply clear_create_vector_shape|]. etransitivity; [by eapply wake_list_shape|eapply upd_rs_shape; eauto with shape].
Qed.

(** * Retiring the oldest instruction *)

(** The oldest instruction leaves, with its access if it is a load or store. *)
Lemma window_wf_pop w w' s l : window_wf w -> view (RUU w) = s :: l -> RUU w' = ring_pop (RUU w) ->
  LSQ w' = (if ea_comp s then ring_pop (LSQ w) else LSQ w) -> length (use_spec_cv w') = CV_BMAP_SZ -> window_wf w'.
Proof.
  intros [R1 R2 R3 R4 R5 R6 R7 R8 R9 R10] Hv ER EL Hcv.
  assert (Hn : r_num (RUU w) = S (length l)) by (by rewrite <- length_view, Hv).
  assert (Ht : forall q, ring_ok q -> r_tail q = ring_idx q (r_num q) -> r_num q <> 0%nat -> r_tail (ring_pop q) = ring_idx (ring_pop q) (r_num (ring_pop q))).
  { intros q Hq Hqt Hqn. rewrite ring_idx_pop by done. change (r_num (ring_pop q)) with (Nat.pred (r_num q)).
    by replace (S (Nat.pred (r_num q))) with (r_num q) by lia. }
  assert (VR : view (RUU w') = l) by (rewrite ER; by eapply view_pop). rewrite Hv in R5, R6. apply Forall_cons in R6 as [_ R6].
  cbn [List.filter] in R5. destruct (ea_comp s).
  - cbn [map] in R5. destruct (view (LSQ w)) as [|x lx] eqn:HL; [done|]. cbn [map] in R5. injection R5 as _ R5.
    assert (VL : view (LSQ w') = lx) by (rewrite EL; by eapply view_pop).
    assert (HLn : r_num (LSQ w) = S (length lx)) by (by rewrite <- length_view, HL).
    apply Forall_cons in R7 as [_ R7]. split; rewrite ?VR, ?VL, ?ER, ?EL; try done.
    + by apply ring_pop_ok.
    + by apply ring_pop_ok.
    + apply Ht; [done..|lia].
    + apply Ht; [done..|lia].
  - split; rewrite ?VR, ?ER, ?EL; try done; [by apply ring_pop_ok|]. apply Ht; [done..|lia].
Qed.

(** [retire] on a head of the window [w], of which it has [w0]. *)
Lemma retire_RUU j w0 w w' : retire (RUU_ref j) w = Ok w' -> ring_shape w0 (RUU w) ->
  exists q, ring_shape w0 q /\ RUU w' = ring_pop q /\ LSQ w' = LSQ w /\ use_spec_cv w' = use_spec_cv w.
Proof.
  unfold retire. intros H Hs. apply bind_ok in H as (w1 & H1 & <-%Ok_inj). exists (RUU w1). split.
  - etransitivity; [exact Hs|]. eapply ss_RUU, upd_rs_shape; eauto with shape.
  - cbn [upd_rs] in H1. by apply bind_ok in H1 as (v & _ & <-%Ok_inj).
Qed.
Lemma retire_LSQ j w w' : retire (LSQ_ref j) w = Ok w' ->
  exists q, ring_shape (LSQ w) q /\ LSQ w' = ring_pop q /\ RUU w' = RUU w /\ use_spec_cv w' = use_spec_cv w.
Proof.
  unfold retire. intros H. apply bind_ok in H as (w1 & H1 & <-%Ok_inj). exists (LSQ w1). split.
  - eapply ss_LSQ, upd_rs_shape; eauto with shape.
  - cbn [upd_rs] in H1. by apply bind_ok in H1 as (v & _ & <-%Ok_inj).
Qed.

(** * Dispatching an instruction *)

(** A station that is not in the window may be rewritten. *)
Lemma fill_tail_ring (f : RUU_station -> RUU_station) q l : ring_ok q -> (r_num q < ring_size q)%nat -> r_tail q = ring_idx q (r_num q) ->
  c_upd (slots q) (r_tail q) f = Ok l -> let q' := q <| slots := l |> in
  ring_ok q' /\ (forall k, ring_idx q' k = ring_idx q k) /\ view q' = view q /\ (exists s, slots q !! r_tail q = Some s /\ l = <[r_tail q := f s]> (slots q)).
Proof.
  intros [H1 H2 H3] Hn Ht H. cbv zeta. unfold c_upd in H. destruct (slots q !! r_tail q) as [s|] eqn:Hs; [|done]. injection H as <-.
  assert (Hsz : ring_size (q <| slots := <[r_tail q := f s]> (slots q) |>) = ring_size q) by (unfold ring_size; cbn; apply length_insert).
  assert (Hi : forall k, ring_idx (q <| slots := <[r_tail q := f s]> (slots q) |>) k = ring_idx q k) by (intros k; unfold ring_idx; by rewrite Hsz).
  split; [split; rewrite ?Hsz; done|]. split; [done|]. split; [|by exists s]. apply view_ext; [|done].
  intros k Hk. rewrite Hi. cbn. rewrite list_lookup_insert_ne; [done|]. rewrite Ht. intros Hx%ring_idx_inj; lia.
Qed.

(** The slot behind the window, with its fixed fields. *)
Definition tail_is (q : ring) (s : RUU_station) : Prop := fixed <$> slots q !! r_tail q = Some (fixed s).

Lemma tail_is_shape q q' s : ring_shape q q' -> tail_is q s -> tail_is q' s.
Proof. unfold tail_is. intros H Hs. by rewrite (rs_tail_eq _ _ H), (map_fixed_lookup _ _ _ (rs_fixed_eq _ _ H)). Qed.

Lemma fill_RUU f w w' : window_wf w -> (r_num (RUU w) < ring_size (RUU w))%nat -> (forall s, st_ok s -> st_ok (f s)) ->
  upd_rs (RUU_ref (r_tail (RUU w))) f w = Ok w' ->
  window_wf w' /\ (exists s, tail_is (RUU w') (f s)) /\ LSQ w' = LSQ w /\ r_num (RUU w') = r_num (RUU w) /\
  r_tail (RUU w') = r_tail (RUU w) /\ ring_size (RUU w') = ring_size (RUU w).
Proof.
  intros [R1 R2 R3 R4 R5 R6 R7 R8 R9 R10] Hn Hf H. cbn [upd_rs] in H. apply bind_ok in H as (l & Hl & <-%Ok_inj).
  destruct (fill_tail_ring f (RUU w) l R1 Hn R3 Hl) as (Q1 & Q2 & Q3 & s & Hs & ->).
  set (q' := _ <| slots := _ |>) in *. change (RUU (set_field RUU _ w)) with q'.
  split; [|split; [|split; [done|split; [done|split; [done|unfold q', ring_size; cbn; apply length_insert]]]]].
  - split; change (RUU (set_field RUU _ w)) with q'; rewrite ?Q2, ?Q3; try done. apply Forall_insert; [done|]. apply Hf.
    by eapply Forall_lookup_1 in R8.
  - exists s. unfold tail_is, q'. cbn. rewrite list_lookup_insert_eq; [done|by eapply lookup_lt_Some].
Qed.

Lemma fill_LSQ f w w' : window_wf w -> (r_num (LSQ w) < ring_size (LSQ w))%nat -> (forall s, st_ok s -> st_ok (f s)) ->
  upd_rs (LSQ_ref (r_tail (LSQ w))) f w = Ok w' ->
  window_wf w' /\ (exists s, tail_is (LSQ w') (f s)) /\ RUU w' = RUU w /\ r_num (LSQ w') = r_num (LSQ w) /\
  r_tail (LSQ w') = r_tail (LSQ w) /\ ring_size (LSQ w') = ring_size (LSQ w).
Proof.
  intros [R1 R2 R3 R4 R5 R6 R7 R8 R9 R10] Hn Hf H. cbn [upd_rs] in H. apply bind_ok in H as (l & Hl & <-%Ok_inj).
  destruct (fill_tail_ring f (LSQ w) l R2 Hn R4 Hl) as (Q1 & Q2 & Q3 & s & Hs & ->).
  set (q' := _ <| slots := _ |>) in *. change (LSQ (set_field LSQ _ w)) with q'.
  split; [|split; [|split; [done|split; [done|split; [done|unfold q', ring_size; cbn; apply length_insert]]]]].
  - split; change (LSQ (set_field LSQ _ w)) with q'; rewrite ?Q2, ?Q3; try done. apply Forall_insert; [done|]. apply Hf.
    by eapply Forall_lookup_1 in R9.
  - exists s. unfold tail_is, q'. cbn. rewrite list_lookup_insert_eq; [done|by eapply lookup_lt_Some].
Qed.

Definition advance (q : ring) : ring := q <| r_tail := ring_next (ring_size q) (r_tail q) |> <| r_num ::= S |>.

Lemma advance_spec q s : ring_ok q -> (r_num q < ring_size q)%nat -> r_tail q = ring_idx q (r_num q) -> tail_is q s ->
  ring_ok (advance q) /\ r_tail (advance q) = ring_idx (advance q) (r_num (advance q)) /\
  exists s', fixed s' = fixed s /\ view (advance q) = view q ++ [s'].
Proof.
  intros Hq Hn Ht Hs. unfold tail_is in Hs. destruct (slots q !! r_tail q) as [s'|] eqn:Hl; [|done]. apply (inj Some) in Hs.
  assert (Ha : advance q = ring_push s' q).
  { unfold advance, ring_push. destruct q as [l h t n]. unfold set_field. cbn in *. by rewrite list_insert_id. }
  split; [rewrite Ha; by apply ring_push_ok|]. split.
  - change (r_num (advance q)) with (S (r_num q)). change (ring_idx (advance q)) with (ring_idx q).
    rewrite <- ring_next_idx by done. by rewrite <- Ht.
  - exists s'. split; [done|]. rewrite Ha. by apply view_push.
Qed.

(** A load or store enters both queues. *)
Lemma window_wf_push_mem w s s' : window_wf w -> (r_num (RUU w) < ring_size (RUU w))%nat -> (r_num (LSQ w) < ring_size (LSQ w))%nat ->
  tail_is (RUU w) s -> tail_is (LSQ w) s' -> uop s' = uop s -> ea_comp s = true -> in_LSQ s = false -> in_LSQ s' = true -> ea_comp s' = false ->
  window_wf (push_LSQ (push_RUU w)).
Proof.
  intros [R1 R2 R3 R4 R5 R6 R7 R8 R9 R10] Hn Hn' Ht Ht' Hu H1 H2 H3 H4.
  destruct (advance_spec _ _ R1 Hn R3 Ht) as (A1 & A2 & t & At & Av). destruct (advance_spec _ _ R2 Hn' R4 Ht') as (B1 & B2 & t' & Bt & Bv).
  destruct (fixed_inv _ _ At) as (Fu & Fe & Fl). destruct (fixed_inv _ _ Bt) as (Gu & Ge & Gl).
  split; change (RUU (push_LSQ (push_RUU w))) with (advance (RUU w)); change (LSQ (push_LSQ (push_RUU w))) with (advance (LSQ w)); try done.
  - rewrite Av, Bv, List.filter_app, !map_app, R5. f_equal. cbn [List.filter]. rewrite Fe, H1. cbn. congruence.
  - rewrite Av. apply Forall_app_2; [done|]. constructor; [congruence|done].
  - rewrite Bv. apply Forall_app_2; [done|]. constructor; [split; congruence|done].
Qed.

(** Any other operation enters the RUU. *)
Lemma window_wf_push_op w s : window_wf w -> (r_num (RUU w) < ring_size (RUU w))%nat ->
  tail_is (RUU w) s -> ea_comp s = false -> in_LSQ s = false -> window_wf (push_RUU w).
Proof.
  intros [R1 R2 R3 R4 R5 R6 R7 R8 R9 R10] Hn Ht H1 H2.
  destruct (advance_spec _ _ R1 Hn R3 Ht) as (A1 & A2 & t & At & Av). destruct (fixed_inv _ _ At) as (Fu & Fe & Fl).
  split; change (RUU (push_RUU w)) with (advance (RUU w)); change (LSQ (push_RUU w)) with (LSQ w); try done.
  - rewrite Av, List.filter_app, map_app, R5. cbn [List.filter]. rewrite Fe, H1. cbn. by rewrite app_nil_r.
  - rewrite Av. apply Forall_app_2; [done|]. constructor; [congruence|done].
Qed.

Lemma next_seq_wf w : window_wf w -> window_wf (next_seq w).
Proof. intros [R1 R2 R3 R4 R5 R6 R7 R8 R9 R10]. by split. Qed.

Lemma enqueue_if_ready_shape rs w b w' : enqueue_if_ready rs w = Ok (b, w') -> same_shape w w'.
Proof.
  unfold enqueue_if_ready. intros H. apply bind_ok in H as (s & _ & H). apply bind_ok in H as (r & _ & H).
  destruct r; [|by injection H as _ <-]. apply bind_ok in H as (w1 & H1 & [= _ <-]). by eapply readyq_enqueue_shape.
Qed.

Section Stages.
Context `{E : SimEnv} `{fp : HostFP} {W : Type} `{hierarchy : MemHier W}.
Variable cfg : pipe_config.

Lemma on_win_shape f (p p' : pipe (W:=W)) : on_win f p = Ok p' -> (forall w, f (win p) = Ok w -> same_shape (win p) w) ->
  same_shape (win p) (win p').
Proof. intros H Hf. apply on_win_inv in H as (w & Hw & ->). by apply Hf. Qed.

Lemma load_latency_win i s lat (p p' : pipe (W:=W)) l : load_latency i s lat p = Ok (l, p') -> win p' = win p.
Proof.
  unfold load_latency. intros H. apply bind_ok in H as (hit & _ & H). cbv zeta in H. apply bind_ok in H as ([l1 p1] & H1 & H).
  assert (E1 : win p1 = win p).
  { destruct hit; [by injection H1 as <- <-|]. destruct dl1_access; [|by injection H1 as <- <-].
    destruct (_ && _); [|by injection H1 as <- <-]. by apply bind_ok in H1 as ([l2 h] & _ & [= <- <-]). }
  rewrite <- E1. destruct dtlb_access; [|by injection H as <- <-]. destruct (_ && _); [|by injection H as <- <-].
  by apply bind_ok in H as ([l2 h] & _ & [= <- <-]).
Qed.

Lemma issue_op_shape rs (p p' : pipe (W:=W)) b : issue_op rs p = Ok (b, p') -> same_shape (win p) (win p').
Proof.
  unfold issue_op. intros H. apply bind_ok in H as (s & _ & H). apply bind_ok in H as (ready & _ & H).
  destruct (_ || _); [done|]. apply bind_ok in H as (p1 & H1 & H).
  etransitivity; [by eapply on_win_shape; [exact H1|]; intros; eapply upd_rs_shape; eauto with shape|]. clear H1.
  destruct (_ && _).
  { apply bind_ok in H as (p2 & H2 & H). apply bind_ok in H as (? & _ & H). apply bind_ok in H as (? & _ & H).
    destruct (_ || _); [done|]. destruct (recover_inst s); [done|]. injection H as _ <-.
    eapply on_win_shape; [exact H2|]. intros. eapply upd_rs_shape; eauto with shape. }
  cbv zeta in H. destruct (negb _).
  - apply bind_ok in H as ([fu|] & _ & H).
    + apply bind_ok in H as (p2 & H2 & H). apply bind_ok in H as (pool & _ & H). apply bind_ok in H as (t & _ & H).
      apply bind_ok in H as ([lat p3] & H3 & H). apply bind_ok in H as (p4 & H4 & [= _ <-]).
      etransitivity; [by eapply on_win_shape; [exact H2|]; intros; eapply upd_rs_shape; eauto with shape|].
      assert (E3 : win p3 = win p2).
      { destruct rs; [by injection H3 as _ <-|]. destruct (_ && _); [|by injection H3 as _ <-]. by apply load_latency_win in H3. }
      rewrite <- E3. eapply on_win_shape; [exact H4|]. intros. by eapply eventq_queue_event_shape.
    + apply bind_ok in H as (p2 & H2 & [= _ <-]). eapply on_win_shape; [exact H2|]. intros. by eapply readyq_enqueue_shape.
  - apply bind_ok in H as (p2 & H2 & H). apply bind_ok in H as (p3 & H3 & [= _ <-]).
    etransitivity; [by eapply on_win_shape; [exact H2|]; intros; eapply upd_rs_shape; eauto with shape|].
    eapply on_win_shape; [exact H3|]. intros. by eapply eventq_queue_event_shape.
Qed.

Lemma issue_loop_shape nodes : forall n (p p' : pipe (W:=W)), issue_loop cfg nodes n p = Ok p' -> same_shape (win p) (win p').
Proof.
  induction nodes as [|node nodes IH]; intros n p p' H; cbn [issue_loop] in H; [by injection H as <-|].
  apply bind_ok in H as (valid & _ & H). apply bind_ok in H as ([n1 p1] & H1 & H).
  etransitivity; [|etransitivity; [|by eapply IH]]; [|apply RSLINK_FREE_shape]. destruct valid; [|by injection H1 as _ <-].
  destruct (n <? _).
  - apply bind_ok in H1 as ([b p2] & H2 & [= _ <-]). by apply issue_op_shape in H2.
  - apply bind_ok in H1 as (p2 & H2 & [= _ <-]). eapply on_win_shape; [exact H2|]. intros. by eapply requeue_shape.
Qed.

Lemma ruu_issue_shape (p p' : pipe (W:=W)) : ruu_issue cfg p = Ok p' -> same_shape (win p) (win p').
Proof. intros H%issue_loop_shape. by etransitivity; [|exact H]. Qed.
(** ** Commit *)

Lemma update_pred_win inst op PC next_PC pred_PC u (p p' : pipe (W:=W)) :
  update_pred inst op PC next_PC pred_PC u p = Ok p' -> win p' = win p.
Proof. unfold update_pred. intros H. destruct (pred p); [by apply bind_ok in H as (b' & _ & [= <-])|by injection H as <-]. Qed.

Lemma update_pred_at_win st s (p p' : pipe (W:=W)) : update_pred_at cfg st s p = Ok p' -> win p' = win p.
Proof. unfold update_pred_at. destruct (_ && _); [apply update_pred_win|by intros [= ->]]. Qed.

Lemma commit_store_win s (p p' : pipe (W:=W)) : commit_store s p = Ok (Some p') -> win p' = win p.
Proof.
  unfold commit_store. intros H. apply bind_ok in H as ([fu|] & _ & H); [|done]. apply bind_ok in H as (pool & _ & H).
  cbv zeta in H. apply bind_ok in H as (p1 & H1 & H). apply bind_ok in H as (p2 & H2 & [= <-]).
  assert (E1 : win p1 = win p).
  { destruct dl1_access; [by apply bind_ok in H1 as ([l h] & _ & [= <-])|by injection H1 as <-]. }
  rewrite <- E1. destruct dtlb_access; [by apply bind_ok in H2 as ([l h] & _ & [= <-])|by injection H2 as <-].
Qed.

Lemma commit_lsq_win (p p' : pipe (W:=W)) : commit_lsq p = Ok (Some p') -> exists q, ring_shape (LSQ (win p)) q /\
  LSQ (win p') = ring_pop q /\ RUU (win p') = RUU (win p) /\ use_spec_cv (win p') = use_spec_cv (win p).
Proof.
  unfold commit_lsq. intros H. destruct (_ =? _)%nat; [done|]. apply bind_ok in H as (s & _ & H).
  destruct (negb _); [done|]. destruct (negb _); [done|]. apply bind_ok in H as ([p1|] & H1 & H); [|done].
  apply bind_ok in H as (p2 & H2 & [= <-]). apply on_win_inv in H2 as (w & Hw & ->).
  assert (E1 : win p1 = win p) by (destruct (is_store _); [by eapply commit_store_win|by injection H1 as <-]).
  rewrite E1 in Hw. by eapply retire_LSQ.
Qed.

Lemma commit_head_wf (p p' : pipe (W:=W)) : window_wf (win p) -> r_num (RUU (win p)) <> 0%nat ->
  commit_head cfg p = Ok (Some p') -> window_wf (win p').
Proof.
  intros Hw Hn H. unfold commit_head in H. apply bind_ok in H as (s & Hs & H). destruct (negb _); [done|].
  apply bind_ok in H as ([p1|] & H1 & H); [|done]. apply bind_ok in H as (p2 & H2%update_pred_at_win & H).
  apply bind_ok in H as (p3 & H3 & H). destruct (forallb _ _); [|done]. injection H as <-.
  destruct (view (RUU (win p))) as [|s0 l] eqn:Hv; [apply (f_equal length) in Hv; rewrite length_view in Hv; done|].
  assert (Hs0 : s0 = s).
  { apply get_rs_Some in Hs. rewrite <- head_idx in Hs by apply Hw. rewrite (view_slot _ 0 s0) in Hs; [by injection Hs|apply Hw|by rewrite Hv]. }
  subst s0. apply on_win_inv in H3 as (w3 & H3 & E3). rewrite E3. rewrite H2 in H3.
  assert (Hl : exists q, ring_shape (LSQ (win p)) q /\ LSQ (win p1) = (if ea_comp s then ring_pop q else q) /\
    RUU (win p1) = RUU (win p) /\ use_spec_cv (win p1) = use_spec_cv (win p)).
  { destruct (ea_comp s); [by apply commit_lsq_win|]. injection H1 as <-. by exists (LSQ (win p)). }
  destruct Hl as (qL & HqL & EL & ER & EC).
  destruct (retire_RUU _ (RUU (win p)) _ _ H3) as (q & Hq & E1 & E2 & E4); [by rewrite ER|].
  assert (Hw1 : window_wf ((win p) <| RUU := q |> <| LSQ := qL |>)) by (eapply window_wf_shape; [|exact Hw]; by split).
  pose proof (ring_shape_view _ _ Hq) as Hvq. rewrite Hv in Hvq. destruct (view q) as [|s1 l1] eqn:Hv1; [done|].
  apply map_cons_inv in Hvq as [Hf _]. destruct (fixed_inv _ _ Hf) as (_ & He & _).
  eapply (window_wf_pop _ w3 s1 l1 Hw1 Hv1 E1); [by rewrite E2, EL, He|]. rewrite E4, EC. apply Hw.
Qed.

Lemma commit_loop_wf fuel : forall c (p p' : pipe (W:=W)), window_wf (win p) -> commit_loop cfg fuel c p = Ok p' -> window_wf (win p').
Proof.
  induction fuel as [|fuel IH]; intros c p p' Hw H; [done|]. cbn [commit_loop] in H. destruct (_ && _) eqn:Hc; [|by injection H as <-].
  apply andb_true_iff in Hc as [Hc%negb_true_iff%Nat.eqb_neq _].
  apply bind_ok in H as ([p1|] & H1 & H); [|by injection H as <-]. eapply IH; [|exact H]. by eapply commit_head_wf.
Qed.

(** ** Writeback *)

Lemma recover_from_wf rs s (p p' : pipe (W:=W)) : window_wf (win p) -> recover_from cfg rs s p = Ok p' -> window_wf (win p').
Proof.
  intros Hw H. destruct rs; [|done]. cbn [recover_from] in H. apply bind_ok in H as (p1 & H1 & H).
  apply on_win_inv in H1 as (w & Hr & E1). apply bind_ok in H as ([t f] & _ & [= <-]). cbn. rewrite E1. by eapply ruu_recover_keeps_wf.
Qed.

Lemma writeback_inst_wf rs (p p' : pipe (W:=W)) : window_wf (win p) -> writeback_inst cfg rs p = Ok p' -> window_wf (win p').
Proof.
  intros Hw H. unfold writeback_inst in H. apply bind_ok in H as (s & _ & H). apply bind_ok in H as (r & _ & H).
  destruct (_ || _); [done|]. apply bind_ok in H as (p1 & H1 & H). apply bind_ok in H as (p2 & H2 & H). apply bind_ok in H as (p3 & H3 & H).
  eapply window_wf_shape; [eapply on_win_shape; [exact H|intros; by eapply broadcast_shape]|].
  assert (E3 : win p3 = win p2) by (destruct (in_LSQ s); [by injection H3 as <-|by eapply update_pred_at_win]). rewrite E3.
  assert (Hw1 : window_wf (win p1)).
  { eapply window_wf_shape; [eapply on_win_shape; [exact H1|intros; eapply upd_rs_shape; eauto with shape]|done]. }
  destruct (recover_inst s); [|by injection H2 as <-]. destruct (in_LSQ s); [done|]. by eapply recover_from_wf.
Qed.

Lemma writeback_loop_wf fuel : forall (p p' : pipe (W:=W)), window_wf (win p) -> writeback_loop cfg fuel p = Ok p' -> window_wf (win p').
Proof.
  induction fuel as [|fuel IH]; intros p p' Hw H; [done|]. cbn [writeback_loop] in H. apply bind_ok in H as ([r w] & Hn%next_event_shape & H).
  cbv zeta in H. assert (Hw' : window_wf w) by (by eapply window_wf_shape). destruct r as [rs|]; [|by injection H as <-].
  apply bind_ok in H as (p1 & H1 & H). eapply IH; [|exact H]. eapply writeback_inst_wf; [|exact H1]. exact Hw'.
Qed.

(** ** Dispatch *)

(** One shape-keeping operation of a sequence. *)
Ltac shape_step H :=
  let w := fresh "w" in let Hw := fresh "Hs" in
  apply bind_ok in H as (w & Hw & H);
  first [apply ruu_link_idep_shape in Hw | apply ruu_install_odep_shape in Hw].

Lemma fill_station_st_ok rec op next_PC pred_PC lsq ea idx u spec a n s :
  st_ok s -> st_ok (fill_station rec op next_PC pred_PC lsq ea idx u spec a n s).
Proof. done. Qed.

Lemma alloc_op_wf rec op next_PC pred_PC spec w w' : window_wf w -> (r_num (RUU w) < ring_size (RUU w))%nat ->
  alloc_op rec op next_PC pred_PC spec w = Ok w' -> window_wf w'.
Proof.
  intros Hw Hn H. unfold alloc_op in H. destruct (inst_deps op (f_IR rec)) as [[[[o1 o2] i1] i2] i3]. cbv zeta in H.
  apply bind_ok in H as (w1 & H1 & H). apply (fill_RUU _ (next_seq w)) in H1 as (Hw1 & [s Ht] & _ & N1 & _ & S1);
    [|by apply next_seq_wf|done|intros; by apply fill_station_st_ok].
  shape_step H. shape_step H. shape_step H. shape_step H. shape_step H.
  match type of H with context [push_RUU ?x] => set (wn := x) in *; assert (Hs' : same_shape w1 wn) by (do 4 (etransitivity; [eassumption|]); assumption) end.
  apply bind_ok in H as ([b w6] & H6%enqueue_if_ready_shape & H).
  assert (Hw6 : window_wf w6).
  { eapply window_wf_shape; [exact H6|]. eapply (window_wf_push_op wn); [by eapply window_wf_shape| |eapply tail_is_shape; [apply Hs'|exact Ht]|done|done].
    rewrite (rs_num_eq _ _ (ss_RUU _ _ Hs')), (ring_shape_size _ _ (ss_RUU _ _ Hs')), N1, S1. exact Hn. }
  destruct b; [injection H as <-|apply bind_ok in H as (l & _ & [= <-])]; eapply window_wf_shape; try exact Hw6; done.
Qed.
Lemma alloc_mem_wf rec op next_PC pred_PC a spec w w' : window_wf w ->
  (r_num (RUU w) < ring_size (RUU w))%nat -> (r_num (LSQ w) < ring_size (LSQ w))%nat ->
  alloc_mem rec op next_PC pred_PC a spec w = Ok w' -> window_wf w'.
Proof.
  intros Hw Hn Hn' H. unfold alloc_mem in H. destruct (inst_deps op (f_IR rec)) as [[[[o1 o2] i1] i2] i3]. cbv zeta in H.
  apply bind_ok in H as (w1 & H1 & H). apply (fill_RUU _ (next_seq w)) in H1 as (Hw1 & [s Ht] & L1 & N1 & _ & S1);
    [|by apply next_seq_wf|done|intros; by apply fill_station_st_ok].
  change (LSQ (next_seq w)) with (LSQ w) in L1.
  apply bind_ok in H as (w2 & H2 & H). change (r_tail (LSQ w)) with (r_tail (LSQ w)) in H2. rewrite <- L1 in H2, Hn'.
  apply (fill_LSQ _ (next_seq w1)) in H2 as (Hw2 & [t Ht2] & R2 & N2 & _ & S2);
    [|by apply next_seq_wf|done|intros; by apply fill_station_st_ok].
  do 10 shape_step H.
  match type of H with context [push_RUU ?x] => set (wn := x) in *; assert (Hs' : same_shape w2 wn) by (do 9 (etransitivity; [eassumption|]); assumption) end.
  apply bind_ok in H as ([b wq] & Hq%enqueue_if_ready_shape & H).
  assert (Hwq : window_wf wq).
  { eapply window_wf_shape; [exact Hq|]. eapply (window_wf_push_mem wn).
    - by eapply window_wf_shape.
    - rewrite (rs_num_eq _ _ (ss_RUU _ _ Hs')), (ring_shape_size _ _ (ss_RUU _ _ Hs')), R2.
      change (RUU (next_seq w1)) with (RUU w1). by rewrite N1, S1.
    - by rewrite (rs_num_eq _ _ (ss_LSQ _ _ Hs')), (ring_shape_size _ _ (ss_LSQ _ _ Hs')), N2, S2.
    - eapply tail_is_shape; [apply Hs'|]. rewrite R2. exact Ht.
    - eapply tail_is_shape; [apply Hs'|exact Ht2].
    - done.
    - done.
    - done.
    - done.
    - done. }
  apply bind_ok in H as (l & _ & H). cbv zeta in H.
  assert (Hl : window_wf (wq <| last_op := Some l |>)) by (eapply window_wf_shape; [|exact Hwq]; done).
  destruct (is_store op); [|by injection H as <-]. apply bind_ok in H as ([b' wr] & Hr%enqueue_if_ready_shape & [= <-]).
  by eapply window_wf_shape.
Qed.

Lemma enter_spec_mode_shape rs next_PC (p p' : pipe (W:=W)) : enter_spec_mode rs next_PC p = Ok p' -> same_shape (win p) (win p').
Proof.
  unfold enter_spec_mode. intros H. apply bind_ok in H as (r & _ & H). apply bind_ok in H as (p1 & H1 & [= <-]).
  eapply on_win_shape in H1; [exact H1|]. intros. eapply upd_rs_shape; eauto with shape.
Qed.

Lemma redirect_fetch_win next_PC (p : pipe (W:=W)) : win (redirect_fetch cfg next_PC p) = win p.
Proof. unfold redirect_fetch. by destruct (pred_perfect cfg). Qed.

Lemma dispatch_inst_wf rec op red (p p' : pipe (W:=W)) r : window_wf (win p) ->
  (r_num (RUU (win p)) < ring_size (RUU (win p)))%nat -> (r_num (LSQ (win p)) < ring_size (LSQ (win p)))%nat ->
  dispatch_inst cfg rec op red p = Ok (r, p') -> window_wf (win p').
Proof.
  intros Hw Hn Hn' H. unfold dispatch_inst in H. cbv zeta in H.
  set (p1 := if misfetch _ _ _ _ _ _ then _ else _) in H.
  assert (E1 : win p1 = win p) by (unfold p1; destruct (misfetch _ _ _ _ _ _); [by rewrite redirect_fetch_win|done]).
  clearbody p1. rewrite <- E1 in Hw, Hn, Hn'. clear E1.
  apply bind_ok in H as (p2 & H2 & H). apply bind_ok in H as (p3 & H3 & [= _ <-]).
  assert (Hw2 : window_wf (win p2)).
  { destruct (bool_decide (op = NOP)); [by injection H2 as <-|]. apply on_win_inv in H2 as (w & H2 & ->).
    destruct (is_mem op); [by eapply alloc_mem_wf|by eapply alloc_op_wf]. }
  change (window_wf (win p3)). destruct (spec_mode (trc p)); [by injection H3 as <-|].
  apply bind_ok in H3 as (p4 & H4 & H3). assert (E4 : win p4 = win p2).
  { destruct (_ && bool_decide (bpred_spec_update cfg = spec_ID)); [by apply update_pred_win in H4|by injection H4 as <-]. }
  rewrite <- E4 in Hw2. destruct (_ && negb (red || _)); [|by apply Ok_inj in H3 as <-]. by eapply window_wf_shape; [eapply enter_spec_mode_shape|].
Qed.

Lemma dispatch_loop_wf fuel : forall n red (p p' : pipe (W:=W)), window_wf (win p) -> dispatch_loop cfg fuel n red p = Ok p' -> window_wf (win p').
Proof.
  induction fuel as [|fuel IH]; intros n red p p' Hw H; [done|]. cbn [dispatch_loop] in H.
  destruct (_ && (r_num (RUU (win p)) <? _)%nat && (r_num (LSQ (win p)) <? _)%nat && _ && _) eqn:Hc; [|by injection H as <-].
  rewrite !andb_true_iff in Hc. destruct Hc as [[[[_ Hr%Nat.ltb_lt] Hl%Nat.ltb_lt] _] _].
  apply bind_ok in H as (b & _ & H). destruct b; [by injection H as <-|].
  apply bind_ok in H as (rec & _ & H). apply bind_ok in H as (o & _ & H). destruct (_ && _); [by injection H as <-|].
  apply bind_ok in H as ([op t] & _ & H). apply bind_ok in H as ([[used red'] p1] & H1 & H). eapply IH; [|exact H].
  eapply dispatch_inst_wf; [| | |exact H1]; done.
Qed.

(** ** Fetch *)

Lemma fetch_access_win (p p' : pipe (W:=W)) inst lat : fetch_access cfg p = Ok (inst, lat, p') -> win p' = win p.
Proof.
  unfold fetch_access. cbv zeta. destruct (in_text _); [|by intros [= _ _ <-]]. intros H. apply bind_ok in H as ([m bs] & _ & H).
  cbv zeta in H. apply bind_ok in H as ([l1 p1] & H1 & H). apply bind_ok in H as ([l2 p2] & H2 & [= _ _ <-]).
  assert (E1 : win p1 = win p).
  { destruct il1_access; [by apply bind_ok in H1 as ([l h] & _ & [= _ <-])|by injection H1 as _ <-]. }
  rewrite <- E1. destruct itlb_access; [by apply bind_ok in H2 as ([l h] & _ & [= _ <-])|by injection H2 as _ <-].
Qed.

Lemma fetch_predict_win inst u i (p p' : pipe (W:=W)) r : fetch_predict inst u i p = Ok (r, p') -> win p' = win p.
Proof.
  unfold fetch_predict. intros H. destruct (pred p); [|by injection H as _ <-]. apply bind_ok in H as (o & _ & H).
  destruct (truth _); [|by injection H as _ <-]. by apply bind_ok in H as (x & _ & [= _ <-]).
Qed.

Lemma fetch_loop_win n : forall cnt i (p p' : pipe (W:=W)), fetch_loop cfg n cnt i p = Ok p' -> win p' = win p.
Proof.
  induction n as [|n IH]; intros cnt i p p' H; cbn [fetch_loop] in H; [by injection H as <-|].
  destruct (_ <? _); [|by injection H as <-]. cbv zeta in H. apply bind_ok in H as ([[inst lat] p1] & H1%fetch_access_win & H).
  destruct (negb _); [by injection H as <-|]. apply bind_ok in H as (old & _ & H).
  apply bind_ok in H as ([[[target u] i'] p2] & H2%fetch_predict_win & H). apply bind_ok in H as (data & _ & H).
  change (win p1 = win p) in H1. rewrite <- H1, <- H2. destruct (_ && _); [by injection H as <-|]. by apply IH in H.
Qed.

(** * A cycle *)

(** Every cycle leaves the window consistent. *)
Lemma sim_main_cycle_wf (p p' : pipe (W:=W)) : window_wf (win p) -> sim_main_cycle cfg p = Ok p' -> window_wf (win p').
Proof.
  intros Hw H. unfold sim_main_cycle in H. apply bind_ok in H as ([] & _ & H).
  apply bind_ok in H as (p1 & H1 & H). apply commit_loop_wf in H1; [|done]. cbv zeta in H.
  apply bind_ok in H as (p2 & H2 & H). apply writeback_loop_wf in H2; [|exact H1].
  assert (Hback : forall q q' : pipe (W:=W), window_wf (win q) -> (q ← on_win lsq_refresh q; ruu_issue cfg q) = Ok q' -> window_wf (win q')).
  { intros q q' Hq Hi. apply bind_ok in Hi as (q1 & Hr & Hi%ruu_issue_shape). eapply window_wf_shape; [exact Hi|].
    eapply window_wf_shape; [|exact Hq]. eapply on_win_shape; [exact Hr|]. intros. by eapply refresh_loop_shape. }
  apply bind_ok in H as (p3 & H3 & H).
  assert (Hw3 : window_wf (win p3)) by (destruct (bugcompat_mode cfg); [by injection H3 as <-|by eapply Hback]).
  apply bind_ok in H as (p4 & H4 & H). apply dispatch_loop_wf in H4; [|done].
  apply bind_ok in H as (p5 & H5 & H).
  assert (Hw5 : window_wf (win p5)) by (destruct (bugcompat_mode cfg); [by eapply Hback; [|exact H5]|by injection H5 as <-]).
  apply bind_ok in H as (p6 & H6 & [= <-]). change (window_wf (win p6)).
  destruct (_ =? 0); [by apply fetch_loop_win in H6; rewrite H6|by injection H6 as <-].
Qed.

Lemma sim_main_cycles_wf n : forall p p' : pipe (W:=W), window_wf (win p) -> sim_main_cycles cfg n p = Ok p' -> window_wf (win p').
Proof.
  induction n as [|n IH]; intros p p' Hw H; cbn [sim_main_cycles] in H; [by injection H as <-|].
  apply bind_ok in H as (p1 & H1 & H). eapply IH; [|exact H]. by eapply sim_main_cycle_wf.
Qed.

(** The window that sim_init sets up. *)
Lemma zero_ring_ok n : (0 < n)%nat -> ring_ok (zero_ring n) /\ view (zero_ring n) = [] /\ Forall st_ok (slots (zero_ring n)).
Proof.
  intros Hn. assert (Hs : ring_size (zero_ring n) = n) by apply repeat_length. split; [split; rewrite ?Hs; cbn; lia|].
  split; [done|]. apply Forall_forall. intros s Hs'%list_elem_of_In%repeat_spec. by subst.
Qed.

Lemma rslink_init_cv n w : use_spec_cv (rslink_init n w) = use_spec_cv w.
Proof.
  unfold rslink_init. change (use_spec_cv w) with (use_spec_cv (w <| rslink_free := 0%nat |>)). generalize (w <| rslink_free := 0%nat |>).
  induction n as [|n IH]; intros w0; [done|]. cbn [link_nodes]. by rewrite IH.
Qed.

Lemma cv_init_cv w w' : length (use_spec_cv w) = CV_BMAP_SZ -> cv_init w = Ok w' -> length (use_spec_cv w') = CV_BMAP_SZ.
Proof.
  intros Hcv H. unfold cv_init in H. cbv zeta in H. apply bind_ok in H as (bm & Hb & <-%Ok_inj). rewrite clear_map in Hb by done.
  apply Ok_inj in Hb as <-. apply repeat_length.
Qed.

Lemma queues_init_wf RUU_size LSQ_size w : (0 < RUU_size)%nat -> (0 < LSQ_size)%nat -> length (use_spec_cv w) = CV_BMAP_SZ ->
  window_wf (lsq_init LSQ_size (ruu_init RUU_size w)).
Proof.
  intros HR HL Hcv. destruct (zero_ring_ok RUU_size HR) as (A1 & A2 & A3). destruct (zero_ring_ok LSQ_size HL) as (B1 & B2 & B3).
  set (w0 := lsq_init _ _). assert (ER : RUU w0 = zero_ring RUU_size) by done.
  assert (EL : LSQ w0 = zero_ring LSQ_size) by done. assert (EC : use_spec_cv w0 = use_spec_cv w) by done. clearbody w0.
  split; rewrite ?ER, ?EL, ?EC, ?A2, ?B2; try done; unfold ring_idx; cbn; by rewrite Nat.Div0.mod_0_l.
Qed.

Lemma engine_init_wf RUU_size LSQ_size fus (p p0 : pipe (W:=W)) : (0 < RUU_size)%nat -> (0 < LSQ_size)%nat ->
  length (use_spec_cv (win p)) = CV_BMAP_SZ -> engine_init cfg RUU_size LSQ_size fus p = Ok p0 -> window_wf (win p0).
Proof.
  intros HR HL Hcv. unfold engine_init. generalize MAX_RS_LINKS. intros n H.
  apply bind_ok in H as (pool & _ & H). cbv zeta in H. apply bind_ok in H as (t & _ & H).
  apply bind_ok in H as (p1 & H1 & <-%Ok_inj). apply on_win_inv in H1 as (w & H1 & E1).
  apply cv_init_cv in H1; [|change (length (use_spec_cv (rslink_init n (win p))) = CV_BMAP_SZ); by rewrite rslink_init_cv].
  rewrite <- E1 in H1. by apply (queues_init_wf RUU_size LSQ_size (readyq_init (eventq_init (win p1)))).
Qed.
End Stages.

(** The checks at the head of a cycle. *)
Lemma window_wf_sane w : window_wf w -> sanity_checks w = Ok tt.
Proof.
  intros Hw. unfold sanity_checks, ring_wedged. pose proof (window_wf_num w Hw) as Hn.
  rewrite (proj2 (Nat.ltb_ge _ _) Hn). fold (ring_idx (RUU w) (r_num (RUU w))). fold (ring_idx (LSQ w) (r_num (LSQ w))).
  by rewrite <- (ww_RUU_tail _ Hw), <- (ww_LSQ_tail _ Hw), !Nat.eqb_refl.
Qed.
