(* ===== verification/PipeProps.v ===== *)
(** What the pipeline of sim-outorder.c guarantees, with a program that runs
    through it. *)

From Stdlib Require Import Strings.String.
From S2P Require Import Prelude Misc Memory Isa Bitmap Bpred BpredWf Resource ResourceProps Exec Funsim FunsimProps SpecSim SpecProps Ruu RuuRing RuuRecover Pipeline PipeSim PipeWindow.

(** * The pipeline executes the program *)

Section Executes.
Context {E : SimEnv} {L : SyscallLaws} {fp : HostFP} {W : Type} `{hierarchy : MemHier W}.

(** The program as sim_init finds it, in the two simulators. *)
Record loaded (s : safe_state) (p : pipe (W:=W)) : Prop := {
  ld_regs : g_regs (trc p) = s_regs s;
  ld_mem : mem_like (s_mem s) (g_mem (trc p));
  ld_ok : regs_ok (s_regs s);
  ld_pages : pages_ok (s_mem s);
  ld_spec : ints_ok (spec_regs_R (trc p));
  ld_use_R : length (use_spec_R (trc p)) = R_BMAP_SZ;
  ld_use_F : length (use_spec_F (trc p)) = F_BMAP_SZ;
  ld_count : sim_num_insn (stats p) = 0;
  ld_host : s_host s = g_host (trc p);
}.

(** The PC of the next instruction to be dispatched on the right path. *)
Definition resume_PC (p : pipe (W:=W)) : outcome Z :=
  if spec_mode (trc p) then Ok (recover_PC (ftc p))
  else if fetch_num (ftc p) =? 0 then Ok (fetch_pred_PC (ftc p))
  else e ← a_get (fetch_data p) (fetch_head (ftc p)); Ok (f_PC e).

Lemma tracer_init_eq t : length (use_spec_R t) = R_BMAP_SZ -> length (use_spec_F t) = F_BMAP_SZ ->
  tracer_init t = Ok (t <| spec_mode := false |> <| use_spec_R := repeat 0 R_BMAP_SZ |> <| use_spec_F := repeat 0 F_BMAP_SZ |>
    <| use_spec_HI := false |> <| use_spec_LO := false |> <| use_spec_FCC := false |>
    <| store_htable := repeat [] (Z.to_nat STORE_HASH_SIZE) |>).
Proof.
  intros HR HF. unfold tracer_init, clear_spec_regs.
  change (use_spec_R (set_field spec_mode _ t)) with (use_spec_R t).
  change (use_spec_F (set_field spec_mode _ t)) with (use_spec_F t).
  rewrite !clear_map by done. reflexivity.
Qed.

(** The pipeline starts at the first instruction. *)
Lemma engine_init_tracks cfg s N RUU_size LSQ_size fus (p p0 : pipe (W:=W)) :
  pow2 (ruu_ifq_size cfg) -> loaded s p -> engine_init cfg RUU_size LSQ_size fus p = Ok p0 ->
  tracks cfg (sim_safe_main s) N (sim_main_start (regs_PC (s_regs s)) p0).
Proof.
  intros Hsz [Hr Hm Hok Hpg Hsp HR HF Hc Hh] H. unfold engine_init in H.
  apply bind_ok in H as (pool & _ & H). cbv zeta in H. apply bind_ok in H as (t & Ht & H).
  change (trc (set_field win _ _)) with (trc p) in Ht. rewrite tracer_init_eq in Ht by done. injection Ht as <-.
  apply bind_ok in H as (p1 & H1%on_win_front & [= <-]). injection H1 as e1 e2 e3 e4.
  right. exists 0%nat, (sim_safe_main s). cbn. rewrite e4. split; [done|]. split; [lia|]. split; [done|].
  unfold program_at. cbn. rewrite e1, e2, e3. cbn. split.
  - split; try done; cbn.
    + by rewrite Hr.
    + rewrite Hr. by destruct Hok.
  - exists []. split; [|split; [done|done]]. cbn. apply fetch_queue_empty; [destruct Hsz; lia|apply repeat_length].
Qed.

Lemma resume_at cfg s0 s (p : pipe (W:=W)) :
  pow2 (ruu_ifq_size cfg) -> program_at cfg s0 s (trc p) (ftc p) (fetch_data p) -> resume_PC p = Ok (regs_PC (s_regs s)).
Proof.
  intros Hsz. unfold program_at, resume_PC. destruct (spec_mode (trc p)); [by intros [-> _]|].
  intros [_ (q & Hq & Hch & _)]. destruct q as [|e q].
  - destruct Hq as [Hn _]. cbn in Hn. rewrite Hn. cbn. by rewrite Hch.
  - destruct (fetch_queue_pop _ Hsz _ _ _ _ _ _ Hq) as [He _]. destruct Hq as [Hn _]. cbn in Hn, Hch.
    replace (fetch_num (ftc p) =? 0) with false by blia. rewrite He. cbn. by destruct Hch as [<- _].
Qed.

Lemma program_at_arch cfg s0 s t f data :
  program_at cfg s0 s t f data -> at_inst 0 (s_regs s) = at_inst 0 (g_regs t) /\ mem_like (s_mem s) (g_mem t) /\ s_host s = g_host t.
Proof.
  unfold program_at. destruct (spec_mode t).
  - intros (_ & _ & _ & r0 & Hr & Hs). split; [by rewrite (sp_regs _ _ _ Hs)|]. split; [apply (sp_mem _ _ _ Hs)|by rewrite (sp_host _ _ _ Hs)].
  - intros [Ha _]. split; [apply (sa_regs _ _ Ha)|]. split; [apply (sa_mem _ _ Ha)|apply (sa_host _ _ Ha)].
Qed.

(** What it means that the pipeline has executed the program: its architected state is
    the one that sim-safe has after as many instructions. *)
Definition pipe_executed (s : safe_state) (p : pipe (W:=W)) : Prop :=
  exists k s', sim_num_insn (stats p) = Z.of_nat k /\ sim_safe_run k s = Ok s' /\
    at_inst 0 (g_regs (trc p)) = at_inst 0 (s_regs s') /\ same_bytes (s_mem s') (g_mem (trc p)) /\
    g_host (trc p) = s_host s' /\ resume_PC p = Ok (regs_PC (s_regs s')).

Lemma tracks_executed cfg s N (p : pipe (W:=W)) : pow2 (ruu_ifq_size cfg) -> tracks cfg s N p -> sim_num_insn (stats p) <= Z.of_nat N ->
  pipe_executed s p.
Proof.
  intros Hsz [Hb|(k & s' & Hk & _ & Hs' & Hat)] Hle; [lia|]. exists k, s'. split; [done|]. split; [done|].
  destruct (program_at_arch _ _ _ _ _ _ Hat) as (Hr & Hm & Hh). split; [done|]. split; [by apply mem_like_bytes|]. split; [done|by eapply resume_at].
Qed.

(** C1: sim-outorder executes the program.  Take a program of which sim-safe
    runs [N] instructions without a fault, in a text segment it does not write
    and without conversions to int, and let the pipeline run any number of
    cycles with any widths, predictor, caches and functional units.  If it has
    counted k <= N instructions of the right path, its registers (the PC and
    $r0 apart, which are set at the next instruction) and the bytes of its
    memory are those sim-safe has after k instructions, it has made the same
    system calls of the host in the same order, and the next
    instruction it will dispatch on the right path is sim-safe's next: also
    while it executes past a mispredicted branch, and whatever has been
    mispredicted and recovered from before. *)
Theorem pipeline_executes_program (cfg : pipe_config) (RUU_size LSQ_size : nat) (fus : list res_desc)
    (s : safe_state) (N n : nat) (p p0 p' : pipe (W:=W)) :
  pow2 (ruu_ifq_size cfg) -> text_layout -> loaded s p -> program_runs (sim_safe_main s) N ->
  engine_init cfg RUU_size LSQ_size fus p = Ok p0 ->
  sim_main_cycles cfg n (sim_main_start (regs_PC (s_regs s)) p0) = Ok p' ->
  sim_num_insn (stats p') <= Z.of_nat N ->
  exists k s', sim_num_insn (stats p') = Z.of_nat k /\ sim_safe_run k (sim_safe_main s) = Ok s' /\
    at_inst 0 (g_regs (trc p')) = at_inst 0 (s_regs s') /\ same_bytes (s_mem s') (g_mem (trc p')) /\
    g_host (trc p') = s_host s' /\ resume_PC p' = Ok (regs_PC (s_regs s')).
Proof.
  intros Hsz Hl Hld Hrun Hinit Hn Hle. apply (engine_init_tracks _ _ N _ _ _ _ _ Hsz Hld) in Hinit.
  apply (sim_main_cycles_tracks _ Hsz Hl _ _ Hrun) in Hn; [|done]. by apply (tracks_executed _ _ _ _ Hsz Hn).
Qed.
End Executes.

(** * The instruction window *)

Section Window.
Context `{E : SimEnv} `{fp : HostFP} {W : Type} `{hierarchy : MemHier W}.

(** C10: The window of sim-outorder is consistent after any number of cycles,
    with any widths, sizes, predictor, caches and functional units: the RUU and
    the LSQ are rings of as many stations as they count, their tails where
    their heads and counts put them, and the LSQ has exactly the accesses of
    the loads and stores of the RUU, in program order and each with the
    instruction, the address and the mode of its address computation
    ([window_wf]).  In particular the sanity checks at the head of a cycle
    never panic. *)
Theorem pipeline_window_consistent (cfg : pipe_config) (RUU_size LSQ_size : nat) (fus : list res_desc) (entry : Z) (n : nat)
    (p p0 p' : pipe (W:=W)) :
  (0 < RUU_size)%nat -> (0 < LSQ_size)%nat -> length (use_spec_cv (win p)) = CV_BMAP_SZ ->
  engine_init cfg RUU_size LSQ_size fus p = Ok p0 -> sim_main_cycles cfg n (sim_main_start entry p0) = Ok p' ->
  window_wf (win p') /\ sanity_checks (win p') = Ok tt.
Proof.
  intros HR HL Hcv H0 Hn. assert (Hw : window_wf (win p')).
  { eapply sim_main_cycles_wf; [|exact Hn]. exact (engine_init_wf _ _ _ _ _ _ HR HL Hcv H0). }
  split; [done|by apply window_wf_sane].
Qed.
End Window.

(** C9: ruu_recover squashes exactly the stations younger than the branch.  In
    a consistent window and for the [i]-th oldest instruction the loop ends
    without a panic, and after it the window is consistent and has the first
    [i + 1] instructions and their loads and stores, as they were.  Of the
    pointers to stations that were valid those to squashed stations are now
    invalid, by their tags, and the others valid: so the event queue, the ready
    queue and the lists of consumers lose what is squashed without being
    searched.  The links to the consumers of squashed stations return to the
    free list, the speculative create vector is cleared and the other one
    stays. *)
Theorem ruu_recover_squashes_younger (w : window) (i : nat) : window_wf w -> (i < r_num (RUU w))%nat ->
  exists w', ruu_recover (ring_idx (RUU w) i) w = Ok w' /\ window_wf w' /\
    view (RUU w') = take (S i) (view (RUU w)) /\ view (LSQ w') = take (accesses i w) (view (LSQ w)) /\
    (forall l, RSLINK_VALID l w = Ok true -> RSLINK_VALID l w' = Ok (negb (younger i w (l_rs l)))) /\
    rslink_free w' = (links (drop (S i) (view (RUU w))) + links (drop (accesses i w) (view (LSQ w))) + rslink_free w)%nat /\
    event_queue w' = event_queue w /\ ready_queue w' = ready_queue w /\
    create_vector w' = create_vector w /\ use_spec_cv w' = repeat 0 CV_BMAP_SZ.
Proof.
  intros Hw Hi. eexists. split; [by apply ruu_recover_eq|]. destruct (squash_window_wf i w Hw Hi) as (H1 & H2 & H3).
  split; [done|]. split; [done|]. split; [done|]. split; [intros l; by apply squashed_valid|].
  split; [|done]. pose proof (accesses_split i w Hw) as Ha. cbn.
  by replace (r_num (RUU w) - (r_num (RUU w) - S i))%nat with (S i) by lia;
    replace (r_num (LSQ w) - (r_num (LSQ w) - accesses i w))%nat with (accesses i w) by lia.
Qed.

(** * A program *)

(** A loop that counts r1 down from 5 and r2 up, with a store and a load on
    the way; the branch out of the loop is mispredicted. *)
Definition example_program : list ss_inst :=
  [asm ADDIU 0 1 5; asm LUI 0 4 0x1000; asm ADDU 2 1 0x200; asm SW 4 2 4; asm LW 4 3 4; asm MULT 3 1 0; asm ADDIU 1 1 0xffff;
   asm BNE 1 0 (0x10000 - 12); asm MFLO 0 0 0x500; asm ADDIU 6 6 1; asm ADDIU 6 6 1; asm ADDIU 6 6 1].
Definition example_text : mem_state :=
  match unchk_write 0x400000 (flat_map inst_bytes example_program) (mem_tickle 0x400000 mem_init) with Ok m => m | _ => mem_init end.

(** Four instructions are fetched, decoded, issued and committed in a cycle. *)
Definition example_config : pipe_config := mk_config 4 3 1 4 4 4 false true false false spec_CT 1 0.
#[export] Instance no_hierarchy : MemHier unit := {| il1_access := None; itlb_access := None; dl1_access := None; dtlb_access := None |}.
Definition example_bpred : option bpred :=
  match bpred_create BPred2bit 16 0 0 0 0 false 4 2 8 with Ok b => Some b | _ => None end.
Definition no_window : window := mk_window (mk_ring [] 0 0 0) (mk_ring [] 0 0 0) 0 [] [] (repeat 0 3) [] [] [] [] None 0.

Definition example_loaded : safe_state := mk_safe example_regs example_text 0 0 false 0 0 [].
Definition example_pipe : pipe (W:=unit) :=
  mk_pipe no_window (example_tracer <| g_mem := example_text |> <| g_regs := example_regs |>) (mk_fetch 0 0 0 0 0 0) []
    example_bpred (mk_res_pool "" 0 [] [] []) tt 0 0 (mk_counters 0 0 0 0 0 0 0 0).

(** The pipeline after [n] cycles. *)
Definition example_after (n : nat) : outcome (pipe (W:=unit)) :=
  p0 ← engine_init example_config 16 8 default_fu_config example_pipe;
  sim_main_cycles (E:=example_env) example_config n (sim_main_start (regs_PC (s_regs example_loaded)) p0).

#[local] Strategy -100 [example_after].

Lemma example_text_layout : text_layout (E:=example_env).
Proof. split; vm_compute; [reflexivity|discriminate|reflexivity]. Qed.

Lemma example_text_pages : pages_ok example_text.
Proof.
  assert (H : map_Forall (fun _ (pg : gmap Z Z) => map_Forall (fun _ v => 0 <= v < 256) pg) (mem_table example_text))
    by (apply (bool_decide_unpack _); vm_compute; exact I).
  intros b pg o v Hb Ho. exact (H b pg Hb o v Ho).
Qed.

Lemma example_is_loaded : loaded example_loaded example_pipe.
Proof. split; [reflexivity|split; reflexivity|exact example_regs_ok|exact example_text_pages|exact example_spec_ints|reflexivity..]. Qed.

#[export] Instance ss_inst_eq_dec : EqDecision ss_inst.
Proof. solve_decision. Defined.

(** Whether sim-safe runs [n] instructions as [program_runs] asks, starting
    with the text of the memory [m0]. *)
Section Check.
Context {E : SimEnv} {fp : HostFP}.
Variable m0 : mem_state.

Definition text_check (m : mem_state) : bool :=
  forallb (fun i => let pc := ld_text_base env_ld + 8 * Z.of_nat i in bool_decide (text_inst m pc = text_inst m0 pc))
    (seq 0 (Z.to_nat (ld_text_size env_ld / 8))).

Definition converts (pc : Z) : bool :=
  bool_decide (opcode_of_val (SS_OPCODE (text_inst m0 pc)) ∈ [Some CVT_W_S; Some CVT_W_D]).

Fixpoint runs_check (n : nat) (s : safe_state) : bool :=
  in_text (regs_PC (s_regs s)) && text_check (s_mem s) &&
  match n with
  | O => true
  | S n => negb (converts (regs_PC (s_regs s))) && match sim_safe_step s with Ok s' => runs_check n s' | _ => false end
  end.

Hypothesis Hlayout : text_layout.
Hypothesis Hbase : ld_text_base env_ld mod 8 = 0.
Hypothesis Hlen : ld_text_size env_ld mod 8 = 0.

Lemma text_check_spec m : text_check m = true -> same_text m0 m.
Proof.
  intros H pc Hpc. destruct (in_text_range _ Hlayout Hpc) as [Hr Hm]. destruct Hlayout as [H1 H2 H3].
  unfold in_text in Hpc. rewrite !andb_true_iff in Hpc. destruct Hpc as [[Ha%Z.leb_le Hb%Z.ltb_lt] _].
  rewrite u32_small in Hb by lia. unfold text_check in H. rewrite forallb_forall in H.
  set (i := Z.to_nat ((pc - ld_text_base env_ld) / 8)).
  assert (Hi : pc = ld_text_base env_ld + 8 * Z.of_nat i).
  { unfold i. rewrite Z2Nat.id by (apply Z.div_pos; lia). Z.to_euclidean_division_equations. lia. }
  rewrite Hi. eapply bool_decide_eq_true, H.
  apply in_seq. split; [lia|]. cbn. apply Z2Nat.inj_lt; [apply Z.div_pos; lia|apply Z.div_pos; lia|].
  Z.to_euclidean_division_equations. lia.
Qed.

Lemma runs_check_run n : forall s k, runs_check n s = true -> (k <= n)%nat ->
  exists s', sim_safe_run k s = Ok s' /\ runs_check (n - k) s' = true.
Proof.
  induction n as [|n IH]; intros s k H Hk.
  - assert (k = 0)%nat as -> by lia. by exists s.
  - destruct k as [|k]; [by exists s|]. cbn [runs_check] in H. rewrite !andb_true_iff in H. destruct H as [_ [_ H]].
    cbn [sim_safe_run]. destruct (sim_safe_step s) as [s1| | | | | |]; [|done..]. cbn [mbind outcome_bind].
    apply IH; [done|lia].
Qed.

Lemma runs_check_spec n s : runs_check n s = true -> text_inst m0 = text_inst (s_mem s) -> program_runs s n.
Proof.
  intros H Hm. assert (Hh : forall k s', runs_check k s' = true ->
    in_text (regs_PC (s_regs s')) = true /\ same_text m0 (s_mem s')).
  { intros k s' Hs'. assert (Hs : in_text (regs_PC (s_regs s')) && text_check (s_mem s') = true).
    { destruct k; cbn [runs_check] in Hs'; apply andb_true_iff in Hs'; apply Hs'. }
    apply andb_true_iff in Hs as [H1 H2]. split; [done|by apply text_check_spec]. }
  split.
  - intros k Hk. destruct (runs_check_run _ _ _ H Hk) as (s' & Hs' & Hc). destruct (Hh _ _ Hc) as [H1 H2].
    exists s'. split; [done|]. split; [done|]. intros pc Hpc. rewrite <- Hm. by apply H2.
  - intros k s' op Hk Hs' Hop. destruct (runs_check_run _ _ k H ltac:(lia)) as (s2 & Hs2 & Hc). rewrite Hs' in Hs2.
    injection Hs2 as <-. destruct (n - k)%nat as [|j] eqn:Hj; [lia|]. cbn [runs_check] in Hc. rewrite !andb_true_iff in Hc.
    destruct Hc as [_ [Hcv _]]. unfold converts in Hcv. rewrite Hm, Hop in Hcv. apply negb_true_iff, bool_decide_eq_false in Hcv.
    split; intros ->; apply Hcv; set_solver.
Qed.
End Check.

Lemma example_program_runs : program_runs (E:=example_env) (sim_safe_main example_loaded) 32.
Proof.
  apply (runs_check_spec example_text); [exact example_text_layout|reflexivity|reflexivity|vm_compute; reflexivity|reflexivity].
Qed.

(** After 19 cycles the example has executed 32 instructions of the program and
    five more past the last, mispredicted, branch. *)
Lemma example_mispredicts :
  (p ← example_after 19; Ok (spec_mode (trc p), sim_num_insn (stats p), sim_total_insn (stats p))) = Ok (true, 32, 37).
Proof. vm_compute. reflexivity. Qed.

Lemma pipeline_executes_program_witness :
  match example_after 19 with
  | Ok p' => exists k s', sim_num_insn (stats p') = Z.of_nat k /\ sim_safe_run k (sim_safe_main example_loaded) = Ok s' /\
      at_inst 0 (g_regs (trc p')) = at_inst 0 (s_regs s') /\ same_bytes (s_mem s') (g_mem (trc p')) /\
      g_host (trc p') = s_host s' /\ resume_PC p' = Ok (regs_PC (s_regs s'))
  | _ => False
  end.
Proof.
  pose proof example_mispredicts as Hx.
  destruct (example_after 19) as [p'| | | | | |] eqn:H; [|discriminate Hx..].
  assert (Hc : sim_num_insn (stats p') = 32) by (by injection Hx).
  apply bind_ok in H as (p0 & H0 & Hn).
  refine (pipeline_executes_program example_config 16 8 default_fu_config example_loaded 32 19 example_pipe p0 p' _
    example_text_layout example_is_loaded example_program_runs H0 Hn _).
  - split; reflexivity.
  - rewrite Hc. reflexivity.
Defined.

Lemma example_window : match example_after 19 with Ok p' => window_wf (win p') /\ sanity_checks (win p') = Ok tt | _ => True end.
Proof.
  destruct (example_after 19) as [p'| | | | | |] eqn:H; [|exact I..]. apply bind_ok in H as (p0 & H0 & Hn).
  assert (Hw : window_wf (win p')).
  { eapply (sim_main_cycles_wf (E:=example_env)); [|exact Hn].
    refine (engine_init_wf example_config 16 8 default_fu_config example_pipe p0 _ _ _ H0); [lia|lia|reflexivity]. }
  split; [done|by apply window_wf_sane].
Qed.

Lemma pipeline_window_consistent_witness :
  match example_after 19 with
  | Ok p' => window_wf (win p') /\ sanity_checks (win p') = Ok tt
  | _ => False
  end.
Proof.
  pose proof example_mispredicts as Hx.
  destruct (example_after 19) as [p'| | | | | |] eqn:H; [|discriminate Hx..].
  apply bind_ok in H as (p0 & H0 & Hn).
  refine (pipeline_window_consistent (E:=example_env) example_config 16 8 default_fu_config 0x400000 19 example_pipe p0 p' _ _ _ H0 Hn); [lia|lia|reflexivity].
Defined.

(** The mispredicted branch is the eleventh instruction; five are younger, two
    of them a load and a store. *)
Lemma ruu_recover_squashes_younger_witness :
  match example_after 19 with
  | Ok p => (10 < r_num (RUU (win p)))%nat /\
      exists w', ruu_recover (ring_idx (RUU (win p)) 10) (win p) = Ok w' /\ window_wf w' /\
        view (RUU w') = take 11 (view (RUU (win p))) /\ view (LSQ w') = take 4 (view (LSQ (win p)))
  | _ => False
  end.
Proof.
  pose proof example_window as Hw.
  assert (Hx : match example_after 19 with Ok p => r_num (RUU (win p)) = 16%nat /\ accesses 10 (win p) = 4%nat | _ => False end)
    by (vm_compute; split; reflexivity).
  destruct (example_after 19) as [p| | | | | |]; [|destruct Hx..]. destruct Hw as [Hw _], Hx as [Hn Ha].
  assert (Hi : (10 < r_num (RUU (win p)))%nat) by (rewrite Hn; lia). split; [exact Hi|].
  destruct (ruu_recover_squashes_younger (win p) 10 Hw Hi) as (w' & H1 & H2 & H3 & H4 & _).
  exists w'. rewrite Ha in H4. split; [exact H1|]. split; [exact H2|]. split; [exact H3|exact H4].
Defined.

(** * Stores that step their base register *)

(** A store of the operation field [comp]: 1 increments its base register,
    which ss.def then declares as an output, and the issue stage refuses stores
    with an output. *)
Definition example_step_text (comp : Z) : mem_state :=
  let sw := mk_inst (ss_opcode_val SW + comp * 2 ^ 8) (4 * 2 ^ 24 + 2 * 2 ^ 16 + 4) in
  match unchk_write 0x400000 (flat_map inst_bytes [asm LUI 0 4 0x1000; sw]) (mem_tickle 0x400000 mem_init) with Ok m => m | _ => mem_init end.

Definition example_step_run (comp : Z) (n : nat) : outcome Z :=
  p0 ← engine_init example_config 16 8 default_fu_config
         (example_pipe <| trc ::= set_field g_mem (fun _ => example_step_text comp) |>);
  p ← sim_main_cycles (E:=example_env) example_config n (sim_main_start 0x400000 p0); Ok (sim_num_insn (stats p)).

Lemma store_with_increment_panics :
  example_step_run 0 5 = Ok 16 /\ example_step_run 1 4 = Ok 12 /\ example_step_run 1 5 = Panic.
Proof. vm_compute. done. Qed.
