(* ===== verification/SyscallPipe.v ===== *)
(** sim-outorder with the system calls of syscall.c: the pipeline and the handler of the
    system calls together. *)

From S2P Require Import Prelude Misc Memory Isa Bpred BpredWf Resource ResourceProps Exec Funsim FunsimProps SpecSim SpecProps Ruu Pipeline PipeSim PipeProps Syscall SyscallSim SyscallProps SyscallCorrect.

Section Composition.
Context {OS : HostOS} {fp : HostFP} {W : Type} `{hierarchy : MemHier W}.
Variables (ld : ld_bounds) (cfg : byte_config).
#[local] Instance serving : SimEnv := syscall_env ld cfg.

(** Where the loader puts the text, the data and the stack. *)
Record segments : Prop := {
  sg_text : text_layout;
  sg_data : ld_text_base ld + ld_text_size ld + SS_INST_SIZE <= ld_data_base ld;
  sg_stack : ld_stack_base ld <= 2 ^ 31;
  sg_align : ld_stack_base ld mod 4 = 0;
}.

(** sim-safe runs [n] instructions from [s], in the text and without conversions to
    int. *)
Definition stays_in_text (s : safe_state) (n : nat) : Prop := forall k, (k <= n)%nat ->
  exists s', sim_safe_run k s = Ok s' /\ in_text (regs_PC (s_regs s')) = true /\
    ((k < n)%nat -> opcode_of_val (SS_OPCODE (text_inst (s_mem s) (regs_PC (s_regs s')))) ∉ [Some CVT_W_S; Some CVT_W_D]).

(** What cannot be written has the text in it. *)
Lemma protected_same_text m m' : segments -> protected ld m m' -> same_text m m'.
Proof.
  intros [Ht Hd _ _] Hp pc Hpc. destruct (in_text_range _ Ht Hpc) as [Hr Hm]. destruct Ht as [T1 T2 T3].
  unfold in_text in Hpc. rewrite !andb_true_iff in Hpc. destruct Hpc as [[Ha%Z.leb_le Hb%Z.ltb_lt] _].
  change (env_ld) with ld in *. rewrite u32_small in Hb by lia. change SS_INST_SIZE with 8 in Hd.
  assert (forall i, 0 <= i < 8 -> mem_byte m' (pc + i) = mem_byte m (pc + i)) as Hi.
  { intros i Hi. apply Hp; [Z.to_euclidean_division_equations; lia|]. unfold mem_perm. rewrite bool_decide_eq_false_2, andb_false_r by done. cbn [orb]. blia. }
  assert (forall o, o <= 4 -> 0 <= o -> mem_bytes m' (pc + o) 4 = mem_bytes m (pc + o) 4) as Hbs.
  { intros o Ho Ho'. unfold mem_bytes. apply map_ext_in. intros i Hin%in_seq. rewrite <- Z.add_assoc. apply Hi. lia. }
  unfold text_inst. rewrite (Hbs 4) by lia. pose proof (Hbs 0 ltac:(lia) ltac:(lia)) as H0. by rewrite Z.add_0_r in H0; rewrite H0.
Qed.

Lemma stays_since s k s' : segments -> regs_ok (s_regs s) -> pages_ok (s_mem s) -> sim_safe_run k s = Ok s' -> since ld s s'.
Proof.
  intros [[T1 T2 T3] Hd Hs Hal] Hr Hp H. assert (0 <= ld_data_base ld) as Hb by (change env_ld with ld in *; change SS_INST_SIZE with 8 in Hd; lia).
  destruct (safe_run_since ld cfg (conj Hb (conj Hs Hal)) k s s s') as (_ & _ & _ & H'); [|exact H|exact H'].
  split; [done|]. split; [done|]. split; [done|apply since_refl].
Qed.

Lemma stays_program_runs s n : segments -> regs_ok (s_regs s) -> pages_ok (s_mem s) -> stays_in_text s n -> program_runs s n.
Proof.
  intros Hsg Hr Hp Hrun. split.
  - intros k Hk. destruct (Hrun k Hk) as (s' & Hs' & Ht & _). exists s'. split; [done|]. split; [done|].
    apply protected_same_text; [done|]. by apply (stays_since s k s').
  - intros k s' op Hk Hs' Hop. destruct (Hrun k ltac:(lia)) as (s2 & Hs2 & _ & Hc). rewrite Hs' in Hs2. injection Hs2 as <-.
    specialize (Hc Hk). rewrite Hop in Hc. split; intros ->; apply Hc; set_solver.
Qed.

(** C2: sim-outorder with syscall.c executes the program.  Take a program in the layout of
    the loader of which sim-safe, with the system calls of syscall.c on any host, runs [N]
    instructions that stay in the text and do not convert to int.  When the pipeline,
    with any widths, predictor, caches and functional units, has counted k <= N
    instructions of the right path, its registers, memory, next PC and system calls are
    those of sim-safe after k instructions: no system call has been made on a wrong path,
    none twice or out of order, every answer in the trace is the one of the host at that
    point, and what the program may not write, its text among it, is as it was loaded. *)
Theorem outorder_serves_program (pcfg : pipe_config) (RUU_size LSQ_size : nat) (fus : list res_desc) (s : safe_state) (N n : nat)
    (p p0 p' : pipe (W:=W)) :
  pow2 (ruu_ifq_size pcfg) -> segments -> loaded s p -> stays_in_text (sim_safe_main s) N ->
  engine_init pcfg RUU_size LSQ_size fus p = Ok p0 ->
  sim_main_cycles pcfg n (sim_main_start (regs_PC (s_regs s)) p0) = Ok p' ->
  sim_num_insn (stats p') <= Z.of_nat N ->
  (exists k s', sim_num_insn (stats p') = Z.of_nat k /\ sim_safe_run k (sim_safe_main s) = Ok s' /\
    at_inst 0 (g_regs (trc p')) = at_inst 0 (s_regs s') /\ same_bytes (s_mem s') (g_mem (trc p')) /\
    g_host (trc p') = s_host s' /\ resume_PC p' = Ok (regs_PC (s_regs s'))) /\
  (answered (s_host s) -> answered (g_host (trc p'))) /\ protected ld (s_mem s) (g_mem (trc p')).
Proof.
  intros Hsz Hsg Hld Hrun Hinit Hn Hle. pose proof (ld_ok _ _ Hld) as Hr. pose proof (ld_pages _ _ Hld) as Hp.
  pose proof (stays_program_runs (sim_safe_main s) N Hsg Hr Hp Hrun) as Hprog. apply (engine_init_tracks _ _ N _ _ _ _ _ Hsz Hld) in Hinit.
  apply (sim_main_cycles_tracks _ Hsz (sg_text Hsg) _ _ Hprog) in Hn; [|done]. pose proof (tracks_executed _ _ _ _ Hsz Hn Hle) as Hex.
  split; [exact Hex|]. destruct Hex as (k & s' & _ & Hs' & _ & Hm & Hh & _).
  destruct (stays_since (sim_safe_main s) k s' Hsg Hr Hp Hs') as [Hpr _ _ Ha]. rewrite Hh. split; [exact Ha|].
  intros a Hra Hpa. rewrite Hm. by apply Hpr.
Qed.
End Composition.

(** * The program that echoes its input, in the pipeline *)

Module PipeExample.
#[local] Existing Instance SyscallExample.os.

Definition start : pipe (W:=unit) := example_pipe <| trc ::= set_field g_mem (fun _ => SyscallExample.text) |>.

(** The pipeline after [n] cycles. *)
Definition after (n : nat) : outcome (pipe (W:=unit)) :=
  p0 ← engine_init example_config 16 8 default_fu_config start;
  sim_main_cycles (E:=serving SyscallExample.ld SyscallExample.cfg) example_config n (sim_main_start (regs_PC (s_regs SyscallExample.start)) p0).

Lemma echo_segments : segments SyscallExample.ld SyscallExample.cfg.
Proof. split; [split; [reflexivity|discriminate|reflexivity]|discriminate|discriminate|reflexivity]. Qed.

Lemma echo_loaded : loaded SyscallExample.start start.
Proof.
  split; [reflexivity|split; reflexivity|exact example_regs_ok|exact SyscallExample.echo_text_pages|exact example_spec_ints|reflexivity..].
Qed.

Lemma echo_stays : stays_in_text SyscallExample.ld SyscallExample.cfg (sim_safe_main SyscallExample.start) 10.
Proof.
  intros k Hk. destruct (runs_check_run (E:=serving SyscallExample.ld SyscallExample.cfg) SyscallExample.text 10 (sim_safe_main SyscallExample.start) k) as (s' & Hs' & Hc);
    [vm_compute; reflexivity|exact Hk|].
  exists s'. split; [exact Hs'|]. destruct (10 - k)%nat as [|j] eqn:Hj; cbn [runs_check] in Hc; rewrite !andb_true_iff in Hc.
  - split; [apply Hc|lia].
  - split; [apply Hc|]. intros _. destruct Hc as [_ [Hcv _]]. by apply negb_true_iff, bool_decide_eq_false in Hcv.
Qed.

(** Ten instructions in ten cycles, two of them system calls; then the program exits. *)
Lemma pipe_echoes : (p ← after 10; Ok (sim_num_insn (stats p), g_host (trc p)))
    = Ok (10, [mk_host_event (h_write 1 [104; 105]) (mk_answer 2 0 []); mk_host_event (h_read 0 4) (mk_answer 2 0 [[104; 105]])])
  /\ after 20 = Exit 7.
Proof. split; vm_compute; reflexivity. Qed.
End PipeExample.

#[local] Strategy -100 [PipeExample.after].

Lemma outorder_serves_program_witness :
  match PipeExample.after 10 with
  | Ok p => (exists s, sim_safe_run (H := serving (OS := SyscallExample.os) SyscallExample.ld SyscallExample.cfg) 10 (sim_safe_main SyscallExample.start) = Ok s /\ g_host (trc p) = s_host s) /\
      answered (OS := SyscallExample.os) (g_host (trc p)) /\ length (g_host (trc p)) = 2%nat
  | _ => False
  end.
Proof.
  pose proof (proj1 PipeExample.pipe_echoes) as Hx.
  destruct (PipeExample.after 10) as [p'| | | | | |] eqn:H; [|discriminate Hx..].
  assert (Hc : sim_num_insn (stats p') = 10) by (by injection Hx).
  assert (Hl : length (g_host (trc p')) = 2%nat) by (by injection Hx as _ ->).
  apply bind_ok in H as (p0 & H0 & Hn).
  destruct (outorder_serves_program (OS := SyscallExample.os) SyscallExample.ld SyscallExample.cfg example_config 16 8 default_fu_config
    SyscallExample.start 10 10 PipeExample.start p0 p') as ((k & s' & Hk & Hs' & _ & _ & Hh & _) & Ha & _);
    [split; reflexivity|exact PipeExample.echo_segments|exact PipeExample.echo_loaded|exact PipeExample.echo_stays|exact H0|exact Hn|by rewrite Hc|].
  split; [|split; [by apply Ha|exact Hl]]. exists s'. split; [|exact Hh]. rewrite Hc in Hk. by replace k with 10%nat in Hs' by lia.
Defined.
