(* ===== verification/HierProps.v ===== *)
(** The memory hierarchy of sim-outorder.c behind the interface the pipeline
    uses: every reference is served, whatever the geometry and the sharing of the
    caches, and the requests are conserved from one level to the next. *)

From S2P Require Import Prelude Misc Memory Cache Pipeline Hierarchy HierWf HierRun.

(** * The handlers of sim-outorder.c *)

Definition mem_opts_ok (m : mem_opts) : Prop := 1 <= mem_bus_width m < 2 ^ 30.

Section Outorder.
Context {R : RandomSource} (m : mem_opts) (K : Z).
Hypothesis Hm : mem_opts_ok m.
Hypothesis HK : 0 <= K <= 30.

Lemma mem_access_latency_ok k : 3 <= k <= K -> exists l, mem_access_latency m (2 ^ k) = Ok l.
Proof.
  intros Hk. unfold mem_access_latency. cbv zeta. pose proof (pow2_pos k ltac:(lia)).
  assert (2 ^ k <= 2 ^ 30) by (apply Z.pow_le_mono_r; lia). unfold mem_opts_ok in Hm.
  rewrite s32_small by (change (2 ^ 31) with (2 * 2 ^ 30); lia).
  rewrite Z.quot_div_nonneg by lia.
  assert (1 <= (2 ^ k + (mem_bus_width m - 1)) / mem_bus_width m) by (apply Z.div_le_lower_bound; lia).
  rewrite (c_assert_true (0 <? _)) by blia. by eexists.
Qed.

Lemma outorder_level2 : Level2Laws (outorder_handlers m) K.
Proof.
  split; [done|..]; intros k Hk cmd a u d now w [Hx _] _ _; destruct (mem_access_latency_ok k Hk) as [l E].
  - cbn. unfold dl2_access_fn. destruct cmd; [rewrite E|]; by eexists _, _, _.
  - cbn. unfold il2_access_fn. destruct cmd; [rewrite E|discriminate (Hx eq_refl)]. by eexists _, _, _.
Qed.

#[local] Existing Instance outorder_level2.

Lemma outorder_laws : HandlerLaws (outorder_handlers m) K.
Proof.
  split; [exact _|intros bi k Hk cmd a u d now w Hal _ Hl|intros bd k Hk cmd a u d now w Hal _ Hl|..].
  - cbn. unfold dl1_access_fn. destruct (cache_dl2 w) as [c|] eqn:Hc.
    + destruct (dl2_request_ok (outorder_handlers m) K k bi cmd a now w Hk Hal Hl) as (lat & w' & E & Hl' & Hv); [by rewrite Hc|].
      rewrite E. by destruct cmd; eexists _, _, _.
    + pose proof (no_dl2_view w Hc). destruct (mem_access_latency_ok k Hk) as [l E].
      destruct cmd; [rewrite E|]; by eexists _, _, _.
  - destruct cmd; [|discriminate (proj1 Hal eq_refl)]. cbn. unfold il1_access_fn.
    assert (cache_il2 w = IL2_none \/ cache_il2 w <> IL2_none) as [Hn|Hn]
      by (destruct (cache_il2 w); [by left|by right|by right]).
    + pose proof (no_il2_view w Hn). rewrite Hn. destruct (mem_access_latency_ok k Hk) as [l ->]. by eexists _, _, _.
    + destruct (il2_request_ok (outorder_handlers m) K k bd a now w Hk Hal Hl Hn) as (lat & w' & E & Hl' & Hv).
      destruct (cache_il2 w); [done|..]; rewrite E; by eexists _, _, _.
  - intros k cmd a u d now w _ Hu _. destruct (Hu eq_refl) as [page ->]. by eexists _, _, _.
  - intros k cmd a u d now w _ Hu _. destruct (Hu eq_refl) as [page ->]. by eexists _, _, _.
Qed.

End Outorder.

(** * The hierarchy as the pipeline uses it *)

Section Interface.
Context {R : RandomSource} (h0 : mem_hier).

(** The calls of cache_access in ruu_commit, ruu_issue and ruu_fetch, for the
    caches that [h0] has: sim_check_options sets the pointers once and for all. *)
Definition outorder_hierarchy : MemHier mem_hier := {|
  il1_access := match cache_il1 h0 with
                | IL1_none => None
                | _ => Some (fun pc now h => access_il1 Read pc 8 now h)
                end;
  itlb_access := match itlb h0 with
                 | None => None
                 | Some _ => Some (fun pc now h => access_itlb Read pc 8 now h)
                 end;
  dl1_access := match cache_dl1 h0 with
                | None => None
                | Some _ => Some (fun cmd a now h => access_dl1 cmd a 4 now h)
                end;
  dtlb_access := match dtlb h0 with
                 | None => None
                 | Some _ => Some (fun a now h => access_dtlb Read a 4 now h)
                 end;
|}.

End Interface.

(** The references the pipeline makes through its interface. *)
Inductive pipe_ref :=
| Pipe_inst (pc : Z)
| Pipe_itlb (pc : Z)
| Pipe_data (cmd : mem_cmd) (a : Z)
| Pipe_dtlb (a : Z).

Definition do_pipe_ref {W : Type} {H : MemHier W} (r : pipe_ref) (now : Z) (w : W) : outcome W :=
  match r with
  | Pipe_inst pc => match il1_access with Some f => '(_, w) ← f pc now w; Ok w | None => Ok w end
  | Pipe_itlb pc => match itlb_access with Some f => '(_, w) ← f pc now w; Ok w | None => Ok w end
  | Pipe_data cmd a => match dl1_access with Some f => '(_, w) ← f cmd a now w; Ok w | None => Ok w end
  | Pipe_dtlb a => match dtlb_access with Some f => '(_, w) ← f a now w; Ok w | None => Ok w end
  end.

Fixpoint do_pipe_refs {W : Type} {H : MemHier W} (rs : list (pipe_ref * Z)) (w : W) : outcome W :=
  match rs with
  | [] => Ok w
  | (r, now) :: rs => w ← do_pipe_ref r now w; do_pipe_refs rs w
  end.

(** With their sizes: an instruction or a word. *)
Definition sized (r : pipe_ref) : mem_ref :=
  match r with
  | Pipe_inst pc => Inst_ref pc 8
  | Pipe_itlb pc => Itlb_ref pc 8
  | Pipe_data cmd a => Data_ref cmd a 4
  | Pipe_dtlb a => Dtlb_ref Read a 4
  end.

Definition sized_refs (rs : list (pipe_ref * Z)) : list (mem_ref * Z) := (fun r => (sized r.1, r.2)) <$> rs.

(** An aligned reference away from both ends of the address space. *)
Definition pipe_ref_fine (K : Z) (r : pipe_ref) : Prop :=
  match r with
  | Pipe_inst a | Pipe_itlb a => a mod 8 = 0 /\ 2 ^ K <= a < 2 ^ 32 - 2 ^ K
  | Pipe_data _ a | Pipe_dtlb a => a mod 4 = 0 /\ 2 ^ K <= a < 2 ^ 32 - 2 ^ K
  end.

Lemma sized_fine K r : pipe_ref_fine K r -> ref_fine K (sized r).
Proof.
  destruct r; intros [Ha Hr]; (split; [|done|done|done]); [exists 3|exists 3|exists 2|exists 2]; done.
Qed.

Section Refs.
Context {R : RandomSource} (h0 : mem_hier).
#[local] Instance the_hierarchy : MemHier mem_hier := outorder_hierarchy h0.

(** The interface reaches the caches there are. *)
Lemma pipe_ref_sized r now h : presence h = presence h0 -> do_pipe_ref r now h = do_ref (sized r) now h.
Proof.
  unfold presence. intros [= Hd Hi Hit Hdt]. destruct r; cbn [do_pipe_ref sized]; unfold do_ref, il1_access, itlb_access, dl1_access, dtlb_access, the_hierarchy, outorder_hierarchy,
      inst_ref, itlb_ref, data_ref, dtlb_ref.
  - destruct (cache_il1 h), (cache_il1 h0); done.
  - destruct (itlb h), (itlb h0); done.
  - destruct (cache_dl1 h), (cache_dl1 h0); done.
  - destruct (dtlb h), (dtlb h0); done.
Qed.

Lemma pipe_refs_ok fns K {laws : HandlerLaws fns K} rs : forall dn h,
  presence h = presence h0 -> hier_ok fns K h -> conserved dn h -> Forall (fun r => pipe_ref_fine K r.1) rs ->
  exists h', do_pipe_refs rs h = Ok h' /\ presence h' = presence h0 /\ conserved (dn ++ sized_refs rs) h'.
Proof.
  induction rs as [|[r now] rs IH]; intros dn h Hp Hok Hcv Hf; [exists h; by rewrite app_nil_r|].
  apply Forall_cons in Hf as [Hr Hf].
  destruct (do_ref_ok fns K (sized r) now h Hok (sized_fine K r Hr)) as (h1 & E & Hp1 & Hok1 & Hcv1).
  destruct (IH _ h1 ltac:(congruence) Hok1 (Hcv1 _ Hcv) Hf) as (h2 & E2 & Hp2 & Hcv2). exists h2.
  cbn [do_pipe_refs]. rewrite (pipe_ref_sized r now h Hp), E. split; [exact E2|]. split; [done|].
  by rewrite <- app_assoc in Hcv2.
Qed.

End Refs.

(** * Properties *)

(** C11: Whatever caches and TLBs the options create and share (sim_check_options
    accepts them, and no level has smaller blocks than the one above it), every
    aligned reference the pipeline makes away from the ends of the address space is
    served without an error or an assertion failing, and the requests are conserved:
    the lookups of a cache are the references made to it and the misses and write
    backs of the caches above it, shared caches included, and the instruction caches
    never write anything back (their handlers would panic). *)
Theorem hierarchy_conserves_requests (R : RandomSource) (P : CacheOptParser) (m : mem_opts) (o : hier_opts) (K : Z)
    (h0 : mem_hier) (rs : list (pipe_ref * Z)) :
  mem_opts_ok m -> 0 <= K <= 30 -> sim_check_caches (outorder_handlers m) o = Ok h0 -> geometry_fits K h0 ->
  Forall (fun r => pipe_ref_fine K r.1) rs ->
  exists h, do_pipe_refs (H := outorder_hierarchy h0) rs h0 = Ok h /\ presence h = presence h0 /\
    conserved (sized_refs rs) h.
Proof.
  intros Hm HK E Hg Hf. pose proof (outorder_laws m K Hm HK) as laws.
  destruct (sim_check_caches_ok (outorder_handlers m) K o h0 E Hg) as [Hok Hcv].
  by apply (pipe_refs_ok h0 (outorder_handlers m) K rs [] h0).
Qed.

(** A unified second level: 4 sets of 32 byte blocks under 16 byte blocks. *)
Module Example.

(** The fields between the colons, as sscanf converts them. *)
Fixpoint fields (s cur : list Z) : list (list Z) :=
  match s with
  | [] => [cur]
  | c :: s => if c =? 58 then cur :: fields s [] else fields s (cur ++ [c])
  end.

Definition decimal (s : list Z) : Z := foldl (fun n c => 10 * n + (c - 48)) 0 s.

Definition parser : CacheOptParser := fun s =>
  match fields s [] with
  | [_; a; b; c; [p]] => Some (decimal a, decimal b, decimal c, p)
  | _ => None
  end.

Definition random : RandomSource := fun n => Z.of_nat n.

(** "a:2:16:1:l", "b:4:32:2:r", "c:2:16:1:f", "dl2", "t:1:64:2:l", "none". *)
Definition opts : hier_opts :=
  mk_hier_opts [97;58;50;58;49;54;58;49;58;108] [98;58;52;58;51;50;58;50;58;114]
    [99;58;50;58;49;54;58;49;58;102] opt_dl2 [116;58;49;58;54;52;58;50;58;108] opt_none 1 6 1 6.

Definition mem : mem_opts := mk_mem_opts 2 18 2 8 30.

Definition created : outcome mem_hier := sim_check_caches (P := parser) (outorder_handlers (R := random) mem) opts.

Definition start : mem_hier :=
  match created with Ok h => h | _ => mk_mem_hier None IL1_none (mk_level2 None IL2_none 0) None ∅ None ∅ end.

Lemma created_start : created = Ok start.
Proof.
  assert (H : match created with Ok _ => true | _ => false end = true) by (vm_compute; reflexivity).
  unfold start. by destruct created.
Qed.

Definition refs : list (pipe_ref * Z) :=
  [(Pipe_inst 4096, 0); (Pipe_itlb 4096, 0); (Pipe_data Write 8192, 1); (Pipe_inst 4104, 2); (Pipe_data Read 8224, 3);
   (Pipe_data Read 8256, 90); (Pipe_dtlb 8256, 90); (Pipe_inst 4128, 91)].

Definition lookups (h : mem_hier) : option Z * option Z * option Z :=
  (traffic <$> cache_dl1 h, traffic <$> il1_own (cache_il1 h), traffic <$> cache_dl2 (lower h)).

End Example.

Lemma hierarchy_conserves_requests_witness :
  exists h, do_pipe_refs (H := outorder_hierarchy (R := Example.random) Example.start) Example.refs Example.start = Ok h /\
    conserved (sized_refs Example.refs) h /\ presence h = (true, 3%nat, true, false) /\
    match do_pipe_refs (H := outorder_hierarchy (R := Example.random) Example.start) Example.refs Example.start with
    | Ok h => Example.lookups h
    | _ => (None, None, None)
    end = (Some 3, Some 3, Some 6).
Proof.
  destruct (hierarchy_conserves_requests Example.random Example.parser Example.mem Example.opts 10 Example.start Example.refs)
    as (h & E & Hp & Hc).
  - by vm_compute.
  - done.
  - exact Example.created_start.
  - apply geometry_fitsb_spec. by vm_compute.
  - repeat constructor; done.
  - exists h. split; [exact E|]. split; [exact Hc|]. split; [rewrite Hp; by vm_compute|by vm_compute].
Defined.
