(* ===== verification/SimCache.v ===== *)
(** sim-cache.c: the functional cache simulator, sim-safe with an access of the
    caches for each instruction and each reference.

    The caches are those of Hierarchy.v with the handlers of this file; the
    accesses are made at time 0 and their latencies ignored.  The memory
    accesses a system call makes through dcache_access_fn are an argument; so is
    the system call itself.  The statistics by PC and the debugger are inactive. *)

From S2P Require Import Prelude Misc Memory Cache Hierarchy Isa Exec Funsim.

Section Handlers.
Context {R : RandomSource}.

(** * The miss handlers: no timing *)

Definition dl1_access_fn : access_fn level2 := fun cmd baddr bsize _ d now w =>
  match cache_dl2 w with
  | Some _ => '(lat, w) ← access_dl2 cmd baddr bsize now w; Ok (lat, d, w)
  | None => Ok (1, d, w)
  end.

Definition dl2_access_fn : access_fn unit := fun cmd baddr bsize _ d now w => Ok (1, d, w).

Definition il1_access_fn : access_fn level2 := fun cmd baddr bsize _ d now w =>
  match cache_il2 w with
  | IL2_none => Ok (1, d, w)
  | _ => '(lat, w) ← access_il2 cmd baddr bsize now w; Ok (lat, d, w)
  end.

Definition il2_access_fn : access_fn unit := fun cmd baddr bsize _ d now w => Ok (1, d, w).

Definition itlb_access_fn : access_fn pages := fun cmd baddr bsize u d now w =>
  match u with Some page => Ok (1, d, <[page := 0]> w) | None => AssertFail end.

Definition dtlb_access_fn : access_fn pages := fun cmd baddr bsize u d now w =>
  match u with Some page => Ok (1, d, <[page := 0]> w) | None => AssertFail end.

Definition cache_handlers : handlers :=
  mk_handlers dl1_access_fn dl2_access_fn il1_access_fn il2_access_fn itlb_access_fn dtlb_access_fn.

(** [sim_check_options]: the caches of the options, all of hit latency 1. *)
Definition sim_check_options {P : CacheOptParser} (o : hier_opts) : outcome mem_hier :=
  sim_check_caches cache_handlers
    (mk_hier_opts (cache_dl1_opt o) (cache_dl2_opt o) (cache_il1_opt o) (cache_il2_opt o) (itlb_opt o) (dtlb_opt o) 1 1 1 1).

End Handlers.

(** * The simulator *)

Record cache_sim := mk_cache_sim {
  k_regs : regs;
  k_mem : mem_state;
  k_next_PC : Z;
  k_addr : Z;
  k_is_write : bool;
  k_num_insn : Z;
  k_num_refs : Z;
  k_hier : mem_hier;
  k_host : host_trace;
}.
#[global] Instance eta_cache_sim : Eta cache_sim := mk_eta (fun s =>
  mk_cache_sim (k_regs s) (k_mem s) (k_next_PC s) (k_addr s) (k_is_write s) (k_num_insn s) (k_num_refs s) (k_hier s) (k_host s)).

(** The calls a system call makes of its memory access function: command,
    address and size. *)
Class SyscallRefs := syscall_refs : ss_inst -> regs -> mem_state -> host_trace -> list (mem_cmd * Z * Z).

Definition SS_TEXT_BASE : Z := 0x00400000.

Section CacheSim.
Context `{E : SimEnv} {R : RandomSource} {SR : SyscallRefs}.
Variables flush_on_syscalls compress_icache_addrs : bool.

(** Instruction addresses and sizes, halved above the text base. *)
Definition IACOMPRESS (a : Z) : Z :=
  if compress_icache_addrs then u32 (Z.shiftr (u32 (a - SS_TEXT_BASE)) 1 + SS_TEXT_BASE) else a.
Definition ISCOMPRESS (sz : Z) : Z := if compress_icache_addrs then Z.shiftr sz 1 else sz.

Definition cache_GPR (n : Z) (s : cache_sim) : outcome Z := z_get (regs_R (k_regs s)) n.
Definition cache_SET_GPR (n v : Z) (s : cache_sim) : outcome cache_sim :=
  R ← z_set (regs_R (k_regs s)) n v; Ok (s <| k_regs ::= set_field regs_R (fun _ => R) |>).
Definition cache_FPR_L (n : Z) (s : cache_sim) : outcome Z := z_get (regs_F (k_regs s)) n.
Definition cache_SET_FPR_L (n v : Z) (s : cache_sim) : outcome cache_sim :=
  F ← z_set (regs_F (k_regs s)) n v; Ok (s <| k_regs ::= set_field regs_F (fun _ => F) |>).

(** [__READ_CACHE], [__WRITE_CACHE]: the data TLB, then the data cache. *)
Definition ref_data (cmd : mem_cmd) (addr nbytes : Z) (h : mem_hier) : outcome mem_hier :=
  '(_, h) ← dtlb_ref cmd addr nbytes 0 h;
  '(_, h) ← data_ref cmd addr nbytes 0 h;
  Ok h.

(** The references of [READ_xxx] and [WRITE_xxx]: the caches are looked up first,
    then [MEM_READ_xxx] and [MEM_WRITE_xxx] declare a bad access and track the
    stack before they access the page. *)
Definition cache_READ (t : mem_temp) (a : Z) (s : cache_sim) : outcome (Z * cache_sim) :=
  h ← ref_data Read a (Z.of_nat (temp_size t)) (k_hier s);
  '(_, m) ← mem_valid env_ld Read a (Z.of_nat (temp_size t)) true (k_mem s);
  '(v, m) ← MEM_READ (host_big env_cfg) (temp_size t) a m;
  Ok (v, s <| k_mem := m |> <| k_addr := a |> <| k_hier := h |>).
Definition cache_WRITE (t : mem_temp) (v a : Z) (s : cache_sim) : outcome cache_sim :=
  h ← ref_data Write a (Z.of_nat (temp_size t)) (k_hier s);
  '(_, m) ← mem_valid env_ld Write a (Z.of_nat (temp_size t)) true (k_mem s);
  m ← MEM_WRITE (host_big env_cfg) (temp_size t) a v m;
  Ok (s <| k_mem := m |> <| k_addr := a |> <| k_hier := h |>).

(** The cache accesses of the calls of dcache_access_fn. *)
Fixpoint dcache_refs (rs : list (mem_cmd * Z * Z)) (h : mem_hier) : outcome mem_hier :=
  match rs with
  | [] => Ok h
  | (cmd, addr, nbytes) :: rs => h ← ref_data cmd addr nbytes h; dcache_refs rs h
  end.

(** The flushes of SYSCALL. *)
Definition flush_dtlb (h : mem_hier) : outcome mem_hier :=
  match dtlb h with
  | Some c => '(c, _, pg) ← cache_flush c 0 (dtlb_pages h); Ok (h <| dtlb := Some c |> <| dtlb_pages := pg |>)
  | None => Ok h
  end.
Definition flush_dl1 (h : mem_hier) : outcome mem_hier :=
  match cache_dl1 h with
  | Some c => '(c, _, w) ← cache_flush c 0 (lower h); Ok (h <| cache_dl1 := Some c |> <| lower := w |>)
  | None => Ok h
  end.
Definition flush_dl2 (h : mem_hier) : outcome mem_hier :=
  match cache_dl2 (lower h) with
  | Some c => '(c, _, _) ← cache_flush c 0 tt; Ok (h <| lower ::= set_field cache_dl2 (fun _ => Some c) |>)
  | None => Ok h
  end.

Definition cache_SYSCALL (inst : ss_inst) (s : cache_sim) : outcome cache_sim :=
  h ← (if flush_on_syscalls then h ← flush_dtlb (k_hier s); h ← flush_dl1 h; flush_dl2 h
       else dcache_refs (syscall_refs inst (k_regs s) (k_mem s) (k_host s)) (k_hier s));
  '(r, m, t) ← ss_syscall inst (k_regs s) (k_mem s) (k_host s);
  Ok (s <| k_regs := r |> <| k_mem := m |> <| k_host := t |> <| k_hier := h |>).

#[export] Instance cache_machine : Machine cache_sim := {
  CPC s := regs_PC (k_regs s);
  SET_NPC v s := s <| k_next_PC := v |>;
  SET_TPC _ s := s;
  GPR := cache_GPR;
  MARK_GPR _ s := Ok s;
  SET_GPR := cache_SET_GPR;
  FPR_L := cache_FPR_L;
  MARK_FPR _ s := Ok s;
  SET_FPR_L := cache_SET_FPR_L;
  HI s := regs_HI (k_regs s);
  SET_HI v s := s <| k_regs ::= set_field regs_HI (fun _ => s32 v) |>;
  LO s := regs_LO (k_regs s);
  SET_LO v s := s <| k_regs ::= set_field regs_LO (fun _ => s32 v) |>;
  FCC s := regs_FCC (k_regs s);
  SET_FCC v s := s <| k_regs ::= set_field regs_FCC (fun _ => s32 v) |>;
  READ_MEM := cache_READ;
  WRITE_MEM := cache_WRITE;
  IFAIL _ := Fatal;
  IDIV_int := c_div;
  IMOD_int := c_mod;
  FINT_nan := None;
  FDIV_zero := false;
  do_syscall := cache_SYSCALL;
}.

(** The instruction fetch: the instruction TLB, the instruction cache, memory. *)
Definition cache_fetch (s : cache_sim) : outcome (ss_inst * cache_sim) :=
  let pc := regs_PC (k_regs s) in
  '(_, h) ← itlb_ref (IACOMPRESS pc) (ISCOMPRESS SS_INST_SIZE) 0 (k_hier s);
  '(_, h) ← inst_ref (IACOMPRESS pc) (ISCOMPRESS SS_INST_SIZE) 0 h;
  '(m, bs) ← mem_access (host_big env_cfg) env_ld Read pc (repeat 0 8) 0 SS_INST_SIZE (k_mem s);
  let inst := mk_inst (host_combine (host_big env_cfg) (take 4 bs)) (host_combine (host_big env_cfg) (drop 4 bs)) in
  Ok (inst, s <| k_mem := m |> <| k_hier := h |>).

(** The body of the loop of [sim_main]. *)
Definition sim_cache_step `{HostFP} (s : cache_sim) : outcome cache_sim :=
  s ← cache_SET_GPR 0 0 s;
  let s := s <| k_num_insn ::= Z.add 1 |> in
  '(inst, s) ← cache_fetch s;
  let s := s <| k_addr := 0 |> <| k_is_write := false |> in
  op ← (match opcode_of_val (SS_OPCODE inst) with Some op => Ok op | None => Panic end);
  s ← execute env_cfg op inst s;
  let s := if truth (Z.land (SS_OP_FLAGS op) F_MEM)
           then s <| k_num_refs ::= Z.add 1 |> <| k_is_write ::= orb (truth (Z.land (SS_OP_FLAGS op) F_STORE)) |>
           else s in
  Ok (s <| k_regs ::= set_field regs_PC (fun _ => k_next_PC s) |> <| k_next_PC ::= fun pc => u32 (pc + SS_INST_SIZE) |>).

Fixpoint sim_cache_run `{HostFP} (n : nat) (s : cache_sim) : outcome cache_sim :=
  match n with O => Ok s | S n' => s ← sim_cache_step s; sim_cache_run n' s end.

(** [sim_init]: the counters, the entry point, and the decoded text segment. *)
Definition sim_cache_init (ld_prog_entry : Z) (tab : list ss_opcode) (fuel : nat) (s : cache_sim) : outcome cache_sim :=
  m ← predecode_loop (fun w => w) tab fuel (ld_text_base env_ld) (k_mem s);
  Ok (s <| k_num_insn := 0 |> <| k_num_refs := 0 |> <| k_regs ::= set_field regs_PC (fun _ => ld_prog_entry) |> <| k_mem := m |>).

(** [sim_main] before its loop. *)
Definition sim_cache_main (s : cache_sim) : cache_sim :=
  s <| k_next_PC := u32 (regs_PC (k_regs s) + SS_INST_SIZE) |>.

End CacheSim.
