(* ===== verification/SimCacheProps.v ===== *)
(** The functional cache simulator: it executes what sim-safe executes, whatever
    its caches, and looks up an instruction cache once for each instruction. *)

From S2P Require Import Prelude Misc Memory Cache CacheSet CacheSpec CacheAccess CacheRefine CacheInit CacheCorrect CacheFlush Hierarchy HierWf HierRun Isa Exec ExecMult ExecMeta Funsim FunsimProps Pipeline PipeSim PipeProps HierProps SimCache.

(** * The handlers of sim-cache.c *)

Section Laws.
Context {R : RandomSource} (K : Z).
Hypothesis HK : 0 <= K <= 30.

Lemma cache_level2 : Level2Laws cache_handlers K.
Proof. split; [done|..]; intros k Hk cmd a u d now w _ _ _; by eexists _, _, _. Qed.

#[local] Existing Instance cache_level2.

Lemma cache_laws : HandlerLaws cache_handlers K.
Proof.
  split; [exact _|intros bi k Hk cmd a u d now w Hal _ Hl|intros bd k Hk cmd a u d now w Hal _ Hl|..].
  - cbn. unfold dl1_access_fn. destruct (cache_dl2 w) as [c|] eqn:Hc.
    + destruct (dl2_request_ok cache_handlers K k bi cmd a now w Hk Hal Hl) as (lat & w' & E & Hl' & Hv); [by rewrite Hc|].
      rewrite E. by eexists _, _, _.
    + pose proof (no_dl2_view w Hc). by eexists _, _, _.
  - destruct cmd; [|discriminate (proj1 Hal eq_refl)]. cbn. unfold il1_access_fn.
    assert (cache_il2 w = IL2_none \/ cache_il2 w <> IL2_none) as [Hn|Hn]
      by (destruct (cache_il2 w); [by left|by right|by right]).
    + pose proof (no_il2_view w Hn). rewrite Hn. by eexists _, _, _.
    + destruct (il2_request_ok cache_handlers K k bd a now w Hk Hal Hl Hn) as (lat & w' & E & Hl' & Hv).
      destruct (cache_il2 w); [done|..]; rewrite E; by eexists _, _, _.
  - intros k cmd a u d now w _ Hu _. destruct (Hu eq_refl) as [page ->]. by eexists _, _, _.
  - intros k cmd a u d now w _ Hu _. destruct (Hu eq_refl) as [page ->]. by eexists _, _, _.
Qed.

End Laws.

(** * Flushing *)

Section Flush.
Context {W : Type} (fn : access_fn W) (wr : bool) (usz K : Z) (Inv : W -> Prop) (step : W -> W -> Prop).

Lemma fits_flush c now w :
  cache_fits K wr fn usz c -> serves fn wr usz K (bsize c) Inv step -> Inv w ->
  exists c' lat w', cache_flush c now w = Ok (c', lat, w') /\ cache_fits K wr fn usz c' /\ bsize c' = bsize c /\ Inv w'.
Proof.
  intros (kb & ks & Hc & HkK & Hres & Hba & Hfn & Hus) Hs Hw.
  destruct (flush_correct (allows wr K (bsize c)) Inv kb ks c now w Hc) as (c' & lat & w' & E & Hc' & Hp & Hres' & Hw' & _); try done.
  - intros cmd a u d now' w1 Ha Hu Hw1. rewrite Hfn. rewrite Hus in Hu.
    destruct (Hs cmd a u d now' w1 Ha Hu Hw1) as (l & d' & w2 & ? & ? & ? & _). by exists l, d', w2.
  - injection Hp as En Eb Eba Eu Ea Ep El Eg Ef. exists c', lat, w'. split; [done|].
    split; [exists kb, ks; rewrite Eb, Eba, Ef, Eu; done|done].
Qed.

End Flush.

(** A property of the level below that every step keeps. *)
Lemma serves_keep {W : Type} (fn : access_fn W) wr usz K bsz (Inv Q : W -> Prop) (step : W -> W -> Prop) :
  serves fn wr usz K bsz Inv step -> (forall w w', step w w' -> Q w -> Q w') ->
  serves fn wr usz K bsz (fun w => Inv w /\ Q w) step.
Proof.
  intros Hs Hq cmd a u d now w Ha Hu [Hw Hqw]. destruct (Hs cmd a u d now w Ha Hu Hw) as (l & d' & w' & E & Hl & Hw' & Hst).
  exists l, d', w'. eauto 10.
Qed.

Section FlushAll.
Context {R : RandomSource} (fns : handlers) (K : Z) {laws : HandlerLaws fns K}.

(** The flushes of a system call keep the hierarchy well formed. *)
Lemma flush_all_ok h : hier_ok fns K h ->
  exists h', (h ← flush_dtlb h; h ← flush_dl1 h; flush_dl2 h) = Ok h' /\ hier_ok fns K h'.
Proof.
  intros Hok. assert (exists h1, flush_dtlb h = Ok h1 /\ hier_ok fns K h1) as (h1 & -> & Hok1).
  { unfold flush_dtlb. destruct (dtlb h) as [c|] eqn:Hc; [|by exists h]. pose proof (ho_dtlb _ _ _ Hok c Hc) as Hf.
    destruct (cache_fits_bsize K _ _ _ _ (proj1 (K_range fns K)) Hf) as (k & Hk & Hb).
    destruct (fits_flush (dtlb_fn fns) true 4 K (fun _ => True) (fun _ _ => True) c 0 (dtlb_pages h) Hf)
      as (c' & l & pg & -> & Hf' & _); [by rewrite Hb; apply hl_dtlb|done|].
    eexists. split; [done|]. destruct Hok as [Ol Od Oi Oit Odt]. split; simpl; try done. by intros ? [= <-]. }
  cbn [mbind outcome_bind]. assert (exists h2, flush_dl1 h1 = Ok h2 /\ hier_ok fns K h2) as (h2 & -> & Hok2).
  { unfold flush_dl1. destruct (cache_dl1 h1) as [c|] eqn:Hc; [|by exists h1]. pose proof (ho_dl1 _ _ _ Hok1 c Hc) as Hf.
    destruct (cache_fits_bsize K _ _ _ _ (proj1 (K_range fns K)) Hf) as (k & Hk & Hb).
    destruct Hok1 as [Ol Od Oi Oit Odt]. rewrite Hc in Ol.
    set (Q := fun w => cache_il1 h1 = IL1_dl2 -> is_Some (cache_dl2 w)).
    destruct (fits_flush (dl1_fn fns) true 0 K (fun w => level2_ok fns K (bsize c) (size_or (il1_own (cache_il1 h1))) w /\ Q w)
      (fun w w' => l2_view w' = dl2_bump 1 (l2_view w)) c 0 (lower h1) Hf)
      as (c' & l & w' & -> & Hf' & Hb' & Hl' & HQ).
    - rewrite Hb. apply serves_keep; [by apply hl_dl1|]. intros w w' Hv Hq Hi. destruct (Hq Hi) as [c2 Hc2].
      unfold l2_view, dl2_bump in Hv. simpl in Hv. rewrite Hc2 in Hv. by destruct (cache_dl2 w').
    - split; [done|]. intros Hi. by rewrite Hi in Oi.
    - eexists. split; [done|]. split; simpl; try done; [by rewrite Hb'|by intros ? [= <-]|].
      destruct (cache_il1 h1); try done. by apply HQ. }
  cbn [mbind outcome_bind]. unfold flush_dl2. destruct (cache_dl2 (lower h2)) as [c|] eqn:Hc; [|by exists h2].
  destruct Hok2 as [[Ld Li] Od Oi Oit Odt]. destruct (Ld c Hc) as [Hf Hbd].
  destruct (cache_fits_bsize K _ _ _ _ (proj1 (K_range fns K)) Hf) as (k & Hk & Hb).
  destruct (fits_flush (dl2_fn fns) true 0 K (fun _ => True) (fun _ _ => True) c 0 tt Hf)
    as (c' & l & [] & -> & Hf' & Hb' & _); [by rewrite Hb; apply hl_dl2|done|].
  eexists. split; [done|]. split; simpl; try done; [split; simpl|by destruct (cache_il1 h2)].
  - intros ? [= <-]. by rewrite Hb'.
  - destruct (cache_il2 (lower h2)); try done. destruct Li as (c2 & Hc2 & Hb2). exists c'. split; [done|]. congruence.
Qed.
End FlushAll.

(** * sim-safe and sim-cache *)

(** Where the program may be, for caches of blocks up to [2^K] bytes: away from
    the ends of the address space, its text at or above the base that compressed
    instruction addresses are relative to. *)
Record reachable `{E : SimEnv} (compress : bool) (K : Z) : Prop := {
  re_layout : text_layout;
  re_text : 2 ^ K <= ld_text_base env_ld;
  re_data : 2 ^ K <= ld_data_base env_ld;
  re_stack : ld_stack_base env_ld <= 2 ^ 32 - 2 ^ K;
  re_compress : compress = true -> SS_TEXT_BASE <= ld_text_base env_ld /\ 2 ^ K <= SS_TEXT_BASE;
}.

(** The accesses a system call makes are such that the caches serve them. *)
Definition syscalls_fine {SR : SyscallRefs} (K : Z) : Prop :=
  forall inst r m t, Forall (fun q : mem_cmd * Z * Z => fine K q.1.2 q.2 8) (syscall_refs inst r m t).

Section SafeCache.
Context {E : SimEnv} {L : SyscallLaws} {R : RandomSource} {SR : SyscallRefs}.
Variables (flush compress : bool) (K : Z).
Hypothesis HK : 0 <= K <= 30.
Hypothesis Hreach : reachable compress K.
Hypothesis Hsys : flush = false -> syscalls_fine K.
#[local] Instance the_laws : HandlerLaws cache_handlers K := cache_laws K HK.
#[local] Instance the_machine : Machine cache_sim := cache_machine flush.

(** The same machine state; the caches are well formed, and if they are not
    flushed they have looked up [n] instructions. *)
Record safe_cache (n : Z) (s : safe_state) (k : cache_sim) : Prop := {
  sc_regs : s_regs s = k_regs k;
  sc_next : s_next_PC s = k_next_PC k;
  sc_mem : mem_like (s_mem s) (k_mem k);
  sc_ok : regs_ok (s_regs s);
  sc_pages : pages_ok (s_mem s);
  sc_refs : s_num_refs s = k_num_refs k;
  sc_insn : s_num_insn s = k_num_insn k;
  sc_host : s_host s = k_host k;
  sc_hier : hier_ok cache_handlers K (k_hier k);
  sc_count : flush = false -> exists rs, conserved rs (k_hier k) /\ number is_inst rs = n /\ number is_itlb rs = n;
}.

(** References to data do not count instructions. *)
Definition data_served (h h' : mem_hier) : Prop :=
  hier_ok cache_handlers K h' /\
  forall rs, conserved rs h -> exists rs', conserved rs' h' /\ number is_inst rs' = number is_inst rs /\ number is_itlb rs' = number is_itlb rs.

Lemma ref_data_ok cmd a n h : hier_ok cache_handlers K h -> fine K a n 8 ->
  exists h', ref_data cmd a n h = Ok h' /\ data_served h h'.
Proof.
  intros Hok Hf. unfold ref_data.
  destruct (dtlb_ref_ok cache_handlers K cmd a n 0 h Hok Hf) as (l1 & h1 & -> & Hp1 & Hok1 & Hc1). cbn [mbind outcome_bind].
  destruct (data_ref_ok cache_handlers K cmd a n 0 h1 Hok1 Hf) as (l2 & h2 & -> & Hp2 & Hok2 & Hc2). cbn [mbind outcome_bind].
  exists h2. split; [done|]. split; [done|]. intros rs Hrs. eexists. split; [by apply Hc2, Hc1|].
  rewrite !number_snoc. simpl. lia.
Qed.

Lemma dcache_refs_ok qs : forall h, hier_ok cache_handlers K h -> Forall (fun q : mem_cmd * Z * Z => fine K q.1.2 q.2 8) qs ->
  exists h', dcache_refs qs h = Ok h' /\ data_served h h'.
Proof.
  induction qs as [|[[cmd a] n] qs IH]; intros h Hok Hf.
  - exists h. split; [done|]. split; [done|]. intros rs Hrs. by exists rs.
  - apply Forall_cons in Hf as [Hq Hf]. destruct (ref_data_ok cmd a n h Hok Hq) as (h1 & E1 & Hok1 & Hc1).
    destruct (IH h1 Hok1 Hf) as (h2 & E2 & Hok2 & Hc2). exists h2. cbn [dcache_refs]. rewrite E1. split; [exact E2|].
    split; [done|]. intros rs Hrs. destruct (Hc1 rs Hrs) as (rs1 & Hrs1 & Hi1 & Ht1).
    destruct (Hc2 rs1 Hrs1) as (rs2 & Hrs2 & Hi2 & Ht2). exists rs2. split; [done|]. lia.
Qed.

Lemma data_served_count n h h' :
  (flush = false -> exists rs, conserved rs h /\ number is_inst rs = n /\ number is_itlb rs = n) -> data_served h h' ->
  flush = false -> exists rs, conserved rs h' /\ number is_inst rs = n /\ number is_itlb rs = n.
Proof.
  intros Hc [_ Hd] Hfl. destruct (Hc Hfl) as (rs & Hrs & Hi & Ht). destruct (Hd rs Hrs) as (rs' & ? & ? & ?).
  exists rs'. split; [done|]. lia.
Qed.

(** A reference sim-safe accepts is one the caches serve. *)
Lemma valid_fine cmd t a : bad_align a (Z.of_nat (temp_size t)) = false -> mem_perm env_ld cmd a = true ->
  fine K a (Z.of_nat (temp_size t)) 8.
Proof.
  intros Hal Hp. destruct Hreach as [[Hb1 Hb2 Hb3] Ht Hd Hs _].
  assert (exists k, 0 <= k <= 2 /\ Z.of_nat (temp_size t) = 2 ^ k) as (k & Hk & En)
    by (destruct t; [exists 2|exists 1|exists 1|exists 0|exists 0]; by split).
  rewrite En in *. unfold bad_align in Hal. apply orb_false_iff in Hal as [_ Hal]. apply negb_false_iff, Z.eqb_eq in Hal.
  rewrite land_mask in Hal by lia. split; [exists k; by split; [lia|]|done| |].
  - apply (Z.pow_le_mono_r 2 k 3); lia.
  - unfold mem_perm in Hp. rewrite u32_small in Hp by lia.
    assert (2 ^ K <= 2 ^ 30) by (apply Z.pow_le_mono_r; lia).
    apply orb_true_iff in Hp as [Hp|Hp]; rewrite ?andb_true_iff in Hp; blia.
Qed.

Ltac sc_set := split; cbn; [congruence|done|done| |done..].

#[local] Instance safe_cache_sim n : MachineSim True (safe_cache n).
Proof.
  split.
  - intros s q []. cbn. congruence.
  - intros v s q []. by split.
  - done.
  - intros r s q []. cbn. unfold safe_GPR, cache_GPR. rewrite sc_regs0. apply osim_refl.
  - intros r s q HR. by apply osim_ok.
  - intros r v s q [Hr Hn Hm Hi Hp Hf Hin Ht0 Hh Hc]. cbn. unfold safe_SET_GPR, cache_SET_GPR. rewrite <- Hr. apply osim_self.
    intros s' H. apply bind_ok in H as (RR & HR & [= <-]). rewrite HR. eexists. split; [done|]. sc_set. by eapply regs_ok_R.
  - intros r s q []. cbn. unfold safe_FPR_L, cache_FPR_L. rewrite sc_regs0. apply osim_refl.
  - intros r s q HR. by apply osim_ok.
  - intros r v s q [Hr Hn Hm Hi Hp Hf Hin Ht0 Hh Hc]. cbn. unfold safe_SET_FPR_L, cache_SET_FPR_L. rewrite <- Hr. apply osim_self.
    intros s' H. apply bind_ok in H as (RR & HR & [= <-]). rewrite HR. eexists. split; [done|]. sc_set. by eapply regs_ok_F.
  - intros s q []. cbn. congruence.
  - intros v s q [Hr Hn Hm [] Hp Hf Hin Hh Hc]. sc_set. by split.
  - intros s q []. cbn. congruence.
  - intros v s q [Hr Hn Hm [] Hp Hf Hin Hh Hc]. sc_set. by split.
  - intros s q []. cbn. congruence.
  - intros v s q [Hr Hn Hm [] Hp Hf Hin Hh Hc]. sc_set. by split.
  - intros t a s q [Hr Hn Hm Hi Hp Hf Hin Ht0 Hh Hc]. apply osim_self.
    intros [v s'] H. apply safe_READ_ok in H as (Hal & Hpe & m & HR & ->).
    destruct (ref_data_ok Read a _ _ Hh (valid_fine _ _ _ Hal Hpe)) as (h' & Eh & Hds).
    assert (Hm1 : mem_like (track_stack_min a (s_mem s)) (track_stack_min a (k_mem q)))
      by (rewrite <- (mem_like_track a (s_mem s)), Hm; apply mem_like_track).
    destruct (MEM_READ_like _ _ _ _ _ _ _ HR Hm1) as [Hm2 Hs2]. cbn. unfold cache_READ. rewrite Eh. cbn [mbind outcome_bind].
    rewrite (mem_valid_declares _ _ _ _ _ Hal Hpe). cbn [mbind outcome_bind]. rewrite Hm2. eexists. split; [done|]. split; [done|]. split; cbn; try done.
    + rewrite (MEM_READ_table _ _ _ _ _ _ HR). by apply pages_ok_tickle, pages_ok_track.
    + apply Hds.
    + by eapply data_served_count.
  - intros t v a s q [Hr Hn Hm Hi Hp Hf Hin Ht0 Hh Hc]. apply osim_self.
    intros s' H. apply safe_WRITE_ok in H as (Hal & Hpe & m & HR & ->).
    destruct (ref_data_ok Write a _ _ Hh (valid_fine _ _ _ Hal Hpe)) as (h' & Eh & Hds).
    assert (Hm1 : mem_like (track_stack_min a (s_mem s)) (track_stack_min a (k_mem q)))
      by (rewrite <- (mem_like_track a (s_mem s)), Hm; apply mem_like_track).
    pose proof (pages_ok_write _ _ _ _ _ _ HR (pages_ok_track a _ Hp)) as Hp'.
    destruct (MEM_WRITE_like _ _ _ _ _ _ _ HR Hm1) as (m2 & Hm2 & Hs2). cbn. unfold cache_WRITE. rewrite Eh. cbn [mbind outcome_bind].
    rewrite (mem_valid_declares _ _ _ _ _ Hal Hpe). cbn [mbind outcome_bind]. rewrite Hm2. eexists. split; [done|]. split; cbn; try done; [apply Hds|by eapply data_served_count].
  - intros r s q x []. cbn. unfold safe_GPR. apply z_get_int, sc_ok0.
  - done.
  - done.
  - intros a b _. apply osim_refl.
  - intros a b _. apply osim_refl.
  - by left.
  - done.
Qed.

Lemma safe_cache_syscall n inst s q :
  safe_cache n s q -> osim True (safe_cache n) (do_syscall inst s) (do_syscall inst q).
Proof.
  intros [Hr Hn Hm Hi Hp Hf Hin Ht0 Hh Hc]. cbn. unfold safe_SYSCALL, cache_SYSCALL. rewrite <- Hr, <- Ht0. apply osim_self.
  intros s' H. apply bind_ok in H as ([[r m] t] & Hs & H). apply Ok_inj in H as <-.
  destruct (syscall_like _ _ _ _ _ _ _ _ Hs Hm) as (m2 & Es & Hm2). destruct (syscall_ok _ _ _ _ _ _ _ Hs Hi Hp) as [Hi' Hp'].
  assert (flush = true \/ flush = false) as [Hfl|Hfl] by (clear; destruct flush; auto); rewrite Hfl.
  - destruct (flush_all_ok cache_handlers K (k_hier q) Hh) as (h' & Eh & Hh'). rewrite Eh. cbn [mbind outcome_bind].
    rewrite Es. eexists. split; [done|]. split; cbn; try done. intros ?. congruence.
  - destruct (dcache_refs_ok (syscall_refs inst (s_regs s) (k_mem q) (s_host s)) (k_hier q) Hh (Hsys Hfl _ _ _ _)) as (h' & Eh & Hds).
    rewrite Eh. cbn [mbind outcome_bind]. rewrite Es. eexists. split; [done|]. split; cbn; try done; [apply Hds|].
    by eapply data_served_count.
Qed.

(** ** The fetch *)

Lemma fetch_fine pc : in_text pc = true -> fine K (IACOMPRESS compress pc) (ISCOMPRESS compress SS_INST_SIZE) 8.
Proof.
  intros Ht. destruct Hreach as [Hl Hk Hd Hs Hc]. destruct (in_text_range _ Hl Ht) as [Hr Hm].
  assert (2 ^ K <= 2 ^ 30) by (apply Z.pow_le_mono_r; lia).
  assert (ld_text_base env_ld <= pc) by (unfold in_text in Ht; rewrite !andb_true_iff in Ht; blia).
  unfold IACOMPRESS, ISCOMPRESS. change SS_INST_SIZE with 8.
  assert (compress = true \/ compress = false) as [Hb|Hb] by (clear; destruct compress; auto); rewrite Hb.
  - destruct (Hc Hb) as [Hc1 Hc2]. unfold SS_TEXT_BASE in *. change (Z.shiftr 8 1) with 4.
    rewrite (u32_small (pc - _)) by lia. rewrite shiftr_div by lia. change (2 ^ 1) with 2.
    assert (0 <= (pc - 4194304) / 2 <= pc - 4194304) by (Z.to_euclidean_division_equations; lia).
    rewrite u32_small by lia. split; [by exists 2| |lia|lia]. Z.to_euclidean_division_equations. lia.
  - split; [by exists 3|done|lia|lia].
Qed.

Lemma cache_fetch_ok n s k inst :
  safe_cache n s k -> in_text (regs_PC (s_regs s)) = true -> fetch_inst (regs_PC (s_regs s)) (s_mem s) = Ok inst ->
  exists k', cache_fetch compress k = Ok (inst, k') /\ safe_cache (n + 1) s k'.
Proof.
  intros [Hr Hn Hm Hi Hp Hf Hin Ht0 Hh Hc] Ht Hfetch. destruct (re_layout _ _ Hreach) as [Hb1 Hb2 Hb3] eqn:El; clear El.
  pose proof (re_layout _ _ Hreach) as Hl. pose proof (fetch_fine _ Ht) as Hfine. unfold cache_fetch. rewrite <- Hr.
  destruct (itlb_ref_ok cache_handlers K _ _ 0 (k_hier k) Hh Hfine) as (l1 & h1 & -> & _ & Hh1 & Hc1). cbn [mbind outcome_bind].
  destruct (inst_ref_ok cache_handlers K _ _ 0 h1 Hh1 Hfine) as (l2 & h2 & -> & _ & Hh2 & Hc2). cbn [mbind outcome_bind].
  destruct (mem_access_in_text _ (k_mem k) Hl Ht (pages_bytes_ok _ _ Hp Hm)) as [m' Em].
  change SS_INST_SIZE with 8 in *. rewrite Em. cbn [mbind outcome_bind].
  rewrite split_inst, (mem_like_text _ _ Hm _ Ht), <- (fetch_inst_text _ _ _ Hl Ht Hfetch).
  eexists. split; [done|]. split; cbn; try done.
  - rewrite Hm. by eapply mem_access_like.
  - intros Hfl. destruct (Hc Hfl) as (rs & Hrs & H1 & H2). eexists. split; [by apply Hc2, Hc1|].
    rewrite !number_snoc. simpl. lia.
Qed.

(** ** The main loop *)

Lemma safe_cache_step {fp : HostFP} n s k s' :
  safe_cache n s k -> in_text (regs_PC (s_regs s)) = true -> sim_safe_step s = Ok s' ->
  exists k', sim_cache_step flush compress k = Ok k' /\ safe_cache (n + 1) s' k'.
Proof.
  intros HR Ht H. unfold sim_safe_step in H. apply bind_ok in H as (s1 & H1 & H).
  pose proof (sim_set_gpr 0 0 s k HR : osim True (safe_cache n) (safe_SET_GPR 0 0 s) (cache_SET_GPR 0 0 k)) as Hset.
  destruct (osim_inv _ _ _ _ _ Hset H1) as (k1 & Hk1 & HR1). unfold sim_cache_step. rewrite Hk1. cbn [mbind outcome_bind] in *.
  assert (Hpc : regs_PC (s_regs s1) = regs_PC (s_regs s)).
  { apply bind_ok in H1 as (? & _ & H1). by apply Ok_inj in H1 as <-. }
  apply bind_ok in H as (inst & Hi & H). set (s1a := s1 <| s_num_insn ::= Z.add 1 |>) in *.
  set (k1a := k1 <| k_num_insn ::= Z.add 1 |>).
  assert (HR1a : safe_cache n s1a k1a) by (destruct HR1; split; cbn; congruence || done).
  destruct (cache_fetch_ok n s1a k1a inst HR1a ltac:(by cbn; rewrite Hpc) Hi) as (k2 & -> & HR2). cbn [mbind outcome_bind].
  destruct (opcode_of_val (SS_OPCODE inst)) as [op|] eqn:Hop; cbn [mbind outcome_bind] in *; [|done].
  apply bind_ok in H as (s2 & Hs2 & H). set (s1' := set_field s_is_write _ _) in Hs2.
  set (k2' := set_field k_is_write _ _).
  assert (HR2' : safe_cache (n + 1) s1' k2') by (destruct HR2; by split).
  destruct (decide (op = OP_NA)) as [->|Hna]; [done|].
  pose proof (execute_sim env_cfg op inst s1' k2' (fun _ => eq_refl) (fun _ => safe_cache_syscall _ inst _ _ HR2') Hna HR2') as Hsim.
  destruct (osim_inv True (safe_cache (n + 1)) _ _ _ Hsim Hs2) as (k3 & Hk3 & HR3). unfold the_machine in Hk3.
  rewrite Hk3. cbn [mbind outcome_bind]. eexists. split; [done|]. apply Ok_inj in H as <-.
  destruct HR3 as [Hr Hn Hm [] Hp Hf Hin Hh Hc].
  destruct (truth _); split; cbn; rewrite ?Hr, ?Hn, ?Hf; try done; by rewrite <- Hr.
Qed.

Lemma safe_cache_run {fp : HostFP} n : forall m s k s',
  safe_cache m s k -> (forall j s1, (j < n)%nat -> sim_safe_run j s = Ok s1 -> in_text (regs_PC (s_regs s1)) = true) ->
  sim_safe_run n s = Ok s' ->
  exists k', sim_cache_run flush compress n k = Ok k' /\ safe_cache (m + Z.of_nat n) s' k'.
Proof.
  induction n as [|n IH]; intros m s k s' HR Ht H; cbn [sim_safe_run sim_cache_run] in *.
  - injection H as <-. exists k. by rewrite Z.add_0_r.
  - apply bind_ok in H as (s1 & H1 & H).
    destruct (safe_cache_step m s k s1 HR (Ht 0%nat s ltac:(lia) eq_refl) H1) as (k1 & -> & HR1). cbn [mbind outcome_bind].
    destruct (IH (m + 1) s1 k1 s' HR1) as (k' & Ek & HR'); [|done|].
    + intros j s2 Hj Hs2. apply (Ht (S j)); [lia|]. cbn [sim_safe_run]. by rewrite H1.
    + exists k'. split; [done|]. replace (m + Z.of_nat (S n)) with (m + 1 + Z.of_nat n) by lia. done.
Qed.

End SafeCache.

(** * Properties *)

(** C19: The cache simulator executes the program as sim-safe does, whatever caches
    its options create and share, compressed instruction addresses and flushes at
    system calls included: after [n] instructions that sim-safe runs without a fault
    in the text segment, it has the same registers, next PC, memory contents and
    counters, and has made the same system calls.  Without flushes the requests are conserved between the caches, and an
    instruction cache and TLB have looked up exactly the [n] instructions. *)
Theorem sim_cache_agrees {E : SimEnv} {L : SyscallLaws} {R : RandomSource} {SR : SyscallRefs} {P : CacheOptParser} {fp : HostFP}
    (flush compress : bool) (K : Z) (o : hier_opts) (n : nat) (s0 s : safe_state) (k0 : cache_sim) :
  0 <= K <= 30 -> reachable compress K -> (flush = false -> syscalls_fine K) ->
  sim_check_options o = Ok (k_hier k0) -> geometry_fits K (k_hier k0) ->
  k_regs k0 = s_regs s0 -> k_next_PC k0 = s_next_PC s0 -> k_mem k0 = s_mem s0 ->
  k_num_insn k0 = s_num_insn s0 -> k_num_refs k0 = s_num_refs s0 -> k_host k0 = s_host s0 -> regs_ok (s_regs s0) -> pages_ok (s_mem s0) ->
  (forall j s1, (j < n)%nat -> sim_safe_run j s0 = Ok s1 -> in_text (regs_PC (s_regs s1)) = true) ->
  sim_safe_run n s0 = Ok s ->
  exists k, sim_cache_run flush compress n k0 = Ok k /\ k_regs k = s_regs s /\ k_next_PC k = s_next_PC s /\
    mem_like (s_mem s) (k_mem k) /\ k_num_insn k = s_num_insn s /\ k_num_refs k = s_num_refs s /\ k_host k = s_host s /\
    (flush = false -> exists rs, conserved rs (k_hier k) /\ number is_inst rs = Z.of_nat n /\ number is_itlb rs = Z.of_nat n).
Proof.
  intros HK Hre Hsys Ho Hg Hr Hn Hm Hi Hf Hh0 Hok Hp Ht H. pose proof (cache_laws K HK) as laws.
  destruct (sim_check_caches_ok cache_handlers K _ _ Ho Hg) as [Hh Hcv].
  destruct (safe_cache_run flush compress K HK Hre Hsys n 0 s0 k0 s) as (k & Ek & [Hr' Hn' Hm' _ _ Hf' Hi' Hh' _ Hc']); [|done..|].
  - split; try done; [by rewrite Hm|]. intros _. by exists [].
  - exists k. split; [done|]. do 2 (split; [done|]). do 4 (split; [done|]). exact Hc'.
Qed.

(** The program of PipeProps.v in the hierarchy of HierProps.v, with compressed
    instruction addresses: the loop that counts down, 32 instructions of it. *)
Definition example_created : outcome mem_hier :=
  sim_check_options (R := Example.random) (P := Example.parser) Example.opts.

Definition example_hier : mem_hier := match example_created with Ok h => h | _ => Example.start end.

Lemma example_created_hier : example_created = Ok example_hier.
Proof.
  assert (H : match example_created with Ok _ => true | _ => false end = true) by (vm_compute; reflexivity).
  unfold example_hier. by destruct example_created.
Qed.

Definition no_refs : SyscallRefs := fun _ _ _ _ => [].

Definition example_cache_sim : cache_sim :=
  mk_cache_sim (s_regs example_loaded) example_text (s_next_PC (sim_safe_main example_loaded)) 0 false 0 0 example_hier [].

Definition example_cache_run : outcome cache_sim :=
  sim_cache_run (E := example_env) (R := Example.random) (SR := no_refs) false true 32 example_cache_sim.

#[local] Strategy -100 [example_cache_run].

Lemma example_reachable : reachable (E := example_env) true 10.
Proof.
  split; [exact example_text_layout|by vm_compute|by vm_compute|by vm_compute|]. intros _. by vm_compute.
Qed.

Lemma sim_cache_agrees_witness :
  match sim_safe_run 32 (sim_safe_main example_loaded), example_cache_run with
  | Ok s, Ok k => k_regs k = s_regs s /\ mem_like (s_mem s) (k_mem k) /\
      exists rs, conserved rs (k_hier k) /\ number is_inst rs = 32
  | _, _ => False
  end.
Proof.
  assert (Hs : match sim_safe_run 32 (sim_safe_main example_loaded) with Ok _ => true | _ => false end = true)
    by (vm_compute; reflexivity).
  destruct (sim_safe_run 32 (sim_safe_main example_loaded)) as [s| | | | | |] eqn:H; [|discriminate Hs..].
  destruct (sim_cache_agrees (E := example_env) (R := Example.random) (SR := no_refs) (P := Example.parser)
    false true 10 Example.opts 32 (sim_safe_main example_loaded) s example_cache_sim)
    as (k & Ek & Hr & _ & Hm & _ & _ & _ & Hc).
  - lia.
  - exact example_reachable.
  - intros _ inst r m t. constructor.
  - exact example_created_hier.
  - apply geometry_fitsb_spec. vm_compute. reflexivity.
  - reflexivity.
  - reflexivity.
  - reflexivity.
  - reflexivity.
  - reflexivity.
  - reflexivity.
  - exact example_regs_ok.
  - exact example_text_pages.
  - intros j s1 Hj Hs1. destruct (pr_run _ _ example_program_runs j ltac:(lia)) as (s2 & Hs2 & Ht & _).
    rewrite Hs1 in Hs2. apply Ok_inj in Hs2 as ->. exact Ht.
  - exact H.
  - unfold example_cache_run. rewrite Ek. split; [exact Hr|]. split; [exact Hm|].
    destruct (Hc eq_refl) as (rs & Hrs & Hn & _). exists rs. split; [exact Hrs|exact Hn].
Defined.
