(* ===== verification/Eval.v ===== *)
(** eval.c and eval.h: the expression evaluator of the statistics formulas and
    the debugger.

    A string is the list of its character codes before the NUL.  The plain char
    is signed, so a character code of 128 or more is a negative index of
    [tok_map].  The evaluator is recursive; [fuel] bounds the depth of the
    recursion.  strtod() and the floating point operations are those of the
    host, as is the width of a long. *)

From S2P Require Import Prelude Misc Exec.

(** [enum eval_token_t], [enum eval_err_t], [enum eval_type_t]. *)
Inductive eval_token_t :=
  tok_ident | tok_const | tok_plus | tok_minus | tok_mult | tok_div | tok_oparen | tok_cparen
| tok_eof | tok_whitespace | tok_invalid.

Inductive eval_err_t :=
  ERR_NOERR | ERR_UPAREN | ERR_NOTERM | ERR_DIV0 | ERR_BADCONST | ERR_BADEXPR | ERR_UNDEFVAR | ERR_EXTRA.

Inductive eval_type_t := et_int | et_uint | et_float | et_double | et_symbol.

#[global] Instance eval_token_eq_dec : EqDecision eval_token_t.
Proof. solve_decision. Defined.
#[global] Instance eval_err_eq_dec : EqDecision eval_err_t.
Proof. solve_decision. Defined.
#[global] Instance eval_type_eq_dec : EqDecision eval_type_t.
Proof. solve_decision. Defined.

(** [struct eval_value_t], a tagged union; floats and doubles are bit patterns. *)
Inductive eval_value_t :=
| as_int (z : Z)
| as_uint (z : Z)
| as_float (z : Z)
| as_double (z : Z)
| as_symbol (s : list Z).

Definition type_of (v : eval_value_t) : eval_type_t :=
  match v with
  | as_int _ => et_int | as_uint _ => et_uint | as_float _ => et_float | as_double _ => et_double | as_symbol _ => et_symbol
  end.

(** [struct eval_state_t] with the global [eval_error]; [tok_buf] without its NUL. *)
Record eval_state_t := mk_eval {
  es_p : list Z;
  lastp : list Z;
  tok_buf : list Z;
  peek_tok : eval_token_t;
  eval_error : eval_err_t;
}.
#[global] Instance eta_eval_state : Eta eval_state_t := mk_eta (fun es =>
  mk_eval (es_p es) (lastp es) (tok_buf es) (peek_tok es) (eval_error es)).

(** * Tokens *)

(** [tok_map] as [init_tok_map] builds it. *)
Definition tok_map (c : Z) : outcome eval_token_t :=
  if (c <? 0) || (128 <=? c) then Undef
  else if ((97 <=? c) && (c <=? 122)) || ((65 <=? c) && (c <=? 90)) || (c =? 95) || (c =? 36) then Ok tok_ident
  else if ((48 <=? c) && (c <=? 57)) || (c =? 46) then Ok tok_const
  else if c =? 43 then Ok tok_plus
  else if c =? 45 then Ok tok_minus
  else if c =? 42 then Ok tok_mult
  else if c =? 47 then Ok tok_div
  else if c =? 40 then Ok tok_oparen
  else if c =? 41 then Ok tok_cparen
  else if (c =? 32) || (c =? 9) then Ok tok_whitespace
  else Ok tok_invalid.

(** The loops of [get_next_token]. *)
Fixpoint skip_whitespace (p : list Z) : outcome (list Z) :=
  match p with
  | [] => Ok []
  | c :: p' => t ← tok_map c; if bool_decide (t = tok_whitespace) then skip_whitespace p' else Ok p
  end.

Fixpoint scan_ident (p buf : list Z) : outcome (list Z * list Z) :=
  match p with
  | [] => Ok (buf, [])
  | c :: p' =>
      t ← tok_map c;
      if bool_decide (t = tok_ident) || bool_decide (t = tok_const) then scan_ident p' (buf ++ [c]) else Ok (buf, p)
  end.

(** Whether [c] continues a numeric literal. *)
Definition const_char (t : eval_token_t) (c last_char : Z) (allow_hex : bool) : bool :=
  bool_decide (t = tok_const)
  || ((c =? 45) && (last_char =? 101)) || ((c =? 43) && (last_char =? 101))
  || (tolower c =? 101) || (tolower c =? 120)
  || (((tolower c =? 97) || (tolower c =? 98) || (tolower c =? 99) || (tolower c =? 100)
       || (tolower c =? 101) || (tolower c =? 102)) && allow_hex).

Fixpoint scan_const (p buf : list Z) (last_char : Z) (allow_hex : bool) : outcome (list Z * list Z) :=
  match p with
  | [] => Ok (buf, [])
  | c :: p' =>
      t ← tok_map c;
      if const_char t c last_char allow_hex
      then scan_const p' (buf ++ [c]) (tolower c) (allow_hex || (c =? 120) || (c =? 88))
      else Ok (buf, p)
  end.

(** The token at [p], its text, and what follows; the text must fit in
    [tok_buf] with its NUL. *)
Definition scan_token (p : list Z) : outcome (eval_token_t * list Z * list Z) :=
  p ← skip_whitespace p;
  match p with
  | [] => Ok (tok_eof, [], [])
  | c :: p =>
      tok ← tok_map c;
      '(buf, p) ← match tok with
                  | tok_ident => scan_ident p [c]
                  | tok_const => scan_const p [c] 0 false
                  | _ => Ok ([c], p)
                  end;
      if (length buf <? 512)%nat then
        Ok (match tok with tok_eof | tok_whitespace => tok_invalid | _ => tok end, buf, p)
      else Undef
  end.

Definition get_next_token (es : eval_state_t) : outcome (eval_token_t * eval_state_t) :=
  if negb (bool_decide (peek_tok es = tok_invalid)) then Ok (peek_tok es, es <| peek_tok := tok_invalid |>)
  else
    '(tok, buf, p) ← scan_token (es_p es);
    Ok (tok, es <| es_p := p |> <| tok_buf := buf |>).

Definition peek_next_token (es : eval_state_t) : outcome (eval_token_t * eval_state_t) :=
  if bool_decide (peek_tok es = tok_invalid) then
    let es := es <| lastp := es_p es |> in
    '(tok, es) ← get_next_token es;
    Ok (tok, es <| peek_tok := tok |>)
  else Ok (peek_tok es, es).

(** * Values *)

Definition err_value : eval_value_t := as_int 0.

(** [result_type]: the usual arithmetic conversions. *)
Definition result_type (t1 t2 : eval_type_t) : outcome eval_type_t :=
  if bool_decide (t1 = et_symbol) || bool_decide (t2 = et_symbol) then Panic
  else if bool_decide (t1 = et_double) || bool_decide (t2 = et_double) then Ok et_double
  else if bool_decide (t1 = et_float) || bool_decide (t2 = et_float) then Ok et_float
  else if bool_decide (t1 = et_uint) || bool_decide (t2 = et_uint) then Ok et_uint
  else Ok et_int.

(** What else the evaluator uses of the host: the width of a long, strtod() on a
    whole string, and the conversions of unsigned ints and long longs ([_S] is
    float, [_D] double). *)
Class EvalHost := {
  long_bits : Z;
  strtod : list Z -> option Z;
  cvt_S_U : Z -> Z; cvt_D_U : Z -> Z;  (* from unsigned int *)
  cvt_U_S : Z -> Z; cvt_U_D : Z -> Z;  (* to unsigned int *)
  cvt_D_L : Z -> Z;                    (* from long long *)
}.

Section Values.
Context {fp : HostFP} {eh : EvalHost}.

Definition eval_as_double (v : eval_value_t) : outcome Z :=
  match v with
  | as_double d => Ok d
  | as_float f => Ok (cvt_D_S f)
  | as_uint u => Ok (cvt_D_U u)
  | as_int i => Ok (cvt_D_W i)
  | as_symbol _ => Panic
  end.

Definition eval_as_float (v : eval_value_t) : outcome Z :=
  match v with
  | as_double d => Ok (cvt_S_D d)
  | as_float f => Ok f
  | as_uint u => Ok (cvt_S_U u)
  | as_int i => Ok (cvt_S_W i)
  | as_symbol _ => Panic
  end.

Definition eval_as_uint (v : eval_value_t) : outcome Z :=
  match v with
  | as_double d => Ok (cvt_U_D d)
  | as_float f => Ok (cvt_U_S f)
  | as_uint u => Ok u
  | as_int i => Ok (u32 i)
  | as_symbol _ => Panic
  end.

Definition eval_as_int (v : eval_value_t) : outcome Z :=
  match v with
  | as_double d => Ok (cvt_W_D d)
  | as_float f => Ok (cvt_W_S f)
  | as_uint u => Ok (s32 u)
  | as_int i => Ok i
  | as_symbol _ => Panic
  end.

Definition is_symbol (v : eval_value_t) : bool := bool_decide (type_of v = et_symbol).

(** The arithmetic operations have one shape: an operator for each type, and an
    error for symbols, which changes [eval_error]. *)
Definition f_arith (opD opS : Z -> Z -> Z) (opU opI : Z -> Z -> outcome Z) (val1 val2 : eval_value_t) (err : eval_err_t)
    : outcome (eval_value_t * eval_err_t) :=
  if is_symbol val1 || is_symbol val2 then Ok (err_value, ERR_BADEXPR)
  else
    et ← result_type (type_of val1) (type_of val2);
    match et with
    | et_double => a ← eval_as_double val1; b ← eval_as_double val2; Ok (as_double (opD a b), err)
    | et_float => a ← eval_as_float val1; b ← eval_as_float val2; Ok (as_float (opS a b), err)
    | et_uint => a ← eval_as_uint val1; b ← eval_as_uint val2; r ← opU a b; Ok (as_uint r, err)
    | et_int => a ← eval_as_int val1; b ← eval_as_int val2; r ← opI a b; Ok (as_int r, err)
    | et_symbol => Panic
    end.

Definition f_add := f_arith fadd_D fadd_S (fun a b => Ok (u32 (a + b))) (fun a b => Ok (s32 (a + b))).
Definition f_sub := f_arith fsub_D fsub_S (fun a b => Ok (u32 (a - b))) (fun a b => Ok (s32 (a - b))).
Definition f_mult := f_arith fmul_D fmul_S (fun a b => Ok (u32 (a * b))) (fun a b => Ok (s32 (a * b))).
Definition f_div := f_arith fdiv_D fdiv_S (fun a b => if b =? 0 then Undef else Ok (a / b)) c_div.

(** [f_neg]: an int is returned as it is. *)
Definition f_neg (val1 : eval_value_t) (err : eval_err_t) : eval_value_t * eval_err_t :=
  match val1 with
  | as_double d => (as_double (fneg_D d), err)
  | as_float f => (as_float (fneg_S f), err)
  | as_uint u => (as_uint (u32 (- u)), err)
  | as_int i => (as_int i, err)
  | as_symbol _ => (err_value, ERR_BADEXPR)
  end.

Definition f_eq_zero (val1 : eval_value_t) (err : eval_err_t) : bool * eval_err_t :=
  match val1 with
  | as_double d => (feq_D d 0, err)
  | as_float f => (feq_S f 0, err)
  | as_uint u => (u =? 0, err)
  | as_int i => (i =? 0, err)
  | as_symbol _ => (false, ERR_BADEXPR)
  end.

(** * Numeric literals *)

(** The value of a digit in the bases up to 36. *)
Definition digit_val (c : Z) : option Z :=
  if (48 <=? c) && (c <=? 57) then Some (c - 48)
  else if (97 <=? tolower c) && (tolower c <=? 122) then Some (tolower c - 87)
  else None.

Definition is_digit_of (base c : Z) : bool := match digit_val c with Some d => d <? base | None => false end.

(** The longest prefix of digits: its value after [acc], and what follows. *)
Fixpoint read_digits (base acc : Z) (s : list Z) : Z * list Z :=
  match s with
  | [] => (acc, [])
  | c :: s' =>
      match digit_val c with
      | Some d => if d <? base then read_digits base (acc * base + d) s' else (acc, s)
      | None => (acc, s)
      end
  end.

(** strtol() and strtoul() with base 0, on a string that starts with neither
    white space nor a sign: the value converted, before its range is checked,
    and what [endp] points to. *)
Definition strto_base0 (s : list Z) : option (Z * list Z) :=
  match s with
  | 48 :: x :: d :: s' =>
      if (tolower x =? 120) && is_digit_of 16 d then Some (read_digits 16 0 (d :: s')) else Some (read_digits 8 0 s)
  | 48 :: _ => Some (read_digits 8 0 s)
  | c :: _ => if is_digit_of 10 c then Some (read_digits 10 0 s) else None
  | [] => None
  end.

(** The value below [bound] of a string that converts as a whole. *)
Definition strto_below (bound : Z) (s : list Z) : option Z :=
  match strto_base0 s with
  | Some (v, []) => if v <? bound then Some v else None
  | _ => None
  end.

Definition constant (es : eval_state_t) : eval_value_t * eval_state_t :=
  match strto_below (2 ^ (long_bits - 1)) (tok_buf es) with
  | Some v => (as_int (s32 v), es)
  | None =>
      match strto_below (2 ^ long_bits) (tok_buf es) with
      | Some v => (as_uint (u32 v), es)
      | None =>
          match strtod (tok_buf es) with
          | Some d => (as_double d, es)
          | None => (err_value, es <| eval_error := ERR_BADCONST |>)
          end
      end
  end.

(** * The evaluator *)

(** [es->f_eval_ident]: the value of the identifier in [tok_buf], and
    [eval_error] after the call. *)
Variable f_eval_ident : list Z -> eval_err_t -> outcome (eval_value_t * eval_err_t).

Definition erred (es : eval_state_t) : bool := negb (bool_decide (eval_error es = ERR_NOERR)).
Definition set_error (e : eval_err_t) (es : eval_state_t) : eval_state_t := es <| eval_error := e |>.

(** [if (eval_error) return err_value;] before the rest. *)
Definition unless_error (es : eval_state_t) (k : outcome (eval_value_t * eval_state_t)) : outcome (eval_value_t * eval_state_t) :=
  if erred es then Ok (err_value, es) else k.

(** An operation of the values in the state. *)
Definition on_error (f : eval_err_t -> outcome (eval_value_t * eval_err_t)) (es : eval_state_t) : outcome (eval_value_t * eval_state_t) :=
  '(v, e) ← f (eval_error es); Ok (v, set_error e es).

Fixpoint factor (fuel : nat) (es : eval_state_t) : outcome (eval_value_t * eval_state_t) :=
  match fuel with
  | O => NoFuel
  | S fuel =>
      '(tok, es) ← peek_next_token es;
      match tok with
      | tok_oparen =>
          '(_, es) ← get_next_token es;
          '(val, es) ← expr fuel es;
          unless_error es (
            '(tok, es) ← peek_next_token es;
            if negb (bool_decide (tok = tok_cparen)) then Ok (err_value, set_error ERR_UPAREN es)
            else '(_, es) ← get_next_token es; Ok (val, es))
      | tok_minus =>
          '(_, es) ← get_next_token es;
          '(val, es) ← factor fuel es;
          unless_error es (on_error (fun e => Ok (f_neg val e)) es)
      | tok_ident =>
          '(_, es) ← get_next_token es;
          '(val, es) ← on_error (f_eval_ident (tok_buf es)) es;
          unless_error es (Ok (val, es))
      | tok_const =>
          '(_, es) ← get_next_token es;
          let '(val, es) := constant es in
          unless_error es (Ok (val, es))
      | _ => Ok (err_value, set_error ERR_NOTERM es)
      end
  end
with term (fuel : nat) (es : eval_state_t) : outcome (eval_value_t * eval_state_t) :=
  match fuel with
  | O => NoFuel
  | S fuel =>
      '(val, es) ← factor fuel es;
      unless_error es (
        '(tok, es) ← peek_next_token es;
        match tok with
        | tok_mult =>
            '(_, es) ← get_next_token es;
            '(val1, es) ← term fuel es;
            '(val, es) ← on_error (f_mult val val1) es;
            unless_error es (Ok (val, es))
        | tok_div =>
            '(_, es) ← get_next_token es;
            '(val1, es) ← term fuel es;
            unless_error es (
              let '(zero, e) := f_eq_zero val1 (eval_error es) in
              let es := set_error e es in
              if (zero : bool) then Ok (err_value, set_error ERR_DIV0 es)
              else on_error (f_div val val1) es)
        | _ => Ok (val, es)
        end)
  end
with expr (fuel : nat) (es : eval_state_t) : outcome (eval_value_t * eval_state_t) :=
  match fuel with
  | O => NoFuel
  | S fuel =>
      '(val, es) ← term fuel es;
      unless_error es (
        '(tok, es) ← peek_next_token es;
        match tok with
        | tok_plus =>
            '(_, es) ← get_next_token es;
            '(val1, es) ← expr fuel es;
            '(val, es) ← on_error (f_add val val1) es;
            unless_error es (Ok (val, es))
        | tok_minus =>
            '(_, es) ← get_next_token es;
            '(val1, es) ← expr fuel es;
            '(val, es) ← on_error (f_sub val val1) es;
            unless_error es (Ok (val, es))
        | _ => Ok (val, es)
        end)
  end.

(** [eval_new]: the evaluator state calloc() gives, [peek_tok] is the first
    token of the enumeration until eval_expr sets it. *)
Definition eval_new : eval_state_t := mk_eval [] [] [] tok_ident ERR_NOERR.

(** [eval_expr]: the value, the evaluator, and what [*endp] points to. *)
Definition eval_expr (fuel : nat) (es : eval_state_t) (p : list Z) : outcome (eval_value_t * eval_state_t * list Z) :=
  '(val, es) ← expr fuel (es <| eval_error := ERR_NOERR |> <| es_p := p |> <| tok_buf := [] |> <| peek_tok := tok_invalid |>);
  Ok (val, es, if negb (bool_decide (peek_tok es = tok_invalid)) then lastp es else es_p es).

End Values.
