(* ===== verification/EvalSpec.v ===== *)
(** The expressions of eval.c: their grammar as trees, how a tree is written as
    a string, and what it denotes.  The lemmas show what the token scanner does
    on a written tree, and that [factor], [term] and [expr] evaluate it. *)

From S2P Require Import Prelude Misc Exec Eval.

(** * Expressions *)

(** The trees of the grammar the evaluator descends along: an operator takes
    everything to its right that binds as tightly, so [-] and [/] associate to
    the right.  Every token has the blanks before it. *)
Inductive fac :=
| F_const (w s : list Z)
| F_ident (w s : list Z)
| F_neg (w : list Z) (f : fac)
| F_paren (w : list Z) (e : exp) (w' : list Z)
with trm :=
| T_fac (f : fac)
| T_mult (f : fac) (w : list Z) (t : trm)
| T_div (f : fac) (w : list Z) (t : trm)
with exp :=
| E_trm (t : trm)
| E_add (t : trm) (w : list Z) (e : exp)
| E_sub (t : trm) (w : list Z) (e : exp).

Scheme fac_mut := Induction for fac Sort Prop
  with trm_mut := Induction for trm Sort Prop
  with exp_mut := Induction for exp Sort Prop.
Combined Scheme tree_ind from fac_mut, trm_mut, exp_mut.

(** The string of a tree. *)
Fixpoint print_fac (f : fac) : list Z :=
  match f with
  | F_const w s => w ++ s
  | F_ident w s => w ++ s
  | F_neg w f => w ++ 45 :: print_fac f
  | F_paren w e w' => w ++ 40 :: print_exp e ++ w' ++ [41]
  end
with print_trm (t : trm) : list Z :=
  match t with
  | T_fac f => print_fac f
  | T_mult f w t => print_fac f ++ w ++ 42 :: print_trm t
  | T_div f w t => print_fac f ++ w ++ 47 :: print_trm t
  end
with print_exp (e : exp) : list Z :=
  match e with
  | E_trm t => print_trm t
  | E_add t w e => print_trm t ++ w ++ 43 :: print_exp e
  | E_sub t w e => print_trm t ++ w ++ 45 :: print_exp e
  end.

(** ** Lexemes *)

Definition blank (c : Z) : bool := (c =? 32) || (c =? 9).

Definition ident_lexeme (s : list Z) : bool :=
  match s with
  | c :: s' =>
      bool_decide (tok_map c = Ok tok_ident)
      && forallb (fun c => bool_decide (tok_map c = Ok tok_ident) || bool_decide (tok_map c = Ok tok_const)) s'
      && (length s <? 512)%nat
  | [] => false
  end.

(** A numeric literal is scanned as a whole, and the scanner would not take a
    sign after it for one of its exponent. *)
Definition const_lexeme (s : list Z) : bool :=
  match s with
  | c :: s' =>
      bool_decide (tok_map c = Ok tok_const)
      && bool_decide (scan_const s' [c] 0 false = Ok (s, []))
      && negb (match last s with Some c => tolower c =? 101 | None => false end)
      && (length s <? 512)%nat
  | [] => false
  end.

Fixpoint wf_fac (f : fac) : bool :=
  match f with
  | F_const w s => forallb blank w && const_lexeme s
  | F_ident w s => forallb blank w && ident_lexeme s
  | F_neg w f => forallb blank w && wf_fac f
  | F_paren w e w' => forallb blank w && wf_exp e && forallb blank w'
  end
with wf_trm (t : trm) : bool :=
  match t with
  | T_fac f => wf_fac f
  | T_mult f w t | T_div f w t => wf_fac f && forallb blank w && wf_trm t
  end
with wf_exp (e : exp) : bool :=
  match e with
  | E_trm t => wf_trm t
  | E_add t w e | E_sub t w e => wf_trm t && forallb blank w && wf_exp e
  end.

(** What may follow a lexeme. *)
Definition delimited (r : list Z) : bool :=
  match r with
  | [] => true
  | c :: _ =>
      match tok_map c with
      | Ok (tok_plus | tok_minus | tok_mult | tok_div | tok_oparen | tok_cparen | tok_whitespace) => true
      | _ => false
      end
  end.

(** [r] starts with a token of the list. *)
Definition starts_with (toks : list eval_token_t) (r : list Z) : bool :=
  match scan_token r with Ok (tok, _, _) => bool_decide (tok ∈ toks) | _ => false end.

(** What may follow a term, and an expression. *)
Definition after_exp : list eval_token_t := [tok_ident; tok_const; tok_oparen; tok_cparen; tok_eof].
Definition after_trm : list eval_token_t := tok_plus :: tok_minus :: after_exp.

(** * Denotation *)

Section Denotation.
Context {fp : HostFP} {eh : EvalHost}.
Variable f_eval_ident : list Z -> eval_err_t -> outcome (eval_value_t * eval_err_t).

(** An error or a value. *)
Definition result : Type := eval_err_t + eval_value_t.

Definition settle (ve : eval_value_t * eval_err_t) : result :=
  if bool_decide (ve.2 = ERR_NOERR) then inr ve.1 else inl ve.2.

Definition and_then (m : outcome result) (k : eval_value_t -> outcome result) : outcome result :=
  r ← m; match r with inl e => Ok (inl e) | inr v => k v end.

Definition den_const (s : list Z) : result :=
  let '(v, es) := constant (eval_new <| tok_buf := s |>) in settle (v, eval_error es).

(** An operator whose right operand is evaluated whatever the left one is: a
    symbol on the left hides the error on the right. *)
Definition den_op (f : eval_value_t -> eval_value_t -> eval_err_t -> outcome (eval_value_t * eval_err_t))
    (m1 m2 : outcome result) : outcome result :=
  and_then m1 (fun v =>
    r ← m2;
    match r with
    | inl e => Ok (inl (if is_symbol v then ERR_BADEXPR else e))
    | inr v1 => r ← f v v1 ERR_NOERR; Ok (settle r)
    end).

Definition is_zero (v : eval_value_t) : bool := (f_eq_zero v ERR_NOERR).1.

Definition den_div (m1 m2 : outcome result) : outcome result :=
  and_then m1 (fun v => and_then m2 (fun v1 =>
    if is_zero v1 then Ok (inl ERR_DIV0) else r ← f_div v v1 ERR_NOERR; Ok (settle r))).

Fixpoint den_fac (f : fac) : outcome result :=
  match f with
  | F_const _ s => Ok (den_const s)
  | F_ident _ s => r ← f_eval_ident s ERR_NOERR; Ok (settle r)
  | F_neg _ f => and_then (den_fac f) (fun v => Ok (settle (f_neg v ERR_NOERR)))
  | F_paren _ e _ => den_exp e
  end
with den_trm (t : trm) : outcome result :=
  match t with
  | T_fac f => den_fac f
  | T_mult f _ t => den_op f_mult (den_fac f) (den_trm t)
  | T_div f _ t => den_div (den_fac f) (den_trm t)
  end
with den_exp (e : exp) : outcome result :=
  match e with
  | E_trm t => den_trm t
  | E_add t _ e => den_op f_add (den_trm t) (den_exp e)
  | E_sub t _ e => den_op f_sub (den_trm t) (den_exp e)
  end.

End Denotation.

(** * Scanning *)

Lemma tok_map_blank (c : Z) : blank c = true -> tok_map c = Ok tok_whitespace.
Proof. unfold blank. intros H. assert (c = 32 \/ c = 9) as [->| ->] by (revert H; blia); reflexivity. Qed.

Lemma skip_blanks (w s : list Z) : forallb blank w = true -> skip_whitespace (w ++ s) = skip_whitespace s.
Proof.
  induction w as [|c w IH]; [done|]. cbn. intros [Hc Hw]%andb_prop. rewrite tok_map_blank by done. cbn. auto.
Qed.

Lemma scan_token_blanks (w s : list Z) : forallb blank w = true -> scan_token (w ++ s) = scan_token s.
Proof. intros H. unfold scan_token. by rewrite skip_blanks. Qed.

Lemma skip_to_token (c : Z) (s : list Z) (t : eval_token_t) :
  tok_map c = Ok t -> t <> tok_whitespace -> skip_whitespace (c :: s) = Ok (c :: s).
Proof. intros Ht Hw. cbn. rewrite Ht. cbn. by rewrite bool_decide_eq_false_2. Qed.

Definition one_char (t : eval_token_t) : bool :=
  match t with tok_plus | tok_minus | tok_mult | tok_div | tok_oparen | tok_cparen => true | _ => false end.

Lemma scan_operator (w : list Z) (c : Z) (s : list Z) (t : eval_token_t) :
  forallb blank w = true -> tok_map c = Ok t -> one_char t = true -> scan_token (w ++ c :: s) = Ok (t, [c], s).
Proof.
  intros Hw Ht Ho. rewrite scan_token_blanks by done. unfold scan_token.
  rewrite (skip_to_token c s t) by (try done; by destruct t). cbn. rewrite Ht. by destruct t.
Qed.

(** Delimiters end the scan of an identifier and of a literal. *)
Lemma delimited_cases (c : Z) (r : list Z) : delimited (c :: r) = true ->
  exists t, tok_map c = Ok t /\ t <> tok_ident /\ t <> tok_const /\ (c < 65 \/ 126 < c) /\ (t = tok_plus \/ t = tok_minus -> c = 43 \/ c = 45).
Proof.
  cbn. unfold tok_map.
  repeat match goal with |- context [if ?b then _ else _] => destruct b eqn:?; cbn; try discriminate end; intros _;
    bool_to_prop; eexists; split_and!; try done; try lia; intros; intuition congruence || lia.
Qed.

Lemma scan_ident_stops (r buf : list Z) : delimited r = true -> scan_ident r buf = Ok (buf, r).
Proof.
  destruct r as [|c r]; [done|]. intros (t & Ht & Hi & Hc & _)%delimited_cases. cbn. rewrite Ht. cbn.
  by rewrite !bool_decide_eq_false_2.
Qed.

Lemma scan_ident_all (s r buf : list Z) :
  forallb (fun c => bool_decide (tok_map c = Ok tok_ident) || bool_decide (tok_map c = Ok tok_const)) s = true ->
  delimited r = true -> scan_ident (s ++ r) buf = Ok (buf ++ s, r).
Proof.
  intros Hs Hr. revert buf. induction s as [|c s IH]; intros buf; cbn; [rewrite app_nil_r; by apply scan_ident_stops|].
  cbn in Hs. apply andb_prop in Hs as [Hc Hs]. apply orb_prop in Hc as [Hc|Hc]; apply bool_decide_eq_true in Hc;
    rewrite Hc; cbn; rewrite IH by done; by rewrite <- app_assoc.
Qed.

Lemma scan_identifier (w s r : list Z) : forallb blank w = true -> ident_lexeme s = true -> delimited r = true ->
  scan_token (w ++ s ++ r) = Ok (tok_ident, s, r).
Proof.
  intros Hw Hs Hr. destruct s as [|c s]; [done|]. cbn [ident_lexeme] in Hs.
  apply andb_prop in Hs as [[Hc Hs]%andb_prop Hl]. apply bool_decide_eq_true in Hc.
  rewrite scan_token_blanks by done. unfold scan_token. cbn [app]. rewrite (skip_to_token c _ tok_ident) by done.
  cbn -[length Nat.ltb]. rewrite Hc. cbn -[length Nat.ltb]. rewrite scan_ident_all by done.
  cbn -[length Nat.ltb]. by rewrite Hl.
Qed.

Lemma const_char_stops (r buf : list Z) (lc : Z) (hex : bool) : delimited r = true -> lc <> 101 ->
  scan_const r buf lc hex = Ok (buf, r).
Proof.
  destruct r as [|c r]; [done|]. intros (t & Ht & Hi & Hc & Hr & _)%delimited_cases Hl. cbn. rewrite Ht. cbn.
  assert (const_char t c lc hex = false) as ->; [|done]. unfold const_char, tolower.
  rewrite bool_decide_eq_false_2 by done.
  destruct ((65 <=? c) && (c <=? 90)) eqn:E; [bool_to_prop; lia|]. blia.
Qed.

Lemma scan_const_app (s r buf buf' : list Z) (lc : Z) (hex : bool) :
  scan_const s buf lc hex = Ok (buf', []) -> delimited r = true ->
  match last s with Some c => tolower c | None => lc end <> 101 -> scan_const (s ++ r) buf lc hex = Ok (buf', r).
Proof.
  revert buf lc hex. induction s as [|c s IH]; intros buf lc hex H Hr Hl.
  - injection H as <-. by apply const_char_stops.
  - cbn in *. destruct (tok_map c); try discriminate. cbn in *. destruct (const_char a c lc hex); [|discriminate].
    apply IH; [done..|]. destruct s; [exact Hl|]. cbn [last] in *. destruct (last _) eqn:El; [done|]. by apply last_None in El.
Qed.

Lemma scan_constant (w s r : list Z) : forallb blank w = true -> const_lexeme s = true -> delimited r = true ->
  scan_token (w ++ s ++ r) = Ok (tok_const, s, r).
Proof.
  intros Hw Hs Hr. destruct s as [|c s]; [done|]. cbn [const_lexeme] in Hs.
  apply andb_prop in Hs as [[[Hc Hs]%andb_prop He]%andb_prop Hl].
  apply bool_decide_eq_true in Hc, Hs. apply negb_true_iff in He.
  rewrite scan_token_blanks by done. unfold scan_token. cbn [app]. rewrite (skip_to_token c _ tok_const) by done.
  cbn -[length Nat.ltb]. rewrite Hc. cbn -[length Nat.ltb]. rewrite (scan_const_app s r [c] (c :: s)); [|done|done|].
  - cbn -[length Nat.ltb]. by rewrite Hl.
  - destruct s as [|c' s]; [done|]. cbn [last] in He |- *.
    destruct (last (c' :: s)) eqn:El; [by apply Z.eqb_neq|done].
Qed.

(** * Positions *)

#[global] Arguments scan_token : simpl never.

(** The evaluator is before the string [s], with or without a peeked token. *)
Definition at_input (es : eval_state_t) (s : list Z) : Prop :=
  (peek_tok es = tok_invalid /\ es_p es = s)
  \/ (peek_tok es <> tok_invalid /\ lastp es = s /\ scan_token s = Ok (peek_tok es, tok_buf es, es_p es)).

Definition peeked (es : eval_state_t) (s : list Z) (tok : eval_token_t) : Prop :=
  at_input es s /\ peek_tok es = tok /\ tok <> tok_invalid.

Lemma peek_at (es : eval_state_t) (s buf p : list Z) (tok : eval_token_t) :
  at_input es s -> scan_token s = Ok (tok, buf, p) ->
  exists es', peek_next_token es = Ok (tok, es') /\ eval_error es' = eval_error es
    /\ ((tok = tok_invalid /\ at_input es' p) \/ peeked es' s tok).
Proof.
  intros [[Hp <-]|(Hp & <- & Hs)] Hscan; unfold peek_next_token.
  - rewrite bool_decide_eq_true_2 by done. unfold get_next_token. cbn. rewrite Hp. cbn. rewrite Hscan. cbn.
    eexists. split; [done|]. split; [done|]. destruct (decide (tok = tok_invalid)) as [->|Hi]; [left; split; [done|by left]|right].
    split; [|done]. by right.
  - rewrite Hs in Hscan. injection Hscan as <- <- <-. rewrite bool_decide_eq_false_2 by done.
    eexists. split; [done|]. split; [done|]. right. split; [|done]. by right.
Qed.

Lemma get_at (es : eval_state_t) (s buf p : list Z) (tok : eval_token_t) :
  peeked es s tok -> scan_token s = Ok (tok, buf, p) ->
  exists es', get_next_token es = Ok (tok, es') /\ eval_error es' = eval_error es /\ at_input es' p /\ tok_buf es' = buf.
Proof.
  intros ([[Hp _]|(Hp & <- & Hs)] & <- & Hi) Hscan; [done|]. rewrite Hs in Hscan. injection Hscan as <- <-.
  unfold get_next_token. rewrite bool_decide_eq_false_2 by done. eexists. split; [done|]. split; [done|]. split; [by left|done].
Qed.

Lemma at_input_error (es : eval_state_t) (s : list Z) (e : eval_err_t) : at_input es s -> at_input (set_error e es) s.
Proof. done. Qed.

Lemma erred_false (es : eval_state_t) : eval_error es = ERR_NOERR -> erred es = false.
Proof. intros H. unfold erred. by rewrite H. Qed.

Lemma erred_true (es : eval_state_t) : eval_error es <> ERR_NOERR -> erred es = true.
Proof. intros H. unfold erred. by rewrite bool_decide_eq_false_2. Qed.
