(* ===== verification/EvalDen.v ===== *)
(** The evaluator of eval.c computes the denotation of the tree whose string it
    reads, and stops where the tree ends. *)

From S2P Require Import Prelude Misc Exec Eval EvalSpec.

Section Evaluates.
Context {fp : HostFP} {eh : EvalHost}.
Variable f_eval_ident : list Z -> eval_err_t -> outcome (eval_value_t * eval_err_t).

(** An evaluation that ends before [r] with the value denoted, or with the error
    denoted and the value that goes with errors. *)
Definition agrees (r : list Z) (ve : eval_value_t * eval_state_t) (d : result) : Prop :=
  match d with
  | inr v => ve.1 = v /\ eval_error ve.2 = ERR_NOERR /\ at_input ve.2 r
  | inl e => ve.1 = err_value /\ eval_error ve.2 = e /\ e <> ERR_NOERR
  end.

(** The value is used only if there was no error. *)
Lemma agrees_then (r r' : list Z) (m : outcome (eval_value_t * eval_state_t)) (d : outcome result)
    (k : eval_value_t -> eval_state_t -> outcome (eval_value_t * eval_state_t)) (kd : eval_value_t -> outcome result) :
  orel (agrees r) m d ->
  (forall v es, eval_error es = ERR_NOERR -> at_input es r -> orel (agrees r') (k v es) (kd v)) ->
  orel (agrees r') ('(val, es) ← m; unless_error es (k val es)) (and_then d kd).
Proof.
  intros Hm Hk. unfold and_then. apply (orel_bind _ _ _ _ _ _ Hm). intros [v es] [e|v'] _ _ H; unfold unless_error; cbn in H.
  - destruct H as (-> & He & Hne). rewrite erred_true by congruence. done.
  - destruct H as (-> & He & Hat). rewrite erred_false by done. auto.
Qed.

Lemma and_then_ret (d : outcome result) : and_then d (fun v => Ok (inr v)) = d.
Proof. unfold and_then. destruct d as [[e|v]| | | | | |]; reflexivity. Qed.

Lemma settle_error (v : eval_value_t) (e : eval_err_t) : e <> ERR_NOERR -> settle (v, e) = inl e.
Proof. intros H. unfold settle. by rewrite bool_decide_eq_false_2. Qed.

(** An operation on values that succeeded so far. *)
Lemma agrees_op (r : list Z) (es : eval_state_t) (f : eval_err_t -> outcome (eval_value_t * eval_err_t)) :
  eval_error es = ERR_NOERR -> at_input es r ->
  orel (agrees r) ('(val, es) ← on_error f es; unless_error es (Ok (val, es))) (r ← f ERR_NOERR; Ok (settle r)).
Proof.
  intros He Hat. unfold on_error. rewrite He. destruct (f ERR_NOERR) as [[v e]| | | | | |]; cbn; try done.
  destruct (decide (e = ERR_NOERR)) as [->|Hne]; [done|].
  unfold unless_error. by rewrite settle_error, erred_true.
Qed.

(** The same where the caller does not look at [eval_error]: the operation gives
    [err_value] with its errors. *)
Lemma agrees_op_last (r : list Z) (es : eval_state_t) (f : eval_err_t -> outcome (eval_value_t * eval_err_t)) :
  eval_error es = ERR_NOERR -> at_input es r ->
  (forall v e, f ERR_NOERR = Ok (v, e) -> e = ERR_NOERR \/ v = err_value) ->
  orel (agrees r) (on_error f es) (r ← f ERR_NOERR; Ok (settle r)).
Proof.
  intros He Hat Hf. unfold on_error. rewrite He. destruct (f ERR_NOERR) as [[v e]| | | | | |]; cbn; try done.
  destruct (decide (e = ERR_NOERR)) as [->|Hne]; [done|].
  rewrite settle_error by done. destruct (Hf v e eq_refl); done.
Qed.

Lemma f_arith_error (opD opS : Z -> Z -> Z) (opU opI : Z -> Z -> outcome Z) (v1 v2 v : eval_value_t) (e0 e : eval_err_t) :
  f_arith opD opS opU opI v1 v2 e0 = Ok (v, e) -> (is_symbol v1 || is_symbol v2 = true /\ v = err_value /\ e = ERR_BADEXPR) \/ (is_symbol v1 || is_symbol v2 = false /\ e = e0).
Proof.
  unfold f_arith. destruct (is_symbol v1 || is_symbol v2); [intros [= <- <-]; auto|]. intros H. right. split; [done|].
  apply bind_ok in H as (t & _ & H).
  destruct t; try discriminate; repeat (apply bind_ok in H as (? & _ & H)); congruence.
Qed.

Lemma as_type (v : eval_value_t) : is_symbol v = false ->
  (exists d, eval_as_double v = Ok d) /\ (exists f, eval_as_float v = Ok f) /\ (exists u, eval_as_uint v = Ok u) /\ (exists i, eval_as_int v = Ok i).
Proof. by destruct v; cbn; eauto 10. Qed.

Lemma result_type_numeric (v1 v2 : eval_value_t) : is_symbol v1 || is_symbol v2 = false ->
  exists t, result_type (type_of v1) (type_of v2) = Ok t /\ t <> et_symbol.
Proof. by destruct v1, v2; cbn; eauto. Qed.

Lemma f_arith_total (opD opS : Z -> Z -> Z) (opU opI : Z -> Z -> outcome Z) (v1 v2 : eval_value_t) (e0 : eval_err_t) :
  (forall a b, exists r, opU a b = Ok r) -> (forall a b, exists r, opI a b = Ok r) ->
  exists v e, f_arith opD opS opU opI v1 v2 e0 = Ok (v, e).
Proof.
  intros HU HI. unfold f_arith. destruct (is_symbol v1 || is_symbol v2) eqn:Hs; [eauto|].
  destruct (result_type_numeric v1 v2 Hs) as (t & -> & Ht). apply orb_false_elim in Hs as [H1 H2].
  destruct (as_type v1 H1) as ((?&Ed1)&(?&Ef1)&(?&Eu1)&?&Ei1), (as_type v2 H2) as ((?&Ed2)&(?&Ef2)&(?&Eu2)&?&Ei2).
  destruct t; cbn; [|..|done]; rewrite ?Ed1, ?Ed2, ?Ef1, ?Ef2, ?Eu1, ?Eu2, ?Ei1, ?Ei2; cbn; eauto.
  - destruct (HI x2 x6) as [? ->]. cbn. eauto.
  - destruct (HU x1 x5) as [? ->]. cbn. eauto.
Qed.

(** The right operand of an operator that does not look at its error. *)
Lemma agrees_operand (r : list Z) (m : outcome (eval_value_t * eval_state_t)) (d : outcome result)
    (opD opS : Z -> Z -> Z) (opU opI : Z -> Z -> outcome Z) (v : eval_value_t) :
  (forall a b, exists r, opU a b = Ok r) -> (forall a b, exists r, opI a b = Ok r) ->
  orel (agrees r) m d ->
  orel (agrees r) ('(val1, es) ← m; '(val, es) ← on_error (f_arith opD opS opU opI v val1) es; unless_error es (Ok (val, es)))
    (r ← d; match r with
            | inl e => Ok (inl (if is_symbol v then ERR_BADEXPR else e))
            | inr v1 => r ← f_arith opD opS opU opI v v1 ERR_NOERR; Ok (settle r)
            end).
Proof.
  intros HU HI Hm. apply (orel_bind _ _ _ _ _ _ Hm). intros [v1 es] [e|v'] _ _ H; cbn in H.
  - destruct H as (-> & He & Hne). unfold on_error. rewrite He.
    destruct (f_arith_total opD opS opU opI v err_value e HU HI) as (v' & e' & Hf). rewrite Hf. cbn -[err_value is_symbol].
    apply f_arith_error in Hf. rewrite orb_false_r in Hf. destruct Hf as [(-> & -> & ->)|(-> & ->)]; [done|].
    unfold unless_error. by rewrite erred_true.
  - destruct H as (-> & He & Hat). by apply agrees_op.
Qed.

(** Division looks at the right operand's error, then whether it is zero. *)
Lemma agrees_divisor (r : list Z) (m : outcome (eval_value_t * eval_state_t)) (d : outcome result) (v : eval_value_t) :
  orel (agrees r) m d ->
  orel (agrees r) ('(val1, es) ← m;
      unless_error es (
        let '(zero, e) := f_eq_zero val1 (eval_error es) in
        let es := set_error e es in
        if (zero : bool) then Ok (err_value, set_error ERR_DIV0 es) else on_error (f_div v val1) es))
    (and_then d (fun v1 => if is_zero v1 then Ok (inl ERR_DIV0) else r ← f_div v v1 ERR_NOERR; Ok (settle r))).
Proof.
  intros Hm. apply (agrees_then r r _ _ _ _ Hm). intros v1 es He Hat. unfold is_zero. rewrite He.
  destruct (is_symbol v1) eqn:Hs.
  - destruct v1; try discriminate. cbn -[f_div]. unfold on_error, f_div, f_arith. rewrite Hs, orb_true_r. done.
  - assert ((f_eq_zero v1 ERR_NOERR).2 = ERR_NOERR) as Hz by (by destruct v1).
    destruct (f_eq_zero v1 ERR_NOERR) as [[] e]; cbn in Hz; subst e; [done|].
    apply agrees_op_last; [done..|]. intros v' e Hf. apply f_arith_error in Hf. naive_solver.
Qed.

(** ** The tree that is read *)

Lemma next_token (es : eval_state_t) (s buf p : list Z) (tok : eval_token_t) :
  at_input es s -> scan_token s = Ok (tok, buf, p) -> tok <> tok_invalid ->
  exists es1 es2, peek_next_token es = Ok (tok, es1) /\ get_next_token es1 = Ok (tok, es2)
    /\ at_input es1 s /\ at_input es2 p /\ tok_buf es2 = buf
    /\ eval_error es1 = eval_error es /\ eval_error es2 = eval_error es.
Proof.
  intros Hat Hs Hi. destruct (peek_at _ _ _ _ _ Hat Hs) as (es1 & Hp & He1 & [[? _]|Hpk]); [done|].
  destruct (get_at _ _ _ _ _ Hpk Hs) as (es2 & Hg & He2 & Hat2 & Hb). exists es1, es2.
  destruct Hpk as [? _]. split_and!; try done. congruence.
Qed.

Lemma starts_with_inv (toks : list eval_token_t) (r : list Z) : starts_with toks r = true ->
  exists tok buf p, scan_token r = Ok (tok, buf, p) /\ tok ∈ toks.
Proof.
  unfold starts_with. destruct (scan_token r) as [[[tok buf] p]| | | | | |]; try done.
  intros H%bool_decide_eq_true. eauto.
Qed.

Lemma blanks_delimited (w : list Z) (c : Z) (s : list Z) :
  forallb blank w = true -> delimited (c :: s) = true -> delimited (w ++ c :: s) = true.
Proof. destruct w as [|b w]; [done|]. cbn. intros [Hb _]%andb_prop _. by rewrite tok_map_blank. Qed.

(** A tree is evaluated to its denotation from any state before its string. *)
Definition fac_ok (f : fac) : Prop := forall fuel es r,
  wf_fac f = true -> delimited r = true -> (3 * length (print_fac f) <= fuel + 2)%nat ->
  at_input es (print_fac f ++ r) -> eval_error es = ERR_NOERR ->
  orel (agrees r) (factor f_eval_ident fuel es) (den_fac f_eval_ident f).
Definition trm_ok (t : trm) : Prop := forall fuel es r,
  wf_trm t = true -> delimited r = true -> starts_with after_trm r = true -> (3 * length (print_trm t) <= fuel + 1)%nat ->
  at_input es (print_trm t ++ r) -> eval_error es = ERR_NOERR ->
  orel (agrees r) (term f_eval_ident fuel es) (den_trm f_eval_ident t).
Definition exp_ok (e : exp) : Prop := forall fuel es r,
  wf_exp e = true -> delimited r = true -> starts_with after_exp r = true -> (3 * length (print_exp e) <= fuel)%nat ->
  at_input es (print_exp e ++ r) -> eval_error es = ERR_NOERR ->
  orel (agrees r) (expr f_eval_ident fuel es) (den_exp f_eval_ident e).

Lemma lexeme_nonempty (s : list Z) : const_lexeme s = true \/ ident_lexeme s = true -> (1 <= length s)%nat.
Proof. destruct s; cbn; [intros []; done|lia]. Qed.

Lemma const_ok (w s : list Z) : fac_ok (F_const w s).
Proof.
  intros fuel es r Hwf Hr Hf Hat He. cbn in Hwf. apply andb_prop in Hwf as [Hw Hs].
  cbn [print_fac] in *. rewrite length_app in Hf. pose proof (lexeme_nonempty s (or_introl Hs)).
  destruct fuel as [|fuel]; [lia|]. rewrite <- app_assoc in Hat.
  destruct (next_token _ _ _ _ _ Hat (scan_constant w s r Hw Hs Hr) ltac:(done)) as (es1 & es2 & Hp & Hg & _ & Hat2 & Hb & _ & He2).
  cbn [factor]. rewrite Hp. cbn -[constant]. rewrite Hg. cbn -[constant]. unfold den_const.
  unfold constant. cbn [tok_buf eval_new set_field]. rewrite Hb.
  assert (eval_error es2 = ERR_NOERR) as He2' by congruence.
  destruct (strto_below _ s); [|destruct (strto_below _ s); [|destruct (strtod s)]]; unfold unless_error;
    rewrite ?(erred_false es2) by done; done.
Qed.

Lemma ident_ok (w s : list Z) : fac_ok (F_ident w s).
Proof.
  intros fuel es r Hwf Hr Hf Hat He. cbn in Hwf. apply andb_prop in Hwf as [Hw Hs].
  cbn [print_fac] in *. rewrite length_app in Hf. pose proof (lexeme_nonempty s (or_intror Hs)).
  destruct fuel as [|fuel]; [lia|]. rewrite <- app_assoc in Hat.
  destruct (next_token _ _ _ _ _ Hat (scan_identifier w s r Hw Hs Hr) ltac:(done)) as (es1 & es2 & Hp & Hg & _ & Hat2 & Hb & _ & He2).
  cbn [factor]. rewrite Hp. cbn. rewrite Hg. cbn. rewrite Hb. apply agrees_op; congruence || done.
Qed.

Lemma neg_ok (w : list Z) (f : fac) : fac_ok f -> fac_ok (F_neg w f).
Proof.
  intros IH fuel es r Hwf Hr Hf Hat He. cbn in Hwf. apply andb_prop in Hwf as [Hw Hwf].
  cbn [print_fac] in *. rewrite length_app in Hf. cbn in Hf.
  destruct fuel as [|fuel]; [lia|]. rewrite <- app_assoc in Hat. cbn in Hat.
  destruct (next_token _ _ _ _ _ Hat (scan_operator w 45 _ tok_minus Hw eq_refl eq_refl) ltac:(done)) as (es1 & es2 & Hp & Hg & _ & Hat2 & _ & _ & He2).
  cbn [factor]. rewrite Hp. cbn [mbind outcome_bind]. rewrite Hg. cbn [mbind outcome_bind].
  apply (agrees_then r r _ _ _ (fun v => Ok (settle (f_neg v ERR_NOERR)))); [apply IH; congruence || lia || done|].
  intros v es' He' Hat'. apply (agrees_op_last r es' (fun e => Ok (f_neg v e))); [done..|].
  destruct v; cbn; naive_solver.
Qed.

Lemma paren_ok (w w' : list Z) (e : exp) : exp_ok e -> fac_ok (F_paren w e w').
Proof.
  intros IH fuel es r Hwf Hr Hf Hat He. cbn in Hwf. apply andb_prop in Hwf as [[Hw Hwf]%andb_prop Hw'].
  cbn [print_fac] in *. rewrite length_app in Hf. cbn in Hf. rewrite !length_app in Hf. cbn in Hf.
  destruct fuel as [|fuel]; [lia|]. rewrite <- app_assoc in Hat. cbn in Hat. rewrite <- app_assoc in Hat.
  destruct (next_token _ _ _ _ _ Hat (scan_operator w 40 _ tok_oparen Hw eq_refl eq_refl) ltac:(done)) as (es1 & es2 & Hp & Hg & _ & Hat2 & _ & _ & He2).
  cbn [factor]. rewrite Hp. cbn [mbind outcome_bind]. rewrite Hg. cbn [mbind outcome_bind].
  change (den_fac f_eval_ident (F_paren w e w')) with (den_exp f_eval_ident e).
  rewrite <- app_assoc in Hat2. cbn [app] in Hat2.
  pose proof (scan_operator w' 41 r tok_cparen Hw' eq_refl eq_refl) as Hclose.
  assert (orel (agrees (w' ++ 41 :: r)) (expr f_eval_ident fuel es2) (den_exp f_eval_ident e)) as Hin.
  { apply IH; [done|by apply blanks_delimited|unfold starts_with; by rewrite Hclose|lia|done|congruence]. }
  rewrite <- (and_then_ret (den_exp f_eval_ident e)).
  apply (agrees_then _ r _ _ _ (fun v => Ok (inr v)) Hin).
  intros v es' He' Hat'.
  destruct (next_token _ _ _ _ _ Hat' Hclose ltac:(done)) as (es3 & es4 & Hp' & Hg' & _ & Hat4 & _ & _ & He4).
  rewrite Hp'. cbn. rewrite Hg'. cbn. split_and!; [done|by rewrite <- He'|done].
Qed.

(** A tree that ends with its first part: what follows is not an operator. *)
Lemma agrees_last (r : list Z) (toks : list eval_token_t) (m : outcome (eval_value_t * eval_state_t)) (d : outcome result)
    (k : eval_value_t -> eval_token_t -> eval_state_t -> outcome (eval_value_t * eval_state_t)) :
  starts_with toks r = true -> (tok_invalid ∉ toks) -> (forall v tok es, tok ∈ toks -> k v tok es = Ok (v, es)) ->
  orel (agrees r) m d ->
  orel (agrees r) ('(val, es) ← m; unless_error es ('(tok, es) ← peek_next_token es; k val tok es)) d.
Proof.
  intros (tok & buf & p & Hs & Htok)%starts_with_inv Hi Hk Hm. rewrite <- (and_then_ret d).
  apply (agrees_then r r m d _ (fun v => Ok (inr v)) Hm). intros v es He Hat.
  destruct (next_token _ _ _ _ _ Hat Hs) as (es1 & es2 & Hp & _ & Hat1 & _ & _ & He1 & _); [by intros ->|].
  rewrite Hp. cbn. rewrite Hk by done. cbn. split_and!; [done|by rewrite <- He|done].
Qed.

(** A tree with an operator: the left part, the operator, and the rest. *)
Lemma agrees_binary (w : list Z) (c : Z) (s r : list Z) (tok : eval_token_t)
    (m : outcome (eval_value_t * eval_state_t)) (d : outcome result) (kd : eval_value_t -> outcome result)
    (k : eval_value_t -> eval_token_t -> eval_state_t -> outcome (eval_value_t * eval_state_t)) :
  forallb blank w = true -> tok_map c = Ok tok -> one_char tok = true ->
  orel (agrees (w ++ c :: s)) m d ->
  (forall v es es', at_input es' s -> eval_error es' = ERR_NOERR -> get_next_token es = Ok (tok, es') ->
    orel (agrees r) (k v tok es) (kd v)) ->
  orel (agrees r) ('(val, es) ← m; unless_error es ('(tok, es) ← peek_next_token es; k val tok es)) (and_then d kd).
Proof.
  intros Hw Hc Ho Hm Hk. apply (agrees_then _ r m d _ kd Hm). intros v es He Hat.
  destruct (next_token _ _ _ _ _ Hat (scan_operator w c s tok Hw Hc Ho)) as (es1 & es2 & Hp & Hg & _ & Hat2 & _ & _ & He2); [by intros ->|].
  rewrite Hp. cbn. apply (Hk v es1 es2); congruence || done.
Qed.

Lemma operator_starts (toks : list eval_token_t) (w : list Z) (c : Z) (s : list Z) (tok : eval_token_t) :
  forallb blank w = true -> tok_map c = Ok tok -> one_char tok = true -> bool_decide (tok ∈ toks) = true ->
  starts_with toks (w ++ c :: s) = true.
Proof. intros Hw Hc Ho H. unfold starts_with. by rewrite (scan_operator w c s tok). Qed.

Ltac print_lengths :=
  repeat match goal with
  | H : context [length (_ ++ _)] |- _ => rewrite length_app in H; cbn [length] in H
  end.

Lemma print_nonempty :
  (forall f, wf_fac f = true -> (1 <= length (print_fac f))%nat)
  /\ (forall t, wf_trm t = true -> (1 <= length (print_trm t))%nat)
  /\ (forall e, wf_exp e = true -> (1 <= length (print_exp e))%nat).
Proof.
  apply tree_ind; intros; cbn in *; bool_to_prop; rewrite ?length_app; cbn [length]; try lia; auto.
  - pose proof (lexeme_nonempty s). intuition lia.
  - pose proof (lexeme_nonempty s). intuition lia.
Qed.

Lemma fac_trm_ok (f : fac) : fac_ok f -> trm_ok (T_fac f).
Proof.
  intros IH fuel es r Hwf Hr Hst Hf Hat He.
  pose proof (proj1 (proj2 print_nonempty) (T_fac f) Hwf). cbn [print_trm] in *.
  destruct fuel as [|fuel]; [lia|]. cbn [term].
  apply (agrees_last r after_trm _ _ (fun v tok es => _) Hst); [by vm_compute; set_solver| |apply IH; done || lia].
  intros v tok es' Htok. unfold after_trm, after_exp in Htok. repeat (apply elem_of_cons in Htok as [->|Htok]; [done|]).
  by apply elem_of_nil in Htok.
Qed.

Lemma mult_ok (f : fac) (w : list Z) (t : trm) : fac_ok f -> trm_ok t -> trm_ok (T_mult f w t).
Proof.
  intros IHf IHt fuel es r Hwf Hr Hst Hf Hat He. cbn in Hwf. apply andb_prop in Hwf as [[Hwf Hw]%andb_prop Hwt].
  pose proof (proj1 print_nonempty f Hwf). cbn [print_trm] in *. print_lengths.
  destruct fuel as [|fuel]; [lia|]. cbn [term]. rewrite <- !app_assoc in Hat. cbn [app] in Hat.
  apply (agrees_binary w 42 (print_trm t ++ r) r tok_mult _ (den_fac f_eval_ident f) _ _ Hw eq_refl eq_refl).
  - apply IHf; done || lia || by apply blanks_delimited.
  - intros v es1 es2 Hat2 He2 Hg. rewrite Hg. cbn [mbind outcome_bind].
    apply agrees_operand; [by eauto..|]. apply IHt; done || lia.
Qed.

Lemma div_ok (f : fac) (w : list Z) (t : trm) : fac_ok f -> trm_ok t -> trm_ok (T_div f w t).
Proof.
  intros IHf IHt fuel es r Hwf Hr Hst Hf Hat He. cbn in Hwf. apply andb_prop in Hwf as [[Hwf Hw]%andb_prop Hwt].
  pose proof (proj1 print_nonempty f Hwf). cbn [print_trm] in *. print_lengths.
  destruct fuel as [|fuel]; [lia|]. cbn [term]. rewrite <- !app_assoc in Hat. cbn [app] in Hat.
  apply (agrees_binary w 47 (print_trm t ++ r) r tok_div _ (den_fac f_eval_ident f) _ _ Hw eq_refl eq_refl).
  - apply IHf; done || lia || by apply blanks_delimited.
  - intros v es1 es2 Hat2 He2 Hg. rewrite Hg. cbn [mbind outcome_bind].
    apply agrees_divisor. apply IHt; done || lia.
Qed.

Lemma trm_exp_ok (t : trm) : trm_ok t -> exp_ok (E_trm t).
Proof.
  intros IH fuel es r Hwf Hr Hst Hf Hat He.
  pose proof (proj2 (proj2 print_nonempty) (E_trm t) Hwf). cbn [print_exp] in *.
  destruct fuel as [|fuel]; [lia|]. cbn [expr].
  apply (agrees_last r after_exp _ _ (fun v tok es => _) Hst); [by vm_compute; set_solver| |apply IH; try done; try lia].
  - intros v tok es' Htok. unfold after_exp in Htok. repeat (apply elem_of_cons in Htok as [->|Htok]; [done|]).
    by apply elem_of_nil in Htok.
  - destruct (starts_with_inv _ _ Hst) as (tok & buf & p & Hs & Htok). unfold starts_with. rewrite Hs.
    apply bool_decide_eq_true. unfold after_trm. set_solver.
Qed.

(** The two operators of an expression. *)
Lemma binary_ok (opD opS : Z -> Z -> Z) (opU opI : Z -> Z -> outcome Z) (t : trm) (w : list Z) (c : Z) (tok : eval_token_t) (e : exp)
    (k : nat -> eval_value_t -> eval_token_t -> eval_state_t -> outcome (eval_value_t * eval_state_t)) (fuel : nat) (es : eval_state_t) (r : list Z) :
  (forall a b, exists r, opU a b = Ok r) -> (forall a b, exists r, opI a b = Ok r) ->
  trm_ok t -> exp_ok e -> wf_trm t && forallb blank w && wf_exp e = true ->
  tok_map c = Ok tok -> one_char tok = true -> bool_decide (tok ∈ after_trm) = true -> delimited (c :: print_exp e ++ r) = true ->
  delimited r = true -> starts_with after_exp r = true ->
  (3 * length (print_trm t ++ w ++ c :: print_exp e) <= S fuel)%nat ->
  at_input es ((print_trm t ++ w ++ c :: print_exp e) ++ r) -> eval_error es = ERR_NOERR ->
  (forall v es es', get_next_token es = Ok (tok, es') -> k fuel v tok es =
    ('(val1, es) ← expr f_eval_ident fuel es'; '(val, es) ← on_error (f_arith opD opS opU opI v val1) es; unless_error es (Ok (val, es)))) ->
  orel (agrees r) ('(val, es) ← term f_eval_ident fuel es; unless_error es ('(tok, es) ← peek_next_token es; k fuel val tok es))
    (den_op (f_arith opD opS opU opI) (den_trm f_eval_ident t) (den_exp f_eval_ident e)).
Proof.
  intros HU HI IHt IHe [[Hwf Hw]%andb_prop Hwe]%andb_prop Hc Ho Ha Hd Hr Hst Hf Hat He Hk.
  pose proof (proj1 (proj2 print_nonempty) t Hwf). print_lengths. rewrite <- !app_assoc in Hat. cbn [app] in Hat.
  apply (agrees_binary w c (print_exp e ++ r) r tok _ (den_trm f_eval_ident t) _ _ Hw Hc Ho).
  - apply IHt; try done; try lia; [by apply blanks_delimited|by apply (operator_starts _ _ _ _ tok)].
  - intros v es1 es2 Hat2 He2 Hg. rewrite (Hk v es1 es2 Hg). apply agrees_operand; [done..|]. apply IHe; done || lia.
Qed.

Lemma add_ok (t : trm) (w : list Z) (e : exp) : trm_ok t -> exp_ok e -> exp_ok (E_add t w e).
Proof.
  intros IHt IHe fuel es r Hwf Hr Hst Hf Hat He.
  pose proof (proj2 (proj2 print_nonempty) (E_add t w e) Hwf). cbn [print_exp] in *.
  destruct fuel as [|fuel]; [lia|]. cbn [expr].
  apply (binary_ok _ _ _ _ t w 43 tok_plus e (fun fuel v tok es => _)); try done; eauto.
  intros v es1 es2 Hg. cbn beta iota. rewrite Hg. done.
Qed.

Lemma sub_ok (t : trm) (w : list Z) (e : exp) : trm_ok t -> exp_ok e -> exp_ok (E_sub t w e).
Proof.
  intros IHt IHe fuel es r Hwf Hr Hst Hf Hat He.
  pose proof (proj2 (proj2 print_nonempty) (E_sub t w e) Hwf). cbn [print_exp] in *.
  destruct fuel as [|fuel]; [lia|]. cbn [expr].
  apply (binary_ok _ _ _ _ t w 45 tok_minus e (fun fuel v tok es => _)); try done; eauto.
  intros v es1 es2 Hg. cbn beta iota. rewrite Hg. done.
Qed.

Lemma trees_ok : (forall f, fac_ok f) /\ (forall t, trm_ok t) /\ (forall e, exp_ok e).
Proof.
  apply tree_ind; auto using const_ok, ident_ok, neg_ok, paren_ok, fac_trm_ok, mult_ok, div_ok, trm_exp_ok, add_ok, sub_ok.
Qed.

(** * The whole expression *)

(** What [eval_expr] ends with, for a denotation: the value and the rest of the
    string, or the error and the value that goes with errors. *)
Definition yields (m : outcome (eval_value_t * eval_state_t * list Z)) (d : outcome result) (r : list Z) : Prop :=
  match d with
  | Ok (inr v) => exists es, m = Ok (v, es, r) /\ eval_error es = ERR_NOERR
  | Ok (inl e) => exists es p, m = Ok (err_value, es, p) /\ eval_error es = e /\ e <> ERR_NOERR
  | Exit c => m = Exit c | Fatal => m = Fatal | Panic => m = Panic | AssertFail => m = AssertFail | Undef => m = Undef | NoFuel => m = NoFuel
  end.

Lemma endp_at (es : eval_state_t) (s : list Z) :
  at_input es s -> (if negb (bool_decide (peek_tok es = tok_invalid)) then lastp es else es_p es) = s.
Proof. intros [[H <-]|(H & <- & _)]; [by rewrite bool_decide_eq_true_2|by rewrite bool_decide_eq_false_2]. Qed.

Lemma eval_expr_yields (fuel : nat) (es : eval_state_t) (e : exp) (r : list Z) :
  wf_exp e = true -> delimited r = true -> starts_with after_exp r = true -> (3 * length (print_exp e) <= fuel)%nat ->
  yields (eval_expr f_eval_ident fuel es (print_exp e ++ r)) (den_exp f_eval_ident e) r.
Proof.
  intros Hwf Hr Hst Hf. unfold eval_expr.
  match goal with |- context [expr f_eval_ident fuel ?es0] =>
    pose proof (proj2 (proj2 trees_ok) e fuel es0 r Hwf Hr Hst Hf (or_introl (conj eq_refl eq_refl)) eq_refl) as H;
    destruct (expr f_eval_ident fuel es0) as [[v es']| | | | | |]
  end; destruct (den_exp f_eval_ident e) as [[err|v']| | | | | |]; cbn in H; try done.
  - destruct H as (-> & He & Hne). eexists _, _. split; [reflexivity|done].
  - destruct H as (-> & He & Hat). cbn -[bool_decide]. rewrite (endp_at es' r Hat). by exists es'.
  - by rewrite H.
Qed.

End Evaluates.
