(* ===== verification/EvalMeaning.v ===== *)
(** What the expressions of eval.c mean, in the terms of C's arithmetic rather
    than of the evaluator's operations: the type of an operation by the usual
    arithmetic conversions, the conversion of both operands to it, and the
    result of each operator there.  The last lemma relates the meaning to the
    denotation the evaluator computes. *)

From S2P Require Import Prelude Misc Exec Eval EvalSpec EvalDen.

(** The usual arithmetic conversions: the operand of lower rank is converted to
    the type of the other. *)
Definition rank (t : eval_type_t) : nat :=
  match t with et_int => 0 | et_uint => 1 | et_float => 2 | et_double => 3 | et_symbol => 4 end.

Definition arith_type (t1 t2 : eval_type_t) : option eval_type_t :=
  if bool_decide (t1 = et_symbol) || bool_decide (t2 = et_symbol) then None
  else Some (if (rank t1 <=? rank t2)%nat then t2 else t1).

Inductive operator := Plus | Minus | Times | Over.
#[global] Instance operator_eq_dec : EqDecision operator.
Proof. solve_decision. Defined.

Section Meaning.
Context {fp : HostFP} {eh : EvalHost}.

(** A value as one of a type of higher rank. *)
Definition convert (t : eval_type_t) (v : eval_value_t) : eval_value_t :=
  match t, v with
  | et_uint, as_int i => as_uint (i mod 2 ^ 32)
  | et_float, as_int i => as_float (cvt_S_W i)
  | et_float, as_uint u => as_float (cvt_S_U u)
  | et_double, as_int i => as_double (cvt_D_W i)
  | et_double, as_uint u => as_double (cvt_D_U u)
  | et_double, as_float f => as_double (cvt_D_S f)
  | _, _ => v
  end.

(** An operator on operands of one type: ints wrap around as the host's do,
    unsigned ints are modulo 2^32, integer division truncates and is undefined
    for INT_MIN / -1 and for 0, which [apply_op] leaves out. *)
Definition int_op (o : operator) (a b : Z) : outcome Z :=
  match o with
  | Plus => Ok (s32 (a + b)) | Minus => Ok (s32 (a - b)) | Times => Ok (s32 (a * b))
  | Over => if (b =? 0) || ((a =? - 2 ^ 31) && (b =? -1)) then Undef else Ok (Z.quot a b)
  end.

Definition uint_op (o : operator) (a b : Z) : outcome Z :=
  match o with
  | Plus => Ok ((a + b) mod 2 ^ 32) | Minus => Ok ((a - b) mod 2 ^ 32) | Times => Ok ((a * b) mod 2 ^ 32)
  | Over => if b =? 0 then Undef else Ok (a / b)
  end.

Definition float_op (o : operator) : Z -> Z -> Z :=
  match o with Plus => fadd_S | Minus => fsub_S | Times => fmul_S | Over => fdiv_S end.

Definition double_op (o : operator) : Z -> Z -> Z :=
  match o with Plus => fadd_D | Minus => fsub_D | Times => fmul_D | Over => fdiv_D end.

Definition compute (o : operator) (v1 v2 : eval_value_t) : outcome eval_value_t :=
  match v1, v2 with
  | as_int a, as_int b => z ← int_op o a b; Ok (as_int z)
  | as_uint a, as_uint b => z ← uint_op o a b; Ok (as_uint z)
  | as_float a, as_float b => Ok (as_float (float_op o a b))
  | as_double a, as_double b => Ok (as_double (double_op o a b))
  | _, _ => Panic
  end.

Definition zero_value (v : eval_value_t) : bool :=
  match v with
  | as_int z | as_uint z => z =? 0
  | as_float f => feq_S f 0
  | as_double d => feq_D d 0
  | as_symbol _ => false
  end.

(** An operator on two values: dividing by zero is an error, and so is a symbol
    as an operand. *)
Definition apply_op (o : operator) (v1 v2 : eval_value_t) : outcome result :=
  if bool_decide (o = Over) && zero_value v2 then Ok (inl ERR_DIV0)
  else
    match arith_type (type_of v1) (type_of v2) with
    | None => Ok (inl ERR_BADEXPR)
    | Some t => v ← compute o (convert t v1) (convert t v2); Ok (inr v)
    end.

(** The operator after its operands, left before right: the first error wins,
    except that a symbol on the left of [+], [-] or [*] hides an error on the
    right, which these operators do not look at. *)
Definition operation (o : operator) (d1 d2 : outcome result) : outcome result :=
  and_then d1 (fun v1 =>
    r ← d2;
    match r with
    | inl e => Ok (inl (if negb (bool_decide (o = Over)) && bool_decide (type_of v1 = et_symbol) then ERR_BADEXPR else e))
    | inr v2 => apply_op o v1 v2
    end).

(** A minus sign.  It has no effect on an int. *)
Definition negate (v : eval_value_t) : result :=
  match v with
  | as_int i => inr (as_int i)
  | as_uint u => inr (as_uint ((- u) mod 2 ^ 32))
  | as_float f => inr (as_float (fneg_S f))
  | as_double d => inr (as_double (fneg_D d))
  | as_symbol _ => inl ERR_BADEXPR
  end.

(** A literal is the int of its value if a long can hold it, else the unsigned
    int if an unsigned long can, else a double; both are cut to 32 bits. *)
Definition literal (s : list Z) : result :=
  let decimal := match strtod s with Some d => inr (as_double d) | None => inl ERR_BADCONST end in
  match strto_base0 s with
  | Some (v, []) =>
      if v <? 2 ^ (long_bits - 1) then inr (as_int (s32 v))
      else if v <? 2 ^ long_bits then inr (as_uint (v mod 2 ^ 32))
      else decimal
  | _ => decimal
  end.

(** The meaning of a tree, where [env] gives the meaning of the identifiers. *)
Section Trees.
Variable env : list Z -> outcome result.

Fixpoint val_fac (f : fac) : outcome result :=
  match f with
  | F_const _ s => Ok (literal s)
  | F_ident _ s => env s
  | F_neg _ f => and_then (val_fac f) (fun v => Ok (negate v))
  | F_paren _ e _ => val_exp e
  end
with val_trm (t : trm) : outcome result :=
  match t with
  | T_fac f => val_fac f
  | T_mult f _ t => operation Times (val_fac f) (val_trm t)
  | T_div f _ t => operation Over (val_fac f) (val_trm t)
  end
with val_exp (e : exp) : outcome result :=
  match e with
  | E_trm t => val_trm t
  | E_add t _ e => operation Plus (val_trm t) (val_exp e)
  | E_sub t _ e => operation Minus (val_trm t) (val_exp e)
  end.
End Trees.

End Meaning.

(** One step of the meaning of a tree. *)
Ltac val_step :=
  match goal with
  | |- context [val_fac ?f (F_neg ?w ?t)] => change (val_fac f (F_neg w t)) with (and_then (val_fac f t) (fun v => Ok (negate v)))
  | |- context [val_fac ?f (F_ident ?w ?s)] => change (val_fac f (F_ident w s)) with (f s)
  | |- context [val_fac ?f (F_const ?w ?s)] => change (val_fac f (F_const w s)) with (Ok (literal s))
  | |- context [val_fac ?f (F_paren ?w ?e ?w')] => change (val_fac f (F_paren w e w')) with (val_exp f e)
  | |- context [val_trm ?f (T_fac ?t)] => change (val_trm f (T_fac t)) with (val_fac f t)
  | |- context [val_trm ?f (T_mult ?a ?w ?t)] => change (val_trm f (T_mult a w t)) with (operation Times (val_fac f a) (val_trm f t))
  | |- context [val_trm ?f (T_div ?a ?w ?t)] => change (val_trm f (T_div a w t)) with (operation Over (val_fac f a) (val_trm f t))
  | |- context [val_exp ?f (E_trm ?t)] => change (val_exp f (E_trm t)) with (val_trm f t)
  | |- context [val_exp ?f (E_add ?a ?w ?e)] => change (val_exp f (E_add a w e)) with (operation Plus (val_trm f a) (val_exp f e))
  | |- context [val_exp ?f (E_sub ?a ?w ?e)] => change (val_exp f (E_sub a w e)) with (operation Minus (val_trm f a) (val_exp f e))
  end.

(** One step of the denotation. *)
Ltac den_step :=
  match goal with
  | |- context [den_fac ?f (F_neg ?w ?t)] =>
      change (den_fac f (F_neg w t)) with (and_then (den_fac f t) (fun v => Ok (settle (f_neg v ERR_NOERR))))
  | |- context [den_fac ?f (F_const ?w ?s)] => change (den_fac f (F_const w s)) with (Ok (den_const s))
  | |- context [den_fac ?f (F_ident ?w ?s)] => change (den_fac f (F_ident w s)) with (r ← f s ERR_NOERR; Ok (settle r))
  | |- context [den_fac ?f (F_paren ?w ?e ?w')] => change (den_fac f (F_paren w e w')) with (den_exp f e)
  | |- context [den_trm ?f (T_fac ?t)] => change (den_trm f (T_fac t)) with (den_fac f t)
  | |- context [den_trm ?f (T_mult ?a ?w ?t)] => change (den_trm f (T_mult a w t)) with (den_op f_mult (den_fac f a) (den_trm f t))
  | |- context [den_trm ?f (T_div ?a ?w ?t)] => change (den_trm f (T_div a w t)) with (den_div (den_fac f a) (den_trm f t))
  | |- context [den_exp ?f (E_trm ?t)] => change (den_exp f (E_trm t)) with (den_trm f t)
  | |- context [den_exp ?f (E_add ?a ?w ?e)] => change (den_exp f (E_add a w e)) with (den_op f_add (den_trm f a) (den_exp f e))
  | |- context [den_exp ?f (E_sub ?a ?w ?e)] => change (den_exp f (E_sub a w e)) with (den_op f_sub (den_trm f a) (den_exp f e))
  end.

(** * The denotation is the meaning *)

Section Bridge.
Context {fp : HostFP} {eh : EvalHost}.

Lemma f_arith_means (o : operator) (v1 v2 : eval_value_t) :
  (r ← f_arith (double_op o) (float_op o) (uint_op o) (int_op o) v1 v2 ERR_NOERR; Ok (settle r))
  = match arith_type (type_of v1) (type_of v2) with
    | None => Ok (inl ERR_BADEXPR)
    | Some t => v ← compute o (convert t v1) (convert t v2); Ok (inr v)
    end.
Proof.
  destruct o, v1, v2; try reflexivity; cbv -[Z.quot Z.div Z.eqb Z.modulo Z.pow Z.opp];
    repeat match goal with |- context [Z.eqb ?a ?b] => destruct (Z.eqb a b) end; reflexivity.
Qed.

Lemma div_means (v1 v2 : eval_value_t) :
  (if is_zero v2 then Ok (inl ERR_DIV0) else r ← f_div v1 v2 ERR_NOERR; Ok (settle r)) = apply_op Over v1 v2.
Proof.
  unfold apply_op. assert (is_zero v2 = zero_value v2) as -> by (by destruct v2).
  destruct (zero_value v2); [done|]. apply (f_arith_means Over).
Qed.

Lemma literal_means (s : list Z) : den_const s = literal s.
Proof.
  unfold den_const, constant, literal, strto_below. cbn [tok_buf eval_new set_field].
  destruct (strto_base0 s) as [[v [|c r]]|]; [|by destruct (strtod s)..].
  destruct (v <? _); [done|]. destruct (v <? _); [done|]. by destruct (strtod s).
Qed.

Lemma negate_means (v : eval_value_t) : settle (f_neg v ERR_NOERR) = negate v.
Proof. by destruct v. Qed.

Section Identifiers.
Variable f_eval_ident : list Z -> eval_err_t -> outcome (eval_value_t * eval_err_t).

(** The meaning that the callback gives to the identifiers. *)
Definition callback_env (s : list Z) : outcome result := r ← f_eval_ident s ERR_NOERR; Ok (settle r).

Lemma operation_means (o : operator) (f : eval_value_t -> eval_value_t -> eval_err_t -> outcome (eval_value_t * eval_err_t)) (d1 d2 : outcome result) :
  o <> Over -> (forall v1 v2, (r ← f v1 v2 ERR_NOERR; Ok (settle r)) = apply_op o v1 v2) -> den_op f d1 d2 = operation o d1 d2.
Proof.
  intros Ho Hf. unfold den_op, operation, and_then. destruct d1 as [[e|v]| | | | | |]; try reflexivity.
  destruct d2 as [[e|v2]| | | | | |]; try reflexivity; cbn; [|apply Hf].
  rewrite bool_decide_eq_false_2 by done. reflexivity.
Qed.

Lemma division_means (d1 d2 : outcome result) : den_div d1 d2 = operation Over d1 d2.
Proof.
  unfold den_div, operation, and_then. destruct d1 as [[e|v]| | | | | |]; try reflexivity.
  destruct d2 as [[e|v2]| | | | | |]; try reflexivity. apply div_means.
Qed.

Lemma den_means :
  (forall f, den_fac f_eval_ident f = val_fac callback_env f)
  /\ (forall t, den_trm f_eval_ident t = val_trm callback_env t)
  /\ (forall e, den_exp f_eval_ident e = val_exp callback_env e).
Proof.
  apply tree_ind; intros; repeat val_step; repeat den_step;
    repeat match goal with H : _ = _ |- _ => rewrite <- H; clear H end; try reflexivity.
  - by rewrite literal_means.
  - unfold and_then. destruct (den_fac _ _) as [[e|v]| | | | | |]; try reflexivity. cbn. by rewrite negate_means.
  - apply operation_means; [done|apply (f_arith_means Times)].
  - apply division_means.
  - apply operation_means; [done|apply (f_arith_means Plus)].
  - apply operation_means; [done|apply (f_arith_means Minus)].
Qed.
End Identifiers.

End Bridge.
