(* ===== verification/EvalTotal.v ===== *)
(** The evaluator of eval.c ends on every string: the recursion consumes tokens,
    and no operation is applied to a type it cannot handle. *)

From S2P Require Import Prelude Misc Exec Eval EvalSpec EvalDen.

(** * Every string of ASCII characters has tokens *)

Definition ascii (c : Z) : Prop := 0 <= c < 128.

Lemma tok_map_total (c : Z) : ascii c -> exists t, tok_map c = Ok t.
Proof.
  intros [H0 H1]. unfold tok_map. assert ((c <? 0) || (128 <=? c) = false) as -> by blia.
  repeat (destruct (_ : bool); [eauto|]). eauto.
Qed.

Lemma skip_whitespace_total (s : list Z) : Forall ascii s -> exists s', skip_whitespace s = Ok s' /\ s' `suffix_of` s.
Proof.
  induction 1 as [|c s Hc Hs (s' & IH & Hsuf)]; cbn; [eauto|]. destruct (tok_map_total c Hc) as [t ->]. cbn.
  destruct (bool_decide _); [|eauto]. exists s'. split; [done|]. by apply suffix_cons_r.
Qed.

(** The scans take a prefix of the string into the buffer. *)
Definition scans (buf s : list Z) (m : outcome (list Z * list Z)) : Prop :=
  exists buf' s', m = Ok (buf', s') /\ s' `suffix_of` s /\ (length buf' + length s' = length buf + length s)%nat.

Lemma scans_here (buf s : list Z) : scans buf s (Ok (buf, s)).
Proof. exists buf, s. done. Qed.

Lemma scans_next (buf : list Z) (c : Z) (s : list Z) (m : outcome (list Z * list Z)) :
  scans (buf ++ [c]) s m -> scans buf (c :: s) m.
Proof.
  intros (buf' & s' & -> & Hs & Hl). exists buf', s'. split; [done|]. split; [by apply suffix_cons_r|].
  rewrite length_app in Hl. cbn in *. lia.
Qed.

Lemma scan_ident_total (s buf : list Z) : Forall ascii s -> scans buf s (scan_ident s buf).
Proof.
  intros H. revert buf. induction H as [|c s Hc Hs IH]; intros buf; cbn [scan_ident]; [apply scans_here|].
  destruct (tok_map_total c Hc) as [t ->]. cbn [mbind outcome_bind].
  destruct (_ || _); [apply scans_next, IH|apply scans_here].
Qed.

Lemma scan_const_total (s buf : list Z) (lc : Z) (hex : bool) : Forall ascii s -> scans buf s (scan_const s buf lc hex).
Proof.
  intros H. revert buf lc hex. induction H as [|c s Hc Hs IH]; intros buf lc hex; cbn [scan_const]; [apply scans_here|].
  destruct (tok_map_total c Hc) as [t ->]. cbn [mbind outcome_bind].
  destruct (const_char _ _ _ _); [apply scans_next, IH|apply scans_here].
Qed.

Lemma scan_token_total (s : list Z) : Forall ascii s -> (length s < 512)%nat ->
  exists tok buf p, scan_token s = Ok (tok, buf, p) /\ p `suffix_of` s
    /\ (tok <> tok_eof -> (length p < length s)%nat).
Proof.
  intros Hs Hl. destruct (skip_whitespace_total s Hs) as (s' & Hskip & Hsuf). unfold scan_token. rewrite Hskip.
  cbn [mbind outcome_bind]. pose proof (suffix_length _ _ Hsuf). destruct s' as [|c s']; [by exists tok_eof, [], []; split_and!; try done; apply suffix_nil|].
  assert (Forall ascii (c :: s')) as [Hc Hs']%Forall_cons by (destruct Hsuf as [k ->]; by apply Forall_app in Hs as [_ Hs]).
  assert (s' `suffix_of` s) as Hsuf' by (etrans; [|exact Hsuf]; by apply suffix_cons_r).
  destruct (tok_map_total c Hc) as [t Ht]. rewrite Ht. cbn [mbind outcome_bind].
  assert (scans [c] s' match t with tok_ident => scan_ident s' [c] | tok_const => scan_const s' [c] 0 false | _ => Ok ([c], s') end)
    as (buf & p & -> & Hp & Hlen) by (destruct t; auto using scans_here, scan_ident_total, scan_const_total).
  cbn [mbind outcome_bind]. cbn [length] in *. pose proof (suffix_length _ _ Hp). rewrite (proj2 (Nat.ltb_lt _ _)) by lia.
  eexists _, buf, p. split; [reflexivity|]. split; [by etrans|]. intros _. lia.
Qed.

(** * Values *)

(** An int or unsigned int that fits in 32 bits. *)
Definition machine_value (v : eval_value_t) : Prop :=
  match v with as_int z => - 2 ^ 31 <= z < 2 ^ 31 | as_uint z => 0 <= z < 2 ^ 32 | _ => True end.

(** The value of an expression that failed is [err_value]. *)
Definition settled (v : eval_value_t) (e : eval_err_t) : Prop := e = ERR_NOERR \/ v = err_value.

Lemma machine_err_value : machine_value err_value.
Proof. cbn. lia. Qed.

Lemma machine_s32 (z : Z) : machine_value (as_int (s32 z)).
Proof. apply s32_range. Qed.

Lemma machine_u32 (z : Z) : machine_value (as_uint (u32 z)).
Proof. apply u32_range. Qed.

#[local] Hint Resolve machine_err_value machine_s32 machine_u32 : core.

Lemma quot_range (a b : Z) : - 2 ^ 31 <= a < 2 ^ 31 -> b <> 0 -> ~ (a = - 2 ^ 31 /\ b = -1) -> - 2 ^ 31 <= Z.quot a b < 2 ^ 31.
Proof.
  intros Ha Hb Hm. pose proof (Z.quot_abs a b Hb) as Habs. pose proof (Z.abs_nonneg (Z.quot a b)).
  assert (Z.quot (Z.abs a) (Z.abs b) * Z.abs b <= Z.abs a) as Hle by (rewrite Z.mul_comm; apply Z.mul_quot_le; lia).
  assert (Z.abs b = 1 \/ 2 <= Z.abs b) as [Hb1|Hb2] by lia.
  - rewrite Hb1, Z.quot_1_r in Habs. assert (b = 1 \/ b = -1) as [->| ->] by lia; [rewrite Z.quot_1_r; lia|].
    assert (Z.quot a (-1) = - a) as -> by (change (-1) with (Z.opp 1); rewrite Z.quot_opp_r, Z.quot_1_r by lia; done). lia.
  - nia.
Qed.

Lemma machine_quotient (a b : Z) : 0 <= a < 2 ^ 32 -> 0 <= b -> machine_value (as_uint (a / b)).
Proof.
  intros Ha Hb. destruct (decide (b = 0)) as [->|Hn]; [rewrite Z.div_0_r; cbn; lia|]. cbn.
  split; [apply Z.div_pos; lia|]. apply (Z.le_lt_trans _ a); [apply Z.div_le_upper_bound; nia|lia].
Qed.

(** Addition, subtraction and multiplication always have a value. *)
Lemma machine_op {fp : HostFP} {eh : EvalHost} (opD opS : Z -> Z -> Z) (fU fI : Z -> Z -> Z) (v1 v2 : eval_value_t) (e : eval_err_t) :
  exists v e', f_arith opD opS (fun a b => Ok (u32 (fU a b))) (fun a b => Ok (s32 (fI a b))) v1 v2 e = Ok (v, e') /\ machine_value v.
Proof. destruct v1, v2; eexists _, _; (split; [reflexivity|]); auto; exact I. Qed.

Lemma machine_neg {fp : HostFP} {eh : EvalHost} (v : eval_value_t) :
  machine_value v -> machine_value (f_neg v ERR_NOERR).1 /\ settled (f_neg v ERR_NOERR).1 (f_neg v ERR_NOERR).2.
Proof. intros H. destruct v; cbn -[u32 machine_value]; unfold settled; auto. Qed.

Lemma machine_constant {fp : HostFP} {eh : EvalHost} (es : eval_state_t) : machine_value (constant es).1.
Proof. unfold constant. destruct (strto_below _ _); [|destruct (strto_below _ _); [|destruct (strtod _)]]; cbn -[s32 u32 machine_value]; auto; exact I. Qed.

(** What dividing by [v2] does, once it was compared with zero. *)
Definition f_div_checked {fp : HostFP} {eh : EvalHost} (v1 v2 : eval_value_t) : outcome (eval_value_t * eval_err_t) :=
  let '(zero, e) := f_eq_zero v2 ERR_NOERR in
  if (zero : bool) then Ok (err_value, ERR_DIV0) else f_div v1 v2 e.

Lemma machine_div {fp : HostFP} {eh : EvalHost} (v1 v2 : eval_value_t) : machine_value v1 -> machine_value v2 ->
  match f_div_checked v1 v2 with
  | Ok (v, e) => machine_value v /\ settled v e
  | Undef => v1 = as_int (- 2 ^ 31) /\ v2 = as_int (-1)
  | _ => False
  end.
Proof.
  unfold f_div_checked, settled. intros H1 H2.
  destruct v1 as [a|a|a|a|a], v2 as [b|b|b|b|b]; cbn in H1, H2; cbv -[Z.quot Z.div u32 s32 Z.eqb machine_value Z.opp Z.pow c_div err_value];
    try match goal with |- context [if ?c then Ok (err_value, ERR_DIV0) else _] => destruct c eqn:Hz; [by auto|] end; try (by auto).
  - apply Z.eqb_neq in Hz. unfold c_div. rewrite (proj2 (Z.eqb_neq b 0) Hz). cbn [orb].
    destruct ((a =? _) && _) eqn:Hm; [bool_to_prop; by subst|]. split; [|by left]. apply quot_range; [done..|].
    intros [-> ->]. discriminate Hm.
  - split; [|by left]. apply machine_quotient; [apply u32_range|tauto].
  - apply Z.eqb_neq in Hz. rewrite (proj2 (Z.eqb_neq _ _) (u32_nonzero b H2 Hz)).
    split; [|by left]. apply machine_quotient; [done|apply u32_range].
  - split; [|by left]. apply machine_quotient; [done|tauto].
Qed.

(** * Every evaluation ends *)

Section Total.
Context {fp : HostFP} {eh : EvalHost}.
Variable f_eval_ident : list Z -> eval_err_t -> outcome (eval_value_t * eval_err_t).
Hypothesis Hident : forall s e, exists v e', f_eval_ident s e = Ok (v, e') /\ machine_value v.
Variable s0 : list Z.
Hypothesis Hascii : Forall ascii s0.
Hypothesis Hlen : (length s0 < 512)%nat.

(** At a suffix of the string, at most [n] characters long. *)
Definition within (n : nat) (es : eval_state_t) : Prop :=
  exists s, at_input es s /\ s `suffix_of` s0 /\ (length s <= n)%nat.

(** Somewhere in the string a factor of the value INT_MIN is followed by a [/]
    and a term of the value -1. *)
Definition divides_min : Prop :=
  exists fuel n es es1 es2 es3 es4,
    within n es /\ factor f_eval_ident fuel es = Ok (as_int (- 2 ^ 31), es1)
    /\ peek_next_token es1 = Ok (tok_div, es2) /\ get_next_token es2 = Ok (tok_div, es3)
    /\ term f_eval_ident fuel es3 = Ok (as_int (-1), es4).

(** The evaluation ends within [n] characters of the end, with a value or an
    error.  Only the division INT_MIN / -1 is undefined. *)
Definition ends (n : nat) (m : outcome (eval_value_t * eval_state_t)) : Prop :=
  match m with
  | Ok (v, es) => within n es /\ machine_value v /\ settled v (eval_error es)
  | Undef => divides_min
  | _ => False
  end.

Lemma within_le (n n' : nat) (es : eval_state_t) : (n <= n')%nat -> within n es -> within n' es.
Proof. intros Hn (s & Hat & Hs & Hl). exists s. split_and!; [done..|lia]. Qed.

Lemma ends_value (n : nat) (v : eval_value_t) (es : eval_state_t) :
  within n es -> machine_value v -> settled v (eval_error es) -> ends n (Ok (v, es)).
Proof. done. Qed.

Lemma ends_error (n : nat) (es : eval_state_t) (e : eval_err_t) : within n es -> ends n (Ok (err_value, set_error e es)).
Proof. intros Hw. split_and!; [done|auto|by right]. Qed.

Lemma ends_bind (n n' : nat) (m : outcome (eval_value_t * eval_state_t)) (k : eval_value_t -> eval_state_t -> outcome (eval_value_t * eval_state_t)) :
  ends n m -> (n <= n')%nat ->
  (forall v es, m = Ok (v, es) -> within n' es -> machine_value v -> settled v (eval_error es) -> ends n' (k v es)) ->
  ends n' ('(v, es) ← m; k v es).
Proof. destruct m as [[v es]| | | | | |]; cbn; try done. intros (Hw & Hv & Hs) Hn Hk. apply Hk; eauto using within_le. Qed.

Lemma ends_unless (n : nat) (es : eval_state_t) (m : outcome (eval_value_t * eval_state_t)) :
  within n es -> (eval_error es = ERR_NOERR -> ends n m) -> ends n (unless_error es m).
Proof.
  intros Hw Hm. unfold unless_error, erred. destruct (decide (eval_error es = ERR_NOERR)) as [He|He].
  - rewrite bool_decide_eq_true_2 by done. by apply Hm.
  - rewrite bool_decide_eq_false_2 by done. split_and!; [done|auto|by right].
Qed.

(** An operation whose error is looked at. *)
Lemma ends_op (n : nat) (es : eval_state_t) (f : eval_err_t -> outcome (eval_value_t * eval_err_t)) :
  within n es -> (forall e, exists v e', f e = Ok (v, e') /\ machine_value v) ->
  ends n ('(val, es) ← on_error f es; unless_error es (Ok (val, es))).
Proof.
  intros Hw Hf. unfold on_error. destruct (Hf (eval_error es)) as (v & e & -> & Hv). cbn [mbind outcome_bind].
  apply ends_unless; [done|]. intros He. apply ends_value; [done..|by left].
Qed.

(** One that ends the evaluation, after no error. *)
Lemma ends_last_op (n : nat) (es : eval_state_t) (v : eval_value_t) (e : eval_err_t) :
  within n es -> machine_value v -> settled v e -> ends n (Ok (v, set_error e es)).
Proof. intros Hw Hv He. by apply ends_value. Qed.

(** What the next token is, and that consuming it makes progress. *)
Lemma peek_within (n : nat) (es : eval_state_t) : within n es ->
  exists tok es1, peek_next_token es = Ok (tok, es1) /\ within n es1 /\ eval_error es1 = eval_error es
    /\ (tok <> tok_invalid -> tok <> tok_eof -> (1 <= n)%nat /\ exists es2, get_next_token es1 = Ok (tok, es2) /\ within (n - 1) es2 /\ eval_error es2 = eval_error es).
Proof.
  intros (s & Hat & Hs & Hl). pose proof (suffix_length _ _ Hs).
  assert (Forall ascii s) as Ha by (destruct Hs as [k ->]; by apply Forall_app in Hascii as [_ ?]).
  destruct (scan_token_total s Ha ltac:(lia)) as (tok & buf & p & Hscan & Hp & Hlt).
  destruct (peek_at _ _ _ _ _ Hat Hscan) as (es1 & Hpeek & He1 & Hes1). exists tok, es1. split; [done|].
  split; [|split; [done|]].
  - destruct Hes1 as [[_ H1]|[H1 _]]; [|by exists s]. exists p. split; [done|]. split; [by etrans|].
    pose proof (suffix_length _ _ Hp). lia.
  - intros Hi He. specialize (Hlt He). split; [lia|]. destruct Hes1 as [[? _]|Hpk]; [done|].
    destruct (get_at _ _ _ _ _ Hpk Hscan) as (es2 & Hg & He2 & Hat2 & _). exists es2. split; [done|].
    split; [|congruence]. exists p. split; [done|]. split; [by etrans|lia].
Qed.

(** One level of the recursion. *)
Definition all_end (fuel : nat) : Prop := forall n es, within n es ->
  ((3 * n + 1 <= fuel)%nat -> ends n (factor f_eval_ident fuel es))
  /\ ((3 * n + 2 <= fuel)%nat -> ends n (term f_eval_ident fuel es))
  /\ ((3 * n + 3 <= fuel)%nat -> ends n (expr f_eval_ident fuel es)).

Lemma factor_ends (fuel n : nat) (es : eval_state_t) : all_end fuel -> within n es -> (3 * n + 1 <= S fuel)%nat ->
  ends n (factor f_eval_ident (S fuel) es).
Proof.
  intros IH Hw Hf. cbn [factor]. destruct (peek_within n es Hw) as (tok & es1 & Hpeek & Hw1 & _ & Hget).
  rewrite Hpeek. cbn [mbind outcome_bind].
  destruct tok; try exact (ends_error n es1 ERR_NOTERM Hw1);
    destruct (Hget ltac:(done) ltac:(done)) as (Hn & es2 & Hg & Hw2 & _); rewrite Hg; cbn [mbind outcome_bind];
    pose proof (within_le (n - 1) n _ ltac:(lia) Hw2) as Hw2'.
  - apply ends_op; auto.
  - assert (within n (constant es2).2) as Hc
      by (unfold constant; destruct (strto_below _ _); [|destruct (strto_below _ _); [|destruct (strtod _)]]; done).
    pose proof (machine_constant es2) as Hv. destruct (constant es2) as [v es3]. apply ends_unless; [done|].
    intros He. apply ends_value; [done..|by left].
  - apply (ends_bind (n - 1)); [apply IH; [done|lia]|lia|]. intros v es3 _ Hw3 Hv _. apply ends_unless; [done|].
    intros He. unfold on_error. rewrite He. destruct (machine_neg v Hv). destruct (f_neg v ERR_NOERR). by apply ends_last_op.
  - apply (ends_bind (n - 1)); [apply IH; [done|lia]|lia|]. intros v es3 _ Hw3 Hv Hs. apply ends_unless; [done|].
    intros He. destruct (peek_within n es3 Hw3) as (tok & es4 & Hp4 & Hw4 & He4 & Hget4).
    rewrite Hp4. cbn [mbind outcome_bind]. destruct (decide (tok = tok_cparen)) as [->|Ht].
    + destruct (Hget4 ltac:(done) ltac:(done)) as (_ & es5 & Hg5 & Hw5 & He5). cbn -[get_next_token ends]. rewrite Hg5. cbn -[ends].
      apply ends_value; [by apply (within_le (n - 1)); [lia|]|done|].
      left. congruence.
    + rewrite bool_decide_eq_false_2 by done. by apply ends_error.
Qed.

(** An operator, if there is one, after an operand. *)
Lemma operator_ends (n : nat) (es : eval_state_t) (v : eval_value_t)
    (k : eval_token_t -> eval_state_t -> outcome (eval_value_t * eval_state_t)) :
  within n es -> machine_value v ->
  (forall tok es1, (tok <> tok_invalid -> tok <> tok_eof ->
      exists es2, (1 <= n)%nat /\ peek_next_token es = Ok (tok, es1) /\ get_next_token es1 = Ok (tok, es2) /\ within (n - 1) es2) ->
    ends n (Ok (v, es1)) -> ends n (k tok es1)) ->
  ends n (unless_error es ('(tok, es) ← peek_next_token es; k tok es)).
Proof.
  intros Hw Hv Hk. apply ends_unless; [done|]. intros He.
  destruct (peek_within n es Hw) as (tok & es1 & Hp & Hw1 & He1 & Hget). rewrite Hp.
  cbn [mbind outcome_bind]. apply Hk; [|apply ends_value; [done..|left; congruence]].
  intros H1 H2. destruct (Hget H1 H2) as (Hn & es2 & Hg & Hw2 & _). eauto.
Qed.

(** The right operand of a division. *)
Lemma divisor_ends (n : nat) (es : eval_state_t) (v v1 : eval_value_t) :
  within n es -> eval_error es = ERR_NOERR -> machine_value v -> machine_value v1 ->
  (v = as_int (- 2 ^ 31) -> v1 = as_int (-1) -> divides_min) ->
  ends n (let '(zero, e) := f_eq_zero v1 (eval_error es) in
          let es := set_error e es in
          if (zero : bool) then Ok (err_value, set_error ERR_DIV0 es) else on_error (f_div v v1) es).
Proof.
  intros Hw He Hv Hv1 Hmin. rewrite He. pose proof (machine_div v v1 Hv Hv1) as Hd. unfold f_div_checked in Hd.
  destruct (f_eq_zero v1 ERR_NOERR) as [[] e]; [by apply ends_error|]. unfold on_error. cbn [eval_error set_error set_field].
  change (eval_error (set_error e es)) with e.
  destruct (f_div v v1 e) as [[v' e']| | | | | |]; cbn -[ends]; try done.
  exact (Hmin (proj1 Hd) (proj2 Hd)).
Qed.

Lemma term_ends (fuel n : nat) (es : eval_state_t) : all_end fuel -> within n es -> (3 * n + 2 <= S fuel)%nat ->
  ends n (term f_eval_ident (S fuel) es).
Proof.
  intros IH Hw Hf. cbn [term]. apply (ends_bind n); [apply IH; [done|lia]|lia|]. intros v es1 Hm1 Hw1 Hv _.
  apply (operator_ends n es1 v (fun tok es => _)); [done..|]. intros tok es2 Hget Hlast. cbn beta.
  destruct tok; try exact Hlast; destruct (Hget ltac:(done) ltac:(done)) as (es3 & Hn & Hp & Hg & Hw3); rewrite Hg; cbn [mbind outcome_bind];
    (apply (ends_bind (n - 1)); [apply IH; [done|lia]|lia|]); intros v1 es4 Hm4 Hw4 Hv1 _.
  - apply ends_op; [done|]. intros e. apply machine_op.
  - apply ends_unless; [done|]. intros He. apply divisor_ends; [done..|]. intros -> ->.
    exists fuel, n, es, es1, es2, es3, es4. done.
Qed.

Lemma expr_ends (fuel n : nat) (es : eval_state_t) : all_end fuel -> within n es -> (3 * n + 3 <= S fuel)%nat ->
  ends n (expr f_eval_ident (S fuel) es).
Proof.
  intros IH Hw Hf. cbn [expr]. apply (ends_bind n); [apply IH; [done|lia]|lia|]. intros v es1 _ Hw1 Hv _.
  apply (operator_ends n es1 v (fun tok es => _)); [done..|]. intros tok es2 Hget Hlast. cbn beta.
  destruct tok; try exact Hlast; destruct (Hget ltac:(done) ltac:(done)) as (es3 & Hn & _ & Hg & Hw3); rewrite Hg; cbn [mbind outcome_bind];
    (apply (ends_bind (n - 1)); [apply IH; [done|lia]|lia|]); intros v1 es4 _ Hw4 Hv1 _;
    (apply ends_op; [done|]); intros e; apply machine_op.
Qed.

Lemma evaluation_ends (fuel : nat) : all_end fuel.
Proof.
  induction fuel as [|fuel IH]; intros n es Hw; [split_and!; lia|].
  auto using factor_ends, term_ends, expr_ends.
Qed.

End Total.
