(* ===== verification/EvalProps.v ===== *)
(** The properties of the expression evaluator of eval.c: it computes what its
    input denotes, with the type the conversions give, and ends on every input. *)

From S2P Require Import Prelude Misc Exec Eval EvalSpec EvalDen EvalMeaning EvalTotal FunsimProps.

(** * The types of expressions *)

Definition binary_type (o1 o2 : option eval_type_t) : option eval_type_t :=
  match o1, o2 with Some t1, Some t2 => arith_type t1 t2 | _, _ => None end.

Section Types.
Context {fp : HostFP} {eh : EvalHost}.
Variable ident_type : list Z -> eval_type_t.

(** A literal has the first type that can represent it. *)
Definition const_type (s : list Z) : eval_type_t :=
  if bool_decide (is_Some (strto_below (2 ^ (long_bits - 1)) s)) then et_int
  else if bool_decide (is_Some (strto_below (2 ^ long_bits) s)) then et_uint
  else et_double.

(** The type of a tree, if no symbol is an operand in it. *)
Fixpoint type_fac (f : fac) : option eval_type_t :=
  match f with
  | F_const _ s => Some (const_type s)
  | F_ident _ s => Some (ident_type s)
  | F_neg _ f => match type_fac f with Some t => if bool_decide (t = et_symbol) then None else Some t | None => None end
  | F_paren _ e _ => type_exp e
  end
with type_trm (t : trm) : option eval_type_t :=
  match t with
  | T_fac f => type_fac f
  | T_mult f _ t | T_div f _ t => binary_type (type_fac f) (type_trm t)
  end
with type_exp (e : exp) : option eval_type_t :=
  match e with
  | E_trm t => type_trm t
  | E_add t _ e | E_sub t _ e => binary_type (type_trm t) (type_exp e)
  end.

Variable f_eval_ident : list Z -> eval_err_t -> outcome (eval_value_t * eval_err_t).
Hypothesis Hident : forall s v e, f_eval_ident s ERR_NOERR = Ok (v, e) ->
  (e = ERR_NOERR -> type_of v = ident_type s) /\ e <> ERR_BADEXPR.

(** A denotation of the type [t], or of no type. *)
Definition typed (d : outcome result) (t : option eval_type_t) : Prop :=
  match d with
  | Ok (inr v) => t = Some (type_of v)
  | Ok (inl e) => e = ERR_BADEXPR -> t = None
  | _ => True
  end.

Lemma arith_type_ok (opD opS : Z -> Z -> Z) (opU opI : Z -> Z -> outcome Z) (v1 v2 : eval_value_t) :
  typed (r ← f_arith opD opS opU opI v1 v2 ERR_NOERR; Ok (settle r)) (arith_type (type_of v1) (type_of v2)).
Proof.
  unfold f_arith. destruct v1, v2; cbn; try done;
    try destruct (opU _ _); try destruct (opI _ _); done.
Qed.

Lemma typed_op (opD opS : Z -> Z -> Z) (opU opI : Z -> Z -> outcome Z) (d1 d2 : outcome result) (t1 t2 : option eval_type_t) :
  typed d1 t1 -> typed d2 t2 -> typed (den_op (f_arith opD opS opU opI) d1 d2) (binary_type t1 t2).
Proof.
  intros H1 H2. destruct d1 as [[e1|v1]| | | | | |]; cbn in H1; try done; [intros He; by rewrite H1|subst t1].
  destruct d2 as [[e2|v2]| | | | | |]; cbn in H2; try done.
  - cbn -[is_symbol]. destruct (is_symbol v1) eqn:Hs.
    + intros _. destruct v1; try discriminate Hs. by destruct t2.
    + intros He. by rewrite H2.
  - subst t2. apply arith_type_ok.
Qed.

Lemma typed_div (d1 d2 : outcome result) (t1 t2 : option eval_type_t) :
  typed d1 t1 -> typed d2 t2 -> typed (den_div d1 d2) (binary_type t1 t2).
Proof.
  intros H1 H2. destruct d1 as [[e1|v1]| | | | | |]; cbn in H1; try done; [intros He; by rewrite H1|subst t1].
  destruct d2 as [[e2|v2]| | | | | |]; cbn in H2; try done; [intros He; cbn; by rewrite H2|]. subst t2.
  cbn -[is_zero f_div]. destruct (is_zero v2); [done|]. apply arith_type_ok.
Qed.

Lemma typed_const (s : list Z) : typed (Ok (den_const s)) (Some (const_type s)).
Proof.
  unfold den_const, constant, const_type. cbn [tok_buf eval_new set_field].
  destruct (strto_below (2 ^ (long_bits - 1)) s); [done|]. destruct (strto_below (2 ^ long_bits) s); [done|].
  by destruct (strtod s).
Qed.

Lemma den_typed :
  (forall f, typed (den_fac f_eval_ident f) (type_fac f))
  /\ (forall t, typed (den_trm f_eval_ident t) (type_trm t))
  /\ (forall e, typed (den_exp f_eval_ident e) (type_exp e)).
Proof.
  apply tree_ind; try done; try (intros; by apply typed_op); try (intros; by apply typed_div).
  - intros w s. apply typed_const.
  - intros w s. change (typed (r ← f_eval_ident s ERR_NOERR; Ok (settle r)) (Some (ident_type s))).
    destruct (f_eval_ident s ERR_NOERR) as [[v e]| | | | | |] eqn:E; try done. destruct (Hident _ _ _ E) as [Hv Hb].
    cbn [mbind outcome_bind]. destruct (decide (e = ERR_NOERR)) as [->|Hne]; [by rewrite <- Hv|].
    rewrite settle_error by done. by intros He.
  - intros w f IH. change (typed (and_then (den_fac f_eval_ident f) (fun v => Ok (settle (f_neg v ERR_NOERR))))
      match type_fac f with Some t => if bool_decide (t = et_symbol) then None else Some t | None => None end).
    destruct (den_fac f_eval_ident f) as [[e|v]| | | | | |]; cbn in IH; try done; [intros He; by rewrite IH|].
    rewrite IH. by destruct v.
Qed.

End Types.

(** * Properties *)

Section Evaluator.
Context {fp : HostFP} {eh : EvalHost}.

(** C21: Reading the string of any well-formed expression tree (numbers,
    identifiers, a minus sign, parentheses and the four operators, with blanks
    before any token), [eval_expr] gives the meaning of the tree, error or
    value, with [eval_error] accordingly, and [endp] is the text after the tree,
    which may be anything that does not continue the expression.  The meaning is
    given by C's arithmetic: both operands are converted to the type of higher
    rank (int, unsigned int, float, double) and the operator is that of the
    type, operators of one level associating to the right.  A minus sign negates
    unsigned ints, floats and doubles; before an int it has no effect, where the
    comment of [f_neg] has "compute - <val1>". *)
Theorem eval_expr_denotes f_eval_ident fuel es e r :
  wf_exp e = true -> delimited r = true -> starts_with after_exp r = true -> (3 * length (print_exp e) <= fuel)%nat ->
  yields (eval_expr f_eval_ident fuel es (print_exp e ++ r)) (val_exp (callback_env f_eval_ident) e) r.
Proof. rewrite <- (proj2 (proj2 (den_means f_eval_ident)) e). apply eval_expr_yields. Qed.

(** C34: [eval_expr] ends on every ASCII string shorter than the token buffer,
    well-formed or not, with a recursion no deeper than three times its length:
    it gives a suffix of the string as [endp], and a value, which fits in its
    type, or an error, with [err_value].  It never comes to its panics on symbols
    and never divides by zero: all that can be undefined is the division of
    INT_MIN by -1, when a factor of the string has the one value and the term
    after the [/] that follows it the other. *)
Theorem eval_expr_ends f_eval_ident fuel es p :
  (forall s e, exists v e', f_eval_ident s e = Ok (v, e') /\ machine_value v) ->
  Forall ascii p -> (length p < 512)%nat -> (3 * length p + 3 <= fuel)%nat ->
  match eval_expr f_eval_ident fuel es p with
  | Ok (v, es', endp) => endp `suffix_of` p /\ machine_value v /\ (eval_error es' = ERR_NOERR \/ v = err_value)
  | Undef => divides_min f_eval_ident p
  | _ => False
  end.
Proof.
  intros Hid Ha Hl Hf. unfold eval_expr.
  match goal with |- context [expr f_eval_ident fuel ?es0] =>
    assert (ends f_eval_ident p (length p) (expr f_eval_ident fuel es0)) as H
      by (apply (evaluation_ends f_eval_ident Hid p Ha Hl fuel); [exists p; split_and!; [by left|done..]|done]);
    destruct (expr f_eval_ident fuel es0) as [[v es']| | | | | |]
  end; cbn in H; try done.
  destruct H as ((s & Hat & Hs & _) & Hv & He). cbn -[bool_decide machine_value]. by rewrite (endp_at es' s Hat).
Qed.

(** C35: The value of an expression has the type that the usual arithmetic
    conversions give its tree, and an expression ends in ERR_BADEXPR only if the
    tree has no type, for an operand is a symbol. *)
Theorem eval_expr_typed ident_type f_eval_ident fuel es e r v es' p :
  (forall s v e, f_eval_ident s ERR_NOERR = Ok (v, e) -> (e = ERR_NOERR -> type_of v = ident_type s) /\ e <> ERR_BADEXPR) ->
  wf_exp e = true -> delimited r = true -> starts_with after_exp r = true -> (3 * length (print_exp e) <= fuel)%nat ->
  eval_expr f_eval_ident fuel es (print_exp e ++ r) = Ok (v, es', p) ->
  (eval_error es' = ERR_NOERR -> type_exp ident_type e = Some (type_of v))
  /\ (eval_error es' = ERR_BADEXPR -> type_exp ident_type e = None).
Proof.
  intros Hid Hwf Hr Hst Hf Hev. pose proof (proj2 (proj2 (den_typed ident_type f_eval_ident Hid)) e) as Ht.
  pose proof (eval_expr_yields f_eval_ident fuel es e r Hwf Hr Hst Hf) as Hy. rewrite Hev in Hy.
  destruct (den_exp f_eval_ident e) as [[err|v']| | | | | |]; cbn in Hy, Ht; try done.
  - destruct Hy as (es1 & p1 & [= -> -> ->] & <- & Hne). split; [done|auto].
  - destruct Hy as (es1 & [= -> -> ->] & He). split; [done|congruence].
Qed.

End Evaluator.

(** * Examples *)

Module Example.

(** A host with 32-bit longs and no literal that is not an integer; the
    identifier [x] is the unsigned 7, [s] a symbol, others are undefined. *)
#[export] Instance host : EvalHost := {
  long_bits := 32; strtod _ := None; cvt_S_U _ := 0; cvt_D_U _ := 0; cvt_U_S _ := 0; cvt_U_D _ := 0; cvt_D_L _ := 0;
}.

(** The same with 64-bit longs. *)
Definition host64 : EvalHost := {|
  long_bits := 64; strtod _ := None; cvt_S_U _ := 0; cvt_D_U _ := 0; cvt_U_S _ := 0; cvt_U_D _ := 0; cvt_D_L _ := 0;
|}.

Definition idents (s : list Z) (e : eval_err_t) : outcome (eval_value_t * eval_err_t) :=
  match s with
  | [120] => Ok (as_uint 7, e)
  | [115] => Ok (as_symbol s, e)
  | _ => Ok (err_value, ERR_UNDEFVAR)
  end.

Definition ident_type (s : list Z) : eval_type_t :=
  match s with [120] => et_uint | [115] => et_symbol | _ => et_int end.

Definition num (d : Z) : fac := F_const [32] [48 + d].

(** "[ 9 - 4 - 2]": 9 - (4 - 2), and "[ 8 * ( x + 1) / 0x2]". *)
Definition nine_four_two : exp := E_sub (T_fac (num 9)) [32] (E_sub (T_fac (num 4)) [32] (E_trm (T_fac (num 2)))).
Definition mixed : exp :=
  E_trm (T_mult (num 8) [32] (T_div (F_paren [32] (E_add (T_fac (F_ident [32] [120])) [32] (E_trm (T_fac (num 1)))) []) [32]
    (T_fac (F_const [32] [48; 120; 50])))).

Definition value_of (m : outcome (eval_value_t * eval_state_t * list Z)) : option (eval_value_t * eval_err_t * list Z) :=
  match m with Ok (v, es, p) => Some (v, eval_error es, p) | _ => None end.

(** [9 - 4 - 2] is 7. *)
Lemma minus_associates_right : value_of (eval_expr idents 100 eval_new (print_exp nine_four_two)) = Some (as_int 7, ERR_NOERR, []).
Proof. vm_compute. reflexivity. Qed.

(** [-5] is 5. *)
Lemma int_not_negated : value_of (eval_expr idents 100 eval_new [45; 53]) = Some (as_int 5, ERR_NOERR, []).
Proof. vm_compute. reflexivity. Qed.

(** [0x80000000 / 0xffffffff] is undefined where longs have 64 bits: both
    literals are ints there, INT_MIN and -1. *)
Lemma min_divided :
  eval_expr (eh := host64) idents 100 eval_new
    ([48; 120; 56; 48; 48; 48; 48; 48; 48; 48; 47; 48; 120] ++ repeat 102 8) = Undef.
Proof. vm_compute. reflexivity. Qed.

(** [1 / 0] is an error. *)
Lemma one_over_zero : value_of (eval_expr idents 100 eval_new [49; 47; 48]) = Some (err_value, ERR_DIV0, []).
Proof. vm_compute. reflexivity. Qed.

(** [1#+2] is 3: a character that starts no token ends a term but is dropped by
    the look ahead, which takes [tok_invalid] for "nothing peeked". *)
Lemma invalid_character_dropped : value_of (eval_expr idents 100 eval_new [49; 35; 43; 50]) = Some (as_int 3, ERR_NOERR, []).
Proof. vm_compute. reflexivity. Qed.

(** [0xe+1] is one literal, which does not convert. *)
Lemma hex_e_takes_sign : value_of (eval_expr idents 100 eval_new [48; 120; 101; 43; 49]) = Some (err_value, ERR_BADCONST, []).
Proof. vm_compute. reflexivity. Qed.

End Example.

#[local] Existing Instance Example.host.

Lemma eval_expr_denotes_witness :
  wf_exp Example.mixed = true
  /\ yields (eval_expr Example.idents 100 eval_new (print_exp Example.mixed ++ [41])) (val_exp (callback_env Example.idents) Example.mixed) [41]
  /\ val_exp (callback_env Example.idents) Example.mixed = Ok (inr (as_uint 32)).
Proof.
  split; [reflexivity|]. split; [|reflexivity].
  apply (eval_expr_denotes Example.idents 100 eval_new Example.mixed [41]); [reflexivity..|vm_compute; lia].
Defined.

(** [1/0+(8*x] lacks a parenthesis after a division by zero. *)
Lemma eval_expr_ends_witness :
  match eval_expr Example.idents 100 eval_new [49; 47; 48; 43; 40; 56; 42; 120] with
  | Ok (v, es', endp) => endp `suffix_of` [49; 47; 48; 43; 40; 56; 42; 120] /\ machine_value v /\ (eval_error es' = ERR_NOERR \/ v = err_value)
  | Undef => divides_min Example.idents [49; 47; 48; 43; 40; 56; 42; 120]
  | _ => False
  end.
Proof.
  apply (eval_expr_ends Example.idents 100 eval_new [49; 47; 48; 43; 40; 56; 42; 120]).
  - intros s e. unfold Example.idents. repeat case_match; eexists _, _; (split; [reflexivity|]); cbn; lia || exact I.
  - repeat (constructor; [unfold ascii; lia|]). constructor.
  - vm_compute. lia.
  - vm_compute. lia.
Defined.

Lemma eval_expr_typed_witness : exists v es p,
  eval_expr Example.idents 100 eval_new (print_exp Example.mixed) = Ok (v, es, p)
  /\ (eval_error es = ERR_NOERR -> type_exp Example.ident_type Example.mixed = Some (type_of v)).
Proof.
  eexists _, _, _. split; [vm_compute; reflexivity|].
  refine (proj1 (eval_expr_typed Example.ident_type Example.idents 100 eval_new Example.mixed [] _ _ _ _ eq_refl eq_refl eq_refl _ _)).
  - intros s v e. unfold Example.idents, Example.ident_type. repeat case_match; naive_solver.
  - vm_compute. lia.
  - vm_compute. reflexivity.
Defined.
