(* ===== verification/Stats.v ===== *)
(** stats.c and stats.h: the database of statistics.

    A variable that a statistic shows is a location of the host's memory; a
    location outside of it is an invalid pointer.  A pointer to a statistic is its
    position in the database.  The text of a formula is evaluated when its value is
    asked for, formulas that name other formulas included; [depth] bounds their
    nesting.  What only controls how a statistic is printed is left out, as is the
    printing; the rows of a sparse distribution are modelled in the order in which
    they are printed. *)

From stdpp Require Import sorting.
From S2P Require Import Prelude Misc Exec Eval.

(** [enum stat_class_t]. *)
Inductive stat_class_t := sc_int | sc_uint | sc_llong | sc_float | sc_double | sc_dist | sc_sdist | sc_formula.

Definition HTAB_SZ : Z := 1024.
Definition HTAB_HASH (I : Z) : Z := Z.land (Z.lxor (Z.shiftr I 8) I) (HTAB_SZ - 1).

(** [struct bucket_t]; a hash chain is the list of its buckets. *)
Record bucket_t := mk_bucket { bucket_index : Z; count : Z }.

(** [struct stat_for_dist_t], [struct stat_for_sdist_t]. *)
Record stat_for_dist_t := mk_dist { dist_init : Z; arr : list Z; arr_sz : Z; bucket_sz : Z; overflows : Z }.
Record stat_for_sdist_t := mk_sdist { sdist_init : Z; sarr : list (list bucket_t) }.

Definition var_ptr : Type := positive.

(** [union stat_variant_t]. *)
Inductive stat_variant_t :=
| for_int (var : var_ptr) (init_val : Z)
| for_uint (var : var_ptr) (init_val : Z)
| for_llong (var : var_ptr) (init_val : Z)
| for_float (var : var_ptr) (init_val : Z)
| for_double (var : var_ptr) (init_val : Z)
| for_dist (d : stat_for_dist_t)
| for_sdist (d : stat_for_sdist_t)
| for_formula (formula : list Z).

Definition class_of (v : stat_variant_t) : stat_class_t :=
  match v with
  | for_int _ _ => sc_int | for_uint _ _ => sc_uint | for_llong _ _ => sc_llong | for_float _ _ => sc_float
  | for_double _ _ => sc_double | for_dist _ => sc_dist | for_sdist _ => sc_sdist | for_formula _ => sc_formula
  end.

(** [struct stat_stat_t]; the chain through [next] is a list. *)
Record stat_stat_t := mk_stat { stat_name : list Z; desc : list Z; variant : stat_variant_t }.

(** [struct stat_sdb_t] with the variables of the program that it shows. *)
Record stat_sdb_t := mk_sdb { stats : list stat_stat_t; vars : gmap var_ptr Z }.
#[global] Instance eta_sdb : Eta stat_sdb_t := mk_eta (fun db => mk_sdb (stats db) (vars db)).

Definition stat_new (vars : gmap var_ptr Z) : stat_sdb_t := mk_sdb [] vars.

(** * Registration *)

(** [add_stat]: at the end of the chain; with the pointer to the statistic. *)
Definition add_stat (stat : stat_stat_t) (db : stat_sdb_t) : nat * stat_sdb_t :=
  (length (stats db), db <| stats ::= fun l => l ++ [stat] |>).

(** [*var = init_val]. *)
Definition set_var (var : var_ptr) (v : Z) (db : stat_sdb_t) : outcome stat_sdb_t :=
  _ ← deref (vars db !! var); Ok (db <| vars ::= insert var v |>).

(** The functions that register a variable have one shape. *)
Definition reg_var (variant : var_ptr -> Z -> stat_variant_t) (name desc : list Z) (var : var_ptr) (init_val : Z) (db : stat_sdb_t)
    : outcome (nat * stat_sdb_t) :=
  let '(stat, db) := add_stat (mk_stat name desc (variant var init_val)) db in
  db ← set_var var init_val db;
  Ok (stat, db).

Definition stat_reg_int := reg_var for_int.
Definition stat_reg_uint := reg_var for_uint.
Definition stat_reg_llong := reg_var for_llong.
Definition stat_reg_float := reg_var for_float.
Definition stat_reg_double := reg_var for_double.

Definition stat_reg_dist (name desc : list Z) (init_val arr_sz bucket_sz : Z) (db : stat_sdb_t) : nat * stat_sdb_t :=
  add_stat (mk_stat name desc (for_dist (mk_dist init_val (repeat init_val (Z.to_nat arr_sz)) arr_sz bucket_sz 0))) db.

Definition stat_reg_sdist (name desc : list Z) (init_val : Z) (db : stat_sdb_t) : nat * stat_sdb_t :=
  add_stat (mk_stat name desc (for_sdist (mk_sdist init_val (repeat [] (Z.to_nat HTAB_SZ))))) db.

Definition stat_reg_formula (name desc formula : list Z) (db : stat_sdb_t) : nat * stat_sdb_t :=
  add_stat (mk_stat name desc (for_formula formula)) db.

(** * Samples *)

Definition dist_add (index nsamples : Z) (d : stat_for_dist_t) : outcome stat_for_dist_t :=
  if bucket_sz d =? 0 then Undef
  else
    let i := index / bucket_sz d in
    if arr_sz d <=? i
    then Ok (mk_dist (dist_init d) (arr d) (arr_sz d) (bucket_sz d) (u32 (overflows d + nsamples)))
    else
      arr ← c_upd (arr d) (Z.to_nat i) (fun c => u32 (c + nsamples));
      Ok (mk_dist (dist_init d) arr (arr_sz d) (bucket_sz d) (overflows d)).

(** The first bucket of [index] in a chain gets the samples, if there is one. *)
Fixpoint bump_bucket (index nsamples : Z) (chain : list bucket_t) : option (list bucket_t) :=
  match chain with
  | [] => None
  | b :: chain =>
      if bucket_index b =? index then Some (mk_bucket index (u32 (count b + nsamples)) :: chain)
      else cons b <$> bump_bucket index nsamples chain
  end.

(** A new bucket goes to the head of the chain. *)
Definition chain_add (index nsamples init_val : Z) (chain : list bucket_t) : list bucket_t :=
  match bump_bucket index nsamples chain with
  | Some chain => chain
  | None => mk_bucket index (u32 (init_val + nsamples)) :: chain
  end.

Definition sdist_add (index nsamples : Z) (d : stat_for_sdist_t) : outcome stat_for_sdist_t :=
  sarr ← c_upd (sarr d) (Z.to_nat (HTAB_HASH index)) (chain_add index nsamples (sdist_init d));
  Ok (mk_sdist (sdist_init d) sarr).

Definition stat_add_samples (stat : nat) (index nsamples : Z) (db : stat_sdb_t) : outcome stat_sdb_t :=
  s ← deref (stats db !! stat);
  variant ← match variant s with
            | for_dist d => d ← dist_add index nsamples d; Ok (for_dist d)
            | for_sdist d => d ← sdist_add index nsamples d; Ok (for_sdist d)
            | _ => Panic
            end;
  Ok (db <| stats ::= insert stat (mk_stat (stat_name s) (desc s) variant) |>).

Definition stat_add_sample (stat : nat) (index : Z) (db : stat_sdb_t) : outcome stat_sdb_t :=
  stat_add_samples stat index 1 db.

(** [print_sdist]: the buckets collected, how many there are with their least
    and greatest index, and the order [qsort] prints them in. *)
Definition collect_buckets (d : stat_for_sdist_t) : list bucket_t := mjoin (sarr d).

Definition compare_fn (b1 b2 : bucket_t) : Z :=
  if bucket_index b1 <? bucket_index b2 then -1 else if bucket_index b2 <? bucket_index b1 then 1 else 0.

Definition before (b1 b2 : bucket_t) : Prop := compare_fn b1 b2 <= 0.
#[global] Instance before_dec (b1 b2 : bucket_t) : Decision (before b1 b2).
Proof. unfold before. apply _. Defined.

Definition sdist_rows (d : stat_for_sdist_t) : list bucket_t := merge_sort before (collect_buckets d).

Definition sdist_bounds (d : stat_for_sdist_t) : Z * Z * Z :=
  foldl (fun '(bcount, imin, imax) b =>
    (bcount + 1, if bucket_index b <? imin then bucket_index b else imin, if imax <? bucket_index b then bucket_index b else imax))
    (0, 2 ^ 32 - 1, 0) (collect_buckets d).

(** * Look up and evaluation *)

(** The loop over the chain in [stat_find_stat] and [stat_eval_ident]: the first
    statistic of the name. *)
Fixpoint stat_find_stat (stats : list stat_stat_t) (name : list Z) : option stat_stat_t :=
  match stats with
  | [] => None
  | s :: stats => if bool_decide (stat_name s = name) then Some s else stat_find_stat stats name
  end.

Section Formulas.
Context {fp : HostFP} {eh : EvalHost}.

(** The recursion of the evaluator on a string is no deeper than this. *)
Definition eval_fuel (s : list Z) : nat := 3 * length s + 3.

(** [stat_eval_ident]: the value of the statistic that [tok_buf] names, and
    [eval_error] after the call.  A formula with characters left over has the
    value 0 and no error. *)
Fixpoint stat_eval_ident (depth : nat) (db : stat_sdb_t) (tok_buf : list Z) (err : eval_err_t) : outcome (eval_value_t * eval_err_t) :=
  match depth with
  | O => NoFuel
  | S depth =>
      match stat_find_stat (stats db) tok_buf with
      | None => Ok (err_value, ERR_UNDEFVAR)
      | Some stat =>
          match variant stat with
          | for_int var _ => v ← deref (vars db !! var); Ok (as_int v, err)
          | for_uint var _ => v ← deref (vars db !! var); Ok (as_uint v, err)
          | for_llong var _ => v ← deref (vars db !! var); Ok (as_double (cvt_D_L v), err)
          | for_float var _ => v ← deref (vars db !! var); Ok (as_float v, err)
          | for_double var _ => v ← deref (vars db !! var); Ok (as_double v, err)
          | for_dist _ | for_sdist _ => Fatal
          | for_formula formula =>
              '(val, es, endp) ← eval_expr (stat_eval_ident depth db) (eval_fuel formula) eval_new formula;
              let extra := negb (bool_decide (endp = [])) in
              Ok (if negb (bool_decide (eval_error es = ERR_NOERR)) || extra then err_value else val, eval_error es)
          end
      end
  end.

(** What [stat_print_stat] prints for a formula: an error or a double. *)
Definition stat_print_formula (depth : nat) (db : stat_sdb_t) (formula : list Z) : outcome (eval_err_t + Z) :=
  '(val, es, endp) ← eval_expr (stat_eval_ident depth db) (eval_fuel formula) eval_new formula;
  if negb (bool_decide (eval_error es = ERR_NOERR)) || negb (bool_decide (endp = [])) then Ok (inl (eval_error es))
  else v ← eval_as_double val; Ok (inr v).

End Formulas.
