(* ===== verification/StatsProps.v ===== *)
(** The properties of the statistics of stats.c: distributions count their
    samples, a sparse one is printed in the order of its indices, and formulas
    have the value their trees denote over the statistics they name. *)

From stdpp Require Import sorting.
From S2P Require Import Prelude Misc Exec Eval EvalSpec EvalDen EvalMeaning EvalTotal FunsimProps Stats.

(** * Samples *)

(** How many samples fall on an index that [p] selects. *)
Definition total (p : Z -> bool) (samples : list (Z * Z)) : Z :=
  foldr (fun '(i, n) acc => if p i then n + acc else acc) 0 samples.

Fixpoint add_all (stat : nat) (samples : list (Z * Z)) (db : stat_sdb_t) : outcome stat_sdb_t :=
  match samples with
  | [] => Ok db
  | (index, n) :: samples => db ← stat_add_samples stat index n db; add_all stat samples db
  end.

Lemma u32_add_l (x y : Z) : u32 (u32 x + y) = u32 (x + y).
Proof. unfold u32. apply Zplus_mod_idemp_l. Qed.

(** Nothing but the statistic that is sampled changes. *)
Definition only_stat (stat : nat) (db db' : stat_sdb_t) : Prop :=
  vars db' = vars db /\ forall j, j <> stat -> stats db' !! j = stats db !! j.

Lemma only_stat_refl (stat : nat) (db : stat_sdb_t) : only_stat stat db db.
Proof. done. Qed.

Lemma only_stat_trans (stat : nat) (db1 db2 db3 : stat_sdb_t) :
  only_stat stat db1 db2 -> only_stat stat db2 db3 -> only_stat stat db1 db3.
Proof. intros [H1 H2] [H3 H4]. split; [congruence|]. intros j Hj. by rewrite H4, H2. Qed.

(** ** Array distributions *)

(** [d'] is [d] after the samples. *)
Definition dist_counted (samples : list (Z * Z)) (d d' : stat_for_dist_t) : Prop :=
  arr_sz d' = arr_sz d /\ bucket_sz d' = bucket_sz d /\ dist_init d' = dist_init d
  /\ (forall i c, arr d !! i = Some c -> arr d' !! i = Some (u32 (c + total (fun x => x / bucket_sz d =? Z.of_nat i) samples)))
  /\ overflows d' = u32 (overflows d + total (fun x => arr_sz d <=? x / bucket_sz d) samples).

Definition dist_ok (d : stat_for_dist_t) : Prop :=
  0 < bucket_sz d /\ length (arr d) = Z.to_nat (arr_sz d) /\ 0 <= arr_sz d
  /\ Forall (fun c => 0 <= c < 2 ^ 32) (arr d) /\ 0 <= overflows d < 2 ^ 32.

Lemma dist_add_counts (index n : Z) (d : stat_for_dist_t) : dist_ok d -> 0 <= index ->
  exists d', dist_add index n d = Ok d' /\ dist_ok d' /\ dist_counted [(index, n)] d d'.
Proof.
  intros (Hb & Hl & Ha & Hc & Ho) Hi. unfold dist_add. rewrite (proj2 (Z.eqb_neq _ _)) by lia.
  pose proof (Z.div_pos index (bucket_sz d) Hi Hb). destruct (arr_sz d <=? index / bucket_sz d) eqn:E.
  - eexists. split; [reflexivity|]. pose proof (u32_range (overflows d + n)). split; [done|].
    unfold dist_counted, total. cbn. rewrite E. apply Z.leb_le in E. split_and!; try done.
    + intros i c Hic. apply lookup_lt_Some in Hic as Hlt. rewrite (proj2 (Z.eqb_neq _ _)) by lia.
      rewrite Forall_lookup in Hc. rewrite Z.add_0_r, u32_small by eauto. done.
    + by rewrite Z.add_0_r.
  - apply Z.leb_gt in E. destruct (lookup_lt_is_Some_2 (arr d) (Z.to_nat (index / bucket_sz d)) ltac:(lia)) as [c Hic].
    rewrite (c_upd_insert _ _ _ _ Hic). eexists. split; [reflexivity|]. split.
    + split; [done|]. split; [cbn; by rewrite length_insert|]. split; [done|]. split; [|done].
      apply Forall_insert; [done|]. apply u32_range.
    + unfold dist_counted, total. cbn. rewrite (proj2 (Z.leb_gt _ _) E). split_and!; try done.
      * intros i c' Hic'. destruct (decide (i = Z.to_nat (index / bucket_sz d))) as [->|Hne].
        -- rewrite list_lookup_insert_eq by (by apply lookup_lt_Some in Hic).
           rewrite (proj2 (Z.eqb_eq _ _)) by lia. rewrite Hic in Hic'. injection Hic' as <-. by rewrite Z.add_0_r.
        -- rewrite list_lookup_insert_ne by done. rewrite (proj2 (Z.eqb_neq _ _)) by lia.
           rewrite Forall_lookup in Hc. rewrite Z.add_0_r, u32_small by eauto. done.
      * by rewrite Z.add_0_r, u32_small.
Qed.

Lemma total_cons (p : Z -> bool) (i n : Z) (samples : list (Z * Z)) :
  total p ((i, n) :: samples) = total p [(i, n)] + total p samples.
Proof. unfold total. cbn. destruct (p i); lia. Qed.

Lemma dist_counted_cons (i n : Z) (samples : list (Z * Z)) (d1 d2 d3 : stat_for_dist_t) :
  dist_counted [(i, n)] d1 d2 -> dist_counted samples d2 d3 -> dist_counted ((i, n) :: samples) d1 d3.
Proof.
  intros (A1 & B1 & I1 & C1 & O1) (A2 & B2 & I2 & C2 & O2). split_and!; try congruence.
  - intros j c Hc. rewrite (C2 j _ (C1 j c Hc)), u32_add_l, B1, (total_cons _ i n samples). do 2 f_equal. lia.
  - rewrite O2, O1, u32_add_l, A1, B1, (total_cons _ i n samples). f_equal. lia.
Qed.

Lemma dist_counted_nil (d : stat_for_dist_t) : dist_ok d -> dist_counted [] d d.
Proof.
  intros (Hb & Hl & Ha & Hc & Ho). split_and!; try done.
  - intros i c Hi. rewrite Forall_lookup in Hc. rewrite Z.add_0_r, u32_small by eauto. done.
  - by rewrite Z.add_0_r, u32_small.
Qed.

Lemma lookup_stat_insert (stat : nat) (s s' : stat_stat_t) (db : stat_sdb_t) : stats db !! stat = Some s ->
  let db' := db <| stats ::= insert stat s' |> in stats db' !! stat = Some s' /\ only_stat stat db db'.
Proof.
  intros Hs. cbn. split; [apply list_lookup_insert_eq; by apply lookup_lt_Some in Hs|].
  split; [done|]. intros j Hj. by apply list_lookup_insert_ne.
Qed.

Lemma added_stat (s : stat_stat_t) (db : stat_sdb_t) : stats (add_stat s db).2 !! (add_stat s db).1 = Some s.
Proof. exact (list_lookup_middle (stats db) [] s _ eq_refl). Qed.

Lemma add_all_dist (stat : nat) (name desc : list Z) (samples : list (Z * Z)) (d : stat_for_dist_t) (db : stat_sdb_t) :
  stats db !! stat = Some (mk_stat name desc (for_dist d)) -> dist_ok d -> Forall (fun s => 0 <= s.1) samples ->
  exists db' d', add_all stat samples db = Ok db' /\ stats db' !! stat = Some (mk_stat name desc (for_dist d'))
    /\ dist_counted samples d d' /\ only_stat stat db db'.
Proof.
  revert d db. induction samples as [|[i n] samples IH]; intros d db Hs Hd Hf.
  - exists db, d. auto using dist_counted_nil, only_stat_refl.
  - apply Forall_cons in Hf as [Hi Hf]. destruct (dist_add_counts i n d Hd Hi) as (d1 & Hadd & Hd1 & Hc1).
    cbn [add_all]. unfold stat_add_samples. rewrite Hs. cbn [deref mbind outcome_bind variant]. rewrite Hadd. cbn [mbind outcome_bind].
    destruct (lookup_stat_insert stat _ (mk_stat name desc (for_dist d1)) db Hs) as [Hs1 Ho1].
    destruct (IH d1 _ Hs1 Hd1 Hf) as (db' & d' & Hall & Hs' & Hc' & Ho'). exists db', d'.
    split_and!; [done|done|by apply (dist_counted_cons _ _ _ _ d1)|by apply (only_stat_trans _ _ _ _ Ho1)].
Qed.

(** ** Sparse distributions *)

(** What a sparse distribution means: the count of every index sampled. *)
Definition count_sample (init : Z) (m : gmap Z Z) (s : Z * Z) : gmap Z Z :=
  <[s.1 := u32 (default init (m !! s.1) + s.2)]> m.

Definition counted (init : Z) (samples : list (Z * Z)) (m : gmap Z Z) : gmap Z Z := foldl (count_sample init) m samples.

Lemma counted_lookup (init : Z) (samples : list (Z * Z)) (m : gmap Z Z) (i : Z) : 0 <= init < 2 ^ 32 ->
  (forall c, m !! i = Some c -> 0 <= c < 2 ^ 32) ->
  counted init samples m !! i =
    if bool_decide (i ∈ samples.*1 \/ is_Some (m !! i)) then Some (u32 (default init (m !! i) + total (Z.eqb i) samples)) else None.
Proof.
  intros Hinit. revert m. induction samples as [|[j n] samples IH]; intros m Hm.
  - cbn. rewrite Z.add_0_r. destruct (m !! i) as [c|] eqn:E.
    + rewrite bool_decide_eq_true_2 by eauto. cbn. by rewrite u32_small by eauto.
    + rewrite bool_decide_eq_false_2; [done|]. intros [H|[c H]]; [by apply elem_of_nil in H|done].
  - cbn [counted foldl]. fold (counted init samples (count_sample init m (j, n))). unfold count_sample at 1. cbn [fst snd].
    rewrite IH; destruct (decide (i = j)) as [->|Hne].
    + rewrite lookup_insert_eq, !bool_decide_eq_true_2 by (rewrite ?fmap_cons; set_solver || eauto).
      cbn [from_option]. unfold id at 1. rewrite u32_add_l, (total_cons _ j n samples). unfold total at 2. cbn [foldr]. rewrite Z.eqb_refl. do 2 f_equal. lia.
    + rewrite lookup_insert_ne by done. cbn [total foldr fmap list_fmap fst]. rewrite (proj2 (Z.eqb_neq i j)) by done.
      erewrite bool_decide_ext; [reflexivity|]. rewrite elem_of_cons. intuition.
    + intros c. rewrite lookup_insert_eq. intros [= <-]. apply u32_range.
    + intros c. rewrite lookup_insert_ne by done. apply Hm.
Qed.

(** Every bucket is in the chain of its hash, the chains hold exactly the counts
    of the map and no index twice. *)
Record sdist_shows (d : stat_for_sdist_t) (m : gmap Z Z) : Prop := {
  shows_length : length (sarr d) = Z.to_nat HTAB_SZ;
  shows_nodup : forall h chain, sarr d !! h = Some chain -> NoDup (bucket_index <$> chain);
  shows_counts : forall h chain b, sarr d !! h = Some chain ->
    b ∈ chain <-> Z.to_nat (HTAB_HASH (bucket_index b)) = h /\ m !! bucket_index b = Some (count b);
}.

Lemma HTAB_HASH_range (i : Z) : 0 <= i -> 0 <= HTAB_HASH i < HTAB_SZ.
Proof.
  intros Hi. unfold HTAB_HASH, HTAB_SZ. change (1024 - 1) with (Z.ones 10). rewrite Z.land_ones by lia.
  change 1024 with (2 ^ 10). apply Z.mod_pos_bound. lia.
Qed.

Lemma bump_bucket_index (i n : Z) (chain chain' : list bucket_t) :
  bump_bucket i n chain = Some chain' -> bucket_index <$> chain' = bucket_index <$> chain.
Proof.
  revert chain'. induction chain as [|b chain IH]; intros chain'; cbn; [done|].
  destruct (bucket_index b =? i) eqn:E; [intros [= <-]; cbn; f_equal; symmetry; by apply Z.eqb_eq|].
  destruct (bump_bucket i n chain) as [l|]; [|done]. intros [= <-]. cbn. f_equal. by apply IH.
Qed.

Lemma bump_bucket_none (i n : Z) (chain : list bucket_t) : bump_bucket i n chain = None <-> i ∉ bucket_index <$> chain.
Proof.
  induction chain as [|b chain IH]; cbn; [split; [intros _; apply not_elem_of_nil|done]|].
  rewrite not_elem_of_cons. destruct (bucket_index b =? i) eqn:E.
  - apply Z.eqb_eq in E. split; [done|]. intros [? _]. congruence.
  - apply Z.eqb_neq in E. rewrite fmap_None, IH. intuition.
Qed.

Lemma bump_bucket_elem (i n : Z) (chain chain' : list bucket_t) (b : bucket_t) :
  NoDup (bucket_index <$> chain) -> bump_bucket i n chain = Some chain' ->
  b ∈ chain' <-> (bucket_index b <> i /\ b ∈ chain) \/ (exists c, mk_bucket i c ∈ chain /\ b = mk_bucket i (u32 (c + n))).
Proof.
  revert chain'. induction chain as [|a chain IH]; intros chain' Hnd; cbn; [done|].
  apply NoDup_cons in Hnd as [Ha Hnd]. destruct (bucket_index a =? i) eqn:E.
  - apply Z.eqb_eq in E. intros [= <-]. rewrite elem_of_cons. split.
    + intros [->|Hb]; [right; exists (count a); split; [subst i; destruct a; by left|done]|left].
      split; [|by right]. intros Hbi. apply Ha. rewrite E, <- Hbi. by apply list_elem_of_fmap_2.
    + intros [[Hne [->|Hb]%elem_of_cons]|(c & [<-|Hc]%elem_of_cons & ->)]; [done|by right|by left|].
      exfalso. apply Ha. rewrite E. by apply (list_elem_of_fmap_2 bucket_index) in Hc.
  - apply Z.eqb_neq in E. destruct (bump_bucket i n chain) as [l|] eqn:El; [|done]. intros [= <-].
    rewrite elem_of_cons, (IH l Hnd eq_refl). split.
    + intros [->|[[Hne Hb]|(c & Hc & ->)]]; [left; split; [done|by left]|left; split; [done|by right]|right].
      exists c. split; [by right|done].
    + intros [[Hne [->|Hb]%elem_of_cons]|(c & [<-|Hc]%elem_of_cons & ->)]; [by left|by right; left|done|].
      right. right. eauto.
Qed.

(** A chain in terms of the counts that it holds for its hash. *)
Lemma chain_add_elem (i n init : Z) (chain : list bucket_t) (o : option Z) (b : bucket_t) :
  NoDup (bucket_index <$> chain) -> (forall c, mk_bucket i c ∈ chain <-> o = Some c) ->
  b ∈ chain_add i n init chain <-> (bucket_index b <> i /\ b ∈ chain) \/ b = mk_bucket i (u32 (default init o + n)).
Proof.
  intros Hnd Ho. unfold chain_add. destruct (bump_bucket i n chain) as [l|] eqn:E.
  - rewrite (bump_bucket_elem i n chain l b Hnd E).
    assert (is_Some o) as [c0 ->].
    { destruct o; [done|]. exfalso. assert (i ∉ bucket_index <$> chain) as Hi by
        (intros (a & -> & Ha)%list_elem_of_fmap; destruct a as [k c]; by apply Ho in Ha).
      apply bump_bucket_none with (n := n) in Hi. congruence. }
    split; (intros [?|Hx]; [by left|right]).
    + destruct Hx as (c & Hc & ->). apply Ho in Hc as [= <-]. done.
    + exists c0. split; [by apply Ho|done].
  - apply bump_bucket_none in E. rewrite elem_of_cons. destruct o as [c|].
    + exfalso. apply E. apply (list_elem_of_fmap_2 bucket_index _ (mk_bucket i c)). by apply Ho.
    + cbn. unfold id. split; [intros [->|Hb]; [by right|left]|intros [[_ Hb]| ->]; [by right|by left]].
      split; [|done]. intros <-. apply E. by apply list_elem_of_fmap_2.
Qed.

Lemma chain_add_nodup (i n init : Z) (chain : list bucket_t) :
  NoDup (bucket_index <$> chain) -> NoDup (bucket_index <$> chain_add i n init chain).
Proof.
  intros Hnd. unfold chain_add. destruct (bump_bucket i n chain) as [l|] eqn:E.
  - by rewrite (bump_bucket_index i n chain l E).
  - apply bump_bucket_none in E. cbn. by apply NoDup_cons.
Qed.

Lemma sdist_add_shows (i n : Z) (d : stat_for_sdist_t) (m : gmap Z Z) : sdist_shows d m -> 0 <= i ->
  exists d', sdist_add i n d = Ok d' /\ sdist_shows d' (count_sample (sdist_init d) m (i, n)) /\ sdist_init d' = sdist_init d.
Proof.
  intros [Hl Hnd Hc] Hi. pose proof (HTAB_HASH_range i Hi). set (h := Z.to_nat (HTAB_HASH i)).
  destruct (lookup_lt_is_Some_2 (sarr d) h) as [chain Hch]; [unfold h; lia|].
  unfold sdist_add. fold h. rewrite (c_upd_insert _ _ _ _ Hch). eexists. split; [reflexivity|]. split; [|done].
  split; cbn [sarr]; [by rewrite length_insert| |].
  - intros h' chain' [(<- & <- & _)|[_ H']]%list_lookup_insert_Some; [|by apply (Hnd h')].
    by apply chain_add_nodup, (Hnd h).
  - intros h' chain' b [(<- & <- & _)|[Hne H']]%list_lookup_insert_Some; unfold count_sample; cbn [fst snd].
    + rewrite (chain_add_elem i n _ chain (m !! i) b (Hnd h chain Hch)).
      2: { intros c. rewrite (Hc h chain _ Hch). cbn. unfold h. intuition. }
      destruct (decide (bucket_index b = i)) as [Hb|Hb].
      * rewrite Hb, lookup_insert_eq. split; [intros [[? _]| ->]; [done|]|intros [_ [= Hcount]]].
        -- by cbn.
        -- right. destruct b. cbn in *. congruence.
      * rewrite lookup_insert_ne by done. rewrite (Hc h chain b Hch). split; [intros [[_ ?]| ->]; done|by left].
    + rewrite (Hc h' chain' b H'). destruct (decide (bucket_index b = i)) as [Hb|Hb].
      * split; intros [Hh _]; exfalso; apply Hne; unfold h; congruence.
      * by rewrite lookup_insert_ne.
Qed.

Lemma add_all_sdist (stat : nat) (name desc : list Z) (samples : list (Z * Z)) (d : stat_for_sdist_t) (m : gmap Z Z) (db : stat_sdb_t) :
  stats db !! stat = Some (mk_stat name desc (for_sdist d)) -> sdist_shows d m -> Forall (fun s => 0 <= s.1) samples ->
  exists db' d', add_all stat samples db = Ok db' /\ stats db' !! stat = Some (mk_stat name desc (for_sdist d'))
    /\ sdist_shows d' (counted (sdist_init d) samples m) /\ only_stat stat db db'.
Proof.
  revert d m db. induction samples as [|[i n] samples IH]; intros d m db Hs Hd Hf.
  - exists db, d. auto using only_stat_refl.
  - apply Forall_cons in Hf as [Hi Hf]. destruct (sdist_add_shows i n d m Hd Hi) as (d1 & Hadd & Hd1 & Hinit).
    cbn [add_all]. unfold stat_add_samples. rewrite Hs. cbn [deref mbind outcome_bind variant]. rewrite Hadd. cbn [mbind outcome_bind].
    destruct (lookup_stat_insert stat _ (mk_stat name desc (for_sdist d1)) db Hs) as [Hs1 Ho1].
    destruct (IH d1 _ _ Hs1 Hd1 Hf) as (db' & d' & Hall & Hs' & Hc' & Ho'). exists db', d'. rewrite Hinit in Hc'.
    split_and!; [done|done|done|by apply (only_stat_trans _ _ _ _ Ho1)].
Qed.

(** ** The rows of a sparse distribution *)

(** A new sparse distribution has no buckets. *)
Lemma fresh_shows (init : Z) : sdist_shows (mk_sdist init (repeat [] (Z.to_nat HTAB_SZ))) ∅.
Proof.
  split; cbn [sarr]; [by rewrite repeat_length|..];
    intros h chain; [|intros b]; intros Hc; apply list_elem_of_lookup_2, list_elem_of_In, repeat_spec in Hc as ->; [constructor|].
  rewrite lookup_empty, elem_of_nil. intuition discriminate.
Qed.

Lemma collect_shows (d : stat_for_sdist_t) (m : gmap Z Z) (b : bucket_t) : sdist_shows d m ->
  (forall i c, m !! i = Some c -> 0 <= i) ->
  b ∈ collect_buckets d <-> m !! bucket_index b = Some (count b).
Proof.
  intros [Hl Hnd Hc] Hm. unfold collect_buckets. rewrite list_elem_of_join. split.
  - intros (chain & Hb & Hch). apply list_elem_of_lookup in Hch as [h Hh]. exact (proj2 (proj1 (Hc h chain b Hh) Hb)).
  - intros Hb. pose proof (HTAB_HASH_range _ (Hm _ _ Hb)).
    destruct (lookup_lt_is_Some_2 (sarr d) (Z.to_nat (HTAB_HASH (bucket_index b)))) as [chain Hh]; [lia|].
    exists chain. split; [by apply (Hc _ chain b Hh)|by apply list_elem_of_lookup_2 in Hh].
Qed.

(** Chains of different hashes share no index. *)
Lemma mjoin_nodup {A : Type} (f : A -> Z) (g : Z -> nat) (ls : list (list A)) (k : nat) :
  (forall h l, ls !! h = Some l -> NoDup (f <$> l) /\ forall a, a ∈ l -> g (f a) = (k + h)%nat) -> NoDup (f <$> mjoin ls).
Proof.
  revert k. induction ls as [|l ls IH]; intros k H; cbn; [constructor|].
  rewrite fmap_app. apply NoDup_app. destruct (H 0%nat l eq_refl) as [Hl Hg]. split_and!; [done| |].
  - intros x (a & -> & Ha)%list_elem_of_fmap (a' & Heq & Hin)%list_elem_of_fmap.
    apply list_elem_of_join in Hin as (l' & Ha' & Hl'). apply list_elem_of_lookup in Hl' as [h Hh].
    destruct (H (S h) l' Hh) as [_ Hg']. apply Hg in Ha. apply Hg' in Ha'. rewrite <- Heq in Ha'. lia.
  - apply (IH (S k)). intros h l' Hh. destruct (H (S h) l' Hh) as [Hnd Hg']. split; [done|].
    intros a Ha. rewrite (Hg' a Ha). lia.
Qed.

Lemma collect_nodup (d : stat_for_sdist_t) (m : gmap Z Z) : sdist_shows d m -> NoDup (bucket_index <$> collect_buckets d).
Proof.
  intros [Hl Hnd Hc]. apply (mjoin_nodup bucket_index (fun i => Z.to_nat (HTAB_HASH i)) _ 0).
  intros h l Hh. split; [by apply (Hnd h)|]. intros a Ha. by apply (Hc h l a Hh) in Ha as [-> _].
Qed.

Lemma before_le (b1 b2 : bucket_t) : before b1 b2 <-> bucket_index b1 <= bucket_index b2.
Proof.
  unfold before, compare_fn. destruct (bucket_index b1 <? bucket_index b2) eqn:E1; bool_to_prop; [lia|].
  destruct (bucket_index b2 <? bucket_index b1) eqn:E2; bool_to_prop; lia.
Qed.

#[local] Instance before_total : Total before.
Proof. intros b1 b2. rewrite !before_le. lia. Qed.

#[local] Instance before_trans : Transitive before.
Proof. intros b1 b2 b3. rewrite !before_le. lia. Qed.

(** Rows that increase and hold every count. *)
Lemma sdist_rows_shows (d : stat_for_sdist_t) (m : gmap Z Z) : sdist_shows d m -> (forall i c, m !! i = Some c -> 0 <= i) ->
  StronglySorted Z.lt (bucket_index <$> sdist_rows d) /\ forall b, b ∈ sdist_rows d <-> m !! bucket_index b = Some (count b).
Proof.
  intros Hd Hm. pose proof (merge_sort_Permutation before (collect_buckets d)) as Hp. split.
  - pose proof (collect_nodup d m Hd) as Hnd. rewrite <- Hp in Hnd. clear Hp.
    pose proof (StronglySorted_merge_sort before (collect_buckets d)) as Hs. unfold sdist_rows.
    induction Hs as [|b l Hs IH Hb]; cbn in *; [constructor|]. apply NoDup_cons in Hnd as [Hni Hnd].
    constructor; [by apply IH|]. apply Forall_fmap, Forall_forall. intros a Ha.
    rewrite Forall_forall in Hb. apply Hb in Ha as Hle. apply before_le in Hle.
    assert (bucket_index b <> bucket_index a); [|cbn; lia]. intros Heq. apply Hni. rewrite Heq. by apply list_elem_of_fmap_2.
  - intros b. unfold sdist_rows. rewrite Hp. by apply collect_shows.
Qed.

(** * Formulas *)

(** The names in a tree. *)
Fixpoint names_fac (f : fac) : list (list Z) :=
  match f with
  | F_const _ _ => []
  | F_ident _ s => [s]
  | F_neg _ f => names_fac f
  | F_paren _ e _ => names_exp e
  end
with names_trm (t : trm) : list (list Z) :=
  match t with
  | T_fac f => names_fac f
  | T_mult f _ t | T_div f _ t => names_fac f ++ names_trm t
  end
with names_exp (e : exp) : list (list Z) :=
  match e with
  | E_trm t => names_trm t
  | E_add t _ e | E_sub t _ e => names_trm t ++ names_exp e
  end.

(** The position of the statistic that a name finds. *)
Fixpoint position (stats : list stat_stat_t) (name : list Z) : option nat :=
  match stats with
  | [] => None
  | s :: stats => if bool_decide (stat_name s = name) then Some O else S <$> position stats name
  end.

Lemma find_position (l : list stat_stat_t) (name : list Z) :
  stat_find_stat l name = match position l name with Some i => l !! i | None => None end.
Proof.
  induction l as [|s l IH]; cbn; [done|]. case_bool_decide; [done|]. rewrite IH. by destruct (position l name).
Qed.

(** Every formula is a well-formed expression whose names are not registered, or
    are found before it. *)
Definition formulas_ordered (l : list stat_stat_t) : Prop := forall i s formula,
  l !! i = Some s -> variant s = for_formula formula ->
  exists e, formula = print_exp e /\ wf_exp e = true
    /\ forall x, x ∈ names_exp e -> match position l x with Some j => (j < i)%nat | None => True end.

Section Formulas.
Context {fp : HostFP} {eh : EvalHost}.

(** The value of a statistic that shows a variable, by the variable's type; a
    distribution has none, and an invalid pointer is undefined. *)
Definition variable_value (m : gmap var_ptr Z) (v : stat_variant_t) : option (outcome result) :=
  let shows p k := Some (match m !! p with Some z => Ok (inr (k z)) | None => Undef end) in
  match v with
  | for_int p _ => shows p as_int
  | for_uint p _ => shows p as_uint
  | for_llong p _ => shows p (fun z => as_double (cvt_D_L z))
  | for_float p _ => shows p as_float
  | for_double p _ => shows p as_double
  | for_dist _ | for_sdist _ => Some Fatal
  | for_formula _ => None
  end.

(** The meaning of the statistic at [i]: that of its variable, or that of its
    formula, the names of which mean the statistics that they find before it, or
    nothing. *)
Inductive stat_means (db : stat_sdb_t) : nat -> outcome result -> Prop :=
| means_variable i s d :
    stats db !! i = Some s -> variable_value (vars db) (variant s) = Some d -> stat_means db i d
| means_formula i s e env :
    stats db !! i = Some s -> variant s = for_formula (print_exp e) -> wf_exp e = true ->
    (forall x, x ∈ names_exp e -> position (stats db) x = None -> env x = Ok (inl ERR_UNDEFVAR)) ->
    (forall x j, x ∈ names_exp e -> position (stats db) x = Some j -> (j < i)%nat) ->
    (forall x j, x ∈ names_exp e -> position (stats db) x = Some j -> stat_means db j (env x)) ->
    stat_means db i (val_exp env e).

(** What the evaluation of an identifier gives for a meaning, and what is printed
    for it: the error, or the value as a double. *)
Definition ident_result (d : outcome result) : outcome (eval_value_t * eval_err_t) :=
  r ← d; Ok (match r with inr v => (v, ERR_NOERR) | inl e => (err_value, e) end).

Definition printed (d : outcome result) : outcome (eval_err_t + Z) :=
  r ← d;
  match r with
  | inl e => Ok (inl e)
  | inr v => match convert et_double v with as_double x => Ok (inr x) | _ => Panic end
  end.

(** A tree looks at its names only. *)
Lemma val_names (f g : list Z -> outcome result) :
  (forall t, (forall x, x ∈ names_fac t -> f x = g x) -> val_fac f t = val_fac g t)
  /\ (forall t, (forall x, x ∈ names_trm t -> f x = g x) -> val_trm f t = val_trm g t)
  /\ (forall e, (forall x, x ∈ names_exp e -> f x = g x) -> val_exp f e = val_exp g e).
Proof.
  apply tree_ind; intros; try done; cbn [names_fac names_trm names_exp] in *; repeat val_step;
    repeat match goal with IH : _ -> ?a = ?b |- context [?a] => rewrite IH by set_solver end; try reflexivity; set_solver.
Qed.

(** A meaning is never out of fuel, nor the error "no error". *)
Definition proper (d : outcome result) : Prop := d <> NoFuel /\ d <> Ok (inl ERR_NOERR).

Lemma proper_op (o : operator) (d1 d2 : outcome result) : proper d1 -> proper d2 -> proper (operation o d1 d2).
Proof.
  unfold proper. intros [F1 E1] [F2 E2]. unfold operation, and_then. destruct d1 as [[e1|v1]| | | | | |]; try done.
  destruct d2 as [[e2|v2]| | | | | |]; cbn -[apply_op]; try done.
  { split; [done|]. destruct (_ && _); [done|]. intros [= ->]. by apply E2. }
  unfold apply_op. destruct (_ && _); [done|]. destruct (arith_type _ _) as [t|]; [|done].
  destruct (convert t v1), (convert t v2); try done; cbn -[int_op uint_op]; destruct o; cbn; try done;
    repeat match goal with |- context [if ?b then _ else _] => destruct b; cbn; try done end.
Qed.

Lemma val_proper (env : list Z -> outcome result) :
  (forall t, (forall x, x ∈ names_fac t -> proper (env x)) -> proper (val_fac env t))
  /\ (forall t, (forall x, x ∈ names_trm t -> proper (env x)) -> proper (val_trm env t))
  /\ (forall e, (forall x, x ∈ names_exp e -> proper (env x)) -> proper (val_exp env e)).
Proof.
  apply tree_ind; intros; cbn [names_fac names_trm names_exp] in *; repeat val_step;
    try (apply proper_op; set_solver); try set_solver.
  - unfold literal. destruct (strto_base0 _) as [[v [|c r]]|]; repeat destruct (_ <? _); by destruct (strtod s).
  - assert (proper (val_fac env f)) as Hf by set_solver. destruct Hf as [H1 H2]. unfold and_then.
    destruct (val_fac env f) as [[e|v]| | | | | |]; try done. by destruct v.
Qed.

Lemma callback_ident (f : list Z -> eval_err_t -> outcome (eval_value_t * eval_err_t)) (x : list Z) (d : outcome result) :
  proper d -> f x ERR_NOERR = ident_result d -> callback_env f x = d.
Proof.
  intros [_ Hd] Hf. unfold callback_env. rewrite Hf. destruct d as [[e|v]| | | | | |]; try done. cbn.
  rewrite settle_error; [done|]. intros ->. by apply Hd.
Qed.

Lemma print_fuel (e : exp) : (3 * length (print_exp e) <= eval_fuel (print_exp e))%nat.
Proof. unfold eval_fuel. lia. Qed.

(** The evaluation of the text of a formula. *)
Lemma formula_yields f (e : exp) : wf_exp e = true ->
  yields (eval_expr f (eval_fuel (print_exp e)) eval_new (print_exp e)) (val_exp (callback_env f) e) [].
Proof.
  intros Hwf. pose proof (eval_expr_yields f (eval_fuel (print_exp e)) eval_new e [] Hwf eq_refl eq_refl (print_fuel e)) as H.
  rewrite app_nil_r in H. by rewrite <- (proj2 (proj2 (den_means f)) e).
Qed.

Lemma formula_step (depth : nat) (db : stat_sdb_t) (name : list Z) (err : eval_err_t) (s : stat_stat_t) (e : exp) :
  stat_find_stat (stats db) name = Some s -> variant s = for_formula (print_exp e) -> wf_exp e = true ->
  stat_eval_ident (S depth) db name err = ident_result (val_exp (callback_env (stat_eval_ident depth db)) e).
Proof.
  intros Hs Hv Hwf. cbn [stat_eval_ident]. rewrite Hs, Hv. pose proof (formula_yields (stat_eval_ident depth db) e Hwf) as H.
  destruct (val_exp _ e) as [[err'|v]| | | | | |]; cbn [yields] in H; [| |by rewrite H..].
  - destruct H as (es & p & -> & <- & Hne). cbn -[bool_decide]. by rewrite bool_decide_eq_false_2.
  - destruct H as (es & -> & He). cbn -[bool_decide]. rewrite He. by rewrite bool_decide_eq_true_2.
Qed.

Lemma print_formula_step (depth : nat) (db : stat_sdb_t) (e : exp) : wf_exp e = true ->
  stat_print_formula depth db (print_exp e) = printed (val_exp (callback_env (stat_eval_ident depth db)) e).
Proof.
  intros Hwf. unfold stat_print_formula. pose proof (formula_yields (stat_eval_ident depth db) e Hwf) as H.
  destruct (val_exp _ e) as [[err'|v]| | | | | |]; cbn [yields] in H; [| |by rewrite H..].
  - destruct H as (es & p & -> & <- & Hne). cbn -[bool_decide]. by rewrite bool_decide_eq_false_2.
  - destruct H as (es & -> & He). cbn -[bool_decide]. rewrite He. rewrite !bool_decide_eq_true_2 by done. by destruct v.
Qed.

Lemma env_evaluates (db : stat_sdb_t) (i depth : nat) (e : exp) (env : list Z -> outcome result) :
  (forall x, x ∈ names_exp e -> position (stats db) x = None -> env x = Ok (inl ERR_UNDEFVAR)) ->
  (forall x j, x ∈ names_exp e -> position (stats db) x = Some j -> (j < i)%nat) ->
  (forall x j, x ∈ names_exp e -> position (stats db) x = Some j -> proper (env x)
    /\ forall depth name, position (stats db) name = Some j -> (S j < depth)%nat -> stat_eval_ident depth db name ERR_NOERR = ident_result (env x)) ->
  (i < depth)%nat -> val_exp (callback_env (stat_eval_ident depth db)) e = val_exp env e.
Proof.
  intros Hundef Hlt IH Hd. apply val_names. intros x Hx. destruct (position (stats db) x) as [j|] eqn:Ej.
  - specialize (Hlt x j Hx Ej). destruct (IH x j Hx Ej) as [Hprop Hev]. apply callback_ident; [done|]. apply Hev; [done|lia].
  - rewrite (Hundef x Hx Ej). apply callback_ident; [done|]. destruct depth; [lia|].
    cbn [stat_eval_ident]. by rewrite find_position, Ej.
Qed.

(** A statistic evaluates to its meaning, in one level more than there are
    statistics up to it. *)
Lemma means_evaluates (db : stat_sdb_t) (i : nat) (d : outcome result) : stat_means db i d ->
  proper d /\ forall depth name, position (stats db) name = Some i -> (S i < depth)%nat ->
    stat_eval_ident depth db name ERR_NOERR = ident_result d.
Proof.
  induction 1 as [i s d Hs Hd|i s e env Hs Hv Hwf Hundef Hlt Hnames IH].
  - split; [by destruct (variant s); cbn in Hd; try destruct (vars db !! var); simplify_eq|].
    intros [|depth] name Hp Hi; [lia|]. cbn [stat_eval_ident]. rewrite find_position, Hp, Hs.
    by destruct (variant s); cbn in Hd; try destruct (vars db !! var); simplify_eq.
  - split.
    { apply val_proper. intros x Hx. destruct (position (stats db) x) as [j|] eqn:Ej; [by apply (IH x j)|by rewrite Hundef]. }
    intros [|depth] name Hp Hi; [lia|].
    rewrite (formula_step depth db name ERR_NOERR s e) by (done || by rewrite find_position, Hp).
    f_equal. apply (env_evaluates db i); done || lia.
Qed.

(** A meaning is determined by what evaluating the statistic gives. *)
Lemma ident_result_inj (d d' : outcome result) : proper d -> proper d' -> ident_result d = ident_result d' -> d = d'.
Proof.
  intros [_ H] [_ H'] E. destruct d as [[e|v]| | | | | |], d' as [[e'|v']| | | | | |]; cbn in E; try congruence;
    injection E as E1 E2; subst; first [by destruct (H eq_refl)|by destruct (H' eq_refl)].
Qed.

(** The text of a formula with a meaning prints it, and is evaluated without
    regard to the error before. *)
Lemma means_prints (db : stat_sdb_t) (i : nat) (s : stat_stat_t) (formula : list Z) (d : outcome result) (depth : nat) :
  stat_means db i d -> stats db !! i = Some s -> variant s = for_formula formula -> (S i < depth)%nat ->
  stat_print_formula depth db formula = printed d
  /\ (forall name err, position (stats db) name = Some i -> stat_eval_ident depth db name err = stat_eval_ident depth db name ERR_NOERR).
Proof.
  intros Hm Hs Hv Hd. inversion Hm as [i' s' d' Hs' Hd'|i' s' e env Hs' Hv' Hwf Hundef Hlt Hnames]; subst;
    rewrite Hs in Hs'; injection Hs' as <-; [by rewrite Hv in Hd'|]. rewrite Hv in Hv'. injection Hv' as ->.
  rewrite print_formula_step by done. split.
  - f_equal. apply (env_evaluates db i); try done; [|lia]. intros x j Hx Ej. apply means_evaluates. by apply (Hnames x).
  - intros name err Hp. destruct depth; [done|].
    assert (stat_find_stat (stats db) name = Some s) as Hf by (by rewrite find_position, Hp).
    by rewrite !(formula_step depth db name _ s e Hf Hv Hwf).
Qed.

Lemma choose_env (l : list (list Z)) (P : list Z -> outcome result -> Prop) :
  (forall x, x ∈ l -> exists d, P x d) -> exists env, forall x, x ∈ l -> P x (env x).
Proof.
  induction l as [|y l IH]; intros H; [exists (fun _ => Undef); intros x Hx; by apply elem_of_nil in Hx|].
  destruct (H y) as [d Hd]; [by apply elem_of_cons; left|].
  destruct IH as [env Henv]; [intros x Hx; apply H; by apply elem_of_cons; right|].
  exists (fun x => if decide (x = y) then d else env x). intros x Hx. destruct (decide (x = y)) as [->|Hn]; [done|].
  apply Henv. by apply elem_of_cons in Hx as [->|Hx].
Qed.

(** Every statistic has a meaning. *)
Lemma means_exists (db : stat_sdb_t) (i : nat) : formulas_ordered (stats db) -> (i < length (stats db))%nat ->
  exists d, stat_means db i d.
Proof.
  intros Hord. induction i as [i IH] using lt_wf_ind. intros Hi. destruct (lookup_lt_is_Some_2 _ _ Hi) as [s Hs].
  destruct (variant s) eqn:Hv; try (eexists; eapply means_variable; [exact Hs|rewrite Hv; reflexivity]).
  destruct (Hord i s formula Hs Hv) as (e & -> & Hwf & Hnames).
  destruct (choose_env (names_exp e) (fun x d => match position (stats db) x with None => d = Ok (inl ERR_UNDEFVAR) | Some j => stat_means db j d end))
    as [env Henv].
  { intros x Hx. specialize (Hnames x Hx). destruct (position (stats db) x) as [j|]; [|by eexists]. apply IH; lia. }
  exists (val_exp env e). apply (means_formula db i s); [done..| | |]; intros x; [|intros j..]; intros Hx Ej;
    specialize (Henv x Hx); specialize (Hnames x Hx); rewrite Ej in Henv, Hnames; done.
Qed.

End Formulas.

(** * Properties *)

(** An array distribution counts its samples: bucket [i] has its initial
    value and the samples whose index divided by the bucket size is [i], the
    overflows are the samples beyond the last bucket, modulo 2^32, and nothing
    else in the database changes. *)
Theorem dist_counts_samples name desc init arr_sz bucket_sz db samples :
  0 <= init < 2 ^ 32 -> 0 <= arr_sz -> 0 < bucket_sz -> Forall (fun s => 0 <= s.1) samples ->
  let '(stat, db1) := stat_reg_dist name desc init arr_sz bucket_sz db in
  exists db' d, add_all stat samples db1 = Ok db' /\ stats db' !! stat = Some (mk_stat name desc (for_dist d))
    /\ (forall i, (i < Z.to_nat arr_sz)%nat ->
          arr d !! i = Some (u32 (init + total (fun x => x / bucket_sz =? Z.of_nat i) samples)))
    /\ overflows d = u32 (total (fun x => arr_sz <=? x / bucket_sz) samples)
    /\ only_stat stat db1 db'.
Proof.
  intros Hi Ha Hb Hs. cbn.
  set (d0 := mk_dist init (repeat init (Z.to_nat arr_sz)) arr_sz bucket_sz 0).
  assert (dist_ok d0) as Hd0.
  { split; [done|]. split; [apply repeat_length|]. split; [done|]. split; [|done].
    apply Forall_forall. intros c Hc. apply list_elem_of_In, repeat_spec in Hc. by subst. }
  edestruct (add_all_dist (length (stats db)) name desc samples d0) as (db' & d & Hall & Hd & (_ & _ & _ & Harr & Hov) & Ho);
    [|exact Hd0|exact Hs|].
  2: { exists db', d. split_and!; [exact Hall|done| |exact Hov|exact Ho]. intros i Hlt. apply Harr. by apply lookup_repeat. }
  apply added_stat.
Qed.

(** C36: A sparse distribution prints a row for exactly the indices that were
    sampled, in increasing order, with the initial value and the number of samples
    of the index, modulo 2^32. *)
Theorem sdist_prints_samples name desc init db samples :
  0 <= init < 2 ^ 32 -> Forall (fun s => 0 <= s.1) samples ->
  let '(stat, db1) := stat_reg_sdist name desc init db in
  exists db' d, add_all stat samples db1 = Ok db' /\ stats db' !! stat = Some (mk_stat name desc (for_sdist d))
    /\ StronglySorted Z.lt (bucket_index <$> sdist_rows d)
    /\ (forall i c, mk_bucket i c ∈ sdist_rows d <-> i ∈ samples.*1 /\ c = u32 (init + total (Z.eqb i) samples))
    /\ only_stat stat db1 db'.
Proof.
  intros Hi Hs. unfold stat_reg_sdist, add_stat. set (d0 := mk_sdist init (repeat [] (Z.to_nat HTAB_SZ))).
  pose proof (fresh_shows init) as Hd0. fold d0 in Hd0.
  edestruct (add_all_sdist (length (stats db)) name desc samples d0 ∅) as (db' & d & Hall & Hd & Hshow & Ho); [|exact Hd0|exact Hs|].
  { apply added_stat. }
  assert (forall i, counted init samples ∅ !! i = if bool_decide (i ∈ samples.*1) then Some (u32 (init + total (Z.eqb i) samples)) else None) as Hm.
  { intros i. rewrite counted_lookup by done. erewrite bool_decide_ext; [reflexivity|]. rewrite lookup_empty. split; [intros [?|[? ?]]; done|by left]. }
  destruct (sdist_rows_shows d _ Hshow) as [Hsort Hrows].
  { intros i c. unfold d0; cbn [sdist_init]. rewrite Hm. case_bool_decide as Hin; [|done]. intros _.
    apply list_elem_of_fmap in Hin as (s & -> & Hin). rewrite Forall_forall in Hs. by apply Hs. }
  exists db', d. split_and!; [exact Hall|done|done| |exact Ho]. intros i c. rewrite Hrows. unfold d0; cbn [bucket_index count sdist_init].
  rewrite Hm. case_bool_decide; [split; [by intros [= <-]|by intros [_ ->]]|split; [done|by intros [? _]]].
Qed.

(** C22: When every formula is a well-formed expression over statistics
    registered before it, each formula has a meaning: its names mean those
    statistics (the value of the variable at its type, a long long as a double,
    or the meaning of their formula) or are undefined, and its operators are those
    of C on the types of their operands.  Evaluating the formula by its name gives
    this meaning, error or value, whatever is registered after it, in one
    level more than there are statistics up to it; printing it gives the error, or the
    value converted to double.  The terms are not converted before: an operation
    on two integer statistics is an integer operation, where the NOTE in stats.c
    has all terms immediately converted to double values. *)
Theorem stat_formula_value {fp : HostFP} {eh : EvalHost} db i name s formula depth err :
  formulas_ordered (stats db) -> position (stats db) name = Some i -> stats db !! i = Some s ->
  variant s = for_formula formula -> (S i < depth)%nat ->
  exists d, stat_means db i d
    /\ (forall d', stat_means db i d' -> d' = d)
    /\ stat_eval_ident depth db name err = ident_result d
    /\ stat_print_formula depth db formula = printed d
    /\ d <> NoFuel.
Proof.
  intros Hord Hp Hs Hv Hd. destruct (means_exists db i Hord (lookup_lt_Some _ _ _ Hs)) as [d Hm].
  destruct (means_evaluates db i d Hm) as [Hprop Hev]. destruct (means_prints db i s formula d depth Hm Hs Hv Hd) as [Hpr Herr].
  exists d. split_and!; [done| |by rewrite Herr; [apply Hev|]|done|by destruct Hprop].
  intros d' Hm'. destruct (means_evaluates db i d' Hm') as [Hprop' Hev']. apply ident_result_inj; [done..|].
  by rewrite <- (Hev' depth name Hp Hd), <- (Hev depth name Hp Hd).
Qed.

(** * Examples *)

Module StatExample.

#[export] Instance host : EvalHost := {
  long_bits := 32; strtod _ := None; cvt_S_U _ := 0; cvt_D_U _ := 0; cvt_U_S _ := 0; cvt_U_D _ := 0; cvt_D_L _ := 0;
}.

Definition ident (c : Z) : fac := F_ident [] [c].

(** [x] is an unsigned variable, [f] the formula "x+1", [g] the formula "f*x". *)
Definition f_tree : exp := E_add (T_fac (ident 120)) [] (E_trm (T_fac (F_const [] [49]))).
Definition g_tree : exp := E_trm (T_mult (ident 102) [] (T_fac (ident 120))).

Definition db : stat_sdb_t :=
  match stat_reg_uint [120] [] 1%positive 5 (stat_new {[1%positive := 0]}) with
  | Ok (_, db) => (stat_reg_formula [103] [] (print_exp g_tree) (stat_reg_formula [102] [] (print_exp f_tree) db).2).2
  | _ => stat_new ∅
  end.

(** A formula that names itself is evaluated without end. *)
Definition loop_db : stat_sdb_t := (stat_reg_formula [102] [] [102] (stat_new ∅)).2.

Lemma self_formula_never_ends {fp : HostFP} depth err : stat_eval_ident depth loop_db [102] err = NoFuel.
Proof.
  revert err. induction depth as [|depth IH]; intros err; [done|].
  rewrite (formula_step depth loop_db [102] err _ (E_trm (T_fac (ident 102))) eq_refl eq_refl eq_refl). repeat val_step.
  unfold ident. repeat val_step. unfold callback_env. by rewrite IH.
Qed.

(** "1 " has the value 0 and no error: the blank is left over, and only the
    printing of the formula itself looks at that. *)
Lemma left_over_is_zero : stat_eval_ident 2 (stat_reg_formula [102] [] [49; 32] (stat_new ∅)).2 [102] ERR_NOERR = Ok (as_int 0, ERR_NOERR).
Proof. vm_compute. reflexivity. Qed.

End StatExample.

#[local] Existing Instance StatExample.host.

Lemma dist_counts_samples_witness : exists db' d,
  add_all 0 [(3, 2); (100, 1); (2, 1)] (stat_reg_dist [120] [] 0 4 2 (stat_new ∅)).2 = Ok db'
  /\ stats db' !! 0%nat = Some (mk_stat [120] [] (for_dist d)) /\ arr d = [0; 3; 0; 0] /\ overflows d = 1.
Proof.
  destruct (dist_counts_samples [120] [] 0 4 2 (stat_new ∅) [(3, 2); (100, 1); (2, 1)]) as (db' & d & Hall & Hd & _);
    [lia..|repeat constructor; cbn; lia|].
  exists db', d. split; [exact Hall|]. split; [exact Hd|]. vm_compute in Hall. injection Hall as <-. injection Hd as <-. split; reflexivity.
Defined.

Lemma sdist_prints_samples_witness : exists db' d,
  add_all 0 [(4001, 18); (7, 1); (4001, 1)] (stat_reg_sdist [120] [] 0 (stat_new ∅)).2 = Ok db'
  /\ stats db' !! 0%nat = Some (mk_stat [120] [] (for_sdist d)) /\ sdist_rows d = [mk_bucket 7 1; mk_bucket 4001 19].
Proof.
  destruct (sdist_prints_samples [120] [] 0 (stat_new ∅) [(4001, 18); (7, 1); (4001, 1)]) as (db' & d & Hall & Hd & _);
    [lia|repeat constructor; cbn; lia|].
  exists db', d. split; [exact Hall|]. split; [exact Hd|]. vm_compute in Hall. injection Hall as <-. injection Hd as <-. vm_compute. reflexivity.
Defined.

Lemma stat_formula_value_witness : exists d,
  stat_means StatExample.db 2 d
  /\ stat_eval_ident 10 StatExample.db [103] ERR_NOERR = ident_result d
  /\ d = Ok (inr (as_uint 30)).
Proof.
  destruct (stat_formula_value StatExample.db 2 [103] (mk_stat [103] [] (for_formula (print_exp StatExample.g_tree)))
    (print_exp StatExample.g_tree) 10 ERR_NOERR) as (d & Hm & _ & Hev & _).
  - intros [|[|[|i]]] s formula; [cbn; intros [= <-]; discriminate| | |intros Hi; apply lookup_lt_Some in Hi; vm_compute in Hi; lia];
      intros [= <-] [= <-]; [exists StatExample.f_tree|exists StatExample.g_tree]; (split; [reflexivity|]; split; [reflexivity|]);
      intros x Hx; cbn in Hx; repeat (apply elem_of_cons in Hx as [->|Hx]; [vm_compute; lia|]); by apply elem_of_nil in Hx.
  - reflexivity.
  - reflexivity.
  - reflexivity.
  - lia.
  - exists d. split; [exact Hm|]. split; [exact Hev|]. vm_compute in Hev. revert Hev. clear Hm.
    destruct d as [[e|v]| | | | | |]; vm_compute; congruence.
Defined.
