(* ===== verification/Symbol.v ===== *)
(** symbol.c and symbol.h: the symbols of the program, by address and by name.

    [sym_loadsyms] is modelled from what it has read of the executable: the
    symbolic header, the table of names and the external symbols, in the build
    without libbfd.  A pointer to a symbol is its position in [sym_db].  qsort()
    is the host's: what it does with elements that compare equal is not known. *)

From S2P Require Import Prelude Misc.

(** ecoff.h: the symbol types that are loaded. *)
Definition ECOFF_stGlobal : Z := 1.
Definition ECOFF_stStatic : Z := 2.
Definition ECOFF_stLabel : Z := 5.
Definition ECOFF_stProc : Z := 6.
Definition ECOFF_stStaticProc : Z := 14.

(** [struct ecoff_EXTR], the fields that are read; [struct ecoff_symhdr_t]. *)
Record ecoff_EXTR := mk_extr { iss : Z; value : Z; st : Z }.
Record ecoff_symhdr_t := mk_symhdr { issMax : Z; issExtMax : Z; isymMax : Z; iextMax : Z }.

Inductive sym_seg_t := ss_data | ss_text.
Inductive sym_db_t := sdb_any | sdb_text | sdb_data.

#[global] Instance sym_seg_eq_dec : EqDecision sym_seg_t.
Proof. solve_decision. Defined.

Record sym_sym_t := mk_sym {
  name : list Z;
  seg : sym_seg_t;
  initialized : Z;
  pub : Z;
  local : Z;
  sym_addr : Z;
  sym_size : Z;
}.
#[global] Instance eta_sym : Eta sym_sym_t := mk_eta (fun s =>
  mk_sym (name s) (seg s) (initialized s) (pub s) (local s) (sym_addr s) (sym_size s)).
#[global] Instance sym_sym_eq_dec : EqDecision sym_sym_t.
Proof. solve_decision. Defined.

Notation sym_ptr := nat (only parsing).

(** The global variables of symbol.c; the counts of the symbols are kept apart
    from the arrays. *)
Record symbols := mk_symbols {
  sym_db : list sym_sym_t;
  sym_nsyms : Z;
  sym_syms : list sym_ptr;
  sym_syms_by_name : list sym_ptr;
  sym_ntextsyms : Z;
  sym_textsyms : list sym_ptr;
  sym_textsyms_by_name : list sym_ptr;
  sym_ndatasyms : Z;
  sym_datasyms : list sym_ptr;
  sym_datasyms_by_name : list sym_ptr;
  syms_loaded : bool;
}.
#[global] Instance eta_symbols : Eta symbols := mk_eta (fun y =>
  mk_symbols (sym_db y) (sym_nsyms y) (sym_syms y) (sym_syms_by_name y) (sym_ntextsyms y) (sym_textsyms y)
    (sym_textsyms_by_name y) (sym_ndatasyms y) (sym_datasyms y) (sym_datasyms_by_name y) (syms_loaded y)).

Definition no_symbols : symbols := mk_symbols [] 0 [] [] 0 [] [] 0 [] [] false.

(** The strings of C. *)
Fixpoint c_string (s : list Z) : outcome (list Z) :=
  match s with
  | [] => Undef
  | c :: s => if c =? 0 then Ok [] else r ← c_string s; Ok (c :: r)
  end.

Definition strtab_string (tab : list Z) (offset : Z) : outcome (list Z) :=
  if (offset <? 0) || (Z.of_nat (length tab) <? offset) then Undef else c_string (drop (Z.to_nat offset) tab).

(** strcmp(): the sign of the first difference of unsigned characters. *)
Fixpoint strcmp (s1 s2 : list Z) : Z :=
  match s1, s2 with
  | [], [] => 0
  | [], _ => -1
  | _, [] => 1
  | c1 :: s1, c2 :: s2 => if c1 <? c2 then -1 else if c2 <? c1 then 1 else strcmp s1 s2
  end.

(** qsort() with a comparison function. *)
Class Qsort := qsort : (sym_ptr -> sym_ptr -> Z) -> list sym_ptr -> list sym_ptr.

(** * Loading *)

(** A symbol of the table, if its type is one of a segment. *)
Definition seg_of (st : Z) : option sym_seg_t :=
  if (st =? ECOFF_stGlobal) || (st =? ECOFF_stStatic) then Some ss_data
  else if (st =? ECOFF_stProc) || (st =? ECOFF_stStaticProc) || (st =? ECOFF_stLabel) then Some ss_text
  else None.

(** The loop that converts symbols: the database, and how many data and text
    symbols there are. *)
Fixpoint convert_syms (issMax : Z) (strtab : list Z) (extr : list ecoff_EXTR) (db : list sym_sym_t) (ndata ntext : Z)
    : outcome (list sym_sym_t * Z * Z) :=
  match extr with
  | [] => Ok (db, ndata, ntext)
  | x :: extr =>
      match seg_of (st x) with
      | None => convert_syms issMax strtab extr db ndata ntext
      | Some sg =>
          n ← strtab_string strtab (issMax + iss x);
          let db := db ++ [mk_sym n sg 1 1 0 (u32 (value x)) 0] in
          match sg with
          | ss_data => convert_syms issMax strtab extr db (ndata + 1) ntext
          | ss_text => convert_syms issMax strtab extr db ndata (ntext + 1)
          end
      end
  end.

Section Sorting.
Context {sort : Qsort}.
Variable db : list sym_sym_t.

(** The fields that the comparison functions read through the pointers. *)
Definition addr_at (p : sym_ptr) : Z := match db !! p with Some s => sym_addr s | None => 0 end.
Definition name_at (p : sym_ptr) : list Z := match db !! p with Some s => name s | None => [] end.

Definition acmp (sym1 sym2 : sym_ptr) : Z := s32 (u32 (addr_at sym1 - addr_at sym2)).
Definition ncmp (sym1 sym2 : sym_ptr) : Z := strcmp (name_at sym1) (name_at sym2).

(** The pointers to the symbols of a segment, of all if none is given. *)
Definition in_seg (sg : option sym_seg_t) (s : sym_sym_t) : bool :=
  match sg with Some sg => bool_decide (seg s = sg) | None => true end.

Definition collect_syms (sg : option sym_seg_t) : list sym_ptr :=
  filter (fun p => match db !! p with Some s => in_seg sg s | None => false end = true) (seq 0 (length db)).

(** One pair of sorted arrays: the check that all symbols counted were found. *)
Definition sorted_syms (sg : option sym_seg_t) (count : Z) : outcome (list sym_ptr * list sym_ptr) :=
  let ps := collect_syms sg in
  if negb (Z.of_nat (length ps) =? count) then Panic else Ok (qsort acmp ps, qsort ncmp ps).

End Sorting.

(** The size of the [i]-th symbol of a segment is the distance to the next, or to
    the end of the segment. *)
Definition size_sym (syms : list sym_ptr) (nsyms seg_end : Z) (i : nat) (db : list sym_sym_t) : outcome (list sym_sym_t) :=
  p ← c_get syms i;
  s ← c_get db p;
  next ← (if negb (Z.of_nat i =? nsyms - 1) then q ← c_get syms (S i); t ← c_get db q; Ok (sym_addr t) else Ok seg_end);
  c_upd db p (fun s' => s' <| sym_size := s32 (u32 (next - sym_addr s)) |>).

Fixpoint size_syms (syms : list sym_ptr) (nsyms seg_end : Z) (idx : list nat) (db : list sym_sym_t) : outcome (list sym_sym_t) :=
  match idx with
  | [] => Ok db
  | i :: idx => db ← size_sym syms nsyms seg_end i db; size_syms syms nsyms seg_end idx db
  end.

(** [sym_loadsyms]; [text_end] and [data_end] are the ends of the segments
    [ld_text_base + ld_text_size] and [ld_data_base + ld_data_size]. *)
Definition sym_loadsyms {sort : Qsort} (symhdr : ecoff_symhdr_t) (strtab : list Z) (extr : list ecoff_EXTR) (text_end data_end : Z) (y : symbols)
    : outcome symbols :=
  if syms_loaded y then Ok y
  else
    _ ← fatal_if (isymMax symhdr + iextMax symhdr <=? 0);
    '(db, ndata, ntext) ← convert_syms (issMax symhdr) strtab (take (Z.to_nat (iextMax symhdr)) extr) [] 0 0;
    let nsyms := Z.of_nat (length db) in
    '(syms, syms_by_name) ← sorted_syms db None nsyms;
    '(textsyms, textsyms_by_name) ← sorted_syms db (Some ss_text) ntext;
    '(datasyms, datasyms_by_name) ← sorted_syms db (Some ss_data) ndata;
    db ← size_syms textsyms ntext (u32 text_end) (seq 0 (Z.to_nat ntext)) db;
    db ← size_syms datasyms ndata (u32 data_end) (seq 0 (Z.to_nat ndata)) db;
    Ok (mk_symbols db nsyms syms syms_by_name ntext textsyms textsyms_by_name ndata datasyms datasyms_by_name true).

(** * Searches *)

(** [syms[pos]]. *)
Definition sym_at (syms : list sym_ptr) (pos : Z) (y : symbols) : outcome (sym_ptr * sym_sym_t) :=
  if pos <? 0 then Undef else p ← c_get syms (Z.to_nat pos); s ← c_get (sym_db y) p; Ok (p, s).

(** The binary search: [cmp] of the symbol at [pos] is zero for a match, positive
    if what is searched is before it. *)
Fixpoint bind_loop (fuel : nat) (syms : list sym_ptr) (cmp : sym_sym_t -> Z) (y : symbols) (low high pos : Z)
    : outcome (option sym_ptr * Z) :=
  match fuel with
  | O => NoFuel
  | S fuel =>
      '(p, s) ← sym_at syms pos y;
      if cmp s =? 0 then Ok (Some p, pos)
      else
        let '(low, high) := if 0 <? cmp s then (low, pos - 1) else (pos + 1, high) in
        if low <=? high then bind_loop fuel syms cmp y low high (Z.shiftr (low + high) 1) else Ok (None, -1)
  end.

(** The match of [sym_bind_addr]: the address, or an address inside the symbol. *)
Definition bound_addr (addr : Z) (exact : bool) (s : sym_sym_t) : bool :=
  if exact then sym_addr s =? addr
  else (sym_addr s <=? addr) && (addr <? u32 (sym_addr s + MAX 1 (sym_size s))).

Definition addr_cmp (addr : Z) (exact : bool) (s : sym_sym_t) : Z :=
  if bound_addr addr exact s then 0 else if addr <? sym_addr s then 1 else -1.

(** The symbols of a database, by address and by name. *)
Definition db_syms (db : sym_db_t) (y : symbols) : list sym_ptr * list sym_ptr * Z :=
  match db with
  | sdb_any => (sym_syms y, sym_syms_by_name y, sym_nsyms y)
  | sdb_text => (sym_textsyms y, sym_textsyms_by_name y, sym_ntextsyms y)
  | sdb_data => (sym_datasyms y, sym_datasyms_by_name y, sym_ndatasyms y)
  end.

Definition bind_syms (syms : list sym_ptr) (nsyms : Z) (cmp : sym_sym_t -> Z) (y : symbols) : outcome (option sym_ptr * Z) :=
  if nsyms =? 0 then Ok (None, -1)
  else bind_loop (S (Z.to_nat nsyms)) syms cmp y 0 (nsyms - 1) (Z.shiftr (0 + (nsyms - 1)) 1).

(** [sym_bind_addr] and [sym_bind_name]: the symbol, or NULL, and [*pindex]. *)
Definition sym_bind_addr (addr : Z) (exact : bool) (db : sym_db_t) (y : symbols) : outcome (option sym_ptr * Z) :=
  let '(syms, _, nsyms) := db_syms db y in bind_syms syms nsyms (addr_cmp addr exact) y.

Definition sym_bind_name (n : list Z) (db : sym_db_t) (y : symbols) : outcome (option sym_ptr * Z) :=
  let '(_, syms, nsyms) := db_syms db y in bind_syms syms nsyms (fun s => strcmp (name s) n) y.
