(* ===== verification/SymbolProps.v ===== *)
(** The properties of the symbol tables of symbol.c: after loading, a search by
    address gives the symbol that contains the address, a search by name a symbol
    of that name, whenever there is one. *)

From stdpp Require Import sorting.
From S2P Require Import Prelude Misc Symbol.

(** What the C standard says of qsort(): a permutation, in the order of a
    comparison function that is one. *)
Class QsortLaws (sort : Qsort) : Prop := {
  qsort_perm cmp l : qsort cmp l ≡ₚ l;
  qsort_sorted cmp l :
    (forall a b, cmp a b <= 0 \/ cmp b a <= 0) -> (forall a b c, cmp a b <= 0 -> cmp b c <= 0 -> cmp a c <= 0) ->
    StronglySorted (fun a b => cmp a b <= 0) (qsort cmp l);
}.

(** * The binary search *)

Section Search.
Variable (y : symbols) (syms : list sym_ptr) (cmp : sym_sym_t -> Z).

(** The [i]-th symbol of the array. *)
Definition nth_sym (i : nat) (p : sym_ptr) (s : sym_sym_t) : Prop := syms !! i = Some p /\ sym_db y !! p = Some s.

Hypothesis all_syms : forall i, (i < length syms)%nat -> exists p s, nth_sym i p s.

(** Symbols before the match compare below zero, those behind it above. *)
Hypothesis cmp_mono : forall i j p q s t, (i < j)%nat -> nth_sym i p s -> nth_sym j q t ->
  (0 < cmp s -> 0 < cmp t) /\ (cmp t < 0 -> cmp s < 0).

Definition search_result (r : option sym_ptr * Z) : Prop :=
  match r with
  | (Some p, pos) => exists s, 0 <= pos /\ nth_sym (Z.to_nat pos) p s /\ cmp s = 0
  | (None, pos) => pos = -1 /\ forall i p s, nth_sym i p s -> cmp s <> 0
  end.

Lemma sym_at_nth (pos : Z) : 0 <= pos < Z.of_nat (length syms) ->
  exists p s, sym_at syms pos y = Ok (p, s) /\ nth_sym (Z.to_nat pos) p s.
Proof.
  intros Hp. destruct (all_syms (Z.to_nat pos) ltac:(lia)) as (p & s & Hs & Hd). exists p, s. split; [|done].
  unfold sym_at. rewrite (proj2 (Z.ltb_ge _ _)) by lia. rewrite (c_get_some _ _ _ Hs). cbn. by rewrite (c_get_some _ _ _ Hd).
Qed.

Lemma shiftr_middle (low high : Z) : low <= high -> low <= Z.shiftr (low + high) 1 <= high.
Proof. intros H. rewrite Z.shiftr_div_pow2 by lia. change (2 ^ 1) with 2. Z.to_euclidean_division_equations. lia. Qed.

Lemma bind_loop_finds (fuel : nat) (low high : Z) :
  0 <= low -> high < Z.of_nat (length syms) -> low <= high -> high - low < Z.of_nat fuel ->
  (forall i p s, nth_sym i p s -> Z.of_nat i < low -> cmp s < 0) ->
  (forall i p s, nth_sym i p s -> high < Z.of_nat i -> 0 < cmp s) ->
  exists r, bind_loop fuel syms cmp y low high (Z.shiftr (low + high) 1) = Ok r /\ search_result r.
Proof.
  revert low high. induction fuel as [|fuel IH]; intros low high Hl Hh Hlh Hf Hbelow Habove; [lia|].
  pose proof (shiftr_middle low high Hlh) as Hm. set (pos := Z.shiftr (low + high) 1) in *.
  destruct (sym_at_nth pos ltac:(lia)) as (p & s & Hat & Hn). cbn [bind_loop]. rewrite Hat. cbn [mbind outcome_bind].
  destruct (cmp s =? 0) eqn:E0.
  { apply Z.eqb_eq in E0. eexists. split; [reflexivity|]. cbn. exists s. split; [lia|done]. }
  apply Z.eqb_neq in E0. destruct (0 <? cmp s) eqn:E1; [apply Z.ltb_lt in E1|apply Z.ltb_ge in E1].
  - assert (forall i q t, nth_sym i q t -> pos - 1 < Z.of_nat i -> 0 < cmp t) as Habove'.
    { intros i q t Hi Hpos. destruct (decide (i = Z.to_nat pos)) as [->|Hne].
      - destruct Hi as [Hi1 Hi2], Hn as [Hn1 Hn2]. by simplify_eq.
      - apply (cmp_mono (Z.to_nat pos) i p q s t ltac:(lia) Hn Hi). done. }
    destruct (low <=? pos - 1) eqn:E2; [apply Z.leb_le in E2; apply IH; try done; lia|apply Z.leb_gt in E2].
    eexists. split; [reflexivity|]. split; [done|]. intros i q t Hi.
    destruct (decide (Z.of_nat i < low)) as [Hlt|Hge]; [pose proof (Hbelow i q t Hi Hlt); lia|].
    pose proof (Habove' i q t Hi ltac:(lia)). lia.
  - assert (forall i q t, nth_sym i q t -> Z.of_nat i < pos + 1 -> cmp t < 0) as Hbelow'.
    { intros i q t Hi Hpos. destruct (decide (i = Z.to_nat pos)) as [->|Hne].
      - destruct Hi as [Hi1 Hi2], Hn as [Hn1 Hn2]. simplify_eq. lia.
      - apply (cmp_mono i (Z.to_nat pos) q p t s ltac:(lia) Hi Hn). lia. }
    destruct (pos + 1 <=? high) eqn:E2; [apply Z.leb_le in E2; apply IH; try done; lia|apply Z.leb_gt in E2].
    eexists. split; [reflexivity|]. split; [done|]. intros i q t Hi.
    destruct (decide (high < Z.of_nat i)) as [Hlt|Hge]; [pose proof (Habove i q t Hi Hlt); lia|].
    pose proof (Hbelow' i q t Hi ltac:(lia)). lia.
Qed.

Lemma bind_syms_finds : exists r, bind_syms syms (Z.of_nat (length syms)) cmp y = Ok r /\ search_result r.
Proof.
  unfold bind_syms. destruct (Z.of_nat (length syms) =? 0) eqn:E; [apply Z.eqb_eq in E|apply Z.eqb_neq in E].
  - eexists. split; [reflexivity|]. split; [done|]. intros i p s [Hi _]. apply lookup_lt_Some in Hi. lia.
  - apply bind_loop_finds; try lia; intros i p s [Hi _]; apply lookup_lt_Some in Hi; lia.
Qed.

End Search.

(** * The comparison functions *)

Lemma strcmp_refl (a : list Z) : strcmp a a = 0.
Proof. induction a as [|c a IH]; cbn; [done|]. by rewrite Z.ltb_irrefl. Qed.

Lemma strcmp_eq (a b : list Z) : strcmp a b = 0 -> a = b.
Proof.
  revert b. induction a as [|c a IH]; intros [|d b]; cbn; try done.
  destruct (c <? d) eqn:E1; [done|]. destruct (d <? c) eqn:E2; [done|]. bool_to_prop. intros H. f_equal; [lia|auto].
Qed.

Lemma strcmp_anti (a b : list Z) : strcmp b a = - strcmp a b.
Proof.
  revert b. induction a as [|c a IH]; intros [|d b]; cbn; try done.
  destruct (c <? d) eqn:E1, (d <? c) eqn:E2; bool_to_prop; try done; lia.
Qed.

Lemma strcmp_trans (a b c : list Z) : strcmp a b <= 0 -> strcmp b c <= 0 -> strcmp a c <= 0.
Proof.
  revert b c. induction a as [|x a IH]; intros [|z b] [|w c]; cbn; try lia.
  repeat match goal with |- context [if ?b then _ else _] => destruct b eqn:?; bool_to_prop end; try lia. apply IH.
Qed.

(** Addresses less than half of the address space apart are compared as numbers. *)
Definition low_addrs (db : list sym_sym_t) : Prop := Forall (fun s => 0 <= sym_addr s < 2 ^ 31) db.

Lemma addr_at_low (db : list sym_sym_t) (p : sym_ptr) : low_addrs db -> 0 <= addr_at db p < 2 ^ 31.
Proof. intros H. unfold addr_at. destruct (db !! p) eqn:E; [|lia]. unfold low_addrs in H. rewrite Forall_lookup in H. eauto. Qed.

Lemma acmp_low (db : list sym_sym_t) (p q : sym_ptr) : low_addrs db -> acmp db p q = addr_at db p - addr_at db q.
Proof.
  intros H. pose proof (addr_at_low db p H). pose proof (addr_at_low db q H). unfold acmp. rewrite s32_u32. apply s32_small. lia.
Qed.

(** * Loading *)

(** ** The symbols of the file *)

(** [s] is the external symbol [x] of the file. *)
Definition from_extr (issMax : Z) (strtab : list Z) (x : ecoff_EXTR) (s : sym_sym_t) : Prop :=
  seg_of (st x) = Some (seg s) /\ strtab_string strtab (issMax + iss x) = Ok (name s) /\ sym_addr s = u32 (value x).

Lemma filter_agree {A : Type} (f g : A -> bool) (l : list A) :
  (forall x, x ∈ l -> f x = g x) -> filter (fun x => f x = true) l = filter (fun x => g x = true) l.
Proof.
  induction l as [|x l IH]; intros H; [done|]. rewrite !filter_cons, IH by set_solver.
  by rewrite (H x) by set_solver.
Qed.

Lemma filter_all {A : Type} (f : A -> bool) (l : list A) :
  (forall x, x ∈ l -> f x = true) -> filter (fun x => f x = true) l = l.
Proof.
  induction l as [|x l IH]; intros H; [done|]. rewrite filter_cons, IH by set_solver.
  by rewrite decide_True by (apply H; set_solver).
Qed.

Lemma collect_snoc (db : list sym_sym_t) (s : sym_sym_t) (sg : option sym_seg_t) :
  collect_syms (db ++ [s]) sg = collect_syms db sg ++ (if in_seg sg s then [length db] else []).
Proof.
  unfold collect_syms. rewrite length_app, Nat.add_comm. cbn [length plus]. rewrite seq_S, filter_app. cbn [plus]. f_equal.
  - apply filter_agree. intros p Hp. apply elem_of_seq in Hp. by rewrite lookup_app_l by lia.
  - rewrite filter_cons, filter_nil, lookup_app_r, Nat.sub_diag by done. cbn. by destruct (in_seg sg s).
Qed.

Lemma collect_elem (db : list sym_sym_t) (sg : option sym_seg_t) (p : sym_ptr) :
  p ∈ collect_syms db sg <-> exists s, db !! p = Some s /\ in_seg sg s = true.
Proof.
  unfold collect_syms. rewrite list_elem_of_filter, elem_of_seq. split.
  - intros [H _]. destruct (db !! p) as [s|]; [eauto|done].
  - intros (s & Hs & H). rewrite Hs. apply lookup_lt_Some in Hs. split; [done|lia].
Qed.

Lemma collect_nodup_syms (db : list sym_sym_t) (sg : option sym_seg_t) : NoDup (collect_syms db sg).
Proof. apply NoDup_filter, NoDup_seq. Qed.

Definition counts_ok (db : list sym_sym_t) (ndata ntext : Z) : Prop :=
  ndata = Z.of_nat (length (collect_syms db (Some ss_data))) /\ ntext = Z.of_nat (length (collect_syms db (Some ss_text))).

(** The conversion reads every symbol of a segment, counts it and nothing else. *)
Lemma convert_ok (issMax : Z) (strtab : list Z) (extr : list ecoff_EXTR) (db : list sym_sym_t) (ndata ntext : Z) :
  (forall x sg, x ∈ extr -> seg_of (st x) = Some sg -> exists n, strtab_string strtab (issMax + iss x) = Ok n) ->
  counts_ok db ndata ntext ->
  exists new ndata' ntext', convert_syms issMax strtab extr db ndata ntext = Ok (db ++ new, ndata', ntext')
    /\ counts_ok (db ++ new) ndata' ntext'
    /\ (forall s, s ∈ new -> exists x, x ∈ extr /\ from_extr issMax strtab x s)
    /\ (forall x sg, x ∈ extr -> seg_of (st x) = Some sg -> exists s, s ∈ new /\ from_extr issMax strtab x s).
Proof.
  revert db ndata ntext. induction extr as [|x extr IH]; intros db ndata ntext Hstr Hc.
  - exists [], ndata, ntext. rewrite app_nil_r. split_and!; [done|exact Hc|by intros s ?%elem_of_nil|by intros x sg ?%elem_of_nil].
  - assert (forall x' sg, x' ∈ extr -> seg_of (st x') = Some sg -> exists n, strtab_string strtab (issMax + iss x') = Ok n) as Hstr'
      by (intros x' sg Hx; apply (Hstr x' sg); by right).
    cbn [convert_syms]. destruct (seg_of (st x)) as [sg|] eqn:Esg.
    + destruct (Hstr x sg ltac:(by left) Esg) as [n Hn]. rewrite Hn. cbn [mbind outcome_bind].
      set (s := mk_sym n sg 1 1 0 (u32 (value x)) 0).
      assert (counts_ok (db ++ [s]) (if bool_decide (sg = ss_data) then ndata + 1 else ndata)
        (if bool_decide (sg = ss_text) then ntext + 1 else ntext)) as Hc'.
      { destruct Hc as [-> ->]. unfold counts_ok. rewrite !collect_snoc, !length_app. cbn [in_seg seg s].
        destruct sg; split; repeat case_bool_decide; try congruence; cbn [length]; lia. }
      destruct (IH _ _ _ Hstr' Hc') as (new & nd & nt & Hconv & Hcnt & Hfrom & Hall).
      exists (s :: new), nd, nt. rewrite <- app_assoc in Hconv, Hcnt. cbn [app] in Hconv, Hcnt.
      split_and!; [by destruct sg|exact Hcnt| |].
      * intros s' [->|Hs']%elem_of_cons; [exists x; split; [by left|done]|].
        destruct (Hfrom s' Hs') as (x' & Hx' & Hf). exists x'. split; [by right|done].
      * intros x' sg' [->|Hx']%elem_of_cons Hsg'; [exists s; split; [by left|done]|].
        destruct (Hall x' sg' Hx' Hsg') as (s' & Hs' & Hf). exists s'. split; [by right|done].
    + destruct (IH db ndata ntext Hstr' Hc) as (new & nd & nt & Hconv & Hcnt & Hfrom & Hall).
      exists new, nd, nt. split_and!; [done|exact Hcnt| |].
      * intros s Hs. destruct (Hfrom s Hs) as (x' & Hx' & Hf). exists x'. split; [by right|done].
      * intros x' sg [->|Hx']%elem_of_cons Hsg; [congruence|]. eauto.
Qed.

(** ** The sizes *)

(** The databases differ in the sizes of symbols only. *)
Definition same_but_size (db db' : list sym_sym_t) : Prop :=
  length db' = length db /\ forall p s', db' !! p = Some s' -> exists s, db !! p = Some s /\ s' = (s <| sym_size := sym_size s' |>).

Lemma same_but_size_refl (db : list sym_sym_t) : same_but_size db db.
Proof. split; [done|]. intros p s Hs. exists s. split; [done|by destruct s]. Qed.

Lemma same_but_size_trans (db1 db2 db3 : list sym_sym_t) : same_but_size db1 db2 -> same_but_size db2 db3 -> same_but_size db1 db3.
Proof.
  intros [L1 H1] [L2 H2]. split; [congruence|]. intros p s3 H3. destruct (H2 p s3 H3) as (s2 & Hs2 & E2).
  destruct (H1 p s2 Hs2) as (s1 & Hs1 & E1). exists s1. split; [done|]. rewrite E2, E1. by destruct s1.
Qed.

Lemma same_lookup (db db' : list sym_sym_t) (p : sym_ptr) : same_but_size db db' ->
  addr_at db' p = addr_at db p /\ name_at db' p = name_at db p
  /\ forall sg, (exists s, db' !! p = Some s /\ in_seg sg s = true) <-> (exists s, db !! p = Some s /\ in_seg sg s = true).
Proof.
  intros [Hl H]. unfold addr_at, name_at. destruct (db' !! p) as [s'|] eqn:E.
  - destruct (H p s' E) as (s & Hs & Heq). rewrite Hs. rewrite Heq. split_and!; [done..|].
    intros sg. split; intros (t & [= <-] & Ht); eexists; split; try done; by destruct sg.
  - assert (db !! p = None) as -> by (apply lookup_ge_None in E; apply lookup_ge_None; lia).
    split_and!; [done..|]. intros sg. split; by intros (s & ? & _).
Qed.

(** What [size_sym] computes for the [i]-th symbol. *)
Definition next_addr (db : list sym_sym_t) (syms : list sym_ptr) (seg_end : Z) (i : nat) : Z :=
  match syms !! S i with Some q => addr_at db q | None => seg_end end.

Lemma size_sym_ok (syms : list sym_ptr) (seg_end : Z) (i : nat) (p : sym_ptr) (db : list sym_sym_t) :
  (forall q, q ∈ syms -> is_Some (db !! q)) -> syms !! i = Some p ->
  exists s db', db !! p = Some s /\ size_sym syms (Z.of_nat (length syms)) seg_end i db = Ok db'
    /\ db' = <[p := s <| sym_size := s32 (u32 (next_addr db syms seg_end i - sym_addr s)) |>]> db.
Proof.
  intros Hv Hi. destruct (Hv p (list_elem_of_lookup_2 _ _ _ Hi)) as [s Hs]. exists s.
  eexists. split; [done|]. split; [|reflexivity]. unfold size_sym. rewrite (c_get_some _ _ _ Hi). cbn.
  rewrite (c_get_some _ _ _ Hs). cbn. apply lookup_lt_Some in Hi. unfold next_addr.
  destruct (syms !! S i) as [q|] eqn:Hq.
  - apply lookup_lt_Some in Hq as Hlt. rewrite (proj2 (Z.eqb_neq _ _)) by lia. cbn. rewrite (c_get_some _ _ _ Hq). cbn.
    destruct (Hv q (list_elem_of_lookup_2 _ _ _ Hq)) as [t Ht]. rewrite (c_get_some _ _ _ Ht). cbn.
    rewrite (c_upd_insert _ _ _ _ Hs). unfold addr_at. by rewrite Ht.
  - apply lookup_ge_None in Hq. rewrite (proj2 (Z.eqb_eq _ _)) by lia. cbn. by rewrite (c_upd_insert _ _ _ _ Hs).
Qed.

Lemma insert_same_but_size (db : list sym_sym_t) (p : sym_ptr) (s : sym_sym_t) (z : Z) :
  db !! p = Some s -> same_but_size db (<[p := s <| sym_size := z |>]> db).
Proof.
  intros Hs. split; [by rewrite length_insert|]. intros q s' [(<- & <- & _)|[Hne Hq]]%list_lookup_insert_Some.
  - exists s. done.
  - exists s'. split; [done|by destruct s'].
Qed.

Lemma size_syms_ok (syms : list sym_ptr) (seg_end : Z) (idx : list nat) (db : list sym_sym_t) :
  NoDup syms -> (forall q, q ∈ syms -> is_Some (db !! q)) -> NoDup idx -> (forall i, i ∈ idx -> (i < length syms)%nat) ->
  exists db', size_syms syms (Z.of_nat (length syms)) seg_end idx db = Ok db' /\ same_but_size db db'
    /\ (forall i p s, i ∈ idx -> syms !! i = Some p -> db' !! p = Some s -> sym_size s = s32 (u32 (next_addr db syms seg_end i - sym_addr s)))
    /\ (forall p, (forall i, i ∈ idx -> syms !! i <> Some p) -> db' !! p = db !! p).
Proof.
  intros Hnd. revert db. induction idx as [|i idx IH]; intros db Hv Hni Hlt.
  - exists db. split_and!; [done|apply same_but_size_refl|by intros i p s ?%elem_of_nil|done].
  - apply NoDup_cons in Hni as [Hi Hni]. destruct (lookup_lt_is_Some_2 syms i ltac:(apply Hlt; by left)) as [p Hp].
    destruct (size_sym_ok syms seg_end i p db Hv Hp) as (s & db1 & Hs & Hrun & Heq).
    assert (same_but_size db db1) as Hsame by (subst db1; by apply insert_same_but_size).
    destruct (IH db1) as (db' & Hrun' & Hsame' & Hsize & Hother); [|done|intros j Hj; apply Hlt; by right|].
    { intros q Hq. rewrite <- not_eq_None_Some. intros Hn. apply lookup_ge_None in Hn. destruct Hsame as [Hl _].
      destruct (Hv q Hq) as [? Hq']. apply lookup_lt_Some in Hq'. lia. }
    exists db'. cbn [size_syms]. rewrite Hrun. cbn [mbind outcome_bind].
    split_and!; [done|by apply (same_but_size_trans _ db1)| |].
    + intros j q t [->|Hj]%elem_of_cons Hq Ht.
      * rewrite Hp in Hq. injection Hq as <-. rewrite (Hother p) in Ht.
        2: { intros j Hj Hjp. apply Hi. by rewrite (NoDup_lookup syms i j p Hnd Hp Hjp). }
        rewrite Heq, list_lookup_insert_eq in Ht by (by apply lookup_lt_Some in Hs). by injection Ht as <-.
      * rewrite (Hsize j q t Hj Hq Ht). unfold next_addr. destruct (syms !! S j) as [q'|]; [|done].
        by rewrite (proj1 (same_lookup db db1 q' Hsame)).
    + intros q Hq. rewrite Hother by (intros j Hj; apply Hq; by right). rewrite Heq, list_lookup_insert_ne; [done|].
      intros ->. apply (Hq i); [by left|done].
Qed.

(** ** The arrays *)

(** The array lists the symbols of a segment once each. *)
Definition lists_syms (db : list sym_sym_t) (sg : option sym_seg_t) (l : list sym_ptr) : Prop :=
  NoDup l /\ forall p, p ∈ l <-> exists s, db !! p = Some s /\ in_seg sg s = true.

Definition by_addr (db : list sym_sym_t) (l : list sym_ptr) : Prop := StronglySorted (fun p q => addr_at db p <= addr_at db q) l.
Definition by_name (db : list sym_sym_t) (l : list sym_ptr) : Prop := StronglySorted (fun p q => strcmp (name_at db p) (name_at db q) <= 0) l.

(** The two arrays of a database. *)
Definition arrays_ok (db : list sym_sym_t) (sg : option sym_seg_t) (l : list sym_ptr * list sym_ptr * Z) : Prop :=
  (lists_syms db sg l.1.1 /\ by_addr db l.1.1 /\ l.2 = Z.of_nat (length l.1.1))
  /\ (lists_syms db sg l.1.2 /\ by_name db l.1.2 /\ l.2 = Z.of_nat (length l.1.2)).

Lemma StronglySorted_weaken {A : Type} (R R' : A -> A -> Prop) (l : list A) :
  (forall a b, R a b -> R' a b) -> StronglySorted R l -> StronglySorted R' l.
Proof. intros H. induction 1 as [|a l Hs IH Ha]; constructor; [done|]. eapply Forall_impl; [exact Ha|]. auto. Qed.

Lemma arrays_same (db db' : list sym_sym_t) (sg : option sym_seg_t) (l : list sym_ptr * list sym_ptr * Z) :
  same_but_size db db' -> arrays_ok db sg l -> arrays_ok db' sg l.
Proof.
  intros Hsame ([[N1 L1] [S1 C1]] & [[N2 L2] [S2 C2]]).
  split; (split; [split; [done|]; intros p; rewrite (proj2 (proj2 (same_lookup db db' p Hsame)) sg); auto|]; split; [|done]).
  - eapply StronglySorted_weaken; [|exact S1]. intros p q. cbn.
    by rewrite (proj1 (same_lookup db db' p Hsame)), (proj1 (same_lookup db db' q Hsame)).
  - eapply StronglySorted_weaken; [|exact S2]. intros p q. cbn.
    by rewrite (proj1 (proj2 (same_lookup db db' p Hsame))), (proj1 (proj2 (same_lookup db db' q Hsame))).
Qed.

Section Loading.
Context {sort : Qsort} {laws : QsortLaws sort}.

Lemma sorted_syms_ok (db : list sym_sym_t) (sg : option sym_seg_t) (cnt : Z) :
  low_addrs db -> cnt = Z.of_nat (length (collect_syms db sg)) ->
  exists a n, sorted_syms db sg cnt = Ok (a, n) /\ arrays_ok db sg (a, n, cnt).
Proof.
  intros Hlow ->. unfold sorted_syms. rewrite Z.eqb_refl. eexists _, _. split; [reflexivity|].
  assert (forall cmp, lists_syms db sg (qsort cmp (collect_syms db sg))
    /\ Z.of_nat (length (collect_syms db sg)) = Z.of_nat (length (qsort cmp (collect_syms db sg)))) as H.
  { intros cmp. pose proof (qsort_perm cmp (collect_syms db sg)) as Hp. split; [|by rewrite Hp].
    split; [rewrite Hp; apply collect_nodup_syms|]. intros p. rewrite Hp. apply collect_elem. }
  split; (split; [apply H|]; split; [|apply H]); cbn.
  - eapply StronglySorted_weaken; [|apply qsort_sorted]; cbn; intros; rewrite !acmp_low in * by done; lia.
  - apply (qsort_sorted (ncmp db)); unfold ncmp; [|intros; by eapply strcmp_trans].
    intros a b. rewrite (strcmp_anti (name_at db a) (name_at db b)). lia.
Qed.

Variables (symhdr : ecoff_symhdr_t) (strtab : list Z) (extr : list ecoff_EXTR) (text_end data_end : Z).

Definition db_seg (db : sym_db_t) : option sym_seg_t :=
  match db with sdb_any => None | sdb_text => Some ss_text | sdb_data => Some ss_data end.

(** The file as it is read: [extr] has the external symbols that the header
    announces, whose names are in the table; and all addresses and the ends of
    the segments are in the lower half of the address space, where the programs
    of the simulator are. *)
Record file_ok : Prop := {
  file_count : iextMax symhdr = Z.of_nat (length extr);
  file_nonempty : 0 < isymMax symhdr + iextMax symhdr;
  file_names : forall x sg, x ∈ extr -> seg_of (st x) = Some sg -> exists n, strtab_string strtab (issMax symhdr + iss x) = Ok n;
  file_values : forall x, x ∈ extr -> 0 <= value x < 2 ^ 31;
  file_ends : 0 <= text_end < 2 ^ 31 /\ 0 <= data_end < 2 ^ 31;
}.

(** The symbol tables of the file. *)
Record loaded (y : symbols) : Prop := {
  loaded_from : forall s, s ∈ sym_db y -> exists x, x ∈ extr /\ from_extr (issMax symhdr) strtab x s;
  loaded_all : forall x sg, x ∈ extr -> seg_of (st x) = Some sg -> exists s, s ∈ sym_db y /\ from_extr (issMax symhdr) strtab x s;
  loaded_low : low_addrs (sym_db y);
  loaded_arrays : forall db, arrays_ok (sym_db y) (db_seg db) (db_syms db y);
  loaded_text : forall i p s, sym_textsyms y !! i = Some p -> sym_db y !! p = Some s ->
    sym_size s = s32 (u32 (next_addr (sym_db y) (sym_textsyms y) text_end i - sym_addr s));
  loaded_data : forall i p s, sym_datasyms y !! i = Some p -> sym_db y !! p = Some s ->
    sym_size s = s32 (u32 (next_addr (sym_db y) (sym_datasyms y) data_end i - sym_addr s));
}.

Lemma from_low (db : list sym_sym_t) :
  file_ok -> (forall s, s ∈ db -> exists x, x ∈ extr /\ from_extr (issMax symhdr) strtab x s) -> low_addrs db.
Proof.
  intros Hf H. apply Forall_forall. intros s Hs. destruct (H s Hs) as (x & Hx & _ & _ & ->).
  pose proof (file_values Hf x Hx). rewrite u32_small; lia.
Qed.

Lemma same_from (db db' : list sym_sym_t) (x : ecoff_EXTR) : same_but_size db db' ->
  (exists s, s ∈ db' /\ from_extr (issMax symhdr) strtab x s) <-> (exists s, s ∈ db /\ from_extr (issMax symhdr) strtab x s).
Proof.
  intros [Hl H]. split.
  - intros (s' & [p Hp]%list_elem_of_lookup & Hx). destruct (H p s' Hp) as (s & Hs & Heq).
    exists s. split; [by apply (list_elem_of_lookup_2 _ p)|]. by rewrite Heq in Hx.
  - intros (s & [p Hp]%list_elem_of_lookup & Hx). destruct (lookup_lt_is_Some_2 db' p) as [s' Hs'].
    { rewrite Hl. by apply lookup_lt_Some in Hp. }
    destruct (H p s' Hs') as (s0 & Hs0 & Heq). exists s'. split; [by apply (list_elem_of_lookup_2 _ p)|].
    rewrite Hp in Hs0. injection Hs0 as <-. by rewrite Heq.
Qed.

Lemma next_addr_same (db db' : list sym_sym_t) (syms : list sym_ptr) (e : Z) (i : nat) :
  same_but_size db db' -> next_addr db' syms e i = next_addr db syms e i.
Proof. intros H. unfold next_addr. destruct (syms !! S i); [apply (same_lookup db db' _ H)|done]. Qed.

(** The sizes of a segment, from arrays that list it. *)
Lemma sizes_ok (db0 db : list sym_sym_t) (sg : option sym_seg_t) (l : list sym_ptr * list sym_ptr * Z) (seg_end : Z) :
  same_but_size db0 db -> arrays_ok db0 sg l ->
  exists db', size_syms l.1.1 l.2 seg_end (seq 0 (Z.to_nat l.2)) db = Ok db' /\ same_but_size db db'
    /\ (forall i p s, l.1.1 !! i = Some p -> db' !! p = Some s -> sym_size s = s32 (u32 (next_addr db0 l.1.1 seg_end i - sym_addr s)))
    /\ (forall p, p ∉ l.1.1 -> db' !! p = db !! p).
Proof.
  intros Hsame ([[Hnd Hl] [_ Hc]] & _). rewrite Hc, Nat2Z.id.
  destruct (size_syms_ok l.1.1 seg_end (seq 0 (length l.1.1)) db Hnd) as (db' & Hrun & Hsame' & Hsize & Hother).
  - intros q Hq. apply Hl in Hq as (s & Hs & _). apply lookup_lt_Some in Hs. apply lookup_lt_is_Some_2.
    destruct Hsame as [-> _]. done.
  - apply NoDup_seq.
  - intros i Hi%elem_of_seq. lia.
  - exists db'. split_and!; [done|done| |].
    + intros i p s Hi Hs. rewrite <- (next_addr_same db0 db) by done. apply (Hsize i p s); [|done|done].
      apply lookup_lt_Some in Hi. apply elem_of_seq. lia.
    + intros p Hp. apply Hother. intros i _ Hi. apply Hp. by apply (list_elem_of_lookup_2 _ i).
Qed.

Lemma sym_loadsyms_ok : file_ok ->
  exists y, sym_loadsyms symhdr strtab extr text_end data_end no_symbols = Ok y /\ loaded y.
Proof.
  intros Hf. unfold sym_loadsyms. cbn [syms_loaded no_symbols].
  rewrite fatal_if_false by (apply Z.leb_gt, Hf). cbn [mbind outcome_bind].
  rewrite (file_count Hf), Nat2Z.id, take_ge by done.
  destruct (convert_ok (issMax symhdr) strtab extr [] 0 0 (file_names Hf)) as (db0 & nd & nt & Hconv & [Hnd Hnt] & Hfrom & Hall).
  { by split. }
  rewrite Hconv. cbn [mbind outcome_bind app] in *. pose proof (from_low db0 Hf Hfrom) as Hlow.
  assert (Z.of_nat (length db0) = Z.of_nat (length (collect_syms db0 None))) as Hn.
  { f_equal. unfold collect_syms. rewrite filter_all; [by rewrite length_seq|]. intros p Hp%elem_of_seq.
    destruct (lookup_lt_is_Some_2 db0 p ltac:(lia)) as [s ->]. done. }
  destruct (sorted_syms_ok db0 None _ Hlow Hn) as (a & n & Hs & Ha). rewrite Hs. cbn [mbind outcome_bind].
  destruct (sorted_syms_ok db0 (Some ss_text) _ Hlow Hnt) as (ta & tn & Hts & Hta). rewrite Hts. cbn [mbind outcome_bind].
  destruct (sorted_syms_ok db0 (Some ss_data) _ Hlow Hnd) as (da & dn & Hds & Hda). rewrite Hds. cbn [mbind outcome_bind].
  destruct (file_ends Hf) as [Ht Hd]. rewrite !u32_small by lia.
  destruct (sizes_ok db0 db0 _ _ text_end (same_but_size_refl db0) Hta) as (db1 & Hrun1 & Hsame1 & Hsize1 & _).
  destruct (sizes_ok db0 db1 _ _ data_end Hsame1 Hda) as (db2 & Hrun2 & Hsame2 & Hsize2 & Hother2). cbn [fst snd] in *.
  rewrite Hrun1. cbn [mbind outcome_bind]. rewrite Hrun2. cbn [mbind outcome_bind].
  assert (same_but_size db0 db2) as Hsame by (by apply (same_but_size_trans _ db1)).
  eexists. split; [reflexivity|]. split; cbn.
  - intros s [p Hp]%list_elem_of_lookup. destruct Hsame as [Hl Hp2]. destruct (Hp2 p s Hp) as (s0 & Hs0 & Heq).
    destruct (Hfrom s0 (list_elem_of_lookup_2 _ p _ Hs0)) as (x & Hx & Hxs). exists x. split; [done|]. by rewrite Heq.
  - intros x sg Hx Hsg. apply (same_from db0 db2 x Hsame). by apply (Hall x sg).
  - apply (from_low db2 Hf). intros s [p Hp]%list_elem_of_lookup. destruct Hsame as [Hl Hp2]. destruct (Hp2 p s Hp) as (s0 & Hs0 & Heq).
    destruct (Hfrom s0 (list_elem_of_lookup_2 _ p _ Hs0)) as (x & Hx & Hxs). exists x. split; [done|]. by rewrite Heq.
  - intros []; cbn; by apply (arrays_same db0 db2).
  - intros i p s Hi Hp. rewrite (next_addr_same db0 db2) by done. apply (Hsize1 i p s Hi). rewrite <- Hp. symmetry. apply Hother2.
    destruct Hta as ([[_ Hlt] _] & _), Hda as ([[_ Hld] _] & _). cbn in *.
    intros Hin. apply Hld in Hin as (s1 & Hs1 & Hd1). apply (list_elem_of_lookup_2 _ i) in Hi. apply Hlt in Hi as (s2 & Hs2 & Hd2).
    rewrite Hs1 in Hs2. injection Hs2 as <-. cbn in Hd1, Hd2. apply bool_decide_eq_true in Hd1, Hd2. congruence.
  - intros i p s Hi Hp. rewrite (next_addr_same db0 db2) by done. by apply (Hsize2 i p s).
Qed.

End Loading.

(** * Searching the tables *)

Lemma sorted_lookup {A : Type} (R : A -> A -> Prop) (l : list A) (i j : nat) (a b : A) :
  StronglySorted R l -> (i < j)%nat -> l !! i = Some a -> l !! j = Some b -> R a b.
Proof.
  intros Hs Hij Ha Hb. rewrite <- (take_drop_middle l i a Ha) in Hs.
  apply StronglySorted_app_1_r in Hs. apply StronglySorted_inv in Hs as [_ Hf]. rewrite Forall_forall in Hf. apply Hf.
  apply (list_elem_of_lookup_2 _ (j - S i)). rewrite lookup_drop. by replace (S i + (j - S i))%nat with j by lia.
Qed.

(** The last element that satisfies a decidable predicate. *)
Lemma last_position {A : Type} (P : A -> bool) (l : list A) : existsb P l = true ->
  exists i a, l !! i = Some a /\ P a = true /\ forall j b, (i < j)%nat -> l !! j = Some b -> P b = false.
Proof.
  induction l as [|a l IH]; cbn; [done|]. destruct (existsb P l) eqn:E.
  - intros _. destruct (IH eq_refl) as (i & b & Hi & Hb & Hj). exists (S i), b. split_and!; [done|done|].
    intros [|j] c Hlt Hc; [lia|]. apply (Hj j c); [lia|done].
  - rewrite orb_false_r. intros Ha. exists O, a. split_and!; [done|done|]. intros [|j] b Hlt Hb; [lia|]. cbn in Hb.
    apply not_true_is_false. intros HP. apply not_true_iff_false in E. apply E. apply existsb_exists. exists b.
    split; [by apply list_elem_of_In, (list_elem_of_lookup_2 _ j)|done].
Qed.

Section Searches.
Context {sort : Qsort} {laws : QsortLaws sort}.
Variables (symhdr : ecoff_symhdr_t) (strtab : list Z) (extr : list ecoff_EXTR) (text_end data_end : Z) (y : symbols).
Hypothesis Hy : loaded symhdr strtab extr text_end data_end y.

Lemma lists_nth (sg : option sym_seg_t) (l : list sym_ptr) : lists_syms (sym_db y) sg l ->
  (forall i, (i < length l)%nat -> exists p s, nth_sym y l i p s)
  /\ (forall i p s, nth_sym y l i p s -> in_seg sg s = true)
  /\ (forall s, s ∈ sym_db y -> in_seg sg s = true -> exists i p, nth_sym y l i p s).
Proof.
  intros [Hnd Hl]. split_and!.
  - intros i Hi. destruct (lookup_lt_is_Some_2 l i Hi) as [p Hp].
    destruct (proj1 (Hl p) (list_elem_of_lookup_2 _ _ _ Hp)) as (s & Hs & _). by exists p, s.
  - intros i p s [Hp Hs]. destruct (proj1 (Hl p) (list_elem_of_lookup_2 _ _ _ Hp)) as (t & Ht & Hin). by simplify_eq.
  - intros s [p Hp]%list_elem_of_lookup Hin. assert (p ∈ l) as [i Hi]%list_elem_of_lookup by (apply Hl; eauto). by exists i, p.
Qed.

Lemma nth_addr (l : list sym_ptr) (i : nat) (p : sym_ptr) (s : sym_sym_t) :
  nth_sym y l i p s -> addr_at (sym_db y) p = sym_addr s /\ name_at (sym_db y) p = name s /\ 0 <= sym_addr s < 2 ^ 31.
Proof.
  intros [_ Hs]. unfold addr_at, name_at. rewrite Hs. split_and!; [done..| |];
    pose proof (loaded_low _ _ _ _ _ _ Hy) as Hlow; unfold low_addrs in Hlow; rewrite Forall_lookup in Hlow; destruct (Hlow p s Hs); done.
Qed.

Lemma addr_sorted (l : list sym_ptr) (i j : nat) (p q : sym_ptr) (s t : sym_sym_t) :
  by_addr (sym_db y) l -> (i < j)%nat -> nth_sym y l i p s -> nth_sym y l j q t -> sym_addr s <= sym_addr t.
Proof.
  intros Hs Hij Hi Hj. destruct (nth_addr l i p s Hi) as (<- & _), (nth_addr l j q t Hj) as (<- & _).
  destruct Hi as [Hi _], Hj as [Hj _]. exact (sorted_lookup _ l i j p q Hs Hij Hi Hj).
Qed.

(** ** By name *)

Lemma bind_name_ok (db : sym_db_t) (n : list Z) :
  match sym_bind_name n db y with
  | Ok (Some p, _) => exists s, sym_db y !! p = Some s /\ in_seg (db_seg db) s = true /\ name s = n
  | Ok (None, pos) => pos = -1 /\ forall s, s ∈ sym_db y -> in_seg (db_seg db) s = true -> name s <> n
  | _ => False
  end.
Proof.
  destruct (loaded_arrays _ _ _ _ _ _ Hy db) as [_ (Hl & Hs & Hc)]. unfold sym_bind_name.
  destruct (db_syms db y) as [[a l] cnt]. cbn in Hl, Hs, Hc. subst cnt. destruct (lists_nth _ l Hl) as (Hall & Hin & Hex).
  destruct (bind_syms_finds y l (fun s => strcmp (name s) n) Hall) as (r & Hr & Hres).
  { intros i j p q s t Hij Hi Hj.
    assert (strcmp (name s) (name t) <= 0) as Hst.
    { destruct (nth_addr l i p s Hi) as (_ & <- & _), (nth_addr l j q t Hj) as (_ & <- & _).
      destruct Hi as [Hi _], Hj as [Hj _]. exact (sorted_lookup _ l i j p q Hs Hij Hi Hj). }
    rewrite (strcmp_anti n (name s)), (strcmp_anti n (name t)). split; intros H.
    - destruct (decide (strcmp n (name t) < 0)); [lia|]. pose proof (strcmp_anti n (name t)).
      pose proof (strcmp_trans (name s) (name t) n Hst ltac:(lia)). rewrite (strcmp_anti n (name s)) in *. lia.
    - destruct (decide (0 < strcmp n (name s))); [lia|].
      pose proof (strcmp_trans n (name s) (name t) ltac:(lia) Hst). lia. }
  rewrite Hr. destruct r as [[p|] pos]; cbn in Hres.
  - destruct Hres as (s & Hp & Hn & H0). exists s. split; [apply Hn|]. split; [by apply (Hin _ _ _ Hn)|by apply strcmp_eq].
  - destruct Hres as [-> Hnone]. split; [done|]. intros s Hs' Hseg <-. destruct (Hex s Hs' Hseg) as (i & p & Hi).
    by apply (Hnone i p s Hi), strcmp_refl.
Qed.

(** ** By address *)

Lemma bind_exact_ok (db : sym_db_t) (addr : Z) :
  match sym_bind_addr addr true db y with
  | Ok (Some p, _) => exists s, sym_db y !! p = Some s /\ in_seg (db_seg db) s = true /\ sym_addr s = addr
  | Ok (None, pos) => pos = -1 /\ forall s, s ∈ sym_db y -> in_seg (db_seg db) s = true -> sym_addr s <> addr
  | _ => False
  end.
Proof.
  destruct (loaded_arrays _ _ _ _ _ _ Hy db) as [(Hl & Hs & Hc) _]. unfold sym_bind_addr.
  destruct (db_syms db y) as [[l n] cnt]. cbn in Hl, Hs, Hc. subst cnt. destruct (lists_nth _ l Hl) as (Hall & Hin & Hex).
  destruct (bind_syms_finds y l (addr_cmp addr true) Hall) as (r & Hr & Hres).
  { intros i j p q s t Hij Hi Hj. pose proof (addr_sorted l i j p q s t Hs Hij Hi Hj). unfold addr_cmp, bound_addr.
    destruct (sym_addr s =? addr) eqn:?, (sym_addr t =? addr) eqn:?, (addr <? sym_addr s) eqn:?, (addr <? sym_addr t) eqn:?; bool_to_prop; lia. }
  rewrite Hr. destruct r as [[p|] pos]; cbn in Hres.
  - destruct Hres as (s & Hp & Hn & H0). exists s. split; [apply Hn|]. split; [by apply (Hin _ _ _ Hn)|].
    unfold addr_cmp, bound_addr in H0. destruct (sym_addr s =? addr) eqn:E; [by apply Z.eqb_eq|]. by destruct (addr <? sym_addr s).
  - destruct Hres as [-> Hnone]. split; [done|]. intros s Hs' Hseg Heq. destruct (Hex s Hs' Hseg) as (i & p & Hi).
    apply (Hnone i p s Hi). unfold addr_cmp, bound_addr. by rewrite (proj2 (Z.eqb_eq _ _) Heq).
Qed.

(** *** The symbols of a segment whose end is known *)

Section Segment.
Variables (sg : sym_seg_t) (l : list sym_ptr) (seg_end addr : Z).
Hypothesis Hl : lists_syms (sym_db y) (Some sg) l.
Hypothesis Hs : by_addr (sym_db y) l.
Hypothesis He : 0 <= seg_end < 2 ^ 31.
Hypothesis Hsize : forall i p s, l !! i = Some p -> sym_db y !! p = Some s ->
  sym_size s = s32 (u32 (next_addr (sym_db y) l seg_end i - sym_addr s)).
Hypothesis Hend : forall s, s ∈ sym_db y -> seg s = sg -> sym_addr s < seg_end.

Lemma segment_sym (i : nat) (p : sym_ptr) (s : sym_sym_t) : nth_sym y l i p s -> seg s = sg /\ sym_addr s < seg_end.
Proof.
  intros Hn. pose proof (proj1 (proj2 (lists_nth _ l Hl)) i p s Hn) as Hi. cbn in Hi. apply bool_decide_eq_true in Hi.
  split; [done|]. destruct Hn as [_ Hd]. apply Hend; [by apply (list_elem_of_lookup_2 _ p)|done].
Qed.

Lemma bound_next (s : sym_sym_t) (next : Z) : 0 <= sym_addr s < 2 ^ 31 -> sym_addr s <= next < 2 ^ 31 ->
  sym_size s = s32 (u32 (next - sym_addr s)) ->
  bound_addr addr false s = (sym_addr s <=? addr) && (addr <? Z.max (sym_addr s + 1) next).
Proof.
  intros Hlow Hn Hsz. rewrite s32_u32, s32_small in Hsz by lia. unfold bound_addr. rewrite Hsz. unfold MAX. f_equal.
  destruct (1 <? next - sym_addr s) eqn:E; bool_to_prop; rewrite u32_small by lia; f_equal; lia.
Qed.

(** A symbol extends to the next one, or to the end of the segment. *)
Lemma symbol_extent (i : nat) (p : sym_ptr) (s : sym_sym_t) : nth_sym y l i p s ->
  exists next, sym_addr s <= next <= seg_end
    /\ bound_addr addr false s = (sym_addr s <=? addr) && (addr <? Z.max (sym_addr s + 1) next)
    /\ (forall j q t, (i < j)%nat -> nth_sym y l j q t -> next <= sym_addr t)
    /\ (next < seg_end -> exists q t, nth_sym y l (S i) q t /\ sym_addr t = next).
Proof.
  intros Hn. destruct (nth_addr l i p s Hn) as (_ & _ & Hlow). destruct (segment_sym i p s Hn) as [_ Hse].
  pose proof (Hsize i p s (proj1 Hn) (proj2 Hn)) as Hsz. unfold next_addr in Hsz.
  destruct (l !! S i) as [q|] eqn:Hq.
  - destruct (proj1 (lists_nth _ l Hl) (S i)) as (q' & t & Ht); [by apply lookup_lt_Some in Hq|].
    assert (q' = q) as -> by (destruct Ht; congruence). destruct (nth_addr l (S i) q t Ht) as (Hqa & _ & Htlow).
    destruct (segment_sym (S i) q t Ht) as [_ Hte]. pose proof (addr_sorted l i (S i) p q s t Hs ltac:(lia) Hn Ht) as Hst.
    rewrite Hqa in Hsz. exists (sym_addr t). split_and!; [lia|lia|apply bound_next; lia| |by eauto].
    intros j q0 t0 Hj Ht0. destruct (decide (j = S i)) as [->|Hne].
    + destruct Ht as [? Ht1], Ht0 as [? Ht2]. simplify_eq. lia.
    + apply (addr_sorted l (S i) j q q0 t t0 Hs); [lia|done|done].
  - exists seg_end. split_and!; [lia|lia|apply bound_next; lia| |lia].
    intros j q t Hj [Ht _]. apply lookup_ge_None in Hq. apply lookup_lt_Some in Ht. lia.
Qed.

Lemma extent_mono (i j : nat) (p q : sym_ptr) (s t : sym_sym_t) : (i < j)%nat -> nth_sym y l i p s -> nth_sym y l j q t ->
  (0 < addr_cmp addr false s -> 0 < addr_cmp addr false t) /\ (addr_cmp addr false t < 0 -> addr_cmp addr false s < 0).
Proof.
  intros Hij Hi Hj. pose proof (addr_sorted l i j p q s t Hs Hij Hi Hj). unfold addr_cmp.
  destruct (symbol_extent i p s Hi) as (ns & Hns & -> & Hnj & _), (symbol_extent j q t Hj) as (nt & Hnt & -> & _). pose proof (Hnj j q t Hij Hj).
  repeat match goal with |- context [if ?b then _ else _] => destruct b eqn:? end; bool_to_prop;
    repeat match goal with H : _ && _ = false |- _ => apply andb_false_iff in H as [H|H] end; bool_to_prop; lia.
Qed.

(** A match is the nearest symbol. *)
Lemma match_nearest (i : nat) (p : sym_ptr) (s : sym_sym_t) : nth_sym y l i p s -> addr_cmp addr false s = 0 ->
  sym_addr s <= addr < seg_end /\ forall t, t ∈ sym_db y -> seg t = sg -> sym_addr t <= addr -> sym_addr t <= sym_addr s.
Proof.
  intros Hn H0. destruct (symbol_extent i p s Hn) as (next & Hb & Hbound & Hj & _). destruct (segment_sym i p s Hn) as [Hsg Hse].
  unfold addr_cmp in H0. rewrite Hbound in H0. destruct (_ && _) eqn:E in H0; [|by destruct (addr <? sym_addr s)]. bool_to_prop.
  split; [lia|]. intros t Ht Htsg Hta.
  destruct (proj2 (proj2 (lists_nth _ l Hl)) t Ht) as (j & q & Hjt); [cbn; by apply bool_decide_eq_true|].
  destruct (lt_eq_lt_dec j i) as [[Hlt|Heq]|Hgt].
  - apply (addr_sorted l j i q p t s Hs Hlt Hjt Hn).
  - subst j. destruct Hjt as [? Hd1], Hn as [? Hd2]. simplify_eq. lia.
  - pose proof (Hj j q t Hgt Hjt). pose proof (addr_sorted l _ j p q s t Hs Hgt Hn Hjt). lia.
Qed.

(** An address inside the segment and not before its first symbol has a match. *)
Lemma match_exists (t : sym_sym_t) : addr < seg_end -> t ∈ sym_db y -> seg t = sg -> sym_addr t <= addr ->
  exists i p s, nth_sym y l i p s /\ addr_cmp addr false s = 0.
Proof.
  intros Hlt Ht Htsg Hta. destruct (lists_nth _ l Hl) as (Hall & _ & Hex).
  destruct (Hex t Ht) as (j & q & Hjt); [cbn; by apply bool_decide_eq_true|].
  destruct (last_position (fun p => addr_at (sym_db y) p <=? addr) l) as (i & p & Hi & Hpa & Hlast).
  { apply existsb_exists. exists q. destruct (nth_addr l j q t Hjt) as (-> & _). split; [|apply Z.leb_le; lia].
    apply list_elem_of_In, (list_elem_of_lookup_2 _ j), Hjt. }
  destruct (Hall i (lookup_lt_Some _ _ _ Hi)) as (p' & s & Hn). assert (p' = p) as -> by (destruct Hn; congruence).
  destruct (nth_addr l i p s Hn) as (Hpaddr & _). rewrite Hpaddr in Hpa. apply Z.leb_le in Hpa.
  exists i, p, s. split; [done|]. destruct (symbol_extent i p s Hn) as (next & Hb & Hbound & _ & Hnx). unfold addr_cmp. rewrite Hbound.
  assert ((sym_addr s <=? addr) && (addr <? Z.max (sym_addr s + 1) next) = true) as ->; [|done].
  apply andb_true_iff. split; [by apply Z.leb_le|apply Z.ltb_lt].
  destruct (decide (next < seg_end)) as [Hns|]; [|lia]. destruct (Hnx Hns) as (q' & t' & Hn' & <-).
  pose proof (Hlast (S i) q' ltac:(lia) (proj1 Hn')) as Hf. cbn in Hf. destruct (nth_addr l (S i) q' t' Hn') as (Hq' & _).
  rewrite Hq' in Hf. apply Z.leb_gt in Hf. lia.
Qed.

Lemma bind_inside_ok :
  match bind_syms l (Z.of_nat (length l)) (addr_cmp addr false) y with
  | Ok (Some p, _) => exists s, sym_db y !! p = Some s /\ seg s = sg /\ sym_addr s <= addr < seg_end
      /\ forall t, t ∈ sym_db y -> seg t = sg -> sym_addr t <= addr -> sym_addr t <= sym_addr s
  | Ok (None, pos) => pos = -1 /\ (seg_end <= addr \/ forall t, t ∈ sym_db y -> seg t = sg -> addr < sym_addr t)
  | _ => False
  end.
Proof.
  destruct (bind_syms_finds y l (addr_cmp addr false) (proj1 (lists_nth _ l Hl)) extent_mono) as (r & Hr & Hres).
  rewrite Hr. destruct r as [[p|] pos]; cbn in Hres.
  - destruct Hres as (s & Hp & Hn & H0). exists s. split; [apply Hn|]. split; [apply (segment_sym _ p s Hn)|].
    by apply (match_nearest _ p s Hn).
  - destruct Hres as [-> Hnone]. split; [done|]. destruct (decide (seg_end <= addr)) as [|Hlt]; [by left|right].
    intros t Ht Htsg. destruct (decide (addr < sym_addr t)) as [|Hge]; [done|]. exfalso.
    destruct (match_exists t ltac:(lia) Ht Htsg ltac:(lia)) as (i & p & s & Hn & H0). exact (Hnone i p s Hn H0).
Qed.

End Segment.

End Searches.

(** * Properties *)

(** The database of a segment, and the end of the segment. *)
Definition segment_of (db : sym_db_t) (text_end data_end : Z) : option (sym_seg_t * Z) :=
  match db with sdb_any => None | sdb_text => Some (ss_text, text_end) | sdb_data => Some (ss_data, data_end) end.

(** C29: Loading the symbols of an executable succeeds, and an address search in
    the text or the data symbols then finds the symbol that contains the address:
    the nearest one at or before it, for the addresses up to the end of the
    segment, and none before the first symbol or beyond the end.  The symbol is
    one of the file, with its name and address. *)
Theorem sym_bind_addr_nearest {sort : Qsort} {laws : QsortLaws sort} symhdr strtab extr text_end data_end :
  file_ok symhdr strtab extr text_end data_end ->
  exists y, sym_loadsyms symhdr strtab extr text_end data_end no_symbols = Ok y /\
  forall db sg seg_end addr, segment_of db text_end data_end = Some (sg, seg_end) ->
  (forall x, x ∈ extr -> seg_of (st x) = Some sg -> value x < seg_end) ->
  match sym_bind_addr addr false db y with
  | Ok (Some p, _) => exists s x, sym_db y !! p = Some s /\ x ∈ extr /\ from_extr (issMax symhdr) strtab x s
      /\ seg s = sg /\ sym_addr s <= addr < seg_end
      /\ forall x', x' ∈ extr -> seg_of (st x') = Some sg -> value x' <= addr -> value x' <= sym_addr s
  | Ok (None, pos) => pos = -1
      /\ (seg_end <= addr \/ forall x, x ∈ extr -> seg_of (st x) = Some sg -> addr < value x)
  | _ => False
  end.
Proof.
  intros Hf. destruct (sym_loadsyms_ok symhdr strtab extr text_end data_end Hf) as (y & Hload & Hy). exists y. split; [done|].
  intros db sg seg_end addr Hdb Hval.
  assert (forall x, x ∈ extr -> seg_of (st x) = Some sg -> exists s, s ∈ sym_db y /\ seg s = sg /\ sym_addr s = value x) as Hx.
  { intros x Hx Hsg. destruct (loaded_all _ _ _ _ _ _ Hy x sg Hx Hsg) as (s & Hs & Hseg & _ & Ha). exists s.
    pose proof (file_values _ _ _ _ _ Hf x Hx). rewrite u32_small in Ha by lia. split_and!; [done|congruence|done]. }
  assert (forall s, s ∈ sym_db y -> seg s = sg -> sym_addr s < seg_end) as Hend.
  { intros s Hs <-. destruct (loaded_from _ _ _ _ _ _ Hy s Hs) as (x & Hxe & Hseg & _ & ->).
    pose proof (file_values _ _ _ _ _ Hf x Hxe). rewrite u32_small by lia. by apply Hval. }
  assert (match bind_syms (db_syms db y).1.1 (Z.of_nat (length (db_syms db y).1.1)) (addr_cmp addr false) y with
    | Ok (Some p, _) => exists s, sym_db y !! p = Some s /\ seg s = sg /\ sym_addr s <= addr < seg_end
        /\ forall t, t ∈ sym_db y -> seg t = sg -> sym_addr t <= addr -> sym_addr t <= sym_addr s
    | Ok (None, pos) => pos = -1 /\ (seg_end <= addr \/ forall t, t ∈ sym_db y -> seg t = sg -> addr < sym_addr t)
    | _ => False
    end) as Hb.
  { destruct (file_ends _ _ _ _ _ Hf) as [He1 He2]. destruct (loaded_arrays _ _ _ _ _ _ Hy db) as [(Hl & Hs & _) _].
    destruct db; [done|injection Hdb as <- <-|injection Hdb as <- <-];
      eapply (bind_inside_ok symhdr strtab extr text_end data_end y Hy); eauto;
      [apply (loaded_text _ _ _ _ _ _ Hy)|apply (loaded_data _ _ _ _ _ _ Hy)]. }
  pose proof (loaded_arrays _ _ _ _ _ _ Hy db) as [(_ & _ & Hc) _]. rewrite <- Hc in Hb.
  unfold sym_bind_addr. destruct (db_syms db y) as [[l n] cnt]. cbn in Hb.
  destruct (bind_syms l cnt (addr_cmp addr false) y) as [[[p|] pos]| | | | | |]; try done.
  - destruct Hb as (s & Hs & Hsg & Ha & Hn). destruct (loaded_from _ _ _ _ _ _ Hy s (list_elem_of_lookup_2 _ p _ Hs)) as (x & Hxe & Hfrom).
    exists s, x. split_and!; [done..| | |]; try lia. intros x' Hx' Hsg' Hle. destruct (Hx x' Hx' Hsg') as (t & Ht & Htsg & Hta).
    pose proof (Hn t Ht Htsg). lia.
  - destruct Hb as [-> Hn]. split; [done|]. destruct Hn as [|Hn]; [by left|right].
    intros x Hxe Hsg. destruct (Hx x Hxe Hsg) as (t & Ht & Htsg & <-). by apply Hn.
Qed.

(** After loading, a search by name finds a symbol of the file with that name
    in the database searched whenever there is one, and an exact search by
    address a symbol at that address; otherwise they find none. *)
Theorem sym_bind_name_finds {sort : Qsort} {laws : QsortLaws sort} symhdr strtab extr text_end data_end :
  file_ok symhdr strtab extr text_end data_end ->
  exists y, sym_loadsyms symhdr strtab extr text_end data_end no_symbols = Ok y /\
  forall db n addr,
  match sym_bind_name n db y with
  | Ok (Some p, _) => exists s x, sym_db y !! p = Some s /\ in_seg (db_seg db) s = true /\ name s = n
      /\ x ∈ extr /\ from_extr (issMax symhdr) strtab x s
  | Ok (None, pos) => pos = -1 /\ forall x s, x ∈ extr -> in_seg (db_seg db) s = true -> from_extr (issMax symhdr) strtab x s -> name s <> n
  | _ => False
  end /\
  match sym_bind_addr addr true db y with
  | Ok (Some p, _) => exists s x, sym_db y !! p = Some s /\ in_seg (db_seg db) s = true /\ sym_addr s = addr
      /\ x ∈ extr /\ from_extr (issMax symhdr) strtab x s
  | Ok (None, pos) => pos = -1 /\ forall x s, x ∈ extr -> in_seg (db_seg db) s = true -> from_extr (issMax symhdr) strtab x s -> sym_addr s <> addr
  | _ => False
  end.
Proof.
  intros Hf. destruct (sym_loadsyms_ok symhdr strtab extr text_end data_end Hf) as (y & Hload & Hy). exists y. split; [done|].
  intros db n addr.
  assert (forall x s, x ∈ extr -> in_seg (db_seg db) s = true -> from_extr (issMax symhdr) strtab x s ->
    exists t, t ∈ sym_db y /\ in_seg (db_seg db) t = true /\ name t = name s /\ sym_addr t = sym_addr s) as Hx.
  { intros x s Hxe Hin (Hsg & Hn & Ha). destruct (loaded_all _ _ _ _ _ _ Hy x _ Hxe Hsg) as (t & Ht & Hsg' & Hn' & Ha').
    exists t. split_and!; [done| |congruence|congruence]. rewrite Hsg in Hsg'. injection Hsg' as Heq.
    destruct (db_seg db); [cbn in *; by rewrite <- Heq|done]. }
  assert (forall p s, sym_db y !! p = Some s -> exists x, x ∈ extr /\ from_extr (issMax symhdr) strtab x s) as Hfrom
    by (intros p s Hs; apply (loaded_from _ _ _ _ _ _ Hy), (list_elem_of_lookup_2 _ p), Hs).
  split.
  - pose proof (bind_name_ok symhdr strtab extr text_end data_end y Hy db n) as Hb.
    destruct (sym_bind_name n db y) as [[[p|] pos]| | | | | |]; try done.
    + destruct Hb as (s & Hs & Hin & Hn). destruct (Hfrom p s Hs) as (x & Hxe & Hxs). by exists s, x.
    + destruct Hb as [-> Hn]. split; [done|]. intros x s Hxe Hin Hxs. destruct (Hx x s Hxe Hin Hxs) as (t & Ht & Htin & <- & _). by apply Hn.
  - pose proof (bind_exact_ok symhdr strtab extr text_end data_end y Hy db addr) as Hb.
    destruct (sym_bind_addr addr true db y) as [[[p|] pos]| | | | | |]; try done.
    + destruct Hb as (s & Hs & Hin & Hn). destruct (Hfrom p s Hs) as (x & Hxe & Hxs). by exists s, x.
    + destruct Hb as [-> Hn]. split; [done|]. intros x s Hxe Hin Hxs. destruct (Hx x s Hxe Hin Hxs) as (t & Ht & Htin & _ & <-). by apply Hn.
Qed.

(** * Examples *)

Module SymExample.

(** A stable sort in the place of qsort(). *)
Definition le_cmp (cmp : nat -> nat -> Z) (a b : nat) : Prop := cmp a b <= 0.

#[export] Instance le_cmp_dec (cmp : nat -> nat -> Z) (a b : nat) : Decision (le_cmp cmp a b) := Z_le_dec (cmp a b) 0.

#[export] Instance stable : Qsort := fun cmp => merge_sort (le_cmp cmp).

#[export] Instance stable_laws : QsortLaws stable.
Proof.
  split.
  - intros cmp l. apply (merge_sort_Permutation (le_cmp cmp)).
  - intros cmp l Htotal Htrans. apply (StronglySorted_merge_sort (le_cmp cmp) (Transitive0 := Htrans) (Total0 := Htotal)).
Qed.

(** The names "b" and "a" in the table; [b] at 0x400010 and [a] at 0x400000 are
    procedures, [a] at 0x10000000 is a global variable. *)
Definition strtab : list Z := [98; 0; 97; 0].
Definition extr : list ecoff_EXTR :=
  [mk_extr 0 0x400010 ECOFF_stProc; mk_extr 2 0x400000 ECOFF_stProc; mk_extr 2 0x10000000 ECOFF_stGlobal].
Definition hdr : ecoff_symhdr_t := mk_symhdr 0 4 0 3.

Lemma extr_ok : file_ok hdr strtab extr 0x400030 0x10000100.
Proof.
  split; [reflexivity|cbn; lia| | |lia];
    intros x; [intros sg|]; intros Hx; repeat (apply elem_of_cons in Hx as [->|Hx]; [cbn; eauto || lia|]); by apply elem_of_nil in Hx.
Qed.

(** The difference of the addresses of two symbols, as an int, does not order
    addresses that are 2^31 or more apart. *)
Lemma acmp_wraps : let db := [mk_sym [97] ss_text 1 1 0 0x400000 0; mk_sym [98] ss_data 1 1 0 0x90000000 0] in
  0 < acmp db 0 1 /\ addr_at db 0 < addr_at db 1.
Proof. vm_compute. split; reflexivity. Qed.

End SymExample.

#[local] Existing Instance SymExample.stable.
#[local] Existing Instance SymExample.stable_laws.

Lemma sym_bind_addr_nearest_witness : exists y,
  sym_loadsyms SymExample.hdr SymExample.strtab SymExample.extr 0x400030 0x10000100 no_symbols = Ok y
  /\ sym_bind_addr 0x400018 false sdb_text y = Ok (Some 0%nat, 1) /\ sym_bind_addr 0x3fffff false sdb_text y = Ok (None, -1).
Proof.
  destruct (sym_bind_addr_nearest SymExample.hdr SymExample.strtab SymExample.extr 0x400030 0x10000100 SymExample.extr_ok) as (y & Hy & _).
  exists y. split; [exact Hy|]. vm_compute in Hy. injection Hy as <-. split; vm_compute; reflexivity.
Defined.

Lemma sym_bind_name_finds_witness : exists y,
  sym_loadsyms SymExample.hdr SymExample.strtab SymExample.extr 0x400030 0x10000100 no_symbols = Ok y
  /\ sym_bind_name [97] sdb_data y = Ok (Some 2%nat, 0) /\ sym_bind_name [98] sdb_data y = Ok (None, -1).
Proof.
  destruct (sym_bind_name_finds SymExample.hdr SymExample.strtab SymExample.extr 0x400030 0x10000100 SymExample.extr_ok) as (y & Hy & _).
  exists y. split; [exact Hy|]. vm_compute in Hy. injection Hy as <-. split; vm_compute; reflexivity.
Defined.
