(* ===== verification/Strto.v ===== *)
(** strtol() and strtoul() with base 0, as options.c and range.c use them: white
    space, a sign, and the digits of the base that the prefix tells.  They give
    the value, whether errno is set for a value out of range, and [endp]. *)

From S2P Require Import Prelude Misc Exec Eval.

Definition isspace (c : Z) : bool := (c =? 32) || ((9 <=? c) && (c <=? 13)).

Fixpoint skip_space (s : list Z) : list Z :=
  match s with
  | [] => []
  | c :: s' => if isspace c then skip_space s' else s
  end.

(** Whether there is a minus sign, and what follows the sign. *)
Definition strto_sign (s : list Z) : bool * list Z :=
  match s with
  | 45 :: s => (true, s)
  | 43 :: s => (false, s)
  | _ => (false, s)
  end.

Definition strto_parse (s : list Z) : option (bool * Z * list Z) :=
  let '(neg, s) := strto_sign (skip_space s) in
  match strto_base0 s with
  | Some (v, rest) => Some (neg, v, rest)
  | None => None
  end.

Section Strto.
Context {eh : EvalHost}.

Definition strtol (s : list Z) : Z * bool * list Z :=
  match strto_parse s with
  | None => (0, false, s)
  | Some (neg, v, rest) =>
      let v := if (neg : bool) then - v else v in
      if v <? - 2 ^ (long_bits - 1) then (- 2 ^ (long_bits - 1), true, rest)
      else if 2 ^ (long_bits - 1) <=? v then (2 ^ (long_bits - 1) - 1, true, rest)
      else (v, false, rest)
  end.

Definition strtoul (s : list Z) : Z * bool * list Z :=
  match strto_parse s with
  | None => (0, false, s)
  | Some (neg, v, rest) =>
      if 2 ^ long_bits <=? v then (2 ^ long_bits - 1, true, rest)
      else ((if (neg : bool) then - v else v) mod 2 ^ long_bits, false, rest)
  end.

End Strto.

(** * Numbers in decimal *)

(** printf() of a number that is not negative with %u, or %d. *)
Fixpoint dec_digits (fuel : nat) (n : Z) (acc : list Z) : list Z :=
  match fuel with
  | O => acc
  | S fuel => let acc := (48 + n mod 10) :: acc in if n / 10 =? 0 then acc else dec_digits fuel (n / 10) acc
  end.

(** 32-bit numbers have at most ten digits, 64-bit numbers twenty. *)
Definition print_uint (n : Z) : list Z := dec_digits 10 n [].
Definition print_int (n : Z) : list Z := if n <? 0 then 45 :: print_uint (- n) else print_uint n.
Definition print_llong (n : Z) : list Z := dec_digits 20 n [].

(** printf() with %08x. *)
Definition hex_digit (d : Z) : Z := if d <? 10 then 48 + d else 87 + d.
Definition print_hex (n : Z) : list Z := (fun i => hex_digit (Z.land (Z.shiftr n (4 * Z.of_nat i)) 15)) <$> [7; 6; 5; 4; 3; 2; 1; 0]%nat.

(** The digits are read back. *)
Lemma digit_val_dec (d : Z) : 0 <= d < 10 -> digit_val (48 + d) = Some d.
Proof.
  intros H. unfold digit_val. assert ((48 <=? 48 + d) && (48 + d <=? 57) = true) as -> by blia. f_equal. lia.
Qed.

Lemma read_digits_dec (fuel : nat) (n acc : Z) (k : list Z) : 0 <= n < 10 ^ Z.of_nat fuel ->
  exists m, read_digits 10 acc (dec_digits fuel n k) = read_digits 10 (acc * 10 ^ m + n) k /\ 0 <= m.
Proof.
  revert n acc k. induction fuel as [|fuel IH]; intros n acc k Hn.
  - exists 0. cbn in *. replace n with 0 by lia. split; [f_equal; lia|lia].
  - cbn [dec_digits]. pose proof (Z.mod_pos_bound n 10 ltac:(lia)) as Hm. pose proof (Z.div_mod n 10 ltac:(lia)) as Hd.
    assert (forall a, read_digits 10 a ((48 + n mod 10) :: k) = read_digits 10 (a * 10 + n mod 10) k) as Hstep.
    { intros a. cbn [read_digits]. rewrite digit_val_dec by lia. by rewrite (proj2 (Z.ltb_lt _ _)) by lia. }
    destruct (n / 10 =? 0) eqn:E.
    + apply Z.eqb_eq in E. exists 1. rewrite Hstep. split; [f_equal; lia|lia].
    + rewrite Nat2Z.inj_succ, Z.pow_succ_r in Hn by lia.
      destruct (IH (n / 10) acc ((48 + n mod 10) :: k)) as (m & -> & Hm0); [pose proof (Z.div_pos n 10); lia|].
      exists (m + 1). rewrite Hstep. split; [|lia]. f_equal. rewrite Z.pow_add_r by lia. lia.
Qed.

Lemma read_digits_all (fuel : nat) (n : Z) : 0 <= n < 10 ^ Z.of_nat fuel -> read_digits 10 0 (dec_digits fuel n []) = (n, []).
Proof. intros H. destruct (read_digits_dec fuel n 0 [] H) as (m & Hr & _). by rewrite Hr. Qed.

(** No leading zero. *)
Lemma dec_digits_head (fuel : nat) (n : Z) (k : list Z) : 0 < n < 10 ^ Z.of_nat fuel ->
  exists d s, dec_digits fuel n k = (48 + d) :: s /\ 0 < d < 10.
Proof.
  revert n k. induction fuel as [|fuel IH]; intros n k Hn; [cbn in Hn; lia|]. cbn [dec_digits].
  pose proof (Z.mod_pos_bound n 10 ltac:(lia)) as Hm. pose proof (Z.div_mod n 10 ltac:(lia)) as Hd.
  destruct (n / 10 =? 0) eqn:E.
  - apply Z.eqb_eq in E. exists (n mod 10), k. split; [done|lia].
  - apply Z.eqb_neq in E. rewrite Nat2Z.inj_succ, Z.pow_succ_r in Hn by lia. apply IH. pose proof (Z.div_pos n 10). lia.
Qed.

Lemma dec_digits_char (fuel : nat) (n : Z) (k : list Z) : Forall (fun c => 48 <= c <= 57) k -> Forall (fun c => 48 <= c <= 57) (dec_digits fuel n k).
Proof.
  revert n k. induction fuel as [|fuel IH]; intros n k Hk; [done|]. cbn. pose proof (Z.mod_pos_bound n 10 ltac:(lia)).
  assert (Forall (fun c => 48 <= c <= 57) ((48 + n mod 10) :: k)) by (constructor; [lia|done]). destruct (n / 10 =? 0); auto.
Qed.

Lemma print_uint_digits (n : Z) : Forall (fun c => 48 <= c <= 57) (print_uint n).
Proof. apply dec_digits_char. constructor. Qed.

(** A number in decimal is read as such: it has no sign and no prefix of a base. *)
Lemma strto_parse_dec (fuel : nat) (n : Z) : (1 <= fuel)%nat -> 0 <= n < 10 ^ Z.of_nat fuel -> strto_parse (dec_digits fuel n []) = Some (false, n, []).
Proof.
  intros Hf Hn. destruct (decide (n = 0)) as [->|Hne]; [by destruct fuel; [lia|]|].
  destruct (dec_digits_head fuel n [] ltac:(lia)) as (d & s & Hs & Hd). pose proof (read_digits_all fuel n Hn) as Hr.
  rewrite Hs in *. unfold strto_parse. assert (isspace (48 + d) = false) as Hsp by (unfold isspace; blia).
  cbn [skip_space]. rewrite Hsp.
  assert (d = 1 \/ d = 2 \/ d = 3 \/ d = 4 \/ d = 5 \/ d = 6 \/ d = 7 \/ d = 8 \/ d = 9) as Hcases by lia.
  assert (strto_sign ((48 + d) :: s) = (false, (48 + d) :: s)) as -> by (repeat destruct Hcases as [->|Hcases]; subst; reflexivity).
  assert (strto_base0 ((48 + d) :: s) = Some (read_digits 10 0 ((48 + d) :: s))) as -> by (repeat destruct Hcases as [->|Hcases]; subst; reflexivity).
  by rewrite Hr.
Qed.

Lemma strto_parse_uint (n : Z) : 0 <= n < 10 ^ 10 -> strto_parse (print_uint n) = Some (false, n, []).
Proof. apply (strto_parse_dec 10). lia. Qed.

(** Hexadecimal digits are read back. *)
Lemma digit_val_hex (d : Z) : 0 <= d < 16 -> digit_val (hex_digit d) = Some d.
Proof.
  intros H. assert (d = 0 \/ d = 1 \/ d = 2 \/ d = 3 \/ d = 4 \/ d = 5 \/ d = 6 \/ d = 7 \/ d = 8 \/ d = 9 \/ d = 10 \/ d = 11 \/ d = 12 \/ d = 13 \/ d = 14 \/ d = 15)
    as Hcases by lia. by repeat destruct Hcases as [->|Hcases]; subst.
Qed.

Lemma nibble (n i : Z) : 0 <= n -> 0 <= i -> Z.land (Z.shiftr n i) 15 = (n / 2 ^ i) mod 2 ^ 4.
Proof. intros Hn Hi. rewrite Z.shiftr_div_pow2 by lia. exact (Z.land_ones _ 4 ltac:(lia)). Qed.

Lemma read_hex (n : Z) : 0 <= n < 2 ^ 32 -> read_digits 16 0 (print_hex n) = (n, []).
Proof.
  intros Hn. unfold print_hex. cbn [fmap list_fmap].
  assert (forall i, 0 <= Z.land (Z.shiftr n (4 * Z.of_nat i)) 15 < 16) as Hb.
  { intros i. rewrite nibble by lia. exact (Z.mod_pos_bound _ 16 ltac:(lia)). }
  assert (forall acc i s, read_digits 16 acc (hex_digit (Z.land (Z.shiftr n (4 * Z.of_nat i)) 15) :: s)
    = read_digits 16 (acc * 16 + Z.land (Z.shiftr n (4 * Z.of_nat i)) 15) s) as Hstep.
  { intros acc i s. cbn [read_digits]. rewrite digit_val_hex by apply Hb. by rewrite (proj2 (Z.ltb_lt _ _)) by apply Hb. }
  rewrite !Hstep. cbn [read_digits]. f_equal. rewrite !nibble by lia. cbn [Z.of_nat Pos.of_succ_nat Pos.succ]. cbn -[Z.modulo Z.div].
  Z.to_euclidean_division_equations. lia.
Qed.

Lemma strtol_int {eh : EvalHost} (n : Z) : 32 <= long_bits -> 0 <= n < 2 ^ 31 -> strtol (print_int n) = (n, false, []).
Proof.
  intros Hl Hn. unfold print_int. rewrite (proj2 (Z.ltb_ge _ _)) by lia. unfold strtol. rewrite strto_parse_uint by lia.
  assert (2 ^ 31 <= 2 ^ (long_bits - 1)) by (apply Z.pow_le_mono_r; lia).
  rewrite (proj2 (Z.ltb_ge _ _)) by lia. by rewrite (proj2 (Z.leb_gt _ _)) by lia.
Qed.

Lemma strtoul_uint {eh : EvalHost} (n : Z) : 32 <= long_bits -> 0 <= n < 2 ^ 32 -> strtoul (print_uint n) = (n, false, []).
Proof.
  intros Hl Hn. unfold strtoul. rewrite strto_parse_uint by lia.
  assert (2 ^ 32 <= 2 ^ long_bits) by (apply Z.pow_le_mono_r; lia).
  rewrite (proj2 (Z.leb_gt _ _)) by lia. by rewrite Z.mod_small by lia.
Qed.
