(* ===== verification/Options.v ===== *)
(** options.c and options.h: the option database, the processing of command
    lines and configuration files, and the configuration that is dumped.

    A variable of an option is an array in the memory of the program; a location
    outside of it is an invalid pointer.  The file system is a map from names to
    contents.  An argument list is given by what is left of it, the index of an
    argument by how much has been passed.  Configuration files can load others,
    and an orphan function can leave its argument where it is: [fuel] bounds the
    steps of the processing.  The formats of all options are the defaults. *)

From Stdlib Require Import String Ascii.
From S2P Require Import Prelude Misc Exec Eval Strto.

Inductive opt_class_t := oc_int | oc_uint | oc_float | oc_double | oc_enum | oc_flag | oc_string.

#[global] Instance opt_class_eq_dec : EqDecision opt_class_t.
Proof. solve_decision. Defined.

(** A C string literal. *)
Fixpoint str (s : string) : list Z :=
  match s with EmptyString => [] | String a s => Z.of_nat (nat_of_ascii a) :: str s end.

(** An element of a variable: a number, or a string that may be NULL. *)
Inductive cell := c_num (z : Z) | c_str (s : option (list Z)).


Abbreviation memory := (gmap positive (list cell)) (only parsing).

(** [struct opt_opt_t]; [eval] is the optional array of the enum values, and
    [emap_sz] the length of [emap]. *)
Record opt_opt_t := mk_opt {
  opt_name : list Z;
  opt_desc : option (list Z);
  nvars : Z;
  nelt : option positive;
  width : nat;  (* of the default format *)
  print : bool;
  accrue : bool;
  oc : opt_class_t;
  opt_var : positive;
  emap : list (list Z);
  eval_map : option (list Z);
}.

(** * Memory *)

Definition load (p : positive) (i : Z) (m : memory) : outcome cell :=
  l ← deref (m !! p); if i <? 0 then Undef else c_get l (Z.to_nat i).

Definition store (p : positive) (i : Z) (c : cell) (m : memory) : outcome memory :=
  l ← deref (m !! p);
  if i <? 0 then Undef else l ← c_upd l (Z.to_nat i) (fun _ => c); Ok (<[p := l]> m).

Definition load_num (p : positive) (m : memory) : outcome Z :=
  c ← load p 0 m; match c with c_num z => Ok z | c_str _ => Undef end.

(** [vars[i] = def_val[i]] for the indices of a list. *)
Fixpoint store_list (p : positive) (i : Z) (cs : list cell) (m : memory) : outcome memory :=
  match cs with
  | [] => Ok m
  | c :: cs => m ← store p i c m; store_list p (i + 1) cs m
  end.

(** * Registration *)

(** [struct opt_odb_t]: the options and notes in the order of registration. *)
Record opt_odb_t := mk_odb { options : list opt_opt_t; header : option (list Z); notes : list (list Z) }.
#[global] Instance eta_odb : Eta opt_odb_t := mk_eta (fun odb => mk_odb (options odb) (header odb) (notes odb)).

Definition opt_new : opt_odb_t := mk_odb [] None [].

(** The first character of a string is a dash. *)
Definition dashed (s : list Z) : bool := match s with c :: _ => c =? 45 | [] => false end.

Definition add_option (opt : opt_opt_t) (odb : opt_odb_t) : outcome opt_odb_t :=
  if negb (dashed (opt_name opt)) then Panic
  else if existsb (fun elt => bool_decide (opt_name elt = opt_name opt)) (options odb) then Panic
  else Ok (odb <| options ::= fun l => l ++ [opt] |>).

(** An option of one variable and its default value. *)
Definition reg_one (oc : opt_class_t) (emap : list (list Z)) (eval_map : option (list Z)) (name : list Z) (desc : option (list Z))
    (var : positive) (def_val : cell) (print : bool) (s : opt_odb_t * memory) : outcome (opt_odb_t * memory) :=
  odb ← add_option (mk_opt name desc 1 None 12 print false oc var emap eval_map) s.1;
  m ← store var 0 def_val s.2;
  Ok (odb, m).

(** An option of an array: the first [*nelt] elements get default values. *)
Definition reg_list (oc : opt_class_t) (emap : list (list Z)) (eval_map : option (list Z)) (name : list Z) (desc : option (list Z))
    (vars : positive) (nvars : Z) (nelt : positive) (def_val : Z -> outcome cell) (print accrue : bool) (s : opt_odb_t * memory)
    : outcome (opt_odb_t * memory) :=
  odb ← add_option (mk_opt name desc nvars (Some nelt) 0 print accrue oc vars emap eval_map) s.1;
  n ← load_num nelt s.2;
  cs ← foldr (fun i r => c ← def_val (Z.of_nat i); cs ← r; Ok (c :: cs)) (Ok []) (seq 0 (Z.to_nat n));
  m ← store_list vars 0 cs s.2;
  Ok (odb, m).

Definition opt_reg_int := reg_one oc_int [] None.
Definition opt_reg_int_list := reg_list oc_int [] None.
Definition opt_reg_uint := reg_one oc_uint [] None.
Definition opt_reg_uint_list := reg_list oc_uint [] None.
Definition opt_reg_float := reg_one oc_float [] None.
Definition opt_reg_float_list := reg_list oc_float [] None.
Definition opt_reg_double := reg_one oc_double [] None.
Definition opt_reg_double_list := reg_list oc_double [] None.

(** The index of the first string that is equal. *)
Fixpoint find_str (s : list Z) (i : Z) (emap : list (list Z)) : option Z :=
  match emap with
  | [] => None
  | e :: emap => if bool_decide (s = e) then Some i else find_str s (i + 1) emap
  end.

(** The value of an enumeration string, if there is one. *)
Definition bind_to_enum (s : list Z) (emap : list (list Z)) (eval : option (list Z)) : outcome (option Z) :=
  match find_str s 0 emap with
  | None => Ok None
  | Some i => match eval with Some eval => v ← c_get eval (Z.to_nat i); Ok (Some v) | None => Ok (Some i) end
  end.

(** The string of an enumeration value: that of the first index with the value. *)
Fixpoint find_val (v : Z) (emap : list (list Z)) (eval : list Z) : outcome (option (list Z)) :=
  match emap with
  | [] => Ok None
  | e :: emap =>
      match eval with
      | [] => Undef
      | x :: eval => if x =? v then Ok (Some e) else find_val v emap eval
      end
  end.

Definition bind_to_str (v : Z) (emap : list (list Z)) (eval : option (list Z)) : outcome (option (list Z)) :=
  match eval with
  | Some eval => find_val v emap eval
  | None => if Z.of_nat (length emap) <=? v then Ok None else if v <? 0 then Undef else s ← c_get emap (Z.to_nat v); Ok (Some s)
  end.

(** The value of the default string of an enum option, 0 if there is none. *)
Definition enum_default (def_val : option (list Z)) (emap : list (list Z)) (eval : option (list Z)) : outcome Z :=
  match def_val with
  | None => Ok 0
  | Some s => r ← bind_to_enum s emap eval; match r with Some v => Ok v | None => Fatal end
  end.

Definition opt_reg_enum (name : list Z) (desc : option (list Z)) (var : positive) (def_val : option (list Z)) (emap : list (list Z))
    (eval : option (list Z)) (print : bool) (s : opt_odb_t * memory) : outcome (opt_odb_t * memory) :=
  v ← enum_default def_val emap eval; reg_one oc_enum emap eval name desc var (c_num v) print s.

Definition opt_reg_enum_list (name : list Z) (desc : option (list Z)) (vars : positive) (nvars : Z) (nelt : positive) (def_val : option (list Z))
    (emap : list (list Z)) (eval : option (list Z)) (print accrue : bool) (s : opt_odb_t * memory) : outcome (opt_odb_t * memory) :=
  v ← enum_default def_val emap eval; reg_list oc_enum emap eval name desc vars nvars nelt (fun _ => Ok (c_num v)) print accrue s.

Definition flag_emap : list (list Z) :=
  str <$> ["true"; "t"; "T"; "True"; "TRUE"; "1"; "y"; "Y"; "yes"; "Yes"; "YES";
           "false"; "f"; "F"; "False"; "FALSE"; "0"; "n"; "N"; "no"; "No"; "NO"]%string.
Definition flag_eval : list Z := repeat 1 11 ++ repeat 0 11.

Definition opt_reg_flag := reg_one oc_flag flag_emap (Some flag_eval).
Definition opt_reg_flag_list := reg_list oc_flag flag_emap (Some flag_eval).
Definition opt_reg_string := reg_one oc_string [] None.
Definition opt_reg_string_list := reg_list oc_string [] None.

Definition opt_reg_header (h : list Z) (odb : opt_odb_t) : opt_odb_t := odb <| header := Some h |>.
Definition opt_reg_note (note : list Z) (odb : opt_odb_t) : opt_odb_t := odb <| notes ::= fun l => l ++ [note] |>.

Fixpoint find_opt (name : list Z) (opts : list opt_opt_t) : option opt_opt_t :=
  match opts with
  | [] => None
  | o :: opts => if bool_decide (opt_name o = name) then Some o else find_opt name opts
  end.

(** The options that every database has. *)
Definition config_opt : opt_opt_t :=
  mk_opt (str "-config") (Some (str "load configuration from a file")) 0 None 0 false false oc_string 1 [] None.
Definition dumpconfig_opt : opt_opt_t :=
  mk_opt (str "-dumpconfig") (Some (str "dump configuration to a file")) 0 None 0 false false oc_string 1 [] None.
Definition builtin_options : list opt_opt_t := [config_opt; dumpconfig_opt].

Definition opt_find_option (name : list Z) (odb : opt_odb_t) : option opt_opt_t :=
  match find_opt name builtin_options with Some o => Some o | None => find_opt name (options odb) end.

(** * Processing *)

(** The floating point of the host that options use: strtod() of a string that
    converts as a whole, whether a double is in the range of a float, and the
    text of a double for a width. *)
Class OptHost := {
  strtod_all : list Z -> option Z;
  float_range : Z -> bool;
  printf_double : nat -> Z -> list Z;
}.

Section Options.
Context {fp : HostFP} {eh : EvalHost} {oh : OptHost}.

(** The value of an argument; what cannot be parsed is a fatal error. *)
Definition parse_arg (opt : opt_opt_t) (a : list Z) : outcome cell :=
  match oc opt with
  | oc_int => let '(v, _, endp) := strtol a in if bool_decide (endp = []) then Ok (c_num (s32 v)) else Fatal
  | oc_uint => let '(v, _, endp) := strtoul a in if bool_decide (endp = []) then Ok (c_num (u32 v)) else Fatal
  | oc_float =>
      match strtod_all a with
      | Some d => if float_range d then Ok (c_num (cvt_S_D d)) else Fatal
      | None => Fatal
      end
  | oc_double => match strtod_all a with Some d => Ok (c_num d) | None => Fatal end
  | oc_enum | oc_flag => r ← bind_to_enum a (emap opt) (eval_map opt); match r with Some v => Ok (c_num v) | None => Fatal end
  | oc_string => Ok (c_str (Some a))
  end.

Definition bump_nelt (opt : opt_opt_t) (m : memory) : outcome memory :=
  match nelt opt with
  | Some p => n ← load_num p m; store p 0 (c_num (s32 (n + 1))) m
  | None => Ok m
  end.

(** [while (index < argc && cnt < nvars && argv[index][0] != '-')]; a flag whose
    argument cannot be parsed is set and the argument left. *)
Fixpoint parse_args (opt : opt_opt_t) (args : list (list Z)) (cnt n ent : Z) (m : memory) : outcome (list (list Z) * memory) :=
  match args with
  | [] => Ok ([], m)
  | a :: args' =>
      if (cnt <? n) && negb (dashed a) then
        match oc opt, parse_arg opt a with
        | oc_flag, Fatal => m ← store (opt_var opt) ent (c_num 1) m; Ok (args, m)
        | _, r =>
            c ← r;
            m ← store (opt_var opt) ent c m;
            m ← bump_nelt opt m;
            parse_args opt args' (cnt + 1) n (ent + 1) m
        end
      else Ok (args, m)
  end.

(** Where the arguments go: [ent], how many are taken, and [*nelt] reset. *)
Definition start_args (opt : opt_opt_t) (m : memory) : outcome (Z * Z * memory) :=
  if accrue opt then
    ent ← match nelt opt with Some p => load_num p m | None => Ok 0 end;
    _ ← fatal_if (nvars opt <=? ent);
    Ok (ent, 1, m)
  else
    m ← match nelt opt with Some p => store p 0 (c_num 0) m | None => Ok m end;
    Ok (0, nvars opt, m).

(** [process_option]: the first argument is the name of an option. *)
Definition process_option (odb : opt_odb_t) (args : list (list Z)) (m : memory) : outcome (list (list Z) * memory) :=
  match args with
  | [] => Undef
  | name :: args =>
      match find_opt name (options odb) with
      | None => Fatal
      | Some opt =>
          if match args with [] => true | a :: _ => dashed a end then
            match oc opt with
            | oc_flag => m ← store (opt_var opt) 0 (c_num 1) m; Ok (args, m)
            | _ => Fatal
            end
          else
            '(ent, n, m) ← start_args opt m;
            parse_args opt args 0 n ent m
      end
  end.

(** * Printing *)

Definition pad_left (w : nat) (s : list Z) : list Z := repeat 32 (w - length s) ++ s.
Definition pad_right (w : nat) (s : list Z) : list Z := s ++ repeat 32 (w - length s).

Definition null_text : list Z := str "<null>".

(** The text of one element. *)
Definition print_cell (opt : opt_opt_t) (c : cell) : outcome (list Z) :=
  match oc opt, c with
  | oc_int, c_num z => Ok (pad_left (width opt) (print_int z))
  | oc_uint, c_num z => Ok (pad_left (width opt) (print_uint z))
  | oc_float, c_num z => Ok (printf_double (width opt) (cvt_D_S z))
  | oc_double, c_num z => Ok (printf_double (width opt) z)
  | (oc_enum | oc_flag), c_num z =>
      r ← bind_to_str z (emap opt) (eval_map opt);
      match r with Some s => Ok (pad_left (width opt) s) | None => Panic end
  | oc_string, c_str s => Ok (pad_left (width opt) (match s with Some s => s | None => null_text end))
  | _, _ => Undef
  end.

(** The elements [i] to [i + n - 1], each followed by a blank. *)
Fixpoint print_cells (opt : opt_opt_t) (i : Z) (n : nat) (m : memory) : outcome (list Z) :=
  match n with
  | O => Ok []
  | S n => c ← load (opt_var opt) i m; t ← print_cell opt c; r ← print_cells opt (i + 1) n m; Ok (t ++ 32 :: r)
  end.

Definition opt_nelt (opt : opt_opt_t) (m : memory) : outcome Z :=
  match nelt opt with Some p => load_num p m | None => Ok 1 end.

Definition opt_print_option (opt : opt_opt_t) (m : memory) : outcome (list Z) :=
  if bool_decide (oc opt = oc_string) && (nvars opt =? 0) then Ok (pad_left 12 null_text ++ [32])
  else
    n ← opt_nelt opt m;
    if bool_decide (oc opt = oc_string) && (n =? 0) then Ok (pad_left 12 null_text ++ [32])
    else print_cells opt 0 (Z.to_nat n) m.

Definition opt_null_string (opt : opt_opt_t) (m : memory) : outcome bool :=
  if negb (bool_decide (oc opt = oc_string)) then Ok false
  else if nvars opt =? 0 then Ok true
  else match nelt opt with
       | Some p => n ← load_num p m; Ok (n =? 0)
       | None => c ← load (opt_var opt) 0 m; Ok (match c with c_str None => true | _ => false end)
       end.

(** An option in the long format of [opt_print_options]. *)
Definition print_one (opt : opt_opt_t) (m : memory) : outcome (list Z) :=
  let d := match opt_desc opt with Some d => str "# " ++ d ++ [10] | None => [] end in
  null ← (if print opt then opt_null_string opt m else Ok true);
  t ← opt_print_option opt m;
  Ok (d ++ (if (null : bool) then str "# " ++ pad_right 20 (opt_name opt) else pad_right 22 (opt_name opt)) ++ [32] ++ t ++ [10; 10]).

(** An option in the terse format: all in one line. *)
Definition print_terse (opt : opt_opt_t) (m : memory) : outcome (list Z) :=
  null ← (if print opt then opt_null_string opt m else Ok true);
  t ← opt_print_option opt m;
  Ok ((if (null : bool) then str "# " ++ pad_right 14 (opt_name opt) else pad_right 16 (opt_name opt)) ++ [32] ++ t
      ++ match opt_desc opt with Some d => str "# " ++ pad_right 22 d | None => [] end ++ [10]).

Definition print_builtin (opt : opt_opt_t) : list Z :=
  str "# " ++ default [] (opt_desc opt) ++ [10] ++ str "# " ++ pad_right 22 (opt_name opt) ++ [10; 10].

Definition print_builtin_terse (opt : opt_opt_t) : list Z :=
  str "# " ++ pad_right 27 (opt_name opt) ++ str " # " ++ default [] (opt_desc opt) ++ [10].

Fixpoint print_all (f : opt_opt_t -> memory -> outcome (list Z)) (opts : list opt_opt_t) (m : memory) : outcome (list Z) :=
  match opts with
  | [] => Ok []
  | o :: opts => t ← f o m; r ← print_all f opts m; Ok (t ++ r)
  end.

Definition print_option_header (odb : opt_odb_t) : list Z :=
  match header odb with Some h => [10] ++ h ++ [10] | None => [] end.

Definition print_option_notes (odb : opt_odb_t) : list Z :=
  match notes odb with [] => [] | l => [10] ++ mjoin ((fun note => note ++ [10]) <$> l) ++ [10] end.

Definition opt_print_options (terse with_notes : bool) (odb : opt_odb_t) (m : memory) : outcome (list Z) :=
  t ← print_all (if terse then print_terse else print_one) (options odb) m;
  let text := mjoin ((if terse then print_builtin_terse else print_builtin) <$> builtin_options) ++ t in
  Ok (if with_notes then print_option_header odb ++ text ++ print_option_notes odb else text).

(** The type of the arguments, in the help. *)
Definition help_type (opt : opt_opt_t) : list Z :=
  let one := nvars opt =? 1 in
  match oc opt with
  | oc_int => if one then str "<int>" else str "<int list...>"
  | oc_uint => if one then str "<uint>" else str "<uint list...>"
  | oc_float => if one then str "<float>" else str "<float list...>"
  | oc_double => if one then str "<double>" else str "<double list...>"
  | oc_enum => if one then str "<enum>" else str "<enum list...>"
  | oc_flag => if one then str "<true|false>" else str "<true|false list...>"
  | oc_string => if (nvars opt =? 0) || one then str "<string>" else str "<string list...>"
  end.

(** Help for an option; a description that is NULL is an invalid argument. *)
Definition print_help (opt : opt_opt_t) (m : memory) : outcome (list Z) :=
  t ← opt_print_option opt m;
  d ← deref (opt_desc opt);
  Ok (pad_right 16 (opt_name opt) ++ [32] ++ pad_right 16 (help_type opt) ++ str " # " ++ t ++ str "# " ++ pad_right 22 d ++ [10]).

Definition opt_print_help (odb : opt_odb_t) (m : memory) : outcome (list Z) :=
  b ← print_all print_help builtin_options m;
  t ← print_all print_help (options odb) m;
  Ok (print_option_header odb ++ str "#" ++ [10]
      ++ pad_right 16 (str "# -option") ++ [32] ++ pad_right 16 (str "<args>") ++ str " # " ++ pad_left 12 (str "<default>") ++ str " # "
      ++ pad_right 22 (str "description") ++ [10] ++ str "#" ++ [10] ++ b ++ t ++ print_option_notes odb).

(** * Files *)

(** What fgets() takes of a file into a line of 1024 characters. *)
Fixpoint fgets (n : nat) (s : list Z) : list Z * list Z :=
  match n, s with
  | S n, c :: s => if c =? 10 then ([c], s) else let '(l, r) := fgets n s in (c :: l, r)
  | _, _ => ([], s)
  end.

(** The C string in a line, without a newline at its end. *)
Fixpoint until_nul (s : list Z) : list Z :=
  match s with [] => [] | c :: s => if c =? 0 then [] else c :: until_nul s end.

Definition chop (s : list Z) : list Z :=
  match last s with Some 10 => removelast s | _ => s end.

(** The arguments of a line: words up to a comment. *)
Definition blank_char (c : Z) : bool := (c =? 32) || (c =? 9).

Fixpoint skip_blanks_of (p : list Z) : list Z :=
  match p with c :: p' => if blank_char c then skip_blanks_of p' else p | [] => [] end.

Fixpoint take_word (p : list Z) : list Z * list Z :=
  match p with
  | [] => ([], [])
  | c :: p' => if blank_char c then ([], p') else let '(w, r) := take_word p' in (c :: w, r)
  end.

Definition MAX_LINE_ARGS : nat := 256.

Fixpoint line_args (fuel : nat) (p : list Z) (largv : list (list Z)) : outcome (list (list Z)) :=
  match fuel with
  | O => NoFuel
  | S fuel =>
      let p := skip_blanks_of p in
      match p with
      | [] => Ok largv
      | c :: _ =>
          if c =? 35 then Ok largv
          else
            let '(w, q) := take_word p in
            let largv := largv ++ [w] in
            _ ← fatal_if (length largv =? MAX_LINE_ARGS)%nat;
            line_args fuel q largv
      end
  end.

(** The lines of a file, each processed by [f] if it has arguments. *)
Fixpoint process_lines {A : Type} (fuel : nat) (f : list (list Z) -> A -> outcome A) (s : list Z) (a : A) : outcome A :=
  match s with
  | [] => Ok a
  | _ =>
      match fuel with
      | O => NoFuel
      | S fuel =>
          let '(line, s) := fgets 1023 s in
          let line := chop (until_nul line) in
          args ← line_args (S (length line)) line [];
          a ← (if bool_decide (args = []) then Ok a else f args a);
          process_lines fuel f s a
      end
  end.

(** * Command lines *)

(** The memory, the files, what is written to the standard output, and the state
    of the orphan function. *)
Record opt_world {W : Type} := mk_world {
  omem : memory;
  files : gmap (list Z) (list Z);
  stdout : list Z;
  user : W;
}.
#[global] Arguments opt_world : clear implicits.
#[global] Instance eta_opt_world W : Eta (opt_world W) := mk_eta (fun w => mk_world W (omem w) (files w) (stdout w) (user w)).

Section CommandLine.
Context {W : Type}.

(** The user's function for arguments that are not claimed, from the index of the
    argument: whether to go on. *)
Variable orphan_fn : option (Z -> list (list Z) -> W -> bool * W).

(** Files that can be opened for writing. *)
Variable writable : list Z -> bool.
Variable odb : opt_odb_t.

Definition dump_config (fname : list Z) (w : opt_world W) : outcome (opt_world W) :=
  if bool_decide (fname = str "-") then t ← opt_print_options false false odb (omem w); Ok (w <| stdout ::= fun s => s ++ t |>)
  else
    _ ← fatal_if (negb (writable fname));
    t ← opt_print_options false false odb (omem w);
    Ok (w <| files ::= insert fname t |>).

(** [done_processing]: the configuration is dumped last. *)
Definition done_processing (dump : option (list Z)) (w : opt_world W) : outcome (opt_world W) :=
  match dump with Some fname => dump_config fname w | None => Ok w end.

(** [__opt_process_options]; [args] is what is left of [argv]. *)
Fixpoint opt_process_args (fuel : nat) (argv args : list (list Z)) (depth : Z) (dump : option (list Z)) (w : opt_world W)
    : outcome (opt_world W) :=
  match fuel with
  | O => NoFuel
  | S fuel =>
      match args with
      | [] => done_processing dump w
      | a :: args' =>
          if negb (dashed a) then
            if 0 <? depth then Fatal
            else match orphan_fn with
                 | None => Fatal
                 | Some f =>
                     let '(more, u) := f (Z.of_nat (length argv - length args) + 1) argv (user w) in
                     let w := w <| user := u |> in
                     if (more : bool) then opt_process_args fuel argv args depth dump w else done_processing dump w
                 end
          else if bool_decide (a = str "-config") then
            match args' with
            | fname :: args =>
                if dashed fname then Fatal
                else
                  match files w !! fname with
                  | None => Fatal
                  | Some s =>
                      w ← process_lines (length s) (fun largv w => opt_process_args fuel largv largv (depth + 1) None w) s w;
                      opt_process_args fuel argv args depth dump w
                  end
            | [] => Fatal
            end
          else if bool_decide (a = str "-dumpconfig") then
            match args' with
            | fname :: args =>
                if dashed fname && negb (bool_decide (fname = str "-")) then Fatal
                else opt_process_args fuel argv args depth (Some fname) w
            | [] => Fatal
            end
          else
            '(args, m) ← process_option odb args (omem w);
            opt_process_args fuel argv args depth dump (w <| omem := m |>)
      end
  end.

(** [opt_process_options]: the first argument is the name of the program. *)
Definition opt_process_options (fuel : nat) (argv : list (list Z)) (w : opt_world W) : outcome (opt_world W) :=
  if (length argv <? 2)%nat then Ok w else opt_process_args fuel (tail argv) (tail argv) 0 None w.

End CommandLine.
End Options.
