(* ===== verification/OptionsProps.v ===== *)
(** The properties of the options of options.c: the lines of a dumped file and the words
    of a line as they are read back, and the dump and the processing of one option. *)

From Stdlib Require Import String.
From S2P Require Import Prelude Misc Exec Eval Strto Options FunsimProps.

(** * Lines *)

(** Text without a newline or a NUL. *)
Definition text_char (c : Z) : bool := negb (c =? 10) && negb (c =? 0).

Lemma fgets_line (n : nat) (l rest : list Z) : forallb text_char l = true -> (length l < n)%nat ->
  fgets n (l ++ 10 :: rest) = (l ++ [10], rest).
Proof.
  revert n. induction l as [|c l IH]; intros [|n] Hl Hn; cbn in *; [lia|done|lia|].
  apply andb_prop in Hl as [Hc Hl]. unfold text_char in Hc. apply andb_prop in Hc as [Hc _]. apply negb_true_iff in Hc.
  rewrite Hc, IH by (done || lia). done.
Qed.

Lemma until_nul_text (l : list Z) : forallb text_char l = true -> until_nul (l ++ [10]) = l ++ [10].
Proof.
  induction l as [|c l IH]; cbn; [done|]. intros [Hc Hl]%andb_prop. apply andb_prop in Hc as [_ Hc]. apply negb_true_iff in Hc.
  by rewrite Hc, IH.
Qed.

Lemma chop_newline (l : list Z) : chop (l ++ [10]) = l.
Proof. unfold chop. rewrite last_snoc. apply removelast_last. Qed.

(** Reading a file by its first line. *)
Lemma process_line {A : Type} (fuel : nat) (f : list (list Z) -> A -> outcome A) (l rest : list Z) (a : A) :
  forallb text_char l = true -> (length l < 1023)%nat ->
  process_lines (S fuel) f (l ++ 10 :: rest) a =
    (args ← line_args (S (length l)) l []; a ← (if bool_decide (args = []) then Ok a else f args a); process_lines fuel f rest a).
Proof.
  intros Hl Hn. cbn [process_lines]. rewrite fgets_line by done. rewrite until_nul_text, chop_newline by done.
  by destruct l.
Qed.

(** * Words *)

(** A word that a line can have among its arguments. *)
Definition word_char (c : Z) : bool := negb (blank_char c) && text_char c.
Definition word (s : list Z) : bool := match s with c :: _ => negb (c =? 35) && forallb word_char s | [] => false end.

Lemma word_text (s : list Z) : word s = true -> forallb text_char s = true.
Proof.
  destruct s as [|c s]; [done|]. intros [_ H]%andb_prop. revert H. generalize (c :: s). intros l.
  induction l as [|d l IH]; cbn; [done|]. intros [Hd Hl]%andb_prop. apply andb_prop in Hd as [_ ->]. auto.
Qed.

Lemma blanks_text (k : nat) : forallb text_char (repeat 32 k) = true.
Proof. induction k; cbn; auto. Qed.

Lemma skip_blanks_repeat (k : nat) (p : list Z) : skip_blanks_of (repeat 32 k ++ p) = skip_blanks_of p.
Proof. induction k; cbn; auto. Qed.

Lemma take_word_app (w rest : list Z) : forallb word_char w = true -> take_word (w ++ 32 :: rest) = (w, rest).
Proof.
  induction w as [|c w IH]; cbn; [done|]. intros [Hc Hw]%andb_prop. apply andb_prop in Hc as [Hc _]. apply negb_true_iff in Hc.
  by rewrite Hc, IH.
Qed.

(** Blanks, a word and a blank. *)
Lemma line_args_word (fuel k : nat) (w rest : list Z) (largv : list (list Z)) : word w = true -> (length largv < 255)%nat ->
  line_args (S fuel) (repeat 32 k ++ w ++ 32 :: rest) largv = line_args fuel rest (largv ++ [w]).
Proof.
  intros Hw Hl. cbn [line_args]. rewrite skip_blanks_repeat. destruct w as [|c w]; [done|]. cbn [word] in Hw.
  apply andb_prop in Hw as [Hc Hw]. apply negb_true_iff in Hc.
  assert (blank_char c = false) as Hb by (cbn in Hw; apply andb_prop in Hw as [Hw _]; apply andb_prop in Hw as [Hw _]; by apply negb_true_iff).
  cbn [app skip_blanks_of]. rewrite Hb, Hc. change (c :: w ++ 32 :: rest) with ((c :: w) ++ 32 :: rest). rewrite (take_word_app (c :: w) rest Hw).
  rewrite fatal_if_false; [done|]. apply Nat.eqb_neq. rewrite length_app. cbn. unfold MAX_LINE_ARGS. lia.
Qed.

(** A line of words, each behind some blanks and followed by one. *)
Lemma line_args_words (ws : list (nat * list Z)) (fuel : nat) (largv : list (list Z)) :
  Forall (fun w => word w.2 = true) ws -> (length largv + length ws < 256)%nat -> (length ws < fuel)%nat ->
  line_args fuel (mjoin ((fun w => repeat 32 w.1 ++ w.2 ++ [32]) <$> ws)) largv = Ok (largv ++ ws.*2).
Proof.
  revert fuel largv. induction ws as [|[k w] ws IH]; intros [|fuel] largv Hws Hl Hf; cbn [length] in *; try lia.
  - cbn. by rewrite app_nil_r.
  - apply Forall_cons in Hws as [Hw Hws]. cbn [fmap list_fmap mjoin list_join fst snd] in *. rewrite <- !app_assoc. cbn [app].
    rewrite line_args_word by (done || lia). rewrite IH by (try done; rewrite ?length_app; cbn; lia). by rewrite <- app_assoc.
Qed.

(** A line that starts with a hash mark has no arguments. *)
Lemma line_args_comment (fuel : nat) (l : list Z) : line_args (S fuel) (str "# " ++ l) [] = Ok [].
Proof. reflexivity. Qed.

Lemma forallb_join (f : Z -> bool) (ls : list (list Z)) : (forall l, l ∈ ls -> forallb f l = true) -> forallb f (mjoin ls) = true.
Proof.
  induction ls as [|l ls IH]; intros H; cbn; [done|]. rewrite forallb_app. apply andb_true_iff. split; [apply H; by left|].
  apply IH. intros l' Hl'. apply H. by right.
Qed.

Section Processing.
Context {fp : HostFP} {eh : EvalHost} {oh : OptHost}.

(** * One option *)

(** The option has the elements [cs]. *)
Definition holds (o : opt_opt_t) (cs : list cell) (m : memory) : Prop :=
  (forall i c, cs !! i = Some c -> load (opt_var o) (Z.of_nat i) m = Ok c) /\ opt_nelt o m = Ok (Z.of_nat (length cs)).

(** The locations of an option, and that they can hold all of its values. *)
Definition locations (o : opt_opt_t) : list positive := opt_var o :: match nelt o with Some p => [p] | None => [] end.

Definition shape_ok (o : opt_opt_t) (m : memory) : Prop :=
  (exists l, m !! opt_var o = Some l /\ nvars o <= Z.of_nat (length l))
  /\ match nelt o with Some p => p <> opt_var o /\ exists c r, m !! p = Some (c :: r) | None => True end.

(** The number of elements parsed so far. *)
Definition parsed (o : opt_opt_t) (n : Z) (m : memory) : Prop :=
  match nelt o with Some p => p <> opt_var o /\ exists r, m !! p = Some (c_num n :: r) | None => True end.

(** [cs] was written from the position [ent] of the array [l]. *)
Definition written (ent : nat) (cs l l' : list cell) : Prop :=
  length l' = length l /\ (forall i c, cs !! i = Some c -> l' !! (ent + i)%nat = Some c)
  /\ (forall j, (j < ent)%nat \/ (ent + length cs <= j)%nat -> l' !! j = l !! j).

Lemma written_nil (ent : nat) (l : list cell) : written ent [] l l.
Proof. split_and!; [done|by intros i c ?|done]. Qed.

Lemma written_cons (ent : nat) (c : cell) (cs l l' : list cell) : (ent < length l)%nat ->
  written (S ent) cs (<[ent := c]> l) l' -> written ent (c :: cs) l l'.
Proof.
  intros He (Hl & Hc & Hj). rewrite length_insert in Hl. split_and!; [done| |].
  - intros [|i] d Hd.
    + injection Hd as <-. rewrite Nat.add_0_r, Hj by lia. by apply list_lookup_insert_eq.
    + replace (ent + S i)%nat with (S ent + i)%nat by lia. by apply Hc.
  - intros j Hlt. cbn in Hlt. rewrite Hj by lia. apply list_lookup_insert_ne. lia.
Qed.

Lemma store_ok (p : positive) (i : nat) (c : cell) (m : memory) (l : list cell) : m !! p = Some l -> (i < length l)%nat ->
  store p (Z.of_nat i) c m = Ok (<[p := <[i := c]> l]> m).
Proof.
  intros Hp Hi. unfold store. rewrite Hp. cbn. rewrite (proj2 (Z.ltb_ge _ _)) by lia. rewrite Nat2Z.id.
  destruct (lookup_lt_is_Some_2 l i Hi) as [d Hd]. by rewrite (c_upd_insert _ _ _ _ Hd).
Qed.

Lemma store_head (p : positive) (c c0 : cell) (m : memory) (r : list cell) : m !! p = Some (c0 :: r) ->
  store p 0 c m = Ok (<[p := c :: r]> m).
Proof. intros Hp. exact (store_ok p 0 c m _ Hp ltac:(cbn; lia)). Qed.

Lemma bump_ok (o : opt_opt_t) (n : Z) (m : memory) : parsed o n m -> 0 <= n < 2 ^ 31 - 1 ->
  exists m', bump_nelt o m = Ok m' /\ parsed o (n + 1) m' /\ m' !! opt_var o = m !! opt_var o
    /\ forall q, q ∉ locations o -> m' !! q = m !! q.
Proof.
  intros Hp Hn. unfold bump_nelt. unfold parsed in *. destruct (nelt o) as [p|] eqn:E; [|exists m; done].
  destruct Hp as (Hne & r & Hr). assert (load_num p m = Ok n) as -> by (unfold load_num, load; by rewrite Hr). cbn [mbind outcome_bind].
  rewrite (store_head p _ _ m _ Hr). eexists. split; [reflexivity|].
  rewrite s32_small by lia. split; [split; [done|exists r; by rewrite lookup_insert_eq]|].
  split; [by rewrite lookup_insert_ne|]. intros q Hq. rewrite lookup_insert_ne; [done|]. intros ->. apply Hq. unfold locations. rewrite E. set_solver.
Qed.

(** The arguments of an option end at the next option. *)
Definition next_option (rest : list (list Z)) : Prop := match rest with [] => True | a :: _ => dashed a = true end.

(** The arguments [ts] are parsed to [cs]. *)
Lemma parse_args_ok (o : opt_opt_t) (rest ts : list (list Z)) (cs : list cell) : next_option rest ->
  Forall2 (fun t c => dashed t = false /\ parse_arg o t = Ok c) ts cs ->
  forall cnt n ent m l, cnt + Z.of_nat (length cs) <= n -> m !! opt_var o = Some l -> (ent + length cs <= length l)%nat ->
  parsed o (Z.of_nat ent) m -> Z.of_nat (ent + length cs) < 2 ^ 31 ->
  exists m' l', parse_args o (ts ++ rest) cnt n (Z.of_nat ent) m = Ok (rest, m') /\ m' !! opt_var o = Some l' /\ written ent cs l l'
    /\ parsed o (Z.of_nat (ent + length cs)) m' /\ forall q, q ∉ locations o -> m' !! q = m !! q.
Proof.
  intros Hrest. induction 1 as [|t c ts cs [Hd Hp] Hts IH]; intros cnt n ent m l Hn Hl Hlen Hpar Hbig.
  - exists m, l. rewrite Nat.add_0_r. split_and!; [|done|apply written_nil|done|done].
    destruct rest as [|a rest]; [done|]. cbn in Hrest |- *. by rewrite Hrest, andb_false_r.
  - cbn [length app] in *. cbn [parse_args]. rewrite (proj2 (Z.ltb_lt cnt n)) by lia. rewrite Hd. cbn [andb negb].
    set (m1 := <[opt_var o := <[ent := c]> l]> m).
    assert (parsed o (Z.of_nat ent) m1) as Hpar1.
    { unfold parsed in *. destruct (nelt o) as [p|]; [|done]. destruct Hpar as (Hne & r & Hr). split; [done|].
      exists r. unfold m1. by rewrite lookup_insert_ne. }
    destruct (bump_ok o (Z.of_nat ent) m1 Hpar1 ltac:(lia)) as (m2 & Hb & Hpar2 & Hv2 & Hq2).
    unfold m1 in Hv2 at 1. rewrite lookup_insert_eq in Hv2.
    destruct (IH (cnt + 1) n (S ent) m2 (<[ent := c]> l) ltac:(lia) Hv2) as (m' & l' & Hrun & Hl' & Hw & Hpar' & Hq').
    { rewrite length_insert. lia. }
    { by replace (Z.of_nat (S ent)) with (Z.of_nat ent + 1) by lia. }
    { lia. }
    assert (forall X, (match oc o, Ok c with
      | oc_flag, Fatal => X
      | _, r => c ← r; m ← store (opt_var o) (Z.of_nat ent) c m; m ← bump_nelt o m; parse_args o (ts ++ rest) (cnt + 1) n (Z.of_nat ent + 1) m
      end) = Ok (rest, m')) as Hrun'.
    { intros X. replace (Z.of_nat ent + 1) with (Z.of_nat (S ent)) by lia.
      destruct (oc o); cbn [mbind outcome_bind]; rewrite (store_ok _ ent c m l Hl) by lia; cbn [mbind outcome_bind]; fold m1; rewrite Hb; exact Hrun. }
    exists m', l'. rewrite Hp. split; [apply (Hrun' NoFuel)|]. split_and!; [done|apply written_cons; [lia|done]| |].
    + by replace (ent + S (length cs))%nat with (S ent + length cs)%nat by lia.
    + intros q Hq. rewrite Hq', Hq2 by done. unfold m1. apply lookup_insert_ne. intros <-. apply Hq. unfold locations. set_solver.
Qed.

(** An invocation of an option sets its elements and nothing else. *)
Lemma process_option_ok (odb : opt_odb_t) (o : opt_opt_t) (rest ts : list (list Z)) (cs : list cell) (m : memory) :
  next_option rest -> find_opt (opt_name o) (options odb) = Some o -> accrue o = false -> shape_ok o m ->
  Forall2 (fun t c => dashed t = false /\ parse_arg o t = Ok c) ts cs ->
  (1 <= length cs)%nat -> Z.of_nat (length cs) <= nvars o < 2 ^ 31 -> (nelt o = None -> length cs = 1%nat) ->
  exists m', process_option odb (opt_name o :: ts ++ rest) m = Ok (rest, m') /\ holds o cs m' /\ shape_ok o m'
    /\ forall q, q ∉ locations o -> m' !! q = m !! q.
Proof.
  intros Hrest Hfind Hacc [(l & Hl & Hnv) Hnelt] Hts Hlen Hn Hone. unfold process_option. rewrite Hfind.
  pose proof (Forall2_length _ _ _ Hts) as Hlt.
  assert (match ts ++ rest with [] => true | a :: _ => dashed a end = false) as ->.
  { destruct Hts as [|t c ts cs [Hd _] _]; [cbn in Hlen; lia|done]. }
  unfold start_args. rewrite Hacc.
  assert (exists m1, (match nelt o with Some p => store p 0 (c_num 0) m | None => Ok m end) = Ok m1 /\ parsed o 0 m1
    /\ m1 !! opt_var o = Some l /\ forall q, q ∉ locations o -> m1 !! q = m !! q) as (m1 & Hm1 & Hpar1 & Hl1 & Hq1).
  { unfold parsed, locations. destruct (nelt o) as [p|]; [|by exists m]. destruct Hnelt as (Hne & c & r & Hr).
    rewrite (store_head p _ _ m _ Hr). eexists. split; [reflexivity|]. split_and!.
    - done.
    - exists r. by rewrite lookup_insert_eq.
    - by rewrite lookup_insert_ne.
    - intros q Hq. apply lookup_insert_ne. set_solver. }
  rewrite Hm1. cbn [mbind outcome_bind].
  destruct (parse_args_ok o rest ts cs Hrest Hts 0 (nvars o) 0 m1 l ltac:(lia) Hl1 ltac:(lia) Hpar1 ltac:(lia)) as (m' & l' & Hrun & Hl' & Hw & Hpar' & Hq').
  exists m'. split; [exact Hrun|]. destruct Hw as (Hwl & Hwc & _). split; [split|split; [split|]].
  - intros i c Hc. unfold load. rewrite Hl'. cbn. rewrite (proj2 (Z.ltb_ge _ _)) by lia. rewrite Nat2Z.id. apply c_get_some. by apply (Hwc i).
  - unfold opt_nelt. unfold parsed in Hpar'. destruct (nelt o) as [p|]; [|by rewrite Hone].
    destruct Hpar' as (_ & r & Hr). unfold load_num, load. by rewrite Hr.
  - exists l'. split; [done|]. lia.
  - unfold parsed in Hpar'. destruct (nelt o) as [p|]; [|done]. destruct Hpar' as (Hne & r & Hr). split; [done|eauto].
  - intros q Hq. by rewrite Hq', Hq1.
Qed.

(** * Elements that can be printed and parsed *)

(** The value of an enumeration string, for which strings are unique words. *)
Definition enum_value (emap : list (list Z)) (eval : option (list Z)) (z : Z) : Prop :=
  NoDup emap /\ Forall (fun s => word s = true /\ dashed s = false) emap
  /\ match eval with
     | Some eval => length eval = length emap /\ z ∈ eval
     | None => 0 <= z < Z.of_nat (length emap)
     end.

(** Numbers that are not negative, values of enumerations, words, and what the
    host's conversions of floating point agree on. *)
Definition reloadable (o : opt_opt_t) (c : cell) : Prop :=
  match oc o, c with
  | oc_int, c_num z => 0 <= z < 2 ^ 31
  | oc_uint, c_num z => 0 <= z < 2 ^ 32
  | oc_float, c_num z => exists t d, printf_double (width o) (cvt_D_S z) = pad_left (width o) t /\ word t = true /\ dashed t = false
      /\ strtod_all t = Some d /\ float_range d = true /\ cvt_S_D d = z
  | oc_double, c_num z => exists t, printf_double (width o) z = pad_left (width o) t /\ word t = true /\ dashed t = false
      /\ strtod_all t = Some z
  | oc_enum, c_num z => enum_value (emap o) (eval_map o) z
  | oc_flag, c_num z => emap o = flag_emap /\ eval_map o = Some flag_eval /\ (z = 0 \/ z = 1)
  | oc_string, c_str (Some s) => word s = true /\ dashed s = false
  | _, _ => False
  end.

Definition cell_ok (o : opt_opt_t) (c : cell) (t : list Z) : Prop :=
  print_cell o c = Ok (pad_left (width o) t) /\ word t = true /\ dashed t = false /\ parse_arg o t = Ok c.

Lemma digits_word (s : list Z) : s <> [] -> Forall (fun c => 48 <= c <= 57) s -> word s = true /\ dashed s = false.
Proof.
  intros Hs Hd. assert (forallb word_char s = true) as Hw.
  { clear Hs. induction Hd as [|c s Hc _ IH]; [done|]. cbn. rewrite IH. unfold word_char, blank_char, text_char. blia. }
  destruct s as [|c s]; [done|]. apply Forall_cons in Hd as [Hc _]. unfold word. rewrite Hw. cbn. split; blia.
Qed.

Lemma print_uint_word (n : Z) : 0 <= n < 10 ^ 10 -> word (print_uint n) = true /\ dashed (print_uint n) = false.
Proof.
  intros Hn. apply digits_word; [|apply print_uint_digits]. intros H. pose proof (strto_parse_uint n Hn) as Hp. rewrite H in Hp. done.
Qed.

Lemma find_str_at (emap : list (list Z)) (i : nat) (s : list Z) (k : Z) : NoDup emap -> emap !! i = Some s ->
  find_str s k emap = Some (k + Z.of_nat i).
Proof.
  intros Hnd. revert i k. induction Hnd as [|e emap He _ IH]; intros i k Hi; [done|]. cbn. destruct i as [|i]; cbn in Hi.
  - injection Hi as ->. rewrite bool_decide_eq_true_2 by done. f_equal. lia.
  - rewrite bool_decide_eq_false_2 by (intros ->; apply He; by apply list_elem_of_lookup_2 in Hi).
    rewrite (IH i (k + 1) Hi). f_equal. lia.
Qed.

Lemma find_val_at (emap : list (list Z)) (eval : list Z) (v : Z) : length eval = length emap -> v ∈ eval ->
  exists i s, find_val v emap eval = Ok (Some s) /\ emap !! i = Some s /\ eval !! i = Some v.
Proof.
  revert eval. induction emap as [|e emap IH]; intros [|x eval] Hl Hv; cbn in Hl; try done; [by apply not_elem_of_nil in Hv|].
  cbn. destruct (Z.eqb_spec x v) as [->|Hne]; [by exists 0%nat, e|].
  apply elem_of_cons in Hv as [->|Hv]; [done|]. destruct (IH eval ltac:(lia) Hv) as (i & s & Hf & Hs & He). by exists (S i), s.
Qed.

Lemma enum_value_binds (emap : list (list Z)) (eval : option (list Z)) (z : Z) : enum_value emap eval z ->
  exists s, bind_to_str z emap eval = Ok (Some s) /\ word s = true /\ dashed s = false /\ bind_to_enum s emap eval = Ok (Some z).
Proof.
  intros (Hnd & Hw & Hz). rewrite Forall_lookup in Hw. unfold bind_to_str, bind_to_enum. destruct eval as [eval|].
  - destruct Hz as [Hl Hz]. destruct (find_val_at emap eval z Hl Hz) as (i & s & -> & Hs & He). exists s.
    destruct (Hw i s Hs) as [? ?]. rewrite (find_str_at emap i s 0 Hnd Hs), Z.add_0_l, Nat2Z.id, (c_get_some _ _ _ He). done.
  - rewrite (proj2 (Z.leb_gt _ _)), (proj2 (Z.ltb_ge _ _)) by lia.
    destruct (lookup_lt_is_Some_2 emap (Z.to_nat z) ltac:(lia)) as [s Hs]. rewrite (c_get_some _ _ _ Hs). exists s.
    destruct (Hw _ s Hs) as [? ?]. rewrite (find_str_at emap _ s 0 Hnd Hs). split_and!; [done..|]. repeat f_equal. lia.
Qed.

Lemma reloadable_cell (o : opt_opt_t) (c : cell) : 32 <= long_bits -> reloadable o c -> exists t, cell_ok o c t.
Proof.
  intros Hl. unfold reloadable, cell_ok, print_cell, parse_arg. destruct (oc o) eqn:E, c as [z|s]; try done.
  - intros Hz. exists (print_int z). rewrite strtol_int by done. rewrite s32_small by lia.
    destruct (print_uint_word z ltac:(lia)). unfold print_int. by rewrite (proj2 (Z.ltb_ge _ _)) by lia.
  - intros Hz. exists (print_uint z). rewrite strtoul_uint by done. rewrite u32_small by lia. by destruct (print_uint_word z ltac:(lia)).
  - intros (t & d & Hp & ? & ? & Hs & Hr & Hc). exists t. by rewrite Hp, Hs, Hr, Hc.
  - intros (t & Hp & ? & ? & Hs). exists t. by rewrite Hp, Hs.
  - intros (s & Hp & ? & ? & Hs)%enum_value_binds. exists s. by rewrite Hp, Hs.
  - intros (-> & -> & [-> | ->]); [by exists (str "false")|by exists (str "true")].
  - destruct s as [s|]; [|done]. intros [? ?]. by exists s.
Qed.

(** * Frames *)

Lemma shape_ok_frame (o : opt_opt_t) (m m' : memory) : (forall q, q ∈ locations o -> m' !! q = m !! q) ->
  shape_ok o m -> shape_ok o m'.
Proof.
  unfold shape_ok, locations. intros Hq [(l & Hl & Hn) Hp]. split.
  - exists l. by rewrite Hq by set_solver.
  - destruct (nelt o) as [p|]; [|done]. by rewrite Hq by set_solver.
Qed.

Lemma holds_frame (o : opt_opt_t) (cs : list cell) (m m' : memory) : (forall q, q ∈ locations o -> m' !! q = m !! q) ->
  holds o cs m -> holds o cs m'.
Proof.
  unfold holds, opt_nelt, load_num, load, locations. intros Hq [Hc Hn]. split.
  - intros i c Hi. rewrite Hq by set_solver. by apply Hc.
  - destruct (nelt o) as [p|]; [|done]. by rewrite Hq by set_solver.
Qed.

Lemma find_opt_unique (opts : list opt_opt_t) (o : opt_opt_t) : NoDup (opt_name <$> opts) -> o ∈ opts -> find_opt (opt_name o) opts = Some o.
Proof.
  induction opts as [|p opts IH]; [by intros _ ?%not_elem_of_nil|]. cbn. intros [Hp Hnd]%NoDup_cons [->|Ho]%elem_of_cons.
  - by rewrite bool_decide_eq_true_2.
  - rewrite bool_decide_eq_false_2; [by apply IH|]. intros Heq. apply Hp. rewrite Heq. by apply list_elem_of_fmap_2.
Qed.

End Processing.
