(* ===== verification/OptionsReload.v ===== *)
(** A configuration that is dumped is restored when it is loaded: how one option
    is printed and read back, and the whole file. *)

From Stdlib Require Import String.
From S2P Require Import Prelude Misc Exec Eval Strto Options OptionsProps.

Section Reload.
Context {fp : HostFP} {eh : EvalHost} {oh : OptHost}.

(** * One option *)

(** The option has the elements that are printed, and they can be restored. *)
Definition saved (o : opt_opt_t) (cs : list cell) (m : memory) : Prop :=
  holds o cs m /\ (1 <= length cs <= 254)%nat /\ Z.of_nat (length cs) <= nvars o < 2 ^ 31
  /\ (nelt o = None -> length cs = 1%nat) /\ accrue o = false /\ Forall (reloadable o) cs.

(** Whether the option is printed as a comment. *)
Definition commented (o : opt_opt_t) (m : memory) : outcome bool := if print o then opt_null_string o m else Ok true.

(** The text of the option fits in two lines, the line of its description and that
    of its elements, and it can be restored unless it is a comment. *)
Record dumpable (o : opt_opt_t) (m : memory) : Prop := mk_dumpable {
  d_name : word (opt_name o) = true /\ dashed (opt_name o) = true;
  d_builtin : opt_name o <> str "-config" /\ opt_name o <> str "-dumpconfig";
  d_desc : forall d, opt_desc o = Some d -> forallb text_char d = true /\ (length d < 1021)%nat;
  d_text : exists t, opt_print_option o m = Ok t /\ forallb text_char t = true /\ (length (opt_name o) + length t < 990)%nat;
  d_saved : commented o m = Ok true \/ commented o m = Ok false /\ exists cs, saved o cs m;
}.

Lemma holds_load (o : opt_opt_t) (cs : list cell) (m : memory) (k : nat) (cs' : list cell) (ts : list (list Z)) :
  (forall i c, cs' !! i = Some c -> load (opt_var o) (Z.of_nat (k + i)) m = Ok c) -> Forall2 (cell_ok o) cs' ts ->
  print_cells o (Z.of_nat k) (length cs') m = Ok (mjoin ((fun t => pad_left (width o) t ++ [32]) <$> ts)).
Proof.
  intros Hload Hts. revert k Hload. induction Hts as [|c t cs' ts (Hp & _) _ IH]; intros k Hload; [done|].
  cbn [length print_cells]. pose proof (Hload 0%nat c eq_refl) as Hc. rewrite Nat.add_0_r in Hc. rewrite Hc. cbn [mbind outcome_bind].
  rewrite Hp. cbn [mbind outcome_bind]. replace (Z.of_nat k + 1) with (Z.of_nat (S k)) by lia. rewrite IH.
  - cbn. by rewrite <- app_assoc.
  - intros i d Hd. replace (S k + i)%nat with (k + S i)%nat by lia. by apply Hload.
Qed.

(** The elements of an option and their texts. *)
Lemma saved_prints (o : opt_opt_t) (cs : list cell) (m : memory) : 32 <= long_bits -> saved o cs m ->
  exists ts, Forall2 (cell_ok o) cs ts /\ opt_print_option o m = Ok (mjoin ((fun t => pad_left (width o) t ++ [32]) <$> ts)).
Proof.
  intros Hlong ((Hload & Hn) & Hlen & Hnv & _ & _ & Hre).
  assert (exists ts, Forall2 (cell_ok o) cs ts) as [ts Hts].
  { clear - Hlong Hre. induction Hre as [|c cs Hc _ [ts Hts]]; [by exists []|].
    destruct (reloadable_cell o c Hlong Hc) as [t Ht]. exists (t :: ts). by constructor. }
  exists ts. split; [done|]. unfold opt_print_option. rewrite Hn. cbn [mbind outcome_bind].
  rewrite (proj2 (Z.eqb_neq (nvars o) 0)), (proj2 (Z.eqb_neq (Z.of_nat (length cs)) 0)) by lia. rewrite andb_false_r. rewrite Nat2Z.id.
  exact (holds_load o cs m 0 cs ts Hload Hts).
Qed.

(** The words of the line of an option. *)
Lemma option_line_words (o : opt_opt_t) (cs : list cell) (ts : list (list Z)) (fuel : nat) :
  word (opt_name o) = true -> Forall2 (cell_ok o) cs ts -> (length ts < 255)%nat -> (length ts + 1 < fuel)%nat -> ts <> [] ->
  line_args fuel (pad_right 22 (opt_name o) ++ [32] ++ mjoin ((fun t => pad_left (width o) t ++ [32]) <$> ts)) [] = Ok (opt_name o :: ts).
Proof.
  intros Hname Hts Hlen Hfuel Hne. destruct ts as [|t ts]; [done|].
  set (k := (22 - length (opt_name o))%nat). set (pad := fun t : list Z => (width o - length t)%nat).
  pose proof (line_args_words ((0%nat, opt_name o) :: ((k + pad t)%nat, t) :: ((fun t => (pad t, t)) <$> ts)) fuel []) as Hw.
  cbn [length app fmap list_fmap fst snd] in Hw, Hlen, Hfuel. rewrite length_fmap in Hw.
  assert (forall ts : list (list Z), ((fun t => (pad t, t)) <$> ts).*2 = ts) as Hsnd.
  { clear. induction ts as [|t ts IH]; [done|]. cbn. f_equal. exact IH. }
  change ((fix list_fmap l := match l with [] => [] | x :: l => snd x :: list_fmap l end) ((fun t => (pad t, t)) <$> ts))
    with (((fun t => (pad t, t)) <$> ts).*2) in Hw.
  assert ((fun w : nat * list Z => repeat 32 w.1 ++ w.2 ++ [32]) <$> ((fun t => (pad t, t)) <$> ts)
          = (fun t => pad_left (width o) t ++ [32]) <$> ts) as Hpads.
  { rewrite <- list_fmap_compose. apply list_fmap_ext. intros i u _. cbn. unfold pad_left, pad. by rewrite <- app_assoc. }
  change ((fix list_fmap l := match l with [] => [] | x :: l => (repeat 32 x.1 ++ x.2 ++ [32]) :: list_fmap l end) ((fun t => (pad t, t)) <$> ts))
    with ((fun w : nat * list Z => repeat 32 w.1 ++ w.2 ++ [32]) <$> ((fun t => (pad t, t)) <$> ts)) in Hw.
  rewrite Hsnd, Hpads in Hw. rewrite <- Hw; [|  | lia | lia].
  - f_equal. unfold pad_right. fold k. cbn [fmap list_fmap mjoin list_join fst snd repeat app]. rewrite <- !app_assoc. f_equal.
    assert (forall (n : nat) (l : list Z), repeat 32 n ++ 32 :: l = 32 :: repeat 32 n ++ l) as Hrot.
    { clear. induction n as [|n IH]; intros l; [done|]. cbn. by rewrite IH. }
    cbn [app]. rewrite Hrot. f_equal. rewrite repeat_app, <- !app_assoc. f_equal. unfold pad_left at 1. by rewrite <- !app_assoc.
  - assert (Forall (fun u => word u = true) (t :: ts)) as Hall.
    { clear - Hts. revert Hts. generalize (t :: ts). intros us Hus. induction Hus as [|c u cs us (_ & Hu & _) _ IH]; by constructor. }
    apply Forall_cons in Hall as [Ht Hall]. constructor; [done|]. constructor; [done|]. apply Forall_fmap. exact Hall.
Qed.

Lemma holds_inj (o : opt_opt_t) (cs cs' : list cell) (m : memory) : holds o cs m -> holds o cs' m -> cs = cs'.
Proof.
  intros [Hc Hn] [Hc' Hn']. assert (length cs = length cs') as Hl by (rewrite Hn in Hn'; apply Ok_inj in Hn'; lia).
  apply list_eq. intros i. destruct (cs !! i) as [c|] eqn:E.
  - destruct (lookup_lt_is_Some_2 cs' i) as [c' E']; [rewrite <- Hl; by apply lookup_lt_Some in E|].
    rewrite E'. f_equal. pose proof (Hc i c E). pose proof (Hc' i c' E'). congruence.
  - symmetry. apply lookup_ge_None_2. apply lookup_ge_None_1 in E. lia.
Qed.

Lemma saved_inj (o : opt_opt_t) (cs cs' : list cell) (m : memory) : saved o cs m -> saved o cs' m -> cs = cs'.
Proof. intros [H _] [H' _]. by apply (holds_inj o cs cs' m). Qed.

(** * Lines of a file *)

Section Lines.
Context {W : Type}.
Variable orphan_fn : option (Z -> list (list Z) -> W -> bool * W).
Variable writable : list Z -> bool.
Variable odb : opt_odb_t.

(** How a line of a configuration file is processed. *)
Definition file_line (fuel : nat) (largv : list (list Z)) (w : opt_world W) : outcome (opt_world W) :=
  opt_process_args orphan_fn writable odb fuel largv largv 1 None w.

Lemma file_line_option (fuel : nat) (name : list Z) (ts : list (list Z)) (w : opt_world W) (m' : gmap positive (list cell)) :
  dashed name = true -> name <> str "-config" -> name <> str "-dumpconfig" ->
  process_option odb (name :: ts) (omem w) = Ok ([], m') -> file_line (S (S fuel)) (name :: ts) w = Ok (w <| omem := m' |>).
Proof.
  intros Hd Hc Hdc Hp. unfold file_line. cbn [opt_process_args]. rewrite Hd. cbn [negb].
  by rewrite !bool_decide_eq_false_2, Hp by done.
Qed.

Lemma skip_line (n : nat) (f : list (list Z) -> opt_world W -> outcome (opt_world W)) (l rest : list Z) (w : opt_world W) :
  forallb text_char l = true -> (length l < 1023)%nat -> line_args (S (length l)) l [] = Ok [] ->
  (length (l ++ 10%Z :: rest) <= n)%nat ->
  exists n', process_lines n f (l ++ 10 :: rest) w = process_lines n' f rest w /\ (length rest <= n')%nat.
Proof.
  intros Ht Hl Ha Hn. rewrite length_app in Hn. cbn in Hn. destruct n as [|n]; [lia|]. exists n.
  rewrite process_line by done. rewrite Ha. split; [done|lia].
Qed.

Lemma pad_right_text (k : nat) (s : list Z) : forallb text_char s = true -> forallb text_char (pad_right k s) = true.
Proof. intros H. unfold pad_right. by rewrite forallb_app, H, blanks_text. Qed.

Lemma pad_right_length (k : nat) (s : list Z) : (length (pad_right k s) <= k + length s)%nat.
Proof. unfold pad_right. rewrite length_app, repeat_length. lia. Qed.

(** What is left of the memory. *)
Definition same_but (o : opt_opt_t) (w w' : opt_world W) : Prop :=
  exists m', w' = w <| omem := m' |> /\ forall q, q ∉ locations o -> m' !! q = omem w !! q.

Lemma same_but_refl (o : opt_opt_t) (w : opt_world W) : same_but o w w.
Proof. exists (omem w). split; [by destruct w|done]. Qed.

(** The lines of an option that are comments. *)
Lemma reload_desc (n : nat) (f : list (list Z) -> opt_world W -> outcome (opt_world W)) (o : opt_opt_t) (m : gmap positive (list cell))
    (rest : list Z) (w : opt_world W) :
  dumpable o m -> (length ((match opt_desc o with Some d => str "# " ++ d ++ [10%Z] | None => [] end) ++ rest) <= n)%nat ->
  exists n', process_lines n f ((match opt_desc o with Some d => str "# " ++ d ++ [10] | None => [] end) ++ rest) w = process_lines n' f rest w
    /\ (length rest <= n')%nat.
Proof.
  intros Hdump Hn. pose proof (d_desc _ _ Hdump) as Hdesc. destruct (opt_desc o) as [d|]; [|by exists n].
  destruct (Hdesc d eq_refl) as [Ht Hl]. rewrite <- !app_assoc in *. cbn [app] in *. rewrite app_assoc in *. apply skip_line; [|cbn; lia|reflexivity|done].
  cbn. by rewrite Ht.
Qed.

Lemma reload_comment (n : nat) (f : list (list Z) -> opt_world W -> outcome (opt_world W)) (o : opt_opt_t) (m : gmap positive (list cell))
    (t rest : list Z) (w : opt_world W) :
  dumpable o m -> opt_print_option o m = Ok t -> (length ((str "# " ++ pad_right 20 (opt_name o) ++ [32%Z] ++ t) ++ 10%Z :: 10%Z :: rest) <= n)%nat ->
  exists n', process_lines n f ((str "# " ++ pad_right 20 (opt_name o) ++ [32] ++ t) ++ 10 :: 10 :: rest) w = process_lines n' f rest w
    /\ (length rest <= n')%nat.
Proof.
  intros [[Hw Hd] _ _ (t0 & Ht0 & Htext & Hlen) _] Ht Hn. assert (t0 = t) as -> by congruence.
  pose proof (pad_right_length 20 (opt_name o)) as Hp.
  destruct (skip_line n f (str "# " ++ pad_right 20 (opt_name o) ++ [32] ++ t) (10 :: rest) w) as (n1 & -> & Hn1); [| |done|done|].
  - rewrite !forallb_app, pad_right_text, Htext by by apply word_text. done.
  - rewrite !length_app. cbn. lia.
  - exact (skip_line n1 f [] rest w eq_refl ltac:(cbn; lia) eq_refl Hn1).
Qed.

Lemma reload_values (fuel n : nat) (o : opt_opt_t) (cs : list cell) (m : gmap positive (list cell)) (t rest : list Z) (w : opt_world W) :
  32 <= long_bits -> dumpable o m -> find_opt (opt_name o) (options odb) = Some o -> saved o cs m -> shape_ok o (omem w) ->
  opt_print_option o m = Ok t -> (length ((pad_right 22 (opt_name o) ++ [32%Z] ++ t) ++ 10%Z :: 10%Z :: rest) <= n)%nat ->
  exists n' w', process_lines n (file_line (S (S fuel))) ((pad_right 22 (opt_name o) ++ [32] ++ t) ++ 10 :: 10 :: rest) w
      = process_lines n' (file_line (S (S fuel))) rest w'
    /\ (length rest <= n')%nat /\ holds o cs (omem w') /\ same_but o w w'.
Proof.
  intros Hlong [[Hw Hd] [Hb1 Hb2] _ (t0 & Ht0 & Htext & Hlen) _] Hfind Hs Hshape Ht Hn.
  assert (t0 = t) as -> by congruence. pose proof (pad_right_length 22 (opt_name o)) as Hp.
  destruct (saved_prints o cs m Hlong Hs) as (ts & Hts & Hpr). assert (t = mjoin ((fun t => pad_left (width o) t ++ [32]) <$> ts)) as -> by congruence.
  destruct Hs as ((Hload & _) & Hcs & Hnv & Hone & Hacc & _). pose proof (Forall2_length _ _ _ Hts) as Hlt.
  destruct (process_option_ok odb o [] ts cs (omem w) I Hfind Hacc Hshape) as (m' & Hrun & Hh & _ & Hq); [|lia|lia|done|].
  { clear - Hts. induction Hts as [|c u cs ts (_ & _ & Hu & Hc) _ IH]; by constructor. }
  rewrite app_nil_r in Hrun. set (t := mjoin _) in *. set (line := pad_right 22 (opt_name o) ++ [32] ++ t) in *.
  assert (length line < 1023)%nat as Hll by (unfold line; rewrite !length_app; cbn; lia).
  assert (length ts <= length t)%nat as Hlts.
  { unfold t. clear. induction ts as [|u ts IH]; [done|].
    change (S (length ts) <= length ((pad_left (width o) u ++ [32%Z]) ++ mjoin ((fun t => pad_left (width o) t ++ [32%Z]) <$> ts)))%nat.
    rewrite !length_app. cbn [length]. lia. }
  rewrite length_app in Hn. cbn in Hn. destruct n as [|n]; [lia|].
  assert (1 <= length (opt_name o))%nat by (clear - Hw; destruct (opt_name o); [done|cbn; lia]).
  assert (forallb text_char line = true) as Hline.
  { unfold line. rewrite !forallb_app, pad_right_text, Htext by by apply word_text. done. }
  rewrite process_line by done.
  rewrite (option_line_words o cs ts _ Hw Hts); [|lia|unfold line, pad_right; rewrite !length_app; cbn [length]; lia|intros ->; cbn in Hlt; lia].
  cbn [mbind outcome_bind]. rewrite bool_decide_eq_false_2 by done.
  rewrite (file_line_option fuel _ _ _ _ Hd Hb1 Hb2 Hrun). cbn [mbind outcome_bind].
  destruct (skip_line n (file_line (S (S fuel))) [] rest (w <| omem := m' |>) eq_refl ltac:(cbn; lia) eq_refl ltac:(cbn; lia)) as (n' & Hskip & Hn').
  exists n', (w <| omem := m' |>). split; [exact Hskip|]. split; [done|]. split; [done|]. by exists m'.
Qed.

(** The text of an option is read back. *)
Lemma reload_one (fuel n : nat) (o : opt_opt_t) (m : gmap positive (list cell)) (t rest : list Z) (w : opt_world W) :
  32 <= long_bits -> dumpable o m -> find_opt (opt_name o) (options odb) = Some o -> print_one o m = Ok t ->
  (commented o m = Ok false -> shape_ok o (omem w)) -> (length (t ++ rest) <= n)%nat ->
  exists n' w', process_lines n (file_line (S (S fuel))) (t ++ rest) w = process_lines n' (file_line (S (S fuel))) rest w'
    /\ (length rest <= n')%nat
    /\ if bool_decide (commented o m = Ok false) then same_but o w w' /\ (forall cs, saved o cs m -> holds o cs (omem w')) else w' = w.
Proof.
  intros Hlong Hdump Hfind Hprint Hshape Hn. pose proof (d_saved _ _ Hdump) as Hsaved. pose proof (d_text _ _ Hdump) as (t0 & Ht0 & _).
  unfold print_one in Hprint. fold (commented o m) in Hprint. rewrite Ht0 in Hprint.
  destruct Hsaved as [Hc|[Hc [cs Hs]]]; rewrite Hc in Hprint |- *; apply Ok_inj in Hprint as <-; rewrite <- app_assoc in *;
    destruct (reload_desc n (file_line (S (S fuel))) o m _ w Hdump Hn) as (n1 & -> & Hn1); rewrite !app_assoc in *;
    rewrite <- (app_assoc _ [10; 10] rest) in *; rewrite <- !app_assoc in *; cbn [app] in *.
  - destruct (reload_comment n1 (file_line (S (S fuel))) o m t0 rest w Hdump Ht0) as (n2 & Hr & Hn2).
    { cbn [app] in *. rewrite <- !app_assoc in *. exact Hn1. }
    exists n2, w. cbn [app] in *. rewrite <- !app_assoc in Hr. cbn [app] in Hr. done.
  - destruct (reload_values fuel n1 o cs m t0 rest w Hlong Hdump Hfind Hs (Hshape Hc) Ht0) as (n2 & w' & Hr & Hn2 & Hh & Hq).
    { rewrite <- !app_assoc in *. exact Hn1. }
    exists n2, w'. rewrite <- !app_assoc in Hr. cbn [app] in Hr. split; [exact Hr|]. split; [done|]. split; [done|].
    intros cs' Hs'. by rewrite (saved_inj o cs' cs m).
Qed.

Lemma same_but_frame (o o' : opt_opt_t) (w w' : opt_world W) : same_but o w w' -> locations o ## locations o' ->
  forall q, q ∈ locations o' -> omem w' !! q = omem w !! q.
Proof. intros (m' & -> & Hq) Hd q Hin. apply Hq. intros Ho. exact (Hd q Ho Hin). Qed.

(** The text of all options. *)
Lemma reload_all (fuel : nat) (m : gmap positive (list cell)) (opts : list opt_opt_t) : 32 <= long_bits ->
  Forall (fun o => dumpable o m /\ find_opt (opt_name o) (options odb) = Some o) opts -> NoDup (mjoin (locations <$> opts)) ->
  forall n t w, print_all print_one opts m = Ok t -> (forall o, o ∈ opts -> commented o m = Ok false -> shape_ok o (omem w)) -> (length t <= n)%nat ->
  exists m', process_lines n (file_line (S (S fuel))) t w = Ok (w <| omem := m' |>)
    /\ (forall o cs, o ∈ opts -> commented o m = Ok false -> saved o cs m -> holds o cs m')
    /\ forall q, (forall o, o ∈ opts -> commented o m = Ok false -> q ∉ locations o) -> m' !! q = omem w !! q.
Proof.
  intros Hlong. induction 1 as [|o opts [Hdump Hfind] _ IH]; intros Hnd n t w Ht Hshape Hn.
  - apply Ok_inj in Ht as <-. exists (omem w). split_and!; [by destruct n; destruct w|by intros o cs ?%not_elem_of_nil|done].
  - cbn [fmap list_fmap] in Hnd. change (NoDup (locations o ++ mjoin (locations <$> opts))) in Hnd. apply NoDup_app in Hnd as (_ & Hdis & Hnd).
    cbn [print_all] in Ht. apply bind_ok in Ht as (t1 & Ht1 & Ht). apply bind_ok in Ht as (t2 & Ht2 & Ht).
    apply Ok_inj in Ht as <-.
    assert (forall o', o' ∈ opts -> locations o ## locations o') as Hdisj.
    { intros o' Ho' q Hq Hq'. apply (Hdis q Hq). apply list_elem_of_join. exists (locations o'). split; [done|]. by apply list_elem_of_fmap_2. }
    destruct (reload_one fuel n o m t1 t2 w Hlong Hdump Hfind Ht1 (Hshape o ltac:(by left)) Hn) as (n1 & w1 & -> & Hn1 & Heff).
    case_bool_decide as Hc.
    + destruct Heff as [Hsame Hheld]. pose proof Hsame as (m1 & -> & Hq1).
      destruct (IH Hnd n1 t2 (w <| omem := m1 |>) Ht2) as (m' & Hrun & Hh & Hq); [|done|].
      { intros o' Ho' Hc'. apply (shape_ok_frame o' (omem w)); [apply (same_but_frame o o' w _ Hsame); by apply Hdisj|apply Hshape; [by right|done]]. }
      exists m'. split; [exact Hrun|]. split.
      * intros o' cs [->|Ho']%elem_of_cons Hc' Hs; [|by apply Hh].
        apply (holds_frame _ _ m1); [|exact (Hheld cs Hs)]. intros q Hin. apply Hq. intros o2 Ho2 _ Hin2. exact (Hdisj o2 Ho2 q Hin Hin2).
      * intros q Hout. rewrite Hq; [apply Hq1; apply Hout; [by left|done]|]. intros o2 Ho2. apply Hout. by right.
    + subst w1. destruct (IH Hnd n1 t2 w Ht2) as (m' & Hrun & Hh & Hq); [intros o' Ho'; apply Hshape; by right|done|].
      exists m'. split; [exact Hrun|]. split.
      * intros o' cs [->|Ho']%elem_of_cons Hc' Hs; [done|by apply Hh].
      * intros q Hout. apply Hq. intros o2 Ho2. apply Hout. by right.
Qed.

(** The options that every database has are comments. *)
Lemma skip_builtin (n : nat) (f : list (list Z) -> opt_world W -> outcome (opt_world W)) (o : opt_opt_t) (rest : list Z) (w : opt_world W) :
  o ∈ builtin_options -> (length (print_builtin o ++ rest) <= n)%nat ->
  exists n', process_lines n f (print_builtin o ++ rest) w = process_lines n' f rest w /\ (length rest <= n')%nat.
Proof.
  intros Ho Hn.
  assert (exists l1 l2, print_builtin o = (str "# " ++ l1) ++ [10] ++ (str "# " ++ l2) ++ [10; 10] /\ forallb text_char l1 = true
    /\ forallb text_char l2 = true /\ (length l1 + length l2 < 1000)%nat) as (l1 & l2 & Hp & Ht1 & Ht2 & Hl).
  { exists (default [] (opt_desc o)), (pad_right 22 (opt_name o)). unfold print_builtin. rewrite <- !app_assoc.
    apply elem_of_cons in Ho as [->|Ho%list_elem_of_singleton]; [|subst o]; split_and!; try reflexivity; cbn; lia. }
  rewrite Hp in *. rewrite <- !(app_assoc _ _ rest) in *. cbn [app] in Hn |- *.
  destruct (skip_line n f (str "# " ++ l1) (str "# " ++ l2 ++ 10 :: 10 :: rest) w) as (n1 & Hr1 & Hn1); [by cbn; rewrite Ht1|cbn; lia|done| |].
  { rewrite <- !app_assoc in *. exact Hn. }
  destruct (skip_line n1 f (str "# " ++ l2) (10 :: rest) w) as (n2 & Hr2 & Hn2); [by cbn; rewrite Ht2|cbn; lia|done| |].
  { rewrite <- !app_assoc in *. exact Hn1. }
  destruct (skip_line n2 f [] rest w eq_refl ltac:(cbn; lia) eq_refl Hn2) as (n3 & Hr3 & Hn3).
  exists n3. split; [|done]. rewrite <- !app_assoc in *. cbn [app] in *. congruence.
Qed.

Lemma print_all_ok (opts : list opt_opt_t) (m : gmap positive (list cell)) : Forall (fun o => dumpable o m) opts ->
  exists t, print_all print_one opts m = Ok t.
Proof.
  induction 1 as [|o opts Ho _ [t Ht]]; [by exists []|]. destruct (d_text _ _ Ho) as (t0 & Ht0 & _).
  assert (exists t1, print_one o m = Ok t1) as [t1 Ht1].
  { unfold print_one. fold (commented o m). rewrite Ht0. destruct (d_saved _ _ Ho) as [->|[-> _]]; by eexists. }
  cbn [print_all]. rewrite Ht1. cbn [mbind outcome_bind]. rewrite Ht. by eexists.
Qed.

(** Loading what has been dumped. *)
Lemma load_dumped (fuel : nat) (m : gmap positive (list cell)) (t fname prog : list Z) (w : opt_world W) :
  32 <= long_bits -> NoDup (opt_name <$> options odb) -> NoDup (mjoin (locations <$> options odb)) ->
  Forall (fun o => dumpable o m) (options odb) ->
  Forall (fun o => commented o m = Ok false -> shape_ok o (omem w)) (options odb) ->
  dashed fname = false -> opt_print_options false false odb m = Ok t -> files w !! fname = Some t ->
  exists m', opt_process_options orphan_fn writable odb (S (S (S fuel))) [prog; str "-config"; fname] w = Ok (w <| omem := m' |>)
    /\ (forall o cs, o ∈ options odb -> commented o m = Ok false -> saved o cs m -> holds o cs m')
    /\ forall q, (forall o, o ∈ options odb -> commented o m = Ok false -> q ∉ locations o) -> m' !! q = omem w !! q.
Proof.
  intros Hlong Hnames Hlocs Hdump Hshape Hd Ht Hf. unfold opt_print_options in Ht. apply bind_ok in Ht as (t' & Ht' & Ht). apply Ok_inj in Ht.
  destruct (skip_builtin (length t) (file_line (S (S fuel))) config_opt (print_builtin dumpconfig_opt ++ t') w) as (n1 & Hr1 & Hn1).
  { by left. } { by rewrite <- Ht. }
  destruct (skip_builtin n1 (file_line (S (S fuel))) dumpconfig_opt t' w) as (n2 & Hr2 & Hn2); [by right; left|done|].
  destruct (reload_all fuel m (options odb) Hlong) with (n := n2) (t := t') (w := w) as (m' & Hrun & Hh & Hq); [|done|done| |done|].
  { rewrite Forall_forall in Hdump |- *. intros o Ho. split; [by apply Hdump|by apply find_opt_unique]. }
  { by rewrite Forall_forall in Hshape. }
  exists m'. split; [|done]. unfold opt_process_options. cbn [length Nat.ltb Nat.leb tail].
  cbn [opt_process_args]. change (dashed (str "-config")) with true. cbn [negb]. rewrite (bool_decide_eq_true_2 (str "-config" = str "-config")) by done.
  rewrite Hd, Hf. change (process_lines (length t) _ t w) with (process_lines (length t) (file_line (S (S fuel))) t w).
  assert (process_lines (length t) (file_line (S (S fuel))) t w = Ok (w <| omem := m' |>)) as Hall.
  { rewrite <- Hrun, <- Hr2, <- Hr1. by rewrite <- Ht. }
  rewrite Hall. reflexivity.
Qed.

End Lines.
End Reload.
