(* ===== verification/OptionsLine.v ===== *)
(** What a command line means: a database of options is a map from names to the
    elements of the options, and an invocation of an option replaces its elements
    or adds one.  The processing of a command line implements that. *)

From Stdlib Require Import String.
From S2P Require Import Prelude Misc Exec Eval Strto Options OptionsProps FunsimProps.

Section CommandLines.
Context {fp : HostFP} {eh : EvalHost} {oh : OptHost}.

(** * Options as a map *)

Abbreviation values := (gmap (list Z) (list cell)) (only parsing).

(** An option and its arguments. *)
Definition invocation : Type := opt_opt_t * list (list Z).

Definition arg_value (o : opt_opt_t) (t : list Z) : option cell :=
  if dashed t then None else match parse_arg o t with Ok c => Some c | _ => None end.

(** The elements after an invocation, if it is valid: a flag alone is set, an
    option that accrues takes one element and others all of theirs. *)
Definition invoke (o : opt_opt_t) (old : list cell) (ts : list (list Z)) : option (list cell) :=
  match ts with
  | [] => if bool_decide (oc o = oc_flag /\ nelt o = None) then Some [c_num 1] else None
  | [t] =>
      if accrue o then
        if bool_decide (is_Some (nelt o)) && (Z.of_nat (length old) <? nvars o) then c ← arg_value o t; Some (old ++ [c]) else None
      else c ← arg_value o t; Some [c]
  | _ =>
      if negb (accrue o) && bool_decide (is_Some (nelt o)) && (Z.of_nat (length ts) <=? nvars o) then mapM (arg_value o) ts else None
  end.

Fixpoint run_line (invs : list invocation) (s : values) : option values :=
  match invs with
  | [] => Some s
  | (o, ts) :: invs => old ← s !! opt_name o; new ← invoke o old ts; run_line invs (<[opt_name o := new]> s)
  end.

Definition line_of (invs : list invocation) : list (list Z) := mjoin ((fun i => opt_name i.1 :: i.2) <$> invs).

(** * The memory of the program *)

Record odb_ok (odb : opt_odb_t) : Prop := mk_odb_ok {
  ok_names : NoDup (opt_name <$> options odb);
  ok_locations : NoDup (mjoin (locations <$> options odb));
  ok_dashed : forall o, o ∈ options odb -> dashed (opt_name o) = true /\ opt_name o <> str "-config" /\ opt_name o <> str "-dumpconfig";
  ok_nvars : forall o, o ∈ options odb -> 1 <= nvars o < 2 ^ 31;
}.

(** The locations of each option have the elements the map gives. *)
Definition represents (odb : opt_odb_t) (s : values) (m : gmap positive (list cell)) : Prop :=
  forall o, o ∈ options odb -> shape_ok o m /\ exists cs, s !! opt_name o = Some cs /\ holds o cs m.

Lemma load_some (p : positive) (i : nat) (m : gmap positive (list cell)) (l : list cell) (c : cell) : m !! p = Some l ->
  load p (Z.of_nat i) m = Ok c <-> l !! i = Some c.
Proof.
  intros Hp. unfold load. rewrite Hp. cbn [deref mbind outcome_bind]. rewrite (proj2 (Z.ltb_ge _ _)) by lia. rewrite Nat2Z.id.
  unfold c_get. destruct (l !! i); cbn; split; congruence.
Qed.

(** What an invocation leaves. *)
Definition invoked (o : opt_opt_t) (new : list cell) (m m' : gmap positive (list cell)) : Prop :=
  holds o new m' /\ shape_ok o m' /\ forall q, q ∉ locations o -> m' !! q = m !! q.

(** A flag without an argument. *)
Lemma flag_alone_ok (odb : opt_odb_t) (o : opt_opt_t) (rest : list (list Z)) (m : gmap positive (list cell)) :
  find_opt (opt_name o) (options odb) = Some o -> next_option rest -> shape_ok o m -> 1 <= nvars o -> oc o = oc_flag -> nelt o = None ->
  exists m', process_option odb (opt_name o :: rest) m = Ok (rest, m') /\ invoked o [c_num 1] m m'.
Proof.
  intros Hfind Hrest [(l & Hl & Hn) _] Hv Hoc Hnelt. unfold process_option. rewrite Hfind.
  assert (match rest with [] => true | a :: _ => dashed a end = true) as -> by (destruct rest; [done|exact Hrest]).
  rewrite Hoc. rewrite (store_ok _ 0 _ _ _ Hl) by lia. eexists. split; [reflexivity|]. unfold invoked, holds, shape_ok, locations, opt_nelt.
  rewrite Hnelt. repeat split.
  - intros [|i] c Hc; [|done]. injection Hc as <-. rewrite (load_some _ 0 _ _ _ (lookup_insert_eq _ _ _)).
    apply list_lookup_insert_eq. lia.
  - eexists. split; [apply lookup_insert_eq|]. by rewrite length_insert.
  - intros q Hq. apply lookup_insert_ne. set_solver.
Qed.

(** An argument that is added to the elements. *)
Lemma accrue_ok (odb : opt_odb_t) (o : opt_opt_t) (rest : list (list Z)) (t : list Z) (c : cell) (old : list cell) (m : gmap positive (list cell)) :
  find_opt (opt_name o) (options odb) = Some o -> next_option rest -> shape_ok o m -> holds o old m -> accrue o = true -> is_Some (nelt o) ->
  dashed t = false -> parse_arg o t = Ok c -> Z.of_nat (length old) < nvars o < 2 ^ 31 ->
  exists m', process_option odb (opt_name o :: t :: rest) m = Ok (rest, m') /\ invoked o (old ++ [c]) m m'.
Proof.
  intros Hfind Hrest [(l & Hl & Hn) Hp] [Hload Hnelt] Hacc [p Hsome] Hd Hparse Hlt. unfold process_option. rewrite Hfind, Hd.
  unfold start_args. rewrite Hacc. unfold opt_nelt in Hnelt. rewrite Hsome in *. rewrite Hnelt. cbn [mbind outcome_bind].
  rewrite fatal_if_false by blia. cbn [mbind outcome_bind]. destruct Hp as (Hne & c0 & r & Hr).
  assert (c0 = c_num (Z.of_nat (length old))) as ->.
  { unfold load_num, load in Hnelt. rewrite Hr in Hnelt. cbn in Hnelt. destruct c0 as [z|z]; [|done]. cbn in Hnelt. apply Ok_inj in Hnelt. by subst z. }
  assert (parsed o (Z.of_nat (length old)) m) as Hpar by (unfold parsed; rewrite Hsome; eauto).
  destruct (parse_args_ok o rest [t] [c] Hrest) with (cnt := 0) (n := 1) (ent := length old) (m := m) (l := l)
    as (m' & l' & Hrun & Hl' & (Hwl & Hwc & Hwo) & Hpar' & Hq); try done; [by constructor|cbn; lia..|].
  exists m'. split; [exact Hrun|]. unfold parsed in Hpar'. rewrite Hsome in Hpar'. destruct Hpar' as (_ & r' & Hr').
  split; [split|split; [split|done]].
  - intros i d Hi. rewrite (load_some _ i _ _ _ Hl'). destruct (decide (i < length old)%nat) as [Hlo|Hhi].
    + rewrite Hwo by lia. rewrite lookup_app_l in Hi by done. rewrite <- (load_some _ i _ _ _ Hl). by apply Hload.
    + rewrite lookup_app_r in Hi by lia. replace i with (length old + (i - length old))%nat by lia. by apply Hwc.
  - unfold opt_nelt. rewrite Hsome. unfold load_num, load. rewrite Hr'. cbn -[length]. rewrite length_app. reflexivity.
  - exists l'. split; [done|lia].
  - rewrite Hsome. eauto.
Qed.

Lemma arg_value_some (o : opt_opt_t) (t : list Z) (c : cell) : arg_value o t = Some c <-> dashed t = false /\ parse_arg o t = Ok c.
Proof. unfold arg_value. destruct (dashed t), (parse_arg o t); (split; [intros ?|intros [? ?]]); split_and?; congruence. Qed.

(** Every valid invocation. *)
Lemma invoke_ok (odb : opt_odb_t) (o : opt_opt_t) (ts rest : list (list Z)) (old new : list cell) (m : gmap positive (list cell)) :
  odb_ok odb -> o ∈ options odb -> next_option rest -> shape_ok o m -> holds o old m -> invoke o old ts = Some new ->
  exists m', process_option odb (opt_name o :: ts ++ rest) m = Ok (rest, m') /\ invoked o new m m'.
Proof.
  intros Hok Ho Hrest Hshape Hold Hinv. pose proof (ok_nvars _ Hok o Ho) as Hnv. pose proof (find_opt_unique _ o (ok_names _ Hok) Ho) as Hfind.
  assert (forall cs, accrue o = false -> Forall2 (fun t c => arg_value o t = Some c) ts cs -> (1 <= length cs)%nat ->
    Z.of_nat (length cs) <= nvars o -> (nelt o = None -> length cs = 1%nat) ->
    exists m', process_option odb (opt_name o :: ts ++ rest) m = Ok (rest, m') /\ invoked o cs m m') as Hset.
  { intros cs Hacc Hts Hlen Hle Hone. apply process_option_ok; try done; [|lia]. eapply Forall2_impl; [exact Hts|]. intros t c. apply arg_value_some. }
  destruct ts as [|t [|t2 ts]]; cbn [invoke] in Hinv.
  - case_bool_decide as Hc; [|done]. injection Hinv as <-. destruct Hc. apply flag_alone_ok; (done || lia).
  - destruct (accrue o) eqn:Hacc.
    + destruct (bool_decide _ && _) eqn:E; [|done]. bool_to_prop. destruct (arg_value o t) as [c|] eqn:Et; [|done]. injection Hinv as <-.
      apply arg_value_some in Et as [Hd Hp]. apply accrue_ok; (done || lia).
    + destruct (arg_value o t) as [c|] eqn:Et; [|done]. injection Hinv as <-. apply Hset; [done| |cbn; lia|cbn; lia|done]. constructor; [done|constructor].
  - destruct (negb (accrue o) && _ && _) eqn:E; [|done]. bool_to_prop. apply mapM_Some in Hinv. pose proof (Forall2_length _ _ _ Hinv).
    cbn [length] in *. apply Hset; [done|done|lia|lia|]. intros Hnone. 
    match goal with H : is_Some (nelt o) |- _ => rewrite Hnone in H; by destruct H end.
Qed.

(** A line of invocations ends or goes on with an option. *)
Lemma line_next (odb : opt_odb_t) (invs : list invocation) : odb_ok odb -> Forall (fun i => i.1 ∈ options odb) invs -> next_option (line_of invs).
Proof. intros Hok [|i invs' Hi _]; [done|]. exact (proj1 (ok_dashed _ Hok _ Hi)). Qed.

(** Options have their own locations. *)
Lemma locations_disjoint (opts : list opt_opt_t) (o o' : opt_opt_t) : NoDup (mjoin (locations <$> opts)) -> o ∈ opts -> o' ∈ opts -> o <> o' ->
  locations o ## locations o'.
Proof.
  induction opts as [|p opts IH]; [by intros _ ?%not_elem_of_nil|].
  change (mjoin (locations <$> p :: opts)) with (locations p ++ mjoin (locations <$> opts)). intros (_ & Hdis & Hnd)%NoDup_app.
  assert (forall x, x ∈ opts -> locations p ## locations x) as Hp.
  { intros x Hx q Hq Hq'. apply (Hdis q Hq). apply list_elem_of_join. exists (locations x). split; [done|]. by apply list_elem_of_fmap_2. }
  intros [->|Ho]%elem_of_cons [->|Ho']%elem_of_cons Hne; [done|by apply Hp| |by apply IH].
  intros q Hq Hq'. exact (Hp o Ho q Hq' Hq).
Qed.

Lemma invoked_represents (odb : opt_odb_t) (o : opt_opt_t) (new : list cell) (s : gmap (list Z) (list cell)) (m m' : gmap positive (list cell)) :
  odb_ok odb -> o ∈ options odb -> represents odb s m -> invoked o new m m' -> represents odb (<[opt_name o := new]> s) m'.
Proof.
  intros Hok Ho Hrep (Hh & Hs & Hq) o' Ho'. destruct (decide (opt_name o = opt_name o')) as [Hn|Hn].
  - assert (o = o') as <-.
    { pose proof (find_opt_unique _ _ (ok_names _ Hok) Ho). pose proof (find_opt_unique _ _ (ok_names _ Hok) Ho'). congruence. }
    split; [done|]. exists new. split; [apply lookup_insert_eq|done].
  - destruct (Hrep o' Ho') as (Hs' & cs & Hcs & Hh'). rewrite lookup_insert_ne by done.
    assert (forall q, q ∈ locations o' -> m' !! q = m !! q) as Hsame.
    { intros q Hin. apply Hq. intros Hin'. apply (locations_disjoint (options odb) o o' (ok_locations _ Hok) Ho Ho' ltac:(congruence) q Hin' Hin). }
    split; [by apply (shape_ok_frame o' m)|]. exists cs. split; [done|]. by apply (holds_frame o' cs m).
Qed.

Section Run.
Context {W : Type}.
Variable orphan_fn : option (Z -> list (list Z) -> W -> bool * W).
Variable writable : list Z -> bool.

Lemma line_args_run (odb : opt_odb_t) (argv : list (list Z)) (invs : list invocation) : odb_ok odb ->
  Forall (fun i => i.1 ∈ options odb) invs -> forall fuel s s' (w : opt_world W), (length invs < fuel)%nat ->
  represents odb s (omem w) -> run_line invs s = Some s' ->
  exists m', opt_process_args orphan_fn writable odb fuel argv (line_of invs) 0 None w = Ok (w <| omem := m' |>) /\ represents odb s' m'.
Proof.
  intros Hok. induction 1 as [|[o ts] invs Ho Hinvs IH]; intros [|fuel] s s' w Hf Hrep Hrun; cbn [length] in Hf; try lia.
  - injection Hrun as <-. exists (omem w). split; [by destruct w|done].
  - cbn [fst] in Ho. cbn [run_line] in Hrun. destruct (Hrep o Ho) as (Hs & old & Hold & Hh). rewrite Hold in Hrun. cbn in Hrun.
    destruct (invoke o old ts) as [new|] eqn:Hinv; [|done]. cbn in Hrun.
    destruct (invoke_ok odb o ts (line_of invs) old new (omem w) Hok Ho (line_next _ _ Hok Hinvs) Hs Hh Hinv) as (m1 & Hp & Hm1).
    change (line_of ((o, ts) :: invs)) with (opt_name o :: ts ++ line_of invs).
    destruct (ok_dashed _ Hok o Ho) as (Hd & Hc & Hdc). cbn [opt_process_args]. rewrite Hd. cbn [negb].
    rewrite !bool_decide_eq_false_2 by done. rewrite Hp. cbn [mbind outcome_bind].
    destruct (IH fuel _ s' (w <| omem := m1 |>) ltac:(lia) (invoked_represents _ _ _ _ _ _ Hok Ho Hrep Hm1) Hrun) as (m' & Hrun' & Hrep').
    exists m'. split; [exact Hrun'|done].
Qed.

End Run.
End CommandLines.
