(* ===== verification/OptionsCorrect.v ===== *)
(** The options of options.c are correct: a command line means what its
    invocations mean on a map from names to values, and a configuration that is
    dumped restores the options when it is loaded. *)

From Stdlib Require Import String.
From S2P Require Import Prelude Misc Exec Eval Strto Options OptionsProps OptionsReload OptionsLine FunsimProps.

Section Correct.
Context {fp : HostFP} {eh : EvalHost} {oh : OptHost} {W : Type}.
Variable orphan_fn : option (Z -> list (list Z) -> W -> bool * W).
Variable writable : list Z -> bool.

(** C23: a command line of valid invocations gives the options the values that its
    meaning on a map from names to values gives: each invocation in its turn
    replaces the elements of the option, or adds an element, and no other option
    changes. *)
Theorem command_line_refines (odb : opt_odb_t) (prog : list Z) (invs : list invocation) (fuel : nat) (s s' : gmap (list Z) (list cell)) (w : opt_world W) :
  odb_ok odb -> Forall (fun i => i.1 ∈ options odb) invs -> (length invs < fuel)%nat ->
  represents odb s (omem w) -> run_line invs s = Some s' ->
  exists m', opt_process_options orphan_fn writable odb fuel (prog :: line_of invs) w = Ok (w <| omem := m' |>) /\ represents odb s' m'.
Proof.
  intros Hok Hinvs Hf Hrep Hrun. unfold opt_process_options. destruct invs as [|i invs].
  - injection Hrun as <-. exists (omem w). split; [by destruct w|done].
  - cbn [length tail]. assert (length (line_of (i :: invs)) <> 0%nat) as Hl by done.
    rewrite (proj2 (Nat.ltb_ge _ 2)) by lia. by apply (line_args_run orphan_fn writable odb _ (i :: invs) Hok Hinvs fuel s).
Qed.

(** C24: a configuration that [-dumpconfig] writes restores the options, if all
    of them are [dumpable]: names, descriptions and texts fit the lines of the
    reader, and the elements read back as they are printed.  Ints are not negative,
    floats are printed exactly, strings are single words, and lists are not empty
    and do not accrue; other values are lost or refused.  When [-config] then loads
    the file, whatever the options hold (their variables being large enough), every
    option that is not printed as a comment gets the elements it had, and nothing
    else of the memory changes. *)
Theorem dump_config_reloads (odb : opt_odb_t) (prog fname : list Z) (fuel : nat) (w : opt_world W) (m : gmap positive (list cell)) :
  32 <= long_bits -> NoDup (opt_name <$> options odb) -> NoDup (mjoin (locations <$> options odb)) ->
  Forall (fun o => dumpable o (omem w)) (options odb) ->
  Forall (fun o => commented o (omem w) = Ok false -> shape_ok o m) (options odb) ->
  dashed fname = false -> writable fname = true ->
  exists t m', let w' := w <| files ::= insert fname t |> in
    opt_process_options orphan_fn writable odb (S (S (S fuel))) [prog; str "-dumpconfig"; fname] w = Ok w'
    /\ opt_process_options orphan_fn writable odb (S (S (S fuel))) [prog; str "-config"; fname] (w' <| omem := m |>) = Ok (w' <| omem := m' |>)
    /\ (forall o cs, o ∈ options odb -> commented o (omem w) = Ok false -> holds o cs (omem w) -> holds o cs m')
    /\ forall q, (forall o, o ∈ options odb -> commented o (omem w) = Ok false -> q ∉ locations o) -> m' !! q = m !! q.
Proof.
  intros Hlong Hnames Hlocs Hdump Hshape Hd Hw. destruct (print_all_ok (options odb) (omem w) Hdump) as [t Ht].
  assert (opt_print_options false false odb (omem w) = Ok (mjoin (print_builtin <$> builtin_options) ++ t)) as Hprint by (unfold opt_print_options; by rewrite Ht).
  set (text := mjoin _ ++ t) in *. exists text.
  destruct (load_dumped orphan_fn writable odb fuel (omem w) text fname prog (w <| files ::= insert fname text |> <| omem := m |>))
    as (m' & Hrun & Hh & Hq); try done.
  { apply lookup_insert_eq. }
  exists m'. cbn zeta. split; [|split; [exact Hrun|split; [|exact Hq]]].
  - unfold opt_process_options. cbn [length Nat.ltb Nat.leb tail opt_process_args]. change (dashed (str "-dumpconfig")) with true. cbn [negb].
    rewrite (bool_decide_eq_false_2 (str "-dumpconfig" = str "-config")), (bool_decide_eq_true_2 (str "-dumpconfig" = str "-dumpconfig")) by done.
    rewrite Hd. cbn [andb done_processing]. unfold dump_config. rewrite bool_decide_eq_false_2 by (by intros ->).
    rewrite Hw, Hprint. reflexivity.
  - intros o cs Ho Hc Hcs. rewrite Forall_forall in Hdump. destruct (d_saved _ _ (Hdump o Ho)) as [?|[_ [cs' Hs]]]; [congruence|].
    rewrite (holds_inj o cs cs' (omem w) Hcs (proj1 Hs)). by apply (Hh o cs').
Qed.

End Correct.

(** * Examples *)

Module OptExample.

#[export] Instance host : EvalHost := {
  long_bits := 32; strtod _ := None; cvt_S_U _ := 0; cvt_D_U _ := 0; cvt_U_S _ := 0; cvt_U_D _ := 0; cvt_D_L _ := 0;
}.

#[export] Instance opt_host : OptHost := { strtod_all _ := None; float_range _ := false; printf_double _ _ := [] }.

(** An int, a list of flags, an enumeration, a string that is NULL, and a list of
    strings that accrues and is not printed. *)
Definition policies : list (list Z) := [str "lru"; str "fifo"].
Definition vars : gmap positive (list cell) := {[
  1%positive := [c_num 0]; 2%positive := [c_num 0; c_num 0; c_num 0]; 3%positive := [c_num 2]; 4%positive := [c_num 0];
  5%positive := [c_str None]; 6%positive := [c_str None; c_str None]; 7%positive := [c_num 0] ]}.

Definition registered : outcome (opt_odb_t * gmap positive (list cell)) :=
  s ← opt_reg_int (str "-n") (Some (str "a number")) 1%positive (c_num 42) true (opt_new, vars);
  s ← opt_reg_flag_list (str "-f") None 2%positive 3 3%positive (fun i => Ok (c_num (i mod 2))) true false s;
  s ← opt_reg_enum (str "-p") (Some (str "policy")) 4%positive (Some (str "fifo")) policies None true s;
  s ← opt_reg_string (str "-s") None 5%positive (c_str None) true s;
  opt_reg_string_list (str "-t") None 6%positive 2 7%positive (fun _ => Undef) false true s.

Definition odb : opt_odb_t := match registered with Ok (odb, _) => odb | _ => opt_new end.
Definition defaults : gmap positive (list cell) := match registered with Ok (_, m) => m | _ => ∅ end.
Definition world : opt_world unit := mk_world unit defaults ∅ [] tt.

(** "-n 7 -t x -f yes 0 T -t y". *)
Definition opt_at (i : nat) : opt_opt_t := default config_opt (options odb !! i).
Definition invs : list invocation :=
  [(opt_at 0, [str "7"]); (opt_at 4, [str "x"]); (opt_at 1, [str "yes"; str "0"; str "T"]); (opt_at 4, [str "y"])].

Definition default_values : gmap (list Z) (list cell) := {[
  str "-n" := [c_num 42]; str "-f" := [c_num 0; c_num 1]; str "-p" := [c_num 1]; str "-s" := [c_str None]; str "-t" := [] ]}.

Definition final_values : gmap (list Z) (list cell) := {[
  str "-n" := [c_num 7]; str "-f" := [c_num 1; c_num 0; c_num 1]; str "-p" := [c_num 1]; str "-s" := [c_str None];
  str "-t" := [c_str (Some (str "x")); c_str (Some (str "y"))] ]}.

Ltac each_option := repeat (apply Forall_cons; split); try exact (List.Forall_nil _).

Lemma forall_options (P : opt_opt_t -> Prop) : Forall P (options odb) -> forall o, o ∈ options odb -> P o.
Proof. by rewrite Forall_forall. Qed.

Lemma holds_nil (o : opt_opt_t) (p : positive) (m : gmap positive (list cell)) : nelt o = Some p -> load_num p m = Ok 0 -> holds o [] m.
Proof. intros Hn Hp. split; [done|]. unfold opt_nelt. by rewrite Hn. Qed.

Lemma holds_two (o : opt_opt_t) (c d : cell) (m : gmap positive (list cell)) :
  load (opt_var o) 0 m = Ok c -> load (opt_var o) 1 m = Ok d -> opt_nelt o m = Ok 2 -> holds o [c; d] m.
Proof. intros Hc Hd Hn. split; [|done]. intros [|[|i]] x Hx; [injection Hx as <-; exact Hc|injection Hx as <-; exact Hd|done]. Qed.

Lemma holds_one (o : opt_opt_t) (c : cell) (m : gmap positive (list cell)) :
  load (opt_var o) 0 m = Ok c -> opt_nelt o m = Ok 1 -> holds o [c] m.
Proof. intros Hc Hn. split; [|done]. intros [|i] x Hx; [injection Hx as <-; exact Hc|done]. Qed.

Lemma odb_valid : odb_ok odb.
Proof.
  split.
  - by apply (bool_decide_unpack _).
  - by apply (bool_decide_unpack _).
  - apply forall_options. each_option; by vm_compute.
  - apply forall_options. each_option; by vm_compute.
Qed.

Lemma shapes : forall o, o ∈ options odb -> shape_ok o defaults.
Proof.
  apply forall_options. each_option; split.
  all: match goal with
  | |- exists l, _ /\ _ => eexists; split; [vm_compute; reflexivity|by vm_compute]
  | |- _ => first [exact I|split; [done|by do 2 eexists]]
  end.
Qed.

Lemma defaults_represented : represents odb default_values defaults.
Proof.
  intros o Ho. split; [by apply shapes|]. revert o Ho. apply forall_options. each_option; eexists; (split; [reflexivity|]).
  - by apply holds_one.
  - by apply holds_two.
  - by apply holds_one.
  - by apply holds_one.
  - by apply (holds_nil _ 7%positive).
Qed.

Lemma invs_valid : Forall (fun i : invocation => i.1 ∈ options odb) invs.
Proof.
  each_option.
  - by apply (list_elem_of_lookup_2 _ 0).
  - by apply (list_elem_of_lookup_2 _ 4).
  - by apply (list_elem_of_lookup_2 _ 1).
  - by apply (list_elem_of_lookup_2 _ 4).
Qed.

(** An option with a name and a text as they are printed. *)
Ltac dump_fields := split; [done|done|intros d Hd; first [injection Hd as <-; split; [done|vm_compute; lia]|done]
  |eexists; split; [vm_compute; reflexivity|split; [reflexivity|vm_compute; lia]]|].

Ltac saved_sizes := split; [vm_compute; lia|split; [by vm_compute|split; [let H := fresh in intros H; first [discriminate H|reflexivity]|split; [reflexivity|]]]].

Lemma defaults_dumpable : Forall (fun o => dumpable o defaults) (options odb).
Proof.
  each_option; dump_fields.
  - right. split; [reflexivity|]. exists [c_num 42]. split; [by apply holds_one|]. saved_sizes.
    by each_option.
  - right. split; [reflexivity|]. exists [c_num 0; c_num 1]. split; [by apply holds_two|]. saved_sizes.
    each_option; (split; [done|split; [done|auto]]).
  - right. split; [reflexivity|]. exists [c_num 1]. split; [by apply holds_one|]. saved_sizes.
    each_option. split; [by apply (bool_decide_unpack _)|]. split; [by each_option|done].
  - by left.
  - by left.
Qed.

End OptExample.

#[local] Existing Instance OptExample.host.
#[local] Existing Instance OptExample.opt_host.

Lemma command_line_refines_witness :
  exists m', opt_process_options None (fun _ => true) OptExample.odb 5 (str "sim" :: line_of OptExample.invs) OptExample.world
      = Ok (OptExample.world <| omem := m' |>)
    /\ represents OptExample.odb OptExample.final_values m'.
Proof.
  apply (command_line_refines None (fun _ => true) OptExample.odb (str "sim") OptExample.invs 5 OptExample.default_values).
  - exact OptExample.odb_valid.
  - exact OptExample.invs_valid.
  - vm_compute. lia.
  - exact OptExample.defaults_represented.
  - vm_compute. reflexivity.
Defined.

Lemma dump_config_reloads_witness : exists t m',
  opt_process_options None (fun _ => true) OptExample.odb 3 [str "sim"; str "-dumpconfig"; str "f"] OptExample.world
    = Ok (OptExample.world <| files ::= insert (str "f") t |>)
  /\ opt_process_options None (fun _ => true) OptExample.odb 3 [str "sim"; str "-config"; str "f"]
      (OptExample.world <| files ::= insert (str "f") t |> <| omem := <[1%positive := [c_num 7]]> OptExample.defaults |>)
    = Ok (OptExample.world <| files ::= insert (str "f") t |> <| omem := m' |>)
  /\ holds (OptExample.opt_at 0) [c_num 42] m'.
Proof.
  destruct (dump_config_reloads None (fun _ => true) OptExample.odb (str "sim") (str "f") 0 OptExample.world
    (<[1%positive := [c_num 7]]> OptExample.defaults)) as (t & m' & Hdump & Hload & Hh & _).
  - vm_compute. discriminate.
  - by apply (bool_decide_unpack _).
  - by apply (bool_decide_unpack _).
  - exact OptExample.defaults_dumpable.
  - apply Forall_forall. intros o Ho _. revert o Ho. apply OptExample.forall_options. OptExample.each_option; split.
    all: match goal with
    | |- exists l, _ /\ _ => eexists; split; [vm_compute; reflexivity|by vm_compute]
    | |- _ => first [exact I|split; [done|by do 2 eexists]]
    end.
  - reflexivity.
  - reflexivity.
  - exists t, m'. split; [exact Hdump|]. split; [exact Hload|]. apply Hh.
    + by apply (list_elem_of_lookup_2 _ 0).
    + reflexivity.
    + by apply OptExample.holds_one.
Defined.
