(* ===== verification/Range.v ===== *)
(** range.c, range.h: execution positions (an address, an instruction count or a
    cycle count) and ranges of them, parsed, printed and compared.

    What is parsed is given instead of written to the caller's buffer, which has no
    meaning after an error.  Counters are of the type long long, as gcc has it. *)

From S2P Require Import Prelude Misc Exec Eval Strto Symbol.

Inductive range_ptype_t := pt_addr | pt_inst | pt_cycle.

#[global] Instance range_ptype_eq_dec : EqDecision range_ptype_t.
Proof. solve_decision. Defined.

Record range_pos_t := mk_pos { ptype : range_ptype_t; pos : Z }.
Record range_range_t := mk_range { range_start : range_pos_t; range_end : range_pos_t }.

(** The error strings. *)
Inductive range_err_t := ERR_POSITION | ERR_RANGE | ERR_DELTA.

(** The floating point of the host: a string that strtod() converts as a whole,
    without setting errno, as a counter; and a counter printed with %.0f. *)
Class RangeHost := {
  strtod_counter : list Z -> option Z;
  print_counter : Z -> list Z;
}.

(** What has been read of the executable. *)
Record sym_file := mk_sym_file {
  f_symhdr : ecoff_symhdr_t; f_strtab : list Z; f_extr : list ecoff_EXTR; f_text_end : Z; f_data_end : Z;
}.

Section Range.
Context {eh : EvalHost} {rh : RangeHost} {sort : Qsort}.
Variable file : sym_file.

(** The type of a position, and the text of its value. *)
Definition pos_type (pstr : list Z) : range_ptype_t * list Z :=
  match pstr with
  | 64 :: s => (pt_addr, s)
  | 35 :: s => (pt_cycle, s)
  | s => (pt_inst, s)
  end.

(** The value of a position: an integer, a double, or the address of a symbol. *)
Definition pos_value (s : list Z) (y : symbols) : outcome (option Z * symbols) :=
  let '(v, errno, endp) := strtoul s in
  if negb errno && bool_decide (endp = []) then Ok (Some (s64 v), y)
  else match strtod_counter s with
       | Some v => Ok (Some v, y)
       | None =>
           y ← sym_loadsyms (f_symhdr file) (f_strtab file) (f_extr file) (f_text_end file) (f_data_end file) y;
           '(sym, _) ← sym_bind_name s sdb_any y;
           match sym with
           | Some p => sym ← c_get (sym_db y) p; Ok (Some (sym_addr sym), y)
           | None => Ok (None, y)
           end
       end.

Definition range_parse_pos (pstr : list Z) (y : symbols) : outcome ((range_err_t + range_pos_t) * symbols) :=
  let '(t, s) := pos_type pstr in
  '(v, y) ← pos_value s y;
  Ok (match v with Some v => inr (mk_pos t v) | None => inl ERR_POSITION end, y).

Definition range_print_pos (p : range_pos_t) : list Z :=
  match ptype p with
  | pt_addr => [64; 48; 120] ++ print_hex (u32 (pos p))
  | pt_inst => print_counter (pos p)
  | pt_cycle => [35] ++ print_counter (pos p)
  end.

(** The text before the first colon, and what follows it. *)
Fixpoint split_colon (s : list Z) : option (list Z * list Z) :=
  match s with
  | [] => None
  | c :: s => if c =? 58 then Some ([], s) else match split_colon s with Some (p, q) => Some (c :: p, q) | None => None end
  end.

(** The sum of two counters; overflow of a long long is undefined. *)
Definition counter_add (a b : Z) : outcome Z := if (- 2 ^ 63 <=? a + b) && (a + b <? 2 ^ 63) then Ok (a + b) else Undef.

Definition parse_start (pos1 : list Z) (y : symbols) : outcome ((range_err_t + range_pos_t) * symbols) :=
  match pos1 with [] => Ok (inr (mk_pos pt_inst 0), y) | _ => range_parse_pos pos1 y end.

Definition parse_end (pos2 : list Z) (start : range_pos_t) (y : symbols) : outcome ((range_err_t + range_pos_t) * symbols) :=
  match pos2 with
  | [] => Ok (inr (mk_pos (ptype start) 0xffffffffffff), y)
  | 43 :: s =>
      let '(v, errno, endp) := strtol s in
      if negb errno && bool_decide (endp = []) then e ← counter_add (pos start) (s32 v); Ok (inr (mk_pos (ptype start) e), y)
      else Ok (inl ERR_DELTA, y)
  | _ => range_parse_pos pos2 y
  end.

(** [range_parse_range]: the string is copied to a buffer of 512 characters. *)
Definition range_parse_range (rstr : list Z) (y : symbols) : outcome ((range_err_t + range_range_t) * symbols) :=
  if 512 <=? Z.of_nat (length rstr) then Undef
  else match split_colon rstr with
       | None => Ok (inl ERR_RANGE, y)
       | Some (pos1, pos2) =>
           '(r, y) ← parse_start pos1 y;
           match r with
           | inl e => Ok (inl e, y)
           | inr start =>
               '(r, y) ← parse_end pos2 start y;
               Ok (match r with inl e => inl e | inr end_ => inr (mk_range start end_) end, y)
           end
       end.

Definition range_print_range (r : range_range_t) : list Z := range_print_pos (range_start r) ++ [58] ++ range_print_pos (range_end r).

End Range.

(** * Comparison *)

Definition range_cmp_pos (p : range_pos_t) (val : Z) : Z := if val <? pos p then -1 else if val =? pos p then 0 else 1.

Definition cmp_bounds (r : range_range_t) (val : Z) : Z :=
  if val <? pos (range_start r) then -1
  else if (pos (range_start r) <=? val) && (val <=? pos (range_end r)) then 0 else 1.

Definition range_cmp_range (r : range_range_t) (val : Z) : outcome Z :=
  if negb (bool_decide (ptype (range_start r) = ptype (range_end r))) then Panic else Ok (cmp_bounds r val).

Definition range_cmp_range1 (r : range_range_t) (addr icount cycle : Z) : outcome Z :=
  if negb (bool_decide (ptype (range_start r) = ptype (range_end r))) then Panic
  else Ok (cmp_bounds r (match ptype (range_start r) with pt_addr => addr | pt_inst => icount | pt_cycle => cycle end)).
