(* ===== verification/Ptrace.v ===== *)
(** ptrace.c, ptrace.h: the pipeline trace, a stream of events that is active
    inside a range, and at most once.

    [ptrace_open] takes the file name and the range; what is written is kept as
    one text.  The instruction is printed by [ss_print_insn], an argument. *)

From Stdlib Require Import String.
From S2P Require Import Prelude Misc Exec Eval Strto Options Symbol Range.

(** Where the trace goes. *)
Inductive stream := to_stderr | to_stdout | to_file (fname : list Z).

Record ptrace := mk_ptrace {
  ptrace_outfd : option stream;
  ptrace_active : bool;
  ptrace_range : range_range_t;
  ptrace_oneshot : bool;
  traced : list Z;
}.
#[global] Instance eta_ptrace : Eta ptrace := mk_eta (fun t =>
  mk_ptrace (ptrace_outfd t) (ptrace_active t) (ptrace_range t) (ptrace_oneshot t) (traced t)).

(** The static state of ptrace.c. *)
Definition no_trace : ptrace := mk_ptrace None false (mk_range (mk_pos pt_addr 0) (mk_pos pt_addr 0)) false [].

Section Ptrace.
Context {eh : EvalHost} {rh : RangeHost} {sort : Qsort}.
Variable file : sym_file.
Variable writable : list Z -> bool.
Variable print_insn : Z -> list Z.

Definition open_stream (fname : option (list Z)) : outcome stream :=
  match fname with
  | None => Ok to_stderr
  | Some f =>
      if bool_decide (f = str "-") || bool_decide (f = str "stderr") then Ok to_stderr
      else if bool_decide (f = str "stdout") then Ok to_stdout
      else _ ← fatal_if (negb (writable f)); Ok (to_file f)
  end.

Definition ptrace_open (fname range : option (list Z)) (t : ptrace) (y : symbols) : outcome (ptrace * symbols) :=
  '(r, y) ← range_parse_range file (match range with None => str ":" | Some r => r end) y;
  r ← match r with inl _ => match range with None => Panic | Some _ => Fatal end | inr r => Ok r end;
  _ ← fatal_if (negb (bool_decide (ptype (range_start r) = ptype (range_end r))));
  fd ← open_stream fname;
  Ok (t <| ptrace_range := r |> <| ptrace_active := match range with None => true | Some _ => false end |> <| ptrace_outfd := Some fd |>, y).

(** [ptrace_check_active]: the trace starts when the range is entered for the
    first time, and stops when it is left. *)
Definition ptrace_check_active (PC ICNT CYCLE : Z) (t : ptrace) : outcome ptrace :=
  inside ← match ptrace_outfd t with
           | None => Ok false
           | Some _ => c ← range_cmp_range1 (ptrace_range t) PC ICNT CYCLE; Ok (c =? 0)
           end;
  Ok (if (inside : bool) then
        if negb (ptrace_oneshot t) then t <| ptrace_oneshot := true |> <| ptrace_active := true |> else t
      else t <| ptrace_active := false |>).

(** * Events *)

Definition trace_event (text : list Z) (t : ptrace) : ptrace := if ptrace_active t then t <| traced ::= fun s => s ++ text |> else t.

Definition print_addr (a : Z) : list Z := str "0x" ++ print_hex a.

Definition ptrace_newinst (iseq inst pc addr : Z) : ptrace -> ptrace :=
  trace_event (str "+ " ++ print_uint iseq ++ [32] ++ print_addr pc ++ [32] ++ print_addr addr ++ [32] ++ print_insn inst ++ [10]).

Definition ptrace_newuop (iseq : Z) (uop_desc : list Z) (pc addr : Z) : ptrace -> ptrace :=
  trace_event (str "+ " ++ print_uint iseq ++ [32] ++ print_addr pc ++ [32] ++ print_addr addr ++ str " [" ++ uop_desc ++ str "]" ++ [10]).

Definition ptrace_endinst (iseq : Z) : ptrace -> ptrace := trace_event (str "- " ++ print_uint iseq ++ [10]).

Definition ptrace_newcycle (cycle : Z) : ptrace -> ptrace := trace_event (str "@ " ++ print_counter cycle ++ [10]).

Definition ptrace_newstage (iseq : Z) (pstage : list Z) (pevents : Z) : ptrace -> ptrace :=
  trace_event (str "* " ++ print_uint iseq ++ [32] ++ pstage ++ [32] ++ print_addr pevents ++ [10]).

End Ptrace.
