(* ===== verification/RangeProps.v ===== *)
(** The properties of ranges and of the pipeline trace: what a range denotes, that
    it is read as it is printed, and when the trace is active. *)

From Stdlib Require Import String.
From S2P Require Import Prelude Misc Exec Eval Strto Options Symbol Range Ptrace SymbolProps.

(** The documented floating point of the host: doubles have the integers up to
    2^53, which %.0f prints in decimal and strtod() reads. *)
Class RangeLaws (rh : RangeHost) : Prop := {
  print_counter_dec (n : Z) : 0 <= n <= 2 ^ 53 -> print_counter n = print_llong n;
  strtod_counter_dec (n : Z) : 0 <= n <= 2 ^ 53 -> strtod_counter (print_llong n) = Some n;
}.

Section Ranges.
Context {eh : EvalHost} {rh : RangeHost} {laws : RangeLaws rh} {sort : Qsort}.
Variable file : sym_file.

(** * Positions *)

Definition pos_ok (p : range_pos_t) : Prop :=
  match ptype p with pt_addr => 0 <= pos p < 2 ^ 32 | _ => 0 <= pos p <= 2 ^ 53 end.

Lemma strtoul_llong (n : Z) : 0 <= n <= 2 ^ 53 ->
  exists v errno, strtoul (print_llong n) = (v, errno, []) /\ (errno = false -> v = n).
Proof.
  intros Hn. unfold strtoul. unfold print_llong. rewrite (strto_parse_dec 20) by lia.
  destruct (Z.leb_spec (2 ^ long_bits) n) as [Hle|Hlt]; [by do 2 eexists|].
  do 2 eexists. split; [reflexivity|]. intros _. apply Z.mod_small. lia.
Qed.

Lemma pos_value_counter (n : Z) (y : symbols) : 0 <= n <= 2 ^ 53 -> pos_value file (print_llong n) y = Ok (Some n, y).
Proof.
  intros Hn. unfold pos_value. destruct (strtoul_llong n Hn) as (v & [|] & -> & Hv); cbn [negb andb].
  - by rewrite strtod_counter_dec.
  - rewrite bool_decide_eq_true_2 by done. rewrite Hv by done. do 3 f_equal. unfold s64. rewrite Z.mod_small; lia.
Qed.

Lemma print_hex_head (n : Z) : 0 <= n < 2 ^ 32 -> exists d s, print_hex n = d :: s /\ is_digit_of 16 d = true.
Proof.
  intros Hn. do 2 eexists. split; [reflexivity|]. unfold is_digit_of. rewrite nibble by lia. pose proof (Z.mod_pos_bound (n / 2 ^ (4 * Z.of_nat 7)) 16 ltac:(lia)).
  rewrite digit_val_hex by exact H. apply Z.ltb_lt. apply H.
Qed.

Lemma pos_value_addr (n : Z) (y : symbols) : 32 <= long_bits -> 0 <= n < 2 ^ 32 -> pos_value file (48 :: 120 :: print_hex n) y = Ok (Some n, y).
Proof.
  intros Hl Hn. unfold pos_value, strtoul, strto_parse. cbn [skip_space isspace strto_sign].
  pose proof (read_hex n Hn) as Hr. destruct (print_hex_head n Hn) as (d & s & Hs & Hd). rewrite Hs in *. cbn -[read_digits].
  rewrite Hd, Hr. assert (2 ^ 32 <= 2 ^ long_bits) by (apply Z.pow_le_mono_r; lia). rewrite (proj2 (Z.leb_gt _ _)) by lia. cbn.
  rewrite Z.mod_small by lia. do 3 f_equal. unfold s64. rewrite Z.mod_small; lia.
Qed.

(** The text of a counter starts with a digit, and has no colon. *)
Lemma print_llong_head (n : Z) : 0 <= n <= 2 ^ 53 -> exists d s, print_llong n = (48 + d) :: s /\ 0 <= d < 10.
Proof.
  intros Hn. destruct (decide (n = 0)) as [->|Hne]; [by exists 0, []|].
  destruct (dec_digits_head 20 n [] ltac:(lia)) as (d & s & Hs & Hd). exists d, s. split; [exact Hs|lia].
Qed.

Lemma parse_printed_pos (p : range_pos_t) (y : symbols) : 32 <= long_bits -> pos_ok p ->
  range_parse_pos file (range_print_pos p) y = Ok (inr p, y).
Proof.
  intros Hl. destruct p as [[| |] n]; unfold pos_ok, range_print_pos, range_parse_pos; cbn [ptype pos]; intros Hn.
  - cbn [app pos_type]. rewrite u32_small by lia. by rewrite pos_value_addr.
  - rewrite print_counter_dec by done. destruct (print_llong_head n Hn) as (d & s & Hs & Hd).
    assert (pos_type (print_llong n) = (pt_inst, print_llong n)) as ->.
    { rewrite Hs. assert (d = 0 \/ d = 1 \/ d = 2 \/ d = 3 \/ d = 4 \/ d = 5 \/ d = 6 \/ d = 7 \/ d = 8 \/ d = 9) as Hcases by lia.
      by repeat destruct Hcases as [->|Hcases]; subst. }
    by rewrite pos_value_counter.
  - rewrite print_counter_dec by done. cbn [app pos_type]. by rewrite pos_value_counter.
Qed.

(** What is printed of a position: some characters that are no colon, the first no
    plus sign. *)
Definition plain_text (s : list Z) : Prop := Forall (fun c => c <> 58) s /\ (length s <= 21)%nat /\ match s with [] => False | c :: _ => c <> 43 end.

Lemma dec_digits_length (fuel : nat) (n : Z) (k : list Z) : (length (dec_digits fuel n k) <= fuel + length k)%nat.
Proof.
  revert n k. induction fuel as [|fuel IH]; intros n k; [done|]. cbn. destruct (n / 10 =? 0); [cbn; lia|].
  specialize (IH (n / 10) ((48 + n mod 10) :: k)). cbn in IH. lia.
Qed.

Lemma print_llong_text (n : Z) : Forall (fun c => 48 <= c <= 57) (print_llong n) /\ (length (print_llong n) <= 20)%nat.
Proof. split; [apply dec_digits_char; constructor|]. pose proof (dec_digits_length 20 n []). unfold print_llong. cbn [length] in *. lia. Qed.

Lemma hex_digit_plain (n i : Z) : 0 <= n -> 0 <= i -> hex_digit (Z.land (Z.shiftr n i) 15) <> 58.
Proof. intros Hn Hi. rewrite nibble by done. generalize ((n / 2 ^ i) mod 2 ^ 4). intros d. unfold hex_digit. destruct (Z.ltb_spec d 10); lia. Qed.

Lemma print_pos_plain (p : range_pos_t) : pos_ok p -> plain_text (range_print_pos p).
Proof.
  destruct p as [[| |] n]; unfold pos_ok, range_print_pos, plain_text; cbn [ptype pos]; intros Hn.
  - rewrite u32_small by lia. split_and!; [|cbn; lia|done]. repeat (constructor; [first [lia|apply hex_digit_plain; lia]|]). constructor.
  - rewrite print_counter_dec by done. destruct (print_llong_text n) as [Ht Hl]. split_and!; [|lia|].
    + eapply Forall_impl; [exact Ht|]. cbn. lia.
    + destruct (print_llong_head n Hn) as (d & s & -> & Hd). lia.
  - rewrite print_counter_dec by done. destruct (print_llong_text n) as [Ht Hl]. split_and!; [|cbn [app length]; lia|done].
    constructor; [done|]. eapply Forall_impl; [exact Ht|]. cbn. lia.
Qed.

Lemma split_colon_app (p q : list Z) : Forall (fun c => c <> 58) p -> split_colon (p ++ 58 :: q) = Some (p, q).
Proof. induction 1 as [|c p Hc _ IH]; [done|]. cbn. by rewrite (proj2 (Z.eqb_neq _ _)), IH by done. Qed.

(** * Ranges *)

(** The forms of a range: each end can be left out, and the second can be a
    distance from the first. *)
Inductive range_end_t := no_end | end_pos (p : range_pos_t) | end_delta (d : Z).

Definition print_range_text (start : option range_pos_t) (e : range_end_t) : list Z :=
  match start with Some p => range_print_pos p | None => [] end ++ [58]
  ++ match e with no_end => [] | end_pos p => range_print_pos p | end_delta d => 43 :: print_int d end.

(** The default range is that of all instructions. *)
Definition den_range (start : option range_pos_t) (e : range_end_t) : range_range_t :=
  let start := default (mk_pos pt_inst 0) start in
  mk_range start (match e with
                  | no_end => mk_pos (ptype start) (2 ^ 48 - 1)
                  | end_pos p => p
                  | end_delta d => mk_pos (ptype start) (pos start + d)
                  end).

Definition range_text_ok (start : option range_pos_t) (e : range_end_t) : Prop :=
  (forall p, start = Some p -> pos_ok p) /\ match e with no_end => True | end_pos p => pos_ok p | end_delta d => 0 <= d < 2 ^ 31 end.

Lemma pos_ok_nonneg (p : range_pos_t) : pos_ok p -> 0 <= pos p <= 2 ^ 53.
Proof. unfold pos_ok. destruct (ptype p); lia. Qed.

Lemma parse_start_ok (start : option range_pos_t) (y : symbols) : 32 <= long_bits -> (forall p, start = Some p -> pos_ok p) ->
  parse_start file (match start with Some p => range_print_pos p | None => [] end) y = Ok (inr (default (mk_pos pt_inst 0) start), y).
Proof.
  intros Hl Hs. destruct start as [p|]; [|done]. specialize (Hs p eq_refl). pose proof (print_pos_plain p Hs) as (_ & _ & Hne).
  unfold parse_start. rewrite (parse_printed_pos p y Hl Hs). by destruct (range_print_pos p).
Qed.

Lemma parse_end_ok (e : range_end_t) (start : range_pos_t) (y : symbols) : 32 <= long_bits -> 0 <= pos start <= 2 ^ 53 ->
  match e with no_end => True | end_pos p => pos_ok p | end_delta d => 0 <= d < 2 ^ 31 end ->
  parse_end file (match e with no_end => [] | end_pos p => range_print_pos p | end_delta d => 43 :: print_int d end) start y
    = Ok (inr (range_end (den_range (Some start) e)), y).
Proof.
  intros Hl Hs He. destruct e as [|p|d]; [done| |].
  - pose proof (print_pos_plain p He) as (_ & _ & Hne). pose proof (parse_printed_pos p y Hl He) as Hp.
    destruct (range_print_pos p) as [|c s]; [done|]. cbn [den_range default range_end].
    unfold parse_end. destruct c as [|c|c]; try exact Hp. repeat (destruct c as [c|c|]; try exact Hp). done.
  - unfold parse_end. rewrite strtol_int by done. cbn [negb andb]. rewrite bool_decide_eq_true_2 by done.
    unfold counter_add. rewrite s32_small by lia.
    assert ((- 2 ^ 63 <=? pos start + d) && (pos start + d <? 2 ^ 63) = true) as -> by blia. done.
Qed.

(** C37: an execution range is read as its form says.  A start that is left out is
    instruction 0, an end that is left out is 2^48 - 1, and an end after a plus sign
    is so far from the start, of its type; positions are read as they are printed. *)
Theorem range_parse_denotes (start : option range_pos_t) (e : range_end_t) (y : symbols) :
  32 <= long_bits -> range_text_ok start e ->
  range_parse_range file (print_range_text start e) y = Ok (inr (den_range start e), y).
Proof.
  intros Hl [Hs He]. unfold range_parse_range, print_range_text.
  set (t1 := match start with Some p => range_print_pos p | None => [] end).
  set (t2 := match e with no_end => [] | end_pos p => range_print_pos p | end_delta d => 43 :: print_int d end).
  assert (Forall (fun c => c <> 58) t1 /\ (length t1 <= 21)%nat) as [Hc1 Hl1].
  { unfold t1. destruct start as [p|]; [|by split; [constructor|cbn; lia]]. by destruct (print_pos_plain p (Hs p eq_refl)) as (? & ? & _). }
  assert (length t2 <= 21)%nat as Hl2.
  { unfold t2. destruct e as [|p|d]; [cbn; lia|by destruct (print_pos_plain p He) as (_ & ? & _)|].
    unfold print_int. rewrite (proj2 (Z.ltb_ge _ _)) by lia. pose proof (dec_digits_length 10 d []). unfold print_uint. cbn [length] in *. lia. }
  rewrite (proj2 (Z.leb_gt _ _)) by (rewrite !length_app; cbn; lia). cbn [app]. rewrite split_colon_app by done.
  unfold t1. rewrite parse_start_ok by done. cbn [mbind outcome_bind]. unfold t2. rewrite parse_end_ok; [|done| |done].
  - destruct start; reflexivity.
  - destruct start as [p|]; [apply pos_ok_nonneg; by apply Hs|cbn; lia].
Qed.

End Ranges.

(** * The pipeline trace *)

Section Trace.
Context {eh : EvalHost} {rh : RangeHost} {sort : Qsort}.

(** A check of the cycle: the PC and the counts of instructions and cycles. *)
Abbreviation check := (Z * Z * Z)%type (only parsing).

(** Cycles: a check, and the texts of the events of the cycle. *)
Fixpoint trace_cycles (l : list (check * list (list Z))) (t : ptrace) : outcome ptrace :=
  match l with
  | [] => Ok t
  | (c, texts) :: l => t ← ptrace_check_active c.1.1 c.1.2 c.2 t; trace_cycles l (foldl (fun t text => trace_event text t) t texts)
  end.

Definition inside (r : range_range_t) (c : check) : bool :=
  let v := match ptype (range_start r) with pt_addr => c.1.1 | pt_inst => c.1.2 | pt_cycle => c.2 end in
  (pos (range_start r) <=? v) && (v <=? pos (range_end r)).

Lemma cmp_inside (r : range_range_t) (v : Z) : (cmp_bounds r v =? 0) = (pos (range_start r) <=? v) && (v <=? pos (range_end r)).
Proof.
  unfold cmp_bounds. destruct (Z.ltb_spec v (pos (range_start r))).
  - by rewrite (proj2 (Z.leb_gt _ _)).
  - rewrite (proj2 (Z.leb_le _ _)) by lia. by destruct (v <=? pos (range_end r)).
Qed.

(** A trace that has been opened. *)
Definition open_ok (t : ptrace) : Prop :=
  is_Some (ptrace_outfd t) /\ ptype (range_start (ptrace_range t)) = ptype (range_end (ptrace_range t)).

Lemma check_ok (c : check) (t : ptrace) : open_ok t ->
  ptrace_check_active c.1.1 c.1.2 c.2 t =
    Ok (if inside (ptrace_range t) c then if ptrace_oneshot t then t else t <| ptrace_oneshot := true |> <| ptrace_active := true |>
        else t <| ptrace_active := false |>).
Proof.
  intros [[fd Hfd] Ht]. unfold ptrace_check_active, range_cmp_range1. rewrite Hfd, Ht, bool_decide_eq_true_2 by done.
  cbn [negb mbind outcome_bind]. rewrite cmp_inside. unfold inside. rewrite Ht. destruct (_ && _); [|done]. by destruct (ptrace_oneshot t).
Qed.

Lemma events_traced (texts : list (list Z)) (t : ptrace) :
  foldl (fun t text => trace_event text t) t texts = t <| traced := if ptrace_active t then traced t ++ mjoin texts else traced t |>.
Proof.
  revert t. induction texts as [|x texts IH]; intros t; cbn [foldl].
  - destruct t as [? [|] ? ? ?]; cbn; by rewrite ?app_nil_r.
  - rewrite IH. unfold trace_event. destruct t as [? [|] ? ? ?]; cbn; [|done]. by rewrite <- app_assoc.
Qed.

Abbreviation texts_of l := (mjoin ((fun c : check * list (list Z) => mjoin c.2) <$> l)).

(** After the window nothing is written. *)
Lemma cycles_after (l : list (check * list (list Z))) (t : ptrace) : open_ok t -> ptrace_oneshot t = true -> ptrace_active t = false ->
  exists t', trace_cycles l t = Ok t' /\ traced t' = traced t.
Proof.
  revert t. induction l as [|[c texts] l IH]; intros t Hok Ho Ha; [by exists t|]. cbn [trace_cycles]. rewrite check_ok by done.
  cbn [mbind outcome_bind]. rewrite Ho. rewrite events_traced.
  destruct (inside (ptrace_range t) c); rewrite ?Ha.
  - destruct (IH (t <| traced := traced t |>)) as (t' & Ht' & Htr); [exact Hok|done|done|]. by exists t'.
  - destruct (IH (t <| ptrace_active := false |> <| traced := traced t |>)) as (t' & Ht' & Htr); [exact Hok|done|done|].
    exists t'. split; [exact Ht'|exact Htr].
Qed.

(** In the window everything is. *)
Lemma cycles_window (window after : list (check * list (list Z))) (t : ptrace) : open_ok t -> ptrace_oneshot t = true -> ptrace_active t = true ->
  Forall (fun c => inside (ptrace_range t) c.1 = true) window ->
  match after with [] => True | c :: _ => inside (ptrace_range t) c.1 = false end ->
  exists t', trace_cycles (window ++ after) t = Ok t' /\ traced t' = traced t ++ texts_of window.
Proof.
  revert t. induction window as [|[c texts] window IH]; intros t Hok Ho Ha Hw Haf.
  - cbn [app]. rewrite app_nil_r. destruct after as [|[c texts] after]; [by exists t|]. cbn [fst] in Haf.
    cbn [trace_cycles]. rewrite check_ok, Haf by done. cbn [mbind outcome_bind]. rewrite events_traced.
    destruct (cycles_after after (t <| ptrace_active := false |> <| traced := traced t |>)) as (t' & Ht' & Htr); [exact Hok|done|done|].
    exists t'. split; [exact Ht'|exact Htr].
  - apply Forall_cons in Hw as [Hc Hw]. cbn [fst] in Hc. cbn [app trace_cycles]. rewrite check_ok, Hc, Ho by done.
    cbn [mbind outcome_bind]. rewrite events_traced, Ha.
    destruct (IH (t <| traced := traced t ++ mjoin texts |>)) as (t' & Ht' & Htr); [exact Hok|done|done|done|done|].
    exists t'. split; [exact Ht'|]. rewrite Htr. cbn. by rewrite <- app_assoc.
Qed.

Lemma cycles_before (before rest : list (check * list (list Z))) (t : ptrace) : open_ok t -> ptrace_oneshot t = false ->
  Forall (fun c => inside (ptrace_range t) c.1 = false) before ->
  exists t', trace_cycles (before ++ rest) t = trace_cycles rest t' /\ open_ok t' /\ ptrace_oneshot t' = false
    /\ ptrace_range t' = ptrace_range t /\ traced t' = traced t.
Proof.
  revert t. induction before as [|[c texts] before IH]; intros t Hok Ho Hb; [by exists t|].
  apply Forall_cons in Hb as [Hc Hb]. cbn [fst] in Hc. cbn [app trace_cycles]. rewrite check_ok, Hc by done.
  cbn [mbind outcome_bind]. rewrite events_traced. cbn [ptrace_active].
  destruct (IH (t <| ptrace_active := false |> <| traced := traced t |>)) as (t' & Ht' & Hrest); [exact Hok|done|done|].
  exists t'. split; [exact Ht'|exact Hrest].
Qed.

Lemma open_open (file : sym_file) (writable : list Z -> bool) (fname range : option (list Z)) (t t' : ptrace) (y y' : symbols) :
  ptrace_open file writable fname range t y = Ok (t', y') -> open_ok t' /\ ptrace_oneshot t' = ptrace_oneshot t /\ traced t' = traced t.
Proof.
  unfold ptrace_open. intros H. apply bind_ok in H as ([r y1] & _ & H). apply bind_ok in H as (r1 & Hr1 & H).
  apply bind_ok in H as ([] & Hf & H). apply bind_ok in H as (fd & _ & H). apply Ok_inj in H. injection H as <- <-.
  destruct (decide (ptype (range_start r1) = ptype (range_end r1))) as [Ht|Hn].
  - split; [split; [by eexists|done]|done].
  - rewrite bool_decide_eq_false_2 in Hf by done. done.
Qed.

(** C38: the pipeline trace has the events of the cycles from the first that is in
    the range up to the next that is not, and nothing of any other cycle: the trace
    starts once, also if the range is entered again. *)
Theorem ptrace_records_first_window (file : sym_file) (writable : list Z -> bool) (fname range : option (list Z)) (y y' : symbols)
    (before window after : list (check * list (list Z))) (t : ptrace) :
  ptrace_open file writable fname range no_trace y = Ok (t, y') ->
  Forall (fun c => inside (ptrace_range t) c.1 = false) before ->
  Forall (fun c => inside (ptrace_range t) c.1 = true) window ->
  match after with [] => True | c :: _ => inside (ptrace_range t) c.1 = false end ->
  (window = [] -> after = []) ->
  exists t', trace_cycles (before ++ window ++ after) t = Ok t' /\ traced t' = texts_of window.
Proof.
  intros Hopen Hb Hw Ha Hwa. destruct (open_open _ _ _ _ _ _ _ _ Hopen) as (Hok & Ho & Htr).
  destruct (cycles_before before (window ++ after) t Hok Ho Hb) as (t1 & -> & Hok1 & Ho1 & Hr1 & Htr1).
  destruct window as [|[c texts] window].
  - rewrite Hwa by done. exists t1. split; [done|]. by rewrite Htr1, Htr.
  - apply Forall_cons in Hw as [Hc Hw]. cbn [fst] in Hc. cbn [app trace_cycles]. rewrite check_ok, Hr1, Hc, Ho1 by done.
    cbn [mbind outcome_bind]. rewrite events_traced. cbn [ptrace_active].
    destruct (cycles_window window after (t1 <| ptrace_oneshot := true |> <| ptrace_active := true |> <| traced := traced t1 ++ mjoin texts |>))
      as (t' & Ht' & Htr'); [exact Hok1|done|done|cbn; by rewrite Hr1|cbn; by rewrite Hr1|].
    exists t'. split; [exact Ht'|]. rewrite Htr'. cbn. by rewrite Htr1, Htr.
Qed.

End Trace.

(** * Examples *)

Module RangeExample.

#[export] Instance host : EvalHost := {
  long_bits := 32; strtod _ := None; cvt_S_U _ := 0; cvt_D_U _ := 0; cvt_U_S _ := 0; cvt_U_D _ := 0; cvt_D_L _ := 0;
}.

(** A host that reads and prints the doubles that are integers. *)
#[export] Instance counter_host : RangeHost := {
  strtod_counter s := match read_digits 10 0 s with (v, []) => Some v | _ => None end;
  print_counter := print_llong;
}.

#[export] Instance counter_host_laws : RangeLaws counter_host.
Proof. split; [done|]. intros n Hn. unfold strtod_counter, counter_host, print_llong. by rewrite (read_digits_all 20) by lia. Qed.

Definition file : sym_file := mk_sym_file SymExample.hdr SymExample.strtab SymExample.extr 0x400030 0x10000100.

Definition addr : range_pos_t := mk_pos pt_addr 0x400000.

(** "@b:" is the range from the address of the symbol [b], and loads the symbols. *)
Lemma symbol_range : exists y, range_parse_range (sort := SymExample.stable) file (str "@b:") no_symbols
  = Ok (inr (mk_range (mk_pos pt_addr 0x400010) (mk_pos pt_addr (2 ^ 48 - 1))), y).
Proof. eexists. vm_compute. reflexivity. Qed.

(** The trace of the instructions 2 and 3: the cycles have counts 1, 2, 3, 4, 2. *)
Definition cycle (n : Z) : Z * Z * Z * list (list Z) := ((0x400000, n, n), [[n]]).
Definition opened : ptrace :=
  mk_ptrace (Some to_stderr) false (mk_range (mk_pos pt_inst 2) (mk_pos pt_inst 3)) false [].

End RangeExample.

#[local] Existing Instance RangeExample.host.
#[local] Existing Instance RangeExample.counter_host.
#[local] Existing Instance RangeExample.counter_host_laws.

Lemma range_parse_denotes_witness :
  range_parse_range (sort := SymExample.stable) RangeExample.file (str "@0x00400000:+16") no_symbols
    = Ok (inr (mk_range RangeExample.addr (mk_pos pt_addr 0x400010)), no_symbols).
Proof.
  apply (range_parse_denotes (sort := SymExample.stable) RangeExample.file (Some RangeExample.addr) (end_delta 16)).
  - vm_compute. discriminate.
  - split; [|lia]. intros p [= <-]. vm_compute. split; [discriminate|reflexivity].
Defined.

Lemma ptrace_records_first_window_witness : exists t',
  trace_cycles [RangeExample.cycle 1; RangeExample.cycle 2; RangeExample.cycle 3; RangeExample.cycle 4; RangeExample.cycle 2] RangeExample.opened = Ok t'
  /\ traced t' = [2; 3].
Proof.
  apply (ptrace_records_first_window (sort := SymExample.stable) RangeExample.file (fun _ => true) None (Some (str "2:3")) no_symbols no_symbols
    [RangeExample.cycle 1] [RangeExample.cycle 2; RangeExample.cycle 3] [RangeExample.cycle 4; RangeExample.cycle 2]).
  - vm_compute. reflexivity.
  - repeat constructor.
  - repeat constructor.
  - reflexivity.
  - discriminate.
Defined.
