(* ===== verification/SimBpred.v ===== *)
(** sim-bpred.c: its options, the macros of its execution engine and its main loop.

    The macros are those of sim-safe.c, but for SET_TPC, which keeps the target of
    a branch.  The debugger is inactive. *)

From Stdlib Require Import String.
From S2P Require Import Prelude Misc Memory Isa Exec Funsim Eval Strto Options Hierarchy Bpred BpredRun.

(** The options. *)
Record bpred_opts := mk_bpred_opts {
  pred_type : list Z;
  bimod_nelt : Z; bimod_config : list Z;
  twolev_nelt : Z; twolev_config : list Z;
  comb_nelt : Z; comb_config : list Z;
  ras_size : Z;
  btb_nelt : Z; btb_config : list Z;
}.

Definition sim_check_options (o : bpred_opts) : outcome bpred :=
  if opt_is (pred_type o) (str "taken") then bpred_create BPredTaken 0 0 0 0 0 false 0 0 0
  else if opt_is (pred_type o) (str "nottaken") then bpred_create BPredNotTaken 0 0 0 0 0 false 0 0 0
  else if opt_is (pred_type o) (str "bimod") then
    _ ← fatal_if (negb (bimod_nelt o =? 1));
    _ ← fatal_if (negb (btb_nelt o =? 2));
    b0 ← c_get (bimod_config o) 0; n ← c_get (btb_config o) 0; a ← c_get (btb_config o) 1;
    bpred_create BPred2bit b0 0 0 0 0 false n a (ras_size o)
  else if opt_is (pred_type o) (str "2lev") then
    _ ← fatal_if (negb (twolev_nelt o =? 4));
    _ ← fatal_if (negb (btb_nelt o =? 2));
    t0 ← c_get (twolev_config o) 0; t1 ← c_get (twolev_config o) 1; t2 ← c_get (twolev_config o) 2; t3 ← c_get (twolev_config o) 3;
    n ← c_get (btb_config o) 0; a ← c_get (btb_config o) 1;
    bpred_create BPred2Level 0 t0 t1 0 t2 (truth t3) n a (ras_size o)
  else if opt_is (pred_type o) (str "comb") then
    _ ← fatal_if (negb (twolev_nelt o =? 4));
    _ ← fatal_if (negb (bimod_nelt o =? 1));
    _ ← fatal_if (negb (comb_nelt o =? 1));
    _ ← fatal_if (negb (btb_nelt o =? 2));
    b0 ← c_get (bimod_config o) 0;
    t0 ← c_get (twolev_config o) 0; t1 ← c_get (twolev_config o) 1; t2 ← c_get (twolev_config o) 2; t3 ← c_get (twolev_config o) 3;
    m0 ← c_get (comb_config o) 0; n ← c_get (btb_config o) 0; a ← c_get (btb_config o) 1;
    bpred_create BPredComb b0 t0 t1 m0 t2 (truth t3) n a (ras_size o)
  else Fatal.

(** The state of sim-bpred: what sim-safe has too, and the locals and statics that
    the prediction of branches adds. *)
Record bpred_sim := mk_bpred_sim {
  b_safe : safe_state;
  target_PC : Z;
  pred : option bpred;
  sim_num_branches : Z;
}.
#[global] Instance eta_bpred_sim : Eta bpred_sim := mk_eta (fun q => mk_bpred_sim (b_safe q) (target_PC q) (pred q) (sim_num_branches q)).

Section SimBpred.
Context `{SimEnv}.

(** The macros on what sim-safe has. *)
Definition on_safe (f : safe_state -> outcome safe_state) (q : bpred_sim) : outcome bpred_sim := s ← f (b_safe q); Ok (q <| b_safe := s |>).

Definition bp_READ (t : mem_temp) (a : Z) (q : bpred_sim) : outcome (Z * bpred_sim) :=
  '(v, s) ← safe_READ t a (b_safe q); Ok (v, q <| b_safe := s |>).

#[export] Instance bpred_machine : Machine bpred_sim := {
  CPC q := regs_PC (s_regs (b_safe q));
  SET_NPC v q := q <| b_safe ::= set_field s_next_PC (fun _ => v) |>;
  SET_TPC v q := q <| target_PC := v |>;
  GPR n q := safe_GPR n (b_safe q);
  MARK_GPR _ q := Ok q;
  SET_GPR n v := on_safe (safe_SET_GPR n v);
  FPR_L n q := safe_FPR_L n (b_safe q);
  MARK_FPR _ q := Ok q;
  SET_FPR_L n v := on_safe (safe_SET_FPR_L n v);
  HI q := regs_HI (s_regs (b_safe q));
  SET_HI v q := q <| b_safe ::= set_field s_regs (set_field regs_HI (fun _ => s32 v)) |>;
  LO q := regs_LO (s_regs (b_safe q));
  SET_LO v q := q <| b_safe ::= set_field s_regs (set_field regs_LO (fun _ => s32 v)) |>;
  FCC q := regs_FCC (s_regs (b_safe q));
  SET_FCC v q := q <| b_safe ::= set_field s_regs (set_field regs_FCC (fun _ => s32 v)) |>;
  READ_MEM := bp_READ;
  WRITE_MEM t v a := on_safe (safe_WRITE t v a);
  IFAIL _ := Fatal;
  IDIV_int := c_div;
  IMOD_int := c_mod;
  FINT_nan := None;
  FDIV_zero := false;
  do_syscall inst := on_safe (safe_SYSCALL inst);
}.

(** The control instruction that has been executed. *)
Definition executed_branch (op : ss_opcode) (inst : ss_inst) (q : bpred_sim) : branch :=
  mk_branch (regs_PC (s_regs (b_safe q))) (target_PC q) (s_next_PC (b_safe q)) op (RS inst =? 31).

(** Its prediction; [u0] and [stack_idx] are what the locals hold. *)
Definition predict_branch (u0 : bpred_update_rec) (stack_idx : Z) (op : ss_opcode) (inst : ss_inst) (q : bpred_sim) : outcome bpred_sim :=
  if truth (Z.land (SS_OP_FLAGS op) F_CTRL) then
    let q := q <| sim_num_branches ::= Z.add 1 |> in
    match pred q with
    | Some p => '(p, _) ← sim_bpred_branch p u0 stack_idx (executed_branch op inst q); Ok (q <| pred := Some p |>)
    | None => Ok q
    end
  else Ok q.

(** The body of the loop of [sim_main]. *)
Definition sim_bpred_step `{HostFP} (u0 : bpred_update_rec) (stack_idx : Z) (q : bpred_sim) : outcome bpred_sim :=
  q ← SET_GPR 0 0 q;
  let q := q <| b_safe ::= set_field s_num_insn (Z.add 1) |> in
  inst ← fetch_inst (regs_PC (s_regs (b_safe q))) (s_mem (b_safe q));
  let q := q <| b_safe ::= fun s => s <| s_addr := 0 |> <| s_is_write := false |> |> in
  op ← (match opcode_of_val (SS_OPCODE inst) with Some op => Ok op | None => Panic end);
  q ← execute env_cfg op inst q;
  let q := if truth (Z.land (SS_OP_FLAGS op) F_MEM)
           then q <| b_safe ::= fun s => s <| s_num_refs ::= Z.add 1 |> <| s_is_write ::= orb (truth (Z.land (SS_OP_FLAGS op) F_STORE)) |> |>
           else q in
  q ← predict_branch u0 stack_idx op inst q;
  Ok (q <| b_safe ::= fun s =>
        s <| s_regs ::= set_field regs_PC (fun _ => s_next_PC s) |> <| s_next_PC ::= fun pc => u32 (pc + SS_INST_SIZE) |> |>).

Fixpoint sim_bpred_main `{HostFP} (u0 : bpred_update_rec) (stack_idx : Z) (n : nat) (q : bpred_sim) : outcome bpred_sim :=
  match n with O => Ok q | S n' => q ← sim_bpred_step u0 stack_idx q; sim_bpred_main u0 stack_idx n' q end.

(** [sim_init]. *)
Definition sim_bpred_init (swap : Z -> Z) (ld_prog_entry : Z) (tab : list ss_opcode) (fuel : nat) (q : bpred_sim) : outcome bpred_sim :=
  let s := b_safe q in
  m ← predecode_loop swap tab fuel (ld_text_base env_ld) (s_mem s);
  Ok (q <| b_safe := s <| s_num_insn := 0 |> <| s_num_refs := 0 |> <| s_regs ::= set_field regs_PC (fun _ => ld_prog_entry) |> <| s_mem := m |> |>).

(** [sim_main] before its loop. *)
Definition sim_bpred_start (q : bpred_sim) : bpred_sim :=
  q <| b_safe ::= fun s => s <| s_next_PC := u32 (regs_PC (s_regs s) + SS_INST_SIZE) |> |>.

End SimBpred.
