(* ===== verification/SimBpredProps.v ===== *)
(** sim-bpred executes what sim-safe executes, and its predictor sees exactly the
    control instructions. *)

From Stdlib Require Import String.
From S2P Require Import Prelude Misc Memory Isa Exec ExecMult ExecMeta Funsim FunsimProps Eval Strto Options Hierarchy Bpred BpredWf BpredInit BpredOps BpredRun BpredProps SimBpred.

(** * One instruction *)

(** The machine runs in step with sim-safe, whatever its predictor [p] and count. *)
Record in_step (p : option bpred) (c : Z) (s : safe_state) (q : bpred_sim) : Prop := {
  st_safe : b_safe q = s;
  st_pred : pred q = p;
  st_count : sim_num_branches q = c;
  st_regs : regs_ok (s_regs s);
  st_pages : pages_ok (s_mem s);
}.

Section SafeBpred.
Context {E : SimEnv} {L : SyscallLaws} {fp : HostFP}.
Variables (p : option bpred) (c : Z).

(** A macro of sim-safe that keeps the registers and the memory sound. *)
Lemma on_safe_sim (f : safe_state -> outcome safe_state) (s : safe_state) (q : bpred_sim) : in_step p c s q ->
  (forall s', f s = Ok s' -> regs_ok (s_regs s') /\ pages_ok (s_mem s')) -> osim True (in_step p c) (f s) (on_safe f q).
Proof.
  intros [Hs Hp Hc _ _] Hf. apply osim_self. intros s' H. unfold on_safe. rewrite Hs, H. destruct (Hf s' H).
  eexists. split; [reflexivity|]. by split.
Qed.

#[local] Instance safe_bpred_sim : MachineSim True (in_step p c).
Proof.
  split.
  - by intros s q [<-].
  - intros v s q [<- ? ? ? ?]. by split.
  - intros v s q [<- ? ? ? ?]. by split.
  - intros r s q [<-]. apply osim_refl.
  - intros r s q HR. by apply osim_ok.
  - intros r v s q HR. apply on_safe_sim; [done|]. destruct HR as [_ _ _ Hr Hp]. intros s' H. apply bind_ok in H as (R & HR & [= <-]).
    split; [by eapply regs_ok_R|done].
  - intros r s q [<-]. apply osim_refl.
  - intros r s q HR. by apply osim_ok.
  - intros r v s q HR. apply on_safe_sim; [done|]. destruct HR as [_ _ _ Hr Hp]. intros s' H. apply bind_ok in H as (R & HR & [= <-]).
    split; [by eapply regs_ok_F|done].
  - by intros s q [<-].
  - intros v s q [<- ? ? [] ?]. by split.
  - by intros s q [<-].
  - intros v s q [<- ? ? [] ?]. by split.
  - by intros s q [<-].
  - intros v s q [<- ? ? [] ?]. by split.
  - intros t a s q [Hs Hp Hc Hr Hm]. apply osim_self. intros [v s'] H. change (safe_READ t a s = Ok (v, s')) in H. exists (v, q <| b_safe := s' |>).
    split; [change (bp_READ t a q = Ok (v, q <| b_safe := s' |>)); unfold bp_READ; by rewrite Hs, H|]. split; [done|]. apply safe_READ_ok in H as (_ & _ & m & HR & ->). split; try done. cbn.
    rewrite (MEM_READ_table _ _ _ _ _ _ HR). by apply pages_ok_tickle, pages_ok_track.
  - intros t v a s q HR. apply on_safe_sim; [done|]. destruct HR as [_ _ _ Hr Hm]. intros s' H.
    apply safe_WRITE_ok in H as (_ & _ & m & HR & ->). split; [done|]. exact (pages_ok_write _ _ _ _ _ _ HR (pages_ok_track a _ Hm)).
  - intros r s q x [_ _ _ [_ _ Hr] _]. cbn. unfold safe_GPR. by apply z_get_int.
  - done.
  - done.
  - intros a b _. apply osim_refl.
  - intros a b _. apply osim_refl.
  - by left.
  - done.
Qed.

Lemma safe_bpred_syscall (inst : ss_inst) (s : safe_state) (q : bpred_sim) :
  in_step p c s q -> osim True (in_step p c) (do_syscall inst s) (do_syscall inst q).
Proof.
  intros HR. apply on_safe_sim; [done|]. destruct HR as [_ _ _ Hr Hm]. intros s' H. unfold safe_SYSCALL in H.
  apply bind_ok in H as ([[r m] h] & Hs & [= <-]). exact (syscall_ok _ _ _ _ _ _ _ Hs Hr Hm).
Qed.

(** What is taken goes to the target. *)
Definition went (q q' : bpred_sim) : Prop :=
  regs_PC (s_regs (b_safe q')) = regs_PC (s_regs (b_safe q))
  /\ (s_next_PC (b_safe q') = target_PC q' \/ s_next_PC (b_safe q') = s_next_PC (b_safe q)).

Lemma branch_went (inst : ss_inst) (taken : bool) (q : bpred_sim) : went q (Exec.branch inst taken q).
Proof. split; [by destruct taken|]. destruct taken; [left|right]; done. Qed.

(** Setting a register leaves the program counters. *)
Lemma set_gpr_frame (n : Z) (e : bpred_sim -> outcome Z) (q q' : bpred_sim) : set_gpr n e q = Ok q' ->
  regs_PC (s_regs (b_safe q')) = regs_PC (s_regs (b_safe q)) /\ s_next_PC (b_safe q') = s_next_PC (b_safe q) /\ target_PC q' = target_PC q.
Proof.
  unfold set_gpr. intros (q1 & [= <-] & H)%bind_ok. apply bind_ok in H as (v & _ & H). apply bind_ok in H as (s & H & [= <-]).
  by apply bind_ok in H as (R & _ & [= <-]).
Qed.

Lemma talign_same (a : Z) (q q' : bpred_sim) : TALIGN a q = Ok q' -> q = q'.
Proof. unfold TALIGN, check. destruct (truth _); [discriminate|]. by intros [= ->]. Qed.

Lemma control_went (op : ss_opcode) (inst : ss_inst) (q q' : bpred_sim) : exec_control op inst q = Ok q' -> went q q'.
Proof.
  intros H. destruct op; cbn [exec_control] in H; try discriminate H;
    try (repeat apply bind_ok in H as (? & _ & H); apply Ok_inj in H as <-; apply branch_went).
  - apply Ok_inj in H as <-. by split; [|left].
  - cbv zeta in H. apply set_gpr_frame in H as (H1 & H2 & H3). split; [by rewrite H1|left]. by rewrite H2, H3.
  - apply bind_ok in H as (t & _ & H). apply bind_ok in H as (q1 & <-%talign_same & H). apply bind_ok in H as (t1 & H1 & H).
    apply bind_ok in H as (t2 & H2 & H). apply Ok_inj in H as <-. change (GPR (RS inst) q = Ok t2) in H2.
    rewrite H1 in H2. apply Ok_inj in H2 as <-. by split; [|left].
  - apply bind_ok in H as (t & _ & H). apply bind_ok in H as (q1 & <-%talign_same & H). apply bind_ok in H as (q2 & (P2 & _)%set_gpr_frame & H).
    apply bind_ok in H as (t1 & H1 & H). apply bind_ok in H as (t2 & H2 & H). apply Ok_inj in H as <-. change (GPR (RS inst) q2 = Ok t2) in H2.
    rewrite H1 in H2. apply Ok_inj in H2 as <-. by split; [|left].
Qed.

Lemma execute_went (op : ss_opcode) (inst : ss_inst) (q q' : bpred_sim) : is_ctrl op = true -> execute env_cfg op inst q = Ok q' -> went q q'.
Proof. intros Hc H. apply (control_went op inst). by destruct op; try discriminate Hc. Qed.

Lemma refs_counted_frame (op : ss_opcode) (s : safe_state) : s_next_PC (refs_counted op s) = s_next_PC s /\ s_regs (refs_counted op s) = s_regs s.
Proof. unfold refs_counted. by destruct (truth _). Qed.

(** What sim-safe executes is executed; a control instruction goes to its target or to
    the next instruction. *)
Lemma exec_in_step (s : safe_state) (q : bpred_sim) (e : insn_event) : in_step p c s q -> safe_exec s = Ok e ->
  s_next_PC s = u32 (regs_PC (s_regs s) + SS_INST_SIZE) ->
  exists q1 q2, SET_GPR 0 0 q = Ok q1
    /\ fetch_inst (regs_PC (s_regs (b_safe q1))) (s_mem (b_safe q1)) = Ok (ev_inst e)
    /\ opcode_of_val (SS_OPCODE (ev_inst e)) = Some (ev_op e)
    /\ execute env_cfg (ev_op e) (ev_inst e) (q1 <| b_safe ::= fetch_state |>) = Ok q2
    /\ in_step p c (ev_state e) (q2 <| b_safe ::= refs_counted (ev_op e) |>)
    /\ (is_ctrl (ev_op e) = true -> s_next_PC (ev_state e) = target_PC q2 \/ s_next_PC (ev_state e) = u32 (ev_PC e + SS_INST_SIZE)).
Proof.
  intros HR He Hnext. pose proof (exec_op _ _ He) as Hna. unfold safe_exec in He. apply bind_ok in He as (s1 & H1 & He).
  apply bind_ok in He as (inst & Hi & He). apply bind_ok in He as (op & Hop & He). apply bind_ok in He as (s2 & Hs2 & He).
  apply Ok_inj in He as <-. cbn [ev_op ev_inst ev_state] in *.
  pose proof (sim_set_gpr 0 0 s q HR : osim True (in_step p c) (safe_SET_GPR 0 0 s) (on_safe (safe_SET_GPR 0 0) q)) as Hset.
  destruct (osim_inv _ _ _ _ _ Hset H1) as (q1 & Hq1 & HR1).
  assert (in_step p c (fetch_state s1) (q1 <| b_safe ::= fetch_state |>)) as HRf by (destruct HR1 as [<- ? ? ? ?]; by split).
  pose proof (execute_sim (bad := True) (R := in_step p c) env_cfg op inst (fetch_state s1) (q1 <| b_safe ::= fetch_state |>) (fun _ => eq_refl)
    (fun _ => safe_bpred_syscall inst _ _ HRf) Hna HRf) as Hsim.
  destruct (osim_inv _ _ _ _ _ Hsim Hs2) as (q2 & Hq2 & HR2).
  exists q1, q2. split; [exact Hq1|]. split; [by rewrite (st_safe _ _ _ _ HR1)|]. split; [by destruct (opcode_of_val _); simplify_eq|].
  split; [exact Hq2|]. split.
  - destruct HR2 as [<- Hp Hc Hr Hm]. unfold refs_counted. destruct (truth _); by split.
  - intros Hc. destruct (execute_went _ _ _ _ Hc Hq2) as [HPC Hwent]. rewrite (st_safe _ _ _ _ HR2), (st_safe _ _ _ _ HRf) in *.
    destruct (refs_counted_frame op s2) as [Hn Hr]. unfold ev_PC. cbn [ev_state]. rewrite Hn, Hr, HPC. destruct Hwent as [H|H]; [by left|right].
    rewrite H. apply bind_ok in H1 as (RR & _ & [= <-]). exact Hnext.
Qed.

End SafeBpred.

(** * A run *)

(** A branch as the predictor sees it. *)
Record branch_of (e : insn_event) (b : branch) : Prop := {
  bo_pc : b_pc b = ev_PC e;
  bo_op : b_op b = ev_op e;
  bo_next : b_next b = s_next_PC (ev_state e);
  bo_r31 : b_r31 b = (RS (ev_inst e) =? 31);
  bo_target : b_next b = b_target b \/ b_next b = u32 (b_pc b + SS_INST_SIZE);
}.

Section Run.
Context {E : SimEnv} {L : SyscallLaws} {fp : HostFP}.
Variables (u0 : bpred_update_rec) (stack_idx : Z).

Lemma bpred_step_parts (q : bpred_sim) : sim_bpred_step u0 stack_idx q =
  (q ← SET_GPR 0 0 q;
   inst ← fetch_inst (regs_PC (s_regs (b_safe q))) (s_mem (b_safe q));
   op ← (match opcode_of_val (SS_OPCODE inst) with Some op => Ok op | None => Panic end);
   q ← execute env_cfg op inst (q <| b_safe ::= fetch_state |>);
   q ← predict_branch u0 stack_idx op inst (q <| b_safe ::= refs_counted op |>);
   Ok (q <| b_safe ::= safe_advance |>)).
Proof.
  unfold sim_bpred_step. destruct (SET_GPR 0 0 q) as [q1| | | | | |]; cbn [mbind outcome_bind]; try done.
  change (regs_PC (s_regs (b_safe (q1 <| b_safe ::= set_field s_num_insn (Z.add 1) |>)))) with (regs_PC (s_regs (b_safe q1))).
  change (s_mem (b_safe (q1 <| b_safe ::= set_field s_num_insn (Z.add 1) |>))) with (s_mem (b_safe q1)).
  destruct (fetch_inst _ _) as [inst| | | | | |]; cbn [mbind outcome_bind]; try done.
  destruct (opcode_of_val _) as [op|]; cbn [mbind outcome_bind]; [|done].
  change (execute env_cfg op inst _) with (execute env_cfg op inst (q1 <| b_safe ::= fetch_state |>)) at 1.
  destruct (execute env_cfg op inst (q1 <| b_safe ::= fetch_state |>)) as [q2| | | | | |]; cbn [mbind outcome_bind]; try done.
  unfold refs_counted. destruct (truth _); [done|]. by destruct q2.
Qed.

(** The branches of an instruction: one or none. *)
Lemma step_in_step (s : safe_state) (q : bpred_sim) (e : insn_event) (p : bpred) (c : Z) :
  in_step (Some p) c s q -> safe_exec s = Ok e -> s_next_PC s = u32 (regs_PC (s_regs s) + SS_INST_SIZE) ->
  bpred_wf p -> stats_ok p -> (is_ctrl (ev_op e) = true -> ev_PC e <> 0) ->
  exists q' p' bs l, sim_bpred_step u0 stack_idx q = Ok q' /\ in_step (Some p') (c + Z.of_nat (length bs)) (safe_advance (ev_state e)) q'
    /\ bpred_wf p' /\ stats_ok p' /\ sim_bpred_run p u0 stack_idx bs = Ok (p', l)
    /\ Forall2 branch_of (if is_ctrl (ev_op e) then [e] else []) bs /\ forallb real_branch bs = true.
Proof.
  intros HR He Hnext Hwf Hst Hpc. destruct (exec_in_step (Some p) c s q e HR He Hnext) as (q1 & q2 & E1 & Ei & Eo & E2 & HR2 & Ht).
  rewrite bpred_step_parts, E1. cbn [mbind outcome_bind]. rewrite Ei. cbn [mbind outcome_bind]. rewrite Eo. cbn [mbind outcome_bind].
  rewrite E2. cbn [mbind outcome_bind]. set (q3 := q2 <| b_safe ::= refs_counted (ev_op e) |>) in *. unfold predict_branch. fold (is_ctrl (ev_op e)).
  assert (forall q3 p3 c3, in_step p3 c3 (ev_state e) q3 -> in_step p3 c3 (safe_advance (ev_state e)) (q3 <| b_safe ::= safe_advance |>)) as Hadv.
  { intros q4 p4 c4 [<- ? ? [] ?]. by split. }
  destruct (is_ctrl (ev_op e)) eqn:Hc.
  - assert (branch_of e (executed_branch (ev_op e) (ev_inst e) q3)) as Hb.
    { destruct HR2 as [Hs _ _ _ _]. unfold executed_branch. rewrite Hs. split; try done.
      change (s_next_PC (ev_state e) = target_PC q2 \/ s_next_PC (ev_state e) = u32 (ev_PC e + SS_INST_SIZE)). by apply Ht. }
    set (b := executed_branch _ _ q3) in *. destruct HR2 as [Hs Hp Hn Hr Hm].
    assert (forallb real_branch [b] = true) as Hreal.
    { cbn. unfold real_branch. rewrite (bo_op _ _ Hb), Hc, (bo_pc _ _ Hb). specialize (Hpc eq_refl). apply Z.eqb_neq in Hpc. by rewrite Hpc. }
    destruct (sim_bpred_run_ok p u0 stack_idx [b] Hwf Hst Hreal) as (p' & l & Hrun & Hwf' & _ & _ & Hst' & _).
    pose proof Hrun as Hrun2. cbn [sim_bpred_run] in Hrun2. apply bind_ok in Hrun2 as ([p1 a] & Hbr & Hrun2). apply Ok_inj in Hrun2. injection Hrun2 as -> _.
    cbn [pred mbind outcome_bind]. change (pred (q3 <| sim_num_branches ::= Z.add 1 |>)) with (pred q3). rewrite Hp.
    change (executed_branch (ev_op e) (ev_inst e) (q3 <| sim_num_branches ::= Z.add 1 |>)) with b. rewrite Hbr. cbn [mbind outcome_bind].
    eexists _, p', [b], l. split; [reflexivity|]. split; [|split; [exact Hwf'|split; [exact Hst'|split; [exact Hrun|split; [by constructor|exact Hreal]]]]].
    apply Hadv. split; try done. change (1 + sim_num_branches q3 = c + 1). lia.
  - eexists _, p, [], []. split; [reflexivity|]. rewrite Z.add_0_r. split; [by apply Hadv|]. split; [done|]. split; [done|]. split; [done|]. split; [constructor|done].
Qed.

Lemma bpred_branches_app (p p1 p2 : bpred) (bs bs' : list branch) (l l' : list Z) :
  sim_bpred_run p u0 stack_idx bs = Ok (p1, l) -> sim_bpred_run p1 u0 stack_idx bs' = Ok (p2, l') ->
  sim_bpred_run p u0 stack_idx (bs ++ bs') = Ok (p2, l ++ l').
Proof.
  revert p l. induction bs as [|b bs IH]; intros p l H H'; cbn [sim_bpred_run app] in *; [by injection H as -> <-|].
  apply bind_ok in H as ([p3 a] & -> & H). cbn [mbind outcome_bind]. apply bind_ok in H as ([p4 l4] & H & Hl). injection Hl as -> <-.
  by rewrite (IH _ _ H H').
Qed.

Lemma run_in_step (n : nat) (s : safe_state) (q : bpred_sim) (p : bpred) (c : Z) (s' : safe_state) (evs : list insn_event) :
  in_step (Some p) c s q -> sim_safe_run n s = Ok s' -> safe_events n s = Ok evs ->
  s_next_PC s = u32 (regs_PC (s_regs s) + SS_INST_SIZE) -> bpred_wf p -> stats_ok p ->
  Forall (fun e => is_ctrl (ev_op e) = true -> ev_PC e <> 0) evs ->
  exists q' p' bs l, sim_bpred_main u0 stack_idx n q = Ok q' /\ in_step (Some p') (c + Z.of_nat (length bs)) s' q'
    /\ sim_bpred_run p u0 stack_idx bs = Ok (p', l) /\ Forall2 branch_of (filter (fun e => is_ctrl (ev_op e) = true) evs) bs
    /\ forallb real_branch bs = true.
Proof.
  revert s q p c evs. induction n as [|n IH]; intros s q p c evs HR Hrun Hevs Hnext Hwf Hst Hpc; cbn [sim_safe_run safe_events sim_bpred_main] in *.
  - apply Ok_inj in Hrun as <-. apply Ok_inj in Hevs as <-. exists q, p, [], []. rewrite Z.add_0_r. split_and!; done || constructor.
  - rewrite safe_step_exec in Hrun. apply bind_ok in Hevs as (e & He & Hevs). rewrite He in Hrun. cbn [mbind outcome_bind] in Hrun.
    apply bind_ok in Hevs as (evs' & Hevs & Hcons). apply Ok_inj in Hcons as <-. apply Forall_cons in Hpc as [Hpc1 Hpc].
    destruct (step_in_step s q e p c HR He Hnext Hwf Hst Hpc1) as (q1 & p1 & bs1 & l1 & -> & HR1 & Hwf1 & Hst1 & Hr1 & Hb1 & Hreal1). cbn [mbind outcome_bind].
    destruct (IH _ q1 p1 (c + Z.of_nat (length bs1)) evs' HR1 Hrun Hevs eq_refl Hwf1 Hst1 Hpc) as (q2 & p2 & bs2 & l2 & -> & HR2 & Hr2 & Hb2 & Hreal2).
    exists q2, p2, (bs1 ++ bs2), (l1 ++ l2). split; [done|]. split; [by rewrite length_app, Nat2Z.inj_add, Z.add_assoc|].
    split; [by eapply bpred_branches_app|]. split; [|by rewrite forallb_app, Hreal1, Hreal2].
    rewrite filter_cons. destruct (is_ctrl (ev_op e)); [rewrite decide_True by done|rewrite decide_False by done].
    + exact (Forall2_app Hb1 Hb2).
    + apply Forall2_nil_inv_l in Hb1 as ->. done.
Qed.

End Run.

(** * Correctness *)

(** The values of the options are sizes, and the arrays have the lengths declared. *)
Record opts_ok (o : bpred_opts) : Prop := {
  oo_values : Forall (fun v => 0 <= v < 2 ^ 31) (bimod_config o ++ twolev_config o ++ comb_config o ++ btb_config o ++ [ras_size o]);
  oo_btb : forall sets assoc, btb_config o = [sets; assoc] -> sets * assoc < 2 ^ 31;
  oo_lengths : length (bimod_config o) = 1%nat /\ length (twolev_config o) = 4%nat /\ length (comb_config o) = 1%nat /\ length (btb_config o) = 2%nat;
}.

Lemma create_wf (c : bpred_class) (bim l1 l2 met w : Z) (x : bool) (sets assoc rs : Z) (p : bpred) : c <> BPredTaken /\ c <> BPredNotTaken ->
  0 <= bim < 2 ^ 31 -> 0 <= l1 < 2 ^ 31 -> 0 <= l2 < 2 ^ 31 -> 0 <= met < 2 ^ 31 -> 0 <= w < 2 ^ 31 ->
  0 <= sets -> 0 <= assoc -> sets * assoc < 2 ^ 31 -> 0 <= rs < 2 ^ 31 ->
  bpred_create c bim l1 l2 met w x sets assoc rs = Ok p -> bpred_wf p.
Proof.
  intros Hc H1 H2 H3 H4 H5 H6 H7 H8 H9 H. pose proof (bpred_create_ok c bim l1 l2 met w x sets assoc rs Hc H1 H2 H3 H4 H5 H6 H7 H8 H9) as Hok.
  rewrite H in Hok. destruct (create_valid _ _ _ _ _ _ _ _ _); [|done]. by destruct Hok as (p' & [= <-] & Hwf & _).
Qed.

(** The predictor of the options is sound, unless it is static. *)
Lemma check_options_wf (o : bpred_opts) (p : bpred) : opts_ok o -> sim_check_options o = Ok p -> class p <> BPredTaken -> class p <> BPredNotTaken ->
  bpred_wf p /\ stats_of p = (0, 0, 0, 0, 0, 0).
Proof.
  intros [Hv Hbtb (L1 & L2 & L3 & L4)] H Ht Hn. unfold sim_check_options in H.
  destruct (bimod_config o) as [|b0 [|]]; try discriminate L1. destruct (twolev_config o) as [|t0 [|t1 [|t2 [|t3 [|]]]]]; try discriminate L2.
  destruct (comb_config o) as [|m0 [|]]; try discriminate L3. destruct (btb_config o) as [|n [|a [|]]]; try discriminate L4. specialize (Hbtb n a eq_refl).
  cbn [app] in Hv. rewrite !Forall_cons in Hv. destruct Hv as (V1 & V2 & V3 & V4 & V5 & V6 & V7 & V8 & V9 & _).
  destruct (opt_is _ (str "taken")); [by injection H as <-|]. destruct (opt_is _ (str "nottaken")); [by injection H as <-|].
  change (c_get [b0] 0) with (Ok b0) in H. change (c_get [m0] 0) with (Ok m0) in H.
  change (c_get [n; a] 0) with (Ok n) in H. change (c_get [n; a] 1) with (Ok a) in H.
  change (c_get [t0; t1; t2; t3] 0) with (Ok t0) in H. change (c_get [t0; t1; t2; t3] 1) with (Ok t1) in H.
  change (c_get [t0; t1; t2; t3] 2) with (Ok t2) in H. change (c_get [t0; t1; t2; t3] 3) with (Ok t3) in H. cbn [mbind outcome_bind] in H.
  destruct (opt_is _ (str "bimod")); [|destruct (opt_is _ (str "2lev")); [|destruct (opt_is _ (str "comb")); [|discriminate H]]];
    repeat match type of H with mbind _ (fatal_if _) = _ => apply bind_ok in H as (? & _ & H) end; cbn [mbind outcome_bind] in H;
    (split; [|exact (create_stats _ _ _ _ _ _ _ _ _ _ _ H)]); (eapply create_wf; [| | | | | | | | | |exact H]; [by split|lia..]).
Qed.

(** C17: sim-bpred executes the program as sim-safe does, whatever is predicted, and its
    predictor sees exactly the control instructions that are executed, in order, each
    with the address it goes to, which is the target the predictor is told or the
    next instruction.  It ends as the loop over these branches leaves it, sound, without an
    assertion or an access out of bounds; the branches counted are those looked up, and
    each is a direction hit or a miss. *)
Theorem sim_bpred_agrees {E : SimEnv} {L : SyscallLaws} {fp : HostFP} u0 stack_idx o p n s0 s target :
  opts_ok o -> sim_check_options o = Ok p -> class p <> BPredTaken -> class p <> BPredNotTaken ->
  regs_ok (s_regs s0) -> pages_ok (s_mem s0) -> s_next_PC s0 = u32 (regs_PC (s_regs s0) + SS_INST_SIZE) ->
  sim_safe_run n s0 = Ok s ->
  exists evs, safe_events n s0 = Ok evs /\ length evs = n /\
  ((forall e, e ∈ evs -> is_ctrl (ev_op e) = true -> ev_PC e <> 0) ->
   exists q bs p' l, sim_bpred_main u0 stack_idx n (mk_bpred_sim s0 target (Some p) 0) = Ok q /\ b_safe q = s
     /\ Forall2 branch_of (filter (fun e => is_ctrl (ev_op e) = true) evs) bs
     /\ sim_bpred_run p u0 stack_idx bs = Ok (p', l) /\ pred q = Some p' /\ bpred_wf p'
     /\ sim_num_branches q = Z.of_nat (length bs) /\ lookups p' = sim_num_branches q
     /\ dir_hits p' + misses p' = sim_num_branches q /\ 0 <= addr_hits p' <= dir_hits p').
Proof.
  intros Ho Hcheck Ht Hn Hr Hm Hnext Hrun. destruct (check_options_wf o p Ho Hcheck Ht Hn) as [Hwf Hst].
  destruct (events_exist n s0 s Hrun) as (evs & Hevs & Hl). exists evs. split; [exact Hevs|]. split; [exact Hl|]. intros Hpc.
  destruct (run_in_step u0 stack_idx n s0 (mk_bpred_sim s0 target (Some p) 0) p 0 s evs) as (q & p' & bs & l & Hq & [Hs Hp Hc _ _] & Hb & Hbs & Hreal);
    [by split|done|done|done|done|by apply zero_stats_ok|by apply Forall_forall|].
  destruct (sim_bpred_run_ok p u0 stack_idx bs Hwf (zero_stats_ok p Hst) Hreal) as (p2 & l2 & Hb2 & Hwf2 & _ & _ & (S1 & S2 & S3 & S4) & Hlook & _).
  rewrite Hb in Hb2. injection Hb2 as <- <-. injection Hst as L0 _ _ _ _ _. exists q, bs, p', l.
  split; [exact Hq|]. split; [exact Hs|]. split; [exact Hbs|]. split; [exact Hb|]. split; [exact Hp|]. split; [exact Hwf2|]. lia.
Qed.

(** A loop that is executed twice. *)
Module SimBpredExample.

Definition program : list ss_inst := [asm ADDIU 0 1 2; asm ADDIU 1 1 0xffff; asm BNE 1 0 0xfffc].
Definition text : mem_state :=
  match unchk_write 0x400000 (flat_map inst_bytes program) (mem_tickle 0x400000 mem_init) with Ok m => m | _ => mem_init end.
Definition started : safe_state := mk_safe example_regs text 0x400008 0 false 0 0 [].
Definition options : bpred_opts := mk_bpred_opts (str "BIMOD") 1 [4] 4 [1; 4; 2; 0] 1 [4] 4 2 [2; 2].

Definition predictor : bpred := match sim_check_options options with Ok p => p | _ => zero_bpred BPred2bit end.
Definition executed : outcome (list insn_event) := safe_events (E := example_env) 5 started.

Lemma text_pages : pages_ok text.
Proof.
  assert (H : map_Forall (fun _ (pg : gmap Z Z) => map_Forall (fun _ v => 0 <= v < 256) pg) (mem_table text))
    by (apply (bool_decide_unpack _); vm_compute; exact I).
  intros b pg o v Hb Ho. exact (H b pg Hb o v Ho).
Qed.

Lemma options_ok : opts_ok options.
Proof. split; [apply (bool_decide_unpack _); vm_compute; exact I|intros n a [= <- <-]; done|done]. Qed.

Lemma predictor_created : sim_check_options options = Ok predictor /\ class predictor = BPred2bit.
Proof. vm_compute. done. Qed.

Lemma bpred_started_runs : exists s, sim_safe_run (H := example_env) 5 started = Ok s.
Proof.
  assert (match sim_safe_run (H := example_env) 5 started with Ok _ => true | _ => false end = true) as H by (vm_compute; reflexivity).
  destruct (sim_safe_run 5 started) as [s| | | | | |]; try discriminate H. by exists s.
Qed.

Lemma executed_nonzero (evs : list insn_event) (e : insn_event) : executed = Ok evs -> e ∈ evs -> is_ctrl (ev_op e) = true -> ev_PC e <> 0.
Proof.
  intros Hevs He _. assert (match executed with Ok evs => forallb (fun e => negb (ev_PC e =? 0)) evs | _ => false end = true) as H by (vm_compute; reflexivity).
  rewrite Hevs, forallb_forall in H. apply list_elem_of_In, H, negb_true_iff in He. by apply Z.eqb_neq.
Qed.
End SimBpredExample.

Lemma sim_bpred_agrees_witness : exists q,
  sim_bpred_main (H := example_env) ex_upd 0 5 (mk_bpred_sim SimBpredExample.started 0 (Some SimBpredExample.predictor) 0) = Ok q
  /\ sim_num_branches q = 2 /\ exists p', pred q = Some p' /\ lookups p' = 2 /\ dir_hits p' + misses p' = 2.
Proof.
  destruct SimBpredExample.bpred_started_runs as [s Hs]. destruct SimBpredExample.predictor_created as [Hp Hc].
  destruct (sim_bpred_agrees (E := example_env) ex_upd 0 SimBpredExample.options SimBpredExample.predictor 5 SimBpredExample.started s 0
    SimBpredExample.options_ok Hp ltac:(by rewrite Hc) ltac:(by rewrite Hc) example_regs_ok SimBpredExample.text_pages eq_refl Hs) as (evs & Hevs & _ & H).
  destruct (H (fun e => SimBpredExample.executed_nonzero evs e Hevs)) as (q & bs & p' & l & Hq & _ & Hbs & _ & Hp' & _ & Hn & Hl & Hd & _).
  assert (match SimBpredExample.executed with Ok evs => length (filter (fun e => is_ctrl (ev_op e) = true) evs) | _ => 0%nat end = 2%nat) as Hlen
    by (vm_compute; reflexivity).
  change (SimBpredExample.executed = Ok evs) in Hevs. rewrite Hevs in Hlen. apply Forall2_length in Hbs. rewrite Hlen in Hbs. rewrite <- Hbs in Hn.
  exists q. split; [exact Hq|]. split; [exact Hn|]. exists p'. split; [exact Hp'|]. rewrite Hn in Hl, Hd. split; [exact Hl|exact Hd].
Defined.
