(* ===== verification/Profile.v ===== *)
(** sim-profile.c: the functional simulator with profiling.

    Its macros are those of sim-safe.c, so that instructions are executed on the
    machine of sim-safe; after each of them the profiles get their samples.  The
    profiles are distributions of a database of statistics, whose variables
    include the counters of the simulator.  The symbols are given by what has been
    read of the executable.  The debugger is inactive. *)

From Stdlib Require Import String.
From S2P Require Import Prelude Misc Memory Isa Exec Funsim Eval Strto Options Symbol Range Stats.

(** The profiling options. *)
Record prof_opts := mk_prof_opts {
  prof_ic : bool; prof_inst : bool; prof_bc : bool; prof_am : bool; prof_seg : bool;
  prof_tsyms : bool; prof_dsyms : bool; prof_taddr : bool;
  pcstat_vars : list (list Z);
}.

(** [sim_check_options]: -all enables the others. *)
Definition sim_check_options (prof_all : bool) (o : prof_opts) : prof_opts :=
  if prof_all then mk_prof_opts true true true true true true true true (pcstat_vars o) else o.

(** * Classes *)

Inductive inst_class_t := ic_load | ic_store | ic_uncond | ic_cond | ic_icomp | ic_fcomp | ic_trap.
Inductive branch_class_t := bc_uncond_dir | bc_cond_dir | bc_call_dir | bc_uncond_indir | bc_cond_indir | bc_call_indir.
Inductive addr_mode_t := am_imm | am_gp | am_sp | am_fp | am_disp | am_rr.
Inductive addr_seg_t := seg_data | seg_heap | seg_stack.

Definition ic_val (ic : inst_class_t) : Z :=
  match ic with ic_load => 0 | ic_store => 1 | ic_uncond => 2 | ic_cond => 3 | ic_icomp => 4 | ic_fcomp => 5 | ic_trap => 6 end.
Definition bc_val (bc : branch_class_t) : Z :=
  match bc with bc_uncond_dir => 0 | bc_cond_dir => 1 | bc_call_dir => 2 | bc_uncond_indir => 3 | bc_cond_indir => 4 | bc_call_indir => 5 end.
Definition am_val (am : addr_mode_t) : Z :=
  match am with am_imm => 0 | am_gp => 1 | am_sp => 2 | am_fp => 3 | am_disp => 4 | am_rr => 5 end.
Definition seg_val (s : addr_seg_t) : Z := match s with seg_data => 0 | seg_heap => 1 | seg_stack => 2 end.

Definition ic_NUM : Z := 7.
Definition bc_NUM : Z := 6.
Definition am_NUM : Z := 6.
Definition seg_NUM : Z := 3.

Definition inst_class (flags : Z) : outcome inst_class_t :=
  if truth (Z.land flags F_LOAD) then Ok ic_load
  else if truth (Z.land flags F_STORE) then Ok ic_store
  else if truth (Z.land flags F_UNCOND) then Ok ic_uncond
  else if truth (Z.land flags F_COND) then Ok ic_cond
  else if truth (Z.land flags F_ICOMP) then Ok ic_icomp
  else if truth (Z.land flags F_FCOMP) then Ok ic_fcomp
  else if truth (Z.land flags F_TRAP) then Ok ic_trap
  else Panic.

(** [(flags & (F|G)) == (F|G)]. *)
Definition has_both (flags f g : Z) : bool := Z.land flags (Z.lor f g) =? Z.lor f g.

Definition branch_class (flags : Z) : outcome branch_class_t :=
  if has_both flags F_CALL F_DIRJMP then Ok bc_call_dir
  else if has_both flags F_CALL F_INDIRJMP then Ok bc_call_indir
  else if has_both flags F_UNCOND F_DIRJMP then Ok bc_uncond_dir
  else if has_both flags F_UNCOND F_INDIRJMP then Ok bc_uncond_indir
  else if has_both flags F_COND F_DIRJMP then Ok bc_cond_dir
  else if has_both flags F_COND F_INDIRJMP then Ok bc_cond_indir
  else Panic.

(** ss.h. *)
Definition Rgp : Z := 28.
Definition Rsp : Z := 29.
Definition Rfp : Z := 30.

(** The number of opcodes and NA. *)
Definition OP_MAX : Z := Z.of_nat (length ss_opcodes).

Section Profile.
Context `{E : SimEnv} {sort : Qsort}.

Definition bind_to_seg (addr : Z) (m : mem_state) : outcome addr_seg_t :=
  let data_end := u32 (ld_data_base env_ld + ld_data_size env_ld) in
  if (ld_data_base env_ld <=? addr) && (addr <? data_end) then Ok seg_data
  else if (data_end <=? addr) && (addr <? mem_brk_point m) then Ok seg_heap
  else if (mem_stack_min m <=? addr) && (addr <? SS_STACK_BASE) then Ok seg_stack
  else Panic.

(** The addressing mode of a load or store with the base register [BS]. *)
Definition addr_mode (flags BS addr imm_reg : Z) (m : mem_state) : outcome addr_mode_t :=
  if truth (Z.land flags F_DISP) then
    if BS =? imm_reg then Ok am_imm
    else if BS =? Rgp then Ok am_gp
    else if BS =? Rsp then Ok am_sp
    else if BS =? Rfp then seg ← bind_to_seg addr m; Ok (match seg with seg_stack => am_fp | _ => am_disp end)
    else Ok am_disp
  else if truth (Z.land flags F_RR) then Ok am_rr
  else Panic.

(** * Registration *)

(** The distributions of the profiles, NULL until they are registered, and for
    each statistic profiled by address its last value and its distribution. *)
Record profiles := mk_profiles {
  ic_prof : option nat; inst_prof : option nat; bc_prof : option nat; am_prof : option nat; seg_prof : option nat;
  tsym_prof : option nat; dsym_prof : option nat; taddr_prof : option nat;
  pcstats : list (nat * Z * nat);
}.

(** The counters of the simulator among the variables of the host. *)
Record prof_vars := mk_prof_vars { v_num_insn : var_ptr; v_num_refs : var_ptr; v_elapsed_time : var_ptr }.

Definition reg_if (b : bool) (reg : stat_sdb_t -> nat * stat_sdb_t) (db : stat_sdb_t) : option nat * stat_sdb_t :=
  if b then let '(st, db) := reg db in (Some st, db) else (None, db).

(** STATVAL of a statistic: its variable, if it is an integer. *)
Definition STATVAL (st : nat) (db : stat_sdb_t) : outcome Z :=
  s ← deref (stats db !! st);
  match variant s with
  | for_int var _ | for_uint var _ | for_llong var _ => deref (vars db !! var)
  | _ => Panic
  end.

(** The position of the statistic of a name. *)
Fixpoint stat_position (stats : list stat_stat_t) (name : list Z) : option nat :=
  match stats with
  | [] => None
  | s :: stats => if bool_decide (stat_name s = name) then Some O else S <$> stat_position stats name
  end.

Fixpoint reg_pcstats (vars : list (list Z)) (db : stat_sdb_t) : outcome (list (nat * Z * nat) * stat_sdb_t) :=
  match vars with
  | [] => Ok ([], db)
  | v :: vars =>
      st ← match stat_position (stats db) v with Some st => Ok st | None => Fatal end;
      s ← deref (stats db !! st);
      _ ← fatal_if (match class_of (variant s) with sc_int | sc_uint | sc_llong => false | _ => true end);
      last ← STATVAL st db;
      let '(sd, db) := stat_reg_sdist (stat_name s ++ str "_by_pc") (desc s ++ str " (by text address)") 0 db in
      '(l, db) ← reg_pcstats vars db;
      Ok ((st, last, sd) :: l, db)
  end.

Definition load_symbols (file : sym_file) (y : symbols) : outcome symbols :=
  sym_loadsyms (f_symhdr file) (f_strtab file) (f_extr file) (f_text_end file) (f_data_end file) y.

Definition sim_reg_stats (v : prof_vars) (o : prof_opts) (file : sym_file) (y : symbols) (db : stat_sdb_t)
    : outcome (profiles * symbols * stat_sdb_t) :=
  '(_, db) ← stat_reg_llong (str "sim_num_insn") (str "total number of instructions executed") (v_num_insn v) 0 db;
  '(_, db) ← stat_reg_llong (str "sim_num_refs") (str "total number of loads and stores executed") (v_num_refs v) 0 db;
  '(_, db) ← stat_reg_int (str "sim_elapsed_time") (str "total simulation time in seconds") (v_elapsed_time v) 0 db;
  let '(_, db) := stat_reg_formula (str "sim_inst_rate") (str "simulation speed (in insts/sec)") (str "sim_num_insn / sim_elapsed_time") db in
  let '(ic, db) := reg_if (prof_ic o) (stat_reg_dist (str "sim_inst_class_prof") (str "instruction class profile") 0 ic_NUM 1) db in
  let '(ip, db) := reg_if (prof_inst o) (stat_reg_dist (str "sim_inst_prof") (str "instruction profile") 0 (OP_MAX - 1) 1) db in
  let '(bc, db) := reg_if (prof_bc o) (stat_reg_dist (str "sim_branch_prof") (str "branch instruction profile") 0 bc_NUM 1) db in
  let '(am, db) := reg_if (prof_am o) (stat_reg_dist (str "sim_addr_mode_prof") (str "addressing mode profile") 0 am_NUM 1) db in
  let '(sg, db) := reg_if (prof_seg o) (stat_reg_dist (str "sim_addr_seg_prof") (str "load/store address segment profile") 0 seg_NUM 1) db in
  y ← (if prof_tsyms o then load_symbols file y else Ok y);
  let '(ts, db) := reg_if (prof_tsyms o) (stat_reg_dist (str "sim_text_sym_prof") (str "text symbol profile") 0 (sym_ntextsyms y) 1) db in
  y ← (if prof_dsyms o then load_symbols file y else Ok y);
  let '(ds, db) := reg_if (prof_dsyms o) (stat_reg_dist (str "sim_data_sym_prof") (str "data symbol profile") 0 (sym_ndatasyms y) 1) db in
  let '(ta, db) := reg_if (prof_taddr o) (stat_reg_sdist (str "sim_text_addr_prof") (str "text address profile") 0) db in
  '(pc, db) ← reg_pcstats (pcstat_vars o) db;
  Ok (mk_profiles ic ip bc am sg ts ds ta pc, y, db).

(** * Profiling an instruction *)

Record prof_state := mk_prof {
  p_safe : safe_state;
  p_db : stat_sdb_t;
  p_prof : profiles;
  p_syms : symbols;
  imm_reg : Z;  (* the destination of the last LUI *)
}.
#[global] Instance eta_prof_state : Eta prof_state := mk_eta (fun p =>
  mk_prof (p_safe p) (p_db p) (p_prof p) (p_syms p) (imm_reg p)).

(** A sample for a profile. *)
Definition sample (st : option nat) (index : Z) (p : prof_state) : outcome prof_state :=
  st ← deref st; db ← stat_add_sample st index (p_db p); Ok (p <| p_db := db |>).

Definition mem_insn (flags : Z) : bool := truth (Z.land flags F_MEM).

Definition profile_class (flags : Z) (p : prof_state) : outcome prof_state :=
  ic ← inst_class flags; sample (ic_prof (p_prof p)) (ic_val ic) p.

Definition profile_inst (op : ss_opcode) (p : prof_state) : outcome prof_state :=
  sample (inst_prof (p_prof p)) (ss_opcode_val op - 1) p.

Definition profile_branch (flags : Z) (p : prof_state) : outcome prof_state :=
  if truth (Z.land flags F_CTRL) then bc ← branch_class flags; sample (bc_prof (p_prof p)) (bc_val bc) p else Ok p.

Definition profile_mode (op : ss_opcode) (inst : ss_inst) (flags : Z) (p : prof_state) : outcome prof_state :=
  let p := if bool_decide (op = LUI) then p <| imm_reg := RT inst |> else p in
  if mem_insn flags then
    am ← addr_mode flags (RS inst) (s_addr (p_safe p)) (imm_reg p) (s_mem (p_safe p));
    p ← sample (am_prof (p_prof p)) (am_val am) p;
    Ok (p <| imm_reg := 0 |>)
  else Ok p.

Definition profile_seg (flags : Z) (p : prof_state) : outcome prof_state :=
  if mem_insn flags then
    seg ← bind_to_seg (s_addr (p_safe p)) (s_mem (p_safe p)); sample (seg_prof (p_prof p)) (seg_val seg) p
  else Ok p.

(** The symbol that an address is bound to, if any. *)
Definition profile_sym (db : sym_db_t) (nsyms : Z) (addr : Z) (st : option nat) (p : prof_state) : outcome prof_state :=
  '(_, index) ← sym_bind_addr addr false db (p_syms p);
  if 0 <=? index then if nsyms <? index then Panic else sample st index p else Ok p.

Definition profile_tsym (p : prof_state) : outcome prof_state :=
  profile_sym sdb_text (sym_ntextsyms (p_syms p)) (regs_PC (s_regs (p_safe p))) (tsym_prof (p_prof p)) p.

Definition profile_dsym (flags : Z) (p : prof_state) : outcome prof_state :=
  if mem_insn flags then profile_sym sdb_data (sym_ndatasyms (p_syms p)) (s_addr (p_safe p)) (dsym_prof (p_prof p)) p else Ok p.

Definition profile_taddr (p : prof_state) : outcome prof_state := sample (taddr_prof (p_prof p)) (regs_PC (s_regs (p_safe p))) p.

(** The statistics profiled by address: the differences, as ints. *)
Fixpoint profile_pcstats (pc : Z) (l : list (nat * Z * nat)) (db : stat_sdb_t) : outcome (list (nat * Z * nat) * stat_sdb_t) :=
  match l with
  | [] => Ok ([], db)
  | (st, last, sd) :: l =>
      newval ← STATVAL st db;
      let delta := s32 (newval - last) in
      '(last, db) ← (if delta =? 0 then Ok (last, db) else db ← stat_add_samples sd pc delta db; Ok (newval, db));
      '(l, db) ← profile_pcstats pc l db;
      Ok ((st, last, sd) :: l, db)
  end.

Definition profile_if (b : bool) (f : prof_state -> outcome prof_state) (p : prof_state) : outcome prof_state := if b then f p else Ok p.

(** The counters are variables of the host. *)
Definition publish (v : prof_vars) (p : prof_state) : prof_state :=
  p <| p_db ::= set_field vars (fun m => <[v_num_refs v := s_num_refs (p_safe p)]> (<[v_num_insn v := s_num_insn (p_safe p)]> m)) |>.

Definition profile_insn (o : prof_opts) (op : ss_opcode) (inst : ss_inst) (p : prof_state) : outcome prof_state :=
  let flags := SS_OP_FLAGS op in
  p ← profile_if (prof_ic o) (profile_class flags) p;
  p ← profile_if (prof_inst o) (profile_inst op) p;
  p ← profile_if (prof_bc o) (profile_branch flags) p;
  p ← profile_if (prof_am o) (profile_mode op inst flags) p;
  p ← profile_if (prof_seg o) (profile_seg flags) p;
  p ← profile_if (prof_tsyms o) profile_tsym p;
  p ← profile_if (prof_dsyms o) (profile_dsym flags) p;
  p ← profile_if (prof_taddr o) profile_taddr p;
  '(l, db) ← profile_pcstats (regs_PC (s_regs (p_safe p))) (pcstats (p_prof p)) (p_db p);
  Ok (p <| p_db := db |> <| p_prof ::= fun q =>
        mk_profiles (ic_prof q) (inst_prof q) (bc_prof q) (am_prof q) (seg_prof q) (tsym_prof q) (dsym_prof q) (taddr_prof q) l |>).

(** The body of the loop of [sim_main]. *)
Definition sim_profile_step `{HostFP} (v : prof_vars) (o : prof_opts) (p : prof_state) : outcome prof_state :=
  s ← safe_SET_GPR 0 0 (p_safe p);
  let s := s <| s_num_insn ::= Z.add 1 |> in
  inst ← fetch_inst (regs_PC (s_regs s)) (s_mem s);
  let s := s <| s_addr := 0 |> <| s_is_write := false |> in
  op ← (match opcode_of_val (SS_OPCODE inst) with Some op => Ok op | None => Panic end);
  s ← execute env_cfg op inst s;
  let s := if mem_insn (SS_OP_FLAGS op)
           then s <| s_num_refs ::= Z.add 1 |> <| s_is_write ::= orb (truth (Z.land (SS_OP_FLAGS op) F_STORE)) |>
           else s in
  p ← profile_insn o op inst (publish v (p <| p_safe := s |>));
  Ok (p <| p_safe ::= fun s =>
        s <| s_regs ::= set_field regs_PC (fun _ => s_next_PC s) |> <| s_next_PC ::= fun pc => u32 (pc + SS_INST_SIZE) |> |>).

Fixpoint sim_profile_run `{HostFP} (v : prof_vars) (o : prof_opts) (n : nat) (p : prof_state) : outcome prof_state :=
  match n with O => Ok p | S n' => p ← sim_profile_step v o p; sim_profile_run v o n' p end.

(** [sim_init]: the counters, the entry point, and the decoded text segment. *)
Definition sim_profile_init (swap : Z -> Z) (ld_prog_entry : Z) (tab : list ss_opcode) (fuel : nat) (s : safe_state) : outcome safe_state :=
  m ← predecode_loop swap tab fuel (ld_text_base env_ld) (s_mem s);
  Ok (s <| s_num_insn := 0 |> <| s_num_refs := 0 |> <| s_regs ::= set_field regs_PC (fun _ => ld_prog_entry) |> <| s_mem := m |>).

(** [sim_main] before its loop; [imm_reg] is static. *)
Definition sim_profile_main (s : safe_state) : safe_state := s <| s_next_PC := u32 (regs_PC (s_regs s) + SS_INST_SIZE) |>.

End Profile.
