(* ===== verification/ProfileProps.v ===== *)
(** The profiling simulator: it executes what sim-safe executes, and its profiles
    count the instructions by class, opcode, kind of branch, addressing mode,
    segment, symbol and address. *)

From Stdlib Require Import String.
From S2P Require Import Prelude Misc Memory Isa Exec Funsim FunsimProps Eval Strto Options Symbol SymbolProps Range Stats StatsProps Profile.

(** * Counting samples *)

Definition times (i : Z) (l : list Z) : Z := Z.of_nat (length (filter (fun j => j = i) l)).

Lemma times_snoc (i j : Z) (l : list Z) : times i (l ++ [j]) = times i l + (if decide (j = i) then 1 else 0).
Proof. unfold times. rewrite filter_app, length_app, filter_cons, filter_nil. destruct (decide (j = i)); cbn; lia. Qed.

Lemma times_none (i : Z) (l : list Z) : i ∉ l -> times i l = 0.
Proof.
  unfold times. induction l as [|j l IH]; [done|]. intros [Hne Hl]%not_elem_of_cons. rewrite filter_cons_False by congruence. by apply IH.
Qed.

(** An array distribution of [n] buckets counts the samples. *)
Definition counts (st : nat) (n : Z) (l : list Z) (db : stat_sdb_t) : Prop :=
  exists name desc d, stats db !! st = Some (mk_stat name desc (for_dist d)) /\ arr_sz d = n /\ bucket_sz d = 1
    /\ length (arr d) = Z.to_nat n /\ overflows d = 0
    /\ forall i, (i < Z.to_nat n)%nat -> arr d !! i = Some (u32 (times (Z.of_nat i) l)).

(** A sparse distribution has a bucket for each index sampled. *)
Definition counts_sparse (st : nat) (l : list Z) (db : stat_sdb_t) : Prop :=
  exists name desc d m, stats db !! st = Some (mk_stat name desc (for_sdist d)) /\ sdist_init d = 0 /\ sdist_shows d m
    /\ forall i, m !! i = if bool_decide (i ∈ l) then Some (u32 (times i l)) else None.

Lemma counts_add (st : nat) (n i : Z) (l : list Z) (db : stat_sdb_t) : counts st n l db -> 0 <= i < n ->
  exists db', stat_add_sample st i db = Ok db' /\ counts st n (l ++ [i]) db' /\ only_stat st db db'.
Proof.
  intros (name & desc & d & Hs & Hn & Hb & Hl & Ho & Hc) Hi. unfold stat_add_sample, stat_add_samples. rewrite Hs.
  cbn [deref mbind outcome_bind variant]. unfold dist_add. rewrite Hb, Hn. cbn [Z.eqb]. rewrite Z.div_1_r.
  rewrite (proj2 (Z.leb_gt _ _)) by lia. rewrite (c_upd_insert _ _ _ _ (Hc (Z.to_nat i) ltac:(lia))). cbn [mbind outcome_bind].
  set (d' := mk_dist _ _ _ _ _). destruct (lookup_stat_insert st _ (mk_stat name desc (for_dist d')) db Hs) as [Hs' Honly].
  eexists. split; [reflexivity|]. split; [|exact Honly]. exists name, desc, d'. split; [exact Hs'|]. unfold d'. cbn [arr_sz bucket_sz arr overflows].
  split_and!; [done|done|by rewrite length_insert|done|]. intros j Hj. rewrite times_snoc. destruct (decide (i = Z.of_nat j)) as [->|Hne].
  - rewrite Nat2Z.id, list_lookup_insert_eq by (rewrite Hl; done). f_equal. by rewrite u32_add_l.
  - rewrite list_lookup_insert_ne by lia. rewrite Z.add_0_r. by apply Hc.
Qed.

Lemma counts_sparse_add (st : nat) (i : Z) (l : list Z) (db : stat_sdb_t) : counts_sparse st l db -> 0 <= i ->
  exists db', stat_add_sample st i db = Ok db' /\ counts_sparse st (l ++ [i]) db' /\ only_stat st db db'.
Proof.
  intros (name & desc & d & m & Hs & Hz & Hd & Hm) Hi. destruct (sdist_add_shows i 1 d m Hd Hi) as (d' & Hadd & Hd' & Hz').
  unfold stat_add_sample, stat_add_samples. rewrite Hs. cbn [deref mbind outcome_bind variant]. rewrite Hadd. cbn [mbind outcome_bind].
  destruct (lookup_stat_insert st _ (mk_stat name desc (for_sdist d')) db Hs) as [Hs' Honly].
  eexists. split; [reflexivity|]. split; [|exact Honly]. exists name, desc, d', (count_sample (sdist_init d) m (i, 1)).
  split_and!; [exact Hs'|congruence|done|]. intros j. unfold count_sample. cbn [fst snd]. rewrite Hz, times_snoc.
  destruct (decide (i = j)) as [->|Hne].
  - rewrite lookup_insert_eq, bool_decide_eq_true_2 by set_solver. rewrite Hm. case_bool_decide as Hj; cbn.
    + by rewrite u32_add_l.
    + by rewrite times_none.
  - rewrite lookup_insert_ne, Hm by done. rewrite Z.add_0_r. erewrite bool_decide_ext; [reflexivity|]. set_solver.
Qed.

Lemma counts_frame (st st' : nat) (n : Z) (l : list Z) (db db' : stat_sdb_t) : only_stat st' db db' -> st <> st' ->
  counts st n l db -> counts st n l db'.
Proof. intros [_ Hj] Hne (name & desc & d & Hs & H). exists name, desc, d. by rewrite Hj. Qed.

Lemma counts_sparse_frame (st st' : nat) (l : list Z) (db db' : stat_sdb_t) : only_stat st' db db' -> st <> st' ->
  counts_sparse st l db -> counts_sparse st l db'.
Proof. intros [_ Hj] Hne (name & desc & d & m & Hs & H). exists name, desc, d, m. by rewrite Hj. Qed.

(** * The profiles *)

Inductive slot := S_ic | S_inst | S_bc | S_am | S_seg | S_tsym | S_dsym | S_taddr.

#[global] Instance slot_eq_dec : EqDecision slot.
Proof. solve_decision. Defined.

Definition slot_stat (q : profiles) (k : slot) : option nat :=
  match k with
  | S_ic => ic_prof q | S_inst => inst_prof q | S_bc => bc_prof q | S_am => am_prof q | S_seg => seg_prof q
  | S_tsym => tsym_prof q | S_dsym => dsym_prof q | S_taddr => taddr_prof q
  end.

Definition slot_on (o : prof_opts) (k : slot) : bool :=
  match k with
  | S_ic => prof_ic o | S_inst => prof_inst o | S_bc => prof_bc o | S_am => prof_am o | S_seg => prof_seg o
  | S_tsym => prof_tsyms o | S_dsym => prof_dsyms o | S_taddr => prof_taddr o
  end.

(** The number of classes; the profile by address is sparse. *)
Definition slot_size (y : symbols) (k : slot) : option Z :=
  match k with
  | S_ic => Some ic_NUM | S_inst => Some (OP_MAX - 1) | S_bc => Some bc_NUM | S_am => Some am_NUM | S_seg => Some seg_NUM
  | S_tsym => Some (sym_ntextsyms y) | S_dsym => Some (sym_ndatasyms y) | S_taddr => None
  end.

Definition slot_counts (y : symbols) (k : slot) (st : nat) (l : list Z) (db : stat_sdb_t) : Prop :=
  match slot_size y k with Some n => counts st n l db | None => counts_sparse st l db end.

Definition slot_index (y : symbols) (k : slot) (i : Z) : Prop := 0 <= i /\ match slot_size y k with Some n => i < n | None => True end.

Lemma slot_add (y : symbols) (k : slot) (st : nat) (l : list Z) (i : Z) (db : stat_sdb_t) : slot_counts y k st l db -> slot_index y k i ->
  exists db', stat_add_sample st i db = Ok db' /\ slot_counts y k st (l ++ [i]) db' /\ only_stat st db db'.
Proof.
  unfold slot_counts, slot_index. destruct (slot_size y k) as [n|]; intros Hc [H0 Hn]; [by apply counts_add|by apply counts_sparse_add].
Qed.

Lemma slot_frame (y : symbols) (k : slot) (st st' : nat) (l : list Z) (db db' : stat_sdb_t) : only_stat st' db db' -> st <> st' ->
  slot_counts y k st l db -> slot_counts y k st l db'.
Proof. unfold slot_counts. destruct (slot_size y k); [apply counts_frame|apply counts_sparse_frame]. Qed.

(** The profiles that are on have counted the samples [ls]. *)
Definition profiled (o : prof_opts) (y : symbols) (q : profiles) (ls : slot -> list Z) (db : stat_sdb_t) : Prop :=
  (forall k, slot_on o k = true -> exists st, slot_stat q k = Some st /\ slot_counts y k st (ls k) db)
  /\ forall k k' st, slot_stat q k = Some st -> slot_stat q k' = Some st -> k = k'.

Definition add_to (k : slot) (new : list Z) (ls : slot -> list Z) : slot -> list Z := fun k' => if decide (k = k') then ls k' ++ new else ls k'.

Lemma profiled_ext (o : prof_opts) (y : symbols) (q : profiles) (ls ls' : slot -> list Z) (db : stat_sdb_t) :
  (forall k, slot_on o k = true -> ls k = ls' k) -> profiled o y q ls db -> profiled o y q ls' db.
Proof. intros Heq [Hc Hi]. split; [|done]. intros k Hk. rewrite <- Heq by done. by apply Hc. Qed.

Lemma profiled_add (o : prof_opts) (y : symbols) (q : profiles) (ls : slot -> list Z) (k : slot) (i : Z) (db : stat_sdb_t) :
  profiled o y q ls db -> slot_on o k = true -> slot_index y k i ->
  exists st db', slot_stat q k = Some st /\ stat_add_sample st i db = Ok db' /\ profiled o y q (add_to k [i] ls) db'.
Proof.
  intros [Hc Hinj] Hk Hi. destruct (Hc k Hk) as (st & Hst & Hcount). destruct (slot_add y k st (ls k) i db Hcount Hi) as (db' & Hadd & Hnew & Honly).
  exists st, db'. split; [done|]. split; [done|]. split; [|done]. intros k' Hk'. unfold add_to. destruct (decide (k = k')) as [<-|Hne].
  - by exists st.
  - destruct (Hc k' Hk') as (st' & Hst' & Hcount'). exists st'. split; [done|]. apply (slot_frame y k' st' st _ db); [done| |done].
    intros ->. apply Hne. by apply (Hinj k k' st).
Qed.

(** * The samples of an instruction *)

(** The value of a class that is defined. *)
Definition sample_if {A : Type} (b : bool) (f : A -> Z) (c : outcome A) : list Z := if b then match c with Ok a => [f a] | _ => [] end else [].

Section Samples.
Context `{E : SimEnv} {sort : Qsort}.
Variable y : symbols.

(** The last LUI, forgotten at a load or store. *)
Definition lui_imm (imm : Z) (e : insn_event) : Z := if bool_decide (ev_op e = LUI) then RT (ev_inst e) else imm.
Definition next_imm (imm : Z) (e : insn_event) : Z := if mem_insn (ev_flags e) then 0 else lui_imm imm e.

(** The index of the symbol at an address. *)
Definition sym_index (db : sym_db_t) (addr : Z) : list Z :=
  match sym_bind_addr addr false db y with Ok (_, i) => if 0 <=? i then [i] else [] | _ => [] end.

Definition sample_of (k : slot) (imm : Z) (e : insn_event) : list Z :=
  let f := ev_flags e in
  let s := ev_state e in
  match k with
  | S_ic => sample_if true ic_val (inst_class f)
  | S_inst => [ss_opcode_val (ev_op e) - 1]
  | S_bc => sample_if (truth (Z.land f F_CTRL)) bc_val (branch_class f)
  | S_am => sample_if (mem_insn f) am_val (addr_mode f (RS (ev_inst e)) (s_addr s) (lui_imm imm e) (s_mem s))
  | S_seg => sample_if (mem_insn f) seg_val (bind_to_seg (s_addr s) (s_mem s))
  | S_tsym => sym_index sdb_text (ev_PC e)
  | S_dsym => if mem_insn f then sym_index sdb_data (s_addr s) else []
  | S_taddr => [ev_PC e]
  end.

(** The samples of a run. *)
Fixpoint samples (k : slot) (imm : Z) (evs : list insn_event) : list Z :=
  match evs with [] => [] | e :: evs => sample_of k imm e ++ samples k (next_imm imm e) evs end.

(** * No panics *)

Lemma inst_class_total (op : ss_opcode) : op <> OP_NA -> exists ic, inst_class (SS_OP_FLAGS op) = Ok ic.
Proof. by destruct op; try done; eexists. Qed.

Lemma branch_class_total (op : ss_opcode) : truth (Z.land (SS_OP_FLAGS op) F_CTRL) = true -> exists bc, branch_class (SS_OP_FLAGS op) = Ok bc.
Proof. by destruct op; try done; eexists. Qed.

Lemma mem_mode (op : ss_opcode) : mem_insn (SS_OP_FLAGS op) = true ->
  truth (Z.land (SS_OP_FLAGS op) F_DISP) = true \/ truth (Z.land (SS_OP_FLAGS op) F_RR) = true.
Proof. by destruct op; auto. Qed.

Lemma opcode_val_range (op : ss_opcode) : op <> OP_NA -> 1 <= ss_opcode_val op < OP_MAX.
Proof. by destruct op; try done; vm_compute. Qed.

(** A load or store refers to a segment. *)
Definition bindable (e : insn_event) : Prop :=
  mem_insn (ev_flags e) = true -> exists seg, bind_to_seg (s_addr (ev_state e)) (s_mem (ev_state e)) = Ok seg.

Lemma addr_mode_total (op : ss_opcode) (BS addr imm : Z) (m : mem_state) : mem_insn (SS_OP_FLAGS op) = true ->
  (exists seg, bind_to_seg addr m = Ok seg) -> exists am, addr_mode (SS_OP_FLAGS op) BS addr imm m = Ok am.
Proof.
  intros Hm [seg Hs]. unfold addr_mode. rewrite Hs. cbn [mbind outcome_bind]. destruct (mem_mode op Hm) as [->| ->].
  - destruct (BS =? imm), (BS =? Rgp), (BS =? Rsp), (BS =? Rfp); by eexists.
  - destruct (truth _), (BS =? imm), (BS =? Rgp), (BS =? Rsp), (BS =? Rfp); by eexists.
Qed.

(** The symbol arrays are those of loaded symbols. *)
Definition syms_valid : Prop := forall db, db <> sdb_any ->
  let '(l, _, n) := db_syms db y in
  n = Z.of_nat (length l) /\ forall i, (i < length l)%nat -> exists p s, nth_sym y l i p s.

(** A search ends with an index in the array, or -1. *)
Lemma bind_loop_ends (syms : list sym_ptr) (cmp : sym_sym_t -> Z) (fuel : nat) (low high : Z) :
  (forall i, (i < length syms)%nat -> exists p s, nth_sym y syms i p s) ->
  0 <= low -> high < Z.of_nat (length syms) -> low <= high -> high - low < Z.of_nat fuel ->
  exists r i, bind_loop fuel syms cmp y low high (Z.shiftr (low + high) 1) = Ok (r, i) /\ -1 <= i < Z.of_nat (length syms).
Proof.
  intros Hall. revert low high. induction fuel as [|fuel IH]; intros low high Hl Hh Hlh Hf; [lia|].
  pose proof (shiftr_middle low high Hlh) as Hm. destruct (sym_at_nth y syms Hall (Z.shiftr (low + high) 1) ltac:(lia)) as (p & s & Hat & _).
  cbn [bind_loop]. rewrite Hat. cbn [mbind outcome_bind]. destruct (cmp s =? 0); [do 2 eexists; split; [reflexivity|lia]|].
  destruct (0 <? cmp s).
  - destruct (low <=? _) eqn:Ec; [apply Z.leb_le in Ec; apply IH; lia|do 2 eexists; split; [reflexivity|lia]].
  - destruct (_ <=? high) eqn:Ec; [apply Z.leb_le in Ec; apply IH; lia|do 2 eexists; split; [reflexivity|lia]].
Qed.

Lemma sym_bind_ends (db : sym_db_t) (addr : Z) : syms_valid -> db <> sdb_any ->
  exists r i, sym_bind_addr addr false db y = Ok (r, i) /\ -1 <= i < Z.max 0 (db_syms db y).2.
Proof.
  intros Hv Hdb. specialize (Hv db Hdb). unfold sym_bind_addr. destruct (db_syms db y) as [[l by_name] n]. destruct Hv as [-> Hall].
  unfold bind_syms. cbn [snd]. destruct (Z.of_nat (length l) =? 0) eqn:En; [do 2 eexists; split; [reflexivity|lia]|apply Z.eqb_neq in En].
  destruct (bind_loop_ends l (addr_cmp addr false) (S (Z.to_nat (Z.of_nat (length l)))) 0 (Z.of_nat (length l) - 1) Hall) as (r & i & Hr & Hi); try lia.
  exists r, i. split; [exact Hr|lia].
Qed.

(** * Every profile *)

(** What is left of a profiling step: the database. *)
Definition stepped (p p' : prof_state) : Prop :=
  p_safe p' = p_safe p /\ p_prof p' = p_prof p /\ p_syms p' = p_syms p.

Section Stages.
Variables (o : prof_opts) (e : insn_event).
Hypothesis Hop : ev_op e <> OP_NA.

Definition at_event (imm : Z) (ls : slot -> list Z) (p : prof_state) : Prop :=
  p_safe p = ev_state e /\ p_syms p = y /\ profiled o y (p_prof p) ls (p_db p) /\ (prof_am o = true -> imm_reg p = imm).

(** A profile that is on adds its samples. *)
Definition stage (k : slot) (imm imm' : Z) (f : prof_state -> outcome prof_state) : Prop :=
  forall ls p, at_event imm ls p ->
  exists p', profile_if (slot_on o k) f p = Ok p' /\ p_prof p' = p_prof p /\ at_event imm' (add_to k (sample_of k imm e) ls) p'.

Lemma stage_off (k : slot) (imm imm' : Z) f : slot_on o k = false -> (k = S_am \/ imm' = imm) -> stage k imm imm' f.
Proof.
  intros Hoff Hi ls p (Hs & Hy & Hp & Him). exists p. unfold profile_if. rewrite Hoff. split; [done|]. split; [done|]. split; [done|]. split; [done|].
  split.
  - apply (profiled_ext o y _ ls); [|done]. intros k' Hk'. unfold add_to. rewrite decide_False; [done|]. intros ->. congruence.
  - intros Ham. destruct Hi as [->| ->]; [cbn in Hoff; congruence|by apply Him].
Qed.

Lemma at_event_imm (imm : Z) (ls : slot -> list Z) (p : prof_state) (i : Z) : at_event imm ls p -> at_event i ls (p <| imm_reg := i |>).
Proof. intros (Hs & Hy & Hp & _). done. Qed.

Lemma sample_ok (k : slot) (imm i : Z) (ls : slot -> list Z) (p : prof_state) : at_event imm ls p -> slot_on o k = true -> slot_index y k i ->
  exists p', sample (slot_stat (p_prof p) k) i p = Ok p' /\ p_prof p' = p_prof p /\ imm_reg p' = imm_reg p /\ at_event imm (add_to k [i] ls) p'.
Proof.
  intros (Hs & Hy & Hp & Him) Hk Hi. destruct (profiled_add o y _ ls k i _ Hp Hk Hi) as (st & db' & Hst & Hadd & Hp').
  exists (p <| p_db := db' |>). unfold sample. rewrite Hst. cbn [deref mbind outcome_bind]. by rewrite Hadd.
Qed.

(** No sample. *)
Lemma no_sample (k : slot) (imm : Z) (ls : slot -> list Z) (p : prof_state) : at_event imm ls p -> at_event imm (add_to k [] ls) p.
Proof.
  intros (Hs & Hy & Hp & Him). split; [done|]. split; [done|]. split; [|done]. apply (profiled_ext o y _ ls); [|done].
  intros k' _. unfold add_to. destruct (decide _); [by rewrite app_nil_r|done].
Qed.

Ltac on_off k := destruct (slot_on o k) eqn:Hon; [intros ls p Hat; cbn [slot_on] in Hon; unfold profile_if; cbn [slot_on]; rewrite Hon|apply stage_off; auto].

Lemma class_stage (imm : Z) : stage S_ic imm imm (profile_class (ev_flags e)).
Proof.
  on_off S_ic. unfold profile_class. cbn [sample_of]. destruct (inst_class_total (ev_op e) Hop) as [ic Hic]. unfold ev_flags. rewrite Hic.
  destruct (sample_ok S_ic imm (ic_val ic) ls p Hat Hon) as (p' & Hr & Hq & _ & Hp'); [by destruct ic|]. by exists p'.
Qed.

Lemma inst_stage (imm : Z) : stage S_inst imm imm (profile_inst (ev_op e)).
Proof.
  on_off S_inst. pose proof (opcode_val_range _ Hop).
  destruct (sample_ok S_inst imm (ss_opcode_val (ev_op e) - 1) ls p Hat Hon) as (p' & Hr & Hq & _ & Hp'); [split; cbn; lia|]. by exists p'.
Qed.

Lemma branch_stage (imm : Z) : stage S_bc imm imm (profile_branch (ev_flags e)).
Proof.
  on_off S_bc. unfold profile_branch. cbn [sample_of]. destruct (truth (Z.land (ev_flags e) F_CTRL)) eqn:Hc; cbn [sample_if]; [|exists p; eauto using no_sample].
  destruct (branch_class_total _ Hc) as [bc Hbc]. unfold ev_flags. rewrite Hbc.
  destruct (sample_ok S_bc imm (bc_val bc) ls p Hat Hon) as (p' & Hr & Hq & _ & Hp'); [by destruct bc|]. by exists p'.
Qed.

Lemma seg_stage (imm : Z) : (prof_seg o = true -> bindable e) -> stage S_seg imm imm (profile_seg (ev_flags e)).
Proof.
  intros Hb. on_off S_seg. specialize (Hb Hon). unfold profile_seg. cbn [sample_of]. pose proof Hat as (Hs & _). rewrite Hs.
  unfold bindable in Hb. destruct (mem_insn (ev_flags e)); cbn [sample_if]; [|exists p; eauto using no_sample].
  destruct (Hb eq_refl) as [seg ->]. cbn [mbind outcome_bind].
  destruct (sample_ok S_seg imm (seg_val seg) ls p Hat Hon) as (p' & Hr & Hq & _ & Hp'); [by destruct seg|]. by exists p'.
Qed.

Lemma mode_stage (imm : Z) : (prof_am o = true -> bindable e) -> stage S_am imm (next_imm imm e) (profile_mode (ev_op e) (ev_inst e) (ev_flags e)).
Proof.
  intros Hb. on_off S_am. specialize (Hb Hon). unfold profile_mode. cbn [sample_of]. unfold next_imm.
  set (p1 := if bool_decide _ then _ else p).
  assert (at_event (lui_imm imm e) ls p1 /\ imm_reg p1 = lui_imm imm e /\ p_prof p1 = p_prof p) as (Hat1 & Him1 & Hq1).
  { unfold p1, lui_imm. pose proof Hat as (_ & _ & _ & Him). specialize (Him Hon). case_bool_decide; [|by rewrite <- Him in *]. split; [by apply (at_event_imm imm)|done]. }
  clearbody p1. unfold bindable in Hb. destruct (mem_insn (ev_flags e)) eqn:Hm; cbn [sample_if].
  - pose proof Hat1 as (Hs & _). rewrite Hs, Him1.
    destruct (addr_mode_total (ev_op e) (RS (ev_inst e)) (s_addr (ev_state e)) (lui_imm imm e) (s_mem (ev_state e)) Hm (Hb eq_refl)) as [am Ham].
    unfold ev_flags. rewrite Ham. cbn [mbind outcome_bind].
    destruct (sample_ok S_am (lui_imm imm e) (am_val am) ls p1 Hat1 Hon) as (p' & Hr & Hq & _ & Hp'); [by destruct am|].
    cbn [slot_stat] in Hr. rewrite Hr. eexists. split; [reflexivity|]. split; [cbn; congruence|]. by apply (at_event_imm (lui_imm imm e)).
  - exists p1. split; [done|]. split; [done|]. by apply no_sample.
Qed.

Lemma taddr_stage (imm : Z) : 0 <= ev_PC e -> stage S_taddr imm imm profile_taddr.
Proof.
  intros Hpc. on_off S_taddr. unfold profile_taddr. pose proof Hat as (Hs & _). rewrite Hs.
  destruct (sample_ok S_taddr imm (ev_PC e) ls p Hat Hon) as (p' & Hr & Hq & _ & Hp'); [by split|]. by exists p'.
Qed.

Lemma sym_step (k : slot) (db : sym_db_t) (imm addr : Z) (ls : slot -> list Z) (p : prof_state) :
  at_event imm ls p -> slot_on o k = true -> syms_valid -> db <> sdb_any -> slot_size y k = Some (db_syms db y).2 ->
  exists p', profile_sym db (db_syms db y).2 addr (slot_stat (p_prof p) k) p = Ok p' /\ p_prof p' = p_prof p
    /\ at_event imm (add_to k (sym_index db addr) ls) p'.
Proof.
  intros Hat Hon Hv Hdb Hsz. pose proof Hat as (_ & Hy & _). unfold profile_sym, sym_index. rewrite Hy.
  destruct (sym_bind_ends db addr Hv Hdb) as (r & i & -> & Hi). cbn [mbind outcome_bind].
  destruct (0 <=? i) eqn:E0; [apply Z.leb_le in E0|exists p; eauto using no_sample]. rewrite (proj2 (Z.ltb_ge _ _)) by lia.
  destruct (sample_ok k imm i ls p Hat Hon) as (p' & Hr & Hq & _ & Hp'); [unfold slot_index; rewrite Hsz; lia|]. by exists p'.
Qed.

Lemma tsym_stage (imm : Z) : (prof_tsyms o = true -> syms_valid) -> stage S_tsym imm imm profile_tsym.
Proof.
  intros Hv. on_off S_tsym. unfold profile_tsym. pose proof Hat as (Hs & Hy & _). rewrite Hs, Hy.
  by apply (sym_step S_tsym sdb_text imm (ev_PC e) ls p Hat Hon (Hv Hon)).
Qed.

Lemma dsym_stage (imm : Z) : (prof_dsyms o = true -> syms_valid) -> stage S_dsym imm imm (profile_dsym (ev_flags e)).
Proof.
  intros Hv. on_off S_dsym. unfold profile_dsym. cbn [sample_of]. pose proof Hat as (Hs & Hy & _). rewrite Hs, Hy.
  destruct (mem_insn (ev_flags e)); [|exists p; eauto using no_sample].
  by apply (sym_step S_dsym sdb_data imm (s_addr (ev_state e)) ls p Hat Hon (Hv Hon)).
Qed.

(** What the profiles need of an instruction. *)
Definition fine_event : Prop :=
  0 <= ev_PC e /\ (prof_am o || prof_seg o = true -> bindable e) /\ (prof_tsyms o || prof_dsyms o = true -> syms_valid).

Lemma profile_insn_ok (imm : Z) (ls : slot -> list Z) (p : prof_state) : fine_event -> at_event imm ls p -> pcstats (p_prof p) = [] ->
  exists p', profile_insn o (ev_op e) (ev_inst e) p = Ok p' /\ p_prof p' = p_prof p
    /\ at_event (next_imm imm e) (fun k => ls k ++ sample_of k imm e) p'.
Proof.
  intros (Hpc & Hb & Hv) Hat Hpcs. unfold profile_insn. fold (ev_flags e).
  destruct (class_stage imm ls p Hat) as (p1 & E1 & Hq1 & H1). cbn [slot_on] in E1. rewrite E1. cbn [mbind outcome_bind].
  destruct (inst_stage imm _ p1 H1) as (p2 & E2 & Hq2 & H2). cbn [slot_on] in E2. rewrite E2. cbn [mbind outcome_bind].
  destruct (branch_stage imm _ p2 H2) as (p3 & E3 & Hq3 & H3). cbn [slot_on] in E3. rewrite E3. cbn [mbind outcome_bind].
  assert (prof_am o = true -> bindable e) as Hb1 by (intros Ham; apply Hb; by rewrite Ham).
  destruct (mode_stage imm Hb1 _ p3 H3) as (p4 & E4 & Hq4 & H4). cbn [slot_on] in E4. rewrite E4. cbn [mbind outcome_bind].
  assert (prof_seg o = true -> bindable e) as Hb2 by (intros Hsg; apply Hb; by rewrite Hsg, orb_true_r).
  destruct (seg_stage (next_imm imm e) Hb2 _ p4 H4) as (p5 & E5 & Hq5 & H5). cbn [slot_on] in E5. rewrite E5. cbn [mbind outcome_bind].
  assert (prof_tsyms o = true -> syms_valid) as Hv1 by (intros Ht; apply Hv; by rewrite Ht).
  destruct (tsym_stage (next_imm imm e) Hv1 _ p5 H5) as (p6 & E6 & Hq6 & H6). cbn [slot_on] in E6. rewrite E6. cbn [mbind outcome_bind].
  assert (prof_dsyms o = true -> syms_valid) as Hv2 by (intros Ht; apply Hv; by rewrite Ht, orb_true_r).
  destruct (dsym_stage (next_imm imm e) Hv2 _ p6 H6) as (p7 & E7 & Hq7 & H7). cbn [slot_on] in E7. rewrite E7. cbn [mbind outcome_bind].
  destruct (taddr_stage (next_imm imm e) Hpc _ p7 H7) as (p8 & E8 & Hq8 & H8). cbn [slot_on] in E8. rewrite E8. cbn [mbind outcome_bind].
  assert (p_prof p8 = p_prof p) as Hq by congruence. rewrite Hq, Hpcs. cbn [profile_pcstats mbind outcome_bind]. eexists. split; [reflexivity|].
  destruct H8 as (Hs & Hy & Hp & Him). rewrite Hq in Hp. split; [cbn; rewrite Hq; destruct (p_prof p); cbn in *; by subst|].
  split; [done|]. split; [done|]. split; [|done]. cbn. rewrite Hq. replace (mk_profiles _ _ _ _ _ _ _ _ _) with (p_prof p) by (destruct (p_prof p); cbn in *; by subst).
  refine (profiled_ext o y _ _ _ _ _ Hp). intros k _. unfold add_to. by destruct k.
Qed.

End Stages.
End Samples.
