(* ===== verification/ProfileCorrect.v ===== *)
(** The profiles of a run: the statistics that sim-profile registers, and the run
    of sim-safe whose instructions they count. *)

From Stdlib Require Import String.
From S2P Require Import Prelude Misc Memory Isa Exec Funsim FunsimProps Eval Strto Options Symbol SymbolProps Range Stats StatsProps Profile ProfileProps.

(** * Registration *)

(** Statistics have been added at the end of the chain. *)
Definition extends (db db' : stat_sdb_t) : Prop :=
  (exists l, stats db' = stats db ++ l) /\ dom (vars db') = dom (vars db).

Lemma extends_refl (db : stat_sdb_t) : extends db db.
Proof. split; [exists []; by rewrite app_nil_r|done]. Qed.

Lemma extends_trans (db1 db2 db3 : stat_sdb_t) : extends db1 db2 -> extends db2 db3 -> extends db1 db3.
Proof. intros [[l H1] V1] [[l' H2] V2]. split; [exists (l ++ l'); by rewrite H2, H1, app_assoc|congruence]. Qed.

Lemma extends_slot (y : symbols) (k : slot) (st : nat) (l : list Z) (db db' : stat_sdb_t) : extends db db' ->
  slot_counts y k st l db -> slot_counts y k st l db'.
Proof.
  intros [[l' Hs] _]. unfold slot_counts. destruct (slot_size y k); intros H.
  - destruct H as (name & desc & d & Hd & H). exists name, desc, d. split; [|done]. rewrite Hs. by apply lookup_app_l_Some.
  - destruct H as (name & desc & d & m & Hd & H). exists name, desc, d, m. split; [|done]. rewrite Hs. by apply lookup_app_l_Some.
Qed.

Lemma extends_length (db db' : stat_sdb_t) : extends db db' -> (length (stats db) <= length (stats db'))%nat.
Proof. intros [[l ->] _]. rewrite length_app. lia. Qed.

(** A variable is registered. *)
Lemma reg_var_extends (variant : var_ptr -> Z -> stat_variant_t) (name desc : list Z) (var : var_ptr) (init_val : Z) (db : stat_sdb_t) :
  var ∈ dom (vars db) -> exists st db', reg_var variant name desc var init_val db = Ok (st, db') /\ extends db db'.
Proof.
  intros [v Hv]%elem_of_dom. unfold reg_var, set_var. cbn. rewrite Hv. cbn. eexists _, _. split; [reflexivity|].
  split; [by eexists|]. cbn. rewrite dom_insert_L. apply subseteq_union_1_L. intros x ->%elem_of_singleton. by apply elem_of_dom.
Qed.

(** A distribution that is registered has counted nothing. *)
Lemma dist_fresh (name desc : list Z) (n : Z) (db : stat_sdb_t) :
  let '(st, db') := stat_reg_dist name desc 0 n 1 db in counts st n [] db' /\ extends db db' /\ st = length (stats db) /\ (st < length (stats db'))%nat.
Proof.
  split_and!; [|split; [by eexists|done]|done|cbn; rewrite length_app; cbn; lia]. eexists name, desc, _. split; [apply added_stat|].
  split_and!; try done; [cbn; by rewrite repeat_length|]. intros i Hi. cbn. by apply lookup_repeat.
Qed.

Lemma sdist_fresh (name desc : list Z) (db : stat_sdb_t) :
  let '(st, db') := stat_reg_sdist name desc 0 db in counts_sparse st [] db' /\ extends db db' /\ st = length (stats db) /\ (st < length (stats db'))%nat.
Proof.
  split_and!; [|split; [by eexists|done]|done|cbn; rewrite length_app; cbn; lia]. eexists name, desc, _, ∅. split; [apply added_stat|].
  split_and!; [done|apply fresh_shows|]. intros i. rewrite bool_decide_eq_false_2; [done|]. apply not_elem_of_nil.
Qed.

(** The profile of a slot is registered if it is on: [lo] and [hi] are the lengths
    of the chain before and after. *)
Definition reg_slot (y : symbols) (k : slot) (b : bool) (lo : nat) (st : option nat) (db : stat_sdb_t) : Prop :=
  match st with
  | Some st => b = true /\ (lo <= st < length (stats db))%nat /\ slot_counts y k st [] db
  | None => b = false /\ (lo <= length (stats db))%nat
  end.

Lemma reg_slot_ok (y : symbols) (k : slot) (b : bool) (reg : stat_sdb_t -> nat * stat_sdb_t) (db : stat_sdb_t) :
  (let '(st, db') := reg db in slot_counts y k st [] db' /\ extends db db' /\ st = length (stats db) /\ (st < length (stats db'))%nat) ->
  exists st db', reg_if b reg db = (st, db') /\ extends db db' /\ reg_slot y k b (length (stats db)) st db'.
Proof.
  unfold reg_if. destruct b; [|intros _; eexists _, _; split; [reflexivity|]; split; [apply extends_refl|done]].
  destruct (reg db) as [st db']. intros (Hc & He & -> & Hl). eexists _, _. split; [reflexivity|]. split; [done|]. split; [done|]. split; [lia|done].
Qed.

Section Registration.
Context {sort : Qsort} {laws : QsortLaws sort}.

Definition file_is_ok (file : sym_file) : Prop :=
  file_ok (f_symhdr file) (f_strtab file) (f_extr file) (f_text_end file) (f_data_end file).

Lemma load_once (file : sym_file) (y y' : symbols) : load_symbols file y = Ok y' -> load_symbols file y' = Ok y'.
Proof.
  unfold load_symbols at 1, sym_loadsyms. destruct (syms_loaded y) eqn:E.
  - intros [= <-]. unfold load_symbols, sym_loadsyms. by rewrite E.
  - intros (_ & _ & H)%bind_ok. repeat (apply bind_ok in H as ([? ?] & _ & H) || apply bind_ok in H as (? & _ & H)).
    repeat match goal with H : context [let '(_, _) := ?x in _] |- _ => destruct x end.
    repeat (apply bind_ok in H as ([? ?] & _ & H) || apply bind_ok in H as (? & _ & H)). by apply Ok_inj in H as <-.
Qed.

Lemma loaded_valid symhdr strtab extr text_end data_end (y : symbols) : loaded symhdr strtab extr text_end data_end y -> syms_valid y.
Proof.
  intros Hy db Hdb. destruct (loaded_arrays _ _ _ _ _ _ Hy db) as [(Hl & _ & Hn) _]. destruct (db_syms db y) as [[l l'] n].
  split; [done|]. by apply (lists_nth y (db_seg db)).
Qed.

(** The symbols are loaded once, if a profile needs them. *)
Lemma load_if_needed (file : sym_file) (b1 b2 : bool) : (b1 || b2 = true -> file_is_ok file) ->
  exists y1 y2, (if b1 then load_symbols file no_symbols else Ok no_symbols) = Ok y1 /\ (if b2 then load_symbols file y1 else Ok y1) = Ok y2
    /\ (b1 = true -> y1 = y2) /\ (b1 || b2 = true -> syms_valid y2).
Proof.
  intros Hf. destruct (b1 || b2) eqn:E; [|destruct b1, b2; try done; by exists no_symbols, no_symbols].
  destruct (sym_loadsyms_ok _ _ _ _ _ (Hf eq_refl)) as (y & Hy & Hl). change (load_symbols file no_symbols = Ok y) in Hy.
  pose proof (load_once _ _ _ Hy) as Hy2. pose proof (loaded_valid _ _ _ _ _ _ Hl). destruct b1, b2; try done.
  - exists y, y. by rewrite Hy, Hy2.
  - exists y, y. by rewrite Hy.
  - exists no_symbols, y. by rewrite Hy.
Qed.

(** The slots are registered one after the other. *)
Lemma registered_profiled (o : prof_opts) (y : symbols) (q : profiles) (db : stat_sdb_t) (lo : slot -> nat) (at_ : slot -> stat_sdb_t) :
  (forall k, reg_slot y k (slot_on o k) (lo k) (slot_stat q k) (at_ k) /\ extends (at_ k) db) ->
  (forall k k', k <> k' -> (length (stats (at_ k)) <= lo k')%nat \/ (length (stats (at_ k')) <= lo k)%nat) ->
  profiled o y q (fun _ => []) db.
Proof.
  intros Hr Hd. split.
  - intros k Hk. destruct (Hr k) as (Hs & He). unfold reg_slot in Hs. rewrite Hk in Hs. destruct (slot_stat q k) as [st|]; [|by destruct Hs].
    exists st. split; [done|]. destruct Hs as (_ & _ & Hc). by apply (extends_slot y k st [] (at_ k) db).
  - intros k k' st Hk Hk'. destruct (decide (k = k')) as [|Hne]; [done|]. destruct (Hr k) as (Hs & _), (Hr k') as (Hs' & _).
    rewrite Hk in Hs. rewrite Hk' in Hs'. destruct Hs as (_ & Hs & _), Hs' as (_ & Hs' & _). destruct (Hd k k' Hne); lia.
Qed.

Lemma formula_extends (name desc formula : list Z) (db : stat_sdb_t) : let '(_, db') := stat_reg_formula name desc formula db in extends db db'.
Proof. split; [by eexists|done]. Qed.

Lemma reg_if_same (b : bool) (r r' : stat_sdb_t -> nat * stat_sdb_t) (db : stat_sdb_t) : (b = true -> r = r') -> reg_if b r db = reg_if b r' db.
Proof. destruct b; [|done]. by intros ->. Qed.

Ltac register k :=
  match goal with
  | y : symbols, HX : extends _ ?db |- context [reg_if ?b ?r ?db] =>
      let st := fresh "st" in let db' := fresh "db" in let E := fresh "E" in
      destruct (reg_slot_ok y k b r db ltac:(first [apply dist_fresh|apply sdist_fresh])) as (st & db' & E & ? & ?); rewrite E; cbv beta iota
  end.

Lemma sim_reg_stats_ok (v : prof_vars) (o : prof_opts) (file : sym_file) (db : stat_sdb_t) :
  v_num_insn v ∈ dom (vars db) -> v_num_refs v ∈ dom (vars db) -> v_elapsed_time v ∈ dom (vars db) ->
  (prof_tsyms o || prof_dsyms o = true -> file_is_ok file) -> pcstat_vars o = [] ->
  exists q y db', sim_reg_stats v o file no_symbols db = Ok (q, y, db') /\ profiled o y q (fun _ => []) db' /\ pcstats q = []
    /\ (prof_tsyms o || prof_dsyms o = true -> syms_valid y) /\ dom (vars db') = dom (vars db).
Proof.
  intros V1 V2 V3 Hf Hpc. unfold sim_reg_stats.
  destruct (reg_var_extends for_llong (str "sim_num_insn") (str "total number of instructions executed") (v_num_insn v) 0 db V1) as (s1 & db1 & R1 & X1).
  change (reg_var for_llong) with stat_reg_llong in R1. rewrite R1. cbn [mbind outcome_bind].
  destruct (reg_var_extends for_llong (str "sim_num_refs") (str "total number of loads and stores executed") (v_num_refs v) 0 db1) as (s2 & db2 & R2 & X2);
    [by rewrite (proj2 X1)|].
  change (reg_var for_llong) with stat_reg_llong in R2. rewrite R2. cbn [mbind outcome_bind].
  destruct (reg_var_extends for_int (str "sim_elapsed_time") (str "total simulation time in seconds") (v_elapsed_time v) 0 db2) as (s3 & db3 & R3 & X3);
    [by rewrite (proj2 X2), (proj2 X1)|].
  change (reg_var for_int) with stat_reg_int in R3. rewrite R3. cbn [mbind outcome_bind].
  destruct (load_if_needed file (prof_tsyms o) (prof_dsyms o) Hf) as (y1 & y & L1 & L2 & Hy12 & Hy).
  match goal with |- context [stat_reg_formula ?n ?d ?f db3] => pose proof (formula_extends n d f db3) as X4; destruct (stat_reg_formula n d f db3) as [s4 db4] end.
  register S_ic. register S_inst. register S_bc. register S_am. register S_seg.
  rewrite L1. cbn [mbind outcome_bind].
  rewrite (reg_if_same (prof_tsyms o) (stat_reg_dist (str "sim_text_sym_prof") (str "text symbol profile") 0 (sym_ntextsyms y1) 1)
    (stat_reg_dist (str "sim_text_sym_prof") (str "text symbol profile") 0 (sym_ntextsyms y) 1)) by (intros Ht; by rewrite (Hy12 Ht)).
  register S_tsym. rewrite L2. cbn [mbind outcome_bind]. register S_dsym. register S_taddr.
  rewrite Hpc. cbn [reg_pcstats mbind outcome_bind]. eexists _, _, _. split; [reflexivity|].
  split; [|split; [done|split; [done|]]].
  - apply (registered_profiled o y _ _
      (fun k => length (stats match k with S_ic => db4 | S_inst => db0 | S_bc => db5 | S_am => db6 | S_seg => db7 | S_tsym => db8 | S_dsym => db9 | S_taddr => db10 end))
      (fun k => match k with S_ic => db0 | S_inst => db5 | S_bc => db6 | S_am => db7 | S_seg => db8 | S_tsym => db9 | S_dsym => db10 | S_taddr => db11 end)).
    + intros []; (split; [done|]); repeat first [apply extends_refl|eapply extends_trans; [eassumption|]].
    + repeat match goal with HX : extends _ _ |- _ => apply extends_length in HX end. intros [] [] Hne; try done; lia.
  - repeat match goal with HX : extends _ _ |- _ => apply proj2 in HX end. congruence.
Qed.
End Registration.

(** * The run *)

Section Run.
Context `{E : SimEnv} {fp : HostFP} {sort : Qsort}.

Lemma profile_step_exec (v : prof_vars) (o : prof_opts) (p : prof_state) : sim_profile_step v o p =
  (e ← safe_exec (p_safe p); p ← profile_insn o (ev_op e) (ev_inst e) (publish v (p <| p_safe := ev_state e |>));
   Ok (p <| p_safe ::= safe_advance |>)).
Proof.
  unfold sim_profile_step, safe_exec. destruct (safe_SET_GPR 0 0 _) as [s1| | | | | |]; cbn [mbind outcome_bind]; try done.
  change (regs_PC (s_regs (s1 <| s_num_insn ::= Z.add 1 |>))) with (regs_PC (s_regs s1)). change (s_mem (s1 <| s_num_insn ::= Z.add 1 |>)) with (s_mem s1).
  destruct (fetch_inst _ _) as [inst| | | | | |]; cbn [mbind outcome_bind]; try done.
  destruct (opcode_of_val _) as [op|]; cbn [mbind outcome_bind]; [|done].
  change (execute env_cfg op inst _) with (execute env_cfg op inst (fetch_state s1)) at 1. by destruct (execute env_cfg op inst (fetch_state s1)).
Qed.

Variables (v : prof_vars) (o : prof_opts) (y : symbols).

(** The counters published are variables of the database; its statistics stay. *)
Lemma publish_at (e : insn_event) (imm : Z) (ls : slot -> list Z) (p : prof_state) :
  p_syms p = y -> profiled o y (p_prof p) ls (p_db p) -> (prof_am o = true -> imm_reg p = imm) ->
  at_event y o e imm ls (publish v (p <| p_safe := ev_state e |>)).
Proof. intros Hy Hp Him. done. Qed.

Lemma profile_run_ok (n : nat) (p : prof_state) (s : safe_state) (imm : Z) (ls : slot -> list Z) (evs : list insn_event) :
  sim_safe_run n (p_safe p) = Ok s -> safe_events n (p_safe p) = Ok evs -> Forall (fine_event y o) evs ->
  p_syms p = y -> profiled o y (p_prof p) ls (p_db p) -> (prof_am o = true -> imm_reg p = imm) -> pcstats (p_prof p) = [] ->
  exists p', sim_profile_run v o n p = Ok p' /\ p_safe p' = s /\ p_prof p' = p_prof p
    /\ profiled o y (p_prof p) (fun k => ls k ++ samples y k imm evs) (p_db p').
Proof.
  revert p imm ls evs. induction n as [|n IH]; intros p imm ls evs Hrun Hevs Hfine Hy Hp Him Hpc.
  - apply Ok_inj in Hrun as <-. apply Ok_inj in Hevs as <-. exists p. split_and!; [done..|].
    apply (profiled_ext o y _ ls); [|done]. intros k _. cbn. by rewrite app_nil_r.
  - cbn [sim_safe_run safe_events sim_profile_run] in *. rewrite safe_step_exec in Hrun. rewrite profile_step_exec.
    destruct (safe_exec (p_safe p)) as [e| | | | | |] eqn:He; cbn [mbind outcome_bind] in *; try done.
    apply bind_ok in Hevs as (evs' & Hevs & Hcons). apply Ok_inj in Hcons as <-. apply Forall_cons in Hfine as [Hf Hfine].
    destruct (profile_insn_ok y o e (exec_op _ _ He) imm ls _ Hf (publish_at e imm ls p Hy Hp Him) Hpc) as (p1 & E1 & Hq1 & Hs1 & Hy1 & Hp1 & Him1).
    rewrite E1. cbn [mbind outcome_bind]. change (p_prof p1 = p_prof p) in Hq1. rewrite Hq1 in Hp1.
    destruct (IH (p1 <| p_safe ::= safe_advance |>) (next_imm imm e) (fun k => ls k ++ sample_of y k imm e) evs') as (p2 & E2 & Hs2 & Hq2 & Hp2);
      [cbn; by rewrite Hs1|cbn; by rewrite Hs1|done|done|cbn; by rewrite Hq1|done|cbn; by rewrite Hq1|].
    exists p2. split_and!; [exact E2|done|by rewrite Hq2|]. change (p_prof (p1 <| p_safe ::= safe_advance |>)) with (p_prof p1) in Hp2. rewrite Hq1 in Hp2.
    refine (profiled_ext o y _ _ _ _ _ Hp2). intros k _. cbn [samples]. by rewrite app_assoc.
Qed.

End Run.

(** * Correctness *)

(** C26: sim-profile runs what sim-safe runs, and profiles it exactly: when the
    statistics have been registered, [n] instructions that sim-safe executes
    without an error are executed with the same result, and every profile that is
    on has counted the samples of these instructions -- one class and one opcode
    and one address for each, the kind of each branch, the addressing mode and
    segment of each load and store, a mode being absolute when the base register
    was set by a LUI since the load or store before it, and the symbol that the
    tables have for the address.  Loads and stores must refer to a segment when
    addressing modes or segments are profiled. *)
Theorem profile_counts_instructions {E : SimEnv} {fp : HostFP} {sort : Qsort} {laws : QsortLaws sort} v o file db n s0 s :
  v_num_insn v ∈ dom (vars db) -> v_num_refs v ∈ dom (vars db) -> v_elapsed_time v ∈ dom (vars db) ->
  (prof_tsyms o || prof_dsyms o = true -> file_is_ok file) -> pcstat_vars o = [] ->
  sim_safe_run n s0 = Ok s ->
  exists evs q y db1, safe_events n s0 = Ok evs /\ length evs = n
    /\ sim_reg_stats v o file no_symbols db = Ok (q, y, db1) /\
  ((forall e, e ∈ evs -> 0 <= ev_PC e /\ (prof_am o || prof_seg o = true -> bindable e)) ->
   exists p, sim_profile_run v o n (mk_prof s0 db1 q y 0) = Ok p /\ p_safe p = s
     /\ forall k, slot_on o k = true -> exists st, slot_stat q k = Some st /\ slot_counts y k st (samples y k 0 evs) (p_db p)).
Proof.
  intros V1 V2 V3 Hf Hpc Hrun. destruct (sim_reg_stats_ok v o file db V1 V2 V3 Hf Hpc) as (q & y & db1 & Hreg & Hp & Hq & Hy & _).
  destruct (events_exist n s0 s Hrun) as (evs & Hevs & Hl). exists evs, q, y, db1. split; [exact Hevs|]. split; [exact Hl|]. split; [exact Hreg|]. intros Hfine.
  destruct (profile_run_ok v o y n (mk_prof s0 db1 q y 0) s 0 (fun _ => []) evs) as (p & Hr & Hs & _ & Hc & _); try done.
  { apply Forall_forall. intros e He. by destruct (Hfine e He). }
  exists p. split; [exact Hr|]. split; [exact Hs|]. exact Hc.
Qed.

(** A store whose address a LUI has set, and a load and a branch behind it. *)
Module ProfileExample.

Definition program : list ss_inst := [asm LUI 0 4 0x1000; asm SW 4 2 4; asm LW 4 3 4; asm BNE 4 4 0x10; asm ADDIU 6 6 1].
Definition text : mem_state :=
  match unchk_write 0x400000 (flat_map inst_bytes program) (mem_tickle 0x400000 mem_init) with Ok m => m | _ => mem_init end.
Definition started : safe_state := sim_profile_main (mk_safe example_regs text 0 0 false 0 0 []).

Definition opts : prof_opts := sim_check_options true (mk_prof_opts false false false false false false false false []).
Definition counter_vars : prof_vars := mk_prof_vars 1%positive 2%positive 3%positive.
Definition database : stat_sdb_t := stat_new (list_to_map [(1%positive, 7); (2%positive, 7); (3%positive, 7)]).
Definition file : sym_file := mk_sym_file SymExample.hdr SymExample.strtab SymExample.extr 0x400030 0x10000100.

Definition registered : outcome (profiles * symbols * stat_sdb_t) := sim_reg_stats (sort := SymExample.stable) counter_vars opts file no_symbols database.
Definition executed : outcome (list insn_event) := safe_events (E := example_env) 5 started.

Definition segment_or_none (e : insn_event) : bool :=
  (0 <=? ev_PC e) && (negb (mem_insn (ev_flags e)) || match bind_to_seg (E := example_env) (s_addr (ev_state e)) (s_mem (ev_state e)) with Ok _ => true | _ => false end).

Lemma executed_fine (evs : list insn_event) (e : insn_event) : executed = Ok evs -> e ∈ evs ->
  0 <= ev_PC e /\ (prof_am opts || prof_seg opts = true -> bindable (E := example_env) e).
Proof.
  intros Hevs He. assert (match executed with Ok evs => forallb segment_or_none evs | _ => false end = true) as H by (vm_compute; reflexivity).
  rewrite Hevs, forallb_forall in H. apply list_elem_of_In, H, andb_true_iff in He as [H0 Hs]. split; [by apply Z.leb_le|].
  clear H Hevs H0. intros _ Hm. rewrite Hm in Hs. cbn [negb orb] in Hs.
  destruct (bind_to_seg (s_addr (ev_state e)) (s_mem (ev_state e))) as [seg| | | | | |]; try discriminate Hs. by exists seg.
Qed.

Lemma started_runs : exists s, sim_safe_run (H := example_env) 5 started = Ok s.
Proof.
  assert (match sim_safe_run (H := example_env) 5 started with Ok _ => true | _ => false end = true) as H by (vm_compute; reflexivity).
  destruct (sim_safe_run 5 started) as [s| | | | | |]; try discriminate H. by exists s.
Qed.

#[local] Strategy -100 [registered executed].
End ProfileExample.

Lemma profile_counts_instructions_witness :
  match ProfileExample.registered, ProfileExample.executed with
  | Ok (q, y, db), Ok evs =>
      (fun k => samples (E := example_env) y k 0 evs) <$> [S_ic; S_bc; S_am; S_seg; S_tsym; S_dsym]
        = [[4; 1; 0; 3; 4]; [1]; [0; 4]; [0; 0]; [0; 0; 1; 1; 1]; [0; 0]]
      /\ exists p, sim_profile_run (E := example_env) ProfileExample.counter_vars ProfileExample.opts 5 (mk_prof ProfileExample.started db q y 0) = Ok p
        /\ exists st, am_prof q = Some st /\ counts st am_NUM [0; 4] (p_db p)
  | _, _ => False
  end.
Proof.
  destruct ProfileExample.started_runs as [s Hs].
  destruct (profile_counts_instructions (laws := SymExample.stable_laws) ProfileExample.counter_vars ProfileExample.opts ProfileExample.file
    ProfileExample.database 5 ProfileExample.started s) as (evs & q & y & db & Hevs & _ & Hreg & Hrun);
    [apply elem_of_dom; by eexists|apply elem_of_dom; by eexists|apply elem_of_dom; by eexists|intros _; exact SymExample.extr_ok|reflexivity|exact Hs|].
  assert (match ProfileExample.registered, ProfileExample.executed with
    | Ok (_, y, _), Ok evs => (fun k => samples (E := example_env) y k 0 evs) <$> [S_ic; S_bc; S_am; S_seg; S_tsym; S_dsym]
        = [[4; 1; 0; 3; 4]; [1]; [0; 4]; [0; 0]; [0; 0; 1; 1; 1]; [0; 0]]
    | _, _ => False end) as Hsamples by (vm_compute; reflexivity).
  unfold ProfileExample.registered, ProfileExample.executed in *. rewrite Hreg, Hevs in *. split; [exact Hsamples|].
  destruct (Hrun (fun e => ProfileExample.executed_fine evs e Hevs)) as (p & Hp & _ & Hc). exists p. split; [exact Hp|].
  destruct (Hc S_am eq_refl) as (st & Hst & Hcount). exists st. split; [exact Hst|]. injection Hsamples as _ _ Ham _. rewrite Ham in Hcount. exact Hcount.
Defined.
