(* ===== verification/Loader.v ===== *)
(** loader.c: loading an ECOFF executable and the arguments of the program, in the
    build without libbfd; and endian.c, which it asks for the byte orders.

    An executable is the list of its bytes; what is read into a header is read in the
    byte order of the host.  argv and envp are lists of strings. *)

From S2P Require Import Prelude Misc Memory Exec Funsim SimCache.

(** ss.h, with sizeof(SS_DOUBLE_TYPE), sizeof(SS_WORD_TYPE) and sizeof(SS_PTR_TYPE). *)
Definition SS_DATA_BASE : Z := 0x10000000.
Definition SS_MAX_ENVIRON : Z := 16384.
Definition SS_DOUBLE_SIZE : Z := 8.
Definition SS_WORD_SIZE : Z := 4.
Definition SS_PTR_SIZE : Z := 4.

(** * ecoff.h *)

Definition ECOFF_EB_MAGIC : Z := 0x0160.
Definition ECOFF_EL_MAGIC : Z := 0x0162.
Definition ECOFF_STYP_TEXT : Z := 0x0020.
Definition ECOFF_STYP_RDATA : Z := 0x0100.
Definition ECOFF_STYP_DATA : Z := 0x0040.
Definition ECOFF_STYP_SDATA : Z := 0x0200.
Definition ECOFF_STYP_SBSS : Z := 0x0400.
Definition ECOFF_STYP_BSS : Z := 0x0080.

(** The fields of the headers that are used. *)
Record ecoff_filehdr := mk_filehdr { f_magic : Z; f_nscns : Z; f_opthdr : Z }.
Record ecoff_aouthdr := mk_aouthdr { dsize : Z; bsize : Z; entry : Z }.
Record ecoff_scnhdr := mk_scnhdr { s_vaddr : Z; s_size : Z; s_scnptr : Z; s_flags : Z }.

Definition sizeof_filehdr : Z := 20.
Definition sizeof_aouthdr : Z := 56.
Definition sizeof_scnhdr : Z := 40.

Section Loader.
Variable hb : bool.  (* whether the host is big endian *)

(** The unsigned short and the int at an offset of a structure. *)
Definition field_ushort (bs : list Z) (off : nat) : Z := host_combine hb (take 2 (drop off bs)).
Definition field_int (bs : list Z) (off : nat) : Z := s32 (host_combine hb (take 4 (drop off bs))).

(** [fread] of one object of [size] bytes at a position of the file: it reads
    nothing when the size is zero. *)
Definition fread (file : list Z) (at_ size : Z) : option (list Z) :=
  if (0 <? size) && (at_ + size <=? Z.of_nat (length file)) then Some (take (Z.to_nat size) (drop (Z.to_nat at_) file)) else None.

Definition get_filehdr (bs : list Z) : ecoff_filehdr := mk_filehdr (field_ushort bs 0) (field_ushort bs 2) (field_ushort bs 16).
Definition get_aouthdr (bs : list Z) : ecoff_aouthdr := mk_aouthdr (field_int bs 8) (field_int bs 12) (field_int bs 16).
Definition get_scnhdr (bs : list Z) : ecoff_scnhdr := mk_scnhdr (field_int bs 12) (field_int bs 16) (field_int bs 20) (field_int bs 36).

(** [if (fread(...) < 1) fatal(...)]. *)
Definition must_read (r : option (list Z)) : outcome (list Z) := match r with Some bs => Ok bs | None => Fatal end.

(** * endian.c *)

Inductive endian_t := endian_big | endian_little | endian_unknown.
#[global] Instance endian_eq_dec : EqDecision endian_t.
Proof. solve_decision. Defined.

(** The first byte of the int 1. *)
Definition endian_host_byte_order : endian_t :=
  match host_split hb 4 1 with
  | b :: _ => if b =? 1 then endian_little else if b =? 0 then endian_big else endian_unknown
  | [] => endian_unknown
  end.

(** The first word of the double 1.0. *)
Definition endian_host_word_order : endian_t :=
  let '(w, _) := double_words hb 0x3ff0000000000000 in
  if w =? 0 then endian_little else if w =? 0x3ff00000 then endian_big else endian_unknown.

Definition endian_target_byte_order (ld_target_big_endian : bool) : endian_t := if ld_target_big_endian then endian_big else endian_little.
Definition endian_target_word_order (ld_target_big_endian : bool) : endian_t := endian_target_byte_order ld_target_big_endian.

(** endian.h: SWAP_WORD, with swapping disabled. *)
Definition SWAP_WORD (n : Z) : Z := n.

(** * loader.c *)

(** The variables of loader.c, and the memory. *)
Record loader := mk_loader {
  ld : ld_bounds;
  ld_stack_size : Z;
  ld_prog_entry : Z;
  ld_environ_base : Z;
  ld_target_big_endian : bool;
  ld_mem : mem_state;
}.
#[global] Instance eta_loader : Eta loader := mk_eta (fun l =>
  mk_loader (ld l) (ld_stack_size l) (ld_prog_entry l) (ld_environ_base l) (ld_target_big_endian l) (ld_mem l)).
#[global] Instance eta_ld_bounds : Eta ld_bounds := mk_eta (fun b =>
  mk_ld (ld_text_base b) (ld_text_size b) (ld_data_base b) (ld_data_size b) (ld_stack_base b)).

Definition no_program (m : mem_state) : loader := mk_loader (mk_ld 0 0 0 0 SS_STACK_BASE) 0 0 0 false m.

(** [mem_fn], with the bounds that are set when it is called. *)
Definition ld_mem_fn (l : loader) := mem_access hb (ld l).

Definition write_word (addr v : Z) (l : loader) : outcome loader :=
  '(m, _) ← ld_mem_fn l Write addr (host_split hb 4 v) 0 4 (ld_mem l); Ok (l <| ld_mem := m |>).

(** A section that is in the file is copied to its address. *)
Definition load_contents (file : list Z) (s : ecoff_scnhdr) (l : loader) : outcome loader :=
  _ ← fatal_if (s_size s <? 0);
  _ ← fatal_if (s_scnptr s <? 0);
  p ← must_read (fread file (s_scnptr s) (s_size s));
  '(m, _) ← mem_bcopy (ld_mem_fn l) Write (u32 (s_vaddr s)) p 0 (Z.to_nat (s_size s)) (ld_mem l);
  Ok (l <| ld_mem := m |>).

Definition load_section (file : list Z) (s : ecoff_scnhdr) (l : loader) : outcome loader :=
  if s_flags s =? ECOFF_STYP_TEXT then
    load_contents file s (l <| ld ::= set_field ld_text_size (fun _ => u32 (s_vaddr s + s_size s - SS_TEXT_BASE + 128)) |>)
  else if (s_flags s =? ECOFF_STYP_RDATA) || (s_flags s =? ECOFF_STYP_DATA) || (s_flags s =? ECOFF_STYP_SDATA) then load_contents file s l
  else Ok l.

(** The loop over the section headers, the first of which is at [floc]. *)
Fixpoint load_sections (file : list Z) (floc : Z) (n : nat) (l : loader) : outcome loader :=
  match n with
  | O => Ok l
  | S n =>
      bs ← must_read (fread file floc sizeof_scnhdr);
      l ← load_section file (get_scnhdr bs) l;
      load_sections file (floc + sizeof_scnhdr) n l
  end.

(** The pointers of an array and the strings they point to; the addresses of the
    next pointer and the next string. *)
Fixpoint write_args (addr sp : Z) (args : list (list Z)) (l : loader) : outcome (Z * Z * loader) :=
  match args with
  | [] => Ok (addr, sp, l)
  | a :: args =>
      l ← write_word addr (SWAP_WORD sp) l;
      '(m, _, n) ← mem_strcpy (ld_mem_fn l) Write sp (a ++ [0]) (S (length a)) (ld_mem l);
      write_args (u32 (addr + SS_PTR_SIZE)) (u32 (sp + n)) args (l <| ld_mem := m |>)
  end.

(** The arguments and the environment, from [sp]: the new [sp]. *)
Definition write_environ (argv envp : list (list Z)) (sp : Z) (l : loader) : outcome (Z * loader) :=
  l ← write_word sp (SWAP_WORD (Z.of_nat (length argv))) l;
  let sp := u32 (sp + SS_WORD_SIZE) in
  let argv_addr := sp in
  let sp := u32 (sp + (Z.of_nat (length argv) + 1) * SS_PTR_SIZE) in
  let envp_addr := sp in
  let sp := u32 (sp + (Z.of_nat (length envp) + 1) * SS_PTR_SIZE) in
  '(addr, sp, l) ← write_args argv_addr sp argv l;
  l ← write_word addr 0 l;
  '(addr, sp, l) ← write_args envp_addr sp envp l;
  l ← write_word addr 0 l;
  Ok (sp, l).

(** [ld_load_prog]; an executable that cannot be opened is [None]. *)
Definition ld_load_prog (exe : option (list Z)) (argv envp : list (list Z)) (l : loader) : outcome loader :=
  let sp := ROUND_DOWN (SS_STACK_BASE - SS_MAX_ENVIRON) SS_DOUBLE_SIZE in
  let l := l <| ld ::= set_field ld_stack_base (fun _ => SS_STACK_BASE) |> <| ld_stack_size := u32 (SS_STACK_BASE - sp) |> <| ld_environ_base := sp |> in
  file ← match exe with Some file => Ok file | None => Fatal end;
  fh ← must_read (fread file 0 sizeof_filehdr);
  let fhdr := get_filehdr fh in
  big ← (if f_magic fhdr =? ECOFF_EB_MAGIC then Ok true else if f_magic fhdr =? ECOFF_EL_MAGIC then Ok false else Fatal);
  let l := l <| ld_target_big_endian := big |> in
  ah ← must_read (fread file sizeof_filehdr sizeof_aouthdr);
  let ahdr := get_aouthdr ah in
  let data_break := u32 (SS_DATA_BASE + dsize ahdr + bsize ahdr) in
  l ← load_sections file (sizeof_filehdr + f_opthdr fhdr) (Z.to_nat (f_nscns fhdr)) l;
  let l := l <| ld ::= set_field ld_text_base (fun _ => SS_TEXT_BASE) |> <| ld ::= set_field ld_data_base (fun _ => SS_DATA_BASE) |>
             <| ld_prog_entry := u32 (entry ahdr) |> <| ld ::= set_field ld_data_size (fun _ => u32 (data_break - SS_DATA_BASE)) |> in
  _ ← fatal_if ((ld_text_base (ld l) =? 0) || (ld_text_size (ld l) =? 0));
  _ ← fatal_if ((ld_data_base (ld l) =? 0) || (ld_data_size (ld l) =? 0));
  _ ← fatal_if (ld_prog_entry l =? 0);
  _ ← fatal_if (negb (bool_decide (endian_host_byte_order = endian_target_byte_order big)));
  _ ← fatal_if (negb (bool_decide (endian_host_word_order = endian_target_word_order big)));
  '(sp, l) ← write_environ argv envp sp l;
  _ ← fatal_if (ld_stack_base (ld l) <? sp);
  Ok l.

(** * main.c *)

(** The registers before [regs_init]. *)
Definition regs_static : regs := mk_regs (repeat 0 (Z.to_nat SS_NUM_REGS)) (repeat 0 (Z.to_nat SS_NUM_REGS)) 0 0 0 0.

(** The part of [main] from [mem_init] to [mem_init1]: the program is loaded and the
    registers and the bounds of the heap and the stack are set. *)
Definition start_program (exe : option (list Z)) (argv envp : list (list Z)) : outcome (loader * regs) :=
  l ← ld_load_prog exe argv envp (no_program mem_init);
  r ← regs_init (ld_environ_base l) (ld_prog_entry l) regs_static;
  sp ← z_get (regs_R r) SS_STACK_REGNO;
  Ok (l <| ld_mem ::= mem_init1 (ld l) sp |>, r).

End Loader.
