(* ===== verification/LoaderProps.v ===== *)
(** The program is loaded: every section of the executable is at its address, and the
    stack has the layout that loader.h documents. *)

From Stdlib Require Import Morphisms.
From S2P Require Import Prelude Misc Memory Exec Funsim SimCache Loader.

(** * Memories as functions *)

(** A memory with the bytes [bs] from [addr]. *)
Definition bytes_at (addr : Z) (bs : list Z) (B : Z -> Z) : Z -> Z := fun a =>
  if (addr <=? a) && (a <? addr + Z.of_nat (length bs)) then default 0 (bs !! Z.to_nat (a - addr)) else B a.

Record mem_eq (B B' : Z -> Z) : Prop := mk_mem_eq { mem_eq_at : forall a, B a = B' a }.
Infix "≈" := mem_eq (at level 70).

#[export] Instance mem_eq_equiv : Equivalence mem_eq.
Proof. split; [done|intros B B' [H]; by split|intros B B' B'' [H] [H']; split; congruence]. Qed.

#[export] Instance bytes_at_proper (addr : Z) (bs : list Z) : Proper (mem_eq ==> mem_eq) (bytes_at addr bs).
Proof. intros B B' [HB]. split. intros a. unfold bytes_at. destruct (_ && _); [done|apply HB]. Qed.

Lemma bytes_at_app (addr : Z) (l1 l2 : list Z) (B : Z -> Z) (next : Z) : next = addr + Z.of_nat (length l1) ->
  bytes_at next l2 (bytes_at addr l1 B) ≈ bytes_at addr (l1 ++ l2) B.
Proof.
  intros ->. split. intros a. unfold bytes_at. rewrite length_app.
  destruct (_ <=? a) eqn:E1 at 1; cbn [andb]; [apply Z.leb_le in E1|apply Z.leb_gt in E1].
  - replace (addr <=? a) with true by blia. replace (a <? addr + Z.of_nat (length l1)) with false by blia. cbn [andb].
    replace (addr + Z.of_nat (length l1 + length l2)) with (addr + Z.of_nat (length l1) + Z.of_nat (length l2)) by lia.
    destruct (a <? _); [|done]. rewrite lookup_app_r by lia. do 2 f_equal. lia.
  - destruct (addr <=? a) eqn:E2; cbn [andb]; [apply Z.leb_le in E2|done]. replace (a <? addr + Z.of_nat (length l1)) with true by blia.
    replace (a <? addr + Z.of_nat (length l1 + length l2)) with true by blia. by rewrite lookup_app_l by lia.
Qed.

Lemma bytes_at_comm (a1 a2 : Z) (l1 l2 : list Z) (B : Z -> Z) : a1 + Z.of_nat (length l1) <= a2 ->
  bytes_at a1 l1 (bytes_at a2 l2 B) ≈ bytes_at a2 l2 (bytes_at a1 l1 B).
Proof.
  intros Hd. split. intros a. unfold bytes_at. destruct ((a1 <=? a) && _) eqn:E1; [|done]. apply andb_true_iff in E1 as [E1 E2].
  apply Z.leb_le in E1. apply Z.ltb_lt in E2. replace (a2 <=? a) with false by blia. done.
Qed.

Lemma bytes_at_nil (addr : Z) (B : Z -> Z) : bytes_at addr [] B ≈ B.
Proof. split. intros a. unfold bytes_at. cbn [length]. destruct (_ && _) eqn:E; [|done]. apply andb_true_iff in E as [E1 E2]. apply Z.leb_le in E1. apply Z.ltb_lt in E2. lia. Qed.

Lemma bytes_at_out (addr a : Z) (bs : list Z) (B : Z -> Z) : a < addr \/ addr + Z.of_nat (length bs) <= a -> bytes_at addr bs B a = B a.
Proof. intros H. unfold bytes_at. by replace ((addr <=? a) && (a <? addr + Z.of_nat (length bs))) with false by blia. Qed.

Lemma bytes_at_in (addr : Z) (i : nat) (b : Z) (bs : list Z) (B : Z -> Z) : bs !! i = Some b -> bytes_at addr bs B (addr + Z.of_nat i) = b.
Proof.
  intros H. apply lookup_lt_Some in H as Hl. unfold bytes_at.
  replace ((addr <=? addr + Z.of_nat i) && (addr + Z.of_nat i <? addr + Z.of_nat (length bs))) with true by blia.
  by replace (Z.to_nat (addr + Z.of_nat i - addr)) with i by lia; rewrite H.
Qed.

(** The memory is the function [B], and holds bytes. *)
Definition shows (m : mem_state) (B : Z -> Z) : Prop := bytes_ok m /\ forall a, 0 <= a < 2 ^ 31 -> mem_byte m a = B a.

Lemma shows_eq (m : mem_state) (B B' : Z -> Z) : B ≈ B' -> shows m B -> shows m B'.
Proof. intros [HB] [Hm Hs]. split; [done|]. intros a Ha. rewrite <- HB. by apply Hs. Qed.

Lemma shows_bytes (m : mem_state) (B : Z -> Z) (addr : Z) (bs : list Z) (l1 l2 : list Z) : shows m (bytes_at addr (l1 ++ bs ++ l2) B) -> 0 <= addr ->
  addr + Z.of_nat (length (l1 ++ bs ++ l2)) <= 2 ^ 31 -> mem_bytes m (addr + Z.of_nat (length l1)) (length bs) = bs.
Proof.
  intros [_ Hs] H0 Hl. rewrite !length_app in Hl. apply list_eq. intros i. unfold mem_bytes. rewrite (list_lookup_fmap _ (seq _ _) i : map _ _ !! i = _).
  destruct (decide (i < length bs)%nat) as [Hi|Hi].
  - rewrite lookup_seq_lt by done. cbn. rewrite Hs by lia. destruct (lookup_lt_is_Some_2 bs i Hi) as [b Hb]. rewrite Hb. f_equal.
    replace (addr + Z.of_nat (length l1) + Z.of_nat i) with (addr + Z.of_nat (length l1 + i)) by lia. apply bytes_at_in.
    rewrite lookup_app_r by lia. replace (length l1 + i - length l1)%nat with i by lia. by apply lookup_app_l_Some.
  - rewrite lookup_seq_ge by lia. symmetry. apply lookup_ge_None_2. lia.
Qed.

(** * Writes *)

Section Writes.
Variable hb : bool.

(** Nothing but the memory of the loader changes. *)
Definition only_mem (l l' : loader) : Prop := l' = l <| ld_mem := ld_mem l' |>.

Lemma only_mem_refl (l : loader) : only_mem l l.
Proof. by destruct l. Qed.

Lemma only_mem_trans (l1 l2 l3 : loader) : only_mem l1 l2 -> only_mem l2 l3 -> only_mem l1 l3.
Proof. unfold only_mem. intros H1 H2. rewrite H2, H1. done. Qed.

(** Addresses that can be written: those of the stack, when the data segment is set. *)
Definition writable (l : loader) (lo hi : Z) : Prop := 0 <= lo /\ hi <= 2 ^ 31 /\ forall a, lo <= a < hi -> mem_perm (ld l) Write a = true.

Lemma writable_mem (l l' : loader) (lo hi : Z) : only_mem l l' -> writable l lo hi -> writable l' lo hi.
Proof. unfold writable. intros ->. done. Qed.

Lemma writable_sub (l : loader) (lo hi lo' hi' : Z) : writable l lo hi -> lo <= lo' -> hi' <= hi -> writable l lo' hi'.
Proof. intros (H1 & H2 & H3) Hl Hh. split; [lia|]. split; [lia|]. intros a Ha. apply H3. lia. Qed.

Lemma word_bytes (v : Z) : Forall is_byte (host_split hb 4 v).
Proof. unfold host_split. destruct hb; [apply Forall_rev|]; repeat constructor; unfold is_byte; apply Z.mod_pos_bound; lia. Qed.

Lemma write_word_ok (addr v : Z) (l : loader) (B : Z -> Z) : writable l addr (addr + 4) -> addr mod 4 = 0 -> shows (ld_mem l) B ->
  exists l', write_word hb addr v l = Ok l' /\ only_mem l l' /\ shows (ld_mem l') (bytes_at addr (host_split hb 4 v) B).
Proof.
  intros (H0 & Hhi & Hw) Hal [Hm Hs]. unfold write_word, ld_mem_fn.
  destruct (mem_access_spec hb (ld l) Write addr (host_split hb 4 v) 0 4 (ld_mem l)) as (m' & buf' & -> & _ & _ & -> & Hst).
  - split; [|split; [apply Hw; lia|lia]]. unfold bad_align. change (not_pow2 4) with false. cbn [orb]. change (4 - 1) with (2 ^ 2 - 1).
    rewrite land_mask by lia. change (2 ^ 2) with 4. by rewrite Hal.
  - done.
  - intros _. apply word_bytes.
  - by rewrite length_host_split.
  - cbn [mbind outcome_bind]. eexists. split; [reflexivity|]. split; [done|]. cbn [ld_mem].
    assert (take (Z.to_nat 4) (drop 0 (host_split hb 4 v)) = host_split hb 4 v) as Ht by (rewrite drop_0; apply take_ge; by rewrite length_host_split).
    rewrite Ht in Hst. split; [by apply (stored_bytes_ok (ld_mem l) _ addr (host_split hb 4 v)); [|apply word_bytes|]|].
    intros a Ha. cbn. rewrite (Hst a Ha). unfold bytes_at. destruct (_ && _); [done|by apply Hs].
Qed.

(** One byte. *)
Lemma put_byte_ok (addr b : Z) (l : loader) (B : Z -> Z) (m : mem_state) : writable l addr (addr + 1) -> is_byte b -> shows m B ->
  exists m', ld_mem_fn hb l Write addr [b] 0 1 m = Ok (m', [b]) /\ shows m' (bytes_at addr [b] B).
Proof.
  intros (H0 & Hhi & Hw) Hb [Hm Hs].
  destruct (byte_write (ByteAccess := mem_access_bytes hb (ld l)) addr [b] 0%nat b m Hm) as (m' & E & Hm' & Hs');
    [split; [lia|apply Hw; lia]|done|by constructor|].
  exists m'. split; [exact E|]. split; [done|]. intros a Ha. rewrite (Hs' a Ha). unfold bytes_at. cbn [length].
  destruct (Z.eqb_spec a addr) as [->|Hne].
  - replace ((addr <=? addr) && (addr <? addr + Z.of_nat 1)) with true by blia. by rewrite Z.sub_diag.
  - replace ((addr <=? a) && (a <? addr + Z.of_nat 1)) with false by blia. by apply Hs.
Qed.

Lemma strcpy_ok (s : list Z) : forall (fuel : nat) (addr : Z) (buf : list Z) (p : nat) (n : Z) (l : loader) (m : mem_state) (B : Z -> Z),
  writable l addr (addr + Z.of_nat (S (length s))) -> Forall is_byte s -> Forall (fun b => b <> 0) s ->
  drop p buf = s ++ [0] -> (length s < fuel)%nat -> shows m B ->
  exists m', mem_strcpy_write (ld_mem_fn hb l) fuel addr buf p n m = Ok (m', buf, n + Z.of_nat (S (length s)))
    /\ shows m' (bytes_at addr (s ++ [0]) B).
Proof.
  induction s as [|b s IH]; intros [|fuel] addr buf p n l m B Hw Hb Hnz Hd Hf Hm; cbn [length] in *; try lia; cbn [mem_strcpy_write];
    assert (buf !! p = Some _) as Hp by (rewrite <- (Nat.add_0_r p), <- lookup_drop, Hd; reflexivity); rewrite (c_get_some _ _ _ Hp); cbn [mbind outcome_bind].
  - destruct (put_byte_ok addr 0 l B m) as (m' & -> & Hm'); [done|done|done|]. cbn [mbind outcome_bind]. exists m'. by split.
  - apply Forall_cons in Hb as [Hb Hbs]. apply Forall_cons in Hnz as [Hnz Hnzs].
    destruct (put_byte_ok addr b l B m) as (m1 & -> & Hm1); [apply (writable_sub l _ _ _ _ Hw); lia|done|done|]. cbn [mbind outcome_bind].
    unfold truth. rewrite (proj2 (Z.eqb_neq _ _) Hnz). cbn [negb]. rewrite u32_small by (destruct Hw; lia).
    destruct (IH fuel (addr + 1) buf (p + 1)%nat (n + 1) l m1 _ ltac:(apply (writable_sub l _ _ _ _ Hw); lia) Hbs Hnzs
      ltac:(by rewrite <- drop_drop, Hd) ltac:(lia) Hm1) as (m' & -> & Hm').
    exists m'. split; [do 2 f_equal; lia|]. revert Hm'. apply shows_eq. by apply (bytes_at_app addr [b] (s ++ [0])).
Qed.

(** A copy of bytes of the file. *)
Lemma bcopy_ok (addr : Z) (bs : list Z) (l : loader) (m : mem_state) (B : Z -> Z) :
  writable l addr (addr + Z.of_nat (length bs)) -> Forall is_byte bs -> shows m B ->
  exists m', mem_bcopy (ld_mem_fn hb l) Write addr bs 0 (length bs) m = Ok (m', bs) /\ shows m' (bytes_at addr bs B).
Proof.
  intros (H0 & Hhi & Hw) Hb [Hm Hs].
  destruct (mem_bcopy_write (ld_mem_fn hb l) (ByteAccess0 := mem_access_bytes hb (ld l)) (length bs) addr bs 0 m Hm) as (m' & -> & Hm' & Hs');
    [intros i Hi; split; [lia|apply Hw; lia]|done|done|].
  exists m'. split; [done|]. split; [done|]. intros a Ha. rewrite (Hs' a Ha). unfold bytes_at. destruct (_ && _); [done|by apply Hs].
Qed.

End Writes.

(** * The stack *)

Section Stack.
Variable hb : bool.

(** The strings of an array, one after the other, and the pointers to them. *)
Fixpoint strings (args : list (list Z)) : list Z := match args with [] => [] | a :: args => (a ++ [0]) ++ strings args end.
Fixpoint pointers (sp : Z) (args : list (list Z)) : list Z :=
  match args with [] => [] | a :: args => host_split hb 4 sp ++ pointers (sp + Z.of_nat (S (length a))) args end.

Lemma length_pointers (sp : Z) (args : list (list Z)) : length (pointers sp args) = (4 * length args)%nat.
Proof. revert sp. induction args as [|a args IH]; intros sp; cbn [pointers length]; [done|]. rewrite length_app, IH, length_host_split. lia. Qed.

(** The strings of C are bytes other than NUL. *)
Definition c_strings (args : list (list Z)) : Prop := Forall (fun a => Forall is_byte a /\ Forall (fun b => b <> 0) a) args.

Lemma write_args_ok (args : list (list Z)) : forall (addr sp : Z) (l : loader) (B : Z -> Z),
  c_strings args -> addr mod 4 = 0 -> addr + 4 * Z.of_nat (length args) <= sp -> writable l addr (sp + Z.of_nat (length (strings args))) -> shows (ld_mem l) B ->
  exists l', write_args hb addr sp args l = Ok (addr + 4 * Z.of_nat (length args), sp + Z.of_nat (length (strings args)), l') /\ only_mem l l'
    /\ shows (ld_mem l') (bytes_at sp (strings args) (bytes_at addr (pointers sp args) B)).
Proof.
  induction args as [|a args IH]; intros addr sp l B Hc Hal Hd Hw Hm; cbn [write_args strings pointers length] in *.
  - exists l. rewrite Z.add_0_r, Z.add_0_r. split; [done|]. split; [apply only_mem_refl|]. revert Hm. apply shows_eq. by rewrite !bytes_at_nil.
  - apply Forall_cons in Hc as [[Hb Hnz] Hc]. rewrite !length_app in Hw. cbn [length] in Hw.
    destruct (write_word_ok hb addr (SWAP_WORD sp) l B) as (l1 & -> & O1 & M1); [apply (writable_sub l _ _ _ _ Hw); lia|done|done|]. cbn [mbind outcome_bind].
    destruct (strcpy_ok hb a (S (length a)) sp (a ++ [0]) 0 0 l1 (ld_mem l1) _
      ltac:(apply (writable_mem l l1 _ _ O1), (writable_sub l _ _ _ _ Hw); lia) Hb Hnz eq_refl ltac:(lia) M1) as (m' & E & M2).
    unfold mem_strcpy. rewrite E. cbn [mbind outcome_bind]. set (l2 := l1 <| ld_mem := m' |>).
    assert (only_mem l l2) as O2 by (apply (only_mem_trans l l1 l2 O1); done). pose proof Hw as (H0 & Hhi & _).
    rewrite !u32_small by (unfold SS_PTR_SIZE; lia). change SS_PTR_SIZE with 4.
    destruct (IH (addr + 4) (sp + (0 + Z.of_nat (S (length a)))) l2 _ Hc ltac:(by rewrite Zplus_mod, Hal) ltac:(lia)
      ltac:(apply (writable_mem l l2 _ _ O2), (writable_sub l _ _ _ _ Hw); lia) M2) as (l' & -> & O3 & M3).
    exists l'. split; [do 3 f_equal; rewrite ?length_app; cbn [length]; lia|]. split; [by apply (only_mem_trans l l2 l')|].
    revert M3. apply shows_eq. rewrite (bytes_at_comm (addr + 4) sp) by (rewrite length_pointers; lia).
    rewrite (bytes_at_app sp (a ++ [0]) (strings args)) by (rewrite length_app; cbn [length]; lia).
    unfold SWAP_WORD. rewrite (bytes_at_app addr (host_split hb 4 sp) _ B (addr + 4)) by by rewrite length_host_split. done.
Qed.

(** The memory above the stack pointer, as loader.h draws it. *)
Definition stack_image (sp : Z) (argv envp : list (list Z)) : list Z :=
  let argv_strings := sp + 4 + 4 * Z.of_nat (length argv + 1) + 4 * Z.of_nat (length envp + 1) in
  let envp_strings := argv_strings + Z.of_nat (length (strings argv)) in
  host_split hb 4 (Z.of_nat (length argv))
  ++ (pointers argv_strings argv ++ host_split hb 4 0)
  ++ (pointers envp_strings envp ++ host_split hb 4 0)
  ++ strings argv ++ strings envp.

Lemma write_environ_ok (argv envp : list (list Z)) (sp : Z) (l : loader) (B : Z -> Z) :
  c_strings argv -> c_strings envp -> sp mod 4 = 0 -> writable l sp (sp + Z.of_nat (length (stack_image sp argv envp))) -> shows (ld_mem l) B ->
  exists l', write_environ hb argv envp sp l = Ok (sp + Z.of_nat (length (stack_image sp argv envp)), l') /\ only_mem l l'
    /\ shows (ld_mem l') (bytes_at sp (stack_image sp argv envp) B).
Proof.
  intros Ha He Hal Hw Hm. unfold write_environ. set (st := sp + 4 + 4 * Z.of_nat (length argv + 1) + 4 * Z.of_nat (length envp + 1)).
  assert (Z.of_nat (length (stack_image sp argv envp)) = st - sp + Z.of_nat (length (strings argv)) + Z.of_nat (length (strings envp))) as Hlen.
  { unfold stack_image. rewrite !length_app, !length_pointers, !length_host_split. unfold st. lia. }
  rewrite Hlen in *. pose proof Hw as (H0 & Hhi & _). unfold SS_WORD_SIZE, SS_PTR_SIZE.
  destruct (write_word_ok hb sp (SWAP_WORD (Z.of_nat (length argv))) l B) as (l1 & -> & O1 & M1); [apply (writable_sub l _ _ _ _ Hw); unfold st; lia|done|done|].
  cbn [mbind outcome_bind]. rewrite (u32_small (sp + 4)) by (unfold st in *; lia).
  rewrite (u32_small (sp + 4 + _)) by (unfold st in *; lia). rewrite (u32_small (sp + 4 + _ + _)) by (unfold st in *; lia).
  replace (sp + 4 + (Z.of_nat (length argv) + 1) * 4 + (Z.of_nat (length envp) + 1) * 4) with st by (unfold st; lia).
  destruct (write_args_ok argv (sp + 4) st l1 _ Ha ltac:(by rewrite Zplus_mod, Hal) ltac:(unfold st; lia)
    ltac:(apply (writable_mem l l1 _ _ O1), (writable_sub l _ _ _ _ Hw); unfold st; lia) M1) as (l2 & -> & O2 & M2). cbn [mbind outcome_bind].
  pose proof (only_mem_trans _ _ _ O1 O2) as O12. set (an := sp + 4 + 4 * Z.of_nat (length argv)) in *.
  destruct (write_word_ok hb an 0 l2 _ ltac:(apply (writable_mem l l2 _ _ O12), (writable_sub l _ _ _ _ Hw); unfold an, st; lia)
    ltac:(unfold an; rewrite Z.mul_comm, Z_mod_plus_full, Zplus_mod, Hal; done) M2) as (l3 & -> & O3 & M3). cbn [mbind outcome_bind].
  pose proof (only_mem_trans _ _ _ O12 O3) as O13. replace (sp + 4 + (Z.of_nat (length argv) + 1) * 4) with (an + 4) by (unfold an; lia).
  pose proof (fun H1 H2 H3 => write_args_ok envp (an + 4) (st + Z.of_nat (length (strings argv))) l3 _ He H1 H2 H3 M3) as Hargs.
  destruct Hargs as (l4 & -> & O4 & M4);
    [unfold an; rewrite Zplus_mod, Z.mul_comm, Z_mod_plus_full, (Zplus_mod sp), Hal; done|unfold an, st; lia
    |apply (writable_mem l l3 _ _ O13), (writable_sub l _ _ _ _ Hw); unfold an, st; lia|]. cbn [mbind outcome_bind].
  pose proof (only_mem_trans _ _ _ O13 O4) as O14. set (en := an + 4 + 4 * Z.of_nat (length envp)) in *.
  destruct (write_word_ok hb en 0 l4 _ ltac:(apply (writable_mem l l4 _ _ O14), (writable_sub l _ _ _ _ Hw); unfold en, an, st; lia)
    ltac:(unfold en, an; Z.to_euclidean_division_equations; lia) M4) as (l5 & -> & O5 & M5). cbn [mbind outcome_bind].
  exists l5. split; [do 2 f_equal; lia|]. split; [by apply (only_mem_trans l l4 l5)|]. revert M5. apply shows_eq.
  unfold stack_image. fold st. unfold SWAP_WORD.
  rewrite (bytes_at_comm an st) by (rewrite length_host_split; unfold an, st; lia).
  rewrite (bytes_at_comm (an + 4) st) by (rewrite length_pointers; unfold an, st; lia).
  rewrite (bytes_at_comm en (st + _)) by (rewrite length_host_split; unfold en, an, st; lia).
  rewrite (bytes_at_comm en st) by (rewrite length_host_split; unfold en, an, st; lia).
  rewrite (bytes_at_app st (strings argv)) by done.
  repeat (rewrite (bytes_at_app sp) by (rewrite ?length_app, ?length_pointers, ?length_host_split; unfold en, an, st; lia)).
  by rewrite <- !app_assoc.
Qed.

(** An array of strings in memory: pointers to the strings, and NULL. *)
Definition string_array (m : mem_state) (addr : Z) (args : list (list Z)) : Prop :=
  (forall i s, args !! i = Some s -> exists p, 0 <= p < 2 ^ 31 /\ mem_bytes m (addr + 4 * Z.of_nat i) 4 = host_split hb 4 p /\ mem_bytes m p (S (length s)) = s ++ [0])
  /\ mem_bytes m (addr + 4 * Z.of_nat (length args)) 4 = host_split hb 4 0.

(** The stack as the startup code of a program expects it: argc, argv and, behind it,
    envp. *)
Definition stack_layout (m : mem_state) (sp : Z) (argv envp : list (list Z)) : Prop :=
  mem_bytes m sp 4 = host_split hb 4 (Z.of_nat (length argv)) /\ string_array m (sp + 4) argv
  /\ string_array m (sp + 4 + 4 * Z.of_nat (length argv + 1)) envp.

(** The i-th string of an array and its pointer, in the lists. *)
Lemma strings_split (args : list (list Z)) (i : nat) (s : list Z) : args !! i = Some s -> forall sp, exists p1 p2 s1 s2,
  pointers sp args = p1 ++ host_split hb 4 (sp + Z.of_nat (length s1)) ++ p2 /\ length p1 = (4 * i)%nat /\ strings args = s1 ++ (s ++ [0]) ++ s2.
Proof.
  revert i. induction args as [|a args IH]; intros [|i] H sp; try discriminate H.
  - injection H as ->. exists [], (pointers (sp + Z.of_nat (S (length s))) args), [], (strings args). cbn [pointers strings length app]. by rewrite Z.add_0_r.
  - destruct (IH i H (sp + Z.of_nat (S (length a)))) as (p1 & p2 & s1 & s2 & Hp & Hl & Hs).
    exists (host_split hb 4 sp ++ p1), p2, ((a ++ [0]) ++ s1), s2. cbn [pointers strings]. rewrite Hp, Hs. split; [|split].
    + rewrite <- !app_assoc. do 4 f_equal. rewrite !length_app. cbn [length]. lia.
    + rewrite length_app, length_host_split, Hl. lia.
    + by rewrite <- !app_assoc.
Qed.

Section Image.
Variables (m : mem_state) (B : Z -> Z) (sp : Z) (image : list Z).
Hypothesis Hm : shows m (bytes_at sp image B).
Hypothesis H0 : 0 <= sp.
Hypothesis Hhi : sp + Z.of_nat (length image) <= 2 ^ 31.

Lemma image_bytes (l1 bs l2 : list Z) (addr : Z) (n : nat) : image = l1 ++ bs ++ l2 -> addr = sp + Z.of_nat (length l1) -> n = length bs -> mem_bytes m addr n = bs.
Proof. intros Hi -> ->. apply (shows_bytes m B sp bs l1 l2); by rewrite <- ?Hi. Qed.

(** A part of the image that has the pointers, and another that has the strings. *)
Lemma image_array (args : list (list Z)) (st addr : Z) (l1 l2 l3 l4 : list Z) :
  image = l1 ++ (pointers st args ++ host_split hb 4 0) ++ l2 -> addr = sp + Z.of_nat (length l1) ->
  image = l3 ++ strings args ++ l4 -> st = sp + Z.of_nat (length l3) -> string_array m addr args.
Proof.
  intros Hp Ha Hs Hst. split.
  - intros i s Hi. destruct (strings_split args i s Hi st) as (p1 & p2 & s1 & s2 & Ep & Hl & Es). exists (st + Z.of_nat (length s1)). rewrite Es in Hs. pose proof Hhi as Hend. rewrite Hs, !length_app in Hend. cbn [length] in Hend. split; [lia|]. split.
    + apply (image_bytes (l1 ++ p1) _ (p2 ++ host_split hb 4 0 ++ l2)); [rewrite Hp, Ep; by rewrite <- !app_assoc|rewrite length_app; lia|by rewrite length_host_split].
    + apply (image_bytes (l3 ++ s1) _ (s2 ++ l4)); [rewrite Hs; by rewrite <- !app_assoc|rewrite length_app; lia|rewrite length_app; cbn; lia].
  - apply (image_bytes (l1 ++ pointers st args) _ l2); [rewrite Hp; by rewrite <- !app_assoc|rewrite length_app, length_pointers; lia|by rewrite length_host_split].
Qed.
End Image.

Lemma stack_image_layout (m : mem_state) (B : Z -> Z) (sp : Z) (argv envp : list (list Z)) :
  shows m (bytes_at sp (stack_image sp argv envp) B) -> 0 <= sp -> sp + Z.of_nat (length (stack_image sp argv envp)) <= 2 ^ 31 ->
  stack_layout m sp argv envp.
Proof.
  intros Hm H0 Hhi. split; [|split].
  - apply (image_bytes m B sp _ Hm H0 Hhi [] _ (drop 4 (stack_image sp argv envp))); [|cbn; lia|by rewrite length_host_split].
    unfold stack_image. cbn [app]. f_equal. symmetry. apply drop_app_length'. by rewrite length_host_split.
  - unfold stack_image in *. set (st := sp + 4 + _ + _) in *.
    eapply (image_array m B sp _ Hm H0 Hhi argv st _ (host_split hb 4 (Z.of_nat (length argv))) _
      (host_split hb 4 (Z.of_nat (length argv)) ++ (pointers st argv ++ host_split hb 4 0) ++ pointers (st + Z.of_nat (length (strings argv))) envp ++ host_split hb 4 0));
      [reflexivity|by rewrite length_host_split|by rewrite <- !app_assoc|].
    rewrite !length_app, !length_pointers, !length_host_split. unfold st. lia.
  - unfold stack_image in *. set (st := sp + 4 + _ + _) in *.
    eapply (image_array m B sp _ Hm H0 Hhi envp (st + Z.of_nat (length (strings argv))) _
      (host_split hb 4 (Z.of_nat (length argv)) ++ pointers st argv ++ host_split hb 4 0) _
      (host_split hb 4 (Z.of_nat (length argv)) ++ (pointers st argv ++ host_split hb 4 0) ++ (pointers (st + Z.of_nat (length (strings argv))) envp ++ host_split hb 4 0) ++ strings argv) []);
      [by rewrite <- !app_assoc|rewrite !length_app, !length_pointers, !length_host_split; lia|by rewrite app_nil_r, <- !app_assoc|].
    rewrite !length_app, !length_pointers, !length_host_split. unfold st. lia.
Qed.

End Stack.

(** * The sections *)

Section Sections.
Variables (hb : bool) (file : list Z).

(** The sections that are copied, their contents in the file and their place. *)
Definition loadable (h : ecoff_scnhdr) : bool :=
  (s_flags h =? ECOFF_STYP_TEXT) || (s_flags h =? ECOFF_STYP_RDATA) || (s_flags h =? ECOFF_STYP_DATA) || (s_flags h =? ECOFF_STYP_SDATA).

Definition contents (h : ecoff_scnhdr) : list Z := take (Z.to_nat (s_size h)) (drop (Z.to_nat (s_scnptr h)) file).

Definition in_section (a : Z) (h : ecoff_scnhdr) : Prop := loadable h = true /\ s_vaddr h <= a < s_vaddr h + s_size h.

Definition apart (h1 h2 : ecoff_scnhdr) : Prop := loadable h1 = true -> loadable h2 = true ->
  s_vaddr h1 + s_size h1 <= s_vaddr h2 \/ s_vaddr h2 + s_size h2 <= s_vaddr h1.

(** A section of the file that fits below the stack. *)
Definition section_fits (hi : Z) (h : ecoff_scnhdr) : Prop := loadable h = true ->
  0 < s_size h /\ 0 <= s_scnptr h /\ s_scnptr h + s_size h <= Z.of_nat (length file) /\ 0 <= s_vaddr h /\ s_vaddr h + s_size h <= hi.

(** The size of the text segment: up to the end of the last text section, and 128. *)
Fixpoint text_size (sz : Z) (hs : list ecoff_scnhdr) : Z :=
  match hs with
  | [] => sz
  | h :: hs => text_size (if s_flags h =? ECOFF_STYP_TEXT then u32 (s_vaddr h + s_size h - SS_TEXT_BASE + 128) else sz) hs
  end.

Fixpoint sections_image (hs : list ecoff_scnhdr) (B : Z -> Z) : Z -> Z :=
  match hs with [] => B | h :: hs => sections_image hs (if loadable h then bytes_at (s_vaddr h) (contents h) B else B) end.

Lemma length_contents (hi : Z) (h : ecoff_scnhdr) : section_fits hi h -> loadable h = true -> Z.of_nat (length (contents h)) = s_size h.
Proof. intros Hf Hl. destruct (Hf Hl) as (H1 & H2 & H3 & _). unfold contents. rewrite length_take, length_drop. lia. Qed.

Lemma fread_contents (hi : Z) (h : ecoff_scnhdr) : section_fits hi h -> loadable h = true -> fread file (s_scnptr h) (s_size h) = Some (contents h).
Proof.
  intros Hf Hl. destruct (Hf Hl) as (H1 & H2 & H3 & _). unfold fread.
  by replace ((0 <? s_size h) && (s_scnptr h + s_size h <=? Z.of_nat (length file))) with true by blia.
Qed.

(** Sections that lie apart do not overwrite each other. *)
Lemma sections_image_out (hs : list ecoff_scnhdr) (hi a : Z) : forall B, Forall (section_fits hi) hs -> (forall h, h ∈ hs -> ~ in_section a h) -> sections_image hs B a = B a.
Proof.
  induction hs as [|h hs IH]; intros B Hf Ha; cbn [sections_image]; [done|]. apply Forall_cons in Hf as [Hf Hfs].
  rewrite IH; [|done|set_solver]. destruct (loadable h) eqn:Hl; [|done]. apply bytes_at_out. rewrite (length_contents hi h Hf Hl).
  specialize (Ha h ltac:(set_solver)). unfold in_section in Ha. destruct (Z_lt_dec a (s_vaddr h)), (Z_le_dec (s_vaddr h + s_size h) a); try lia. destruct Ha. split; [done|lia].
Qed.

Lemma sections_image_in (hs : list ecoff_scnhdr) (hi : Z) (h : ecoff_scnhdr) (i : nat) (b : Z) : forall B, Forall (section_fits hi) hs -> ForallOrdPairs apart hs ->
  h ∈ hs -> loadable h = true -> contents h !! i = Some b -> sections_image hs B (s_vaddr h + Z.of_nat i) = b.
Proof.
  induction hs as [|h' hs IH]; intros B Hf Hd Hin Hl Hb; [by apply elem_of_nil in Hin|]. cbn [sections_image].
  apply Forall_cons in Hf as [Hf Hfs]. inversion Hd as [|? ? Hap Hd']; subst. apply elem_of_cons in Hin as [->|Hin]; [|by apply IH].
  rewrite Hl, (sections_image_out hs hi); [by apply bytes_at_in|done|]. intros h2 H2 [Hl2 Hr].
  apply lookup_lt_Some in Hb. pose proof (length_contents hi h' Hf Hl). rewrite List.Forall_forall in Hap.
  destruct (Hap h2 (proj1 (list_elem_of_In _ _) H2) Hl Hl2); lia.
Qed.

Hypothesis file_bytes : Forall is_byte file.

(** Before the data segment is known, everything below the stack can be written. *)
Definition loading (l : loader) : Prop := ld_data_base (ld l) = 0 /\ ld_stack_base (ld l) = SS_STACK_BASE.

Lemma loading_writable (l : loader) (lo hi : Z) : loading l -> 0 <= lo -> hi <= SS_STACK_BASE -> writable l lo hi.
Proof.
  intros [Hd Hs] Hlo Hhi. unfold SS_STACK_BASE in *. split; [lia|]. split; [lia|]. intros a Ha. unfold mem_perm. rewrite Hd, Hs.
  replace (0 <=? a) with true by blia. replace (a <? 0x7fffc000) with true by blia. apply orb_true_r.
Qed.

Lemma load_contents_ok (h : ecoff_scnhdr) (l : loader) (B : Z -> Z) : loading l -> section_fits SS_STACK_BASE h -> loadable h = true -> shows (ld_mem l) B ->
  exists l', load_contents hb file h l = Ok l' /\ only_mem l l' /\ shows (ld_mem l') (bytes_at (s_vaddr h) (contents h) B).
Proof.
  intros Hload Hf Hl Hm. destruct (Hf Hl) as (H1 & H2 & H3 & H4 & H5). pose proof (length_contents _ h Hf Hl) as Hlen.
  unfold load_contents. rewrite !fatal_if_false by blia. cbn [mbind outcome_bind]. rewrite (fread_contents _ h Hf Hl). cbn [must_read mbind outcome_bind].
  rewrite u32_small by (unfold SS_STACK_BASE in *; lia). replace (Z.to_nat (s_size h)) with (length (contents h)) by lia.
  destruct (bcopy_ok hb (s_vaddr h) (contents h) l (ld_mem l) B) as (m' & -> & Hm').
  - apply loading_writable; [done|lia|lia].
  - unfold contents. by apply Forall_take, Forall_drop.
  - done.
  - cbn [mbind outcome_bind]. eexists. split; [reflexivity|]. by split.
Qed.

Lemma load_section_ok (h : ecoff_scnhdr) (l : loader) (B : Z -> Z) : loading l -> section_fits SS_STACK_BASE h -> shows (ld_mem l) B ->
  exists l', load_section hb file h l = Ok l'
    /\ only_mem (l <| ld ::= set_field ld_text_size (fun sz => text_size sz [h]) |>) l'
    /\ shows (ld_mem l') (sections_image [h] B).
Proof.
  intros Hload Hf Hm. unfold load_section, sections_image, text_size. pose proof (load_contents_ok h) as Hc. unfold loadable in *.
  destruct (s_flags h =? ECOFF_STYP_TEXT); cbn [orb] in *.
  - destruct (Hc (l <| ld ::= set_field ld_text_size (fun _ => u32 (s_vaddr h + s_size h - SS_TEXT_BASE + 128)) |>) B) as (l' & -> & Ho & Hm'); [done..|]. by exists l'.
  - assert (l = l <| ld ::= set_field ld_text_size (fun sz => sz) |>) as Hsame by (destruct l as [[] ? ? ? ? ?]; done). rewrite <- Hsame.
    destruct (_ || _) eqn:E in |- *; rewrite E in *.
    + apply Hc; done.
    + exists l. split; [done|]. split; [apply only_mem_refl|done].
Qed.

Lemma load_sections_ok (hs : list ecoff_scnhdr) : forall (floc : Z) (l : loader) (B : Z -> Z),
  (forall i h, hs !! i = Some h -> exists bs, fread file (floc + sizeof_scnhdr * Z.of_nat i) sizeof_scnhdr = Some bs /\ get_scnhdr hb bs = h) ->
  Forall (section_fits SS_STACK_BASE) hs -> loading l -> shows (ld_mem l) B ->
  exists l', load_sections hb file floc (length hs) l = Ok l'
    /\ only_mem (l <| ld ::= set_field ld_text_size (fun sz => text_size sz hs) |>) l'
    /\ shows (ld_mem l') (sections_image hs B).
Proof.
  induction hs as [|h hs IH]; intros floc l B Hhs Hf Hload Hm; cbn [length load_sections].
  - exists l. split; [done|]. split; [|done]. by destruct l as [[] ? ? ? ? ?].
  - destruct (Hhs 0%nat h eq_refl) as (bs & Hr & Hh). rewrite Z.mul_0_r, Z.add_0_r in Hr. rewrite Hr. cbn [must_read mbind outcome_bind]. rewrite Hh.
    apply Forall_cons in Hf as [Hf Hfs]. destruct (load_section_ok h l B Hload Hf Hm) as (l1 & -> & O1 & M1). cbn [mbind outcome_bind].
    assert (loading l1) as Hload1 by (rewrite O1; by destruct Hload).
    destruct (IH (floc + sizeof_scnhdr) l1 _ ltac:(intros i h' Hi; replace (floc + sizeof_scnhdr + sizeof_scnhdr * Z.of_nat i)
      with (floc + sizeof_scnhdr * Z.of_nat (S i)) by (unfold sizeof_scnhdr; lia); by apply Hhs) Hfs Hload1 M1) as (l2 & -> & O2 & M2).
    exists l2. split; [done|]. split; [|exact M2]. unfold only_mem in *. rewrite O2, O1. done.
Qed.

End Sections.

(** A text or data section that is empty ends the simulation: [fread] cannot read it. *)
Lemma empty_section_fatal (hb : bool) (file : list Z) (h : ecoff_scnhdr) (l : loader) :
  loadable h = true -> s_size h = 0 -> load_section hb file h l = Fatal.
Proof.
  intros Hl Hz. unfold load_section, load_contents, loadable in *. rewrite Hz. replace (fread file (s_scnptr h) 0) with (@None (list Z)) by done.
  cbn [must_read fatal_if Z.ltb Z.compare mbind outcome_bind]. destruct (s_flags h =? ECOFF_STYP_TEXT); cbn [orb] in *; [|rewrite Hl]; by destruct (_ <? 0).
Qed.

(** * Correctness *)

(** What the file holds: the headers, in the byte order of the host, and the table of
    sections behind the optional header. *)
Record exe_file (hb : bool) (file : list Z) (fh : ecoff_filehdr) (ah : ecoff_aouthdr) (hs : list ecoff_scnhdr) : Prop := {
  ef_bytes : Forall is_byte file;
  ef_filehdr : exists bs, fread file 0 sizeof_filehdr = Some bs /\ get_filehdr hb bs = fh;
  ef_aouthdr : exists bs, fread file sizeof_filehdr sizeof_aouthdr = Some bs /\ get_aouthdr hb bs = ah;
  ef_count : f_nscns fh = Z.of_nat (length hs);
  ef_sections i h : hs !! i = Some h ->
    exists bs, fread file (sizeof_filehdr + f_opthdr fh + sizeof_scnhdr * Z.of_nat i) sizeof_scnhdr = Some bs /\ get_scnhdr hb bs = h;
}.

(** Where the stack starts. *)
Definition environ_base : Z := SS_STACK_BASE - SS_MAX_ENVIRON.

(** The executable is for this host, and has a text and a data segment, an entry and
    sections that lie apart, below the stack. *)
Record exe_ok (hb : bool) (file : list Z) (fh : ecoff_filehdr) (ah : ecoff_aouthdr) (hs : list ecoff_scnhdr) : Prop := {
  eo_magic : f_magic fh = if hb then ECOFF_EB_MAGIC else ECOFF_EL_MAGIC;
  eo_fits : Forall (section_fits file environ_base) hs;
  eo_apart : ForallOrdPairs apart hs;
  eo_text : text_size 0 hs <> 0;
  eo_data : u32 (dsize ah + bsize ah) <> 0;
  eo_entry : u32 (entry ah) <> 0;
}.

(** The arguments and the environment fit into the space above the stack pointer. *)
Definition environ_fits (hb : bool) (argv envp : list (list Z)) : Prop :=
  Z.of_nat (length (stack_image hb environ_base argv envp)) <= SS_MAX_ENVIRON.

Lemma data_size (d b : Z) : u32 (u32 (SS_DATA_BASE + d + b) - SS_DATA_BASE) = u32 (d + b).
Proof. unfold u32. rewrite Zminus_mod_idemp_l. f_equal. lia. Qed.

(** The host is taken for what it is, and the program is of its kind. *)
Lemma endian_matches (hb : bool) :
  bool_decide (endian_host_byte_order hb = endian_target_byte_order hb) = true /\ bool_decide (endian_host_word_order hb = endian_target_word_order hb) = true.
Proof. by destruct hb. Qed.

Lemma stack_writable (l : loader) (hi : Z) : (exists ts ds, ld l = mk_ld SS_TEXT_BASE ts SS_DATA_BASE ds SS_STACK_BASE) -> hi <= SS_STACK_BASE -> writable l environ_base hi.
Proof.
  intros (ts & ds & Hl) Hhi. unfold environ_base, SS_MAX_ENVIRON, SS_STACK_BASE, SS_DATA_BASE in *. split; [lia|]. split; [lia|]. intros a Ha. unfold mem_perm.
  rewrite Hl. cbn [ld_data_base ld_stack_base]. replace (0x10000000 <=? a) with true by blia. replace (a <? 0x7fffc000) with true by blia. apply orb_true_r.
Qed.

(** [ld_load_prog], from any memory. *)
Lemma ld_load_prog_image (hb : bool) file fh ah hs argv envp m :
  exe_file hb file fh ah hs -> exe_ok hb file fh ah hs -> c_strings argv -> c_strings envp -> environ_fits hb argv envp -> bytes_ok m ->
  exists l, ld_load_prog hb (Some file) argv envp (no_program m) = Ok l
    /\ ld l = mk_ld SS_TEXT_BASE (text_size 0 hs) SS_DATA_BASE (u32 (dsize ah + bsize ah)) SS_STACK_BASE
    /\ ld_prog_entry l = u32 (entry ah) /\ ld_environ_base l = environ_base /\ ld_stack_size l = SS_MAX_ENVIRON
    /\ (forall h, h ∈ hs -> loadable h = true -> mem_bytes (ld_mem l) (s_vaddr h) (Z.to_nat (s_size h)) = contents file h)
    /\ stack_layout hb (ld_mem l) environ_base argv envp
    /\ forall a, 0 <= a < 2 ^ 31 -> (forall h, h ∈ hs -> ~ in_section a h) ->
         a < environ_base \/ environ_base + Z.of_nat (length (stack_image hb environ_base argv envp)) <= a -> mem_byte (ld_mem l) a = mem_byte m a.
Proof.
  intros [Hb (fb & Hf & Hfh) (ab & Ha & Hah) Hn Hs] [Hmagic Hfits Hap Ht Hd He] Hargv Henvp Hsz Hm. unfold ld_load_prog.
  cbn [mbind outcome_bind]. rewrite Hf. cbn [must_read mbind outcome_bind]. rewrite Hfh, Hmagic.
  assert ((if (if hb then ECOFF_EB_MAGIC else ECOFF_EL_MAGIC) =? ECOFF_EB_MAGIC then Ok true
    else if (if hb then ECOFF_EB_MAGIC else ECOFF_EL_MAGIC) =? ECOFF_EL_MAGIC then Ok false else Fatal) = Ok hb) as -> by (by destruct hb).
  cbn [mbind outcome_bind]. rewrite Ha. cbn [must_read mbind outcome_bind]. rewrite Hah, Hn, Nat2Z.id.
  change (ROUND_DOWN (SS_STACK_BASE - SS_MAX_ENVIRON) SS_DOUBLE_SIZE) with environ_base.
  match goal with |- context [load_sections _ _ _ _ ?l0] => set (l := l0) end.
  assert (Forall (section_fits file SS_STACK_BASE) hs) as Hfits2.
  { eapply Forall_impl; [exact Hfits|]. intros h Hh Hl. destruct (Hh Hl) as (? & ? & ? & ? & ?). split_and!; try done. unfold environ_base, SS_MAX_ENVIRON in *. lia. }
  destruct (load_sections_ok hb file Hb hs (sizeof_filehdr + f_opthdr fh) l (mem_byte m) Hs Hfits2) as (l1 & -> & O1 & M1); [done|by split|].
  cbn [mbind outcome_bind].
  match goal with |- context [write_environ _ _ _ _ ?x] => set (l2 := x) end.
  assert (ld l2 = mk_ld SS_TEXT_BASE (text_size 0 hs) SS_DATA_BASE (u32 (dsize ah + bsize ah)) SS_STACK_BASE) as Eld.
  { unfold l2. rewrite O1. cbn. f_equal. by rewrite data_size. }
  assert (ld_prog_entry l2 = u32 (entry ah) /\ ld_environ_base l2 = environ_base /\ ld_stack_size l2 = SS_MAX_ENVIRON /\ ld_mem l2 = ld_mem l1) as (Ee & Eb & Es & Em)
    by (unfold l2; rewrite O1; done).
  rewrite !Eld, Ee. cbn [ld_text_base ld_text_size ld_data_base ld_data_size].
  rewrite (proj2 (Z.eqb_neq _ _) Ht), (proj2 (Z.eqb_neq _ _) Hd), (proj2 (Z.eqb_neq _ _) He). cbn [orb fatal_if mbind outcome_bind].
  destruct (endian_matches hb) as [-> ->]. cbn [negb fatal_if mbind outcome_bind]. rewrite <- Em in M1. unfold environ_fits in Hsz.
  destruct (write_environ_ok hb argv envp environ_base l2 _ Hargv Henvp eq_refl ltac:(apply stack_writable; [by eexists _, _|pose proof (eq_refl : environ_base = SS_STACK_BASE - SS_MAX_ENVIRON); lia]) M1) as (l3 & -> & O3 & M3).
  cbn [mbind outcome_bind].
  assert (ld l3 = ld l2 /\ ld_prog_entry l3 = ld_prog_entry l2 /\ ld_environ_base l3 = ld_environ_base l2 /\ ld_stack_size l3 = ld_stack_size l2) as (F1 & F2 & F3 & F4)
    by (by rewrite O3).
  pose proof (eq_refl : environ_base = SS_STACK_BASE - SS_MAX_ENVIRON) as Ebase. pose proof M3 as [Hok Hshow].
  rewrite F1, Eld. cbn [ld_stack_base]. rewrite fatal_if_false by (apply Z.ltb_ge; lia). cbn [mbind outcome_bind]. exists l3.
  rewrite F1, F2, F3, F4. split; [done|]. split; [exact Eld|]. split; [exact Ee|]. split; [exact Eb|]. split; [exact Es|]. split; [|split].
  - intros h Hh Hl. pose proof (proj1 (Forall_forall _ _) Hfits h Hh) as Hfit. destruct (Hfit Hl) as (S1 & S2 & S3 & S4 & S5).
    pose proof (length_contents file _ h Hfit Hl) as Hlen. apply list_eq. intros i. unfold mem_bytes. rewrite (list_lookup_fmap _ (seq _ _) i : map _ _ !! i = _).
    destruct (decide (i < Z.to_nat (s_size h))%nat) as [Hi|Hi]; [|rewrite lookup_seq_ge by lia; symmetry; apply lookup_ge_None_2; lia].
    rewrite lookup_seq_lt by done. destruct (lookup_lt_is_Some_2 (contents file h) i) as [b Hcb]; [lia|]. rewrite Hcb. cbn. f_equal.
    rewrite Hshow by (unfold environ_base, SS_STACK_BASE in *; lia). rewrite bytes_at_out by lia.
    by apply (sections_image_in file hs environ_base).
  - apply (stack_image_layout hb (ld_mem l3) _ environ_base argv envp M3); [done|unfold SS_STACK_BASE in *; lia].
  - intros a Hr Hsec Hstk. rewrite Hshow by done. rewrite bytes_at_out by done. by apply (sections_image_out file hs environ_base).
Qed.

Lemma regs_start (e : Z) : regs_init environ_base e regs_static = Ok (mk_regs (<[29%nat := environ_base]> (repeat 0 32)) (repeat 0 32) 0 0 0 e).
Proof. vm_compute. reflexivity. Qed.

Lemma regs_start_sp : z_get (<[29%nat := environ_base]> (repeat 0 32)) SS_STACK_REGNO = Ok environ_base.
Proof. vm_compute. reflexivity. Qed.

(** [mem_init1] sets the bounds of the heap and the stack only. *)
Lemma mem_init1_byte (b : ld_bounds) (sp : Z) (m : mem_state) (a : Z) : mem_byte (mem_init1 b sp m) a = mem_byte m a.
Proof. reflexivity. Qed.

Lemma mem_init1_bytes (b : ld_bounds) (sp : Z) (m : mem_state) (a : Z) (n : nat) : mem_bytes (mem_init1 b sp m) a n = mem_bytes m a n.
Proof. reflexivity. Qed.

Lemma mem_init1_brk (b : ld_bounds) (sp : Z) (m : mem_state) : mem_brk_point (mem_init1 b sp m) = ROUND_UP (u32 (ld_data_base b + ld_data_size b)) 4096.
Proof. reflexivity. Qed.

Lemma mem_init1_stack (b : ld_bounds) (m : mem_state) : mem_stack_min (mem_init1 b environ_base m) = environ_base.
Proof. change (u32 environ_base = environ_base). by vm_compute. Qed.

Lemma stack_layout_init1 (hb : bool) (b : ld_bounds) (sp' : Z) (m : mem_state) (sp : Z) argv envp :
  stack_layout hb m sp argv envp -> stack_layout hb (mem_init1 b sp' m) sp argv envp.
Proof. exact (fun H => H). Qed.

Lemma loader_started_ld (f : mem_state -> mem_state) (l : loader) : ld (l <| ld_mem ::= f |>) = ld l.
Proof. reflexivity. Qed.

Lemma loader_started_mem (f : mem_state -> mem_state) (l : loader) : ld_mem (l <| ld_mem ::= f |>) = f (ld_mem l).
Proof. reflexivity. Qed.

Lemma mem_init_byte (a : Z) : mem_byte mem_init a = 0.
Proof. reflexivity. Qed.

(** [main], once the program is loaded. *)
Lemma start_program_loaded (hb : bool) exe argv envp (l : loader) (e : Z) :
  ld_load_prog hb exe argv envp (no_program mem_init) = Ok l -> ld_prog_entry l = e -> ld_environ_base l = environ_base ->
  start_program hb exe argv envp
  = Ok (l <| ld_mem ::= mem_init1 (ld l) environ_base |>, mk_regs (<[29%nat := environ_base]> (repeat 0 32)) (repeat 0 32) 0 0 0 e).
Proof.
  intros Hl He Hb. unfold start_program. rewrite Hl, mbind_ok, He, Hb, regs_start, mbind_ok. cbn [regs_R]. by rewrite regs_start_sp, mbind_ok.
Qed.

(** C18: An executable is loaded as its headers say: the contents of every section are
    at its address, the segment bounds and the entry point are those of the headers, and
    from the stack pointer up the memory has argc, the array of pointers to the arguments
    and the one to the environment, both ended by NULL, every pointer leading to its
    string, as loader.h draws it.  Every other byte is zero.  The registers are zero but for the
    stack pointer and the PC, and the heap starts at the page behind the data. *)
Theorem start_program_image (hb : bool) file fh ah hs argv envp :
  exe_file hb file fh ah hs -> exe_ok hb file fh ah hs -> c_strings argv -> c_strings envp -> environ_fits hb argv envp ->
  exists l r, start_program hb (Some file) argv envp = Ok (l, r)
    /\ ld l = mk_ld SS_TEXT_BASE (text_size 0 hs) SS_DATA_BASE (u32 (dsize ah + bsize ah)) SS_STACK_BASE
    /\ (forall h, h ∈ hs -> loadable h = true -> mem_bytes (ld_mem l) (s_vaddr h) (Z.to_nat (s_size h)) = contents file h)
    /\ stack_layout hb (ld_mem l) environ_base argv envp
    /\ (forall a, 0 <= a < 2 ^ 31 -> (forall h, h ∈ hs -> ~ in_section a h) ->
         a < environ_base \/ environ_base + Z.of_nat (length (stack_image hb environ_base argv envp)) <= a -> mem_byte (ld_mem l) a = 0)
    /\ r = mk_regs (<[29%nat := environ_base]> (repeat 0 32)) (repeat 0 32) 0 0 0 (u32 (entry ah))
    /\ mem_brk_point (ld_mem l) = ROUND_UP (u32 (SS_DATA_BASE + u32 (dsize ah + bsize ah))) 4096 /\ mem_stack_min (ld_mem l) = environ_base.
Proof.
  intros Hfile Hok Ha He Hf. destruct (ld_load_prog_image hb file fh ah hs argv envp mem_init Hfile Hok Ha He Hf bytes_ok_init)
    as (l & Hl & Hld & Hen & Hbase & _ & Hsec & Hstk & Hrest).
  exists (l <| ld_mem ::= mem_init1 (ld l) environ_base |>). eexists. split; [by apply start_program_loaded|].
  rewrite loader_started_ld, loader_started_mem. split; [exact Hld|]. split; [|split; [|split; [|split; [|split]]]].
  - intros h Hh Hlo. rewrite mem_init1_bytes. by apply Hsec.
  - by apply (stack_layout_init1 hb).
  - intros a Hr Hs Ho. rewrite mem_init1_byte, <- (mem_init_byte a). by apply Hrest.
  - done.
  - by rewrite mem_init1_brk, Hld.
  - by rewrite mem_init1_stack.
Qed.

(** A program of two instructions and a word of data, for a little endian host. *)
Definition ld_example_int (v : Z) : list Z := host_split false 4 v.
Definition ld_example_scnhdr (vaddr size scnptr flags : Z) : list Z :=
  repeat 0 12 ++ ld_example_int vaddr ++ ld_example_int size ++ ld_example_int scnptr ++ repeat 0 12 ++ ld_example_int flags.
Definition ld_example_file : list Z :=
  ([0x62; 1; 3; 0] ++ repeat 0 12 ++ [56; 0; 0; 0])
  ++ (repeat 0 8 ++ ld_example_int 4 ++ ld_example_int 8 ++ ld_example_int 0x400000 ++ repeat 0 36)
  ++ ld_example_scnhdr 0x400000 16 196 ECOFF_STYP_TEXT ++ ld_example_scnhdr 0x10000000 4 212 ECOFF_STYP_DATA
  ++ ld_example_scnhdr 0x10000004 8 0 ECOFF_STYP_BSS
  ++ map Z.of_nat (seq 1 20).
Definition ld_example_hdrs : list ecoff_scnhdr :=
  [mk_scnhdr 0x400000 16 196 ECOFF_STYP_TEXT; mk_scnhdr 0x10000000 4 212 ECOFF_STYP_DATA; mk_scnhdr 0x10000004 8 0 ECOFF_STYP_BSS].

Lemma ld_example_is_file :
  exe_file false ld_example_file (mk_filehdr ECOFF_EL_MAGIC 3 56) (mk_aouthdr 4 8 0x400000) ld_example_hdrs.
Proof.
  split.
  - apply (bool_decide_unpack _). by vm_compute.
  - by eexists.
  - by eexists.
  - done.
  - intros [|[|[|i]]] h Hh; [injection Hh as <-..|by destruct i]; eexists; (split; [vm_compute; reflexivity|by vm_compute]).
Qed.

Lemma ld_example_is_ok : exe_ok false ld_example_file (mk_filehdr ECOFF_EL_MAGIC 3 56) (mk_aouthdr 4 8 0x400000) ld_example_hdrs.
Proof.
  split; try done.
  - repeat apply List.Forall_cons; try apply List.Forall_nil; intros Hl; try discriminate Hl; vm_compute; repeat split; discriminate.
  - repeat apply FOP_cons; repeat apply List.Forall_cons; try apply List.Forall_nil; try apply FOP_nil;
      intros Hl Hl'; try discriminate Hl; try discriminate Hl'; left; vm_compute; discriminate.
Qed.

Definition ld_example_argv : list (list Z) := [[97]; [45; 98]].
Definition ld_example_envp : list (list Z) := [[88; 61; 49]].

Lemma start_program_image_witness : exists l r, start_program false (Some ld_example_file) ld_example_argv ld_example_envp = Ok (l, r)
  /\ mem_bytes (ld_mem l) 0x400000 16 = map Z.of_nat (seq 1 16) /\ stack_layout false (ld_mem l) 0x7fff8000 ld_example_argv ld_example_envp.
Proof.
  destruct (start_program_image false ld_example_file (mk_filehdr ECOFF_EL_MAGIC 3 56) (mk_aouthdr 4 8 0x400000) ld_example_hdrs
    ld_example_argv ld_example_envp ld_example_is_file ld_example_is_ok) as (l & r & E & _ & Hs & Hl & _).
  - apply (bool_decide_unpack _). by vm_compute.
  - apply (bool_decide_unpack _). by vm_compute.
  - by vm_compute.
  - exists l, r. split; [exact E|]. split; [|exact Hl].
    exact (Hs (mk_scnhdr 0x400000 16 196 ECOFF_STYP_TEXT) (list_elem_of_here _ _) eq_refl).
Defined.
